(* ===== verification/_CoqProject ===== *)
-Q . S2P
Prelude.v
Collections.v
RingBuffer.v
Assembler.v
PacketBuffer.v
Time.v
SeqNumber.v
Bytes.v
Octets.v
Phy.v
Ip.v
LinkLayer.v
Flags.v
DnsWire.v
Arp.v
Ipv4Wire.v
Ipv6Wire.v
Ipv6Ext.v
Icmpv4Wire.v
Icmpv6Wire.v
NdiscWire.v
MldWire.v
Icmpv6Messages.v
NdiscProps.v
Icmpv6Props.v
Cidr.v
Ipv6Source.v
Route.v
Neighbor.v
Fragmentation.v
UdpWire.v
TcpWire.v
Packet.v
Ipv4Fragments.v
TcpWireProps.v
TcpTimers.v
Congestion.v
Context.v
Iface.v
Dhcpv4Wire.v
Dhcpv4Socket.v
Dhcpv4Spec.v
Dhcpv4Run.v
DnsSocket.v
DnsSpec.v
DnsRun.v
IcmpSocket.v
IcmpSpec.v
RawSocket.v
RawSpec.v
UdpSocket.v
UdpSpec.v
TcpSocket.v
IfaceProcess.v
Ipv6Iface.v
IfaceArp.v
TcpLogic.v
TcpSegment.v
TcpProcess.v
TcpTransitions.v
TcpDispatch.v
TcpRun.v
IfaceSafety.v
Ipv6Safety.v
Ipv6Resolution.v
IfaceLink.v
IfaceFragments.v
IfaceFindings.v
TcpStream.v
TcpPoll.v
IfacePoll.v
TcpFindings.v
TcpSpec.v
TcpEndToEnd.v
