(* ===== verification/Prelude.v ===== *)
(** * Verification of the smoltcp TCP/IP stack: overview and prelude

    smoltcp is a TCP/IP stack in Rust for systems without a heap.  An interface
    (src/src/iface) takes frames from a device (src/src/phy), parses them with the
    wire formats (src/src/wire), hands them to the sockets (src/src/socket), and
    asks each socket in turn for a packet to send; the sockets keep their data in
    the buffers of src/src/storage.  This library models that picture for IPv4:
    TCP and UDP sockets, the interface that drives them over Ethernet and IP
    devices, and everything between the octets of a frame and the calls of the
    application.  For IPv6 the interface is modelled up to its polling loops: what it
    does with a frame, and how it puts a packet on the wire.  The other sockets (raw,
    ICMP, DHCP, DNS) are modelled on their own, up to the calls the interface would
    make.

    ** Files

    Foundations.
    - Prelude.v: the panic monad [outcome], Rust's [Result], machine integers
      ([wrap_u], [wrap_i], checked arithmetic), record updates, list lemmas.
    - Collections.v: heapless's [Vec] and [LinearMap], as classes with their
      documented laws and an instance by lists; Bytes.v: the byteorder crate, in
      the same way; Flags.v: the bitflags crate; Octets.v: lemmas on headers
      written out octet by octet.
    - Time.v (time.rs), SeqNumber.v ([SeqNumber] of wire/tcp.rs), Context.v
      (rand.rs, socket/waker.rs, what a socket sees of the interface).
    - RingBuffer.v (storage/ring_buffer.rs), Assembler.v (storage/assembler.rs),
      PacketBuffer.v (storage/packet_buffer.rs): the storage.  Each has an
      abstraction (a queue, a set of offsets, a queue of packets), and its
      operations are specified by what they do to it.

    Wire formats.
    - Phy.v and LinkLayer.v (phy/mod.rs: checksum and device capabilities;
      wire/ethernet.rs; [HardwareAddress] of wire/mod.rs), Arp.v (wire/arp.rs),
      Ip.v (wire/ip.rs and the addresses of wire/ipv4.rs and wire/ipv6.rs), Cidr.v
      ([Cidr] of the same files), Ipv4Wire.v (the header of wire/ipv4.rs),
      Icmpv4Wire.v (wire/icmpv4.rs), UdpWire.v (wire/udp.rs), TcpWire.v
      (wire/tcp.rs) with its theorems in TcpWireProps.v.
    - Ipv6Wire.v (the header of wire/ipv6.rs), Ipv6Ext.v (wire/ipv6ext_header.rs,
      ipv6option.rs, ipv6hbh.rs, ipv6fragment.rs, ipv6routing.rs), Icmpv6Wire.v and
      Icmpv6Messages.v (wire/icmpv6.rs), NdiscWire.v (wire/ndisc.rs,
      ndiscoption.rs), MldWire.v (wire/mld.rs), with the theorems of the last three in
      NdiscProps.v and Icmpv6Props.v.
    - Dhcpv4Wire.v (wire/dhcpv4.rs), DnsWire.v (wire/dns.rs).

    Sockets.
    - TcpTimers.v ([RttEstimator], [Timer], [AckDelayTimer] of socket/tcp.rs),
      Congestion.v (socket/tcp/congestion.rs and the Reno and empty controllers).
    - TcpSocket.v (socket/tcp.rs): [Socket] has the fields of the source;
      [listen], [connect], [close], [abort], [send_slice], [recv_slice] and the
      others are functions on it; [process] and [dispatch] run in the monad [M], a
      state monad over socket and context with panics and early returns, and are
      cut into phases in the order of the source.
    - TcpLogic.v: weakest preconditions for [M] and the invariant [sock_inv];
      TcpSegment.v, TcpProcess.v, TcpTransitions.v: [process]; TcpDispatch.v:
      [dispatch].  TcpRun.v: runs, lists of events (calls, segments, dispatches
      into a device that takes or refuses the packet, clock readings).
      TcpStream.v, TcpPoll.v, TcpSpec.v: theorems on runs and handlers;
      TcpEndToEnd.v: two sockets and a network; TcpFindings.v: runs that show
      unintended behaviour.
    - UdpSocket.v (socket/udp.rs), UdpSpec.v: its refinement of two queues;
      RawSocket.v (socket/raw.rs), RawSpec.v and IcmpSocket.v (socket/icmp.rs),
      IcmpSpec.v: the same for raw and ICMP sockets.
    - Dhcpv4Socket.v (socket/dhcpv4.rs): the DHCP client; Dhcpv4Spec.v: an abstract
      client with a lease, and its refinement; Dhcpv4Run.v: the exchange of
      messages, [poll_at], runs that show unintended behaviour.
    - DnsSocket.v (socket/dns.rs); DnsSpec.v: names and records as a resolver reads
      them, and what a response does to a query; DnsRun.v: queries from start to
      end, runs that show unintended behaviour.

    Interface.
    - Route.v (iface/route.rs), Neighbor.v (iface/neighbor.rs), Fragmentation.v
      (iface/fragmentation.rs), Packet.v (iface/packet.rs), Ipv4Fragments.v (the
      fragment parts of iface/interface/ipv4.rs and of [dispatch_ip]).
    - Iface.v (iface/interface/mod.rs, ipv4.rs, ethernet.rs): [InterfaceInner],
      its addresses, [lookup_hardware_addr], [dispatch_ip], [dispatch];
      Ipv6Source.v (iface/interface/ipv6.rs): the choice of a source address.
    - IfaceProcess.v: the socket set (iface/socket_set.rs, socket_meta.rs), the
      handlers [process_ethernet], [process_arp], [process_ipv4], [process_icmpv4],
      [process_udp], [process_tcp], and [Interface] with [poll], [poll_at] and its
      configuration.
    - IfaceArp.v, IfaceSafety.v, IfaceLink.v, IfaceFragments.v (datagrams that travel
      in fragments), IfacePoll.v: theorems on one and on two interfaces;
      IfaceFindings.v: runs that show unintended behaviour.
    - Ipv6Iface.v (iface/interface/ipv6.rs and the IPv6 parts of mod.rs, ethernet.rs,
      udp.rs, tcp.rs): the handlers [process_ipv6], [process_hopbyhop],
      [process_icmpv6], [process_ndisc] and those they call, neighbor solicitation
      and [dispatch_ip]; Ipv6Safety.v: which frames it survives and which not;
      Ipv6Resolution.v: neighbor discovery and pings between two interfaces.

    ** What is shown

    - Safety: no admissible run of a TCP socket panics, and the invariant (buffers
      well-formed, sequence numbers of both directions in order, timers and state
      consistent) holds throughout; no frame, whatever its octets, makes
      [process_ethernet] panic or breaks an invariant of the interface, of the
      reassembly buffers or of a socket; over IPv6 that holds for all frames but two
      kinds, of which each takes an interface down; the parsers are total.  These theorems
      assume that, where SACK is in use, the receive window does not cross the sign
      change of the sequence numbers ([sack_ok]): there the code does panic.
      Sending is not covered by those on frames: [dispatch_ip] has assertions that a
      received packet can make fail.
    - The two streams: what the application reads is a prefix of what the peer
      sent, and end to end of what the other application wrote, as long as a FIN
      does not overrun the receive window (and, end to end, no keep-alives are
      sent).
    - Composition: what one interface dispatches in one Ethernet frame the other
      delivers, for TCP segments (with the window that the burst limit of the device
      leaves), UDP datagrams and pings; a UDP datagram that is sent in fragments, over
      several calls of [ipv4_egress], is delivered once, when the last of them has
      come, in whatever order the frames arrive, if the fragments are multiples of
      eight octets; ARP and neighbor discovery resolve neighbors, and pings over
      IPv6 are answered.
    - DHCP and DNS: a DHCP client has a lease only on the terms of an acknowledgement
      of its own request and gives it up in time, gets one when a server answers,
      tells the application, and does not spin; a DNS query takes its addresses
      only from a response to it, and exactly those the records give for its name,
      and every query ends.
    - Refinement: [process] is a step of the RFC 793 machine; UDP, raw and ICMP
      sockets are pairs of queues; ring buffer, packet buffer (its closures
      included), assembler, neighbor cache and routing table refine queues, sets of offsets, a map and longest-prefix
      matching.
    - Time: the loop of [poll] ends, with a result or a panic, on a device that has
      finitely many frames and tokens left; [poll_at] is never late, for a socket and
      for an interface; the retransmission timeout and the congestion window are
      bounded.
    - Wire formats: parsing inverts emitting, for every format but the IPv6
      extension headers, of which only the hop-by-hop header is shown to be read
      without a panic; checksums are those of RFC 1071;
      CIDR blocks are sets of addresses with a common prefix; a packet over IPv6
      has the source address that the rules of RFC 6724 give, in the cases in which
      the code follows them.
    - Findings: runs that end in a panic a peer can trigger (a SYN from 0.0.0.0, a
      SACK range across sequence number 0, a hop-by-hop option in a packet to a group, a
      long link-layer address), a lost FIN, a truncated stream
      reported as finished, retransmission that stops, fragments that overwrite
      each other or are not aligned, frames longer than the device can send; a DHCP
      acknowledgement that crashes the client or makes it spin, a DNS answer that
      spoils a query, answers accepted from strangers, raw packets that panic.

    ** Conventions and bounds

    The build modelled has overflow checks, a 64-bit [usize], both IP versions in
    the sockets and the wire formats, the [async] feature and Reno; the interface
    is that of a build with IPv4 and its fragmentation, Ethernet and IP devices
    and TCP and UDP sockets, without IPv6, IGMP, IEEE 802.15.4 and the other
    sockets, and in Ipv6Iface.v that of a build with IPv6 instead of IPv4, where
    hardware addresses have room for those of IEEE 802.15.4.  A [w]-bit integer is a [Z], or an [N] or [nat] for a length, with its
    range in the invariant; wrapping, checked and saturating operations are
    written as in the source.  The offsets and counts that a caller passes to a
    buffer of src/src/storage are unbounded: their sums beyond 2^64, where the code
    would panic, are not modelled, and no offset in the stack comes near.  A panic is [Panic]; an early return is a value of
    [M].

    Third-party crates (byteorder, heapless, bitflags) are classes whose laws are
    their documentation, each with an instance that has the laws.

    Loops are structural recursions: over the contigs of the assembler, over the
    octets left in a list of options (each step consumes one), over the octets of
    a checksum in chunks of 32, over the sockets of the set, over the frames
    received.  Where a recursion has fuel, it is the length of the input, and the
    totality theorems show that it suffices, with three exceptions:
    [rand_source_port] and [draw_ipv4_id], loops until a random number is
    acceptable, answer [None] when their fuel is used up, and so does the loop of
    [poll], for which [poll_terminates] says how much is enough.

    In [socket_egress] the sockets call a closure that puts a packet on the wire.
    The model takes two passes: what the socket would send is what it hands to a
    closure that refuses it, and after that packet was sent the socket is
    dispatched with the result ([dispatch_socket]); a device is the list of its
    answers to [receive], each a receive token (frame, metadata, [preprocess]) with a
    transmit token or nothing, the list of its answers to [transmit], each a token or
    nothing, and the frames it was given; so it may refuse for a while and accept
    again.

    The runs of TcpRun.v assume a clock that stays within 2^29 milliseconds
    (the estimator computes in [u32]), an MTU of at least 60 octets (an IPv6 and
    a TCP header), a receive buffer of at most 2^30 octets (the source asserts
    it) and a transmit buffer of less than 2^31 - 1.

    ** Not modelled

    The Cubic controller (floating point), logging, formatting and the parsers of
    textual addresses, the devices (I/O), the polling loops of the interface for
    IPv6, its handlers for IGMP and 6LoWPAN and its calls of raw, ICMP, DHCP and DNS sockets
    (features that are off in the builds of the interface), the wire formats of IGMP, of IPsec, of
    frames of IEEE 802.15.4, of 6LoWPAN and of RPL. *)

From stdpp Require Export base tactics list numbers.
From Stdlib Require Export ZArith Lia.

(** ** Outcomes of Rust code

    A Rust function either returns a value or panics.  [outcome] is the
    panic monad; it is an instance of stdpp's monad classes, so that
    [x ← c; k] reads as sequencing. *)

Inductive outcome (A : Type) : Type :=
| Ret (a : A)
| Panic.
Arguments Ret {A} a.
Arguments Panic {A}.

#[export] Instance outcome_ret : MRet outcome := fun A a => Ret a.

#[export] Instance outcome_bind : MBind outcome := fun A B f c =>
  match c with
  | Ret a => f a
  | Panic => Panic
  end.

#[export] Instance outcome_fmap : FMap outcome := fun A B f c =>
  match c with
  | Ret a => Ret (f a)
  | Panic => Panic
  end.

(** Rust's [Result]. *)
Inductive result (A E : Type) : Type :=
| Ok (a : A)
| Err (e : E).
Arguments Ok {A E} a.
Arguments Err {A E} e.

#[export] Instance result_ret {E} : MRet (fun A => result A E) := fun A a => Ok a.

#[export] Instance result_bind {E} : MBind (fun A => result A E) := fun A B f c =>
  match c with
  | Ok a => f a
  | Err e => Err e
  end.

Definition is_ok {A E} (r : result A E) : bool :=
  match r with Ok _ => true | Err _ => false end.

(** The [?] operator: return early with the error of a call. *)
Definition try_bind {A B E} (c : outcome (result A E)) (k : A -> outcome (result B E)) :
    outcome (result B E) :=
  match c with
  | Ret (Ok a) => k a
  | Ret (Err e) => Ret (Err e)
  | Panic => Panic
  end.
Notation "x ←? c ; k" := (try_bind c (fun x => k))
  (at level 20, c at level 100, k at level 200) : stdpp_scope.
Notation "' x ←? c ; k" := (try_bind c (fun x => k))
  (at level 20, x pattern, c at level 100, k at level 200) : stdpp_scope.

(** [assert!] and the checked operations of a build with overflow checks. *)
Definition rust_assert (b : bool) : outcome unit := if b then Ret () else Panic.

Definition unwrap {A} (o : option A) : outcome A :=
  match o with Some a => Ret a | None => Panic end.

(** ** Machine integers *)

Abbreviation U8_MAX := 255%Z.
Abbreviation U16_MAX := 65535%Z.
Abbreviation U32_MAX := 4294967295%Z.
Abbreviation I32_MAX := 2147483647%Z.
Abbreviation I64_MAX := 9223372036854775807%Z.
Abbreviation I64_MIN := (-9223372036854775808)%Z.
Abbreviation USIZE_MAX := 18446744073709551615%Z.

Definition wrap_u (w z : Z) : Z := (z mod 2 ^ w)%Z.

(** Two's complement reinterpretation at width [w]. *)
Definition wrap_i (w z : Z) : Z := ((z + 2 ^ (w - 1)) mod 2 ^ w - 2 ^ (w - 1))%Z.

(** Unsigned subtraction and addition that panic instead of wrapping. *)
Definition usub (a b : Z) : outcome Z := if (a <? b)%Z then Panic else Ret (a - b)%Z.
Definition uadd (max a b : Z) : outcome Z :=
  if (max <? a + b)%Z then Panic else Ret (a + b)%Z.

Definition umul (max a b : Z) : outcome Z :=
  if (max <? a * b)%Z then Panic else Ret (a * b)%Z.

(** Signed 64-bit arithmetic. *)
Definition check_i64 (z : Z) : outcome Z :=
  if ((z <? I64_MIN) || (I64_MAX <? z))%Z then Panic else Ret z.

(** ** Slices

    [range l start stop] is the Rust expression [&l[start..stop]];
    [splice l start s] is the array after a slice starting at [start] has been
    overwritten with [s]. *)

Section Slices.
Context {A : Type}.

Definition slice (l : list A) (start len : nat) : list A := take len (drop start l).

Definition range (l : list A) (start stop : nat) : outcome (list A) :=
  if ((start <=? stop) && (stop <=? length l))%nat
  then Ret (slice l start (stop - start))
  else Panic.

Definition splice (l : list A) (start : nat) (s : list A) : list A :=
  take start l ++ s ++ drop (start + length s) l.

(** Copy the whole of [buffer] to the start of the caller's slice [data], which is
    returned; [truncated] when it does not fit. *)
Definition fill_slice {E} (truncated : E) (data buffer : list A) : outcome (result (list A * nat) E) :=
  if (length data <? length buffer)%nat then Ret (Err truncated) else
  let n := (length data `min` length buffer)%nat in
  d ← range data 0 n;
  b ← range buffer 0 n;
  _ ← rust_assert (length d =? length b)%nat;
  Ret (Ok (splice data 0 b, n)).
End Slices.

(** Comparisons are decided by [decide_tests], not by reduction. *)
#[global] Arguments Nat.ltb : simpl never.
#[global] Arguments Nat.leb : simpl never.
#[global] Arguments Nat.eqb : simpl never.
#[global] Arguments Z.ltb : simpl never.
#[global] Arguments Z.leb : simpl never.
#[global] Arguments Z.eqb : simpl never.

(** ** Record update *)

Class Settable (T : Type) := eta_record : T -> T.
Class Setter {T A : Type} (proj : T -> A) := set_field : (A -> A) -> T -> T.
Arguments set_field {T A} proj {_} f s : rename.

(** A setter is the eta expansion of the record with one projection
    abstracted. *)
Ltac build_setter :=
  lazymatch goal with
  | |- @Setter ?T ?A ?proj =>
      let eta := eval hnf in (eta_record (T := T)) in
      match eval pattern proj in eta with
      | ?ctx _ =>
          let setter := eval cbv beta in
            (fun (f : A -> A) (s : T) => ctx (fun r => f (proj r)) s) in
          exact setter
      end
  end.
#[export] Hint Extern 1 (Setter _) => build_setter : typeclass_instances.

Declare Scope record_scope.
Open Scope record_scope.
Notation "s <| p := v |>" := (set_field p (fun _ => v) s)
  (at level 1, left associativity, p at next level, v at level 200) : record_scope.
Notation "s <| p ::= f |>" := (set_field p f s)
  (at level 1, left associativity, p at next level, f at level 200) : record_scope.

(** ** Tactics *)

(** Split the boolean tests of a hypothesis or goal into arithmetic facts. *)
Ltac bool_to_prop :=
  repeat match goal with
  | H : _ && _ = true |- _ => apply andb_true_iff in H; destruct H
  | H : _ || _ = false |- _ => apply orb_false_iff in H; destruct H
  | H : negb _ = true |- _ => apply negb_true_iff in H
  | H : negb _ = false |- _ => apply negb_false_iff in H
  end.

(** Case analysis on the innermost test of an [if] or [match]. *)
Ltac case_test :=
  match goal with
  | |- context [if ?b then _ else _] => destruct b eqn:?
  | H : context [if ?b then _ else _] |- _ => destruct b eqn:?
  end.

Ltac split_test H spec :=
  let Htest := fresh "Htest" in
  revert H; destruct spec as [Htest|Htest]; intros H.

(** Decide the comparisons on numbers in the goal and the hypotheses. *)
Ltac decide_tests :=
  repeat match goal with
  | |- context [(?a <? ?b)%nat] => destruct (Nat.ltb_spec a b)
  | |- context [(?a <=? ?b)%nat] => destruct (Nat.leb_spec a b)
  | |- context [(?a =? ?b)%nat] => destruct (Nat.eqb_spec a b)
  | |- context [(?a <? ?b)%Z] => destruct (Z.ltb_spec a b)
  | |- context [(?a <=? ?b)%Z] => destruct (Z.leb_spec a b)
  | |- context [(?a =? ?b)%Z] => destruct (Z.eqb_spec a b)
  | H : context [(?a <? ?b)%nat] |- _ => split_test H (Nat.ltb_spec a b)
  | H : context [(?a <=? ?b)%nat] |- _ => split_test H (Nat.leb_spec a b)
  | H : context [(?a =? ?b)%nat] |- _ => split_test H (Nat.eqb_spec a b)
  | H : context [(?a <? ?b)%Z] |- _ => split_test H (Z.ltb_spec a b)
  | H : context [(?a <=? ?b)%Z] |- _ => split_test H (Z.leb_spec a b)
  | H : context [(?a =? ?b)%Z] |- _ => split_test H (Z.eqb_spec a b)
  end.

(** Invert equations between outcomes, results and options. *)
Ltac inv_outcome :=
  repeat match goal with
  | H : Ret _ = Ret _ |- _ => injection H; clear H; intros; subst
  | H : Panic = Ret _ |- _ => discriminate H
  | H : Ret _ = Panic |- _ => discriminate H
  | H : Ok _ = Ok _ |- _ => injection H; clear H; intros; subst
  | H : Err _ = Ok _ |- _ => discriminate H
  | H : Ok _ = Err _ |- _ => discriminate H
  end.

(** Linear arithmetic with division and remainder by constants. *)
Ltac div_lia := Z.to_euclidean_division_equations; lia.

(** ** Shared lemmas *)

Section OutcomeLemmas.
Context {A B : Type}.

Lemma outcome_bind_ret (c : outcome A) (f : A -> outcome B) b :
  (c ≫= f) = Ret b <-> exists a, c = Ret a /\ f a = Ret b.
Proof.
  destruct c as [a|]; cbn; split.
  - eauto.
  - by intros (a' & [= ->] & ?).
  - done.
  - by intros (a' & ? & ?).
Qed.

Lemma outcome_bind_Ret_l (a : A) (f : A -> outcome B) : (Ret a ≫= f) = f a.
Proof. done. Qed.

(** [returns c P]: [c] does not panic and its result satisfies [P]. *)
Definition returns (c : outcome A) (P : A -> Prop) : Prop :=
  match c with Ret a => P a | Panic => False end.

Lemma returns_Ret a P : P a -> returns (Ret a) P.
Proof. done. Qed.

Lemma returns_mono c (P Q : A -> Prop) : (forall a, P a -> Q a) -> returns c P -> returns c Q.
Proof. destruct c; cbn; eauto. Qed.

Lemma returns_exists c P : returns c P <-> exists a, c = Ret a /\ P a.
Proof. destruct c; cbn; naive_solver. Qed.
End OutcomeLemmas.

Lemma returns_bind {A B} (c : outcome A) (f : A -> outcome B) P :
  returns c (fun a => returns (f a) P) -> returns (c ≫= f) P.
Proof. by destruct c. Qed.

(** ** Checked arithmetic that does not overflow *)

Lemma usub_Ret a b : (b <= a)%Z -> usub a b = Ret (a - b)%Z.
Proof. intros. unfold usub. decide_tests; done || lia. Qed.

Lemma uadd_Ret m a b : (a + b <= m)%Z -> uadd m a b = Ret (a + b)%Z.
Proof. intros. unfold uadd. decide_tests; done || lia. Qed.

Lemma umul_Ret m a b : (a * b <= m)%Z -> umul m a b = Ret (a * b)%Z.
Proof. intros. unfold umul. decide_tests; done || lia. Qed.

Section Words.
Open Scope Z_scope.
Implicit Types (w a b m z : Z).

Lemma pow2_half w : 0 < w -> 2 ^ w = 2 * 2 ^ (w - 1) /\ 0 < 2 ^ (w - 1).
Proof.
  intros. split; [|apply Z.pow_pos_nonneg; lia].
  rewrite <-Z.pow_succ_r by lia. f_equal. lia.
Qed.

Lemma wrap_i_range w z : 0 < w -> - 2 ^ (w - 1) <= wrap_i w z < 2 ^ (w - 1).
Proof.
  intros. unfold wrap_i. destruct (pow2_half w) as [? ?]; [done|].
  pose proof (Z.mod_pos_bound (z + 2 ^ (w - 1)) (2 ^ w)). lia.
Qed.

Lemma wrap_i_small w z : 0 < w -> - 2 ^ (w - 1) <= z < 2 ^ (w - 1) -> wrap_i w z = z.
Proof.
  intros. unfold wrap_i. destruct (pow2_half w) as [? ?]; [done|].
  rewrite Z.mod_small; lia.
Qed.

Lemma wrap_i_congr w a b : 0 < w -> (a - b) mod 2 ^ w = 0 -> wrap_i w a = wrap_i w b.
Proof.
  intros Hw Hab. destruct (pow2_half w) as [? ?]; [done|]. unfold wrap_i. f_equal.
  apply Z.mod_divide in Hab as [k Hk]; [|lia].
  replace (a + 2 ^ (w - 1)) with (b + 2 ^ (w - 1) + k * 2 ^ w) by lia.
  by rewrite Z.mod_add by lia.
Qed.

Lemma wrap_i_mod w z : 0 < w -> (z - wrap_i w z) mod 2 ^ w = 0.
Proof.
  intros. destruct (pow2_half w) as [? ?]; [done|]. unfold wrap_i. rewrite (Z.mod_eq (z + 2 ^ (w - 1))) by lia.
  replace (_ - _) with ((z + 2 ^ (w - 1)) / 2 ^ w * 2 ^ w) by lia.
  by rewrite Z.mod_mul by lia.
Qed.

Lemma wrap_i_add_l w a b : 0 < w -> wrap_i w (wrap_i w a + b) = wrap_i w (a + b).
Proof.
  intros. destruct (pow2_half w) as [? ?]; [done|]. apply wrap_i_congr; [done|]. pose proof (wrap_i_mod w a ltac:(done)) as Ha.
  apply Z.mod_divide in Ha as [k Hk]; [|lia].
  replace (_ - _) with ((- k) * 2 ^ w) by lia. by rewrite Z.mod_mul by lia.
Qed.

Lemma wrap_i_sub w a b : 0 < w -> wrap_i w (wrap_i w a - wrap_i w b) = wrap_i w (a - b).
Proof.
  intros. destruct (pow2_half w) as [? ?]; [done|]. apply wrap_i_congr; [done|].
  pose proof (wrap_i_mod w a ltac:(done)) as Ha. pose proof (wrap_i_mod w b ltac:(done)) as Hb.
  apply Z.mod_divide in Ha as [k Hk]; [|lia]. apply Z.mod_divide in Hb as [j Hj]; [|lia].
  replace (_ - _) with ((j - k) * 2 ^ w) by lia. by rewrite Z.mod_mul by lia.
Qed.
End Words.

Section SliceLemmas.
Context {A : Type}.
Implicit Types (l s : list A) (i n start len : nat).

Lemma range_Ret l start stop :
  start <= stop -> stop <= length l ->
  range l start stop = Ret (slice l start (stop - start)).
Proof.
  intros. unfold range.
  by rewrite (proj2 (Nat.leb_le _ _)), (proj2 (Nat.leb_le _ _)).
Qed.

Lemma range_inv l s a b : range l a b = Ret s -> a <= b <= length l /\ s = slice l a (b - a).
Proof.
  unfold range. destruct (Nat.leb_spec a b), (Nat.leb_spec b (length l)); cbn; intros; inv_outcome; done.
Qed.

Lemma length_slice l start len :
  length (slice l start len) = len `min` (length l - start).
Proof. unfold slice. rewrite length_take, length_drop. lia. Qed.

Lemma lookup_slice l start len i :
  i < len -> slice l start len !! i = l !! (start + i).
Proof. intros. unfold slice. by rewrite lookup_take_lt, lookup_drop. Qed.

Lemma lookup_slice_ge l start len i : len <= i -> slice l start len !! i = None.
Proof. intros. apply lookup_ge_None. rewrite length_slice. lia. Qed.

Lemma length_splice l start s :
  start + length s <= length l -> length (splice l start s) = length l.
Proof.
  intros. unfold splice. rewrite !length_app, length_take, length_drop. lia.
Qed.

Lemma lookup_splice_in l start s i :
  start + length s <= length l -> start <= i < start + length s ->
  splice l start s !! i = s !! (i - start).
Proof.
  intros ? ?. unfold splice.
  rewrite lookup_app_r by (rewrite length_take; lia).
  rewrite length_take, Nat.min_l by lia.
  by rewrite lookup_app_l by lia.
Qed.

Lemma lookup_splice_out l start s i :
  start + length s <= length l -> i < start \/ start + length s <= i ->
  splice l start s !! i = l !! i.
Proof.
  intros Hl [?|?]; unfold splice.
  - rewrite lookup_app_l by (rewrite length_take; lia).
    by rewrite lookup_take_lt.
  - rewrite lookup_app_r by (rewrite length_take; lia).
    rewrite length_take, Nat.min_l by lia.
    rewrite lookup_app_r by lia. rewrite lookup_drop. f_equal. lia.
Qed.

Lemma take_splice_0 l s n : n <= length s -> take n (splice l 0 s) = take n s.
Proof. intros. unfold splice. rewrite take_0, app_nil_l. by apply take_app_le. Qed.

Lemma splice_app l start s1 s2 :
  start + length s1 + length s2 <= length l ->
  splice (splice l start s1) (start + length s1) s2 = splice l start (s1 ++ s2).
Proof.
  intros. unfold splice.
  assert (length (take start l) = start) as Ht by (rewrite length_take; lia).
  rewrite take_app_ge, Ht by lia. replace (start + length s1 - start) with (length s1) by lia.
  rewrite take_app_length. rewrite <-!app_assoc. do 3 f_equal.
  rewrite drop_app_ge, Ht by lia. rewrite drop_app_ge by lia.
  rewrite drop_drop, length_app. f_equal. lia.
Qed.

Lemma take_splice_out l start s n :
  n <= start -> start <= length l -> take n (splice l start s) = take n l.
Proof.
  intros. unfold splice. rewrite take_app_le by (rewrite length_take; lia).
  rewrite take_take. f_equal. lia.
Qed.

Lemma drop_splice l start s n :
  n <= start -> start <= length l ->
  drop n (splice l start s) = splice (drop n l) (start - n) s.
Proof.
  intros. unfold splice. rewrite drop_app_le by (rewrite length_take; lia).
  rewrite skipn_firstn_comm, drop_drop. do 3 f_equal. lia.
Qed.

Lemma splice_same_length_nil l start : splice l start [] = l.
Proof. unfold splice. cbn. rewrite Nat.add_0_r. apply take_drop. Qed.

(** What the caller's slice holds afterwards. *)
Lemma fill_slice_ok {E} (truncated : E) l s :
  fill_slice truncated l s =
    Ret (if length l <? length s then Err truncated else Ok (s ++ drop (length s) l, length s)).
Proof.
  unfold fill_slice. destruct (Nat.ltb_spec (length l) (length s)) as [|Hl]; [done|].
  rewrite Nat.min_r by done. rewrite !range_Ret by lia. cbn [mbind outcome_bind].
  rewrite !length_slice, Nat.sub_0_r, !Nat.min_l, Nat.eqb_refl by lia. cbn [rust_assert mbind outcome_bind].
  unfold splice, slice. rewrite take_0, drop_0, take_ge by lia. done.
Qed.

Lemma splice_slice_id l start n :
  start + n <= length l -> splice l start (slice l start n) = l.
Proof.
  intros. unfold splice. rewrite length_slice, Nat.min_l by lia.
  unfold slice. rewrite <-drop_drop, take_drop. apply take_drop.
Qed.

Lemma take_slice l start n m : m <= n -> take m (slice l start n) = slice l start m.
Proof. intros. unfold slice. rewrite take_take. f_equal. lia. Qed.
End SliceLemmas.

Create Rewrite HintDb slices.
#[export] Hint Rewrite @length_slice @length_take @length_drop @length_app
  @length_replicate : slices.
