(* ===== verification/Collections.v ===== *)
(** * Iterators and fixed-capacity collections

    The adaptors of [core::iter] that the interface uses, on lists, and the
    collections of the heapless crate: the interface keeps its addresses and routes
    in [heapless::Vec] and its neighbors and multicast groups in
    [heapless::LinearMap].  The crate is not part of the repository: its operations
    are the classes [Vec] and [LinearMap], and its documentation the classes of laws
    [VecLaws] and [LinearMapLaws].  The definitions take the operations as an
    implicit argument, the theorems take the laws.  [list_vec] and [list_map] are
    implementations by lists, used to evaluate the model. *)

From S2P Require Import Prelude.
From stdpp Require Export list.

(** ** Iterators *)

Section Iter.
Context {A : Type}.
Implicit Types (l : list A) (key : A -> Z) (test : A -> outcome bool).

(** [iter.filter(test)], where the test may panic. *)
Fixpoint iter_filter test l : outcome (list A) :=
  match l with
  | [] => Ret []
  | x :: l =>
      b ← test x;
      r ← iter_filter test l;
      Ret match b with true => x :: r | false => r end
  end.

(** [iter.any(test)] *)
Fixpoint iter_any test l : outcome bool :=
  match l with
  | [] => Ret false
  | x :: l => b ← test x; match b with true => Ret true | false => iter_any test l end
  end.

(** [iter.max_by_key(key)]: the last of the greatest elements. *)
Fixpoint max_from key (best : A) l : A :=
  match l with
  | [] => best
  | x :: l => max_from key (if (key best <=? key x)%Z then x else best) l
  end.
Definition max_by_key key l : option A :=
  match l with [] => None | x :: l => Some (max_from key x l) end.

(** [iter.min_by_key(key)]: the first of the least elements. *)
Fixpoint min_from key (best : A) l : A :=
  match l with
  | [] => best
  | x :: l => min_from key (if (key x <? key best)%Z then x else best) l
  end.
Definition min_by_key key l : option A :=
  match l with [] => None | x :: l => Some (min_from key x l) end.

Lemma iter_filter_spec test (f : A -> bool) l :
  (forall x, x ∈ l -> test x = Ret (f x)) -> iter_filter test l = Ret (List.filter f l).
Proof.
  induction l as [|x l IH]; intros H; [done|]. cbn. rewrite H by (apply elem_of_cons; by left).
  rewrite IH by (intros; apply H, elem_of_cons; by right). cbn. by case_match.
Qed.

Lemma iter_any_spec test (f : A -> bool) l :
  (forall x, x ∈ l -> test x = Ret (f x)) -> iter_any test l = Ret (existsb f l).
Proof.
  induction l as [|x l IH]; intros H; [done|]. cbn. rewrite H by (apply elem_of_cons; by left).
  cbn. case_match; [done|]. apply IH. intros; apply H, elem_of_cons; by right.
Qed.

Lemma max_from_spec key best l :
  exists l1 l2, best :: l = l1 ++ max_from key best l :: l2 /\
    (forall x, x ∈ l1 -> key x <= key (max_from key best l))%Z /\
    (forall x, x ∈ l2 -> key x < key (max_from key best l))%Z.
Proof.
  revert best. induction l as [|x l IH]; intros best.
  - exists [], []. split; [done|]. split; intros y []%elem_of_nil.
  - cbn. destruct (Z.leb_spec (key best) (key x)) as [Hle|Hgt].
    + destruct (IH x) as (l1 & l2 & Heq & H1 & H2). exists (best :: l1), l2. rewrite Heq.
      split; [done|]. split; [|done]. intros y [->|Hy]%elem_of_cons; [|by apply H1].
      destruct l1 as [|z l1]; injection Heq as Hz _.
      * by rewrite Hz in Hle.
      * subst z. specialize (H1 x ltac:(apply elem_of_cons; by left)). lia.
    + destruct (IH best) as (l1 & l2 & Heq & H1 & H2). destruct l1 as [|z l1]; injection Heq as Hz Hl.
      * exists [], (x :: l2). rewrite <-Hz, <-Hl in *. split; [done|]. split; [intros y []%elem_of_nil|].
        intros y [->|Hy]%elem_of_cons; [lia|by apply H2].
      * subst z. exists (best :: x :: l1), l2. split; [cbn; by rewrite Hl at 1|]. split; [|done].
        intros y [->|[->|Hy]%elem_of_cons]%elem_of_cons; [| |apply H1, elem_of_cons; by right];
          specialize (H1 best ltac:(apply elem_of_cons; by left)); lia.
Qed.

Lemma max_by_key_spec key l :
  match max_by_key key l with
  | None => l = []
  | Some m => exists l1 l2, l = l1 ++ m :: l2 /\
      (forall x, x ∈ l1 -> key x <= key m)%Z /\ (forall x, x ∈ l2 -> key x < key m)%Z
  end.
Proof. destruct l as [|x l]; [done|]. apply max_from_spec. Qed.

Lemma min_from_spec key best l :
  min_from key best l ∈ best :: l /\ forall x, x ∈ best :: l -> (key (min_from key best l) <= key x)%Z.
Proof.
  revert best. induction l as [|x l IH]; intros best; cbn.
  - split; [apply elem_of_cons; by left|]. intros y ->%list_elem_of_singleton. lia.
  - destruct (Z.ltb_spec (key x) (key best)) as [Hlt|Hge];
      [destruct (IH x) as [Hin Hmin]|destruct (IH best) as [Hin Hmin]]; clear IH;
      rewrite !elem_of_cons in Hin; setoid_rewrite elem_of_cons in Hmin;
      (split; [rewrite !elem_of_cons; tauto|]).
    + intros y [->|[->|Hy]%elem_of_cons]%elem_of_cons; [|auto..]. specialize (Hmin x (or_introl eq_refl)). lia.
    + intros y [->|[->|Hy]%elem_of_cons]%elem_of_cons; [auto| |auto].
      specialize (Hmin best (or_introl eq_refl)). lia.
Qed.

Lemma min_by_key_spec key l :
  match min_by_key key l with
  | None => l = []
  | Some m => m ∈ l /\ forall x, x ∈ l -> (key m <= key x)%Z
  end.
Proof. destruct l as [|x l]; [done|]. apply min_from_spec. Qed.
End Iter.

(** ** The heapless crate *)

(** [heapless::Vec<T, N>] *)
Class Vec (T : Type) := {
  vec : Type;
  vec_new : vec;
  as_slice : vec -> list T;
  vec_push : T -> vec -> vec * result unit T;
  vec_remove : nat -> vec -> outcome (vec * T)
}.
Arguments vec T {_}.

(** [push] appends and gives the item back when the vector is full; [remove]
    takes out the element at an index, shifting the others, and panics out of
    bounds. *)
Class VecLaws {T} (V : Vec T) (N : nat) : Prop := {
  as_slice_new : as_slice vec_new = [];
  as_slice_capacity v : (length (as_slice v) <= N)%nat;
  vec_push_room v x : (length (as_slice v) < N)%nat ->
    exists v', vec_push x v = (v', Ok ()) /\ as_slice v' = as_slice v ++ [x];
  vec_push_full v x : length (as_slice v) = N -> vec_push x v = (v, Err x);
  vec_remove_ok v i x : as_slice v !! i = Some x ->
    exists v', vec_remove i v = Ret (v', x) /\ as_slice v' = delete i (as_slice v);
  vec_remove_panics v i : as_slice v !! i = None -> vec_remove i v = Panic
}.

(** Its operations on slices. *)
Class VecSlices {T} (V : Vec T) := {
  vec_from_slice : list T -> result (vec T) unit;
  vec_extend_from_slice : list T -> vec T -> vec T * result unit unit;
  vec_truncate : nat -> vec T -> vec T
}.

(** [from_slice] and [extend_from_slice] fail when the capacity does not do; a failed
    [extend_from_slice] has appended at most a part of the slice. *)
Class VecSlicesLaws {T} {V : Vec T} (S : VecSlices V) (N : nat) : Prop := {
  vec_from_slice_ok l : (length l <= N)%nat -> exists v, vec_from_slice l = Ok v /\ as_slice v = l;
  vec_from_slice_full l : (N < length l)%nat -> vec_from_slice l = Err ();
  vec_extend_ok l v : (length (as_slice v) + length l <= N)%nat ->
    exists v', vec_extend_from_slice l v = (v', Ok ()) /\ as_slice v' = as_slice v ++ l;
  vec_extend_full l v : (N < length (as_slice v) + length l)%nat ->
    exists v' k, vec_extend_from_slice l v = (v', Err ()) /\ as_slice v' = as_slice v ++ take k l;
  as_slice_truncate n v : as_slice (vec_truncate n v) = take n (as_slice v)
}.

(** [heapless::LinearMap<K, V, N>] *)
Class LinearMap (K V : Type) := {
  lmap : Type;
  lm_new : lmap;
  lm_iter : lmap -> list (K * V);
  lm_get : K -> lmap -> option V;
  lm_insert : K -> V -> lmap -> lmap * result (option V) (K * V);
  lm_remove : K -> lmap -> lmap * option V;
  lm_clear : lmap -> lmap
}.
Arguments lmap K V {_}.

(** The map has at most [N] entries, one per key.  [insert] returns the old value
    of the key, or the pair when the key is new and the map is full.  The order of
    iteration is not specified. *)
Class LinearMapLaws {K V} (M : LinearMap K V) (N : nat) : Prop := {
  lm_iter_new : lm_iter lm_new = [];
  lm_keys_NoDup m : NoDup (fst <$> lm_iter m);
  lm_capacity m : (length (lm_iter m) <= N)%nat;
  lm_get_iter m k v : lm_get k m = Some v <-> (k, v) ∈ lm_iter m;
  lm_insert_ok m k v : is_Some (lm_get k m) \/ (length (lm_iter m) < N)%nat ->
    exists m', lm_insert k v m = (m', Ok (lm_get k m)) /\ lm_get k m' = Some v /\
      forall k', k' <> k -> lm_get k' m' = lm_get k' m;
  lm_insert_full m k v : lm_get k m = None -> length (lm_iter m) = N ->
    lm_insert k v m = (m, Err (k, v));
  lm_remove_ok m k : exists m', lm_remove k m = (m', lm_get k m) /\ lm_get k m' = None /\
    (forall k', k' <> k -> lm_get k' m' = lm_get k' m) /\
    (is_Some (lm_get k m) -> (length (lm_iter m') < length (lm_iter m))%nat);
  lm_iter_clear m : lm_iter (lm_clear m) = []
}.

(** ** Implementations *)

(** Lists with a decidable property; [pack] keeps the old value when the new one
    lacks the property. *)
Section Pack.
Context {A : Type} (P : A -> Prop) `{forall x, Decision (P x)}.

Definition packed : Type := { x : A | bool_decide (P x) }.

Definition pack (x : A) (old : packed) : packed :=
  match decide (bool_decide (P x)) with
  | left H => x ↾ H
  | right _ => old
  end.

Lemma packed_ok (x : packed) : P (proj1_sig x).
Proof. destruct x as [x Hx]. exact (bool_decide_unpack _ Hx). Qed.

Lemma pack_val x old : P x -> proj1_sig (pack x old) = x.
Proof. intros HP. unfold pack. destruct (decide _) as [|Hn]; [done|]. by destruct Hn; apply bool_decide_pack. Qed.
End Pack.
Arguments pack {A} P {_} x old.
Arguments packed {A} P {_}.

Section ListVec.
Context (T : Type) (N : nat).

Definition fits (l : list T) : Prop := (length l <= N)%nat.
#[local] Instance fits_dec l : Decision (fits l) := decide_rel le _ _.

Definition list_vec : Vec T := {|
  vec := packed fits;
  vec_new := [] ↾ bool_decide_pack (fits []) (Nat.le_0_l N);
  as_slice := proj1_sig;
  vec_push x v := if (length (`v) <? N)%nat then (pack fits (`v ++ [x]) v, Ok ()) else (v, Err x);
  vec_remove i v :=
    match `v !! i with
    | Some x => Ret (pack fits (delete i (`v)) v, x)
    | None => Panic
    end
|}.

Lemma list_vec_laws : VecLaws list_vec N.
Proof.
  split; cbn.
  - done.
  - intros v. apply (packed_ok fits v).
  - intros v x Hx. rewrite (proj2 (Nat.ltb_lt _ _)) by done. eexists. split; [done|].
    apply pack_val. red. rewrite length_app. cbn. lia.
  - intros v x Hx. by rewrite (proj2 (Nat.ltb_ge _ _)) by lia.
  - intros v i x Hx. rewrite Hx. eexists. split; [done|]. apply pack_val. red.
    rewrite length_delete by done. pose proof (packed_ok fits v : (_ <= _)%nat). lia.
  - intros v i Hx. by rewrite Hx.
Qed.

Definition list_vec_slices : VecSlices list_vec := {|
  vec_from_slice l :=
    if decide (fits l) then Ok (pack fits l (@vec_new T list_vec) : @vec T list_vec) else Err ();
  vec_extend_from_slice l (v : packed fits) :=
    if decide (fits (`v ++ l)) then (pack fits (`v ++ l) v, Ok ()) else (v, Err ());
  vec_truncate n (v : packed fits) := pack fits (take n (`v)) v
|}.

Lemma list_vec_slices_laws : VecSlicesLaws list_vec_slices N.
Proof.
  split; cbn.
  - intros l Hl. rewrite decide_True by done. eexists. split; [done|]. by apply pack_val.
  - intros l Hl. rewrite decide_False; [done|]. unfold fits. lia.
  - intros l v Hl. rewrite <- length_app in Hl. rewrite decide_True by done. eexists. split; [done|]. by apply pack_val.
  - intros l v Hl. rewrite decide_False; [exists v, 0%nat; by rewrite take_0, app_nil_r|].
    unfold fits. rewrite length_app. apply Nat.nle_gt, Hl.
  - intros n v. apply pack_val. unfold fits. rewrite length_take. pose proof (packed_ok fits v) as Hv.
    unfold fits in Hv. lia.
Qed.
End ListVec.

Section ListMap.
Context (K V : Type) `{EqDecision K} (N : nat).
Implicit Types (k : K) (v : V) (l : list (K * V)).

Definition keyed l : Prop := NoDup (l.*1) /\ (length l <= N)%nat.
#[local] Instance keyed_dec l : Decision (keyed l) := and_dec _ _.

Fixpoint assoc k l : option V :=
  match l with
  | [] => None
  | (k', v) :: l => if decide (k' = k) then Some v else assoc k l
  end.

Fixpoint update k v l : list (K * V) :=
  match l with
  | [] => [(k, v)]
  | (k', v') :: l => if decide (k' = k) then (k, v) :: l else (k', v') :: update k v l
  end.

Definition drop_key k l : list (K * V) := filter (fun p => p.1 <> k) l.

Definition list_map : LinearMap K V := {|
  lmap := packed keyed;
  lm_new := [] ↾ bool_decide_pack (keyed []) (conj (NoDup_nil_2) (Nat.le_0_l N));
  lm_iter := proj1_sig;
  lm_get k m := assoc k (`m);
  lm_insert k v m :=
    if bool_decide (is_Some (assoc k (`m))) || (length (`m) <? N)%nat
    then (pack keyed (update k v (`m)) m, Ok (assoc k (`m)))
    else (m, Err (k, v));
  lm_remove k m := (pack keyed (drop_key k (`m)) m, assoc k (`m));
  lm_clear m := pack keyed [] m
|}.

Lemma assoc_elem k v l : NoDup (l.*1) -> assoc k l = Some v <-> (k, v) ∈ l.
Proof.
  induction l as [|[k' v'] l IH]; cbn; intros Hd; [by rewrite elem_of_nil|].
  pose proof (NoDup_cons_1_1 _ _ Hd) as Hn. apply NoDup_cons_1_2 in Hd. rewrite elem_of_cons. case_decide as Hk.
  - subst k'. split; [intros [= ->]; by left|]. intros [[= ->]|Hin]; [done|].
    destruct Hn. apply list_elem_of_fmap. by exists (k, v).
  - rewrite IH by done. split; [by right|]. intros [[= -> ->]|Hin]; done.
Qed.

Lemma assoc_None k l : assoc k l = None <-> k ∉ l.*1.
Proof.
  induction l as [|[k' v'] l IH]; cbn; [split; [intros _; apply not_elem_of_nil|done]|].
  rewrite not_elem_of_cons. case_decide; [naive_solver|]. rewrite IH. naive_solver.
Qed.

Lemma assoc_update_eq k v l : assoc k (update k v l) = Some v.
Proof.
  induction l as [|[k' v'] l IH]; cbn; [by rewrite decide_True|].
  case_decide; cbn; [by rewrite decide_True|by rewrite decide_False].
Qed.

Lemma assoc_update_ne k k' v l : k' <> k -> assoc k' (update k v l) = assoc k' l.
Proof.
  intros Hne. induction l as [|[k0 v0] l IH]; cbn; [by rewrite decide_False|].
  case_decide; cbn; [subst; by rewrite !decide_False by congruence|]. by rewrite IH.
Qed.

Lemma keys_update k v l :
  (update k v l).*1 = if decide (k ∈ l.*1) then l.*1 else l.*1 ++ [k].
Proof.
  induction l as [|[k0 v0] l IH]; cbn; [by rewrite decide_False by apply not_elem_of_nil|].
  destruct (decide (k0 = k)) as [->|Hk]; cbn.
  - by rewrite decide_True by (apply elem_of_cons; by left).
  - rewrite IH. destruct (decide (k ∈ l.*1)).
    + by rewrite decide_True by (apply elem_of_cons; by right).
    + rewrite decide_False; [done|]. by apply not_elem_of_cons.
Qed.

Lemma update_keyed k v l :
  keyed l -> is_Some (assoc k l) \/ (length l < N)%nat -> keyed (update k v l).
Proof.
  intros [Hd Hl] Hr. unfold keyed. rewrite <-(length_fmap fst (update k v l)), keys_update.
  case_decide as Hin; [by rewrite length_fmap|]. split.
  - apply NoDup_app. split; [done|]. split; [|apply NoDup_singleton].
    intros x Hx ->%list_elem_of_singleton. done.
  - rewrite length_app, length_fmap. cbn. apply assoc_None in Hin. rewrite Hin in Hr.
    destruct Hr as [[? ?]|]; [done|lia].
Qed.

Lemma assoc_drop_key k k' l : assoc k' (drop_key k l) = if decide (k' = k) then None else assoc k' l.
Proof.
  unfold drop_key. induction l as [|[k0 v0] l IH]; [by case_decide|].
  rewrite filter_cons. destruct (decide ((k0, v0).1 <> k)) as [Hk|Hk]; cbn in Hk; cbn [assoc]; rewrite IH;
    repeat case_decide; congruence || naive_solver.
Qed.

Lemma drop_key_keyed k l : keyed l -> keyed (drop_key k l).
Proof.
  intros [Hd Hl]. split; [|pose proof (length_filter (fun p => p.1 <> k) l); unfold drop_key; lia].
  eapply sublist_NoDup; [done|]. apply fmap_sublist, sublist_filter.
Qed.

Lemma drop_key_shorter k l : is_Some (assoc k l) -> (length (drop_key k l) < length l)%nat.
Proof.
  intros [v Hv]. unfold drop_key. induction l as [|[k0 v0] l IH]; [done|]. cbn [assoc] in Hv.
  rewrite filter_cons. pose proof (length_filter (fun p => p.1 <> k) l).
  repeat case_decide; cbn in *; try lia; try congruence. apply IH in Hv. lia.
Qed.

Lemma list_map_laws : LinearMapLaws list_map N.
Proof.
  split; cbn.
  - done.
  - intros m. apply (packed_ok keyed m).
  - intros m. apply (packed_ok keyed m).
  - intros m k v. apply assoc_elem, (packed_ok keyed m).
  - intros m k v Hr. pose proof (update_keyed k v _ (packed_ok keyed m) Hr) as Hk.
    replace (bool_decide (is_Some (assoc k (`m))) || (length (`m) <? N)%nat) with true.
    2:{ symmetry. apply orb_true_iff. destruct Hr; [left; by apply bool_decide_eq_true|right; by apply Nat.ltb_lt]. }
    eexists. split; [done|]. rewrite pack_val by done. split; [apply assoc_update_eq|].
    intros. by apply assoc_update_ne.
  - intros m k v Hn Hl. rewrite Hn, bool_decide_eq_false_2 by (intros [? ?]; done).
    by rewrite (proj2 (Nat.ltb_ge _ _)) by lia.
  - intros m k. eexists. split; [done|]. rewrite pack_val by apply drop_key_keyed, packed_ok.
    split; [rewrite assoc_drop_key; by rewrite decide_True|].
    split; [intros; rewrite assoc_drop_key; by rewrite decide_False|]. apply drop_key_shorter.
  - intros m. apply pack_val. split; [constructor|cbn; lia].
Qed.
End ListMap.
