(* ===== verification/RingBuffer.v ===== *)
(** * The ring buffer (src/storage/ring_buffer.rs)

    [RingBuffer T] is the record of the source.  A reference into the storage
    that an operation returns ([&mut T], [&mut [T]]) is the index, or the index
    and the length, of the element or slice it points to; a closure that gets
    [&mut [T]] is a function from the slice to the slice it leaves behind and
    the values it returns, and may panic.

    The abstraction [view] reads the whole storage in ring order: its first
    [len] elements are the queue ([contents]), the rest is the free space.  Every
    operation is specified by what it does to [view] and [contents].

    Indices, offsets and sizes are natural numbers.  Those of a buffer are bounded by
    its capacity, which fits a [usize]; an offset that the caller passes is not, and
    [length + offset] beyond 2^64, which panics in the code, is not modelled. *)

From S2P Require Import Prelude.

Record RingBuffer (T : Type) := mkRing {
  storage : list T;
  read_at : nat;
  rb_length : nat
}.
Arguments mkRing {T}.
Arguments storage {T}.
Arguments read_at {T}.
Arguments rb_length {T}.

#[export] Instance eta_RingBuffer {T} : Settable (RingBuffer T) :=
  fun r => mkRing (storage r) (read_at r) (rb_length r).

(** The errors of the "discrete" interface (src/storage/mod.rs). *)
Inductive Full := FullErr.
Inductive Empty := EmptyErr.

Section Operations.
Context {T : Type}.
Implicit Types (r : RingBuffer T) (data : list T).

Definition new (st : list T) : RingBuffer T := mkRing st 0 0.

Definition clear r : RingBuffer T := r <| read_at := 0 |> <| rb_length := 0 |>.

Definition capacity r : nat := length (storage r).

Definition reset (reset_elem : T -> T) r : RingBuffer T :=
  clear r <| storage ::= fmap reset_elem |>.

Definition len r : nat := rb_length r.

Definition window r : nat := capacity r - len r.

Definition get_idx r (idx : nat) : nat :=
  if 0 <? capacity r then (read_at r + idx) mod capacity r else 0.

Definition get_idx_unchecked r (idx : nat) : outcome nat :=
  if capacity r =? 0 then Panic else Ret ((read_at r + idx) mod capacity r).

Definition contiguous_window r : nat :=
  window r `min` (capacity r - get_idx r (rb_length r)).

Definition is_empty r : bool := len r =? 0.

Definition is_full r : bool := window r =? 0.

(** *** Discrete interface *)

Definition enqueue_one_with {R E} (f : T -> outcome (T * result R E)) r :
    outcome (RingBuffer T * result (result R E) Full) :=
  if is_full r then Ret (r, Err FullErr) else
  index ← get_idx_unchecked r (rb_length r);
  elem ← unwrap (storage r !! index);
  '(elem', res) ← f elem;
  let r := r <| storage ::= <[index := elem']> |> in
  let r := if is_ok res then r <| rb_length ::= S |> else r in
  Ret (r, Ok res).

(** [Ok(&mut T)] is the index of the enqueued element. *)
Definition enqueue_one r : outcome (RingBuffer T * result nat Full) :=
  if is_full r then Ret (r, Err FullErr) else
  index ← get_idx_unchecked r (rb_length r);
  '(r', res) ← enqueue_one_with (E := unit) (fun e => Ret (e, Ok ())) r;
  match res with
  | Err FullErr => Ret (r', Err FullErr)
  | Ok _ => Ret (r', Ok index)
  end.

Definition dequeue_one_with {R E} (f : T -> outcome (T * result R E)) r :
    outcome (RingBuffer T * result (result R E) Empty) :=
  if is_empty r then Ret (r, Err EmptyErr) else
  next_at ← get_idx_unchecked r 1;
  elem ← unwrap (storage r !! read_at r);
  '(elem', res) ← f elem;
  let r := r <| storage ::= <[read_at r := elem']> |> in
  let r := if is_ok res
           then r <| rb_length ::= Nat.pred |> <| read_at := next_at |> else r in
  Ret (r, Ok res).

Definition dequeue_one r : outcome (RingBuffer T * result nat Empty) :=
  let index := read_at r in
  '(r', res) ← dequeue_one_with (E := unit) (fun e => Ret (e, Ok ())) r;
  match res with
  | Err EmptyErr => Ret (r', Err EmptyErr)
  | Ok _ => Ret (r', Ok index)
  end.

(** *** Continuous interface *)

Definition enqueue_many_with {R} (f : list T -> outcome (list T * (nat * R))) r :
    outcome (RingBuffer T * (nat * R)) :=
  let r := if rb_length r =? 0 then r <| read_at := 0 |> else r in
  let write_at := get_idx r (rb_length r) in
  let max_size := contiguous_window r in
  buf ← range (storage r) write_at (write_at + max_size);
  '(buf', (size, res)) ← f buf;
  let r := r <| storage := splice (storage r) write_at buf' |> in
  _ ← rust_assert (size <=? max_size);
  Ret (r <| rb_length ::= fun n => n + size |>, (size, res)).

(** [&mut buf[..size]] is the pair of its start in the storage and its
    length. *)
Definition enqueue_many (size : nat) r : outcome (RingBuffer T * (nat * nat)) :=
  let write_at := if rb_length r =? 0 then 0 else get_idx r (rb_length r) in
  '(r', (n, _)) ← enqueue_many_with (fun buf => Ret (buf, (size `min` length buf, ()))) r;
  Ret (r', (write_at, n)).

Definition enqueue_slice data r : outcome (RingBuffer T * nat) :=
  let copy (data : list T) (buf : list T) :=
    let size := length buf `min` length data in
    Ret (splice buf 0 (take size data), (size, drop size data)) in
  '(r, (size_1, data)) ← enqueue_many_with (copy data) r;
  '(r, (size_2, _)) ← enqueue_many_with (copy data) r;
  Ret (r, size_1 + size_2).

Definition dequeue_many_with {R} (f : list T -> outcome (list T * (nat * R))) r :
    outcome (RingBuffer T * (nat * R)) :=
  let max_size := len r `min` (capacity r - read_at r) in
  buf ← range (storage r) (read_at r) (read_at r + max_size);
  '(buf', (size, res)) ← f buf;
  let r := r <| storage := splice (storage r) (read_at r) buf' |> in
  _ ← rust_assert (size <=? max_size);
  let r := r <| read_at := if 0 <? capacity r
                           then (read_at r + size) mod capacity r else 0 |> in
  Ret (r <| rb_length ::= fun n => n - size |>, (size, res)).

Definition dequeue_many (size : nat) r : outcome (RingBuffer T * (nat * nat)) :=
  let start := read_at r in
  '(r', (n, _)) ← dequeue_many_with (fun buf => Ret (buf, (size `min` length buf, ()))) r;
  Ret (r', (start, n)).

(** The caller's slice [data] is returned with what was copied into it. *)
Definition dequeue_slice data r : outcome (RingBuffer T * (list T * nat)) :=
  let copy (data : list T) (buf : list T) :=
    let size := length buf `min` length data in
    Ret (buf, (size, (take size buf, drop size data))) in
  '(r, (size_1, (out_1, data))) ← dequeue_many_with (copy data) r;
  '(r, (size_2, (out_2, data))) ← dequeue_many_with (copy data) r;
  Ret (r, (out_1 ++ out_2 ++ data, size_1 + size_2)).

(** *** Random access interface *)

(** Start and length of the slice of unallocated elements. *)
Definition get_unallocated (offset size : nat) r : outcome (nat * nat) :=
  let start_at := get_idx r (rb_length r + offset) in
  if window r <? offset then Ret (0, 0) else
  let clamped_window := window r - offset in
  let size := if clamped_window <? size then clamped_window else size in
  let until_end := capacity r - start_at in
  let size := if until_end <? size then until_end else size in
  _ ← range (storage r) start_at (start_at + size);
  Ret (start_at, size).

Definition write_unallocated (offset : nat) data r : outcome (RingBuffer T * nat) :=
  '(start, slice_len) ← get_unallocated offset (length data) r;
  let r := r <| storage ::= fun st => splice st start (take slice_len data) |> in
  let size_1 := slice_len in
  let offset := offset + slice_len in
  let data := drop slice_len data in
  '(start, slice_len) ← get_unallocated offset (length data) r;
  let r := r <| storage ::= fun st => splice st start (take slice_len data) |> in
  Ret (r, size_1 + slice_len).

Definition enqueue_unallocated (count : nat) r : outcome (RingBuffer T) :=
  _ ← rust_assert (count <=? window r);
  Ret (r <| rb_length ::= fun n => n + count |>).

Definition get_allocated (offset size : nat) r : outcome (list T) :=
  let start_at := get_idx r offset in
  if rb_length r <? offset then Ret [] else
  let clamped_length := rb_length r - offset in
  let size := if clamped_length <? size then clamped_length else size in
  let until_end := capacity r - start_at in
  let size := if until_end <? size then until_end else size in
  range (storage r) start_at (start_at + size).

Definition read_allocated (offset : nat) data r : outcome (list T * nat) :=
  s1 ← get_allocated offset (length data) r;
  let offset := offset + length s1 in
  let data := drop (length s1) data in
  s2 ← get_allocated offset (length data) r;
  Ret (s1 ++ s2 ++ drop (length s2) data, length s1 + length s2).

Definition dequeue_allocated (count : nat) r : outcome (RingBuffer T) :=
  _ ← rust_assert (count <=? len r);
  let r := r <| rb_length ::= fun n => n - count |> in
  Ret (r <| read_at := get_idx r count |>).
End Operations.

(** ** Abstraction and well-formedness *)

Section Abstraction.
Context {T : Type}.
Implicit Types (r : RingBuffer T).

(** The invariant of the private fields. *)
Definition wf r : Prop :=
  rb_length r <= capacity r /\ (read_at r < capacity r \/ read_at r = 0).

Definition view r : list T := drop (read_at r) (storage r) ++ take (read_at r) (storage r).

Definition contents r : list T := take (rb_length r) (view r).

Definition free r : list T := drop (rb_length r) (view r).
End Abstraction.

Section Lemmas.
Context {T : Type}.
Implicit Types (r : RingBuffer T) (data : list T).

Lemma ring_new_wf (st : list T) : wf (new st).
Proof. split; cbn; [lia | by right]. Qed.

Lemma clear_wf r : wf (clear r).
Proof. split; cbn; [lia | by right]. Qed.

Lemma read_at_le r : wf r -> read_at r <= capacity r.
Proof. intros [? [?|?]]; lia. Qed.

Lemma length_view r : length (view r) = capacity r.
Proof.
  unfold view, capacity. rewrite length_app, length_drop, length_take. lia.
Qed.

Lemma length_contents r : wf r -> length (contents r) = rb_length r.
Proof. intros [? _]. unfold contents. rewrite length_take, length_view. lia. Qed.

Lemma length_free r : length (free r) = window r.
Proof. unfold free, window, len. by rewrite length_drop, length_view. Qed.

Lemma contents_free r : contents r ++ free r = view r.
Proof. apply take_drop. Qed.

Lemma contents_new (st : list T) : contents (new st) = [].
Proof. done. Qed.

Lemma contents_clear r : contents (clear r) = [].
Proof. done. Qed.

(** Subtraction in [window] never truncates. *)
Lemma window_len r : wf r -> window r + len r = capacity r.
Proof. intros [? _]. unfold window, len in *. lia. Qed.

(** [get_idx] without the modulo. *)
Lemma get_idx_cases r i :
  wf r -> i <= capacity r ->
  get_idx r i = if read_at r + i <? capacity r then read_at r + i
                else read_at r + i - capacity r.
Proof.
  intros Hwf Hi. pose proof (read_at_le r Hwf). destruct Hwf as [_ Hra].
  unfold get_idx. destruct (Nat.ltb_spec 0 (capacity r)).
  - destruct (Nat.ltb_spec (read_at r + i) (capacity r)).
    + by apply Nat.mod_small.
    + replace (read_at r + i) with (read_at r + i - capacity r + 1 * capacity r) at 1 by lia.
      rewrite Nat.Div0.mod_add. apply Nat.mod_small. lia.
  - destruct (Nat.ltb_spec (read_at r + i) (capacity r)); lia.
Qed.

Lemma get_idx_ext r r' i :
  capacity r = capacity r' -> read_at r = read_at r' -> get_idx r i = get_idx r' i.
Proof. intros Hc Hr. unfold get_idx. by rewrite Hc, Hr. Qed.

Lemma get_idx_lt r i :
  wf r -> i <= capacity r -> 0 < capacity r -> get_idx r i < capacity r.
Proof. intros. unfold get_idx. rewrite (proj2 (Nat.ltb_lt _ _)) by lia. apply Nat.mod_upper_bound. lia. Qed.

Lemma get_idx_le r i : wf r -> i <= capacity r -> get_idx r i <= capacity r.
Proof.
  intros. destruct (decide (0 < capacity r)).
  - apply Nat.lt_le_incl. by apply get_idx_lt.
  - unfold get_idx. rewrite (proj2 (Nat.ltb_ge _ _)); lia.
Qed.

Lemma get_idx_unchecked_Ret r i :
  0 < capacity r -> get_idx_unchecked r i = Ret (get_idx r i).
Proof.
  intros. unfold get_idx_unchecked, get_idx.
  rewrite (proj2 (Nat.eqb_neq _ _)), (proj2 (Nat.ltb_lt _ _)) by lia. done.
Qed.

(** The run that ends at the end of the storage is followed by index 0. *)
Lemma get_idx_wrap r k :
  wf r -> k + (capacity r - get_idx r k) <= capacity r ->
  get_idx r (k + (capacity r - get_idx r k)) = 0.
Proof.
  intros Hwf Hk. pose proof (read_at_le r Hwf).
  pose proof (get_idx_cases r k Hwf ltac:(lia)) as Hx.
  revert Hk Hx. generalize (get_idx r k) as x. intros x Hk Hx.
  rewrite get_idx_cases by done. pose proof Hwf as [_ ?]. decide_tests; lia.
Qed.

(** The element at queue position [i] is at storage position [get_idx r i]. *)
Lemma lookup_view r i :
  wf r -> i < capacity r -> view r !! i = storage r !! get_idx r i.
Proof.
  intros Hwf Hi. pose proof (read_at_le r Hwf).
  rewrite get_idx_cases by (done || lia). unfold view, capacity in *.
  destruct (Nat.ltb_spec (read_at r + i) (length (storage r))).
  - rewrite lookup_app_l by (rewrite length_drop; lia). by rewrite lookup_drop.
  - rewrite lookup_app_r by (rewrite length_drop; lia).
    rewrite length_drop, lookup_take_lt by lia. f_equal. lia.
Qed.

(** A run of the ring that does not cross the end of the storage. *)
Definition contiguous r (k n : nat) : Prop :=
  k + n <= capacity r /\ get_idx r k + n <= capacity r.

Lemma contiguous_shift r k n i :
  wf r -> contiguous r k n -> i < n -> get_idx r (k + i) = get_idx r k + i.
Proof.
  intros Hwf [Hk Hn] Hi. pose proof (read_at_le r Hwf).
  rewrite (get_idx_cases r (k + i)) by (done || lia).
  rewrite (get_idx_cases r k) in * by (done || lia).
  decide_tests; lia.
Qed.

Lemma slice_view r k n :
  wf r -> contiguous r k n -> slice (storage r) (get_idx r k) n = slice (view r) k n.
Proof.
  intros Hwf Hc. apply list_eq. intros i. destruct (decide (i < n)).
  - rewrite !lookup_slice by done. destruct Hc as [??].
    rewrite lookup_view by (done || lia).
    by rewrite (contiguous_shift r k n).
  - by rewrite !lookup_slice_ge by lia.
Qed.

Lemma splice_storage_wf r k (s : list T) :
  wf r -> contiguous r k (length s) ->
  wf (r <| storage := splice (storage r) (get_idx r k) s |>) /\
  capacity (r <| storage := splice (storage r) (get_idx r k) s |>) = capacity r.
Proof.
  intros [??] [? Hs]. unfold wf, capacity in *. cbn -[splice].
  rewrite length_splice by done. done.
Qed.

(** Overwriting such a run overwrites the same run of the view. *)
Lemma view_splice r k (s : list T) :
  wf r -> contiguous r k (length s) ->
  view (r <| storage := splice (storage r) (get_idx r k) s |>) = splice (view r) k s.
Proof.
  intros Hwf Hc. destruct (splice_storage_wf r k s Hwf Hc) as [Hwf' Hcap].
  pose proof Hc as [Hk Hn]. apply list_eq. intros i.
  destruct (decide (i < capacity r)) as [Hi|Hi].
  2: { rewrite !lookup_ge_None_2; [done | |].
       - rewrite length_splice; rewrite ?length_view; lia.
       - rewrite length_view. lia. }
  rewrite lookup_view by (done || lia).
  rewrite (get_idx_ext _ r) by done.
  cbn [set_field storage].
  destruct (decide (k <= i < k + length s)) as [Hin|Hout].
  - rewrite (lookup_splice_in (view r)) by (rewrite ?length_view; lia).
    replace i with (k + (i - k)) at 1 by lia.
    rewrite (contiguous_shift r k (length s)) by (done || lia).
    rewrite lookup_splice_in by (unfold capacity in *; lia). f_equal. lia.
  - rewrite (lookup_splice_out (view r)) by (rewrite ?length_view; lia).
    rewrite lookup_splice_out; [by rewrite lookup_view | unfold capacity in *; lia |].
    rewrite !get_idx_cases in * by (done || lia).
    pose proof (read_at_le r Hwf).
    decide_tests; lia.
Qed.
End Lemmas.

(** ** Behaviour of the operations *)

Section Specifications.
Context {T : Type}.
Implicit Types (r : RingBuffer T) (data : list T).

(** Moving [read_at] forward rotates the view. *)
Lemma view_rotate r r' n :
  wf r -> n <= capacity r -> storage r' = storage r -> read_at r' = get_idx r n ->
  view r' = drop n (view r) ++ take n (view r).
Proof.
  intros Hwf Hn Hst Hra.
  transitivity (view (mkRing (storage r) (get_idx r n) 0)).
  { unfold view. by rewrite Hst, Hra. }
  set (q := mkRing _ _ _). pose proof (read_at_le r Hwf) as Hle.
  assert (capacity q = capacity r) as Hcap by done.
  assert (wf q) as Hq.
  { split; [cbn; lia|]. destruct (decide (0 < capacity r)).
    - left. rewrite Hcap. by apply get_idx_lt.
    - right. cbn. rewrite get_idx_cases by done. decide_tests; lia. }
  apply list_eq. intros i. destruct (decide (i < capacity r)) as [Hi|Hi].
  2: { rewrite !lookup_ge_None_2; [done| |];
       rewrite ?length_app, ?length_drop, ?length_take, !length_view; lia. }
  rewrite lookup_view by done. change (storage q) with (storage r).
  rewrite (get_idx_cases q) by (done || lia). rewrite Hcap.
  change (read_at q) with (get_idx r n). rewrite get_idx_cases by done.
  destruct (decide (i < capacity r - n)).
  - rewrite lookup_app_l by (rewrite length_drop, length_view; lia).
    rewrite lookup_drop, lookup_view, get_idx_cases by (done || lia).
    decide_tests; f_equal; lia.
  - rewrite lookup_app_r by (rewrite length_drop, length_view; lia).
    rewrite length_drop, length_view, lookup_take_lt by lia.
    rewrite lookup_view, get_idx_cases by (done || lia).
    decide_tests; f_equal; lia.
Qed.

Definition prepared r : RingBuffer T :=
  if rb_length r =? 0 then r <| read_at := 0 |> else r.

Lemma prepared_wf r : wf r -> wf (prepared r).
Proof. unfold prepared, wf, capacity. intros [??]. decide_tests; cbn; auto. Qed.

Lemma prepared_frame r :
  capacity (prepared r) = capacity r /\ rb_length (prepared r) = rb_length r /\
  window (prepared r) = window r /\ contents (prepared r) = contents r.
Proof.
  unfold prepared, contents, window, len, capacity. decide_tests; cbn; [|done].
  rewrite e. done.
Qed.

Lemma contiguous_window_spec r :
  wf r -> contiguous r (rb_length r) (contiguous_window r) /\
          rb_length r + contiguous_window r <= capacity r.
Proof.
  intros Hwf. pose proof (get_idx_le r (rb_length r) Hwf) as Hi.
  destruct Hwf as [? _]. unfold contiguous, contiguous_window, window, len. lia.
Qed.

Lemma contents_extend r r' k (s : list T) :
  wf r -> view r' = splice (view r) (rb_length r) s -> k <= length s ->
  rb_length r + length s <= capacity r -> rb_length r' = rb_length r + k ->
  contents r' = contents r ++ take k s.
Proof.
  intros Hwf Hv Hk Hs Hl. unfold contents. rewrite Hv, Hl. unfold splice.
  rewrite take_app_ge by (rewrite length_take, length_view; lia).
  rewrite length_take, length_view, Nat.min_l by lia.
  rewrite take_app_le by lia. f_equal. f_equal. lia.
Qed.

(** What [enqueue_many_with] does, for a closure that (as every Rust slice
    function) leaves the length of the slice unchanged. *)
Lemma enqueue_many_with_spec {R} (f : list T -> outcome (list T * (nat * R))) r buf' size res :
  wf r -> length buf' = contiguous_window (prepared r) ->
  f (slice (view (prepared r)) (rb_length r) (contiguous_window (prepared r)))
    = Ret (buf', (size, res)) ->
  size <= contiguous_window (prepared r) ->
  exists r', enqueue_many_with f r = Ret (r', (size, res)) /\ wf r' /\
    capacity r' = capacity r /\ contents r' = contents r ++ take size buf' /\
    rb_length r' = rb_length r + size /\ read_at r' = read_at (prepared r).
Proof.
  intros Hwf0 Hb Hfs Hsize. pose proof (prepared_wf r Hwf0) as Hwf.
  destruct (prepared_frame r) as (Hcap & Hlen & _ & Hcont).
  unfold enqueue_many_with. fold (prepared r). rewrite <-Hcont, <-Hcap, <-Hlen in *.
  clear Hcont Hcap Hlen Hwf0. revert Hwf Hb Hfs Hsize. generalize (prepared r). clear r.
  intros r Hwf Hb Hfs Hsize.
  destruct (contiguous_window_spec r Hwf) as [Hc Hle].
  cbn beta zeta. destruct Hc as [Hc1 Hc2].
  rewrite range_Ret by (unfold capacity in *; lia).
  rewrite outcome_bind_Ret_l.
  replace (_ + _ - _) with (contiguous_window r) by lia.
  rewrite slice_view by done. rewrite Hfs, outcome_bind_Ret_l.
  rewrite (proj2 (Nat.leb_le _ _)) by done. cbn [rust_assert].
  rewrite outcome_bind_Ret_l. eexists. split; [done|].
  rewrite <-Hb in *.
  destruct (splice_storage_wf r (rb_length r) buf' Hwf ltac:(done)) as [Hwf' Hcap].
  pose proof (view_splice r (rb_length r) buf' Hwf ltac:(done)) as Hv.
  split; [|split; [|split; [|done]]].
  - destruct Hwf' as [??]. unfold wf, capacity in *. cbn in *. split; [lia|done].
  - done.
  - eapply (contents_extend r); try done; lia.
Qed.

(** A ring whose free space wraps becomes contiguous once its end is full. *)
Lemma contiguous_window_wrapped r r' :
  wf r -> contiguous_window r < window r ->
  capacity r' = capacity r -> read_at r' = read_at r ->
  rb_length r' = rb_length r + contiguous_window r ->
  contiguous_window r' = window r'.
Proof.
  intros Hwf Hlt Hcap Hra Hlen.
  pose proof (read_at_le r Hwf) as Hle.
  assert (0 < capacity r) by (unfold window in *; lia).
  assert (contiguous_window r = capacity r - get_idx r (rb_length r)) as Hcw
    by (unfold contiguous_window in *; lia).
  destruct (contiguous_window_spec r Hwf) as [_ Hb].
  rewrite get_idx_cases in Hcw by (apply Hwf || done).
  unfold contiguous_window at 1. rewrite (get_idx_ext r' r) by done.
  rewrite (get_idx_cases r) by (done || lia).
  unfold window, len in *. destruct Hwf as [??]. rewrite Hcap, Hlen in *.
  decide_tests; lia.
Qed.

(** One round of the copy made by [enqueue_slice]. *)
Definition copy_in data (buf : list T) : outcome (list T * (nat * list T)) :=
  let size := length buf `min` length data in
  Ret (splice buf 0 (take size data), (size, drop size data)).

Lemma enqueue_copy_round data r :
  wf r -> exists r',
    let n := contiguous_window (prepared r) `min` length data in
    enqueue_many_with (copy_in data) r = Ret (r', (n, drop n data)) /\ wf r' /\
    capacity r' = capacity r /\ contents r' = contents r ++ take n data /\
    rb_length r' = rb_length r + n /\ read_at r' = read_at (prepared r).
Proof.
  intros Hwf. destruct (prepared_frame r) as (Hcap & Hlen & _).
  pose proof (contiguous_window_spec _ (prepared_wf r Hwf)) as [[Hc _] _].
  set (n := contiguous_window (prepared r) `min` length data).
  set (buf := slice (view (prepared r)) (rb_length r) (contiguous_window (prepared r))).
  assert (length buf = contiguous_window (prepared r)) as Hb.
  { unfold buf. rewrite length_slice, length_view. lia. }
  destruct (enqueue_many_with_spec (copy_in data) r (splice buf 0 (take n data)) n
    (drop n data)) as (r' & Hr & Hwf' & Hcap' & Hcont & ?); try done.
  - rewrite length_splice; [done|]. rewrite length_take. lia.
  - unfold copy_in. fold buf. by rewrite Hb.
  - lia.
  - exists r'. split_and!; try done; try tauto. rewrite Hcont. f_equal.
    rewrite take_splice_0 by (rewrite length_take; lia).
    rewrite take_take. f_equal. lia.
Qed.

Lemma enqueue_slice_ok data r :
  wf r -> exists r',
    let n := window r `min` length data in
    enqueue_slice data r = Ret (r', n) /\ wf r' /\ capacity r' = capacity r /\
    contents r' = contents r ++ take n data /\ rb_length r' = rb_length r + n.
Proof.
  intros Hwf. destruct (prepared_frame r) as (Hcap0 & Hlen0 & Hwin0 & _).
  destruct (enqueue_copy_round data r Hwf) as (r1 & Hr1 & Hwf1 & Hcap1 & Hc1 & Hl1 & Hra1).
  cbn zeta in *. set (n1 := contiguous_window (prepared r) `min` length data) in *.
  destruct (enqueue_copy_round (drop n1 data) r1 Hwf1)
    as (r2 & Hr2 & Hwf2 & Hcap2 & Hc2 & Hl2 & _).
  cbn zeta in *. set (n2 := _ `min` length (drop n1 data)) in *.
  assert (n1 + n2 = window r `min` length data) as Hn.
  { unfold n2. rewrite length_drop.
    destruct (prepared_frame r1) as (Hcapp & Hlenp & Hwinp & _).
    pose proof (contiguous_window_spec _ (prepared_wf r1 Hwf1)) as [_ Hb1].
    pose proof (contiguous_window_spec _ (prepared_wf r Hwf)) as [_ Hb].
    destruct (decide (length data <= contiguous_window (prepared r))) as [?|Hlt].
    { unfold window, len in *. lia. }
    assert (n1 = contiguous_window (prepared r)) as Hn1 by lia.
    destruct (decide (contiguous_window (prepared r) = window r)) as [?|Hne].
    { unfold window, len in *. lia. }
    assert (rb_length r1 <> 0).
    { assert (0 < contiguous_window (prepared r)); [|lia].
      unfold contiguous_window. pose proof (get_idx_lt (prepared r) (rb_length (prepared r))
        (prepared_wf r Hwf)). unfold window, len in *. destruct Hwf. lia. }
    assert (prepared r1 = r1) as Hp
      by (unfold prepared; rewrite (proj2 (Nat.eqb_neq _ _)); done).
    rewrite Hp. rewrite (contiguous_window_wrapped (prepared r) r1).
    - unfold window, len in *. lia.
    - by apply prepared_wf.
    - unfold contiguous_window in *. lia.
    - lia.
    - done.
    - lia. }
  exists r2. cbn zeta. rewrite <-Hn. split_and!; try done; try lia.
  - unfold enqueue_slice. fold (copy_in data). rewrite Hr1. cbn.
    fold (copy_in (drop n1 data)). by rewrite Hr2.
  - rewrite Hc2, Hc1, <-app_assoc. f_equal.
    rewrite <-(take_take_drop data n1 n2). done.
Qed.

(** *** Dequeueing *)

Lemma contents_drop r r' n :
  wf r -> n <= rb_length r -> storage r' = storage r -> read_at r' = get_idx r n ->
  rb_length r' = rb_length r - n ->
  wf r' /\ capacity r' = capacity r /\ contents r' = drop n (contents r).
Proof.
  intros Hwf Hn Hst Hra Hl. pose proof Hwf as [Hle _].
  assert (capacity r' = capacity r) as Hcap by (unfold capacity; by rewrite Hst).
  split_and!; [|done|].
  - split; [lia|]. rewrite Hra, Hcap. destruct (decide (0 < capacity r)).
    + left. apply get_idx_lt; (done || lia).
    + right. rewrite get_idx_cases by (done || lia). pose proof (read_at_le r Hwf).
      decide_tests; lia.
  - unfold contents. rewrite (view_rotate r r' n), Hl by (done || lia).
    rewrite take_app_le by (rewrite length_drop, length_view; lia).
    by rewrite skipn_firstn_comm.
Qed.

Lemma dequeue_allocated_ok n r :
  wf r -> n <= rb_length r -> exists r',
    dequeue_allocated n r = Ret r' /\ wf r' /\ capacity r' = capacity r /\
    contents r' = drop n (contents r) /\ rb_length r' = rb_length r - n.
Proof.
  intros Hwf Hn. unfold dequeue_allocated. unfold len.
  rewrite (proj2 (Nat.leb_le _ _)) by done. cbn -[get_idx].
  eexists. split; [done|].
  edestruct (contents_drop r) as (? & ? & ?); [done| exact Hn | ..].
  4: { split_and!; try done. }
  all: done.
Qed.

Lemma dequeue_allocated_panics n r :
  rb_length r < n -> dequeue_allocated n r = Panic.
Proof. intros. unfold dequeue_allocated, len. by rewrite (proj2 (Nat.leb_gt _ _)). Qed.

Lemma read_at_contiguous r :
  wf r -> contiguous r 0 (len r `min` (capacity r - read_at r)) /\ get_idx r 0 = read_at r \/
          capacity r = 0.
Proof.
  intros Hwf. destruct (decide (capacity r = 0)); [by right|left].
  pose proof (read_at_le r Hwf). pose proof Hwf as [? Hra].
  assert (get_idx r 0 = read_at r) as Hi.
  { rewrite get_idx_cases by (done || lia). decide_tests; lia. }
  split; [|done]. unfold contiguous. rewrite Hi. unfold len. lia.
Qed.

Definition contiguous_len r : nat := len r `min` (capacity r - read_at r).

Lemma contiguous_len_slice r :
  wf r -> slice (storage r) (read_at r) (contiguous_len r) =
          take (contiguous_len r) (contents r).
Proof.
  intros Hwf. destruct (read_at_contiguous r Hwf) as [[Hc Hi]|Hcap].
  - rewrite <-Hi at 1. rewrite slice_view by done. unfold slice, contents.
    rewrite drop_0, take_take. f_equal. unfold contiguous_len, len. lia.
  - unfold contiguous_len. by rewrite Hcap, Nat.min_0_r.
Qed.

(** Mutating the slice handed to the closure changes the front of the queue. *)
Lemma view_front r (s : list T) :
  wf r -> length s = contiguous_len r ->
  let r' := r <| storage := splice (storage r) (read_at r) s |> in
  wf r' /\ capacity r' = capacity r /\
  contents r' = s ++ drop (length s) (contents r).
Proof.
  intros Hwf Hs r'. destruct (read_at_contiguous r Hwf) as [[Hc Hi]|Hcap].
  - fold (contiguous_len r) in Hc. rewrite <-Hs in Hc.
    destruct (splice_storage_wf r 0 s Hwf Hc) as [Hwf' Hcap'].
    pose proof (view_splice r 0 s Hwf Hc) as Hv. rewrite Hi in *.
    split_and!; [done..|]. subst r'. unfold contents. rewrite Hv.
    cbn [rb_length set_field]. unfold splice. rewrite take_0, app_nil_l.
    rewrite Nat.add_0_l. rewrite take_app_ge by (unfold contiguous_len, len in *; lia).
    by rewrite skipn_firstn_comm.
  - assert (s = []) as -> by (apply nil_length_inv; unfold contiguous_len in *; lia).
    subst r'. rewrite splice_same_length_nil. destruct r; done.
Qed.

Lemma dequeue_many_with_spec {R} (f : list T -> outcome (list T * (nat * R))) r buf' size res :
  wf r -> length buf' = contiguous_len r ->
  f (take (contiguous_len r) (contents r)) = Ret (buf', (size, res)) ->
  size <= contiguous_len r ->
  exists r', dequeue_many_with f r = Ret (r', (size, res)) /\ wf r' /\
    capacity r' = capacity r /\ rb_length r' = rb_length r - size /\
    read_at r' = get_idx r size /\
    contents r' = drop size (buf' ++ drop (contiguous_len r) (contents r)).
Proof.
  intros Hwf Hb Hfs Hsize. pose proof (read_at_le r Hwf) as Hra.
  destruct (view_front r buf' Hwf Hb) as (Hwf1 & Hcap1 & Hc1).
  rewrite Hb in Hc1. rewrite <-Hc1. clear Hc1.
  set (r1 := r <| storage := _ |>) in *.
  assert (size <= rb_length r1) as Hs1 by (unfold contiguous_len, len in *; cbn; lia).
  edestruct (contents_drop r1
    (r1 <| read_at := get_idx r1 size |> <| rb_length ::= fun n => n - size |>) size)
    as (Hwf' & Hcap' & Hc'); [done|done|done|done|done|].
  eexists. split; [|split_and!; [exact Hwf' | by rewrite Hcap' | done | | exact Hc']].
  2: { by apply get_idx_ext. }
  unfold dequeue_many_with. fold (contiguous_len r).
  rewrite range_Ret by (unfold contiguous_len, capacity in *; lia).
  rewrite outcome_bind_Ret_l. replace (_ + _ - _) with (contiguous_len r) by lia.
  rewrite contiguous_len_slice, Hfs, outcome_bind_Ret_l by done. fold r1. cbn zeta.
  rewrite (proj2 (Nat.leb_le _ _)) by done. done.
Qed.

Definition copy_out data (buf : list T) : outcome (list T * (nat * (list T * list T))) :=
  let size := length buf `min` length data in
  Ret (buf, (size, (take size buf, drop size data))).

Lemma dequeue_copy_round data r :
  wf r -> exists r',
    let n := contiguous_len r `min` length data in
    dequeue_many_with (copy_out data) r
      = Ret (r', (n, (take n (contents r), drop n data))) /\ wf r' /\
    capacity r' = capacity r /\ rb_length r' = rb_length r - n /\
    read_at r' = get_idx r n /\ contents r' = drop n (contents r).
Proof.
  intros Hwf. set (n := contiguous_len r `min` length data).
  set (buf := take (contiguous_len r) (contents r)).
  assert (length buf = contiguous_len r) as Hb.
  { unfold buf. rewrite length_take, length_contents by done.
    unfold contiguous_len, len. lia. }
  destruct (dequeue_many_with_spec (copy_out data) r buf n (take n buf, drop n data))
    as (r' & Hr & Hwf' & Hcap & Hlen & Hra & Hc); try done.
  - unfold copy_out. fold buf. by rewrite Hb.
  - lia.
  - exists r'. split_and!; try done.
    + rewrite Hr. unfold buf. rewrite take_take. do 5 f_equal. lia.
    + rewrite Hc. unfold buf. by rewrite take_drop.
Qed.

Lemma contiguous_len_wrapped r r' :
  wf r -> contiguous_len r < len r -> capacity r' = capacity r ->
  read_at r' = get_idx r (contiguous_len r) ->
  rb_length r' = rb_length r - contiguous_len r -> contiguous_len r' = len r'.
Proof.
  intros Hwf Hlt Hcap Hra Hlen. pose proof (read_at_le r Hwf) as Hle.
  pose proof Hwf as [? _]. unfold contiguous_len, len in *.
  rewrite get_idx_cases in Hra by (done || lia).
  rewrite Hcap, Hra, Hlen. decide_tests; lia.
Qed.

Lemma dequeue_slice_ok data r :
  wf r -> exists r',
    let n := len r `min` length data in
    dequeue_slice data r = Ret (r', (take n (contents r) ++ drop n data, n)) /\
    wf r' /\ capacity r' = capacity r /\ contents r' = drop n (contents r) /\
    rb_length r' = rb_length r - n.
Proof.
  intros Hwf.
  destruct (dequeue_copy_round data r Hwf) as (r1 & Hr1 & Hwf1 & Hcap1 & Hl1 & Hra1 & Hc1).
  cbn zeta in *. set (n1 := contiguous_len r `min` length data) in *.
  destruct (dequeue_copy_round (drop n1 data) r1 Hwf1)
    as (r2 & Hr2 & Hwf2 & Hcap2 & Hl2 & _ & Hc2).
  cbn zeta in *. set (n2 := _ `min` length (drop n1 data)) in *.
  assert (n1 + n2 = len r `min` length data) as Hn.
  { unfold n2. rewrite length_drop.
    destruct (decide (length data <= contiguous_len r)) as [?|?].
    { unfold contiguous_len, len in *. lia. }
    assert (n1 = contiguous_len r) as Hn1 by lia. rewrite Hn1 in *.
    destruct (decide (contiguous_len r = len r)) as [?|?].
    { unfold contiguous_len, len in *. lia. }
    rewrite (contiguous_len_wrapped r r1) by (done || (unfold contiguous_len in *; lia)).
    unfold contiguous_len, len in *. lia. }
  exists r2. cbn zeta. rewrite <-Hn. split_and!; try done; try lia.
  - unfold dequeue_slice. fold (copy_out data). rewrite Hr1. cbn.
    fold (copy_out (drop n1 data)). rewrite Hr2. cbn.
    rewrite Hc1, app_assoc, take_take_drop, drop_drop. done.
  - by rewrite Hc2, Hc1, drop_drop.
Qed.

(** *** Random access *)

Lemma get_allocated_ok offset size r :
  wf r -> offset <= rb_length r -> exists n,
    get_allocated offset size r = Ret (slice (contents r) offset n) /\
    n = (size `min` (rb_length r - offset)) `min` (capacity r - get_idx r offset).
Proof.
  intros Hwf Ho. pose proof Hwf as [Hl _].
  pose proof (get_idx_le r offset Hwf ltac:(lia)) as Hi.
  unfold get_allocated. rewrite (proj2 (Nat.ltb_ge _ _)) by done.
  set (n := (size `min` (rb_length r - offset)) `min` (capacity r - get_idx r offset)).
  exists n. split; [|done]. cbn zeta.
  match goal with |- range _ _ (_ + ?m) = _ => assert (m = n) as ->
    by (decide_tests; lia) end.
  rewrite range_Ret by (unfold capacity in *; lia). f_equal.
  replace (_ + n - _) with n by lia.
  rewrite slice_view by (done || (split; lia)).
  unfold slice, contents. rewrite skipn_firstn_comm, take_take. f_equal. lia.
Qed.

Lemma get_unallocated_ok offset size r :
  wf r -> offset <= window r -> exists n,
    get_unallocated offset size r = Ret (get_idx r (rb_length r + offset), n) /\
    contiguous r (rb_length r + offset) n /\
    n = (size `min` (window r - offset)) `min`
        (capacity r - get_idx r (rb_length r + offset)).
Proof.
  intros Hwf Ho. pose proof Hwf as [Hl _]. unfold window, len in Ho.
  pose proof (get_idx_le r (rb_length r + offset) Hwf ltac:(lia)) as Hi.
  unfold get_unallocated. rewrite (proj2 (Nat.ltb_ge _ _)) by done.
  eexists. split; [|split]; cycle 2. { done. }
  - cbn zeta. match goal with |- (range _ _ (_ + ?m) ≫= _) = Ret (_, ?n) => assert (m = n) as ->
      by (decide_tests; lia) end.
    rewrite range_Ret by (unfold capacity in *; lia). done.
  - unfold contiguous, window, len. lia.
Qed.

(** [r'] holds the storage of [r] with a run of the ring overwritten. *)
Lemma write_run r k n data :
  wf r -> contiguous r k n -> n <= length data -> rb_length r <= k ->
  let r' := r <| storage ::= fun st => splice st (get_idx r k) (take n data) |> in
  wf r' /\ capacity r' = capacity r /\ view r' = splice (view r) k (take n data).
Proof.
  intros Hwf Hc Hn Hk r'.
  assert (length (take n data) = n) as Hl by (rewrite length_take; lia).
  rewrite <-Hl in Hc.
  destruct (splice_storage_wf r k (take n data) Hwf Hc). split_and!; try done.
  by apply (view_splice r k (take n data)).
Qed.

Lemma write_unallocated_ok offset data r :
  wf r -> offset <= window r -> exists r',
    let n := length data `min` (window r - offset) in
    write_unallocated offset data r = Ret (r', n) /\ wf r' /\
    capacity r' = capacity r /\ rb_length r' = rb_length r /\ read_at r' = read_at r /\
    view r' = splice (view r) (rb_length r + offset) (take n data).
Proof.
  intros Hwf Ho.
  destruct (get_unallocated_ok offset (length data) r Hwf Ho) as (n1 & Hg1 & Hc1 & Hn1).
  destruct (write_run r _ n1 data Hwf Hc1 ltac:(lia) ltac:(lia)) as (Hwf1 & Hcap1 & Hv1).
  set (r1 := r <| storage ::= _ |>) in *.
  assert (window r1 = window r) as Hw by (unfold window; by rewrite Hcap1).
  assert (offset + n1 <= window r1) as Ho1 by lia.
  destruct (get_unallocated_ok (offset + n1) (length (drop n1 data)) r1 Hwf1 Ho1)
    as (n2 & Hg2 & Hc2 & Hn2).
  assert (n2 <= length (drop n1 data)) as Hd by lia.
  destruct (write_run r1 _ n2 (drop n1 data) Hwf1 Hc2 Hd ltac:(lia))
    as (Hwf2 & Hcap2 & Hv2).
  assert (n1 + n2 = length data `min` (window r - offset)) as Hn.
  { rewrite length_drop, (get_idx_ext r1 r), Hw, Hcap1 in Hn2 by done.
    change (rb_length r1) with (rb_length r) in Hn2.
    pose proof (get_idx_wrap r (rb_length r + offset) Hwf) as Hwrap.
    destruct Hc1 as [? _].
    destruct (decide (n1 = capacity r - get_idx r (rb_length r + offset))) as [Heq|].
    - rewrite <-Heq, <-Nat.add_assoc in Hwrap. rewrite Hwrap in Hn2 by lia.
      unfold window, len in *. lia.
    - lia. }
  eexists. cbn zeta. rewrite <-Hn. split_and!; cycle 1.
  - exact Hwf2.
  - congruence.
  - done.
  - done.
  - rewrite Hv2, Hv1. change (rb_length r1) with (rb_length r).
    rewrite <-take_take_drop.
    replace (rb_length r + (offset + n1)) with (rb_length r + offset + length (take n1 data))
      by (rewrite length_take; lia).
    rewrite splice_app; [done|]. rewrite !length_take, length_view.
    destruct Hc2 as [? _]. cbn in *. lia.
  - unfold write_unallocated. rewrite Hg1. cbn -[get_unallocated]. fold r1. by rewrite Hg2.
Qed.

Lemma contents_write r r' offset (s : list T) :
  offset <= window r -> wf r -> rb_length r' = rb_length r ->
  view r' = splice (view r) (rb_length r + offset) s ->
  contents r' = contents r /\ free r' = splice (free r) offset s.
Proof.
  intros Ho [? _] Hl Hv. unfold contents, free, window, len in *. rewrite Hl, Hv. split.
  - apply take_splice_out; rewrite ?length_view; lia.
  - rewrite drop_splice by (rewrite ?length_view; lia). f_equal. lia.
Qed.

Lemma enqueue_unallocated_ok n r :
  wf r -> n <= window r -> exists r',
    enqueue_unallocated n r = Ret r' /\ wf r' /\ capacity r' = capacity r /\
    rb_length r' = rb_length r + n /\
    contents r' = contents r ++ take n (free r) /\ free r' = drop n (free r).
Proof.
  intros [Hle ?] Hn. unfold enqueue_unallocated.
  rewrite (proj2 (Nat.leb_le _ _)) by done. eexists. split; [done|].
  unfold window, len, wf, contents, free, capacity in *. cbn -[view]. split_and!; try done; [lia|..].
  - by rewrite take_take_drop.
  - by rewrite drop_drop.
Qed.

Lemma enqueue_unallocated_panics n r :
  window r < n -> enqueue_unallocated n r = Panic.
Proof. intros. unfold enqueue_unallocated. by rewrite (proj2 (Nat.leb_gt _ _)). Qed.

Lemma free_dequeue n r r' :
  wf r -> n <= rb_length r -> dequeue_allocated n r = Ret r' ->
  free r' = free r ++ take n (contents r).
Proof.
  intros Hwf Hn. unfold dequeue_allocated, len. pose proof Hwf as [? _].
  rewrite (proj2 (Nat.leb_le _ _)) by done. cbn -[get_idx]. intros [= <-].
  unfold free, contents. rewrite (view_rotate r _ n) by (done || lia).
  cbn [rb_length set_field].
  rewrite drop_app_le by (rewrite length_drop, length_view; lia).
  rewrite drop_drop, take_take. do 2 f_equal; lia.
Qed.
End Specifications.

(** ** Single elements and reads *)

Section SingleElements.
Context {T : Type}.
Implicit Types (r : RingBuffer T) (data : list T).

(** Assignment through the reference returned by [enqueue_one]. *)
Definition assign (index : nat) (v : T) r : RingBuffer T :=
  r <| storage ::= <[index := v]> |>.

Lemma insert_as_splice (l : list T) i v : i < length l -> <[i := v]> l = splice l i [v].
Proof. intros. unfold splice. cbn. rewrite insert_take_drop by done. by rewrite Nat.add_1_r. Qed.

Lemma assign_id r i e : storage r !! i = Some e -> assign i e r = r.
Proof.
  intros H. destruct r as [st ra l]. unfold assign, set_field.
  cbn [storage read_at rb_length] in *. by rewrite list_insert_id.
Qed.

Lemma is_full_spec r : is_full r = true <-> window r = 0.
Proof. apply Nat.eqb_eq. Qed.

Lemma ring_is_empty_spec r : is_empty r = true <-> rb_length r = 0.
Proof. apply Nat.eqb_eq. Qed.

Lemma enqueue_one_with_ok {R E} (f : T -> outcome (T * result R E)) r :
  wf r -> is_full r = false -> exists e,
    storage r !! get_idx r (rb_length r) = Some e /\
    enqueue_one_with f r =
      ('(e', res) ← f e;
       Ret ((if is_ok res then (assign (get_idx r (rb_length r)) e' r) <| rb_length ::= S |>
             else assign (get_idx r (rb_length r)) e' r), Ok res)).
Proof.
  intros Hwf Hf. assert (0 < window r) as Hw.
  { apply Nat.neq_0_lt_0. intros H. apply is_full_spec in H. congruence. }
  assert (0 < capacity r) as Hc by (unfold window in *; lia).
  pose proof (get_idx_lt r (rb_length r) Hwf (proj1 Hwf) Hc) as Hi.
  destruct (lookup_lt_is_Some_2 (storage r) _ Hi) as [e He].
  exists e. split; [done|].
  unfold enqueue_one_with. rewrite Hf, get_idx_unchecked_Ret by done.
  rewrite outcome_bind_Ret_l, He. cbn. destruct (f e) as [[e' res]|]; [by destruct res|done].
Qed.

Lemma enqueue_one_ok r :
  wf r -> is_full r = false ->
  enqueue_one r = Ret (r <| rb_length ::= S |>, Ok (get_idx r (rb_length r))).
Proof.
  intros Hwf Hf.
  destruct (enqueue_one_with_ok (E := unit) (fun e => Ret (e, Ok ())) r Hwf Hf)
    as (e & He & Hr).
  unfold enqueue_one. rewrite Hf, Hr. cbn.
  assert (0 < capacity r) as Hc by (by apply lookup_lt_Some in He; unfold capacity; lia).
  rewrite get_idx_unchecked_Ret by done. cbn -[assign]. by rewrite assign_id.
Qed.

Lemma enqueue_one_full r : is_full r = true -> enqueue_one r = Ret (r, Err FullErr).
Proof. intros H. unfold enqueue_one. by rewrite H. Qed.

(** Writing the element that has just been enqueued appends it. *)
Lemma enqueue_one_assign_ok r v :
  wf r -> is_full r = false -> exists r',
    assign (get_idx r (rb_length r)) v (r <| rb_length ::= S |>) = r' /\ wf r' /\
    capacity r' = capacity r /\ contents r' = contents r ++ [v] /\
    rb_length r' = S (rb_length r).
Proof.
  intros Hwf Hf. eexists. split; [done|].
  assert (0 < window r) as Hw.
  { apply Nat.neq_0_lt_0. intros H. apply is_full_spec in H. congruence. }
  assert (0 < capacity r) as Hc by (unfold window in *; lia).
  pose proof (get_idx_lt r (rb_length r) Hwf (proj1 Hwf) Hc) as Hi.
  assert (contiguous r (rb_length r) (length [v])) as Hcg
    by (unfold contiguous, window, len in *; cbn; lia).
  destruct (splice_storage_wf r _ [v] Hwf Hcg) as [[Hwf' Hra] Hcap'].
  pose proof (view_splice r _ [v] Hwf Hcg) as Hv.
  rewrite <-insert_as_splice in * by done.
  unfold window, len in *. split_and!.
  - split; [|done]. unfold capacity in *. cbn in *. lia.
  - done.
  - eapply (contents_extend r _ 1 [v]); cbn -[splice]; try done; lia.
  - done.
Qed.

Lemma dequeue_one_with_ok {R E} (f : T -> outcome (T * result R E)) r :
  wf r -> is_empty r = false -> exists e,
    contents r !! 0 = Some e /\
    dequeue_one_with f r =
      ('(e', res) ← f e;
       let r1 := assign (read_at r) e' r in
       Ret ((if is_ok res then r1 <| rb_length ::= Nat.pred |> <| read_at := get_idx r 1 |>
             else r1), Ok res)).
Proof.
  intros Hwf He. assert (0 < rb_length r) as Hl.
  { apply Nat.neq_0_lt_0. intros H. apply ring_is_empty_spec in H. congruence. }
  pose proof Hwf as [Hle Hra]. assert (0 < capacity r) as Hc by lia.
  assert (get_idx r 0 = read_at r) as Hi.
  { rewrite get_idx_cases by (done || lia). decide_tests; lia. }
  assert (contents r !! 0 = storage r !! read_at r) as H0.
  { unfold contents. rewrite lookup_take_lt by done. by rewrite lookup_view, Hi. }
  destruct (lookup_lt_is_Some_2 (storage r) (read_at r)) as [e Hs]; [unfold capacity in *; lia|].
  exists e. split; [congruence|].
  unfold dequeue_one_with. rewrite He, get_idx_unchecked_Ret by done.
  rewrite outcome_bind_Ret_l, Hs. cbn. destruct (f e) as [[e' res]|]; [by destruct res|done].
Qed.

Lemma dequeue_one_ok r :
  wf r -> is_empty r = false -> exists e r',
    dequeue_one r = Ret (r', Ok (read_at r)) /\ contents r = e :: contents r' /\
    storage r' !! read_at r = Some e /\ wf r' /\ capacity r' = capacity r /\
    rb_length r' = Nat.pred (rb_length r) /\ storage r' = storage r.
Proof.
  intros Hwf He.
  destruct (dequeue_one_with_ok (E := unit) (fun e => Ret (e, Ok ())) r Hwf He)
    as (e & H0 & Hr). cbn [mbind outcome_bind] in Hr.
  assert (0 < rb_length r) as Hl.
  { apply Nat.neq_0_lt_0. intros H. apply ring_is_empty_spec in H. congruence. }
  pose proof Hwf as [Hle Hra].
  assert (storage r !! read_at r = Some e) as Hs.
  { rewrite <-H0. unfold contents. rewrite lookup_take_lt, lookup_view by (done || lia).
    rewrite get_idx_cases by (done || lia). f_equal. decide_tests; lia. }
  cbn zeta in Hr. rewrite (assign_id r _ e Hs) in Hr. cbn in Hr.
  destruct (contents_drop r (r <| rb_length ::= Nat.pred |> <| read_at := get_idx r 1 |>) 1)
    as (Hwf' & Hcap & Hc); try done; [cbn; lia..|].
  exists e. eexists. split; [unfold dequeue_one; rewrite Hr; cbn; done|].
  split_and!; try done.
  destruct (contents r) as [|x l] eqn:Hcr; [done|]. cbn in H0. injection H0 as ->.
  change (drop 1 (e :: l)) with l in Hc. by rewrite <-Hc.
Qed.

Lemma get_allocated_past offset size r :
  rb_length r < offset -> get_allocated offset size r = Ret [].
Proof. intros. unfold get_allocated. by rewrite (proj2 (Nat.ltb_lt _ _)). Qed.

Lemma read_allocated_ok offset data r :
  wf r ->
  let n := length data `min` (rb_length r - offset) in
  read_allocated offset data r =
    Ret (slice (contents r) offset n ++ drop n data, n).
Proof.
  intros Hwf n. pose proof Hwf as [Hle _].
  destruct (decide (offset <= rb_length r)) as [Ho|Ho].
  2: { assert (n = 0) as -> by lia. unfold read_allocated.
       rewrite !get_allocated_past by (cbn; lia). cbn.
       rewrite get_allocated_past by lia. cbn. by rewrite drop_0. }
  destruct (get_allocated_ok offset (length data) r Hwf Ho) as (n1 & Hg1 & Hn1).
  assert (length (slice (contents r) offset n1) = n1) as Hl1.
  { rewrite length_slice, length_contents by done. lia. }
  destruct (get_allocated_ok (offset + n1) (length (drop n1 data)) r Hwf ltac:(lia))
    as (n2 & Hg2 & Hn2). rewrite length_drop in Hn2.
  assert (length (slice (contents r) (offset + n1) n2) = n2) as Hl2.
  { rewrite length_slice, length_contents by done. lia. }
  assert (n1 + n2 = n) as Hn.
  { pose proof (get_idx_wrap r offset Hwf) as Hwrap.
    destruct (decide (n1 = capacity r - get_idx r offset)) as [Heq|]; [|lia].
    rewrite <-Heq in Hwrap. rewrite Hwrap in Hn2 by lia. lia. }
  unfold read_allocated. rewrite Hg1. cbn. rewrite Hl1, Hg2. cbn. rewrite Hl2, Hn.
  rewrite app_assoc, drop_drop, Hn. unfold slice.
  rewrite <-drop_drop, take_take_drop, Hn. done.
Qed.
End SingleElements.

(** ** Slice references

    What [enqueue_many] and [dequeue_many] return, and what the ring holds after
    the caller has written through the reference. *)

Section SliceReferences.
Context {T : Type}.
Implicit Types (r : RingBuffer T) (data : list T).

Lemma get_idx_advance r r' n k :
  wf r -> read_at r' = get_idx r n -> capacity r' = capacity r ->
  n + k <= capacity r -> get_idx r' k = get_idx r (n + k).
Proof.
  intros Hwf Hra Hcap Hk. unfold get_idx in *. rewrite Hcap, Hra.
  destruct (Nat.ltb_spec 0 (capacity r)); [|done].
  rewrite Nat.Div0.add_mod_idemp_l. f_equal. lia.
Qed.

Lemma get_idx_front r : wf r -> 0 < capacity r -> get_idx r 0 = read_at r.
Proof. intros Hwf Hc. rewrite get_idx_cases by (done || lia). destruct Hwf as [_ ?]. decide_tests; lia. Qed.

Lemma write_at_prepared r :
  (if rb_length r =? 0 then 0 else get_idx r (rb_length r)) =
    get_idx (prepared r) (rb_length r).
Proof.
  unfold prepared. destruct (Nat.eqb_spec (rb_length r) 0) as [->|]; [|done].
  unfold get_idx. cbn. case_match; [|done].
  symmetry. apply Nat.Div0.mod_0_l.
Qed.

Lemma enqueue_many_ok size r :
  wf r -> size <= contiguous_window (prepared r) -> exists r',
    let start := get_idx (prepared r) (rb_length r) in
    enqueue_many size r = Ret (r', (start, size)) /\
    wf r' /\ capacity r' = capacity r /\ rb_length r' = rb_length r + size /\
    read_at r' = read_at (prepared r) /\ storage r' = storage r.
Proof.
  intros Hwf Hsize. pose proof (prepared_wf r Hwf) as Hwfp.
  destruct (prepared_frame r) as (Hcap & Hlen & _ & Hcont).
  destruct (contiguous_window_spec _ Hwfp) as [[Hc1 Hc2] Hle]. rewrite Hlen in *.
  assert (storage (prepared r) = storage r) as Hst by (unfold prepared; by case_match).
  exists ((prepared r) <| rb_length ::= fun n => n + size |>). cbn zeta. split_and!.
  - unfold enqueue_many, enqueue_many_with. fold (prepared r). rewrite Hlen, write_at_prepared.
    unfold capacity in Hc2. rewrite range_Ret by lia. cbn [mbind outcome_bind].
    rewrite Nat.min_l by (rewrite length_slice; lia).
    rewrite (proj2 (Nat.leb_le _ _)) by done. cbn [rust_assert mbind outcome_bind].
    replace (_ + _ - _) with (contiguous_window (prepared r)) by lia.
    rewrite splice_slice_id by lia. by destruct (prepared r).
  - unfold wf, capacity in *. cbn. rewrite Hlen. split; [lia|apply Hwfp].
  - done.
  - cbn. by rewrite Hlen.
  - done.
  - done.
Qed.

(** The queue after [data] has been written through the reference. *)
Lemma enqueued_contents r r' data :
  wf r -> rb_length r + length data <= capacity r ->
  get_idx (prepared r) (rb_length r) + length data <= capacity r ->
  capacity r' = capacity r -> rb_length r' = rb_length r + length data ->
  read_at r' = read_at (prepared r) -> storage r' = storage r ->
  let r'' := r' <| storage ::= fun st =>
                     splice st (get_idx (prepared r) (rb_length r)) data |> in
  wf r'' /\ capacity r'' = capacity r /\ contents r'' = contents r ++ data.
Proof.
  intros Hwf H1 H2 Hcap Hlen Hra Hst r''. pose proof (prepared_wf r Hwf) as Hwfp.
  destruct (prepared_frame r) as (Hcapp & Hlenp & _ & Hcont).
  assert (storage (prepared r) = storage r) as Hstp by (unfold prepared; by case_match).
  assert (contiguous (prepared r) (rb_length r) (length data)) as Hc
    by (split; rewrite Hcapp; lia).
  destruct (splice_storage_wf (prepared r) _ data Hwfp Hc) as [Hwf1 Hcap1].
  pose proof (view_splice (prepared r) _ data Hwfp Hc) as Hv.
  assert (capacity r'' = capacity r) as Hcap''.
  { unfold capacity in *. cbn -[splice] in *. rewrite Hst, <-Hstp. lia. }
  split_and!; [|done|].
  - split; [rewrite Hcap''; cbn; lia|]. rewrite Hcap''. cbn. rewrite Hra.
    destruct Hwfp as [_ Hx]. by rewrite Hcapp in Hx.
  - rewrite <-Hcont. eapply (contents_extend _ r'' (length data)) in Hwfp.
    + by rewrite Hwfp, take_ge.
    + rewrite Hlenp, <-Hv. unfold view, r''. cbn -[splice]. by rewrite Hra, Hst, Hstp.
    + done.
    + rewrite Hlenp, Hcapp. done.
    + cbn. by rewrite Hlenp.
Qed.

(** Writing back what is there changes nothing. *)
Lemma write_back r start n :
  start + n <= capacity r ->
  r <| storage ::= fun st => splice st start (slice (storage r) start n) |> = r.
Proof.
  intros. destruct r as [st ra l]. unfold set_field. cbn [storage read_at rb_length].
  by rewrite splice_slice_id.
Qed.

(** The two operations that hand out a slice leave the storage as it was. *)
Lemma enqueue_many_storage size r r' x : enqueue_many size r = Ret (r', x) -> storage r' = storage r.
Proof.
  unfold enqueue_many, enqueue_many_with. fold (prepared r). destruct (range _ _ _) as [d|] eqn:Hr; [|done].
  apply range_inv in Hr as [Hl ->]. cbn [mbind outcome_bind]. destruct (rust_assert _); [|done]. cbn. intros. inv_outcome.
  cbn. rewrite splice_slice_id by lia. unfold prepared. by case_match.
Qed.

Lemma enqueue_many_bounds size r r' start n :
  enqueue_many size r = Ret (r', (start, n)) -> start + n <= length (storage r).
Proof.
  unfold enqueue_many, enqueue_many_with. fold (prepared r). destruct (range _ _ _) as [d|] eqn:Hr; [|done].
  apply range_inv in Hr as [Hl ->]. cbn [mbind outcome_bind]. destruct (_ <=? contiguous_window (prepared r)) eqn:Hle; [|done]. apply Nat.leb_le in Hle.
  cbn. intros. inv_outcome. assert (storage (prepared r) = storage r) as Hst by (unfold prepared; by case_match).
  destruct (prepared_frame r) as (Hcap & Hlen & _ & Hcont). rewrite Hst, Hlen, write_at_prepared in *. lia.
Qed.

Lemma dequeue_many_storage size r r' x : dequeue_many size r = Ret (r', x) -> storage r' = storage r.
Proof.
  unfold dequeue_many, dequeue_many_with. destruct (range _ _ _) as [d|] eqn:Hr; [|done].
  apply range_inv in Hr as [Hl ->]. cbn [mbind outcome_bind]. destruct (rust_assert _); [|done]. cbn. intros. inv_outcome.
  cbn. by rewrite splice_slice_id by lia.
Qed.

Lemma dequeue_many_ok size r :
  wf r -> size <= contiguous_len r -> exists r',
    dequeue_many size r = Ret (r', (read_at r, size)) /\ wf r' /\ capacity r' = capacity r /\
    rb_length r' = rb_length r - size /\ read_at r' = get_idx r size /\
    storage r' = storage r /\ contents r' = drop size (contents r) /\
    slice (storage r) (read_at r) size = take size (contents r).
Proof.
  intros Hwf Hsize. pose proof (read_at_le r Hwf) as Hra.
  assert (size <= rb_length r /\ read_at r + contiguous_len r <= capacity r) as [Hl Hcl]
    by (unfold contiguous_len, len in *; lia).
  set (r' := r <| read_at := get_idx r size |> <| rb_length ::= fun n => n - size |>).
  destruct (contents_drop r r' size) as (Hwf' & Hcap' & Hc'); try done.
  exists r'. split_and!; try done.
  - unfold dequeue_many, dequeue_many_with. fold (contiguous_len r).
    unfold capacity in Hcl. rewrite range_Ret by lia. cbn [mbind outcome_bind].
    replace (_ + _ - _) with (contiguous_len r) by lia.
    rewrite Nat.min_l by (rewrite length_slice; lia).
    rewrite (proj2 (Nat.leb_le _ _)) by done. cbn [rust_assert mbind outcome_bind].
    rewrite splice_slice_id by lia. by destruct r.
  - pose proof (contiguous_len_slice r Hwf) as Hs.
    rewrite <-(take_slice _ _ (contiguous_len r)), Hs, take_take by done.
    f_equal. lia.
Qed.

(** Reading moves the octets from the front to the end of the free space and
    leaves the rest of the free space alone. *)
Lemma dequeue_many_with_free {R} (f : list T -> outcome (list T * (nat * R))) r r' size res :
  wf r -> (forall buf buf' o, f buf = Ret (buf', o) -> buf' = buf) ->
  dequeue_many_with f r = Ret (r', (size, res)) ->
  wf r' /\ contents r' = drop size (contents r) /\ free r' = free r ++ take size (contents r).
Proof.
  intros Hwf Hf. pose proof (read_at_le r Hwf) as Hra. pose proof Hwf as [Hle _].
  unfold dequeue_many_with. fold (contiguous_len r).
  assert (read_at r + contiguous_len r <= capacity r) as Hcl by (unfold contiguous_len; lia).
  unfold capacity in Hcl. rewrite range_Ret by lia. cbn [mbind outcome_bind].
  replace (_ + _ - _) with (contiguous_len r) by lia.
  destruct (f _) as [[buf' [n q]]|] eqn:Hb; [|done]. apply Hf in Hb as ->.
  cbn [mbind outcome_bind]. rewrite splice_slice_id by lia.
  destruct (Nat.leb_spec n (contiguous_len r)) as [Hn|]; [|done].
  cbn [rust_assert mbind outcome_bind]. intros [= <- <- <-].
  set (r' := _ <| rb_length ::= _ |>).
  assert (n <= rb_length r) by (unfold contiguous_len, len in *; lia).
  assert (r' = r <| read_at := get_idx r n |> <| rb_length ::= fun k => k - n |>) as -> by by destruct r.
  destruct (contents_drop r (r <| read_at := get_idx r n |> <| rb_length ::= fun k => k - n |>) n)
    as (Hwf' & _ & Hc); try done.
  split_and!; [done|done|]. apply (free_dequeue n r); [done|done|].
  unfold dequeue_allocated, len. by rewrite (proj2 (Nat.leb_le _ _)).
Qed.

Lemma dequeue_slice_free data r r' out n :
  wf r -> dequeue_slice data r = Ret (r', (out, n)) ->
  free r' = free r ++ take n (contents r).
Proof.
  intros Hwf. unfold dequeue_slice. fold (copy_out data).
  assert (forall (d buf : list T) buf' o, copy_out d buf = Ret (buf', o) -> buf' = buf) as Hcopy
    by (by intros ? ? ? ? [= <- _]).
  destruct (dequeue_many_with (copy_out data) r) as [[r1 [n1 [o1 d1]]]|] eqn:H1; [|done].
  cbn [mbind outcome_bind]. fold (copy_out d1).
  destruct (dequeue_many_with (copy_out d1) r1) as [[r2 [n2 [o2 d2]]]|] eqn:H2; [|done].
  intros [= <- _ <-].
  apply dequeue_many_with_free in H1 as (Hwf1 & Hc1 & Hf1); [|done|apply Hcopy].
  apply dequeue_many_with_free in H2 as (Hwf2 & Hc2 & Hf2); [|done|apply Hcopy].
  rewrite Hf2, Hf1, Hc1, <-app_assoc. f_equal. apply take_take_drop.
Qed.

(** Writing to the element at the front of the queue. *)
Lemma assign_front r e e' l :
  wf r -> contents r = e :: l ->
  let r' := assign (read_at r) e' r in
  wf r' /\ capacity r' = capacity r /\ contents r' = e' :: l.
Proof.
  intros Hwf Hc r'. pose proof (length_contents r Hwf) as Hlen. rewrite Hc in Hlen.
  cbn in Hlen. pose proof Hwf as [Hle _].
  assert (contiguous r 0 (length [e'])) as Hcg.
  { split; cbn; [lia|]. pose proof (get_idx_lt r 0 Hwf). lia. }
  destruct (splice_storage_wf r 0 [e'] Hwf Hcg) as [Hwf' Hcap].
  pose proof (view_splice r 0 [e'] Hwf Hcg) as Hv.
  rewrite get_idx_front, <-insert_as_splice in * by (done || lia || destruct Hcg as [_ ?];
    rewrite get_idx_front in * by (done || lia); unfold capacity in *; cbn in *; lia).
  change (r <| storage := <[read_at r := e']> (storage r) |>) with r' in *.
  split_and!; [done|done|]. unfold contents in *. rewrite Hv.
  change (rb_length r') with (rb_length r).
  unfold splice. rewrite take_0, app_nil_l. destruct (rb_length r) as [|n]; [lia|].
  destruct (view r) as [|x v]; [done|]. cbn in Hc |- *. rewrite drop_0. by injection Hc as _ ->.
Qed.

(** The ring after its first element has been dequeued. *)
Definition popped r : RingBuffer T := r <| rb_length ::= Nat.pred |> <| read_at := get_idx r 1 |>.

Lemma popped_ok r e l :
  wf r -> contents r = e :: l ->
  wf (popped r) /\ capacity (popped r) = capacity r /\ contents (popped r) = l.
Proof.
  intros Hwf Hc. pose proof (length_contents r Hwf) as Hlen. rewrite Hc in Hlen. cbn in Hlen.
  destruct (contents_drop r (popped r) 1) as (? & ? & Hd); try done; [lia|cbn; lia|].
  split_and!; try done. by rewrite Hd, Hc.
Qed.

Lemma dequeue_one_with_front {R E} (f : T -> outcome (T * result R E)) r e l :
  wf r -> contents r = e :: l ->
  dequeue_one_with f r =
    ('(e', res) ← f e;
     let r1 := assign (read_at r) e' r in
     Ret (if is_ok res then popped r1 else r1, Ok res)).
Proof.
  intros Hwf Hc. pose proof (length_contents r Hwf) as Hlen. rewrite Hc in Hlen.
  destruct (dequeue_one_with_ok f r Hwf) as (e0 & H0 & ->).
  { apply Nat.eqb_neq. unfold len. cbn in Hlen. lia. }
  rewrite Hc in H0. injection H0 as <-. destruct (f e) as [[e' res]|]; [|done].
  cbn -[assign get_idx]. do 2 f_equal. destruct (is_ok res); [|done]. unfold popped.
  rewrite (get_idx_ext (assign _ _ _) r); [done| |done].
  unfold capacity, assign. cbn. apply length_insert.
Qed.

Lemma dequeue_one_front r e l :
  wf r -> contents r = e :: l ->
  dequeue_one r = Ret (popped r, Ok (read_at r)) /\ storage r !! read_at r = Some e.
Proof.
  intros Hwf Hc.
  assert (storage r !! read_at r = Some e) as Hs.
  { pose proof (length_contents r Hwf) as Hlen. rewrite Hc in Hlen. cbn in Hlen.
    pose proof Hwf as [Hle _]. rewrite <-get_idx_front, <-lookup_view by (done || lia).
    assert (contents r !! 0 = Some e) as H0 by (by rewrite Hc).
    unfold contents in H0. by rewrite lookup_take_lt in H0 by lia. }
  split; [|done]. unfold dequeue_one. rewrite (dequeue_one_with_front _ r e l) by done.
  cbn -[assign]. by rewrite assign_id.
Qed.

(** A dequeued slot is out of the queue. *)
Lemma assign_popped r e l v :
  wf r -> contents r = e :: l ->
  let r' := assign (read_at r) v (popped r) in
  wf r' /\ capacity r' = capacity r /\ contents r' = l.
Proof.
  intros Hwf Hc r'. destruct (popped_ok r e l Hwf Hc) as (Hwfp & Hcapp & Hcp).
  pose proof (length_contents r Hwf) as Hlen. rewrite Hc in Hlen. cbn in Hlen.
  pose proof Hwf as [Hle _]. set (k := capacity r - 1).
  assert (get_idx (popped r) k = read_at r) as Hk.
  { rewrite (get_idx_advance r _ 1) by (done || lia).
    rewrite get_idx_cases by (done || lia). unfold k. decide_tests; lia. }
  assert (contiguous (popped r) k (length [v])) as Hcg.
  { unfold contiguous. rewrite Hk, Hcapp. cbn. unfold k.
    destruct Hwf as [_ [?|?]]; lia. }
  destruct (splice_storage_wf _ k [v] Hwfp Hcg) as [Hwf' Hcap'].
  pose proof (view_splice _ k [v] Hwfp Hcg) as Hv. rewrite Hk in *.
  destruct Hcg as [_ Hcg]. rewrite Hk in Hcg. cbn in Hcg.
  rewrite <-insert_as_splice in * by (unfold capacity in *; lia).
  split_and!; [done|by rewrite <-Hcapp|]. rewrite <-Hcp.
  apply (contents_write (popped r) r' (k - rb_length (popped r)) [v]); try done.
  - unfold window, len. rewrite Hcapp. cbn. lia.
  - replace (_ + (_ - _)) with k; [exact Hv|]. unfold k. cbn. lia.
Qed.
End SliceReferences.

(** ** Refinement: the ring buffer is a bounded FIFO queue

    A client calls the operations one after the other.  [exec_op] runs one call
    on the ring; [spec_op] runs it on the abstract state, the capacity and the
    list of queued elements.  A panic ends the run on both sides. *)

Section Refinement.
Context {T : Type}.

Inductive ring_op :=
| EnqueueSlice (data : list T)
| DequeueSlice (data : list T)
| EnqueueOne (v : T)
| DequeueOne
| ReadAllocated (offset : nat) (data : list T)
| DequeueAllocated (count : nat)
| Clear.

Inductive ring_answer :=
| AUnit
| ACount (n : nat)
| AData (data : list T) (n : nat)
| AElem (v : T)
| AError.

Definition exec_op (op : ring_op) (r : RingBuffer T) :
    outcome (RingBuffer T * ring_answer) :=
  match op with
  | EnqueueSlice data => '(r, n) ← enqueue_slice data r; Ret (r, ACount n)
  | DequeueSlice data => '(r, (out, n)) ← dequeue_slice data r; Ret (r, AData out n)
  | EnqueueOne v =>
      '(r, res) ← enqueue_one r;
      match res with
      | Ok index => Ret (assign index v r, AUnit)
      | Err _ => Ret (r, AError)
      end
  | DequeueOne =>
      '(r, res) ← dequeue_one r;
      match res with
      | Ok index => v ← unwrap (storage r !! index); Ret (r, AElem v)
      | Err _ => Ret (r, AError)
      end
  | ReadAllocated offset data =>
      '(out, n) ← read_allocated offset data r; Ret (r, AData out n)
  | DequeueAllocated count => r ← dequeue_allocated count r; Ret (r, AUnit)
  | Clear => Ret (clear r, AUnit)
  end.

(** Abstract state: capacity and queue. *)
Definition spec_op (op : ring_op) (cap : nat) (q : list T) :
    outcome (list T * ring_answer) :=
  match op with
  | EnqueueSlice data =>
      let n := (cap - length q) `min` length data in
      Ret (q ++ take n data, ACount n)
  | DequeueSlice data =>
      let n := length q `min` length data in
      Ret (drop n q, AData (take n q ++ drop n data) n)
  | EnqueueOne v =>
      Ret (if length q <? cap then (q ++ [v], AUnit) else (q, AError))
  | DequeueOne =>
      Ret (match q with [] => ([], AError) | v :: q => (q, AElem v) end)
  | ReadAllocated offset data =>
      let n := length data `min` (length q - offset) in
      Ret (q, AData (slice q offset n ++ drop n data) n)
  | DequeueAllocated count =>
      if count <=? length q then Ret (drop count q, AUnit) else Panic
  | Clear => Ret ([], AUnit)
  end.

Fixpoint exec_ops (ops : list ring_op) (r : RingBuffer T) : list ring_answer * bool :=
  match ops with
  | [] => ([], true)
  | op :: ops =>
      match exec_op op r with
      | Ret (r, a) => let '(l, b) := exec_ops ops r in (a :: l, b)
      | Panic => ([], false)
      end
  end.

Fixpoint spec_ops (ops : list ring_op) (cap : nat) (q : list T) :
    list ring_answer * bool :=
  match ops with
  | [] => ([], true)
  | op :: ops =>
      match spec_op op cap q with
      | Ret (q, a) => let '(l, b) := spec_ops ops cap q in (a :: l, b)
      | Panic => ([], false)
      end
  end.

(** Forward simulation for one operation. *)
Lemma exec_op_simulation op r :
  wf r ->
  match spec_op op (capacity r) (contents r) with
  | Ret (q, a) => exists r', exec_op op r = Ret (r', a) /\ wf r' /\
                             capacity r' = capacity r /\ contents r' = q
  | Panic => exec_op op r = Panic
  end.
Proof.
  intros Hwf. pose proof (length_contents r Hwf) as Hl. pose proof Hwf as [Hle _].
  destruct op as [data|data|v| |offset data|count|]; cbn -[take drop]; rewrite ?Hl.
  - destruct (enqueue_slice_ok data r Hwf) as (r' & Hr & ? & ? & ? & ?). cbn zeta in *.
    exists r'. change (capacity r - rb_length r) with (window r). by rewrite Hr.
  - destruct (dequeue_slice_ok data r Hwf) as (r' & Hr & ? & ? & ? & ?). cbn zeta in *.
    unfold len in *. exists r'. by rewrite Hr.
  - destruct (is_full r) eqn:Hf.
    + rewrite enqueue_one_full by done. apply is_full_spec in Hf.
      unfold window, len in Hf. decide_tests; [lia|]. by exists r.
    + rewrite enqueue_one_ok by done. cbn -[assign].
      destruct (enqueue_one_assign_ok r v Hwf Hf) as (r' & Hr & ? & ? & ? & ?).
      assert (window r <> 0) as Hw by (intros Hw; apply is_full_spec in Hw; congruence).
      unfold window, len in Hw. decide_tests; [|lia]. exists r'. by rewrite Hr.
  - destruct (is_empty r) eqn:He.
    + apply ring_is_empty_spec in He as He'. rewrite He' in Hl.
      apply nil_length_inv in Hl. rewrite Hl.
      exists r. unfold dequeue_one, dequeue_one_with. by rewrite He.
    + destruct (dequeue_one_ok r Hwf He) as (e & r' & Hr & Hc & Hs & ? & ? & ? & _).
      rewrite Hc, Hr. cbn. rewrite Hs. by exists r'.
  - rewrite read_allocated_ok by done. by exists r.
  - destruct (Nat.leb_spec count (rb_length r)).
    + destruct (dequeue_allocated_ok count r Hwf) as (r' & Hr & ? & ? & ? & ?); [done|].
      exists r'. by rewrite Hr.
    + by rewrite dequeue_allocated_panics.
  - exists (clear r). split; [done|]. split; [apply clear_wf | done].
Qed.

Lemma exec_ops_simulation ops r :
  wf r -> exec_ops ops r = spec_ops ops (capacity r) (contents r).
Proof.
  revert r. induction ops as [|op ops IH]; intros r Hwf; [done|].
  pose proof (exec_op_simulation op r Hwf) as Hs. cbn [exec_ops spec_ops].
  destruct (spec_op op (capacity r) (contents r)) as [[q a]|].
  - destruct Hs as (r' & -> & Hwf' & <- & <-). by rewrite IH.
  - by rewrite Hs.
Qed.

(** C29: The ring buffer refines a bounded FIFO queue: from a fresh storage of
    any size and for any sequence of calls, the answers, and whether and where
    the run panics, are those of the abstract queue with that capacity. *)
Theorem ring_buffer_refines_fifo (st : list T) (ops : list ring_op) :
  exec_ops ops (new st) = spec_ops ops (length st) [].
Proof. exact (exec_ops_simulation ops (new st) (ring_new_wf st)). Qed.

(** Out-of-order data: elements written [offset] past the end of the queue
    do not disturb the queue or the rest of the free space, and enqueueing
    the free space up to and including them appends exactly what the free
    space held before them followed by the written elements. *)
Theorem write_then_enqueue_unallocated r offset (data : list T) :
  wf r -> offset + length data <= window r ->
  exists r1 r2,
    write_unallocated offset data r = Ret (r1, length data) /\
    contents r1 = contents r /\ free r1 = splice (free r) offset data /\
    enqueue_unallocated (offset + length data) r1 = Ret r2 /\
    contents r2 = contents r ++ take offset (free r) ++ data /\
    free r2 = drop (offset + length data) (free r) /\ wf r2.
Proof.
  intros Hwf Hn.
  destruct (write_unallocated_ok offset data r Hwf ltac:(lia))
    as (r1 & Hr1 & Hwf1 & Hcap1 & Hl1 & Hra1 & Hv1). cbn zeta in *.
  assert (length data `min` (window r - offset) = length data) as Hm by lia.
  rewrite Hm in *. rewrite take_ge in Hv1 by lia.
  destruct (contents_write r r1 offset data ltac:(lia) Hwf Hl1 Hv1) as [Hc1 Hf1].
  assert (window r1 = window r) as Hw by (unfold window, len; by rewrite Hcap1, Hl1).
  destruct (enqueue_unallocated_ok (offset + length data) r1 Hwf1 ltac:(lia))
    as (r2 & Hr2 & Hwf2 & _ & _ & Hc2 & Hf2).
  pose proof (length_free r) as Hlf.
  assert (length (take offset (free r)) = offset) as Hto by (rewrite length_take; lia).
  exists r1, r2. split_and!; try done.
  - rewrite Hc2, Hc1, Hf1. f_equal. unfold splice.
    rewrite take_app_ge, Hto by lia. f_equal.
    replace (offset + length data - offset) with (length data) by lia.
    by rewrite take_app_length.
  - rewrite Hf2, Hf1. unfold splice.
    rewrite drop_app_ge, Hto by lia.
    replace (offset + length data - offset) with (length data) by lia.
    by rewrite drop_app_length.
Qed.
End Refinement.
Arguments ring_op : clear implicits.
Arguments ring_answer : clear implicits.

Lemma write_then_enqueue_unallocated_witness :
  wf (mkRing [1;2;3;4] 2 1) /\
  exists r1 r2, write_unallocated 1 [9;8] (mkRing [1;2;3;4] 2 1) = Ret (r1, 2) /\
    enqueue_unallocated 3 r1 = Ret r2 /\ contents r2 = [3;4;9;8].
Proof.
  assert (wf (mkRing [1;2;3;4] 2 1)) as Hwf by (split; cbn; lia).
  split; [exact Hwf|].
  destruct (write_then_enqueue_unallocated _ 1 [9;8] Hwf ltac:(cbn; lia))
    as (r1 & r2 & H1 & _ & _ & H2 & H3 & _).
  exists r1, r2. split; [exact H1|]. split; [exact H2|]. exact H3.
Defined.
