(* ===== verification/Assembler.v ===== *)
(** * The segment assembler (src/storage/assembler.rs)

    The contig array is a list whose length is the build-time constant
    [ASSEMBLER_MAX_SEGMENT_COUNT]; the loops over it are structural recursions
    on the number of iterations left, with the loop variables as arguments.

    The abstraction [present cs i] says whether the byte at offset [i] has been
    recorded.  Every operation is specified by its effect on that set.

    Offsets and sizes are natural numbers: [offset + size] beyond 2^64, which panics
    in the code, is not modelled; both come from a receive window or from a datagram
    and are far below. *)

From S2P Require Import Prelude.

Record Contig := mkContig {
  hole_size : nat;
  data_size : nat
}.

#[export] Instance Contig_eq_dec : EqDecision Contig.
Proof. solve_decision. Defined.

Inductive TooManyHolesError := TooManyHoles.

Module Contig.
Definition empty : Contig := mkContig 0 0.
Definition hole_and_data (hole data : nat) : Contig := mkContig hole data.
Definition has_hole (c : Contig) : bool := negb (hole_size c =? 0).
Definition has_data (c : Contig) : bool := negb (data_size c =? 0).
Definition total_size (c : Contig) : nat := hole_size c + data_size c.
Definition shrink_hole_by (size : nat) (c : Contig) : outcome Contig :=
  if hole_size c <? size then Panic else Ret (mkContig (hole_size c - size) (data_size c)).
Definition shrink_hole_to (size : nat) (c : Contig) : outcome Contig :=
  _ ← rust_assert (size <=? hole_size c);
  Ret (mkContig size (total_size c - size)).
End Contig.
Import Contig.

#[export] Instance Contig_inhabited : Inhabited Contig := populate Contig.empty.

(** [contigs: [Contig; ASSEMBLER_MAX_SEGMENT_COUNT]] *)
Abbreviation Assembler := (list Contig).

Section Operations.
Implicit Types (asm : Assembler).

Definition new (max_segment_count : nat) : Assembler := replicate max_segment_count Contig.empty.

Definition clear asm : Assembler := replicate (length asm) Contig.empty.

Definition front asm : Contig := asm !!! 0.

Definition peek_front asm : nat :=
  if has_hole (front asm) then 0 else data_size (front asm).

Definition back asm : Contig := asm !!! (length asm - 1).

Definition is_empty asm : bool := negb (has_data (front asm)).

(** [for i in at..len - 1], with [n] iterations left; [None] is the early
    return. *)
Fixpoint remove_loop (n i : nat) (cs : list Contig) : list Contig * bool :=
  match n with
  | 0 => (cs, false)
  | S n =>
      if negb (has_data (cs !!! i)) then (cs, true)
      else remove_loop n (S i) (<[i := cs !!! S i]> cs)
  end.

Definition remove_contig_at (at_ : nat) asm : outcome Assembler :=
  _ ← rust_assert (has_data (asm !!! at_));
  let '(cs, returned) := remove_loop (length asm - 1 - at_) at_ asm in
  Ret (if returned then cs else <[length asm - 1 := Contig.empty]> cs).

(** [for i in (at + 1..len).rev()] *)
Fixpoint make_room_loop (n at_ : nat) (cs : list Contig) : list Contig :=
  match n with
  | 0 => cs
  | S n => make_room_loop n at_ (<[at_ + S n := cs !!! (at_ + n)]> cs)
  end.

(** On success the pointer to the new contig is its index [at_]. *)
Definition add_contig_at (at_ : nat) asm : Assembler * result nat TooManyHolesError :=
  if has_data (back asm) then (asm, Err TooManyHoles) else
  let cs := make_room_loop (length asm - 1 - at_) at_ asm in
  (<[at_ := Contig.empty]> cs, Ok at_).

(** The search loop of [add]: the range starts after all contigs and there is
    no room, or starts in the unused contig [i], or in the contig [i]; [offset]
    is relative to the end of the previous contig. *)
Inductive found :=
| FoundFull
| FoundUnused (i offset : nat)
| FoundAt (i offset : nat).

Fixpoint add_find (n i offset : nat) (cs : list Contig) : found :=
  match n with
  | 0 => FoundFull
  | S n =>
      let contig := cs !!! i in
      if negb (has_data contig) then FoundUnused i offset
      else if offset <=? total_size contig then FoundAt i offset
      else add_find n (S i) (offset - total_size contig) cs
  end.

(** Coalesce contigs to the right; [lim] is [offset + size]. *)
Fixpoint coalesce_loop (n i j lim : nat) (cs : list Contig) : list Contig * nat :=
  match n with
  | 0 => (cs, j)
  | S n =>
      if has_data (cs !!! j) && (total_size (cs !!! i) + hole_size (cs !!! j) <=? lim)
      then coalesce_loop n i (S j) lim
             (<[i := mkContig (hole_size (cs !!! i))
                              (data_size (cs !!! i) + total_size (cs !!! j))]> cs)
      else (cs, j)
  end.

(** [for x in i + 1..len] *)
Fixpoint shift_loop (n x shift : nat) (cs : list Contig) : list Contig :=
  match n with
  | 0 => cs
  | S n =>
      if negb (has_data (cs !!! x)) then cs
      else shift_loop n (S x) shift (<[x := default Contig.empty (cs !! (x + shift))]> cs)
  end.

(** [add] after the contig [i] holding the start of the range was found. *)
Definition add_at (i offset size : nat) asm : outcome Assembler :=
  let n := length asm in
  let '(cs, j) := coalesce_loop (n - (i + 1)) i (i + 1) (offset + size) asm in
  let shift := j - i - 1 in
  let cs := if shift =? 0 then cs else shift_loop (n - (i + 1)) (i + 1) shift cs in
  if total_size (cs !!! i) <? offset + size then
    let left := offset + size - total_size (cs !!! i) in
    let cs := <[i := mkContig (hole_size (cs !!! i)) (data_size (cs !!! i) + left)]> cs in
    if (i + 1 <? n) && has_data (cs !!! (i + 1)) then
      next ← shrink_hole_by left (cs !!! (i + 1));
      Ret (<[i + 1 := next]> cs)
    else Ret cs
  else Ret cs.

Definition add (offset size : nat) asm :
    outcome (Assembler * result unit TooManyHolesError) :=
  if size =? 0 then Ret (asm, Ok ()) else
  match add_find (length asm) 0 offset asm with
  | FoundFull => Ret (asm, Err TooManyHoles)
  | FoundUnused i offset => Ret (<[i := hole_and_data offset size]> asm, Ok ())
  | FoundAt i offset =>
      let contig := asm !!! i in
      if offset <? hole_size contig then
        if offset + size <? hole_size contig then
          let '(asm, res) := add_contig_at i asm in
          match res with
          | Err e => Ret (asm, Err e)
          | Ok at_ =>
              let asm := <[at_ := mkContig offset size]> asm in
              moved ← shrink_hole_by (offset + size) (asm !!! (i + 1));
              Ret (<[i + 1 := moved]> asm, Ok ())
          end
        else
          contig ← shrink_hole_to offset contig;
          asm ← add_at i offset size (<[i := contig]> asm);
          Ret (asm, Ok ())
      else
        asm ← add_at i offset size asm;
        Ret (asm, Ok ())
  end.

Definition remove_front asm : outcome (Assembler * nat) :=
  let front := front asm in
  if has_hole front || negb (has_data front) then Ret (asm, 0)
  else
    asm ← remove_contig_at 0 asm;
    _ ← rust_assert (0 <? data_size front);
    Ret (asm, data_size front).

Definition add_then_remove_front (offset size : nat) asm :
    outcome (Assembler * result nat TooManyHolesError) :=
  if (offset =? 0) && (size <? hole_size (asm !!! 0)) then
    front ← shrink_hole_by size (asm !!! 0);
    Ret (<[0 := front]> asm, Ok size)
  else
    '(asm, res) ← add offset size asm;
    match res with
    | Err e => Ret (asm, Err e)
    | Ok _ =>
        '(asm, n) ← remove_front asm;
        Ret (asm, Ok n)
    end.
End Operations.

(** ** Iteration over the data ranges

    The offset added to every range is a [usize] given by the caller (the TCP
    socket passes a sign-extended sequence number), so that the additions are
    checked. *)

Record AssemblerIter := mkIter {
  it_assembler : Assembler;
  it_offset : Z;
  it_index : nat;
  it_left : nat;
  it_right : nat
}.

Definition iter_data (first_offset : Z) (asm : Assembler) : AssemblerIter :=
  mkIter asm first_offset 0 0 0.

(** [next], with [n] contigs left to look at. *)
Fixpoint next_loop (n : nat) (it : AssemblerIter) :
    outcome (AssemblerIter * option (Z * Z)) :=
  match n with
  | 0 => Ret (it, None)
  | S n =>
      let contig := it_assembler it !!! it_index it in
      let left := it_left it + hole_size contig in
      let right := left + data_size contig in
      if left <? right then
        l ← uadd USIZE_MAX (Z.of_nat left) (it_offset it);
        r ← uadd USIZE_MAX (Z.of_nat right) (it_offset it);
        Ret (mkIter (it_assembler it) (it_offset it) (S (it_index it)) right right,
             Some (l, r))
      else
        next_loop n (mkIter (it_assembler it) (it_offset it) (S (it_index it)) left right)
  end.

Definition next (it : AssemblerIter) : outcome (AssemblerIter * option (Z * Z)) :=
  next_loop (length (it_assembler it) - it_index it) it.

(** [find]: the first range that satisfies [p]; an iterator yields at most one
    range per contig, so that [length + 1] calls of [next] are enough. *)
Fixpoint find_loop (n : nat) (p : Z * Z -> bool) (it : AssemblerIter) :
    outcome (option (Z * Z)) :=
  match n with
  | 0 => Ret None
  | S n =>
      '(it, o) ← next it;
      match o with
      | None => Ret None
      | Some r => if p r then Ret (Some r) else find_loop n p it
      end
  end.

Definition find (p : Z * Z -> bool) (it : AssemblerIter) : outcome (option (Z * Z)) :=
  find_loop (S (length (it_assembler it))) p it.

(** ** Abstraction *)

(** The byte at offset [i] has been recorded. *)
Fixpoint present (cs : list Contig) (i : nat) : bool :=
  match cs with
  | [] => false
  | c :: cs =>
      if i <? hole_size c then false
      else if i <? total_size c then true
      else present cs (i - total_size c)
  end.

(** One past the last recorded offset. *)
Definition span (cs : list Contig) : nat := sum_list (total_size <$> cs).

Definition in_range (offset size i : nat) : bool := (offset <=? i) && (i <? offset + size).

(** The used contigs come first; all but the first have a hole before them. *)
Record wf_used (used : list Contig) : Prop := {
  used_data : Forall (fun c => 0 < data_size c) used;
  used_holes : Forall (fun c => 0 < hole_size c) (tail used)
}.

Definition wf (asm : Assembler) : Prop :=
  exists used k, asm = used ++ replicate k Contig.empty /\ wf_used used /\ 0 < length asm.

Section Lists.
Implicit Types (l pre post used : list Contig) (c d : Contig).

Lemma lookup_total_mid pre c post : (pre ++ c :: post) !!! length pre = c.
Proof. by apply list_lookup_total_middle. Qed.

Lemma insert_mid pre c post d : <[length pre := d]> (pre ++ c :: post) = pre ++ d :: post.
Proof. rewrite <-(Nat.add_0_r (length pre)). by rewrite insert_app_r. Qed.

Lemma insert_mid_1 pre b c post d :
  <[length pre + 1 := d]> (pre ++ b :: c :: post) = pre ++ b :: d :: post.
Proof. by rewrite insert_app_r. Qed.

Lemma lookup_total_mid_1 pre b c post : (pre ++ b :: c :: post) !!! (length pre + 1) = c.
Proof.
  rewrite cons_middle, app_assoc. apply list_lookup_total_middle. rewrite length_app. cbn. lia.
Qed.

Lemma lookup_total_after pre b mid c post :
  (pre ++ b :: mid ++ c :: post) !!! (length pre + 1 + length mid) = c.
Proof.
  rewrite cons_middle, !app_assoc. apply list_lookup_total_middle.
  rewrite !length_app. cbn. lia.
Qed.

Lemma mkContig_eta c : mkContig (hole_size c) (data_size c + 0) = c.
Proof. rewrite Nat.add_0_r. by destruct c. Qed.

Lemma span_app l1 l2 : span (l1 ++ l2) = span l1 + span l2.
Proof. unfold span. rewrite fmap_app. induction l1; cbn; lia. Qed.

Lemma span_empties k : span (replicate k Contig.empty) = 0.
Proof. induction k; cbn in *; [done|]. unfold span in *. cbn. done. Qed.

Lemma present_app l1 l2 i :
  present (l1 ++ l2) i = if i <? span l1 then present l1 i else present l2 (i - span l1).
Proof.
  revert i. induction l1 as [|c l1 IH]; intros i.
  - cbn. decide_tests; [lia|]. f_equal. lia.
  - cbn -[span]. unfold span. cbn. fold (span l1). rewrite IH.
    unfold total_size. decide_tests; try done; try lia. f_equal. lia.
Qed.

Lemma present_empties k i : present (replicate k Contig.empty) i = false.
Proof.
  revert i. induction k; intros i; cbn; [done|]. unfold total_size. cbn. rewrite IHk.
  decide_tests; try done; lia.
Qed.

Lemma present_wf used k i :
  present (used ++ replicate k Contig.empty) i = present used i.
Proof.
  rewrite present_app, present_empties. decide_tests; [done|].
  revert i H. induction used as [|c used IH]; intros i Hi; [done|].
  unfold span in *. cbn in *. fold (span used) in *. unfold total_size in *.
  decide_tests; try lia. apply IH. lia.
Qed.

Lemma present_past l i : span l <= i -> present l i = false.
Proof.
  intros Hi. rewrite <-(app_nil_r l) at 1. rewrite present_app. by decide_tests; [lia|].
Qed.

Lemma has_data_spec c : has_data c = true <-> 0 < data_size c.
Proof. unfold has_data. rewrite negb_true_iff, Nat.eqb_neq. lia. Qed.

Lemma has_hole_spec c : has_hole c = true <-> 0 < hole_size c.
Proof. unfold has_hole. rewrite negb_true_iff, Nat.eqb_neq. lia. Qed.
End Lists.

(** ** The loops *)

Section Loops.
Implicit Types (l pre post used : list Contig) (c d : Contig).

Definition all_data l : Prop := Forall (fun c => 0 < data_size c) l.

(** The loop of [remove_contig_at] closes the gap. *)
Lemma remove_loop_spec pre c used k :
  0 < data_size c -> all_data used ->
  let n := length used + k in
  exists cs b, remove_loop n (length pre) (pre ++ c :: used ++ replicate k Contig.empty) = (cs, b) /\
    (if b then cs else <[length pre + n := Contig.empty]> cs)
      = pre ++ used ++ replicate (S k) Contig.empty.
Proof.
  intros Hc Hu. revert pre c Hc. induction Hu as [|d used Hd Hu IH]; intros pre c Hc; cbn zeta.
  - cbn [length]. rewrite Nat.add_0_l. destruct k as [|k].
    + cbn. eexists _, _. split; [done|]. cbn. rewrite Nat.add_0_r. by rewrite insert_mid.
    + cbn [remove_loop]. rewrite lookup_total_mid, (proj2 (has_data_spec c)) by done.
      cbn [negb]. replace (S (length pre)) with (length pre + 1) by lia.
      cbn [app replicate]. rewrite lookup_total_mid_1, insert_mid.
      destruct k as [|k].
      * cbn. eexists _, _. split; [done|]. cbn. by rewrite insert_mid_1.
      * cbn [remove_loop]. rewrite lookup_total_mid_1.
        change (has_data Contig.empty) with false. cbn. eexists _, _. split; [done|]. done.
  - cbn [length Nat.add remove_loop]. rewrite lookup_total_mid, (proj2 (has_data_spec c)) by done.
    cbn [negb app]. replace (S (length pre)) with (length pre + 1) by lia.
    rewrite lookup_total_mid_1, insert_mid.
    destruct (IH (pre ++ [d]) d Hd) as (cs & b & Hr & Hcs).
    rewrite length_app in Hr, Hcs. cbn [length] in Hr, Hcs.
    rewrite <-app_assoc in Hr. cbn in Hr. exists cs, b. split; [done|].
    replace (length pre + S (length used + k)) with (length pre + 1 + (length used + k)) by lia.
    rewrite Hcs, <-app_assoc. done.
Qed.

(** Moving the contigs up by one from index [length pre]. *)
Lemma make_room_spec pre (mid : list Contig) d post :
  make_room_loop (length mid) (length pre) (pre ++ mid ++ d :: post) =
  pre ++ match mid with [] => [d] | c :: _ => c :: mid end ++ post.
Proof.
  revert d post. induction mid as [|m mid IH] using rev_ind; intros d post; [done|].
  rewrite length_app. cbn [length]. rewrite Nat.add_1_r. cbn [make_room_loop].
  rewrite <-!app_assoc. cbn [app].
  assert ((pre ++ mid ++ m :: d :: post) !!! (length pre + length mid) = m) as ->.
  { rewrite app_assoc, <-length_app. apply lookup_total_mid. }
  replace (length pre + S (length mid)) with (length (pre ++ mid) + 1)
    by (rewrite length_app; lia).
  rewrite (app_assoc pre mid), insert_mid_1, <-app_assoc.
  rewrite IH. destruct mid as [|c mid]; cbn; [done|]. by rewrite <-!app_assoc.
Qed.

Lemma add_find_spec pre used k offset :
  all_data used -> Forall (fun c => 0 < hole_size c) (tail used) ->
  (exists used1 c used2 off,
     used = used1 ++ c :: used2 /\ offset = span used1 + off /\ off <= total_size c /\
     (used1 <> [] -> 0 < off) /\
     add_find (length used + k) (length pre) offset (pre ++ used ++ replicate k Contig.empty)
       = FoundAt (length pre + length used1) off) \/
  (exists off, offset = span used + off /\ (used <> [] -> 0 < off) /\
     add_find (length used + k) (length pre) offset (pre ++ used ++ replicate k Contig.empty)
       = match k with 0 => FoundFull | S _ => FoundUnused (length pre + length used) off end).
Proof.
  intros Hu _. revert pre offset. induction Hu as [|c used Hc Hu IH]; intros pre offset.
  - right. exists offset. split; [done|]. split; [done|]. destruct k as [|k]; [done|].
    cbn [length Nat.add add_find app replicate]. rewrite lookup_total_mid.
    change (has_data Contig.empty) with false. cbn. by rewrite Nat.add_0_r.
  - cbn [length Nat.add add_find app]. rewrite lookup_total_mid, (proj2 (has_data_spec c)) by done.
    cbn [negb]. destruct (Nat.leb_spec offset (total_size c)) as [Hle|Hgt].
    + left. exists [], c, used, offset. split_and!; try done. by rewrite Nat.add_0_r.
    + specialize (IH (pre ++ [c]) (offset - total_size c)).
      rewrite length_app, <-app_assoc in IH. cbn [length app] in IH.
      replace (length pre + 1) with (S (length pre)) in IH by lia.
      destruct IH as [(u1 & d & u2 & off & -> & Ho & Hle & Hne & Hf)|(off & Ho & Hne & Hf)].
      * left. exists (c :: u1), d, u2, off. split_and!; try done.
        -- unfold span in *. cbn. lia.
        -- intros _. destruct (decide (off = 0)); [|lia]. subst off.
           destruct u1; [cbn in Ho; lia|]. by specialize (Hne ltac:(done)).
        -- rewrite Hf. cbn. f_equal. lia.
      * right. exists off. split_and!.
        -- unfold span in *. cbn. lia.
        -- intros _. destruct (decide (off = 0)); [|lia]. subst off.
           destruct used; [cbn in Ho; lia|]. by specialize (Hne ltac:(done)).
        -- rewrite Hf. destruct k; [done|]. cbn. f_equal. lia.
Qed.

(** The contigs absorbed by the coalescing loop: each starts its data within
    the added range, and the next one does not. *)
Inductive absorbed (lim : nat) : nat -> list Contig -> nat -> Prop :=
| absorbed_nil total : absorbed lim total [] total
| absorbed_cons total c cs total' :
    total + hole_size c <= lim ->
    absorbed lim (total + total_size c) cs total' ->
    absorbed lim total (c :: cs) total'.

Lemma coalesce_loop_spec pre c done_ used k lim :
  all_data used ->
  exists ab rest,
    used = ab ++ rest /\
    coalesce_loop (length used + k) (length pre) (length pre + 1 + length done_) lim
      (pre ++ c :: done_ ++ used ++ replicate k Contig.empty)
    = (pre ++ mkContig (hole_size c) (data_size c + span ab) :: done_ ++ used
         ++ replicate k Contig.empty, length pre + 1 + length done_ + length ab) /\
    absorbed lim (total_size c) ab (total_size c + span ab) /\
    match rest with
    | [] => True
    | d :: _ => lim < total_size c + span ab + hole_size d
    end.
Proof.
  intros Hu. revert c done_. induction Hu as [|d used Hd Hu IH]; intros c done_.
  - exists [], []. change (span []) with 0. rewrite mkContig_eta, !Nat.add_0_r.
    split_and!; try done; [|constructor].
    destruct k as [|k]; [done|]. cbn [app replicate length Nat.add coalesce_loop].
    by rewrite lookup_total_after.
  - cbn [length Nat.add coalesce_loop app].
    rewrite lookup_total_after, lookup_total_mid, (proj2 (has_data_spec d)) by done. cbn [andb].
    destruct (Nat.leb_spec (total_size c + hole_size d) lim) as [Hle|Hgt].
    + rewrite insert_mid. set (c' := mkContig _ _).
      destruct (IH c' (done_ ++ [d])) as (ab & rest & -> & Hl & Hab & Hrest).
      rewrite (length_app done_ [d]), <-!(app_assoc done_ [d]) in Hl. cbn [length app] in Hl.
      exists (d :: ab), rest.
      replace (S (length pre + 1 + length done_)) with (length pre + 1 + (length done_ + 1)) by lia.
      assert (data_size c' + span ab = data_size c + span (d :: ab)) as Hds
        by (unfold span, total_size; cbn; unfold total_size; lia).
      assert (total_size c' + span ab = total_size c + span (d :: ab)) as Hts
        by (unfold span, total_size in *; cbn; unfold total_size in *; lia).
      rewrite Hl, Hds. rewrite Hts in *. split_and!; try done.
      * f_equal. cbn. lia.
      * constructor; [done|]. unfold c', total_size in *. cbn in *.
        by rewrite Nat.add_assoc in Hab.
    + exists [], (d :: used). change (span []) with 0.
      rewrite mkContig_eta, !Nat.add_0_r. split_and!; try done. constructor.
Qed.

Lemma shift_loop_spec pre used k shift :
  all_data used -> 0 < shift ->
  shift_loop (length used + k) (length pre) shift (pre ++ used ++ replicate k Contig.empty) =
  pre ++ drop shift used ++ replicate (k + shift `min` length used) Contig.empty.
Proof.
  intros Hu Hs. revert pre. induction Hu as [|c used Hc Hu IH]; intros pre.
  - rewrite drop_nil, Nat.min_0_r, Nat.add_0_r. cbn. destruct k as [|k]; [done|].
    cbn. rewrite lookup_total_mid. done.
  - cbn [length Nat.add shift_loop app]. rewrite lookup_total_mid, (proj2 (has_data_spec c)) by done.
    cbn [negb]. rewrite insert_mid. set (x := default _ _).
    specialize (IH (pre ++ [x])). rewrite length_app, <-app_assoc in IH. cbn [length app] in IH.
    rewrite Nat.add_1_r in IH. rewrite IH, <-app_assoc. f_equal. cbn [app].
    assert (x = default Contig.empty ((c :: used ++ replicate k Contig.empty) !! shift)) as Hx.
    { unfold x. f_equal. rewrite lookup_app_r by lia. f_equal. lia. }
    clearbody x. destruct shift as [|shift]; [lia|].
    change ((c :: used ++ replicate k Contig.empty) !! S shift)
      with ((used ++ replicate k Contig.empty) !! shift) in Hx. cbn [drop].
    destruct (decide (shift < length used)) as [Hlt|Hge].
    + rewrite lookup_app_l in Hx by done.
      destruct (lookup_lt_is_Some_2 used shift Hlt) as [y Hy]. rewrite Hy in Hx. cbn in Hx.
      subst x. rewrite (drop_S used y shift Hy). cbn [app]. do 3 f_equal. lia.
    + assert (x = Contig.empty) as ->.
      { rewrite Hx, lookup_app_r by lia.
        destruct (replicate k Contig.empty !! (shift - length used)) eqn:E; [|done].
        by apply lookup_replicate in E as [-> _]. }
      rewrite !drop_ge by lia. cbn. replace (k + S (shift `min` length used))
        with (S (k + S shift `min` length used)) by lia. done.
Qed.
End Loops.

(** ** [add] *)

Section Add.
Implicit Types (l pre post used : list Contig) (c d : Contig).

Definition all_holes l : Prop := Forall (fun c => 0 < hole_size c) l.

Lemma absorbed_total lim t ab t' : absorbed lim t ab t' -> t' = t + span ab.
Proof. induction 1; unfold span in *; cbn; lia. Qed.

(** Past the end of the added range the absorbed contigs hold data only. *)
Lemma absorbed_present lim t ab t' i :
  absorbed lim t ab t' -> lim <= i -> t <= i < t' -> present ab (i - t) = true.
Proof.
  induction 1 as [|t c ab t' Hc Hab IH]; intros Hlim Hi; [lia|].
  cbn. decide_tests; try done; [lia|].
  rewrite <-IH by lia. f_equal. lia.
Qed.

(** What is recorded once contig [c] starts before the range and [ab] is
    absorbed. *)
Lemma present_absorbed c ab rest off size i :
  hole_size c <= off <= total_size c ->
  absorbed (off + size) (total_size c) ab (total_size c + span ab) ->
  present (c :: ab ++ rest) i || in_range off size i =
    if i <? hole_size c then false
    else if i <? total_size c + span ab then true
    else present rest (i - (total_size c + span ab)) || (i <? off + size).
Proof.
  intros Hoff Hab. cbn [present]. unfold in_range. rewrite present_app.
  destruct (Nat.ltb_spec i (hole_size c)); [decide_tests; done || lia|].
  destruct (Nat.ltb_spec i (total_size c)).
  { decide_tests; try done; lia. }
  destruct (Nat.ltb_spec (i - total_size c) (span ab)).
  - rewrite (proj2 (Nat.ltb_lt i (total_size c + span ab))) by lia.
    destruct (Nat.leb_spec (off + size) i).
    + by rewrite (absorbed_present _ _ _ _ i Hab) by lia.
    + rewrite (proj2 (Nat.leb_le off i)), (proj2 (Nat.ltb_lt i (off + size))) by lia. apply orb_true_r.
  - rewrite (proj2 (Nat.ltb_ge i (total_size c + span ab))) by lia.
    rewrite (proj2 (Nat.leb_le off i)) by lia. cbn [andb].
    do 2 f_equal. lia.
Qed.

(** What [shrink_hole_by] and [shrink_hole_to] leave when they do not panic. *)
Definition shrunk_by size c : Contig := mkContig (hole_size c - size) (data_size c).
Definition shrunk_to size c : Contig := mkContig size (total_size c - size).

Lemma shrink_hole_by_ok size c :
  size <= hole_size c -> shrink_hole_by size c = Ret (shrunk_by size c).
Proof. intros. unfold shrink_hole_by. by rewrite (proj2 (Nat.ltb_ge _ _)). Qed.

Lemma shrink_hole_to_ok size c :
  size <= hole_size c -> shrink_hole_to size c = Ret (shrunk_to size c).
Proof. intros. unfold shrink_hole_to. by rewrite (proj2 (Nat.leb_le _ _)). Qed.

(** The last step of [add]: extend contig [c] to the end of the range and take
    the extension from the hole of the next contig. *)
Definition extend (lim : nat) c rest : list Contig :=
  if total_size c <? lim then
    let left := lim - total_size c in
    mkContig (hole_size c) (data_size c + left) ::
    match rest with [] => [] | d :: r => shrunk_by left d :: r end
  else c :: rest.

Lemma add_at_extend pre c used k off size :
  all_data used -> exists ab rest,
    used = ab ++ rest /\
    absorbed (off + size) (total_size c) ab (total_size c + span ab) /\
    match rest with [] => True | d :: _ => off + size < total_size c + span ab + hole_size d end /\
    add_at (length pre) off size (pre ++ c :: used ++ replicate k Contig.empty) =
      Ret (pre ++ extend (off + size) (mkContig (hole_size c) (data_size c + span ab)) rest
               ++ replicate (k + length ab) Contig.empty).
Proof.
  intros Hu.
  destruct (coalesce_loop_spec pre c [] used k (off + size) Hu)
    as (ab & rest & Hused & Hl & Hab & Hrest).
  exists ab, rest. split_and!; try done. cbn [app length] in Hl. rewrite Nat.add_0_r in Hl.
  set (c' := mkContig (hole_size c) (data_size c + span ab)) in *.
  unfold add_at. rewrite length_app. cbn [length]. rewrite length_app, length_replicate.
  replace (length pre + S (length used + k) - (length pre + 1)) with (length used + k) by lia.
  rewrite Hl. replace (length pre + 1 + length ab - length pre - 1) with (length ab) by lia.
  assert ((if length ab =? 0 then pre ++ c' :: used ++ replicate k Contig.empty
           else shift_loop (length used + k) (length pre + 1) (length ab)
                  (pre ++ c' :: used ++ replicate k Contig.empty))
          = pre ++ c' :: rest ++ replicate (k + length ab) Contig.empty) as ->.
  { destruct (Nat.eqb_spec (length ab) 0) as [He|He].
    - apply nil_length_inv in He as ->. rewrite Hused. cbn. by rewrite Nat.add_0_r.
    - pose proof (shift_loop_spec (pre ++ [c']) used k (length ab) Hu ltac:(lia)) as Hs.
      rewrite length_app, <-!app_assoc in Hs. cbn [length app] in Hs. rewrite Hs.
      rewrite Hused, drop_app_length. rewrite length_app. do 5 f_equal. lia. }
  unfold extend. rewrite lookup_total_mid.
  destruct (Nat.ltb_spec (total_size c') (off + size)); [|done].
  rewrite insert_mid. rewrite Hused. destruct rest as [|d rest].
  - rewrite app_nil_r in *. cbn [app].
    destruct (_ && _) eqn:Hn; [|done]. apply andb_true_iff in Hn as [Hn1 Hn2].
    destruct (k + length ab) as [|m] eqn:Hk; [apply Nat.ltb_lt in Hn1; lia|].
    cbn [replicate] in Hn2. rewrite lookup_total_mid_1 in Hn2. done.
  - cbn [app]. rewrite lookup_total_mid_1.
    rewrite Hused in Hu. apply Forall_app in Hu as [_ Hd%Forall_inv].
    rewrite (proj2 (has_data_spec d)) by done.
    rewrite (proj2 (Nat.ltb_lt _ _)) by (rewrite length_app; cbn; lia). cbn [andb].
    rewrite shrink_hole_by_ok by (unfold c', total_size in *; cbn in *; lia).
    cbn [mbind outcome_bind]. by rewrite insert_mid_1.
Qed.

Lemma present_extend c ab rest off size i :
  hole_size c <= off <= total_size c ->
  absorbed (off + size) (total_size c) ab (total_size c + span ab) ->
  match rest with [] => True | d :: _ => off + size < total_size c + span ab + hole_size d end ->
  present (extend (off + size) (mkContig (hole_size c) (data_size c + span ab)) rest) i =
    present (c :: ab ++ rest) i || in_range off size i.
Proof.
  intros Hoff Hab Hrest. rewrite (present_absorbed c ab rest off size i Hoff Hab).
  unfold extend. set (T := total_size c + span ab) in *.
  assert (total_size (mkContig (hole_size c) (data_size c + span ab)) = T) as ->
    by (unfold T, total_size; cbn; lia).
  destruct (Nat.ltb_spec T (off + size)) as [Hlt|Hge]; cbn [present]; unfold total_size; cbn.
  - destruct (Nat.ltb_spec i (hole_size c)); [done|].
    unfold T, total_size in *.
    destruct (Nat.ltb_spec i (hole_size c + data_size c + span ab)).
    { rewrite (proj2 (Nat.ltb_lt i _)) by lia. done. }
    destruct (Nat.ltb_spec i (off + size)).
    { rewrite (proj2 (Nat.ltb_lt i _)) by lia. by rewrite orb_true_r. }
    rewrite (proj2 (Nat.ltb_ge i _)) by lia. rewrite orb_false_r.
    destruct rest as [|d rest]; [done|]. cbn. unfold total_size; cbn.
    decide_tests; try done; try lia. f_equal. lia.
  - unfold T, total_size in *.
    destruct (Nat.ltb_spec i (hole_size c)); [done|].
    replace (hole_size c + (data_size c + span ab)) with (hole_size c + data_size c + span ab) by lia.
    destruct (Nat.ltb_spec i (hole_size c + data_size c + span ab)); [done|].
    rewrite (proj2 (Nat.ltb_ge i (off + size))) by lia. by rewrite orb_false_r.
Qed.

Lemma extend_wf c ab rest lim :
  0 < data_size c -> all_data (ab ++ rest) -> all_holes (ab ++ rest) ->
  match rest with [] => True | d :: _ => lim < total_size c + span ab + hole_size d end ->
  exists c' rest', extend lim (mkContig (hole_size c) (data_size c + span ab)) rest = c' :: rest' /\
    hole_size c' = hole_size c /\ 0 < data_size c' /\ all_data rest' /\ all_holes rest' /\
    length rest' = length rest /\
    span (c' :: rest') = (span (c :: ab ++ rest)) `max` lim.
Proof.
  intros Hc [_ Hd]%Forall_app [_ Hh]%Forall_app Hrest.
  assert (span (c :: ab ++ rest) = total_size c + span ab + span rest) as Hsp.
  { change (c :: ab ++ rest) with ([c] ++ ab ++ rest). rewrite !span_app.
    unfold span at 1. cbn. lia. }
  unfold extend. destruct (Nat.ltb_spec (total_size (mkContig (hole_size c) (data_size c + span ab))) lim)
    as [Hlt|Hge]; unfold total_size in *; cbn in *.
  - destruct rest as [|d rest].
    + eexists _, _. split; [done|]. cbn. split_and!; try done; try lia.
      rewrite Hsp. unfold span, total_size in *. cbn. lia.
    + apply Forall_cons_1 in Hd as [Hd ?], Hh as [Hh ?]. eexists _, _. split; [done|]. cbn.
      split_and!; try done; try lia.
      * by constructor.
      * constructor; [cbn; lia|done].
      * rewrite Hsp. unfold span, total_size in *. cbn in *. unfold total_size in *. lia.
  - eexists _, _. split; [done|]. cbn. split_and!; try done; try lia.
    rewrite Hsp. unfold span, total_size in *. cbn in *. unfold total_size in *.
    destruct rest; cbn; lia.
Qed.
End Add.

(** ** The operations preserve the invariant and act on the set of bytes *)

Section Operations_spec.
Implicit Types (pre post used : list Contig) (c d : Contig) (asm : Assembler).

Lemma present_prefix pre l1 l2 off size :
  (forall i, present l2 i = present l1 i || in_range off size i) ->
  forall i, present (pre ++ l2) i = present (pre ++ l1) i || in_range (span pre + off) size i.
Proof.
  intros H i. rewrite !present_app, H. unfold in_range.
  decide_tests; rewrite ?orb_false_r, ?orb_true_r; try done; lia.
Qed.

Lemma span_cons c l : span (c :: l) = total_size c + span l.
Proof. done. Qed.

(** Contig [c] at index [length pre] is replaced by contigs that record the
    range as well. *)
Definition local_update pre c used2 (off size : nat) (new_ : list Contig) : Prop :=
  (forall i, present new_ i = present (c :: used2) i || in_range off size i) /\
  span new_ = span (c :: used2) `max` (off + size) /\
  all_data new_ /\ all_holes (tail new_) /\
  (pre <> [] -> match new_ with [] => True | d :: _ => 0 < hole_size d end).

Lemma add_at_update pre c used2 k off size :
  0 < data_size c -> all_data used2 -> all_holes used2 ->
  hole_size c <= off <= total_size c -> (pre <> [] -> 0 < hole_size c) ->
  exists new_ k', local_update pre c used2 off size new_ /\
    length (new_ ++ replicate k' Contig.empty) = length (c :: used2 ++ replicate k Contig.empty) /\
    add_at (length pre) off size (pre ++ c :: used2 ++ replicate k Contig.empty) =
      Ret (pre ++ new_ ++ replicate k' Contig.empty).
Proof.
  intros Hc Hd Hh Hoff Hpre.
  destruct (add_at_extend pre c used2 k off size Hd) as (ab & rest & -> & Hab & Hrest & Hadd).
  destruct (extend_wf c ab rest (off + size) Hc Hd Hh Hrest)
    as (c' & rest' & Hext & Hhole & Hc' & Hd' & Hh' & Hlen & Hspan).
  exists (c' :: rest'), (k + length ab). rewrite <-Hext at 3. split_and!; [|cbn|done].
  2: { rewrite !length_app, !length_replicate, Hlen. lia. }
  split_and!; try done.
  - intros i. rewrite <-Hext. by apply present_extend.
  - by constructor.
  - intros Hne. rewrite Hhole. auto.
Qed.

Lemma shrunk_to_present c used2 off size i :
  off < hole_size c -> hole_size c <= off + size ->
  present (shrunk_to off c :: used2) i || in_range off size i =
  present (c :: used2) i || in_range off size i.
Proof.
  intros H1 H2. cbn. unfold in_range, total_size, shrunk_to, total_size. cbn.
  replace (off + (hole_size c + data_size c - off)) with (hole_size c + data_size c) by lia.
  decide_tests; cbn; rewrite ?orb_true_r; try done; lia.
Qed.

Lemma wf_replace pre c used2 k off size new_ k' :
  local_update pre c used2 off size new_ ->
  wf_used (pre ++ c :: used2) ->
  length (new_ ++ replicate k' Contig.empty) = length (c :: used2 ++ replicate k Contig.empty) ->
  let asm := (pre ++ c :: used2) ++ replicate k Contig.empty in
  let asm' := pre ++ new_ ++ replicate k' Contig.empty in
  wf asm' /\ length asm' = length asm /\
  (forall i, present asm' i = present asm i || in_range (span pre + off) size i) /\
  span asm' = span asm `max` (span pre + off + size).
Proof.
  intros (Hp & Hs & Hd & Hh & Hfst) [Hud Huh] Hl asm asm'. subst asm asm'.
  rewrite (app_assoc pre new_).
  assert (length ((pre ++ new_) ++ replicate k' Contig.empty) =
          length ((pre ++ c :: used2) ++ replicate k Contig.empty)) as Hlen.
  { rewrite !length_app in *. cbn [length] in *. rewrite !length_app in *. lia. }
  split_and!; [|done|..].
  - exists (pre ++ new_), k'. split_and!; [done| |rewrite Hlen, !length_app; cbn; lia].
    apply Forall_app in Hud as [Hpre _]. split.
    + apply Forall_app. done.
    + destruct pre as [|p pre]; [done|]. cbn in *.
      apply Forall_app in Huh as [Hph _]. apply Forall_app. split; [done|].
      destruct new_ as [|d new_]; [done|]. constructor; [by apply Hfst|done].
  - intros i. rewrite !present_wf. by apply present_prefix.
  - rewrite !span_app, !span_empties, Hs. lia.
Qed.

(** A range that starts and ends in the hole of [c] gets a contig of its own,
    if there is one left. *)
Lemma back_full pre : all_data pre -> pre <> [] -> has_data (back pre) = true.
Proof.
  intros Hd Hne. apply has_data_spec. unfold back.
  apply (Forall_lookup_total_1 _ _ _ Hd). destruct pre; [done|]. cbn. lia.
Qed.

Lemma back_unused l : has_data (back (l ++ [Contig.empty])) = false.
Proof.
  unfold back. rewrite length_app. rewrite list_lookup_total_middle; [done|]. cbn. lia.
Qed.

Lemma add_contig_at_ok pre c used2 k :
  add_contig_at (length pre) (pre ++ c :: used2 ++ replicate (S k) Contig.empty) =
    (pre ++ Contig.empty :: c :: used2 ++ replicate k Contig.empty, Ok (length pre)).
Proof.
  unfold add_contig_at. set (mid := c :: used2 ++ replicate k Contig.empty).
  assert (c :: used2 ++ replicate (S k) Contig.empty = mid ++ [Contig.empty]) as ->.
  { unfold mid. rewrite replicate_S_end. cbn. by rewrite app_assoc. }
  rewrite app_assoc, back_unused, <-app_assoc.
  replace (length (pre ++ mid ++ [Contig.empty]) - 1 - length pre) with (length mid)
    by (rewrite !length_app; cbn; lia).
  rewrite make_room_spec. unfold mid. cbn [app]. by rewrite app_nil_r, insert_mid.
Qed.

Lemma hole_update pre c used2 off size :
  0 < size -> off + size < hole_size c -> all_data (c :: used2) -> all_holes used2 ->
  (pre <> [] -> 0 < off) ->
  local_update pre c used2 off size
    (mkContig off size :: shrunk_by (off + size) c :: used2).
Proof.
  intros Hs Hin [Hc Hd]%Forall_cons_1 Hh Hne. split_and!.
  - intros i. cbn. unfold in_range, total_size. cbn.
    decide_tests; try done; try lia. rewrite orb_false_r. f_equal. lia.
  - rewrite !span_cons. unfold total_size. cbn. lia.
  - by repeat constructor.
  - constructor; [cbn; lia|done].
  - done.
Qed.

Lemma shrink_update pre c used2 off size new_ :
  off < hole_size c -> hole_size c <= off + size ->
  local_update pre (shrunk_to off c) used2 off size new_ ->
  local_update pre c used2 off size new_.
Proof.
  intros H1 H2 (Hp & Hs & Hrest). split_and!; try apply Hrest.
  - intros i. rewrite Hp. by apply shrunk_to_present.
  - rewrite Hs, !span_cons. unfold total_size; cbn. unfold total_size. lia.
Qed.

Lemma add_unused used k off size :
  wf_used used -> 0 < size -> (used <> [] -> 0 < off) ->
  let asm := used ++ replicate (S k) Contig.empty in
  let asm' := used ++ hole_and_data off size :: replicate k Contig.empty in
  wf asm' /\ length asm' = length asm /\
  (forall i, present asm' i = present asm i || in_range (span used + off) size i) /\
  span asm' = span asm `max` (span used + off + size).
Proof.
  intros [Hud Huh] Hs Hne asm asm'. subst asm asm'.
  rewrite cons_middle, app_assoc.
  assert (all_data (used ++ [hole_and_data off size])) as Hda.
  { apply Forall_app. split; [done|]. by constructor. }
  split_and!.
  - exists (used ++ [hole_and_data off size]), k.
    split_and!; [done| |rewrite !length_app; cbn; lia].
    split; [done|]. destruct used as [|c used]; [by constructor|]. cbn in *.
    apply Forall_app. split; [done|]. constructor; [|done]. cbn. by apply Hne.
  - rewrite !length_app. cbn. lia.
  - intros i. rewrite !present_wf, present_app. cbn [present hole_and_data].
    unfold total_size, in_range. cbn. destruct (Nat.ltb_spec i (span used)).
    + decide_tests; rewrite ?orb_false_r; try done; lia.
    + rewrite (present_past used) by done. decide_tests; try done; lia.
  - rewrite !span_app, !span_empties, span_cons. unfold total_size. cbn. lia.
Qed.

(** The specification of [add]. *)
Definition add_post offset size asm
    (out : outcome (Assembler * result unit TooManyHolesError)) : Prop :=
  match out with
  | Panic => False
  | Ret (asm', Ok _) =>
      wf asm' /\ length asm' = length asm /\
      (forall i, present asm' i = present asm i || in_range offset size i) /\
      span asm' = span asm `max` (offset + size)
  | Ret (asm', Err _) => asm' = asm /\ all_data asm /\ 0 < offset + (hole_size (front asm) - size)
  end.

Lemma add_found_at pre c u2 k off size :
  wf_used (pre ++ c :: u2) -> 0 < size -> off <= total_size c -> (pre <> [] -> 0 < off) ->
  let asm := pre ++ c :: u2 ++ replicate k Contig.empty in
  add_post (span pre + off) size asm
    (if off <? hole_size c then
       if off + size <? hole_size c then
         let '(asm, res) := add_contig_at (length pre) asm in
         match res with
         | Err e => Ret (asm, Err e)
         | Ok at_ =>
             let asm := <[at_ := mkContig off size]> asm in
             moved ← shrink_hole_by (off + size) (asm !!! (length pre + 1));
             Ret (<[length pre + 1 := moved]> asm, Ok ())
         end
       else
         contig ← shrink_hole_to off c;
         asm ← add_at (length pre) off size (<[length pre := contig]> asm);
         Ret (asm, Ok ())
     else
       asm ← add_at (length pre) off size asm;
       Ret (asm, Ok ())).
Proof.
  intros Hu Hsize Hle Hne asm. pose proof Hu as [Hud Huh].
  apply Forall_app in Hud as Hud'. destruct Hud' as [Hpd Hcd].
  pose proof Hcd as [Hc Hu2]%Forall_cons_1.
  assert (all_holes u2 /\ (pre <> [] -> 0 < hole_size c)) as [Hh2 Hpc].
  { destruct pre; [done|]. cbn in Huh. apply Forall_app in Huh as [_ Hx].
    apply Forall_cons_1 in Hx as [??]. auto. }
  assert (asm = (pre ++ c :: u2) ++ replicate k Contig.empty) as Hasm
    by (unfold asm; by rewrite <-app_assoc).
  destruct (Nat.ltb_spec off (hole_size c)) as [Hin|Hin];
    [destruct (Nat.ltb_spec (off + size) (hole_size c)) as [Hin2|Hin2]|].
  - destruct k as [|k].
    + unfold add_contig_at. cbn in Hasm. rewrite app_nil_r in Hasm. subst asm.
      rewrite Hasm, back_full by (done || by destruct pre). split; [done|]. split; [done|].
      destruct pre as [|p pre]; [cbn; lia|]. specialize (Hne ltac:(done)). lia.
    + unfold asm. rewrite add_contig_at_ok, insert_mid, lookup_total_mid_1.
      rewrite shrink_hole_by_ok by lia. cbn [mbind outcome_bind]. rewrite insert_mid_1.
      unfold add_post. fold asm. rewrite Hasm.
      apply (wf_replace pre c u2 (S k) off size
        (mkContig off size :: shrunk_by (off + size) c :: u2) k); [|done|].
      * by apply hole_update.
      * rewrite length_app. cbn [length]. rewrite length_app, !length_replicate. lia.
  - unfold asm. rewrite shrink_hole_to_ok by lia. cbn [mbind outcome_bind]. rewrite insert_mid.
    destruct (add_at_update pre (shrunk_to off c) u2 k off size)
      as (new_ & k' & Hloc & Hl & ->); try done.
    { cbn. unfold total_size. lia. }
    { cbn. unfold total_size; cbn. unfold total_size. lia. }
    unfold add_post. fold asm. rewrite Hasm.
    apply (wf_replace pre c u2 k); [by apply shrink_update|done|done].
  - unfold asm. destruct (add_at_update pre c u2 k off size)
      as (new_ & k' & Hloc & Hl & ->); try done.
    unfold add_post. fold asm. rewrite Hasm. by apply (wf_replace pre c u2 k).
Qed.

Lemma add_ok offset size asm :
  wf asm -> 0 < size -> add_post offset size asm (add offset size asm).
Proof.
  intros (used & k & -> & Hu & Hlen) Hsize. pose proof Hu as [Hud Huh].
  unfold add. rewrite (proj2 (Nat.eqb_neq size 0)) by lia.
  rewrite length_app, length_replicate in *.
  destruct (add_find_spec [] used k offset Hud Huh)
    as [(pre & c & u2 & off & -> & -> & Hle & Hne & Hf)|(off & -> & Hne & Hf)];
    cbn [app length] in Hf; rewrite Nat.add_0_l in Hf; rewrite Hf.
  - rewrite <-app_assoc. cbn [app]. rewrite lookup_total_mid. by apply add_found_at.
  - destruct k as [|k].
    + split; [done|]. cbn [replicate]. rewrite app_nil_r in *. split; [done|].
      destruct used as [|c used]; [cbn in Hlen; lia|]. specialize (Hne ltac:(done)). lia.
    + cbn [replicate]. rewrite insert_mid. by apply add_unused.
Qed.
End Operations_spec.

(** ** Removing the front, and the combined operation *)

Section Front.
Implicit Types (used : list Contig) (c : Contig) (asm : Assembler).

(** [n] is the number of contiguous bytes at the front of a set. *)
Definition front_run (U : nat -> bool) (n : nat) : Prop :=
  (forall i, i < n -> U i = true) /\ U n = false.

Lemma front_run_unique U n m : front_run U n -> front_run U m -> n = m.
Proof.
  intros [H1 H2] [H3 H4]. destruct (Nat.lt_trichotomy n m) as [H|[H|H]]; [|done|].
  - by rewrite (H3 n H) in H2.
  - by rewrite (H1 m H) in H4.
Qed.

Lemma asm_new_wf n : 0 < n -> wf (new n).
Proof. intros. exists [], n. unfold new. rewrite length_replicate. by split_and!; [|split|]. Qed.

Lemma present_new n i : present (new n) i = false.
Proof. apply present_empties. Qed.

Lemma front_cons c used : front (c :: used) = c.
Proof. done. Qed.

(** The cases of the first contig of a well-formed assembler. *)
Lemma wf_cases asm :
  wf asm ->
  (exists n, asm = replicate (S n) Contig.empty) \/
  (exists c used k, asm = c :: used ++ replicate k Contig.empty /\ 0 < data_size c /\
     all_data used /\ all_holes used).
Proof.
  intros (used & k & -> & [Hd Hh] & Hl). destruct used as [|c used]; cbn in *.
  - left. rewrite length_replicate in Hl. destruct k as [|k]; [lia|]. by exists k.
  - right. apply Forall_cons_1 in Hd as [??]. by exists c, used, k.
Qed.

Lemma wf_intro c used k :
  0 < data_size c -> all_data used -> all_holes used ->
  wf (c :: used ++ replicate k Contig.empty).
Proof.
  intros Hc Hd Hh. exists (c :: used), k. split_and!; [done| |cbn; lia].
  split; [by constructor|done].
Qed.

Lemma asm_is_empty_spec asm : wf asm -> is_empty asm = true <-> forall i, present asm i = false.
Proof.
  intros [[n ->]|(c & used & k & -> & Hc & _)]%wf_cases; unfold is_empty.
  - split; [intros _ i; apply present_empties|]. done.
  - rewrite front_cons. rewrite (proj2 (has_data_spec c)) by done. split; [done|].
    intros H. specialize (H (hole_size c)). cbn in H. unfold total_size in H.
    decide_tests; done || lia.
Qed.

Lemma peek_front_run asm : wf asm -> front_run (present asm) (peek_front asm).
Proof.
  intros [[n ->]|(c & used & k & -> & Hc & Hd & Hh)]%wf_cases.
  - change (peek_front _) with 0. split; [lia|]. apply present_empties.
  - unfold peek_front. rewrite front_cons. destruct (has_hole c) eqn:Hhc.
    + apply has_hole_spec in Hhc. split; [lia|]. cbn. decide_tests; done || lia.
    + assert (hole_size c = 0) as H0.
      { destruct (hole_size c) eqn:E; [done|]. assert (has_hole c = true); [|congruence].
        apply has_hole_spec. lia. }
      split.
      * intros i Hi. cbn. unfold total_size. rewrite H0. decide_tests; done || lia.
      * cbn. unfold total_size. rewrite H0. decide_tests; try lia.
        rewrite present_wf. replace (data_size c - (0 + data_size c)) with 0 by lia.
        destruct Hh as [|d used Hd' _]; [done|]. cbn. decide_tests; done || lia.
Qed.

Lemma remove_front_ok asm :
  wf asm ->
  exists asm', remove_front asm = Ret (asm', peek_front asm) /\ wf asm' /\
    length asm' = length asm /\
    (forall i, present asm' i = present asm (peek_front asm + i)) /\
    span asm' + peek_front asm = span asm.
Proof.
  intros Hwf. unfold remove_front, peek_front.
  destruct (has_hole (front asm)) eqn:Hhole; [by exists asm; rewrite Nat.add_0_r|].
  destruct (has_data (front asm)) eqn:Hdata; cbn [negb orb].
  2: { exists asm. assert (data_size (front asm) = 0) as ->.
       { destruct (data_size (front asm)) eqn:E; [done|].
         assert (has_data (front asm) = true); [|congruence]. apply has_data_spec. lia. }
       by rewrite Nat.add_0_r. }
  pose proof Hwf as [[n ->]|(c & used & k & -> & Hc & Hd & Hh)]%wf_cases; [done|].
  rewrite front_cons in *.
  destruct (remove_loop_spec [] c used k Hc Hd) as (cs & b & Hrl & Hcs).
  cbn [app length Nat.add] in Hrl, Hcs. cbn zeta in *. rewrite ?Nat.add_0_l in *.
  assert (remove_contig_at 0 (c :: used ++ replicate k Contig.empty)
          = Ret (used ++ replicate (S k) Contig.empty)) as ->.
  { unfold remove_contig_at.
    change ((c :: used ++ replicate k Contig.empty) !!! 0) with c. rewrite Hdata.
    cbn [length rust_assert mbind outcome_bind].
    replace (S (length (used ++ replicate k Contig.empty)) - 1 - 0) with (length used + k)
      by (rewrite length_app, length_replicate; lia).
    replace (S (length (used ++ replicate k Contig.empty)) - 1) with (length used + k)
      by (rewrite length_app, length_replicate; lia).
    rewrite Hrl. by f_equal. }
  cbn [mbind outcome_bind]. rewrite (proj2 (Nat.ltb_lt _ _)) by done.
  eexists. split; [done|].
  assert (hole_size c = 0) as H0.
  { destruct (hole_size c) eqn:E; [done|]. assert (has_hole c = true); [|congruence].
    apply has_hole_spec. lia. }
  split_and!.
  - exists used, (S k). split_and!; [done| |rewrite length_app; cbn; lia].
    split; [done|]. by destruct Hh.
  - cbn. rewrite !length_app. cbn. lia.
  - intros i. rewrite present_wf. cbn. unfold total_size. rewrite H0, present_wf.
    decide_tests; try lia. f_equal. lia.
  - rewrite span_cons, !span_app, !span_empties. unfold total_size. lia.
Qed.

(** The specification of [add_then_remove_front]: it adds the range, then
    removes the contiguous run at the front of the union. *)
Definition add_front_post offset size asm
    (out : outcome (Assembler * result nat TooManyHolesError)) : Prop :=
  let U i := present asm i || in_range offset size i in
  match out with
  | Panic => False
  | Ret (asm', Ok n) =>
      wf asm' /\ length asm' = length asm /\ front_run U n /\
      (forall i, present asm' i = U (n + i)) /\
      span asm' + n <= span asm `max` (offset + size)
  | Ret (asm', Err _) => asm' = asm /\ 0 < offset /\ all_data asm
  end.

Lemma add_then_remove_front_ok offset size asm :
  wf asm -> add_front_post offset size asm (add_then_remove_front offset size asm).
Proof.
  intros Hwf. unfold add_then_remove_front.
  destruct ((offset =? 0) && (size <? hole_size (asm !!! 0))) eqn:Hs.
  - apply andb_true_iff in Hs as [->%Nat.eqb_eq Hs%Nat.ltb_lt].
    pose proof Hwf as [[n ->]|(c & used & k & -> & Hc & Hd & Hh)]%wf_cases;
      [cbn in Hs; lia|].
    cbn in Hs. change ((c :: used ++ replicate k Contig.empty) !!! 0) with c.
    rewrite shrink_hole_by_ok by lia. cbn [mbind outcome_bind].
    change (<[0 := shrunk_by size c]> (c :: used ++ replicate k Contig.empty))
      with (shrunk_by size c :: used ++ replicate k Contig.empty).
    unfold add_front_post, in_range. split_and!.
    + by apply wf_intro.
    + done.
    + split; [intros i Hi|]; cbn; unfold total_size; decide_tests;
        rewrite ?orb_true_r; done || lia.
    + intros i. cbn. unfold total_size. cbn. decide_tests; cbn; rewrite ?orb_false_r; try done; try lia.
      f_equal. lia.
    + rewrite !span_cons. unfold total_size. cbn. lia.
  - destruct (decide (size = 0)) as [->|Hsize].
    + unfold add. cbn [Nat.eqb]. rewrite Nat.eqb_refl. cbn [mbind outcome_bind].
      destruct (remove_front_ok asm Hwf) as (asm' & -> & Hwf' & Hlen & Hp & Hsp).
      assert (forall i, present asm i || in_range offset 0 i = present asm i) as HU.
      { intros i. unfold in_range. decide_tests; rewrite ?orb_false_r; done || lia. }
      unfold add_front_post. split_and!; try done; [|intros i; by rewrite HU|lia].
      pose proof (peek_front_run asm Hwf) as [H1 H2].
      split; [intros i Hi|]; rewrite HU; auto.
    + pose proof (add_ok offset size asm Hwf ltac:(lia)) as Hadd.
      destruct (add offset size asm) as [[asm1 [[]|e]]|]; cbn in Hadd; [| |done];
        cbn [mbind outcome_bind].
      * destruct Hadd as (Hwf1 & Hlen1 & Hp1 & Hsp1).
        destruct (remove_front_ok asm1 Hwf1) as (asm' & -> & Hwf' & Hlen & Hp & Hsp).
        unfold add_front_post. split_and!; try done; [congruence| | |lia].
        -- pose proof (peek_front_run asm1 Hwf1) as [H1 H2].
           split; [intros i Hi|]; rewrite <-Hp1; auto.
        -- intros i. by rewrite Hp, Hp1.
      * destruct Hadd as (-> & Hd & H0). split_and!; try done.
        destruct (decide (offset = 0)) as [->|]; [|lia].
        unfold front in H0. cbn in Hs. apply Nat.ltb_ge in Hs. lia.
Qed.
End Front.

(** ** Iteration *)

Section Iteration.
Implicit Types (pre used : list Contig) (c : Contig) (asm : Assembler).

(** The ranges of the used contigs, the first starting at [pos]. *)
Fixpoint data_ranges (pos : Z) (used : list Contig) : list (Z * Z) :=
  match used with
  | [] => []
  | c :: used =>
      let right := (pos + Z.of_nat (total_size c))%Z in
      ((pos + Z.of_nat (hole_size c))%Z, right) :: data_ranges right used
  end.

Definition iter_at pre used k offset right : AssemblerIter :=
  mkIter (pre ++ used ++ replicate k Contig.empty) offset (length pre) (span pre) right.

Lemma next_loop_unused n (l : list Contig) offset i left right :
  (forall j, i <= j -> j < i + n -> l !!! j = Contig.empty) ->
  exists it, next_loop n (mkIter l offset i left right) = Ret (it, None).
Proof.
  revert i left right. induction n as [|n IH]; intros i left right Hj; [by eexists|].
  cbn -[uadd]. rewrite (Hj i) by lia. cbn -[uadd].
  rewrite (proj2 (Nat.ltb_ge _ _)) by lia. apply IH. intros j ? ?. apply Hj; lia.
Qed.

Lemma next_none pre k offset right :
  exists it, next (iter_at pre [] k offset right) = Ret (it, None).
Proof.
  unfold next, iter_at. cbn [it_assembler it_index app]. apply next_loop_unused.
  intros j ? Hj. rewrite length_app, length_replicate in Hj.
  rewrite lookup_total_app_r by done. apply lookup_total_replicate_2. lia.
Qed.

Lemma next_some pre c used k offset right :
  0 < data_size c ->
  (offset + Z.of_nat (span pre + total_size c) <= USIZE_MAX)%Z ->
  next (iter_at pre (c :: used) k offset right) =
    Ret (iter_at (pre ++ [c]) used k offset (span (pre ++ [c])),
         Some ((offset + Z.of_nat (span pre) + Z.of_nat (hole_size c))%Z,
               (offset + Z.of_nat (span pre) + Z.of_nat (total_size c))%Z)).
Proof.
  intros Hc Hmax. unfold next, iter_at. cbn [it_assembler it_index].
  replace (length (pre ++ (c :: used) ++ replicate k Contig.empty) - length pre)
    with (S (length (used ++ replicate k Contig.empty)))
    by (rewrite !length_app; cbn [length]; lia).
  cbn [next_loop it_assembler it_index it_left it_offset app].
  rewrite lookup_total_mid. rewrite (proj2 (Nat.ltb_lt _ _)) by lia.
  unfold total_size, uadd in *.
  rewrite (proj2 (Z.ltb_ge _ _)) by lia. cbn [mbind outcome_bind].
  rewrite (proj2 (Z.ltb_ge _ _)) by lia. cbn [mbind outcome_bind].
  rewrite length_app, span_app, span_cons, <-app_assoc. change (span []) with 0.
  unfold total_size. cbn [length app]. rewrite Nat.add_1_r.
  f_equal; f_equal; [f_equal; lia | f_equal; f_equal; lia].
Qed.

Lemma find_loop_ok p n pre used k offset right :
  all_data used -> length used < n ->
  (offset + Z.of_nat (span pre + span used) <= USIZE_MAX)%Z ->
  find_loop n p (iter_at pre used k offset right) =
    Ret (List.find p (data_ranges (offset + Z.of_nat (span pre)) used)).
Proof.
  intros Hd. revert n pre right. induction Hd as [|c used Hc Hd IH]; intros n pre right Hn Hm.
  - destruct n as [|n]; [done|]. cbn [find_loop].
    destruct (next_none pre k offset right) as [it ->]. done.
  - destruct n as [|n]; [cbn in Hn; lia|]. cbn [find_loop]. rewrite span_cons in Hm.
    rewrite next_some by (done || lia). cbn [mbind outcome_bind data_ranges List.find].
    destruct (p _); [done|]. cbn in Hn. rewrite IH.
    + rewrite span_app, span_cons. change (span []) with 0. do 3 f_equal. lia.
    + lia.
    + rewrite span_app, span_cons. change (span []) with 0. lia.
Qed.

Lemma data_ranges_present used pos i :
  all_data used ->
  present used i = true <->
  exists l r, In (l, r) (data_ranges pos used) /\ (l <= pos + Z.of_nat i < r)%Z.
Proof.
  intros Hd. revert pos i. induction Hd as [|c used Hc Hd IH]; intros pos i.
  - split; [done|]. by intros (l & r & [] & _).
  - cbn [present data_ranges]. unfold total_size. destruct (Nat.ltb_spec i (hole_size c)).
    + split; [done|]. intros (l & r & [[= <- <-]|Hin] & ?); [lia|].
      exfalso. enough (forall u q l r, In (l, r) (data_ranges q u) -> (q <= l)%Z) as Hge.
      { apply Hge in Hin. lia. }
      clear. induction u as [|c u IHu]; intros q l r Hin; [done|].
      destruct Hin as [[= <- <-]|Hin%IHu]; unfold total_size in *; lia.
    + destruct (Nat.ltb_spec i (hole_size c + data_size c)).
      * split; [|done]. intros _. do 2 eexists. split; [by left|]. lia.
      * rewrite (IH (pos + Z.of_nat (hole_size c + data_size c))%Z).
        split; intros (l & r & Hin & ?).
        -- exists l, r. split; [by right|]. lia.
        -- destruct Hin as [[= <- <-]|Hin]; [lia|]. exists l, r. split; [done|]. lia.
Qed.

Lemma wf_used_part asm : wf asm -> exists used k,
  asm = used ++ replicate k Contig.empty /\ all_data used.
Proof. intros (used & k & -> & [Hd _] & _). by exists used, k. Qed.

(** Iteration does not overflow when the ranges fit [usize]. *)
Lemma iter_data_ok offset asm :
  wf asm -> (offset + Z.of_nat (span asm) <= USIZE_MAX)%Z ->
  exists rs, (forall p, find p (iter_data offset asm) = Ret (List.find p rs)) /\
    (forall i, present asm i = true <->
      exists l r, In (l, r) rs /\ (l <= offset + Z.of_nat i < r)%Z) /\
    exists it, next (iter_data offset asm) = Ret (it, head rs).
Proof.
  intros Hwf Hm. destruct (wf_used_part asm Hwf) as (used & k & -> & Hd).
  rewrite span_app, span_empties in Hm.
  exists (data_ranges offset used). split_and!.
  - intros p. unfold find, iter_data. cbn [it_assembler].
    pose proof (find_loop_ok p (S (length (used ++ replicate k Contig.empty))) [] used k
      offset 0 Hd) as Hf.
    change (span []) with 0 in Hf. unfold iter_at in Hf. cbn [app length] in Hf.
    rewrite Z.add_0_r in Hf. apply Hf; [rewrite length_app; lia | lia].
  - intros i. rewrite present_wf. by apply data_ranges_present.
  - destruct Hd as [|c used Hc Hd].
    + apply (next_none [] k offset 0).
    + rewrite span_cons in Hm. eexists.
      pose proof (next_some [] c used k offset 0 Hc) as Hn.
      change (span []) with 0 in Hn. unfold iter_at in Hn. cbn [app length] in Hn.
      rewrite Z.add_0_r in Hn. apply Hn. lia.
Qed.
End Iteration.

(** ** The properties of the assembler *)

Section Properties.
Implicit Types (asm : Assembler).

(** C31: [add] records exactly the new range: on success the set of recorded
    offsets is the old set plus the range, the invariant on the contig array
    holds and the span grows to the end of the range at most; it fails only when
    every contig is in use, and then it changes nothing.  It never panics. *)
Theorem assembler_add_records_range offset size asm :
  wf asm ->
  match add offset size asm with
  | Ret (asm', Ok _) =>
      wf asm' /\ length asm' = length asm /\
      (forall i, present asm' i = present asm i || in_range offset size i) /\
      span asm' <= span asm `max` (offset + size)
  | Ret (asm', Err _) => asm' = asm /\ Forall (fun c => 0 < data_size c) asm
  | Panic => False
  end.
Proof.
  intros Hwf. destruct (decide (size = 0)) as [->|Hs].
  - unfold add. rewrite Nat.eqb_refl. split_and!; try done; [|lia].
    intros i. unfold in_range. decide_tests; rewrite ?orb_false_r; done || lia.
  - pose proof (add_ok offset size asm Hwf ltac:(lia)) as H.
    destruct (add offset size asm) as [[asm' [[]|e]]|]; cbn in H; [| |done].
    + destruct H as (? & ? & ? & Hsp). split_and!; try done. lia.
    + by destruct H as (? & ? & ?).
Qed.

(** [add_then_remove_front] adds the range and hands out the longest
    contiguous run at the front of the union, shifting the rest down by its
    length; it never fails for the next expected segment (offset 0). *)
Theorem add_then_remove_front_hands_out_front offset size asm :
  wf asm ->
  match add_then_remove_front offset size asm with
  | Ret (asm', Ok n) =>
      wf asm' /\
      front_run (fun i => present asm i || in_range offset size i) n /\
      (forall i, present asm' i = present asm (n + i) || in_range offset size (n + i))
  | Ret (asm', Err _) => asm' = asm /\ 0 < offset
  | Panic => False
  end.
Proof.
  intros Hwf. pose proof (add_then_remove_front_ok offset size asm Hwf) as H.
  destruct (add_then_remove_front offset size asm) as [[asm' [n|e]]|]; cbn in H; [| |done].
  - by destruct H as (? & ? & ? & ? & ?).
  - by destruct H as (? & ? & ?).
Qed.

(** Iterating over the data ranges from [offset], without an overflow of
    [usize], finds the first range that satisfies the predicate among ranges
    that together cover exactly the recorded bytes. *)
Theorem iter_data_covers offset asm :
  wf asm -> (0 <= offset)%Z -> (offset + Z.of_nat (span asm) <= USIZE_MAX)%Z ->
  exists rs, (forall p, find p (iter_data offset asm) = Ret (List.find p rs)) /\
    forall i, present asm i = true <->
      exists l r, In (l, r) rs /\ (l <= offset + Z.of_nat i < r)%Z.
Proof.
  intros Hwf _ Hm. destruct (iter_data_ok offset asm Hwf Hm) as (rs & ? & ? & _). eauto.
Qed.
End Properties.

(** *** Witnesses *)

Definition sample : Assembler := [mkContig 2 2; mkContig 4 4; mkContig 2 1; Contig.empty].

Lemma sample_wf : wf sample.
Proof.
  exists [mkContig 2 2; mkContig 4 4; mkContig 2 1], 1. split_and!; [done| |cbn; lia].
  split; repeat constructor; cbn; lia.
Defined.

Lemma assembler_add_records_range_witness :
  add 4 8 sample = Ret ([mkContig 2 10; mkContig 2 1; Contig.empty; Contig.empty], Ok ()) /\
  forall i, present [mkContig 2 10; mkContig 2 1; Contig.empty; Contig.empty] i =
            present sample i || in_range 4 8 i.
Proof.
  split; [reflexivity|].
  exact (proj1 (proj2 (proj2 (assembler_add_records_range 4 8 sample sample_wf)))).
Defined.

Lemma add_then_remove_front_hands_out_front_witness :
  front_run (fun i => present sample i || in_range 0 2 i) 4.
Proof.
  exact (proj1 (proj2 (add_then_remove_front_hands_out_front 0 2 sample sample_wf))).
Defined.

Lemma iter_data_covers_witness :
  exists rs, find (fun '(l, r) => (15 <=? l)%Z) (iter_data 10 sample) = Ret (Some (18, 22)%Z) /\
    forall i, present sample i = true <->
        exists l r, In (l, r) rs /\ (l <= 10 + Z.of_nat i < r)%Z.
Proof.
  destruct (iter_data_covers 10 sample sample_wf ltac:(lia) ltac:(cbn; lia)) as (rs & _ & H).
  exists rs. split; [reflexivity|exact H].
Defined.
