(* ===== verification/PacketBuffer.v ===== *)
(** * The packet buffer (src/storage/packet_buffer.rs)

    Two ring buffers: one of packet descriptions, one of payload bytes.  A packet
    is stored contiguously; where it would cross the end of the payload storage,
    a description without a header (padding) covers the rest of the storage.

    The abstraction [packets] is the queue of headers and payloads.  A returned
    [&mut [u8]] is the start and the length of the slice in the payload
    storage. *)

From S2P Require Import Prelude RingBuffer.

Record PacketMetadata (H : Type) := mkMetadata {
  pm_size : nat;
  header : option H
}.
Arguments mkMetadata {H}.
Arguments pm_size {H}.
Arguments header {H}.

Record PacketBuffer (H : Type) := mkPacketBuffer {
  metadata_ring : RingBuffer (PacketMetadata H);
  payload_ring : RingBuffer Z
}.
Arguments mkPacketBuffer {H}.
Arguments metadata_ring {H}.
Arguments payload_ring {H}.

#[export] Instance eta_PacketMetadata {H} : Settable (PacketMetadata H) :=
  fun m => mkMetadata (pm_size m) (header m).
#[export] Instance eta_PacketBuffer {H} : Settable (PacketBuffer H) :=
  fun pb => mkPacketBuffer (metadata_ring pb) (payload_ring pb).

Section Operations.
Context {H : Type}.
Implicit Types (m : PacketMetadata H) (pb : PacketBuffer H).

Definition EMPTY : PacketMetadata H := mkMetadata 0 None.
Definition padding (size : nat) : PacketMetadata H := mkMetadata size None.
Definition packet (size : nat) (h : H) : PacketMetadata H := mkMetadata size (Some h).
Definition is_padding m : bool := match header m with None => true | Some _ => false end.

Definition new (metadata_storage : list (PacketMetadata H)) (payload_storage : list Z) :
    PacketBuffer H :=
  mkPacketBuffer (RingBuffer.new metadata_storage) (RingBuffer.new payload_storage).

Definition is_empty pb : bool := RingBuffer.is_empty (metadata_ring pb).
Definition is_full pb : bool := RingBuffer.is_full (metadata_ring pb).

(** [*self.metadata_ring.enqueue_one()? = m] *)
Definition push_metadata m pb : outcome (PacketBuffer H * result unit Full) :=
  '(ring, res) ← enqueue_one (metadata_ring pb);
  match res with
  | Err e => Ret (pb <| metadata_ring := ring |>, Err e)
  | Ok index => Ret (pb <| metadata_ring := assign index m ring |>, Ok ())
  end.

(** The part shared by the two enqueue operations: check that [size] bytes fit,
    and add padding to the end of the ring when they only fit at its
    beginning. *)
Definition make_contiguous (size : nat) pb : outcome (PacketBuffer H * result unit Full) :=
  let window := window (payload_ring pb) in
  let contig_window := contiguous_window (payload_ring pb) in
  if window <? size then Ret (pb, Err FullErr)
  else if contig_window <? size then
    if window - contig_window <? size then Ret (pb, Err FullErr)
    else
      '(pb, res) ← push_metadata (padding contig_window) pb;
      match res with
      | Err e => Ret (pb, Err e)
      | Ok _ =>
          '(ring, _) ← enqueue_many contig_window (payload_ring pb);
          Ret (pb <| payload_ring := ring |>, Ok ())
      end
  else Ret (pb, Ok ()).

Definition enqueue (size : nat) (h : H) pb :
    outcome (PacketBuffer H * result (nat * nat) Full) :=
  if (capacity (payload_ring pb) <? size) || is_full pb then Ret (pb, Err FullErr) else
  let pb := if RingBuffer.is_empty (payload_ring pb)
            then pb <| payload_ring ::= clear |> else pb in
  '(pb, res) ← make_contiguous size pb;
  match res with
  | Err e => Ret (pb, Err e)
  | Ok _ =>
      '(pb, res) ← push_metadata (packet size h) pb;
      match res with
      | Err e => Ret (pb, Err e)
      | Ok _ =>
          '(ring, (start, n)) ← enqueue_many size (payload_ring pb);
          _ ← rust_assert (n =? size);
          Ret (pb <| payload_ring := ring |>, Ok (start, n))
      end
  end.

(** [f] maps the slice it gets to the slice it leaves and the size it returns. *)
Definition enqueue_with_infallible (max_size : nat) (h : H) (f : list Z -> list Z * nat) pb :
    outcome (PacketBuffer H * result nat Full) :=
  if (capacity (payload_ring pb) <? max_size) || is_full pb then Ret (pb, Err FullErr) else
  '(pb, res) ← make_contiguous max_size pb;
  match res with
  | Err e => Ret (pb, Err e)
  | Ok _ =>
      '(ring, (size, _)) ← enqueue_many_with
        (fun data =>
           buf ← range data 0 max_size;
           let '(buf', size) := f buf in
           Ret (splice data 0 buf', (size, ()))) (payload_ring pb);
      let pb := pb <| payload_ring := ring |> in
      '(pb, res) ← push_metadata (packet size h) pb;
      match res with
      | Err e => Ret (pb, Err e)
      | Ok _ => Ret (pb, Ok size)
      end
  end.

(** The closure given to [dequeue_one_with] also updates the payload ring; the
    updated ring is part of its result. *)
Definition dequeue_padding pb : outcome (PacketBuffer H) :=
  '(ring, res) ← dequeue_one_with
    (fun m =>
       if is_padding m then
         '(payload, _) ← dequeue_many (pm_size m) (payload_ring pb);
         Ret (m, Ok payload)
       else Ret (m, Err ())) (metadata_ring pb);
  let pb := pb <| metadata_ring := ring |> in
  match res with
  | Ok (Ok payload) => Ret (pb <| payload_ring := payload |>)
  | _ => Ret pb
  end.

(** The closure [dequeue_with] hands to the payload ring.  [f] gets the header
    and the payload and returns what it leaves of them. *)
Definition with_payload {R E} (f : H -> list Z -> outcome (H * list Z * result R E)) m
    (payload_buf : list Z) : outcome (list Z * (nat * (H * result R E))) :=
  _ ← rust_assert (pm_size m <=? length payload_buf);
  h ← unwrap (header m);
  buf ← range payload_buf 0 (pm_size m);
  '(h', buf', res) ← f h buf;
  let size := match res with Ok _ => pm_size m | Err _ => 0 end in
  Ret (splice payload_buf 0 buf', (size, (h', res))).

Definition dequeue_with {R E} (f : H -> list Z -> outcome (H * list Z * result R E)) pb :
    outcome (PacketBuffer H * result (result R E) Empty) :=
  pb ← dequeue_padding pb;
  '(ring, res) ← dequeue_one_with
    (fun m =>
       '(payload, (_, (h', res))) ← dequeue_many_with (with_payload f m) (payload_ring pb);
       Ret (m <| header := Some h' |>,
            match res with Ok v => Ok (payload, v) | Err e => Err (payload, e) end))
    (metadata_ring pb);
  let pb := pb <| metadata_ring := ring |> in
  match res with
  | Ok (Ok (payload, v)) => Ret (pb <| payload_ring := payload |>, Ok (Ok v))
  | Ok (Err (payload, e)) => Ret (pb <| payload_ring := payload |>, Ok (Err e))
  | Err e => Ret (pb, Err e)
  end.

(** [meta.header.take()] leaves [None] in the slot that was dequeued. *)
Definition dequeue pb : outcome (PacketBuffer H * result (H * (nat * nat)) Empty) :=
  pb ← dequeue_padding pb;
  '(ring, res) ← dequeue_one (metadata_ring pb);
  let pb := pb <| metadata_ring := ring |> in
  match res with
  | Err e => Ret (pb, Err e)
  | Ok index =>
      meta ← unwrap (storage (metadata_ring pb) !! index);
      '(payload, (start, n)) ← dequeue_many (pm_size meta) (payload_ring pb);
      _ ← rust_assert (n =? pm_size meta);
      h ← unwrap (header meta);
      Ret (pb <| payload_ring := payload |>
              <| metadata_ring ::= assign index (meta <| header := None |>) |>,
           Ok (h, (start, n)))
  end.

Definition peek pb : outcome (PacketBuffer H * result (H * list Z) Empty) :=
  pb ← dequeue_padding pb;
  ms ← get_allocated 0 1 (metadata_ring pb);
  match ms with
  | m :: _ =>
      h ← unwrap (header m);
      buf ← get_allocated 0 (pm_size m) (payload_ring pb);
      Ret (pb, Ok (h, buf))
  | [] => Ret (pb, Err EmptyErr)
  end.

Definition packet_capacity pb : nat := capacity (metadata_ring pb).
Definition payload_capacity pb : nat := capacity (payload_ring pb).

Definition reset pb : PacketBuffer H :=
  pb <| payload_ring ::= clear |> <| metadata_ring ::= clear |>.
End Operations.

(** ** Abstraction and invariant *)

Section Abstraction.
Context {H : Type}.
Implicit Types (m : PacketMetadata H) (ms : list (PacketMetadata H)) (pb : PacketBuffer H)
  (r : RingBuffer Z).

(** The packets described by [ms] when their bytes are [bytes]. *)
Fixpoint packets_of ms (bytes : list Z) : list (H * list Z) :=
  match ms with
  | [] => []
  | m :: ms =>
      let rest := packets_of ms (drop (pm_size m) bytes) in
      match header m with
      | Some h => (h, take (pm_size m) bytes) :: rest
      | None => rest
      end
  end.

Definition packets pb : list (H * list Z) :=
  packets_of (contents (metadata_ring pb)) (contents (payload_ring pb)).

(** The descriptions cover the queue from [pos] to [stop]: packets do not cross
    the end of the storage, padding is not empty and, if nothing follows it, reaches it. *)
Fixpoint layout r (pos : nat) ms (stop : nat) : Prop :=
  match ms with
  | [] => pos = stop
  | m :: ms =>
      contiguous r pos (pm_size m) /\
      (header m = None -> 0 < pm_size m /\ (ms = [] -> get_idx r pos + pm_size m = capacity r)) /\
      layout r (pos + pm_size m) ms stop
  end.

(** [dequeue_padding] removes one padding only: there are never two in a row. *)
Fixpoint no_double_padding ms : Prop :=
  match ms with
  | m1 :: ((m2 :: _) as ms') =>
      (header m1 = None -> header m2 <> None) /\ no_double_padding ms'
  | _ => True
  end.

Record pb_wf pb : Prop := {
  pb_metadata : wf (metadata_ring pb);
  pb_payload : wf (payload_ring pb);
  pb_layout : layout (payload_ring pb) 0 (contents (metadata_ring pb))
                (rb_length (payload_ring pb));
  pb_padding : no_double_padding (contents (metadata_ring pb))
}.

Definition total ms : nat := sum_list (pm_size <$> ms).
End Abstraction.

Section Lemmas.
Context {H : Type}.
Implicit Types (m : PacketMetadata H) (ms : list (PacketMetadata H)) (pb : PacketBuffer H)
  (r : RingBuffer Z).

Lemma layout_app r pos ms1 ms2 mid stop :
  layout r pos ms1 mid -> layout r mid ms2 stop -> layout r pos (ms1 ++ ms2) stop.
Proof.
  revert pos. induction ms1 as [|m ms1 IH]; intros pos; cbn; [by intros ->|].
  intros (? & Hp & ?) ?. split_and!; auto.
  intros [? He]%Hp. split; [done|]. intros [-> _]%app_nil. by apply He.
Qed.

Lemma layout_total r pos ms stop : layout r pos ms stop -> stop = pos + total ms.
Proof.
  revert pos. induction ms as [|m ms IH]; intros pos; cbn; [lia|].
  intros (_ & _ & Hl%IH). unfold total in *. cbn. lia.
Qed.

Lemma layout_ext r r' pos ms stop :
  capacity r' = capacity r -> read_at r' = read_at r ->
  layout r pos ms stop -> layout r' pos ms stop.
Proof.
  intros Hc Hr. revert pos. induction ms as [|m ms IH]; intros pos; cbn; [done|].
  unfold contiguous. rewrite (get_idx_ext r' r), Hc by done. naive_solver.
Qed.

(** Nothing but empty packets: the position of the ring does not matter. *)
Lemma layout_empty r r' ms :
  wf r' -> layout r 0 ms 0 -> layout r' 0 ms 0.
Proof.
  intros Hwf Hl. pose proof (layout_total _ _ _ _ Hl) as Ht.
  assert (get_idx r' 0 <= capacity r') as Hg by (apply get_idx_le; [done|lia]).
  revert Hl Ht. induction ms as [|m ms IH]; [done|]. unfold total in *. cbn.
  intros (Hc & Hp & Hl) Ht. assert (pm_size m = 0) as Hm by lia.
  rewrite Hm in *. unfold contiguous. split_and!; try lia.
  - intros Hn. destruct (Hp Hn). lia.
  - apply IH; [done|lia].
Qed.

(** Removing a prefix of the queue shifts the layout. *)
Lemma layout_advance r r' n k ms stop :
  wf r -> read_at r' = get_idx r n -> capacity r' = capacity r -> stop <= capacity r ->
  layout r (n + k) ms stop -> layout r' k ms (stop - n).
Proof.
  intros Hwf Hra Hc Hs. revert k. induction ms as [|m ms IH]; intros k; cbn; [lia|].
  intros (Hct & Hp & Hl). pose proof (layout_total _ _ _ _ Hl) as Ht.
  pose proof (get_idx_advance r r' n k Hwf Hra Hc ltac:(lia)) as Hi.
  unfold contiguous in *. rewrite Hi, Hc. split_and!; try lia; [naive_solver|].
  apply IH. by rewrite Nat.add_assoc.
Qed.

Lemma packets_of_app ms1 ms2 (b1 b2 : list Z) :
  total ms1 = length b1 ->
  packets_of (ms1 ++ ms2) (b1 ++ b2) = packets_of ms1 b1 ++ packets_of ms2 b2.
Proof.
  revert b1. induction ms1 as [|m ms1 IH]; intros b1 Hb; unfold total in *; cbn in *.
  - symmetry in Hb. apply nil_length_inv in Hb as ->. done.
  - rewrite drop_app_le, take_app_le, IH by (rewrite ?length_drop; lia).
    by destruct (header m).
Qed.

Lemma no_double_app ms m :
  no_double_padding ms ->
  (header m = None -> forall m', list.last ms = Some m' -> header m' <> None) ->
  no_double_padding (ms ++ [m]).
Proof.
  induction ms as [|m1 ms IH]; [done|]. destruct ms as [|m2 ms]; cbn in *.
  - intros _ Hm. split; [|done]. intros H1 H2. by apply (Hm H2 m1).
  - intros [H1 H2] Hm. split; [done|]. by apply IH.
Qed.

Lemma no_double_tail m ms : no_double_padding (m :: ms) -> no_double_padding ms.
Proof. destruct ms; [done|]. by intros [_ ?]. Qed.

(** After a padding at the end of the queue the free space starts at the
    beginning of the storage, so that no second padding is needed. *)
Lemma layout_last_padding r pos ms stop m :
  wf r -> stop <= capacity r ->
  layout r pos ms stop -> list.last ms = Some m -> header m = None -> get_idx r stop = 0.
Proof.
  intros Hwf Hs. revert pos. induction ms as [|m1 ms IH]; intros pos Hl Hlast Hm; [done|].
  destruct Hl as (Hc & Hp & Hl). destruct ms as [|m2 ms].
  - cbn in *. injection Hlast as ->. subst stop. destruct (Hp Hm) as [Hpos Hend]. specialize (Hend eq_refl).
    replace (pm_size m) with (capacity r - get_idx r pos) by lia.
    apply get_idx_wrap; [done|]. unfold contiguous in Hc. lia.
  - by apply (IH (pos + pm_size m1)).
Qed.
End Lemmas.

(** ** The operations on the queue of packets *)

Section Specifications.
Context {H : Type}.
Implicit Types (m : PacketMetadata H) (ms : list (PacketMetadata H)) (pb : PacketBuffer H)
  (r : RingBuffer Z).

Lemma push_metadata_ok m pb :
  wf (metadata_ring pb) ->
  (is_full pb = true -> push_metadata m pb = Ret (pb, Err FullErr)) /\
  (is_full pb = false -> exists ring,
     push_metadata m pb = Ret (pb <| metadata_ring := ring |>, Ok ()) /\
     wf ring /\ contents ring = contents (metadata_ring pb) ++ [m] /\
     capacity ring = capacity (metadata_ring pb)).
Proof.
  intros Hwf. unfold push_metadata, is_full. split; intros Hf.
  - rewrite enqueue_one_full by done. by destruct pb.
  - rewrite enqueue_one_ok by done.
    destruct (enqueue_one_assign_ok _ m Hwf Hf) as (ring & Hr & ? & ? & ? & ?).
    exists ring. cbn -[assign]. by rewrite Hr.
Qed.

Lemma payload_total pb :
  pb_wf pb -> total (contents (metadata_ring pb)) = length (contents (payload_ring pb)).
Proof.
  intros [_ Hp Hl _]. rewrite length_contents by done. by apply layout_total in Hl.
Qed.

(** The payload ring has no pending reset of [read_at]. *)
Definition settled r : Prop := prepared r = r.

Lemma settled_nonempty r : 0 < rb_length r -> settled r.
Proof. intros. unfold settled, prepared. by rewrite (proj2 (Nat.eqb_neq _ _)) by lia. Qed.

(** Appending one description and its bytes to the two rings. *)
Lemma append_wf pb m ring r' data :
  pb_wf pb -> wf ring -> contents ring = contents (metadata_ring pb) ++ [m] ->
  wf r' -> capacity r' = capacity (payload_ring pb) ->
  read_at r' = read_at (payload_ring pb) ->
  contents r' = contents (payload_ring pb) ++ data -> length data = pm_size m ->
  contiguous (payload_ring pb) (rb_length (payload_ring pb)) (pm_size m) ->
  (header m = None ->
     0 < pm_size m /\
     get_idx (payload_ring pb) (rb_length (payload_ring pb)) + pm_size m
       = capacity (payload_ring pb) /\
     get_idx (payload_ring pb) (rb_length (payload_ring pb)) <> 0) ->
  pb_wf (mkPacketBuffer ring r') /\
  packets (mkPacketBuffer ring r') =
    packets pb ++ match header m with Some h => [(h, data)] | None => [] end.
Proof.
  intros Hpb Hring Hc Hr' Hcap Hra Hcr Hd Hcg Hpad. pose proof Hpb as [Hm Hp Hl Hnd].
  assert (rb_length r' = rb_length (payload_ring pb) + pm_size m) as Hlen.
  { rewrite <-!length_contents, Hcr, length_app by done. lia. }
  split; [split; cbn|unfold packets; cbn].
  - done.
  - done.
  - rewrite Hc, Hlen. apply (layout_ext (payload_ring pb)); [done..|].
    eapply layout_app; [exact Hl|]. cbn. split_and!; [done| |done].
    intros Hn. by destruct (Hpad Hn) as (? & ? & ?).
  - rewrite Hc. apply no_double_app; [done|]. intros Hn m' Hlast Hm'.
    destruct (Hpad Hn) as (_ & _ & Hz). apply Hz.
    eapply layout_last_padding; try done. apply Hp.
  - rewrite Hc, Hcr, packets_of_app by (by apply payload_total). f_equal. cbn.
    rewrite take_ge by lia. done.
Qed.

(** The invariant does not see that an empty payload ring is cleared. *)
Lemma clear_payload_wf pb :
  pb_wf pb -> RingBuffer.is_empty (payload_ring pb) = true ->
  let pb' := pb <| payload_ring ::= clear |> in
  pb_wf pb' /\ packets pb' = packets pb.
Proof.
  intros [Hm Hp Hl Hnd] He pb'. apply ring_is_empty_spec in He.
  assert (contents (payload_ring pb) = []) as Hc
    by (apply nil_length_inv; by rewrite length_contents).
  rewrite He in Hl. split; [split; cbn|].
  - done.
  - apply clear_wf.
  - eapply layout_empty; [apply clear_wf|exact Hl].
  - done.
  - unfold packets, pb'. cbn [set_field payload_ring metadata_ring].
    by rewrite contents_clear, Hc.
Qed.

Lemma make_contiguous_ok size pb :
  pb_wf pb -> settled (payload_ring pb) -> is_full pb = false -> exists pb' res,
    make_contiguous size pb = Ret (pb', res) /\ pb_wf pb' /\ packets pb' = packets pb /\
    settled (payload_ring pb') /\
    capacity (metadata_ring pb') = capacity (metadata_ring pb) /\
    capacity (payload_ring pb') = capacity (payload_ring pb) /\
    (res = Ok () -> size <= contiguous_window (payload_ring pb')).
Proof.
  intros Hpb Hs Hf. unfold make_contiguous.
  destruct (Nat.ltb_spec (window (payload_ring pb)) size) as [Hw|Hw]; [by exists pb, (Err FullErr)|].
  destruct (Nat.ltb_spec (contiguous_window (payload_ring pb)) size) as [Hcw|Hcw];
    [|by exists pb, (Ok ())].
  destruct (Nat.ltb_spec (window (payload_ring pb) - contiguous_window (payload_ring pb)) size)
    as [Hd|Hd]; [by exists pb, (Err FullErr)|].
  pose proof Hpb as [Hm Hp Hl Hnd]. set (r := payload_ring pb) in *.
  destruct (push_metadata_ok (padding (contiguous_window r)) pb Hm) as [_ Hpush].
  destruct (Hpush Hf) as (ring & -> & Hring & Hcring & Hcapm). cbn [mbind outcome_bind].
  destruct (contiguous_window_spec r Hp) as [Hcg Hle].
  assert (contiguous_window r = capacity r - get_idx r (rb_length r)) as Hend
    by (unfold contiguous_window in *; lia).
  assert (0 < capacity r) as Hcap by (unfold window in *; lia).
  pose proof (get_idx_lt r (rb_length r) Hp (proj1 Hp) Hcap) as Hlt.
  assert (0 < get_idx r (rb_length r)) as Hz by (unfold window in *; lia).
  destruct (enqueue_many_ok (contiguous_window r) r Hp) as (r' & He & Hwf' & Hcap' & Hlen' & Hra' & Hst');
    [by rewrite Hs|]. cbn zeta in He. cbn [set_field payload_ring].
  fold r. rewrite He. cbn [mbind outcome_bind]. rewrite Hs in Hra'.
  exists (mkPacketBuffer ring r'), (Ok ()). split; [done|].
  set (data := slice (storage r) (get_idx r (rb_length r)) (contiguous_window r)).
  assert (length data = contiguous_window r) as Hdl
    by (unfold data; rewrite length_slice; unfold capacity in *; lia).
  destruct (enqueued_contents r r' data Hp) as (Hw1 & Hw2 & Hw3);
    rewrite ?Hs, ?Hdl; try done; [lia..|].
  rewrite Hs in Hw1, Hw2, Hw3.
  assert (r' <| storage ::= fun st => splice st (get_idx r (rb_length r)) data |> = r') as Hr'.
  { unfold data. rewrite <-Hst'. apply write_back. lia. }
  rewrite Hr' in *.
  destruct (append_wf pb (padding (contiguous_window r)) ring r' data) as [Hwfa Hpk]; try done.
  { intros _. cbn. fold r. lia. }
  split_and!; [done|by rewrite Hpk, app_nil_r| |done|done|].
  - apply settled_nonempty. cbn. lia.
  - intros _. cbn [set_field payload_ring].
    rewrite (contiguous_window_wrapped r r'); try done; [|unfold window in *; lia].
    unfold window, len in *. rewrite Hcap', Hlen'. lia.
Qed.

(** Writing [data] through the reference returned by [enqueue]. *)
Definition write_payload (start : nat) (data : list Z) pb : PacketBuffer H :=
  pb <| payload_ring ::= fun r => r <| storage ::= fun st => splice st start data |> |>.

(** [buf.copy_from_slice(data)], for the slice [buf] that [enqueue] returned. *)
Definition copy_from_slice (buf : nat * nat) (data : list Z) pb : outcome (PacketBuffer H) :=
  _ ← rust_assert (buf.2 =? length data);
  Ret (write_payload buf.1 data pb).

Definition enqueue_post (size : nat) (h : H) pb (out : PacketBuffer H * result (nat * nat) Full) :
    Prop :=
  match out with
  | (pb', Err _) => pb_wf pb' /\ packets pb' = packets pb
  | (pb', Ok (start, n)) => n = size /\ forall data, length data = size ->
      let pb'' := write_payload start data pb' in
      pb_wf pb'' /\ packets pb'' = packets pb ++ [(h, data)]
  end.

(** The second half of [enqueue]: the description and the bytes. *)
Lemma enqueue_packet_ok size h pb :
  pb_wf pb -> settled (payload_ring pb) -> size <= contiguous_window (payload_ring pb) ->
  exists out,
    ('(pb, res) ← push_metadata (packet size h) pb;
     match res with
     | Err e => Ret (pb, Err e)
     | Ok _ =>
         '(ring, (start, n)) ← enqueue_many size (payload_ring pb);
         _ ← rust_assert (n =? size);
         Ret (pb <| payload_ring := ring |>, Ok (start, n))
     end) = Ret out /\ enqueue_post size h pb out /\
    (is_full pb = false -> is_ok out.2 = true).
Proof.
  intros Hpb Hs Hcw. pose proof Hpb as [Hm Hp Hl Hnd].
  destruct (push_metadata_ok (packet size h) pb Hm) as [Hfull Hpush].
  destruct (is_full pb) eqn:Hf.
  { rewrite Hfull by done. by exists (pb, Err FullErr). }
  destruct (Hpush Logic.eq_refl) as (ring & -> & Hring & Hcring & Hcapm).
  cbn [mbind outcome_bind set_field payload_ring].
  destruct (enqueue_many_ok size (payload_ring pb) Hp) as (r' & He & Hwf' & Hcap' & Hlen' & Hra' & Hst');
    [by rewrite Hs|]. cbn zeta in He. rewrite Hs in He, Hra'. rewrite He.
  cbn [mbind outcome_bind]. rewrite Nat.eqb_refl. cbn [rust_assert mbind outcome_bind].
  eexists. split; [done|]. split; [|done]. split; [done|]. intros data Hd.
  destruct (contiguous_window_spec _ Hp) as [[Hc1 Hc2] Hle].
  destruct (enqueued_contents (payload_ring pb) r' data Hp) as (Hw1 & Hw2 & Hw3);
    rewrite ?Hs, ?Hd; try done; [lia..|].
  rewrite Hs in Hw1, Hw2, Hw3. eapply (append_wf pb (packet size h)); try done.
  cbn. split; lia.
Qed.

Lemma enqueue_ok size h pb :
  pb_wf pb -> exists out, enqueue size h pb = Ret out /\ enqueue_post size h pb out.
Proof.
  intros Hpb. unfold enqueue. destruct (_ || is_full pb) eqn:Hg.
  { by exists (pb, Err FullErr). }
  apply orb_false_iff in Hg as [_ Hf].
  set (pb1 := if RingBuffer.is_empty (payload_ring pb)
              then pb <| payload_ring ::= clear |> else pb).
  assert (pb_wf pb1 /\ packets pb1 = packets pb /\ settled (payload_ring pb1) /\
          is_full pb1 = false) as (Hpb1 & Hpk1 & Hs1 & Hf1).
  { subst pb1. destruct (RingBuffer.is_empty (payload_ring pb)) eqn:He.
    - destruct (clear_payload_wf pb Hpb He) as [??]. done.
    - split_and!; try done. apply settled_nonempty. apply Nat.eqb_neq in He.
      unfold len in He. lia. }
  destruct (make_contiguous_ok size pb1 Hpb1 Hs1 Hf1)
    as (pb2 & res & -> & Hpb2 & Hpk2 & Hs2 & _ & _ & Hcw). cbn [mbind outcome_bind].
  rewrite Hpk1 in Hpk2. destruct res as [[]|e]; [|by exists (pb2, Err e)].
  destruct (enqueue_packet_ok size h pb2 Hpb2 Hs2 (Hcw Logic.eq_refl)) as (out & -> & Hpost & _).
  exists out. split; [done|]. unfold enqueue_post in *. by rewrite Hpk2 in Hpost.
Qed.

(** Appending a packet through the slice [enqueue] returns. *)
Lemma enqueue_copy_ok data (h : H) pb :
  pb_wf pb -> exists pb' res, enqueue (length data) h pb = Ret (pb', res) /\
    match res with
    | Ok buf => exists pb'', copy_from_slice buf data pb' = Ret pb'' /\ pb_wf pb'' /\
                  packets pb'' = packets pb ++ [(h, data)]
    | Err _ => pb_wf pb' /\ packets pb' = packets pb
    end.
Proof.
  intros Hwf. destruct (enqueue_ok (length data) h pb Hwf) as ([pb' [[start n]|e]] & He & Hpost).
  - exists pb', (Ok (start, n)). split; [done|]. destruct Hpost as [-> Hw].
    destruct (Hw data eq_refl). unfold copy_from_slice. cbn [snd fst]. rewrite Nat.eqb_refl. by eexists.
  - by exists pb', (Err e).
Qed.

(** *** Enqueueing with a closure *)

(** [enqueue_with_infallible] loses a packet when padding takes the last description. *)
Definition loses_packet (max_size : nat) pb : bool :=
  (window (metadata_ring pb) =? 1) && (contiguous_window (payload_ring pb) <? max_size).

Lemma contiguous_window_prepared r : wf r -> contiguous_window r <= contiguous_window (prepared r).
Proof.
  intros Hwf. destruct (prepared_frame r) as (Hcap & Hlen & Hw & _). unfold contiguous_window in *. rewrite Hw, Hcap.
  unfold prepared in *. destruct (Nat.eqb_spec (rb_length r) 0) as [H0|]; [|done].
  change (rb_length (r <| read_at := 0 |>)) with (rb_length r). rewrite H0.
  assert (get_idx (r <| read_at := 0 |>) 0 = 0) as -> by (unfold get_idx; cbn; case_match; [apply Nat.Div0.mod_0_l|done]). lia.
Qed.

(** The payload ring may be positioned anew while it is empty. *)
Lemma prepared_pb_wf pb :
  pb_wf pb -> pb_wf (pb <| payload_ring ::= prepared |>) /\ packets (pb <| payload_ring ::= prepared |>) = packets pb.
Proof.
  intros Hpb. destruct (Nat.eqb_spec (rb_length (payload_ring pb)) 0) as [H0|H0].
  - replace (pb <| payload_ring ::= prepared |>) with (pb <| payload_ring ::= clear |>).
    + apply clear_payload_wf; [done|]. by apply ring_is_empty_spec.
    + unfold set_field, prepared, clear. by destruct pb as [m [st ra len]]; cbn in *; subst.
  - replace (pb <| payload_ring ::= prepared |>) with pb; [done|].
    destruct pb as [m r]. unfold set_field, prepared. cbn in *. by rewrite (proj2 (Nat.eqb_neq _ _)).
Qed.

Lemma layout_padding r pos ms stop : layout r pos ms stop -> Forall (fun m => header m = None -> 0 < pm_size m) ms.
Proof.
  revert pos. induction ms as [|m ms IH]; intros pos; cbn; [done|]. intros (_ & Hp & Hl). constructor; [|by eapply IH].
  intros Hm. by destruct (Hp Hm).
Qed.

(** Where padding is needed, the last description is not padding. *)
Lemma no_trailing_padding pb m :
  pb_wf pb -> contiguous_window (payload_ring pb) < window (payload_ring pb) ->
  list.last (contents (metadata_ring pb)) = Some m -> header m <> None.
Proof.
  intros [_ Hp Hl _] Hcw Hlast Hm. destruct (decide (rb_length (payload_ring pb) = 0)) as [H0|H0].
  - apply layout_total in Hl as Ht. apply layout_padding in Hl. apply last_Some in Hlast as [ms' Hms]. rewrite Hms in *.
    apply Forall_app in Hl as [_ Hl]. apply Forall_inv in Hl. specialize (Hl Hm). unfold total in Ht.
    rewrite fmap_app, sum_list_with_app in Ht. cbn in Ht. lia.
  - pose proof (layout_last_padding _ _ _ _ _ Hp (proj1 Hp) Hl Hlast Hm) as Hi.
    unfold contiguous_window, window, len in *. rewrite Hi in Hcw. lia.
Qed.

(** Appending descriptions and their bytes to the two rings. *)
Lemma append_many_wf pb ms ring r' data :
  pb_wf pb -> wf ring -> contents ring = contents (metadata_ring pb) ++ ms ->
  wf r' -> capacity r' = capacity (payload_ring pb) -> read_at r' = read_at (payload_ring pb) ->
  contents r' = contents (payload_ring pb) ++ data ->
  layout (payload_ring pb) (rb_length (payload_ring pb)) ms (rb_length (payload_ring pb) + length data) ->
  no_double_padding (contents (metadata_ring pb) ++ ms) ->
  pb_wf (mkPacketBuffer ring r') /\ packets (mkPacketBuffer ring r') = packets pb ++ packets_of ms data.
Proof.
  intros Hpb Hring Hc Hr' Hcap Hra Hcr Hms Hnd. pose proof Hpb as [Hm Hp Hl _].
  split; [split; cbn|unfold packets; cbn].
  - done.
  - done.
  - rewrite Hc. replace (rb_length r') with (rb_length (payload_ring pb) + length data).
    + apply (layout_ext (payload_ring pb)); [done..|]. by eapply layout_app.
    + rewrite <-!length_contents, Hcr, length_app by done. done.
  - by rewrite Hc.
  - rewrite Hc, Hcr, packets_of_app by (by apply payload_total). done.
Qed.

(** The closure writes [data] to the beginning of the slice it is given. *)
Lemma closure_enqueue_ok max_size (data : list Z) r :
  wf r -> length data <= max_size -> max_size <= contiguous_window (prepared r) ->
  exists r', enqueue_many_with
      (fun buf => b ← range buf 0 max_size; let '(b', size) := (splice b 0 data, length data) in Ret (splice buf 0 b', (size, ()))) r =
      Ret (r', (length data, ())) /\ wf r' /\ capacity r' = capacity r /\ contents r' = contents r ++ data /\
    read_at r' = read_at (prepared r).
Proof.
  intros Hwf Hd Hmax. destruct (contiguous_window_spec _ (prepared_wf r Hwf)) as [[Hc1 Hc2] Hle].
  destruct (prepared_frame r) as (Hcap & Hlen & _). rewrite Hlen in *.
  set (buf := slice (view (prepared r)) (rb_length r) (contiguous_window (prepared r))).
  assert (length buf = contiguous_window (prepared r)) as Hb by (unfold buf; rewrite length_slice, length_view; lia).
  set (b := slice buf 0 max_size). assert (length b = max_size) as Hbl by (unfold b; rewrite length_slice; lia).
  assert (length (splice b 0 data) = max_size) as Hs by (rewrite length_splice; lia).
  edestruct (enqueue_many_with_spec (fun buf => b ← range buf 0 max_size;
      let '(b', size) := (splice b 0 data, length data) in Ret (splice buf 0 b', (size, ())))
    r (splice buf 0 (splice b 0 data)) (length data) ()) as (r' & Hr & Hwf' & Hcap' & Hcont & _ & Hra); try done.
  - rewrite length_splice; lia.
  - fold buf. rewrite range_Ret by lia. cbn [mbind outcome_bind]. by rewrite Nat.sub_0_r.
  - lia.
  - exists r'. split_and!; try done. rewrite Hcont. f_equal. rewrite !take_splice_0 by lia. by rewrite take_ge.
Qed.

Lemma padding_enqueued c r :
  wf r -> c <= contiguous_window (prepared r) ->
  exists r1 pad start, enqueue_many c r = Ret (r1, (start, c)) /\ wf r1 /\ capacity r1 = capacity r /\
    read_at r1 = read_at (prepared r) /\ contents r1 = contents r ++ pad /\ length pad = c.
Proof.
  intros Hwf Hc. destruct (enqueue_many_ok c r Hwf Hc) as (r1 & He & Hwf1 & Hcap1 & Hlen1 & Hra1 & Hst1). cbn zeta in He.
  destruct (contiguous_window_spec _ (prepared_wf r Hwf)) as [[Hc1 Hc2] Hle].
  destruct (prepared_frame r) as (Hcap0 & Hlen0 & _). rewrite Hlen0 in *.
  set (data := slice (storage r) (get_idx (prepared r) (rb_length r)) c).
  assert (length data = c) as Hdl by (unfold data; rewrite length_slice; unfold capacity in *; lia).
  destruct (enqueued_contents r r1 data Hwf) as (Hw1 & Hw2 & Hw3); rewrite ?Hdl; try done; [lia..|].
  assert (r1 <| storage ::= fun st => splice st (get_idx (prepared r) (rb_length r)) data |> = r1) as Hr1.
  { unfold data. rewrite <-Hst1. apply write_back. lia. }
  rewrite Hr1 in *. by exists r1, data, (get_idx (prepared r) (rb_length r)).
Qed.

(** After the padding the free octets are in one piece, in an empty ring from the
    beginning of the storage on. *)
Lemma padded_window c r r1 :
  wf r -> c = contiguous_window r -> c < window r -> wf r1 -> capacity r1 = capacity r ->
  read_at r1 = read_at (prepared r) -> rb_length r1 = rb_length r + c ->
  0 < c /\ contiguous_window r1 = window r - c.
Proof.
  intros Hwf Hc Hlt Hwf1 Hcap Hra Hlen.
  assert (0 < capacity r) as Hpos by (unfold window in *; lia).
  pose proof (get_idx_lt r (rb_length r) Hwf (proj1 Hwf) Hpos) as Hidx.
  assert (c = capacity r - get_idx r (rb_length r)) as Hend by (unfold contiguous_window in *; lia).
  split; [lia|]. replace (window r - c) with (window r1) by (unfold window, len in *; lia).
  unfold prepared in Hra. destruct (Nat.eqb_spec (rb_length r) 0) as [H0|H0].
  - cbn in Hra. unfold contiguous_window. rewrite get_idx_cases by (done || unfold window, len in *; lia).
    rewrite Hra, Hlen, H0. unfold window, len in *. rewrite (proj2 (Nat.ltb_lt _ _)) by lia. lia.
  - apply (contiguous_window_wrapped r r1); try done; lia.
Qed.

(** What [enqueue_with_infallible] does when padding is needed. *)
Lemma enqueue_with_padded max_size (h : H) (data : list Z) pb :
  pb_wf pb -> length data <= max_size -> is_full pb = false -> window (metadata_ring pb) <> 1 ->
  contiguous_window (payload_ring pb) < max_size ->
  contiguous_window (payload_ring pb) + max_size <= window (payload_ring pb) ->
  exists pb', enqueue_with_infallible max_size h (fun buf => (splice buf 0 data, length data)) pb =
      Ret (pb', Ok (length data)) /\ pb_wf pb' /\ packets pb' = packets pb ++ [(h, data)].
Proof.
  intros Hpb Hd Hf H1 Hcw Hw. pose proof Hpb as [Hm Hp Hl Hnd].
  destruct (prepared_pb_wf pb Hpb) as [Hpb0 Hpk0]. set (r := payload_ring pb) in *. set (c := contiguous_window r) in *.
  pose proof (contiguous_window_prepared r Hp) as Hcp. destruct (prepared_frame r) as (Hcap0 & Hlen0 & Hw0 & Hcont0).
  destruct (push_metadata_ok (padding c) pb Hm) as [_ Hpush1]. destruct (Hpush1 Hf) as (ring1 & Hp1 & Hring1 & Hcr1 & Hcap1).
  destruct (padding_enqueued c r Hp Hcp) as (r1 & pad & start & He & Hr1 & Hcapr1 & Hra1 & Hcont1 & Hpad).
  assert (rb_length r1 = rb_length r + c) as Hlen1 by (rewrite <-!length_contents, Hcont1, length_app by done; lia).
  destruct (padded_window c r r1) as [Hc0 Hcw1]; try done; [unfold c in *; lia|].
  assert (prepared r1 = r1) as Hprep1 by (apply settled_nonempty; lia).
  destruct (closure_enqueue_ok max_size data r1 Hr1 Hd) as (r2 & He2 & Hr2 & Hcap2 & Hcont2 & Hra2); [rewrite Hprep1; lia|].
  rewrite Hprep1 in Hra2.
  destruct (push_metadata_ok (packet (length data) h) (mkPacketBuffer ring1 r2) Hring1) as [_ Hpush2].
  destruct Hpush2 as (ring2 & Hp2 & Hring2 & Hcr2 & _).
  { apply Nat.eqb_neq in Hf. apply Nat.eqb_neq. cbn [metadata_ring]. unfold window, len in *.
    rewrite Hcap1, <-(length_contents ring1), Hcr1, length_app, length_contents by done. cbn. lia. }
  exists (mkPacketBuffer ring2 r2). split.
  - unfold enqueue_with_infallible, make_contiguous. rewrite Hf. fold r. fold c.
    rewrite (proj2 (Nat.ltb_ge (capacity r) _)) by (unfold window in *; lia). cbn [orb].
    rewrite (proj2 (Nat.ltb_ge (window r) _)), (proj2 (Nat.ltb_lt c _)), (proj2 (Nat.ltb_ge (window r - c) _)) by lia.
    rewrite Hp1. cbn [mbind outcome_bind set_field payload_ring]. fold r. rewrite He. cbn [mbind outcome_bind set_field payload_ring].
    rewrite He2. cbn [mbind outcome_bind]. match goal with |- context [push_metadata _ ?x] => change x with (mkPacketBuffer ring1 r2) end.
    by rewrite Hp2.
  - rewrite <-Hpk0. destruct (contiguous_window_spec _ (prepared_wf r Hp)) as [[Hx1 Hx2] _].
    destruct (contiguous_window_spec _ Hr1) as [[Hy1 Hy2] _]. rewrite Hlen1 in Hy1, Hy2. rewrite Hlen0 in Hx1, Hx2.
    assert (get_idx r1 (rb_length r + c) = get_idx (prepared r) (rb_length r + c)) as Hidx
      by (apply get_idx_ext; congruence).
    destruct (append_many_wf (pb <| payload_ring ::= prepared |>) [padding c; packet (length data) h] ring2 r2 (pad ++ data))
      as [Hwf Hpk]; try done; cbn [set_field payload_ring metadata_ring]; fold r.
    + rewrite Hcr2. cbn [metadata_ring]. by rewrite Hcr1, <-app_assoc.
    + congruence.
    + congruence.
    + rewrite Hcont2, Hcont1, Hcont0. by rewrite app_assoc.
    + rewrite Hlen0, length_app. cbn [layout pm_size padding packet header]. unfold contiguous.
      rewrite <-Hidx, Hcap0. split_and!; try done; try lia.
    + change [padding c; packet (length data) h] with ([padding c] ++ [packet (length data) h]). rewrite app_assoc.
      apply no_double_app; [|done]. apply no_double_app; [done|]. intros _ m'. apply no_trailing_padding; [done|]. fold r. fold c. lia.
    + split; [done|]. rewrite Hpk. f_equal. cbn. rewrite drop_app_length' by done. by rewrite take_ge.
Qed.

Lemma enqueue_with_ok max_size (h : H) (data : list Z) pb :
  pb_wf pb -> length data <= max_size -> loses_packet max_size pb = false ->
  exists pb' res, enqueue_with_infallible max_size h (fun buf => (splice buf 0 data, length data)) pb = Ret (pb', res) /\
    pb_wf pb' /\ packets pb' = if is_ok res then packets pb ++ [(h, data)] else packets pb.
Proof.
  intros Hpb Hd Hlose.
  destruct (decide (is_full pb = false /\ contiguous_window (payload_ring pb) < max_size /\
    contiguous_window (payload_ring pb) + max_size <= window (payload_ring pb))) as [(Hf & Hcw & Hw)|Hn].
  { unfold loses_packet in Hlose. rewrite (proj2 (Nat.ltb_lt _ _)), andb_true_r in Hlose by done. apply Nat.eqb_neq in Hlose.
    destruct (enqueue_with_padded max_size h data pb) as (pb' & -> & ? & ?); try done. by exists pb', (Ok (length data)). }
  unfold enqueue_with_infallible. destruct (_ || is_full pb) eqn:Hg; [by exists pb, (Err FullErr)|].
  apply orb_false_iff in Hg as [_ Hf]. unfold make_contiguous.
  destruct (Nat.ltb_spec (window (payload_ring pb)) max_size) as [Hw|Hw]; [by exists pb, (Err FullErr)|].
  destruct (Nat.ltb_spec (contiguous_window (payload_ring pb)) max_size) as [Hcw|Hcw].
  - rewrite (proj2 (Nat.ltb_lt _ _)); [by exists pb, (Err FullErr)|].
    apply Nat.nle_gt. intros Hx. apply Hn. split_and!; [done|done|lia].
  - cbn [mbind outcome_bind]. pose proof Hpb as [Hm Hp _ Hnd].
    pose proof (contiguous_window_prepared _ Hp) as Hcp. destruct (prepared_pb_wf pb Hpb) as [Hpb0 Hpk0].
    destruct (closure_enqueue_ok max_size data (payload_ring pb) Hp Hd ltac:(lia)) as (r' & -> & Hr' & Hcap & Hcont & Hra).
    cbn [mbind outcome_bind].
    destruct (push_metadata_ok (packet (length data) h) (mkPacketBuffer (metadata_ring pb) r') Hm) as [_ Hpush].
    match goal with |- context [push_metadata _ ?x] => change x with (mkPacketBuffer (metadata_ring pb) r') end.
    destruct (Hpush Hf) as (ring & -> & Hring & Hcr & _). cbn [mbind outcome_bind].
    eexists _, (Ok (length data)). split; [done|]. cbn [is_ok]. rewrite <-Hpk0.
    destruct (prepared_frame (payload_ring pb)) as (Hcap0 & Hlen0 & _ & Hcont0).
    apply (append_wf (pb <| payload_ring ::= prepared |>) (packet (length data) h)); try done; cbn [set_field payload_ring].
    + congruence.
    + congruence.
    + destruct (contiguous_window_spec _ (prepared_wf _ Hp)) as [[Hc1 Hc2] ?]. split; cbn; lia.
Qed.

(** *** Dequeueing *)

(** The description at the front of the queue and its bytes. *)
Lemma front_cases pb :
  pb_wf pb ->
  match contents (metadata_ring pb) with
  | [] => RingBuffer.is_empty (metadata_ring pb) = true /\ packets pb = []
  | m :: ms =>
      RingBuffer.is_empty (metadata_ring pb) = false /\
      pm_size m <= contiguous_len (payload_ring pb) /\
      packets pb =
        match header m with
        | Some h => [(h, take (pm_size m) (contents (payload_ring pb)))]
        | None => []
        end ++ packets_of ms (drop (pm_size m) (contents (payload_ring pb)))
  end.
Proof.
  intros [Hm Hp Hl Hnd]. pose proof (length_contents _ Hm) as Hlen. unfold packets.
  destruct (contents (metadata_ring pb)) as [|m ms].
  - split; [|done]. by apply ring_is_empty_spec.
  - split_and!.
    + apply Nat.eqb_neq. unfold len. cbn in Hlen. lia.
    + destruct Hl as ([Hc1 Hc2] & _ & Hl). apply layout_total in Hl.
      unfold contiguous_len, len. apply Nat.min_glb; [lia|].
      destruct (decide (0 < capacity (payload_ring pb))).
      * rewrite get_idx_front in Hc2 by done. lia.
      * destruct Hp. lia.
    + cbn. by destruct (header m).
Qed.

(** Dropping the front description and its bytes from the two rings. *)
Lemma drop_front_wf pb m ms ring r' :
  pb_wf pb -> contents (metadata_ring pb) = m :: ms ->
  wf ring -> contents ring = ms -> wf r' ->
  capacity r' = capacity (payload_ring pb) ->
  read_at r' = get_idx (payload_ring pb) (pm_size m) ->
  rb_length r' = rb_length (payload_ring pb) - pm_size m ->
  contents r' = drop (pm_size m) (contents (payload_ring pb)) ->
  pb_wf (mkPacketBuffer ring r') /\
  packets (mkPacketBuffer ring r') =
    packets_of ms (drop (pm_size m) (contents (payload_ring pb))).
Proof.
  intros [Hm Hp Hl Hnd] Hc Hring Hcr Hr' Hcap Hra Hlen Hcr'. rewrite Hc in *.
  split; [split; cbn|].
  - done.
  - done.
  - rewrite Hcr, Hlen. destruct Hl as (_ & _ & Hl). cbn in Hl.
    apply (layout_advance (payload_ring pb) r' (pm_size m) 0); try done.
    + apply Hp.
    + by rewrite Nat.add_0_r.
  - rewrite Hcr. by apply no_double_tail in Hnd.
  - unfold packets. cbn. by rewrite Hcr, Hcr'.
Qed.

Lemma dequeue_padding_ok pb :
  pb_wf pb -> exists pb',
    dequeue_padding pb = Ret pb' /\ pb_wf pb' /\ packets pb' = packets pb /\
    match contents (metadata_ring pb') with [] => True | m :: _ => is_Some (header m) end.
Proof.
  intros Hpb. pose proof Hpb as [Hm Hp Hl Hnd]. pose proof (front_cases pb Hpb) as Hfc.
  unfold dequeue_padding. destruct (contents (metadata_ring pb)) as [|m ms] eqn:Hc.
  - destruct Hfc as [He _]. unfold dequeue_one_with. rewrite He.
    exists pb. cbn. rewrite Hc. by destruct pb.
  - destruct Hfc as (_ & Hsize & Hpk). rewrite (dequeue_one_with_front _ _ m ms) by done.
    unfold is_padding. destruct (header m) as [h|] eqn:Hh.
    + cbn [mbind outcome_bind is_ok]. rewrite assign_id
        by (by destruct (dequeue_one_front _ _ _ Hm Hc)).
      exists pb. cbn. rewrite Hc, Hh. by destruct pb.
    + destruct (dequeue_many_ok _ _ Hp Hsize) as (r' & -> & Hwf' & Hcap & Hlen & Hra & _ & Hc' & _).
      cbn [mbind outcome_bind is_ok].
      rewrite assign_id by (by destruct (dequeue_one_front _ _ _ Hm Hc)).
      destruct (popped_ok _ _ _ Hm Hc) as (Hwfp & _ & Hcp).
      destruct (drop_front_wf pb m ms (popped (metadata_ring pb)) r') as [Hwf2 Hpk2]; try done.
      exists (mkPacketBuffer (popped (metadata_ring pb)) r').
      split_and!; try done; [by rewrite Hpk2, Hpk|]. cbn [metadata_ring]. rewrite Hcp.
      destruct ms as [|m2 ms]; [done|]. destruct Hnd as [Hnd _].
      specialize (Hnd Hh). destruct (header m2); [by eexists|done].
Qed.

(** The state after [dequeue_padding]: a packet is at the front, or the buffer
    is empty. *)
Lemma after_padding pb :
  pb_wf pb ->
  match contents (metadata_ring pb) with [] => True | m :: _ => is_Some (header m) end ->
  (packets pb = [] /\ contents (metadata_ring pb) = []) \/
  exists m ms h,
    contents (metadata_ring pb) = m :: ms /\ header m = Some h /\
    pm_size m <= contiguous_len (payload_ring pb) /\
    packets pb = (h, take (pm_size m) (contents (payload_ring pb))) ::
                 packets_of ms (drop (pm_size m) (contents (payload_ring pb))).
Proof.
  intros Hpb Hh. pose proof (front_cases pb Hpb) as Hfc.
  destruct (contents (metadata_ring pb)) as [|m ms]; [left; tauto|right].
  destruct Hh as [h Hh]. destruct Hfc as (_ & Hsize & Hpk). rewrite Hh in Hpk.
  by exists m, ms, h.
Qed.

Definition dequeue_post pb (out : PacketBuffer H * result (H * (nat * nat)) Empty) : Prop :=
  match out with
  | (pb', Err _) => pb_wf pb' /\ packets pb = [] /\ packets pb' = []
  | (pb', Ok (h, (start, n))) =>
      pb_wf pb' /\
      packets pb = (h, slice (storage (payload_ring pb')) start n) :: packets pb'
  end.

Lemma dequeue_ok pb :
  pb_wf pb -> exists out, dequeue pb = Ret out /\ dequeue_post pb out.
Proof.
  intros Hpb. unfold dequeue.
  destruct (dequeue_padding_ok pb Hpb) as (pb1 & -> & Hpb1 & Hpk1 & Hfront).
  cbn [mbind outcome_bind]. unfold dequeue_post. rewrite <-Hpk1. clear Hpk1 Hpb pb.
  pose proof Hpb1 as [Hm Hp Hl Hnd].
  destruct (after_padding pb1 Hpb1 Hfront) as [[Hpk Hc]|(m & ms & h & Hc & Hh & Hsize & Hpk)].
  - pose proof (front_cases pb1 Hpb1) as Hfc. rewrite Hc in Hfc. destruct Hfc as [He _].
    unfold dequeue_one, dequeue_one_with. rewrite He. cbn.
    eexists. split; [done|]. by destruct pb1.
  - destruct (dequeue_one_front _ _ _ Hm Hc) as [-> Hs]. cbn [mbind outcome_bind].
    cbn [set_field metadata_ring payload_ring].
    change (storage (popped (metadata_ring pb1))) with (storage (metadata_ring pb1)).
    rewrite Hs. cbn [unwrap mbind outcome_bind].
    destruct (dequeue_many_ok _ _ Hp Hsize)
      as (r' & -> & Hwf' & Hcap & Hlen & Hra & Hst & Hc' & Hsl).
    cbn [mbind outcome_bind]. rewrite Nat.eqb_refl, Hh. cbn [rust_assert unwrap mbind outcome_bind].
    set (ring := assign (read_at (metadata_ring pb1)) (m <| header := None |>)
                   (popped (metadata_ring pb1))).
    destruct (assign_popped _ _ _ (m <| header := None |>) Hm Hc) as (Hwfp & _ & Hcp).
    fold ring in Hwfp, Hcp.
    destruct (drop_front_wf pb1 m ms ring r') as [Hwf2 Hpk2]; try done.
    exists (mkPacketBuffer ring r', Ok (h, (read_at (payload_ring pb1), pm_size m))).
    split; [done|]. split; [done|]. rewrite Hpk, Hpk2. cbn [payload_ring]. by rewrite Hst, Hsl.
Qed.

Lemma peek_ok pb :
  pb_wf pb -> exists pb' res, peek pb = Ret (pb', res) /\ pb_wf pb' /\ packets pb' = packets pb /\
    res = match packets pb with [] => Err EmptyErr | p :: _ => Ok p end.
Proof.
  intros Hpb. unfold peek.
  destruct (dequeue_padding_ok pb Hpb) as (pb1 & -> & Hpb1 & Hpk1 & Hfront).
  cbn [mbind outcome_bind]. rewrite <-Hpk1. clear Hpk1 Hpb pb.
  pose proof Hpb1 as [Hm Hp Hl Hnd].
  pose proof (length_contents _ Hm) as Hlm. pose proof (length_contents _ Hp) as Hlp.
  destruct (get_allocated_ok 0 1 _ Hm ltac:(lia)) as (n & -> & Hn). cbn [mbind outcome_bind].
  destruct (after_padding pb1 Hpb1 Hfront) as [[Hpk Hc]|(m & ms & h & Hc & Hh & Hsize & Hpk)].
  - rewrite Hc, Hpk. unfold slice. rewrite drop_nil, take_nil. by exists pb1, (Err EmptyErr).
  - rewrite Hc in Hlm |- *. cbn in Hlm. pose proof Hm as [Hle _].
    pose proof (get_idx_lt _ 0 Hm). assert (n = 1) as -> by lia.
    cbn [slice take drop mbind outcome_bind]. rewrite Hh. cbn [unwrap mbind outcome_bind].
    destruct (get_allocated_ok 0 (pm_size m) _ Hp ltac:(lia)) as (k & -> & Hk).
    exists pb1, (Ok (h, slice (contents (payload_ring pb1)) 0 k)). split_and!; try done.
    rewrite Hpk. unfold slice. rewrite drop_0. do 3 f_equal.
    unfold contiguous_len, len in Hsize. rewrite Hk.
    destruct (decide (0 < capacity (payload_ring pb1))).
    + rewrite get_idx_front in Hk |- * by done. lia.
    + destruct Hp. lia.
Qed.

(** Nothing but the writes through the slices changes the payload storage. *)
Lemma push_metadata_payload m pb pb' res :
  push_metadata m pb = Ret (pb', res) -> payload_ring pb' = payload_ring pb.
Proof.
  unfold push_metadata. destruct (enqueue_one _) as [[ring [i|e]]|]; cbn; intros; inv_outcome; done.
Qed.

Lemma make_contiguous_storage size pb pb' res :
  make_contiguous size pb = Ret (pb', res) -> storage (payload_ring pb') = storage (payload_ring pb).
Proof.
  unfold make_contiguous. repeat case_match; try (intros; inv_outcome; done).
  destruct (push_metadata _ _) as [[pb1 [|e]]|] eqn:Hp; cbn; [|intros; inv_outcome|done].
  2: by erewrite push_metadata_payload.
  destruct (enqueue_many _ _) as [[ring x]|] eqn:He; cbn; [|done]. intros. inv_outcome. cbn.
  rewrite (enqueue_many_storage _ _ _ _ He). by erewrite push_metadata_payload.
Qed.

Lemma enqueue_storage size h pb pb' res :
  enqueue size h pb = Ret (pb', res) -> storage (payload_ring pb') = storage (payload_ring pb).
Proof.
  unfold enqueue. case_match; [intros; inv_outcome; done|].
  set (pb0 := if RingBuffer.is_empty _ then _ else _).
  assert (storage (payload_ring pb0) = storage (payload_ring pb)) as <- by (subst pb0; by case_match).
  destruct (make_contiguous size pb0) as [[pb1 [|e]]|] eqn:Hm; cbn; [|intros; inv_outcome|done].
  2: by eapply make_contiguous_storage.
  rewrite <- (make_contiguous_storage _ _ _ _ Hm).
  destruct (push_metadata _ _) as [[pb2 [|e]]|] eqn:Hp; cbn; [|intros; inv_outcome|done].
  2: by erewrite push_metadata_payload.
  rewrite <- (push_metadata_payload _ _ _ _ Hp). destruct (enqueue_many _ _) as [[ring [wa wn]]|] eqn:He; cbn; [|done].
  destruct (rust_assert _); cbn; [|done]. intros. inv_outcome. by apply (enqueue_many_storage _ _ _ _ He).
Qed.

Lemma enqueue_bounds size h pb pb' start n :
  enqueue size h pb = Ret (pb', Ok (start, n)) -> n = size /\ start + n <= length (storage (payload_ring pb')).
Proof.
  intros He. rewrite (enqueue_storage _ _ _ _ _ He). revert He. unfold enqueue. case_match; [done|].
  set (pb0 := if RingBuffer.is_empty _ then _ else _).
  assert (storage (payload_ring pb0) = storage (payload_ring pb)) as <- by (subst pb0; by case_match).
  destruct (make_contiguous size pb0) as [[pb1 [|e]]|] eqn:Hm; cbn; [|done|done].
  rewrite <- (make_contiguous_storage _ _ _ _ Hm).
  destruct (push_metadata _ _) as [[pb2 [|e]]|] eqn:Hp; cbn; [|done|done].
  rewrite <- (push_metadata_payload _ _ _ _ Hp). destruct (enqueue_many _ _) as [[ring [wa wn]]|] eqn:He; cbn; [|done].
  unfold rust_assert. destruct (Nat.eqb_spec wn size); cbn; [|done]. intros. inv_outcome. split; [done|].
  by apply (enqueue_many_bounds _ _ _ _ _ He).
Qed.

Lemma dequeue_padding_storage pb pb' :
  dequeue_padding pb = Ret pb' -> storage (payload_ring pb') = storage (payload_ring pb).
Proof.
  unfold dequeue_padding, dequeue_one_with. destruct (RingBuffer.is_empty _); [cbn; intros; inv_outcome; done|].
  destruct (get_idx_unchecked _ _); [|done]. destruct (unwrap _) as [m|]; [|done]. cbn [mbind outcome_bind].
  destruct (is_padding m); [|cbn; intros; inv_outcome; done].
  destruct (dequeue_many _ _) as [[r x]|] eqn:Hd; cbn; [|done]. intros. inv_outcome. cbn.
  by apply (dequeue_many_storage _ _ _ _ Hd).
Qed.

Lemma dequeue_storage pb pb' res :
  dequeue pb = Ret (pb', res) -> storage (payload_ring pb') = storage (payload_ring pb).
Proof.
  unfold dequeue. destruct (dequeue_padding pb) as [pb1|] eqn:Hp; [|done]. cbn [mbind outcome_bind].
  rewrite <- (dequeue_padding_storage _ _ Hp). destruct (dequeue_one _) as [[ring [i|e]]|]; cbn; [|intros; inv_outcome; done|done].
  destruct (unwrap _) as [m|]; cbn; [|done]. destruct (dequeue_many _ _) as [[r [ra rn]]|] eqn:Hd; cbn; [|done].
  destruct (rust_assert _); cbn; [|done]. destruct (unwrap _); cbn; [|done]. intros. inv_outcome. cbn.
  by apply (dequeue_many_storage _ _ _ _ Hd).
Qed.

Lemma peek_storage pb pb' res :
  peek pb = Ret (pb', res) -> storage (payload_ring pb') = storage (payload_ring pb).
Proof.
  unfold peek. destruct (dequeue_padding pb) as [pb1|] eqn:Hp; [|done]. cbn [mbind outcome_bind].
  rewrite <- (dequeue_padding_storage _ _ Hp). destruct (get_allocated _ _ _) as [[|m ms]|]; cbn; [intros; inv_outcome; done| |done].
  destruct (unwrap _); cbn; [|done]. destruct (get_allocated _ _ _); cbn; [|done]. intros. inv_outcome. done.
Qed.

Lemma get_idx_0 r : wf r -> get_idx r 0 = read_at r.
Proof.
  intros Hwf. destruct (decide (0 < capacity r)); [by apply get_idx_front|].
  rewrite get_idx_cases by (done || lia). destruct Hwf as [_ ?]. decide_tests; lia.
Qed.

(** Rewriting the header and the bytes of the packet at the front. *)
Lemma update_front_wf pb m ms h h' ring r' (p' : list Z) :
  pb_wf pb -> contents (metadata_ring pb) = m :: ms -> header m = Some h ->
  wf ring -> contents ring = (m <| header := Some h' |>) :: ms -> wf r' ->
  capacity r' = capacity (payload_ring pb) -> read_at r' = read_at (payload_ring pb) ->
  length p' = pm_size m ->
  contents r' = p' ++ drop (pm_size m) (contents (payload_ring pb)) ->
  pb_wf (mkPacketBuffer ring r') /\
  packets (mkPacketBuffer ring r') =
    (h', p') :: packets_of ms (drop (pm_size m) (contents (payload_ring pb))).
Proof.
  intros Hpb Hc Hh Hring Hcr Hr' Hcap Hra Hp' Hcr'.
  pose proof (payload_total pb Hpb) as Ht. destruct Hpb as [Hm Hp Hl Hnd]. rewrite Hc in *.
  assert (rb_length r' = rb_length (payload_ring pb)) as Hlen.
  { rewrite <-!length_contents, Hcr', length_app, length_drop by done.
    unfold total in Ht. cbn in Ht. lia. }
  split; [split; cbn|].
  - done.
  - done.
  - rewrite Hcr, Hlen. apply (layout_ext (payload_ring pb)); [done..|]. cbn in *. naive_solver.
  - rewrite Hcr. destruct ms as [|m2 ms]; [done|]. by destruct Hnd.
  - unfold packets. cbn. rewrite Hcr, Hcr'. cbn.
    rewrite take_app_length', drop_app_length' by done. done.
Qed.

(** The closure [dequeue_with] hands to the payload ring, on the front packet. *)
Lemma dequeue_with_closure {R E} (f : H -> list Z -> outcome (H * list Z * result R E)) pb m ms h h' p' res :
  pb_wf pb -> contents (metadata_ring pb) = m :: ms -> header m = Some h ->
  pm_size m <= contiguous_len (payload_ring pb) ->
  let p := take (pm_size m) (contents (payload_ring pb)) in
  f h p = Ret (h', p', res) -> length p' = length p ->
  exists r',
    dequeue_many_with (with_payload f m) (payload_ring pb) =
    Ret (r', (if is_ok res then pm_size m else 0, (h', res))) /\
    wf r' /\ capacity r' = capacity (payload_ring pb) /\
    (if is_ok res then
       read_at r' = get_idx (payload_ring pb) (pm_size m) /\
       rb_length r' = rb_length (payload_ring pb) - pm_size m /\
       contents r' = drop (pm_size m) (contents (payload_ring pb))
     else
       read_at r' = read_at (payload_ring pb) /\
       contents r' = p' ++ drop (pm_size m) (contents (payload_ring pb))).
Proof.
  intros [Hm Hp Hl Hnd] Hc Hh Hsize p Hfp Hf. pose proof (length_contents _ Hp) as Hlp.
  set (c := contents (payload_ring pb)) in *. set (k := contiguous_len (payload_ring pb)) in *.
  assert (k <= length c) as Hk by (rewrite Hlp; unfold k, contiguous_len, len; lia).
  assert (length p' = pm_size m) as Hp' by (rewrite Hf; unfold p; rewrite length_take; lia).
  set (buf' := splice (take k c) 0 p').
  assert (buf' = p' ++ slice c (pm_size m) (k - pm_size m)) as Hb'.
  { unfold buf', splice, slice. by rewrite take_0, Hp', Nat.add_0_l, skipn_firstn_comm. }
  assert (length buf' = k) as Hbl by (rewrite Hb', length_app, length_slice; lia).
  assert (buf' ++ drop k c = p' ++ drop (pm_size m) c) as Hbc.
  { rewrite Hb', <-app_assoc. f_equal. unfold slice.
    rewrite <-(take_drop (k - pm_size m) (drop (pm_size m) c)) at 2. f_equal.
    rewrite drop_drop. f_equal. lia. }
  set (size := match res with Ok _ => pm_size m | Err _ => 0 end).
  destruct (dequeue_many_with_spec (with_payload f m) (payload_ring pb) buf' size (h', res) Hp Hbl)
    as (r' & Hr & Hwf' & Hcap & Hlen & Hra & Hcr).
  - fold c k. unfold with_payload. rewrite (proj2 (Nat.leb_le _ _)) by (rewrite length_take; lia).
    rewrite Hh, range_Ret by (rewrite ?length_take; lia). cbn [rust_assert unwrap mbind outcome_bind].
    unfold slice. rewrite drop_0, Nat.sub_0_r, take_take, Nat.min_l by lia.
    fold p. by rewrite Hfp.
  - unfold size. destruct res; lia.
  - fold c k in Hcr. rewrite Hbc in Hcr. exists r'. rewrite Hr. unfold size in *.
    destruct res; cbn [is_ok] in *; split_and!; try done.
    + rewrite Hcr. rewrite drop_app_length' by done. done.
    + rewrite Hra. by apply get_idx_0.
Qed.

Lemma dequeue_with_ok {R E} (f : H -> list Z -> outcome (H * list Z * result R E)) pb :
  pb_wf pb ->
  match packets pb with
  | [] => exists pb', dequeue_with f pb = Ret (pb', Err EmptyErr) /\ pb_wf pb' /\ packets pb' = []
  | (h, p) :: q => forall h' p' res, f h p = Ret (h', p', res) -> length p' = length p ->
      exists pb', dequeue_with f pb = Ret (pb', Ok res) /\ pb_wf pb' /\
        packets pb' = if is_ok res then q else (h', p') :: q
  end.
Proof.
  intros Hpb. unfold dequeue_with.
  destruct (dequeue_padding_ok pb Hpb) as (pb1 & -> & Hpb1 & Hpk1 & Hfront).
  cbn [mbind outcome_bind]. rewrite <-Hpk1. clear Hpk1 Hpb pb.
  pose proof Hpb1 as [Hm Hp Hl Hnd].
  destruct (after_padding pb1 Hpb1 Hfront) as [[Hpk Hc]|(m & ms & h & Hc & Hh & Hsize & Hpk)].
  - pose proof (front_cases pb1 Hpb1) as Hfc. rewrite Hc in Hfc. destruct Hfc as [He _].
    unfold dequeue_one_with. rewrite He, Hpk. cbn. exists pb1. by destruct pb1.
  - rewrite Hpk. intros h' p' res Hfp Hf. rewrite (dequeue_one_with_front _ _ m ms) by done. cbn beta.
    destruct (dequeue_with_closure f pb1 m ms h h' p' res Hpb1 Hc Hh Hsize Hfp Hf)
      as (r' & -> & Hwf' & Hcap & Hpost).
    set (p := take (pm_size m) (contents (payload_ring pb1))) in *.
    destruct (assign_front _ _ (m <| header := Some h' |>) _ Hm Hc) as (Hwfa & _ & Hca).
    set (ring := assign _ _ _) in *.
    assert (length p' = pm_size m) as Hp'.
    { rewrite Hf. unfold p. rewrite length_take, length_contents by done.
      unfold contiguous_len, len in *. lia. }
    destruct res as [v|e]; cbn [mbind outcome_bind is_ok] in *.
    + destruct Hpost as (Hra & Hlen & Hcr).
      destruct (popped_ok _ _ _ Hwfa Hca) as (Hwfp & _ & Hcp).
      destruct (drop_front_wf pb1 m ms (popped ring) r') as [Hwf2 Hpk2]; try done.
      by exists (mkPacketBuffer (popped ring) r').
    + destruct Hpost as (Hra & Hcr).
      destruct (update_front_wf pb1 m ms h h' ring r' p') as [Hwf2 Hpk2]; try done.
      by exists (mkPacketBuffer ring r').
Qed.
End Specifications.

(** ** Refinement of a FIFO queue of packets *)

Section Refinement.
Context {H : Type}.
Implicit Types (pb : PacketBuffer H) (q : list (H * list Z)).

Inductive pb_op :=
| Enqueue (h : H) (data : list Z)
| EnqueueWith (max_size : nat) (h : H) (data : list Z)
| Dequeue
| DequeueWith (accept : H -> list Z -> bool)
| Peek
| Reset.

Inductive pb_answer :=
| AEnqueued
| ARejected
| APacket (h : H) (p : list Z)
| ARefused (h : H) (p : list Z)
| AEmpty
| AReset.

(** One call; the client of [enqueue] writes the payload through the reference,
    the client of [enqueue_with_infallible] in its closure. *)
Definition pb_exec (op : pb_op) pb : outcome (PacketBuffer H * pb_answer) :=
  match op with
  | Enqueue h data =>
      '(pb, res) ← enqueue (length data) h pb;
      match res with
      | Ok (start, _) => Ret (write_payload start data pb, AEnqueued)
      | Err _ => Ret (pb, ARejected)
      end
  | EnqueueWith max_size h data =>
      '(pb, res) ← enqueue_with_infallible max_size h
                     (fun buf => (splice buf 0 data, length data)) pb;
      Ret (pb, if is_ok res then AEnqueued else ARejected)
  | Dequeue =>
      '(pb, res) ← dequeue pb;
      match res with
      | Ok (h, (start, n)) => Ret (pb, APacket h (slice (storage (payload_ring pb)) start n))
      | Err _ => Ret (pb, AEmpty)
      end
  | DequeueWith accept =>
      '(pb, res) ← dequeue_with
         (fun h p => Ret (h, p, if accept h p then Ok (h, p) else Err (h, p))) pb;
      match res with
      | Ok (Ok (h, p)) => Ret (pb, APacket h p)
      | Ok (Err (h, p)) => Ret (pb, ARefused h p)
      | Err _ => Ret (pb, AEmpty)
      end
  | Peek =>
      '(pb, res) ← peek pb;
      match res with
      | Ok (h, p) => Ret (pb, ARefused h p)
      | Err _ => Ret (pb, AEmpty)
      end
  | Reset => Ret (reset pb, AReset)
  end.

Fixpoint pb_run (ops : list pb_op) pb : outcome (PacketBuffer H * list pb_answer) :=
  match ops with
  | [] => Ret (pb, [])
  | op :: ops =>
      '(pb, a) ← pb_exec op pb;
      '(pb, l) ← pb_run ops pb;
      Ret (pb, a :: l)
  end.

(** The abstract queue.  When there is no room is left to the buffer. *)
Inductive fifo_step : list (H * list Z) -> pb_op -> pb_answer -> list (H * list Z) -> Prop :=
| fifo_enqueue q h data : fifo_step q (Enqueue h data) AEnqueued (q ++ [(h, data)])
| fifo_reject q h data : fifo_step q (Enqueue h data) ARejected q
| fifo_enqueue_with q n h data : fifo_step q (EnqueueWith n h data) AEnqueued (q ++ [(h, data)])
| fifo_reject_with q n h data : fifo_step q (EnqueueWith n h data) ARejected q
| fifo_dequeue h p q : fifo_step ((h, p) :: q) Dequeue (APacket h p) q
| fifo_dequeue_empty : fifo_step [] Dequeue AEmpty []
| fifo_accept accept h p q :
    accept h p = true -> fifo_step ((h, p) :: q) (DequeueWith accept) (APacket h p) q
| fifo_refuse accept h p q :
    accept h p = false ->
    fifo_step ((h, p) :: q) (DequeueWith accept) (ARefused h p) ((h, p) :: q)
| fifo_dequeue_with_empty accept : fifo_step [] (DequeueWith accept) AEmpty []
| fifo_peek h p q : fifo_step ((h, p) :: q) Peek (ARefused h p) ((h, p) :: q)
| fifo_peek_empty : fifo_step [] Peek AEmpty []
| fifo_reset q : fifo_step q Reset AReset [].

Inductive fifo_run : list (H * list Z) -> list pb_op -> list pb_answer ->
    list (H * list Z) -> Prop :=
| fifo_done q : fifo_run q [] [] q
| fifo_more q op a q1 ops l q2 :
    fifo_step q op a q1 -> fifo_run q1 ops l q2 -> fifo_run q (op :: ops) (a :: l) q2.

(** The closure given to [enqueue_with_infallible] stays within the slice it gets, and
    the call is not one that loses the packet. *)
Definition pb_sound (op : pb_op) pb : bool :=
  match op with
  | EnqueueWith max_size _ data => (length data <=? max_size) && negb (loses_packet max_size pb)
  | _ => true
  end.

Fixpoint pb_run_sound (ops : list pb_op) pb : bool :=
  match ops with
  | [] => true
  | op :: ops => pb_sound op pb && match pb_exec op pb with Ret (pb, _) => pb_run_sound ops pb | Panic => true end
  end.

Lemma new_pb_wf ms payload : pb_wf (new (H := H) ms payload) /\ packets (new (H := H) ms payload) = [].
Proof. split; [|done]. split; cbn; try done; apply ring_new_wf. Qed.

Lemma reset_ok pb : pb_wf (reset pb) /\ packets (reset pb) = [].
Proof. split; [|done]. split; cbn; try done; apply clear_wf. Qed.

Lemma pb_exec_simulation op pb :
  pb_wf pb -> pb_sound op pb = true ->
  exists pb' a, pb_exec op pb = Ret (pb', a) /\ pb_wf pb' /\
    fifo_step (packets pb) op a (packets pb').
Proof.
  intros Hpb Hop. destruct op as [h data|max_size h data| |accept| |].
  - destruct (enqueue_ok (length data) h pb Hpb) as ([pb' [[start n]|e]] & He & Hpost);
      cbn [pb_exec]; rewrite He; cbn [mbind outcome_bind].
    + destruct Hpost as [-> Hw]. destruct (Hw data Logic.eq_refl) as [? Hpk].
      exists (write_payload start data pb'), AEnqueued. rewrite Hpk. split_and!; [done|done|constructor].
    + destruct Hpost as [? Hpk]. exists pb', ARejected. rewrite Hpk. split_and!; [done|done|constructor].
  - cbn [pb_sound] in Hop. apply andb_true_iff in Hop as [Hd%Nat.leb_le Hl%negb_true_iff].
    destruct (enqueue_with_ok max_size h data pb Hpb Hd Hl) as (pb' & res & He & ? & Hpk).
    cbn [pb_exec]. rewrite He. cbn [mbind outcome_bind]. do 2 eexists. split; [done|]. split; [done|]. rewrite Hpk.
    destruct (is_ok res); constructor.
  - destruct (dequeue_ok pb Hpb) as ([pb' [[h [start n]]|e]] & He & Hpost);
      cbn [pb_exec]; rewrite He; cbn [mbind outcome_bind dequeue_post] in *.
    + destruct Hpost as [? ->]. do 2 eexists. split; [done|]. split; [done|]. constructor.
    + destruct Hpost as (? & Hpk & Hpk'). exists pb', AEmpty. rewrite Hpk, Hpk'.
      split_and!; [done|done|constructor].
  - pose proof (dequeue_with_ok
      (fun h p => Ret (h, p, if accept h p then Ok (h, p) else Err (h, p))) pb Hpb) as Hpost.
    cbn [pb_exec]. destruct (packets pb) as [|[h p] q].
    + destruct Hpost as (pb' & -> & ? & Hpk'). exists pb', AEmpty. rewrite Hpk'.
      split_and!; [done|done|constructor].
    + destruct (Hpost _ _ _ Logic.eq_refl Logic.eq_refl) as (pb' & -> & ? & Hpk'). cbn in Hpk'.
      destruct (accept h p) eqn:Ha; exists pb'; eexists; rewrite Hpk';
        (split_and!; [done|done|by constructor]).
  - destruct (peek_ok pb Hpb) as (pb' & res & He & ? & Hpk' & ->).
    cbn [pb_exec]. rewrite He. cbn [mbind outcome_bind].
    exists pb'. rewrite Hpk'.
    destruct (packets pb) as [|[h p] q]; eexists; (split_and!; [done|done|constructor]).
  - destruct (reset_ok pb) as [? Hpk]. exists (reset pb), AReset. rewrite Hpk.
    split_and!; [done|done|constructor].
Qed.

Lemma pb_run_simulation ops pb :
  pb_wf pb -> pb_run_sound ops pb = true ->
  exists pb' l, pb_run ops pb = Ret (pb', l) /\ pb_wf pb' /\
    fifo_run (packets pb) ops l (packets pb').
Proof.
  revert pb. induction ops as [|op ops IH]; intros pb Hpb Hops.
  - exists pb, []. split; [done|]. split; [done|constructor].
  - cbn [pb_run_sound] in Hops. apply andb_true_iff in Hops as [Hop Hops].
    destruct (pb_exec_simulation op pb Hpb Hop) as (pb1 & a & Ha & Hpb1 & Hstep). rewrite Ha in Hops.
    destruct (IH pb1 Hpb1 Hops) as (pb2 & l & Hl & Hpb2 & Hrun).
    exists pb2, (a :: l). cbn [pb_run]. rewrite Ha. cbn [mbind outcome_bind]. rewrite Hl.
    split; [done|]. split; [done|]. by econstructor.
Qed.
End Refinement.
Arguments pb_op : clear implicits.
Arguments pb_answer : clear implicits.

(** ** The properties of the packet buffer *)

(** C30: The packet buffer refines a FIFO queue of packets: from fresh storage and
    for any sequence of [enqueue], [enqueue_with_infallible], [dequeue], [dequeue_with],
    [peek] and [reset] no call panics (no assertion, slice or [unwrap] fails) and every
    answer is that of a queue, with headers and payloads intact; when it has no room
    for a packet is left to the buffer.  The calls of [enqueue_with_infallible] excepted
    are those that find one description left and need padding: they lose the packet
    ([enqueue_with_infallible_leaks]). *)
Theorem packet_buffer_refines_fifo {H : Type} (metadata : list (PacketMetadata H))
    (payload : list Z) (ops : list (pb_op H)) :
  pb_run_sound ops (new metadata payload) = true ->
  exists pb answers, pb_run ops (new metadata payload) = Ret (pb, answers) /\
    fifo_run [] ops answers (packets pb).
Proof.
  intros Hops. destruct (new_pb_wf metadata payload) as [Hwf Hpk].
  destruct (pb_run_simulation ops _ Hwf Hops) as (pb & l & Hr & _ & Hf).
  exists pb, l. by rewrite Hpk in Hf.
Qed.

(** The packet written by the closure follows padding in a ring that has been emptied. *)
Definition pb_example : list (pb_op Z) :=
  [Enqueue 1 [10; 11; 12]; Enqueue 2 [20]; Dequeue; Enqueue 3 [30; 31]; Peek; DequeueWith (fun _ _ => true);
   Dequeue; Dequeue; EnqueueWith 3 4 [40; 41; 42]; Enqueue 5 [50; 51; 52]; Dequeue]%Z.

Lemma packet_buffer_refines_fifo_witness :
  exists pb answers,
    pb_run pb_example (new (replicate 3 EMPTY) (replicate 5 0%Z)) = Ret (pb, answers) /\
    answers = [AEnqueued; AEnqueued; APacket 1 [10; 11; 12]; AEnqueued; ARefused 2 [20];
               APacket 2 [20]; APacket 3 [30; 31]; AEmpty; AEnqueued; ARejected; APacket 4 [40; 41; 42]]%Z /\
    fifo_run [] pb_example answers (packets pb).
Proof.
  destruct (packet_buffer_refines_fifo (replicate 3 EMPTY) (replicate 5 0%Z) pb_example eq_refl) as (pb & l & Hr & Hf).
  exists pb, l. split; [exact Hr|]. split; [|exact Hf].
  vm_compute in Hr. congruence.
Defined.

(** An empty packet buffer takes any packet that fits its payload storage,
    wherever the previous packets left the read position. *)
Theorem enqueue_accepts_when_empty {H : Type} (size : nat) (h : H) pb :
  pb_wf pb -> is_empty pb = true -> 0 < packet_capacity pb -> size <= payload_capacity pb ->
  exists pb' start, enqueue size h pb = Ret (pb', Ok (start, size)).
Proof.
  intros Hpb He Hmc Hpc. pose proof Hpb as [Hm Hp Hl _].
  apply ring_is_empty_spec in He.
  assert (contents (metadata_ring pb) = []) as Hc
    by (apply nil_length_inv; by rewrite length_contents).
  rewrite Hc in Hl. cbn in Hl.
  assert (RingBuffer.is_empty (payload_ring pb) = true) as Hpe by (by apply ring_is_empty_spec).
  assert (is_full pb = false) as Hf.
  { apply Nat.eqb_neq. unfold window, len, packet_capacity in *. lia. }
  unfold enqueue, payload_capacity in *. rewrite (proj2 (Nat.ltb_ge _ _)), Hf, Hpe by done.
  cbn [orb]. destruct (clear_payload_wf pb Hpb Hpe) as [Hpb1 _].
  set (pb1 := pb <| payload_ring ::= clear |>) in *.
  assert (size <= contiguous_window (payload_ring pb1)) as Hcw.
  { assert (get_idx (payload_ring pb1) 0 = 0) as Hi
      by (unfold get_idx; case_match; [apply Nat.Div0.mod_0_l|done]).
    unfold contiguous_window, window, len. change (rb_length (payload_ring pb1)) with 0.
    rewrite Hi. change (capacity (payload_ring pb1)) with (capacity (payload_ring pb)). lia. }
  assert (make_contiguous size pb1 = Ret (pb1, Ok ())) as ->.
  { unfold make_contiguous. rewrite !(proj2 (Nat.ltb_ge _ _)); [done|done|].
    unfold contiguous_window in Hcw. lia. }
  cbn [mbind outcome_bind].
  destruct (enqueue_packet_ok size h pb1 Hpb1 Logic.eq_refl Hcw)
    as ([pb' [[start n]|e]] & -> & Hpost & Hok); [|by specialize (Hok Hf)].
  destruct Hpost as [-> _]. by exists pb', start.
Qed.

Lemma enqueue_accepts_when_empty_witness :
  exists pb' start,
    enqueue 4 () (mkPacketBuffer (mkRing [EMPTY; EMPTY] 1 0) (mkRing [1; 2; 3; 4]%Z 3 0))
      = Ret (pb', Ok (start, 4)).
Proof.
  apply (enqueue_accepts_when_empty 4 ()); [|reflexivity|cbn; lia|cbn; lia].
  split; cbn; try done; split; cbn; lia.
Defined.

(** [enqueue_with_infallible] loses payload bytes when the padding takes the
    last description: it writes the payload, then fails to enqueue its
    description and reports [Full].  The bytes stay in the payload ring without a
    description, and every later packet is delivered with the bytes of another:
    packet 3 below was sent with payload [30; 31] and arrives with the payload
    [90; 91] of the rejected packet. *)
Theorem enqueue_with_infallible_leaks :
  exists pb,
    pb_run [Enqueue 1 [10; 11]; Enqueue 2 [20; 21]; Dequeue; EnqueueWith 2 9 [90; 91];
            Dequeue; Dequeue; Enqueue 3 [30; 31]; Dequeue]%Z
      (new [EMPTY; EMPTY] (replicate 5 0)%Z) =
    Ret (pb, [AEnqueued; AEnqueued; APacket 1 [10; 11]; ARejected;
              APacket 2 [20; 21]; AEmpty; AEnqueued; APacket 3 [90; 91]]%Z).
Proof. eexists. vm_compute. reflexivity. Qed.
