(* ===== verification/Time.v ===== *)
(** * Instants and durations (src/time.rs)

    An [Instant] is an [i64], a [Duration] an [u64] number of microseconds, both
    held in [Z].  The arithmetic of a build with overflow checks is in [outcome];
    [rhs.total_micros() as i64] is the reinterpretation [wrap_i 64]. *)

From S2P Require Import Prelude.
Open Scope Z_scope.

Definition Instant := Z.
Definition Duration := Z.

Definition instant_range (t : Instant) : Prop := I64_MIN <= t <= I64_MAX.
Definition duration_range (d : Duration) : Prop := 0 <= d <= USIZE_MAX.

Module Instant.
Definition ZERO : Instant := 0.
Definition from_micros (micros : Z) : Instant := micros.
Definition from_millis (millis : Z) : outcome Instant := check_i64 (millis * 1000).
Definition from_secs (secs : Z) : outcome Instant := check_i64 (secs * 1000000).
Definition millis (t : Instant) : Z := Z.quot (Z.rem t 1000000) 1000.
Definition micros (t : Instant) : Z := Z.rem t 1000000.
Definition secs (t : Instant) : Z := Z.quot t 1000000.
Definition total_millis (t : Instant) : Z := Z.quot t 1000.
Definition total_micros (t : Instant) : Z := t.

Definition add (t : Instant) (d : Duration) : outcome Instant := check_i64 (t + wrap_i 64 d).
Definition sub (t : Instant) (d : Duration) : outcome Instant := check_i64 (t - wrap_i 64 d).
(** [Instant - Instant] *)
Definition diff (t u : Instant) : outcome Duration :=
  d ← check_i64 (t - u);
  Ret (Z.abs d).
End Instant.

Module Duration.
Definition ZERO : Duration := 0.
Definition MAX : Duration := USIZE_MAX.
Definition from_micros (micros : Z) : Duration := micros.
Definition from_millis (millis : Z) : outcome Duration := umul USIZE_MAX millis 1000.
Definition from_secs (secs : Z) : outcome Duration := umul USIZE_MAX secs 1000000.
Definition millis (d : Duration) : Z := d / 1000 mod 1000.
Definition micros (d : Duration) : Z := d mod 1000000.
Definition secs (d : Duration) : Z := d / 1000000.
Definition total_millis (d : Duration) : Z := d / 1000.
Definition total_micros (d : Duration) : Z := d.

Definition add (d e : Duration) : outcome Duration := uadd USIZE_MAX d e.
Definition sub (d e : Duration) : outcome Duration := usub d e.
Definition mul (d : Duration) (n : Z) : outcome Duration := umul USIZE_MAX d n.
Definition div (d : Duration) (n : Z) : outcome Duration := if n =? 0 then Panic else Ret (d / n).
(** A shift by the width or more panics, bits shifted out are dropped. *)
Definition shl (d : Duration) (n : Z) : outcome Duration :=
  if n <? 64 then Ret (wrap_u 64 (Z.shiftl d n)) else Panic.
Definition shr (d : Duration) (n : Z) : outcome Duration :=
  if n <? 64 then Ret (Z.shiftr d n) else Panic.
End Duration.

(** ** Lemmas *)

Lemma check_i64_Ret z : I64_MIN <= z <= I64_MAX -> check_i64 z = Ret z.
Proof. intros. unfold check_i64. decide_tests; cbn; done || lia. Qed.

Lemma from_secs_ok n : 0 <= n <= U32_MAX -> Duration.from_secs n = Ret (n * 1000000).
Proof. intros. unfold Duration.from_secs. apply umul_Ret. lia. Qed.

Lemma from_millis_ok n : 0 <= n <= U32_MAX -> Duration.from_millis n = Ret (n * 1000).
Proof. intros. unfold Duration.from_millis. apply umul_Ret. lia. Qed.

Lemma wrap_i_64_small d : 0 <= d <= I64_MAX -> wrap_i 64 d = d.
Proof. intros. apply wrap_i_small; lia. Qed.

(** A duration that fits [i64] is added without a cast. *)
Lemma instant_add_ok t d :
  0 <= d <= I64_MAX -> I64_MIN <= t + d <= I64_MAX -> Instant.add t d = Ret (t + d).
Proof. intros. unfold Instant.add. rewrite wrap_i_64_small by done. by apply check_i64_Ret. Qed.

Lemma instant_sub_ok t d :
  0 <= d <= I64_MAX -> I64_MIN <= t - d <= I64_MAX -> Instant.sub t d = Ret (t - d).
Proof. intros. unfold Instant.sub. rewrite wrap_i_64_small by done. by apply check_i64_Ret. Qed.

Lemma instant_diff_ok t u :
  I64_MIN <= t - u <= I64_MAX -> Instant.diff t u = Ret (Z.abs (t - u)).
Proof. intros. unfold Instant.diff. by rewrite check_i64_Ret. Qed.

(** The difference of two instants is the duration between them whatever
    their order; added to the earlier one it gives the later one, subtracted
    from the later one the earlier one, and nothing overflows when the distance
    fits [i64]. *)
Theorem instant_difference_roundtrip (t u : Instant) :
  instant_range t -> instant_range u -> t <= u -> u - t <= I64_MAX ->
  exists d, Instant.diff u t = Ret d /\ Instant.diff t u = Ret d /\
    Instant.add t d = Ret u /\ Instant.sub u d = Ret t.
Proof.
  unfold instant_range. intros. exists (u - t).
  rewrite !instant_diff_ok by lia. split_and!; try (f_equal; lia).
  - rewrite instant_add_ok by lia. f_equal. lia.
  - rewrite instant_sub_ok by lia. f_equal. lia.
Qed.

Lemma instant_difference_roundtrip_witness :
  exists d, Instant.diff 7 (-5) = Ret d /\ Instant.diff (-5) 7 = Ret d /\
    Instant.add (-5) d = Ret 7 /\ Instant.sub 7 d = Ret (-5).
Proof. apply (instant_difference_roundtrip (-5) 7); unfold instant_range; lia. Defined.
