(* ===== verification/SeqNumber.v ===== *)
(** * TCP sequence numbers (src/wire/tcp.rs, [SeqNumber])

    A sequence number is an [i32], held in [Z].  The socket's proofs use
    positions in an unbounded byte stream; [seq_at] is the sequence number of
    a position, and the lemmas below say that the wrapping operations on
    sequence numbers are the plain ones on positions less than 2^31 apart. *)

From S2P Require Import Prelude.
Open Scope Z_scope.

Definition SeqNumber := Z.

Definition seq_range (a : SeqNumber) : Prop := - 2147483648 <= a <= I32_MAX.

Section Operations.
Implicit Types (a b : SeqNumber) (n : Z).

(** [SeqNumber + usize], [SeqNumber - usize] and [SeqNumber - SeqNumber] *)
Definition seq_add a n : outcome SeqNumber :=
  if I32_MAX <? n then Panic else Ret (wrap_i 32 (a + n)).

Definition seq_sub a n : outcome SeqNumber :=
  if I32_MAX <? n then Panic else Ret (wrap_i 32 (a - n)).

Definition seq_diff a b : outcome Z :=
  let result := wrap_i 32 (a - b) in
  if result <? 0 then Panic else Ret result.

(** [partial_cmp] *)
Definition seq_cmp a b : comparison := wrap_i 32 (a - b) ?= 0.

Definition seq_lt a b : bool := match seq_cmp a b with Lt => true | _ => false end.
Definition seq_le a b : bool := match seq_cmp a b with Gt => false | _ => true end.
Definition seq_gt a b : bool := match seq_cmp a b with Gt => true | _ => false end.
Definition seq_ge a b : bool := match seq_cmp a b with Lt => false | _ => true end.

Definition seq_max a b : SeqNumber := if seq_gt a b then a else b.
Definition seq_min a b : SeqNumber := if seq_lt a b then a else b.
End Operations.

(** ** Positions in the stream *)

Definition seq_at (pos : Z) : SeqNumber := wrap_i 32 pos.

Section Lemmas.
Implicit Types (p q n : Z).

Lemma seq_at_range p : seq_range (seq_at p).
Proof. unfold seq_range. pose proof (wrap_i_range 32 p ltac:(lia)). unfold seq_at. lia. Qed.

Lemma seq_at_id a : seq_range a -> seq_at a = a.
Proof. unfold seq_range. intros. apply wrap_i_small; lia. Qed.

Lemma seq_at_dist p q : - 2 ^ 31 <= p - q < 2 ^ 31 -> wrap_i 32 (seq_at p - seq_at q) = p - q.
Proof. intros. unfold seq_at. rewrite wrap_i_sub by lia. apply wrap_i_small; lia. Qed.

Lemma seq_add_at p n : n <= I32_MAX -> seq_add (seq_at p) n = Ret (seq_at (p + n)).
Proof.
  intros. unfold seq_add, seq_at. decide_tests; [lia|]. by rewrite wrap_i_add_l.
Qed.

Lemma seq_sub_at p n : n <= I32_MAX -> seq_sub (seq_at p) n = Ret (seq_at (p - n)).
Proof.
  intros. unfold seq_sub, seq_at. decide_tests; [lia|].
  rewrite <-!Z.add_opp_r. by rewrite wrap_i_add_l.
Qed.

Lemma seq_diff_at p q : 0 <= p - q < 2 ^ 31 -> seq_diff (seq_at p) (seq_at q) = Ret (p - q).
Proof. intros. unfold seq_diff. rewrite seq_at_dist by lia. cbn zeta. decide_tests; [lia|done]. Qed.

Lemma seq_diff_at_panics p q : - 2 ^ 31 <= p - q < 0 -> seq_diff (seq_at p) (seq_at q) = Panic.
Proof. intros. unfold seq_diff. rewrite seq_at_dist by lia. cbn zeta. decide_tests; [done|lia]. Qed.

Lemma seq_cmp_at p q : - 2 ^ 31 <= p - q < 2 ^ 31 -> seq_cmp (seq_at p) (seq_at q) = (p ?= q).
Proof. intros. unfold seq_cmp. by rewrite seq_at_dist, <-Z.compare_sub. Qed.

Lemma seq_lt_at p q : - 2 ^ 31 <= p - q < 2 ^ 31 -> seq_lt (seq_at p) (seq_at q) = (p <? q).
Proof. intros. unfold seq_lt. by rewrite seq_cmp_at. Qed.

Lemma seq_le_at p q : - 2 ^ 31 <= p - q < 2 ^ 31 -> seq_le (seq_at p) (seq_at q) = (p <=? q).
Proof. intros. unfold seq_le. by rewrite seq_cmp_at. Qed.

Lemma seq_gt_at p q : - 2 ^ 31 <= p - q < 2 ^ 31 -> seq_gt (seq_at p) (seq_at q) = (q <? p).
Proof. intros. unfold seq_gt. rewrite seq_cmp_at, Z.compare_antisym by done. unfold Z.ltb. by destruct (q ?= p). Qed.

Lemma seq_ge_at p q : - 2 ^ 31 <= p - q < 2 ^ 31 -> seq_ge (seq_at p) (seq_at q) = (q <=? p).
Proof. intros. unfold seq_ge. rewrite seq_cmp_at, Z.compare_antisym by done. unfold Z.leb. by destruct (q ?= p). Qed.

Lemma seq_at_inj p q : - 2 ^ 31 <= p - q < 2 ^ 31 -> seq_at p = seq_at q -> p = q.
Proof.
  intros Hd He. pose proof (seq_at_dist p q Hd) as H. rewrite He, Z.sub_diag in H.
  change (wrap_i 32 0) with 0 in H. lia.
Qed.

(** The sequence number [a], seen from one that is the image of [p]. *)
Lemma seq_near a p : seq_range a ->
  exists q, a = seq_at q /\ - 2 ^ 31 <= q - p < 2 ^ 31 /\ q = p + wrap_i 32 (a - seq_at p).
Proof.
  intros Ha. exists (p + wrap_i 32 (a - seq_at p)).
  pose proof (wrap_i_range 32 (a - seq_at p) ltac:(lia)). split_and!; try lia.
  unfold seq_at. rewrite Z.add_comm, wrap_i_add_l by lia.
  rewrite <-(seq_at_id a Ha) at 1. unfold seq_at. apply wrap_i_congr; [lia|].
  pose proof (wrap_i_mod 32 p ltac:(lia)) as Hp.
  replace (_ - _) with (- (p - wrap_i 32 p)) by lia.
  by apply Z.mod_opp_l_z.
Qed.

End Lemmas.

(** The signed distance from [a] to [b]. *)
Definition seq_dist (a b : SeqNumber) : Z := wrap_i 32 (b - a).

Section Distance.
Implicit Types (a b : SeqNumber) (n z : Z).

Lemma wrap_range z : seq_range (wrap_i 32 z).
Proof. apply seq_at_range. Qed.

Lemma wrap_small z : - 2 ^ 31 <= z < 2 ^ 31 -> wrap_i 32 z = z.
Proof. intros. apply wrap_i_small; lia. Qed.

(** One wrap-around at most. *)
Lemma wrap_cases z : - 2 ^ 32 <= z < 2 ^ 32 ->
  (- 2 ^ 31 <= z < 2 ^ 31 /\ wrap_i 32 z = z) \/
  (2 ^ 31 <= z /\ wrap_i 32 z = z - 2 ^ 32) \/
  (z < - 2 ^ 31 /\ wrap_i 32 z = z + 2 ^ 32).
Proof.
  intros. unfold wrap_i. change (2 ^ (32 - 1)) with 2147483648.
  change (2 ^ 32) with 4294967296 in *. change (2 ^ 31) with 2147483648 in *. div_lia.
Qed.

Lemma seq_dist_range a b : - 2 ^ 31 <= seq_dist a b < 2 ^ 31.
Proof. pose proof (wrap_i_range 32 (b - a) ltac:(lia)). unfold seq_dist. lia. Qed.

Lemma seq_dist_self a : seq_dist a a = 0.
Proof. unfold seq_dist. by rewrite Z.sub_diag. Qed.

Lemma seq_add_Ret a n : n <= I32_MAX -> seq_add a n = Ret (wrap_i 32 (a + n)).
Proof. intros. unfold seq_add. decide_tests; [lia|done]. Qed.

Lemma seq_dist_add_r a b n : seq_dist a (wrap_i 32 (b + n)) = wrap_i 32 (seq_dist a b + n).
Proof.
  unfold seq_dist. rewrite wrap_i_add_l by lia. rewrite <-!Z.add_opp_r, wrap_i_add_l by lia.
  f_equal. lia.
Qed.

Lemma seq_dist_add_l a b n : seq_dist (wrap_i 32 (a + n)) b = wrap_i 32 (seq_dist a b - n).
Proof.
  unfold seq_dist. rewrite <-(Z.add_opp_r (wrap_i 32 (b - a))), wrap_i_add_l by lia.
  apply wrap_i_congr; [lia|].
  replace (_ - _) with (a + n - wrap_i 32 (a + n)) by lia. apply wrap_i_mod. lia.
Qed.

(** [b] is [seq_dist a b] further than [a]. *)
Lemma seq_dist_spec a b : seq_range b -> b = wrap_i 32 (a + seq_dist a b).
Proof.
  intros Hb. unfold seq_dist. rewrite Z.add_comm, wrap_i_add_l by lia.
  replace (b - a + a) with b by lia. symmetry. by apply seq_at_id.
Qed.

Lemma seq_dist_0 a b : seq_range a -> seq_range b -> seq_dist a b = 0 <-> a = b.
Proof.
  intros Ha Hb. split; [|intros ->; apply seq_dist_self]. intros H.
  rewrite (seq_dist_spec a b Hb), H, Z.add_0_r. symmetry. by apply seq_at_id.
Qed.

Lemma seq_diff_dist a b : 0 <= seq_dist b a -> seq_diff a b = Ret (seq_dist b a).
Proof. unfold seq_diff, seq_dist. intros. cbn zeta. decide_tests; [lia|done]. Qed.

Lemma seq_lt_dist a b : seq_lt a b = (seq_dist b a <? 0).
Proof. unfold seq_lt, seq_cmp, seq_dist, Z.ltb. done. Qed.

Lemma seq_le_dist a b : seq_le a b = (seq_dist b a <=? 0).
Proof. unfold seq_le, seq_cmp, seq_dist, Z.leb. done. Qed.

Lemma seq_gt_dist a b : seq_gt a b = (0 <? seq_dist b a).
Proof.
  unfold seq_gt, seq_cmp, seq_dist, Z.ltb. rewrite (Z.compare_antisym 0).
  by destruct (0 ?= _).
Qed.

Lemma seq_ge_dist a b : seq_ge a b = (0 <=? seq_dist b a).
Proof.
  unfold seq_ge, seq_cmp, seq_dist, Z.leb. rewrite (Z.compare_antisym 0).
  by destruct (0 ?= _).
Qed.

(** The distance back, but for the far end of the range. *)
Lemma seq_dist_opp a b : seq_dist b a = if seq_dist a b =? - 2 ^ 31 then - 2 ^ 31 else - seq_dist a b.
Proof.
  pose proof (seq_dist_range a b). unfold seq_dist in *.
  replace (wrap_i 32 (a - b)) with (wrap_i 32 (- wrap_i 32 (b - a))).
  - decide_tests; [rewrite e; done|]. apply wrap_small. lia.
  - replace (a - b) with (- (b - a)) by lia. apply wrap_i_congr; [lia|].
    replace (_ - _) with (b - a - wrap_i 32 (b - a)) by lia. apply wrap_i_mod. lia.
Qed.
End Distance.

(** Within any window of less than 2^31 bytes sequence numbers behave as the
    stream positions they stand for, across the wrap-around: comparison is the
    order of the positions, [+] advances the position, [-] is the distance, and
    subtracting a later number from an earlier one panics. *)
Theorem seq_number_window base x y :
  0 <= x < 2 ^ 31 -> 0 <= y < 2 ^ 31 ->
  exists a b, seq_add (seq_at base) x = Ret a /\ seq_add (seq_at base) y = Ret b /\
    seq_lt a b = (x <? y) /\ seq_le a b = (x <=? y) /\
    seq_max a b = seq_at (base + Z.max x y) /\ seq_min a b = seq_at (base + Z.min x y) /\
    seq_diff a b = if y <=? x then Ret (x - y) else Panic.
Proof.
  intros Hx Hy. exists (seq_at (base + x)), (seq_at (base + y)).
  rewrite !seq_add_at by lia. unfold seq_max, seq_min.
  rewrite seq_gt_at, seq_lt_at, seq_le_at by lia.
  split_and!; try done; decide_tests; try (f_equal; lia); try lia.
  - rewrite seq_diff_at by lia. f_equal. lia.
  - apply seq_diff_at_panics. lia.
Qed.
Lemma seq_number_window_witness :
  seq_lt (seq_at 2147483640) (seq_at (2147483640 + 20)) = true /\ seq_at (2147483640 + 20) < 0.
Proof.
  destruct (seq_number_window 2147483640 0 20 ltac:(lia) ltac:(lia))
    as (a & b & Ha & Hb & Hlt & _).
  injection Ha as <-. injection Hb as <-. split; [exact Hlt|reflexivity].
Defined.
