(* ===== verification/Bytes.v ===== *)
(** * Bytes and the byteorder interface

    A buffer [&[u8]] is a list of integers; [bytes] says that they are bytes.

    The wire formats read and write integers through [NetworkEndian] of the
    byteorder crate, which is not part of the repository.  Its functions are the
    class [ByteOrder], and its documentation (big-endian encoding, a panic on a
    buffer that is too short) is the class of laws [NetworkEndian].  The
    definitions that read or write a buffer take the operations as an implicit
    argument, the theorems take the laws.  [network_endian] is an implementation,
    used to evaluate the model. *)

From S2P Require Import Prelude.
Open Scope Z_scope.

Definition byte (b : Z) : Prop := 0 <= b <= 255.
Definition bytes (l : list Z) : Prop := Forall byte l.

#[global] Instance byte_dec b : Decision (byte b).
Proof. unfold byte. apply _. Defined.
#[global] Instance bytes_dec l : Decision (bytes l).
Proof. unfold bytes. apply _. Defined.

(** Decide a closed proposition by evaluation. *)
Ltac by_decide := apply (bool_decide_unpack _); vm_compute; exact I.

Class ByteOrder := {
  read_u16 : list Z -> outcome Z;
  read_u32 : list Z -> outcome Z;
  read_i32 : list Z -> outcome Z;
  write_u16 : list Z -> Z -> outcome (list Z);
  write_u32 : list Z -> Z -> outcome (list Z);
  write_i32 : list Z -> Z -> outcome (list Z)
}.

(** Big-endian encodings. *)
Definition be16 (n : Z) : list Z := [n / 256; n mod 256].
Definition be32 (n : Z) : list Z :=
  [n / 16777216; n / 65536 mod 256; n / 256 mod 256; n mod 256].

Class NetworkEndian (BO : ByteOrder) : Prop := {
  read_u16_be a b l : byte a -> byte b -> read_u16 (a :: b :: l) = Ret (256 * a + b);
  read_u32_be a b c d l : byte a -> byte b -> byte c -> byte d ->
    read_u32 (a :: b :: c :: d :: l) = Ret (16777216 * a + 65536 * b + 256 * c + d);
  read_i32_be a b c d l : byte a -> byte b -> byte c -> byte d ->
    read_i32 (a :: b :: c :: d :: l) =
      Ret (wrap_i 32 (16777216 * a + 65536 * b + 256 * c + d));
  write_u16_be l n : (2 <= length l)%nat -> 0 <= n <= U16_MAX ->
    write_u16 l n = Ret (be16 n ++ drop 2 l);
  write_u32_be l n : (4 <= length l)%nat -> 0 <= n <= U32_MAX ->
    write_u32 l n = Ret (be32 n ++ drop 4 l);
  write_i32_be l n : (4 <= length l)%nat -> - 2147483648 <= n <= I32_MAX ->
    write_i32 l n = Ret (be32 (n mod 2 ^ 32) ++ drop 4 l);
  read_u16_short l : (length l < 2)%nat -> read_u16 l = Panic;
  read_u32_short l : (length l < 4)%nat -> read_u32 l = Panic;
  read_i32_short l : (length l < 4)%nat -> read_i32 l = Panic
}.

(** An implementation. *)
Definition network_endian : ByteOrder := {|
  read_u16 l := match l with a :: b :: _ => Ret (256 * a + b) | _ => Panic end;
  read_u32 l := match l with
                | a :: b :: c :: d :: _ => Ret (16777216 * a + 65536 * b + 256 * c + d)
                | _ => Panic
                end;
  read_i32 l := match l with
                | a :: b :: c :: d :: _ =>
                    Ret (wrap_i 32 (16777216 * a + 65536 * b + 256 * c + d))
                | _ => Panic
                end;
  write_u16 l n := match l with _ :: _ :: l => Ret (be16 n ++ l) | _ => Panic end;
  write_u32 l n := match l with _ :: _ :: _ :: _ :: l => Ret (be32 n ++ l) | _ => Panic end;
  write_i32 l n := match l with
                   | _ :: _ :: _ :: _ :: l => Ret (be32 (n mod 2 ^ 32) ++ l)
                   | _ => Panic
                   end
|}.

Lemma network_endian_laws : NetworkEndian network_endian.
Proof.
  split; cbn; intros; try done.
  all: destruct l as [|? [|? [|? [|? l]]]]; cbn in *; done || lia.
Qed.

(** Two- and four-byte encodings are bytes and decode to what was encoded. *)
Lemma byte_mod k : byte (k mod 256).
Proof. unfold byte. pose proof (Z.mod_pos_bound k 256). lia. Qed.

Lemma byte_div n k : 0 < k -> 0 <= n < 256 * k -> byte (n / k).
Proof.
  intros. unfold byte. split; [apply Z.div_pos; lia|].
  apply Z.lt_succ_r, Z.div_lt_upper_bound; lia.
Qed.

Lemma be16_bytes n : 0 <= n <= U16_MAX -> bytes (be16 n).
Proof.
  intros. repeat apply Forall_cons_2; [apply byte_div; lia|apply byte_mod|apply Forall_nil_2].
Qed.

Lemma be32_bytes n : 0 <= n <= U32_MAX -> bytes (be32 n).
Proof.
  intros. repeat apply Forall_cons_2; try apply byte_mod; [apply byte_div; lia|apply Forall_nil_2].
Qed.

Lemma be32_decode n :
  0 <= n -> 16777216 * (n / 16777216) + 65536 * (n / 65536 mod 256) + 256 * (n / 256 mod 256)
    + n mod 256 = n.
Proof.
  intros. change 16777216 with (256 * 256 * 256). change 65536 with (256 * 256).
  rewrite <-!Z.div_div by lia.
  pose proof (Z.div_mod n 256). pose proof (Z.div_mod (n / 256) 256).
  pose proof (Z.div_mod (n / 256 / 256) 256). lia.
Qed.

(** ** Fields of a buffer *)

Section Fields.
Context {BO : ByteOrder}.

(** [NetworkEndian::read_u16(&data[a..b])] *)
Definition get_u16 (a b : nat) (data : list Z) : outcome Z := d ← range data a b; read_u16 d.

(** [NetworkEndian::write_u16(&mut data[a..b], value)] *)
Definition put_u16 (a b : nat) (value : Z) (data : list Z) : outcome (list Z) :=
  d ← range data a b;
  d ← write_u16 d value;
  Ret (splice data a d).

(** The same for [u32]. *)
Definition get_u32 (a b : nat) (data : list Z) : outcome Z := d ← range data a b; read_u32 d.

Definition put_u32 (a b : nat) (value : Z) (data : list Z) : outcome (list Z) :=
  d ← range data a b;
  d ← write_u32 d value;
  Ret (splice data a d).
End Fields.

(** Complement of a 16-bit word. *)
Definition not16 (m : Z) : Z := 0xffff - m.

(** [buffer[i] = v] *)
Definition set_byte (i : nat) (v : Z) (buffer : list Z) : outcome (list Z) :=
  if (i <? length buffer)%nat then Ret (<[i := v]> buffer) else Panic.

(** Run the model on a slice whose bounds are known. *)
Ltac step_range := rewrite range_Ret by (cbn; lia); cbn [mbind outcome_bind].

Section Laws.
Context {BO : ByteOrder} {NE : NetworkEndian BO}.

Lemma read_be16 n l : 0 <= n <= U16_MAX -> read_u16 (be16 n ++ l) = Ret n.
Proof.
  intros Hn. pose proof (be16_bytes n Hn) as Hb. unfold be16 in *. cbn [app].
  apply Forall_cons_1 in Hb as [H1 [H2 _]%Forall_cons_1].
  rewrite read_u16_be by done. f_equal. symmetry. apply Z.div_mod. lia.
Qed.

Lemma read_be32 n l : 0 <= n <= U32_MAX -> read_u32 (be32 n ++ l) = Ret n.
Proof.
  intros Hn. pose proof (be32_bytes n Hn) as Hb. unfold be32 in *. cbn [app].
  apply Forall_cons_1 in Hb as [H1 [H2 [H3 [H4 _]%Forall_cons_1]%Forall_cons_1]%Forall_cons_1].
  rewrite read_u32_be by done. f_equal. apply be32_decode. lia.
Qed.

Lemma read_be32_signed n l :
  - 2147483648 <= n <= I32_MAX -> read_i32 (be32 (n mod 2 ^ 32) ++ l) = Ret n.
Proof.
  intros Hn. pose proof (Z.mod_pos_bound n (2 ^ 32) ltac:(lia)) as Hm.
  pose proof (be32_bytes (n mod 2 ^ 32) ltac:(lia)) as Hb. unfold be32 in *. cbn [app].
  apply Forall_cons_1 in Hb as [H1 [H2 [H3 [H4 _]%Forall_cons_1]%Forall_cons_1]%Forall_cons_1].
  rewrite read_i32_be by done. f_equal. rewrite be32_decode by lia.
  rewrite <-(wrap_i_small 32 n) at 2 by lia. apply wrap_i_congr; [lia|].
  rewrite Zminus_mod_idemp_l. by rewrite Z.sub_diag.
Qed.

Lemma read_u16_bytes l : bytes l -> (2 <= length l)%nat ->
  exists n, read_u16 l = Ret n /\ 0 <= n <= U16_MAX.
Proof.
  intros Hb Hl. destruct l as [|a [|b l]]; cbn in Hl; try lia.
  apply Forall_cons_1 in Hb as [Ha [Hb _]%Forall_cons_1].
  rewrite read_u16_be by done. eexists. split; [done|]. unfold byte in *. lia.
Qed.

Lemma read_u32_bytes l : bytes l -> (4 <= length l)%nat ->
  exists n, read_u32 l = Ret n /\ 0 <= n <= U32_MAX.
Proof.
  intros Hb Hl. destruct l as [|a [|b [|c [|d l]]]]; cbn in Hl; try lia.
  apply Forall_cons_1 in Hb as [Ha [Hb [Hc [Hd _]%Forall_cons_1]%Forall_cons_1]%Forall_cons_1].
  rewrite read_u32_be by done. eexists. split; [done|]. unfold byte in *. lia.
Qed.

Lemma read_i32_bytes l : bytes l -> (4 <= length l)%nat ->
  exists n, read_i32 l = Ret n /\ - 2147483648 <= n <= I32_MAX.
Proof.
  intros Hb Hl. destruct l as [|a [|b [|c [|d l]]]]; cbn in Hl; try lia.
  apply Forall_cons_1 in Hb as [Ha [Hb [Hc [Hd _]%Forall_cons_1]%Forall_cons_1]%Forall_cons_1].
  rewrite read_i32_be by done. eexists. split; [done|].
  pose proof (wrap_i_range 32 (16777216 * a + 65536 * b + 256 * c + d) ltac:(lia)). lia.
Qed.
Lemma bytes_slice l start n : bytes l -> bytes (slice l start n).
Proof. intros. by apply Forall_take, Forall_drop. Qed.

Lemma bytes_lookup l i b : bytes l -> l !! i = Some b -> byte b.
Proof. apply Forall_lookup_1. Qed.

Lemma get_u16_ok a b data :
  bytes data -> (b <= length data)%nat -> b = (a + 2)%nat ->
  exists n, get_u16 a b data = Ret n /\ 0 <= n <= U16_MAX.
Proof.
  intros Hb Hl ->. unfold get_u16. rewrite range_Ret by lia. cbn [mbind outcome_bind].
  apply read_u16_bytes; [by apply bytes_slice|]. rewrite length_slice. lia.
Qed.

Lemma get_u32_ok a b data :
  bytes data -> (b <= length data)%nat -> b = (a + 4)%nat ->
  exists n, get_u32 a b data = Ret n /\ 0 <= n <= U32_MAX.
Proof.
  intros Hb Hl ->. unfold get_u32. rewrite range_Ret by lia. cbn [mbind outcome_bind].
  apply read_u32_bytes; [by apply bytes_slice|]. rewrite length_slice. lia.
Qed.

Lemma set_byte_ok i v l : (i < length l)%nat -> set_byte i v l = Ret (<[i := v]> l).
Proof. intros. unfold set_byte. by rewrite (proj2 (Nat.ltb_lt _ _)). Qed.

Lemma slice_mid (pre x post : list Z) start n :
  start = length pre -> n = length x -> slice (pre ++ x ++ post) start n = x.
Proof. intros -> ->. unfold slice. by rewrite drop_app_length, take_app_length. Qed.

Lemma put_u16_mid pre x post a b v :
  a = length pre -> length x = 2%nat -> b = (a + 2)%nat -> 0 <= v <= U16_MAX ->
  put_u16 a b v (pre ++ x ++ post) = Ret (pre ++ be16 v ++ post).
Proof.
  intros -> Hx -> Hv. unfold put_u16. rewrite range_Ret by (rewrite ?length_app; lia).
  cbn [mbind outcome_bind]. rewrite slice_mid by lia. rewrite write_u16_be by (done || lia).
  cbn [mbind outcome_bind]. rewrite drop_ge, app_nil_r by lia. unfold splice.
  rewrite take_app_length. do 3 f_equal. rewrite drop_app_ge by (cbn; lia).
  rewrite drop_app_length' by (cbn; lia). done.
Qed.

Lemma get_u16_mid pre x post a b :
  a = length pre -> length x = 2%nat -> b = (a + 2)%nat ->
  get_u16 a b (pre ++ x ++ post) = read_u16 x.
Proof.
  intros -> Hx ->. unfold get_u16. rewrite range_Ret by (rewrite ?length_app; lia).
  cbn [mbind outcome_bind]. by rewrite slice_mid by lia.
Qed.

End Laws.
