(* ===== verification/Octets.v ===== *)
(** * Fixed headers, octet by octet

    The packet types of src/wire index their buffer at constant positions.  On a
    buffer whose header octets are explicit, [o0 :: o1 :: ... :: rest], every such
    access evaluates; the lemmas and tactics of this file do so, and settle the bit
    operations on single octets and 16-bit words by evaluating them on all
    values. *)

From S2P Require Import Prelude Bytes.
Open Scope Z_scope.

(** Words in range. *)
Definition word (n : Z) : Prop := 0 <= n <= U16_MAX.
Definition u32_ok (n : Z) : Prop := 0 <= n <= U32_MAX.

Lemma word_octets n : word n -> byte (n / 256) /\ byte (n mod 256).
Proof. intros Hn. unfold word in Hn. split; [apply byte_div; lia|apply byte_mod]. Qed.

Lemma land_word a m : word a -> word (Z.land a m).
Proof.
  unfold word. intros Ha. assert (Z.land a m = Z.land a m mod 2 ^ 16) as ->.
  { rewrite <-Z.land_ones by lia. rewrite <-Z.land_assoc, (Z.land_comm m), Z.land_assoc.
    rewrite (Z.land_ones a), (Z.mod_small a) by lia. done. }
  pose proof (Z.mod_pos_bound (Z.land a m) (2 ^ 16)). lia.
Qed.

Lemma lor_word a b : word a -> word b -> word (Z.lor a b).
Proof.
  unfold word. intros Ha Hb. split; [apply Z.lor_nonneg; lia|].
  destruct (decide (Z.lor a b = 0)) as [->|]; [lia|].
  apply Z.lt_succ_r. change (Z.succ 65535) with (2 ^ 16). apply Z.log2_lt_pow2.
  - pose proof (proj2 (Z.lor_nonneg a b)). lia.
  - rewrite Z.log2_lor by lia. apply Z.max_lub_lt.
    + destruct (decide (a = 0)) as [->|]; [done|]. apply Z.log2_lt_pow2; lia.
    + destruct (decide (b = 0)) as [->|]; [done|]. apply Z.log2_lt_pow2; lia.
Qed.

(** [data[i]] *)
Definition get_byte (i : nat) (data : list Z) : outcome Z := unwrap (data !! i).

(** [data[a..b].copy_from_slice(value)] *)
Definition put_slice (a b : nat) (value data : list Z) : outcome (list Z) :=
  d ← range data a b;
  if (length value =? length d)%nat then Ret (splice data a value) else Panic.

(** [data[i] = f(data[i])] *)
Definition update_byte (i : nat) (f : Z -> Z) (data : list Z) : outcome (list Z) :=
  v ← get_byte i data;
  set_byte i (f v) data.

Section Words.
Context {BO : ByteOrder}.

(** Read a word, change it and write it back. *)
Definition update_u16 (a b : nat) (f : Z -> Z) (data : list Z) : outcome (list Z) :=
  raw ← get_u16 a b data;
  put_u16 a b (f raw) data.
End Words.

Lemma get_byte_ok i data : (i < length data)%nat -> get_byte i data = Ret (data !!! i).
Proof.
  intros Hi. unfold get_byte. destruct (lookup_lt_is_Some_2 data i Hi) as [x Hx].
  by rewrite Hx, (list_lookup_total_correct _ _ _ Hx).
Qed.

Lemma put_slice_ok a b v data :
  (a <= b <= length data)%nat -> length v = (b - a)%nat ->
  put_slice a b v data = Ret (take a data ++ v ++ drop b data).
Proof.
  intros Hab Hv. unfold put_slice. rewrite range_Ret by lia. cbn [mbind outcome_bind].
  rewrite length_slice, Hv. rewrite (proj2 (Nat.eqb_eq _ _)) by lia. unfold splice. do 4 f_equal. lia.
Qed.

Section WordLemmas.
Context {BO : ByteOrder} {NE : NetworkEndian BO}.

Lemma get_u16_octets a b data x y :
  b = (a + 2)%nat -> data !! a = Some x -> data !! S a = Some y -> byte x -> byte y ->
  get_u16 a b data = Ret (256 * x + y).
Proof.
  intros -> Hx Hy Hbx Hby. unfold get_u16. apply lookup_lt_Some in Hy as Hl.
  rewrite range_Ret by lia. cbn [mbind outcome_bind]. unfold slice.
  replace (a + 2 - a)%nat with 2%nat by lia.
  rewrite (drop_S _ _ _ Hx), (drop_S _ _ _ Hy). cbn [take]. by apply read_u16_be.
Qed.

Lemma put_u16_octets a b data v :
  b = (a + 2)%nat -> (b <= length data)%nat -> 0 <= v <= U16_MAX ->
  put_u16 a b v data = Ret (take a data ++ v / 256 :: v mod 256 :: drop b data).
Proof.
  intros -> Hl Hv. unfold put_u16. rewrite range_Ret by lia. cbn [mbind outcome_bind].
  rewrite write_u16_be by (rewrite ?length_slice; lia). cbn [mbind outcome_bind].
  unfold splice. rewrite drop_ge, app_nil_r by (rewrite length_slice; lia). cbn. do 4 f_equal.
Qed.

Lemma put_u32_octets a b data v :
  b = (a + 4)%nat -> (b <= length data)%nat -> 0 <= v <= U32_MAX ->
  put_u32 a b v data = Ret (take a data ++ be32 v ++ drop b data).
Proof.
  intros -> Hl Hv. unfold put_u32. rewrite range_Ret by lia. cbn [mbind outcome_bind].
  rewrite write_u32_be by (rewrite ?length_slice; lia). cbn [mbind outcome_bind].
  unfold splice. rewrite drop_ge, app_nil_r by (rewrite length_slice; lia). cbn. do 6 f_equal.
Qed.

(** Reading a word where it was written. *)
Lemma get_u16_at pre n post a b :
  a = length pre -> b = (a + 2)%nat -> 0 <= n <= U16_MAX -> get_u16 a b (pre ++ be16 n ++ post) = Ret n.
Proof.
  intros -> -> Hn. unfold get_u16. rewrite range_Ret by (rewrite ?length_app; cbn; lia). cbn [mbind outcome_bind]. unfold slice.
  rewrite drop_app_length, take_app_le by (cbn; lia). rewrite take_ge by (cbn; lia). rewrite <- (app_nil_r (be16 n)). by apply read_be16.
Qed.

Lemma get_u32_at pre n post a b :
  a = length pre -> b = (a + 4)%nat -> 0 <= n <= U32_MAX -> get_u32 a b (pre ++ be32 n ++ post) = Ret n.
Proof.
  intros -> -> Hn. unfold get_u32. rewrite range_Ret by (rewrite ?length_app; cbn; lia). cbn [mbind outcome_bind]. unfold slice.
  rewrite drop_app_length, take_app_le by (cbn; lia). rewrite take_ge by (cbn; lia). rewrite <- (app_nil_r (be32 n)). by apply read_be32.
Qed.
End WordLemmas.

(** Slices to and from an index. *)
Lemma slice_0 {A} (l : list A) n : slice l 0 n = take n l.
Proof. unfold slice. by rewrite drop_0. Qed.

Lemma slice_to_end {A} (l : list A) n : slice l n (length l - n) = drop n l.
Proof. unfold slice. apply take_ge. rewrite length_drop. lia. Qed.

Lemma range_from {A} (l : list A) n : (n <= length l)%nat -> range l n (length l) = Ret (drop n l).
Proof. intros. rewrite range_Ret by lia. by rewrite slice_to_end. Qed.

Lemma range_to {A} (l : list A) n : (n <= length l)%nat -> range l 0 n = Ret (take n l).
Proof. intros. rewrite range_Ret by lia. by rewrite Nat.sub_0_r, slice_0. Qed.

(** ** Headers

    Accesses to the first octets of a buffer do not look at the others. *)

Section Prefix.
Context {BO : ByteOrder} (h t : list Z).

Lemma get_byte_prefix i : (i < length h)%nat -> get_byte i (h ++ t) = get_byte i h.
Proof. intros. unfold get_byte. by rewrite lookup_app_l. Qed.

Lemma range_prefix a b : (b <= length h)%nat -> range (h ++ t) a b = range h a b.
Proof.
  intros Hb. unfold range. rewrite length_app. rewrite (proj2 (Nat.leb_le b (length h))) by done.
  rewrite (proj2 (Nat.leb_le b _)) by lia. destruct (Nat.leb_spec a b) as [Ha|Ha]; cbn; [|done].
  f_equal. unfold slice. rewrite drop_app_le by lia. rewrite take_app_le by (rewrite length_drop; lia). done.
Qed.

Lemma get_u16_prefix a b : (b <= length h)%nat -> get_u16 a b (h ++ t) = get_u16 a b h.
Proof. intros. unfold get_u16. by rewrite range_prefix. Qed.

Lemma get_u32_prefix a b : (b <= length h)%nat -> get_u32 a b (h ++ t) = get_u32 a b h.
Proof. intros. unfold get_u32. by rewrite range_prefix. Qed.

Lemma set_byte_prefix i v h' :
  set_byte i v h = Ret h' -> set_byte i v (h ++ t) = Ret (h' ++ t).
Proof.
  unfold set_byte. rewrite length_app. destruct (Nat.ltb_spec i (length h)); [|done]. intros [= <-].
  rewrite (proj2 (Nat.ltb_lt _ _)) by lia. by rewrite insert_app_l.
Qed.

Lemma splice_prefix a v :
  (a + length v <= length h)%nat -> splice (h ++ t) a v = splice h a v ++ t.
Proof.
  intros. unfold splice. rewrite take_app_le by lia. rewrite drop_app_le by lia. by rewrite <-!app_assoc.
Qed.

Lemma put_slice_prefix a b v h' :
  put_slice a b v h = Ret h' -> put_slice a b v (h ++ t) = Ret (h' ++ t).
Proof.
  unfold put_slice. intros H. destruct (range h a b) as [d|] eqn:Hr; cbn [mbind outcome_bind] in H; [|done].
  assert ((a <= b)%nat /\ (b <= length h)%nat) as [Ha Hb].
  { revert Hr. unfold range. destruct (Nat.leb_spec a b), (Nat.leb_spec b (length h)); cbn; done. }
  rewrite range_prefix, Hr by done. cbn [mbind outcome_bind]. destruct (Nat.eqb_spec (length v) (length d)); [|done].
  injection H as <-. rewrite range_Ret in Hr by done. injection Hr as <-. rewrite length_slice in *.
  f_equal. apply splice_prefix. lia.
Qed.
End Prefix.

(** ** All octets, all words *)

Lemma all_bytes (P : Z -> bool) :
  forallb (fun n => P (Z.of_nat n)) (seq 0 256) = true -> forall x, byte x -> P x = true.
Proof.
  intros H x Hx. unfold byte in Hx. rewrite forallb_forall in H.
  specialize (H (Z.to_nat x)). rewrite Z2Nat.id in H by lia. apply H, in_seq. lia.
Qed.

Fixpoint all_below (P : Z -> bool) (n : nat) (base : Z) : bool :=
  match n with
  | O => P base
  | S n => all_below P n base && all_below P n (base + 2 ^ Z.of_nat n)
  end.

Lemma all_below_spec P n base :
  all_below P n base = true -> forall x, base <= x < base + 2 ^ Z.of_nat n -> P x = true.
Proof.
  revert base. induction n as [|n IH]; cbn [all_below]; intros base H x Hx.
  - replace x with base by (cbn in Hx; lia). done.
  - apply andb_prop in H as [H1 H2]. rewrite Nat2Z.inj_succ, Z.pow_succ_r in Hx by lia.
    destruct (decide (x < base + 2 ^ Z.of_nat n)); [apply (IH base); [done|lia]|].
    apply (IH (base + 2 ^ Z.of_nat n)); [done|lia].
Qed.

Lemma all_words (P : Z -> bool) :
  all_below P 16 0 = true -> forall x, 0 <= x <= U16_MAX -> P x = true.
Proof. intros H x Hx. apply (all_below_spec P 16 0); [done|]. change (2 ^ Z.of_nat 16) with 65536. lia. Qed.

(** Prove an equation between functions of one octet [x], or of one word, by
    evaluation. *)
Ltac by_bytes x :=
  lazymatch goal with
  | |- ?l = ?r =>
      let P := eval pattern x in (l =? r) in
      lazymatch P with ?f _ => apply Z.eqb_eq; apply (all_bytes f); [by vm_compute|done] end
  end.

Ltac by_words x :=
  lazymatch goal with
  | |- ?l = ?r =>
      let P := eval pattern x in (l =? r) in
      lazymatch P with ?f _ => apply Z.eqb_eq; apply (all_words f); [by vm_compute|lia] end
  end.

(** Take the first octets of a list that is long enough. *)
Ltac octets_of l :=
  repeat match goal with
  | H : (_ <= length l)%nat |- _ => progress cbn in H
  end;
  let rec go l :=
    lazymatch goal with
    | H : (S _ <= length l)%nat |- _ =>
        let o := fresh "o" in let l' := fresh l in
        destruct l as [|o l']; [exfalso; cbn in H; lia|]; cbn [length] in H;
        apply le_S_n in H; go l'
    | _ => idtac
    end
  in go l.
