(* ===== verification/Phy.v ===== *)
(** * Checksum capabilities of a device (src/phy/mod.rs)

    Which checksums the device computes itself and which ones the stack verifies
    on receipt and computes on transmission. *)

From S2P Require Import Prelude.

Inductive Checksum := Both | Rx | Tx | ChecksumNone.

Module Checksum.
Definition rx (c : Checksum) : bool := match c with Both | Rx => true | _ => false end.
Definition tx (c : Checksum) : bool := match c with Both | Tx => true | _ => false end.
End Checksum.

Record ChecksumCapabilities := mkCaps {
  caps_ipv4 : Checksum;
  caps_udp : Checksum;
  caps_tcp : Checksum;
  caps_icmpv4 : Checksum;
  caps_icmpv6 : Checksum
}.

Module ChecksumCapabilities.
(** [ChecksumCapabilities::default()] *)
Definition default : ChecksumCapabilities := mkCaps Both Both Both Both Both.
Definition ignored : ChecksumCapabilities :=
  mkCaps ChecksumNone ChecksumNone ChecksumNone ChecksumNone ChecksumNone.
End ChecksumCapabilities.
