(* ===== verification/Ip.v ===== *)
(** * IP types and the Internet checksum (src/wire/ip.rs)

    Addresses are lists of octets.  The checksum functions accumulate in [u32]
    and [u16] with overflow checks. *)

From S2P Require Import Prelude Bytes.
Open Scope Z_scope.

(** The error of every wire format (src/wire/mod.rs). *)
Inductive WireError := Error.

Inductive Version := V4 | V6.

#[export] Instance Version_eq_dec : EqDecision Version.
Proof. solve_decision. Defined.

Module Protocol.
Inductive t :=
| HopByHop | Icmp | Igmp | Tcp | Udp | Ipv6Route | Ipv6Frag | IpSecEsp | IpSecAh
| Icmpv6 | Ipv6NoNxt | Ipv6Opts
| Unknown (id : Z).

Definition from (value : Z) : t :=
  if value =? 0x00 then HopByHop
  else if value =? 0x01 then Icmp
  else if value =? 0x02 then Igmp
  else if value =? 0x06 then Tcp
  else if value =? 0x11 then Udp
  else if value =? 0x2b then Ipv6Route
  else if value =? 0x2c then Ipv6Frag
  else if value =? 0x32 then IpSecEsp
  else if value =? 0x33 then IpSecAh
  else if value =? 0x3a then Icmpv6
  else if value =? 0x3b then Ipv6NoNxt
  else if value =? 0x3c then Ipv6Opts
  else Unknown value.

Definition into (p : t) : Z :=
  match p with
  | HopByHop => 0x00 | Icmp => 0x01 | Igmp => 0x02 | Tcp => 0x06 | Udp => 0x11
  | Ipv6Route => 0x2b | Ipv6Frag => 0x2c | IpSecEsp => 0x32 | IpSecAh => 0x33
  | Icmpv6 => 0x3a | Ipv6NoNxt => 0x3b | Ipv6Opts => 0x3c
  | Unknown other => other
  end.

#[global] Instance eq_dec : EqDecision t.
Proof. solve_decision. Defined.
End Protocol.

Inductive Address :=
| Ipv4 (octets : list Z)
| Ipv6 (octets : list Z).

#[export] Instance Address_eq_dec : EqDecision Address.
Proof. solve_decision. Defined.

(** The array types [[u8; 4]] and [[u8; 16]]. *)
Definition address_wf (a : Address) : Prop :=
  match a with
  | Ipv4 o => length o = 4%nat /\ bytes o
  | Ipv6 o => length o = 16%nat /\ bytes o
  end.

(** The octets of src/wire/ipv4.rs and src/wire/ipv6.rs: an address is the array
    of its octets. *)
Module Ipv4Address.
Definition UNSPECIFIED : list Z := replicate 4 0.
Definition BROADCAST : list Z := replicate 4 0xff.
Definition MULTICAST_ALL_SYSTEMS : list Z := [224; 0; 0; 1].
Definition MULTICAST_ALL_ROUTERS : list Z := [224; 0; 0; 2].

Definition from_bytes (data : list Z) : outcome (list Z) :=
  if (length data =? 4)%nat then Ret data else Panic.

Definition is_broadcast (o : list Z) : bool := bool_decide (o = replicate 4 255).
Definition is_multicast (o : list Z) : bool := Z.land (o !!! 0%nat) 0xf0 =? 224.
Definition is_unspecified (o : list Z) : bool := o !!! 0%nat =? 0.
Definition is_unicast (o : list Z) : bool :=
  negb (is_broadcast o || is_multicast o || is_unspecified o).
Definition is_link_local (o : list Z) : bool := bool_decide (take 2 o = [169; 254]).
Definition is_loopback (o : list Z) : bool := o !!! 0%nat =? 127.
End Ipv4Address.

Module MulticastScope.
Inductive t :=
| InterfaceLocal | LinkLocal | AdminLocal | SiteLocal | OrganizationLocal | Global | Unknown.

Definition from (value : Z) : t :=
  if value =? 0x1 then InterfaceLocal
  else if value =? 0x2 then LinkLocal
  else if value =? 0x4 then AdminLocal
  else if value =? 0x5 then SiteLocal
  else if value =? 0x8 then OrganizationLocal
  else if value =? 0xE then Global
  else Unknown.

(** [scope as u8] *)
Definition as_u8 (s : t) : Z :=
  match s with
  | InterfaceLocal => 0x1 | LinkLocal => 0x2 | AdminLocal => 0x4 | SiteLocal => 0x5
  | OrganizationLocal => 0x8 | Global => 0xE | Unknown => 0xFF
  end.
End MulticastScope.

Module Ipv6Address.
Definition UNSPECIFIED : list Z := replicate 16 0.
Definition LINK_LOCAL_ALL_NODES : list Z := [0xff; 0x02] ++ replicate 13 0 ++ [0x01].
Definition LINK_LOCAL_ALL_ROUTERS : list Z := [0xff; 0x02] ++ replicate 13 0 ++ [0x02].
Definition LOOPBACK : list Z := replicate 15 0 ++ [0x01].
Definition IPV4_MAPPED_PREFIX : list Z := replicate 10 0 ++ [0xff; 0xff].

Definition from_bytes (data : list Z) : outcome (list Z) :=
  if (length data =? 16)%nat then Ret data else Panic.

Definition is_multicast (o : list Z) : bool := o !!! 0%nat =? 0xff.
Definition is_unspecified (o : list Z) : bool := bool_decide (o = replicate 16 0).
Definition is_unicast (o : list Z) : bool := negb (is_multicast o || is_unspecified o).
Definition is_global_unicast (o : list Z) : bool := Z.shiftr (o !!! 0%nat) 5 =? 1.
Definition is_link_local (o : list Z) : bool :=
  bool_decide (take 8 o = [0xfe; 0x80; 0; 0; 0; 0; 0; 0]).
Definition is_unique_local (o : list Z) : bool := Z.land (o !!! 0%nat) 0xfe =? 0xfc.
Definition is_loopback (o : list Z) : bool := bool_decide (o = LOOPBACK).
Definition is_ipv4_mapped (o : list Z) : bool := bool_decide (take 12 o = IPV4_MAPPED_PREFIX).

Definition as_ipv4 (o : list Z) : outcome (option (list Z)) :=
  if is_ipv4_mapped o then a ← Ipv4Address.from_bytes (drop 12 o); Ret (Some a) else Ret None.

(** [From<ipv4::Address>] *)
Definition from_ipv4 (o : list Z) : list Z := IPV4_MAPPED_PREFIX ++ o.

Definition mask (m : Z) (o : list Z) : outcome (list Z) :=
  _ ← rust_assert (m <=? 128);
  let idx := Z.to_nat (m / 8) in
  let modulus := m mod 8 in
  let '(first, second) := (take idx o, drop idx o) in
  let bytes := first ++ replicate (16 - idx) 0 in
  if (idx <? 16)%nat then
    part ← unwrap (second !! 0%nat);
    Ret (<[idx := Z.land part (wrap_u 8 (Z.lnot (Z.shiftr 0xff modulus)))]> bytes)
  else Ret bytes.

Definition solicited_node (o : list Z) : outcome (list Z) :=
  _ ← rust_assert (is_unicast o);
  Ret ([0xff; 0x02; 0; 0; 0; 0; 0; 0; 0; 0; 0; 0x01; 0xff] ++
       [o !!! 13%nat; o !!! 14%nat; o !!! 15%nat]).

Definition multicast_scope (o : list Z) : MulticastScope.t :=
  if is_multicast o then MulticastScope.from (Z.land (o !!! 1%nat) 0xf)
  else if is_link_local o then MulticastScope.LinkLocal
  else if is_unique_local o || is_global_unicast o then MulticastScope.Global
  else MulticastScope.Unknown.
End Ipv6Address.

Module Address.
Definition version (a : Address) : Version := match a with Ipv4 _ => V4 | Ipv6 _ => V6 end.

Definition as_bytes (a : Address) : list Z := match a with Ipv4 o => o | Ipv6 o => o end.

Definition is_unicast (a : Address) : bool :=
  match a with Ipv4 o => Ipv4Address.is_unicast o | Ipv6 o => Ipv6Address.is_unicast o end.

Definition is_multicast (a : Address) : bool :=
  match a with Ipv4 o => Ipv4Address.is_multicast o | Ipv6 o => Ipv6Address.is_multicast o end.

Definition is_broadcast (a : Address) : bool :=
  match a with Ipv4 o => Ipv4Address.is_broadcast o | Ipv6 _ => false end.

Definition is_unspecified (a : Address) : bool :=
  match a with Ipv4 o => Ipv4Address.is_unspecified o | Ipv6 o => Ipv6Address.is_unspecified o end.
End Address.

Record Endpoint := mkEndpoint { ep_addr : Address; ep_port : Z }.
Record ListenEndpoint := mkListen { le_addr : option Address; le_port : Z }.

#[export] Instance Endpoint_eq_dec : EqDecision Endpoint.
Proof. solve_decision. Defined.
#[export] Instance ListenEndpoint_eq_dec : EqDecision ListenEndpoint.
Proof. solve_decision. Defined.

Definition is_specified (l : ListenEndpoint) : bool :=
  match le_addr l with Some _ => negb (le_port l =? 0) | None => false end.

(** The fields shared by [Ipv4Repr] and [Ipv6Repr]. *)
Record IpHeader := mkIpHeader {
  ih_src_addr : list Z;
  ih_dst_addr : list Z;
  ih_next_header : Protocol.t;
  ih_payload_len : nat;
  ih_hop_limit : Z
}.

#[export] Instance eta_IpHeader : Settable IpHeader := fun h =>
  mkIpHeader (ih_src_addr h) (ih_dst_addr h) (ih_next_header h) (ih_payload_len h)
    (ih_hop_limit h).

Inductive IpRepr :=
| ReprIpv4 (h : IpHeader)
| ReprIpv6 (h : IpHeader).

Module IpRepr.
Definition new (src_addr dst_addr : Address) (next_header : Protocol.t) (payload_len : nat)
    (hop_limit : Z) : outcome IpRepr :=
  match src_addr, dst_addr with
  | Ipv4 s, Ipv4 d => Ret (ReprIpv4 (mkIpHeader s d next_header payload_len hop_limit))
  | Ipv6 s, Ipv6 d => Ret (ReprIpv6 (mkIpHeader s d next_header payload_len hop_limit))
  | _, _ => Panic
  end.

Definition version (r : IpRepr) : Version := match r with ReprIpv4 _ => V4 | ReprIpv6 _ => V6 end.

Definition src_addr (r : IpRepr) : Address :=
  match r with ReprIpv4 h => Ipv4 (ih_src_addr h) | ReprIpv6 h => Ipv6 (ih_src_addr h) end.

Definition dst_addr (r : IpRepr) : Address :=
  match r with ReprIpv4 h => Ipv4 (ih_dst_addr h) | ReprIpv6 h => Ipv6 (ih_dst_addr h) end.

Definition next_header (r : IpRepr) : Protocol.t :=
  match r with ReprIpv4 h => ih_next_header h | ReprIpv6 h => ih_next_header h end.

Definition payload_len (r : IpRepr) : nat :=
  match r with ReprIpv4 h => ih_payload_len h | ReprIpv6 h => ih_payload_len h end.

Definition set_payload_len (length : nat) (r : IpRepr) : IpRepr :=
  match r with
  | ReprIpv4 h => ReprIpv4 (h <| ih_payload_len := length |>)
  | ReprIpv6 h => ReprIpv6 (h <| ih_payload_len := length |>)
  end.

Definition hop_limit (r : IpRepr) : Z :=
  match r with ReprIpv4 h => ih_hop_limit h | ReprIpv6 h => ih_hop_limit h end.

(** [buffer_len] of [Ipv4Repr] and [Ipv6Repr]: no options are emitted. *)
Definition header_len (r : IpRepr) : nat := match r with ReprIpv4 _ => 20 | ReprIpv6 _ => 40 end.

Definition buffer_len (r : IpRepr) : nat := (header_len r + payload_len r)%nat.
End IpRepr.

(** ** The Internet checksum *)

Module checksum.
Section Functions.
Context {BO : ByteOrder}.

Definition propagate_carries (word : Z) : outcome Z :=
  let sum := Z.shiftr word 16 + Z.land word 0xffff in
  uadd U16_MAX (wrap_u 16 (Z.shiftr sum 16)) (wrap_u 16 sum).

(** [while d.len() >= 2 { accum += ...; d = &d[2..] }]; [fuel] bounds the
    iterations, each of which takes two bytes. *)
Fixpoint sum_pairs (fuel : nat) (d : list Z) (accum : Z) : outcome (Z * list Z) :=
  match fuel with
  | O => Ret (accum, d)
  | S fuel =>
      if (2 <=? length d)%nat then
        w ← read_u16 d;
        accum ← uadd U32_MAX accum w;
        d ← range d 2 (length d);
        sum_pairs fuel d accum
      else Ret (accum, d)
  end.

Definition CHUNK_SIZE : nat := 32.

Fixpoint sum_chunks (fuel : nat) (data : list Z) (accum : Z) : outcome (Z * list Z) :=
  match fuel with
  | O => Ret (accum, data)
  | S fuel =>
      if (CHUNK_SIZE <=? length data)%nat then
        d ← range data 0 CHUNK_SIZE;
        '(accum, _) ← sum_pairs (length d) d accum;
        data ← range data CHUNK_SIZE (length data);
        sum_chunks fuel data accum
      else Ret (accum, data)
  end.

Definition data (l : list Z) : outcome Z :=
  '(accum, l) ← sum_chunks (length l) l 0;
  '(accum, l) ← sum_pairs (length l) l accum;
  accum ← match l with
          | value :: _ => uadd U32_MAX accum (wrap_u 32 (Z.shiftl value 8))
          | [] => Ret accum
          end;
  propagate_carries accum.

Fixpoint sum_words (checksums : list Z) (accum : Z) : outcome Z :=
  match checksums with
  | [] => Ret accum
  | word :: checksums =>
      accum ← uadd U32_MAX accum word;
      sum_words checksums accum
  end.

Definition combine (checksums : list Z) : outcome Z :=
  accum ← sum_words checksums 0;
  propagate_carries accum.

(** [pseudo_header_v4] and [pseudo_header_v6], on the octets. *)
Definition pseudo_header_octets (src_addr dst_addr : list Z) (next_header : Protocol.t)
    (length : Z) : outcome Z :=
  let proto_len := <[1%nat := Protocol.into next_header]> (replicate 4 0) in
  d ← range proto_len 2 4;
  d ← write_u16 d (wrap_u 16 length);
  let proto_len := splice proto_len 2 d in
  s1 ← data src_addr;
  s2 ← data dst_addr;
  s3 ← data proto_len;
  combine [s1; s2; s3].

Definition pseudo_header (src_addr dst_addr : Address) (next_header : Protocol.t)
    (length : Z) : outcome Z :=
  match src_addr, dst_addr with
  | Ipv4 s, Ipv4 d => pseudo_header_octets s d next_header length
  | Ipv6 s, Ipv6 d => pseudo_header_octets s d next_header length
  | _, _ => Panic
  end.
End Functions.
End checksum.

(** ** The reference: ones' complement sum of 16-bit words (RFC 1071) *)

Fixpoint word_sum (l : list Z) : Z :=
  match l with
  | a :: b :: l => 256 * a + b + word_sum l
  | [a] => 256 * a
  | [] => 0
  end.

(** The ones' complement sum of words whose sum is [x]: 0 is only the sum of
    zeros. *)
Definition fold16 (x : Z) : Z := if x =? 0 then 0 else (x - 1) mod 65535 + 1.

Section ChecksumLemmas.
Context {BO : ByteOrder} {NE : NetworkEndian BO}.
Implicit Types (l : list Z) (x : Z).

Lemma fold16_range x : 0 <= x -> 0 <= fold16 x <= U16_MAX.
Proof.
  intros. unfold fold16. decide_tests; [lia|]. pose proof (Z.mod_pos_bound (x - 1) 65535). lia.
Qed.

Lemma propagate_carries_spec x :
  0 <= x <= U32_MAX -> checksum.propagate_carries x = Ret (fold16 x).
Proof.
  intros Hx. unfold checksum.propagate_carries, wrap_u, fold16.
  change (Z.land x 0xffff) with (Z.land x (Z.ones 16)). rewrite Z.land_ones, !Z.shiftr_div_pow2 by lia.
  change (2 ^ 16) with 65536. pose proof (Z.div_mod x 65536 ltac:(lia)) as Hdm.
  pose proof (Z.mod_pos_bound x 65536 ltac:(lia)).
  assert (0 <= x / 65536 <= 65535).
  { split; [apply Z.div_pos; lia|]. apply Z.lt_succ_r, Z.div_lt_upper_bound; lia. }
  set (h := x / 65536) in *. set (l := x mod 65536) in *. clearbody h l. subst x.
  assert ((h + l) / 65536 mod 65536 + (h + l) mod 65536 =
          if h + l <? 65536 then h + l else h + l - 65535) as Hs.
  { decide_tests.
    - rewrite Z.div_small, !Z.mod_small by lia. lia.
    - rewrite <-(Z.div_unique (h + l) 65536 1 (h + l - 65536)) by lia.
      rewrite <-(Z.mod_unique (h + l) 65536 1 (h + l - 65536)) by lia.
      rewrite Z.mod_small by lia. lia. }
  unfold uadd. rewrite Hs. decide_tests; try lia; f_equal; try lia.
  - rewrite <-(Z.mod_unique _ _ h (h + l - 1)) by lia. lia.
  - rewrite <-(Z.mod_unique _ _ (h + 1) (h + l - 65536)) by lia. lia.
Qed.

Lemma word_sum_pos l : bytes l -> 0 <= word_sum l.
Proof.
  revert l. fix IH 1. intros [|a [|b l]]; cbn; [lia| |].
  - intros [Ha _]%Forall_cons_1. unfold byte in *. lia.
  - intros [Ha [Hb Hl]%Forall_cons_1]%Forall_cons_1. specialize (IH l Hl).
    unfold byte in *. lia.
Qed.

Lemma word_sum_bound l : bytes l -> 2 * word_sum l <= 65535 * Z.of_nat (length l + 1).
Proof.
  revert l. fix IH 1. intros [|a [|b l]]; [cbn; lia| |].
  - intros [Ha _]%Forall_cons_1. unfold byte in *. cbn. lia.
  - intros [Ha [Hb Hl]%Forall_cons_1]%Forall_cons_1. specialize (IH l Hl).
    unfold byte in *. cbn [word_sum length] in *. lia.
Qed.

Lemma word_sum_app l1 l2 :
  Nat.Even (length l1) -> word_sum (l1 ++ l2) = word_sum l1 + word_sum l2.
Proof.
  revert l1. fix IH 1. intros [|a [|b l1]] He.
  - done.
  - exfalso. destruct He as [k He]. cbn in He. lia.
  - cbn [word_sum app]. rewrite IH; [lia|]. destruct He as [k He]. exists (k - 1)%nat.
    cbn in He. lia.
Qed.

Lemma bytes_drop n l : bytes l -> bytes (drop n l).
Proof. apply Forall_drop. Qed.
Lemma bytes_take n l : bytes l -> bytes (take n l).
Proof. apply Forall_take. Qed.
Lemma bytes_splice l d n : bytes l -> bytes d -> bytes (splice l n d).
Proof. intros Hl Hd. unfold splice. apply Forall_app_2; [by apply bytes_take|]. apply Forall_app_2; [done|by apply bytes_drop]. Qed.

(** The loop over pairs leaves the last byte of an odd number of bytes. *)
Definition odd_byte l : list Z := drop (2 * (length l / 2)) l.

Lemma sum_pairs_spec fuel l accum :
  (length l <= fuel)%nat -> bytes l -> 0 <= accum -> accum + word_sum l <= U32_MAX ->
  checksum.sum_pairs fuel l accum =
    Ret (accum + word_sum l - word_sum (odd_byte l), odd_byte l).
Proof.
  revert fuel l accum. fix IH 1. intros [|fuel] l accum Hf Hb Ha Hs.
  - destruct l; [|cbn in Hf; lia]. cbn. by rewrite Z.add_0_r, Z.sub_0_r.
  - destruct l as [|a [|b l]].
    + cbn. by rewrite Z.add_0_r, Z.sub_0_r.
    + change (odd_byte [a]) with [a]. cbn. do 2 f_equal. lia.
    + apply Forall_cons_1 in Hb as [H1 [H2 Hb]%Forall_cons_1].
      cbn [checksum.sum_pairs length]. change (2 <=? S (S (length l)))%nat with true.
      rewrite read_u16_be by done. cbn [mbind outcome_bind word_sum] in *.
      pose proof (word_sum_pos l Hb). unfold byte in *. unfold uadd at 1.
      rewrite (proj2 (Z.ltb_ge _ _)) by lia. cbn [mbind outcome_bind].
      rewrite range_Ret by (cbn; lia). cbn [mbind outcome_bind].
      replace (S (S (length l)) - 2)%nat with (length l) by lia.
      change (slice (a :: b :: l) 2 (length l)) with (take (length l) (drop 0 l)).
      rewrite drop_0, take_ge by lia. rewrite IH by (cbn in *; done || lia).
      assert (odd_byte (a :: b :: l) = odd_byte l) as Ho.
      { unfold odd_byte. cbn [length].
        replace (S (S (length l))) with (length l + 1 * 2)%nat by lia.
        rewrite Nat.div_add by lia.
        replace (2 * (length l / 2 + 1))%nat with (S (S (2 * (length l / 2)))) by lia. done. }
      rewrite Ho. do 2 f_equal. lia.
Qed.

Lemma odd_byte_even l : Nat.Even (length l) -> odd_byte l = [].
Proof.
  intros [k Hk]. unfold odd_byte. apply drop_ge.
  pose proof (Nat.div_mod_eq (length l) 2). pose proof (Nat.mod_upper_bound (length l) 2). lia.
Qed.

Lemma sum_chunks_spec fuel l accum :
  (length l <= fuel)%nat -> bytes l -> 0 <= accum -> accum + word_sum l <= U32_MAX ->
  exists l', checksum.sum_chunks fuel l accum = Ret (accum + word_sum l - word_sum l', l') /\
    bytes l' /\ 0 <= word_sum l' <= word_sum l.
Proof.
  revert l accum. induction fuel as [|fuel IH]; intros l accum Hf Hb Ha Hs;
    pose proof (word_sum_pos l Hb) as Hp.
  - exists l. split_and!; [|done|lia..]. cbn. do 2 f_equal. lia.
  - cbn [checksum.sum_chunks]. destruct (Nat.leb_spec checksum.CHUNK_SIZE (length l)) as [Hl|Hl].
    2: { exists l. split_and!; [|done|lia..]. do 2 f_equal. lia. }
    unfold checksum.CHUNK_SIZE in *. rewrite (range_Ret l 0 32) by lia. cbn [mbind outcome_bind].
    unfold slice. rewrite drop_0, Nat.sub_0_r.
    assert (length (take 32 l) = 32%nat) as Hl32 by (rewrite length_take; lia).
    assert (Nat.Even (length (take 32 l))) as Hev by (rewrite Hl32; by exists 16%nat).
    pose proof (word_sum_app (take 32 l) (drop 32 l) Hev) as Hsum.
    rewrite take_drop in Hsum.
    pose proof (word_sum_pos _ (bytes_take 32 l Hb)). pose proof (word_sum_pos _ (bytes_drop 32 l Hb)).
    rewrite sum_pairs_spec by (done || lia || by apply bytes_take).
    rewrite odd_byte_even by done. cbn [mbind outcome_bind word_sum].
    rewrite range_Ret by lia. cbn [mbind outcome_bind]. unfold slice.
    rewrite take_ge by (rewrite length_drop; lia).
    destruct (IH (drop 32 l) (accum + word_sum (take 32 l) - 0)) as (l' & Hr & Hb' & Hw);
      [rewrite length_drop; lia|by apply bytes_drop|lia|lia|].
    exists l'. rewrite Hr. split_and!; [|done|lia..]. do 2 f_equal. lia.
Qed.

Lemma checksum_data_spec l :
  bytes l -> word_sum l <= U32_MAX -> checksum.data l = Ret (fold16 (word_sum l)).
Proof.
  intros Hb Hs. unfold checksum.data. pose proof (word_sum_pos l Hb).
  destruct (sum_chunks_spec (length l) l 0) as (l' & -> & Hb' & Hw); try done; try lia.
  cbn [mbind outcome_bind]. rewrite sum_pairs_spec by (done || lia). cbn [mbind outcome_bind].
  pose proof (bytes_drop (2 * (length l' / 2)) l' Hb') as Hbo. fold (odd_byte l') in Hbo.
  pose proof (word_sum_pos _ Hbo).
  replace (0 + word_sum l - word_sum l' + word_sum l' - word_sum (odd_byte l'))
    with (word_sum l - word_sum (odd_byte l')) by lia.
  assert (length (odd_byte l') <= 1)%nat as Hlen.
  { unfold odd_byte. rewrite length_drop. pose proof (Nat.div_mod_eq (length l') 2).
    pose proof (Nat.mod_upper_bound (length l') 2). lia. }
  destruct (odd_byte l') as [|a [|b o]]; [| |cbn in Hlen; lia].
  - cbn. rewrite Z.sub_0_r. apply propagate_carries_spec. lia.
  - apply Forall_cons_1 in Hbo as [Ha _]. cbn [word_sum] in *. unfold byte in Ha.
    rewrite Z.shiftl_mul_pow2 by lia. unfold wrap_u. rewrite Z.mod_small by lia.
    unfold uadd at 1. rewrite (proj2 (Z.ltb_ge _ _)) by lia. cbn [mbind outcome_bind].
    rewrite propagate_carries_spec by lia. do 2 f_equal. lia.
Qed.

Lemma combine_spec2 a b :
  0 <= a <= U16_MAX -> 0 <= b <= U16_MAX -> checksum.combine [a; b] = Ret (fold16 (a + b)).
Proof.
  intros. unfold checksum.combine. cbn [checksum.sum_words]. unfold uadd.
  do 2 (rewrite (proj2 (Z.ltb_ge _ _)) by lia; cbn [mbind outcome_bind]).
  by rewrite propagate_carries_spec by lia.
Qed.

Lemma combine_spec3 a b c :
  0 <= a <= U16_MAX -> 0 <= b <= U16_MAX -> 0 <= c <= U16_MAX ->
  checksum.combine [a; b; c] = Ret (fold16 (a + b + c)).
Proof.
  intros. unfold checksum.combine. cbn [checksum.sum_words]. unfold uadd.
  do 3 (rewrite (proj2 (Z.ltb_ge _ _)) by lia; cbn [mbind outcome_bind]).
  by rewrite propagate_carries_spec by lia.
Qed.

(** Addresses of the same family. *)
Definition same_family (a b : Address) : Prop := Address.version a = Address.version b.

Lemma protocol_into_byte p : (forall id, p = Protocol.Unknown id -> byte id) -> byte (Protocol.into p).
Proof. destruct p; intros H; try (unfold byte; cbn; lia). by apply H. Qed.

(** The checksum of an address never overflows. *)
Lemma address_checksum a :
  address_wf a -> exists c, checksum.data (Address.as_bytes a) = Ret c /\ 0 <= c <= U16_MAX.
Proof.
  intros Ha. assert (bytes (Address.as_bytes a) /\ (length (Address.as_bytes a) <= 16)%nat)
    as [Hb Hl] by (destruct a as [o|o], Ha; cbn; split; done || lia).
  pose proof (word_sum_bound _ Hb). pose proof (word_sum_pos _ Hb).
  rewrite checksum_data_spec by (done || lia). eexists. split; [done|]. by apply fold16_range.
Qed.

Lemma pseudo_header_total a b p len :
  address_wf a -> address_wf b -> same_family a b -> byte (Protocol.into p) ->
  exists c, checksum.pseudo_header a b p len = Ret c /\ 0 <= c <= U16_MAX.
Proof.
  intros Ha Hb Hf Hp.
  destruct (address_checksum a Ha) as (c1 & Hc1 & Hr1).
  destruct (address_checksum b Hb) as (c2 & Hc2 & Hr2).
  assert (exists c, checksum.pseudo_header_octets (Address.as_bytes a) (Address.as_bytes b) p len
                    = Ret c /\ 0 <= c <= U16_MAX) as Hc.
  { unfold checksum.pseudo_header_octets.
    pose proof (Z.mod_pos_bound len (2 ^ 16) ltac:(lia)) as Hm. fold (wrap_u 16 len) in Hm.
    cbn -[checksum.data checksum.combine wrap_u write_u16].
    rewrite range_Ret by (cbn; lia). cbn -[checksum.data checksum.combine wrap_u write_u16].
    rewrite write_u16_be by (cbn; lia). cbn -[checksum.data checksum.combine be16].
    rewrite Hc1, Hc2. cbn -[checksum.data checksum.combine be16].
    assert (bytes (0 :: Protocol.into p :: be16 (wrap_u 16 len))) as Hpb.
    { do 2 (apply Forall_cons_2; [unfold byte in *; lia|]). apply be16_bytes. lia. }
    pose proof (word_sum_bound _ Hpb) as Hwb. pose proof (word_sum_pos _ Hpb).
    unfold be16 in *. cbn [app length drop] in *.
    rewrite checksum_data_spec by (done || lia). cbn -[checksum.combine word_sum].
    rewrite combine_spec3 by (done || by apply fold16_range). eexists. split; [done|].
    apply fold16_range. pose proof (fold16_range _ H). lia. }
  destruct a, b; done.
Qed.

(** [fold16 x] is [x] modulo 65535 in the range 1..65535, except for 0. *)
Lemma fold16_cases x :
  0 <= x -> (x = 0 /\ fold16 x = 0) \/
            (0 < x /\ 1 <= fold16 x <= 65535 /\ exists k, 0 <= k /\ x = 65535 * k + fold16 x).
Proof.
  intros Hx. unfold fold16. destruct (Z.eqb_spec x 0); [by left|right].
  pose proof (Z.mod_pos_bound (x - 1) 65535 ltac:(lia)). split_and!; try lia.
  exists ((x - 1) / 65535). split; [apply Z.div_pos; lia|].
  pose proof (Z.div_mod (x - 1) 65535 ltac:(lia)). lia.
Qed.

Lemma fold16_add x y : 0 <= x -> 0 <= y -> fold16 (x + fold16 y) = fold16 (x + y).
Proof.
  intros Hx Hy. destruct (fold16_cases y Hy) as [[-> ->]|(Hy' & Hr & k & Hk & Hyk)]; [done|].
  unfold fold16 at 1 3. rewrite !(proj2 (Z.eqb_neq _ _)) by lia. f_equal.
  rewrite Hyk at 2. replace (x + (65535 * k + fold16 y) - 1) with (x + fold16 y - 1 + k * 65535) by lia.
  by rewrite Z.mod_add.
Qed.

(** Adding the complement of the sum gives all ones. *)
Lemma fold16_complement x : 0 <= x -> fold16 (x + (65535 - fold16 x)) = 65535.
Proof.
  intros Hx. destruct (fold16_cases x Hx) as [[-> ->]|(Hx' & Hr & k & Hk & Hxk)]; [done|].
  rewrite Hxk at 1. unfold fold16 at 1. rewrite (proj2 (Z.eqb_neq _ _)) by lia.
  replace (_ + _ - 1) with (65534 + k * 65535) by lia. by rewrite Z.mod_add.
Qed.
End ChecksumLemmas.

(** The chunked checksum loop computes the ones' complement sum of the 16-bit
    words (RFC 1071), an odd last byte padded with zero, for any buffer up to
    131073 bytes; the 32-bit accumulator does not overflow below that size. *)
Theorem checksum_data_rfc1071 {BO : ByteOrder} {NE : NetworkEndian BO} (l : list Z) :
  bytes l -> Z.of_nat (length l) <= 131073 ->
  checksum.data l = Ret (fold16 (word_sum l)).
Proof.
  intros Hb Hl. apply checksum_data_spec; [done|].
  pose proof (word_sum_bound l Hb). lia.
Qed.

Lemma checksum_data_rfc1071_witness :
  checksum.data (BO := network_endian) (replicate 33 0xff) = Ret (fold16 (word_sum (replicate 33 0xff))) /\
  fold16 (word_sum (replicate 33 0xff)) = 0xff00.
Proof.
  split; [|reflexivity].
  apply (checksum_data_rfc1071 (BO := network_endian) (NE := network_endian_laws));
    [|cbn; lia]. by apply Forall_replicate.
Defined.
