(* ===== verification/LinkLayer.v ===== *)
(** * The link layer: hardware addresses, Ethernet frames, device capabilities

    Hardware addresses are those of src/wire/ethernet.rs, src/wire/ieee802154.rs and
    src/wire/mod.rs; [Module Frame] and [Module EthernetRepr] are the Ethernet II
    frame and its header; the capabilities of a device are those of src/phy/mod.rs. *)

From S2P Require Import Prelude Bytes Octets Phy Ip.
Open Scope Z_scope.

Inductive Medium := MediumEthernet | MediumIp | MediumIeee802154.

#[export] Instance Medium_eq_dec : EqDecision Medium.
Proof. solve_decision. Defined.

(** ** Addresses *)

Module EthernetAddress.
Definition BROADCAST : list Z := replicate 6 0xff.

Definition from_bytes (data : list Z) : outcome (list Z) :=
  if (length data =? 6)%nat then Ret data else Panic.

Definition is_broadcast (a : list Z) : bool := bool_decide (a = BROADCAST).
Definition is_multicast (a : list Z) : bool := negb (Z.land (a !!! 0%nat) 0x01 =? 0).
Definition is_unicast (a : list Z) : bool := negb (is_broadcast a || is_multicast a).
Definition is_local (a : list Z) : bool := negb (Z.land (a !!! 0%nat) 0x02 =? 0).

(** The type [[u8; 6]]. *)
Definition wf (a : list Z) : Prop := length a = 6%nat /\ bytes a.
End EthernetAddress.

Module Ieee802154Address.
Inductive t :=
| Absent
| Short (o : list Z)
| Extended (o : list Z).

#[global] Instance eq_dec : EqDecision t.
Proof. solve_decision. Defined.

Definition BROADCAST : t := Short (replicate 2 0xff).
Definition is_broadcast (a : t) : bool := bool_decide (a = BROADCAST).
Definition is_unicast (a : t) : bool := negb (is_broadcast a).

Definition from_bytes (a : list Z) : outcome t :=
  if (length a =? 2)%nat then Ret (Short a)
  else if (length a =? 8)%nat then Ret (Extended a)
  else Panic.

Definition as_bytes (a : t) : list Z :=
  match a with Absent => [] | Short o => o | Extended o => o end.
End Ieee802154Address.

Inductive HardwareAddress :=
| HwIp
| HwEthernet (a : list Z)
| HwIeee802154 (a : Ieee802154Address.t).

#[export] Instance HardwareAddress_eq_dec : EqDecision HardwareAddress.
Proof. solve_decision. Defined.

Module HardwareAddress.
Definition as_bytes (h : HardwareAddress) : outcome (list Z) :=
  match h with
  | HwIp => Panic
  | HwEthernet a => Ret a
  | HwIeee802154 a => Ret (Ieee802154Address.as_bytes a)
  end.

Definition is_unicast (h : HardwareAddress) : outcome bool :=
  match h with
  | HwIp => Panic
  | HwEthernet a => Ret (EthernetAddress.is_unicast a)
  | HwIeee802154 a => Ret (Ieee802154Address.is_unicast a)
  end.

Definition is_broadcast (h : HardwareAddress) : outcome bool :=
  match h with
  | HwIp => Panic
  | HwEthernet a => Ret (EthernetAddress.is_broadcast a)
  | HwIeee802154 a => Ret (Ieee802154Address.is_broadcast a)
  end.

Definition ethernet_or_panic (h : HardwareAddress) : outcome (list Z) :=
  match h with HwEthernet a => Ret a | _ => Panic end.

Definition ieee802154_or_panic (h : HardwareAddress) : outcome Ieee802154Address.t :=
  match h with HwIeee802154 a => Ret a | _ => Panic end.

Definition medium (h : HardwareAddress) : Medium :=
  match h with
  | HwIp => MediumIp
  | HwEthernet _ => MediumEthernet
  | HwIeee802154 _ => MediumIeee802154
  end.
End HardwareAddress.

(** An unparsed hardware address: the first [len] octets of an array of 8. *)
Module RawHardwareAddress.
Record t := mk { len : nat; data : list Z }.

Definition MAX_HARDWARE_ADDRESS_LEN : nat := 8.

Definition from_bytes (addr : list Z) : outcome t :=
  let data := replicate MAX_HARDWARE_ADDRESS_LEN 0 in
  _ ← range data 0 (length addr);
  Ret (mk (length addr) (splice data 0 addr)).

Definition as_bytes (r : t) : outcome (list Z) := range (data r) 0 (len r).

Definition parse (medium : Medium) (r : t) : outcome (result HardwareAddress WireError) :=
  match medium with
  | MediumEthernet =>
      if (len r <? 6)%nat then Ret (Err Error) else
      b ← as_bytes r;
      a ← EthernetAddress.from_bytes b;
      Ret (Ok (HwEthernet a))
  | MediumIeee802154 =>
      if (len r <? 8)%nat then Ret (Err Error) else
      b ← as_bytes r;
      a ← Ieee802154Address.from_bytes b;
      Ret (Ok (HwIeee802154 a))
  | MediumIp => Panic
  end.
End RawHardwareAddress.

(** ** Ethernet frames *)

Module EtherType.
Inductive t := Ipv4 | Arp | Ipv6 | Unknown (id : Z).

#[global] Instance eq_dec : EqDecision t.
Proof. solve_decision. Defined.

Definition from (value : Z) : t :=
  if value =? 0x0800 then Ipv4
  else if value =? 0x0806 then Arp
  else if value =? 0x86DD then Ipv6
  else Unknown value.

Definition into (e : t) : Z :=
  match e with Ipv4 => 0x0800 | Arp => 0x0806 | Ipv6 => 0x86DD | Unknown other => other end.
End EtherType.

Definition ETHERNET_HEADER_LEN : nat := 14.

Module Frame.
Section Accessors.
Context {BO : ByteOrder}.
Implicit Types (data : list Z).

Definition check_len data : result unit WireError :=
  if (length data <? ETHERNET_HEADER_LEN)%nat then Err Error else Ok ().

Definition new_checked data : result (list Z) WireError :=
  match check_len data with Ok _ => Ok data | Err e => Err e end.

Definition header_len : nat := ETHERNET_HEADER_LEN.
Definition buffer_len (payload_len : nat) : nat := (ETHERNET_HEADER_LEN + payload_len)%nat.

Definition dst_addr data : outcome (list Z) := d ← range data 0 6; EthernetAddress.from_bytes d.
Definition src_addr data : outcome (list Z) := d ← range data 6 12; EthernetAddress.from_bytes d.
Definition ethertype data : outcome EtherType.t :=
  raw ← get_u16 12 14 data; Ret (EtherType.from raw).
Definition payload data : outcome (list Z) := range data 14 (length data).

Definition set_dst_addr (value : list Z) data : outcome (list Z) := put_slice 0 6 value data.
Definition set_src_addr (value : list Z) data : outcome (list Z) := put_slice 6 12 value data.
Definition set_ethertype (value : EtherType.t) data : outcome (list Z) :=
  put_u16 12 14 (EtherType.into value) data.

(** [f] writes the slice [payload_mut]. *)
Definition with_payload_mut (f : list Z -> outcome (list Z)) data : outcome (list Z) :=
  payload ← payload data;
  payload ← f payload;
  Ret (splice data 14 payload).
End Accessors.
End Frame.

Record EthernetRepr := mkEthernetRepr {
  eth_src_addr : list Z;
  eth_dst_addr : list Z;
  eth_ethertype : EtherType.t
}.

Module EthernetRepr.
Section Repr.
Context {BO : ByteOrder}.

Definition parse (frame : list Z) : outcome (result EthernetRepr WireError) :=
  match Frame.check_len frame with
  | Err e => Ret (Err e)
  | Ok _ =>
      src_addr ← Frame.src_addr frame;
      dst_addr ← Frame.dst_addr frame;
      ethertype ← Frame.ethertype frame;
      Ret (Ok (mkEthernetRepr src_addr dst_addr ethertype))
  end.

Definition buffer_len (r : EthernetRepr) : nat := ETHERNET_HEADER_LEN.

Definition emit (r : EthernetRepr) (frame : list Z) : outcome (list Z) :=
  _ ← rust_assert (buffer_len r <=? length frame)%nat;
  frame ← Frame.set_src_addr (eth_src_addr r) frame;
  frame ← Frame.set_dst_addr (eth_dst_addr r) frame;
  Frame.set_ethertype (eth_ethertype r) frame.
End Repr.
End EthernetRepr.

(** ** Device capabilities *)

Record DeviceCapabilities := mkDeviceCapabilities {
  caps_medium : Medium;
  max_transmission_unit : nat;
  max_burst_size : option nat;
  caps_checksum : ChecksumCapabilities
}.

Module DeviceCapabilities.
Definition ip_mtu (caps : DeviceCapabilities) : outcome nat :=
  match caps_medium caps with
  | MediumEthernet =>
      if (max_transmission_unit caps <? Frame.header_len)%nat then Panic
      else Ret (max_transmission_unit caps - Frame.header_len)%nat
  | MediumIp | MediumIeee802154 => Ret (max_transmission_unit caps)
  end.
End DeviceCapabilities.
