(* ===== verification/Flags.v ===== *)
(** * Flag sets

    The flag words of DHCP and DNS are types made by the [bitflags!] macro of the
    bitflags crate, which is not part of the repository.  [Bitflags all] is the
    interface of a type whose flags are the bits of [all], and [BitflagsLaws] its
    documentation.  The definitions take the operations as an implicit argument,
    the theorems take the laws; [int_flags] is an implementation, used to evaluate
    the model. *)

From S2P Require Import Prelude.
Open Scope Z_scope.

Class Bitflags (all : Z) := {
  flags : Type;
  flags_bits : flags -> Z;
  flags_empty : flags;
  from_bits_truncate : Z -> flags;
  flags_union : flags -> flags -> flags;
  flags_contains : flags -> flags -> bool
}.
Arguments flags all {_}.

(** Bits that are not flags are dropped; one set contains another when it has all
    its flags. *)
Class BitflagsLaws {all : Z} (F : Bitflags all) : Prop := {
  bits_empty : flags_bits flags_empty = 0;
  bits_truncate x : flags_bits (from_bits_truncate x) = Z.land x all;
  bits_union f g : flags_bits (flags_union f g) = Z.lor (flags_bits f) (flags_bits g);
  contains_bits f g : flags_contains f g = (Z.land (flags_bits f) (flags_bits g) =? flags_bits g)
}.

Definition int_flags (all : Z) : Bitflags all := {|
  flags := Z;
  flags_bits f := f;
  flags_empty := 0;
  from_bits_truncate x := Z.land x all;
  flags_union := Z.lor;
  flags_contains f g := Z.land f g =? g
|}.

Lemma int_flags_laws all : BitflagsLaws (int_flags all).
Proof. by split. Qed.
