(* ===== verification/DnsWire.v ===== *)
(** * DNS messages (src/wire/dns.rs)

    The header accessors, names with compression pointers, questions and records,
    and the queries the resolver writes.  [parse_name] is an iterator; its state is
    the octets it reads from and the part of the packet that pointers may still
    refer to.  The theorems say that a name decodes to what RFC 1035 says, and that
    decoding ends. *)

From S2P Require Import Prelude Collections Bytes Octets Flags Ip.
Open Scope Z_scope.

Module DnsOpcode.
Inductive t :=
| Query | Status
| Unknown (id : Z).

Definition from (value : Z) : t :=
  if value =? 0x00 then Query
  else if value =? 0x01 then Status
  else Unknown value.

Definition into (o : t) : Z := match o with Query => 0x00 | Status => 0x01 | Unknown other => other end.

#[global] Instance eq_dec : EqDecision t.
Proof. solve_decision. Defined.
End DnsOpcode.

Module Rcode.
Inductive t :=
| NoError | FormErr | ServFail | NXDomain | NotImp | Refused | YXDomain | YXRRSet | NXRRSet
| NotAuth | NotZone
| Unknown (id : Z).

Definition from (value : Z) : t :=
  if value =? 0x00 then NoError
  else if value =? 0x01 then FormErr
  else if value =? 0x02 then ServFail
  else if value =? 0x03 then NXDomain
  else if value =? 0x04 then NotImp
  else if value =? 0x05 then Refused
  else if value =? 0x06 then YXDomain
  else if value =? 0x07 then YXRRSet
  else if value =? 0x08 then NXRRSet
  else if value =? 0x09 then NotAuth
  else if value =? 0x0a then NotZone
  else Unknown value.

#[global] Instance eq_dec : EqDecision t.
Proof. solve_decision. Defined.
End Rcode.

Module DnsType.
Inductive t :=
| A | Ns | Cname | Soa | Aaaa
| Unknown (id : Z).

Definition from (value : Z) : t :=
  if value =? 0x0001 then A
  else if value =? 0x0002 then Ns
  else if value =? 0x0005 then Cname
  else if value =? 0x0006 then Soa
  else if value =? 0x001c then Aaaa
  else Unknown value.

Definition into (d : t) : Z :=
  match d with
  | A => 0x0001 | Ns => 0x0002 | Cname => 0x0005 | Soa => 0x0006 | Aaaa => 0x001c
  | Unknown other => other
  end.

#[global] Instance eq_dec : EqDecision t.
Proof. solve_decision. Defined.
End DnsType.

(** The flags, and [Flags::all()]. *)
Definition DNS_RESPONSE : Z := 0x8000.
Definition DNS_AUTHORITATIVE : Z := 0x0400.
Definition DNS_TRUNCATED : Z := 0x0200.
Definition DNS_RECURSION_DESIRED : Z := 0x0100.
Definition DNS_RECURSION_AVAILABLE : Z := 0x0080.
Definition DNS_AUTHENTIC_DATA : Z := 0x0020.
Definition DNS_CHECK_DISABLED : Z := 0x0010.
Definition DNS_FLAGS : Z := 0x87b0.

Definition CLASS_IN : Z := 1.

Definition HEADER_END : nat := 12.

(** A result of the iterator: a label or an error, or its end. *)
Definition label := list Z.
Definition name_item := option (result label WireError).

(** The state of the iterator. *)
Definition name_iter : Type := list Z * list Z.

Module DnsPacket.
Section Packet.
Context {BO : ByteOrder} {DF : Bitflags DNS_FLAGS}.
Implicit Type data : list Z.

Definition check_len data : result unit WireError :=
  if (length data <? HEADER_END)%nat then Err Error else Ok ().

Definition new_checked data : result (list Z) WireError :=
  match check_len data with Ok _ => Ok data | Err e => Err e end.

Definition payload data : outcome (list Z) := range data HEADER_END (length data).

Definition transaction_id data : outcome Z := get_u16 0 2 data.

Definition flags data : outcome (flags DNS_FLAGS) := f ← get_u16 2 4 data; Ret (from_bits_truncate f).

Definition opcode data : outcome DnsOpcode.t :=
  f ← get_u16 2 4 data; Ret (DnsOpcode.from (wrap_u 8 (Z.land (Z.shiftr f 11) 0xF))).

Definition rcode data : outcome Rcode.t := f ← get_u16 2 4 data; Ret (Rcode.from (wrap_u 8 (Z.land f 0xF))).

Definition question_count data : outcome Z := get_u16 4 6 data.
Definition answer_record_count data : outcome Z := get_u16 6 8 data.
Definition authority_record_count data : outcome Z := get_u16 8 10 data.
Definition additional_record_count data : outcome Z := get_u16 10 12 data.

(** [parse_name]: the state of the iterator and its [next].  Each round of the loop
    follows a pointer and shortens what may be pointed to. *)
Definition parse_name data (bytes : list Z) : name_iter := (bytes, data).

Fixpoint next_loop (fuel : nat) (bytes packet : list Z) : outcome (name_item * name_iter) :=
  match fuel with
  | O => Panic
  | S fuel =>
      if (length bytes =? 0)%nat then Ret (Some (Err Error), (bytes, packet)) else
      x ← get_byte 0 bytes;
      if x =? 0x00 then Ret (None, (bytes, packet))
      else if Z.land x 0xC0 =? 0x00 then
        let len := Z.to_nat (Z.land x 0x3F) in
        if (length bytes <? 1 + len)%nat then Ret (Some (Err Error), (bytes, packet)) else
        label ← range bytes 1 (1 + len);
        bytes ← range bytes (1 + len) (length bytes);
        Ret (Some (Ok label), (bytes, packet))
      else if Z.land x 0xC0 =? 0xC0 then
        if (length bytes <? 2)%nat then Ret (Some (Err Error), (bytes, packet)) else
        y ← get_byte 1 bytes;
        let ptr := Z.to_nat (Z.lor (Z.shiftl (Z.land x 0x3F) 8) y) in
        if (length packet <=? ptr)%nat then Ret (Some (Err Error), (bytes, packet)) else
        bytes ← range packet ptr (length packet);
        packet ← range packet 0 ptr;
        next_loop fuel bytes packet
      else Ret (Some (Err Error), (bytes, packet))
  end.

Definition next (it : name_iter) : outcome (name_item * name_iter) :=
  let '(bytes, packet) := it in next_loop (S (length packet)) bytes packet.

Definition set_transaction_id (v : Z) data : outcome (list Z) := put_u16 0 2 v data.

Definition set_flags (v : Flags.flags DNS_FLAGS) data : outcome (list Z) :=
  update_u16 2 4 (fun old => Z.lor (Z.land old (not16 DNS_FLAGS)) (flags_bits v)) data.

Definition set_opcode (v : DnsOpcode.t) data : outcome (list Z) :=
  let mask := 0x3800 in
  let v := wrap_u 16 (Z.shiftl (DnsOpcode.into v) 11) in
  update_u16 2 4 (fun old => Z.lor (Z.land old (not16 mask)) v) data.

Definition set_question_count (v : Z) data : outcome (list Z) := put_u16 4 6 v data.
Definition set_answer_record_count (v : Z) data : outcome (list Z) := put_u16 6 8 v data.
Definition set_authority_record_count (v : Z) data : outcome (list Z) := put_u16 8 10 v data.
Definition set_additional_record_count (v : Z) data : outcome (list Z) := put_u16 10 12 v data.
End Packet.
End DnsPacket.

(** The part of a name before a pointer.  Both callers pass a closure that ignores
    the labels; [fuel] bounds the rounds, each of which takes an octet. *)
Fixpoint name_part_loop (fuel : nat) (bytes : list Z) : outcome (result (list Z * option nat) WireError) :=
  match fuel with
  | O => Panic
  | S fuel =>
      match bytes !! 0%nat with
      | None => Ret (Err Error)
      | Some x =>
          bytes ← range bytes 1 (length bytes);
          if x =? 0x00 then Ret (Ok (bytes, None))
          else if Z.land x 0xC0 =? 0x00 then
            let len := Z.to_nat (Z.land x 0x3F) in
            if (length bytes <? len)%nat then Ret (Err Error) else
            bytes ← range bytes len (length bytes);
            name_part_loop fuel bytes
          else if Z.land x 0xC0 =? 0xC0 then
            match bytes !! 0%nat with
            | None => Ret (Err Error)
            | Some y =>
                bytes ← range bytes 1 (length bytes);
                Ret (Ok (bytes, Some (Z.to_nat (Z.lor (Z.shiftl (Z.land x 0x3F) 8) y))))
            end
          else Ret (Err Error)
      end
  end.

Definition parse_name_part (bytes : list Z) : outcome (result (list Z * option nat) WireError) :=
  name_part_loop (S (length bytes)) bytes.

Record Question := mkQuestion { q_name : list Z; q_type : DnsType.t }.

Inductive RecordData :=
| RdA (addr : list Z)
| RdAaaa (addr : list Z)
| RdCname (name : list Z)
| RdOther (type : DnsType.t) (data : list Z).

Record DnsRecord := mkDnsRecord { r_name : list Z; r_ttl : Z; r_data : RecordData }.

Record DnsRepr {DF : Bitflags DNS_FLAGS} := mkDnsRepr {
  dr_transaction_id : Z;
  dr_opcode : DnsOpcode.t;
  dr_flags : flags DNS_FLAGS;
  dr_question : Question
}.

Module Question.
Section Question.
Context {BO : ByteOrder}.

Definition parse (buffer : list Z) : outcome (result (list Z * Question) WireError) :=
  '(rest, _) ←? parse_name_part buffer;
  name_len ← usub (Z.of_nat (length buffer)) (Z.of_nat (length rest));
  name ← range buffer 0 (Z.to_nat name_len);
  if (length rest <? 4)%nat then Ret (Err Error) else
  type ← get_u16 0 2 rest;
  class ← get_u16 2 4 rest;
  rest ← range rest 4 (length rest);
  if negb (class =? CLASS_IN) then Ret (Err Error) else
  Ret (Ok (rest, mkQuestion name (DnsType.from type))).

Definition buffer_len (q : Question) : nat := (length (q_name q) + 4)%nat.

Definition emit (q : Question) (packet : list Z) : outcome (list Z) :=
  let n := length (q_name q) in
  packet ← put_slice 0 n (q_name q) packet;
  rest ← range packet n (length packet);
  rest ← put_u16 0 2 (DnsType.into (q_type q)) rest;
  rest ← put_u16 2 4 CLASS_IN rest;
  Ret (splice packet n rest).
End Question.
End Question.

Module RecordData.
Definition parse (type : DnsType.t) (data : list Z) : outcome (result RecordData WireError) :=
  match type with
  | DnsType.A =>
      if negb (length data =? 4)%nat then Ret (Err Error)
      else a ← Ipv4Address.from_bytes data; Ret (Ok (RdA a))
  | DnsType.Aaaa =>
      if negb (length data =? 16)%nat then Ret (Err Error)
      else a ← Ipv6Address.from_bytes data; Ret (Ok (RdAaaa a))
  | DnsType.Cname => Ret (Ok (RdCname data))
  | x => Ret (Ok (RdOther x data))
  end.
End RecordData.

Module DnsRecord.
Section Record.
Context {BO : ByteOrder}.

Definition parse (buffer : list Z) : outcome (result (list Z * DnsRecord) WireError) :=
  '(rest, _) ←? parse_name_part buffer;
  name_len ← usub (Z.of_nat (length buffer)) (Z.of_nat (length rest));
  name ← range buffer 0 (Z.to_nat name_len);
  if (length rest <? 10)%nat then Ret (Err Error) else
  type ← get_u16 0 2 rest;
  class ← get_u16 2 4 rest;
  ttl ← get_u32 4 8 rest;
  len ← get_u16 8 10 rest;
  let len := Z.to_nat len in
  rest ← range rest 10 (length rest);
  if negb (class =? CLASS_IN) then Ret (Err Error) else
  if (length rest <? len)%nat then Ret (Err Error) else
  data ← range rest 0 len;
  rest ← range rest len (length rest);
  data ←? RecordData.parse (DnsType.from type) data;
  Ret (Ok (rest, mkDnsRecord name ttl data)).
End Record.
End DnsRecord.

Module DnsRepr.
Section Repr.
Context {BO : ByteOrder} {DF : Bitflags DNS_FLAGS}.

Definition buffer_len (r : DnsRepr) : nat := (HEADER_END + Question.buffer_len (dr_question r))%nat.

Definition emit (r : DnsRepr) (packet : list Z) : outcome (list Z) :=
  packet ← DnsPacket.set_transaction_id (dr_transaction_id r) packet;
  packet ← DnsPacket.set_flags (dr_flags r) packet;
  packet ← DnsPacket.set_opcode (dr_opcode r) packet;
  packet ← DnsPacket.set_question_count 1 packet;
  packet ← DnsPacket.set_answer_record_count 0 packet;
  packet ← DnsPacket.set_authority_record_count 0 packet;
  packet ← DnsPacket.set_additional_record_count 0 packet;
  payload ← range packet HEADER_END (length packet);
  payload ← Question.emit (dr_question r) payload;
  Ret (splice packet HEADER_END payload).
End Repr.
End DnsRepr.

(** ** Names

    RFC 1035, section 4.1.4: a name is a sequence of labels that ends with a zero
    octet, or with a pointer to another name of the message.  [name_at msg bytes ls]
    says that the octets [bytes] of the message [msg] are the name with labels [ls]. *)
Inductive name_at (msg : list Z) : list Z -> list label -> Prop :=
| name_end rest : name_at msg (0 :: rest) []
| name_label l rest ls :
    (1 <= length l <= 63)%nat -> name_at msg rest ls -> name_at msg (Z.of_nat (length l) :: l ++ rest) (l :: ls)
| name_pointer ptr rest ls :
    (ptr < length msg)%nat -> Z.of_nat ptr < 16384 -> name_at msg (drop ptr msg) ls ->
    name_at msg (192 + Z.of_nat ptr / 256 :: Z.of_nat ptr mod 256 :: rest) ls.

(** The names the iterator accepts: pointers go backwards, and a name ends before
    the place of the name it was pointed to from. *)
Inductive name_in : list Z -> list Z -> list label -> Prop :=
| in_end packet rest : name_in packet (0 :: rest) []
| in_label packet l rest ls :
    (1 <= length l <= 63)%nat -> name_in packet rest ls -> name_in packet (Z.of_nat (length l) :: l ++ rest) (l :: ls)
| in_pointer packet ptr rest ls :
    (ptr < length packet)%nat -> Z.of_nat ptr < 16384 -> name_in (take ptr packet) (drop ptr packet) ls ->
    name_in packet (192 + Z.of_nat ptr / 256 :: Z.of_nat ptr mod 256 :: rest) ls.

(** The octets of a name without pointers. *)
Definition encode_name (ls : list label) : list Z :=
  concat (map (fun l => Z.of_nat (length l) :: l) ls) ++ [0].

Definition labels_wf (ls : list label) : Prop := Forall (fun l => (1 <= length l <= 63)%nat /\ bytes l) ls.

(** The kinds of the first octet of a name. *)
Lemma land_C0 x : byte x ->
  (Z.land x 0xC0 =? 0) = (x <? 64) /\ (Z.land x 0xC0 =? 0xC0) = (192 <=? x) /\
  (x < 64 -> Z.land x 0x3F = x) /\ (192 <= x -> Z.land x 0x3F = x - 192).
Proof.
  intros Hx.
  pose proof (all_bytes (fun x => Bool.eqb (Z.land x 0xC0 =? 0) (x <? 64) && Bool.eqb (Z.land x 0xC0 =? 0xC0) (192 <=? x)
    && (negb (x <? 64) || (Z.land x 0x3F =? x)) && (negb (192 <=? x) || (Z.land x 0x3F =? x - 192)))
    ltac:(by vm_compute) x Hx) as H. cbn beta in H.
  apply andb_true_iff in H as [[[H1 H2]%andb_true_iff H3]%andb_true_iff H4].
  apply eqb_prop in H1, H2. split_and!; try done; intros.
  - rewrite (proj2 (Z.ltb_lt _ _)) in H3 by done. by apply Z.eqb_eq.
  - rewrite (proj2 (Z.leb_le _ _)) in H4 by done. by apply Z.eqb_eq.
Qed.

Lemma pointer_bits h y : 0 <= h -> byte y -> Z.lor (Z.shiftl h 8) y = 256 * h + y.
Proof.
  intros Hh Hy. unfold byte in Hy. pose proof (Z.add_lor_land (Z.shiftl h 8) y) as Ha.
  rewrite !Z.shiftl_mul_pow2 in * by lia. assert (Z.land (h * 2 ^ 8) y = 0) as Hl.
  { apply Z.bits_inj'. intros n Hn. rewrite Z.land_spec, Z.bits_0. destruct (Z.lt_ge_cases n 8) as [Hlt|Hge].
    - by rewrite Z.mul_pow2_bits_low.
    - rewrite (Z.bits_above_log2 y n), andb_false_r; [done|lia|]. destruct (decide (y = 0)) as [->|]; [cbn; lia|].
      apply Z.log2_lt_pow2; [lia|]. pose proof (Z.pow_le_mono_r 2 8 n). lia. }
  lia.
Qed.

(** ** The iterator *)

Definition iter_bytes (it : name_iter) : Prop := bytes it.1 /\ bytes it.2.

(** What is left to read. *)
Definition iter_size (it : name_iter) : nat := (length it.1 + length it.2)%nat.

Definition name_of (it : name_iter) (ls : list label) : Prop := name_in it.2 it.1 ls.

(** What [next] promises: the first label and the iterator for the others, or the
    end of the name, or an error when there is no name. *)
Definition next_post (it : name_iter) (item : name_item) (it' : name_iter) : Prop :=
  match item with
  | None => forall ls, name_of it ls <-> ls = []
  | Some (Err _) => forall ls, ~ name_of it ls
  | Some (Ok l) => iter_bytes it' /\ (iter_size it' < iter_size it)%nat /\ bytes l /\ (1 <= length l <= 63)%nat /\
      forall ls, name_of it ls <-> exists ls', ls = l :: ls' /\ name_of it' ls'
  end.

Lemma name_in_octet packet x rest ls : byte x -> name_in packet (x :: rest) ls ->
  (x = 0 /\ ls = []) \/
  (1 <= x < 64 /\ exists l rest' ls', rest = l ++ rest' /\ Z.of_nat (length l) = x /\ ls = l :: ls' /\ name_in packet rest' ls') \/
  (192 <= x /\ exists y rest' ptr, rest = y :: rest' /\ Z.of_nat ptr = 256 * (x - 192) + y /\ (ptr < length packet)%nat /\
     name_in (take ptr packet) (drop ptr packet) ls).
Proof.
  intros Hx H. inversion H; subst; [by left|right; left|right; right].
  - split; [lia|]. eauto 10.
  - split; [div_lia|]. eexists _, _, ptr. split; [done|]. split; [div_lia|]. done.
Qed.

Lemma bytes_take_drop n l : bytes l -> bytes (take n l) /\ bytes (drop n l).
Proof. intros. split; [by apply Forall_take|by apply Forall_drop]. Qed.

(** A label or a pointer at the head of the octets. *)
Lemma name_in_label packet x rest : 1 <= x < 64 -> forall ls,
  name_in packet (x :: rest) ls <->
  (Z.to_nat x <= length rest)%nat /\ exists ls', ls = take (Z.to_nat x) rest :: ls' /\ name_in packet (drop (Z.to_nat x) rest) ls'.
Proof.
  intros Hx ls. split.
  - intros [[? _]|[[_ (l & rest' & ls' & -> & Hl & -> & Hn)]|[? _]]]%name_in_octet; [lia| |lia|unfold byte; lia].
    assert (Z.to_nat x = length l) as -> by lia. rewrite length_app, take_app_length, drop_app_length. split; [lia|]. eauto.
  - intros [Hl (ls' & -> & Hn)]. rewrite <- (take_drop (Z.to_nat x) rest) at 1.
    assert (length (take (Z.to_nat x) rest) = Z.to_nat x) as Ht by (rewrite length_take; lia).
    replace x with (Z.of_nat (length (take (Z.to_nat x) rest))) at 1 by lia. constructor; [lia|done].
Qed.

Lemma name_in_pointer packet x y rest : 192 <= x <= 255 -> byte y -> forall ls,
  name_in packet (x :: y :: rest) ls <->
  let ptr := Z.to_nat (256 * (x - 192) + y) in
  (ptr < length packet)%nat /\ name_in (take ptr packet) (drop ptr packet) ls.
Proof.
  intros Hx Hy ls. unfold byte in Hy. cbn zeta. split.
  - intros [[? _]|[[? _]|[_ (y' & rest' & ptr & [= <- <-] & Hp & Hlt & Hn)]]]%name_in_octet; [lia|lia| |unfold byte; lia].
    by replace (Z.to_nat (256 * (x - 192) + y)) with ptr by lia.
  - intros [Hlt Hn]. set (ptr := Z.to_nat (256 * (x - 192) + y)) in *. assert (Z.of_nat ptr = 256 * (x - 192) + y) as Hp by lia.
    replace x with (192 + Z.of_nat ptr / 256) by div_lia. replace y with (Z.of_nat ptr mod 256) by div_lia.
    constructor; [done|lia|done].
Qed.

(** Following a pointer. *)
Lemma next_post_pointer ptr b p item it :
  (forall ls, name_in p b ls <-> (ptr < length p)%nat /\ name_in (take ptr p) (drop ptr p) ls) -> (ptr < length p)%nat ->
  next_post (drop ptr p, take ptr p) item it -> next_post (b, p) item it.
Proof.
  intros Hn Hl. unfold next_post, name_of, iter_size. cbn [fst snd]. rewrite length_take, length_drop.
  destruct item as [[l|]|].
  - intros (? & ? & ? & ? & H). do 2 (split; [done || lia|]). do 2 (split; [done || lia|]). intros ls. rewrite Hn, H. naive_solver.
  - intros H ls [_ ?]%Hn. by apply (H ls).
  - intros H ls. rewrite Hn, H. naive_solver.
Qed.

Lemma next_loop_ok fuel b p :
  (length p < fuel)%nat -> bytes b -> bytes p ->
  exists item it, DnsPacket.next_loop fuel b p = Ret (item, it) /\ next_post (b, p) item it.
Proof.
  revert b p. induction fuel as [|fuel IH]; intros b p Hf Hb Hp; [lia|]. cbn [DnsPacket.next_loop].
  destruct b as [|x rest]; cbn [length Nat.eqb].
  { do 2 eexists. split; [done|]. intros ls H. inversion H. }
  apply Forall_cons_1 in Hb as [Hx Hr]. change (get_byte 0 (x :: rest)) with (Ret x). cbn [mbind outcome_bind].
  destruct (land_C0 x Hx) as (-> & -> & Hlo & Hhi). unfold byte in Hx.
  destruct (Z.eqb_spec x 0) as [->|Hnz].
  { do 2 eexists. split; [done|]. intros ls. split; [|intros ->; constructor].
    intros [[_ ->]|[[? _]|[? _]]]%name_in_octet; done || lia. }
  destruct (Z.ltb_spec x 64) as [Hlt|Hge].
  { rewrite Hlo by done. pose proof (name_in_label p x rest ltac:(lia)) as Hn.
    destruct (Nat.ltb_spec (S (length rest)) (1 + Z.to_nat x)) as [Hs|Hs].
    - do 2 eexists. split; [done|]. intros ls [Hl _]%Hn. lia.
    - rewrite range_Ret by (cbn [length]; lia). cbn [mbind outcome_bind]. rewrite range_Ret by (cbn [length]; lia).
      cbn [mbind outcome_bind]. do 2 eexists. split; [done|]. unfold slice. cbn [drop Nat.add length].
      replace (S (Z.to_nat x) - 1)%nat with (Z.to_nat x) by lia.
      replace (take _ (drop (Z.to_nat x) rest)) with (drop (Z.to_nat x) rest) by (symmetry; apply take_ge; rewrite length_drop; lia).
      rewrite drop_0. destruct (bytes_take_drop (Z.to_nat x) rest Hr). unfold next_post, iter_bytes, iter_size, name_of. cbn [fst snd length].
      rewrite length_drop, length_take. do 2 (split; [done || lia|]). do 2 (split; [done || lia|]).
      intros ls. rewrite Hn. naive_solver lia. }
  destruct (Z.leb_spec 192 x) as [Hle|Hgt].
  { destruct rest as [|y rest]; cbn [length].
    - do 2 eexists. split; [done|]. intros ls [[? _]|[[? _]|[_ (? & ? & ? & ? & _)]]]%name_in_octet; [lia|lia|done|done].
    - rewrite (proj2 (Nat.ltb_ge _ _)) by lia.
      apply Forall_cons_1 in Hr as [Hy Hr]. change (get_byte 1 (x :: y :: rest)) with (Ret y). cbn [mbind outcome_bind].
      rewrite Hhi, pointer_bits by (done || lia).
      pose proof (name_in_pointer p x y rest ltac:(lia) Hy) as Hn. cbn zeta in Hn.
      set (ptr := Z.to_nat (256 * (x - 192) + y)) in *. destruct (Nat.leb_spec (length p) ptr) as [Hs|Hs].
      + do 2 eexists. split; [done|]. intros ls [Hl _]%Hn. lia.
      + rewrite range_from by lia. cbn [mbind outcome_bind]. rewrite range_to by lia. cbn [mbind outcome_bind].
        destruct (bytes_take_drop ptr p Hp). destruct (IH (drop ptr p) (take ptr p)) as (item & it & -> & Hpost); [rewrite length_take; lia|done..|].
        do 2 eexists. split; [done|]. apply (next_post_pointer ptr); [done|lia|done]. }
  do 2 eexists. split; [done|]. intros ls [[? _]|[[? _]|[? _]]]%name_in_octet; lia || done.
Qed.

Lemma next_ok it : iter_bytes it -> exists item it', DnsPacket.next it = Ret (item, it') /\ next_post it item it'.
Proof. destruct it as [b p]. intros [Hb Hp]. apply next_loop_ok; [lia|done..]. Qed.

Lemma name_in_det packet b ls1 ls2 : bytes b -> bytes packet -> name_in packet b ls1 -> name_in packet b ls2 -> ls1 = ls2.
Proof.
  intros Hb Hp H1. revert ls2 Hb Hp.
  induction H1 as [packet rest|packet l rest ls Hl H IH|packet ptr rest ls Hlt Hpt H IH]; intros ls2 Hb Hp H2.
  - by apply name_in_octet in H2 as [[_ ->]|[[? _]|[? _]]]; [..|unfold byte]; lia || done.
  - apply name_in_label in H2 as [_ (ls' & -> & H2)]; [|lia]. rewrite Nat2Z.id, take_app_length in *. f_equal.
    rewrite drop_app_length in H2. apply Forall_cons_1 in Hb as [_ [_ Hb]%Forall_app]. by apply IH.
  - apply Forall_cons_1 in Hb as [_ [Hy _]%Forall_cons_1]. apply name_in_pointer in H2 as [_ H2]; [|div_lia|done].
    replace (Z.to_nat _) with ptr in H2 by div_lia. destruct (bytes_take_drop ptr packet Hp). by apply IH.
Qed.

(** The whole name. *)
Fixpoint decode_loop (fuel : nat) (it : name_iter) : option (list label) :=
  match fuel with
  | O => None
  | S fuel =>
      match DnsPacket.next it with
      | Ret (None, _) => Some []
      | Ret (Some (Ok l), it) => ls ← decode_loop fuel it; Some (l :: ls)
      | _ => None
      end
  end.

Definition decode (it : name_iter) : option (list label) := decode_loop (S (iter_size it)) it.

Lemma decode_loop_spec fuel it ls :
  iter_bytes it -> (iter_size it < fuel)%nat -> decode_loop fuel it = Some ls <-> name_of it ls.
Proof.
  revert it ls. induction fuel as [|fuel IH]; intros it ls Hb Hf; [lia|]. cbn [decode_loop].
  destruct (next_ok it Hb) as (item & it' & -> & Hpost). destruct item as [[l|e]|]; cbn in Hpost.
  - destruct Hpost as (Hb' & Hs & _ & _ & Hn). rewrite Hn. specialize (fun ls => IH it' ls Hb' ltac:(lia)).
    destruct (decode_loop fuel it') as [ls'|]; cbn.
    + split; [intros [= <-]; exists ls'; split; [done|]; by apply IH|]. intros (ls2 & -> & H%IH). congruence.
    + split; [done|]. intros (ls2 & -> & H%IH). done.
  - split; [done|]. by intros ?%Hpost.
  - rewrite Hpost. naive_solver.
Qed.

Lemma decode_spec it ls : iter_bytes it -> decode it = Some ls <-> name_of it ls.
Proof. intros. apply decode_loop_spec; [done|lia]. Qed.

(** [decode] by one step of the iterator. *)
Lemma decode_next it item it' : iter_bytes it -> DnsPacket.next it = Ret (item, it') ->
  match item with
  | None => decode it = Some []
  | Some (Err _) => decode it = None
  | Some (Ok l) => iter_bytes it' /\ (iter_size it' < iter_size it)%nat /\ bytes l /\ (1 <= length l <= 63)%nat /\
      decode it = (ls ← decode it'; Some (l :: ls))
  end.
Proof.
  intros Hb Hn. destruct (next_ok it Hb) as (item' & it2 & Hn' & Hpost). rewrite Hn in Hn'. injection Hn' as <- <-.
  destruct item as [[l|]|]; cbn in Hpost.
  - destruct Hpost as (Hb' & Hs & Hl & Hl2 & Hspec). do 4 (split; [done|]). destruct (decode it') as [ls|] eqn:Hd; cbn.
    + apply decode_spec; [done|]. apply Hspec. exists ls. split; [done|]. by apply decode_spec.
    + destruct (decode it) as [ls|] eqn:Hd2; [|done]. apply decode_spec, Hspec in Hd2 as (ls' & -> & Hd2%decode_spec); congruence || done.
  - destruct (decode it) as [ls|] eqn:Hd; [|done]. apply decode_spec in Hd; [|done]. by destruct (Hpost ls).
  - apply decode_spec; [done|]. by apply Hpost.
Qed.

(** A name decodes to labels. *)
Lemma decode_wf it ls : iter_bytes it -> decode it = Some ls -> labels_wf ls.
Proof.
  intros Hb Hd. apply decode_spec in Hd; [|done]. destruct it as [b p]. destruct Hb as [Hb Hp]. unfold name_of in Hd. cbn in *.
  induction Hd; [constructor| |]; apply Forall_cons_1 in Hb as [_ Hb].
  - apply Forall_app in Hb as [? ?]. constructor; [done|by apply IHHd].
  - destruct (bytes_take_drop ptr packet Hp). by apply IHHd.
Qed.

(** Names without pointers. *)
Lemma name_in_encoded packet ls rest : labels_wf ls -> name_in packet (encode_name ls ++ rest) ls.
Proof.
  induction 1 as [|l ls [Hl _] _ IH]; [constructor|]. unfold encode_name in *. cbn [map concat].
  rewrite <- !app_comm_cons, <- !app_assoc. constructor; [done|]. by rewrite <- app_assoc in IH.
Qed.

(** *** RFC 1035 *)

Lemma name_in_at msg packet b ls : name_in packet b ls ->
  forall k rest, packet = take k msg -> name_at msg (b ++ rest) ls.
Proof.
  induction 1 as [packet r|packet l r ls Hl H IH|packet ptr r ls Hlt Hp H IH]; intros k rest ->; cbn [app].
  - constructor.
  - rewrite <- app_assoc. constructor; [done|]. by eapply IH.
  - rewrite length_take in Hlt. constructor; [lia|done|]. specialize (IH ptr (drop k msg)). rewrite take_take in IH.
    rewrite Nat.min_l in IH by lia. specialize (IH eq_refl). rewrite drop_take_drop in IH by lia. done.
Qed.

(** *** Parts of names *)

Lemma name_part_loop_ok fuel b : (length b < fuel)%nat -> bytes b ->
  exists res, name_part_loop fuel b = Ret res /\
    forall rest o, res = Ok (rest, o) -> exists name, b = name ++ rest /\ name <> [].
Proof.
  revert b. induction fuel as [|fuel IH]; intros b Hf Hb; [lia|]. cbn [name_part_loop].
  destruct b as [|x b]; cbn [lookup list_lookup]; [by eexists|]. cbn [length] in Hf. rewrite range_from by (cbn; lia).
  cbn [mbind outcome_bind drop]. apply Forall_cons_1 in Hb as [Hx Hb]. rewrite drop_0.
  destruct (x =? 0); [|destruct (_ =? 0); [destruct (Nat.ltb_spec (length b) (Z.to_nat (Z.land x 63)));
    [by eexists|]|destruct (_ =? 0xC0); [|by eexists]]].
  - eexists. split; [done|]. intros rest o [= <- <-]. by exists [x].
  - rewrite range_from by lia. cbn [mbind outcome_bind].
    destruct (IH (drop (Z.to_nat (Z.land x 63)) b)) as (res & -> & Hr); [rewrite length_drop; lia|by apply Forall_drop|].
    eexists. split; [done|]. intros rest o Ho. destruct (Hr rest o Ho) as (name & Heq & _).
    exists (x :: take (Z.to_nat (Z.land x 63)) b ++ name). split; [|done]. cbn. rewrite <- app_assoc, <- Heq. by rewrite take_drop.
  - destruct b as [|y b]; [by eexists|]. cbn [lookup list_lookup]. rewrite range_from by (cbn; lia). cbn [mbind outcome_bind]. eexists. split; [done|].
    intros rest o [= <- <-]. exists [x; y]. cbn [app drop]. by rewrite drop_0.
Qed.

Lemma parse_name_part_ok b : bytes b ->
  exists res, parse_name_part b = Ret res /\
    forall rest o, res = Ok (rest, o) -> exists name, b = name ++ rest /\ name <> [].
Proof. apply name_part_loop_ok. lia. Qed.

Section Parsers.
Context {BO : ByteOrder} {NE : NetworkEndian BO}.

(** The octets of a name at the head of a buffer. *)
Lemma name_octets (name rest : list Z) :
  usub (Z.of_nat (length (name ++ rest))) (Z.of_nat (length rest)) = Ret (Z.of_nat (length name)) /\
  range (name ++ rest) 0 (Z.to_nat (Z.of_nat (length name))) = Ret name.
Proof.
  rewrite usub_Ret by (rewrite length_app; lia). rewrite Nat2Z.id, range_to by (rewrite length_app; lia).
  rewrite take_app_length, length_app. split; [f_equal; lia|done].
Qed.

Lemma question_parse_ok b : bytes b ->
  exists res, Question.parse b = Ret res /\ forall rest q, res = Ok (rest, q) -> bytes rest /\ bytes (q_name q).
Proof.
  intros Hb. unfold Question.parse. destruct (parse_name_part_ok b Hb) as (res & -> & Hr).
  destruct res as [[rest o]|e]; cbn [try_bind]; [|by eexists]. destruct (Hr rest o eq_refl) as (name & -> & _).
  apply Forall_app in Hb as [Hn Hb]. destruct (name_octets name rest) as [-> Hrange]. cbn [mbind outcome_bind].
  rewrite Hrange. cbn [mbind outcome_bind]. destruct (Nat.ltb_spec (length rest) 4); [by eexists|].
  destruct (get_u16_ok 0 2 rest) as (t & -> & _); [done|lia|done|]. cbn [mbind outcome_bind].
  destruct (get_u16_ok 2 4 rest) as (c & -> & _); [done|lia|done|]. cbn [mbind outcome_bind].
  rewrite range_from by lia. cbn [mbind outcome_bind]. destruct (negb _); [by eexists|]. eexists. split; [done|].
  intros ? ? [= <- <-]. split; [by apply Forall_drop|done].
Qed.

Definition data_bytes (d : RecordData) : Prop :=
  match d with
  | RdA a => length a = 4%nat /\ bytes a
  | RdAaaa a => length a = 16%nat /\ bytes a
  | RdCname n => bytes n
  | RdOther _ d => bytes d
  end.

Lemma record_data_ok t d : bytes d ->
  exists res, RecordData.parse t d = Ret res /\ forall r, res = Ok r -> data_bytes r.
Proof.
  intros Hd. unfold RecordData.parse, Ipv4Address.from_bytes, Ipv6Address.from_bytes.
  destruct t; try (eexists; split; [done|]; by intros r [= <-]).
  - destruct (Nat.eqb_spec (length d) 4); cbn; [|by eexists]. eexists. split; [done|]. by intros r [= <-].
  - destruct (Nat.eqb_spec (length d) 16); cbn; [|by eexists]. eexists. split; [done|]. by intros r [= <-].
Qed.

Lemma record_parse_ok b : bytes b ->
  exists res, DnsRecord.parse b = Ret res /\
    forall rest r, res = Ok (rest, r) -> bytes rest /\ bytes (r_name r) /\ data_bytes (r_data r).
Proof.
  intros Hb. unfold DnsRecord.parse. destruct (parse_name_part_ok b Hb) as (res & -> & Hr).
  destruct res as [[rest o]|e]; cbn [try_bind]; [|by eexists]. destruct (Hr rest o eq_refl) as (name & -> & _).
  apply Forall_app in Hb as [Hn Hb]. destruct (name_octets name rest) as [-> Hrange]. cbn [mbind outcome_bind].
  rewrite Hrange. cbn [mbind outcome_bind]. destruct (Nat.ltb_spec (length rest) 10); [by eexists|].
  destruct (get_u16_ok 0 2 rest) as (t & -> & _); [done|lia|done|]. cbn [mbind outcome_bind].
  destruct (get_u16_ok 2 4 rest) as (c & -> & _); [done|lia|done|]. cbn [mbind outcome_bind].
  destruct (get_u32_ok 4 8 rest) as (ttl & -> & _); [done|lia|done|]. cbn [mbind outcome_bind].
  destruct (get_u16_ok 8 10 rest) as (len & -> & _); [done|lia|done|]. cbn [mbind outcome_bind].
  rewrite range_from by lia. cbn [mbind outcome_bind]. destruct (negb _); [by eexists|].
  assert (bytes (drop 10 rest)) as Hd by (by apply Forall_drop). set (d := drop 10 rest) in *.
  destruct (Nat.ltb_spec (length d) (Z.to_nat len)); [by eexists|]. rewrite range_to by lia. cbn [mbind outcome_bind].
  rewrite range_from by lia. cbn [mbind outcome_bind]. destruct (bytes_take_drop (Z.to_nat len) d Hd) as [Ht Hdr].
  destruct (record_data_ok (DnsType.from t) _ Ht) as (res & -> & Hres). destruct res as [r|]; cbn [try_bind]; [|by eexists].
  eexists. split; [done|]. intros ? ? [= <- <-]. cbn. split_and!; [done..|]. by apply Hres.
Qed.
End Parsers.

(** ** Queries *)

Section Queries.
Context {BO : ByteOrder} {NE : NetworkEndian BO} {DF : Bitflags DNS_FLAGS} {DFL : BitflagsLaws DF}.

Definition type_wf (t : DnsType.t) : Prop := word (DnsType.into t).

Record query_wf (r : DnsRepr) : Prop := {
  qw_id : word (dr_transaction_id r);
  qw_opcode : 0 <= DnsOpcode.into (dr_opcode r) < 16;
  qw_flags : exists f, flags_bits (dr_flags r) = Z.land f DNS_FLAGS;
  qw_type : type_wf (q_type (dr_question r))
}.

(** The second word of the header. *)
Definition flag_word (r : DnsRepr) : Z := Z.lor (flags_bits (dr_flags r)) (2048 * DnsOpcode.into (dr_opcode r)).

Definition query_octets (r : DnsRepr) : list Z :=
  be16 (dr_transaction_id r) ++ be16 (flag_word r) ++ be16 1 ++ replicate 6 0.

Definition question_octets (q : Question) : list Z := q_name q ++ be16 (DnsType.into (q_type q)) ++ be16 CLASS_IN.

Lemma question_emit_ok q packet :
  type_wf (q_type q) -> length packet = Question.buffer_len q -> Question.emit q packet = Ret (question_octets q).
Proof.
  intros Ht Hl. unfold Question.emit, Question.buffer_len, question_octets in *. rewrite put_slice_ok by lia. rewrite take_0. cbn [mbind outcome_bind app].
  rewrite range_from by (rewrite ?length_app, ?length_drop; lia). cbn [mbind outcome_bind].
  rewrite drop_app_length. assert (length (drop (length (q_name q)) packet) = 4%nat) as Hd by (rewrite length_drop; lia).
  destruct (drop _ packet) as [|a [|b [|c [|d [|]]]]]; try done.
  unfold type_wf, word, CLASS_IN in *. rewrite put_u16_octets by (done || cbn [length]; lia). cbn [mbind outcome_bind take drop app].
  rewrite put_u16_octets by (done || cbn [length]; lia). cbn [mbind outcome_bind take drop app]. unfold splice, be16.
  rewrite take_app_length, drop_ge, app_nil_r by (rewrite length_app; cbn; lia). done.
Qed.

Lemma flag_word_ok r : query_wf r -> word (flags_bits (dr_flags r)) /\ word (flag_word r) /\
  Z.lor (Z.land (flags_bits (dr_flags r)) (not16 0x3800)) (wrap_u 16 (Z.shiftl (DnsOpcode.into (dr_opcode r)) 11)) = flag_word r.
Proof.
  intros [_ Ho [f Hf] _]. unfold flag_word. rewrite Hf. set (o := DnsOpcode.into (dr_opcode r)) in *.
  rewrite (Z.land_comm f), <- Z.land_assoc, (Z.land_comm f), Z.land_assoc. change (Z.land DNS_FLAGS (not16 0x3800)) with DNS_FLAGS.
  rewrite Z.shiftl_mul_pow2 by lia. unfold wrap_u. rewrite Z.mod_small by lia. replace (o * 2 ^ 11) with (2048 * o) by lia.
  assert (word (Z.land DNS_FLAGS f)) by (apply land_word; unfold word, DNS_FLAGS; lia).
  split_and!; [done| |done]. apply lor_word; [done|]. unfold word. lia.
Qed.

Lemma query_emit_ok r :
  query_wf r -> DnsRepr.emit r (replicate (DnsRepr.buffer_len r) 0) = Ret (query_octets r ++ question_octets (dr_question r)).
Proof.
  intros Hr. destruct (flag_word_ok r Hr) as (Hfb & Hfw & Hfe). destruct Hr as [Hid _ _ Ht]. unfold DnsRepr.buffer_len, HEADER_END.
  rewrite replicate_add. cbn [replicate app]. remember (replicate (Question.buffer_len (dr_question r)) 0) as t eqn:Htl.
  assert (length t = Question.buffer_len (dr_question r)) as Hl by (by rewrite Htl, length_replicate). clear Htl.
  unfold DnsRepr.emit. unfold DnsPacket.set_transaction_id. unfold word in *.
  rewrite put_u16_octets by (done || cbn [length]; lia). cbn [mbind outcome_bind take drop app].
  unfold DnsPacket.set_flags, update_u16 at 1. rewrite (get_u16_octets 2 4 _ 0 0) by (done || unfold byte; lia).
  cbn [mbind outcome_bind]. change (Z.lor _ (flags_bits (dr_flags r))) with (flags_bits (dr_flags r)).
  rewrite put_u16_octets by (done || cbn [length]; lia). cbn [mbind outcome_bind take drop app].
  unfold DnsPacket.set_opcode, update_u16. 
  rewrite (get_u16_octets 2 4 _ (flags_bits (dr_flags r) / 256) (flags_bits (dr_flags r) mod 256)) by (done || apply word_octets; done).
  rewrite <- Z.div_mod by lia. cbn [mbind outcome_bind]. rewrite Hfe.
  rewrite put_u16_octets by (done || cbn [length]; lia). cbn [mbind outcome_bind take drop app].
  unfold DnsPacket.set_question_count. rewrite put_u16_octets by (done || cbn [length]; lia). cbn [mbind outcome_bind take drop app].
  unfold DnsPacket.set_answer_record_count. rewrite put_u16_octets by (done || cbn [length]; lia). cbn [mbind outcome_bind take drop app].
  unfold DnsPacket.set_authority_record_count. rewrite put_u16_octets by (done || cbn [length]; lia). cbn [mbind outcome_bind take drop app].
  unfold DnsPacket.set_additional_record_count. rewrite put_u16_octets by (done || cbn [length]; lia). cbn [mbind outcome_bind take drop app].
  unfold HEADER_END. rewrite range_from by (cbn [length]; lia). cbn [mbind outcome_bind drop]. rewrite drop_0, question_emit_ok by done.
  cbn [mbind outcome_bind]. unfold splice. rewrite drop_ge; [by rewrite app_nil_r|].
  unfold question_octets, Question.buffer_len in *. rewrite !length_app. cbn [length be16]. lia.
Qed.
End Queries.

Lemma encode_bytes ls : labels_wf ls -> bytes (encode_name ls).
Proof.
  intros Hl. unfold encode_name. apply Forall_app. split; [|by repeat constructor]. apply Forall_concat.
  apply Forall_map. apply (Forall_impl _ _ _ Hl). intros l [Hl1 Hl2]. constructor; [unfold byte; lia|done].
Qed.

(** The labels of a name decode to themselves, whatever the packet is. *)
Lemma decode_encoded packet ls : bytes packet -> labels_wf ls -> decode (encode_name ls, packet) = Some ls.
Proof.
  intros Hp Hl. apply decode_spec.
  - split; [by apply encode_bytes|done].
  - unfold name_of. cbn. rewrite <- (app_nil_r (encode_name ls)). by apply name_in_encoded.
Qed.

Lemma name_part_encoded ls rest : labels_wf ls -> parse_name_part (encode_name ls ++ rest) = Ret (Ok (rest, None)).
Proof.
  unfold parse_name_part. intros Hl. generalize (S (length (encode_name ls ++ rest))) (Nat.lt_succ_diag_r (length (encode_name ls ++ rest))).
  induction Hl as [|l ls [Hl Hb] _ IH]; intros fuel Hf; (destruct fuel as [|fuel]; [lia|]).
  - cbn [encode_name map concat app name_part_loop lookup list_lookup]. rewrite range_from by (cbn; lia). cbn. by rewrite drop_0.
  - unfold encode_name in *. cbn [map concat] in *. rewrite <- !app_comm_cons, <- !app_assoc in *. rewrite <- ?app_assoc in IH.
    cbn [name_part_loop lookup list_lookup]. rewrite range_from by (cbn [length]; lia). cbn [mbind outcome_bind drop]. rewrite drop_0.
    destruct (land_C0 (Z.of_nat (length l))) as (-> & -> & Hlo & _); [unfold byte; lia|]. rewrite Hlo, Nat2Z.id by lia.
    rewrite (proj2 (Z.eqb_neq _ _)), (proj2 (Z.ltb_lt _ _)) by lia. cbn [length] in Hf. rewrite length_app in Hf.
    rewrite (proj2 (Nat.ltb_ge _ _)) by (rewrite length_app; lia). rewrite range_from by (rewrite length_app; lia).
    cbn [mbind outcome_bind]. rewrite drop_app_length. apply IH. lia.
Qed.

Section QueryFields.
Context {BO : ByteOrder} {NE : NetworkEndian BO} {DF : Bitflags DNS_FLAGS}.

Lemma into_from_opcode x : DnsOpcode.into (DnsOpcode.from x) = x.
Proof. unfold DnsOpcode.from. destruct (Z.eqb_spec x 0); [done|]. by destruct (Z.eqb_spec x 1). Qed.

Lemma flag_word_bits r : query_wf r ->
  Z.land (flag_word r) DNS_FLAGS = flags_bits (dr_flags r) /\
  wrap_u 8 (Z.land (Z.shiftr (flag_word r) 11) 0xF) = DnsOpcode.into (dr_opcode r).
Proof.
  intros [_ Ho [f Hf] _]. unfold flag_word. rewrite Hf. set (o := DnsOpcode.into (dr_opcode r)) in *.
  pose proof (all_bytes (fun o => negb (o <? 16) || (Z.land (2048 * o) DNS_FLAGS =? 0) && (Z.land (Z.shiftr (2048 * o) 11) 0xF =? o))
    ltac:(by vm_compute) o ltac:(unfold byte; lia)) as H. cbn beta in H. rewrite (proj2 (Z.ltb_lt o 16)) in H by lia.
  apply andb_true_iff in H as [H1%Z.eqb_eq H2%Z.eqb_eq]. split.
  - rewrite Z.land_lor_distr_l, H1, Z.lor_0_r, <- Z.land_assoc. done.
  - rewrite Z.shiftr_lor, Z.land_lor_distr_l, H2, Z.shiftr_land, <- Z.land_assoc.
    change (Z.land (Z.shiftr DNS_FLAGS 11) 0xF) with 0. rewrite Z.land_0_r. unfold wrap_u. apply Z.mod_small. lia.
Qed.

(** The header of an emitted query. *)
Lemma query_fields r rest : query_wf r -> word (flag_word r) ->
  let p := query_octets r ++ rest in
  DnsPacket.transaction_id p = Ret (dr_transaction_id r) /\ get_u16 2 4 p = Ret (flag_word r) /\
  DnsPacket.question_count p = Ret 1 /\ DnsPacket.answer_record_count p = Ret 0.
Proof.
  intros [Hid _ _ _] Hfw. cbn zeta. assert (forall n, word n -> n = 256 * (n / 256) + n mod 256) as Hw by (intros; apply Z.div_mod; lia).
  unfold DnsPacket.transaction_id, DnsPacket.question_count, DnsPacket.answer_record_count, query_octets, be16. cbn [app replicate].
  destruct (word_octets _ Hid), (word_octets _ Hfw).
  split_and!; (erewrite get_u16_octets; [f_equal; symmetry; by apply Hw|done|done|done|done|done]) ||
    (erewrite get_u16_octets; [done|done|done|done|unfold byte; lia|unfold byte; lia]).
Qed.

Lemma question_parse_encoded q ls : type_wf (q_type q) -> q_name q = encode_name ls -> labels_wf ls ->
  Question.parse (question_octets q) = Ret (Ok ([], mkQuestion (encode_name ls) (DnsType.from (DnsType.into (q_type q))))).
Proof.
  intros Ht Hn Hl. unfold Question.parse, question_octets. rewrite Hn, name_part_encoded by done. cbn [try_bind].
  set (t := DnsType.into (q_type q)) in *. destruct (name_octets (encode_name ls) (be16 t ++ be16 CLASS_IN)) as [-> Hra].
  cbn [mbind outcome_bind]. rewrite Hra. cbn [mbind outcome_bind be16 app length]. destruct (word_octets t Ht).
  rewrite (get_u16_octets 0 2 _ (t / 256) (t mod 256)) by done. cbn [mbind outcome_bind].
  rewrite (get_u16_octets 2 4 _ 0 1) by (done || unfold byte; lia). cbn [mbind outcome_bind]. rewrite <- Z.div_mod by lia. done.
Qed.

Lemma query_bytes r : query_wf r -> word (flag_word r) -> bytes (q_name (dr_question r)) ->
  bytes (query_octets r ++ question_octets (dr_question r)).
Proof.
  intros [Hid _ _ Ht] Hfw Hn. unfold query_octets, question_octets. repeat (apply Forall_app; split); try done;
    try (by apply be16_bytes); repeat constructor; done.
Qed.
End QueryFields.

Lemma dns_query_emitted {BO : ByteOrder} {NE : NetworkEndian BO} {DF : Bitflags DNS_FLAGS} {DFL : BitflagsLaws DF} r ls
    (Hr : query_wf r) (Hn : q_name (dr_question r) = encode_name ls) (Hl : labels_wf ls) :
  exists octets, DnsRepr.emit r (replicate (DnsRepr.buffer_len r) 0) = Ret octets /\
    DnsPacket.transaction_id octets = Ret (dr_transaction_id r) /\
    (f ← DnsPacket.flags octets; Ret (flags_bits f)) = Ret (flags_bits (dr_flags r)) /\
    (o ← DnsPacket.opcode octets; Ret (DnsOpcode.into o)) = Ret (DnsOpcode.into (dr_opcode r)) /\
    DnsPacket.question_count octets = Ret 1 /\ DnsPacket.answer_record_count octets = Ret 0 /\
    (p ← DnsPacket.payload octets; Question.parse p) = Ret (Ok ([], mkQuestion (encode_name ls) (DnsType.from (DnsType.into (q_type (dr_question r)))))) /\
    decode (DnsPacket.parse_name octets (q_name (dr_question r))) = Some ls.
Proof.
  destruct (flag_word_ok r Hr) as (_ & Hfw & _). destruct (flag_word_bits r Hr) as [Hfl Hop]. assert (Hr' := Hr). destruct Hr' as [Hid _ _ Ht].
  eexists. split; [by apply query_emit_ok|]. destruct (query_fields r (question_octets (dr_question r)) Hr Hfw) as (-> & Hf & -> & ->).
  unfold DnsPacket.flags, DnsPacket.opcode. rewrite !Hf. cbn [mbind outcome_bind]. rewrite bits_truncate, Hfl, into_from_opcode, Hop.
  do 5 (split; [done|]). split.
  - unfold DnsPacket.payload, HEADER_END. rewrite range_from by (rewrite length_app; cbn; lia).
    rewrite (drop_app_length' (query_octets r)) by done. cbn [mbind outcome_bind]. by apply question_parse_encoded.
  - rewrite Hn. apply decode_encoded; [|done]. apply query_bytes; [done..|]. rewrite Hn. by apply encode_bytes.
Qed.

(** A query reads back: the octets of [emit] have the transaction id, the opcode, one
    question and no records, and the question is the one that was asked. *)
Theorem dns_query_roundtrip {BO : ByteOrder} (NE : NetworkEndian BO) {DF : Bitflags DNS_FLAGS} (DFL : BitflagsLaws DF) r ls
    (Hr : query_wf r) (Hn : q_name (dr_question r) = encode_name ls) (Hl : labels_wf ls) :
  exists octets, DnsRepr.emit r (replicate (DnsRepr.buffer_len r) 0) = Ret octets /\
    DnsPacket.transaction_id octets = Ret (dr_transaction_id r) /\
    (f ← DnsPacket.flags octets; Ret (flags_bits f)) = Ret (flags_bits (dr_flags r)) /\
    (o ← DnsPacket.opcode octets; Ret (DnsOpcode.into o)) = Ret (DnsOpcode.into (dr_opcode r)) /\
    DnsPacket.question_count octets = Ret 1 /\ DnsPacket.answer_record_count octets = Ret 0 /\
    (p ← DnsPacket.payload octets; Question.parse p) = Ret (Ok ([], mkQuestion (encode_name ls) (DnsType.from (DnsType.into (q_type (dr_question r)))))) /\
    decode (DnsPacket.parse_name octets (q_name (dr_question r))) = Some ls.
Proof. by apply dns_query_emitted. Qed.

(** The items of the iterator up to its end or an error; [fuel] bounds the labels. *)
Fixpoint collect (fuel : nat) (it : name_iter) : outcome (result (list label) WireError) :=
  match fuel with
  | O => Panic
  | S fuel =>
      '(item, it) ← DnsPacket.next it;
      match item with
      | None => Ret (Ok [])
      | Some (Err e) => Ret (Err e)
      | Some (Ok l) => ls ←? collect fuel it; Ret (Ok (l :: ls))
      end
  end.

Lemma collect_decode fuel it : iter_bytes it -> (iter_size it < fuel)%nat ->
  collect fuel it = Ret (match decode it with Some ls => Ok ls | None => Err Error end).
Proof.
  revert it. induction fuel as [|fuel IH]; intros it Hb Hf; [lia|]. cbn [collect].
  destruct (next_ok it Hb) as (item & it' & Hn & _). rewrite Hn. cbn [mbind outcome_bind].
  pose proof (decode_next it item it' Hb Hn) as Hd. destruct item as [[l|[]]|].
  - destruct Hd as (Hb' & Hs & _ & _ & ->). rewrite IH by (done || lia). by destruct (decode it').
  - by rewrite Hd.
  - by rewrite Hd.
Qed.

(** Names end, and are what RFC 1035 says.  Reading the name at any octets of any
    packet takes at most as many steps as there are octets, whatever pointers they
    have (in loops, too); when it gives labels, these are the labels of RFC 1035 for
    the octets and what follows them, and it fails only when the octets are not a
    name whose pointers go backwards. *)
Theorem dns_names_decode packet b rest (Hp : bytes packet) (Hb : bytes b) :
  exists res, collect (S (length b + length packet)) (DnsPacket.parse_name packet b) = Ret res /\
    match res with
    | Ok ls => name_at packet (b ++ rest) ls /\ labels_wf ls
    | Err _ => forall ls, ~ name_in packet b ls
    end.
Proof.
  assert (iter_bytes (DnsPacket.parse_name packet b)) as Hi by (by split).
  eexists. split; [apply collect_decode; [done|unfold iter_size, DnsPacket.parse_name; cbn; lia]|].
  destruct (decode _) as [ls|] eqn:Hd.
  - split; [|by eapply decode_wf]. apply decode_spec in Hd; [|done]. apply (name_in_at packet packet b ls Hd (length packet)).
    by rewrite firstn_all.
  - intros ls Hn. assert (decode (DnsPacket.parse_name packet b) = Some ls) by (by apply decode_spec). congruence.
Qed.

(** The opcode of a packet is not always what [set_opcode] set: its mask has three
    bits, and the field has four. *)
Lemma set_opcode_keeps_bit {BO : ByteOrder} (NE : NetworkEndian BO) :
  (p ← DnsPacket.set_opcode DnsOpcode.Query ([0; 0; 0x40; 0] ++ replicate 8 0); DnsPacket.opcode p) = Ret (DnsOpcode.Unknown 8).
Proof.
  unfold DnsPacket.set_opcode, update_u16, DnsPacket.opcode. cbn [app replicate].
  rewrite (get_u16_octets 2 4 _ 0x40 0) by (done || unfold byte; lia). cbn [mbind outcome_bind].
  rewrite put_u16_octets; [|done|cbn; lia|by vm_compute]. cbn [mbind outcome_bind take drop app].
  rewrite (get_u16_octets 2 4 _ 0x40 0) by (done || unfold byte; lia). done.
Qed.
