(* ===== verification/Arp.v ===== *)
(** * The ARP wire format (src/wire/arp.rs)

    [Module ArpPacket] is the accessors and setters, whose positions depend on the
    two length fields; [Module ArpRepr] the parser and the emitter.  The theorem is
    about a frame: the Ethernet header of LinkLayer.v with an ARP packet in it. *)

From S2P Require Import Prelude Bytes Octets Ip LinkLayer.
Open Scope Z_scope.

Module ArpHardware.
Inductive t := Ethernet | Unknown (id : Z).
Definition from (value : Z) : t := if value =? 1 then Ethernet else Unknown value.
Definition into (h : t) : Z := match h with Ethernet => 1 | Unknown other => other end.
End ArpHardware.

Module ArpOperation.
Inductive t := Request | Reply | Unknown (id : Z).

#[global] Instance eq_dec : EqDecision t.
Proof. solve_decision. Defined.

Definition from (value : Z) : t :=
  if value =? 1 then Request else if value =? 2 then Reply else Unknown value.
Definition into (o : t) : Z := match o with Request => 1 | Reply => 2 | Unknown other => other end.
End ArpOperation.

(** [field::SHA] to [field::TPA], as start and end. *)
Module ArpField.
Definition SHA (hardware_len protocol_len : nat) : nat * nat := (8, 8 + hardware_len)%nat.
Definition SPA (hardware_len protocol_len : nat) : nat * nat :=
  let start := (SHA hardware_len protocol_len).2 in (start, start + protocol_len)%nat.
Definition THA (hardware_len protocol_len : nat) : nat * nat :=
  let start := (SPA hardware_len protocol_len).2 in (start, start + hardware_len)%nat.
Definition TPA (hardware_len protocol_len : nat) : nat * nat :=
  let start := (THA hardware_len protocol_len).2 in (start, start + protocol_len)%nat.
End ArpField.

Module ArpPacket.
Section Accessors.
Context {BO : ByteOrder}.
Implicit Types (data : list Z).

Definition hardware_len data : outcome Z := get_byte 4 data.
Definition protocol_len data : outcome Z := get_byte 5 data.

Definition check_len data : outcome (result unit WireError) :=
  let len := length data in
  if (len <? 8)%nat then Ret (Err Error) else
  h ← hardware_len data;
  p ← protocol_len data;
  if (len <? (ArpField.TPA (Z.to_nat h) (Z.to_nat p)).2)%nat then Ret (Err Error) else Ret (Ok ()).

Definition new_checked data : outcome (result (list Z) WireError) :=
  _ ←? check_len data;
  Ret (Ok data).

Definition hardware_type data : outcome ArpHardware.t :=
  raw ← get_u16 0 2 data; Ret (ArpHardware.from raw).
Definition protocol_type data : outcome EtherType.t :=
  raw ← get_u16 2 4 data; Ret (EtherType.from raw).
Definition operation data : outcome ArpOperation.t :=
  raw ← get_u16 6 8 data; Ret (ArpOperation.from raw).

(** [&data[field(self.hardware_len(), self.protocol_len())]] *)
Definition addr_field (field : nat -> nat -> nat * nat) data : outcome (list Z) :=
  h ← hardware_len data;
  p ← protocol_len data;
  let '(a, b) := field (Z.to_nat h) (Z.to_nat p) in
  range data a b.

Definition source_hardware_addr := addr_field ArpField.SHA.
Definition source_protocol_addr := addr_field ArpField.SPA.
Definition target_hardware_addr := addr_field ArpField.THA.
Definition target_protocol_addr := addr_field ArpField.TPA.

Definition set_hardware_type (value : ArpHardware.t) data : outcome (list Z) :=
  put_u16 0 2 (ArpHardware.into value) data.
Definition set_protocol_type (value : EtherType.t) data : outcome (list Z) :=
  put_u16 2 4 (EtherType.into value) data.
Definition set_hardware_len (value : Z) data : outcome (list Z) := set_byte 4 value data.
Definition set_protocol_len (value : Z) data : outcome (list Z) := set_byte 5 value data.
Definition set_operation (value : ArpOperation.t) data : outcome (list Z) :=
  put_u16 6 8 (ArpOperation.into value) data.

Definition set_addr_field (field : nat -> nat -> nat * nat) (value data : list Z) : outcome (list Z) :=
  h ← hardware_len data;
  p ← protocol_len data;
  let '(a, b) := field (Z.to_nat h) (Z.to_nat p) in
  put_slice a b value data.

Definition set_source_hardware_addr := set_addr_field ArpField.SHA.
Definition set_source_protocol_addr := set_addr_field ArpField.SPA.
Definition set_target_hardware_addr := set_addr_field ArpField.THA.
Definition set_target_protocol_addr := set_addr_field ArpField.TPA.
End Accessors.
End ArpPacket.

Inductive ArpRepr :=
| EthernetIpv4 (operation : ArpOperation.t)
    (source_hardware_addr source_protocol_addr target_hardware_addr target_protocol_addr : list Z).

Module ArpRepr.
Section Repr.
Context {BO : ByteOrder}.

Definition parse (packet : list Z) : outcome (result ArpRepr WireError) :=
  _ ←? ArpPacket.check_len packet;
  h ← ArpPacket.hardware_type packet;
  p ← ArpPacket.protocol_type packet;
  hl ← ArpPacket.hardware_len packet;
  pl ← ArpPacket.protocol_len packet;
  match h, p with
  | ArpHardware.Ethernet, EtherType.Ipv4 =>
      if (hl =? 6) && (pl =? 4) then
        operation ← ArpPacket.operation packet;
        sha ← ArpPacket.source_hardware_addr packet;
        sha ← EthernetAddress.from_bytes sha;
        spa ← ArpPacket.source_protocol_addr packet;
        spa ← Ipv4Address.from_bytes spa;
        tha ← ArpPacket.target_hardware_addr packet;
        tha ← EthernetAddress.from_bytes tha;
        tpa ← ArpPacket.target_protocol_addr packet;
        tpa ← Ipv4Address.from_bytes tpa;
        Ret (Ok (EthernetIpv4 operation sha spa tha tpa))
      else Ret (Err Error)
  | _, _ => Ret (Err Error)
  end.

Definition buffer_len (r : ArpRepr) : nat := (ArpField.TPA 6 4).2.

Definition emit (r : ArpRepr) (packet : list Z) : outcome (list Z) :=
  match r with
  | EthernetIpv4 operation source_hardware_addr source_protocol_addr target_hardware_addr
      target_protocol_addr =>
      packet ← ArpPacket.set_hardware_type ArpHardware.Ethernet packet;
      packet ← ArpPacket.set_protocol_type EtherType.Ipv4 packet;
      packet ← ArpPacket.set_hardware_len 6 packet;
      packet ← ArpPacket.set_protocol_len 4 packet;
      packet ← ArpPacket.set_operation operation packet;
      packet ← ArpPacket.set_source_hardware_addr source_hardware_addr packet;
      packet ← ArpPacket.set_source_protocol_addr source_protocol_addr packet;
      packet ← ArpPacket.set_target_hardware_addr target_hardware_addr packet;
      ArpPacket.set_target_protocol_addr target_protocol_addr packet
  end.
End Repr.
End ArpRepr.

(** ** Round trip *)

Definition operation_ok (o : ArpOperation.t) : Prop :=
  match o with ArpOperation.Unknown v => 2 < v <= U16_MAX | _ => True end.

Definition arp_wf (r : ArpRepr) : Prop :=
  match r with
  | EthernetIpv4 operation sha spa tha tpa =>
      operation_ok operation /\ EthernetAddress.wf sha /\ address_wf (Ipv4 spa) /\
      EthernetAddress.wf tha /\ address_wf (Ipv4 tpa)
  end.

(** The octets of a packet. *)
Definition arp_octets (r : ArpRepr) : list Z :=
  match r with
  | EthernetIpv4 operation sha spa tha tpa =>
      [0; 1; 8; 0; 6; 4] ++ be16 (ArpOperation.into operation) ++ sha ++ spa ++ tha ++ tpa
  end.

Section RoundTrip.
Context {BO : ByteOrder} {NE : NetworkEndian BO}.

Lemma operation_range o : operation_ok o -> 0 <= ArpOperation.into o <= U16_MAX.
Proof. destruct o; cbn; lia. Qed.

Lemma operation_from_into o : operation_ok o -> ArpOperation.from (ArpOperation.into o) = o.
Proof.
  destruct o as [| |v]; [done..|]. cbn. intros Hv. unfold ArpOperation.from.
  rewrite !(proj2 (Z.eqb_neq _ _)) by lia. done.
Qed.

(** Write a field of a buffer with explicit octets. *)
Ltac write_field :=
  cbn [length]; first
  [ rewrite put_u16_octets by (cbn [length]; done || lia)
  | rewrite set_byte_ok by (cbn [length]; lia)
  | rewrite put_slice_ok by (cbn [length]; done || lia) ];
  cbn [mbind outcome_bind take drop app insert list_insert].

Lemma set_addr_field_ok (field : nat -> nat -> nat * nat) a b v data :
  data !! 4%nat = Some 6 -> data !! 5%nat = Some 4 -> field 6%nat 4%nat = (a, b) ->
  (a <= b <= length data)%nat -> length v = (b - a)%nat ->
  ArpPacket.set_addr_field field v data = Ret (take a data ++ v ++ drop b data).
Proof.
  intros H4 H5 Hf Hb Hv.
  unfold ArpPacket.set_addr_field, ArpPacket.hardware_len, ArpPacket.protocol_len, get_byte.
  rewrite H4, H5. cbn [unwrap mbind outcome_bind]. change (Z.to_nat 6) with 6%nat.
  change (Z.to_nat 4) with 4%nat. rewrite Hf. by apply put_slice_ok.
Qed.

Lemma addr_field_ok (field : nat -> nat -> nat * nat) a b data :
  data !! 4%nat = Some 6 -> data !! 5%nat = Some 4 -> field 6%nat 4%nat = (a, b) ->
  (a <= b <= length data)%nat -> ArpPacket.addr_field field data = Ret (slice data a (b - a)).
Proof.
  intros H4 H5 Hf Hb.
  unfold ArpPacket.addr_field, ArpPacket.hardware_len, ArpPacket.protocol_len, get_byte.
  rewrite H4, H5. cbn [unwrap mbind outcome_bind]. change (Z.to_nat 6) with 6%nat.
  change (Z.to_nat 4) with 4%nat. rewrite Hf. by rewrite range_Ret by lia.
Qed.

Ltac write_addr a b :=
  rewrite (set_addr_field_ok _ a b) by (done || (cbn [length]; lia));
  cbn [mbind outcome_bind take drop app].

Lemma arp_emit_octets r packet :
  arp_wf r -> (28 <= length packet)%nat ->
  ArpRepr.emit r packet = Ret (arp_octets r ++ drop 28 packet).
Proof.
  destruct r as [op sha spa tha tpa]. intros (Hop & [Hsha _] & [Hspa _] & [Htha _] & [Htpa _]) Hl.
  pose proof (operation_range op Hop). octets_of packet.
  destruct sha as [|s0 [|s1 [|s2 [|s3 [|s4 [|s5 [|]]]]]]]; try done.
  destruct spa as [|p0 [|p1 [|p2 [|p3 [|]]]]]; try done.
  destruct tha as [|t0 [|t1 [|t2 [|t3 [|t4 [|t5 [|]]]]]]]; try done.
  unfold ArpRepr.emit, ArpPacket.set_hardware_type, ArpPacket.set_protocol_type, ArpPacket.set_hardware_len,
    ArpPacket.set_protocol_len, ArpPacket.set_operation. do 5 write_field.
  unfold ArpPacket.set_source_hardware_addr, ArpPacket.set_source_protocol_addr,
    ArpPacket.set_target_hardware_addr, ArpPacket.set_target_protocol_addr. write_addr 8%nat 14%nat. write_addr 14%nat 18%nat.
  write_addr 18%nat 24%nat. write_addr 24%nat 28%nat.
  unfold arp_octets, be16. by cbn [app drop].
Qed.

Lemma arp_parse_octets r rest :
  arp_wf r -> ArpRepr.parse (arp_octets r ++ rest) = Ret (Ok r).
Proof.
  destruct r as [op sha spa tha tpa].
  intros (Hop & [Hsha _] & [Hspa _] & [Htha _] & [Htpa _]). pose proof (operation_range op Hop) as Hor.
  destruct sha as [|s0 [|s1 [|s2 [|s3 [|s4 [|s5 [|]]]]]]]; try done.
  destruct spa as [|p0 [|p1 [|p2 [|p3 [|]]]]]; try done.
  destruct tha as [|t0 [|t1 [|t2 [|t3 [|t4 [|t5 [|]]]]]]]; try done.
  destruct tpa as [|q0 [|q1 [|q2 [|q3 [|]]]]]; try done.
  unfold arp_octets, be16. cbn [app]. unfold ArpRepr.parse.
  set (data := 0 :: _). assert (28 <= length data)%nat as Hl by (unfold data; cbn [length]; lia).
  assert (ArpPacket.check_len data = Ret (Ok ())) as ->.
  { unfold ArpPacket.check_len, ArpPacket.hardware_len, ArpPacket.protocol_len.
    rewrite (proj2 (Nat.ltb_ge _ _)) by lia. unfold get_byte, data. cbn [lookup list_lookup unwrap mbind outcome_bind].
    fold data. change (ArpField.TPA (Z.to_nat 6) (Z.to_nat 4)).2 with 28%nat.
    by rewrite (proj2 (Nat.ltb_ge _ _)) by lia. }
  cbn [try_bind]. unfold ArpPacket.hardware_type, ArpPacket.protocol_type, ArpPacket.operation.
  rewrite (get_u16_octets 0 2 data 0 1), (get_u16_octets 2 4 data 8 0) by (done || (unfold byte; lia)).
  cbn [mbind outcome_bind]. rewrite (get_u16_octets 6 8 data (ArpOperation.into op / 256)
    (ArpOperation.into op mod 256)) by (done || apply byte_mod || (apply byte_div; lia)).
  cbn [mbind outcome_bind]. unfold ArpPacket.hardware_len, ArpPacket.protocol_len, get_byte.
  change (data !! 4%nat) with (Some 6). change (data !! 5%nat) with (Some 4).
  cbn [unwrap mbind outcome_bind Z.eqb Pos.eqb andb].
  unfold ArpPacket.source_hardware_addr, ArpPacket.source_protocol_addr,
    ArpPacket.target_hardware_addr, ArpPacket.target_protocol_addr.
  rewrite (addr_field_ok ArpField.SHA 8 14), (addr_field_ok ArpField.SPA 14 18),
    (addr_field_ok ArpField.THA 18 24), (addr_field_ok ArpField.TPA 24 28) by (done || lia).
  cbn [mbind outcome_bind]. rewrite <-Z.div_mod, operation_from_into by (done || lia). done.
Qed.
End RoundTrip.

(** ** Parsing is total *)

Section Total.
Context {BO : ByteOrder} {NE : NetworkEndian BO}.
Implicit Types (data : list Z).

Lemma frame_fields_ok data :
  bytes data -> (14 <= length data)%nat ->
  exists ty, Frame.dst_addr data = Ret (slice data 0 6) /\ Frame.src_addr data = Ret (slice data 6 6) /\
    Frame.ethertype data = Ret ty /\ Frame.payload data = Ret (drop 14 data).
Proof.
  intros Hb Hl. unfold Frame.dst_addr, Frame.src_addr, Frame.ethertype, Frame.payload.
  destruct (get_u16_ok 12 14 data Hb ltac:(lia) eq_refl) as (n & -> & _).
  rewrite !range_Ret by lia. cbn [mbind outcome_bind]. unfold EthernetAddress.from_bytes.
  rewrite !length_slice. rewrite !(proj2 (Nat.eqb_eq _ _)) by lia. eexists. split_and!; try done.
  unfold slice. by rewrite take_ge by (rewrite length_drop; lia).
Qed.

Lemma ethernet_slice_wf data start :
  bytes data -> (start + 6 <= length data)%nat -> EthernetAddress.wf (slice data start 6).
Proof. intros Hb Hl. split; [rewrite length_slice; lia|by apply bytes_slice]. Qed.

Lemma ipv4_slice_wf data start :
  bytes data -> (start + 4 <= length data)%nat -> address_wf (Ipv4 (slice data start 4)).
Proof. intros Hb Hl. split; [rewrite length_slice; lia|by apply bytes_slice]. Qed.

Definition arp_parsed (res : result ArpRepr WireError) : Prop :=
  match res with
  | Ok (EthernetIpv4 _ sha spa tha tpa) =>
      EthernetAddress.wf sha /\ address_wf (Ipv4 spa) /\ EthernetAddress.wf tha /\ address_wf (Ipv4 tpa)
  | Err _ => True
  end.

(** Parsing never panics, and the addresses of a parsed packet have their length. *)
Lemma arp_parse_total data :
  bytes data -> exists res, ArpRepr.parse data = Ret res /\ arp_parsed res.
Proof.
  intros Hb. assert (forall e, exists res, Ret (Err e) = Ret res /\ arp_parsed res) as Herr
    by (intros e; by exists (Err e)).
  unfold ArpRepr.parse, ArpPacket.check_len. destruct (Nat.ltb_spec (length data) 8); [apply Herr|].
  unfold ArpPacket.hardware_len, ArpPacket.protocol_len. rewrite !get_byte_ok by lia.
  cbn [mbind outcome_bind]. set (h := data !!! 4%nat). set (p := data !!! 5%nat).
  destruct (Nat.ltb_spec (length data) (ArpField.TPA (Z.to_nat h) (Z.to_nat p)).2) as [|Hlen]; [apply Herr|].
  cbn [try_bind]. unfold ArpPacket.hardware_type, ArpPacket.protocol_type, ArpPacket.operation.
  destruct (get_u16_ok 0 2 data Hb ltac:(lia) eq_refl) as (n1 & -> & _).
  destruct (get_u16_ok 2 4 data Hb ltac:(lia) eq_refl) as (n2 & -> & _).
  destruct (get_u16_ok 6 8 data Hb ltac:(lia) eq_refl) as (n3 & -> & _). cbn [mbind outcome_bind].
  destruct (ArpHardware.from n1), (EtherType.from n2); try apply Herr.
  destruct (Z.eqb_spec h 6) as [Hh|], (Z.eqb_spec p 4) as [Hp|]; try apply Herr. cbn [andb].
  rewrite Hh, Hp in Hlen. cbn in Hlen.
  assert (data !! 4%nat = Some 6) as H4 by (rewrite list_lookup_lookup_total_lt by lia; by f_equal).
  assert (data !! 5%nat = Some 4) as H5 by (rewrite list_lookup_lookup_total_lt by lia; by f_equal).
  unfold ArpPacket.source_hardware_addr, ArpPacket.source_protocol_addr,
    ArpPacket.target_hardware_addr, ArpPacket.target_protocol_addr.
  rewrite (addr_field_ok ArpField.SHA 8 14), (addr_field_ok ArpField.SPA 14 18),
    (addr_field_ok ArpField.THA 18 24), (addr_field_ok ArpField.TPA 24 28) by (done || lia).
  cbn [mbind outcome_bind]. unfold EthernetAddress.from_bytes, Ipv4Address.from_bytes.
  rewrite !length_slice. rewrite !(proj2 (Nat.eqb_eq _ _)) by lia. cbn [mbind outcome_bind].
  eexists. split; [done|]. unfold arp_parsed.
  split_and!; [apply ethernet_slice_wf|apply ipv4_slice_wf|apply ethernet_slice_wf|apply ipv4_slice_wf];
    done || lia.
Qed.
End Total.
