(* ===== verification/Ipv4Wire.v ===== *)
(** * The IPv4 header (src/wire/ipv4.rs)

    [Module Ipv4Packet] is the accessors and setters on a buffer, [Module Ipv4Repr]
    the parser and the emitter; the representation is [IpHeader] of Ip.v. *)

From S2P Require Import Prelude Bytes Octets Phy Ip.
Open Scope Z_scope.

Definition IPV4_HEADER_LEN : nat := 20.

Module Ipv4Key.
(** [Key], which identifies the datagram a fragment belongs to. *)
Record t := mk { id : Z; src_addr : list Z; dst_addr : list Z; protocol : Protocol.t }.

#[local] Existing Instance Protocol.eq_dec.
#[global] Instance eq_dec : EqDecision t.
Proof. solve_decision. Defined.
End Ipv4Key.

Module Ipv4Packet.
Section Accessors.
Context {BO : ByteOrder}.
Implicit Types (data : list Z).

Definition version data : outcome Z := b ← get_byte 0 data; Ret (Z.shiftr b 4).
Definition header_len data : outcome Z := b ← get_byte 0 data; umul U8_MAX (Z.land b 0x0f) 4.
Definition dscp data : outcome Z := b ← get_byte 1 data; Ret (Z.shiftr b 2).
Definition ecn data : outcome Z := b ← get_byte 1 data; Ret (Z.land b 0x03).
Definition total_len data : outcome Z := get_u16 2 4 data.
Definition ident data : outcome Z := get_u16 4 6 data.
Definition dont_frag data : outcome bool :=
  raw ← get_u16 6 8 data; Ret (negb (Z.land raw 0x4000 =? 0)).
Definition more_frags data : outcome bool :=
  raw ← get_u16 6 8 data; Ret (negb (Z.land raw 0x2000 =? 0)).
Definition frag_offset data : outcome Z :=
  raw ← get_u16 6 8 data; Ret (wrap_u 16 (Z.shiftl raw 3)).
Definition hop_limit data : outcome Z := get_byte 8 data.
Definition next_header data : outcome Protocol.t := b ← get_byte 9 data; Ret (Protocol.from b).
Definition checksum data : outcome Z := get_u16 10 12 data.
Definition src_addr data : outcome (list Z) := d ← range data 12 16; Ipv4Address.from_bytes d.
Definition dst_addr data : outcome (list Z) := d ← range data 16 20; Ipv4Address.from_bytes d.

Definition check_len data : outcome (result unit WireError) :=
  let len := length data in
  if (len <? IPV4_HEADER_LEN)%nat then Ret (Err Error) else
  header_len ← header_len data;
  if (len <? Z.to_nat header_len)%nat then Ret (Err Error) else
  total_len ← total_len data;
  if header_len >? total_len then Ret (Err Error) else
  if (len <? Z.to_nat total_len)%nat then Ret (Err Error) else Ret (Ok ()).

Definition new_checked data : outcome (result (list Z) WireError) :=
  _ ←? check_len data;
  Ret (Ok data).

Definition verify_checksum data : outcome bool :=
  header_len ← header_len data;
  d ← range data 0 (Z.to_nat header_len);
  c ← checksum.data d;
  Ret (c =? U16_MAX).

Definition get_key data : outcome Ipv4Key.t :=
  id ← ident data;
  src_addr ← src_addr data;
  dst_addr ← dst_addr data;
  protocol ← next_header data;
  Ret (Ipv4Key.mk id src_addr dst_addr protocol).

Definition payload data : outcome (list Z) :=
  header_len ← header_len data;
  total_len ← total_len data;
  range data (Z.to_nat header_len) (Z.to_nat total_len).

(** [value << n] on [u8]. *)
Definition shl8 (value n : Z) : Z := wrap_u 8 (Z.shiftl value n).

Definition set_version (value : Z) data : outcome (list Z) :=
  update_byte 0 (fun b => Z.lor (Z.land b (255 - 0xf0)) (shl8 value 4)) data.
Definition set_header_len (value : Z) data : outcome (list Z) :=
  update_byte 0 (fun b => Z.lor (Z.land b (255 - 0x0f)) (Z.land (value / 4) 0x0f)) data.
Definition set_dscp (value : Z) data : outcome (list Z) :=
  update_byte 1 (fun b => Z.lor (Z.land b (255 - 0xfc)) (shl8 value 2)) data.
Definition set_ecn (value : Z) data : outcome (list Z) :=
  update_byte 1 (fun b => Z.lor (Z.land b (255 - 0x03)) (Z.land value 0x03)) data.
Definition set_total_len (value : Z) data : outcome (list Z) := put_u16 2 4 value data.
Definition set_ident (value : Z) data : outcome (list Z) := put_u16 4 6 value data.

Definition clear_flags data : outcome (list Z) :=
  update_u16 6 8 (fun raw => Z.land raw (not16 0xe000)) data.
Definition set_dont_frag (value : bool) data : outcome (list Z) :=
  update_u16 6 8 (fun raw => if value then Z.lor raw 0x4000 else Z.land raw (not16 0x4000)) data.
Definition set_more_frags (value : bool) data : outcome (list Z) :=
  update_u16 6 8 (fun raw => if value then Z.lor raw 0x2000 else Z.land raw (not16 0x2000)) data.
Definition set_frag_offset (value : Z) data : outcome (list Z) :=
  update_u16 6 8 (fun raw => Z.lor (Z.land raw 0xe000) (Z.shiftr value 3)) data.

Definition set_hop_limit (value : Z) data : outcome (list Z) := set_byte 8 value data.
Definition set_next_header (value : Protocol.t) data : outcome (list Z) :=
  set_byte 9 (Protocol.into value) data.
Definition set_checksum (value : Z) data : outcome (list Z) := put_u16 10 12 value data.
Definition set_src_addr (value : list Z) data : outcome (list Z) := put_slice 12 16 value data.
Definition set_dst_addr (value : list Z) data : outcome (list Z) := put_slice 16 20 value data.

Definition fill_checksum data : outcome (list Z) :=
  data ← set_checksum 0 data;
  header_len ← header_len data;
  d ← range data 0 (Z.to_nat header_len);
  c ← checksum.data d;
  set_checksum (not16 c) data.
End Accessors.
End Ipv4Packet.

Module Ipv4Repr.
Section Repr.
Context {BO : ByteOrder}.

Definition parse (packet : list Z) (checksum_caps : ChecksumCapabilities) :
    outcome (result IpHeader WireError) :=
  _ ←? Ipv4Packet.check_len packet;
  version ← Ipv4Packet.version packet;
  if negb (version =? 4) then Ret (Err Error) else
  invalid ← (if Checksum.rx (caps_ipv4 checksum_caps)
             then ok ← Ipv4Packet.verify_checksum packet; Ret (negb ok)
             else Ret false);
  if invalid : bool then Ret (Err Error) else
  total_len ← Ipv4Packet.total_len packet;
  header_len ← Ipv4Packet.header_len packet;
  payload_len ← usub total_len header_len;
  src_addr ← Ipv4Packet.src_addr packet;
  dst_addr ← Ipv4Packet.dst_addr packet;
  next_header ← Ipv4Packet.next_header packet;
  hop_limit ← Ipv4Packet.hop_limit packet;
  Ret (Ok (mkIpHeader src_addr dst_addr next_header (Z.to_nat payload_len) hop_limit)).

Definition buffer_len (r : IpHeader) : nat := IPV4_HEADER_LEN.

Definition emit (r : IpHeader) (checksum_caps : ChecksumCapabilities) (packet : list Z) :
    outcome (list Z) :=
  packet ← Ipv4Packet.set_version 4 packet;
  packet ← Ipv4Packet.set_header_len (Z.of_nat IPV4_HEADER_LEN) packet;
  packet ← Ipv4Packet.set_dscp 0 packet;
  packet ← Ipv4Packet.set_ecn 0 packet;
  header_len ← Ipv4Packet.header_len packet;
  total_len ← uadd U16_MAX header_len (wrap_u 16 (Z.of_nat (ih_payload_len r)));
  packet ← Ipv4Packet.set_total_len total_len packet;
  packet ← Ipv4Packet.set_ident 0 packet;
  packet ← Ipv4Packet.clear_flags packet;
  packet ← Ipv4Packet.set_more_frags false packet;
  packet ← Ipv4Packet.set_dont_frag true packet;
  packet ← Ipv4Packet.set_frag_offset 0 packet;
  packet ← Ipv4Packet.set_hop_limit (ih_hop_limit r) packet;
  packet ← Ipv4Packet.set_next_header (ih_next_header r) packet;
  packet ← Ipv4Packet.set_src_addr (ih_src_addr r) packet;
  packet ← Ipv4Packet.set_dst_addr (ih_dst_addr r) packet;
  if Checksum.tx (caps_ipv4 checksum_caps) then Ipv4Packet.fill_checksum packet
  else Ipv4Packet.set_checksum 0 packet.
End Repr.
End Ipv4Repr.

(** ** The header, octet by octet *)

(** A header without options. *)
Record header := mkHeader {
  h_total_len : Z; h_ident : Z; h_flags : Z; h_hop : Z; h_proto : Z; h_check : Z;
  h_src : list Z; h_dst : list Z
}.

#[export] Instance eta_header : Settable header := fun h =>
  mkHeader (h_total_len h) (h_ident h) (h_flags h) (h_hop h) (h_proto h) (h_check h) (h_src h) (h_dst h).

Definition header_octets (h : header) : list Z :=
  [0x45; 0; h_total_len h / 256; h_total_len h mod 256; h_ident h / 256; h_ident h mod 256;
   h_flags h / 256; h_flags h mod 256; h_hop h; h_proto h; h_check h / 256; h_check h mod 256]
  ++ h_src h ++ h_dst h.


Definition header_wf (h : header) : Prop :=
  word (h_total_len h) /\ word (h_ident h) /\ word (h_flags h) /\ byte (h_hop h) /\ byte (h_proto h) /\
  word (h_check h) /\ address_wf (Ipv4 (h_src h)) /\ address_wf (Ipv4 (h_dst h)).

Lemma header_octets_length h : header_wf h -> length (header_octets h) = 20%nat.
Proof. intros (_ & _ & _ & _ & _ & _ & [H1 _] & [H2 _]). unfold header_octets. rewrite !length_app. cbn in *. lia. Qed.

Lemma header_octets_bytes h : header_wf h -> bytes (header_octets h).
Proof.
  intros (Ht & Hi & Hf & Hh & Hp & Hc & [_ H1] & [_ H2]). apply word_octets in Ht, Hi, Hf, Hc.
  unfold header_octets. apply Forall_app_2; [|by apply Forall_app_2].
  repeat apply Forall_cons_2; try apply Forall_nil_2; try tauto; unfold byte; lia.
Qed.

Section Fields.
Context {BO : ByteOrder} {NE : NetworkEndian BO}.
Variables (h : header) (rest : list Z).
Hypothesis Hwf : header_wf h.
Abbreviation p := (header_octets h ++ rest).

Lemma header_cons :
  exists s0 s1 s2 s3 d0 d1 d2 d3, h_src h = [s0; s1; s2; s3] /\ h_dst h = [d0; d1; d2; d3].
Proof.
  destruct Hwf as (_ & _ & _ & _ & _ & _ & [H1 _] & [H2 _]).
  destruct (h_src h) as [|s0 [|s1 [|s2 [|s3 [|]]]]]; try done.
  destruct (h_dst h) as [|d0 [|d1 [|d2 [|d3 [|]]]]]; try done. by repeat eexists.
Qed.

Lemma h_get_version : Ipv4Packet.version p = Ret 4. Proof. done. Qed.
Lemma h_get_header_len : Ipv4Packet.header_len p = Ret 20. Proof. done. Qed.
Lemma h_get_hop : Ipv4Packet.hop_limit p = Ret (h_hop h). Proof. done. Qed.
Lemma h_get_next : Ipv4Packet.next_header p = Ret (Protocol.from (h_proto h)). Proof. done. Qed.

Lemma h_get_word a n :
  p !! a = Some (n / 256) -> p !! S a = Some (n mod 256) -> word n -> get_u16 a (a + 2) p = Ret n.
Proof.
  intros H1 H2 Hn. destruct (word_octets n Hn). rewrite (get_u16_octets a _ p (n / 256) (n mod 256)) by done.
  f_equal. symmetry. apply Z.div_mod. lia.
Qed.

Lemma h_get_total : Ipv4Packet.total_len p = Ret (h_total_len h).
Proof. apply (h_get_word 2); [done..|apply Hwf]. Qed.
Lemma h_get_ident : Ipv4Packet.ident p = Ret (h_ident h).
Proof. apply (h_get_word 4); [done..|apply Hwf]. Qed.
Lemma h_get_flags : get_u16 6 8 p = Ret (h_flags h).
Proof. apply (h_get_word 6); [done..|apply Hwf]. Qed.
Lemma h_get_src : Ipv4Packet.src_addr p = Ret (h_src h).
Proof.
  destruct header_cons as (s0 & s1 & s2 & s3 & d0 & d1 & d2 & d3 & Hs & Hd).
  unfold Ipv4Packet.src_addr, header_octets. rewrite Hs, Hd. cbn [app].
  rewrite range_Ret by (cbn [length]; lia). done.
Qed.
Lemma h_get_dst : Ipv4Packet.dst_addr p = Ret (h_dst h).
Proof.
  destruct header_cons as (s0 & s1 & s2 & s3 & d0 & d1 & d2 & d3 & Hs & Hd).
  unfold Ipv4Packet.dst_addr, header_octets. rewrite Hs, Hd. cbn [app].
  rewrite range_Ret by (cbn [length]; lia). done.
Qed.

Lemma h_set_total v :
  word v -> Ipv4Packet.set_total_len v p = Ret (header_octets (h <| h_total_len := v |>) ++ rest).
Proof. intros Hv. unfold Ipv4Packet.set_total_len. by rewrite put_u16_octets by (done || cbn; lia). Qed.
Lemma h_set_ident v :
  word v -> Ipv4Packet.set_ident v p = Ret (header_octets (h <| h_ident := v |>) ++ rest).
Proof. intros Hv. unfold Ipv4Packet.set_ident. by rewrite put_u16_octets by (done || cbn; lia). Qed.
Lemma h_set_check v :
  word v -> Ipv4Packet.set_checksum v p = Ret (header_octets (h <| h_check := v |>) ++ rest).
Proof. intros Hv. unfold Ipv4Packet.set_checksum. by rewrite put_u16_octets by (done || cbn; lia). Qed.

Lemma h_update_flags f :
  word (f (h_flags h)) ->
  update_u16 6 8 f p = Ret (header_octets (h <| h_flags ::= f |>) ++ rest).
Proof.
  intros Hv. unfold update_u16. rewrite h_get_flags. cbn [mbind outcome_bind].
  by rewrite put_u16_octets by (done || cbn; lia).
Qed.
End Fields.

Section Checksum.
Context {BO : ByteOrder} {NE : NetworkEndian BO}.

Lemma header_word_sum h v :
  header_wf h -> word_sum (header_octets (h <| h_check := v |>)) =
    word_sum (header_octets (h <| h_check := 0 |>)) + v.
Proof.
  intros Hwf. destruct (header_cons h Hwf) as (s0 & s1 & s2 & s3 & d0 & d1 & d2 & d3 & Hs & Hd).
  destruct h. cbn in Hs, Hd. subst. unfold header_octets.
  cbn [set_field h_total_len h_ident h_flags h_hop h_proto h_check h_src h_dst app word_sum].
  change (0 / 256) with 0. change (0 mod 256) with 0. pose proof (Z.div_mod v 256 ltac:(lia)). lia.
Qed.

(** The checksum of a header: with it the words sum up to all ones. *)
Definition header_checksum h : Z := not16 (fold16 (word_sum (header_octets (h <| h_check := 0 |>)))).

Definition checked h : header := h <| h_check := header_checksum h |>.

Lemma zero_check_wf h : header_wf h -> header_wf (h <| h_check := 0 |>).
Proof. unfold header_wf. destruct h. cbn. unfold word. naive_solver lia. Qed.

Lemma header_checksum_word h : header_wf h -> word (header_checksum h).
Proof.
  intros Hwf. unfold word, header_checksum, not16.
  pose proof (fold16_range _ (word_sum_pos _ (header_octets_bytes _ (zero_check_wf h Hwf)))). lia.
Qed.

Lemma checked_wf h : header_wf h -> header_wf (checked h).
Proof.
  intros Hwf. pose proof (header_checksum_word h Hwf). unfold header_wf, checked in *.
  destruct h. cbn in *. naive_solver.
Qed.

Lemma data_header h rest :
  header_wf h ->
  (d ← range (header_octets h ++ rest) 0 20; checksum.data d) = Ret (fold16 (word_sum (header_octets h))).
Proof.
  intros Hwf. pose proof (header_octets_length h Hwf) as Hl. rewrite range_Ret by (rewrite ?length_app; lia).
  cbn [mbind outcome_bind]. unfold slice. rewrite drop_0, take_app_length' by lia.
  pose proof (header_octets_bytes h Hwf) as Hb. pose proof (word_sum_bound _ Hb).
  apply checksum_data_spec; [done|]. rewrite Hl in *. lia.
Qed.

Lemma h_fill_checksum h rest :
  header_wf h -> Ipv4Packet.fill_checksum (header_octets h ++ rest) = Ret (header_octets (checked h) ++ rest).
Proof.
  intros Hwf. unfold Ipv4Packet.fill_checksum. rewrite h_set_check by (done || unfold word; lia).
  cbn [mbind outcome_bind]. rewrite h_get_header_len. cbn [mbind outcome_bind].
  change (Z.to_nat 20) with 20%nat.
  pose proof (data_header (h <| h_check := 0 |>) rest (zero_check_wf h Hwf)) as Hd.
  destruct (range _ 0 20) as [d|]; [|done]. cbn [mbind outcome_bind] in *. rewrite Hd.
  cbn [mbind outcome_bind]. fold (header_checksum h).
  rewrite h_set_check by (by apply header_checksum_word). by destruct h.
Qed.

Lemma checked_verifies h rest :
  header_wf h -> Ipv4Packet.verify_checksum (header_octets (checked h) ++ rest) = Ret true.
Proof.
  intros Hwf. unfold Ipv4Packet.verify_checksum. rewrite h_get_header_len. cbn [mbind outcome_bind].
  change (Z.to_nat 20) with 20%nat. pose proof (data_header (checked h) rest (checked_wf h Hwf)) as Hd.
  destruct (range _ 0 20) as [d|]; [|done]. cbn [mbind outcome_bind] in *. rewrite Hd. cbn [mbind outcome_bind].
  unfold checked. rewrite header_word_sum by done.
  unfold header_checksum, not16.
  pose proof (word_sum_pos _ (header_octets_bytes _ (zero_check_wf h Hwf))).
  by rewrite fold16_complement by done.
Qed.
End Checksum.

(** ** Emitting *)

Definition header_of (r : IpHeader) : header :=
  mkHeader (20 + Z.of_nat (ih_payload_len r)) 0 0x4000 (ih_hop_limit r) (Protocol.into (ih_next_header r)) 0
    (ih_src_addr r) (ih_dst_addr r).

(** Representations of IPv4 packets. *)
Definition ipv4_repr_wf (r : IpHeader) : Prop :=
  address_wf (Ipv4 (ih_src_addr r)) /\ address_wf (Ipv4 (ih_dst_addr r)) /\
  byte (Protocol.into (ih_next_header r)) /\ Protocol.from (Protocol.into (ih_next_header r)) = ih_next_header r /\
  Z.of_nat (20 + ih_payload_len r) <= U16_MAX /\ byte (ih_hop_limit r).

Lemma header_of_wf r : ipv4_repr_wf r -> header_wf (header_of r).
Proof.
  intros (H1 & H2 & H3 & H4 & H5 & H6). unfold header_wf, header_of, word.
  cbn [h_total_len h_ident h_flags h_hop h_proto h_check h_src h_dst]. split_and!; done || lia.
Qed.

Section Emit.
Context {BO : ByteOrder} {NE : NetworkEndian BO}.

Lemma update_byte0 f a l : update_byte 0 f (a :: l) = Ret (f a :: l).
Proof. done. Qed.

Lemma update_byte1 f a b l : update_byte 1 f (a :: b :: l) = Ret (a :: f b :: l).
Proof. done. Qed.

Lemma version_octet b : byte b ->
  Z.lor (Z.land (Z.lor (Z.land b (255 - 0xf0)) (Ipv4Packet.shl8 4 4)) (255 - 0x0f)) (Z.land (20 / 4) 0x0f) = 0x45.
Proof. intros Hb. by_bytes b. Qed.

Lemma ecn_octet b : byte b ->
  Z.lor (Z.land (Z.lor (Z.land b (255 - 0xfc)) (Ipv4Packet.shl8 0 2)) (255 - 0x03)) (Z.land 0 0x03) = 0.
Proof. intros Hb. by_bytes b. Qed.

(** The flags after [clear_flags], [set_more_frags(false)] and [set_dont_frag(true)]. *)
Definition emitted_flags (raw : Z) : Z :=
  Z.lor (Z.land (Z.land raw (not16 0xe000)) (not16 0x2000)) 0x4000.

Lemma flags_word raw : word raw ->
  Z.lor (Z.land (emitted_flags raw) 0xe000) (Z.shiftr 0 3) = 0x4000.
Proof. intros Hw. unfold word in Hw. unfold emitted_flags. by_words raw. Qed.

(** Any 18 octets are the fields of a header. *)
Lemma header_of_octets l :
  bytes l -> (18 <= length l)%nat ->
  exists h, header_wf h /\ 0x45 :: 0 :: l = header_octets h ++ drop 18 l.
Proof.
  intros Hb Hl. octets_of l. unfold bytes in Hb. rewrite !Forall_cons_iff in Hb. destruct_and!.
  assert (forall a b, byte a -> byte b -> (256 * a + b) / 256 = a /\ (256 * a + b) mod 256 = b /\ word (256 * a + b))
    as Hw.
  { unfold byte, word. intros a b Ha Hb. split; [|split; [|lia]].
    - symmetry. apply (Z.div_unique _ _ _ b); lia.
    - symmetry. apply (Z.mod_unique _ _ a); lia. }
  exists (mkHeader (256 * o + o0) (256 * o1 + o2) (256 * o3 + o4) o5 o6 (256 * o7 + o8)
    [o9; o10; o11; o12] [o13; o14; o15; o16]).
  destruct (Hw o o0) as (E1 & E2 & E3), (Hw o1 o2) as (E4 & E5 & E6), (Hw o3 o4) as (E7 & E8 & E9),
    (Hw o7 o8) as (E10 & E11 & E12); try done.
  split.
  - unfold header_wf. cbn [h_total_len h_ident h_flags h_hop h_proto h_check h_src h_dst].
    split_and!; try done; (split; [done|]); by repeat (apply Forall_cons_2; [done|]).
  - unfold header_octets. cbn [h_total_len h_ident h_flags h_hop h_proto h_check h_src h_dst app drop].
    by rewrite E1, E2, E4, E5, E7, E8, E10, E11.
Qed.

Lemma h_set_hop h rest v :
  Ipv4Packet.set_hop_limit v (header_octets h ++ rest) = Ret (header_octets (h <| h_hop := v |>) ++ rest).
Proof. done. Qed.

Lemma h_set_next h rest v :
  Ipv4Packet.set_next_header v (header_octets h ++ rest) =
    Ret (header_octets (h <| h_proto := Protocol.into v |>) ++ rest).
Proof. done. Qed.

Lemma h_set_src h rest v :
  header_wf h -> address_wf (Ipv4 v) ->
  Ipv4Packet.set_src_addr v (header_octets h ++ rest) = Ret (header_octets (h <| h_src := v |>) ++ rest).
Proof.
  intros Hwf [Hv _]. destruct (header_cons h Hwf) as (s0 & s1 & s2 & s3 & d0 & d1 & d2 & d3 & Hs & Hd).
  cbn in Hv. unfold Ipv4Packet.set_src_addr, header_octets. rewrite Hs, Hd. cbn [app].
  rewrite put_slice_ok by (cbn [length]; lia). cbn [take drop app]. cbn. by rewrite Hd, <-!app_assoc.
Qed.

Lemma h_set_dst h rest v :
  header_wf h -> address_wf (Ipv4 v) ->
  Ipv4Packet.set_dst_addr v (header_octets h ++ rest) = Ret (header_octets (h <| h_dst := v |>) ++ rest).
Proof.
  intros Hwf [Hv _]. destruct (header_cons h Hwf) as (s0 & s1 & s2 & s3 & d0 & d1 & d2 & d3 & Hs & Hd).
  cbn in Hv. unfold Ipv4Packet.set_dst_addr, header_octets. rewrite Hs, Hd. cbn [app].
  rewrite put_slice_ok by (cbn [length]; lia). cbn [take drop app]. cbn. by rewrite Hs, <-!app_assoc.
Qed.

Lemma wf_flags h f : header_wf h -> word (f (h_flags h)) -> header_wf (h <| h_flags ::= f |>).
Proof. unfold header_wf. cbn. tauto. Qed.

Lemma emit_flags h rest :
  header_wf h ->
  (packet ← Ipv4Packet.clear_flags (header_octets h ++ rest);
   packet ← Ipv4Packet.set_more_frags false packet;
   packet ← Ipv4Packet.set_dont_frag true packet;
   Ipv4Packet.set_frag_offset 0 packet) = Ret (header_octets (h <| h_flags := 0x4000 |>) ++ rest).
Proof.
  intros Hwf. unfold Ipv4Packet.clear_flags, Ipv4Packet.set_more_frags, Ipv4Packet.set_dont_frag,
    Ipv4Packet.set_frag_offset.
  assert (word (h_flags h)) as Hf by apply Hwf.
  assert (word (Z.land (h_flags h) (not16 0xe000))) as Hw1 by by apply land_word.
  assert (word (Z.land (Z.land (h_flags h) (not16 0xe000)) (not16 0x2000))) as Hw2 by by apply land_word.
  assert (word (emitted_flags (h_flags h))) as Hw3 by (apply lor_word; [done|unfold word; lia]).
  pose proof (flags_word (h_flags h) Hf) as Heq.
  assert (word (Z.lor (Z.land (emitted_flags (h_flags h)) 0xe000) (Z.shiftr 0 3))) as Hw4
    by (rewrite Heq; unfold word; lia).
  rewrite h_update_flags by done. cbn [mbind outcome_bind].
  pose proof (wf_flags h (fun raw => Z.land raw (not16 0xe000)) Hwf Hw1) as Hwf1.
  rewrite h_update_flags by done. cbn [mbind outcome_bind].
  pose proof (wf_flags _ (fun raw => Z.land raw (not16 0x2000)) Hwf1 Hw2) as Hwf2.
  rewrite h_update_flags by done. cbn [mbind outcome_bind].
  pose proof (wf_flags _ (fun raw => Z.lor raw 0x4000) Hwf2 Hw3) as Hwf3.
  rewrite h_update_flags by done.
  change (Ret (header_octets (h <| h_flags := Z.lor (Z.land (emitted_flags (h_flags h)) 0xe000) (Z.shiftr 0 3) |>)
    ++ rest) = Ret (header_octets (h <| h_flags := 0x4000 |>) ++ rest)). by rewrite Heq.
Qed.

(** The setters after the length fields of [emit]. *)
Lemma emit_fields r h rest :
  ipv4_repr_wf r -> header_wf h ->
  (packet ← Ipv4Packet.set_total_len (20 + Z.of_nat (ih_payload_len r)) (header_octets h ++ rest);
   packet ← Ipv4Packet.set_ident 0 packet;
   packet ← Ipv4Packet.clear_flags packet;
   packet ← Ipv4Packet.set_more_frags false packet;
   packet ← Ipv4Packet.set_dont_frag true packet;
   packet ← Ipv4Packet.set_frag_offset 0 packet;
   packet ← Ipv4Packet.set_hop_limit (ih_hop_limit r) packet;
   packet ← Ipv4Packet.set_next_header (ih_next_header r) packet;
   packet ← Ipv4Packet.set_src_addr (ih_src_addr r) packet;
   Ipv4Packet.set_dst_addr (ih_dst_addr r) packet) =
  Ret (header_octets ((header_of r) <| h_check := h_check h |>) ++ rest).
Proof.
  intros Hr Hwf. pose proof Hr as (Hsrc & Hdst & Hproto & _ & Htl & Hhop).
  rewrite h_set_total by (unfold word; lia). cbn [mbind outcome_bind].
  rewrite h_set_ident by (unfold word; lia). cbn [mbind outcome_bind].
  match goal with |- context [header_octets ?x ++ rest] => set (h1 := x) end.
  assert (header_wf h1) as Hwf1 by (unfold h1, header_wf in *; cbn; unfold word in *; naive_solver lia).
  pose proof (emit_flags h1 rest Hwf1) as Hflags.
  destruct (Ipv4Packet.clear_flags _) as [p1|]; [|done]. cbn [mbind outcome_bind] in *.
  destruct (Ipv4Packet.set_more_frags _ _) as [p2|]; [|done]. cbn [mbind outcome_bind] in *.
  destruct (Ipv4Packet.set_dont_frag _ _) as [p3|]; [|done]. cbn [mbind outcome_bind] in *.
  rewrite Hflags. cbn [mbind outcome_bind]. rewrite h_set_hop. cbn [mbind outcome_bind].
  rewrite h_set_next. cbn [mbind outcome_bind].
  match goal with |- context [header_octets ?x ++ rest] => set (h2 := x) end.
  assert (header_wf h2) as Hwf2 by (unfold h2, header_wf in *; cbn; unfold word in *; naive_solver lia).
  rewrite h_set_src by done. cbn [mbind outcome_bind]. rewrite h_set_dst; [done| |done].
  unfold header_wf in *. cbn. naive_solver.
Qed.

(** [emit] writes the header; the rest of the buffer is untouched. *)
Lemma ipv4_emit_octets r caps packet :
  ipv4_repr_wf r -> bytes packet -> (20 <= length packet)%nat ->
  Ipv4Repr.emit r caps packet =
    Ret (header_octets (if Checksum.tx (caps_ipv4 caps) then checked (header_of r) else header_of r)
         ++ drop 20 packet).
Proof.
  intros Hr Hb Hl. pose proof Hr as (Hsrc & Hdst & Hproto & _ & Htl & Hhop).
  destruct packet as [|a [|b packet]]; [cbn in Hl; lia..|]. cbn [length] in Hl.
  apply Forall_cons_1 in Hb as [Ha [Hb Hp]%Forall_cons_1]. unfold Ipv4Repr.emit.
  unfold Ipv4Packet.set_version, Ipv4Packet.set_header_len, Ipv4Packet.set_dscp, Ipv4Packet.set_ecn.
  rewrite update_byte0. cbn [mbind outcome_bind]. rewrite update_byte0. cbn [mbind outcome_bind].
  unfold IPV4_HEADER_LEN. change (Z.of_nat 20) with 20. rewrite version_octet by done.
  rewrite update_byte1. cbn [mbind outcome_bind]. rewrite update_byte1. cbn [mbind outcome_bind].
  rewrite ecn_octet by done. cbn [drop].
  destruct (header_of_octets packet Hp ltac:(lia)) as (h & Hwf & ->). set (rest := drop 18 packet).
  rewrite h_get_header_len. cbn [mbind outcome_bind]. unfold wrap_u. rewrite Z.mod_small by lia.
  rewrite uadd_Ret by lia. cbn [mbind outcome_bind]. pose proof (emit_fields r h rest Hr Hwf) as Hf.
  repeat match type of Hf with
  | (?c ≫= _) = _ => destruct c as [?|]; [|done]; cbn [mbind outcome_bind] in *
  end.
  rewrite Hf. cbn [mbind outcome_bind]. destruct (Checksum.tx _).
  - rewrite h_fill_checksum; [done|]. pose proof (header_of_wf r Hr) as Hw. destruct Hwf as (_ & _ & _ & _ & _ & Hc & _).
    unfold header_wf in *. cbn. naive_solver.
  - rewrite h_set_check by (unfold word; lia). done.
Qed.
End Emit.

(** ** Parsing is total *)

Section Total.
Context {BO : ByteOrder} {NE : NetworkEndian BO}.
Implicit Types (data : list Z).

Lemma header_len_ok data :
  bytes data -> (1 <= length data)%nat ->
  exists n, Ipv4Packet.header_len data = Ret (Z.of_nat n) /\ (n <= 60)%nat.
Proof.
  intros Hb Hl. unfold Ipv4Packet.header_len. rewrite get_byte_ok by lia. cbn [mbind outcome_bind].
  pose proof (Z.land_ones (data !!! 0%nat) 4 ltac:(lia)) as Ho. change (Z.ones 4) with 0x0f in Ho.
  rewrite Ho. pose proof (Z.mod_pos_bound (data !!! 0%nat) (2 ^ 4) ltac:(lia)) as Hm.
  rewrite umul_Ret by lia. exists (Z.to_nat ((data !!! 0%nat) mod 2 ^ 4 * 4)).
  rewrite Z2Nat.id by lia. split; [done|]. change (2 ^ 4) with 16 in *. lia.
Qed.

(** What [check_len] establishes: the lengths of the header are in order. *)
Lemma ipv4_check_len_ok data :
  bytes data -> returns (Ipv4Packet.check_len data) (fun r => match r with
    | Ok _ => exists hl tl, Ipv4Packet.header_len data = Ret (Z.of_nat hl) /\
        Ipv4Packet.total_len data = Ret (Z.of_nat tl) /\ (hl <= 60)%nat /\ Z.of_nat tl <= U16_MAX /\
        (hl <= tl <= length data)%nat /\ (20 <= length data)%nat
    | Err _ => True
    end).
Proof.
  intros Hb. unfold Ipv4Packet.check_len, IPV4_HEADER_LEN. destruct (Nat.ltb_spec (length data) 20); [done|].
  destruct (header_len_ok data Hb) as (hl & Hhl & Hmax); [lia|]. rewrite Hhl. cbn [mbind outcome_bind].
  rewrite Nat2Z.id. destruct (Nat.ltb_spec (length data) hl); [done|].
  unfold Ipv4Packet.total_len. destruct (get_u16_ok 2 4 data Hb ltac:(lia) eq_refl) as (tl & -> & Htl).
  cbn [mbind outcome_bind]. rewrite Z.gtb_ltb. destruct (Z.ltb_spec tl (Z.of_nat hl)); [done|].
  destruct (Nat.ltb_spec (length data) (Z.to_nat tl)); [done|].
  exists hl, (Z.to_nat tl). rewrite Z2Nat.id by lia. split_and!; done || lia.
Qed.

Lemma ipv4_payload_ok data hl tl :
  Ipv4Packet.header_len data = Ret (Z.of_nat hl) -> Ipv4Packet.total_len data = Ret (Z.of_nat tl) ->
  (hl <= tl <= length data)%nat -> Ipv4Packet.payload data = Ret (slice data hl (tl - hl)).
Proof.
  intros Hhl Htl Hl. unfold Ipv4Packet.payload. rewrite Hhl, Htl. cbn [mbind outcome_bind].
  rewrite !Nat2Z.id. by rewrite range_Ret by lia.
Qed.

Lemma ipv4_verify_ok data hl :
  bytes data -> Ipv4Packet.header_len data = Ret (Z.of_nat hl) -> (hl <= 60)%nat -> (hl <= length data)%nat ->
  exists ok, Ipv4Packet.verify_checksum data = Ret ok.
Proof.
  intros Hb Hhl Hmax Hl. unfold Ipv4Packet.verify_checksum. rewrite Hhl. cbn [mbind outcome_bind].
  rewrite Nat2Z.id, range_Ret by lia. cbn [mbind outcome_bind].
  pose proof (bytes_slice data 0 (hl - 0) Hb) as Hs. pose proof (word_sum_bound _ Hs) as Hw.
  rewrite length_slice in Hw. rewrite checksum_data_spec by (done || lia). by eexists.
Qed.

(** A parsed packet: addresses of four octets, and a payload of the announced
    length inside the buffer. *)
Definition ipv4_parsed data (res : result IpHeader WireError) : Prop :=
  match res with
  | Ok r => address_wf (Ipv4 (ih_src_addr r)) /\ address_wf (Ipv4 (ih_dst_addr r)) /\ byte (ih_hop_limit r) /\
      exists start, Ipv4Packet.payload data = Ret (slice data start (ih_payload_len r)) /\
        (start + ih_payload_len r <= length data)%nat
  | Err _ => True
  end.

Lemma addr_slice_ok data start :
  bytes data -> (start + 4 <= length data)%nat ->
  (d ← range data start (start + 4); Ipv4Address.from_bytes d) = Ret (slice data start 4) /\
  address_wf (Ipv4 (slice data start 4)).
Proof.
  intros Hb Hl. rewrite range_Ret by lia. cbn [mbind outcome_bind].
  replace (start + 4 - start)%nat with 4%nat by lia. unfold Ipv4Address.from_bytes.
  rewrite length_slice, (proj2 (Nat.eqb_eq _ _)) by lia. split; [done|].
  split; [rewrite length_slice; lia|by apply bytes_slice].
Qed.

(** The fields of a header whose lengths are in order. *)
Definition ipv4_fields data (payload_len : nat) : IpHeader :=
  mkIpHeader (slice data 12 4) (slice data 16 4) (Protocol.from (data !!! 9%nat)) payload_len (data !!! 8%nat).

(** What [parse] returns when the lengths are in order. *)
Lemma ipv4_parse_exact data caps hl tl :
  bytes data -> Ipv4Packet.check_len data = Ret (Ok ()) ->
  Ipv4Packet.header_len data = Ret (Z.of_nat hl) -> Ipv4Packet.total_len data = Ret (Z.of_nat tl) ->
  (hl <= 60)%nat -> (hl <= tl <= length data)%nat -> (20 <= length data)%nat ->
  exists ok, Ipv4Packet.verify_checksum data = Ret ok /\ Ipv4Repr.parse data caps =
    Ret (if negb (Z.shiftr (data !!! 0%nat) 4 =? 4) then Err Error
         else if Checksum.rx (caps_ipv4 caps) && negb ok then Err Error else Ok (ipv4_fields data (tl - hl))).
Proof.
  intros Hb Hc Hhl Htl Hmax Hle Hlen. destruct (ipv4_verify_ok data hl Hb Hhl Hmax) as [ok Hok]; [lia|].
  exists ok. split; [done|]. unfold Ipv4Repr.parse. rewrite Hc. cbn [try_bind].
  unfold Ipv4Packet.version. rewrite get_byte_ok by lia. cbn [mbind outcome_bind].
  destruct (Z.shiftr _ 4 =? 4); cbn [negb]; [|done]. rewrite Hok.
  assert ((total_len ← Ipv4Packet.total_len data; header_len ← Ipv4Packet.header_len data;
    payload_len ← usub total_len header_len; src_addr ← Ipv4Packet.src_addr data;
    dst_addr ← Ipv4Packet.dst_addr data; next_header ← Ipv4Packet.next_header data;
    hop_limit ← Ipv4Packet.hop_limit data;
    Ret (Ok (mkIpHeader src_addr dst_addr next_header (Z.to_nat payload_len) hop_limit))) =
    Ret (Ok (ipv4_fields data (tl - hl)) : result IpHeader WireError)) as Hres.
  { rewrite Htl, Hhl. cbn [mbind outcome_bind]. rewrite usub_Ret by lia. cbn [mbind outcome_bind].
    unfold Ipv4Packet.src_addr, Ipv4Packet.dst_addr, Ipv4Packet.next_header, Ipv4Packet.hop_limit.
    destruct (addr_slice_ok data 12 Hb) as [Hs Hsw]; [lia|]. change (12 + 4)%nat with 16%nat in Hs. rewrite Hs.
    destruct (addr_slice_ok data 16 Hb) as [Hd Hdw]; [lia|]. change (16 + 4)%nat with 20%nat in Hd. rewrite Hd.
    cbn [mbind outcome_bind]. rewrite !get_byte_ok by lia. cbn [mbind outcome_bind]. unfold ipv4_fields.
    do 3 f_equal. lia. }
  destruct (Checksum.rx _), ok; cbn [mbind outcome_bind negb andb]; done.
Qed.

Lemma ipv4_parse_ok data caps :
  bytes data -> exists res, Ipv4Repr.parse data caps = Ret res /\ ipv4_parsed data res /\
    forall r, res = Ok r -> Ipv4Packet.check_len data = Ret (Ok ()).
Proof.
  intros Hb. pose proof (ipv4_check_len_ok data Hb) as Hck.
  destruct (Ipv4Packet.check_len data) as [[[]|e]|] eqn:Hc; [| |done].
  2: { exists (Err e). unfold Ipv4Repr.parse. by rewrite Hc. }
  destruct Hck as (hl & tl & Hhl & Htl & Hmax & Hm & Hle & Hlen).
  destruct (ipv4_parse_exact data caps hl tl) as (ok & _ & ->); [done..|].
  eexists. split; [done|]. split; [|done]. repeat case_match; try done.
  destruct (addr_slice_ok data 12 Hb) as [_ Hsw]; [lia|]. destruct (addr_slice_ok data 16 Hb) as [_ Hdw]; [lia|].
  split; [done|]. split; [done|]. split; [by apply (bytes_lookup data 8), list_lookup_lookup_total_lt; [|cbn; lia]|].
  exists hl. rewrite (ipv4_payload_ok data hl tl Hhl Htl Hle). by split; [|cbn; lia].
Qed.
End Total.

(** Parsing an IPv4 packet never panics, whatever octets arrive; when it
    succeeds, the addresses have four octets and the payload is a part of the buffer
    of the announced length. *)
Theorem ipv4_parse_total {BO : ByteOrder} (NE : NetworkEndian BO) data caps (Hb : bytes data) :
  exists res, (packet ←? Ipv4Packet.new_checked data; Ipv4Repr.parse packet caps) = Ret res /\
    ipv4_parsed data res.
Proof.
  unfold Ipv4Packet.new_checked. pose proof (ipv4_check_len_ok data Hb) as Hck.
  destruct (Ipv4Packet.check_len data) as [[[]|e]|] eqn:Hc; [|by exists (Err e)|done]. cbn [try_bind].
  destruct (ipv4_parse_ok data caps Hb) as (res & ? & ? & _). by exists res.
Qed.

(** The header [emit] writes. *)
Definition emitted_header (caps : ChecksumCapabilities) (r : IpHeader) : header :=
  if Checksum.tx (caps_ipv4 caps) then checked (header_of r) else header_of r.

Section RoundTrip.
Context {BO : ByteOrder} {NE : NetworkEndian BO}.
Variables (r : IpHeader) (tx_caps rx_caps : ChecksumCapabilities) (rest : list Z).
Hypothesis Hr : ipv4_repr_wf r.
Hypothesis Hl : (ih_payload_len r <= length rest)%nat.
Hypothesis Hcaps : Checksum.rx (caps_ipv4 rx_caps) = true -> Checksum.tx (caps_ipv4 tx_caps) = true.
Abbreviation h := (emitted_header tx_caps r).
Abbreviation p := (header_octets h ++ rest).

Lemma emitted_header_fields :
  header_wf h /\ h_total_len h = 20 + Z.of_nat (ih_payload_len r) /\ h_src h = ih_src_addr r /\
  h_dst h = ih_dst_addr r /\ h_hop h = ih_hop_limit r /\ h_proto h = Protocol.into (ih_next_header r) /\
  h_flags h = h_flags (header_of r).
Proof.
  clear Hl Hcaps. pose proof (header_of_wf r Hr) as Hwf. unfold emitted_header.
  destruct (Checksum.tx _); [split; [by apply checked_wf|done]|done].
Qed.

Lemma ipv4_check_len_octets : Ipv4Packet.check_len p = Ret (Ok ()).
Proof.
  destruct emitted_header_fields as (Hh & Ht & _). unfold Ipv4Packet.check_len, IPV4_HEADER_LEN.
  assert (length p = 20 + length rest)%nat as -> by (rewrite length_app, header_octets_length by done; lia).
  rewrite (proj2 (Nat.ltb_ge _ _)) by lia. rewrite h_get_header_len. cbn [mbind outcome_bind].
  rewrite (proj2 (Nat.ltb_ge _ _)) by lia. rewrite h_get_total, Ht by done. cbn [mbind outcome_bind].
  by rewrite Z.gtb_ltb, (proj2 (Z.ltb_ge _ _)), (proj2 (Nat.ltb_ge _ _)) by lia.
Qed.

Lemma ipv4_parse_octets : Ipv4Repr.parse p rx_caps = Ret (Ok r).
Proof.
  destruct emitted_header_fields as (Hh & Ht & Hs & Hd & Hho & Hp & _).
  pose proof Hr as (_ & _ & _ & Hpi & _). unfold Ipv4Repr.parse. rewrite ipv4_check_len_octets. cbn [try_bind].
  rewrite h_get_version. cbn [mbind outcome_bind]. rewrite Z.eqb_refl. cbn [negb].
  assert (Checksum.rx (caps_ipv4 rx_caps) = true -> Ipv4Packet.verify_checksum p = Ret true) as Hver.
  { intros Hrx. unfold emitted_header. rewrite Hcaps by done. by apply checked_verifies, header_of_wf. }
  destruct (Checksum.rx _); [rewrite Hver by done|]; cbn [mbind outcome_bind negb];
    rewrite h_get_total, h_get_header_len, Ht by done; cbn [mbind outcome_bind];
    rewrite usub_Ret by lia; cbn [mbind outcome_bind];
    rewrite h_get_src, h_get_dst, h_get_next, h_get_hop by done; cbn [mbind outcome_bind];
    rewrite Hs, Hd, Hho, Hp, Hpi; do 2 f_equal; destruct r; cbn; f_equal; lia.
Qed.

Lemma ipv4_payload_octets : Ipv4Packet.payload p = Ret (take (ih_payload_len r) rest).
Proof.
  destruct emitted_header_fields as (Hh & Ht & _). rewrite (ipv4_payload_ok _ 20 (20 + ih_payload_len r)).
  - unfold slice. rewrite drop_app_length' by (by rewrite header_octets_length). do 2 f_equal. lia.
  - by rewrite h_get_header_len.
  - rewrite h_get_total, Ht by done. f_equal. lia.
  - rewrite length_app, header_octets_length by done. lia.
Qed.

(** A datagram in one piece. *)
Lemma ipv4_whole_octets : Ipv4Packet.more_frags p = Ret false /\ Ipv4Packet.frag_offset p = Ret 0.
Proof.
  destruct emitted_header_fields as (Hh & _ & _ & _ & _ & _ & Hf). unfold Ipv4Packet.more_frags, Ipv4Packet.frag_offset.
  by rewrite h_get_flags, Hf by done.
Qed.
End RoundTrip.

(** An IPv4 header survives the wire: parsing what [emit] wrote gives the
    representation back, whatever the checksum settings of the two sides provided
    the sender computes the checksum the receiver verifies, and the payload is the
    octets that follow the header in the buffer. *)
Theorem ipv4_emit_parse_roundtrip {BO : ByteOrder} (NE : NetworkEndian BO) r tx_caps rx_caps packet
    (Hr : ipv4_repr_wf r) (Hb : bytes packet) (Hl : (20 + ih_payload_len r <= length packet)%nat)
    (Hcaps : Checksum.rx (caps_ipv4 rx_caps) = true -> Checksum.tx (caps_ipv4 tx_caps) = true) :
  exists packet', Ipv4Repr.emit r tx_caps packet = Ret packet' /\
    Ipv4Repr.parse packet' rx_caps = Ret (Ok r) /\
    Ipv4Packet.payload packet' = Ret (slice packet 20 (ih_payload_len r)) /\
    drop 20 packet' = drop 20 packet.
Proof.
  rewrite ipv4_emit_octets by (done || lia). eexists. split; [done|]. fold (emitted_header tx_caps r).
  assert (ih_payload_len r <= length (drop 20 packet))%nat by (rewrite length_drop; lia).
  split_and!; [by apply ipv4_parse_octets|by apply ipv4_payload_octets|].
  by rewrite drop_app_length' by (rewrite header_octets_length; [done|by apply emitted_header_fields]).
Qed.

(** A UDP datagram of three octets between two hosts. *)
Definition sample_repr : IpHeader := mkIpHeader [192; 168; 1; 1] [192; 168; 1; 2] Protocol.Udp 3 64.
Definition all_checksums : ChecksumCapabilities := mkCaps Both Both Both Both Both.

Section Witnesses.
#[local] Existing Instance network_endian.

Lemma ipv4_parse_total_witness :
  exists res, (packet ←? Ipv4Packet.new_checked (replicate 24 69); Ipv4Repr.parse packet all_checksums) =
    Ret res /\ ipv4_parsed (replicate 24 69) res.
Proof. apply (ipv4_parse_total network_endian_laws). apply Forall_replicate. unfold byte. lia. Defined.

Lemma ipv4_emit_parse_roundtrip_witness :
  exists packet', Ipv4Repr.emit sample_repr all_checksums (replicate 24 7) = Ret packet' /\
    Ipv4Repr.parse packet' all_checksums = Ret (Ok sample_repr) /\
    Ipv4Packet.payload packet' = Ret [7; 7; 7] /\ drop 20 packet' = [7; 7; 7; 7].
Proof.
  apply (ipv4_emit_parse_roundtrip network_endian_laws sample_repr all_checksums all_checksums
    (replicate 24 7)).
  - unfold ipv4_repr_wf, sample_repr, address_wf, bytes, byte. cbn.
    split_and!; try done; repeat constructor; lia.
  - apply Forall_replicate. unfold byte. lia.
  - cbn. lia.
  - done.
Defined.

(** A header of two words, which announces fewer octets than the fixed header
    has: [check_len] compares the header length with the buffer and the total
    length only. *)
Definition short_header : list Z :=
  [0x42; 0; 0; 20; 0xbd; 0xeb; 0; 0; 64; 17; 0; 0; 192; 168; 1; 1; 192; 168; 1; 2].

(** The parser accepts an IPv4 packet whose header length field is less than
    five words: the checksum covers the two words announced, and the payload
    handed to the upper layer is the rest of the header itself, addresses
    included. *)
Theorem ipv4_short_header_accepted :
  exists r, (packet ←? Ipv4Packet.new_checked short_header; Ipv4Repr.parse packet all_checksums) = Ret (Ok r) /\
    ih_payload_len r = 12%nat /\ Ipv4Packet.header_len short_header = Ret 8 /\
    Ipv4Packet.payload short_header = Ret (drop 8 short_header).
Proof. eexists. split; [vm_compute; done|]. by vm_compute. Qed.
End Witnesses.
