(* ===== verification/Ipv6Wire.v ===== *)
(** * The IPv6 header (src/wire/ipv6.rs)

    [Module Ipv6Packet] is the accessors and setters on a buffer, [Module Ipv6Repr]
    the parser and the emitter; the representation is [IpHeader] of Ip.v.  The flow
    label is read and written with the 24-bit functions of the byteorder crate. *)

From S2P Require Import Prelude Bytes Octets Phy Ip.
Open Scope Z_scope.

(** [NetworkEndian::read_u24] and [write_u24], with their documentation. *)
Class ByteOrder24 := {
  read_u24 : list Z -> outcome Z;
  write_u24 : list Z -> Z -> outcome (list Z)
}.

Definition be24 (n : Z) : list Z := [n / 65536; n / 256 mod 256; n mod 256].

Class NetworkEndian24 (B : ByteOrder24) : Prop := {
  read_u24_be a b c l : byte a -> byte b -> byte c -> read_u24 (a :: b :: c :: l) = Ret (65536 * a + 256 * b + c);
  write_u24_be l n : (3 <= length l)%nat -> 0 <= n < 2 ^ 24 -> write_u24 l n = Ret (be24 n ++ drop 3 l)
}.

Definition network_endian24 : ByteOrder24 := {|
  read_u24 l := match l with a :: b :: c :: _ => Ret (65536 * a + 256 * b + c) | _ => Panic end;
  write_u24 l n := match l with _ :: _ :: _ :: l => Ret (be24 n ++ l) | _ => Panic end
|}.

Lemma network_endian24_laws : NetworkEndian24 network_endian24.
Proof. split; [done|]. intros l n Hl _. destruct l as [|? [|? [|? l]]]; cbn in *; done || lia. Qed.

(** [IpVersion::of_packet] of src/wire/ip.rs. *)
Definition version_of_packet (data : list Z) : outcome (result Version WireError) :=
  b ← get_byte 0 data;
  Ret (if (Z.shiftr b 4 =? 4) then Ok V4 else if (Z.shiftr b 4 =? 6) then Ok V6 else Err Error).

Definition IPV6_HEADER_LEN : nat := 40.

Module Ipv6Packet.
Section Accessors.
Context {BO : ByteOrder} {BO24 : ByteOrder24}.
Implicit Types (data : list Z).

Definition header_len data : nat := IPV6_HEADER_LEN.
Definition version data : outcome Z := b ← get_byte 0 data; Ret (Z.shiftr b 4).
Definition traffic_class data : outcome Z :=
  w ← get_u16 0 2 data; Ret (wrap_u 8 (Z.shiftr (Z.land w 0x0ff0) 4)).
Definition flow_label data : outcome Z := d ← range data 1 4; n ← read_u24 d; Ret (Z.land n 0x000fffff).
Definition payload_len data : outcome Z := get_u16 4 6 data.
Definition total_len data : outcome nat := n ← payload_len data; Ret (header_len data + Z.to_nat n)%nat.
Definition next_header data : outcome Protocol.t := b ← get_byte 6 data; Ret (Protocol.from b).
Definition hop_limit data : outcome Z := get_byte 7 data.
Definition src_addr data : outcome (list Z) := d ← range data 8 24; Ipv6Address.from_bytes d.
Definition dst_addr data : outcome (list Z) := d ← range data 24 40; Ipv6Address.from_bytes d.

Definition check_len data : outcome (result unit WireError) :=
  let len := length data in
  if (len <? 40)%nat then Ret (Err Error) else
  total_len ← total_len data;
  if (len <? total_len)%nat then Ret (Err Error) else Ret (Ok ()).

Definition new_checked data : outcome (result (list Z) WireError) :=
  _ ←? check_len data;
  Ret (Ok data).

Definition payload data : outcome (list Z) :=
  total_len ← total_len data;
  range data (header_len data) total_len.

Definition set_version (value : Z) data : outcome (list Z) :=
  update_byte 0 (fun b => Z.lor (Z.land b 0x0f) (wrap_u 8 (Z.shiftl (Z.land value 0x0f) 4))) data.

Definition set_traffic_class (value : Z) data : outcome (list Z) :=
  data ← update_byte 0 (fun b => Z.lor (Z.land b 0xf0) (Z.shiftr (Z.land value 0xf0) 4)) data;
  update_byte 1 (fun b => Z.lor (Z.land b 0x0f) (wrap_u 8 (Z.shiftl (Z.land value 0x0f) 4))) data.

Definition set_flow_label (value : Z) data : outcome (list Z) :=
  b ← get_byte 1 data;
  let raw := Z.lor (Z.shiftl (Z.land b 0xf0) 16) (Z.land value 0x0fffff) in
  d ← range data 1 4;
  d ← write_u24 d raw;
  Ret (splice data 1 d).

Definition set_payload_len (value : Z) data : outcome (list Z) := put_u16 4 6 value data.
Definition set_next_header (value : Protocol.t) data : outcome (list Z) := set_byte 6 (Protocol.into value) data.
Definition set_hop_limit (value : Z) data : outcome (list Z) := set_byte 7 value data.
Definition set_src_addr (value : list Z) data : outcome (list Z) := put_slice 8 24 value data.
Definition set_dst_addr (value : list Z) data : outcome (list Z) := put_slice 24 40 value data.
End Accessors.
End Ipv6Packet.

Module Ipv6Repr.
Section Repr.
Context {BO : ByteOrder} {BO24 : ByteOrder24}.

Definition parse (packet : list Z) : outcome (result IpHeader WireError) :=
  _ ←? Ipv6Packet.check_len packet;
  version ← Ipv6Packet.version packet;
  if negb (version =? 6) then Ret (Err Error) else
  src_addr ← Ipv6Packet.src_addr packet;
  dst_addr ← Ipv6Packet.dst_addr packet;
  next_header ← Ipv6Packet.next_header packet;
  payload_len ← Ipv6Packet.payload_len packet;
  hop_limit ← Ipv6Packet.hop_limit packet;
  Ret (Ok (mkIpHeader src_addr dst_addr next_header (Z.to_nat payload_len) hop_limit)).

Definition buffer_len (_ : IpHeader) : nat := 40.

Definition emit (r : IpHeader) (packet : list Z) : outcome (list Z) :=
  packet ← Ipv6Packet.set_version 6 packet;
  packet ← Ipv6Packet.set_traffic_class 0 packet;
  packet ← Ipv6Packet.set_flow_label 0 packet;
  packet ← Ipv6Packet.set_payload_len (wrap_u 16 (Z.of_nat (ih_payload_len r))) packet;
  packet ← Ipv6Packet.set_hop_limit (ih_hop_limit r) packet;
  packet ← Ipv6Packet.set_next_header (ih_next_header r) packet;
  packet ← Ipv6Packet.set_src_addr (ih_src_addr r) packet;
  Ipv6Packet.set_dst_addr (ih_dst_addr r) packet.
End Repr.
End Ipv6Repr.

(** An address inside a packet. *)
Lemma ipv6_addr_slice data a b : b = (a + 16)%nat -> bytes data -> (b <= length data)%nat ->
  (d ← range data a b; Ipv6Address.from_bytes d) = Ret (slice data a 16) /\ address_wf (Ipv6 (slice data a 16)).
Proof.
  intros -> Hb Hl. rewrite range_Ret by lia. cbn [mbind outcome_bind]. replace (a + 16 - a)%nat with 16%nat by lia.
  unfold Ipv6Address.from_bytes. rewrite length_slice, (proj2 (Nat.eqb_eq _ _)) by lia. split; [done|].
  split; [rewrite length_slice; lia|by apply bytes_slice].
Qed.

(** ** Emitting and parsing *)

Record ipv6_repr_wf (r : IpHeader) : Prop := {
  v6_src : address_wf (Ipv6 (ih_src_addr r));
  v6_dst : address_wf (Ipv6 (ih_dst_addr r));
  v6_next : byte (Protocol.into (ih_next_header r)) /\ Protocol.from (Protocol.into (ih_next_header r)) = ih_next_header r;
  v6_len : word (Z.of_nat (ih_payload_len r));
  v6_hop : byte (ih_hop_limit r)
}.

(** The octets of a header. *)
Definition ipv6_octets (r : IpHeader) : list Z :=
  [0x60; 0; 0; 0] ++ be16 (Z.of_nat (ih_payload_len r)) ++ [Protocol.into (ih_next_header r); ih_hop_limit r] ++
  ih_src_addr r ++ ih_dst_addr r.

Section Laws.
Context {BO : ByteOrder} {NE : NetworkEndian BO} {BO24 : ByteOrder24} {NE24 : NetworkEndian24 BO24}.

(** The first two octets after [set_version] and [set_traffic_class]. *)
Lemma ipv6_first_octets a b : byte a -> byte b ->
  Z.lor (Z.land (Z.lor (Z.land a 0x0f) (wrap_u 8 (Z.shiftl (Z.land 6 0x0f) 4))) 0xf0) (Z.shiftr (Z.land 0 0xf0) 4) = 0x60 /\
  Z.land (Z.lor (Z.land b 0x0f) (wrap_u 8 (Z.shiftl (Z.land 0 0x0f) 4))) 0xf0 = 0.
Proof. intros Ha Hb. split; [by_bytes a|by_bytes b]. Qed.

(** Accesses to octets that are there. *)
Lemma update_octet i f data x : data !! i = Some x -> update_byte i f data = Ret (<[i := f x]> data).
Proof.
  intros H. unfold update_byte, get_byte, set_byte. rewrite H. cbn [unwrap mbind outcome_bind]. apply lookup_lt_Some in H.
  by rewrite (proj2 (Nat.ltb_lt _ _)).
Qed.

Lemma set_octet i v data : (i < length data)%nat -> set_byte i v data = Ret (<[i := v]> data).
Proof. intros H. unfold set_byte. by rewrite (proj2 (Nat.ltb_lt _ _)). Qed.

Lemma flow_label_cleared a b c d rest : Z.land b 0xf0 = 0 ->
  Ipv6Packet.set_flow_label 0 (a :: b :: c :: d :: rest) = Ret (a :: 0 :: 0 :: 0 :: rest).
Proof.
  intros Hb. unfold Ipv6Packet.set_flow_label. change (get_byte 1 (a :: b :: c :: d :: rest)) with (Ret b). cbn [mbind outcome_bind].
  rewrite Hb. change (Z.lor (Z.shiftl 0 16) (Z.land 0 0x0fffff)) with 0. rewrite range_Ret by (cbn [length]; lia).
  cbn [mbind outcome_bind]. rewrite write_u24_be by (done || cbn; lia). done.
Qed.

Lemma ipv6_emit_octets r packet : ipv6_repr_wf r -> bytes packet -> (40 <= length packet)%nat ->
  Ipv6Repr.emit r packet = Ret (ipv6_octets r ++ drop 40 packet).
Proof.
  intros [[Hs _] [Hd _] _ Hlen _] Hb Hl. unfold Ipv6Repr.emit, ipv6_octets. do 8 (destruct packet as [|? packet]; [cbn in Hl; lia|]).
  apply Forall_cons_1 in Hb as [Hb0 Hb]. apply Forall_cons_1 in Hb as [Hb1 Hb]. destruct (ipv6_first_octets _ _ Hb0 Hb1) as [E0 E1].
  unfold Ipv6Packet.set_version, Ipv6Packet.set_traffic_class. erewrite update_octet by done. cbn [mbind outcome_bind].
  erewrite update_octet by done. cbn [mbind outcome_bind]. erewrite update_octet by done. cbn [mbind outcome_bind].
  cbn [insert list_insert]. rewrite E0, flow_label_cleared by done. cbn [mbind outcome_bind].
  unfold wrap_u. rewrite Z.mod_small by (unfold word in Hlen; lia).
  unfold Ipv6Packet.set_payload_len. rewrite put_u16_octets by (done || cbn [length]; lia). cbn [mbind outcome_bind take drop app].
  unfold Ipv6Packet.set_hop_limit. rewrite set_octet by (cbn [length]; lia). cbn [mbind outcome_bind insert list_insert].
  unfold Ipv6Packet.set_next_header. rewrite set_octet by (cbn [length]; lia). cbn [mbind outcome_bind insert list_insert].
  cbn [length] in Hl. unfold Ipv6Packet.set_src_addr. rewrite put_slice_ok by (cbn [length]; lia). cbn [mbind outcome_bind take drop app].
  rewrite take_0. cbn [app]. unfold Ipv6Packet.set_dst_addr. rewrite put_slice_ok by (cbn [length]; rewrite ?length_app, ?length_drop; lia).
  cbn [take drop app be16]. rewrite take_app_length' by done. rewrite drop_app_ge by lia. rewrite drop_drop, Hs. cbn [Nat.add Nat.sub].
  by rewrite <- !app_assoc.
Qed.

(** The header reads back, octet by octet. *)
Lemma ipv6_fields r rest (p := ipv6_octets r ++ rest) : ipv6_repr_wf r ->
  Ipv6Packet.version p = Ret 6 /\ Ipv6Packet.payload_len p = Ret (Z.of_nat (ih_payload_len r)) /\
  Ipv6Packet.next_header p = Ret (ih_next_header r) /\ Ipv6Packet.hop_limit p = Ret (ih_hop_limit r) /\
  Ipv6Packet.src_addr p = Ret (ih_src_addr r) /\ Ipv6Packet.dst_addr p = Ret (ih_dst_addr r).
Proof.
  intros [[Hs _] [Hd _] [_ Hn] Hlen _]. subst p. unfold ipv6_octets, be16. destruct (word_octets _ Hlen). cbn [app].
  unfold Ipv6Packet.payload_len. rewrite (get_u16_octets 4 6 _ (Z.of_nat (ih_payload_len r) / 256) (Z.of_nat (ih_payload_len r) mod 256)) by done.
  rewrite <- Z.div_mod by lia. split_and!; try done.
  - unfold Ipv6Packet.next_header. cbn. by rewrite Hn.
  - unfold Ipv6Packet.src_addr. rewrite range_Ret by (cbn [length]; rewrite ?length_app; lia). cbn [mbind outcome_bind]. unfold slice.
    cbn [drop Nat.sub]. rewrite drop_0, <- app_assoc, take_app_length' by done. unfold Ipv6Address.from_bytes. by rewrite Hs.
  - unfold Ipv6Packet.dst_addr. rewrite range_Ret by (cbn [length]; rewrite ?length_app; lia). cbn [mbind outcome_bind]. unfold slice.
    cbn [drop Nat.sub]. rewrite <- app_assoc, drop_app_length' by done. rewrite take_app_length' by done.
    unfold Ipv6Address.from_bytes. by rewrite Hd.
Qed.

Lemma length_ipv6_octets r : ipv6_repr_wf r -> length (ipv6_octets r) = 40%nat.
Proof. intros [[Hs _] [Hd _] _ _ _]. unfold ipv6_octets. rewrite !length_app, Hs, Hd. done. Qed.

Lemma ipv6_parse_octets r rest : ipv6_repr_wf r -> (ih_payload_len r <= length rest)%nat ->
  Ipv6Repr.parse (ipv6_octets r ++ rest) = Ret (Ok r) /\
  Ipv6Packet.payload (ipv6_octets r ++ rest) = Ret (take (ih_payload_len r) rest).
Proof.
  intros Hr Hl. destruct (ipv6_fields r rest Hr) as (Hv & Hpl & Hn & Hh & Hs & Hd). pose proof (length_ipv6_octets r Hr) as H40.
  assert (Ipv6Packet.total_len (ipv6_octets r ++ rest) = Ret (40 + ih_payload_len r)%nat) as Htl
    by (unfold Ipv6Packet.total_len; rewrite Hpl; cbn [mbind outcome_bind]; by rewrite Nat2Z.id).
  split.
  - unfold Ipv6Repr.parse, Ipv6Packet.check_len. rewrite Htl, length_app, H40. cbn [mbind outcome_bind].
    rewrite !(proj2 (Nat.ltb_ge _ _)) by lia. cbn [try_bind]. rewrite Hv. cbn [mbind outcome_bind Z.eqb Pos.eqb negb].
    rewrite Hs, Hd, Hn, Hpl, Hh. cbn [mbind outcome_bind]. rewrite Nat2Z.id. by destruct r.
  - unfold Ipv6Packet.payload, Ipv6Packet.header_len, IPV6_HEADER_LEN. rewrite Htl. cbn [mbind outcome_bind].
    rewrite range_Ret by (rewrite ?length_app; lia). unfold slice. rewrite drop_app_length' by done. do 2 f_equal. lia.
Qed.

Lemma protocol_into_from b : byte b -> Protocol.into (Protocol.from b) = b.
Proof. intros Hb. by_bytes b. Qed.

(** Any octets parse or are refused. *)
Lemma ipv6_parse_ok packet : bytes packet ->
  exists res, Ipv6Repr.parse packet = Ret res /\
    forall r, res = Ok r -> ipv6_repr_wf r /\ Ipv6Packet.check_len packet = Ret (Ok ()) /\ exists payload, Ipv6Packet.payload packet = Ret payload /\ length payload = ih_payload_len r.
Proof.
  intros Hb. unfold Ipv6Repr.parse. unfold Ipv6Packet.check_len at 1. destruct (Nat.ltb_spec (length packet) 40) as [|Hl]; [by eexists|].
  destruct (get_u16_ok 4 6 packet) as (n & Hn & Hnw); [done|lia|done|].
  assert (Ipv6Packet.total_len packet = Ret (40 + Z.to_nat n)%nat) as Htl by (unfold Ipv6Packet.total_len, Ipv6Packet.payload_len; by rewrite Hn).
  rewrite Htl. cbn [mbind outcome_bind]. destruct (Nat.ltb_spec (length packet) (40 + Z.to_nat n)) as [|Hl2]; [by eexists|]. cbn [try_bind].
  destruct (lookup_lt_is_Some_2 packet 0) as [b0 H0]; [lia|]. destruct (lookup_lt_is_Some_2 packet 6) as [b6 H6]; [lia|].
  destruct (lookup_lt_is_Some_2 packet 7) as [b7 H7]; [lia|].
  unfold Ipv6Packet.version, Ipv6Packet.next_header, Ipv6Packet.hop_limit, get_byte. rewrite H0, H6, H7. cbn [unwrap mbind outcome_bind].
  destruct (_ =? 6); cbn [negb]; [|by eexists].
  unfold Ipv6Packet.src_addr, Ipv6Packet.dst_addr, Ipv6Address.from_bytes. rewrite !range_Ret by lia. cbn [mbind outcome_bind].
  rewrite !length_slice, !Nat.min_l by lia. cbn [Nat.eqb Nat.sub mbind outcome_bind]. unfold Ipv6Packet.payload_len. rewrite Hn. cbn [mbind outcome_bind].
  eexists. split; [done|]. intros r [= <-]. split; [|split].
  - constructor; cbn [ih_src_addr ih_dst_addr ih_next_header ih_payload_len ih_hop_limit].
    + split; [rewrite length_slice; lia|by apply bytes_slice].
    + split; [rewrite length_slice; lia|by apply bytes_slice].
    + rewrite !protocol_into_from by (by eapply bytes_lookup). split; [by eapply bytes_lookup|done].
    + unfold word. lia.
    + by eapply bytes_lookup.
  - unfold Ipv6Packet.check_len. rewrite (proj2 (Nat.ltb_ge _ _)), Htl by lia. cbn [mbind outcome_bind]. by rewrite (proj2 (Nat.ltb_ge _ _)).
  - unfold Ipv6Packet.payload. rewrite Htl. cbn [mbind outcome_bind]. unfold Ipv6Packet.header_len, IPV6_HEADER_LEN.
    rewrite range_Ret by lia. eexists. split; [done|]. rewrite length_slice. cbn [ih_payload_len]. lia.
Qed.
End Laws.

(** A header that is emitted reads back: whatever the buffer held, the octets of
    [emit] parse to the header, the octets after it are kept and are its payload. *)
Theorem ipv6_emit_parse_roundtrip {BO : ByteOrder} (NE : NetworkEndian BO) {BO24 : ByteOrder24} (NE24 : NetworkEndian24 BO24) r packet
    (Hr : ipv6_repr_wf r) (Hb : bytes packet) (Hl : (40 + ih_payload_len r <= length packet)%nat) :
  exists packet', Ipv6Repr.emit r packet = Ret packet' /\ Ipv6Repr.parse packet' = Ret (Ok r) /\
    Ipv6Packet.payload packet' = Ret (slice packet 40 (ih_payload_len r)) /\ drop 40 packet' = drop 40 packet.
Proof.
  rewrite ipv6_emit_octets by (done || lia). eexists. split; [done|].
  destruct (ipv6_parse_octets r (drop 40 packet) Hr) as [-> ->]; [rewrite length_drop; lia|]. split; [done|]. split; [done|].
  rewrite drop_app_length'; [done|]. by rewrite length_ipv6_octets.
Qed.
