(* ===== verification/Ipv6Ext.v ===== *)
(** * IPv6 extension headers (src/wire/ipv6ext_header.rs, ipv6option.rs, ipv6hbh.rs, ipv6fragment.rs, ipv6routing.rs)

    An extension header is a next header, a length in units of eight octets, and
    data.  The data of a hop-by-hop header is a sequence of options; that of a
    fragment or routing header has fixed fields. *)

From S2P Require Import Prelude Collections Bytes Octets Ip.
Open Scope Z_scope.

(** ** The common part *)

Record Ipv6ExtRepr := mkExt { ext_next_header : Protocol.t; ext_length : Z; ext_data : list Z }.

Module Ipv6ExtHeader.
Implicit Types (data : list Z).

(** The end of [field::PAYLOAD(length_field)]. *)
Definition payload_end (length_field : Z) : nat := (Z.to_nat length_field * 8 + 8)%nat.

Definition check_len data : outcome (result unit WireError) :=
  let len := length data in
  if (len <? 8)%nat then Ret (Err Error) else
  n ← get_byte 1 data;
  Ret (if (len <? payload_end n)%nat then Err Error else Ok ()).

Definition new_checked data : outcome (result (list Z) WireError) :=
  _ ←? check_len data;
  Ret (Ok data).

Definition next_header data : outcome Protocol.t := b ← get_byte 0 data; Ret (Protocol.from b).
Definition header_len data : outcome Z := get_byte 1 data.
Definition payload data : outcome (list Z) := n ← get_byte 1 data; range data 2 (payload_end n).

Definition set_next_header (value : Protocol.t) data : outcome (list Z) := set_byte 0 (Protocol.into value) data.
Definition set_header_len (value : Z) data : outcome (list Z) := set_byte 1 value data.
End Ipv6ExtHeader.

Module Ipv6ExtRepr.
Definition parse (header : list Z) : outcome (result Ipv6ExtRepr WireError) :=
  _ ←? Ipv6ExtHeader.check_len header;
  next_header ← Ipv6ExtHeader.next_header header;
  length ← Ipv6ExtHeader.header_len header;
  data ← Ipv6ExtHeader.payload header;
  Ret (Ok (mkExt next_header length data)).

Definition header_len (_ : Ipv6ExtRepr) : nat := 2.

Definition emit (r : Ipv6ExtRepr) (header : list Z) : outcome (list Z) :=
  header ← Ipv6ExtHeader.set_next_header (ext_next_header r) header;
  Ipv6ExtHeader.set_header_len (ext_length r) header.
End Ipv6ExtRepr.

(** ** Options *)

Module Ipv6OptionType.
Inductive t := Pad1 | PadN | Rpl | Unknown (id : Z).

#[global] Instance eq_dec : EqDecision t.
Proof. solve_decision. Defined.

Definition from (value : Z) : t :=
  if value =? 0 then Pad1 else if value =? 1 then PadN else if value =? 0x63 then Rpl else Unknown value.
Definition into (x : t) : Z := match x with Pad1 => 0 | PadN => 1 | Rpl => 0x63 | Unknown other => other end.
End Ipv6OptionType.

(** What to do with a packet that has an option that is not recognised. *)
Module Ipv6OptionFailureType.
Inductive t := Skip | Discard | DiscardSendAll | DiscardSendUnicast | Unknown (id : Z).

Definition from (value : Z) : t :=
  if value =? 0x00 then Skip
  else if value =? 0x40 then Discard
  else if value =? 0x80 then DiscardSendAll
  else if value =? 0xc0 then DiscardSendUnicast
  else Unknown value.

Definition from_type (other : Ipv6OptionType.t) : t := from (Z.land (Ipv6OptionType.into other) 0xc0).
End Ipv6OptionFailureType.

Module Ipv6Option.
Implicit Types (data : list Z).

Definition option_type data : outcome Ipv6OptionType.t := b ← get_byte 0 data; Ret (Ipv6OptionType.from b).
Definition data_len data : outcome Z := get_byte 1 data.

(** The end of [field::DATA(length)]. *)
Definition data_end (length : Z) : nat := (Z.to_nat length + 2)%nat.

Definition check_len data : outcome (result unit WireError) :=
  let len := length data in
  if (len <? 1)%nat then Ret (Err Error) else
  ty ← option_type data;
  if bool_decide (ty = Ipv6OptionType.Pad1) then Ret (Ok ()) else
  if (len =? 1)%nat then Ret (Err Error) else
  n ← data_len data;
  Ret (if (len <? data_end n)%nat then Err Error else Ok ()).

Definition new_checked data : outcome (result (list Z) WireError) :=
  _ ←? check_len data;
  Ret (Ok data).

Definition data buffer : outcome (list Z) := n ← data_len buffer; range buffer 2 (data_end n).

Definition set_option_type (value : Ipv6OptionType.t) data : outcome (list Z) := set_byte 0 (Ipv6OptionType.into value) data.
Definition set_data_len (value : Z) data : outcome (list Z) := set_byte 1 value data.

(** [f] writes the slice [data_mut]. *)
Definition with_data_mut (f : list Z -> outcome (list Z)) buffer : outcome (list Z) :=
  n ← data_len buffer;
  d ← range buffer 2 (data_end n);
  d ← f d;
  Ret (splice buffer 2 d).
End Ipv6Option.

Inductive Ipv6OptionRepr :=
| Ipv6Pad1
| Ipv6PadN (length : Z)
| Ipv6Unknown (type_ : Ipv6OptionType.t) (length : Z) (data : list Z).

Module Ipv6OptionRepr.
Definition parse (opt : list Z) : outcome (result Ipv6OptionRepr WireError) :=
  _ ←? Ipv6Option.check_len opt;
  ty ← Ipv6Option.option_type opt;
  match ty with
  | Ipv6OptionType.Pad1 => Ret (Ok Ipv6Pad1)
  | Ipv6OptionType.PadN => n ← Ipv6Option.data_len opt; Ret (Ok (Ipv6PadN n))
  | ty =>
      n ← Ipv6Option.data_len opt;
      data ← Ipv6Option.data opt;
      Ret (Ok (Ipv6Unknown ty n data))
  end.

Definition buffer_len (r : Ipv6OptionRepr) : nat :=
  match r with
  | Ipv6Pad1 => 1
  | Ipv6PadN length | Ipv6Unknown _ length _ => Ipv6Option.data_end length
  end.

Definition emit (r : Ipv6OptionRepr) (opt : list Z) : outcome (list Z) :=
  match r with
  | Ipv6Pad1 => Ipv6Option.set_option_type Ipv6OptionType.Pad1 opt
  | Ipv6PadN len =>
      opt ← Ipv6Option.set_option_type Ipv6OptionType.PadN opt;
      opt ← Ipv6Option.set_data_len len opt;
      Ipv6Option.with_data_mut (fun d => Ret (replicate (length d) 0)) opt
  | Ipv6Unknown type_ length data =>
      opt ← Ipv6Option.set_option_type type_ opt;
      opt ← Ipv6Option.set_data_len length opt;
      Ipv6Option.with_data_mut (fun d =>
        data ← range data 0 (Z.to_nat length);
        put_slice 0 (List.length d) data d) opt
  end.
End Ipv6OptionRepr.

Module Ipv6OptionsIterator.
Record t := mk { pos : nat; length : nat; data : list Z; hit_error : bool }.

#[global] Instance eta_t : Settable t := fun i => mk (pos i) (length i) (data i) (hit_error i).

Definition new (data : list Z) : t := mk 0 (List.length data) data false.

Definition next (i : t) : outcome (t * option (result Ipv6OptionRepr WireError)) :=
  if (pos i <? length i)%nat && negb (hit_error i) then
    rest ← range (data i) (pos i) (List.length (data i));
    hdr ← Ipv6Option.new_checked rest;
    match hdr with
    | Ok hdr =>
        repr ← Ipv6OptionRepr.parse hdr;
        match repr with
        | Ok repr => Ret (i <| pos ::= fun n => (n + Ipv6OptionRepr.buffer_len repr)%nat |>, Some (Ok repr))
        | Err e => Ret (i <| hit_error := true |>, Some (Err e))
        end
    | Err e => Ret (i <| hit_error := true |>, Some (Err e))
    end
  else Ret (i, None).
End Ipv6OptionsIterator.

(** ** The hop-by-hop header *)

Module Ipv6HopByHopHeader.
Definition check_len (data : list Z) : result unit WireError := match data with [] => Err Error | _ => Ok () end.
Definition new_checked (data : list Z) : result (list Z) WireError :=
  match check_len data with Ok _ => Ok data | Err e => Err e end.
End Ipv6HopByHopHeader.

Module Ipv6HopByHopRepr.
Section Repr.
(** [heapless::Vec<Ipv6OptionRepr, IPV6_HBH_MAX_OPTIONS>] *)
Context {V : Vec Ipv6OptionRepr}.

(** The loop over the iterator: it stops at an error or when the vector is full.
    Every option has at least one octet. *)
Fixpoint parse_loop (fuel : nat) (iter : Ipv6OptionsIterator.t) (options : vec Ipv6OptionRepr) :
    outcome (result (vec Ipv6OptionRepr) WireError) :=
  '(iter, item) ← Ipv6OptionsIterator.next iter;
  match item with
  | None => Ret (Ok options)
  | Some option =>
      match fuel, option with
      | O, _ => Panic
      | S _, Err e => Ret (Err e)
      | S fuel, Ok option =>
          match vec_push option options with
          | (options, Err _) => Ret (Ok options)
          | (options, Ok _) => parse_loop fuel iter options
          end
      end
  end.

Definition parse (header : list Z) : outcome (result (vec Ipv6OptionRepr) WireError) :=
  match Ipv6HopByHopHeader.check_len header with
  | Err e => Ret (Err e)
  | Ok _ => parse_loop (length header) (Ipv6OptionsIterator.new header) vec_new
  end.

Definition buffer_len (options : vec Ipv6OptionRepr) : nat := sum_list (Ipv6OptionRepr.buffer_len <$> as_slice options).

(** The options one after the other; [buffer] is what is left of the header. *)
Fixpoint emit_loop (options : list Ipv6OptionRepr) (buffer : list Z) : outcome (list Z) :=
  match options with
  | [] => Ret buffer
  | opt :: options =>
      first ← range buffer 0 (Ipv6OptionRepr.buffer_len opt);
      first ← Ipv6OptionRepr.emit opt first;
      rest ← range buffer (Ipv6OptionRepr.buffer_len opt) (length buffer);
      rest ← emit_loop options rest;
      Ret (first ++ rest)
  end.

Definition emit (options : vec Ipv6OptionRepr) (header : list Z) : outcome (list Z) := emit_loop (as_slice options) header.
End Repr.
End Ipv6HopByHopRepr.

(** ** The fragment header *)

Record Ipv6FragmentRepr := mkFragment { frag_offset : Z; more_frags : bool; frag_ident : Z }.

Module Ipv6FragmentHeader.
Section Accessors.
Context {BO : ByteOrder}.
Implicit Types (data : list Z).

Definition check_len data : result unit WireError := if (length data <? 6)%nat then Err Error else Ok ().
Definition new_checked data : result (list Z) WireError :=
  match check_len data with Ok _ => Ok data | Err e => Err e end.

Definition frag_offset data : outcome Z := n ← get_u16 0 2 data; Ret (Z.shiftr n 3).
Definition more_frags data : outcome bool := b ← get_byte 1 data; Ret (Z.land b 0x1 =? 1).
Definition ident data : outcome Z := get_u32 2 6 data.

Definition clear_reserved data : outcome (list Z) := update_byte 1 (fun b => Z.land b 0xf9) data.
Definition set_frag_offset (value : Z) data : outcome (list Z) :=
  b ← get_byte 1 data;
  put_u16 0 2 (Z.lor (wrap_u 16 (Z.shiftl (Z.land value 0x1fff) 3)) (Z.land b 0x7)) data.
Definition set_more_frags (value : bool) data : outcome (list Z) :=
  update_byte 1 (fun b => Z.lor (Z.land b 0xfe) (Z.land (if value then 1 else 0) 0x1)) data.
Definition set_ident (value : Z) data : outcome (list Z) := put_u32 2 6 value data.
End Accessors.
End Ipv6FragmentHeader.

Module Ipv6FragmentRepr.
Section Repr.
Context {BO : ByteOrder}.

Definition parse (header : list Z) : outcome (result Ipv6FragmentRepr WireError) :=
  match Ipv6FragmentHeader.check_len header with
  | Err e => Ret (Err e)
  | Ok _ =>
      frag_offset ← Ipv6FragmentHeader.frag_offset header;
      more_frags ← Ipv6FragmentHeader.more_frags header;
      ident ← Ipv6FragmentHeader.ident header;
      Ret (Ok (mkFragment frag_offset more_frags ident))
  end.

Definition buffer_len (_ : Ipv6FragmentRepr) : nat := 6.

Definition emit (r : Ipv6FragmentRepr) (header : list Z) : outcome (list Z) :=
  header ← Ipv6FragmentHeader.clear_reserved header;
  header ← Ipv6FragmentHeader.set_frag_offset (frag_offset r) header;
  header ← Ipv6FragmentHeader.set_more_frags (more_frags r) header;
  Ipv6FragmentHeader.set_ident (frag_ident r) header.
End Repr.
End Ipv6FragmentRepr.

(** ** The routing header *)

Module Ipv6RoutingType.
Inductive t := Type0 | Nimrod | Type2 | Rpl | Experiment1 | Experiment2 | Reserved | Unknown (id : Z).

Definition from (value : Z) : t :=
  if value =? 0 then Type0
  else if value =? 1 then Nimrod
  else if value =? 2 then Type2
  else if value =? 3 then Rpl
  else if value =? 253 then Experiment1
  else if value =? 254 then Experiment2
  else if value =? 252 then Reserved
  else Unknown value.

Definition into (x : t) : Z :=
  match x with
  | Type0 => 0 | Nimrod => 1 | Type2 => 2 | Rpl => 3 | Experiment1 => 253 | Experiment2 => 254 | Reserved => 252
  | Unknown other => other
  end.
End Ipv6RoutingType.

Inductive Ipv6RoutingRepr :=
| RoutingType2 (segments_left : Z) (home_address : list Z)
| RoutingRpl (segments_left cmpr_i cmpr_e pad : Z) (addresses : list Z).

Module Ipv6RoutingHeader.
Implicit Types (data : list Z).

Definition routing_type data : outcome Ipv6RoutingType.t := b ← get_byte 0 data; Ret (Ipv6RoutingType.from b).
Definition segments_left data : outcome Z := get_byte 1 data.

Definition check_len data : outcome (result unit WireError) :=
  let len := length data in
  if (len <? 2)%nat then Ret (Err Error) else
  ty ← routing_type data;
  Ret match ty with
      | Ipv6RoutingType.Type2 => if (len <? 22)%nat then Err Error else Ok ()
      | Ipv6RoutingType.Rpl => if (len <? 6)%nat then Err Error else Ok ()
      | _ => Ok ()
      end.

Definition new_checked data : outcome (result (list Z) WireError) :=
  _ ←? check_len data;
  Ret (Ok data).

Definition home_address data : outcome (list Z) := d ← range data 6 22; Ipv6Address.from_bytes d.
Definition cmpr_i data : outcome Z := b ← get_byte 2 data; Ret (Z.shiftr b 4).
Definition cmpr_e data : outcome Z := b ← get_byte 2 data; Ret (Z.land b 0xf).
Definition pad data : outcome Z := b ← get_byte 3 data; Ret (Z.shiftr b 4).
Definition addresses data : outcome (list Z) := range data 6 (length data).

Definition set_routing_type (value : Ipv6RoutingType.t) data : outcome (list Z) := set_byte 0 (Ipv6RoutingType.into value) data.
Definition set_segments_left (value : Z) data : outcome (list Z) := set_byte 1 value data.

Definition clear_reserved data : outcome (list Z) :=
  ty ← routing_type data;
  match ty with
  | Ipv6RoutingType.Type2 =>
      data ← set_byte 2 0 data;
      data ← set_byte 3 0 data;
      data ← set_byte 4 0 data;
      set_byte 5 0 data
  | Ipv6RoutingType.Rpl =>
      data ← update_byte 3 (fun b => Z.land b 0xf0) data;
      data ← set_byte 4 0 data;
      set_byte 5 0 data
  | _ => Panic
  end.

Definition set_home_address (value : list Z) data : outcome (list Z) := put_slice 6 22 value data.
Definition set_cmpr_i (value : Z) data : outcome (list Z) :=
  update_byte 2 (fun b => Z.lor (wrap_u 8 (Z.shiftl value 4)) (Z.land b 0xf)) data.
Definition set_cmpr_e (value : Z) data : outcome (list Z) :=
  update_byte 2 (fun b => Z.lor (Z.land value 0xf) (Z.land b 0xf0)) data.
Definition set_pad (value : Z) data : outcome (list Z) := set_byte 3 (wrap_u 8 (Z.shiftl value 4)) data.
Definition set_addresses (value : list Z) data : outcome (list Z) := put_slice 6 (length data) value data.
End Ipv6RoutingHeader.

Module Ipv6RoutingRepr.
Definition parse (header : list Z) : outcome (result Ipv6RoutingRepr WireError) :=
  _ ←? Ipv6RoutingHeader.check_len header;
  ty ← Ipv6RoutingHeader.routing_type header;
  match ty with
  | Ipv6RoutingType.Type2 =>
      segments_left ← Ipv6RoutingHeader.segments_left header;
      home_address ← Ipv6RoutingHeader.home_address header;
      Ret (Ok (RoutingType2 segments_left home_address))
  | Ipv6RoutingType.Rpl =>
      segments_left ← Ipv6RoutingHeader.segments_left header;
      cmpr_i ← Ipv6RoutingHeader.cmpr_i header;
      cmpr_e ← Ipv6RoutingHeader.cmpr_e header;
      pad ← Ipv6RoutingHeader.pad header;
      addresses ← Ipv6RoutingHeader.addresses header;
      Ret (Ok (RoutingRpl segments_left cmpr_i cmpr_e pad addresses))
  | _ => Ret (Err Error)
  end.

Definition buffer_len (r : Ipv6RoutingRepr) : nat :=
  match r with
  | RoutingType2 _ home_address => 2 + 4 + length home_address
  | RoutingRpl _ _ _ _ addresses => 2 + 4 + length addresses
  end.

Definition emit (r : Ipv6RoutingRepr) (header : list Z) : outcome (list Z) :=
  match r with
  | RoutingType2 segments_left home_address =>
      header ← Ipv6RoutingHeader.set_routing_type Ipv6RoutingType.Type2 header;
      header ← Ipv6RoutingHeader.set_segments_left segments_left header;
      header ← Ipv6RoutingHeader.clear_reserved header;
      Ipv6RoutingHeader.set_home_address home_address header
  | RoutingRpl segments_left cmpr_i cmpr_e pad addresses =>
      header ← Ipv6RoutingHeader.set_routing_type Ipv6RoutingType.Rpl header;
      header ← Ipv6RoutingHeader.set_segments_left segments_left header;
      header ← Ipv6RoutingHeader.set_cmpr_i cmpr_i header;
      header ← Ipv6RoutingHeader.set_cmpr_e cmpr_e header;
      header ← Ipv6RoutingHeader.set_pad pad header;
      header ← Ipv6RoutingHeader.clear_reserved header;
      Ipv6RoutingHeader.set_addresses addresses header
  end.
End Ipv6RoutingRepr.
