(* ===== verification/Icmpv4Wire.v ===== *)
(** * ICMPv4 messages (src/wire/icmpv4.rs)

    [Module Icmpv4Packet] is the accessors and setters on a buffer, [Module
    Icmpv4Repr] the parser and the emitter.  Error messages quote the IPv4 packet
    they are about: its header and the octets that follow. *)

From S2P Require Import Prelude Bytes Octets Phy Ip Ipv4Wire.
Open Scope Z_scope.

Module Icmpv4Message.
Inductive t :=
| EchoReply | DstUnreachable | Redirect | EchoRequest | RouterAdvert | RouterSolicit
| TimeExceeded | ParamProblem | Timestamp | TimestampReply | Unknown (id : Z).

Definition from (value : Z) : t :=
  if value =? 0 then EchoReply
  else if value =? 3 then DstUnreachable
  else if value =? 5 then Redirect
  else if value =? 8 then EchoRequest
  else if value =? 9 then RouterAdvert
  else if value =? 10 then RouterSolicit
  else if value =? 11 then TimeExceeded
  else if value =? 12 then ParamProblem
  else if value =? 13 then Timestamp
  else if value =? 14 then TimestampReply
  else Unknown value.

Definition into (m : t) : Z :=
  match m with
  | EchoReply => 0 | DstUnreachable => 3 | Redirect => 5 | EchoRequest => 8 | RouterAdvert => 9
  | RouterSolicit => 10 | TimeExceeded => 11 | ParamProblem => 12 | Timestamp => 13
  | TimestampReply => 14 | Unknown other => other
  end.
End Icmpv4Message.

Module Icmpv4DstUnreachable.
Inductive t :=
| NetUnreachable | HostUnreachable | ProtoUnreachable | PortUnreachable | FragRequired | SrcRouteFailed
| DstNetUnknown | DstHostUnknown | SrcHostIsolated | NetProhibited | HostProhibited | NetUnreachToS
| HostUnreachToS | CommProhibited | HostPrecedViol | PrecedCutoff | Unknown (id : Z).

Definition from (value : Z) : t :=
  if value =? 0 then NetUnreachable
  else if value =? 1 then HostUnreachable
  else if value =? 2 then ProtoUnreachable
  else if value =? 3 then PortUnreachable
  else if value =? 4 then FragRequired
  else if value =? 5 then SrcRouteFailed
  else if value =? 6 then DstNetUnknown
  else if value =? 7 then DstHostUnknown
  else if value =? 8 then SrcHostIsolated
  else if value =? 9 then NetProhibited
  else if value =? 10 then HostProhibited
  else if value =? 11 then NetUnreachToS
  else if value =? 12 then HostUnreachToS
  else if value =? 13 then CommProhibited
  else if value =? 14 then HostPrecedViol
  else if value =? 15 then PrecedCutoff
  else Unknown value.

Definition into (r : t) : Z :=
  match r with
  | NetUnreachable => 0 | HostUnreachable => 1 | ProtoUnreachable => 2 | PortUnreachable => 3
  | FragRequired => 4 | SrcRouteFailed => 5 | DstNetUnknown => 6 | DstHostUnknown => 7
  | SrcHostIsolated => 8 | NetProhibited => 9 | HostProhibited => 10 | NetUnreachToS => 11
  | HostUnreachToS => 12 | CommProhibited => 13 | HostPrecedViol => 14 | PrecedCutoff => 15
  | Unknown other => other
  end.
End Icmpv4DstUnreachable.

Module Icmpv4TimeExceeded.
Inductive t := TtlExpired | FragExpired | Unknown (id : Z).

Definition from (value : Z) : t :=
  if value =? 0 then TtlExpired else if value =? 1 then FragExpired else Unknown value.

Definition into (r : t) : Z :=
  match r with TtlExpired => 0 | FragExpired => 1 | Unknown other => other end.
End Icmpv4TimeExceeded.

Definition ICMPV4_HEADER_END : nat := 8.

Module Icmpv4Packet.
Section Accessors.
Context {BO : ByteOrder}.
Implicit Types (data : list Z).

Definition check_len data : result unit WireError :=
  if (length data <? ICMPV4_HEADER_END)%nat then Err Error else Ok ().

Definition new_checked data : result (list Z) WireError :=
  match check_len data with Ok _ => Ok data | Err e => Err e end.

Definition msg_type data : outcome Icmpv4Message.t := b ← get_byte 0 data; Ret (Icmpv4Message.from b).
Definition msg_code data : outcome Z := get_byte 1 data.
Definition checksum data : outcome Z := get_u16 2 4 data.
Definition echo_ident data : outcome Z := get_u16 4 6 data.
Definition echo_seq_no data : outcome Z := get_u16 6 8 data.

Definition header_len data : outcome nat :=
  m ← msg_type data;
  Ret (match m with
       | Icmpv4Message.EchoRequest => 8
       | Icmpv4Message.EchoReply => 8
       | Icmpv4Message.DstUnreachable => 8
       | _ => 8
       end)%nat.

Definition verify_checksum data : outcome bool := c ← checksum.data data; Ret (c =? U16_MAX).

Definition data buffer : outcome (list Z) := n ← header_len buffer; range buffer n (length buffer).

Definition set_msg_type (value : Icmpv4Message.t) data : outcome (list Z) :=
  set_byte 0 (Icmpv4Message.into value) data.
Definition set_msg_code (value : Z) data : outcome (list Z) := set_byte 1 value data.
Definition set_checksum (value : Z) data : outcome (list Z) := put_u16 2 4 value data.
Definition set_echo_ident (value : Z) data : outcome (list Z) := put_u16 4 6 value data.
Definition set_echo_seq_no (value : Z) data : outcome (list Z) := put_u16 6 8 value data.

Definition fill_checksum data : outcome (list Z) :=
  data ← set_checksum 0 data;
  c ← checksum.data data;
  set_checksum (not16 c) data.

(** [f] writes the slice [data_mut]. *)
Definition with_data_mut (f : list Z -> outcome (list Z)) buffer : outcome (list Z) :=
  n ← header_len buffer;
  d ← range buffer n (length buffer);
  d ← f d;
  Ret (splice buffer n d).
End Accessors.
End Icmpv4Packet.

Inductive Icmpv4Repr :=
| Icmpv4EchoRequest (ident seq_no : Z) (data : list Z)
| Icmpv4EchoReply (ident seq_no : Z) (data : list Z)
| Icmpv4DstUnreachable (reason : Icmpv4DstUnreachable.t) (header : IpHeader) (data : list Z)
| Icmpv4TimeExceeded (reason : Icmpv4TimeExceeded.t) (header : IpHeader) (data : list Z).

Module Icmpv4Repr.
Section Repr.
Context {BO : ByteOrder}.

(** The quoted packet of an error message. *)
Definition parse_quoted (packet : list Z) : outcome (result (IpHeader * list Z) WireError) :=
  data ← Icmpv4Packet.data packet;
  ip_packet ←? Ipv4Packet.new_checked data;
  header_len ← Ipv4Packet.header_len ip_packet;
  payload ← range data (Z.to_nat header_len) (length data);
  if (length payload <? 8)%nat then Ret (Err Error) else
  src_addr ← Ipv4Packet.src_addr ip_packet;
  dst_addr ← Ipv4Packet.dst_addr ip_packet;
  next_header ← Ipv4Packet.next_header ip_packet;
  hop_limit ← Ipv4Packet.hop_limit ip_packet;
  Ret (Ok (mkIpHeader src_addr dst_addr next_header (length payload) hop_limit, payload)).

Definition parse (packet : list Z) (checksum_caps : ChecksumCapabilities) :
    outcome (result Icmpv4Repr WireError) :=
  match Icmpv4Packet.check_len packet with
  | Err e => Ret (Err e)
  | Ok _ =>
      invalid ← (if Checksum.rx (caps_icmpv4 checksum_caps)
                 then ok ← Icmpv4Packet.verify_checksum packet; Ret (negb ok)
                 else Ret false);
      if invalid : bool then Ret (Err Error) else
      msg_type ← Icmpv4Packet.msg_type packet;
      msg_code ← Icmpv4Packet.msg_code packet;
      match msg_type, msg_code with
      | Icmpv4Message.EchoRequest, 0 =>
          ident ← Icmpv4Packet.echo_ident packet;
          seq_no ← Icmpv4Packet.echo_seq_no packet;
          data ← Icmpv4Packet.data packet;
          Ret (Ok (Icmpv4EchoRequest ident seq_no data))
      | Icmpv4Message.EchoReply, 0 =>
          ident ← Icmpv4Packet.echo_ident packet;
          seq_no ← Icmpv4Packet.echo_seq_no packet;
          data ← Icmpv4Packet.data packet;
          Ret (Ok (Icmpv4EchoReply ident seq_no data))
      | Icmpv4Message.DstUnreachable, code =>
          '(header, data) ←? parse_quoted packet;
          Ret (Ok (Icmpv4DstUnreachable (Icmpv4DstUnreachable.from code) header data))
      | Icmpv4Message.TimeExceeded, code =>
          '(header, data) ←? parse_quoted packet;
          Ret (Ok (Icmpv4TimeExceeded (Icmpv4TimeExceeded.from code) header data))
      | _, _ => Ret (Err Error)
      end
  end.

Definition buffer_len (r : Icmpv4Repr) : nat :=
  match r with
  | Icmpv4EchoRequest _ _ data | Icmpv4EchoReply _ _ data => 8 + length data
  | Icmpv4DstUnreachable _ header data | Icmpv4TimeExceeded _ header data =>
      8 + Ipv4Repr.buffer_len header + length data
  end.

Definition emit_echo (msg_type : Icmpv4Message.t) (ident seq_no : Z) (data packet : list Z) :
    outcome (list Z) :=
  packet ← Icmpv4Packet.set_msg_type msg_type packet;
  packet ← Icmpv4Packet.set_msg_code 0 packet;
  packet ← Icmpv4Packet.set_echo_ident ident packet;
  packet ← Icmpv4Packet.set_echo_seq_no seq_no packet;
  Icmpv4Packet.with_data_mut (fun data_mut =>
    let data_len := (length data_mut `min` length data)%nat in
    put_slice 0 data_len (take data_len data) data_mut) packet.

Definition emit_quoted (msg_type : Icmpv4Message.t) (code : Z) (header : IpHeader) (data : list Z)
    (checksum_caps : ChecksumCapabilities) (packet : list Z) : outcome (list Z) :=
  packet ← Icmpv4Packet.set_msg_type msg_type packet;
  packet ← Icmpv4Packet.set_msg_code code packet;
  Icmpv4Packet.with_data_mut (fun data_mut =>
    ip_packet ← Ipv4Repr.emit header checksum_caps data_mut;
    put_slice (Ipv4Repr.buffer_len header) (length ip_packet) data ip_packet) packet.

Definition emit (r : Icmpv4Repr) (checksum_caps : ChecksumCapabilities) (packet : list Z) :
    outcome (list Z) :=
  packet ← Icmpv4Packet.set_msg_code 0 packet;
  packet ← match r with
    | Icmpv4EchoRequest ident seq_no data => emit_echo Icmpv4Message.EchoRequest ident seq_no data packet
    | Icmpv4EchoReply ident seq_no data => emit_echo Icmpv4Message.EchoReply ident seq_no data packet
    | Icmpv4DstUnreachable reason header data =>
        emit_quoted Icmpv4Message.DstUnreachable (Icmpv4DstUnreachable.into reason) header data checksum_caps packet
    | Icmpv4TimeExceeded reason header data =>
        emit_quoted Icmpv4Message.TimeExceeded (Icmpv4TimeExceeded.into reason) header data checksum_caps packet
    end;
  if Checksum.tx (caps_icmpv4 checksum_caps) then Icmpv4Packet.fill_checksum packet
  else Icmpv4Packet.set_checksum 0 packet.
End Repr.
End Icmpv4Repr.

(** ** Messages, octet by octet *)

Definition icmp_octets (ty code check : Z) (rest body : list Z) : list Z :=
  [ty; code; check / 256; check mod 256] ++ rest ++ body.

(** A message the checksum routine can sum up in 32 bits. *)
Definition summable (l : list Z) : Prop := bytes l /\ Z.of_nat (length l) <= 131070.

Section Octets.
Context {BO : ByteOrder} {NE : NetworkEndian BO}.

Lemma summable_sum l : summable l -> checksum.data l = Ret (fold16 (word_sum l)).
Proof. intros [Hb Hl]. pose proof (word_sum_bound l Hb). apply checksum_data_spec; [done|lia]. Qed.

Variables (ty code : Z) (rest body : list Z).
Hypothesis Hrest : length rest = 4%nat.
Hypothesis Hty : byte ty.
Hypothesis Hcode : byte code.

Lemma icmp_octets_length check : length (icmp_octets ty code check rest body) = (8 + length body)%nat.
Proof. unfold icmp_octets. rewrite !length_app, Hrest. done. Qed.

Lemma icmp_octets_bytes check : word check -> bytes rest -> bytes body -> bytes (icmp_octets ty code check rest body).
Proof.
  intros [H1 H2]%word_octets Hr Hb. unfold icmp_octets. apply Forall_app_2; [|by apply Forall_app_2].
  by repeat apply Forall_cons_2.
Qed.

Lemma icmp_word_sum check :
  word_sum (icmp_octets ty code check rest body) = word_sum (icmp_octets ty code 0 rest body) + check.
Proof.
  unfold icmp_octets. cbn [app word_sum]. change (0 / 256) with 0. change (0 mod 256) with 0.
  pose proof (Z.div_mod check 256 ltac:(lia)). lia.
Qed.

(** The checksum of the message. *)
Definition icmp_checksum : Z := not16 (fold16 (word_sum (icmp_octets ty code 0 rest body))).

Hypothesis Hsum : summable (icmp_octets ty code 0 rest body).

Lemma icmp_checksum_word : word icmp_checksum.
Proof.
  unfold word, icmp_checksum, not16. pose proof (fold16_range _ (word_sum_pos _ (proj1 Hsum))). lia.
Qed.

Lemma summable_check check : word check -> summable (icmp_octets ty code check rest body).
Proof.
  intros Hc. destruct Hsum as [Hb Hl]. rewrite icmp_octets_length in Hl. split; [|by rewrite icmp_octets_length].
  unfold icmp_octets in Hb. apply Forall_app in Hb as [_ [? ?]%Forall_app]. by apply icmp_octets_bytes.
Qed.

Lemma set_checksum_octets a b check :
  word check ->
  Icmpv4Packet.set_checksum check ([ty; code; a; b] ++ rest ++ body) = Ret (icmp_octets ty code check rest body).
Proof. intros Hc. unfold Icmpv4Packet.set_checksum. by rewrite put_u16_octets by (done || cbn; lia). Qed.

Lemma fill_checksum_octets a b :
  Icmpv4Packet.fill_checksum ([ty; code; a; b] ++ rest ++ body) =
    Ret (icmp_octets ty code icmp_checksum rest body).
Proof.
  unfold Icmpv4Packet.fill_checksum. rewrite set_checksum_octets by (unfold word; lia). cbn [mbind outcome_bind].
  rewrite summable_sum by done. cbn [mbind outcome_bind]. 
  apply (set_checksum_octets (0 / 256) (0 mod 256)), icmp_checksum_word.
Qed.

Lemma icmp_checksum_verifies :
  Icmpv4Packet.verify_checksum (icmp_octets ty code icmp_checksum rest body) = Ret true.
Proof.
  unfold Icmpv4Packet.verify_checksum. rewrite summable_sum by apply summable_check, icmp_checksum_word.
  cbn [mbind outcome_bind]. rewrite icmp_word_sum. unfold icmp_checksum, not16.
  by rewrite fold16_complement by apply word_sum_pos, Hsum.
Qed.
End Octets.

(** ** Emitting *)

(** The octets after the checksum. *)
Definition icmp_rest (r : Icmpv4Repr) (old : list Z) : list Z :=
  match r with
  | Icmpv4EchoRequest ident seq_no _ | Icmpv4EchoReply ident seq_no _ =>
      [ident / 256; ident mod 256; seq_no / 256; seq_no mod 256]
  | _ => old
  end.

Definition icmp_body (r : Icmpv4Repr) (caps : ChecksumCapabilities) : list Z :=
  match r with
  | Icmpv4EchoRequest _ _ data | Icmpv4EchoReply _ _ data => data
  | Icmpv4DstUnreachable _ header data | Icmpv4TimeExceeded _ header data =>
      header_octets (if Checksum.tx (caps_ipv4 caps) then checked (header_of header) else header_of header) ++ data
  end.

Definition icmp_type (r : Icmpv4Repr) : Z :=
  match r with
  | Icmpv4EchoRequest _ _ _ => 8 | Icmpv4EchoReply _ _ _ => 0
  | Icmpv4DstUnreachable _ _ _ => 3 | Icmpv4TimeExceeded _ _ _ => 11
  end.

Definition icmp_code (r : Icmpv4Repr) : Z :=
  match r with
  | Icmpv4DstUnreachable reason _ _ => Icmpv4DstUnreachable.into reason
  | Icmpv4TimeExceeded reason _ _ => Icmpv4TimeExceeded.into reason
  | _ => 0
  end.

Definition icmpv4_repr_wf (r : Icmpv4Repr) : Prop :=
  byte (icmp_code r) /\
  match r with
  | Icmpv4EchoRequest ident seq_no data | Icmpv4EchoReply ident seq_no data =>
      word ident /\ word seq_no /\ bytes data /\ Z.of_nat (length data) <= U16_MAX
  | Icmpv4DstUnreachable _ header data | Icmpv4TimeExceeded _ header data =>
      ipv4_repr_wf header /\ bytes data /\ Z.of_nat (length data) <= U16_MAX
  end.

Section Emit.
Context {BO : ByteOrder} {NE : NetworkEndian BO}.

Lemma with_data_mut_octets f ty code a b rest body body' :
  length rest = 4%nat -> f body = Ret body' -> length body' = length body ->
  Icmpv4Packet.with_data_mut f ([ty; code; a; b] ++ rest ++ body) = Ret ([ty; code; a; b] ++ rest ++ body').
Proof.
  intros Hr Hf Hl. unfold Icmpv4Packet.with_data_mut, Icmpv4Packet.header_len, Icmpv4Packet.msg_type.
  cbn [get_byte app lookup list_lookup unwrap mbind outcome_bind].
  assert (forall m : Icmpv4Message.t, (match m with Icmpv4Message.EchoRequest => 8 | Icmpv4Message.EchoReply => 8
    | Icmpv4Message.DstUnreachable => 8 | _ => 8 end)%nat = 8%nat) as -> by by intros [].
  do 4 (destruct rest as [|? rest]; [done|]). destruct rest; [|done]. cbn [app].
  rewrite range_Ret by (cbn [length]; lia). cbn [mbind outcome_bind]. unfold slice. cbn [drop length].
  rewrite drop_0, take_ge by lia. rewrite Hf. cbn [mbind outcome_bind]. unfold splice. cbn [take app].
  rewrite drop_ge, app_nil_r by (cbn [length]; lia). done.
Qed.

Lemma emit_echo_octets m ident seq_no data ty code a b rest :
  word ident -> word seq_no -> length rest = (4 + length data)%nat ->
  Icmpv4Repr.emit_echo m ident seq_no data ([ty; code; a; b] ++ rest) =
    Ret ([Icmpv4Message.into m; 0; a; b] ++ [ident / 256; ident mod 256; seq_no / 256; seq_no mod 256] ++ data).
Proof.
  intros Hi Hs Hl. do 4 (destruct rest as [|? rest]; [done|]). cbn [length] in Hl. unfold Icmpv4Repr.emit_echo.
  unfold Icmpv4Packet.set_msg_type, Icmpv4Packet.set_msg_code, Icmpv4Packet.set_echo_ident,
    Icmpv4Packet.set_echo_seq_no. cbn [app].
  rewrite set_byte_ok by (cbn [length]; lia). cbn [mbind outcome_bind insert list_insert].
  rewrite set_byte_ok by (cbn [length]; lia). cbn [mbind outcome_bind insert list_insert].
  rewrite put_u16_octets by (done || cbn [length]; lia). cbn [mbind outcome_bind take drop app].
  rewrite put_u16_octets by (done || cbn [length]; lia). cbn [mbind outcome_bind take drop app].
  rewrite drop_0. apply (with_data_mut_octets _ _ _ _ _ [_; _; _; _]); [done| |lia].
  rewrite Nat.min_l by lia. rewrite put_slice_ok by (rewrite ?length_take; lia).
  by rewrite take_0, (take_ge data), drop_ge, app_nil_r by lia.
Qed.

Lemma emit_quoted_octets m code' header data caps ty code a b rest body :
  ipv4_repr_wf header -> length rest = 4%nat -> bytes body -> length body = (20 + length data)%nat ->
  Icmpv4Repr.emit_quoted m code' header data caps ([ty; code; a; b] ++ rest ++ body) =
    Ret ([Icmpv4Message.into m; code'; a; b] ++ rest ++
      header_octets (if Checksum.tx (caps_ipv4 caps) then checked (header_of header) else header_of header) ++ data).
Proof.
  intros Hh Hr Hb Hl. unfold Icmpv4Repr.emit_quoted, Icmpv4Packet.set_msg_type, Icmpv4Packet.set_msg_code.
  cbn [app]. rewrite set_byte_ok by (cbn [length]; lia). cbn [mbind outcome_bind insert list_insert].
  rewrite set_byte_ok by (cbn [length]; lia). cbn [mbind outcome_bind insert list_insert].
  set (h := if Checksum.tx _ then _ else _).
  assert (header_wf h) as Hwf by (unfold h; destruct (Checksum.tx _); [apply checked_wf|]; by apply header_of_wf).
  pose proof (header_octets_length h Hwf) as Hhl.
  apply (with_data_mut_octets _ _ _ _ _ rest body); [done| |rewrite length_app; lia].
  rewrite ipv4_emit_octets by (done || lia). cbn [mbind outcome_bind]. fold h.
  unfold Ipv4Repr.buffer_len, IPV4_HEADER_LEN.
  rewrite put_slice_ok by (rewrite ?length_app, ?length_drop; lia).
  rewrite take_app_length' by lia. rewrite drop_ge, app_nil_r by (rewrite ?length_app; lia). done.
Qed.

Lemma quoted_header_wf caps header :
  ipv4_repr_wf header ->
  header_wf (if Checksum.tx (caps_ipv4 caps) then checked (header_of header) else header_of header).
Proof. intros H%header_of_wf. destruct (Checksum.tx _); [by apply checked_wf|done]. Qed.

Lemma icmp_parts_wf r caps old :
  icmpv4_repr_wf r -> length old = 4%nat -> bytes old ->
  length (icmp_rest r old) = 4%nat /\
  length (icmp_body r caps) = (Icmpv4Repr.buffer_len r - 8)%nat /\
  summable (icmp_octets (icmp_type r) (icmp_code r) 0 (icmp_rest r old) (icmp_body r caps)).
Proof.
  intros [Hc Hr] Hl Hb.
  assert (length (icmp_rest r old) = 4%nat /\ bytes (icmp_rest r old) /\ bytes (icmp_body r caps) /\
    length (icmp_body r caps) = (Icmpv4Repr.buffer_len r - 8)%nat /\
    Z.of_nat (length (icmp_body r caps)) <= 131062 /\ byte (icmp_type r)) as (H1 & H2 & H3 & H4 & H5 & H6).
  { destruct r; cbn [icmp_rest icmp_body icmp_type Icmpv4Repr.buffer_len].
    1-2: destruct Hr as ([H1 H2]%word_octets & [H3 H4]%word_octets & H5 & H6); split_and!; try done; try lia;
      try (unfold byte; lia); by repeat apply Forall_cons_2.
    1-2: destruct Hr as (H1 & H2 & H3); pose proof (quoted_header_wf caps header H1) as Hw;
      pose proof (header_octets_length _ Hw); pose proof (header_octets_bytes _ Hw);
      split_and!; try done; try (by apply Forall_app_2); try (unfold byte; lia);
      rewrite length_app; unfold Ipv4Repr.buffer_len, IPV4_HEADER_LEN; lia. }
  split_and!; try done. split; [apply icmp_octets_bytes; try done; unfold word; lia|].
  rewrite icmp_octets_length by done. lia.
Qed.

(** [emit] writes the message into a buffer of its length. *)
Lemma icmpv4_emit_octets r caps packet :
  icmpv4_repr_wf r -> bytes packet -> length packet = Icmpv4Repr.buffer_len r ->
  exists old, length old = 4%nat /\ bytes old /\
    let rest := icmp_rest r old in let body := icmp_body r caps in
    Icmpv4Repr.emit r caps packet = Ret (icmp_octets (icmp_type r) (icmp_code r)
      (if Checksum.tx (caps_icmpv4 caps) then icmp_checksum (icmp_type r) (icmp_code r) rest body else 0) rest body).
Proof.
  intros Hwf Hb Hl. assert (8 <= length packet)%nat as H8 by (rewrite Hl; destruct r; cbn; lia).
  octets_of packet. match type of Hb with bytes (_ :: _ :: _ :: _ :: _ :: _ :: _ :: _ :: ?b) => rename b into body end.
  do 4 apply Forall_cons_1 in Hb as [? Hb]. apply (Forall_app _ [o3; o4; o5; o6] body) in Hb as [Hold Hb].
  destruct (icmp_parts_wf r caps [o3; o4; o5; o6] Hwf eq_refl Hold) as (Hrl & Hbl & Hsum).
  exists [o3; o4; o5; o6]. split; [done|]. split; [done|]. cbn zeta. unfold Icmpv4Repr.emit, Icmpv4Packet.set_msg_code at 1.
  rewrite set_byte_ok by (cbn; lia). cbn [mbind outcome_bind insert list_insert].
  match goal with |- (?x ≫= _) = _ => set (c := x) end.
  assert (c = Ret ([icmp_type r; icmp_code r; o1; o2] ++ icmp_rest r [o3; o4; o5; o6] ++ icmp_body r caps)) as ->.
  { unfold c. destruct Hwf as [Hc Hr]. destruct r; cbn [icmp_type icmp_code icmp_rest icmp_body Icmpv4Repr.buffer_len] in *.
    - destruct Hr as (? & ? & ? & ?). apply (emit_echo_octets Icmpv4Message.EchoRequest); try done. cbn in *. lia.
    - destruct Hr as (? & ? & ? & ?). apply (emit_echo_octets Icmpv4Message.EchoReply); try done. cbn in *. lia.
    - destruct Hr as (? & ? & ?). apply (emit_quoted_octets Icmpv4Message.DstUnreachable _ _ _ _ o 0 o1 o2 [o3; o4; o5; o6]);
        try done. unfold Ipv4Repr.buffer_len, IPV4_HEADER_LEN in Hl. cbn [length] in Hl. lia.
    - destruct Hr as (? & ? & ?). apply (emit_quoted_octets Icmpv4Message.TimeExceeded _ _ _ _ o 0 o1 o2 [o3; o4; o5; o6]);
        try done. unfold Ipv4Repr.buffer_len, IPV4_HEADER_LEN in Hl. cbn [length] in Hl. lia. }
  cbn [mbind outcome_bind]. destruct (Checksum.tx _); [by apply fill_checksum_octets|].
  by apply set_checksum_octets.
Qed.
End Emit.

(** ** Parsing *)

Section Parse.
Context {BO : ByteOrder} {NE : NetworkEndian BO}.

Lemma icmp_header_len data : (1 <= length data)%nat -> Icmpv4Packet.header_len data = Ret 8%nat.
Proof.
  intros Hl. unfold Icmpv4Packet.header_len, Icmpv4Packet.msg_type. rewrite get_byte_ok by lia.
  cbn [mbind outcome_bind]. f_equal. by destruct (Icmpv4Message.from _).
Qed.

Lemma icmp_data data : (8 <= length data)%nat -> Icmpv4Packet.data data = Ret (drop 8 data).
Proof.
  intros Hl. unfold Icmpv4Packet.data. rewrite icmp_header_len by lia. cbn [mbind outcome_bind].
  rewrite range_Ret by lia. unfold slice. by rewrite take_ge by (rewrite length_drop; lia).
Qed.

(** What the parser answers for a quoted packet. *)
Definition quoted_parsed (data : list Z) (res : result (IpHeader * list Z) WireError) : Prop :=
  match res with
  | Ok (header, payload) =>
      address_wf (Ipv4 (ih_src_addr header)) /\ address_wf (Ipv4 (ih_dst_addr header)) /\
      ih_payload_len header = length payload /\ (8 <= length payload)%nat /\ exists n, payload = drop n data
  | Err _ => True
  end.

Lemma parse_quoted_total data :
  bytes data -> (8 <= length data)%nat -> returns (Icmpv4Repr.parse_quoted data) (quoted_parsed data).
Proof.
  intros Hb Hl. unfold Icmpv4Repr.parse_quoted. rewrite icmp_data by done. cbn [mbind outcome_bind].
  assert (bytes (drop 8 data)) as Hb' by by apply Forall_drop. set (d := drop 8 data) in *.
  unfold Ipv4Packet.new_checked. pose proof (ipv4_check_len_ok d Hb') as Hck.
  destruct (Ipv4Packet.check_len d) as [[[]|e]|]; [|done|done]. cbn [try_bind].
  destruct Hck as (hl & tl & Hhl & Htl & Hmax & Hm & Hle & Hlen). rewrite Hhl. cbn [mbind outcome_bind].
  rewrite Nat2Z.id, range_Ret by lia. cbn [mbind outcome_bind].
  destruct (Nat.ltb_spec (length (slice d hl (length d - hl))) 8) as [|H8]; [done|].
  unfold Ipv4Packet.src_addr, Ipv4Packet.dst_addr, Ipv4Packet.next_header, Ipv4Packet.hop_limit.
  destruct (addr_slice_ok d 12 Hb') as [Hs Hsw]; [lia|]. change (12 + 4)%nat with 16%nat in Hs. rewrite Hs.
  destruct (addr_slice_ok d 16 Hb') as [Hd Hdw]; [lia|]. change (16 + 4)%nat with 20%nat in Hd. rewrite Hd.
  cbn [mbind outcome_bind]. rewrite !get_byte_ok by lia. cbn [mbind outcome_bind returns quoted_parsed
    ih_src_addr ih_dst_addr ih_payload_len]. split_and!; try done.
  exists (8 + hl)%nat. unfold slice, d. rewrite take_ge by (rewrite length_drop; lia). by rewrite drop_drop.
Qed.

(** A message that parses. *)
Definition icmpv4_parsed (data : list Z) (res : result Icmpv4Repr WireError) : Prop :=
  match res with
  | Ok (Icmpv4EchoRequest ident seq_no d) | Ok (Icmpv4EchoReply ident seq_no d) =>
      word ident /\ word seq_no /\ d = drop 8 data
  | Ok (Icmpv4DstUnreachable _ header d) | Ok (Icmpv4TimeExceeded _ header d) => quoted_parsed data (Ok (header, d))
  | Err _ => True
  end.
End Parse.

Lemma icmpv4_parse_ok {BO : ByteOrder} (NE : NetworkEndian BO) data caps (Hs : summable data) :
  exists res, Icmpv4Repr.parse data caps = Ret res /\ icmpv4_parsed data res.
Proof.
  pose proof Hs as [Hb Hl]. unfold Icmpv4Repr.parse, Icmpv4Packet.check_len, ICMPV4_HEADER_END.
  destruct (Nat.ltb_spec (length data) 8) as [|H8]; [by exists (Err Error)|].
  assert (exists ok, Icmpv4Packet.verify_checksum data = Ret ok) as [ok ->].
  { unfold Icmpv4Packet.verify_checksum. rewrite summable_sum by done. by eexists. }
  destruct (Checksum.rx _), ok; cbn [mbind outcome_bind negb]; try by exists (Err Error).
  1-3: unfold Icmpv4Packet.msg_type, Icmpv4Packet.msg_code; rewrite !get_byte_ok by lia; cbn [mbind outcome_bind];
    unfold Icmpv4Packet.echo_ident, Icmpv4Packet.echo_seq_no;
    destruct (get_u16_ok 4 6 data Hb ltac:(lia) eq_refl) as (ident & -> & Hi);
    destruct (get_u16_ok 6 8 data Hb ltac:(lia) eq_refl) as (seq_no & -> & Hn); cbn [mbind outcome_bind];
    rewrite icmp_data by done; cbn [mbind outcome_bind];
    pose proof (parse_quoted_total data Hb H8) as Hq;
    destruct (Icmpv4Repr.parse_quoted data) as [[[header payload]|e]|]; try done; cbn [try_bind];
    destruct (Icmpv4Message.from _); try (by eexists); destruct (data !!! 1%nat); by eexists.
Qed.

(** Parsing an ICMPv4 message never panics, whatever octets arrive; when it
    succeeds, the data are the octets after the header, and a quoted packet has
    addresses of four octets and at least eight octets of payload. *)
Theorem icmpv4_parse_total {BO : ByteOrder} (NE : NetworkEndian BO) data caps (Hs : summable data) :
  exists res, Icmpv4Repr.parse data caps = Ret res /\ icmpv4_parsed data res.
Proof. by apply icmpv4_parse_ok. Qed.

(** The messages [emit] writes and [parse] reads back: error codes that are not
    one of the named ones have no other name, and the quoted packet is quoted in
    full. *)
Definition icmpv4_canonical (r : Icmpv4Repr) : Prop :=
  match r with
  | Icmpv4DstUnreachable reason header data =>
      Icmpv4DstUnreachable.from (Icmpv4DstUnreachable.into reason) = reason /\
      ih_payload_len header = length data /\ (8 <= length data)%nat
  | Icmpv4TimeExceeded reason header data =>
      Icmpv4TimeExceeded.from (Icmpv4TimeExceeded.into reason) = reason /\
      ih_payload_len header = length data /\ (8 <= length data)%nat
  | _ => True
  end.

Section RoundTrip.
Context {BO : ByteOrder} {NE : NetworkEndian BO}.

(** The fields of an echo message. *)
Lemma echo_fields_octets {A} ty check ident seq_no data (k : Z -> Z -> list Z -> outcome A) :
  word ident -> word seq_no ->
  let packet := icmp_octets ty 0 check [ident / 256; ident mod 256; seq_no / 256; seq_no mod 256] data in
  (ident ← Icmpv4Packet.echo_ident packet; seq_no ← Icmpv4Packet.echo_seq_no packet;
   data ← Icmpv4Packet.data packet; k ident seq_no data) = k ident seq_no data.
Proof.
  intros Hi Hn packet. destruct (word_octets _ Hi), (word_octets _ Hn).
  unfold Icmpv4Packet.echo_ident, Icmpv4Packet.echo_seq_no.
  rewrite (get_u16_octets 4 6 packet (ident / 256) (ident mod 256)) by done. cbn [mbind outcome_bind].
  rewrite (get_u16_octets 6 8 packet (seq_no / 256) (seq_no mod 256)) by done. cbn [mbind outcome_bind].
  rewrite <-!Z.div_mod by lia. rewrite icmp_data by (unfold packet; rewrite icmp_octets_length by done; lia). done.
Qed.

Lemma parse_quoted_octets ty code check old caps header data :
  length old = 4%nat -> ipv4_repr_wf header -> ih_payload_len header = length data -> (8 <= length data)%nat ->
  Icmpv4Repr.parse_quoted (icmp_octets ty code check old
    (header_octets (if Checksum.tx (caps_ipv4 caps) then checked (header_of header) else header_of header) ++ data)) =
  Ret (Ok (header, data)).
Proof.
  intros Ho Hh Hp H8. set (h := if Checksum.tx _ then _ else _).
  assert (header_wf h) as Hwf by by apply quoted_header_wf.
  assert (h_total_len h = 20 + Z.of_nat (length data) /\ h_src h = ih_src_addr header /\
    h_dst h = ih_dst_addr header /\ h_hop h = ih_hop_limit header /\
    h_proto h = Protocol.into (ih_next_header header)) as (Ft & Fs & Fd & Fh & Fp)
    by (unfold h; destruct (Checksum.tx _); cbn; rewrite Hp; done).
  pose proof (header_octets_length h Hwf) as Hhl.
  unfold Icmpv4Repr.parse_quoted. rewrite icmp_data by (rewrite icmp_octets_length by done; lia).
  cbn [mbind outcome_bind]. replace (drop 8 _) with (header_octets h ++ data).
  2: { unfold icmp_octets. rewrite app_assoc, drop_app_length'; [done|]. rewrite length_app, Ho. done. }
  assert (Ipv4Packet.check_len (header_octets h ++ data) = Ret (Ok ())) as Hck.
  { unfold Ipv4Packet.check_len, IPV4_HEADER_LEN. rewrite length_app, Hhl. rewrite (proj2 (Nat.ltb_ge _ _)) by lia.
    rewrite h_get_header_len. cbn [mbind outcome_bind]. rewrite (proj2 (Nat.ltb_ge _ _)) by lia.
    rewrite h_get_total, Ft by done. cbn [mbind outcome_bind]. rewrite Z.gtb_ltb, (proj2 (Z.ltb_ge _ _)) by lia.
    by rewrite (proj2 (Nat.ltb_ge _ _)) by lia. }
  unfold Ipv4Packet.new_checked. rewrite Hck. cbn [try_bind]. rewrite h_get_header_len. cbn [mbind outcome_bind].
  change (Z.to_nat 20) with 20%nat. rewrite range_Ret by (rewrite ?length_app; lia). cbn [mbind outcome_bind].
  unfold slice. rewrite drop_app_length', take_ge by (rewrite ?length_app; lia). rewrite (proj2 (Nat.ltb_ge _ _)) by lia.
  rewrite h_get_src, h_get_dst, h_get_next, h_get_hop by done. cbn [mbind outcome_bind].
  rewrite Fs, Fd, Fh, Fp. destruct Hh as (_ & _ & _ & -> & _). rewrite <-Hp. by destruct header.
Qed.
(** A packet quoted in part. *)
Lemma parse_quoted_partial ty code check old caps header data :
  length old = 4%nat -> ipv4_repr_wf header -> (length data < ih_payload_len header)%nat ->
  Icmpv4Repr.parse_quoted (icmp_octets ty code check old
    (header_octets (if Checksum.tx (caps_ipv4 caps) then checked (header_of header) else header_of header) ++ data)) =
  Ret (Err Error).
Proof.
  intros Ho Hh Hp. set (h := if Checksum.tx _ then _ else _).
  assert (header_wf h) as Hwf by by apply quoted_header_wf.
  assert (h_total_len h = 20 + Z.of_nat (ih_payload_len header)) as Ft by (unfold h; by destruct (Checksum.tx _)).
  pose proof (header_octets_length h Hwf) as Hhl. unfold Icmpv4Repr.parse_quoted.
  rewrite icmp_data by (rewrite icmp_octets_length by done; lia). cbn [mbind outcome_bind].
  replace (drop 8 _) with (header_octets h ++ data).
  2: { unfold icmp_octets. rewrite app_assoc, drop_app_length'; [done|]. rewrite length_app, Ho. done. }
  unfold Ipv4Packet.new_checked, Ipv4Packet.check_len, IPV4_HEADER_LEN. rewrite length_app, Hhl.
  rewrite (proj2 (Nat.ltb_ge _ _)) by lia. rewrite h_get_header_len. cbn [mbind outcome_bind].
  rewrite (proj2 (Nat.ltb_ge _ _)) by lia. rewrite h_get_total, Ft by done. cbn [mbind outcome_bind].
  rewrite Z.gtb_ltb, (proj2 (Z.ltb_ge _ _)) by lia. by rewrite (proj2 (Nat.ltb_lt _ _)) by lia.
Qed.
End RoundTrip.

Lemma icmpv4_emit_parse_ok {BO : ByteOrder} (NE : NetworkEndian BO) r tx_caps rx_caps packet
    (Hr : icmpv4_repr_wf r) (Hc : icmpv4_canonical r) (Hb : bytes packet)
    (Hl : length packet = Icmpv4Repr.buffer_len r)
    (Hcaps : Checksum.rx (caps_icmpv4 rx_caps) = true -> Checksum.tx (caps_icmpv4 tx_caps) = true) :
  exists packet', Icmpv4Repr.emit r tx_caps packet = Ret packet' /\ length packet' = length packet /\
    Icmpv4Repr.parse packet' rx_caps = Ret (Ok r).
Proof.
  destruct (icmpv4_emit_octets r tx_caps packet Hr Hb Hl) as (old & Ho & Hob & ->). cbn zeta. eexists. split; [done|].
  destruct (icmp_parts_wf r tx_caps old Hr Ho Hob) as (Hrl & Hbl & Hsum).
  split; [rewrite icmp_octets_length, Hbl, Hl by done; destruct r; cbn; lia|].
  set (check := if Checksum.tx _ then _ else _). unfold Icmpv4Repr.parse, Icmpv4Packet.check_len, ICMPV4_HEADER_END.
  rewrite icmp_octets_length by done. rewrite (proj2 (Nat.ltb_ge _ _)) by lia.
  assert ((if Checksum.rx (caps_icmpv4 rx_caps)
    then ok ← Icmpv4Packet.verify_checksum (icmp_octets (icmp_type r) (icmp_code r) check (icmp_rest r old) (icmp_body r tx_caps));
      Ret (negb ok) else Ret false) = Ret false) as ->.
  { destruct (Checksum.rx _); [|done]. unfold check. rewrite Hcaps by done.
    destruct Hr as [Hcode _]. rewrite icmp_checksum_verifies; try done. destruct r; unfold byte; cbn; lia. }
  cbn [mbind outcome_bind]. destruct Hr as [Hcode Hr].
  destruct r; cbn [icmp_type icmp_code icmp_rest icmp_body icmpv4_canonical] in *;
    unfold Icmpv4Packet.msg_type, Icmpv4Packet.msg_code;
    cbn [get_byte icmp_octets app lookup list_lookup unwrap mbind outcome_bind Icmpv4Message.from].
  - destruct Hr as (Hi & Hn & _).
    exact (echo_fields_octets 8 check _ _ _ (fun i n d => Ret (Ok (Icmpv4EchoRequest i n d))) Hi Hn).
  - destruct Hr as (Hi & Hn & _).
    exact (echo_fields_octets 0 check _ _ _ (fun i n d => Ret (Ok (Icmpv4EchoReply i n d))) Hi Hn).
  - destruct Hc as (Hreason & Hp & H8), Hr as (Hh & _).
    change (Icmpv4Message.from 3) with Icmpv4Message.DstUnreachable. cbn match.
    pose proof (parse_quoted_octets 3 (Icmpv4DstUnreachable.into reason) check old tx_caps header data Ho Hh Hp H8) as Hq.
    cbn [icmp_octets app] in Hq. rewrite Hq. cbn [try_bind]. by rewrite Hreason.
  - destruct Hc as (Hreason & Hp & H8), Hr as (Hh & _).
    change (Icmpv4Message.from 11) with Icmpv4Message.TimeExceeded. cbn match.
    pose proof (parse_quoted_octets 11 (Icmpv4TimeExceeded.into reason) check old tx_caps header data Ho Hh Hp H8) as Hq.
    cbn [icmp_octets app] in Hq. rewrite Hq. cbn [try_bind]. by rewrite Hreason.
Qed.

(** An ICMPv4 message survives the wire: parsing what [emit] wrote gives the
    representation back, provided the sender computes the checksum that the receiver
    verifies and an error message quotes its packet in full. *)
Theorem icmpv4_emit_parse_roundtrip {BO : ByteOrder} (NE : NetworkEndian BO) r tx_caps rx_caps packet
    (Hr : icmpv4_repr_wf r) (Hc : icmpv4_canonical r) (Hb : bytes packet)
    (Hl : length packet = Icmpv4Repr.buffer_len r)
    (Hcaps : Checksum.rx (caps_icmpv4 rx_caps) = true -> Checksum.tx (caps_icmpv4 tx_caps) = true) :
  exists packet', Icmpv4Repr.emit r tx_caps packet = Ret packet' /\ Icmpv4Repr.parse packet' rx_caps = Ret (Ok r).
Proof.
  destruct (icmpv4_emit_parse_ok NE r tx_caps rx_caps packet Hr Hc Hb Hl Hcaps) as (packet' & ? & _ & ?).
  by exists packet'.
Qed.

(** An error message that quotes only the beginning of its packet, as RFC 792
    has it (the header and eight octets), is rejected by the parser, whatever the
    code and the number of octets quoted: the length of the quoted packet is compared
    with the octets present.  The stack's own "port unreachable" messages about long
    datagrams are of that kind. *)
Theorem icmpv4_partial_quote_rejected {BO : ByteOrder} (NE : NetworkEndian BO) reason header data caps packet
    (Hr : icmpv4_repr_wf (Icmpv4DstUnreachable reason header data))
    (Hpart : (length data < ih_payload_len header)%nat) (Hb : bytes packet)
    (Hl : length packet = Icmpv4Repr.buffer_len (Icmpv4DstUnreachable reason header data)) :
  exists packet', Icmpv4Repr.emit (Icmpv4DstUnreachable reason header data) caps packet = Ret packet' /\
    Icmpv4Repr.parse packet' caps = Ret (Err Error).
Proof.
  destruct (icmpv4_emit_octets _ caps packet Hr Hb Hl) as (old & Ho & Hob & ->). cbn zeta. eexists. split; [done|].
  destruct (icmp_parts_wf _ caps old Hr Ho Hob) as (Hrl & Hbl & Hsum).
  set (check := if Checksum.tx _ then _ else _). unfold Icmpv4Repr.parse, Icmpv4Packet.check_len, ICMPV4_HEADER_END.
  rewrite icmp_octets_length by done. rewrite (proj2 (Nat.ltb_ge _ _)) by lia.
  match goal with |- (?x ≫= _) = _ => destruct x as [[]|] eqn:Hx end; cbn [mbind outcome_bind]; [done| |].
  - unfold Icmpv4Packet.msg_type, Icmpv4Packet.msg_code.
    cbn [get_byte icmp_octets icmp_type icmp_code icmp_rest icmp_body app lookup list_lookup unwrap mbind outcome_bind].
    change (Icmpv4Message.from 3) with Icmpv4Message.DstUnreachable. cbn match.
    pose proof (parse_quoted_partial 3 (Icmpv4DstUnreachable.into reason) check old caps header data Ho
      (proj1 (proj2 Hr)) Hpart) as Hq. cbn [icmp_octets app] in Hq. by rewrite Hq.
  - destruct (Checksum.rx _); [|done]. unfold Icmpv4Packet.verify_checksum in Hx. rewrite summable_sum in Hx; [done|].
    apply summable_check; [done|unfold byte; cbn; lia|apply Hr|done|].
    unfold check. destruct (Checksum.tx _); [by apply icmp_checksum_word|unfold word; lia].
Qed.

(** ** Concrete messages *)

Section Witnesses.
#[local] Existing Instance network_endian.

Definition sample_quote : Icmpv4Repr :=
  Icmpv4DstUnreachable Icmpv4DstUnreachable.PortUnreachable
    (mkIpHeader [192; 168; 1; 1] [192; 168; 1; 2] Protocol.Udp 8 64) [0; 53; 0; 54; 0; 8; 0; 0].

Definition sample_partial_header : IpHeader := mkIpHeader [192; 168; 1; 1] [192; 168; 1; 2] Protocol.Udp 100 64.

Ltac wf_sample := unfold icmpv4_repr_wf, ipv4_repr_wf, address_wf, bytes, byte; cbn;
  split_and!; try done; repeat constructor; lia.

Lemma icmpv4_parse_total_witness :
  exists res, Icmpv4Repr.parse (replicate 12 8) all_checksums = Ret res /\ icmpv4_parsed (replicate 12 8) res.
Proof.
  apply (icmpv4_parse_total network_endian_laws). split; [|rewrite length_replicate; lia].
  apply Forall_replicate. unfold byte. lia.
Defined.

Lemma icmpv4_emit_parse_roundtrip_witness :
  exists packet', Icmpv4Repr.emit sample_quote all_checksums (replicate 36 7) = Ret packet' /\
    Icmpv4Repr.parse packet' all_checksums = Ret (Ok sample_quote).
Proof.
  apply (icmpv4_emit_parse_roundtrip network_endian_laws sample_quote all_checksums all_checksums (replicate 36 7));
    [wf_sample|split_and!; done|apply Forall_replicate; unfold byte; lia|done|done].
Defined.

Lemma icmpv4_partial_quote_rejected_witness :
  exists packet', Icmpv4Repr.emit (Icmpv4DstUnreachable Icmpv4DstUnreachable.PortUnreachable sample_partial_header
      [0; 53; 0; 54; 0; 100; 0; 0]) all_checksums (replicate 36 7) = Ret packet' /\
    Icmpv4Repr.parse packet' all_checksums = Ret (Err Error).
Proof.
  apply (icmpv4_partial_quote_rejected network_endian_laws);
    [wf_sample|cbn; lia|apply Forall_replicate; unfold byte; lia|done].
Defined.
End Witnesses.
