(* ===== verification/Icmpv6Wire.v ===== *)
(** * ICMPv6 packets (src/wire/icmpv6.rs)

    The message types and codes, and [Module Icmpv6Packet], the accessors and setters
    on a buffer.  Neighbor discovery, multicast listener discovery and
    the representations are in NdiscWire.v, MldWire.v and Icmpv6Messages.v. *)

From S2P Require Import Prelude Bytes Octets Phy Ip Ipv6Wire.
Open Scope Z_scope.

Module Icmpv6Message.
Inductive t :=
| DstUnreachable | PktTooBig | TimeExceeded | ParamProblem | EchoRequest | EchoReply | MldQuery
| RouterSolicit | RouterAdvert | NeighborSolicit | NeighborAdvert | Redirect | MldReport | RplControl
| Unknown (id : Z).

#[global] Instance eq_dec : EqDecision t.
Proof. solve_decision. Defined.

Definition from (value : Z) : t :=
  if value =? 0x01 then DstUnreachable
  else if value =? 0x02 then PktTooBig
  else if value =? 0x03 then TimeExceeded
  else if value =? 0x04 then ParamProblem
  else if value =? 0x80 then EchoRequest
  else if value =? 0x81 then EchoReply
  else if value =? 0x82 then MldQuery
  else if value =? 0x85 then RouterSolicit
  else if value =? 0x86 then RouterAdvert
  else if value =? 0x87 then NeighborSolicit
  else if value =? 0x88 then NeighborAdvert
  else if value =? 0x89 then Redirect
  else if value =? 0x8f then MldReport
  else if value =? 0x9b then RplControl
  else Unknown value.

Definition into (m : t) : Z :=
  match m with
  | DstUnreachable => 0x01 | PktTooBig => 0x02 | TimeExceeded => 0x03 | ParamProblem => 0x04
  | EchoRequest => 0x80 | EchoReply => 0x81 | MldQuery => 0x82 | RouterSolicit => 0x85
  | RouterAdvert => 0x86 | NeighborSolicit => 0x87 | NeighborAdvert => 0x88 | Redirect => 0x89
  | MldReport => 0x8f | RplControl => 0x9b | Unknown other => other
  end.

Definition is_error (m : t) : bool := negb (Z.land (into m) 0x80 =? 0x80).

Definition is_ndisc (m : t) : bool :=
  match m with
  | RouterSolicit | RouterAdvert | NeighborSolicit | NeighborAdvert | Redirect => true
  | _ => false
  end.

Definition is_mld (m : t) : bool := match m with MldQuery | MldReport => true | _ => false end.
End Icmpv6Message.

Module Icmpv6DstUnreachable.
Inductive t :=
| NoRoute | AdminProhibit | BeyondScope | AddrUnreachable | PortUnreachable | FailedPolicy | RejectRoute
| Unknown (id : Z).

Definition from (value : Z) : t :=
  if value =? 0 then NoRoute
  else if value =? 1 then AdminProhibit
  else if value =? 2 then BeyondScope
  else if value =? 3 then AddrUnreachable
  else if value =? 4 then PortUnreachable
  else if value =? 5 then FailedPolicy
  else if value =? 6 then RejectRoute
  else Unknown value.

Definition into (r : t) : Z :=
  match r with
  | NoRoute => 0 | AdminProhibit => 1 | BeyondScope => 2 | AddrUnreachable => 3 | PortUnreachable => 4
  | FailedPolicy => 5 | RejectRoute => 6 | Unknown other => other
  end.
End Icmpv6DstUnreachable.

Module Icmpv6ParamProblem.
Inductive t := ErroneousHdrField | UnrecognizedNxtHdr | UnrecognizedOption | Unknown (id : Z).

Definition from (value : Z) : t :=
  if value =? 0 then ErroneousHdrField
  else if value =? 1 then UnrecognizedNxtHdr
  else if value =? 2 then UnrecognizedOption
  else Unknown value.

Definition into (r : t) : Z :=
  match r with
  | ErroneousHdrField => 0 | UnrecognizedNxtHdr => 1 | UnrecognizedOption => 2 | Unknown other => other
  end.
End Icmpv6ParamProblem.

Module Icmpv6TimeExceeded.
Inductive t := HopLimitExceeded | FragReassemExceeded | Unknown (id : Z).

Definition from (value : Z) : t :=
  if value =? 0 then HopLimitExceeded else if value =? 1 then FragReassemExceeded else Unknown value.

Definition into (r : t) : Z :=
  match r with HopLimitExceeded => 0 | FragReassemExceeded => 1 | Unknown other => other end.
End Icmpv6TimeExceeded.

Module Icmpv6Packet.
Section Accessors.
Context {BO : ByteOrder}.
Implicit Types (data : list Z).

Definition msg_type data : outcome Icmpv6Message.t := b ← get_byte 0 data; Ret (Icmpv6Message.from b).
Definition msg_code data : outcome Z := get_byte 1 data.
Definition checksum data : outcome Z := get_u16 2 4 data.
Definition echo_ident data : outcome Z := get_u16 4 6 data.
Definition echo_seq_no data : outcome Z := get_u16 6 8 data.
Definition pkt_too_big_mtu data : outcome Z := get_u32 4 8 data.
Definition param_problem_ptr data : outcome Z := get_u32 4 8 data.

Definition header_len data : outcome nat :=
  m ← msg_type data;
  Ret (match m with
       | Icmpv6Message.DstUnreachable => 8
       | Icmpv6Message.PktTooBig => 8
       | Icmpv6Message.TimeExceeded => 8
       | Icmpv6Message.ParamProblem => 8
       | Icmpv6Message.EchoRequest => 8
       | Icmpv6Message.EchoReply => 8
       | Icmpv6Message.RouterSolicit => 8
       | Icmpv6Message.RouterAdvert => 16
       | Icmpv6Message.NeighborSolicit => 24
       | Icmpv6Message.NeighborAdvert => 24
       | Icmpv6Message.Redirect => 40
       | Icmpv6Message.MldQuery => 28
       | Icmpv6Message.MldReport => 8
       | _ => 4
       end)%nat.

Definition check_len data : outcome (result unit WireError) :=
  let len := length data in
  if (len <? 4)%nat then Ret (Err Error) else
  m ← msg_type data;
  match m with
  | Icmpv6Message.RplControl => Ret (Err Error)
  | Icmpv6Message.Unknown _ => Ret (Err Error)
  | _ =>
      header_len ← header_len data;
      if (len <? 8)%nat || (len <? header_len)%nat then Ret (Err Error) else Ret (Ok ())
  end.

Definition new_checked data : outcome (result (list Z) WireError) :=
  _ ←? check_len data;
  Ret (Ok data).

(** The sum over the pseudo header and the whole message. *)
Definition message_sum (src_addr dst_addr : list Z) data : outcome Z :=
  c1 ← checksum.pseudo_header_octets src_addr dst_addr Protocol.Icmpv6 (wrap_u 32 (Z.of_nat (length data)));
  c2 ← checksum.data data;
  checksum.combine [c1; c2].

Definition verify_checksum (src_addr dst_addr : list Z) data : outcome bool :=
  c ← message_sum src_addr dst_addr data; Ret (c =? U16_MAX).

Definition payload data : outcome (list Z) := n ← header_len data; range data n (length data).

Definition set_msg_type (value : Icmpv6Message.t) data : outcome (list Z) := set_byte 0 (Icmpv6Message.into value) data.
Definition set_msg_code (value : Z) data : outcome (list Z) := set_byte 1 value data.

Definition clear_reserved data : outcome (list Z) :=
  m ← msg_type data;
  match m with
  | Icmpv6Message.RouterSolicit | Icmpv6Message.NeighborSolicit | Icmpv6Message.NeighborAdvert
  | Icmpv6Message.Redirect => put_u32 4 8 0 data
  | Icmpv6Message.MldQuery =>
      data ← put_u16 6 8 0 data;
      update_byte 24 (fun b => Z.land b 0xf) data
  | Icmpv6Message.MldReport => put_u16 4 6 0 data
  | _ => Panic
  end.

Definition set_checksum (value : Z) data : outcome (list Z) := put_u16 2 4 value data.
Definition set_echo_ident (value : Z) data : outcome (list Z) := put_u16 4 6 value data.
Definition set_echo_seq_no (value : Z) data : outcome (list Z) := put_u16 6 8 value data.
Definition set_pkt_too_big_mtu (value : Z) data : outcome (list Z) := put_u32 4 8 value data.
Definition set_param_problem_ptr (value : Z) data : outcome (list Z) := put_u32 4 8 value data.

Definition fill_checksum (src_addr dst_addr : list Z) data : outcome (list Z) :=
  data ← set_checksum 0 data;
  c ← message_sum src_addr dst_addr data;
  set_checksum (not16 c) data.

(** [f] writes the slice [payload_mut]. *)
Definition with_payload_mut (f : list Z -> outcome (list Z)) data : outcome (list Z) :=
  n ← header_len data;
  d ← range data n (length data);
  d ← f d;
  Ret (splice data n d).
End Accessors.
End Icmpv6Packet.

Section Laws.
Context {BO : ByteOrder} {NE : NetworkEndian BO}.

(** What [check_len] of a message establishes. *)
Lemma icmpv6_check_ok data : bytes data -> returns (Icmpv6Packet.check_len data) (fun r => r = Ok () ->
  (8 <= length data)%nat /\ exists m hl, Icmpv6Packet.msg_type data = Ret m /\ Icmpv6Packet.header_len data = Ret hl /\ (hl <= length data)%nat).
Proof.
  intros Hb. unfold Icmpv6Packet.check_len. destruct (Nat.ltb_spec (length data) 4); [done|].
  unfold Icmpv6Packet.header_len, Icmpv6Packet.msg_type. rewrite get_byte_ok by lia. cbn [mbind outcome_bind].
  destruct (Icmpv6Message.from _); try done; cbn [mbind outcome_bind];
    repeat match goal with |- context [(length data <? ?n)%nat] => destruct (Nat.ltb_spec (length data) n) end; cbn [orb]; try done;
    intros _; (split; [lia|]); eexists _, _; (split; [done|]); (split; [done|]); lia.
Qed.

(** The sum over the pseudo header and the message: the part of the pseudo header
    does not depend on the octets of the message. *)
Lemma message_sum_ok src dst n : address_wf (Ipv6 src) -> address_wf (Ipv6 dst) -> Z.of_nat n <= 131000 ->
  exists ps, 0 <= ps <= U16_MAX /\ forall data, bytes data -> length data = n ->
    Icmpv6Packet.message_sum src dst data = Ret (fold16 (ps + word_sum data)).
Proof.
  intros Hs Hd Hn.
  destruct (pseudo_header_total (Ipv6 src) (Ipv6 dst) Protocol.Icmpv6 (wrap_u 32 (Z.of_nat n)) Hs Hd eq_refl) as (ps & Hps & Hr);
    [unfold byte; cbn; lia|].
  exists ps. split; [done|]. intros data Hb Hl. unfold Icmpv6Packet.message_sum. rewrite Hl. cbn [checksum.pseudo_header] in Hps. rewrite Hps.
  cbn [mbind outcome_bind]. pose proof (word_sum_bound _ Hb). pose proof (word_sum_pos _ Hb). rewrite Hl in *.
  rewrite checksum_data_spec by (done || lia). cbn [mbind outcome_bind]. pose proof (fold16_range _ H0). unfold checksum.combine. cbn [checksum.sum_words].
  rewrite !uadd_Ret by lia. cbn [mbind outcome_bind]. rewrite uadd_Ret by lia. cbn [mbind outcome_bind]. rewrite propagate_carries_spec by lia.
  rewrite Z.add_0_l. by rewrite fold16_add by lia.
Qed.

Lemma icmpv6_verify_ok src dst data : address_wf (Ipv6 src) -> address_wf (Ipv6 dst) -> bytes data -> Z.of_nat (length data) <= 131000 ->
  exists ok, Icmpv6Packet.verify_checksum src dst data = Ret ok.
Proof.
  intros Hs Hd Hb Hn. destruct (message_sum_ok src dst _ Hs Hd Hn) as (ps & _ & H). unfold Icmpv6Packet.verify_checksum.
  rewrite H by done. by eexists.
Qed.

Lemma icmpv6_set_checksum a b x y rest v : word v ->
  Icmpv6Packet.set_checksum v (a :: b :: x :: y :: rest) = Ret (a :: b :: v / 256 :: v mod 256 :: rest).
Proof. intros Hv. unfold Icmpv6Packet.set_checksum. by rewrite put_u16_octets by (done || cbn; lia). Qed.

(** [fill_checksum] writes a checksum that [verify_checksum] accepts. *)
Lemma icmpv6_fill_checksum src dst a b x y rest :
  address_wf (Ipv6 src) -> address_wf (Ipv6 dst) -> byte a -> byte b -> bytes rest -> Z.of_nat (4 + length rest) <= 131000 ->
  exists u v, byte u /\ byte v /\ Icmpv6Packet.fill_checksum src dst (a :: b :: x :: y :: rest) = Ret (a :: b :: u :: v :: rest) /\
    Icmpv6Packet.verify_checksum src dst (a :: b :: u :: v :: rest) = Ret true.
Proof.
  intros Hs Hd Ha Hb Hr Hn. destruct (message_sum_ok src dst _ Hs Hd Hn) as (ps & Hps & Hsum).
  assert (word 0) as H0 by (unfold word; lia). assert (byte 0) as Hb0 by (unfold byte; lia).
  assert (forall u v, byte u -> byte v -> bytes (a :: b :: u :: v :: rest)) as Hbs by (intros; by repeat apply Forall_cons_2).
  pose proof (Hsum _ (Hbs _ _ Hb0 Hb0) eq_refl) as Hs0. pose proof (word_sum_pos _ (Hbs _ _ Hb0 Hb0)) as Hpos.
  set (w := word_sum (a :: b :: 0 :: 0 :: rest)) in *. pose proof (fold16_range (ps + w) ltac:(lia)) as Hf.
  assert (word (not16 (fold16 (ps + w)))) as Hc by (unfold word, not16; lia). set (c := not16 (fold16 (ps + w))) in *.
  destruct (word_octets c Hc) as [H1 H2]. exists (c / 256), (c mod 256). split; [done|]. split; [done|]. split.
  - unfold Icmpv6Packet.fill_checksum. rewrite icmpv6_set_checksum by done. cbn [mbind outcome_bind]. change (0 / 256) with 0. change (0 mod 256) with 0.
    rewrite Hs0. cbn [mbind outcome_bind]. by rewrite icmpv6_set_checksum.
  - unfold Icmpv6Packet.verify_checksum. rewrite Hsum by auto. cbn [mbind outcome_bind].
    assert (word_sum (a :: b :: c / 256 :: c mod 256 :: rest) = w + c) as ->.
    { unfold w. cbn [word_sum]. pose proof (Z.div_mod c 256 ltac:(lia)). lia. }
    unfold c, not16. rewrite Z.add_assoc. change U16_MAX with 65535. by rewrite fold16_complement by lia.
Qed.
End Laws.
