(* ===== verification/NdiscWire.v ===== *)
(** * Neighbor discovery (src/wire/ndisc.rs, src/wire/ndiscoption.rs)

    [Module NdiscOption] is the options that follow a message, [Module NdiscOptionRepr]
    their parser and emitter, [Module NdiscPacket] the fields of the messages and
    [Module NdiscRepr] the parser, which walks over the options, and the
    emitter. *)

From S2P Require Import Prelude Bytes Octets Time Ip LinkLayer Flags Ipv6Wire Icmpv6Wire.
Open Scope Z_scope.

Module NdiscOptionType.
Inductive t := SourceLinkLayerAddr | TargetLinkLayerAddr | PrefixInformation | RedirectedHeader | Mtu | Unknown (id : Z).

Definition from (value : Z) : t :=
  if value =? 0x1 then SourceLinkLayerAddr
  else if value =? 0x2 then TargetLinkLayerAddr
  else if value =? 0x3 then PrefixInformation
  else if value =? 0x4 then RedirectedHeader
  else if value =? 0x5 then Mtu
  else Unknown value.

Definition into (x : t) : Z :=
  match x with
  | SourceLinkLayerAddr => 0x1 | TargetLinkLayerAddr => 0x2 | PrefixInformation => 0x3 | RedirectedHeader => 0x4
  | Mtu => 0x5 | Unknown other => other
  end.
End NdiscOptionType.

(** [RouterFlags] and [PrefixInfoFlags] are two flags, [NeighborFlags] three. *)
Definition ROUTER_FLAGS_ALL : Z := 0xc0.
Definition NEIGHBOR_FLAGS_ALL : Z := 0xe0.
Definition NEIGHBOR_SOLICITED : Z := 0x40.
Definition NEIGHBOR_OVERRIDE : Z := 0x20.

Module NdiscOption.
Section Accessors.
Context {BO : ByteOrder} {RF : Bitflags ROUTER_FLAGS_ALL}.
Implicit Types (data : list Z).

Definition option_type data : outcome NdiscOptionType.t := b ← get_byte 0 data; Ret (NdiscOptionType.from b).
Definition data_len data : outcome Z := get_byte 1 data.

(** The end of [field::DATA(length)]. *)
Definition data_end (length : Z) : nat := (Z.to_nat length * 8)%nat.

Definition check_len data : outcome (result unit WireError) :=
  let len := length data in
  if (len <? 8)%nat then Ret (Err Error) else
  n ← data_len data;
  if (len <? data_end n)%nat then Ret (Err Error) else
  ty ← option_type data;
  Ret match ty with
      | NdiscOptionType.SourceLinkLayerAddr | NdiscOptionType.TargetLinkLayerAddr | NdiscOptionType.Mtu => Ok ()
      | NdiscOptionType.PrefixInformation => if (32 <=? data_end n)%nat then Ok () else Err Error
      | NdiscOptionType.RedirectedHeader => if (48 <=? data_end n)%nat then Ok () else Err Error
      | NdiscOptionType.Unknown _ => Ok ()
      end.

Definition new_checked data : outcome (result (list Z) WireError) :=
  _ ←? check_len data;
  n ← data_len data;
  Ret (if n =? 0 then Err Error else Ok data).

Definition link_layer_addr data : outcome RawHardwareAddress.t :=
  n ← data_len data;
  m ← usub (n * 8) 2;
  let len := (RawHardwareAddress.MAX_HARDWARE_ADDRESS_LEN `min` Z.to_nat m)%nat in
  d ← range data 2 (len + 2);
  RawHardwareAddress.from_bytes d.

Definition mtu data : outcome Z := get_u32 4 8 data.
Definition prefix_len data : outcome Z := get_byte 2 data.
Definition prefix_flags data : outcome (flags ROUTER_FLAGS_ALL) := b ← get_byte 3 data; Ret (from_bits_truncate b).
Definition valid_lifetime data : outcome Duration := n ← get_u32 4 8 data; Duration.from_secs n.
Definition preferred_lifetime data : outcome Duration := n ← get_u32 8 12 data; Duration.from_secs n.
Definition prefix data : outcome (list Z) := d ← range data 16 32; Ipv6Address.from_bytes d.
Definition data buffer : outcome (list Z) := n ← data_len buffer; range buffer 2 (data_end n).

Definition set_option_type (value : NdiscOptionType.t) data : outcome (list Z) := set_byte 0 (NdiscOptionType.into value) data.
Definition set_data_len (value : Z) data : outcome (list Z) := set_byte 1 value data.
Definition set_link_layer_addr (addr : RawHardwareAddress.t) data : outcome (list Z) :=
  b ← RawHardwareAddress.as_bytes addr; put_slice 2 (2 + RawHardwareAddress.len addr) b data.
Definition set_mtu (value : Z) data : outcome (list Z) := put_u32 4 8 value data.
Definition set_prefix_len (value : Z) data : outcome (list Z) := set_byte 2 value data.
Definition set_prefix_flags (value : flags ROUTER_FLAGS_ALL) data : outcome (list Z) := set_byte 3 (flags_bits value) data.
Definition set_valid_lifetime (time : Duration) data : outcome (list Z) := put_u32 4 8 (wrap_u 32 (Duration.secs time)) data.
Definition set_preferred_lifetime (time : Duration) data : outcome (list Z) := put_u32 8 12 (wrap_u 32 (Duration.secs time)) data.
Definition clear_prefix_reserved data : outcome (list Z) := put_u32 12 16 0 data.
Definition set_prefix (addr : list Z) data : outcome (list Z) := put_slice 16 32 addr data.
Definition clear_redirected_reserved data : outcome (list Z) := put_slice 2 8 (replicate 6 0) data.

(** [f] writes the slice [data_mut]. *)
Definition with_data_mut (f : list Z -> outcome (list Z)) buffer : outcome (list Z) :=
  n ← data_len buffer;
  d ← range buffer 2 (data_end n);
  d ← f d;
  Ret (splice buffer 2 d).
End Accessors.
End NdiscOption.

Record NdiscPrefixInformation `{RF : Bitflags ROUTER_FLAGS_ALL} := mkPrefixInformation {
  pi_prefix_len : Z;
  pi_flags : flags ROUTER_FLAGS_ALL;
  pi_valid_lifetime : Duration;
  pi_preferred_lifetime : Duration;
  pi_prefix : list Z
}.

Record NdiscRedirectedHeader := mkRedirectedHeader { rd_header : IpHeader; rd_data : list Z }.

Inductive NdiscOptionRepr `{RF : Bitflags ROUTER_FLAGS_ALL} :=
| OptSourceLinkLayerAddr (addr : RawHardwareAddress.t)
| OptTargetLinkLayerAddr (addr : RawHardwareAddress.t)
| OptPrefixInformation (info : NdiscPrefixInformation)
| OptRedirectedHeader (redirected : NdiscRedirectedHeader)
| OptMtu (mtu : Z)
| OptUnknown (type_ length : Z) (data : list Z).

Module NdiscOptionRepr.
Section Repr.
Context {BO : ByteOrder} {BO24 : ByteOrder24} {RF : Bitflags ROUTER_FLAGS_ALL}.

Definition parse (opt : list Z) : outcome (result NdiscOptionRepr WireError) :=
  _ ←? NdiscOption.check_len opt;
  ty ← NdiscOption.option_type opt;
  n ← NdiscOption.data_len opt;
  match ty with
  | NdiscOptionType.SourceLinkLayerAddr =>
      if 1 <=? n then a ← NdiscOption.link_layer_addr opt; Ret (Ok (OptSourceLinkLayerAddr a)) else Ret (Err Error)
  | NdiscOptionType.TargetLinkLayerAddr =>
      if 1 <=? n then a ← NdiscOption.link_layer_addr opt; Ret (Ok (OptTargetLinkLayerAddr a)) else Ret (Err Error)
  | NdiscOptionType.PrefixInformation =>
      if n =? 4 then
        prefix_len ← NdiscOption.prefix_len opt;
        flags ← NdiscOption.prefix_flags opt;
        valid_lifetime ← NdiscOption.valid_lifetime opt;
        preferred_lifetime ← NdiscOption.preferred_lifetime opt;
        prefix ← NdiscOption.prefix opt;
        Ret (Ok (OptPrefixInformation (mkPrefixInformation _ prefix_len flags valid_lifetime preferred_lifetime prefix)))
      else Ret (Err Error)
  | NdiscOptionType.RedirectedHeader =>
      if n <? 6 then Ret (Err Error) else
      data ← NdiscOption.data opt;
      redirected_packet ← range data 6 (length data);
      ip_packet ←? Ipv6Packet.new_checked redirected_packet;
      ip_repr ←? Ipv6Repr.parse ip_packet;
      rest ← range redirected_packet (Ipv6Repr.buffer_len ip_repr) (length redirected_packet);
      data ← range rest 0 (ih_payload_len ip_repr);
      Ret (Ok (OptRedirectedHeader (mkRedirectedHeader ip_repr data)))
  | NdiscOptionType.Mtu =>
      if n =? 1 then m ← NdiscOption.mtu opt; Ret (Ok (OptMtu m)) else Ret (Err Error)
  | NdiscOptionType.Unknown id =>
      if negb (n =? 0) then data ← NdiscOption.data opt; Ret (Ok (OptUnknown id n data)) else Ret (Err Error)
  end.

(** [(n + 7) / 8] *)
Definition units (n : nat) : nat := ((n + 7) / 8)%nat.

Definition buffer_len (r : NdiscOptionRepr) : nat :=
  match r with
  | OptSourceLinkLayerAddr addr | OptTargetLinkLayerAddr addr => (units (2 + RawHardwareAddress.len addr) * 8)%nat
  | OptPrefixInformation _ => 32
  | OptRedirectedHeader rd => (units (8 + Ipv6Repr.buffer_len (rd_header rd) + length (rd_data rd)) * 8)%nat
  | OptMtu _ => 8
  | OptUnknown _ length _ => NdiscOption.data_end length
  end.

Definition emit_lladdr (ty : NdiscOptionType.t) (addr : RawHardwareAddress.t) (opt : list Z) : outcome (list Z) :=
  opt ← NdiscOption.set_option_type ty opt;
  opt ← NdiscOption.set_data_len (wrap_u 8 (Z.of_nat (units (RawHardwareAddress.len addr + 2)))) opt;
  NdiscOption.set_link_layer_addr addr opt.

Definition emit (r : NdiscOptionRepr) (opt : list Z) : outcome (list Z) :=
  match r with
  | OptSourceLinkLayerAddr addr => emit_lladdr NdiscOptionType.SourceLinkLayerAddr addr opt
  | OptTargetLinkLayerAddr addr => emit_lladdr NdiscOptionType.TargetLinkLayerAddr addr opt
  | OptPrefixInformation info =>
      opt ← NdiscOption.clear_prefix_reserved opt;
      opt ← NdiscOption.set_option_type NdiscOptionType.PrefixInformation opt;
      opt ← NdiscOption.set_data_len 4 opt;
      opt ← NdiscOption.set_prefix_len (pi_prefix_len info) opt;
      opt ← NdiscOption.set_prefix_flags (pi_flags info) opt;
      opt ← NdiscOption.set_valid_lifetime (pi_valid_lifetime info) opt;
      opt ← NdiscOption.set_preferred_lifetime (pi_preferred_lifetime info) opt;
      NdiscOption.set_prefix (pi_prefix info) opt
  | OptRedirectedHeader (mkRedirectedHeader header data) =>
      opt ← NdiscOption.clear_redirected_reserved opt;
      opt ← NdiscOption.set_option_type NdiscOptionType.RedirectedHeader opt;
      opt ← NdiscOption.set_data_len (wrap_u 8 (Z.of_nat (units (8 + Ipv6Repr.buffer_len header + length data)))) opt;
      NdiscOption.with_data_mut (fun d =>
        packet ← range d 6 (length d);
        packet ← Ipv6Repr.emit header packet;
        total_len ← Ipv6Packet.total_len packet;
        packet ← put_slice (Ipv6Packet.header_len packet) total_len data packet;
        Ret (splice d 6 packet)) opt
  | OptMtu mtu =>
      opt ← NdiscOption.set_option_type NdiscOptionType.Mtu opt;
      opt ← NdiscOption.set_data_len 1 opt;
      NdiscOption.set_mtu mtu opt
  | OptUnknown id length data =>
      opt ← NdiscOption.set_option_type (NdiscOptionType.Unknown id) opt;
      opt ← NdiscOption.set_data_len length opt;
      NdiscOption.with_data_mut (fun d => put_slice 0 (List.length d) data d) opt
  end.
End Repr.
End NdiscOptionRepr.

Module NdiscPacket.
Section Accessors.
Context {BO : ByteOrder} {RF : Bitflags ROUTER_FLAGS_ALL} {NF : Bitflags NEIGHBOR_FLAGS_ALL}.
Implicit Types (data : list Z).

Definition current_hop_limit data : outcome Z := get_byte 4 data.
Definition router_flags data : outcome (flags ROUTER_FLAGS_ALL) := b ← get_byte 5 data; Ret (from_bits_truncate b).
Definition router_lifetime data : outcome Duration := n ← get_u16 6 8 data; Duration.from_secs n.
Definition reachable_time data : outcome Duration := n ← get_u32 8 12 data; Duration.from_millis n.
Definition retrans_time data : outcome Duration := n ← get_u32 12 16 data; Duration.from_millis n.
Definition target_addr data : outcome (list Z) := d ← range data 8 24; Ipv6Address.from_bytes d.
Definition neighbor_flags data : outcome (flags NEIGHBOR_FLAGS_ALL) := b ← get_byte 4 data; Ret (from_bits_truncate b).
Definition dest_addr data : outcome (list Z) := d ← range data 24 40; Ipv6Address.from_bytes d.

Definition set_current_hop_limit (value : Z) data : outcome (list Z) := set_byte 4 value data.
Definition set_router_flags (value : flags ROUTER_FLAGS_ALL) data : outcome (list Z) := set_byte 5 (flags_bits value) data.
Definition set_router_lifetime (value : Duration) data : outcome (list Z) := put_u16 6 8 (wrap_u 16 (Duration.secs value)) data.
Definition set_reachable_time (value : Duration) data : outcome (list Z) := put_u32 8 12 (wrap_u 32 (Duration.total_millis value)) data.
Definition set_retrans_time (value : Duration) data : outcome (list Z) := put_u32 12 16 (wrap_u 32 (Duration.total_millis value)) data.
Definition set_target_addr (value : list Z) data : outcome (list Z) := put_slice 8 24 value data.
Definition set_neighbor_flags (value : flags NEIGHBOR_FLAGS_ALL) data : outcome (list Z) := set_byte 4 (flags_bits value) data.
Definition set_dest_addr (value : list Z) data : outcome (list Z) := put_slice 24 40 value data.
End Accessors.
End NdiscPacket.

Inductive NdiscRepr `{RF : Bitflags ROUTER_FLAGS_ALL, NF : Bitflags NEIGHBOR_FLAGS_ALL} :=
| RouterSolicit (lladdr : option RawHardwareAddress.t)
| RouterAdvert (hop_limit : Z) (router_flags : flags ROUTER_FLAGS_ALL)
    (router_lifetime reachable_time retrans_time : Duration)
    (lladdr : option RawHardwareAddress.t) (mtu : option Z) (prefix_info : option NdiscPrefixInformation)
| NeighborSolicit (target_addr : list Z) (lladdr : option RawHardwareAddress.t)
| NeighborAdvert (neighbor_flags : flags NEIGHBOR_FLAGS_ALL) (target_addr : list Z) (lladdr : option RawHardwareAddress.t)
| Redirect (target_addr dest_addr : list Z) (lladdr : option RawHardwareAddress.t) (redirected_hdr : option NdiscRedirectedHeader).

Module NdiscRepr.
Section Repr.
Context {BO : ByteOrder} {BO24 : ByteOrder24} {RF : Bitflags ROUTER_FLAGS_ALL} {NF : Bitflags NEIGHBOR_FLAGS_ALL}.

(** The variables the loop over the options fills. *)
Record found := mkFound {
  src_ll_addr : option RawHardwareAddress.t;
  mtu : option Z;
  prefix_info : option NdiscPrefixInformation;
  target_ll_addr : option RawHardwareAddress.t;
  redirected_hdr : option NdiscRedirectedHeader
}.

#[global] Instance eta_found : Settable found := fun f =>
  mkFound (src_ll_addr f) (mtu f) (prefix_info f) (target_ll_addr f) (redirected_hdr f).

Definition store (opt : NdiscOptionRepr) (f : found) : found :=
  match opt with
  | OptSourceLinkLayerAddr addr => f <| src_ll_addr := Some addr |>
  | OptTargetLinkLayerAddr addr => f <| target_ll_addr := Some addr |>
  | OptPrefixInformation prefix => f <| prefix_info := Some prefix |>
  | OptRedirectedHeader redirect => f <| redirected_hdr := Some redirect |>
  | OptMtu m => f <| mtu := Some m |>
  | _ => f
  end.

(** The loop over the options; every option has at least eight octets. *)
Fixpoint options_loop (fuel : nat) (payload : list Z) (offset : nat) (f : found) : outcome (result found WireError) :=
  if negb (offset <? length payload)%nat then Ret (Ok f) else
  match fuel with
  | O => Panic
  | S fuel =>
      rest ← range payload offset (length payload);
      pkt ←? NdiscOption.new_checked rest;
      opt ← NdiscOptionRepr.parse pkt;
      let f := match opt with Ok opt => store opt f | Err _ => f end in
      n ← NdiscOption.data_len pkt;
      let len := NdiscOption.data_end n in
      if (len =? 0)%nat then Ret (Err Error) else options_loop fuel payload (offset + len) f
  end.

(** The message, given what its options hold. *)
Definition parse_message (packet : list Z) (f : found) : outcome (result NdiscRepr WireError) :=
  msg_type ← Icmpv6Packet.msg_type packet;
  match msg_type with
  | Icmpv6Message.RouterSolicit => Ret (Ok (RouterSolicit (src_ll_addr f)))
  | Icmpv6Message.RouterAdvert =>
      hop_limit ← NdiscPacket.current_hop_limit packet;
      flags ← NdiscPacket.router_flags packet;
      router_lifetime ← NdiscPacket.router_lifetime packet;
      reachable_time ← NdiscPacket.reachable_time packet;
      retrans_time ← NdiscPacket.retrans_time packet;
      Ret (Ok (RouterAdvert hop_limit flags router_lifetime reachable_time retrans_time (src_ll_addr f) (mtu f) (prefix_info f)))
  | Icmpv6Message.NeighborSolicit =>
      target_addr ← NdiscPacket.target_addr packet;
      Ret (Ok (NeighborSolicit target_addr (src_ll_addr f)))
  | Icmpv6Message.NeighborAdvert =>
      flags ← NdiscPacket.neighbor_flags packet;
      target_addr ← NdiscPacket.target_addr packet;
      Ret (Ok (NeighborAdvert flags target_addr (target_ll_addr f)))
  | Icmpv6Message.Redirect =>
      target_addr ← NdiscPacket.target_addr packet;
      dest_addr ← NdiscPacket.dest_addr packet;
      Ret (Ok (Redirect target_addr dest_addr (src_ll_addr f) (redirected_hdr f)))
  | _ => Ret (Err Error)
  end.

Definition parse (packet : list Z) : outcome (result NdiscRepr WireError) :=
  _ ←? Icmpv6Packet.check_len packet;
  payload ← Icmpv6Packet.payload packet;
  f ←? options_loop (length payload) payload 0 (mkFound None None None None None);
  parse_message packet f.

(** The length of an option that may be absent. *)
Definition opt_len (o : option NdiscOptionRepr) : nat :=
  match o with Some r => NdiscOptionRepr.buffer_len r | None => 0 end.

Definition buffer_len (r : NdiscRepr) : nat :=
  match r with
  | RouterSolicit lladdr => 8 + opt_len (OptSourceLinkLayerAddr <$> lladdr)
  | RouterAdvert _ _ _ _ _ lladdr mtu prefix_info =>
      16 + (opt_len (OptTargetLinkLayerAddr <$> lladdr) + opt_len (OptMtu <$> mtu) +
            opt_len (OptPrefixInformation <$> prefix_info))
  | NeighborSolicit _ lladdr | NeighborAdvert _ _ lladdr => 24 + opt_len (OptSourceLinkLayerAddr <$> lladdr)
  | Redirect _ _ lladdr redirected_hdr =>
      40 + opt_len (OptTargetLinkLayerAddr <$> lladdr) + opt_len (OptRedirectedHeader <$> redirected_hdr)
  end%nat.

(** [NdiscOption::new_unchecked(&mut packet.payload_mut()[offset..])] and [emit]. *)
Definition emit_option (o : option NdiscOptionRepr) (offset : nat) (packet : list Z) : outcome (list Z) :=
  match o with
  | None => Ret packet
  | Some r =>
      Icmpv6Packet.with_payload_mut (fun d =>
        opt ← range d offset (length d);
        opt ← NdiscOptionRepr.emit r opt;
        Ret (splice d offset opt)) packet
  end.

Definition emit (r : NdiscRepr) (packet : list Z) : outcome (list Z) :=
  match r with
  | RouterSolicit lladdr =>
      packet ← Icmpv6Packet.set_msg_type Icmpv6Message.RouterSolicit packet;
      packet ← Icmpv6Packet.set_msg_code 0 packet;
      packet ← Icmpv6Packet.clear_reserved packet;
      emit_option (OptSourceLinkLayerAddr <$> lladdr) 0 packet
  | RouterAdvert hop_limit flags router_lifetime reachable_time retrans_time lladdr mtu prefix_info =>
      packet ← Icmpv6Packet.set_msg_type Icmpv6Message.RouterAdvert packet;
      packet ← Icmpv6Packet.set_msg_code 0 packet;
      packet ← NdiscPacket.set_current_hop_limit hop_limit packet;
      packet ← NdiscPacket.set_router_flags flags packet;
      packet ← NdiscPacket.set_router_lifetime router_lifetime packet;
      packet ← NdiscPacket.set_reachable_time reachable_time packet;
      packet ← NdiscPacket.set_retrans_time retrans_time packet;
      let offset := 0%nat in
      packet ← emit_option (OptSourceLinkLayerAddr <$> lladdr) offset packet;
      let offset := (offset + opt_len (OptSourceLinkLayerAddr <$> lladdr))%nat in
      packet ← emit_option (OptMtu <$> mtu) offset packet;
      let offset := (offset + opt_len (OptMtu <$> mtu))%nat in
      emit_option (OptPrefixInformation <$> prefix_info) offset packet
  | NeighborSolicit target_addr lladdr =>
      packet ← Icmpv6Packet.set_msg_type Icmpv6Message.NeighborSolicit packet;
      packet ← Icmpv6Packet.set_msg_code 0 packet;
      packet ← Icmpv6Packet.clear_reserved packet;
      packet ← NdiscPacket.set_target_addr target_addr packet;
      emit_option (OptSourceLinkLayerAddr <$> lladdr) 0 packet
  | NeighborAdvert flags target_addr lladdr =>
      packet ← Icmpv6Packet.set_msg_type Icmpv6Message.NeighborAdvert packet;
      packet ← Icmpv6Packet.set_msg_code 0 packet;
      packet ← Icmpv6Packet.clear_reserved packet;
      packet ← NdiscPacket.set_neighbor_flags flags packet;
      packet ← NdiscPacket.set_target_addr target_addr packet;
      emit_option (OptTargetLinkLayerAddr <$> lladdr) 0 packet
  | Redirect target_addr dest_addr lladdr redirected_hdr =>
      packet ← Icmpv6Packet.set_msg_type Icmpv6Message.Redirect packet;
      packet ← Icmpv6Packet.set_msg_code 0 packet;
      packet ← Icmpv6Packet.clear_reserved packet;
      packet ← NdiscPacket.set_target_addr target_addr packet;
      packet ← NdiscPacket.set_dest_addr dest_addr packet;
      packet ← emit_option (OptTargetLinkLayerAddr <$> lladdr) 0 packet;
      let offset := opt_len (OptTargetLinkLayerAddr <$> lladdr) in
      emit_option (OptRedirectedHeader <$> redirected_hdr) offset packet
  end.
End Repr.
End NdiscRepr.

(** ** Parsing is total *)

(** A link-layer address a message can carry: six octets, or eight in an option of
    more than one unit. *)
Record lladdr_ok (a : RawHardwareAddress.t) : Prop := {
  la_len : RawHardwareAddress.len a = 6%nat \/ RawHardwareAddress.len a = 8%nat;
  la_data : length (RawHardwareAddress.data a) = 8%nat;
  la_bytes : bytes (RawHardwareAddress.data a)
}.

Definition opt_ok {A} (P : A -> Prop) (o : option A) : Prop := match o with Some a => P a | None => True end.

Section Total.
Context {BO : ByteOrder} {NE : NetworkEndian BO} {BO24 : ByteOrder24} {NE24 : NetworkEndian24 BO24}.
Context {RF : Bitflags ROUTER_FLAGS_ALL} {NF : Bitflags NEIGHBOR_FLAGS_ALL}.

Definition option_parsed (r : NdiscOptionRepr) : Prop :=
  match r with
  | OptSourceLinkLayerAddr a | OptTargetLinkLayerAddr a => lladdr_ok a
  | _ => True
  end.

(** What [check_len] establishes. *)
Definition option_lengths (opt : list Z) : Prop :=
  exists n, opt !! 1%nat = Some n /\ byte n /\ (8 <= length opt)%nat /\ (NdiscOption.data_end n <= length opt)%nat.

Lemma option_check_ok opt : bytes opt -> returns (NdiscOption.check_len opt) (fun r => r = Ok () -> option_lengths opt).
Proof.
  intros Hb. unfold NdiscOption.check_len. destruct (Nat.ltb_spec (length opt) 8) as [|H8]; [done|].
  destruct (lookup_lt_is_Some_2 opt 1) as [n Hn]; [lia|]. destruct (lookup_lt_is_Some_2 opt 0) as [t Ht]; [lia|].
  unfold NdiscOption.data_len, NdiscOption.option_type, get_byte. rewrite Hn, Ht. cbn [unwrap mbind outcome_bind].
  destruct (Nat.ltb_spec (length opt) (NdiscOption.data_end n)); [done|]. intros _. exists n. split_and!; try done.
  by eapply bytes_lookup.
Qed.

Lemma raw_from_bytes_ok d : bytes d -> length d = 6%nat \/ length d = 8%nat -> returns (RawHardwareAddress.from_bytes d) lladdr_ok.
Proof.
  intros Hb Hl. unfold RawHardwareAddress.from_bytes, RawHardwareAddress.MAX_HARDWARE_ADDRESS_LEN.
  rewrite range_Ret by (rewrite ?length_replicate; lia). cbn [mbind outcome_bind returns]. constructor; cbn [RawHardwareAddress.len RawHardwareAddress.data].
  - done.
  - rewrite length_splice; rewrite ?length_replicate; lia.
  - unfold splice. apply Forall_app_2; [by apply bytes_take; by_decide|]. apply Forall_app_2; [done|]. apply bytes_drop. by_decide.
Qed.

Lemma link_layer_addr_ok opt n : bytes opt -> opt !! 1%nat = Some n -> 1 <= n -> (NdiscOption.data_end n <= length opt)%nat ->
  returns (NdiscOption.link_layer_addr opt) lladdr_ok.
Proof.
  intros Hb Hn H1 Hl. unfold NdiscOption.link_layer_addr, NdiscOption.data_len, get_byte, NdiscOption.data_end in *.
  rewrite Hn. cbn [unwrap mbind outcome_bind]. rewrite usub_Ret by lia. cbn [mbind outcome_bind].
  unfold RawHardwareAddress.MAX_HARDWARE_ADDRESS_LEN. rewrite range_Ret by lia. cbn [mbind outcome_bind].
  apply raw_from_bytes_ok; [by apply bytes_slice|]. rewrite length_slice. destruct (decide (n = 1)) as [->|]; [left|right]; lia.
Qed.

(** Reading a redirected packet. *)
Lemma redirected_ok (packet : list Z) : bytes packet ->
  returns (ip_packet ←? Ipv6Packet.new_checked packet; ip_repr ←? Ipv6Repr.parse ip_packet;
           rest ← range packet (Ipv6Repr.buffer_len ip_repr) (length packet);
           data ← range rest 0 (ih_payload_len ip_repr);
           Ret (Ok (OptRedirectedHeader (mkRedirectedHeader ip_repr data)) : result NdiscOptionRepr WireError))
    (fun r => forall o, r = Ok o -> option_parsed o).
Proof.
  intros Hb. destruct (ipv6_parse_ok packet Hb) as (res & Hp & Hr). unfold Ipv6Packet.new_checked.
  destruct (Ipv6Packet.check_len packet) as [[[]|e]|] eqn:Hc.
  - cbn [try_bind]. rewrite Hp. destruct res as [r|e]; cbn [try_bind returns]; [|done].
    destruct (Hr r eq_refl) as (_ & _ & payload & Hpl & Hlen). unfold Ipv6Packet.payload in Hpl.
    destruct (Ipv6Packet.total_len packet) as [tl|]; [|done]. cbn [mbind outcome_bind] in Hpl.
    unfold Ipv6Packet.header_len, IPV6_HEADER_LEN, Ipv6Repr.buffer_len in *. apply range_inv in Hpl as [Hl ->].
    rewrite length_slice in Hlen. rewrite range_from by lia. cbn [mbind outcome_bind]. rewrite range_to by (rewrite length_drop; lia).
    cbn. by intros o [= <-].
  - done.
  - unfold Ipv6Repr.parse in Hp. by rewrite Hc in Hp.
Qed.

Lemma ndisc_option_parse_ok opt : bytes opt -> returns (NdiscOptionRepr.parse opt) (fun r => forall o, r = Ok o -> option_parsed o).
Proof.
  intros Hb. unfold NdiscOptionRepr.parse. pose proof (option_check_ok opt Hb) as Hc.
  destruct (NdiscOption.check_len opt) as [[[]|e]|]; cbn [try_bind returns] in *; [|done|done].
  destruct (Hc eq_refl) as (n & Hn & Hbn & H8 & Hl). destruct (lookup_lt_is_Some_2 opt 0) as [t Ht]; [lia|].
  unfold NdiscOption.option_type, get_byte at 1. rewrite Ht. cbn [unwrap mbind outcome_bind].
  assert (NdiscOption.data_len opt = Ret n) as Hdl by (unfold NdiscOption.data_len, get_byte; by rewrite Hn). rewrite Hdl.
  cbn [mbind outcome_bind]. assert (8 * n = Z.of_nat (NdiscOption.data_end n)) as Hde by (unfold NdiscOption.data_end, byte in *; lia).
  destruct (NdiscOptionType.from t).
  - destruct (Z.leb_spec 1 n); [|done]. pose proof (link_layer_addr_ok opt n Hb Hn) as Ha. destruct (NdiscOption.link_layer_addr opt); cbn in *; [|by auto].
    intros o [= <-]. by apply Ha.
  - destruct (Z.leb_spec 1 n); [|done]. pose proof (link_layer_addr_ok opt n Hb Hn) as Ha. destruct (NdiscOption.link_layer_addr opt); cbn in *; [|by auto].
    intros o [= <-]. by apply Ha.
  - destruct (Z.eqb_spec n 4) as [->|]; [|done]. change (NdiscOption.data_end 4) with 32%nat in *.
    unfold NdiscOption.prefix_len, NdiscOption.prefix_flags, NdiscOption.valid_lifetime, NdiscOption.preferred_lifetime, NdiscOption.prefix.
    rewrite !get_byte_ok by lia. cbn [mbind outcome_bind].
    destruct (get_u32_ok 4 8 opt) as (v & -> & Hv); [done|lia|done|]. cbn [mbind outcome_bind]. rewrite from_secs_ok by done. cbn [mbind outcome_bind].
    destruct (get_u32_ok 8 12 opt) as (w & -> & Hw); [done|lia|done|]. cbn [mbind outcome_bind]. rewrite from_secs_ok by done. cbn [mbind outcome_bind].
    rewrite range_Ret by lia. cbn [mbind outcome_bind]. unfold Ipv6Address.from_bytes. rewrite length_slice, Nat.min_l by lia. cbn.
    by intros o [= <-].
  - destruct (Z.ltb_spec n 6); [done|]. unfold NdiscOption.data. rewrite Hdl. cbn [mbind outcome_bind]. rewrite range_Ret by lia.
    cbn [mbind outcome_bind]. rewrite range_Ret by (rewrite ?length_slice; lia). cbn [mbind outcome_bind].
    apply redirected_ok. by apply bytes_slice, bytes_slice.
  - destruct (Z.eqb_spec n 1) as [->|]; [|done]. unfold NdiscOption.mtu. destruct (get_u32_ok 4 8 opt) as (v & -> & Hv); [done|lia|done|].
    cbn. by intros o [= <-].
  - destruct (Z.eqb_spec n 0); [done|]. unfold byte in Hbn. unfold NdiscOption.data. rewrite Hdl. cbn [negb mbind outcome_bind].
    rewrite range_Ret by lia. cbn. by intros o [= <-].
Qed.

(** What the loop has found so far. *)
Definition found_ok (f : NdiscRepr.found) : Prop :=
  opt_ok lladdr_ok (NdiscRepr.src_ll_addr f) /\ opt_ok lladdr_ok (NdiscRepr.target_ll_addr f).

Lemma store_ok o f : option_parsed o -> found_ok f -> found_ok (NdiscRepr.store o f).
Proof. destruct o; cbn; intros Ho [Hs Ht]; by split. Qed.

Lemma options_loop_ok fuel payload offset f : bytes payload -> (length payload - offset <= fuel)%nat -> found_ok f ->
  returns (NdiscRepr.options_loop fuel payload offset f) (fun r => forall f', r = Ok f' -> found_ok f').
Proof.
  intros Hb. revert offset f. induction fuel as [|fuel IH]; intros offset f Hf Hok; cbn [NdiscRepr.options_loop];
    destruct (Nat.ltb_spec offset (length payload)) as [Hlt|]; cbn [negb]; try (by intros f' [= <-]); [lia|].
  rewrite range_from by lia. cbn [mbind outcome_bind]. pose proof (bytes_drop offset payload Hb) as Hbd.
  set (rest := drop offset payload) in *. unfold NdiscOption.new_checked. pose proof (option_check_ok rest Hbd) as Hc.
  destruct (NdiscOption.check_len rest) as [[[]|e]|]; cbn [try_bind returns] in *; [|done|done].
  destruct (Hc eq_refl) as (n & Hn & Hbn & _ & _).
  assert (NdiscOption.data_len rest = Ret n) as Hdl by (unfold NdiscOption.data_len, get_byte; by rewrite Hn). rewrite Hdl.
  cbn [mbind outcome_bind]. destruct (Z.eqb_spec n 0); cbn [try_bind returns]; [done|].
  pose proof (ndisc_option_parse_ok rest Hbd) as Hp. destruct (NdiscOptionRepr.parse rest) as [opt|]; [|done]. cbn [mbind outcome_bind returns] in *.
  rewrite Hdl. cbn [mbind outcome_bind]. unfold byte in Hbn. assert (NdiscOption.data_end n >= 8)%nat by (unfold NdiscOption.data_end; lia).
  rewrite (proj2 (Nat.eqb_neq _ _)) by lia. apply IH; [lia|]. destruct opt as [o|e]; [|done]. apply store_ok; auto.
Qed.

Definition ndisc_parsed (r : NdiscRepr) : Prop :=
  match r with
  | RouterSolicit lladdr => opt_ok lladdr_ok lladdr
  | RouterAdvert hop_limit _ _ _ _ lladdr _ _ => byte hop_limit /\ opt_ok lladdr_ok lladdr
  | NeighborSolicit target_addr lladdr | NeighborAdvert _ target_addr lladdr =>
      address_wf (Ipv6 target_addr) /\ opt_ok lladdr_ok lladdr
  | Redirect target_addr dest_addr lladdr _ =>
      address_wf (Ipv6 target_addr) /\ address_wf (Ipv6 dest_addr) /\ opt_ok lladdr_ok lladdr
  end.

Lemma ndisc_parse_ok packet : bytes packet -> returns (NdiscRepr.parse packet) (fun r => forall n, r = Ok n -> ndisc_parsed n).
Proof.
  intros Hb. unfold NdiscRepr.parse, NdiscRepr.parse_message. pose proof (icmpv6_check_ok packet Hb) as Hc.
  destruct (Icmpv6Packet.check_len packet) as [[[]|e]|]; cbn [try_bind returns] in *; [|done|done].
  destruct (Hc eq_refl) as (H8 & m & hl & Hm & Hhl & Hl). unfold Icmpv6Packet.payload. rewrite Hhl. cbn [mbind outcome_bind].
  rewrite range_from by lia. cbn [mbind outcome_bind].
  pose proof (options_loop_ok (length (drop hl packet)) (drop hl packet) 0 (NdiscRepr.mkFound None None None None None)
    (bytes_drop _ _ Hb) ltac:(lia) ltac:(by split)) as Ho.
  destruct (NdiscRepr.options_loop _ _ _ _) as [[f|e]|]; cbn [try_bind returns] in *; [|done|done].
  destruct (Ho f eq_refl) as [Hs Ht]. rewrite Hm. cbn [mbind outcome_bind].
  unfold Icmpv6Packet.header_len in Hhl. rewrite Hm in Hhl. cbn [mbind outcome_bind] in Hhl. injection Hhl as Hhl.
  unfold NdiscPacket.current_hop_limit, NdiscPacket.router_flags, NdiscPacket.router_lifetime, NdiscPacket.reachable_time,
    NdiscPacket.retrans_time, NdiscPacket.target_addr, NdiscPacket.neighbor_flags, NdiscPacket.dest_addr.
  destruct m; try done; subst hl; cbn [returns].
  - by intros n [= <-].
  - rewrite !get_byte_ok by lia. cbn [mbind outcome_bind].
    destruct (get_u16_ok 6 8 packet) as (v & -> & Hv); [done|lia|done|]. cbn [mbind outcome_bind]. rewrite from_secs_ok by lia. cbn [mbind outcome_bind].
    destruct (get_u32_ok 8 12 packet) as (w & -> & Hw); [done|lia|done|]. cbn [mbind outcome_bind]. rewrite from_millis_ok by done. cbn [mbind outcome_bind].
    destruct (get_u32_ok 12 16 packet) as (x & -> & Hx); [done|lia|done|]. cbn [mbind outcome_bind]. rewrite from_millis_ok by done. cbn.
    intros n [= <-]. split; [|done]. apply (bytes_lookup packet 4); [done|]. apply list_lookup_lookup_total_lt. lia.
  - destruct (ipv6_addr_slice packet 8 24 eq_refl Hb) as [-> Hw]; [lia|]. cbn. by intros n [= <-].
  - rewrite get_byte_ok by lia. cbn [mbind outcome_bind]. destruct (ipv6_addr_slice packet 8 24 eq_refl Hb) as [-> Hw]; [lia|]. cbn. by intros n [= <-].
  - destruct (ipv6_addr_slice packet 8 24 eq_refl Hb) as [-> Hw]; [lia|]. cbn [mbind outcome_bind].
    destruct (ipv6_addr_slice packet 24 40 eq_refl Hb) as [-> Hw']; [lia|]. cbn. by intros n [= <-].
Qed.
End Total.
