(* ===== verification/MldWire.v ===== *)
(** * Multicast listener discovery (src/wire/mld.rs)

    [Module MldPacket] is the fields of the queries and reports, [Module
    MldAddressRecord] the records of a report, [Module MldRepr] the parser and the
    emitter. *)

From S2P Require Import Prelude Bytes Octets Ip Ipv6Wire Icmpv6Wire.
Open Scope Z_scope.

Module MldRecordType.
Inductive t :=
| ModeIsInclude | ModeIsExclude | ChangeToInclude | ChangeToExclude | AllowNewSources | BlockOldSources | Unknown (id : Z).

Definition from (value : Z) : t :=
  if value =? 0x01 then ModeIsInclude
  else if value =? 0x02 then ModeIsExclude
  else if value =? 0x03 then ChangeToInclude
  else if value =? 0x04 then ChangeToExclude
  else if value =? 0x05 then AllowNewSources
  else if value =? 0x06 then BlockOldSources
  else Unknown value.

Definition into (x : t) : Z :=
  match x with
  | ModeIsInclude => 0x01 | ModeIsExclude => 0x02 | ChangeToInclude => 0x03 | ChangeToExclude => 0x04
  | AllowNewSources => 0x05 | BlockOldSources => 0x06 | Unknown other => other
  end.
End MldRecordType.

Module MldPacket.
Section Accessors.
Context {BO : ByteOrder}.
Implicit Types (data : list Z).

Definition max_resp_code data : outcome Z := get_u16 4 6 data.
Definition mcast_addr data : outcome (list Z) := d ← range data 8 24; Ipv6Address.from_bytes d.
Definition s_flag data : outcome bool := b ← get_byte 24 data; Ret (negb (Z.land b 0x08 =? 0)).
Definition qrv data : outcome Z := b ← get_byte 24 data; Ret (Z.land b 0x7).
Definition qqic data : outcome Z := get_byte 25 data.
Definition num_srcs data : outcome Z := get_u16 26 28 data.
Definition nr_mcast_addr_rcrds data : outcome Z := get_u16 6 8 data.

Definition set_max_resp_code (value : Z) data : outcome (list Z) := put_u16 4 6 value data.
Definition set_mcast_addr (value : list Z) data : outcome (list Z) := put_slice 8 24 value data.
Definition set_s_flag data : outcome (list Z) := update_byte 24 (fun current => Z.lor 0x8 (Z.land current 0x7)) data.
Definition clear_s_flag data : outcome (list Z) := update_byte 24 (fun b => Z.land b 0x7) data.
Definition set_qrv (value : Z) data : outcome (list Z) :=
  _ ← rust_assert (value <? 8);
  update_byte 24 (fun b => Z.lor (Z.land b 0x8) (Z.land value 0x7)) data.
Definition set_qqic (value : Z) data : outcome (list Z) := set_byte 25 value data.
Definition set_num_srcs (value : Z) data : outcome (list Z) := put_u16 26 28 value data.
Definition set_nr_mcast_addr_rcrds (value : Z) data : outcome (list Z) := put_u16 6 8 value data.
End Accessors.
End MldPacket.

Module MldAddressRecord.
Section Accessors.
Context {BO : ByteOrder}.
Implicit Types (data : list Z).

Definition check_len data : result unit WireError := if (length data <? 20)%nat then Err Error else Ok ().
Definition new_checked data : result (list Z) WireError :=
  match check_len data with Ok _ => Ok data | Err e => Err e end.

Definition record_type data : outcome MldRecordType.t := b ← get_byte 0 data; Ret (MldRecordType.from b).
Definition aux_data_len data : outcome Z := get_byte 1 data.
Definition num_srcs data : outcome Z := get_u16 2 4 data.
Definition mcast_addr data : outcome (list Z) := d ← range data 4 20; Ipv6Address.from_bytes d.
Definition payload data : outcome (list Z) := range data 20 (length data).

Definition set_record_type (value : MldRecordType.t) data : outcome (list Z) := set_byte 0 (MldRecordType.into value) data.
Definition set_aux_data_len (value : Z) data : outcome (list Z) := set_byte 1 value data.
Definition set_num_srcs (value : Z) data : outcome (list Z) := put_u16 2 4 value data.
Definition set_mcast_addr (addr : list Z) data : outcome (list Z) :=
  _ ← rust_assert (Ipv6Address.is_multicast addr);
  put_slice 4 20 addr data.
End Accessors.
End MldAddressRecord.

Inductive MldRepr :=
| MldQuery (max_resp_code : Z) (mcast_addr : list Z) (s_flag : bool) (qrv qqic num_srcs : Z) (data : list Z)
| MldReport (nr_mcast_addr_rcrds : Z) (data : list Z).

Module MldRepr.
Section Repr.
Context {BO : ByteOrder}.

Definition parse (packet : list Z) : outcome (result MldRepr WireError) :=
  _ ←? Icmpv6Packet.check_len packet;
  msg_type ← Icmpv6Packet.msg_type packet;
  match msg_type with
  | Icmpv6Message.MldQuery =>
      max_resp_code ← MldPacket.max_resp_code packet;
      mcast_addr ← MldPacket.mcast_addr packet;
      s_flag ← MldPacket.s_flag packet;
      qrv ← MldPacket.qrv packet;
      qqic ← MldPacket.qqic packet;
      num_srcs ← MldPacket.num_srcs packet;
      data ← Icmpv6Packet.payload packet;
      Ret (Ok (MldQuery max_resp_code mcast_addr s_flag qrv qqic num_srcs data))
  | Icmpv6Message.MldReport =>
      nr_mcast_addr_rcrds ← MldPacket.nr_mcast_addr_rcrds packet;
      data ← Icmpv6Packet.payload packet;
      Ret (Ok (MldReport nr_mcast_addr_rcrds data))
  | _ => Ret (Err Error)
  end.

Definition buffer_len (r : MldRepr) : nat :=
  match r with
  | MldQuery _ _ _ _ _ _ data => 28 + length data
  | MldReport _ data => 8 + length data
  end%nat.

(** [packet.payload_mut().copy_from_slice(&data[..])] *)
Definition fill_payload (data packet : list Z) : outcome (list Z) :=
  Icmpv6Packet.with_payload_mut (fun d => put_slice 0 (length d) data d) packet.

Definition emit (r : MldRepr) (packet : list Z) : outcome (list Z) :=
  match r with
  | MldQuery max_resp_code mcast_addr s_flag qrv qqic num_srcs data =>
      packet ← Icmpv6Packet.set_msg_type Icmpv6Message.MldQuery packet;
      packet ← Icmpv6Packet.set_msg_code 0 packet;
      packet ← Icmpv6Packet.clear_reserved packet;
      packet ← MldPacket.set_max_resp_code max_resp_code packet;
      packet ← MldPacket.set_mcast_addr mcast_addr packet;
      packet ← (if s_flag then MldPacket.set_s_flag packet else MldPacket.clear_s_flag packet);
      packet ← MldPacket.set_qrv qrv packet;
      packet ← MldPacket.set_qqic qqic packet;
      packet ← MldPacket.set_num_srcs num_srcs packet;
      fill_payload data packet
  | MldReport nr_mcast_addr_rcrds data =>
      packet ← Icmpv6Packet.set_msg_type Icmpv6Message.MldReport packet;
      packet ← Icmpv6Packet.set_msg_code 0 packet;
      packet ← Icmpv6Packet.clear_reserved packet;
      packet ← MldPacket.set_nr_mcast_addr_rcrds nr_mcast_addr_rcrds packet;
      fill_payload data packet
  end.
End Repr.
End MldRepr.

(** ** Parsing is total *)

Definition mld_parsed (r : MldRepr) : Prop :=
  match r with
  | MldQuery code addr _ qrv qqic n data => word code /\ address_wf (Ipv6 addr) /\ 0 <= qrv < 8 /\ byte qqic /\ word n /\ bytes data
  | MldReport n data => word n /\ bytes data
  end.

Lemma mld_parse_ok {BO : ByteOrder} {NE : NetworkEndian BO} packet :
  bytes packet -> returns (MldRepr.parse packet) (fun r => forall m, r = Ok m -> mld_parsed m).
Proof.
  intros Hb. unfold MldRepr.parse. pose proof (icmpv6_check_ok packet Hb) as Hc.
  destruct (Icmpv6Packet.check_len packet) as [[[]|e]|]; cbn [try_bind returns] in *; [|done|done].
  destruct (Hc eq_refl) as (H8 & m & hl & Hm & Hhl & Hl). unfold Icmpv6Packet.payload. rewrite Hhl, Hm. cbn [mbind outcome_bind].
  unfold Icmpv6Packet.header_len in Hhl. rewrite Hm in Hhl. cbn [mbind outcome_bind] in Hhl. injection Hhl as Hhl.
  unfold MldPacket.max_resp_code, MldPacket.mcast_addr, MldPacket.s_flag, MldPacket.qrv, MldPacket.qqic, MldPacket.num_srcs, MldPacket.nr_mcast_addr_rcrds.
  destruct m; try done; subst hl.
  - destruct (get_u16_ok 4 6 packet) as (c & -> & Hcw); [done|lia|done|]. cbn [mbind outcome_bind].
    destruct (ipv6_addr_slice packet 8 24 eq_refl Hb) as [-> Hw]; [lia|]. cbn [mbind outcome_bind]. rewrite !get_byte_ok by lia. cbn [mbind outcome_bind].
    destruct (get_u16_ok 26 28 packet) as (n & -> & Hn); [done|lia|done|]. cbn [mbind outcome_bind]. rewrite range_from by lia. cbn.
    assert (byte (packet !!! 25%nat)) as H25 by (apply (bytes_lookup packet 25); [done|]; apply list_lookup_lookup_total_lt; lia).
    pose proof (Z.land_ones (packet !!! 24%nat) 3 ltac:(lia)) as Ho. change (Z.ones 3) with 7 in Ho.
    pose proof (Z.mod_pos_bound (packet !!! 24%nat) 8 ltac:(lia)). intros r [= <-]. split_and!; try done; try (rewrite Ho; change (2 ^ 3) with 8; lia).
    by apply bytes_drop.
  - destruct (get_u16_ok 6 8 packet) as (n & -> & Hn); [done|lia|done|]. cbn [mbind outcome_bind]. rewrite range_from by lia. cbn.
    intros r [= <-]. split; [done|by apply bytes_drop].
Qed.
