(* ===== verification/Icmpv6Messages.v ===== *)
(** * ICMPv6 messages (src/wire/icmpv6.rs)

    [Module Icmpv6Repr] is the parser and the emitter of whole messages, with neighbor
    discovery and multicast listener discovery. *)

From S2P Require Import Prelude Bytes Octets Phy Time Ip LinkLayer Flags Ipv6Wire Icmpv6Wire NdiscWire MldWire.
Open Scope Z_scope.

Definition IPV6_MIN_MTU : nat := 1280.
Definition MAX_ERROR_PACKET_LEN : nat := IPV6_MIN_MTU - IPV6_HEADER_LEN.

Inductive Icmpv6Repr `{RF : Bitflags ROUTER_FLAGS_ALL, NF : Bitflags NEIGHBOR_FLAGS_ALL} :=
| Icmpv6DstUnreachable (reason : Icmpv6DstUnreachable.t) (header : IpHeader) (data : list Z)
| Icmpv6PktTooBig (mtu : Z) (header : IpHeader) (data : list Z)
| Icmpv6TimeExceeded (reason : Icmpv6TimeExceeded.t) (header : IpHeader) (data : list Z)
| Icmpv6ParamProblem (reason : Icmpv6ParamProblem.t) (pointer : Z) (header : IpHeader) (data : list Z)
| Icmpv6EchoRequest (ident seq_no : Z) (data : list Z)
| Icmpv6EchoReply (ident seq_no : Z) (data : list Z)
| Icmpv6Ndisc (r : NdiscRepr)
| Icmpv6Mld (r : MldRepr).

Module Icmpv6Repr.
Section Repr.
Context {BO : ByteOrder} {BO24 : ByteOrder24} {RF : Bitflags ROUTER_FLAGS_ALL} {NF : Bitflags NEIGHBOR_FLAGS_ALL}.

(** The quoted packet of an error message: the rest of it may be cut off. *)
Definition create_packet_from_payload (packet : list Z) : outcome (result (list Z * IpHeader) WireError) :=
  ip_packet ← Icmpv6Packet.payload packet;
  if negb (IPV6_HEADER_LEN <=? length ip_packet)%nat then Ret (Err Error) else
  payload ← range ip_packet (Ipv6Packet.header_len ip_packet) (length ip_packet);
  src_addr ← Ipv6Packet.src_addr ip_packet;
  dst_addr ← Ipv6Packet.dst_addr ip_packet;
  next_header ← Ipv6Packet.next_header ip_packet;
  payload_len ← Ipv6Packet.payload_len ip_packet;
  hop_limit ← Ipv6Packet.hop_limit ip_packet;
  Ret (Ok (payload, mkIpHeader src_addr dst_addr next_header (Z.to_nat payload_len) hop_limit)).

Definition parse (src_addr dst_addr packet : list Z) (checksum_caps : ChecksumCapabilities) :
    outcome (result Icmpv6Repr WireError) :=
  _ ←? Icmpv6Packet.check_len packet;
  invalid ← (if Checksum.rx (caps_icmpv6 checksum_caps)
             then ok ← Icmpv6Packet.verify_checksum src_addr dst_addr packet; Ret (negb ok)
             else Ret false);
  if invalid : bool then Ret (Err Error) else
  msg_type ← Icmpv6Packet.msg_type packet;
  msg_code ← Icmpv6Packet.msg_code packet;
  match msg_type, msg_code with
  | Icmpv6Message.DstUnreachable, code =>
      '(payload, repr) ←? create_packet_from_payload packet;
      Ret (Ok (Icmpv6DstUnreachable (Icmpv6DstUnreachable.from code) repr payload))
  | Icmpv6Message.PktTooBig, 0 =>
      '(payload, repr) ←? create_packet_from_payload packet;
      mtu ← Icmpv6Packet.pkt_too_big_mtu packet;
      Ret (Ok (Icmpv6PktTooBig mtu repr payload))
  | Icmpv6Message.TimeExceeded, code =>
      '(payload, repr) ←? create_packet_from_payload packet;
      Ret (Ok (Icmpv6TimeExceeded (Icmpv6TimeExceeded.from code) repr payload))
  | Icmpv6Message.ParamProblem, code =>
      '(payload, repr) ←? create_packet_from_payload packet;
      pointer ← Icmpv6Packet.param_problem_ptr packet;
      Ret (Ok (Icmpv6ParamProblem (Icmpv6ParamProblem.from code) pointer repr payload))
  | Icmpv6Message.EchoRequest, 0 =>
      ident ← Icmpv6Packet.echo_ident packet;
      seq_no ← Icmpv6Packet.echo_seq_no packet;
      data ← Icmpv6Packet.payload packet;
      Ret (Ok (Icmpv6EchoRequest ident seq_no data))
  | Icmpv6Message.EchoReply, 0 =>
      ident ← Icmpv6Packet.echo_ident packet;
      seq_no ← Icmpv6Packet.echo_seq_no packet;
      data ← Icmpv6Packet.payload packet;
      Ret (Ok (Icmpv6EchoReply ident seq_no data))
  | msg_type, 0 =>
      if Icmpv6Message.is_ndisc msg_type then
        repr ←? NdiscRepr.parse packet; Ret (Ok (Icmpv6Ndisc repr))
      else if Icmpv6Message.is_mld msg_type then
        repr ←? MldRepr.parse packet; Ret (Ok (Icmpv6Mld repr))
      else Ret (Err Error)
  | _, _ => Ret (Err Error)
  end.

Definition buffer_len (r : Icmpv6Repr) : nat :=
  match r with
  | Icmpv6DstUnreachable _ header data | Icmpv6PktTooBig _ header data | Icmpv6TimeExceeded _ header data
  | Icmpv6ParamProblem _ _ header data => (8 + Ipv6Repr.buffer_len header + length data) `min` MAX_ERROR_PACKET_LEN
  | Icmpv6EchoRequest _ _ data | Icmpv6EchoReply _ _ data => 8 + length data
  | Icmpv6Ndisc ndisc => NdiscRepr.buffer_len ndisc
  | Icmpv6Mld mld => MldRepr.buffer_len mld
  end%nat.

Definition emit_contained_packet (packet : list Z) (header : IpHeader) (data : list Z) : outcome (list Z) :=
  icmp_header_len ← Icmpv6Packet.header_len packet;
  Icmpv6Packet.with_payload_mut (fun ip_packet =>
    ip_packet ← Ipv6Repr.emit header ip_packet;
    payload ← range ip_packet (Ipv6Repr.buffer_len header) (length ip_packet);
    let payload_len := (length data `min` (MAX_ERROR_PACKET_LEN - icmp_header_len - IPV6_HEADER_LEN))%nat in
    d ← range data 0 payload_len;
    payload ← put_slice 0 payload_len d payload;
    Ret (splice ip_packet (Ipv6Repr.buffer_len header) payload)) packet.

Definition emit_echo (msg_type : Icmpv6Message.t) (ident seq_no : Z) (data packet : list Z) : outcome (list Z) :=
  packet ← Icmpv6Packet.set_msg_type msg_type packet;
  packet ← Icmpv6Packet.set_msg_code 0 packet;
  packet ← Icmpv6Packet.set_echo_ident ident packet;
  packet ← Icmpv6Packet.set_echo_seq_no seq_no packet;
  Icmpv6Packet.with_payload_mut (fun payload_mut =>
    let data_len := (length payload_mut `min` length data)%nat in
    d ← range data 0 data_len;
    put_slice 0 data_len d payload_mut) packet.

(** The message, without its checksum. *)
Definition emit_message (r : Icmpv6Repr) (packet : list Z) : outcome (list Z) :=
  match r with
  | Icmpv6DstUnreachable reason header data =>
      packet ← Icmpv6Packet.set_msg_type Icmpv6Message.DstUnreachable packet;
      packet ← Icmpv6Packet.set_msg_code (Icmpv6DstUnreachable.into reason) packet;
      emit_contained_packet packet header data
  | Icmpv6PktTooBig mtu header data =>
      packet ← Icmpv6Packet.set_msg_type Icmpv6Message.PktTooBig packet;
      packet ← Icmpv6Packet.set_msg_code 0 packet;
      packet ← Icmpv6Packet.set_pkt_too_big_mtu mtu packet;
      emit_contained_packet packet header data
  | Icmpv6TimeExceeded reason header data =>
      packet ← Icmpv6Packet.set_msg_type Icmpv6Message.TimeExceeded packet;
      packet ← Icmpv6Packet.set_msg_code (Icmpv6TimeExceeded.into reason) packet;
      emit_contained_packet packet header data
  | Icmpv6ParamProblem reason pointer header data =>
      packet ← Icmpv6Packet.set_msg_type Icmpv6Message.ParamProblem packet;
      packet ← Icmpv6Packet.set_msg_code (Icmpv6ParamProblem.into reason) packet;
      packet ← Icmpv6Packet.set_param_problem_ptr pointer packet;
      emit_contained_packet packet header data
  | Icmpv6EchoRequest ident seq_no data => emit_echo Icmpv6Message.EchoRequest ident seq_no data packet
  | Icmpv6EchoReply ident seq_no data => emit_echo Icmpv6Message.EchoReply ident seq_no data packet
  | Icmpv6Ndisc ndisc => NdiscRepr.emit ndisc packet
  | Icmpv6Mld mld => MldRepr.emit mld packet
  end.

Definition emit (r : Icmpv6Repr) (src_addr dst_addr packet : list Z) (checksum_caps : ChecksumCapabilities) :
    outcome (list Z) :=
  packet ← emit_message r packet;
  if Checksum.tx (caps_icmpv6 checksum_caps) then Icmpv6Packet.fill_checksum src_addr dst_addr packet
  else Icmpv6Packet.set_checksum 0 packet.
End Repr.
End Icmpv6Repr.
