(* ===== verification/NdiscProps.v ===== *)
(** * Neighbor discovery messages read back *)

From S2P Require Import Prelude Bytes Octets Time Ip LinkLayer Flags Ipv6Wire Icmpv6Wire NdiscWire.
Open Scope Z_scope.

(** Link-layer addresses of Ethernet and extended addresses of IEEE 802.15.4. *)
Definition lladdr_wf (a : RawHardwareAddress.t) : Prop :=
  exists o, (length o = 6%nat \/ length o = 8%nat) /\ bytes o /\ RawHardwareAddress.from_bytes o = Ret a.

(** A flag word without other bits. *)
Definition flags_wf {all} {F : Bitflags all} (f : flags all) : Prop := from_bits_truncate (flags_bits f) = f.

(** A number of seconds that fits the field. *)
Definition seconds (max : Z) (d : Duration) : Prop := exists n, 0 <= n <= max /\ d = n * 1000000.
Definition millis (d : Duration) : Prop := exists n, 0 <= n <= U32_MAX /\ d = n * 1000.

Section Options.
Context {BO : ByteOrder} {NE : NetworkEndian BO} {BO24 : ByteOrder24} {NE24 : NetworkEndian24 BO24}.
Context {RF : Bitflags ROUTER_FLAGS_ALL} {NF : Bitflags NEIGHBOR_FLAGS_ALL}.
Context {RFL : BitflagsLaws RF} {NFL : BitflagsLaws NF}.

Record prefix_wf (i : NdiscPrefixInformation) : Prop := {
  pw_len : byte (pi_prefix_len i);
  pw_flags : flags_wf (pi_flags i);
  pw_valid : seconds U32_MAX (pi_valid_lifetime i);
  pw_preferred : seconds U32_MAX (pi_preferred_lifetime i);
  pw_prefix : address_wf (Ipv6 (pi_prefix i))
}.

(** The quoted packet is whole, and the option's length fits its field. *)
Record redirected_wf (rd : NdiscRedirectedHeader) : Prop := {
  rw_header : ipv6_repr_wf (rd_header rd);
  rw_len : ih_payload_len (rd_header rd) = length (rd_data rd);
  rw_data : bytes (rd_data rd);
  rw_fits : (length (rd_data rd) <= 1992)%nat
}.

Definition option_wf (r : NdiscOptionRepr) : Prop :=
  match r with
  | OptSourceLinkLayerAddr a | OptTargetLinkLayerAddr a => lladdr_wf a
  | OptPrefixInformation i => prefix_wf i
  | OptRedirectedHeader rd => redirected_wf rd
  | OptMtu m => 0 <= m <= U32_MAX
  | OptUnknown _ _ _ => False
  end.

(** The octets [o] read as the option [r], whatever follows. *)
Record reads_as (o : list Z) (r : NdiscOptionRepr) : Prop := {
  ra_min : (8 <= length o)%nat;
  ra_checked t : NdiscOption.new_checked (o ++ t) = Ret (Ok (o ++ t));
  ra_parse t : NdiscOptionRepr.parse (o ++ t) = Ret (Ok r);
  ra_len : exists n, o !! 1%nat = Some n /\ NdiscOption.data_end n = length o
}.

Lemma flags_byte {all} {F : Bitflags all} {FL : BitflagsLaws F} (f : flags all) :
  0 <= all <= 255 -> flags_wf f -> byte (flags_bits f).
Proof.
  intros Ha Hf. rewrite <- Hf, bits_truncate. pose proof (Z.land_nonneg (flags_bits f) all) as Hn.
  assert (0 <= Z.land (flags_bits f) all) by (apply Hn; lia). split; [done|].
  destruct (decide (Z.land (flags_bits f) all = 0)); [lia|].
  assert (Z.log2 (Z.land (flags_bits f) all) <= Z.log2 all) as Hlog.
  { apply Z.log2_le_mono. apply Z.ldiff_le; [lia|]. rewrite <- Z.land_assoc || idtac.
    apply Z.bits_inj'. intros k Hk. rewrite Z.ldiff_spec, Z.land_spec, Z.bits_0. destruct (Z.testbit (flags_bits f) k), (Z.testbit all k); done. }
  assert (Z.log2 all <= 7) by (change 7 with (Z.log2 255); apply Z.log2_le_mono; lia).
  assert (Z.land (flags_bits f) all < 2 ^ 8) by (apply Z.log2_lt_pow2; lia). lia.
Qed.

(** Reading the length of an option. *)
Lemma option_len_of o n t : o !! 1%nat = Some n -> NdiscOption.data_len (o ++ t) = Ret n.
Proof. intros H. unfold NdiscOption.data_len, get_byte. by rewrite lookup_app_l, H by (by eapply lookup_lt_Some). Qed.

Lemma option_checked_by o t ty n : o !! 0%nat = Some ty -> o !! 1%nat = Some n -> (8 <= length o)%nat ->
  NdiscOption.data_end n = length o -> n <> 0 ->
  (NdiscOptionType.from ty = NdiscOptionType.PrefixInformation -> (32 <= length o)%nat) ->
  (NdiscOptionType.from ty = NdiscOptionType.RedirectedHeader -> (48 <= length o)%nat) ->
  NdiscOption.check_len (o ++ t) = Ret (Ok ()) /\ NdiscOption.new_checked (o ++ t) = Ret (Ok (o ++ t)) /\
  NdiscOption.option_type (o ++ t) = Ret (NdiscOptionType.from ty).
Proof.
  intros Ht Hn H8 He H0 Hp Hr. assert (NdiscOption.option_type (o ++ t) = Ret (NdiscOptionType.from ty)) as Hty
    by (unfold NdiscOption.option_type, get_byte; by rewrite lookup_app_l, Ht by (by eapply lookup_lt_Some)).
  pose proof (option_len_of o n t Hn) as Hl.
  assert (NdiscOption.check_len (o ++ t) = Ret (Ok ())) as Hc.
  { unfold NdiscOption.check_len. rewrite length_app, (proj2 (Nat.ltb_ge _ _)), Hl by lia. cbn [mbind outcome_bind].
    rewrite He, (proj2 (Nat.ltb_ge _ _)), Hty by lia. cbn [mbind outcome_bind].
    destruct (NdiscOptionType.from ty); try done; rewrite (proj2 (Nat.leb_le _ _)) by auto; done. }
  split; [done|]. split; [|done]. unfold NdiscOption.new_checked. rewrite Hc. cbn [try_bind]. rewrite Hl. cbn [mbind outcome_bind].
  by rewrite (proj2 (Z.eqb_neq _ _)).
Qed.

Lemma raw_octets oc a : length oc = 6%nat \/ length oc = 8%nat -> RawHardwareAddress.from_bytes oc = Ret a ->
  RawHardwareAddress.len a = length oc /\ RawHardwareAddress.as_bytes a = Ret oc.
Proof.
  intros Hlen Hfrom. unfold RawHardwareAddress.from_bytes in Hfrom.
  rewrite range_Ret in Hfrom by (rewrite ?length_replicate; unfold RawHardwareAddress.MAX_HARDWARE_ADDRESS_LEN; lia).
  cbn [mbind outcome_bind] in Hfrom. injection Hfrom as <-. split; [done|]. unfold RawHardwareAddress.as_bytes.
  cbn [RawHardwareAddress.len RawHardwareAddress.data]. unfold splice. rewrite take_0. cbn [app]. rewrite range_to by (rewrite length_app; lia).
  by rewrite take_app_length.
Qed.

Lemma lladdr_reads ty a oc pad n (o := NdiscOptionType.into ty :: n :: oc ++ pad) :
  (ty = NdiscOptionType.SourceLinkLayerAddr \/ ty = NdiscOptionType.TargetLinkLayerAddr) ->
  RawHardwareAddress.from_bytes oc = Ret a -> (n = 1 /\ length oc = 6%nat \/ n = 2 /\ length oc = 8%nat) ->
  length o = (Z.to_nat n * 8)%nat ->
  reads_as o (match ty with NdiscOptionType.SourceLinkLayerAddr => OptSourceLinkLayerAddr a | _ => OptTargetLinkLayerAddr a end).
Proof.
  intros Hty Hfrom Hn Hlo.
  assert (NdiscOptionType.from (NdiscOptionType.into ty) = ty) as Hft by (destruct Hty; by subst ty).
  assert (forall t, NdiscOption.check_len (o ++ t) = Ret (Ok ()) /\ NdiscOption.new_checked (o ++ t) = Ret (Ok (o ++ t)) /\
    NdiscOption.option_type (o ++ t) = Ret ty) as Hchk.
  { intros t. rewrite <- Hft at 1. apply (option_checked_by o t (NdiscOptionType.into ty) n); try done; try lia;
      rewrite Hft; destruct Hty; by subst ty. }
  constructor; [lia|intros t; apply Hchk|intros t|exists n; split; [done|unfold NdiscOption.data_end; lia]].
  destruct (Hchk t) as (Hc & _ & Ht). unfold NdiscOptionRepr.parse. rewrite Hc. cbn [try_bind]. rewrite Ht. cbn [mbind outcome_bind].
  rewrite (option_len_of o n t) by done. cbn [mbind outcome_bind].
  assert (NdiscOption.link_layer_addr (o ++ t) = Ret a) as ->.
  { unfold NdiscOption.link_layer_addr. rewrite (option_len_of o n t) by done. cbn [mbind outcome_bind].
    rewrite usub_Ret by lia. cbn [mbind outcome_bind]. unfold RawHardwareAddress.MAX_HARDWARE_ADDRESS_LEN.
    replace (8 `min` Z.to_nat (n * 8 - 2))%nat with (length oc) by lia.
    rewrite range_Ret by (rewrite ?length_app; lia). cbn [mbind outcome_bind].
    assert (slice (o ++ t) 2 (length oc + 2 - 2) = oc) as ->; [|done]. unfold slice, o. cbn [app drop]. rewrite drop_0, <- app_assoc.
    rewrite take_app_length' by lia. done. }
  assert (1 <=? n = true) as -> by (apply Z.leb_le; lia). destruct Hty; by subst ty.
Qed.

(** What is written for a link-layer address: the padding is what the buffer held. *)
Lemma lladdr_emit_ok ty a opt (bl := (NdiscOptionRepr.units (2 + RawHardwareAddress.len a) * 8)%nat) :
  (ty = NdiscOptionType.SourceLinkLayerAddr \/ ty = NdiscOptionType.TargetLinkLayerAddr) ->
  lladdr_wf a -> bytes opt -> (bl <= length opt)%nat ->
  exists o, NdiscOptionRepr.emit_lladdr ty a opt = Ret (o ++ drop bl opt) /\ length o = bl /\ bytes o /\
    reads_as o (match ty with NdiscOptionType.SourceLinkLayerAddr => OptSourceLinkLayerAddr a | _ => OptTargetLinkLayerAddr a end).
Proof.
  intros Hty (oc & Hlen & Hboc & Hfrom) Hb Hl. destruct (raw_octets oc a Hlen Hfrom) as [Hla Hab]. unfold bl in *. rewrite Hla in *.
  assert (8 <= length opt)%nat as Hmin
    by (destruct Hlen as [E|E]; rewrite E in Hl; [change (8 <= length opt)%nat in Hl|change (16 <= length opt)%nat in Hl]; lia).
  destruct opt as [|b0 [|b1 opt]]; [cbn in Hmin; lia..|].
  apply Forall_cons_1 in Hb as [Hb0 Hb]. apply Forall_cons_1 in Hb as [Hb1 Hb].
  set (n := Z.of_nat (NdiscOptionRepr.units (length oc + 2))). set (u := NdiscOptionRepr.units (2 + length oc)) in *.
  assert ((n = 1 /\ length oc = 6%nat /\ u = 1%nat) \/ (n = 2 /\ length oc = 8%nat /\ u = 2%nat)) as Hn
    by (unfold n, u; destruct Hlen as [E|E]; rewrite E; [left|right]; done).
  assert (byte (NdiscOptionType.into ty)) as Hbt by (destruct Hty; subst ty; unfold byte; cbn; lia).
  set (pad := take (u * 8 - 2 - length oc) (drop (length oc) opt)).
  assert (length pad = (u * 8 - 2 - length oc)%nat) as Hpad by (unfold pad; rewrite length_take, length_drop; cbn [length] in Hl; lia).
  set (o := NdiscOptionType.into ty :: n :: oc ++ pad).
  assert (wrap_u 8 (Z.of_nat (NdiscOptionRepr.units (length oc + 2))) = n) as Hwr
    by (fold n; unfold wrap_u; destruct Hn as [(-> & _)|(-> & _)]; done).
  clearbody n u. assert (length o = (u * 8)%nat) as Hlo by (unfold o; cbn [length]; rewrite length_app, Hpad; lia).
  exists o. split; [|split; [done|split]].
  - unfold NdiscOptionRepr.emit_lladdr, NdiscOption.set_option_type, NdiscOption.set_data_len, NdiscOption.set_link_layer_addr.
    rewrite set_octet by (cbn; lia). cbn [mbind outcome_bind]. rewrite set_octet by (cbn; lia). cbn [mbind outcome_bind insert list_insert].
    rewrite Hla, Hab, Hwr. cbn [mbind outcome_bind]. rewrite put_slice_ok by (cbn [length] in *; lia).
    cbn [take drop app]. rewrite take_0. unfold o. cbn [app]. do 3 f_equal. rewrite <- app_assoc. f_equal.
    change (drop (2 + length oc) (NdiscOptionType.into ty :: n :: opt)) with (drop (length oc) opt).
    rewrite <- (take_drop (u * 8 - 2 - length oc) (drop (length oc) opt)). fold pad. f_equal. rewrite drop_drop.
    replace (u * 8)%nat with (S (S (u * 8 - 2))) at 2 by lia. cbn [drop]. f_equal. lia.
  - apply Forall_cons_2; [done|]. apply Forall_cons_2; [unfold byte; lia|]. apply Forall_app_2; [done|].
    by apply bytes_take, bytes_drop.
  - apply lladdr_reads; try done; [lia|]. fold o. lia.
Qed.

Lemma mtu_emit_ok m opt : 0 <= m <= U32_MAX -> (8 <= length opt)%nat ->
  NdiscOptionRepr.emit (OptMtu m) opt = Ret ((5 :: 1 :: slice opt 2 2 ++ be32 m) ++ drop 8 opt).
Proof.
  intros Hm Hl. do 8 (destruct opt as [|? opt]; [cbn in Hl; lia|]). cbn [NdiscOptionRepr.emit].
  unfold NdiscOption.set_option_type, NdiscOption.set_data_len, NdiscOption.set_mtu. rewrite set_octet by (cbn; lia). cbn [mbind outcome_bind].
  rewrite set_octet by (cbn; lia). cbn [mbind outcome_bind]. by rewrite put_u32_octets by (cbn; done || lia).
Qed.

Lemma mtu_reads m x y : 0 <= m <= U32_MAX -> reads_as (5 :: 1 :: x :: y :: be32 m) (OptMtu m).
Proof.
  intros Hm. set (o := 5 :: 1 :: x :: y :: be32 m).
  assert (forall t, NdiscOption.check_len (o ++ t) = Ret (Ok ()) /\ NdiscOption.new_checked (o ++ t) = Ret (Ok (o ++ t)) /\
    NdiscOption.option_type (o ++ t) = Ret NdiscOptionType.Mtu) as Hchk by (intros t; apply (option_checked_by o t 5 1); done || cbn; lia).
  constructor; [cbn; lia|intros t; apply Hchk|intros t|by exists 1].
  destruct (Hchk t) as (Hc & _ & Ht). unfold NdiscOptionRepr.parse. rewrite Hc. cbn [try_bind]. rewrite Ht. cbn [mbind outcome_bind].
  rewrite (option_len_of o 1 t) by done. cbn [mbind outcome_bind]. rewrite Z.eqb_refl. unfold NdiscOption.mtu.
  change (o ++ t) with ([5; 1; x; y] ++ be32 m ++ t). by rewrite get_u32_at.
Qed.

Definition prefix_octets (i : NdiscPrefixInformation) : list Z :=
  [3; 4; pi_prefix_len i; flags_bits (pi_flags i)] ++ be32 (pi_valid_lifetime i / 1000000) ++
  be32 (pi_preferred_lifetime i / 1000000) ++ [0; 0; 0; 0] ++ pi_prefix i.

Lemma prefix_emit_ok i opt : prefix_wf i -> (32 <= length opt)%nat ->
  NdiscOptionRepr.emit (OptPrefixInformation i) opt = Ret (prefix_octets i ++ drop 32 opt).
Proof.
  intros [_ _ (v & Hv & Ev) (w & Hw & Ew) [Hp _]] Hl. do 16 (destruct opt as [|? opt]; [cbn in Hl; lia|]). cbn [length] in Hl. cbn [NdiscOptionRepr.emit].
  unfold NdiscOption.clear_prefix_reserved, NdiscOption.set_option_type, NdiscOption.set_data_len, NdiscOption.set_prefix_len, NdiscOption.set_prefix_flags,
    NdiscOption.set_valid_lifetime, NdiscOption.set_preferred_lifetime, NdiscOption.set_prefix, Duration.secs.
  unfold prefix_octets. rewrite Ev, Ew, !Z.div_mul by lia. unfold wrap_u. rewrite !Z.mod_small by lia.
  rewrite put_u32_octets by (cbn [length]; done || lia). cbn [mbind outcome_bind take drop app be32].
  do 4 (rewrite set_octet by (cbn [length]; lia); cbn [mbind outcome_bind insert list_insert]).
  rewrite put_u32_octets by (cbn [length]; done || lia). cbn [mbind outcome_bind take drop app be32].
  rewrite put_u32_octets by (cbn [length]; done || lia). cbn [mbind outcome_bind take drop app be32].
  rewrite drop_0, put_slice_ok by (cbn [length]; lia). cbn [take drop app]. rewrite take_0. cbn [app]. done.
Qed.

Lemma length_prefix_octets i : prefix_wf i -> length (prefix_octets i) = 32%nat.
Proof. intros [_ _ _ _ [Hp _]]. unfold prefix_octets. rewrite !length_app, Hp. done. Qed.

Lemma prefix_reads i : prefix_wf i -> reads_as (prefix_octets i) (OptPrefixInformation i).
Proof.
  intros Hi. pose proof (length_prefix_octets i Hi) as Hlo. set (o := prefix_octets i) in *.
  assert (forall t, NdiscOption.check_len (o ++ t) = Ret (Ok ()) /\ NdiscOption.new_checked (o ++ t) = Ret (Ok (o ++ t)) /\
    NdiscOption.option_type (o ++ t) = Ret NdiscOptionType.PrefixInformation) as Hchk.
  { intros t. apply (option_checked_by o t 3 4); try done; rewrite ?Hlo; done || lia. }
  constructor; [lia|intros t; apply Hchk|intros t|exists 4; split; [done|by rewrite Hlo]].
  destruct (Hchk t) as (Hc & _ & Ht). unfold NdiscOptionRepr.parse. rewrite Hc. cbn [try_bind]. rewrite Ht. cbn [mbind outcome_bind].
  rewrite (option_len_of o 4 t) by done. cbn [mbind outcome_bind]. rewrite Z.eqb_refl. destruct Hi as [_ Hf (v & Hv & Ev) (w & Hw & Ew) [Hp _]].
  unfold NdiscOption.prefix_len, NdiscOption.prefix_flags, NdiscOption.valid_lifetime, NdiscOption.preferred_lifetime, NdiscOption.prefix.
  change (get_byte 2 (o ++ t)) with (Ret (pi_prefix_len i)). change (get_byte 3 (o ++ t)) with (Ret (flags_bits (pi_flags i))). cbn [mbind outcome_bind].
  assert (o = [3; 4; pi_prefix_len i; flags_bits (pi_flags i)] ++ be32 v ++ be32 w ++ [0; 0; 0; 0] ++ pi_prefix i) as ->
    by (unfold o, prefix_octets; by rewrite Ev, Ew, !Z.div_mul by lia).
  rewrite <- !app_assoc. rewrite (get_u32_at _ v _ 4 8) by done. cbn [mbind outcome_bind]. rewrite from_secs_ok by done. cbn [mbind outcome_bind].
  rewrite (app_assoc _ (be32 v)). rewrite (get_u32_at _ w _ 8 12) by done. cbn [mbind outcome_bind]. rewrite from_secs_ok by done. cbn [mbind outcome_bind].
  rewrite range_Ret by (rewrite ?length_app, ?Hp; cbn; lia). cbn [mbind outcome_bind]. unfold Ipv6Address.from_bytes.
  assert (slice (([3; 4; pi_prefix_len i; flags_bits (pi_flags i)] ++ be32 v) ++ be32 w ++ [0; 0; 0; 0] ++ pi_prefix i ++ t) 16 (32 - 16) = pi_prefix i) as ->.
  { unfold slice. cbn [app be32 drop Nat.sub]. rewrite drop_0. by rewrite take_app_length'. }
  rewrite Hp. cbn [Nat.eqb mbind outcome_bind]. rewrite Hf, <- Ev, <- Ew. by destruct i.
Qed.

(** The packet a redirect quotes, and what the buffer held behind it. *)
Definition redirected_octets (rd : NdiscRedirectedHeader) (n : Z) (pad : list Z) : list Z :=
  4 :: n :: replicate 6 0 ++ ipv6_octets (rd_header rd) ++ rd_data rd ++ pad.

Lemma ipv6_check_octets r rest : ipv6_repr_wf r -> (ih_payload_len r <= length rest)%nat ->
  Ipv6Packet.new_checked (ipv6_octets r ++ rest) = Ret (Ok (ipv6_octets r ++ rest)).
Proof.
  intros Hr Hl. destruct (ipv6_parse_octets r rest Hr Hl) as [Hp _]. unfold Ipv6Repr.parse in Hp. unfold Ipv6Packet.new_checked.
  by destruct (Ipv6Packet.check_len (ipv6_octets r ++ rest)) as [[[]|]|].
Qed.

Lemma bytes_ipv6_octets r : ipv6_repr_wf r -> bytes (ipv6_octets r).
Proof.
  intros [[_ Hs] [_ Hd] [Hn _] Hl Hh]. unfold ipv6_octets. repeat apply Forall_app_2; try done.
  - by_decide.
  - by apply be16_bytes.
  - by repeat apply Forall_cons_2.
Qed.

Lemma redirected_reads rd n pad : redirected_wf rd -> (0 <= n <= 255) ->
  (Z.to_nat n * 8 = 48 + length (rd_data rd) + length pad)%nat -> reads_as (redirected_octets rd n pad) (OptRedirectedHeader rd).
Proof.
  intros [Hh Hl Hd Hf] Hn Hlen. pose proof (length_ipv6_octets _ Hh) as H40. set (o := redirected_octets rd n pad).
  assert (length o = (Z.to_nat n * 8)%nat) as Hlo by (unfold o, redirected_octets; cbn [length app replicate]; rewrite !length_app, H40; lia).
  assert (forall t, NdiscOption.check_len (o ++ t) = Ret (Ok ()) /\ NdiscOption.new_checked (o ++ t) = Ret (Ok (o ++ t)) /\
    NdiscOption.option_type (o ++ t) = Ret NdiscOptionType.RedirectedHeader) as Hchk.
  { intros t. apply (option_checked_by o t 4 n); done || lia. }
  constructor; [lia|intros t; apply Hchk|intros t|by exists n].
  destruct (Hchk t) as (Hc & _ & Ht). unfold NdiscOptionRepr.parse, NdiscOption.data. rewrite Hc. cbn [try_bind]. rewrite Ht. cbn [mbind outcome_bind].
  rewrite (option_len_of o n t) by done. cbn [mbind outcome_bind]. rewrite (proj2 (Z.ltb_ge _ _)) by lia. unfold NdiscOption.data_end.
  rewrite range_Ret by (rewrite ?length_app; lia). cbn [mbind outcome_bind].
  assert (slice (o ++ t) 2 (Z.to_nat n * 8 - 2) = drop 2 o) as ->.
  { unfold slice. rewrite drop_app_le by lia. rewrite take_app_length' by (rewrite length_drop; lia). done. }
  rewrite range_from by (rewrite length_drop; lia). cbn [mbind outcome_bind]. rewrite drop_drop.
  change (drop (2 + 6) o) with (drop 0 (ipv6_octets (rd_header rd) ++ rd_data rd ++ pad)). rewrite drop_0, ipv6_check_octets by (done || rewrite length_app; lia).
  cbn [try_bind]. destruct (ipv6_parse_octets (rd_header rd) (rd_data rd ++ pad) Hh) as [-> _]; [rewrite length_app; lia|]. cbn [try_bind].
  change (Ipv6Repr.buffer_len (rd_header rd)) with 40%nat. rewrite range_from by (rewrite length_app; lia). cbn [mbind outcome_bind].
  rewrite drop_app_length', Hl by done. rewrite range_to by (rewrite length_app; lia). cbn [mbind outcome_bind]. rewrite take_app_length. by destruct rd.
Qed.


(** The closure that fills the option. *)
Lemma quote_ok {B} h data p (k : list Z -> outcome B) : ipv6_repr_wf h -> ih_payload_len h = length data -> bytes p -> (40 + length data <= length p)%nat ->
  (packet ← Ipv6Repr.emit h p;
   total_len ← Ipv6Packet.total_len packet;
   packet ← put_slice (Ipv6Packet.header_len packet) total_len data packet;
   k packet) = k (ipv6_octets h ++ data ++ drop (40 + length data) p).
Proof.
  intros Hh Hpl Hb Hl. pose proof (length_ipv6_octets _ Hh) as H40. rewrite ipv6_emit_octets by (done || lia). cbn [mbind outcome_bind].
  destruct (ipv6_fields h (drop 40 p) Hh) as (_ & Hf & _). unfold Ipv6Packet.total_len. rewrite Hf. cbn [mbind outcome_bind].
  unfold Ipv6Packet.header_len, IPV6_HEADER_LEN. rewrite Nat2Z.id, Hpl. rewrite put_slice_ok by (rewrite ?length_app, ?length_drop; lia).
  rewrite take_app_length' by done. rewrite drop_app_ge, H40 by lia. rewrite drop_drop. cbn [mbind outcome_bind]. do 4 f_equal. lia.
Qed.

Lemma redirected_emit_ok rd opt (u := NdiscOptionRepr.units (48 + length (rd_data rd))) :
  redirected_wf rd -> bytes opt -> (u * 8 <= length opt)%nat ->
  exists pad, (u * 8 = 48 + length (rd_data rd) + length pad)%nat /\ bytes pad /\
  NdiscOptionRepr.emit (OptRedirectedHeader rd) opt = Ret (redirected_octets rd (Z.of_nat u) pad ++ drop (u * 8) opt).
Proof.
  intros [Hh Hpl Hd Hf] Hb Hl.
  assert (48 + length (rd_data rd) <= u * 8 <= 48 + length (rd_data rd) + 7)%nat as Hu.
  { unfold u, NdiscOptionRepr.units. pose proof (Nat.div_mod (48 + length (rd_data rd) + 7) 8 ltac:(lia)) as E.
    pose proof (Nat.mod_upper_bound (48 + length (rd_data rd) + 7) 8 ltac:(lia)). lia. }
  do 8 (destruct opt as [|? opt]; [cbn [length] in Hl; lia|]). cbn [length] in Hl. do 8 (apply Forall_cons_1 in Hb as [_ Hb]).
  destruct rd as [h data]. cbn [rd_header rd_data] in *. set (p := take (u * 8 - 8) opt).
  assert (length p = u * 8 - 8)%nat as Hp by (unfold p; rewrite length_take; lia). assert (bytes p) as Hbp by by apply bytes_take.
  exists (drop (40 + length data) p). split; [rewrite length_drop; lia|]. split; [by apply bytes_drop|]. cbn [NdiscOptionRepr.emit].
  unfold NdiscOption.clear_redirected_reserved, NdiscOption.set_option_type, NdiscOption.set_data_len. rewrite put_slice_ok by (cbn [length]; done || lia).
  cbn [mbind outcome_bind take drop app]. do 2 (rewrite set_octet by (cbn [length app replicate]; lia); cbn [mbind outcome_bind app replicate insert list_insert]).
  change (wrap_u 8 (Z.of_nat (NdiscOptionRepr.units (8 + Ipv6Repr.buffer_len h + length data)))) with (wrap_u 8 (Z.of_nat u)).
  assert (wrap_u 8 (Z.of_nat u) = Z.of_nat u) as -> by (unfold wrap_u; apply Z.mod_small; lia). rewrite drop_0.
  unfold NdiscOption.with_data_mut, NdiscOption.data_len. cbn [get_byte lookup list_lookup unwrap mbind outcome_bind].
  unfold NdiscOption.data_end. rewrite Nat2Z.id, range_Ret by (cbn [length]; lia). cbn [mbind outcome_bind].
  assert (slice (NdiscOptionType.into NdiscOptionType.RedirectedHeader :: Z.of_nat u :: 0 :: 0 :: 0 :: 0 :: 0 :: 0 :: opt) 2 (u * 8 - 2) = replicate 6 0 ++ p) as ->.
  { unfold slice. replace (u * 8 - 2)%nat with (6 + (u * 8 - 8))%nat by lia. reflexivity. }
  rewrite range_from by (rewrite length_app, length_replicate; lia). cbn [mbind outcome_bind]. change (drop 6 (replicate 6 0 ++ p)) with (drop 0 p). rewrite drop_0.
  rewrite (quote_ok h data p) by (done || lia). set (q := ipv6_octets h ++ data ++ drop (40 + length data) p).
  assert (length q = u * 8 - 8)%nat as Hq by (unfold q; rewrite !length_app, length_drop, length_ipv6_octets by done; lia).
  cbn [mbind outcome_bind]. unfold splice. rewrite Hq. change (take 6 (replicate 6 0 ++ p)) with (replicate 6 0 ++ take 0 p).
  rewrite take_0, app_nil_r, (drop_ge (replicate 6 0 ++ p)), app_nil_r by (rewrite length_app, length_replicate; lia).
  rewrite length_app, length_replicate, Hq. unfold redirected_octets. cbn [rd_header rd_data take app]. fold q. do 3 f_equal.
  rewrite <- !app_assoc. do 2 f_equal. replace (2 + (6 + (u * 8 - 8)))%nat with (u * 8)%nat by lia.
  set (v := (u * 8 - 8)%nat). replace (u * 8)%nat with (8 + v)%nat by lia. done.
Qed.

(** Every option that is written reads back, whatever follows it. *)
Lemma ndisc_option_emit_ok r opt : option_wf r -> bytes opt -> (NdiscOptionRepr.buffer_len r <= length opt)%nat ->
  exists o, NdiscOptionRepr.emit r opt = Ret (o ++ drop (NdiscOptionRepr.buffer_len r) opt) /\
    length o = NdiscOptionRepr.buffer_len r /\ bytes o /\ reads_as o r.
Proof.
  intros Hr Hb Hl. destruct r as [a|a|i|rd|m|]; cbn [option_wf NdiscOptionRepr.buffer_len] in *; [..|done].
  - apply (lladdr_emit_ok NdiscOptionType.SourceLinkLayerAddr); auto.
  - apply (lladdr_emit_ok NdiscOptionType.TargetLinkLayerAddr); auto.
  - exists (prefix_octets i). split; [by apply prefix_emit_ok|]. split; [by apply length_prefix_octets|]. split; [|by apply prefix_reads].
    destruct Hr as [Hp Hf (v & Hv & Ev) (w & Hw & Ew) [_ Hb']]. unfold prefix_octets. rewrite Ev, Ew, !Z.div_mul by lia.
    repeat apply Forall_app_2; try done; try (apply be32_bytes; lia); [|by_decide].
    repeat apply Forall_cons_2; try (unfold byte; lia); [done| |constructor]. by apply flags_byte.
  - change (8 + Ipv6Repr.buffer_len (rd_header rd) + length (rd_data rd))%nat with (48 + length (rd_data rd))%nat in *.
    destruct (redirected_emit_ok rd opt Hr Hb Hl) as (pad & Hlen & Hbp & He). destruct Hr as [Hh Hpl Hd Hf].
    set (u := NdiscOptionRepr.units (48 + length (rd_data rd))) in *. exists (redirected_octets rd (Z.of_nat u) pad).
    split; [done|]. split.
    { unfold redirected_octets. cbn [length app replicate]. rewrite !length_app, length_ipv6_octets by done. lia. }
    assert (0 <= Z.of_nat u <= 255) as Hu by (unfold u, NdiscOptionRepr.units in *; pose proof (Nat.Div0.div_le_mono (48 + length (rd_data rd) + 7) 2047 8 ltac:(lia)); change (2047 / 8)%nat with 255%nat in *; lia).
    split; [|apply redirected_reads; done || lia].
    unfold redirected_octets. do 2 (apply Forall_cons_2; [unfold byte; lia|]). apply Forall_app_2; [by_decide|].
    apply Forall_app_2; [by apply bytes_ipv6_octets|by apply Forall_app_2].
  - exists (5 :: 1 :: slice opt 2 2 ++ be32 m). rewrite mtu_emit_ok by done. split; [done|].
    do 8 (destruct opt as [|? opt]; [cbn in Hl; lia|]). split; [done|]. split; [|by apply mtu_reads].
    do 4 (apply Forall_cons_1 in Hb as [? Hb]). do 4 (apply Forall_cons_2; [first [done | unfold byte; lia]|]). apply be32_bytes; lia.
Qed.

(** ** Messages *)

Lemma splice_tail (pre rest y : list Z) : length y = length rest -> splice (pre ++ rest) (length pre) y = pre ++ y.
Proof. intros H. unfold splice. by rewrite take_app_length, drop_ge, app_nil_r by (rewrite length_app; lia). Qed.

Definition reads_opt (o : list Z) (r : option NdiscOptionRepr) : Prop :=
  match r with Some r => reads_as o r | None => o = [] end.

Definition store_opt (f : NdiscRepr.found) (r : option NdiscOptionRepr) : NdiscRepr.found :=
  match r with Some r => NdiscRepr.store r f | None => f end.

Lemma emit_option_ok o off hdr pre rest :
  Icmpv6Packet.header_len (hdr ++ pre ++ rest) = Ret (length hdr) -> off = length pre ->
  opt_ok option_wf o -> bytes rest -> (NdiscRepr.opt_len o <= length rest)%nat ->
  exists x, NdiscRepr.emit_option o off (hdr ++ pre ++ rest) = Ret (hdr ++ pre ++ x ++ drop (NdiscRepr.opt_len o) rest) /\
    length x = NdiscRepr.opt_len o /\ bytes x /\ reads_opt x o.
Proof.
  intros Hhl -> Ho Hb Hl. destruct o as [r|]; cbn [NdiscRepr.opt_len reads_opt opt_ok NdiscRepr.emit_option] in *.
  2:{ exists []. rewrite drop_0. by repeat split; try constructor. }
  destruct (ndisc_option_emit_ok r rest Ho Hb Hl) as (x & He & Hlx & Hbx & Hx). exists x. split; [|done].
  unfold Icmpv6Packet.with_payload_mut. rewrite Hhl. cbn [mbind outcome_bind]. rewrite range_from by (rewrite length_app; lia). cbn [mbind outcome_bind].
  rewrite drop_app_length, range_from by (rewrite length_app; lia). cbn [mbind outcome_bind]. rewrite drop_app_length, He. cbn [mbind outcome_bind].
  rewrite (splice_tail pre) by (rewrite length_app, length_drop; lia). rewrite splice_tail by (rewrite !length_app, length_drop; lia). done.
Qed.

(** The loop over options that were written. *)
Lemma options_loop_reads xs rs : Forall2 reads_opt xs rs -> forall fuel pre f, (length (concat xs) <= fuel)%nat ->
  NdiscRepr.options_loop fuel (pre ++ concat xs) (length pre) f = Ret (Ok (foldl store_opt f rs)).
Proof.
  induction 1 as [|x r xs rs Hx _ IH]; intros fuel pre f Hf; cbn [concat foldl] in *.
  - rewrite app_nil_r. destruct fuel; cbn [NdiscRepr.options_loop]; by rewrite Nat.ltb_irrefl.
  - destruct r as [r|]; cbn [reads_opt store_opt] in *; [|subst x; by apply IH]. destruct Hx as [H8 Hc Hp (n & Hn & He)].
    rewrite length_app in Hf. destruct fuel as [|fuel]; [lia|]. cbn [NdiscRepr.options_loop].
    rewrite (proj2 (Nat.ltb_lt _ _)) by (rewrite !length_app; lia). cbn [negb]. rewrite range_from by (rewrite !length_app; lia). cbn [mbind outcome_bind].
    rewrite drop_app_length, Hc. cbn [try_bind]. rewrite Hp. cbn [mbind outcome_bind]. rewrite (option_len_of x n) by done. cbn [mbind outcome_bind].
    rewrite He, (proj2 (Nat.eqb_neq _ _)) by lia. rewrite app_assoc, <- length_app. apply IH. lia.
Qed.

Lemma options_read xs rs : Forall2 reads_opt xs rs -> forall f,
  NdiscRepr.options_loop (length (concat xs)) (concat xs) 0 f = Ret (Ok (foldl store_opt f rs)).
Proof. intros H f. by apply (options_loop_reads xs rs H _ [] f). Qed.

(** The messages that survive: the addresses are addresses, the times fit their
    fields; a redirect has no link-layer address. *)
Definition ndisc_wf (r : NdiscRepr) : Prop :=
  match r with
  | RouterSolicit lladdr => opt_ok lladdr_wf lladdr
  | RouterAdvert hop_limit flags router_lifetime reachable_time retrans_time lladdr mtu prefix_info =>
      byte hop_limit /\ flags_wf flags /\ seconds U16_MAX router_lifetime /\ millis reachable_time /\ millis retrans_time /\
      opt_ok lladdr_wf lladdr /\ opt_ok (fun m => 0 <= m <= U32_MAX) mtu /\ opt_ok prefix_wf prefix_info
  | NeighborSolicit target lladdr => address_wf (Ipv6 target) /\ opt_ok lladdr_wf lladdr
  | NeighborAdvert flags target lladdr => flags_wf flags /\ address_wf (Ipv6 target) /\ opt_ok lladdr_wf lladdr
  | Redirect target dest lladdr hdr => address_wf (Ipv6 target) /\ address_wf (Ipv6 dest) /\ lladdr = None /\ opt_ok redirected_wf hdr
  end.

Definition ndisc_type (r : NdiscRepr) : Icmpv6Message.t :=
  match r with
  | RouterSolicit _ => Icmpv6Message.RouterSolicit
  | RouterAdvert _ _ _ _ _ _ _ _ => Icmpv6Message.RouterAdvert
  | NeighborSolicit _ _ => Icmpv6Message.NeighborSolicit
  | NeighborAdvert _ _ _ => Icmpv6Message.NeighborAdvert
  | Redirect _ _ _ _ => Icmpv6Message.Redirect
  end.

Lemma ndisc_parse_options hdr xs rs : Icmpv6Packet.check_len (hdr ++ concat xs) = Ret (Ok ()) ->
  Icmpv6Packet.header_len (hdr ++ concat xs) = Ret (length hdr) -> Forall2 reads_opt xs rs ->
  NdiscRepr.parse (hdr ++ concat xs) =
    NdiscRepr.parse_message (hdr ++ concat xs) (foldl store_opt (NdiscRepr.mkFound None None None None None) rs).
Proof.
  intros Hc Hhl Hx. unfold NdiscRepr.parse, Icmpv6Packet.payload. rewrite Hc. cbn [try_bind]. rewrite Hhl. cbn [mbind outcome_bind].
  rewrite range_from by (rewrite length_app; lia). cbn [mbind outcome_bind]. rewrite drop_app_length. by rewrite (options_read xs rs).
Qed.

(** What is left of a message when its checksum is filled in. *)
Definition ndisc_reads (r : NdiscRepr) (rest : list Z) : Prop :=
  forall u v, NdiscRepr.parse (Icmpv6Message.into (ndisc_type r) :: 0 :: u :: v :: rest) = Ret (Ok r).

Definition ndisc_emits (r : NdiscRepr) : Prop := forall x0 x1 x y rest, bytes rest -> (4 + length rest)%nat = NdiscRepr.buffer_len r ->
  exists rest', NdiscRepr.emit r (x0 :: x1 :: x :: y :: rest) = Ret (Icmpv6Message.into (ndisc_type r) :: 0 :: x :: y :: rest') /\
    bytes rest' /\ length rest' = length rest /\ ndisc_reads r rest'.

(** The first octets of every message but the router advertisement. *)
Lemma ndisc_header {B} ty x0 x1 x y a b c d rest (k : list Z -> outcome B) :
  (ty = Icmpv6Message.RouterSolicit \/ ty = Icmpv6Message.NeighborSolicit \/ ty = Icmpv6Message.NeighborAdvert \/ ty = Icmpv6Message.Redirect) ->
  (packet ← Icmpv6Packet.set_msg_type ty (x0 :: x1 :: x :: y :: a :: b :: c :: d :: rest);
   packet ← Icmpv6Packet.set_msg_code 0 packet;
   packet ← Icmpv6Packet.clear_reserved packet;
   k packet) = k (Icmpv6Message.into ty :: 0 :: x :: y :: 0 :: 0 :: 0 :: 0 :: rest).
Proof.
  intros Hty. unfold Icmpv6Packet.set_msg_type, Icmpv6Packet.set_msg_code, Icmpv6Packet.clear_reserved, Icmpv6Packet.msg_type.
  rewrite set_octet by (cbn; lia). cbn [mbind outcome_bind insert list_insert]. rewrite set_octet by (cbn; lia). cbn [mbind outcome_bind insert list_insert].
  cbn [get_byte lookup list_lookup unwrap mbind outcome_bind]. destruct Hty as [->|[->|[->| ->]]]; cbn [Icmpv6Message.from Icmpv6Message.into];
  match goal with |- context [Icmpv6Message.from ?n] => let v := eval cbv in (Icmpv6Message.from n) in change (Icmpv6Message.from n) with v end;
  rewrite put_u32_octets by (cbn [length]; done || lia); cbn [mbind outcome_bind take drop app be32]; by rewrite drop_0.
Qed.

Lemma addr_at pre a post i j : i = length pre -> j = (i + 16)%nat -> address_wf (Ipv6 a) ->
  (d ← range (pre ++ a ++ post) i j; Ipv6Address.from_bytes d) = Ret a.
Proof.
  intros -> -> [Ha _]. rewrite range_Ret by (rewrite ?length_app; lia). cbn [mbind outcome_bind]. rewrite slice_mid by lia.
  unfold Ipv6Address.from_bytes. by rewrite Ha.
Qed.

Lemma put_addr pre rest a i j : i = length pre -> j = (i + 16)%nat -> address_wf (Ipv6 a) -> (16 <= length rest)%nat ->
  put_slice i j a (pre ++ rest) = Ret (pre ++ a ++ drop 16 rest).
Proof.
  intros -> -> [Ha _] Hl. rewrite put_slice_ok by (rewrite ?length_app; lia). rewrite take_app_length, drop_app_ge by lia. do 4 f_equal. lia.
Qed.

(** The target of every message but the router messages. *)
Lemma put_target a b c d e f g h rest target : address_wf (Ipv6 target) -> (16 <= length rest)%nat ->
  NdiscPacket.set_target_addr target (a :: b :: c :: d :: e :: f :: g :: h :: rest) = Ret ([a; b; c; d; e; f; g; h] ++ target ++ drop 16 rest).
Proof. intros Ha Hl. by apply (put_addr [_; _; _; _; _; _; _; _]). Qed.

Lemma target_at a b c d e f g h target post : address_wf (Ipv6 target) ->
  NdiscPacket.target_addr (a :: b :: c :: d :: e :: f :: g :: h :: target ++ post) = Ret target.
Proof. intros Ha. by apply (addr_at [_; _; _; _; _; _; _; _]). Qed.

Lemma ndisc_checked t u v rest hl : Icmpv6Packet.header_len (t :: 0 :: u :: v :: rest) = Ret hl -> (8 <= hl <= 4 + length rest)%nat ->
  Icmpv6Packet.check_len (t :: 0 :: u :: v :: rest) = Ret (Ok ()).
Proof.
  intros Hh Hl. unfold Icmpv6Packet.check_len. cbn [length]. rewrite (proj2 (Nat.ltb_ge _ _)) by lia. rewrite Hh.
  unfold Icmpv6Packet.header_len in Hh. destruct (Icmpv6Packet.msg_type _) as [m|]; [|done]. cbn [mbind outcome_bind] in *.
  injection Hh as Hh. destruct m; try (rewrite !(proj2 (Nat.ltb_ge _ _)) by lia; done); lia.
Qed.

Lemma router_solicit_emits lladdr : opt_ok lladdr_wf lladdr -> ndisc_emits (RouterSolicit lladdr).
Proof.
  intros Hw x0 x1 x y rest Hb Hl. cbn [NdiscRepr.buffer_len] in Hl. do 4 (destruct rest as [|? rest]; [cbn [length] in Hl; lia|]). cbn [length] in Hl.
  do 4 (apply Forall_cons_1 in Hb as [_ Hb]). cbn [NdiscRepr.emit ndisc_type]. rewrite ndisc_header by auto.
  destruct (emit_option_ok (OptSourceLinkLayerAddr <$> lladdr) 0 [133; 0; x; y; 0; 0; 0; 0] [] rest) as (z' & He & Hlz & Hbz & Hr); try done; [by destruct lladdr|lia|].
  exists ([0; 0; 0; 0] ++ z'). split; [|split; [|split]].
  - etrans; [exact He|]. by rewrite drop_ge, app_nil_r by lia.
  - apply Forall_app_2; [by_decide|done].
  - cbn [length app]. lia.
  - intros u v. pose proof (ndisc_parse_options [133; 0; u; v; 0; 0; 0; 0] [z'] [OptSourceLinkLayerAddr <$> lladdr]) as Hp. cbn [concat] in Hp.
    rewrite app_nil_r in Hp. etrans; [apply Hp|].
    + apply (ndisc_checked _ _ _ _ 8); [done|cbn [length app]; lia].
    + done.
    + by repeat constructor.
    + by destruct lladdr.
Qed.

Lemma neighbor_solicit_emits target lladdr : address_wf (Ipv6 target) -> opt_ok lladdr_wf lladdr -> ndisc_emits (NeighborSolicit target lladdr).
Proof.
  intros Ha Hw x0 x1 x y rest Hb Hl. pose proof Ha as [Hla Hba]. cbn [NdiscRepr.buffer_len] in Hl. do 4 (destruct rest as [|? rest]; [cbn [length] in Hl; lia|]). cbn [length] in Hl.
  do 4 (apply Forall_cons_1 in Hb as [_ Hb]). cbn [NdiscRepr.emit ndisc_type]. rewrite ndisc_header by auto.
  rewrite put_target by (done || lia). cbn [mbind outcome_bind].
  assert (bytes (drop 16 rest)) as Hb' by by apply bytes_drop. set (tail := drop 16 rest) in *. assert (length tail = length rest - 16)%nat as Hlt by apply length_drop.
  destruct (emit_option_ok (OptSourceLinkLayerAddr <$> lladdr) 0 ([135; 0; x; y; 0; 0; 0; 0] ++ target) [] tail) as (z' & He & Hlz & Hbz & Hr); try done;
    [rewrite length_app, Hla; done|by destruct lladdr|lia|].
  exists ([0; 0; 0; 0] ++ target ++ z'). rewrite <- app_assoc in He. split; [|split; [|split]].
  - etrans; [exact He|]. rewrite (drop_ge tail) by lia. by rewrite app_nil_r, <- app_assoc.
  - apply Forall_app_2; [by_decide|by apply Forall_app_2].
  - cbn [length app]. rewrite length_app. lia.
  - intros u v. pose proof (ndisc_parse_options ([135; 0; u; v; 0; 0; 0; 0] ++ target) [z'] [OptSourceLinkLayerAddr <$> lladdr]) as Hp. cbn [concat] in Hp.
    rewrite app_nil_r, <- app_assoc in Hp. etrans; [apply Hp|].
    + apply (ndisc_checked _ _ _ _ 24); [done|cbn [length app]; rewrite length_app; lia].
    + by rewrite length_app, Hla.
    + by repeat constructor.
    + unfold NdiscRepr.parse_message. cbn [Icmpv6Packet.msg_type]. cbn [app]. unfold Icmpv6Packet.msg_type. cbn [get_byte lookup list_lookup unwrap mbind outcome_bind].
      change (Icmpv6Message.from 135) with Icmpv6Message.NeighborSolicit. cbn match.
      rewrite target_at by done. cbn [mbind outcome_bind]. by destruct lladdr.
Qed.

Lemma neighbor_advert_emits f target lladdr : flags_wf f -> address_wf (Ipv6 target) -> opt_ok lladdr_wf lladdr -> ndisc_emits (NeighborAdvert f target lladdr).
Proof.
  intros Hf Ha Hw x0 x1 x y rest Hb Hl. pose proof Ha as [Hla Hba]. cbn [NdiscRepr.buffer_len] in Hl. do 4 (destruct rest as [|? rest]; [cbn [length] in Hl; lia|]). cbn [length] in Hl.
  do 4 (apply Forall_cons_1 in Hb as [_ Hb]). cbn [NdiscRepr.emit ndisc_type]. rewrite ndisc_header by auto. unfold NdiscPacket.set_neighbor_flags.
  rewrite set_octet by (cbn [length]; lia). cbn [mbind outcome_bind insert list_insert].
  rewrite put_target by (done || lia). cbn [mbind outcome_bind].
  assert (bytes (drop 16 rest)) as Hb' by by apply bytes_drop. set (tail := drop 16 rest) in *. assert (length tail = length rest - 16)%nat as Hlt by apply length_drop.
  assert (NdiscRepr.opt_len (OptTargetLinkLayerAddr <$> lladdr) = NdiscRepr.opt_len (OptSourceLinkLayerAddr <$> lladdr)) as Ho by by destruct lladdr.
  destruct (emit_option_ok (OptTargetLinkLayerAddr <$> lladdr) 0 ([136; 0; x; y; flags_bits f; 0; 0; 0] ++ target) [] tail) as (z' & He & Hlz & Hbz & Hr); try done;
    [rewrite length_app, Hla; done|by destruct lladdr|lia|].
  exists ([flags_bits f; 0; 0; 0] ++ target ++ z'). rewrite <- app_assoc in He. split; [|split; [|split]].
  - etrans; [exact He|]. rewrite (drop_ge tail) by lia. by rewrite app_nil_r, <- app_assoc.
  - apply Forall_app_2; [|by apply Forall_app_2]. apply Forall_cons_2; [by apply flags_byte|by_decide].
  - cbn [length app]. rewrite length_app. lia.
  - intros u v. pose proof (ndisc_parse_options ([136; 0; u; v; flags_bits f; 0; 0; 0] ++ target) [z'] [OptTargetLinkLayerAddr <$> lladdr]) as Hp. cbn [concat] in Hp.
    rewrite app_nil_r, <- app_assoc in Hp. etrans; [apply Hp|].
    + apply (ndisc_checked _ _ _ _ 24); [done|cbn [length app]; rewrite length_app; lia].
    + by rewrite length_app, Hla.
    + by repeat constructor.
    + unfold NdiscRepr.parse_message. cbn [app]. unfold Icmpv6Packet.msg_type, NdiscPacket.neighbor_flags. cbn [get_byte lookup list_lookup unwrap mbind outcome_bind].
      change (Icmpv6Message.from 136) with Icmpv6Message.NeighborAdvert. cbn match.
      rewrite target_at by done. cbn [mbind outcome_bind]. rewrite Hf. by destruct lladdr.
Qed.

Lemma redirect_emits target dest hdr : address_wf (Ipv6 target) -> address_wf (Ipv6 dest) -> opt_ok redirected_wf hdr -> ndisc_emits (Redirect target dest None hdr).
Proof.
  intros Ha Hd Hw x0 x1 x y rest Hb Hl. pose proof Ha as [Hla Hba]. pose proof Hd as [Hld Hbd]. cbn [NdiscRepr.buffer_len NdiscRepr.opt_len fmap option_fmap option_map] in Hl.
  do 4 (destruct rest as [|? rest]; [cbn [length] in Hl; lia|]). cbn [length] in Hl.
  do 4 (apply Forall_cons_1 in Hb as [_ Hb]). cbn [NdiscRepr.emit ndisc_type]. rewrite ndisc_header by auto. unfold NdiscPacket.set_dest_addr.
  rewrite put_target by (done || lia). cbn [mbind outcome_bind]. rewrite (app_assoc [_; _; _; _; _; _; _; _]).
  rewrite (put_addr _ (drop 16 rest) dest 24 40) by (done || rewrite ?length_app, ?length_drop, ?Hla; cbn [length]; lia). cbn [mbind outcome_bind].
  rewrite drop_drop. assert (bytes (drop (16 + 16) rest)) as Hb' by by apply bytes_drop.
  set (tail := drop (16 + 16) rest) in *. assert (length tail = length rest - 32)%nat as Hlt by apply length_drop.
  cbn [NdiscRepr.emit_option fmap option_fmap option_map mbind outcome_bind NdiscRepr.opt_len].
  destruct (emit_option_ok (OptRedirectedHeader <$> hdr) 0 ([137; 0; x; y; 0; 0; 0; 0] ++ target ++ dest) [] tail) as (z' & He & Hlz & Hbz & Hr); try done;
    [rewrite !length_app, Hla, Hld; done|by destruct hdr|lia|].
  exists ([0; 0; 0; 0] ++ target ++ dest ++ z'). rewrite <- !app_assoc in He. split; [|split; [|split]].
  - etrans; [rewrite <- app_assoc; exact He|]. rewrite (drop_ge tail) by lia. rewrite app_nil_r. by rewrite <- ?app_assoc.
  - apply Forall_app_2; [by_decide|]. by repeat apply Forall_app_2.
  - cbn [length app]. rewrite !length_app. lia.
  - intros u v. pose proof (ndisc_parse_options ([137; 0; u; v; 0; 0; 0; 0] ++ target ++ dest) [z'] [OptRedirectedHeader <$> hdr]) as Hp. cbn [concat] in Hp.
    rewrite app_nil_r, <- !app_assoc in Hp. etrans; [apply Hp|].
    + apply (ndisc_checked _ _ _ _ 40); [done|cbn [length app]; rewrite !length_app; lia].
    + by rewrite !length_app, Hla, Hld.
    + by repeat constructor.
    + unfold NdiscRepr.parse_message. cbn [app]. unfold Icmpv6Packet.msg_type. cbn [get_byte lookup list_lookup unwrap mbind outcome_bind].
      change (Icmpv6Message.from 137) with Icmpv6Message.Redirect. cbn match. unfold NdiscPacket.dest_addr.
      rewrite target_at by done. cbn [mbind outcome_bind].
      pose proof (addr_at ([137; 0; u; v; 0; 0; 0; 0] ++ target) dest z' 24 40) as Hx. rewrite <- !app_assoc in Hx.
      cbn [app] in Hx. rewrite Hx by (done || (cbn [length]; rewrite Hla; done)). cbn [mbind outcome_bind]. by destruct hdr.
Qed.

(** Options that follow one another. *)
Lemma emit_three_ok o1 o2 o3 hdr tail : (forall t, Icmpv6Packet.header_len (hdr ++ t) = Ret (length hdr)) ->
  opt_ok option_wf o1 -> opt_ok option_wf o2 -> opt_ok option_wf o3 -> bytes tail ->
  length tail = (NdiscRepr.opt_len o1 + NdiscRepr.opt_len o2 + NdiscRepr.opt_len o3)%nat ->
  exists xs,
    (packet ← NdiscRepr.emit_option o1 0 (hdr ++ tail);
     packet ← NdiscRepr.emit_option o2 (0 + NdiscRepr.opt_len o1) packet;
     NdiscRepr.emit_option o3 (0 + NdiscRepr.opt_len o1 + NdiscRepr.opt_len o2) packet) = Ret (hdr ++ concat xs) /\
    length (concat xs) = length tail /\ bytes (concat xs) /\ Forall2 reads_opt xs [o1; o2; o3].
Proof.
  intros Hh H1 H2 H3 Hb Hl. destruct (emit_option_ok o1 0 hdr [] tail) as (x1 & E1 & L1 & B1 & R1); try done; [lia|]. cbn [app] in E1. rewrite E1. cbn [mbind outcome_bind].
  destruct (emit_option_ok o2 (0 + NdiscRepr.opt_len o1) hdr x1 (drop (NdiscRepr.opt_len o1) tail)) as (x2 & E2 & L2 & B2 & R2);
    [done|lia|done|by apply bytes_drop|rewrite length_drop; lia|]. rewrite E2. cbn [mbind outcome_bind]. rewrite drop_drop, (app_assoc x1).
  destruct (emit_option_ok o3 (0 + NdiscRepr.opt_len o1 + NdiscRepr.opt_len o2) hdr (x1 ++ x2) (drop (NdiscRepr.opt_len o1 + NdiscRepr.opt_len o2) tail)) as (x3 & E3 & L3 & B3 & R3);
    [done|rewrite length_app; lia|done|by apply bytes_drop|rewrite length_drop; lia|]. rewrite E3, drop_drop, drop_ge, app_nil_r by lia.
  exists [x1; x2; x3]. cbn [concat]. rewrite app_nil_r, <- app_assoc. split; [done|]. split; [rewrite !length_app; lia|].
  split; [by repeat apply Forall_app_2|]. by repeat constructor.
Qed.

(** The fixed part of a router advertisement. *)
Definition advert_octets (hop_limit : Z) (f : flags ROUTER_FLAGS_ALL) (lifetime reachable retrans : Duration) : list Z :=
  [hop_limit; flags_bits f] ++ be16 (lifetime / 1000000) ++ be32 (reachable / 1000) ++ be32 (retrans / 1000).

Lemma advert_header {B} x0 x1 x y hop_limit f lifetime reachable retrans rest (k : list Z -> outcome B) :
  seconds U16_MAX lifetime -> millis reachable -> millis retrans -> (12 <= length rest)%nat ->
  (packet ← Icmpv6Packet.set_msg_type Icmpv6Message.RouterAdvert (x0 :: x1 :: x :: y :: rest);
   packet ← Icmpv6Packet.set_msg_code 0 packet;
   packet ← NdiscPacket.set_current_hop_limit hop_limit packet;
   packet ← NdiscPacket.set_router_flags f packet;
   packet ← NdiscPacket.set_router_lifetime lifetime packet;
   packet ← NdiscPacket.set_reachable_time reachable packet;
   packet ← NdiscPacket.set_retrans_time retrans packet;
   k packet) = k (([134; 0; x; y] ++ advert_octets hop_limit f lifetime reachable retrans) ++ drop 12 rest).
Proof.
  intros (l & Hl & El) (m & Hm & Em) (n & Hn & En) Hr. unfold advert_octets. rewrite El, Em, En, !Z.div_mul by lia.
  do 12 (destruct rest as [|? rest]; [cbn in Hr; lia|]). cbn [length] in Hr.
  unfold Icmpv6Packet.set_msg_type, Icmpv6Packet.set_msg_code, NdiscPacket.set_current_hop_limit, NdiscPacket.set_router_flags,
    NdiscPacket.set_router_lifetime, NdiscPacket.set_reachable_time, NdiscPacket.set_retrans_time, Duration.secs, Duration.total_millis.
  rewrite !Z.div_mul by lia. unfold wrap_u. rewrite !Z.mod_small by lia.
  do 4 (rewrite set_octet by (cbn [length]; lia); cbn [mbind outcome_bind insert list_insert]).
  rewrite put_u16_octets by (cbn [length]; done || lia). cbn [mbind outcome_bind take drop app be16].
  rewrite put_u32_octets by (cbn [length]; done || lia). cbn [mbind outcome_bind take drop app be32].
  rewrite put_u32_octets by (cbn [length]; done || lia). cbn [mbind outcome_bind take drop app be32]. done.
Qed.

Lemma advert_message u v hop_limit f lifetime reachable retrans rest found :
  flags_wf f -> seconds U16_MAX lifetime -> millis reachable -> millis retrans ->
  NdiscRepr.parse_message (([134; 0; u; v] ++ advert_octets hop_limit f lifetime reachable retrans) ++ rest) found =
  Ret (Ok (RouterAdvert hop_limit f lifetime reachable retrans (NdiscRepr.src_ll_addr found) (NdiscRepr.mtu found) (NdiscRepr.prefix_info found))).
Proof.
  intros Hf (l & Hl & El) (m & Hm & Em) (n & Hn & En). unfold advert_octets. rewrite El, Em, En, !Z.div_mul by lia.
  unfold NdiscRepr.parse_message, Icmpv6Packet.msg_type, NdiscPacket.current_hop_limit, NdiscPacket.router_flags, NdiscPacket.router_lifetime,
    NdiscPacket.reachable_time, NdiscPacket.retrans_time.
  set (pkt := ([134; 0; u; v] ++ [hop_limit; flags_bits f] ++ be16 l ++ be32 m ++ be32 n) ++ rest).
  change (get_byte 0 pkt) with (Ret 134). change (get_byte 4 pkt) with (Ret hop_limit). change (get_byte 5 pkt) with (Ret (flags_bits f)).
  assert (get_u16 6 8 pkt = Ret l) as -> by (apply (get_u16_at [134; 0; u; v; hop_limit; flags_bits f] l); done).
  assert (get_u32 8 12 pkt = Ret m) as -> by (apply (get_u32_at ([134; 0; u; v; hop_limit; flags_bits f] ++ be16 l) m); done).
  assert (get_u32 12 16 pkt = Ret n) as -> by (apply (get_u32_at ([134; 0; u; v; hop_limit; flags_bits f] ++ be16 l ++ be32 m) n); done).
  cbn [mbind outcome_bind]. change (Icmpv6Message.from 134) with Icmpv6Message.RouterAdvert. cbn match.
  rewrite from_secs_ok by lia. cbn [mbind outcome_bind]. rewrite !from_millis_ok by done. cbn [mbind outcome_bind]. by rewrite Hf.
Qed.

Lemma router_advert_emits hop_limit f lifetime reachable retrans lladdr mtu prefix_info
    (r := RouterAdvert hop_limit f lifetime reachable retrans lladdr mtu prefix_info) : ndisc_wf r -> ndisc_emits r.
Proof.
  intros (Hh & Hf & Hs & Hm & Hn & Hla & Hmt & Hpi) x0 x1 x y rest Hb Hl. unfold r in *. clear r. cbn [NdiscRepr.buffer_len] in Hl.
  assert (NdiscRepr.opt_len (OptTargetLinkLayerAddr <$> lladdr) = NdiscRepr.opt_len (OptSourceLinkLayerAddr <$> lladdr)) as Ho by by destruct lladdr.
  rewrite Ho in Hl. cbn [NdiscRepr.emit ndisc_type]. rewrite advert_header by (done || lia). set (body := advert_octets hop_limit f lifetime reachable retrans).
  assert (length body = 12%nat) as Hlb by done. assert (bytes body) as Hbb.
  { unfold body, advert_octets. destruct Hs as (l & Hl' & ->), Hm as (m & Hm' & ->), Hn as (n & Hn' & ->). rewrite !Z.div_mul by lia.
    apply Forall_app_2; [|apply Forall_app_2; [apply be16_bytes|apply Forall_app_2; apply be32_bytes]; done].
    repeat apply Forall_cons_2; [done|by apply flags_byte|constructor]. }
  assert (bytes (drop 12 rest)) as Hb' by by apply bytes_drop. assert (length (drop 12 rest) = length rest - 12)%nat as Hlt by apply length_drop.
  destruct (emit_three_ok (OptSourceLinkLayerAddr <$> lladdr) (OptMtu <$> mtu) (OptPrefixInformation <$> prefix_info) ([134; 0; x; y] ++ body) (drop 12 rest))
    as (xs & He & Hlx & Hbx & Hr); [done|by destruct lladdr|by destruct mtu|by destruct prefix_info|done|lia|].
  rewrite He. exists (body ++ concat xs). split; [by rewrite <- app_assoc|]. split; [by apply Forall_app_2|]. split; [rewrite length_app; lia|].
  intros u v. pose proof (fun c h => ndisc_parse_options ([134; 0; u; v] ++ body) xs _ c h Hr) as Hp. rewrite <- app_assoc in Hp. etrans; [apply Hp|].
  - apply (ndisc_checked _ _ _ _ 16); [done|]. cbn [length app]. rewrite length_app. lia.
  - done.
  - rewrite app_assoc. unfold body. rewrite advert_message by done. destruct lladdr, mtu, prefix_info; done.
Qed.

Lemma ndisc_emit_ok r : ndisc_wf r -> ndisc_emits r.
Proof.
  destruct r; [apply router_solicit_emits|apply router_advert_emits|intros []; by apply neighbor_solicit_emits|intros (? & ? & ?); by apply neighbor_advert_emits|].
  intros (? & ? & -> & ?). by apply redirect_emits.
Qed.
End Options.
