(* ===== verification/Icmpv6Props.v ===== *)
(** * ICMPv6 messages: parsing is total, and reads back what is emitted

    Any octets parse or are refused, and what parses is well-formed; a well-formed
    message that is emitted parses to itself.  Redirects with a link-layer
    address do not: [parse] looks for it in the wrong option. *)

From S2P Require Import Prelude Bytes Octets Phy Time Ip LinkLayer Flags Ipv6Wire Icmpv6Wire NdiscWire MldWire Icmpv6Messages NdiscProps.
Open Scope Z_scope.

Section Total.
Context {BO : ByteOrder} {NE : NetworkEndian BO} {BO24 : ByteOrder24} {NE24 : NetworkEndian24 BO24}.
Context {RF : Bitflags ROUTER_FLAGS_ALL} {NF : Bitflags NEIGHBOR_FLAGS_ALL}.
Implicit Types (src dst data packet : list Z).

(** A message that [parse] accepts. *)
Definition icmpv6_parsed (r : Icmpv6Repr) : Prop :=
  match r with
  | Icmpv6DstUnreachable _ header data | Icmpv6TimeExceeded _ header data => ipv6_repr_wf header /\ bytes data
  | Icmpv6PktTooBig n header data | Icmpv6ParamProblem _ n header data => 0 <= n <= U32_MAX /\ ipv6_repr_wf header /\ bytes data
  | Icmpv6EchoRequest ident seq_no data | Icmpv6EchoReply ident seq_no data => word ident /\ word seq_no /\ bytes data
  | Icmpv6Ndisc n => ndisc_parsed n
  | Icmpv6Mld m => mld_parsed m
  end.

Lemma quoted_ok packet : bytes packet -> (8 <= length packet)%nat ->
  (exists hl, Icmpv6Packet.header_len packet = Ret hl /\ (hl <= length packet)%nat) ->
  returns (Icmpv6Repr.create_packet_from_payload packet)
    (fun r => forall payload h, r = Ok (payload, h) -> ipv6_repr_wf h /\ bytes payload).
Proof.
  intros Hb H8 (hl & Hhl & Hl). unfold Icmpv6Repr.create_packet_from_payload, Icmpv6Packet.payload. rewrite Hhl. cbn [mbind outcome_bind].
  rewrite range_from by lia. cbn [mbind outcome_bind]. set (ip := drop hl packet). assert (bytes ip) as Hbi by by apply bytes_drop.
  unfold IPV6_HEADER_LEN. destruct (Nat.leb_spec 40 (length ip)) as [H40|]; cbn [negb]; [|done]. unfold Ipv6Packet.header_len, IPV6_HEADER_LEN.
  rewrite range_from by lia. cbn [mbind outcome_bind]. unfold Ipv6Packet.src_addr, Ipv6Packet.dst_addr, Ipv6Packet.next_header, Ipv6Packet.payload_len, Ipv6Packet.hop_limit.
  destruct (ipv6_addr_slice ip 8 24 eq_refl Hbi) as [-> Hs]; [lia|]. cbn [mbind outcome_bind].
  destruct (ipv6_addr_slice ip 24 40 eq_refl Hbi) as [-> Hd]; [lia|]. cbn [mbind outcome_bind]. rewrite !get_byte_ok by lia. cbn [mbind outcome_bind].
  destruct (get_u16_ok 4 6 ip) as (n & -> & Hn); [done|lia|done|]. cbn. intros payload h [= <- <-]. split; [|by apply bytes_drop].
  assert (forall i, (i < length ip)%nat -> byte (ip !!! i)) as Hby
    by (intros i Hi; apply (bytes_lookup ip i); [done|]; by apply list_lookup_lookup_total_lt).
  constructor; cbn [ih_src_addr ih_dst_addr ih_next_header ih_payload_len ih_hop_limit]; try done.
  - rewrite !protocol_into_from by (apply Hby; lia). split; [apply Hby; lia|done].
  - unfold word. lia.
  - apply Hby. lia.
Qed.

(** The checksum is the only thing [parse] does with the addresses. *)
Lemma icmpv6_parse_checked src dst packet caps ok :
  Icmpv6Packet.check_len packet = Ret (Ok ()) -> Icmpv6Packet.verify_checksum src dst packet = Ret ok ->
  Icmpv6Repr.parse src dst packet caps =
    if Checksum.rx (caps_icmpv6 caps) && negb ok then Ret (Err Error)
    else Icmpv6Repr.parse src dst packet ChecksumCapabilities.ignored.
Proof.
  intros Hc Hv. unfold Icmpv6Repr.parse. rewrite Hc. cbn [try_bind]. rewrite Hv.
  destruct (Checksum.rx (caps_icmpv6 caps)), ok; done.
Qed.

Ltac quoted :=
  match goal with Hq : returns (Icmpv6Repr.create_packet_from_payload _) _ |- _ =>
    destruct (Icmpv6Repr.create_packet_from_payload _) as [[[payload h]|e]|]; cbn [try_bind returns] in *; [|done|done];
    destruct (Hq payload h eq_refl) end.

Ltac discovered :=
  match goal with Hr : returns ?p _ |- returns (try_bind ?p _) _ =>
    destruct p as [[x|]|]; cbn in *; try done; intros r [= <-]; by apply Hr end.

Lemma icmpv6_parse_ok src dst packet caps :
  address_wf (Ipv6 src) -> address_wf (Ipv6 dst) -> bytes packet -> Z.of_nat (length packet) <= 131000 ->
  returns (Icmpv6Repr.parse src dst packet caps) (fun r => forall m, r = Ok m -> icmpv6_parsed m).
Proof.
  intros Hs Hd Hb Hn. pose proof (icmpv6_check_ok packet Hb) as Hc. destruct (icmpv6_verify_ok src dst packet Hs Hd Hb Hn) as [ok Hv].
  destruct (Icmpv6Packet.check_len packet) as [[[]|e]|] eqn:Hck; [|by unfold Icmpv6Repr.parse; rewrite Hck|done].
  rewrite (icmpv6_parse_checked src dst packet caps ok) by done. destruct (_ && _); [done|]. cbn [returns] in Hc.
  destruct (Hc eq_refl) as (H8 & m & hl & Hm & Hhl & Hl). unfold Icmpv6Repr.parse. rewrite Hck. cbn [try_bind mbind outcome_bind Checksum.rx caps_icmpv6].
  change (Checksum.rx (caps_icmpv6 ChecksumCapabilities.ignored)) with false. cbn [mbind outcome_bind].
  rewrite Hm. unfold Icmpv6Packet.msg_code. rewrite get_byte_ok by lia. cbn [mbind outcome_bind].
  pose proof (quoted_ok packet Hb H8 ltac:(eauto)) as Hq. pose proof (ndisc_parse_ok packet Hb) as Hnd. pose proof (mld_parse_ok packet Hb) as Hmld.
  destruct (get_u32_ok 4 8 packet) as (u & Hu & Hur); [done|lia|done|]. destruct (get_u16_ok 4 6 packet) as (i & Hi & Hir); [done|lia|done|].
  destruct (get_u16_ok 6 8 packet) as (q & Hq16 & Hqr); [done|lia|done|].
  unfold Icmpv6Packet.pkt_too_big_mtu, Icmpv6Packet.param_problem_ptr, Icmpv6Packet.echo_ident, Icmpv6Packet.echo_seq_no, Icmpv6Packet.payload.
  rewrite Hu, Hi, Hq16, Hhl. cbn [mbind outcome_bind]. rewrite range_from by lia. cbn [mbind outcome_bind].
  assert (bytes (drop hl packet)) as Hbd by by apply bytes_drop.
  destruct m; cbn [Icmpv6Message.is_ndisc Icmpv6Message.is_mld]; try (by destruct (packet !!! 1%nat));
    first [quoted; by intros r [= <-] | destruct (packet !!! 1%nat); try done;
      first [quoted; by intros r [= <-] | by intros r [= <-] | discovered]].
Qed.
End Total.

(** ** What is emitted parses back *)

Section RoundTrip.
Context {BO : ByteOrder} {NE : NetworkEndian BO} {BO24 : ByteOrder24} {NE24 : NetworkEndian24 BO24}.
Context {RF : Bitflags ROUTER_FLAGS_ALL} {NF : Bitflags NEIGHBOR_FLAGS_ALL}.
Context {RFL : BitflagsLaws RF} {NFL : BitflagsLaws NF}.

(** A quoted packet that fits the message: it is cut to the minimum MTU. *)
Definition quote_wf (header : IpHeader) (data : list Z) : Prop :=
  ipv6_repr_wf header /\ bytes data /\ (length data <= MAX_ERROR_PACKET_LEN - 8 - IPV6_HEADER_LEN)%nat.

Definition icmpv6_wf (r : Icmpv6Repr) : Prop :=
  match r with
  | Icmpv6DstUnreachable reason header data =>
      byte (Icmpv6DstUnreachable.into reason) /\ Icmpv6DstUnreachable.from (Icmpv6DstUnreachable.into reason) = reason /\ quote_wf header data
  | Icmpv6PktTooBig mtu header data => 0 <= mtu <= U32_MAX /\ quote_wf header data
  | Icmpv6TimeExceeded reason header data =>
      byte (Icmpv6TimeExceeded.into reason) /\ Icmpv6TimeExceeded.from (Icmpv6TimeExceeded.into reason) = reason /\ quote_wf header data
  | Icmpv6ParamProblem reason pointer header data =>
      byte (Icmpv6ParamProblem.into reason) /\ Icmpv6ParamProblem.from (Icmpv6ParamProblem.into reason) = reason /\
      0 <= pointer <= U32_MAX /\ quote_wf header data
  | Icmpv6EchoRequest ident seq_no data | Icmpv6EchoReply ident seq_no data => word ident /\ word seq_no /\ bytes data
  | Icmpv6Ndisc n => ndisc_wf n
  | Icmpv6Mld m => mld_parsed m
  end.

(** What is left of a message when its checksum is filled in. *)
Definition icmpv6_emits (r : Icmpv6Repr) : Prop := forall x0 x1 x y rest, bytes rest -> (4 + length rest)%nat = Icmpv6Repr.buffer_len r ->
  exists t c rest', Icmpv6Repr.emit_message r (x0 :: x1 :: x :: y :: rest) = Ret (t :: c :: x :: y :: rest') /\
    byte t /\ byte c /\ bytes rest' /\ length rest' = length rest /\
    forall src dst u v, Icmpv6Repr.parse src dst (t :: c :: u :: v :: rest') ChecksumCapabilities.ignored = Ret (Ok r).

Lemma type_and_code {B} ty code x0 x1 rest (k : list Z -> outcome B) :
  (packet ← Icmpv6Packet.set_msg_type ty (x0 :: x1 :: rest); packet ← Icmpv6Packet.set_msg_code code packet; k packet) =
  k (Icmpv6Message.into ty :: code :: rest).
Proof.
  unfold Icmpv6Packet.set_msg_type, Icmpv6Packet.set_msg_code. rewrite set_octet by (cbn; lia). cbn [mbind outcome_bind insert list_insert].
  by rewrite set_octet by (cbn; lia).
Qed.

Lemma contained_ok t c x y q0 q1 q2 q3 rest h data : Icmpv6Packet.header_len (t :: c :: x :: y :: q0 :: q1 :: q2 :: q3 :: rest) = Ret 8%nat ->
  quote_wf h data -> bytes rest -> length rest = (40 + length data)%nat ->
  Icmpv6Repr.emit_contained_packet (t :: c :: x :: y :: q0 :: q1 :: q2 :: q3 :: rest) h data =
    Ret (t :: c :: x :: y :: q0 :: q1 :: q2 :: q3 :: ipv6_octets h ++ data).
Proof.
  intros Hh (Hwf & Hbd & Hl) Hb Hr. pose proof (length_ipv6_octets h Hwf) as H40. unfold Icmpv6Repr.emit_contained_packet, Icmpv6Packet.with_payload_mut.
  rewrite Hh. cbn [mbind outcome_bind]. rewrite range_from by (cbn [length]; lia). cbn [mbind outcome_bind drop]. rewrite drop_0.
  rewrite ipv6_emit_octets by (done || lia). cbn [mbind outcome_bind]. change (Ipv6Repr.buffer_len h) with 40%nat.
  rewrite range_from by (rewrite length_app; lia). cbn [mbind outcome_bind]. rewrite drop_app_length' by done. rewrite Nat.min_l by exact Hl.
  rewrite range_to by lia. cbn [mbind outcome_bind]. rewrite (take_ge data) by lia. rewrite put_slice_ok by (rewrite ?length_drop; lia).
  cbn [mbind outcome_bind]. rewrite take_0, drop_drop. cbn [app]. rewrite (drop_ge rest (40 + length data)), app_nil_r by lia.
  rewrite <- H40 at 2. rewrite splice_tail by (rewrite length_drop; lia).
  by rewrite (splice_tail [t; c; x; y; q0; q1; q2; q3] rest) by (rewrite length_app; lia).
Qed.

Lemma quoted_back t c u v q0 q1 q2 q3 h data : Icmpv6Packet.header_len (t :: c :: u :: v :: q0 :: q1 :: q2 :: q3 :: ipv6_octets h ++ data) = Ret 8%nat ->
  ipv6_repr_wf h ->
  Icmpv6Repr.create_packet_from_payload (t :: c :: u :: v :: q0 :: q1 :: q2 :: q3 :: ipv6_octets h ++ data) = Ret (Ok (data, h)).
Proof.
  intros Hh Hwf. pose proof (length_ipv6_octets h Hwf) as H40. unfold Icmpv6Repr.create_packet_from_payload, Icmpv6Packet.payload. rewrite Hh. cbn [mbind outcome_bind].
  rewrite range_from by (cbn [length]; lia). cbn [mbind outcome_bind drop]. rewrite drop_0. unfold IPV6_HEADER_LEN.
  rewrite (proj2 (Nat.leb_le _ _)) by (rewrite length_app; lia). cbn [negb]. change (Ipv6Packet.header_len (ipv6_octets h ++ data)) with 40%nat.
  rewrite range_from by (rewrite length_app; lia). cbn [mbind outcome_bind]. rewrite drop_app_length' by done.
  destruct (ipv6_fields h data Hwf) as (_ & -> & -> & -> & -> & ->). cbn [mbind outcome_bind]. rewrite Nat2Z.id. by destruct h.
Qed.

Lemma icmpv6_checked t c u v rest hl : Icmpv6Packet.header_len (t :: c :: u :: v :: rest) = Ret hl -> (8 <= hl <= 4 + length rest)%nat ->
  Icmpv6Packet.check_len (t :: c :: u :: v :: rest) = Ret (Ok ()).
Proof.
  intros Hh Hl. unfold Icmpv6Packet.check_len. cbn [length]. rewrite (proj2 (Nat.ltb_ge _ _)) by lia. rewrite Hh.
  unfold Icmpv6Packet.header_len in Hh. destruct (Icmpv6Packet.msg_type _) as [m|]; [|done]. cbn [mbind outcome_bind] in *.
  injection Hh as Hh. destruct m; try (rewrite !(proj2 (Nat.ltb_ge _ _)) by lia; done); lia.
Qed.

(** [parse] of a message of a known type, its checksum not looked at. *)
Ltac parse_known hl :=
  unfold Icmpv6Repr.parse; rewrite (icmpv6_checked _ _ _ _ _ hl) by (done || (cbn [length]; rewrite ?length_app; cbn [length]; lia)); cbn [try_bind];
  change (Checksum.rx (caps_icmpv6 ChecksumCapabilities.ignored)) with false; unfold Icmpv6Packet.msg_type, Icmpv6Packet.msg_code;
  cbn [get_byte lookup list_lookup unwrap mbind outcome_bind];
  match goal with |- context [Icmpv6Message.from ?n] => let m := eval cbv in (Icmpv6Message.from n) in change (Icmpv6Message.from n) with m end;
  cbn match.

(** The first octets of an error message. *)
Ltac error_octets rest Hb Hl :=
  cbn [Icmpv6Repr.buffer_len] in Hl; change (Ipv6Repr.buffer_len _) with 40%nat in Hl;
  rewrite Nat.min_l in Hl by (unfold MAX_ERROR_PACKET_LEN, IPV6_MIN_MTU, IPV6_HEADER_LEN in *; lia);
  do 4 (destruct rest as [|? rest]; [cbn [length] in Hl; lia|]); cbn [length] in Hl;
  do 4 (apply Forall_cons_1 in Hb as [? Hb]); cbn [Icmpv6Repr.emit_message]; rewrite type_and_code.

Lemma error_emitted t c q x y rest h data r :
  length q = 4%nat -> byte t -> byte c -> bytes q -> Icmpv6Packet.header_len (t :: c :: x :: y :: q ++ rest) = Ret 8%nat ->
  quote_wf h data -> bytes rest -> length rest = (40 + length data)%nat ->
  (forall src dst u v, Icmpv6Repr.parse src dst (t :: c :: u :: v :: q ++ ipv6_octets h ++ data) ChecksumCapabilities.ignored = Ret (Ok r)) ->
  exists t' c' rest', Icmpv6Repr.emit_contained_packet (t :: c :: x :: y :: q ++ rest) h data = Ret (t' :: c' :: x :: y :: rest') /\
    byte t' /\ byte c' /\ bytes rest' /\ length rest' = (4 + length rest)%nat /\
    forall src dst u v, Icmpv6Repr.parse src dst (t' :: c' :: u :: v :: rest') ChecksumCapabilities.ignored = Ret (Ok r).
Proof.
  intros Hq Ht Hc Hbq Hh Hw Hb Hl Hp. pose proof Hw as (Hwf & Hd & _). exists t, c, (q ++ ipv6_octets h ++ data).
  destruct q as [|q0 [|q1 [|q2 [|q3 [|]]]]]; try done. cbn [app] in *. rewrite contained_ok by done. split_and!; try done.
  - do 4 (apply Forall_cons_1 in Hbq as [? Hbq]). do 4 (apply Forall_cons_2; [done|]). apply Forall_app_2; [by apply bytes_ipv6_octets|done].
  - cbn [length]. rewrite length_app, length_ipv6_octets by done. lia.
Qed.

Lemma errors_emit r : icmpv6_wf r ->
  match r with Icmpv6DstUnreachable _ _ _ | Icmpv6PktTooBig _ _ _ | Icmpv6TimeExceeded _ _ _ | Icmpv6ParamProblem _ _ _ _ => True | _ => False end ->
  icmpv6_emits r.
Proof.
  intros Hwf Hr x0 x1 x y rest Hb Hl. destruct r as [reason h data|mtu h data|reason h data|reason p h data| | | |]; try done; cbn [icmpv6_wf] in Hwf;
    destruct_and! Hwf; match goal with H : quote_wf h data |- _ => pose proof H as (Hh & Hd & Hld) end;
    pose proof (length_ipv6_octets h Hh) as H40; pose proof (bytes_ipv6_octets h Hh) as Hbh; error_octets rest Hb Hl.
  - apply (error_emitted 1 _ [_; _; _; _]); try done; [by repeat apply Forall_cons_2|lia|]. intros src dst u v. cbn [app].
    parse_known 8%nat. rewrite quoted_back by done. cbn [try_bind]. by rewrite H1.
  - unfold Icmpv6Packet.set_pkt_too_big_mtu. rewrite put_u32_octets by (cbn [length]; done || lia). cbn [mbind outcome_bind take drop]. rewrite drop_0.
    apply (error_emitted 2 0 (be32 mtu)); try done; [by apply be32_bytes|lia|]. intros src dst u v. cbn [app be32].
    parse_known 8%nat. rewrite quoted_back by done. cbn [try_bind]. unfold Icmpv6Packet.pkt_too_big_mtu.
    by rewrite (get_u32_at [2; 0; u; v] mtu (ipv6_octets h ++ data) 4 8 eq_refl eq_refl).
  - apply (error_emitted 3 _ [_; _; _; _]); try done; [by repeat apply Forall_cons_2|lia|]. intros src dst u v. cbn [app].
    parse_known 8%nat. rewrite quoted_back by done. cbn [try_bind]. by rewrite H1.
  - unfold Icmpv6Packet.set_param_problem_ptr. rewrite put_u32_octets by (cbn [length]; done || lia). cbn [mbind outcome_bind take drop]. rewrite drop_0.
    apply (error_emitted 4 _ (be32 p)); try done; [by apply be32_bytes|lia|]. intros src dst u v. cbn [app be32].
    parse_known 8%nat. rewrite quoted_back by done. cbn [try_bind]. unfold Icmpv6Packet.param_problem_ptr.
    rewrite (get_u32_at [4; Icmpv6ParamProblem.into reason; u; v] p (ipv6_octets h ++ data) 4 8 eq_refl eq_refl) by done. cbn [mbind outcome_bind]. by rewrite H1.
Qed.

(** Filling the payload of a message with data of its length. *)
Lemma fill_payload_ok hdr rest data : Icmpv6Packet.header_len (hdr ++ rest) = Ret (length hdr) -> length data = length rest ->
  Icmpv6Packet.with_payload_mut (fun d => put_slice 0 (length d) data d) (hdr ++ rest) = Ret (hdr ++ data).
Proof.
  intros Hh Hl. unfold Icmpv6Packet.with_payload_mut. rewrite Hh. cbn [mbind outcome_bind]. rewrite range_from by (rewrite length_app; lia).
  cbn [mbind outcome_bind]. rewrite drop_app_length, put_slice_ok by lia. cbn [mbind outcome_bind]. rewrite take_0, drop_all, app_nil_r.
  cbn [app]. by rewrite splice_tail.
Qed.

Lemma echo_emitted ty ident seq_no data x0 x1 x y rest (t := Icmpv6Message.into ty) :
  (ty = Icmpv6Message.EchoRequest \/ ty = Icmpv6Message.EchoReply) -> word ident -> word seq_no -> bytes data -> (4 + length rest = 8 + length data)%nat ->
  Icmpv6Repr.emit_echo ty ident seq_no data (x0 :: x1 :: x :: y :: rest) = Ret (t :: 0 :: x :: y :: be16 ident ++ be16 seq_no ++ data).
Proof.
  intros Hty Hi Hs Hd Hl. do 4 (destruct rest as [|? rest]; [cbn [length] in Hl; lia|]). cbn [length] in Hl. unfold Icmpv6Repr.emit_echo.
  rewrite type_and_code. unfold Icmpv6Packet.set_echo_ident, Icmpv6Packet.set_echo_seq_no. fold t.
  rewrite put_u16_octets by (cbn [length]; done || lia). cbn [mbind outcome_bind take drop app be16].
  rewrite put_u16_octets by (cbn [length]; done || lia). cbn [mbind outcome_bind take drop app be16]. rewrite drop_0.
  unfold Icmpv6Packet.with_payload_mut. assert (Icmpv6Packet.header_len (t :: 0 :: x :: y :: ident / 256 :: ident mod 256 :: seq_no / 256 :: seq_no mod 256 :: rest) = Ret 8%nat) as ->
    by (unfold t; by destruct Hty; subst ty). cbn [mbind outcome_bind]. rewrite range_from by (cbn [length]; lia). cbn [mbind outcome_bind drop]. rewrite drop_0.
  rewrite Nat.min_r by lia. rewrite range_to by lia. cbn [mbind outcome_bind]. rewrite take_ge by lia. rewrite put_slice_ok by lia. cbn [mbind outcome_bind].
  rewrite take_0, drop_ge, app_nil_r by lia. cbn [app].
  by rewrite (splice_tail [t; 0; x; y; ident / 256; ident mod 256; seq_no / 256; seq_no mod 256] rest) by lia.
Qed.

Lemma echoes_emit ident seq_no data : word ident -> word seq_no -> bytes data ->
  icmpv6_emits (Icmpv6EchoRequest ident seq_no data) /\ icmpv6_emits (Icmpv6EchoReply ident seq_no data).
Proof.
  intros Hi Hs Hd. assert (bytes (be16 ident ++ be16 seq_no ++ data)) as Hb by (apply Forall_app_2; [by apply be16_bytes|apply Forall_app_2; [by apply be16_bytes|done]]).
  split; intros x0 x1 x y rest _ Hl; cbn [Icmpv6Repr.buffer_len] in Hl; cbn [Icmpv6Repr.emit_message]; rewrite echo_emitted by auto;
    (eexists _, _, _; split; [reflexivity|]; split_and!; [by_decide|by_decide|done|rewrite !length_app; cbn [length be16]; lia|]);
    intros src dst u v; cbn [app be16]; parse_known 8%nat; unfold Icmpv6Packet.echo_ident, Icmpv6Packet.echo_seq_no, Icmpv6Packet.payload;
    rewrite (get_u16_octets 4 6 _ (ident / 256) (ident mod 256)) by (done || by apply word_octets);
    rewrite (get_u16_octets 6 8 _ (seq_no / 256) (seq_no mod 256)) by (done || by apply word_octets);
    cbn [mbind outcome_bind]; rewrite <- !Z.div_mod by lia;
    match goal with |- context [Icmpv6Packet.header_len ?p] => change (Icmpv6Packet.header_len p) with (@Ret nat 8%nat) end;
    cbn [mbind outcome_bind]; rewrite range_from by (cbn [length]; lia); cbn [mbind outcome_bind drop]; by rewrite drop_0.
Qed.

(** The flags of a multicast listener query. *)
Definition query_byte (s_flag : bool) (qrv : Z) : Z := Z.lor (if s_flag then 8 else 0) qrv.

Lemma query_byte_ok (s_flag : bool) qrv b : 0 <= qrv < 8 -> byte b ->
  Z.lor (Z.land (if s_flag then Z.lor 0x8 (Z.land (Z.land b 0xf) 0x7) else Z.land (Z.land b 0xf) 0x7) 0x8) (Z.land qrv 0x7) = query_byte s_flag qrv /\
  byte (query_byte s_flag qrv) /\ negb (Z.land (query_byte s_flag qrv) 0x08 =? 0) = s_flag /\ Z.land (query_byte s_flag qrv) 0x7 = qrv.
Proof.
  intros Hq Hb. assert (qrv = 0 \/ qrv = 1 \/ qrv = 2 \/ qrv = 3 \/ qrv = 4 \/ qrv = 5 \/ qrv = 6 \/ qrv = 7) as E by lia.
  split; [|destruct s_flag; decompose [or] E; subst qrv; split_and!; done || by_decide].
  assert (Z.land qrv 7 = qrv) as -> by (decompose [or] E; by subst qrv). unfold query_byte. f_equal.
  destruct s_flag.
  - apply Z.bits_inj'. intros n Hn. rewrite Z.land_spec, Z.lor_spec. by destruct (Z.testbit 8 n), (Z.testbit (Z.land (Z.land b 15) 7) n).
  - rewrite <- Z.land_assoc. apply Z.land_0_r.
Qed.

Lemma s_flag_octet (s_flag : bool) data z : data !! 24%nat = Some z ->
  (if s_flag then MldPacket.set_s_flag data else MldPacket.clear_s_flag data) =
    Ret (<[24%nat := if s_flag then Z.lor 0x8 (Z.land z 0x7) else Z.land z 0x7]> data).
Proof. intros H. destruct s_flag; unfold MldPacket.set_s_flag, MldPacket.clear_s_flag; by erewrite update_octet by done. Qed.

Definition query_octets (code : Z) (addr : list Z) (s_flag : bool) (qrv qqic n : Z) : list Z :=
  be16 code ++ [0; 0] ++ addr ++ [query_byte s_flag qrv; qqic] ++ be16 n.

Lemma query_emitted code addr s_flag qrv qqic n data x0 x1 x y rest (r := MldQuery code addr s_flag qrv qqic n data) :
  mld_parsed r -> bytes rest -> (4 + length rest = 28 + length data)%nat ->
  MldRepr.emit r (x0 :: x1 :: x :: y :: rest) = Ret (130 :: 0 :: x :: y :: query_octets code addr s_flag qrv qqic n ++ data).
Proof.
  intros (Hc & [Ha _] & Hq & Hqq & Hn & _) Hb Hl. unfold r. clear r. do 24 (destruct rest as [|? rest]; [cbn [length] in Hl; lia|]). cbn [length] in Hl.
  do 16 (destruct addr as [|? addr]; [done|]). destruct addr; [|done]. unfold query_octets. cbn [MldRepr.emit]. rewrite type_and_code.
  do 20 (apply Forall_cons_1 in Hb as [_ Hb]). apply Forall_cons_1 in Hb as [Hz _].
  unfold Icmpv6Packet.clear_reserved, Icmpv6Packet.msg_type, MldPacket.set_max_resp_code, MldPacket.set_mcast_addr,
    MldPacket.set_qrv, MldPacket.set_qqic, MldPacket.set_num_srcs.
  cbn [get_byte lookup list_lookup unwrap mbind outcome_bind]. change (Icmpv6Message.from (Icmpv6Message.into Icmpv6Message.MldQuery)) with Icmpv6Message.MldQuery. cbn match.
  rewrite put_u16_octets by (cbn [length]; done || lia). cbn [mbind outcome_bind take drop app be16]. erewrite update_octet by done. cbn [mbind outcome_bind insert list_insert].
  rewrite put_u16_octets by (cbn [length]; done || lia). cbn [mbind outcome_bind take drop app be16].
  rewrite put_slice_ok by (cbn [length]; done || lia). cbn [mbind outcome_bind take drop app].
  erewrite s_flag_octet by done. cbn [mbind outcome_bind insert list_insert]. rewrite (proj2 (Z.ltb_lt _ _)) by lia. cbn [rust_assert mbind outcome_bind].
  erewrite update_octet by done. cbn [mbind outcome_bind insert list_insert]. destruct (query_byte_ok s_flag qrv z19 Hq Hz) as (-> & _).
  rewrite set_octet by (cbn [length]; lia). cbn [mbind outcome_bind insert list_insert].
  rewrite put_u16_octets by (cbn [length]; done || lia). cbn [mbind outcome_bind take drop app be16]. rewrite drop_0.
  refine (fill_payload_ok [_; _; _; _; _; _; _; _; _; _; _; _; _; _; _; _; _; _; _; _; _; _; _; _; _; _; _; _] rest data _ _); [done|lia].
Qed.

Lemma query_back code addr s_flag qrv qqic n data u v (r := MldQuery code addr s_flag qrv qqic n data) :
  mld_parsed r -> MldRepr.parse (130 :: 0 :: u :: v :: query_octets code addr s_flag qrv qqic n ++ data) = Ret (Ok r).
Proof.
  intros (Hc & [Ha _] & Hq & Hqq & Hn & _). unfold r. clear r. do 16 (destruct addr as [|? addr]; [done|]). destruct addr; [|done].
  destruct (query_byte_ok s_flag qrv 0 Hq) as (_ & _ & Hs & Hv); [by_decide|]. unfold query_octets. cbn [app be16]. unfold MldRepr.parse.
  rewrite (icmpv6_checked _ _ _ _ _ 28%nat) by (done || (cbn [length]; lia)). cbn [try_bind]. unfold Icmpv6Packet.msg_type, MldPacket.max_resp_code, MldPacket.mcast_addr,
    MldPacket.s_flag, MldPacket.qrv, MldPacket.qqic, MldPacket.num_srcs, Icmpv6Packet.payload.
  cbn [get_byte lookup list_lookup unwrap mbind outcome_bind]. change (Icmpv6Message.from 130) with Icmpv6Message.MldQuery. cbn match.
  rewrite (get_u16_octets 4 6 _ (code / 256) (code mod 256)) by (done || by apply word_octets).
  rewrite (get_u16_octets 26 28 _ (n / 256) (n mod 256)) by (done || by apply word_octets). cbn [mbind outcome_bind].
  rewrite range_Ret by (cbn [length]; lia). cbn [mbind outcome_bind]. unfold slice. cbn [drop Nat.sub take]. unfold Ipv6Address.from_bytes.
  match goal with |- context [(length ?l =? 16)%nat] => change (length l =? 16)%nat with true end. cbn [mbind outcome_bind].
  match goal with |- context [Icmpv6Packet.header_len ?p] => change (Icmpv6Packet.header_len p) with (@Ret nat 28%nat) end. cbn [mbind outcome_bind].
  rewrite range_from by (cbn [length]; lia). cbn [mbind outcome_bind drop]. rewrite drop_0, Hs, Hv, <- !Z.div_mod by lia. done.
Qed.

Lemma report_emitted n data x0 x1 x y rest : word n -> (4 + length rest = 8 + length data)%nat ->
  MldRepr.emit (MldReport n data) (x0 :: x1 :: x :: y :: rest) = Ret (143 :: 0 :: x :: y :: 0 :: 0 :: be16 n ++ data).
Proof.
  intros Hn Hl. do 4 (destruct rest as [|? rest]; [cbn [length] in Hl; lia|]). cbn [length] in Hl. cbn [MldRepr.emit]. rewrite type_and_code.
  unfold Icmpv6Packet.clear_reserved, Icmpv6Packet.msg_type, MldPacket.set_nr_mcast_addr_rcrds. cbn [get_byte lookup list_lookup unwrap mbind outcome_bind].
  change (Icmpv6Message.from (Icmpv6Message.into Icmpv6Message.MldReport)) with Icmpv6Message.MldReport. cbn match.
  rewrite put_u16_octets by (cbn [length]; done || lia). cbn [mbind outcome_bind take drop app be16].
  rewrite put_u16_octets by (cbn [length]; done || lia). cbn [mbind outcome_bind take drop app be16]. rewrite drop_0.
  refine (fill_payload_ok [_; _; _; _; _; _; _; _] rest data _ _); [done|lia].
Qed.

Lemma mlds_emit m : mld_parsed m -> icmpv6_emits (Icmpv6Mld m).
Proof.
  intros Hm x0 x1 x y rest Hb Hl. cbn [Icmpv6Repr.buffer_len Icmpv6Repr.emit_message] in *. destruct m as [code addr s_flag qrv qqic n data|n data]; cbn [MldRepr.buffer_len] in Hl.
  - pose proof Hm as (Hc & [Hla Hba] & Hq & Hqq & Hn & Hd). rewrite query_emitted by done. destruct (query_byte_ok s_flag qrv 0 Hq) as (_ & Hqb & _); [by_decide|].
    eexists _, _, _. split; [reflexivity|]. split; [by_decide|]. split; [by_decide|]. split_and!.
    + unfold query_octets. repeat apply Forall_app_2; try done; try (by apply be16_bytes); repeat apply Forall_cons_2; done || by_decide.
    + unfold query_octets. rewrite !length_app, Hla. cbn [length be16]. lia.
    + intros src dst u v. pose proof (query_back code addr s_flag qrv qqic n data u v Hm) as Hp. revert Hp.
      assert (24 <= length (query_octets code addr s_flag qrv qqic n ++ data))%nat by (unfold query_octets; rewrite !length_app, Hla; cbn [length be16]; lia).
      generalize dependent (query_octets code addr s_flag qrv qqic n ++ data). intros l Hl' Hp. parse_known 28%nat.
      cbn [Icmpv6Message.is_ndisc Icmpv6Message.is_mld]. by rewrite Hp.
  - destruct Hm as [Hn Hd]. rewrite report_emitted by done. eexists _, _, _. split; [reflexivity|]. split; [by_decide|]. split; [by_decide|]. split_and!.
    + do 2 (apply Forall_cons_2; [by_decide|]). apply Forall_app_2; [by apply be16_bytes|done].
    + cbn [length app be16]. lia.
    + intros src dst u v. cbn [app be16]. parse_known 8%nat. cbn [Icmpv6Message.is_ndisc Icmpv6Message.is_mld]. unfold MldRepr.parse.
      rewrite (icmpv6_checked _ _ _ _ _ 8%nat) by (done || (cbn [length]; lia)). cbn [try_bind]. unfold Icmpv6Packet.msg_type, MldPacket.nr_mcast_addr_rcrds, Icmpv6Packet.payload.
      cbn [get_byte lookup list_lookup unwrap mbind outcome_bind]. change (Icmpv6Message.from 143) with Icmpv6Message.MldReport. cbn match.
      rewrite (get_u16_octets 6 8 _ (n / 256) (n mod 256)) by (done || by apply word_octets). cbn [mbind outcome_bind].
      match goal with |- context [Icmpv6Packet.header_len ?p] => change (Icmpv6Packet.header_len p) with (@Ret nat 8%nat) end. cbn [mbind outcome_bind].
      rewrite range_from by (cbn [length]; lia). cbn [mbind outcome_bind drop]. rewrite drop_0, <- !Z.div_mod by lia. done.
Qed.

Lemma ndiscs_emit n : ndisc_wf n -> icmpv6_emits (Icmpv6Ndisc n).
Proof.
  intros Hn x0 x1 x y rest Hb Hl. cbn [Icmpv6Repr.buffer_len Icmpv6Repr.emit_message] in *.
  destruct (ndisc_emit_ok n Hn x0 x1 x y rest Hb Hl) as (rest' & He & Hb' & Hl' & Hr).
  eexists _, _, rest'. split; [exact He|]. split; [destruct n; by_decide|]. split; [by_decide|]. split; [done|]. split; [done|].
  intros src dst u v. specialize (Hr u v). unfold Icmpv6Repr.parse. pose proof Hr as Hc. unfold NdiscRepr.parse in Hc.
  destruct (Icmpv6Packet.check_len _) as [[[]|]|]; cbn [try_bind] in Hc |- *; try done. clear Hc.
  change (Checksum.rx (caps_icmpv6 ChecksumCapabilities.ignored)) with false. cbn [mbind outcome_bind].
  destruct n; unfold Icmpv6Packet.msg_type, Icmpv6Packet.msg_code; cbn [get_byte lookup list_lookup unwrap mbind outcome_bind ndisc_type] in *;
    match goal with |- context [Icmpv6Message.from ?n] => let m := eval cbv in (Icmpv6Message.from n) in change (Icmpv6Message.from n) with m end; cbn match;
    cbn [Icmpv6Message.is_ndisc]; by rewrite Hr.
Qed.

Lemma icmpv6_message_ok r : icmpv6_wf r -> icmpv6_emits r.
Proof.
  intros Hr. destruct r; cbn [icmpv6_wf] in Hr.
  1-4: by apply errors_emit.
  1-2: destruct Hr as (? & ? & ?); by apply echoes_emit.
  - by apply ndiscs_emit.
  - by apply mlds_emit.
Qed.

Lemma icmpv6_emit_parse_ok r src dst packet caps :
  icmpv6_wf r -> address_wf (Ipv6 src) -> address_wf (Ipv6 dst) -> bytes packet ->
  length packet = Icmpv6Repr.buffer_len r -> Z.of_nat (length packet) <= 131000 ->
  (Checksum.rx (caps_icmpv6 caps) = true -> Checksum.tx (caps_icmpv6 caps) = true) ->
  exists octets, Icmpv6Repr.emit r src dst packet caps = Ret octets /\ length octets = length packet /\ bytes octets /\
    Icmpv6Repr.parse src dst octets caps = Ret (Ok r).
Proof.
  intros Hr Hs Hd Hb Hl Hn Hcaps. assert (4 <= length packet)%nat as H4 by (rewrite Hl; destruct r as [| | | | | |[]|[]]; cbn; lia).
  destruct packet as [|x0 [|x1 [|x [|y rest]]]]; [cbn in H4; lia..|]. do 4 (apply Forall_cons_1 in Hb as [? Hb]).
  destruct (icmpv6_message_ok r Hr x0 x1 x y rest Hb Hl) as (t & c & rest' & He & Ht & Hc & Hb' & Hl' & Hp). unfold Icmpv6Repr.emit. rewrite He. cbn [mbind outcome_bind].
  assert (forall u v ok, Icmpv6Packet.verify_checksum src dst (t :: c :: u :: v :: rest') = Ret ok -> ok = true \/ Checksum.rx (caps_icmpv6 caps) = false ->
    Icmpv6Repr.parse src dst (t :: c :: u :: v :: rest') caps = Ret (Ok r)) as Hparse.
  { intros u v ok Hv Hok. rewrite <- (Hp src dst u v). apply (icmpv6_parse_checked _ _ _ caps) in Hv.
    - rewrite Hv. destruct Hok as [-> | ->]; by rewrite ?andb_false_r.
    - specialize (Hp src dst u v). unfold Icmpv6Repr.parse in Hp. by destruct (Icmpv6Packet.check_len _) as [[[]|]|]. }
  cbn [length] in Hn, Hl'. destruct (Checksum.tx (caps_icmpv6 caps)) eqn:Htx.
  - destruct (icmpv6_fill_checksum src dst t c x y rest') as (u & v & Hu & Hv & Hf & Hver); try done; [lia|]. rewrite Hf. eexists. split; [done|].
    split; [cbn [length]; lia|]. split; [by repeat apply Forall_cons_2|]. eauto.
  - rewrite icmpv6_set_checksum by (unfold word; lia). eexists. split; [done|]. split; [cbn [length]; lia|].
    assert (bytes (t :: c :: 0 / 256 :: 0 mod 256 :: rest')) as Hbo by (repeat apply Forall_cons_2; try done; by_decide). split; [done|].
    destruct (icmpv6_verify_ok src dst _ Hs Hd Hbo) as [ok Hv]; [cbn [length]; lia|]. apply (Hparse _ _ ok Hv). right.
    destruct (Checksum.rx (caps_icmpv6 caps)); [|done]. by discriminate Hcaps.
Qed.

(** C37: a well-formed ICMPv6 message - an error that quotes a packet that fits the
    minimum MTU, an echo, a neighbor discovery message with its options, a multicast
    listener message - that is emitted into a buffer of its length, whatever the
    buffer held, parses to itself under the addresses its checksum was computed
    with; with checksums left out on both sides it does so too. *)
Theorem icmpv6_emit_parse_roundtrip r src dst packet caps :
  icmpv6_wf r -> address_wf (Ipv6 src) -> address_wf (Ipv6 dst) -> bytes packet ->
  length packet = Icmpv6Repr.buffer_len r -> Z.of_nat (length packet) <= 131000 ->
  (Checksum.rx (caps_icmpv6 caps) = true -> Checksum.tx (caps_icmpv6 caps) = true) ->
  exists octets, Icmpv6Repr.emit r src dst packet caps = Ret octets /\ length octets = length packet /\ bytes octets /\
    Icmpv6Repr.parse src dst octets caps = Ret (Ok r).
Proof. apply icmpv6_emit_parse_ok. Qed.
End RoundTrip.

(** A neighbor solicitation for fe80::1 with a link-layer address, in a buffer that
    held something else. *)
Module Icmpv6Witness.
#[local] Existing Instance network_endian.
#[local] Existing Instance network_endian_laws.
#[local] Existing Instance network_endian24.
#[local] Existing Instance network_endian24_laws.
#[local] Instance router_flags : Bitflags ROUTER_FLAGS_ALL := int_flags ROUTER_FLAGS_ALL.
#[local] Instance router_laws : BitflagsLaws router_flags := int_flags_laws ROUTER_FLAGS_ALL.
#[local] Instance neighbor_flags : Bitflags NEIGHBOR_FLAGS_ALL := int_flags NEIGHBOR_FLAGS_ALL.
#[local] Instance neighbor_laws : BitflagsLaws neighbor_flags := int_flags_laws NEIGHBOR_FLAGS_ALL.

Definition lladdr : RawHardwareAddress.t := RawHardwareAddress.mk 6 [2; 0; 0; 0; 0; 1; 0; 0].
Definition target : list Z := [0xfe; 0x80; 0; 0; 0; 0; 0; 0; 0; 0; 0; 0; 0; 0; 0; 1].
Definition solicit : Icmpv6Repr := Icmpv6Ndisc (NeighborSolicit target (Some lladdr)).
Definition caps : ChecksumCapabilities := ChecksumCapabilities.default.

Lemma icmpv6_emit_parse_roundtrip_witness :
  exists octets, Icmpv6Repr.emit solicit target target (replicate 32 0xaa) caps = Ret octets /\ length octets = 32%nat /\ bytes octets /\
    Icmpv6Repr.parse target target octets caps = Ret (Ok solicit).
Proof.
  apply (icmpv6_emit_parse_roundtrip solicit target target (replicate 32 0xaa) caps).
  - split; [split; by_decide|]. exists [2; 0; 0; 0; 0; 1]. split; [by left|]. split; [by_decide|reflexivity].
  - split; by_decide.
  - split; by_decide.
  - by_decide.
  - reflexivity.
  - by_decide.
  - done.
Defined.

(** A redirect with a link-layer address does not read back: [emit] writes the
    address into a target option, [parse] looks for it in a source option. *)
Theorem redirect_loses_lladdr (msg : Icmpv6Repr := Icmpv6Ndisc (Redirect target target (Some lladdr) None)) :
  exists octets, Icmpv6Repr.emit msg target target (replicate 48 0) caps = Ret octets /\
    Icmpv6Repr.parse target target octets caps = Ret (Ok (Icmpv6Ndisc (Redirect target target None None))).
Proof. eexists. split; [vm_compute; reflexivity|]. vm_compute. reflexivity. Qed.
End Icmpv6Witness.
