(* ===== verification/Cidr.v ===== *)
(** * CIDR blocks (src/wire/ipv4.rs, src/wire/ipv6.rs, src/wire/ip.rs)

    A block is an address and the length of its prefix.  The operations shift
    and mask octets or 32-bit numbers; the theorems relate them to the bits of
    the addresses: a block is the set of the addresses that agree with its address
    on the first [prefix_len] bits. *)

From S2P Require Import Prelude Bytes Octets Ip.
Open Scope Z_scope.

(** [x << n] and [x >> n] on [u32]: the amount is checked, the bits shifted out
    are lost. *)
Definition shl_u32 (x n : Z) : outcome Z :=
  if n <? 32 then Ret (wrap_u 32 (Z.shiftl x n)) else Panic.
Definition shr_u32 (x n : Z) : outcome Z := if n <? 32 then Ret (Z.shiftr x n) else Panic.

(** The octets of a [u32], most significant first. *)
Definition octets_u32 (number : Z) : list Z :=
  [ Z.land (Z.shiftr number 24) 0xff; Z.land (Z.shiftr number 16) 0xff;
    Z.land (Z.shiftr number 8) 0xff; Z.land (Z.shiftr number 0) 0xff ].

(** [leading_zeros], [trailing_zeros] and [count_ones] of a [u32]. *)
Fixpoint leading_ones_from (b : bool) (n : nat) (x : Z) : nat :=
  match n with
  | O => 0
  | S n => if Bool.eqb (Z.testbit x (Z.of_nat n)) b then S (leading_ones_from b n x) else 0
  end.
Definition leading_zeros (x : Z) : nat := leading_ones_from false 32 x.

Fixpoint trailing_zeros_from (n : nat) (x : Z) : nat :=
  match n with
  | O => 0
  | S n => if Z.testbit x 0 then 0 else S (trailing_zeros_from n (Z.shiftr x 1))
  end.
Definition trailing_zeros (x : Z) : nat := trailing_zeros_from 32 x.

Fixpoint count_ones_from (n : nat) (x : Z) : nat :=
  match n with
  | O => 0
  | S n => (if Z.testbit x 0 then 1 else 0) + count_ones_from n (Z.shiftr x 1)
  end.
Definition count_ones (x : Z) : nat := count_ones_from 32 x.
Definition count_zeros (x : Z) : nat := 32 - count_ones x.

Module Ipv4Cidr.
Record t := mk { address : list Z; prefix_len : Z }.

#[global] Instance eq_dec : EqDecision t.
Proof. solve_decision. Defined.

Definition new (address : list Z) (prefix_len : Z) : outcome t :=
  if prefix_len >? 32 then Panic else Ret (mk address prefix_len).

Definition netmask (c : t) : outcome (list Z) :=
  if prefix_len c =? 0 then Ret [0; 0; 0; 0]
  else
    shift ← usub 32 (prefix_len c);
    number ← shl_u32 0xffffffff shift;
    Ret (octets_u32 number).

Definition network (c : t) : outcome t :=
  mask ← netmask c;
  Ret (mk (zip_with Z.land (address c) mask) (prefix_len c)).

Section Reading.
Context {BO : ByteOrder}.

Definition from_netmask (addr netmask : list Z) : outcome (result t WireError) :=
  netmask ← read_u32 netmask;
  if ((leading_zeros netmask =? 0) && (trailing_zeros netmask =? count_zeros netmask))%nat
  then Ret (Ok (mk addr (Z.of_nat (count_ones netmask))))
  else Ret (Err Error).

Definition broadcast (c : t) : outcome (option (list Z)) :=
  network ← network c;
  if (prefix_len network =? 31) || (prefix_len network =? 32) then Ret None
  else
    network_number ← read_u32 (address network);
    host ← shr_u32 0xffffffff (prefix_len network);
    Ret (Some (octets_u32 (Z.lor network_number host))).

Definition contains_addr (c : t) (addr : list Z) : outcome bool :=
  if prefix_len c =? 0 then Ret true
  else
    shift ← usub 32 (prefix_len c);
    self_number ← read_u32 (address c);
    self_prefix ← shr_u32 self_number shift;
    addr_number ← read_u32 addr;
    addr_prefix ← shr_u32 addr_number shift;
    Ret (self_prefix =? addr_prefix).

Definition contains_subnet (c subnet : t) : outcome bool :=
  if prefix_len c <=? prefix_len subnet then contains_addr c (address subnet) else Ret false.
End Reading.
End Ipv4Cidr.

Module Ipv6Cidr.
Record t := mk { address : list Z; prefix_len : Z }.

#[global] Instance eq_dec : EqDecision t.
Proof. solve_decision. Defined.

Definition SOLICITED_NODE_PREFIX : t :=
  mk [0xff; 0x02; 0; 0; 0; 0; 0; 0; 0; 0; 0; 0x01; 0xff; 0; 0; 0] 104.

Definition new (address : list Z) (prefix_len : Z) : outcome t :=
  _ ← rust_assert (prefix_len <=? 128);
  Ret (mk address prefix_len).

Definition contains_addr (c : t) (addr : list Z) : outcome bool :=
  if prefix_len c =? 0 then Ret true
  else
    a ← Ipv6Address.mask (prefix_len c) (address c);
    b ← Ipv6Address.mask (prefix_len c) addr;
    Ret (bool_decide (a = b)).

Definition contains_subnet (c subnet : t) : outcome bool :=
  if prefix_len c <=? prefix_len subnet then contains_addr c (address subnet) else Ret false.
End Ipv6Cidr.

Inductive IpCidr :=
| CidrIpv4 (c : Ipv4Cidr.t)
| CidrIpv6 (c : Ipv6Cidr.t).

#[export] Instance IpCidr_eq_dec : EqDecision IpCidr.
Proof. solve_decision. Defined.

Module IpCidr.
Definition new (addr : Address) (prefix_len : Z) : outcome IpCidr :=
  match addr with
  | Ipv4 addr => c ← Ipv4Cidr.new addr prefix_len; Ret (CidrIpv4 c)
  | Ipv6 addr => c ← Ipv6Cidr.new addr prefix_len; Ret (CidrIpv6 c)
  end.

Definition address (c : IpCidr) : Address :=
  match c with
  | CidrIpv4 c => Ipv4 (Ipv4Cidr.address c)
  | CidrIpv6 c => Ipv6 (Ipv6Cidr.address c)
  end.

Definition prefix_len (c : IpCidr) : Z :=
  match c with
  | CidrIpv4 c => Ipv4Cidr.prefix_len c
  | CidrIpv6 c => Ipv6Cidr.prefix_len c
  end.

Section Reading.
Context {BO : ByteOrder}.

Definition contains_addr (c : IpCidr) (addr : Address) : outcome bool :=
  match c, addr with
  | CidrIpv4 c, Ipv4 addr => Ipv4Cidr.contains_addr c addr
  | CidrIpv6 c, Ipv6 addr => Ipv6Cidr.contains_addr c addr
  | _, _ => Ret false
  end.

Definition contains_subnet (c subnet : IpCidr) : outcome bool :=
  match c, subnet with
  | CidrIpv4 c, CidrIpv4 other => Ipv4Cidr.contains_subnet c other
  | CidrIpv6 c, CidrIpv6 other => Ipv6Cidr.contains_subnet c other
  | _, _ => Ret false
  end.
End Reading.
End IpCidr.

(** *** Subnet masks: [Address::prefix_len] *)

(** The bits of an octet: whether ones are still expected, and their number so far;
    [None] is the early return. *)
Fixpoint prefix_bits (n : nat) (byte mask : Z) (ones : bool) (prefix_len : Z) : option (bool * Z) :=
  match n with
  | O => Some (ones, prefix_len)
  | S n =>
      let one := negb (Z.land byte mask =? 0) in
      if ones then
        if one then prefix_bits n byte (Z.shiftr mask 1) true (prefix_len + 1)
        else prefix_bits n byte (Z.shiftr mask 1) false prefix_len
      else if one then None
      else prefix_bits n byte (Z.shiftr mask 1) false prefix_len
  end.

Fixpoint prefix_bytes (l : list Z) (ones : bool) (prefix_len : Z) : option Z :=
  match l with
  | [] => Some prefix_len
  | byte :: l =>
      match prefix_bits 8 byte 0x80 ones prefix_len with
      | None => None
      | Some (ones, prefix_len) => prefix_bytes l ones prefix_len
      end
  end.

Definition address_prefix_len (a : Address) : option Z := prefix_bytes (Address.as_bytes a) true 0.

(** ** Blocks as sets of addresses *)

(** Bit [i] of an address, counted from the most significant bit of the first
    octet. *)
Definition bit (o : list Z) (i : nat) : bool := Z.testbit (o !!! (i / 8)%nat) (7 - Z.of_nat (i mod 8)).

Definition same_prefix (p : nat) (a b : list Z) : Prop := forall i, (i < p)%nat -> bit a i = bit b i.

(** The number whose big-endian encoding is [l]. *)
Definition be_num (l : list Z) : Z := foldl (fun acc b => 256 * acc + b) 0 l.

Lemma be_num_snoc l b : be_num (l ++ [b]) = 256 * be_num l + b.
Proof. unfold be_num. by rewrite foldl_app. Qed.

Lemma testbit_byte_low q b i :
  byte b -> 0 <= i < 8 -> Z.testbit (256 * q + b) i = Z.testbit b i.
Proof.
  intros Hb Hi. rewrite <-(Z.mod_pow2_bits_low (256 * q + b) 8 i) by lia. f_equal.
  change (2 ^ 8) with 256. symmetry. apply (Z.mod_unique _ _ q); unfold byte in *; lia.
Qed.

Lemma testbit_byte_high q b i :
  byte b -> 8 <= i -> Z.testbit (256 * q + b) i = Z.testbit q (i - 8).
Proof.
  intros Hb Hi. replace i with ((i - 8) + 8) at 1 by lia. rewrite <-Z.div_pow2_bits by lia.
  f_equal. change (2 ^ 8) with 256. symmetry. apply (Z.div_unique _ _ _ b); unfold byte in *; lia.
Qed.

Lemma testbit_byte_over b i : byte b -> 8 <= i -> Z.testbit b i = false.
Proof.
  intros Hb Hi. pose proof (testbit_byte_high 0 b i Hb Hi) as H. rewrite Z.mul_0_r, Z.add_0_l in H.
  rewrite H. apply Z.bits_0.
Qed.

Lemma bit_split i : (i = 8 * (i / 8) + i mod 8 /\ i mod 8 < 8)%nat.
Proof. split; [apply Nat.div_mod; lia|apply Nat.mod_upper_bound; lia]. Qed.

Lemma be_num_testbit l i :
  bytes l -> (i < 8 * length l)%nat ->
  Z.testbit (be_num l) (Z.of_nat (8 * length l - 1 - i)) = bit l i.
Proof.
  induction l as [|b l IH] using rev_ind; intros Hb Hi; [cbn in Hi; lia|].
  apply Forall_app in Hb as [Hl [Hb _]%Forall_cons_1].
  rewrite be_num_snoc. rewrite length_app in *. cbn [length] in *. unfold bit.
  destruct (bit_split i) as [Hs Hm].
  destruct (decide (i < 8 * length l)%nat) as [Hlt|].
  - rewrite testbit_byte_high by (done || lia).
    rewrite lookup_total_app_l by lia. fold (bit l i). rewrite <-IH by done. f_equal. lia.
  - rewrite testbit_byte_low by (done || lia). assert (i / 8 = length l)%nat as -> by lia.
    rewrite list_lookup_total_middle by done. f_equal. lia.
Qed.

Lemma be_num_range l : bytes l -> 0 <= be_num l < 2 ^ (8 * Z.of_nat (length l)).
Proof.
  induction l as [|b l IH] using rev_ind; intros Hb; [cbn; lia|].
  apply Forall_app in Hb as [Hl [Hb _]%Forall_cons_1]. specialize (IH Hl).
  rewrite be_num_snoc, length_app. cbn [length].
  replace (8 * Z.of_nat (length l + 1)) with (8 * Z.of_nat (length l) + 8) by lia.
  rewrite Z.pow_add_r by lia. change (2 ^ 8) with 256. unfold byte in *. nia.
Qed.

Lemma testbit_over x w i : 0 <= x < 2 ^ w -> w <= i -> Z.testbit x i = false.
Proof.
  intros Hx Hi. destruct (decide (0 <= w)).
  - rewrite <-(Z.mod_small x (2 ^ w)) by done. by apply Z.mod_pow2_bits_high.
  - rewrite Z.pow_neg_r in Hx by lia. lia.
Qed.

Lemma shiftr_eq_iff x y s :
  0 <= s -> Z.shiftr x s = Z.shiftr y s <-> forall i, s <= i -> Z.testbit x i = Z.testbit y i.
Proof.
  intros Hs. split.
  - intros H i Hi. replace i with ((i - s) + s) by lia. rewrite <-!Z.shiftr_spec by lia. by rewrite H.
  - intros H. apply Z.bits_inj'. intros i Hi. rewrite !Z.shiftr_spec by lia. apply H. lia.
Qed.

Lemma byte_testbit_ext a b :
  byte a -> byte b -> (forall i, 0 <= i < 8 -> Z.testbit a i = Z.testbit b i) -> a = b.
Proof.
  intros Ha Hb H. apply Z.bits_inj'. intros i Hi. destruct (decide (i < 8)); [apply H; lia|].
  by rewrite !testbit_byte_over by (done || lia).
Qed.

Lemma bytes_bit_ext a b :
  bytes a -> bytes b -> length a = length b -> same_prefix (8 * length a) a b -> a = b.
Proof.
  intros Ha Hb Hl H. apply list_eq_same_length with (length a); [done..|].
  intros k x y Hk Hx Hy. apply byte_testbit_ext;
    [by apply (bytes_lookup a k)|by apply (bytes_lookup b k)|]. intros i Hi.
  specialize (H (8 * k + Z.to_nat (7 - i))%nat ltac:(lia)). unfold bit in H.
  replace ((8 * k + Z.to_nat (7 - i)) / 8)%nat with k in H
    by (apply Nat.div_unique with (Z.to_nat (7 - i)); lia).
  replace ((8 * k + Z.to_nat (7 - i)) mod 8)%nat with (Z.to_nat (7 - i)) in H
    by (apply Nat.mod_unique with k; lia).
  rewrite (list_lookup_total_correct a k x), (list_lookup_total_correct b k y) in H by done.
  by replace (7 - Z.of_nat (Z.to_nat (7 - i))) with i in H by lia.
Qed.

Definition max_prefix (c : IpCidr) : Z := match c with CidrIpv4 _ => 32 | CidrIpv6 _ => 128 end.

(** What [new] guarantees of a block. *)
Definition cidr_wf (c : IpCidr) : Prop :=
  address_wf (IpCidr.address c) /\ 0 <= IpCidr.prefix_len c <= max_prefix c.

(** The addresses of a block. *)
Definition in_block (c : IpCidr) (a : Address) : Prop :=
  Address.version (IpCidr.address c) = Address.version a /\
  same_prefix (Z.to_nat (IpCidr.prefix_len c))
    (Address.as_bytes (IpCidr.address c)) (Address.as_bytes a).

Section Contains.
Context {BO : ByteOrder} {NE : NetworkEndian BO}.

Lemma read_u32_be_num o : length o = 4%nat -> bytes o -> read_u32 o = Ret (be_num o).
Proof.
  intros Hl Hb. destruct o as [|a [|b [|c [|d [|]]]]]; try done.
  apply Forall_cons_1 in Hb as [Ha [Hb [Hc [Hd _]%Forall_cons_1]%Forall_cons_1]%Forall_cons_1].
  rewrite read_u32_be by done. f_equal. cbn. lia.
Qed.

Lemma shr_u32_ok x n : n < 32 -> shr_u32 x n = Ret (Z.shiftr x n).
Proof. intros. unfold shr_u32. by rewrite (proj2 (Z.ltb_lt _ _)). Qed.

Lemma shiftr_same_prefix a b p :
  length a = 4%nat -> length b = 4%nat -> bytes a -> bytes b -> 0 <= p <= 32 ->
  Z.shiftr (be_num a) (32 - p) = Z.shiftr (be_num b) (32 - p) <-> same_prefix (Z.to_nat p) a b.
Proof.
  intros Hla Hlb Ha Hb Hp. rewrite shiftr_eq_iff by lia. split; intros H.
  - intros i Hi. rewrite <-!be_num_testbit by (done || lia). rewrite Hla, Hlb. apply H. lia.
  - intros i Hi. destruct (decide (i < 32)).
    + specialize (H (Z.to_nat (31 - i)) ltac:(lia)). rewrite <-!be_num_testbit in H by (done || lia).
      rewrite Hla, Hlb in H. by replace (Z.of_nat (8 * 4 - 1 - Z.to_nat (31 - i))) with i in H by lia.
    + pose proof (be_num_range a Ha). pose proof (be_num_range b Hb). rewrite Hla, Hlb in *.
      by rewrite !(testbit_over _ 32) by lia.
Qed.

Lemma mask_octet_bits part modulus j :
  byte part -> 0 <= modulus < 8 -> 0 <= j < 8 ->
  Z.testbit (Z.land part (wrap_u 8 (Z.lnot (Z.shiftr 0xff modulus)))) j =
    (7 - j <? modulus) && Z.testbit part j.
Proof.
  intros Hb Hm Hj. rewrite Z.land_spec. unfold wrap_u. rewrite Z.mod_pow2_bits_low by lia.
  rewrite Z.lnot_spec, Z.shiftr_spec by lia. change 0xff with (Z.ones 8).
  rewrite Z.testbit_ones_nonneg by lia. rewrite andb_comm. f_equal. decide_tests; lia.
Qed.

Lemma byte_land_ff x : byte x <-> Z.land x 0xff = x.
Proof.
  change 0xff with (Z.ones 8). rewrite Z.land_ones by lia. unfold byte. split.
  - intros. apply Z.mod_small. lia.
  - intros <-. pose proof (Z.mod_pos_bound x (2 ^ 8)). lia.
Qed.

Lemma byte_of_bits x : (forall i, 8 <= i -> Z.testbit x i = false) -> byte x.
Proof.
  intros H. apply byte_land_ff, Z.bits_inj'. intros i Hi. rewrite Z.land_spec.
  change 0xff with (Z.ones 8). rewrite Z.testbit_ones_nonneg by lia.
  destruct (Z.ltb_spec i 8); [by rewrite andb_true_r|]. by rewrite H.
Qed.

Lemma land_byte a m : byte a -> byte (Z.land a m).
Proof.
  rewrite !byte_land_ff. intros Ha. rewrite <-Ha at 2. by rewrite <-!Z.land_assoc, (Z.land_comm m).
Qed.

(** [mask] keeps the first [m] bits. *)
Lemma mask_bits m o :
  length o = 16%nat -> bytes o -> 0 <= m <= 128 ->
  exists r, Ipv6Address.mask m o = Ret r /\ length r = 16%nat /\ bytes r /\
    forall i, (i < 128)%nat -> bit r i = (Z.of_nat i <? m) && bit o i.
Proof.
  intros Hl Hb Hm. unfold Ipv6Address.mask, rust_assert. rewrite (proj2 (Z.leb_le _ _)) by lia.
  cbn [mbind outcome_bind]. pose proof (Z.div_mod m 8 ltac:(lia)) as Hdm.
  pose proof (Z.mod_pos_bound m 8 ltac:(lia)).
  set (idx := Z.to_nat (m / 8)). set (md := m mod 8) in *.
  assert (idx <= 16)%nat by (unfold idx; lia).
  assert (length (take idx o ++ replicate (16 - idx) 0) = 16%nat) as Hlen
    by (rewrite length_app, length_take, length_replicate; lia).
  assert (bytes (take idx o ++ replicate (16 - idx) 0)) as Hbytes.
  { apply Forall_app; split; [by apply Forall_take|]. apply Forall_replicate. unfold byte. lia. }
  assert (forall k, (k < idx)%nat -> (take idx o ++ replicate (16 - idx) 0) !!! k = o !!! k) as Hlow.
  { intros k Hk. rewrite lookup_total_app_l by (rewrite length_take; lia).
    by rewrite lookup_total_take_lt by lia. }
  assert (forall k, (idx <= k < 16)%nat -> (take idx o ++ replicate (16 - idx) 0) !!! k = 0) as Hhigh.
  { intros k Hk. rewrite lookup_total_app_r by (rewrite length_take; lia).
    rewrite length_take. by rewrite lookup_total_replicate_2 by lia. }
  destruct (idx <? 16)%nat eqn:Hi.
  - apply Nat.ltb_lt in Hi. rewrite lookup_drop, Nat.add_0_r.
    destruct (lookup_lt_is_Some_2 o idx ltac:(lia)) as [part Hp]. rewrite Hp. cbn.
    eexists. split; [done|]. rewrite length_insert. split; [done|]. split.
    { apply Forall_insert; [done|]. apply land_byte. by apply (bytes_lookup o idx). }
    intros i Hib. unfold bit. destruct (bit_split i) as [Hs Hr].
    assert (byte part) by (by apply (bytes_lookup o idx)).
    destruct (Nat.lt_trichotomy (i / 8) idx) as [?|[Heq|?]].
    + rewrite list_lookup_total_insert_ne, Hlow by lia. rewrite (proj2 (Z.ltb_lt _ _)) by lia. done.
    + rewrite Heq, list_lookup_total_insert_eq by lia. rewrite mask_octet_bits by (done || lia).
      rewrite (list_lookup_total_correct o idx part) by done. f_equal. decide_tests; lia.
    + rewrite list_lookup_total_insert_ne, Hhigh by lia. rewrite (proj2 (Z.ltb_ge _ _)) by lia.
      by rewrite Z.bits_0.
  - apply Nat.ltb_ge in Hi. eexists. split; [done|]. split; [done|]. split; [done|].
    intros i Hib. unfold bit. destruct (bit_split i) as [Hs Hr]. rewrite Hlow by lia.
    by rewrite (proj2 (Z.ltb_lt _ _)) by lia.
Qed.

Lemma contains_addr_v4 c a :
  cidr_wf (CidrIpv4 c) -> address_wf (Ipv4 a) ->
  exists r, Ipv4Cidr.contains_addr c a = Ret r /\
    (r = true <-> same_prefix (Z.to_nat (Ipv4Cidr.prefix_len c)) (Ipv4Cidr.address c) a).
Proof.
  intros [[Hlc Hbc] Hp] [Hla Hba]. cbn in Hp. unfold Ipv4Cidr.contains_addr. case_match eqn:H0.
  - exists true. split; [done|]. apply Z.eqb_eq in H0. rewrite H0. split; [|done]. intros _ i Hi. lia.
  - apply Z.eqb_neq in H0. unfold usub. rewrite (proj2 (Z.ltb_ge _ _)) by lia.
    rewrite !read_u32_be_num by done. cbn [mbind outcome_bind].
    rewrite !shr_u32_ok by lia. cbn [mbind outcome_bind]. eexists. split; [done|].
    rewrite Z.eqb_eq. apply shiftr_same_prefix; done || lia.
Qed.

Lemma contains_addr_v6 c a :
  cidr_wf (CidrIpv6 c) -> address_wf (Ipv6 a) ->
  exists r, Ipv6Cidr.contains_addr c a = Ret r /\
    (r = true <-> same_prefix (Z.to_nat (Ipv6Cidr.prefix_len c)) (Ipv6Cidr.address c) a).
Proof.
  intros [[Hlc Hbc] Hp] [Hla Hba]. cbn in Hp. unfold Ipv6Cidr.contains_addr. case_match eqn:H0.
  - exists true. split; [done|]. apply Z.eqb_eq in H0. rewrite H0. split; [|done]. intros _ i Hi. lia.
  - destruct (mask_bits _ _ Hlc Hbc Hp) as (x & -> & Hlx & Hbx & Hx).
    destruct (mask_bits _ _ Hla Hba Hp) as (y & -> & Hly & Hby & Hy). cbn [mbind outcome_bind].
    eexists. split; [done|]. rewrite bool_decide_eq_true. split.
    + intros -> i Hi. specialize (Hx i ltac:(lia)). specialize (Hy i ltac:(lia)).
      rewrite (proj2 (Z.ltb_lt _ _)) in Hx, Hy by lia. cbn in Hx, Hy. congruence.
    + intros H. apply bytes_bit_ext; [done..|congruence|]. intros i Hi. rewrite Hx, Hy by lia.
      destruct (Z.ltb_spec (Z.of_nat i) (Ipv6Cidr.prefix_len c)); [|done]. cbn. apply H. lia.
Qed.

(** [contains_addr] never panics on a block [new] made and decides membership. *)
Lemma contains_addr_spec c a :
  cidr_wf c -> address_wf a ->
  exists r, IpCidr.contains_addr c a = Ret r /\ (r = true <-> in_block c a).
Proof.
  unfold in_block. destruct c as [c|c], a as [a|a]; cbn [IpCidr.contains_addr]; intros Hc Ha.
  - destruct (contains_addr_v4 c a Hc Ha) as (r & Hr & Hiff). exists r. split; [done|].
    rewrite Hiff. naive_solver.
  - exists false. naive_solver.
  - exists false. naive_solver.
  - destruct (contains_addr_v6 c a Hc Ha) as (r & Hr & Hiff). exists r. split; [done|].
    rewrite Hiff. naive_solver.
Qed.

Lemma same_prefix_weaken p q a b : (p <= q)%nat -> same_prefix q a b -> same_prefix p a b.
Proof. intros Hpq H i Hi. apply H. lia. Qed.

Lemma same_prefix_sym p a b : same_prefix p a b -> same_prefix p b a.
Proof. intros H i Hi. by rewrite H. Qed.

Lemma same_prefix_trans p a b c : same_prefix p a b -> same_prefix p b c -> same_prefix p a c.
Proof. intros H1 H2 i Hi. by rewrite H1, H2. Qed.

(** Complement bit [k]. *)
Definition flip (k : nat) (o : list Z) : list Z :=
  <[(k / 8)%nat := Z.lxor (o !!! (k / 8)%nat) (2 ^ (7 - Z.of_nat (k mod 8)))]> o.

Lemma flip_bytes k o : bytes o -> (k < 8 * length o)%nat -> bytes (flip k o).
Proof.
  intros Hb Hk. destruct (bit_split k) as [Hs Hm]. apply Forall_insert; [done|].
  apply byte_of_bits. intros i Hi. rewrite Z.lxor_spec, Z.pow2_bits_false by lia.
  rewrite testbit_byte_over; [done| |lia].
  apply (bytes_lookup o (k / 8)), list_lookup_lookup_total_lt; [done|lia].
Qed.

Lemma flip_bit k o i :
  (k < 8 * length o)%nat -> bit (flip k o) i = xorb (bit o i) (bool_decide (i = k)).
Proof.
  intros Hk. destruct (bit_split k) as [Hs Hm], (bit_split i) as [Hsi Hmi]. unfold bit, flip.
  destruct (decide (i / 8 = k / 8)%nat) as [Heq|Hne].
  - rewrite Heq, list_lookup_total_insert_eq by lia. rewrite Z.lxor_spec. f_equal.
    rewrite Z.pow2_bits_eqb by lia. apply eq_bool_prop_intro. rewrite bool_decide_spec.
    rewrite Is_true_true, Z.eqb_eq. lia.
  - rewrite list_lookup_total_insert_ne by done. rewrite bool_decide_eq_false_2 by congruence.
    by rewrite xorb_false_r.
Qed.

Lemma contains_subnet_unfold c d :
  cidr_wf c -> cidr_wf d ->
  exists r, IpCidr.contains_subnet c d = Ret r /\
    (r = true <-> IpCidr.prefix_len c <= IpCidr.prefix_len d /\ in_block c (IpCidr.address d)).
Proof.
  intros Hc Hd. destruct (contains_addr_spec c _ Hc (proj1 Hd)) as (r & Hr & Hiff).
  destruct c as [c|c], d as [d|d]; cbn in Hr |- *.
  - unfold Ipv4Cidr.contains_subnet. destruct (Z.leb_spec (Ipv4Cidr.prefix_len c) (Ipv4Cidr.prefix_len d)).
    + exists r. naive_solver.
    + exists false. split; [done|]. split; [done|]. intros [? _]. lia.
  - exists false. unfold in_block. naive_solver.
  - exists false. unfold in_block. naive_solver.
  - unfold Ipv6Cidr.contains_subnet. destruct (Z.leb_spec (Ipv6Cidr.prefix_len c) (Ipv6Cidr.prefix_len d)).
    + exists r. naive_solver.
    + exists false. split; [done|]. split; [done|]. intros [? _]. lia.
Qed.

Definition with_bytes (a : Address) (o : list Z) : Address :=
  match a with Ipv4 _ => Ipv4 o | Ipv6 _ => Ipv6 o end.

(** A block has an address that differs from its own in the first bit after the
    prefix. *)
Lemma block_neighbour d :
  cidr_wf d -> IpCidr.prefix_len d < max_prefix d ->
  exists a, address_wf a /\ in_block d a /\
    bit (Address.as_bytes a) (Z.to_nat (IpCidr.prefix_len d)) <>
    bit (Address.as_bytes (IpCidr.address d)) (Z.to_nat (IpCidr.prefix_len d)).
Proof.
  intros [Hwf Hp] Hlt. set (o := Address.as_bytes (IpCidr.address d)).
  set (k := Z.to_nat (IpCidr.prefix_len d)).
  assert (k < 8 * length o)%nat as Hk.
  { unfold k, o. destruct d as [d|d]; destruct Hwf as [Hl _]; cbn in Hl, Hlt, Hp |- *; lia. }
  exists (with_bytes (IpCidr.address d) (flip k o)).
  assert (Address.as_bytes (with_bytes (IpCidr.address d) (flip k o)) = flip k o) as Hb
    by (by destruct d).
  rewrite Hb. split; [|split].
  - destruct d as [d|d]; destruct Hwf as [Hl Ho]; (split; [by unfold flip; rewrite length_insert|]);
      by apply flip_bytes.
  - split; [by destruct d|]. rewrite Hb. intros i Hi. rewrite flip_bit by done.
    rewrite bool_decide_eq_false_2 by lia. by rewrite xorb_false_r.
  - rewrite flip_bit by done. rewrite bool_decide_eq_true_2 by done. by destruct (bit o k).
Qed.

Lemma own_address_in_block c : in_block c (IpCidr.address c).
Proof. by split. Qed.
End Contains.

(** ** Masks and broadcast addresses *)

Lemma bit_octets_u32 n i : (i < 32)%nat -> bit (octets_u32 n) i = Z.testbit n (31 - Z.of_nat i).
Proof.
  intros Hi. destruct (bit_split i) as [Hs Hm]. unfold bit, octets_u32.
  assert (forall k j, 0 <= j < 8 -> 0 <= k ->
    Z.testbit (Z.land (Z.shiftr n k) 0xff) j = Z.testbit n (j + k)) as Hoct.
  { intros k j Hj Hk. rewrite Z.land_spec, Z.shiftr_spec by lia. change 0xff with (Z.ones 8).
    rewrite Z.testbit_ones_nonneg, (proj2 (Z.ltb_lt _ _)) by lia. by rewrite andb_true_r. }
  assert (i / 8 < 4)%nat by lia.
  destruct (i / 8)%nat as [|[|[|[|]]]] eqn:Hq; cbn [lookup_total list_lookup_total]; try lia;
    rewrite Hoct by lia; f_equal; lia.
Qed.

Lemma octets_u32_wf n : address_wf (Ipv4 (octets_u32 n)).
Proof.
  split; [done|]. repeat apply Forall_cons_2; try apply Forall_nil_2;
    rewrite Z.land_comm; apply land_byte; unfold byte; lia.
Qed.

Lemma netmask_bits c :
  0 <= Ipv4Cidr.prefix_len c <= 32 ->
  exists m, Ipv4Cidr.netmask c = Ret m /\ address_wf (Ipv4 m) /\
    forall i, (i < 32)%nat -> bit m i = (Z.of_nat i <? Ipv4Cidr.prefix_len c).
Proof.
  intros Hp. unfold Ipv4Cidr.netmask. case_match eqn:H0.
  - apply Z.eqb_eq in H0. rewrite H0. eexists. split; [done|].
    split; [split; [done|]; repeat constructor; done|]. intros i Hi. change ([0; 0; 0; 0]) with (octets_u32 0).
    rewrite bit_octets_u32, Z.bits_0 by lia. destruct (Z.ltb_spec (Z.of_nat i) 0); [lia|done].
  - apply Z.eqb_neq in H0. unfold usub, shl_u32. rewrite (proj2 (Z.ltb_ge _ _)) by lia.
    cbn [mbind outcome_bind]. rewrite (proj2 (Z.ltb_lt _ _)) by lia. cbn [mbind outcome_bind].
    eexists. split; [done|]. split; [apply octets_u32_wf|]. intros i Hi.
    rewrite bit_octets_u32 by done. unfold wrap_u. rewrite Z.mod_pow2_bits_low by lia.
    rewrite Z.shiftl_spec by lia. change 0xffffffff with (Z.ones 32).
    destruct (Z.ltb_spec (Z.of_nat i) (Ipv4Cidr.prefix_len c)).
    + rewrite Z.testbit_ones_nonneg by lia. apply Z.ltb_lt. lia.
    + apply Z.testbit_neg_r. lia.
Qed.

Lemma bit_zip_land a m i :
  length a = length m -> (i < 8 * length a)%nat ->
  bit (zip_with Z.land a m) i = bit a i && bit m i.
Proof.
  intros Hl Hi. destruct (bit_split i) as [Hs Hm]. unfold bit.
  destruct (lookup_lt_is_Some_2 a (i / 8)%nat ltac:(lia)) as [x Hx].
  destruct (lookup_lt_is_Some_2 m (i / 8)%nat ltac:(lia)) as [y Hy].
  rewrite (list_lookup_total_correct _ _ _ Hx), (list_lookup_total_correct _ _ _ Hy).
  rewrite (list_lookup_total_correct _ _ (Z.land x y)); [apply Z.land_spec|].
  by rewrite lookup_zip_with, Hx, Hy.
Qed.

Lemma zip_land_wf a m : address_wf (Ipv4 a) -> length m = 4%nat -> address_wf (Ipv4 (zip_with Z.land a m)).
Proof.
  intros [Hl Hb] Hm. split; [rewrite length_zip_with; lia|].
  apply Forall_lookup. intros i z (x & y & -> & Hx & _)%lookup_zip_with_Some.
  by apply land_byte, (bytes_lookup a i).
Qed.

Lemma network_bits c :
  cidr_wf (CidrIpv4 c) ->
  exists n, Ipv4Cidr.network c = Ret (Ipv4Cidr.mk n (Ipv4Cidr.prefix_len c)) /\
    address_wf (Ipv4 n) /\ forall i, (i < 32)%nat ->
    bit n i = bit (Ipv4Cidr.address c) i && (Z.of_nat i <? Ipv4Cidr.prefix_len c).
Proof.
  intros [Hwf Hp]. destruct (netmask_bits c Hp) as (m & Hm & [Hlm _] & Hbits).
  unfold Ipv4Cidr.network. rewrite Hm. cbn [mbind outcome_bind]. eexists. split; [done|].
  split; [by apply zip_land_wf|]. intros i Hi. destruct Hwf as [Hl _]. cbn in Hl.
  by rewrite bit_zip_land, Hbits by lia.
Qed.

(** The broadcast address is the last address of the block; blocks of one or two
    addresses have none. *)
Lemma broadcast_spec {BO : ByteOrder} {NE : NetworkEndian BO} c :
  cidr_wf (CidrIpv4 c) ->
  exists r, Ipv4Cidr.broadcast c = Ret r /\
    match r with
    | None => 31 <= Ipv4Cidr.prefix_len c
    | Some b => Ipv4Cidr.prefix_len c < 31 /\ address_wf (Ipv4 b) /\ in_block (CidrIpv4 c) (Ipv4 b) /\
        forall i, Ipv4Cidr.prefix_len c <= Z.of_nat i < 32 -> bit b i = true
    end.
Proof.
  intros Hwf. pose proof Hwf as [_ Hp]. cbn in Hp.
  destruct (network_bits c Hwf) as (n & Hn & [Hln Hbn] & Hbits). unfold Ipv4Cidr.broadcast.
  rewrite Hn. cbn [mbind outcome_bind Ipv4Cidr.prefix_len Ipv4Cidr.address].
  destruct (Z.eqb_spec (Ipv4Cidr.prefix_len c) 31), (Z.eqb_spec (Ipv4Cidr.prefix_len c) 32);
    [exists None; split; [done|lia]..|].
  rewrite read_u32_be_num by done. cbn [mbind outcome_bind orb]. rewrite shr_u32_ok by lia.
  cbn [mbind outcome_bind]. eexists. split; [done|]. cbn beta iota.
  assert (forall i, (i < 32)%nat ->
    bit (octets_u32 (Z.lor (be_num n) (Z.shiftr 0xffffffff (Ipv4Cidr.prefix_len c)))) i =
    bit n i || (Ipv4Cidr.prefix_len c <=? Z.of_nat i)) as Hb.
  { intros i Hi. rewrite bit_octets_u32, Z.lor_spec, Z.shiftr_spec by lia.
    rewrite <-(be_num_testbit n i), Hln by (done || lia). f_equal; [f_equal; lia|].
    change 0xffffffff with (Z.ones 32). rewrite Z.testbit_ones_nonneg by lia. decide_tests; lia. }
  split; [lia|]. split; [apply octets_u32_wf|]. split.
  - split; [done|]. intros i Hi. cbn in Hi |- *. rewrite Hb, Hbits by lia.
    rewrite (proj2 (Z.ltb_lt _ _)), (proj2 (Z.leb_gt _ _)) by lia. by rewrite andb_true_r, orb_false_r.
  - intros i Hi. rewrite Hb by lia. rewrite (proj2 (Z.leb_le _ _)) by lia. apply orb_true_r.
Qed.

(** *** Netmasks *)

Lemma count_ones_le n x : (count_ones_from n x <= n)%nat.
Proof. revert x. induction n as [|n IH]; intros x; cbn; [done|]. specialize (IH (Z.shiftr x 1)). case_match; lia. Qed.

Lemma testbit_shiftr1 x i : Z.testbit (Z.shiftr x 1) (Z.of_nat i) = Z.testbit x (Z.of_nat (S i)).
Proof. rewrite Z.shiftr_spec by lia. f_equal. lia. Qed.

Lemma count_ones_all n x :
  count_ones_from n x = n -> forall i, (i < n)%nat -> Z.testbit x (Z.of_nat i) = true.
Proof.
  revert x. induction n as [|n IH]; intros x H i Hi; [lia|]. cbn [count_ones_from] in H.
  pose proof (count_ones_le n (Z.shiftr x 1)). destruct (Z.testbit x 0) eqn:Hb0; [|lia].
  destruct i as [|i]; [done|]. rewrite <-testbit_shiftr1. apply IH; lia.
Qed.

(** As many trailing zeros as zeros: a block of ones above a block of zeros. *)
Lemma mask_shape n x :
  trailing_zeros_from n x = (n - count_ones_from n x)%nat -> forall i, (i < n)%nat ->
  Z.testbit x (Z.of_nat i) = (trailing_zeros_from n x <=? i)%nat.
Proof.
  revert x. induction n as [|n IH]; intros x H i Hi; [lia|].
  cbn [count_ones_from trailing_zeros_from] in H |- *.
  pose proof (count_ones_le n (Z.shiftr x 1)). destruct (Z.testbit x 0) eqn:Hb0.
  - destruct i as [|i]; [done|]. rewrite <-testbit_shiftr1. apply count_ones_all with n; lia.
  - destruct i as [|i]; [done|]. rewrite <-testbit_shiftr1. apply IH; lia.
Qed.

Lemma mask_shape_counts n x t :
  (t <= n)%nat -> (forall i, (i < n)%nat -> Z.testbit x (Z.of_nat i) = (t <=? i)%nat) ->
  trailing_zeros_from n x = t /\ count_ones_from n x = (n - t)%nat.
Proof.
  revert x t. induction n as [|n IH]; intros x t Ht H; [cbn; lia|].
  pose proof (H 0%nat ltac:(lia)) as Hb0. cbn [count_ones_from trailing_zeros_from].
  change (Z.of_nat 0) with 0 in Hb0. rewrite Hb0. destruct t as [|t].
  - change (0 <=? 0)%nat with true. cbv beta iota. destruct (IH (Z.shiftr x 1) 0%nat ltac:(lia)) as [_ Hc]; [|lia].
    intros i Hi. rewrite testbit_shiftr1. by rewrite H by lia.
  - change (S t <=? 0)%nat with false. cbv beta iota.
    destruct (IH (Z.shiftr x 1) t ltac:(lia)) as [-> ->]; [|done].
    intros i Hi. rewrite testbit_shiftr1. by rewrite H by lia.
Qed.

Lemma leading_zeros_0 x : leading_zeros x = 0%nat <-> Z.testbit x 31 = true.
Proof.
  unfold leading_zeros. change (leading_ones_from false 32 x) with
    (if Bool.eqb (Z.testbit x 31) false then S (leading_ones_from false 31 x) else 0%nat).
  by destruct (Z.testbit x 31).
Qed.

Lemma be_num_testbit_u32 m i :
  address_wf (Ipv4 m) -> (i < 32)%nat -> Z.testbit (be_num m) (Z.of_nat i) = bit m (31 - i).
Proof. intros [Hl Hb] Hi. cbn in Hl. rewrite <-be_num_testbit, Hl by (done || lia). f_equal. lia. Qed.

Lemma netmask_counts c m :
  address_wf (Ipv4 m) -> 1 <= Ipv4Cidr.prefix_len c <= 32 -> Ipv4Cidr.netmask c = Ret m ->
  leading_zeros (be_num m) = 0%nat /\
  trailing_zeros (be_num m) = Z.to_nat (32 - Ipv4Cidr.prefix_len c) /\
  count_ones (be_num m) = Z.to_nat (Ipv4Cidr.prefix_len c).
Proof.
  intros Hm Hp Hc. destruct (netmask_bits c ltac:(lia)) as (m' & Hm' & _ & Hbits).
  rewrite Hc in Hm'. injection Hm' as <-.
  assert (forall i, (i < 32)%nat -> Z.testbit (be_num m) (Z.of_nat i) =
    (Z.to_nat (32 - Ipv4Cidr.prefix_len c) <=? i)%nat) as Hshape.
  { intros i Hi. rewrite be_num_testbit_u32, Hbits by (done || lia). decide_tests; lia. }
  destruct (mask_shape_counts 32 (be_num m) (Z.to_nat (32 - Ipv4Cidr.prefix_len c)) ltac:(lia) Hshape)
    as [Ht Hn].
  fold (trailing_zeros (be_num m)) in Ht. fold (count_ones (be_num m)) in Hn.
  split; [|split; [done|lia]]. apply leading_zeros_0. change 31 with (Z.of_nat 31).
  rewrite Hshape by lia. apply Nat.leb_le. lia.
Qed.

(** [from_netmask] accepts exactly the masks of the blocks with a prefix of at
    least one bit, and returns the length of that prefix. *)
Lemma from_netmask_iff {BO : ByteOrder} {NE : NetworkEndian BO} addr m :
  address_wf (Ipv4 m) ->
  exists r, Ipv4Cidr.from_netmask addr m = Ret r /\ forall c,
    r = Ok c <-> Ipv4Cidr.address c = addr /\ 1 <= Ipv4Cidr.prefix_len c <= 32 /\
      Ipv4Cidr.netmask c = Ret m.
Proof.
  intros Hm. pose proof Hm as [Hl Hb]. unfold Ipv4Cidr.from_netmask.
  rewrite read_u32_be_num by done. cbn [mbind outcome_bind]. pose proof (be_num_testbit_u32 m) as Hbits.
  pose proof (netmask_counts) as Hcounts. set (x := be_num m) in *.
  destruct ((leading_zeros x =? 0) && (trailing_zeros x =? count_zeros x))%nat eqn:Hcond.
  - apply andb_prop in Hcond as [Hlead%Nat.eqb_eq Htrail%Nat.eqb_eq].
    pose proof (count_ones_le 32 x) as Hle. fold (count_ones x) in Hle.
    pose proof (mask_shape 32 x Htrail) as Hshape. apply leading_zeros_0 in Hlead.
    pose proof (Hshape 31%nat ltac:(lia)) as Htop. change (Z.of_nat 31) with 31 in Htop.
    rewrite Hlead in Htop. symmetry in Htop. apply Nat.leb_le in Htop.
    fold (trailing_zeros x) in *. unfold count_zeros in Htrail. eexists. split; [done|].
    intros c. split; [intros [= <-]|intros (Ha & Hp & Hc)].
    + cbn [Ipv4Cidr.address Ipv4Cidr.prefix_len]. split; [done|]. split; [lia|].
      destruct (netmask_bits (Ipv4Cidr.mk addr (Z.of_nat (count_ones x)))) as (m' & -> & [Hl' Hb'] & Hm');
        cbn [Ipv4Cidr.prefix_len] in *; [lia|]. f_equal. apply bytes_bit_ext; [done..|congruence|].
      intros i Hi. cbn in Hl'. rewrite Hl' in Hi. rewrite Hm' by lia.
      replace i with (31 - (31 - i))%nat at 2 by lia. rewrite <-Hbits, Hshape by (done || lia).
      decide_tests; lia.
    + destruct (Hcounts c m Hm Hp Hc) as (_ & _ & Hn). destruct c as [a p].
      cbn [Ipv4Cidr.address Ipv4Cidr.prefix_len] in *. subst a. do 2 f_equal. fold x in Hn. lia.
  - eexists. split; [done|]. intros c. split; [done|]. intros (_ & Hp & Hc). exfalso.
    destruct (Hcounts c m Hm Hp Hc) as (H1 & H2 & H3). fold x in H1, H2, H3. unfold count_zeros in Hcond.
    rewrite H1, H2, H3 in Hcond. apply andb_false_iff in Hcond as [Hcond|Hcond]; [done|].
    apply Nat.eqb_neq in Hcond. lia.
Qed.

(** *** Subnet masks *)

(** The loop of [address_prefix_len] on a list of bits. *)
Fixpoint scan (bs : list bool) (ones : bool) (len : Z) : option (bool * Z) :=
  match bs with
  | [] => Some (ones, len)
  | one :: bs =>
      if ones then if one then scan bs true (len + 1) else scan bs false len
      else if one then None else scan bs false len
  end.

Definition bits_of (b : Z) : list bool := (fun k => Z.testbit b (7 - Z.of_nat k)) <$> seq 0 8.

Lemma scan_app bs1 bs2 ones len :
  scan (bs1 ++ bs2) ones len = match scan bs1 ones len with Some (o, n) => scan bs2 o n | None => None end.
Proof. revert ones len. induction bs1 as [|[] bs1 IH]; intros [] len; cbn; done || apply IH. Qed.

Lemma prefix_bits_scan b ones len : byte b -> prefix_bits 8 b 0x80 ones len = scan (bits_of b) ones len.
Proof.
  intros Hb.
  assert (forall m k, (m, k) ∈ [(128, 7); (64, 6); (32, 5); (16, 4); (8, 3); (4, 2); (2, 1); (1, 0)] ->
    negb (Z.land b m =? 0) = Z.testbit b k) as Hbit.
  { intros m k Hk. apply eqb_prop. revert b Hb. apply all_bytes.
    repeat (apply elem_of_cons in Hk as [[= -> ->]|Hk]; [by vm_compute|]). by apply elem_of_nil in Hk. }
  unfold bits_of. cbn [prefix_bits fmap list_fmap seq].
  rewrite (Hbit 128 7) by (repeat constructor). change (Z.shiftr 128 1) with 64. rewrite (Hbit 64 6) by (repeat constructor).
  change (Z.shiftr 64 1) with 32. rewrite (Hbit 32 5) by (repeat constructor). change (Z.shiftr 32 1) with 16.
  rewrite (Hbit 16 4) by (repeat constructor). change (Z.shiftr 16 1) with 8. rewrite (Hbit 8 3) by (repeat constructor).
  change (Z.shiftr 8 1) with 4. rewrite (Hbit 4 2) by (repeat constructor). change (Z.shiftr 4 1) with 2.
  rewrite (Hbit 2 1) by (repeat constructor). change (Z.shiftr 2 1) with 1. rewrite (Hbit 1 0) by (repeat constructor).
  done.
Qed.

Lemma prefix_bytes_scan l ones len :
  bytes l -> prefix_bytes l ones len = snd <$> scan (concat (bits_of <$> l)) ones len.
Proof.
  revert ones len. induction l as [|b l IH]; intros ones len Hb; [done|]. apply Forall_cons_1 in Hb as [Hb Hl].
  cbn [prefix_bytes fmap list_fmap concat]. rewrite prefix_bits_scan, scan_app by done.
  destruct (scan (bits_of b) ones len) as [[o n]|]; [by apply IH|done].
Qed.

Lemma scan_false bs len :
  scan bs false len = if forallb negb bs then Some (false, len) else None.
Proof. induction bs as [|[] bs IH]; cbn; done. Qed.

Lemma forallb_negb_lookup bs : forallb negb bs = true <-> forall i b, bs !! i = Some b -> b = false.
Proof.
  induction bs as [|x bs IH]; cbn; [by split|]. rewrite andb_true_iff, IH, negb_true_iff. split.
  - intros [-> H] [|i] b; cbn; [by intros [= <-]|apply H].
  - intros H. split; [by apply (H 0%nat)|]. intros i. apply (H (S i)).
Qed.

Lemma scan_spec bs len p :
  snd <$> scan bs true len = Some p <->
    exists k, (k <= length bs)%nat /\ p = len + Z.of_nat k /\ forall i b, bs !! i = Some b -> b = bool_decide (i < k)%nat.
Proof.
  revert len. induction bs as [|[] bs IH]; intros len; cbn [scan].
  - cbn. split; [intros [= <-]; exists 0%nat; split_and!; done || lia|]. intros (k & Hk & -> & _). cbn in Hk. f_equal. lia.
  - rewrite IH. cbn [length]. split; intros (k & Hk & Hp & H).
    + exists (S k). split_and!; [lia..|]. intros [|i] b; cbn; [intros [= <-]; by rewrite bool_decide_eq_true_2 by lia|].
      intros Hb. rewrite (H i b Hb). apply bool_decide_ext. lia.
    + destruct k as [|k]; [by specialize (H 0%nat true eq_refl)|]. exists k. split_and!; [lia..|].
      intros i b Hb. rewrite (H (S i) b Hb). apply bool_decide_ext. lia.
  - rewrite scan_false. cbn [length]. split.
    + destruct (forallb negb bs) eqn:Hf; [|done]. intros [= <-]. exists 0%nat. split_and!; [lia..|].
      rewrite forallb_negb_lookup in Hf. intros [|i] b; cbn; [by intros [= <-]|]. apply Hf.
    + intros (k & _ & -> & H). assert (k = 0%nat) as ->.
      { pose proof (H 0%nat false eq_refl) as H0. symmetry in H0. apply bool_decide_eq_false in H0. lia. }
      assert (forallb negb bs = true) as ->.
      { apply forallb_negb_lookup. intros i b Hb. rewrite (H (S i) b Hb). by apply bool_decide_eq_false_2; lia. }
      cbn. f_equal. lia.
Qed.

Lemma bits_lookup l i : (i < 8 * length l)%nat -> concat (bits_of <$> l) !! i = Some (bit l i).
Proof.
  revert i. induction l as [|b l IH]; intros i Hi; [cbn in Hi; lia|]. cbn [fmap list_fmap concat length] in *. unfold bit.
  destruct (bit_split i) as [Hs Hm]. destruct (decide (i < 8)%nat) as [Hlt|Hge].
  - rewrite lookup_app_l by done. rewrite Nat.div_small, Nat.mod_small by done. cbn [lookup_total list_lookup_total].
    unfold bits_of. rewrite list_lookup_fmap, lookup_seq_lt by done. done.
  - rewrite lookup_app_r by (cbn; lia). change (length (bits_of b)) with 8%nat. rewrite IH by lia. unfold bit.
    replace i with (i - 8 + 1 * 8)%nat at 3 4 by lia. rewrite Nat.div_add, Nat.Div0.mod_add by lia.
    rewrite Nat.add_1_r. done.
Qed.

Lemma bits_length l : length (concat (bits_of <$> l)) = (8 * length l)%nat.
Proof. induction l as [|b l IH]; [done|]. cbn [fmap list_fmap concat length]. rewrite length_app, IH. cbn. lia. Qed.

(** [prefix_len] recognises exactly the masks that are ones followed by zeros, and
    counts the ones. *)
Lemma address_prefix_len_spec a p :
  address_wf a -> address_prefix_len a = Some p <->
    0 <= p <= Z.of_nat (8 * length (Address.as_bytes a)) /\
    forall i, (i < 8 * length (Address.as_bytes a))%nat -> bit (Address.as_bytes a) i = bool_decide (Z.of_nat i < p).
Proof.
  intros Ha. assert (bytes (Address.as_bytes a)) as Hb by (destruct a; apply Ha). unfold address_prefix_len.
  rewrite prefix_bytes_scan, scan_spec, bits_length by done. split.
  - intros (k & Hk & -> & H). split; [lia|]. intros i Hi. rewrite (H i _ (bits_lookup _ i Hi)). apply bool_decide_ext. lia.
  - intros [Hp H]. exists (Z.to_nat p). split_and!; [lia..|]. intros i b Hi.
    assert (i < 8 * length (Address.as_bytes a))%nat as Hlt by (rewrite <-bits_length; by apply lookup_lt_Some in Hi).
    rewrite bits_lookup in Hi by done. injection Hi as <-. rewrite H by done. apply bool_decide_ext. lia.
Qed.

(** A CIDR block is the set of the addresses that agree with it on the prefix,
    and [contains_subnet] is inclusion of these sets.  For blocks as [new] builds
    them, of either IP version, neither test panics; [contains_addr] answers true
    exactly for the addresses of the same version whose first [prefix_len] bits are
    those of the block, and [contains_subnet] answers true exactly when every
    address of the second block is in the first. *)
Theorem cidr_blocks_are_prefix_sets {BO : ByteOrder} (NE : NetworkEndian BO) (c d : IpCidr)
    (Hc : cidr_wf c) (Hd : cidr_wf d) :
  (forall a, address_wf a ->
     exists r, IpCidr.contains_addr c a = Ret r /\ (r = true <-> in_block c a)) /\
  exists r, IpCidr.contains_subnet c d = Ret r /\
    (r = true <-> forall a, address_wf a -> in_block d a -> in_block c a).
Proof.
  split; [intros a Ha; by apply contains_addr_spec|].
  destruct (contains_subnet_unfold c d Hc Hd) as (r & Hr & Hiff). exists r. split; [done|].
  rewrite Hiff. split.
  - intros [Hle [Hv Hs]] a Ha [Hv' Hs']. split; [congruence|].
    apply (same_prefix_trans _ _ _ _ Hs). apply (same_prefix_weaken _ _ _ _) with (2 := Hs'). lia.
  - intros H. pose proof (H _ (proj1 Hd) (own_address_in_block d)) as [Hv Hs]. split; [|by split].
    apply Z.nlt_ge. intros Hlt.
    assert (IpCidr.prefix_len d < max_prefix d).
    { destruct Hc as [_ Hpc], c, d; try done; cbn in *; lia. }
    destruct (block_neighbour d Hd) as (a & Ha & Hin & Hbit); [done|].
    destruct (H a Ha Hin) as [_ Hsa]. apply Hbit.
    pose proof (proj1 (proj2 Hd)). rewrite <-(Hsa (Z.to_nat (IpCidr.prefix_len d))) by lia. apply Hs. lia.
Qed.

#[local] Existing Instance network_endian.

Lemma cidr_blocks_are_prefix_sets_witness :
  let c := CidrIpv4 (Ipv4Cidr.mk [192; 168; 1; 10] 20) in
  let d := CidrIpv4 (Ipv4Cidr.mk [192; 168; 2; 0] 24) in
  cidr_wf c /\ cidr_wf d /\ IpCidr.contains_subnet c d = Ret true /\
  exists r, IpCidr.contains_subnet c d = Ret r /\
    (r = true <-> forall a, address_wf a -> in_block d a -> in_block c a).
Proof.
  intros c d.
  assert (cidr_wf c) as Hc.
  { split; [split; [done|]|cbn; lia]. repeat constructor; done. }
  assert (cidr_wf d) as Hd.
  { split; [split; [done|]|cbn; lia]. repeat constructor; done. }
  split; [done|]. split; [done|]. split; [done|].
  apply (cidr_blocks_are_prefix_sets network_endian_laws c d Hc Hd).
Defined.
