(* ===== verification/Ipv6Source.v ===== *)
(** * IPv6 addresses of an interface (src/iface/interface/ipv6.rs)

    Which address of the interface a packet to a destination carries as its source,
    after RFC 6724, and which solicited-node groups the interface is in.  The
    functions read nothing of the interface but its addresses. *)

From S2P Require Import Prelude Bytes Ip Cidr.
Open Scope Z_scope.

(** [u8::leading_zeros] *)
Definition leading_zeros_u8 (x : Z) : nat := leading_ones_from false 8 x.

Definition is_candidate_source_address (dst_addr src_addr : list Z) : bool :=
  if Ipv6Address.is_link_local dst_addr && negb (Ipv6Address.is_link_local src_addr) then false
  else if Ipv6Address.is_multicast dst_addr
    && match Ipv6Address.multicast_scope dst_addr with MulticastScope.LinkLocal => true | _ => false end
    && Ipv6Address.is_multicast src_addr
    && negb match Ipv6Address.multicast_scope src_addr with MulticastScope.LinkLocal => true | _ => false end then false
  else if Ipv6Address.is_unspecified src_addr || Ipv6Address.is_multicast src_addr then false
  else true.

(** The loop over the octets of two addresses. *)
Fixpoint common_bits (l r : list Z) : nat :=
  match l, r with
  | x :: l, y :: r => if x =? y then 8 + common_bits l r else leading_zeros_u8 (Z.lxor x y)
  | _, _ => 0
  end.

Definition common_prefix_length (dst_addr : Ipv6Cidr.t) (src_addr : list Z) : nat :=
  (common_bits (Ipv6Cidr.address dst_addr) src_addr `min` Z.to_nat (Ipv6Cidr.prefix_len dst_addr))%nat.

Definition ipv6_cidrs (ip_addrs : list IpCidr) : list Ipv6Cidr.t :=
  omap (fun a => match a with CidrIpv4 _ => None | CidrIpv6 a => Some a end) ip_addrs.

Definition scope (a : list Z) : Z := MulticastScope.as_u8 (Ipv6Address.multicast_scope a).

(** One round of the loop over the addresses. *)
Definition prefer (dst_addr : list Z) (candidate addr : Ipv6Cidr.t) : Ipv6Cidr.t :=
  if negb (is_candidate_source_address dst_addr (Ipv6Cidr.address addr)) then candidate else
  let candidate :=
    if negb (bool_decide (Ipv6Cidr.address candidate = dst_addr)) && bool_decide (Ipv6Cidr.address addr = dst_addr)
    then addr else candidate in
  let candidate :=
    if scope (Ipv6Cidr.address candidate) <? scope (Ipv6Cidr.address addr) then
      if scope (Ipv6Cidr.address candidate) <? scope dst_addr then addr else candidate
    else if scope dst_addr <? scope (Ipv6Cidr.address addr) then addr
    else candidate in
  if (common_prefix_length candidate dst_addr <? common_prefix_length addr dst_addr)%nat then addr else candidate.

Definition get_source_address_ipv6 (ip_addrs : list IpCidr) (dst_addr : list Z) : outcome (list Z) :=
  _ ← rust_assert (negb (Ipv6Address.is_unspecified dst_addr));
  let cidrs := ipv6_cidrs ip_addrs in
  if Ipv6Address.is_loopback dst_addr || (length cidrs =? 0)%nat then Ret Ipv6Address.LOOPBACK else
  candidate ← unwrap (head cidrs);
  Ret (Ipv6Cidr.address (foldl (prefer dst_addr) candidate cidrs)).

Definition has_solicited_node (ip_addrs : list IpCidr) (addr : list Z) : bool :=
  existsb (fun cidr => match cidr with
    | CidrIpv6 cidr =>
        if bool_decide (Ipv6Cidr.address cidr <> Ipv6Address.LOOPBACK)
        then bool_decide (drop 14 addr = drop 14 (Ipv6Cidr.address cidr)) else false
    | CidrIpv4 _ => false
    end) ip_addrs.

Definition ipv6_addr (ip_addrs : list IpCidr) : option (list Z) :=
  head (omap (fun addr => match addr with CidrIpv6 cidr => Some (Ipv6Cidr.address cidr) | CidrIpv4 _ => None end) ip_addrs).

(** ** Lemmas *)

Lemma prefer_either dst c a : prefer dst c a = c \/ prefer dst c a = a.
Proof. unfold prefer. repeat case_match; auto. Qed.

Lemma prefer_other dst c a : prefer dst c a <> c -> is_candidate_source_address dst (Ipv6Cidr.address a) = true.
Proof. unfold prefer. by destruct (is_candidate_source_address _ _). Qed.

Lemma prefer_in dst cs c : In c cs -> In (foldl (prefer dst) c cs) cs.
Proof.
  assert (forall l c, (forall x, In x l -> In x cs) -> In c cs -> In (foldl (prefer dst) c l) cs) as H; [|intros Hc; by apply H].
  induction l as [|a l IH]; intros c' Hl Hc; cbn [foldl]; [done|]. apply IH; [intros x Hx; apply Hl; by right|].
  destruct (prefer_either dst c' a) as [-> | ->]; [done|]. apply Hl. by left.
Qed.

(** The longest common prefix, in bits. *)
Lemma leading_from_spec n x y : (n <= 8)%nat -> byte x -> byte y ->
  forall k, (k <= leading_ones_from false n (Z.lxor x y) <-> (k <= n /\ forall i, n - k <= i < n -> Z.testbit x (Z.of_nat i) = Z.testbit y (Z.of_nat i)))%nat.
Proof.
  intros Hn Hx Hy. induction n as [|n IH]; intros k; cbn [leading_ones_from]; [split; [intros; split; [lia|lia]|lia]|].
  specialize (IH ltac:(lia)). rewrite Z.lxor_spec. destruct (Z.testbit x (Z.of_nat n)) eqn:Ex, (Z.testbit y (Z.of_nat n)) eqn:Ey; cbn [xorb Bool.eqb].
  1, 4: destruct k as [|k]; [split; [split; [lia|intros; lia]|lia]|]; rewrite <- Nat.succ_le_mono, (IH k); split; intros [H1 H2]; (split; [lia|]);
    intros i Hi; (destruct (decide (i = n)) as [->|]; [congruence|]); apply H2; lia.
  all: split; [intros; split; [lia|intros; lia]|]; intros [H1 H2]; destruct k as [|k]; [lia|]; specialize (H2 n ltac:(lia)); congruence.
Qed.

Lemma bit_cons_l x l i : (i < 8)%nat -> bit (x :: l) i = Z.testbit x (7 - Z.of_nat i).
Proof. intros Hi. unfold bit. rewrite Nat.div_small, Nat.mod_small by done. done. Qed.

Lemma bit_cons_r x l i : bit (x :: l) (8 + i) = bit l i.
Proof.
  unfold bit. replace ((8 + i) / 8)%nat with (S (i / 8))%nat by (symmetry; apply (Nat.div_add_l 1 8 i); lia).
  replace ((8 + i) mod 8)%nat with (i mod 8)%nat; [done|]. symmetry. rewrite Nat.add_comm. apply (Nat.Div0.mod_add i 1 8).
Qed.

Lemma same_prefix_cons_l k x y l r : (k <= 8)%nat -> byte x -> byte y ->
  same_prefix k (x :: l) (y :: r) <-> (k <= leading_zeros_u8 (Z.lxor x y))%nat.
Proof.
  intros Hk Hx Hy. unfold leading_zeros_u8. rewrite (leading_from_spec 8 x y) by done. split.
  - intros H. split; [done|]. intros i Hi. specialize (H (7 - i)%nat ltac:(lia)). rewrite !bit_cons_l in H by lia.
    by replace (7 - Z.of_nat (7 - i)) with (Z.of_nat i) in H by lia.
  - intros [_ H] i Hi. rewrite !bit_cons_l by lia. specialize (H (7 - i)%nat ltac:(lia)). by replace (Z.of_nat (7 - i)) with (7 - Z.of_nat i) in H by lia.
Qed.

Lemma same_prefix_cons_r k x y l r : same_prefix 8 (x :: l) (y :: r) -> same_prefix (8 + k) (x :: l) (y :: r) <-> same_prefix k l r.
Proof.
  intros H8. split; intros H i Hi.
  - rewrite <- (bit_cons_r x l i), <- (bit_cons_r y r i). apply H. lia.
  - destruct (decide (i < 8)%nat) as [|Hi8]; [by apply H8|]. replace i with (8 + (i - 8))%nat by lia. rewrite !bit_cons_r. apply H. lia.
Qed.

(** [common_bits] is the length of the longest common prefix. *)
Lemma common_bits_spec l r k : bytes l -> bytes r -> length l = length r -> (k <= 8 * length l)%nat ->
  (k <= common_bits l r)%nat <-> same_prefix k l r.
Proof.
  revert r k. induction l as [|x l IH]; intros [|y r] k Hl Hr Hlen Hk; try done.
  apply Forall_cons_1 in Hl as [Hx Hl]. apply Forall_cons_1 in Hr as [Hy Hr]. cbn [length common_bits] in *. injection Hlen as Hlen.
  pose proof (same_prefix_cons_l 8 x y l r ltac:(lia) Hx Hy) as H8.
  assert (leading_zeros_u8 (Z.lxor x y) <= 8)%nat as Hz
    by (by apply (proj1 (leading_from_spec 8 x y ltac:(lia) Hx Hy (leading_zeros_u8 (Z.lxor x y))))).
  destruct (Z.eqb_spec x y) as [->|Hne].
  - rewrite Z.lxor_nilpotent in H8. assert (same_prefix 8 (y :: l) (y :: r)) as Hs by (apply H8; apply le_n).
    destruct (decide (k <= 8)%nat) as [Hk8|Hk8]; [split; [intros _ i Hi; apply Hs; lia|lia]|].
    replace k with (8 + (k - 8))%nat by lia. rewrite (same_prefix_cons_r (k - 8)) by done. rewrite <- IH by (done || lia). lia.
  - assert (~ same_prefix 8 (x :: l) (y :: r)) as Hs.
    { intros Hs. apply Hne, byte_testbit_ext; [done..|]. intros i Hi. specialize (Hs (Z.to_nat (7 - i)) ltac:(lia)).
      rewrite !bit_cons_l in Hs by lia. by replace (7 - Z.of_nat (Z.to_nat (7 - i))) with i in Hs by lia. }
    destruct (decide (k <= 8)%nat) as [Hk8|Hk8]; [by rewrite same_prefix_cons_l|].
    split; [lia|]. intros Hp. exfalso. apply Hs. intros i Hi. apply Hp. lia.
Qed.

Lemma in_ipv6_cidrs addrs c : In c (ipv6_cidrs addrs) <-> In (CidrIpv6 c) addrs.
Proof.
  unfold ipv6_cidrs. rewrite <- !list_elem_of_In, list_elem_of_omap. split.
  - intros ([x|x] & Hx & [= ->]). done.
  - intros H. by exists (CidrIpv6 c).
Qed.

(** For a link-local destination the choice, once link-local, stays link-local, and
    an address of the link wins over the others. *)
Lemma prefer_keeps_link_local dst c a : Ipv6Address.is_link_local dst = true ->
  Ipv6Address.is_link_local (Ipv6Cidr.address c) = true -> Ipv6Address.is_link_local (Ipv6Cidr.address (prefer dst c a)) = true.
Proof.
  intros Hd Hc. destruct (decide (prefer dst c a = c)) as [->|Hne]; [done|]. pose proof (prefer_other _ _ _ Hne) as Hcand.
  destruct (prefer_either dst c a) as [|E]; [done|]. rewrite E. unfold is_candidate_source_address in Hcand. rewrite Hd in Hcand.
  by destruct (Ipv6Address.is_link_local (Ipv6Cidr.address a)).
Qed.

Lemma link_local_prefix a dst : address_wf (Ipv6 a) -> address_wf (Ipv6 dst) -> Ipv6Address.is_link_local dst = true ->
  (64 <= common_bits a dst)%nat <-> Ipv6Address.is_link_local a = true.
Proof.
  intros [Ha Hba] [Hd Hbd] Hl. unfold Ipv6Address.is_link_local in *. rewrite bool_decide_eq_true in *. rewrite common_bits_spec by (congruence || lia || done).
  rewrite <- Hl. assert (forall i, (i < 64)%nat -> (i / 8 < 8)%nat) as Hdiv by (intros i Hi; apply Nat.Div0.div_lt_upper_bound; lia).
  assert (forall (x : list Z) i, (i < 64)%nat -> bit (take 8 x) i = bit x i) as Ht
    by (intros x i Hi; unfold bit; rewrite !list_lookup_total_alt, lookup_take_lt by (by apply Hdiv); done).
  split; intros H.
  - apply bytes_bit_ext; [by apply bytes_take|by apply bytes_take|rewrite !length_take; lia|]. rewrite length_take, Ha. intros i Hi. cbn in Hi. rewrite !Ht by lia. apply H. lia.
  - intros i Hi. by rewrite <- (Ht a), <- (Ht dst), H.
Qed.

Lemma link_local_unicast a : Ipv6Address.is_link_local a = true -> Ipv6Address.is_multicast a = false /\ Ipv6Address.is_unspecified a = false.
Proof.
  unfold Ipv6Address.is_link_local. rewrite bool_decide_eq_true. intros H. rewrite <- (take_drop 8 a), H. split; [done|].
  unfold Ipv6Address.is_unspecified. by case_bool_decide.
Qed.

Lemma link_local_candidate dst a : Ipv6Address.is_link_local a = true -> is_candidate_source_address dst a = true.
Proof. intros H. destruct (link_local_unicast a H) as [Hm Hu]. unfold is_candidate_source_address. rewrite H, Hm, Hu. by rewrite !andb_false_r. Qed.

Lemma prefer_takes_link_local dst c a : address_wf (Ipv6 dst) -> address_wf (Ipv6 (Ipv6Cidr.address c)) -> address_wf (Ipv6 (Ipv6Cidr.address a)) ->
  Ipv6Address.is_link_local dst = true -> Ipv6Address.is_link_local (Ipv6Cidr.address a) = true -> 64 <= Ipv6Cidr.prefix_len a ->
  Ipv6Address.is_link_local (Ipv6Cidr.address (prefer dst c a)) = true.
Proof.
  intros Wd Wc Wa Hd Ha Hp. pose proof (proj2 (link_local_prefix _ dst Wa Wd Hd) Ha) as Hca.
  destruct (Ipv6Address.is_link_local (Ipv6Cidr.address c)) eqn:Hc; [by apply prefer_keeps_link_local|].
  assert (common_bits (Ipv6Cidr.address c) dst < 64)%nat as Hlt by (apply Nat.nle_gt; intros H; apply (link_local_prefix _ dst) in H; congruence).
  unfold prefer. rewrite link_local_candidate by done. cbn [negb].
  match goal with |- context [if (common_prefix_length ?x dst <? _)%nat then _ else _] => set (c' := x) end.
  assert (c' = c \/ c' = a) as [-> | ->] by (unfold c'; repeat case_match; auto).
  - rewrite (proj2 (Nat.ltb_lt _ _)); [done|]. unfold common_prefix_length. lia.
  - by destruct (_ <? _)%nat.
Qed.

(** When every address may be chosen and has the scope of the destination, and the
    destination is none of them, the longest prefix wins. *)
Lemma prefer_longest dst c a : is_candidate_source_address dst (Ipv6Cidr.address a) = true -> Ipv6Cidr.address a <> dst ->
  scope (Ipv6Cidr.address a) = scope dst -> scope (Ipv6Cidr.address c) = scope dst ->
  (common_prefix_length c dst <= common_prefix_length (prefer dst c a) dst)%nat /\
  (common_prefix_length a dst <= common_prefix_length (prefer dst c a) dst)%nat.
Proof.
  intros Ha Hne Hsa Hsc. unfold prefer. rewrite Ha. cbn [negb]. rewrite (bool_decide_eq_false_2 (Ipv6Cidr.address a = dst)) by done.
  rewrite andb_false_r, Hsc, Hsa, Z.ltb_irrefl. destruct (Nat.ltb_spec (common_prefix_length c dst) (common_prefix_length a dst)); lia.
Qed.

Lemma fold_link_local dst cs : address_wf (Ipv6 dst) -> Ipv6Address.is_link_local dst = true ->
  (forall x, In x cs -> address_wf (Ipv6 (Ipv6Cidr.address x))) -> forall c, address_wf (Ipv6 (Ipv6Cidr.address c)) ->
  (Ipv6Address.is_link_local (Ipv6Cidr.address c) = true \/
    exists a, In a cs /\ Ipv6Address.is_link_local (Ipv6Cidr.address a) = true /\ 64 <= Ipv6Cidr.prefix_len a) ->
  Ipv6Address.is_link_local (Ipv6Cidr.address (foldl (prefer dst) c cs)) = true.
Proof.
  intros Wd Hd. induction cs as [|b cs IH]; intros Wcs c Wc Hor; cbn [foldl].
  { destruct Hor as [|(a & [] & _)]. done. }
  apply IH; [intros x Hx; apply Wcs; by right|destruct (prefer_either dst c b) as [-> | ->]; [done|apply Wcs; by left]|].
  destruct Hor as [Hc|(a & [<-|Hin] & Ha & Hp)]; [left; by apply prefer_keeps_link_local|left; apply prefer_takes_link_local; try done; apply Wcs; by left|].
  right. by exists a.
Qed.

Lemma fold_longest dst cs : (forall x, In x cs -> is_candidate_source_address dst (Ipv6Cidr.address x) = true /\
    Ipv6Cidr.address x <> dst /\ scope (Ipv6Cidr.address x) = scope dst) ->
  forall c, scope (Ipv6Cidr.address c) = scope dst -> forall x, x = c \/ In x cs ->
    (common_prefix_length x dst <= common_prefix_length (foldl (prefer dst) c cs) dst)%nat.
Proof.
  induction cs as [|b cs IH]; intros Hcs c Hc x Hx; cbn [foldl]; [destruct Hx as [->|[]]; lia|].
  destruct (Hcs b) as (Hb1 & Hb2 & Hb3); [by left|]. destruct (prefer_longest dst c b Hb1 Hb2 Hb3 Hc) as [L1 L2].
  assert (scope (Ipv6Cidr.address (prefer dst c b)) = scope dst) as Hs by (destruct (prefer_either dst c b) as [-> | ->]; done).
  assert (forall y, In y cs -> is_candidate_source_address dst (Ipv6Cidr.address y) = true /\ Ipv6Cidr.address y <> dst /\ scope (Ipv6Cidr.address y) = scope dst) as Hcs'
    by (intros y Hy; apply Hcs; by right).
  destruct Hx as [->|[->|Hin]].
  - etrans; [exact L1|]. apply IH; auto.
  - etrans; [exact L2|]. apply IH; auto.
  - apply IH; auto.
Qed.

(** The blocks of the interface share a prefix with [dst]. *)
Definition shares (k : nat) (c : Ipv6Cidr.t) (dst : list Z) : Prop := (Z.of_nat k <= Ipv6Cidr.prefix_len c) /\ same_prefix k (Ipv6Cidr.address c) dst.

Lemma shares_spec k c dst : cidr_wf (CidrIpv6 c) -> address_wf (Ipv6 dst) -> shares k c dst <-> (k <= common_prefix_length c dst)%nat.
Proof.
  intros [[Hl Hb] Hp] [Hd Hbd]. cbn in Hl, Hb, Hp. unfold shares, common_prefix_length. split.
  - intros [H1 H2]. apply Nat.min_glb; [|lia]. apply common_bits_spec; congruence || done || lia.
  - intros H. split; [lia|]. apply common_bits_spec; congruence || done || lia.
Qed.

(** There always is a source address. *)
Lemma source_address_total addrs dst : Forall cidr_wf addrs -> Ipv6Address.is_unspecified dst = false ->
  exists src, get_source_address_ipv6 addrs dst = Ret src /\ address_wf (Ipv6 src).
Proof.
  intros Hw Hu. unfold get_source_address_ipv6. rewrite Hu. cbn [negb rust_assert mbind outcome_bind].
  destruct (_ || _) eqn:Hlo; [eexists; split; [done|]; split; by_decide|]. apply orb_false_iff in Hlo as [_ Hne%Nat.eqb_neq].
  pose proof (in_ipv6_cidrs addrs) as Hin. destruct (ipv6_cidrs addrs) as [|c cs]; [done|]. cbn [head unwrap mbind outcome_bind].
  eexists. split; [done|]. assert (In (foldl (prefer dst) c (c :: cs)) (c :: cs)) as Hf by (apply prefer_in; by left).
  apply Hin in Hf. exact (proj1 (proj1 (List.Forall_forall _ _) Hw _ Hf)).
Qed.

(** C33: a packet to a destination that is specified always has a source: the
    loopback address when the destination is the loopback address or the interface
    has no IPv6 address, and one of the interface's addresses otherwise.  To a
    link-local destination it is a link-local address as soon as the interface has
    one, of a /64 or longer; when all addresses may be chosen, have the scope of the
    destination and differ from it, it is one whose block has the longest prefix in common with
    the destination. *)
Theorem source_address_selected addrs dst :
  Forall cidr_wf addrs -> address_wf (Ipv6 dst) -> Ipv6Address.is_unspecified dst = false ->
  exists src, get_source_address_ipv6 addrs dst = Ret src /\
    (if Ipv6Address.is_loopback dst || (length (ipv6_cidrs addrs) =? 0)%nat then src = Ipv6Address.LOOPBACK
     else exists c, In (CidrIpv6 c) addrs /\ src = Ipv6Cidr.address c /\
       (Ipv6Address.is_link_local dst = true ->
        (exists a, In (CidrIpv6 a) addrs /\ Ipv6Address.is_link_local (Ipv6Cidr.address a) = true /\ 64 <= Ipv6Cidr.prefix_len a) ->
        Ipv6Address.is_link_local src = true) /\
       ((forall x, In (CidrIpv6 x) addrs -> is_candidate_source_address dst (Ipv6Cidr.address x) = true /\
           Ipv6Cidr.address x <> dst /\ scope (Ipv6Cidr.address x) = scope dst) ->
        forall x k, In (CidrIpv6 x) addrs -> shares k x dst -> shares k c dst)).
Proof.
  intros Hw Hd Hu. unfold get_source_address_ipv6. rewrite Hu. cbn [negb rust_assert mbind outcome_bind].
  destruct (_ || _) eqn:Hlo; [by eexists|]. apply orb_false_iff in Hlo as [_ Hne%Nat.eqb_neq].
  assert (forall x, In x (ipv6_cidrs addrs) -> cidr_wf (CidrIpv6 x)) as Hcw
    by (intros x Hx%in_ipv6_cidrs; exact (proj1 (List.Forall_forall _ _) Hw _ Hx)).
  setoid_rewrite <- in_ipv6_cidrs. destruct (ipv6_cidrs addrs) as [|c cs]; [done|]. cbn [head unwrap mbind outcome_bind].
  assert (In c (c :: cs)) as Hin by by left. eexists. split; [done|]. exists (foldl (prefer dst) c (c :: cs)). split; [by apply prefer_in|]. split; [done|]. split.
  - intros Hll Ha. apply fold_link_local; auto; [intros x Hx; apply (Hcw x Hx)|apply (Hcw c Hin)].
  - intros Hall x k Hx Hk. apply shares_spec; [apply Hcw; by apply prefer_in|done|]. apply shares_spec in Hk; [|by apply Hcw|done].
    etrans; [exact Hk|]. apply fold_longest; auto. by apply Hall.
Qed.

Module SourceWitness.
Definition cidr (last prefix : Z) : IpCidr := CidrIpv6 (Ipv6Cidr.mk ([0x20; 0x01; 0x0d; 0xb8] ++ replicate 11 0 ++ [last]) prefix).
Definition link_local (last : Z) : list Z := [0xfe; 0x80] ++ replicate 13 0 ++ [last].

Definition addrs : list IpCidr := [cidr 1 64; CidrIpv6 (Ipv6Cidr.mk (link_local 1) 64)].

Lemma source_address_selected_witness :
  exists src, get_source_address_ipv6 addrs (link_local 9) = Ret src /\ Ipv6Address.is_link_local src = true.
Proof.
  destruct (source_address_selected addrs (link_local 9)) as (src & Hs & c & _ & _ & Hl & _).
  - repeat constructor; try done; by_decide.
  - split; by_decide.
  - reflexivity.
  - exists src. split; [done|]. apply Hl; [reflexivity|]. exists (Ipv6Cidr.mk (link_local 1) 64). split; [by right; left|]. split; [reflexivity|cbn; lia].
Defined.

(** Rule 1 does not hold: the source of a packet to an own address is another
    address of the interface when that one has the longer prefix. *)
Theorem own_destination_gets_other_source :
  get_source_address_ipv6 [cidr 1 64; cidr 3 128] (Ipv6Cidr.address (Ipv6Cidr.mk ([0x20; 0x01; 0x0d; 0xb8] ++ replicate 11 0 ++ [1]) 64)) =
  Ret ([0x20; 0x01; 0x0d; 0xb8] ++ replicate 11 0 ++ [3]).
Proof. reflexivity. Qed.

(** An address that may not be chosen is, when it comes first and no other may. *)
Theorem source_not_a_candidate (src := [0x20; 0x01; 0x0d; 0xb8] ++ replicate 11 0 ++ [1]) :
  get_source_address_ipv6 [cidr 1 64] (link_local 9) = Ret src /\ is_candidate_source_address (link_local 9) src = false.
Proof. split; reflexivity. Qed.

(** The group of another node, which agrees in the last two octets only, is taken
    for one of the interface's; the lower 24 bits make the group. *)
Theorem solicited_node_compares_two_octets :
  exists group own, Ipv6Address.solicited_node [0xfe; 0x80; 0; 0; 0; 0; 0; 0; 0; 0; 0; 0; 0; 7; 0; 1] = Ret group /\
    Ipv6Address.solicited_node (link_local 1) = Ret own /\ group <> own /\
    has_solicited_node [CidrIpv6 (Ipv6Cidr.mk (link_local 1) 64)] group = true.
Proof. eexists _, _. split; [reflexivity|]. split; [reflexivity|]. split; [done|reflexivity]. Qed.
End SourceWitness.
