(* ===== verification/Route.v ===== *)
(** * The routing table (src/iface/route.rs)

    [Routes] is a vector of routes of capacity [IFACE_MAX_ROUTE_COUNT].  [lookup] is
    longest-prefix matching over the routes that have not expired. *)

From S2P Require Import Prelude Time Bytes Ip Cidr Collections.
Open Scope Z_scope.

Inductive RouteTableFullError := RouteTableFull.

Record Route := mkRoute {
  cidr : IpCidr;
  via_router : Address;
  preferred_until : option Instant;
  expires_at : option Instant
}.

Definition IPV4_DEFAULT : IpCidr := CidrIpv4 (Ipv4Cidr.mk [0; 0; 0; 0] 0).
Definition IPV6_DEFAULT : IpCidr := CidrIpv6 (Ipv6Cidr.mk (replicate 16 0) 0).

Definition new_ipv4_gateway (gateway : list Z) : Route :=
  mkRoute IPV4_DEFAULT (Ipv4 gateway) None None.
Definition new_ipv6_gateway (gateway : list Z) : Route :=
  mkRoute IPV6_DEFAULT (Ipv6 gateway) None None.

Module Routes.
Section Operations.
Context {RV : Vec Route}.

Record t := mk { storage : vec Route }.

Definition new : t := mk vec_new.

Definition update (f : vec Route -> vec Route) (r : t) : t := mk (f (storage r)).

(** [iter().enumerate().find(|(_, r)| r.cidr == default)], then [remove(i)]. *)
Definition remove_default (default : IpCidr) (r : t) : outcome (t * option Route) :=
  match list_find (fun route => cidr route = default) (as_slice (storage r)) with
  | Some (i, _) => '(v, old) ← vec_remove i (storage r); Ret (mk v, Some old)
  | None => Ret (r, None)
  end.

Definition remove_default_ipv4_route : t -> outcome (t * option Route) := remove_default IPV4_DEFAULT.
Definition remove_default_ipv6_route : t -> outcome (t * option Route) := remove_default IPV6_DEFAULT.

Definition add_default_ipv4_route (gateway : list Z) (r : t) :
    outcome (t * result (option Route) RouteTableFullError) :=
  '(r, old) ← remove_default_ipv4_route r;
  Ret match vec_push (new_ipv4_gateway gateway) (storage r) with
      | (v, Ok _) => (mk v, Ok old)
      | (v, Err _) => (mk v, Err RouteTableFull)
      end.

Definition add_default_ipv6_route (gateway : list Z) (r : t) :
    outcome (t * result (option Route) RouteTableFullError) :=
  '(r, old) ← remove_default_ipv6_route r;
  Ret match vec_push (new_ipv6_gateway gateway) (storage r) with
      | (v, Ok _) => (mk v, Ok old)
      | (v, Err _) => (mk v, Err RouteTableFull)
      end.

Context {BO : ByteOrder}.

(** The closure of [filter] in [lookup]. *)
Definition applies (addr : Address) (timestamp : Instant) (route : Route) : outcome bool :=
  match expires_at route with
  | Some expires_at =>
      if timestamp >? expires_at then Ret false else IpCidr.contains_addr (cidr route) addr
  | None => IpCidr.contains_addr (cidr route) addr
  end.

Definition lookup (addr : Address) (timestamp : Instant) (r : t) : outcome (option Address) :=
  _ ← rust_assert (Address.is_unicast addr);
  matching ← iter_filter (applies addr timestamp) (as_slice (storage r));
  Ret (via_router <$> max_by_key (fun route => IpCidr.prefix_len (cidr route)) matching).
End Operations.
Arguments t {RV}.
End Routes.

(** ** Longest-prefix matching *)

(** A route that may be used for [addr] at [timestamp]. *)
Definition usable (addr : Address) (timestamp : Instant) (route : Route) : Prop :=
  in_block (cidr route) addr /\
  match expires_at route with Some e => timestamp <= e | None => True end.

Definition routes_wf (l : list Route) : Prop := Forall (fun route => cidr_wf (cidr route)) l.

(** The route at index [i] is the one to use: no usable route has a longer
    prefix, and of those with as long a prefix it is the last. *)
Definition best_route (addr : Address) (timestamp : Instant) (l : list Route) (i : nat)
    (route : Route) : Prop :=
  l !! i = Some route /\ usable addr timestamp route /\
  forall j other, l !! j = Some other -> usable addr timestamp other -> j <> i ->
    IpCidr.prefix_len (cidr other) <= IpCidr.prefix_len (cidr route) /\
    ((i < j)%nat -> IpCidr.prefix_len (cidr other) < IpCidr.prefix_len (cidr route)).

Section Lookup.
Context {RV : Vec Route} {BO : ByteOrder} {NE : NetworkEndian BO}.

Lemma applies_spec addr timestamp route :
  cidr_wf (cidr route) -> address_wf addr ->
  exists b, Routes.applies addr timestamp route = Ret b /\ (b = true <-> usable addr timestamp route).
Proof.
  intros Hc Ha. unfold Routes.applies, usable.
  destruct (contains_addr_spec (cidr route) addr Hc Ha) as (b & -> & Hb).
  destruct (expires_at route) as [e|]; [|exists b; tauto].
  destruct (Z.gtb_spec timestamp e).
  - exists false. split; [done|]. split; [done|]. intros [_ ?]. lia.
  - exists b. rewrite Hb. split; [done|]. split; [intros; split; [done|lia]|tauto].
Qed.

(** Positions of a filtered list in the original one. *)
Lemma filter_split {A} (f : A -> bool) (l : list A) l1 x l2 :
  List.filter f l = l1 ++ x :: l2 ->
  exists k1 k2, l = k1 ++ x :: k2 /\ List.filter f k1 = l1 /\ List.filter f k2 = l2 /\ f x = true.
Proof.
  revert l1. induction l as [|y l IH]; intros l1 H; cbn in H; [by destruct l1|].
  destruct (f y) eqn:Hy.
  - destruct l1 as [|z l1]; injection H as -> H.
    + by exists [], l.
    + destruct (IH l1 H) as (k1 & k2 & -> & H1 & H2 & Hx). exists (z :: k1), k2. cbn.
      rewrite Hy, H1. done.
  - destruct (IH l1 H) as (k1 & k2 & -> & H1 & H2 & Hx). exists (y :: k1), k2. cbn. by rewrite Hy, H1.
Qed.

Lemma lookup_spec addr timestamp r :
  routes_wf (as_slice (Routes.storage r)) -> address_wf addr -> Address.is_unicast addr ->
  exists res, Routes.lookup addr timestamp r = Ret res /\
    match res with
    | None => forall route, route ∈ as_slice (Routes.storage r) -> ~ usable addr timestamp route
    | Some via => exists i route, best_route addr timestamp (as_slice (Routes.storage r)) i route /\
        via_router route = via
    end.
Proof.
  intros Hwf Ha Hu. unfold Routes.lookup. rewrite Is_true_true in Hu. rewrite Hu.
  cbn [rust_assert mbind outcome_bind]. set (l := as_slice (Routes.storage r)) in *.
  set (f := fun route => match Routes.applies addr timestamp route with Ret b => b | Panic => false end).
  assert (forall x, x ∈ l -> Routes.applies addr timestamp x = Ret (f x) /\
    (f x = true <-> usable addr timestamp x)) as Hf.
  { intros x Hx. unfold routes_wf in Hwf. rewrite Forall_forall in Hwf.
    destruct (applies_spec addr timestamp x (Hwf x Hx) Ha) as (b & Hb & Hiff). unfold f. by rewrite Hb. }
  rewrite (iter_filter_spec _ f) by (intros; by apply Hf). cbn [mbind outcome_bind].
  eexists. split; [done|].
  pose proof (max_by_key_spec (fun route => IpCidr.prefix_len (cidr route)) (List.filter f l)) as Hmax.
  destruct (max_by_key _ _) as [m|]; cbn.
  - destruct Hmax as (l1 & l2 & Heq & H1 & H2).
    destruct (filter_split _ _ _ _ _ Heq) as (k1 & k2 & Hl & Hk1 & Hk2 & Hm).
    assert (l !! length k1 = Some m) as Hlook by (rewrite Hl; by rewrite list_lookup_middle).
    exists (length k1), m. split; [|done]. split; [done|].
    split; [by apply Hf; [by eapply list_elem_of_lookup_2|]|].
    intros j o Ho Huo Hj. assert (o ∈ l) as Hin by (by eapply list_elem_of_lookup_2).
    apply Hf in Huo; [|done]. rewrite Hl in Ho. apply lookup_app_Some in Ho as [Ho|[Hge Ho]].
    + assert (o ∈ l1) as Hol.
      { rewrite <-Hk1. apply list_elem_of_In, filter_In. split; [|done].
        by eapply list_elem_of_In, list_elem_of_lookup_2. }
      apply lookup_lt_Some in Ho. split; [by apply H1|lia].
    + apply lookup_cons_Some in Ho as [[? ->]|[Hgt Ho]]; [lia|].
      assert (o ∈ l2) as Hol.
      { rewrite <-Hk2. apply list_elem_of_In, filter_In. split; [|done].
        by eapply list_elem_of_In, list_elem_of_lookup_2. }
      specialize (H2 o Hol). cbn in H2. split; [lia|done].
  - intros route Hin Husable. apply Hf in Husable; [|done].
    assert (In route (List.filter f l)) as Hbad
      by (apply filter_In; split; [by apply list_elem_of_In|done]).
    by rewrite Hmax in Hbad.
Qed.
End Lookup.

(** ** Default routes *)

Section DefaultRoute.
Context {RV : Vec Route} {N : nat} {VL : VecLaws RV N}.

Definition has_cidr (c : IpCidr) (route : Route) : bool := bool_decide (cidr route = c).

(** The routes to other blocks, in order. *)
Definition other_routes (c : IpCidr) (l : list Route) : list Route :=
  List.filter (fun route => negb (has_cidr c route)) l.

Lemma other_routes_delete c l i route :
  l !! i = Some route -> cidr route = c -> other_routes c (delete i l) = other_routes c l.
Proof.
  intros Hi Hc. rewrite <-(take_drop_middle l i route Hi) at 2. rewrite delete_take_drop.
  unfold other_routes. rewrite !List.filter_app. cbn. unfold has_cidr.
  by rewrite bool_decide_eq_true_2.
Qed.

Lemma remove_default_spec c r :
  exists r' old, Routes.remove_default c r = Ret (r', old) /\
    other_routes c (as_slice (Routes.storage r')) = other_routes c (as_slice (Routes.storage r)) /\
    match old with
    | Some route => route ∈ as_slice (Routes.storage r) /\ cidr route = c /\
        length (as_slice (Routes.storage r)) = S (length (as_slice (Routes.storage r')))
    | None => r' = r /\ forall route, route ∈ as_slice (Routes.storage r) -> cidr route <> c
    end.
Proof.
  unfold Routes.remove_default. destruct (list_find _ _) as [[i route]|] eqn:Hfind.
  - apply list_find_Some in Hfind as (Hi & Hc & _).
    destruct (vec_remove_ok (Routes.storage r) i route Hi) as (v & -> & Hv). cbn.
    eexists _, _. split; [done|]. cbn. rewrite Hv. split; [by eapply other_routes_delete|].
    split; [by eapply list_elem_of_lookup_2|]. split; [done|].
    rewrite length_delete by by eexists. apply lookup_lt_Some in Hi. lia.
  - apply list_find_None in Hfind. rewrite Forall_forall in Hfind. eexists _, _. split; [done|].
    cbn. split; [done|]. done.
Qed.

(** The outcome of replacing the default route [c] by [g]. *)
Definition default_replaced (c : IpCidr) (g : Route) (r r' : Routes.t)
    (res : result (option Route) RouteTableFullError) : Prop :=
  let l := as_slice (Routes.storage r) in
  let l' := as_slice (Routes.storage r') in
  other_routes c l' = other_routes c l /\
  match res with
  | Ok old => g ∈ l' /\
      match old with
      | Some route => route ∈ l /\ cidr route = c
      | None => forall route, route ∈ l -> cidr route <> c
      end
  | Err _ => r' = r /\ length l = N /\ forall route, route ∈ l -> cidr route <> c
  end.

Lemma push_default c g r r' old :
  cidr g = c -> Routes.remove_default c r = Ret (r', old) ->
  default_replaced c g r
    (Routes.mk (vec_push g (Routes.storage r')).1)
    (match (vec_push g (Routes.storage r')).2 with Ok _ => Ok old | Err _ => Err RouteTableFull end).
Proof.
  intros Hg Hrem. destruct (remove_default_spec c r) as (r1 & old1 & Heq & Hother & Hold).
  rewrite Hrem in Heq. injection Heq as <- <-. unfold default_replaced.
  pose proof (as_slice_capacity (Routes.storage r)). pose proof (as_slice_capacity (Routes.storage r')).
  destruct (decide (length (as_slice (Routes.storage r')) < N)%nat) as [Hroom|Hfull].
  - destruct (vec_push_room (Routes.storage r') g Hroom) as (v & -> & Hv). cbn. rewrite Hv.
    split.
    { unfold other_routes in *. rewrite List.filter_app. cbn. unfold has_cidr at 2.
      rewrite bool_decide_eq_true_2 by done. cbn. by rewrite app_nil_r. }
    split; [apply elem_of_app; right; by apply list_elem_of_singleton|].
    destruct old; [naive_solver|]. by destruct Hold as [-> ?].
  - destruct old as [route|]; [lia|]. destruct Hold as [-> Hnone].
    rewrite vec_push_full by lia. cbn. split; [done|]. destruct r. split; [done|]. split; [lia|done].
Qed.

Lemma add_default_ipv4_spec gateway r :
  exists r' res, Routes.add_default_ipv4_route gateway r = Ret (r', res) /\
    default_replaced IPV4_DEFAULT (new_ipv4_gateway gateway) r r' res.
Proof.
  destruct (remove_default_spec IPV4_DEFAULT r) as (r1 & old & Hrem & _).
  unfold Routes.add_default_ipv4_route, Routes.remove_default_ipv4_route. rewrite Hrem.
  pose proof (push_default IPV4_DEFAULT (new_ipv4_gateway gateway) r r1 old eq_refl Hrem) as Hpush.
  cbn [mbind outcome_bind]. destruct (vec_push _ _) as [v [|]]; cbn in Hpush; by eexists _, _.
Qed.

Lemma add_default_ipv6_spec gateway r :
  exists r' res, Routes.add_default_ipv6_route gateway r = Ret (r', res) /\
    default_replaced IPV6_DEFAULT (new_ipv6_gateway gateway) r r' res.
Proof.
  destruct (remove_default_spec IPV6_DEFAULT r) as (r1 & old & Hrem & _).
  unfold Routes.add_default_ipv6_route, Routes.remove_default_ipv6_route. rewrite Hrem.
  pose proof (push_default IPV6_DEFAULT (new_ipv6_gateway gateway) r r1 old eq_refl Hrem) as Hpush.
  cbn [mbind outcome_bind]. destruct (vec_push _ _) as [v [|]]; cbn in Hpush; by eexists _, _.
Qed.

Lemma default_usable_v4 gateway o timestamp : usable (Ipv4 o) timestamp (new_ipv4_gateway gateway).
Proof. split; [|done]. split; [done|]. intros i Hi. cbn in Hi. lia. Qed.

Lemma default_usable_v6 gateway o timestamp : usable (Ipv6 o) timestamp (new_ipv6_gateway gateway).
Proof. split; [|done]. split; [done|]. intros i Hi. cbn in Hi. lia. Qed.
End DefaultRoute.

(** C32: [lookup] is longest-prefix matching.  On a table of well-formed routes and
    a unicast address it never panics; it answers [None] exactly when no route to a
    block with the address is still valid, and otherwise the router of the valid
    route with the longest prefix, of several with the same prefix the last. *)
Theorem route_lookup_longest_prefix {RV : Vec Route} {BO : ByteOrder} (NE : NetworkEndian BO)
    (addr : Address) (timestamp : Instant) (r : Routes.t)
    (Hwf : routes_wf (as_slice (Routes.storage r))) (Ha : address_wf addr)
    (Hu : Address.is_unicast addr = true) :
  exists res, Routes.lookup addr timestamp r = Ret res /\
    (res = None <-> forall route, route ∈ as_slice (Routes.storage r) -> ~ usable addr timestamp route) /\
    (forall via, res = Some via -> exists i route,
       best_route addr timestamp (as_slice (Routes.storage r)) i route /\ via_router route = via).
Proof.
  destruct (lookup_spec addr timestamp r Hwf Ha) as (res & Hres & Hspec); [by rewrite Hu|].
  exists res. split; [done|]. destruct res as [via|].
  - split; [|by intros ? [= <-]]. split; [done|]. intros Hnone. exfalso.
    destruct Hspec as (i & route & (Hi & Hus & _) & _). apply (Hnone route); [|done].
    by eapply list_elem_of_lookup_2.
  - split; [by split|done].
Qed.

(** [add_default_ipv4_route] installs a default route.  It never panics, keeps
    the routes to other blocks in their order, and returns the default route it
    replaced; it fails only when the table is full and has no default route, and
    then changes nothing.  After a success every unicast IPv4 address has a route
    at any time. *)
Theorem default_route_reaches_everything {RV : Vec Route} {N : nat} (VL : VecLaws RV N)
    {BO : ByteOrder} (NE : NetworkEndian BO) (gateway : list Z) (r : Routes.t)
    (Hwf : routes_wf (as_slice (Routes.storage r))) :
  exists r' res, Routes.add_default_ipv4_route gateway r = Ret (r', res) /\
    default_replaced (N := N) IPV4_DEFAULT (new_ipv4_gateway gateway) r r' res /\
    forall old, res = Ok old -> forall o timestamp,
      address_wf (Ipv4 o) -> Ipv4Address.is_unicast o = true ->
      exists via, Routes.lookup (Ipv4 o) timestamp r' = Ret (Some via).
Proof.
  destruct (add_default_ipv4_spec (N := N) gateway r) as (r' & res & Hadd & Hrep).
  exists r', res. split; [done|]. split; [done|]. intros old -> o timestamp Ho Hu.
  destruct Hrep as (Hother & Hg & _).
  assert (routes_wf (as_slice (Routes.storage r'))) as Hwf'.
  { unfold routes_wf in *. rewrite Forall_forall in *. intros route Hin.
    destruct (decide (cidr route = IPV4_DEFAULT)) as [->|Hne].
    - split; [split; [done|]; repeat constructor; done|cbn; lia].
    - apply Hwf. assert (In route (other_routes IPV4_DEFAULT (as_slice (Routes.storage r')))) as Ho'.
      { apply filter_In. split; [by apply list_elem_of_In|]. unfold has_cidr.
        by rewrite bool_decide_eq_false_2. }
      rewrite Hother in Ho'. apply filter_In in Ho' as [? _]. by apply list_elem_of_In. }
  destruct (lookup_spec (Ipv4 o) timestamp r' Hwf' Ho) as (res & Hres & Hspec); [cbn; by rewrite Hu|].
  destruct res as [via|]; [by exists via|]. destruct (Hspec _ Hg). apply default_usable_v4.
Qed.

#[local] Existing Instance network_endian.

Module Sample.
Definition net10 : Route :=
  mkRoute (CidrIpv4 (Ipv4Cidr.mk [10; 0; 0; 0] 8)) (Ipv4 [192; 168; 1; 2]) None (Some 1000).
Definition net10_1 : Route :=
  mkRoute (CidrIpv4 (Ipv4Cidr.mk [10; 1; 0; 0] 16)) (Ipv4 [192; 168; 1; 3]) None None.

(** A table of capacity 3 with the two routes. *)
#[local] Instance table_vec : Vec Route := list_vec Route 3.
Definition table : Routes.t :=
  Routes.mk (vec_push net10_1 (vec_push net10 vec_new).1).1.

Lemma table_wf : routes_wf (as_slice (Routes.storage table)).
Proof.
  repeat apply Forall_cons_2; try apply Forall_nil_2;
    (split; [split; [done|]; repeat constructor; done|cbn; lia]).
Qed.
End Sample.

#[local] Existing Instance Sample.table_vec.

Lemma route_lookup_longest_prefix_witness :
  Routes.lookup (Ipv4 [10; 1; 2; 3]) 500 Sample.table = Ret (Some (Ipv4 [192; 168; 1; 3])) /\
  exists res, Routes.lookup (Ipv4 [10; 1; 2; 3]) 500 Sample.table = Ret res /\
    (res = None <-> forall route, route ∈ as_slice (Routes.storage Sample.table) ->
       ~ usable (Ipv4 [10; 1; 2; 3]) 500 route) /\
    (forall via, res = Some via -> exists i route,
       best_route (Ipv4 [10; 1; 2; 3]) 500 (as_slice (Routes.storage Sample.table)) i route /\
       via_router route = via).
Proof.
  split; [by vm_compute|].
  apply (route_lookup_longest_prefix network_endian_laws); [apply Sample.table_wf| |by vm_compute].
  split; [done|]. repeat constructor; done.
Defined.

Lemma default_route_reaches_everything_witness :
  (exists r', Routes.add_default_ipv4_route [192; 168; 1; 1] Sample.table = Ret (r', Ok None)) /\
  exists r' res, Routes.add_default_ipv4_route [192; 168; 1; 1] Sample.table = Ret (r', res) /\
    default_replaced (N := 3) IPV4_DEFAULT (new_ipv4_gateway [192; 168; 1; 1]) Sample.table r' res /\
    forall old, res = Ok old -> forall o timestamp,
      address_wf (Ipv4 o) -> Ipv4Address.is_unicast o = true ->
      exists via, Routes.lookup (Ipv4 o) timestamp r' = Ret (Some via).
Proof.
  split; [eexists; by vm_compute|].
  apply (default_route_reaches_everything (list_vec_laws Route 3) network_endian_laws), Sample.table_wf.
Defined.
