(* ===== verification/Neighbor.v ===== *)
(** * The neighbor cache (src/iface/neighbor.rs)

    A map of capacity [IFACE_NEIGHBOR_CACHE_COUNT] from protocol addresses to
    hardware addresses with an expiry; when it is full, the entry that expires first
    is evicted. *)

From S2P Require Import Prelude Time Bytes Ip LinkLayer Collections.
Open Scope Z_scope.

Record Neighbor := mkNeighbor { nb_hardware_addr : HardwareAddress; nb_expires_at : Instant }.

Inductive Answer :=
| Found (a : HardwareAddress)
| NotFound
| RateLimited.

Definition found (a : Answer) : bool := match a with Found _ => true | _ => false end.

Module Cache.
Section Operations.
Context {LM : LinearMap Address Neighbor}.

Record t := mk { storage : lmap Address Neighbor; silent_until : Instant }.

Definition SILENT_TIME : Duration := 1000 * 1000.
Definition ENTRY_LIFETIME : Duration := 60000 * 1000.

Definition new : t := mk lm_new 0.

(** The eviction of [fill_with_expiration]: the first of the entries that expire
    first is removed. *)
Definition evict (m : lmap Address Neighbor) : outcome (lmap Address Neighbor) :=
  '(old_protocol_addr, _) ← unwrap (min_by_key (fun e => nb_expires_at e.2) (lm_iter m));
  let '(m, old_neighbor) := lm_remove old_protocol_addr m in
  _ ← unwrap old_neighbor;
  Ret m.

Definition fill_with_expiration (protocol_addr : Address) (hardware_addr : HardwareAddress)
    (expires_at : Instant) (c : t) : outcome t :=
  _ ← rust_assert (Address.is_unicast protocol_addr);
  unicast ← HardwareAddress.is_unicast hardware_addr;
  _ ← rust_assert unicast;
  let neighbor := mkNeighbor hardware_addr expires_at in
  match lm_insert protocol_addr neighbor (storage c) with
  | (m, Ok _) => Ret (mk m (silent_until c))
  | (m, Err (protocol_addr, neighbor)) =>
      m ← evict m;
      match lm_insert protocol_addr neighbor m with
      | (m, Ok None) => Ret (mk m (silent_until c))
      | _ => Panic
      end
  end.

Definition fill (protocol_addr : Address) (hardware_addr : HardwareAddress) (timestamp : Instant)
    (c : t) : outcome t :=
  _ ← rust_assert (Address.is_unicast protocol_addr);
  unicast ← HardwareAddress.is_unicast hardware_addr;
  _ ← rust_assert unicast;
  expires_at ← Instant.add timestamp ENTRY_LIFETIME;
  fill_with_expiration protocol_addr hardware_addr expires_at c.

Definition lookup (protocol_addr : Address) (timestamp : Instant) (c : t) : outcome Answer :=
  _ ← rust_assert (Address.is_unicast protocol_addr);
  let silent := if timestamp <? silent_until c then RateLimited else NotFound in
  Ret match lm_get protocol_addr (storage c) with
      | Some n => if timestamp <? nb_expires_at n then Found (nb_hardware_addr n) else silent
      | None => silent
      end.

Definition limit_rate (timestamp : Instant) (c : t) : outcome t :=
  silent_until ← Instant.add timestamp SILENT_TIME;
  Ret (mk (storage c) silent_until).

Definition flush (c : t) : t := mk (lm_clear (storage c)) (silent_until c).
End Operations.
Arguments t {LM}.
End Cache.

(** ** What the cache remembers *)

Section Spec.
Context {LM : LinearMap Address Neighbor} {N : nat} {LL : LinearMapLaws LM N}.
Implicit Types (c : Cache.t).

Definition entry c (a : Address) : option Neighbor := lm_get a (Cache.storage c).

(** The effect of a fill: the address has the new entry; only when the cache was
    full of other addresses is one other entry gone, and that one expired first of
    all. *)
Definition filled c c' (a : Address) (n : Neighbor) : Prop :=
  entry c' a = Some n /\
  ((forall a', a' <> a -> entry c' a' = entry c a') \/
   entry c a = None /\ length (lm_iter (Cache.storage c)) = N /\
   exists victim v, victim <> a /\ entry c victim = Some v /\ entry c' victim = None /\
     (forall a', a' <> a -> a' <> victim -> entry c' a' = entry c a') /\
     (forall a' n', entry c a' = Some n' -> nb_expires_at v <= nb_expires_at n')).

Lemma evict_spec m :
  (0 < length (lm_iter m))%nat ->
  exists m' victim v, Cache.evict m = Ret m' /\ lm_get victim m = Some v /\ lm_get victim m' = None /\
    (forall a', a' <> victim -> lm_get a' m' = lm_get a' m) /\
    (length (lm_iter m') < length (lm_iter m))%nat /\
    (forall a' n', lm_get a' m = Some n' -> nb_expires_at v <= nb_expires_at n').
Proof.
  intros Hl. unfold Cache.evict.
  pose proof (min_by_key_spec (fun e : Address * Neighbor => nb_expires_at e.2) (lm_iter m)) as Hmin.
  destruct (min_by_key _ _) as [[victim v]|]; [|rewrite Hmin in Hl; cbn in Hl; lia].
  destruct Hmin as [Hin Hmin]. cbn [unwrap mbind outcome_bind].
  assert (lm_get victim m = Some v) as Hv
    by exact (proj2 (lm_get_iter m victim v) Hin).
  destruct (lm_remove_ok m victim) as (m' & -> & Hnone & Hother & Hlen). rewrite Hv.
  cbn [unwrap mbind outcome_bind]. exists m', victim, v. split_and!; try done; [apply Hlen; by exists v|].
  intros a' n' Ha. apply (Hmin (a', n')). by apply (lm_get_iter m).
Qed.

Lemma fill_with_expiration_spec a h expires_at c :
  (0 < N)%nat -> Address.is_unicast a = true -> HardwareAddress.is_unicast h = Ret true ->
  exists c', Cache.fill_with_expiration a h expires_at c = Ret c' /\
    Cache.silent_until c' = Cache.silent_until c /\ filled c c' a (mkNeighbor h expires_at).
Proof.
  intros HN Ha Hh. unfold Cache.fill_with_expiration. rewrite Ha, Hh. cbn [rust_assert mbind outcome_bind].
  pose proof (lm_capacity (Cache.storage c)) as Hcap. set (n := mkNeighbor h expires_at).
  destruct (decide (is_Some (lm_get a (Cache.storage c)) \/ (length (lm_iter (Cache.storage c)) < N)%nat))
    as [Hroom|Hfull].
  - destruct (lm_insert_ok (Cache.storage c) a n Hroom) as (m & -> & Hget & Hother).
    eexists. split; [done|]. split; [done|]. split; [done|]. by left.
  - assert (lm_get a (Cache.storage c) = None) as Hnone.
    { destruct (lm_get a (Cache.storage c)) eqn:?; [|done]. destruct Hfull. left. by eexists. }
    rewrite lm_insert_full by (done || lia).
    destruct (evict_spec (Cache.storage c)) as (m & victim & v & -> & Hv & Hvn & Hother & Hlen & Hmin);
      [lia|]. cbn [mbind outcome_bind].
    assert (a <> victim) as Hne by congruence.
    destruct (lm_insert_ok m a n) as (m' & -> & Hget & Hother'); [right; lia|].
    rewrite Hother, Hnone by done. eexists. split; [done|]. split; [done|]. split; [done|].
    right. split; [done|]. split; [lia|]. exists victim, v. unfold entry; cbn. split_and!; try done.
    + by rewrite Hother'.
    + intros a' H1 H2. by rewrite Hother', Hother.
Qed.
End Spec.

(** ** Runs against an unbounded cache *)

Inductive cache_op :=
| FillAt (a : Address) (h : HardwareAddress) (timestamp : Instant)
| FillUntil (a : Address) (h : HardwareAddress) (expires_at : Instant)
| LimitRate (timestamp : Instant)
| Flush.

Section Runs.
Context {LM : LinearMap Address Neighbor} {N : nat} {LL : LinearMapLaws LM N}.

Definition cache_step (c : Cache.t) (o : cache_op) : outcome Cache.t :=
  match o with
  | FillAt a h timestamp => Cache.fill a h timestamp c
  | FillUntil a h expires_at => Cache.fill_with_expiration a h expires_at c
  | LimitRate timestamp => Cache.limit_rate timestamp c
  | Flush => Ret (Cache.flush c)
  end.

Fixpoint cache_run (c : Cache.t) (ops : list cache_op) : outcome Cache.t :=
  match ops with
  | [] => Ret c
  | o :: ops => c ← cache_step c o; cache_run c ops
  end.

(** The arguments the interface passes: unicast addresses, clock readings that
    leave room for the lifetime of an entry. *)
Definition clock_ok (timestamp : Instant) : Prop :=
  0 <= timestamp /\ timestamp + Cache.ENTRY_LIFETIME <= I64_MAX.

Definition op_ok (o : cache_op) : Prop :=
  match o with
  | FillAt a h timestamp =>
      Address.is_unicast a = true /\ HardwareAddress.is_unicast h = Ret true /\ clock_ok timestamp
  | FillUntil a h _ => Address.is_unicast a = true /\ HardwareAddress.is_unicast h = Ret true
  | LimitRate timestamp => clock_ok timestamp
  | Flush => True
  end.

Definition op_fill (o : cache_op) : option (Address * Neighbor) :=
  match o with
  | FillAt a h timestamp => Some (a, mkNeighbor h (timestamp + Cache.ENTRY_LIFETIME))
  | FillUntil a h expires_at => Some (a, mkNeighbor h expires_at)
  | _ => None
  end.

(** What a cache without bound knows after the operations. *)
Definition learn (known : Address -> option Neighbor) (o : cache_op) : Address -> option Neighbor :=
  match o with
  | Flush => fun _ => None
  | LimitRate _ => known
  | FillAt _ _ _ | FillUntil _ _ _ => fun a =>
      match op_fill o with
      | Some (a', n) => if decide (a = a') then Some n else known a
      | None => known a
      end
  end.
Definition learned (ops : list cache_op) : Address -> option Neighbor := foldl learn (fun _ => None) ops.

(** The addresses filled in. *)
Definition addresses (ops : list cache_op) : list Address := omap (fun o => fst <$> op_fill o) ops.

(** The cache knows nothing but what was filled in last. *)
Definition agrees (c : Cache.t) (known : Address -> option Neighbor) : Prop :=
  forall a n, entry c a = Some n -> known a = Some n.

Lemma clock_add t d : clock_ok t -> 0 <= d <= Cache.ENTRY_LIFETIME -> Instant.add t d = Ret (t + d).
Proof.
  unfold clock_ok, Instant.add, check_i64, Cache.ENTRY_LIFETIME. intros [H1 H2] Hd.
  rewrite wrap_i_small by lia. decide_tests; done || lia.
Qed.

Lemma cache_step_fill c o a n :
  (0 < N)%nat -> op_ok o -> op_fill o = Some (a, n) ->
  exists c', cache_step c o = Ret c' /\ filled (N := N) c c' a n.
Proof.
  intros HN Hok Hfill. destruct o as [a' h t|a' h t| |]; try done; injection Hfill as <- <-; cbn.
  - destruct Hok as (Ha & Hh & Ht). unfold Cache.fill. rewrite Ha, Hh. cbn [rust_assert mbind outcome_bind].
    rewrite clock_add by (done || unfold Cache.ENTRY_LIFETIME; lia). cbn [mbind outcome_bind].
    destruct (fill_with_expiration_spec a' h (t + Cache.ENTRY_LIFETIME) c HN Ha Hh) as (c' & H & _ & ?).
    by exists c'.
  - destruct Hok as (Ha & Hh). destruct (fill_with_expiration_spec a' h t c HN Ha Hh) as (c' & H & _ & ?).
    by exists c'.
Qed.

Lemma learn_fill known o a n a' :
  op_fill o = Some (a, n) -> learn known o a' = if decide (a' = a) then Some n else known a'.
Proof. destruct o; cbn; intros [= <- <-]; done. Qed.

Lemma filled_agrees c c' known o a n :
  op_fill o = Some (a, n) -> filled (N := N) c c' a n -> agrees c known -> agrees c' (learn known o).
Proof.
  intros Hf [Hnew Hold] Hag a' n' He. rewrite (learn_fill _ _ _ _ _ Hf).
  case_decide as Ha; [subst; congruence|].
  destruct Hold as [Hold|(_ & _ & victim & v & _ & _ & Hv & Hold & _)]; [apply Hag; by rewrite <-Hold|].
  destruct (decide (a' = victim)) as [->|]; [congruence|]. apply Hag. by rewrite <-Hold.
Qed.

Lemma step_preserves c known o :
  (0 < N)%nat -> op_ok o -> agrees c known ->
  exists c', cache_step c o = Ret c' /\ agrees c' (learn known o).
Proof.
  intros HN Hok Hag. destruct (op_fill o) as [[a n]|] eqn:Hf.
  - destruct (cache_step_fill c o a n HN Hok Hf) as (c' & H & Hfilled). exists c'. split; [done|].
    by eapply filled_agrees.
  - destruct o as [| |t|]; try done; cbn.
    + unfold Cache.limit_rate. cbn in Hok.
      rewrite clock_add by (done || unfold Cache.ENTRY_LIFETIME, Cache.SILENT_TIME; lia). by eexists.
    + eexists. split; [done|]. intros a n He. exfalso. unfold entry in He. cbn in He.
      apply (lm_get_iter (lm_clear (Cache.storage c))) in He. rewrite lm_iter_clear in He.
      by apply elem_of_nil in He.
Qed.

Lemma run_agrees c known ops :
  (0 < N)%nat -> Forall op_ok ops -> agrees c known ->
  exists c', cache_run c ops = Ret c' /\ agrees c' (foldl learn known ops).
Proof.
  revert c known. induction ops as [|o ops IH]; intros c known HN Hok Hag; [by exists c|].
  apply Forall_cons in Hok as [Ho Hops].
  destruct (step_preserves c known o HN Ho Hag) as (c1 & H1 & Hag1).
  destruct (IH c1 (learn known o) HN Hops Hag1) as (c2 & H2 & Hag2).
  exists c2. cbn. by rewrite H1.
Qed.

(** As long as no more addresses are filled in than the cache has room for, it
    knows all of them. *)
Definition exact (c : Cache.t) (known : Address -> option Neighbor) (pool : list Address) : Prop :=
  (forall a, entry c a = known a) /\ forall a, is_Some (known a) -> a ∈ pool.

Lemma filled_exact c c' known o a n pool :
  op_fill o = Some (a, n) -> filled (N := N) c c' a n -> a ∈ pool ->
  (length (remove_dups pool) <= N)%nat -> exact c known pool -> exact c' (learn known o) pool.
Proof.
  intros Hf [Hnew Hold] Ha Hpool [Hex Hdom]. split.
  - intros a'. rewrite (learn_fill _ _ _ _ _ Hf). case_decide as Hd; [by subst|].
    destruct Hold as [Hold|(Hnone & Hfull & _)]; [by rewrite Hold|]. exfalso.
    assert (length (a :: (lm_iter (Cache.storage c)).*1) <= length (remove_dups pool))%nat as Hle.
    { apply submseteq_length, NoDup_submseteq.
      - apply NoDup_cons_2; [|apply lm_keys_NoDup]. intros [[k v] [-> Hin]]%list_elem_of_fmap.
        apply (lm_get_iter (Cache.storage c)) in Hin. unfold entry in Hnone. cbn in *. congruence.
      - intros x [->|[[k v] [-> Hin]]%list_elem_of_fmap]%elem_of_cons; apply elem_of_remove_dups; [done|].
        apply Hdom. rewrite <-Hex. exists v. by apply (lm_get_iter (Cache.storage c)). }
    cbn in Hle. rewrite length_fmap in Hle. lia.
  - intros a' [n' Hn']. rewrite (learn_fill _ _ _ _ _ Hf) in Hn'. case_decide; [by subst|].
    apply Hdom. by eexists.
Qed.

Lemma step_exact c known o pool :
  (0 < N)%nat -> op_ok o -> (length (remove_dups pool) <= N)%nat ->
  (forall a, a ∈ addresses [o] -> a ∈ pool) -> exact c known pool ->
  exists c', cache_step c o = Ret c' /\ exact c' (learn known o) pool.
Proof.
  intros HN Hok Hpool Hin Hex. destruct (op_fill o) as [[a n]|] eqn:Hf.
  - destruct (cache_step_fill c o a n HN Hok Hf) as (c' & H & Hfilled). exists c'. split; [done|].
    eapply filled_exact; try done. apply Hin. unfold addresses. cbn. rewrite Hf. cbn.
    by apply list_elem_of_singleton.
  - destruct o as [| |t|]; try done; cbn.
    + unfold Cache.limit_rate. cbn in Hok.
      rewrite clock_add by (done || unfold Cache.ENTRY_LIFETIME, Cache.SILENT_TIME; lia). by eexists.
    + eexists. split; [done|]. split; [|by intros a [? ?]]. intros a. unfold entry. cbn.
      destruct (lm_get a _) eqn:He; [|done]. apply (lm_get_iter (lm_clear (Cache.storage c))) in He.
      rewrite lm_iter_clear in He. by apply elem_of_nil in He.
Qed.

Lemma run_exact c known ops pool :
  (0 < N)%nat -> Forall op_ok ops -> (length (remove_dups pool) <= N)%nat ->
  (forall a, a ∈ addresses ops -> a ∈ pool) -> exact c known pool ->
  exists c', cache_run c ops = Ret c' /\ exact c' (foldl learn known ops) pool.
Proof.
  revert c known. induction ops as [|o ops IH]; intros c known HN Hok Hpool Hin Hex; [by exists c|].
  apply Forall_cons in Hok as [Ho Hops].
  destruct (step_exact c known o pool) as (c1 & H1 & Hex1); try done.
  { intros a Ha. apply Hin. revert Ha. unfold addresses. cbn. case_match; [|intros []%elem_of_nil].
    intros ->%list_elem_of_singleton. apply elem_of_cons. by left. }
  destruct (IH c1 (learn known o)) as (c2 & H2 & Hex2); try done.
  { intros a Ha. apply Hin. unfold addresses in *. cbn. case_match; [apply elem_of_cons; by right|done]. }
  exists c2. cbn. by rewrite H1.
Qed.

Lemma new_agrees : agrees Cache.new (fun _ => None).
Proof. intros a n He. apply (lm_get_iter lm_new) in He. rewrite lm_iter_new in He. by apply elem_of_nil in He. Qed.

Lemma new_exact pool : exact Cache.new (fun _ => None) pool.
Proof.
  split; [|by intros a [? ?]]. intros a. destruct (entry Cache.new a) as [n|] eqn:He; [|done].
  by apply new_agrees in He.
Qed.
End Runs.

(** What [lookup] answers from what is known of an address. *)
Definition answer (known : option Neighbor) (timestamp silent_until : Instant) : Answer :=
  match known with
  | Some n => if timestamp <? nb_expires_at n then Found (nb_hardware_addr n)
              else if timestamp <? silent_until then RateLimited else NotFound
  | None => if timestamp <? silent_until then RateLimited else NotFound
  end.

(** C34: the neighbor cache answers like one without a bound.  No run of fills,
    rate limits and flushes panics.  The hardware address [lookup] finds is always
    the one filled in last for that protocol address, still valid and not flushed
    since; and unless more addresses are filled in than the cache has room for,
    every lookup gives the answer of the unbounded cache: nothing is forgotten
    before it expires. *)
Theorem neighbor_cache_refines_map {LM : LinearMap Address Neighbor} {N : nat}
    (LL : LinearMapLaws LM N) (ops : list cache_op) (HN : (0 < N)%nat) (Hops : Forall op_ok ops) :
  exists c, cache_run Cache.new ops = Ret c /\ forall a timestamp, Address.is_unicast a = true ->
    exists r, Cache.lookup a timestamp c = Ret r /\
      (forall h, r = Found h -> exists n, learned ops a = Some n /\ nb_hardware_addr n = h /\
         timestamp < nb_expires_at n) /\
      ((length (remove_dups (addresses ops)) <= N)%nat ->
       r = answer (learned ops a) timestamp (Cache.silent_until c)).
Proof.
  destruct (run_agrees (N := N) Cache.new (fun _ => None) ops HN Hops new_agrees) as (c & Hrun & Hag).
  exists c. split; [done|]. intros a t Ha. unfold Cache.lookup. rewrite Ha. cbn [rust_assert mbind outcome_bind].
  eexists. split; [done|]. split.
  - intros h Hh. unfold agrees, entry in Hag. destruct (lm_get a (Cache.storage c)) as [n|] eqn:He.
    + destruct (Z.ltb_spec t (nb_expires_at n)); [|by case_match].
      injection Hh as <-. exists n. split; [exact (Hag a n He)|done].
    + by case_match.
  - intros Hroom. destruct (run_exact (N := N) Cache.new (fun _ => None) ops (addresses ops))
      as (c' & Hrun' & Hex & _); try done; [apply new_exact|].
    rewrite Hrun in Hrun'. injection Hrun' as <-. specialize (Hex a). unfold entry in Hex.
    unfold learned. rewrite Hex. done.
Qed.

#[local] Instance sample_map : LinearMap Address Neighbor := list_map Address Neighbor 2.

Lemma neighbor_cache_refines_map_witness :
  let a := Ipv4 [192; 168; 1; 1] in
  let h := HwEthernet [2; 0; 0; 0; 0; 1] in
  let ops := [FillAt a (HwEthernet [2; 0; 0; 0; 0; 9]) 0; LimitRate 5; FillUntil a h 1000] in
  (c ← cache_run Cache.new ops; Cache.lookup a 999 c) = Ret (Found h) /\
  exists c, cache_run Cache.new ops = Ret c /\ forall a timestamp, Address.is_unicast a = true ->
    exists r, Cache.lookup a timestamp c = Ret r /\
      (forall h, r = Found h -> exists n, learned ops a = Some n /\ nb_hardware_addr n = h /\
         timestamp < nb_expires_at n) /\
      ((length (remove_dups (addresses ops)) <= 2)%nat ->
       r = answer (learned ops a) timestamp (Cache.silent_until c)).
Proof.
  intros a h ops. split; [by vm_compute|].
  apply (neighbor_cache_refines_map (list_map_laws Address Neighbor 2)); [lia|].
  repeat apply Forall_cons_2; try apply Forall_nil_2; unfold op_ok, clock_ok, Cache.ENTRY_LIFETIME;
    split_and!; done || lia.
Defined.
