(* ===== verification/Fragmentation.v ===== *)
(** * Reassembly buffers and the fragmenter (src/iface/fragmentation.rs)

    [Module PacketAssembler] collects the fragments of one datagram in a buffer that
    grows (the [alloc] build), [Module PacketAssemblerSet] the datagrams being
    reassembled, by key; [Module Fragmenter] is the datagram being sent in
    fragments.  The theorem of the file: whatever the order in which the fragments
    of a datagram arrive, and however often, the assembler hands out the datagram
    when, and only when, the fragments received cover it. *)

From S2P Require Import Prelude Assembler Time Ip LinkLayer Collections.
Open Scope nat_scope.

Inductive AssemblerError := AssemblerErr.
Inductive AssemblerFullError := AssemblerFull.

(** [Vec::resize(size, 0)] on a shorter vector. *)
Definition grow (buffer : list Z) (size : nat) : list Z := buffer ++ replicate (size - length buffer) 0%Z.

Module PacketAssembler.
Section Operations.
Context {K : Type}.

Record t := mk {
  key : option K;
  buffer : list Z;
  assembler : Assembler;
  total_size : option nat;
  expires_at : Instant
}.

#[global] Instance eta : Settable t := fun p =>
  mk (key p) (buffer p) (assembler p) (total_size p) (expires_at p).

Definition new (max_segment_count : nat) : t :=
  mk None [] (Assembler.new max_segment_count) None Instant.ZERO.

Definition reset (p : t) : t :=
  p <| key := None |> <| assembler ::= clear |> <| total_size := None |> <| expires_at := Instant.ZERO |>.

Definition set_total_size (size : nat) (p : t) : t * result unit AssemblerError :=
  let set p :=
    let p := if length (buffer p) <? size then p <| buffer ::= fun b => grow b size |> else p in
    (p <| total_size := Some size |>, Ok ()) in
  match total_size p with
  | Some old_size => if negb (old_size =? size) then (p, Err AssemblerErr) else set p
  | None => set p
  end.

(** [f] writes to the slice it is given and says how many octets it wrote. *)
Definition add_with (offset : nat) (f : list Z -> outcome (list Z * result nat AssemblerError)) (p : t) :
    outcome (t * result unit AssemblerError) :=
  if length (buffer p) <? offset then Ret (p, Err AssemblerErr) else
  '(written, res) ← f (drop offset (buffer p));
  let p := p <| buffer ::= fun b => take offset b ++ written |> in
  match res with
  | Err e => Ret (p, Err e)
  | Ok len =>
      _ ← rust_assert (offset + len <=? length (buffer p));
      '(asm, _) ← Assembler.add offset len (assembler p);
      Ret (p <| assembler := asm |>, Ok ())
  end.

Definition add (data : list Z) (offset : nat) (p : t) : outcome (t * result unit AssemblerError) :=
  let p := if length (buffer p) <? offset + length data
           then p <| buffer ::= fun b => grow b (offset + length data) |> else p in
  let p := p <| buffer ::= fun b => splice b offset data |> in
  '(asm, _) ← Assembler.add offset (length data) (assembler p);
  Ret (p <| assembler := asm |>, Ok ()).

Definition is_complete (p : t) : bool := bool_decide (total_size p = Some (peek_front (assembler p))).

Definition assemble (p : t) : outcome (t * option (list Z)) :=
  if negb (is_complete p) then Ret (p, None) else
  size ← unwrap (total_size p);
  let p := reset p in
  data ← range (buffer p) 0 size;
  Ret (p, Some data).

Definition is_free (p : t) : bool := match key p with None => true | Some _ => false end.
End Operations.
Arguments t : clear implicits.
End PacketAssembler.

Module PacketAssemblerSet.
Section Operations.
Context {K : Type} `{EqDecision K}.

(** [assemblers: [PacketAssembler<K>; REASSEMBLY_BUFFER_COUNT]] *)
Abbreviation t := (list (PacketAssembler.t K)).

Definition new (reassembly_buffer_count max_segment_count : nat) : t :=
  replicate reassembly_buffer_count (PacketAssembler.new max_segment_count).

(** The loop of [get], from the slot [i] on: the slot with the key, or else the
    last free one. *)
Fixpoint get_loop (k : K) (i : nat) (slots : t) (empty_slot : option nat) : nat + option nat :=
  match slots with
  | [] => inr empty_slot
  | slot :: slots =>
      if bool_decide (PacketAssembler.key slot = Some k) then inl i else
      get_loop k (S i) slots (if PacketAssembler.is_free slot then Some i else empty_slot)
  end.

(** [get] answers a reference to a slot, here its index. *)
Definition get (k : K) (expires_at : Instant) (s : t) : t * result nat AssemblerFullError :=
  match get_loop k 0 s None with
  | inl i => (s, Ok i)
  | inr None => (s, Err AssemblerFull)
  | inr (Some i) =>
      (alter (fun slot => slot <| PacketAssembler.key := Some k |>
                               <| PacketAssembler.expires_at := expires_at |>) i s, Ok i)
  end.

Definition remove_expired (timestamp : Instant) (s : t) : t :=
  (fun frag => if negb (PacketAssembler.is_free frag) && (PacketAssembler.expires_at frag <? timestamp)%Z
               then PacketAssembler.reset frag else frag) <$> s.
End Operations.
End PacketAssemblerSet.

Module Ipv4Fragmenter.
Record t := mk {
  repr : IpHeader;
  dst_hardware_addr : list Z;
  frag_offset : Z;
  ident : Z
}.
#[global] Instance eta : Settable t := fun f =>
  mk (repr f) (dst_hardware_addr f) (frag_offset f) (ident f).
End Ipv4Fragmenter.

Module Fragmenter.
Record t := mk {
  buffer : list Z;
  packet_len : nat;
  sent_bytes : nat;
  ipv4 : Ipv4Fragmenter.t
}.
#[global] Instance eta : Settable t := fun f => mk (buffer f) (packet_len f) (sent_bytes f) (ipv4 f).

(** The representation [new] and [reset] put in place. *)
Definition no_repr : IpHeader := mkIpHeader [0; 0; 0; 0]%Z [0; 0; 0; 0]%Z (Protocol.Unknown 0) 0 0.

Definition new (fragmentation_buffer_size : nat) : t :=
  mk (replicate fragmentation_buffer_size 0%Z) 0 0 (Ipv4Fragmenter.mk no_repr (replicate 6 0%Z) 0 0).

Definition finished (f : t) : bool := packet_len f =? sent_bytes f.
Definition is_empty (f : t) : bool := packet_len f =? 0.

Definition reset (f : t) : t :=
  f <| packet_len := 0 |> <| sent_bytes := 0 |>
    <| ipv4 ::= fun i => i <| Ipv4Fragmenter.repr := no_repr |>
                           <| Ipv4Fragmenter.dst_hardware_addr := replicate 6 0%Z |> |>.
End Fragmenter.

(** ** The contigs of an assembler begin where a recorded range begins *)

Section Islands.
Implicit Types (l asm : list Contig).

(** The first recorded offset of each contig. *)
Fixpoint starts (base : nat) l : list nat :=
  match l with
  | [] => []
  | c :: l => base + hole_size c :: starts (base + Contig.total_size c) l
  end.

Lemma starts_length base l : length (starts base l) = length l.
Proof. revert base. induction l as [|c l IH]; intros base; cbn; auto. Qed.

Lemma starts_ge base l s : s ∈ starts base l -> base <= s.
Proof.
  revert base. induction l as [|c l IH]; intros base; cbn; [by intros ?%elem_of_nil|].
  intros [->|H%IH]%elem_of_cons; unfold Contig.total_size in *; lia.
Qed.

Lemma starts_NoDup base l : all_data l -> NoDup (starts base l).
Proof.
  intros Hd. revert base. induction Hd as [|c l Hc Hd IH]; intros base; cbn; [by constructor|].
  constructor; [|apply IH]. intros H%starts_ge. unfold Contig.total_size in H. lia.
Qed.

(** The start of a contig is recorded, the offset before it is not. *)
Lemma starts_island base l s :
  all_data l -> all_holes (tail l) -> s ∈ starts base l ->
  present l (s - base) = true /\ (s = base \/ present l (s - base - 1) = false).
Proof.
  intros Hd. revert base. induction Hd as [|c l Hc Hd IH]; intros base Hh; cbn [starts present]; [by intros ?%elem_of_nil|].
  unfold Contig.total_size. cbn [tail] in Hh. intros [->|Hs]%elem_of_cons.
  - split; [decide_tests; done || lia|]. destruct (decide (hole_size c = 0)); [left; lia|right].
    decide_tests; done || lia.
  - assert (base + Contig.total_size c < s) as Hlt.
    { destruct Hh as [|c' l Hc' Hh]; [by apply elem_of_nil in Hs|]. cbn in Hs.
      apply elem_of_cons in Hs as [->|H%starts_ge]; unfold Contig.total_size in *; lia. }
    destruct (IH (base + Contig.total_size c)) as [H1 H2]; [by destruct Hh; [constructor|]|done|].
    unfold Contig.total_size in *.
    replace (s - (base + (hole_size c + data_size c))) with (s - base - (hole_size c + data_size c)) in * by lia.
    split; [decide_tests; done || lia|right]. destruct H2 as [|H2]; [lia|].
    replace (s - base - 1 - (hole_size c + data_size c)) with (s - base - (hole_size c + data_size c) - 1) by lia.
    decide_tests; done || lia.
Qed.

(** An assembler without a free contig records as many separate ranges. *)
Lemma full_islands asm :
  wf asm -> all_data asm ->
  exists ss, NoDup ss /\ length ss = length asm /\
    forall s, s ∈ ss -> present asm s = true /\ (s = 0 \/ present asm (s - 1) = false).
Proof.
  intros (used & k & -> & [Hd Hh] & Hlen) Hall. destruct k as [|k]; [|apply Forall_app in Hall as [_ Hall]].
  - cbn [replicate] in *. rewrite app_nil_r in *. exists (starts 0 used).
    split_and!; [by apply starts_NoDup|apply starts_length|]. intros s Hs.
    pose proof (starts_island 0 used s Hd Hh Hs) as H. by rewrite !Nat.sub_0_r in H.
  - cbn [replicate] in Hall. apply Forall_cons in Hall as [Hall _]. cbn in Hall. lia.
Qed.
End Islands.

(** ** Collecting the fragments of a datagram *)

Lemma in_range_spec o l i : in_range o l i = true <-> o <= i < o + l.
Proof. unfold in_range. rewrite andb_true_iff, Nat.leb_le, Nat.ltb_lt. done. Qed.

Definition covered (pieces : list (nat * nat)) (i : nat) : bool :=
  existsb (fun '(o, l) => in_range o l i) pieces.

Section Collecting.
Context {K : Type}.
Implicit Types (p : PacketAssembler.t K) (pieces : list (nat * nat)).
Import PacketAssembler.

(** The datagram, and the offset and length of each of its fragments. *)
Variables (d : list Z) (cuts : list (nat * nat)).

Record cuts_wf : Prop := {
  cuts_offsets : NoDup cuts.*1;
  cuts_inside : Forall (fun '(o, l) => 0 < l /\ o + l <= length d) cuts
}.

(** After the fragments [pieces]: they are recorded, and their octets are in
    place. *)
Record collecting pieces p : Prop := {
  col_wf : wf (assembler p);
  col_present : forall i, present (assembler p) i = covered pieces i;
  col_data : forall i, covered pieces i = true -> buffer p !! i = d !! i;
  col_total : total_size p = None \/ total_size p = Some (length d)
}.

Hypothesis Hcuts : cuts_wf.

Lemma covered_lt pieces i : pieces ⊆ cuts -> covered pieces i = true -> i < length d.
Proof.
  intros Hsub ([o l] & Hin & Hr)%existsb_exists. apply list_elem_of_In, Hsub in Hin.
  pose proof (proj1 (Forall_forall _ _) (cuts_inside Hcuts) _ Hin) as [? ?]. apply in_range_spec in Hr. lia.
Qed.

(** A piece not yet received finds room when there is a contig for each cut. *)
Lemma room_for_new pieces o l p :
  collecting pieces p -> pieces ⊆ cuts -> (o, l) ∈ cuts -> (o, l) ∉ pieces ->
  length cuts <= length (assembler p) -> all_data (assembler p) -> False.
Proof.
  intros Hc Hsub Hin Hnew Hlen Hall.
  destruct (full_islands _ (col_wf _ _ Hc) Hall) as (ss & Hnd & Hss & Hisl).
  assert (forall s, s ∈ ss -> exists l', (s, l') ∈ pieces) as Hoff.
  { intros s [H1 H2]%Hisl. rewrite (col_present _ _ Hc) in H1, H2.
    apply existsb_exists in H1 as ([o' l'] & Hin' & Hr). apply list_elem_of_In in Hin'. apply in_range_spec in Hr.
    destruct (decide (o' = s)) as [->|Hne]; [by exists l'|]. exfalso.
    destruct H2 as [->|H2]; [lia|].
    assert (covered pieces (s - 1) = true); [|congruence].
    apply existsb_exists. exists (o', l'). split; [by apply list_elem_of_In|].
    apply in_range_spec. lia. }
  assert (NoDup (o :: ss)) as Hnd'.
  { constructor; [|done]. intros [l' Hl']%Hoff. apply Hnew.
    pose proof (Hsub _ Hl') as Hl2. apply list_elem_of_lookup in Hin as [i Hi], Hl2 as [j Hj].
    assert (i = j) as ->.
    { eapply (NoDup_lookup cuts.*1); [apply Hcuts| |]; rewrite list_lookup_fmap; [by rewrite Hi|by rewrite Hj]. }
    congruence. }
  assert (o :: ss ⊆ cuts.*1) as Hincl.
  { intros s [->|[l' Hl']%Hoff]%elem_of_cons; apply list_elem_of_fmap.
    - by exists (o, l).
    - exists (s, l'). by split; [|apply Hsub]. }
  pose proof (NoDup_incl_length (proj1 (NoDup_ListNoDup _) Hnd')
    (fun s Hs => proj1 (list_elem_of_In _ _) (Hincl s (proj2 (list_elem_of_In _ _) Hs)))) as Hle.
  rewrite length_fmap in Hle. cbn in Hle. lia.
Qed.
Lemma grow_lookup (b : list Z) n i : i < length b -> grow b n !! i = b !! i.
Proof. intros Hi. unfold grow. by rewrite lookup_app_l. Qed.

(** The buffer after a fragment has been copied into it. *)
Definition filled (b : list Z) o l : list Z :=
  splice (if length b <? o + l then grow b (o + l) else b) o (slice d o l).

Lemma filled_lookup (b : list Z) o l i :
  o + l <= length d -> filled b o l !! i = (if in_range o l i then d !! i else
    (if length b <? o + l then grow b (o + l) else b) !! i).
Proof.
  intros Hl. unfold filled. set (b' := if length b <? o + l then grow b (o + l) else b).
  assert (o + l <= length b') as Hb'.
  { unfold b', grow. destruct (Nat.ltb_spec (length b) (o + l)); [rewrite length_app, length_replicate|]; lia. }
  assert (length (slice d o l) = l) as Hsl by (rewrite length_slice; lia).
  unfold splice. rewrite Hsl. destruct (in_range o l i) eqn:Hr.
  - apply in_range_spec in Hr. rewrite lookup_app_r by (rewrite length_take; lia).
    rewrite length_take, Nat.min_l by lia. rewrite lookup_app_l by lia.
    unfold slice. rewrite lookup_take_lt, lookup_drop by lia. f_equal. lia.
  - assert (i < o \/ o + l <= i) as [Hi|Hi].
    { destruct (decide (i < o)); [by left|right]. unfold in_range in Hr. decide_tests; done || lia. }
    + rewrite lookup_app_l by (rewrite length_take; lia). by rewrite lookup_take_lt.
    + rewrite lookup_app_r by (rewrite length_take; lia). rewrite length_take, Nat.min_l by lia.
      rewrite lookup_app_r by lia. rewrite Hsl, lookup_drop. f_equal. lia.
Qed.

Lemma collecting_buffer pieces o l p (b : list Z) :
  b = filled (buffer p) o l -> o + l <= length d -> pieces ⊆ cuts -> collecting pieces p ->
  forall i, covered ((o, l) :: pieces) i = true -> b !! i = d !! i.
Proof.
  intros -> Hl Hsub Hc i Hi. rewrite filled_lookup by done. cbn in Hi.
  destruct (in_range o l i); [done|]. cbn in Hi. pose proof (col_data _ _ Hc i Hi) as Hd.
  pose proof (covered_lt pieces i Hsub Hi) as Hlt. apply lookup_lt_is_Some_2 in Hlt as [x Hx].
  rewrite Hx in Hd. apply lookup_lt_Some in Hd as Hb.
  destruct (_ <? _); [rewrite grow_lookup by done|]; congruence.
Qed.

(** Adding a fragment, new or repeated. *)
Lemma collecting_add pieces o l p :
  collecting pieces p -> pieces ⊆ cuts -> (o, l) ∈ cuts -> length cuts <= length (assembler p) ->
  exists p', add (slice d o l) o p = Ret (p', Ok ()) /\ collecting ((o, l) :: pieces) p' /\
    key p' = key p /\ total_size p' = total_size p /\ expires_at p' = expires_at p /\
    length (assembler p') = length (assembler p).
Proof.
  intros Hc Hsub Hin Hlen.
  pose proof (proj1 (Forall_forall _ _) (cuts_inside Hcuts) _ Hin) as [Hl Hol].
  assert (length (slice d o l) = l) as Hsl by (rewrite length_slice; lia).
  unfold add. rewrite Hsl. set (p1 := if length (buffer p) <? o + l then _ else p). cbn [assembler set_field].
  assert (assembler p1 = assembler p /\ key p1 = key p /\ total_size p1 = total_size p /\
    expires_at p1 = expires_at p /\ splice (buffer p1) o (slice d o l) = filled (buffer p) o l)
    as (Ha & Hk & Ht & He & Hb) by (unfold p1, filled; by case_match).
  rewrite Ha. pose proof (add_ok o l (assembler p) (col_wf _ _ Hc) Hl) as Hadd.
  pose proof (collecting_buffer pieces o l p _ Hb Hol Hsub Hc) as Hbuf.
  destruct (Assembler.add o l (assembler p)) as [[asm [[]|e]]|]; cbn in Hadd; [| |done];
    cbn [mbind outcome_bind]; eexists; (split; [done|]); cbn.
  - destruct Hadd as (Hwf & Hlen' & Hp & _). split_and!; try done. constructor; cbn; [done| |done|].
    + intros i. rewrite Hp, (col_present _ _ Hc). cbn. apply orb_comm.
    + rewrite Ht. apply Hc.
  - destruct Hadd as (-> & Hall & _). split_and!; try done. constructor; cbn; [apply Hc| |done|].
    + intros i. rewrite (col_present _ _ Hc). destruct (in_range o l i) eqn:Hr; [|done].
      destruct (decide ((o, l) ∈ pieces)) as [Hold|Hnew].
      * apply existsb_exists. exists (o, l). split; [by apply list_elem_of_In|done].
      * exfalso. by eapply (room_for_new pieces o l p).
    + rewrite Ht. apply Hc.
Qed.

Lemma collecting_total_size pieces p :
  collecting pieces p -> pieces ⊆ cuts ->
  exists p', set_total_size (length d) p = (p', Ok ()) /\ collecting pieces p' /\
    key p' = key p /\ total_size p' = Some (length d) /\ expires_at p' = expires_at p /\
    assembler p' = assembler p.
Proof.
  intros Hc Hsub. unfold set_total_size.
  assert (forall old, total_size p = Some old -> negb (old =? length d) = false) as Ht.
  { destruct (col_total _ _ Hc) as [->| ->]; [done|]. intros ? [= <-]. by rewrite Nat.eqb_refl. }
  destruct (total_size p) as [old|]; [rewrite (Ht old) by done|]; (eexists; split; [done|]);
    (split; [|by case_match]); constructor; cbn;
    try (case_match; apply Hc); try (by right);
    intros i Hi; pose proof (covered_lt pieces i Hsub Hi) as Hlt;
    apply lookup_lt_is_Some_2 in Hlt as [x Hx]; pose proof (col_data _ _ Hc i Hi) as Hd;
    rewrite Hx in Hd; apply lookup_lt_Some in Hd as Hb; case_match; cbn; rewrite ?grow_lookup; congruence.
Qed.

(** The assembler hands out the datagram when the pieces cover it. *)
Definition complete pieces : Prop := forall i, i < length d -> covered pieces i = true.

Lemma collecting_peek pieces p :
  collecting pieces p -> pieces ⊆ cuts -> peek_front (assembler p) = length d <-> complete pieces.
Proof.
  intros Hc Hsub. pose proof (peek_front_run _ (col_wf _ _ Hc)) as Hrun. split.
  - intros Heq i Hi. rewrite <-(col_present _ _ Hc). apply Hrun. lia.
  - intros Hcov. eapply front_run_unique; [done|]. split.
    + intros i Hi. rewrite (col_present _ _ Hc). by apply Hcov.
    + rewrite (col_present _ _ Hc). apply not_true_iff_false.
      intros H%covered_lt; [lia|done].
Qed.

Lemma collecting_assemble pieces p :
  collecting pieces p -> pieces ⊆ cuts ->
  (complete pieces -> total_size p = Some (length d) -> assemble p = Ret (reset p, Some d)) /\
  (~ (complete pieces /\ total_size p = Some (length d)) -> assemble p = Ret (p, None)).
Proof.
  intros Hc Hsub. pose proof (collecting_peek pieces p Hc Hsub) as Hpk. unfold assemble, is_complete. split.
  - intros Hcov Ht. rewrite Ht, (proj2 Hpk Hcov), bool_decide_true by done. cbn [negb unwrap mbind outcome_bind].
    assert (take (length d) (buffer p) = d) as Hd.
    { apply list_eq. intros i. destruct (decide (i < length d)) as [Hi|Hi].
      - rewrite lookup_take_lt by done. apply (col_data _ _ Hc). by apply Hcov.
      - rewrite lookup_take_ge, lookup_ge_None_2; [done|lia..]. }
    change (buffer (reset p)) with (buffer p). rewrite range_Ret by (apply (f_equal length) in Hd; rewrite length_take in Hd; lia).
    cbn [mbind outcome_bind]. unfold slice. by rewrite drop_0, Nat.sub_0_r, Hd.
  - intros Hn. rewrite bool_decide_false; [done|]. intros Ht. apply Hn. rewrite Ht.
    destruct (col_total _ _ Hc) as [H|H]; rewrite Ht in H; [done|]. injection H as H. rewrite H.
    split; [by apply Hpk|done].
Qed.
End Collecting.
