(* ===== verification/UdpWire.v ===== *)
(** * The UDP wire format (src/wire/udp.rs)

    [Module UdpPacket] is the accessors and setters on a buffer, [Module UdpRepr]
    the parser and the emitter of the high-level representation. *)

From S2P Require Import Prelude Bytes Phy Ip.
Open Scope Z_scope.

Definition UDP_HEADER_LEN : nat := 8.

Module UdpPacket.
Section Accessors.
Context {BO : ByteOrder}.
Implicit Types (data : list Z).

Definition src_port data : outcome Z := get_u16 0 2 data.
Definition dst_port data : outcome Z := get_u16 2 4 data.
Definition len data : outcome Z := get_u16 4 6 data.
Definition checksum data : outcome Z := get_u16 6 8 data.

Definition check_len data : outcome (result unit WireError) :=
  let buffer_len := length data in
  if (buffer_len <? UDP_HEADER_LEN)%nat then Ret (Err Error) else
  field_len ← len data;
  let field_len := Z.to_nat field_len in
  if ((buffer_len <? field_len) || (field_len <? UDP_HEADER_LEN))%nat then Ret (Err Error)
  else Ret (Ok ()).

Definition new_checked (buffer : list Z) : outcome (result (list Z) WireError) :=
  _ ←? check_len buffer;
  Ret (Ok buffer).

(** The checksum of the pseudo header and of the packet. *)
Definition packet_checksum data (src_addr dst_addr : Address) : outcome Z :=
  length ← len data;
  c1 ← checksum.pseudo_header src_addr dst_addr Protocol.Udp length;
  d ← range data 0 (Z.to_nat length);
  c2 ← checksum.data d;
  checksum.combine [c1; c2].

Definition verify_checksum data (src_addr dst_addr : Address) : outcome bool :=
  c ← checksum data;
  if c =? 0 then Ret true else
  c ← packet_checksum data src_addr dst_addr;
  Ret (c =? U16_MAX).

Definition payload data : outcome (list Z) :=
  length ← len data;
  range data UDP_HEADER_LEN (Z.to_nat length).

Definition set_src_port (value : Z) data : outcome (list Z) := put_u16 0 2 value data.
Definition set_dst_port (value : Z) data : outcome (list Z) := put_u16 2 4 value data.
Definition set_len (value : Z) data : outcome (list Z) := put_u16 4 6 value data.
Definition set_checksum (value : Z) data : outcome (list Z) := put_u16 6 8 value data.

Definition fill_checksum (src_addr dst_addr : Address) data : outcome (list Z) :=
  data ← set_checksum 0 data;
  c ← packet_checksum data src_addr dst_addr;
  let checksum := not16 c in
  set_checksum (if checksum =? 0 then 0xffff else checksum) data.

(** [f] writes the slice [payload_mut]. *)
Definition with_payload_mut (f : list Z -> outcome (list Z)) data : outcome (list Z) :=
  payload ← payload data;
  payload ← f payload;
  Ret (splice data UDP_HEADER_LEN payload).
End Accessors.
End UdpPacket.

Record UdpRepr := mkUdpRepr { udp_src_port : Z; udp_dst_port : Z }.

#[export] Instance UdpRepr_eq_dec : EqDecision UdpRepr.
Proof. solve_decision. Defined.

Module UdpRepr.
Section Repr.
Context {BO : ByteOrder}.

Definition parse (packet : list Z) (src_addr dst_addr : Address) (checksum_caps : ChecksumCapabilities) :
    outcome (result UdpRepr WireError) :=
  _ ←? UdpPacket.check_len packet;
  dst_port ← UdpPacket.dst_port packet;
  if dst_port =? 0 then Ret (Err Error) else
  invalid ← (if Checksum.rx (caps_udp checksum_caps)
             then ok ← UdpPacket.verify_checksum packet src_addr dst_addr; Ret (negb ok)
             else Ret false);
  rejected ← (if invalid : bool then
                match src_addr, dst_addr with
                | Ipv4 _, Ipv4 _ => c ← UdpPacket.checksum packet; Ret (negb (c =? 0))
                | _, _ => Ret true
                end
              else Ret false);
  if rejected : bool then Ret (Err Error) else
  src_port ← UdpPacket.src_port packet;
  dst_port ← UdpPacket.dst_port packet;
  Ret (Ok (mkUdpRepr src_port dst_port)).

Definition header_len (r : UdpRepr) : nat := UDP_HEADER_LEN.

Definition emit_header (r : UdpRepr) (payload_len : nat) (packet : list Z) : outcome (list Z) :=
  packet ← UdpPacket.set_src_port (udp_src_port r) packet;
  packet ← UdpPacket.set_dst_port (udp_dst_port r) packet;
  packet ← UdpPacket.set_len (wrap_u 16 (Z.of_nat (UDP_HEADER_LEN + payload_len))) packet;
  UdpPacket.set_checksum 0 packet.

Definition emit (r : UdpRepr) (src_addr dst_addr : Address) (payload_len : nat)
    (emit_payload : list Z -> outcome (list Z)) (checksum_caps : ChecksumCapabilities)
    (packet : list Z) : outcome (list Z) :=
  packet ← UdpPacket.set_src_port (udp_src_port r) packet;
  packet ← UdpPacket.set_dst_port (udp_dst_port r) packet;
  packet ← UdpPacket.set_len (wrap_u 16 (Z.of_nat (UDP_HEADER_LEN + payload_len))) packet;
  packet ← UdpPacket.with_payload_mut emit_payload packet;
  if Checksum.tx (caps_udp checksum_caps) then UdpPacket.fill_checksum src_addr dst_addr packet
  else UdpPacket.set_checksum 0 packet.
End Repr.
End UdpRepr.

(** ** Parsing is total *)

Section Total.
Context {BO : ByteOrder} {NE : NetworkEndian BO}.
Implicit Types (data : list Z).

(** What [check_len] establishes. *)
Lemma udp_check_len_ok data :
  bytes data -> returns (UdpPacket.check_len data) (fun r => match r with
    | Ok _ => exists n, UdpPacket.len data = Ret (Z.of_nat n) /\ (8 <= n <= length data)%nat /\
                        Z.of_nat n <= U16_MAX
    | Err _ => True
    end).
Proof.
  intros Hb. unfold UdpPacket.check_len, UDP_HEADER_LEN. destruct (Nat.ltb_spec (length data) 8); [done|].
  destruct (get_u16_ok 4 6 data Hb ltac:(lia) eq_refl) as (n & Hn & Hr).
  unfold UdpPacket.len in *. rewrite Hn. cbn [mbind outcome_bind].
  destruct (_ || _) eqn:Ht; [done|]. apply orb_false_iff in Ht as [H1%Nat.ltb_ge H2%Nat.ltb_ge].
  exists (Z.to_nat n). rewrite Z2Nat.id by lia. split_and!; lia || done.
Qed.

Lemma udp_packet_checksum_ok data n a b :
  bytes (take n data) -> UdpPacket.len data = Ret (Z.of_nat n) -> (n <= length data)%nat ->
  Z.of_nat n <= U16_MAX -> address_wf a -> address_wf b -> same_family a b ->
  exists p, 0 <= p <= U16_MAX /\ checksum.pseudo_header a b Protocol.Udp (Z.of_nat n) = Ret p /\
    UdpPacket.packet_checksum data a b = Ret (fold16 (p + word_sum (take n data))).
Proof.
  intros Hb Hn Hl Hm Ha Hb' Hf. unfold UdpPacket.packet_checksum. rewrite Hn. cbn [mbind outcome_bind].
  destruct (pseudo_header_total a b Protocol.Udp (Z.of_nat n) Ha Hb' Hf) as (p & Hp & Hpr);
    [unfold byte; cbn; lia|].
  exists p. split_and!; try done; try lia. rewrite Hp. cbn [mbind outcome_bind].
  rewrite Nat2Z.id, range_Ret by lia. cbn [mbind outcome_bind]. unfold slice. rewrite drop_0, Nat.sub_0_r.
  pose proof (word_sum_bound _ Hb). pose proof (word_sum_pos _ Hb). rewrite length_take in *.
  rewrite checksum_data_spec by (done || lia). cbn [mbind outcome_bind].
  rewrite combine_spec2 by (done || by apply fold16_range). by rewrite fold16_add by lia.
Qed.

Lemma udp_verify_ok data n a b :
  bytes data -> UdpPacket.len data = Ret (Z.of_nat n) -> (8 <= n <= length data)%nat ->
  Z.of_nat n <= U16_MAX -> address_wf a -> address_wf b -> same_family a b ->
  exists ok, UdpPacket.verify_checksum data a b = Ret ok.
Proof.
  intros Hb Hn Hl Hm Ha Hb' Hf. unfold UdpPacket.verify_checksum, UdpPacket.checksum.
  destruct (get_u16_ok 6 8 data Hb ltac:(lia) eq_refl) as (c & -> & _). cbn [mbind outcome_bind].
  case_test; [by eexists|].
  destruct (udp_packet_checksum_ok data n a b) as (p & _ & _ & ->); try done; [by apply bytes_take|lia|].
  by eexists.
Qed.

(** A parsed packet: ports in range, and a payload inside the buffer. *)
Definition udp_parsed data (res : result UdpRepr WireError) : Prop :=
  match res with
  | Ok r => 0 <= udp_src_port r <= U16_MAX /\ 0 < udp_dst_port r <= U16_MAX /\
      exists n, UdpPacket.len data = Ret (Z.of_nat n) /\ (8 <= n <= length data)%nat /\
        UdpPacket.payload data = Ret (slice data 8 (n - 8))
  | Err _ => True
  end.

Lemma udp_parse_ok data src_addr dst_addr caps :
  bytes data -> address_wf src_addr -> address_wf dst_addr -> same_family src_addr dst_addr ->
  exists res, (packet ←? UdpPacket.new_checked data; UdpRepr.parse packet src_addr dst_addr caps) = Ret res /\
    udp_parsed data res.
Proof.
  intros Hb Ha Hb' Hf.
  assert (forall e, exists res, Ret (Err e) = Ret res /\ udp_parsed data res) as Herr
    by (intros e; by exists (Err e)).
  unfold UdpPacket.new_checked. pose proof (udp_check_len_ok data Hb) as Hc.
  destruct (UdpPacket.check_len data) as [[[]|e]|] eqn:Hck; [|apply Herr|done].
  destruct Hc as (n & Hn & Hl & Hm). cbn [try_bind]. unfold UdpRepr.parse. rewrite Hck. cbn [try_bind].
  unfold UdpPacket.dst_port, UdpPacket.src_port, UdpPacket.checksum.
  destruct (get_u16_ok 2 4 data Hb ltac:(lia) eq_refl) as (dp & -> & Hdp). cbn [mbind outcome_bind].
  case_test; [apply Herr|].
  destruct (udp_verify_ok data n src_addr dst_addr) as [ok Hok]; try done.
  destruct (get_u16_ok 0 2 data Hb ltac:(lia) eq_refl) as (sp & -> & Hsp). cbn [mbind outcome_bind].
  destruct (get_u16_ok 6 8 data Hb ltac:(lia) eq_refl) as (c & -> & _).
  assert (UdpPacket.payload data = Ret (slice data 8 (n - 8))) as Hp.
  { unfold UdpPacket.payload, UDP_HEADER_LEN. rewrite Hn. cbn [mbind outcome_bind].
    rewrite Nat2Z.id. by rewrite range_Ret by lia. }
  assert (exists res, Ret (Ok (mkUdpRepr sp dp)) = Ret res /\ udp_parsed data res) as Hgood.
  { eexists. split; [done|]. cbn. split_and!; try lia. by exists n. }
  rewrite Hok. destruct (Checksum.rx (caps_udp caps)), ok; cbn [mbind outcome_bind negb]; try done.
  destruct src_addr, dst_addr; cbn [mbind outcome_bind]; try apply Herr.
  destruct (negb (c =? 0)); [apply Herr|done].
Qed.

(** Parsing a UDP packet never panics, whatever octets arrive, and when it
    succeeds the payload is the part of the buffer the length field says, and the
    destination port is not 0. *)
Theorem udp_parse_total data src_addr dst_addr caps :
  bytes data -> address_wf src_addr -> address_wf dst_addr -> same_family src_addr dst_addr ->
  exists res, (packet ←? UdpPacket.new_checked data; UdpRepr.parse packet src_addr dst_addr caps) = Ret res /\
    udp_parsed data res.
Proof. apply udp_parse_ok. Qed.
End Total.

(** ** Emitting *)

(** A packet by its fields. *)
Definition udp_packet (src dst len check rest : list Z) : list Z := src ++ dst ++ len ++ check ++ rest.

Section Emit.
Context {BO : ByteOrder} {NE : NetworkEndian BO}.

Lemma udp_split (l : list Z) :
  (8 <= length l)%nat -> exists s d n c rest, l = udp_packet s d n c rest /\
    length s = 2%nat /\ length d = 2%nat /\ length n = 2%nat /\ length c = 2%nat /\
    length rest = (length l - 8)%nat.
Proof.
  intros Hl. do 8 (destruct l as [|? l]; [cbn in Hl; lia|]).
  eexists [_; _], [_; _], [_; _], [_; _], l. cbn. split_and!; done || lia.
Qed.

Section Fields.
Variables (s d n c rest : list Z).
Hypothesis (Hs : length s = 2%nat) (Hd : length d = 2%nat) (Hn : length n = 2%nat) (Hc : length c = 2%nat).
Abbreviation p := (udp_packet s d n c rest).

Lemma udp_set_src v : 0 <= v <= U16_MAX -> UdpPacket.set_src_port v p = Ret (udp_packet (be16 v) d n c rest).
Proof. intros. by apply (put_u16_mid []). Qed.
Lemma udp_set_dst v : 0 <= v <= U16_MAX -> UdpPacket.set_dst_port v p = Ret (udp_packet s (be16 v) n c rest).
Proof. intros. by apply put_u16_mid. Qed.
Lemma udp_set_len v : 0 <= v <= U16_MAX -> UdpPacket.set_len v p = Ret (udp_packet s d (be16 v) c rest).
Proof.
  intros. unfold udp_packet. rewrite !(app_assoc s d). apply put_u16_mid; try done. rewrite length_app. lia.
Qed.
Lemma udp_set_check v :
  0 <= v <= U16_MAX -> UdpPacket.set_checksum v p = Ret (udp_packet s d n (be16 v) rest).
Proof.
  intros. unfold udp_packet. rewrite !(app_assoc d n), !(app_assoc s). apply put_u16_mid; try done.
  rewrite !length_app. lia.
Qed.
Lemma udp_get_src : UdpPacket.src_port p = read_u16 s.
Proof. by apply (get_u16_mid []). Qed.
Lemma udp_get_dst : UdpPacket.dst_port p = read_u16 d.
Proof. by apply get_u16_mid. Qed.
Lemma udp_get_len : UdpPacket.len p = read_u16 n.
Proof. unfold udp_packet. rewrite !(app_assoc s d). apply get_u16_mid; try done. rewrite length_app. lia. Qed.
Lemma udp_get_check : UdpPacket.checksum p = read_u16 c.
Proof.
  unfold udp_packet. rewrite !(app_assoc d n), !(app_assoc s). apply get_u16_mid; try done.
  rewrite !length_app. lia.
Qed.
Lemma udp_length : length p = (8 + length rest)%nat.
Proof. unfold udp_packet. rewrite !length_app. lia. Qed.
Lemma udp_drop_header : drop 8 p = rest.
Proof.
  unfold udp_packet. rewrite !app_assoc. apply drop_app_length'. rewrite !length_app. lia.
Qed.
Lemma udp_take_header k : take (8 + k) p = udp_packet s d n c (take k rest).
Proof.
  unfold udp_packet. rewrite !app_assoc, take_app, take_ge, !length_app by (rewrite !length_app; lia).
  do 2 f_equal. lia.
Qed.
Lemma udp_splice data : splice p 8 data = udp_packet s d n c (data ++ drop (length data) rest).
Proof.
  unfold splice. rewrite <-drop_drop, udp_drop_header. change 8%nat with (8 + 0)%nat.
  rewrite udp_take_header, take_0. unfold udp_packet. by rewrite app_nil_r, <-!app_assoc.
Qed.
Lemma udp_refill a b :
  UdpPacket.fill_checksum a b p = UdpPacket.fill_checksum a b (udp_packet s d n (be16 0) rest).
Proof.
  unfold UdpPacket.fill_checksum. rewrite udp_set_check by lia. f_equal.
  unfold udp_packet. rewrite !(app_assoc d n), !(app_assoc s). symmetry. apply put_u16_mid; try done.
  rewrite !length_app. lia.
Qed.
End Fields.

Lemma word_sum_be16 v : word_sum (be16 v) = v.
Proof. unfold be16. cbn. pose proof (Z.div_mod v 256). lia. Qed.

Lemma udp_word_sum s d n v rest :
  length s = 2%nat -> length d = 2%nat -> length n = 2%nat ->
  word_sum (udp_packet s d n (be16 v) rest) = word_sum (udp_packet s d n (be16 0) rest) + v.
Proof.
  intros Hs Hd Hn. unfold udp_packet. rewrite !(word_sum_app s), !(word_sum_app d), !(word_sum_app n)
    by (by exists 1%nat). rewrite !(word_sum_app (be16 _)) by (by exists 1%nat). rewrite !word_sum_be16. lia.
Qed.

(** The packet of a datagram with payload [data]; [tail] is the rest of the
    buffer. *)
Definition udp_datagram (r : UdpRepr) (v : Z) (data tail : list Z) : list Z :=
  udp_packet (be16 (udp_src_port r)) (be16 (udp_dst_port r)) (be16 (Z.of_nat (8 + length data)))
    (be16 v) (data ++ tail).

Definition udp_repr_ok (r : UdpRepr) : Prop :=
  0 <= udp_src_port r <= U16_MAX /\ 0 < udp_dst_port r <= U16_MAX.

Section Datagram.
Variables (r : UdpRepr) (data tail : list Z) (a b : Address).
Hypothesis Hr : udp_repr_ok r.
Hypothesis Hdata : bytes data.
Hypothesis Hlen : Z.of_nat (8 + length data) <= U16_MAX.
Hypothesis Ha : address_wf a.
Hypothesis Hb : address_wf b.
Hypothesis Hfam : same_family a b.
Abbreviation n := (8 + length data)%nat.

Lemma datagram_len v : UdpPacket.len (udp_datagram r v data tail) = Ret (Z.of_nat n).
Proof.
  unfold udp_datagram. rewrite udp_get_len by done. unfold be16. rewrite <-(app_nil_r [_; _]).
  by apply read_be16.
Qed.

Lemma datagram_check v : 0 <= v <= U16_MAX -> UdpPacket.checksum (udp_datagram r v data tail) = Ret v.
Proof.
  intros Hv. unfold udp_datagram. rewrite udp_get_check by done. rewrite <-(app_nil_r (be16 v)).
  by apply read_be16.
Qed.

Lemma datagram_take v : take n (udp_datagram r v data tail) = udp_datagram r v data [].
Proof. unfold udp_datagram. by rewrite udp_take_header, app_nil_r, take_app_length by done. Qed.

Lemma datagram_checksum v :
  0 <= v <= U16_MAX -> exists p, 0 <= p <= U16_MAX /\
    checksum.pseudo_header a b Protocol.Udp (Z.of_nat n) = Ret p /\
    UdpPacket.packet_checksum (udp_datagram r v data tail) a b =
      Ret (fold16 (p + word_sum (udp_datagram r 0 data []) + v)).
Proof.
  intros Hv. destruct Hr as [H1 H2].
  assert (bytes (udp_datagram r v data [])) as Hbt.
  { unfold udp_datagram, udp_packet, bytes. rewrite app_nil_r.
    repeat apply Forall_app_2; try done; apply be16_bytes; lia. }
  destruct (udp_packet_checksum_ok (udp_datagram r v data tail) n a b) as (p & ? & ? & Hp); try done.
  - by rewrite datagram_take.
  - by apply datagram_len.
  - unfold udp_datagram. rewrite udp_length by done. rewrite length_app. lia.
  - exists p. split_and!; try done; try lia. rewrite Hp, datagram_take.
    unfold udp_datagram. rewrite udp_word_sum by done. do 2 f_equal. lia.
Qed.

(** The checksum that [fill_checksum] writes is not 0 and verifies. *)
Lemma datagram_fill v :
  0 <= v <= U16_MAX -> exists v', 0 < v' <= U16_MAX /\
    UdpPacket.fill_checksum a b (udp_datagram r v data tail) = Ret (udp_datagram r v' data tail) /\
    UdpPacket.verify_checksum (udp_datagram r v' data tail) a b = Ret true.
Proof.
  intros Hv. unfold UdpPacket.fill_checksum.
  assert (forall v w, 0 <= w <= U16_MAX ->
    UdpPacket.set_checksum w (udp_datagram r v data tail) = Ret (udp_datagram r w data tail)) as Hset.
  { intros. unfold udp_datagram. by rewrite udp_set_check by done. }
  rewrite Hset by lia. cbn [mbind outcome_bind].
  destruct (datagram_checksum 0 ltac:(lia)) as (p & Hp & Hph & ->). cbn [mbind outcome_bind].
  set (x := p + word_sum (udp_datagram r 0 data []) + 0).
  assert (0 <= x) as Hx.
  { assert (bytes (udp_datagram r 0 data [])) as Hbt.
    { unfold udp_datagram, udp_packet, bytes. rewrite app_nil_r. destruct Hr.
      repeat apply Forall_app_2; try done; apply be16_bytes; lia. }
    pose proof (word_sum_pos _ Hbt). lia. }
  pose proof (fold16_range x Hx) as Hfx. unfold not16.
  set (v' := if 65535 - fold16 x =? 0 then 65535 else 65535 - fold16 x).
  assert (0 < v' <= U16_MAX /\ fold16 (x + v') = 65535) as [Hv' Hfold].
  { unfold v'. case_test; [|split; [lia|by apply fold16_complement]]. split; [lia|].
    destruct (fold16_cases x Hx) as [[Hx0 _]|(Hx' & _ & k & Hk & Hxk)]; [by rewrite Hx0|].
    unfold fold16. rewrite (proj2 (Z.eqb_neq _ _)) by lia.
    replace (x + 65535 - 1) with (65534 + (k + 1) * 65535) by lia. by rewrite Z.mod_add. }
  exists v'. split; [done|]. change 0xffff with 65535. rewrite Hset by lia. split; [done|].
  unfold UdpPacket.verify_checksum. rewrite datagram_check by lia. cbn [mbind outcome_bind].
  rewrite (proj2 (Z.eqb_neq _ _)) by lia.
  destruct (datagram_checksum v' ltac:(lia)) as (p' & _ & Hph' & ->).
  rewrite Hph in Hph'. injection Hph' as <-. cbn [mbind outcome_bind].
  replace (p + _ + v') with (x + v') by (unfold x; lia). by rewrite Hfold.
Qed.
End Datagram.

(** [emit] fills in the datagram and leaves the rest of the buffer. *)
Lemma udp_emit_ok r data f a b caps packet :
  udp_repr_ok r -> bytes data -> Z.of_nat (8 + length data) <= U16_MAX ->
  address_wf a -> address_wf b -> same_family a b ->
  (8 + length data <= length packet)%nat -> f (slice packet 8 (length data)) = Ret data ->
  exists v, 0 <= v <= U16_MAX /\
    UdpRepr.emit r a b (length data) f caps packet =
      Ret (udp_datagram r v data (drop (8 + length data) packet)) /\
    UdpPacket.verify_checksum (udp_datagram r v data (drop (8 + length data) packet)) a b = Ret true.
Proof.
  intros Hr Hdata Hlen Ha Hb Hf Hl Hp. destruct Hr as [H1 H2]. unfold UdpRepr.emit.
  destruct (udp_split packet ltac:(lia)) as (s & d & n & c & rest & -> & Hs & Hd & Hn & Hc & Hrest).
  rewrite udp_length in Hrest, Hl by done.
  rewrite udp_set_src by (done || lia). cbn [mbind outcome_bind].
  rewrite udp_set_dst by (done || lia). cbn [mbind outcome_bind]. unfold UDP_HEADER_LEN, wrap_u.
  rewrite Z.mod_small by lia. rewrite udp_set_len by (done || lia). cbn [mbind outcome_bind].
  unfold UdpPacket.with_payload_mut, UdpPacket.payload, UDP_HEADER_LEN.
  rewrite udp_get_len by done. rewrite <-(app_nil_r (be16 (Z.of_nat _))), read_be16, app_nil_r by lia.
  cbn [mbind outcome_bind]. rewrite Nat2Z.id, range_Ret by (rewrite ?udp_length; done || lia).
  cbn [mbind outcome_bind]. replace (8 + length data - 8)%nat with (length data) by lia.
  unfold slice in *. rewrite udp_drop_header in * by done. rewrite Hp. cbn [mbind outcome_bind].
  rewrite udp_splice by done. rewrite <-drop_drop, udp_drop_header by done.
  set (tail := drop (length data) rest). destruct (Checksum.tx (caps_udp caps)).
  - rewrite udp_refill by done. destruct (datagram_fill r data tail a b) with (v := 0)
      as (v & Hv & Hfill & Hver); try done; try lia.
    exists v. split_and!; try done; lia.
  - rewrite udp_set_check by (done || lia). exists 0. split_and!; try lia; [done|].
    unfold UdpPacket.verify_checksum. by rewrite datagram_check by lia.
Qed.

(** What follows a datagram in the buffer has no part in its checksum. *)
Lemma datagram_verify_tail r v data tail a b :
  udp_repr_ok r -> bytes data -> Z.of_nat (8 + length data) <= U16_MAX -> 0 <= v <= U16_MAX ->
  address_wf a -> address_wf b -> same_family a b ->
  UdpPacket.verify_checksum (udp_datagram r v data tail) a b = UdpPacket.verify_checksum (udp_datagram r v data []) a b.
Proof.
  intros. unfold UdpPacket.verify_checksum. rewrite !datagram_check by done. cbn [mbind outcome_bind].
  destruct (datagram_checksum r data tail a b) with (v := v) as (p & _ & Hp & ->); try done.
  destruct (datagram_checksum r data [] a b) with (v := v) as (p' & _ & Hp' & ->); try done.
  rewrite Hp in Hp'. by injection Hp' as <-.
Qed.

Lemma udp_datagram_parse r v data tail a b rx_caps :
  udp_repr_ok r -> Z.of_nat (8 + length data) <= U16_MAX ->
  UdpPacket.verify_checksum (udp_datagram r v data tail) a b = Ret true ->
  UdpRepr.parse (udp_datagram r v data tail) a b rx_caps = Ret (Ok r) /\
  UdpPacket.payload (udp_datagram r v data tail) = Ret data /\
  length (udp_datagram r v data tail) = (8 + length data + length tail)%nat.
Proof.
  intros [H1 H2] Hlen Hver. pose proof (datagram_len r data tail Hlen v) as Hn.
  assert (length (udp_datagram r v data tail) = (8 + length data + length tail)%nat) as Hlen'.
  { unfold udp_datagram. rewrite udp_length by done. rewrite length_app. lia. }
  assert (UdpPacket.check_len (udp_datagram r v data tail) = Ret (Ok ())) as Hck.
  { unfold UdpPacket.check_len, UDP_HEADER_LEN. rewrite Hlen', Hn. cbn [mbind outcome_bind].
    rewrite (proj2 (Nat.ltb_ge _ _)) by lia. rewrite Nat2Z.id.
    rewrite !(proj2 (Nat.ltb_ge _ _)) by lia. done. }
  assert (UdpPacket.src_port (udp_datagram r v data tail) = Ret (udp_src_port r)) as Hsp.
  { unfold udp_datagram. rewrite udp_get_src by done. rewrite <-(app_nil_r (be16 _)). apply read_be16. lia. }
  assert (UdpPacket.dst_port (udp_datagram r v data tail) = Ret (udp_dst_port r)) as Hdp.
  { unfold udp_datagram. rewrite udp_get_dst by done. rewrite <-(app_nil_r (be16 _)). apply read_be16. lia. }
  split_and!; [| |done].
  - unfold UdpRepr.parse. rewrite Hck, Hdp, Hsp, Hver. cbn [try_bind mbind outcome_bind].
    rewrite (proj2 (Z.eqb_neq _ _)) by lia.
    destruct (Checksum.rx _); cbn [mbind outcome_bind negb]; by destruct r.
  - unfold UdpPacket.payload, UDP_HEADER_LEN. rewrite Hn. cbn [mbind outcome_bind].
    rewrite Nat2Z.id, range_Ret by lia. unfold slice, udp_datagram. rewrite udp_drop_header by done.
    replace (8 + length data - 8)%nat with (length data) by lia. by rewrite take_app_length.
Qed.

Lemma udp_emit_parse_ok r data emit_payload src_addr dst_addr tx_caps rx_caps packet :
  udp_repr_ok r -> bytes data -> Z.of_nat (8 + length data) <= U16_MAX ->
  address_wf src_addr -> address_wf dst_addr -> same_family src_addr dst_addr ->
  (8 + length data <= length packet)%nat ->
  emit_payload (slice packet 8 (length data)) = Ret data ->
  exists packet', UdpRepr.emit r src_addr dst_addr (length data) emit_payload tx_caps packet = Ret packet' /\
    length packet' = length packet /\
    UdpRepr.parse packet' src_addr dst_addr rx_caps = Ret (Ok r) /\
    UdpPacket.payload packet' = Ret data /\
    drop (8 + length data) packet' = drop (8 + length data) packet.
Proof.
  intros Hr Hdata Hlen Ha Hb Hf Hl Hp.
  destruct (udp_emit_ok r data emit_payload src_addr dst_addr tx_caps packet) as (v & Hv & He & Hver); try done.
  eexists. split; [exact He|]. set (tail := drop (8 + length data) packet) in *.
  destruct (udp_datagram_parse r v data tail src_addr dst_addr rx_caps) as (Hparse & Hpay & Hlen'); try done.
  split_and!; [|done|done|].
  - rewrite Hlen'. unfold tail. rewrite length_drop. lia.
  - rewrite <-drop_drop. unfold udp_datagram. rewrite udp_drop_header by done. by rewrite drop_app_length.
Qed.

(** A datagram survives the wire: parsing what [emit] wrote gives the ports
    and the payload back, whatever the checksum settings of the two sides, and the
    rest of the buffer is untouched. *)
Theorem udp_emit_parse_roundtrip r data emit_payload src_addr dst_addr tx_caps rx_caps packet :
  udp_repr_ok r -> bytes data -> Z.of_nat (8 + length data) <= U16_MAX ->
  address_wf src_addr -> address_wf dst_addr -> same_family src_addr dst_addr ->
  (8 + length data <= length packet)%nat ->
  emit_payload (slice packet 8 (length data)) = Ret data ->
  exists packet', UdpRepr.emit r src_addr dst_addr (length data) emit_payload tx_caps packet = Ret packet' /\
    UdpRepr.parse packet' src_addr dst_addr rx_caps = Ret (Ok r) /\
    UdpPacket.payload packet' = Ret data /\
    drop (8 + length data) packet' = drop (8 + length data) packet.
Proof.
  intros. destruct (udp_emit_parse_ok r data emit_payload src_addr dst_addr tx_caps rx_caps packet)
    as (packet' & ? & _ & ?); try done. by exists packet'.
Qed.

End Emit.

(** ** Witnesses *)

#[local] Existing Instance network_endian.

Module UdpScenario.
Definition caps : ChecksumCapabilities := mkCaps Both Both Both Both Both.
Definition a6 : Address := Ipv6 ([0xfd] ++ repeat 0 14 ++ [1]).
Definition b6 : Address := Ipv6 ([0xfd] ++ repeat 0 14 ++ [2]).
Definition repr : UdpRepr := mkUdpRepr 68 67.
End UdpScenario.

Lemma udp_parse_total_witness :
  exists res, (packet ←? UdpPacket.new_checked [0; 68; 0; 67; 0; 9; 1; 2; 42];
               UdpRepr.parse packet UdpScenario.a6 UdpScenario.b6 UdpScenario.caps) = Ret res /\
    udp_parsed [0; 68; 0; 67; 0; 9; 1; 2; 42] res.
Proof.
  apply (@udp_parse_total network_endian network_endian_laws).
  - repeat constructor; lia.
  - split; [done|]. repeat constructor; lia.
  - split; [done|]. repeat constructor; lia.
  - done.
Defined.

Lemma udp_emit_parse_roundtrip_witness :
  exists packet',
    UdpRepr.emit UdpScenario.repr UdpScenario.a6 UdpScenario.b6 3 (fun _ => Ret [1; 2; 3]) UdpScenario.caps
      (repeat 170 12) = Ret packet' /\
    UdpRepr.parse packet' UdpScenario.a6 UdpScenario.b6 UdpScenario.caps = Ret (Ok UdpScenario.repr) /\
    UdpPacket.payload packet' = Ret [1; 2; 3] /\ drop 11 packet' = [170].
Proof.
  apply (@udp_emit_parse_roundtrip network_endian network_endian_laws UdpScenario.repr [1; 2; 3]
    (fun _ => Ret [1; 2; 3]) UdpScenario.a6 UdpScenario.b6 UdpScenario.caps UdpScenario.caps (repeat 170 12)).
  - split; cbn; lia.
  - repeat constructor; lia.
  - cbn. lia.
  - split; [done|]. repeat constructor; lia.
  - split; [done|]. repeat constructor; lia.
  - done.
  - cbn. lia.
  - done.
Defined.

(** A UDP packet over IPv6 whose checksum was omitted (the field is 0) is
    accepted although the checksum is to be verified: only over IPv4 may it be
    omitted. *)
Theorem udp6_zero_checksum_accepted :
  UdpPacket.checksum [0; 68; 0; 67; 0; 9; 0; 0; 42] = Ret 0 /\
  Checksum.rx (caps_udp UdpScenario.caps) = true /\
  UdpRepr.parse [0; 68; 0; 67; 0; 9; 0; 0; 42] UdpScenario.a6 UdpScenario.b6
    UdpScenario.caps = Ret (Ok UdpScenario.repr).
Proof. by vm_compute. Qed.
