(* ===== verification/TcpWire.v ===== *)
(** * The TCP wire format (src/wire/tcp.rs)

    [Module Packet] is the accessors and setters on a buffer, [Module TcpOption]
    the options, [Module Repr] the parser and the emitter of the high-level
    representation.  Slicing, indexing and the reads and writes of integers panic
    as in the source. *)

From S2P Require Import Prelude Bytes SeqNumber Phy Ip.
Open Scope Z_scope.

(** ** Fields *)

Module field.
Definition FLG_FIN : Z := 0x001.
Definition FLG_SYN : Z := 0x002.
Definition FLG_RST : Z := 0x004.
Definition FLG_PSH : Z := 0x008.
Definition FLG_ACK : Z := 0x010.
Definition FLG_URG : Z := 0x020.
Definition FLG_ECE : Z := 0x040.
Definition FLG_CWR : Z := 0x080.
Definition FLG_NS : Z := 0x100.

Definition OPT_END : Z := 0x00.
Definition OPT_NOP : Z := 0x01.
Definition OPT_MSS : Z := 0x02.
Definition OPT_WS : Z := 0x03.
Definition OPT_SACKPERM : Z := 0x04.
Definition OPT_SACKRNG : Z := 0x05.

(** [URGENT.end], the length of the header without options. *)
Definition URGENT_end : nat := 20.
End field.
Export field.

Definition HEADER_LEN : nat := URGENT_end.

(** ** Options *)

Inductive TcpOption :=
| EndOfList
| NoOperation
| MaxSegmentSize (value : Z)
| WindowScale (value : Z)
| SackPermitted
| SackRange (ranges : list (option (Z * Z)))
| UnknownOption (kind : Z) (data : list Z).

#[export] Instance TcpOption_eq_dec : EqDecision TcpOption.
Proof. solve_decision. Defined.

(** [buffer.get(start..stop)] *)
Definition get_range (buffer : list Z) (start stop : nat) : option (list Z) :=
  match range buffer start stop with Ret d => Some d | Panic => None end.

Module TcpOption.
Section Options.
Context {BO : ByteOrder}.

(** Element [i] of the array of SACK ranges. *)
Definition sack_range_at (data : list Z) (i : nat) : outcome (option (Z * Z)) :=
  let left := (i * 8)%nat in
  if (left <? length data)%nat then
    let mid := (left + 4)%nat in
    let right := (mid + 4)%nat in
    d1 ← range data left mid;
    range_left ← read_u32 d1;
    d2 ← range data mid right;
    range_right ← read_u32 d2;
    Ret (Some (range_left, range_right))
  else Ret None.

Definition parse_data (kind : Z) (len : nat) (data : list Z) :
    outcome (result TcpOption WireError) :=
  if kind =? OPT_MSS then
    if (len =? 4)%nat then v ← read_u16 data; Ret (Ok (MaxSegmentSize v)) else Ret (Err Error)
  else if kind =? OPT_WS then
    if (len =? 3)%nat then v ← unwrap (data !! 0%nat); Ret (Ok (WindowScale v))
    else Ret (Err Error)
  else if kind =? OPT_SACKPERM then
    if (len =? 2)%nat then Ret (Ok SackPermitted) else Ret (Err Error)
  else if kind =? OPT_SACKRNG then
    if ((len <? 10) || negb ((len - 2) mod 8 =? 0))%nat then Ret (Err Error) else
    r0 ← sack_range_at data 0;
    r1 ← sack_range_at data 1;
    r2 ← sack_range_at data 2;
    Ret (Ok (SackRange [r0; r1; r2]))
  else Ret (Ok (UnknownOption kind data)).

Definition parse (buffer : list Z) : outcome (result (list Z * TcpOption) WireError) :=
  match buffer with
  | [] => Ret (Err Error)
  | kind :: _ =>
      '(len, option) ←?
        (if kind =? OPT_END then Ret (Ok (1%nat, EndOfList))
         else if kind =? OPT_NOP then Ret (Ok (1%nat, NoOperation))
         else
           match buffer !! 1%nat with
           | None => Ret (Err Error)
           | Some len =>
               match get_range buffer 2 (Z.to_nat len) with
               | None => Ret (Err Error)
               | Some data =>
                   option ←? parse_data kind (Z.to_nat len) data;
                   Ret (Ok (Z.to_nat len, option))
               end
           end);
      rest ← range buffer len (length buffer);
      Ret (Ok (rest, option))
  end.

Definition present_ranges (ranges : list (option (Z * Z))) : list (Z * Z) := omap id ranges.

Definition buffer_len (o : TcpOption) : nat :=
  match o with
  | EndOfList => 1
  | NoOperation => 1
  | MaxSegmentSize _ => 4
  | WindowScale _ => 3
  | SackPermitted => 2
  | SackRange s => length (present_ranges s) * 8 + 2
  | UnknownOption _ data => 2 + length data
  end.

(** [NetworkEndian::write_u16(&mut buffer[pos..], v)] *)
Definition write_u16_at (pos : nat) (v : Z) (buffer : list Z) : outcome (list Z) :=
  d ← range buffer pos (length buffer);
  d ← write_u16 d v;
  Ret (splice buffer pos d).

Definition write_u32_at (pos : nat) (v : Z) (buffer : list Z) : outcome (list Z) :=
  d ← range buffer pos (length buffer);
  d ← write_u32 d v;
  Ret (splice buffer pos d).

Fixpoint emit_ranges (i : nat) (ranges : list (Z * Z)) (buffer : list Z) : outcome (list Z) :=
  match ranges with
  | [] => Ret buffer
  | (first, second) :: ranges =>
      let pos := (i * 8 + 2)%nat in
      buffer ← write_u32_at pos first buffer;
      buffer ← write_u32_at (pos + 4) second buffer;
      emit_ranges (S i) ranges buffer
  end.

(** The written bytes and [&mut buffer[length..]]. *)
Definition emit (o : TcpOption) (buffer : list Z) : outcome (list Z * list Z) :=
  '(len, buffer) ←
    match o with
    | EndOfList => Ret (1%nat, replicate (length buffer) OPT_END)
    | NoOperation => buffer ← set_byte 0 OPT_NOP buffer; Ret (1%nat, buffer)
    | _ =>
        let len := buffer_len o in
        buffer ← set_byte 1 (wrap_u 8 (Z.of_nat len)) buffer;
        buffer ←
          match o with
          | MaxSegmentSize value =>
              buffer ← set_byte 0 OPT_MSS buffer;
              write_u16_at 2 value buffer
          | WindowScale value =>
              buffer ← set_byte 0 OPT_WS buffer;
              set_byte 2 value buffer
          | SackPermitted => set_byte 0 OPT_SACKPERM buffer
          | SackRange slice =>
              buffer ← set_byte 0 OPT_SACKRNG buffer;
              emit_ranges 0 (present_ranges slice) buffer
          | UnknownOption kind provided =>
              buffer ← set_byte 0 kind buffer;
              d ← range buffer 2 (length buffer);
              _ ← rust_assert (length d =? length provided)%nat;
              Ret (splice buffer 2 provided)
          | _ => Panic
          end;
        Ret (len, buffer)
    end;
  rest ← range buffer len (length buffer);
  Ret (take len buffer, rest).
End Options.
End TcpOption.

(** ** Packet accessors and setters *)

Module Packet.
Section Accessors.
Context {BO : ByteOrder}.
Implicit Types (data : list Z).

Definition src_port data : outcome Z := get_u16 0 2 data.
Definition dst_port data : outcome Z := get_u16 2 4 data.
Definition seq_number data : outcome SeqNumber := d ← range data 4 8; read_i32 d.
Definition ack_number data : outcome SeqNumber := d ← range data 8 12; read_i32 d.

(** [FLAGS] *)
Definition flags data : outcome Z := get_u16 12 14 data.
Definition flag (mask : Z) data : outcome bool :=
  raw ← flags data;
  Ret (negb (Z.land raw mask =? 0)).
Definition fin data : outcome bool := flag FLG_FIN data.
Definition syn data : outcome bool := flag FLG_SYN data.
Definition rst data : outcome bool := flag FLG_RST data.
Definition psh data : outcome bool := flag FLG_PSH data.
Definition ack data : outcome bool := flag FLG_ACK data.
Definition urg data : outcome bool := flag FLG_URG data.
Definition ece data : outcome bool := flag FLG_ECE data.
Definition cwr data : outcome bool := flag FLG_CWR data.
Definition ns data : outcome bool := flag FLG_NS data.

Definition header_len data : outcome Z :=
  raw ← flags data;
  Ret (wrap_u 8 (Z.shiftr raw 12 * 4)).

Definition window_len data : outcome Z := get_u16 14 16 data.
Definition checksum data : outcome Z := get_u16 16 18 data.
Definition urgent_at data : outcome Z := get_u16 18 20 data.

Definition check_len data : outcome (result unit WireError) :=
  let len := length data in
  if (len <? URGENT_end)%nat then Ret (Err Error) else
  header_len ← header_len data;
  let header_len := Z.to_nat header_len in
  if ((len <? header_len) || (header_len <? URGENT_end))%nat then Ret (Err Error)
  else Ret (Ok ()).

Definition new_checked (buffer : list Z) : outcome (result (list Z) WireError) :=
  _ ←? check_len buffer;
  Ret (Ok buffer).

Definition segment_len data : outcome Z :=
  header_len ← header_len data;
  length ← usub (Z.of_nat (length data)) header_len;
  syn ← syn data;
  let length := if (syn : bool) then length + 1 else length in
  fin ← fin data;
  Ret (if (fin : bool) then length + 1 else length).

(** [&data[field::OPTIONS(header_len)]] and [&data[header_len..]] *)
Definition options data : outcome (list Z) :=
  header_len ← header_len data;
  range data URGENT_end (Z.to_nat header_len).

Definition payload data : outcome (list Z) :=
  header_len ← header_len data;
  range data (Z.to_nat header_len) (length data).

(** The loops over the options; an option takes at least one byte. *)
Fixpoint find_sack_permitted (fuel : nat) (options : list Z) : outcome (result bool WireError) :=
  match fuel, options with
  | _, [] => Ret (Ok false)
  | O, _ => Ret (Ok false)
  | S fuel, _ =>
      '(next_options, option) ←? TcpOption.parse options;
      if decide (option = SackPermitted) then Ret (Ok true)
      else find_sack_permitted fuel next_options
  end.

Definition selective_ack_permitted data : outcome (result bool WireError) :=
  options ← options data;
  find_sack_permitted (length options) options.

Fixpoint find_sack_ranges (fuel : nat) (options : list Z) :
    outcome (result (list (option (Z * Z))) WireError) :=
  match fuel, options with
  | _, [] => Ret (Ok [None; None; None])
  | O, _ => Ret (Ok [None; None; None])
  | S fuel, _ =>
      '(next_options, option) ←? TcpOption.parse options;
      match option with
      | SackRange slice => Ret (Ok slice)
      | _ => find_sack_ranges fuel next_options
      end
  end.

Definition selective_ack_ranges data : outcome (result (list (option (Z * Z))) WireError) :=
  options ← options data;
  find_sack_ranges (length options) options.

Definition packet_checksum data (src_addr dst_addr : Address) : outcome Z :=
  c1 ← checksum.pseudo_header src_addr dst_addr Protocol.Tcp (wrap_u 32 (Z.of_nat (length data)));
  c2 ← checksum.data data;
  checksum.combine [c1; c2].

Definition verify_checksum data (src_addr dst_addr : Address) : outcome bool :=
  c ← packet_checksum data src_addr dst_addr;
  Ret (c =? U16_MAX).

(** *** Setters *)

Definition put_i32 (a b : nat) (value : Z) data : outcome (list Z) :=
  d ← range data a b;
  d ← write_i32 d value;
  Ret (splice data a d).

Definition set_src_port (value : Z) data : outcome (list Z) := put_u16 0 2 value data.
Definition set_dst_port (value : Z) data : outcome (list Z) := put_u16 2 4 value data.
Definition set_seq_number (value : SeqNumber) data : outcome (list Z) := put_i32 4 8 value data.
Definition set_ack_number (value : SeqNumber) data : outcome (list Z) := put_i32 8 12 value data.

Definition update_flags (f : Z -> Z) data : outcome (list Z) :=
  raw ← flags data;
  put_u16 12 14 (f raw) data.

Definition clear_flags data : outcome (list Z) :=
  update_flags (fun raw => Z.land raw (not16 0x0fff)) data.

Definition set_flag (mask : Z) (value : bool) data : outcome (list Z) :=
  update_flags (fun raw => if value then Z.lor raw mask else Z.land raw (not16 mask)) data.

Definition set_fin (value : bool) data : outcome (list Z) := set_flag FLG_FIN value data.
Definition set_syn (value : bool) data : outcome (list Z) := set_flag FLG_SYN value data.
Definition set_rst (value : bool) data : outcome (list Z) := set_flag FLG_RST value data.
Definition set_psh (value : bool) data : outcome (list Z) := set_flag FLG_PSH value data.
Definition set_ack (value : bool) data : outcome (list Z) := set_flag FLG_ACK value data.
Definition set_urg (value : bool) data : outcome (list Z) := set_flag FLG_URG value data.
Definition set_ece (value : bool) data : outcome (list Z) := set_flag FLG_ECE value data.
Definition set_cwr (value : bool) data : outcome (list Z) := set_flag FLG_CWR value data.
Definition set_ns (value : bool) data : outcome (list Z) := set_flag FLG_NS value data.

Definition set_header_len (value : Z) data : outcome (list Z) :=
  update_flags (fun raw => Z.lor (Z.land raw (not16 0xf000))
                                 (wrap_u 16 (Z.shiftl (value / 4) 12))) data.

Definition set_window_len (value : Z) data : outcome (list Z) := put_u16 14 16 value data.
Definition set_checksum (value : Z) data : outcome (list Z) := put_u16 16 18 value data.
Definition set_urgent_at (value : Z) data : outcome (list Z) := put_u16 18 20 value data.

Definition fill_checksum (src_addr dst_addr : Address) data : outcome (list Z) :=
  data ← set_checksum 0 data;
  c ← packet_checksum data src_addr dst_addr;
  set_checksum (not16 c) data.
End Accessors.
End Packet.

(** ** High-level representation *)

Inductive Control := ControlNone | Psh | Syn | Fin | Rst.

#[export] Instance Control_eq_dec : EqDecision Control.
Proof. solve_decision. Defined.

Module Control.
Definition len (c : Control) : nat := match c with Syn | Fin => 1 | _ => 0 end.
Definition quash_psh (c : Control) : Control := match c with Psh => ControlNone | _ => c end.
End Control.

Record TcpRepr := mkTcpRepr {
  src_port : Z;
  dst_port : Z;
  control : Control;
  seq_number : SeqNumber;
  ack_number : option SeqNumber;
  window_len : Z;
  window_scale : option Z;
  max_seg_size : option Z;
  sack_permitted : bool;
  sack_ranges : list (option (Z * Z));
  payload : list Z
}.

#[export] Instance eta_TcpRepr : Settable TcpRepr := fun r =>
  mkTcpRepr (src_port r) (dst_port r) (control r) (seq_number r) (ack_number r) (window_len r)
    (window_scale r) (max_seg_size r) (sack_permitted r) (sack_ranges r) (payload r).

Module Repr.
Section Functions.
Context {BO : ByteOrder}.
Implicit Types (r : TcpRepr).

(** What the loop over the options of a segment has collected. *)
Record collected := mkCollected {
  c_max_seg_size : option Z;
  c_window_scale : option Z;
  c_sack_permitted : bool;
  c_sack_ranges : list (option (Z * Z))
}.

Definition collect (option : TcpOption) (c : collected) : collected :=
  match option with
  | MaxSegmentSize value =>
      mkCollected (Some value) (c_window_scale c) (c_sack_permitted c) (c_sack_ranges c)
  | WindowScale value =>
      mkCollected (c_max_seg_size c) (Some (if 14 <? value then 14 else value))
        (c_sack_permitted c) (c_sack_ranges c)
  | SackPermitted => mkCollected (c_max_seg_size c) (c_window_scale c) true (c_sack_ranges c)
  | SackRange slice => mkCollected (c_max_seg_size c) (c_window_scale c) (c_sack_permitted c) slice
  | _ => c
  end.

Fixpoint parse_options (fuel : nat) (options : list Z) (c : collected) :
    outcome (result collected WireError) :=
  match fuel, options with
  | _, [] => Ret (Ok c)
  | O, _ => Ret (Ok c)
  | S fuel, _ =>
      '(next_options, option) ←? TcpOption.parse options;
      if decide (option = EndOfList) then Ret (Ok c)
      else parse_options fuel next_options (collect option c)
  end.

Definition parse_control (syn fin rst psh : bool) : result Control WireError :=
  match syn, fin, rst, psh with
  | false, false, false, false => Ok ControlNone
  | false, false, false, true => Ok Psh
  | true, false, false, _ => Ok Syn
  | false, true, false, _ => Ok Fin
  | false, false, true, _ => Ok Rst
  | _, _, _, _ => Err Error
  end.

Definition parse (packet : list Z) (src_addr dst_addr : Address) (checksum_caps : ChecksumCapabilities) :
    outcome (result TcpRepr WireError) :=
  _ ←? Packet.check_len packet;
  src_port ← Packet.src_port packet;
  if src_port =? 0 then Ret (Err Error) else
  dst_port ← Packet.dst_port packet;
  if dst_port =? 0 then Ret (Err Error) else
  valid ← (if Checksum.rx (caps_tcp checksum_caps)
           then Packet.verify_checksum packet src_addr dst_addr else Ret true);
  if negb valid then Ret (Err Error) else
  syn ← Packet.syn packet;
  fin ← Packet.fin packet;
  rst ← Packet.rst packet;
  psh ← Packet.psh packet;
  control ←? Ret (parse_control syn fin rst psh);
  ack ← Packet.ack packet;
  ack_number ← (if (ack : bool) then n ← Packet.ack_number packet; Ret (Some n) else Ret None);
  options ← Packet.options packet;
  c ←? parse_options (length options) options (mkCollected None None false [None; None; None]);
  seq_number ← Packet.seq_number packet;
  window_len ← Packet.window_len packet;
  payload ← Packet.payload packet;
  Ret (Ok (mkTcpRepr src_port dst_port control seq_number ack_number window_len
             (c_window_scale c) (c_max_seg_size c) (c_sack_permitted c) (c_sack_ranges c)
             payload)).

Definition sack_range_len r : nat := sum_list ((fun o => match o with Some _ => 8 | None => 0 end)%nat <$> sack_ranges r).

Definition header_len r : nat :=
  let length := URGENT_end in
  let length := match max_seg_size r with Some _ => length + 4 | None => length end%nat in
  let length := match window_scale r with Some _ => length + 3 | None => length end%nat in
  let length := if sack_permitted r then (length + 2)%nat else length in
  let sack_range_len := sack_range_len r in
  let length := if (0 <? sack_range_len)%nat then (length + (sack_range_len + 2))%nat else length in
  if negb (length mod 4 =? 0)%nat then (length + (4 - length mod 4))%nat else length.

Definition buffer_len r : nat := (header_len r + length (payload r))%nat.

(** [options = TcpOption::...emit(tmp)]: what is written so far and what is
    left of the option area. *)
Definition emit_step (o : TcpOption) (area : list Z * list Z) : outcome (list Z * list Z) :=
  '(written, rest) ← TcpOption.emit o area.2;
  Ret (area.1 ++ written, rest).

Definition emit_options r (options : list Z) : outcome (list Z) :=
  let area := ([], options) in
  area ← match max_seg_size r with
         | Some value => emit_step (MaxSegmentSize value) area
         | None => Ret area
         end;
  area ← match window_scale r with
         | Some value => emit_step (WindowScale value) area
         | None => Ret area
         end;
  area ← (if sack_permitted r then emit_step SackPermitted area
          else if bool_decide (is_Some (ack_number r)) && existsb (fun s => bool_decide (is_Some s)) (sack_ranges r)
          then emit_step (SackRange (sack_ranges r)) area
          else Ret area);
  area ← match area.2 with [] => Ret area | _ => emit_step EndOfList area end;
  Ret (area.1 ++ area.2).

Definition emit_control (c : Control) (packet : list Z) : outcome (list Z) :=
  match c with
  | ControlNone => Ret packet
  | Psh => Packet.set_psh true packet
  | Syn => Packet.set_syn true packet
  | Fin => Packet.set_fin true packet
  | Rst => Packet.set_rst true packet
  end.

(** The fixed part of the header. *)
Definition emit_header r (packet : list Z) : outcome (list Z) :=
  packet ← Packet.set_src_port (src_port r) packet;
  packet ← Packet.set_dst_port (dst_port r) packet;
  packet ← Packet.set_seq_number (seq_number r) packet;
  packet ← Packet.set_ack_number (default 0 (ack_number r)) packet;
  packet ← Packet.set_window_len (window_len r) packet;
  packet ← Packet.set_header_len (wrap_u 8 (Z.of_nat (header_len r))) packet;
  packet ← Packet.clear_flags packet;
  packet ← emit_control (control r) packet;
  Packet.set_ack (bool_decide (is_Some (ack_number r))) packet.

Definition emit r (packet : list Z) (src_addr dst_addr : Address)
    (checksum_caps : ChecksumCapabilities) : outcome (list Z) :=
  packet ← emit_header r packet;
  options ← Packet.options packet;
  options ← emit_options r options;
  let packet := splice packet URGENT_end options in
  packet ← Packet.set_urgent_at 0 packet;
  header_len ← Packet.header_len packet;
  payload_mut ← Packet.payload packet;
  _ ← range payload_mut 0 (length (payload r));
  let packet := splice packet (Z.to_nat header_len) (payload r) in
  if Checksum.tx (caps_tcp checksum_caps)
  then Packet.fill_checksum src_addr dst_addr packet
  else Packet.set_checksum 0 packet.

Definition segment_len r : nat := (length (payload r) + Control.len (control r))%nat.

Definition is_empty r : bool :=
  match payload r with
  | _ :: _ => false
  | [] => match control r with Syn | Fin | Rst => false | ControlNone | Psh => true end
  end.
End Functions.
End Repr.
