(* ===== verification/Packet.v ===== *)
(** * Packets the interface sends (src/iface/packet.rs)

    A packet is an IP header and a payload; [emit_payload] writes the payload after
    the header.  The constructors of [IpPayload] are those of a build with IPv4 and
    with UDP, TCP and raw sockets. *)

From S2P Require Import Prelude Bytes Octets Phy Ip LinkLayer Ipv4Wire Icmpv4Wire UdpWire TcpWire Arp Collections.
Open Scope nat_scope.

Inductive IpPayload :=
| PayloadIcmpv4 (icmpv4_repr : Icmpv4Repr)
| PayloadRaw (raw_packet : list Z)
| PayloadUdp (udp_repr : UdpRepr) (inner_payload : list Z)
| PayloadTcp (tcp_repr : TcpRepr).

Inductive Packet :=
| PacketIpv4 (header : IpHeader) (payload : IpPayload)
| PacketIpv6 (header : IpHeader) (payload : IpPayload).

Inductive EthernetPacket :=
| EthernetArp (r : ArpRepr)
| EthernetIp (p : Packet).

(** Subtraction on [usize]. *)
Definition nsub (a b : nat) : outcome nat := if a <? b then Panic else Ret (a - b).

Module Packet.
Definition new (ip_repr : IpRepr) (payload : IpPayload) : Packet :=
  match ip_repr with
  | ReprIpv4 header => PacketIpv4 header payload
  | ReprIpv6 header => PacketIpv6 header payload
  end.

Definition ip_repr (p : Packet) : IpRepr :=
  match p with PacketIpv4 header _ => ReprIpv4 header | PacketIpv6 header _ => ReprIpv6 header end.

Definition payload (p : Packet) : IpPayload :=
  match p with PacketIpv4 _ payload | PacketIpv6 _ payload => payload end.

(** The window announced is limited to what the device can receive in a burst. *)
Definition limit_window (ip_repr : IpRepr) (caps : DeviceCapabilities) (tcp_repr : TcpRepr) : outcome TcpRepr :=
  match max_burst_size caps with
  | Some max_burst_size =>
      max_segment_size ← nsub (max_transmission_unit caps) (IpRepr.header_len ip_repr);
      max_segment_size ← nsub max_segment_size (Repr.header_len tcp_repr);
      let max_window_size := max_burst_size * max_segment_size in
      if (Z.of_nat max_window_size <? window_len tcp_repr)%Z
      then Ret (tcp_repr <| window_len := wrap_u 16 (Z.of_nat max_window_size) |>)
      else Ret tcp_repr
  | None => Ret tcp_repr
  end.

Section Emit.
Context {BO : ByteOrder}.

Definition emit_payload (p : Packet) (ip_repr : IpRepr) (caps : DeviceCapabilities) (buf : list Z) :
    outcome (list Z) :=
  match payload p with
  | PayloadIcmpv4 icmpv4_repr => Icmpv4Repr.emit icmpv4_repr (caps_checksum caps) buf
  | PayloadRaw raw_packet => put_slice 0 (length buf) raw_packet buf
  | PayloadUdp udp_repr inner_payload =>
      UdpRepr.emit udp_repr (IpRepr.src_addr ip_repr) (IpRepr.dst_addr ip_repr) (length inner_payload)
        (fun b => put_slice 0 (length b) inner_payload b) (caps_checksum caps) buf
  | PayloadTcp tcp_repr =>
      tcp_repr ← limit_window ip_repr caps tcp_repr;
      Repr.emit tcp_repr buf (IpRepr.src_addr ip_repr) (IpRepr.dst_addr ip_repr) (caps_checksum caps)
  end.
End Emit.
End Packet.

Definition icmp_reply_payload_len (len mtu header_len : nat) : outcome nat :=
  rest ← nsub mtu (header_len * 2);
  rest ← nsub rest 8;
  Ret (len `min` rest).
