(* ===== verification/Ipv4Fragments.v ===== *)
(** * IPv4 fragmentation and reassembly (src/iface/interface/ipv4.rs)

    [process_fragment] is the part of [process_ipv4] that puts a fragment into the
    reassembly buffer of its datagram; [first_fragment] is the branch of
    [dispatch_ip] that takes up a datagram larger than the device can send, and
    [dispatch_ipv4_frag] sends the rest of it, a fragment at a time.  The lemmas at
    the end say what the sender hands to the device ([fragments_sent]) and that those
    fragments, in any order and repeated, give the datagram back
    ([arrivals_reassemble]); IfaceFragments.v composes them with the interface. *)

From S2P Require Import Prelude Assembler Time Bytes Octets Phy Ip LinkLayer Ipv4Wire Fragmentation Packet Collections.
Open Scope nat_scope.

(** A transmit token: [consume] hands the closure a buffer of the length asked
    for, whose contents are whatever the device left there. *)
Record TxToken := mkTxToken { tx_buffer : nat -> list Z }.

Definition consume (t : TxToken) (len : nat) (f : list Z -> outcome (list Z)) : outcome (list Z) :=
  f (tx_buffer t len).

Definition tx_token_wf (t : TxToken) : Prop := forall len, length (tx_buffer t len) = len /\ bytes (tx_buffer t len).

(** [device.transmit]: the answers of the device, one after the other; when there
    are no more of them it has no token. *)
Definition transmit (tx : list (option TxToken)) : list (option TxToken) * option TxToken :=
  match tx with [] => ([], None) | token :: tx => (tx, token) end.

(** [f] on [buf[n..]]. *)
Definition on_tail (n : nat) (f : list Z -> outcome (list Z)) (buf : list Z) : outcome (list Z) :=
  tail ← range buf n (length buf);
  tail ← f tail;
  Ret (splice buf n tail).

(** ** Receiving *)

Record FragmentsBuffer := mkFragments {
  fb_assembler : list (PacketAssembler.t Ipv4Key.t);
  reassembly_timeout : Duration
}.
#[export] Instance eta_FragmentsBuffer : Settable FragmentsBuffer := fun f =>
  mkFragments (fb_assembler f) (reassembly_timeout f).

Section Processing.
Context {BO : ByteOrder}.

(** A fragment for the assembler [f]; [None] is an early return. *)
Definition add_fragment (ipv4_packet : list Z) (f : PacketAssembler.t Ipv4Key.t) :
    outcome (PacketAssembler.t Ipv4Key.t * option (list Z)) :=
  more_frags ← Ipv4Packet.more_frags ipv4_packet;
  '(f, res) ← (match more_frags with
    | true => Ret (f, Ok ())
    | false =>
        total_len ← Ipv4Packet.total_len ipv4_packet;
        header_len ← Ipv4Packet.header_len ipv4_packet;
        frag_offset ← Ipv4Packet.frag_offset ipv4_packet;
        len ← nsub (Z.to_nat total_len) (Z.to_nat header_len);
        Ret (PacketAssembler.set_total_size (len + Z.to_nat frag_offset) f)
    end);
  match res with
  | Err _ => Ret (f, None)
  | Ok _ =>
      payload ← Ipv4Packet.payload ipv4_packet;
      frag_offset ← Ipv4Packet.frag_offset ipv4_packet;
      '(f, res) ← PacketAssembler.add payload (Z.to_nat frag_offset) f;
      match res with
      | Err _ => Ret (f, None)
      | Ok _ => PacketAssembler.assemble f
      end
  end.

(** The payload of a packet, once it is complete. *)
Definition process_fragment (now : Instant) (ipv4_packet : list Z) (frag : FragmentsBuffer) :
    outcome (FragmentsBuffer * option (list Z)) :=
  more_frags ← Ipv4Packet.more_frags ipv4_packet;
  frag_offset ← Ipv4Packet.frag_offset ipv4_packet;
  if more_frags || negb (frag_offset =? 0)%Z then
    key ← Ipv4Packet.get_key ipv4_packet;
    expires_at ← Instant.add now (reassembly_timeout frag);
    match PacketAssemblerSet.get key expires_at (fb_assembler frag) with
    | (set, Err _) => Ret (frag <| fb_assembler := set |>, None)
    | (set, Ok i) =>
        f ← unwrap (set !! i);
        '(f, payload) ← add_fragment ipv4_packet f;
        Ret (frag <| fb_assembler := <[i := f]> set |>, payload)
    end
  else
    payload ← Ipv4Packet.payload ipv4_packet;
    Ret (frag, Some payload).

(** ** Sending *)

(** The closure [emit_ethernet] of [dispatch_ip] and [dispatch_ipv4_frag]. *)
Definition emit_ethernet (hardware_addr : HardwareAddress) (dst_hardware_addr : list Z) (version : Version)
    (tx_buffer : list Z) : outcome (list Z) :=
  src_addr ← HardwareAddress.ethernet_or_panic hardware_addr;
  frame ← Frame.set_src_addr src_addr tx_buffer;
  frame ← Frame.set_dst_addr dst_hardware_addr frame;
  Frame.set_ethertype (match version with V4 => EtherType.Ipv4 | V6 => EtherType.Ipv6 end) frame.

(** Emit the link layer header if the medium has one, and the rest with [f]. *)
Definition emit_frame (hardware_addr : HardwareAddress) (medium : Medium) (dst_hardware_addr : list Z)
    (version : Version) (f : list Z -> outcome (list Z)) (tx_buffer : list Z) : outcome (list Z) :=
  match medium with
  | MediumEthernet =>
      tx_buffer ← emit_ethernet hardware_addr dst_hardware_addr version tx_buffer;
      on_tail Frame.header_len f tx_buffer
  | _ => f tx_buffer
  end.

(** The fields of a fragment, over the header [emit] wrote. *)
Definition set_fragment (ident : Z) (more_frags : bool) (frag_offset : Z) (checksum_caps : ChecksumCapabilities)
    (packet : list Z) : outcome (list Z) :=
  packet ← Ipv4Packet.set_ident ident packet;
  packet ← Ipv4Packet.set_more_frags more_frags packet;
  packet ← Ipv4Packet.set_dont_frag false packet;
  packet ← Ipv4Packet.set_frag_offset frag_offset packet;
  if Checksum.tx (caps_ipv4 checksum_caps) then Ipv4Packet.fill_checksum packet else Ret packet.

Variables (hardware_addr : HardwareAddress) (caps : DeviceCapabilities).

Import Fragmenter.

(** The branch of [dispatch_ip] for a packet that has to be fragmented; [emit_ip]
    is the closure that emits the IP header and the payload.  [None]: the packet
    is dropped. *)
Definition first_fragment (emit_ip : IpRepr -> list Z -> outcome (list Z)) (repr : IpHeader)
    (dst_hardware_addr : list Z) (ipv4_id : Z) (tx_token : TxToken) (frag : Fragmenter.t) :
    outcome (Fragmenter.t * option (list Z)) :=
  let total_ip_len := IpRepr.buffer_len (ReprIpv4 repr) in
  let tx_len := max_transmission_unit caps in
  let ip_header_len := Ipv4Repr.buffer_len repr in
  first_frag_ip_len ← DeviceCapabilities.ip_mtu caps;
  if length (buffer frag) <? total_ip_len then Ret (frag, None) else
  let frag := frag <| ipv4 ::= fun i => i <| Ipv4Fragmenter.dst_hardware_addr := dst_hardware_addr |> |>
                   <| packet_len := total_ip_len |>
                   <| ipv4 ::= fun i => i <| Ipv4Fragmenter.repr := repr |> |>
                   <| sent_bytes := first_frag_ip_len |> in
  payload_len ← nsub first_frag_ip_len (Ipv4Repr.buffer_len repr);
  let repr := repr <| ih_payload_len := payload_len |> in
  buf ← emit_ip (ReprIpv4 repr) (buffer frag);
  let frag := frag <| ipv4 ::= fun i => i <| Ipv4Fragmenter.ident := ipv4_id |> |> in
  buf ← set_fragment ipv4_id true 0 (caps_checksum caps) buf;
  let frag := frag <| buffer := buf |> in
  frag_offset ← nsub first_frag_ip_len ip_header_len;
  frame ← consume tx_token tx_len
    (emit_frame hardware_addr (caps_medium caps) dst_hardware_addr V4 (fun tx_buffer =>
       data ← range (buffer frag) 0 first_frag_ip_len;
       put_slice 0 first_frag_ip_len data tx_buffer));
  Ret (frag <| ipv4 ::= fun i => i <| Ipv4Fragmenter.frag_offset := wrap_u 16 (Z.of_nat frag_offset) |> |>,
       Some frame).

Definition dispatch_ipv4_frag (tx_token : TxToken) (frag : Fragmenter.t) :
    outcome (Fragmenter.t * list Z) :=
  mtu_max ← DeviceCapabilities.ip_mtu caps;
  left ← nsub (packet_len frag) (sent_bytes frag);
  let repr := Ipv4Fragmenter.repr (ipv4 frag) in
  let ip_len := (left + Ipv4Repr.buffer_len repr) `min` mtu_max in
  payload_len ← nsub ip_len (Ipv4Repr.buffer_len repr);
  let more_frags := negb (left =? payload_len) in
  let repr := repr <| ih_payload_len := payload_len |> in
  let frag := frag <| ipv4 ::= fun i => i <| Ipv4Fragmenter.repr := repr |> |>
                   <| sent_bytes ::= fun n => n + payload_len |> in
  let tx_len := match caps_medium caps with MediumEthernet => ip_len + Frame.header_len | _ => ip_len end in
  let offset := Ipv4Fragmenter.frag_offset (ipv4 frag) in
  frame ← consume tx_token tx_len
    (emit_frame hardware_addr (caps_medium caps) (Ipv4Fragmenter.dst_hardware_addr (ipv4 frag)) V4 (fun tx_buffer =>
       packet ← range tx_buffer 0 (Ipv4Repr.buffer_len repr);
       packet ← Ipv4Repr.emit repr (caps_checksum caps) packet;
       packet ← set_fragment (Ipv4Fragmenter.ident (ipv4 frag)) more_frags offset (caps_checksum caps) packet;
       let tx_buffer := splice tx_buffer 0 packet in
       let start := Z.to_nat offset + Ipv4Repr.buffer_len repr in
       data ← range (buffer frag) start (start + payload_len);
       put_slice (Ipv4Repr.buffer_len repr) (Ipv4Repr.buffer_len repr + payload_len) data tx_buffer));
  offset ← uadd U16_MAX offset (wrap_u 16 (Z.of_nat payload_len));
  Ret (frag <| ipv4 ::= fun i => i <| Ipv4Fragmenter.frag_offset := offset |> |>, frame).

(** [Interface::ipv4_egress]; the frame is the one handed to the device. *)
Definition ipv4_egress (tx : list (option TxToken)) (frag : Fragmenter.t) :
    outcome (Fragmenter.t * list (option TxToken) * option (list Z)) :=
  let frag := if finished frag then reset frag else frag in
  if is_empty frag then Ret (frag, tx, None) else
  if sent_bytes frag <? packet_len frag then
    let '(tx, token) := transmit tx in
    match token with
    | Some tx_token =>
        '(frag, frame) ← dispatch_ipv4_frag tx_token frag;
        Ret (frag, tx, Some frame)
    | None => Ret (frag, tx, None)
    end
  else Ret (frag, tx, None).
End Processing.

(** The packet in a frame. *)
Definition packet_of (medium : Medium) (frame : list Z) : outcome (list Z) :=
  match medium with MediumEthernet => Frame.payload frame | _ => Ret frame end.

(** ** Receiving the fragments of a datagram *)

Section Receiving.
Context {BO : ByteOrder}.
Variables (k : Ipv4Key.t) (d : list Z) (cuts : list (nat * nat)) (segments : nat) (deadline : Instant).
Hypothesis Hcuts : cuts_wf d cuts.
Hypothesis Hcount : length cuts <= segments.

Abbreviation slots := (list (PacketAssembler.t Ipv4Key.t)).
Implicit Types (s : slots) (f : PacketAssembler.t Ipv4Key.t) (pieces : list (nat * nat)).
Import PacketAssembler.

(** A packet that carries the octets [o .. o + l] of the datagram. *)
Record is_fragment (o l : nat) (packet : list Z) : Prop := {
  frag_more : Ipv4Packet.more_frags packet = Ret (negb (o + l =? length d));
  frag_off : Ipv4Packet.frag_offset packet = Ret (Z.of_nat o);
  frag_key : Ipv4Packet.get_key packet = Ret k;
  frag_payload : Ipv4Packet.payload packet = Ret (slice d o l);
  frag_lens : exists hl tl, Ipv4Packet.header_len packet = Ret (Z.of_nat hl) /\
    Ipv4Packet.total_len packet = Ret (Z.of_nat tl) /\ hl <= tl /\ tl - hl = l;
  frag_part : (o + l =? length d) && (o =? 0) = false
}.

(** A slot that is not in use holds nothing. *)
Definition slot_wf f : Prop :=
  wf (assembler f) /\ length (assembler f) = segments /\
  (key f = None -> total_size f = None /\ forall i, present (assembler f) i = false).

(** The last fragment sets the total size. *)
Definition sized pieces f : Prop :=
  total_size f = Some (length d) <-> exists o l, (o, l) ∈ pieces /\ o + l = length d.

Definition slot_holds pieces f : Prop :=
  key f = Some k /\ collecting d pieces f /\ length (assembler f) = segments /\ sized pieces f /\
  (deadline <= expires_at f)%Z.

(** The set holds the pieces received so far, in a slot of their own that does not
    expire before the deadline. *)
Definition set_holds pieces s : Prop :=
  Forall slot_wf s /\
  ((pieces = [] /\ (forall f, f ∈ s -> key f <> Some k) /\ exists f, f ∈ s /\ key f = None) \/
   (exists i f, s !! i = Some f /\ slot_holds pieces f /\
      forall j f', s !! j = Some f' -> key f' = Some k -> j = i)).

Lemma get_loop_none i s e :
  (forall f, f ∈ s -> key f <> Some k) ->
  exists e', PacketAssemblerSet.get_loop k i s e = inr e' /\
    ((e' = e /\ forall f, f ∈ s -> key f <> None) \/
     exists j f, e' = Some (i + j) /\ s !! j = Some f /\ key f = None).
Proof.
  revert i e. induction s as [|f s IH]; intros i e Hk; cbn [PacketAssemblerSet.get_loop].
  - exists e. split; [done|]. left. split; [done|]. by intros f ?%elem_of_nil.
  - rewrite bool_decide_false by (apply Hk; left).
    destruct (IH (S i) (if is_free f then Some i else e)) as (e' & -> & He'); [intros; apply Hk; by right|].
    exists e'. split; [done|]. destruct He' as [[-> Hs]|(j & f' & -> & Hj & Hf')].
    + unfold is_free. destruct (key f) eqn:Hf.
      * left. split; [done|]. intros f' [->|?]%elem_of_cons; [congruence|by apply Hs].
      * right. exists 0, f. split_and!; try done. f_equal. lia.
    + right. exists (S j), f'. split_and!; try done. f_equal. lia.
Qed.

Lemma get_loop_found i s e j f :
  s !! j = Some f -> key f = Some k -> (forall j' f', s !! j' = Some f' -> key f' = Some k -> j' = j) ->
  PacketAssemblerSet.get_loop k i s e = inl (i + j).
Proof.
  revert i e j. induction s as [|f' s IH]; intros i e j Hj Hk Huniq; [by rewrite lookup_nil in Hj|].
  cbn [PacketAssemblerSet.get_loop]. destruct j as [|j]; cbn in Hj.
  - injection Hj as ->. rewrite bool_decide_true by done. f_equal. lia.
  - rewrite bool_decide_false by (intros Hk'; by specialize (Huniq 0 f' eq_refl Hk')).
    rewrite (IH (S i) _ j Hj Hk); [f_equal; lia|]. intros j' f'' Hj' Hk'.
    specialize (Huniq (S j') f'' Hj' Hk'). lia.
Qed.

Lemma collecting_nil f : slot_wf f -> key f = None -> collecting d [] f /\ sized [] f.
Proof.
  intros (Hwf & _ & Hfree) Hk. destruct (Hfree Hk) as [Ht Hp]. split.
  - constructor; [done|exact Hp|done|by left].
  - unfold sized. rewrite Ht. split; [done|]. by intros (o & l & ?%elem_of_nil & _).
Qed.

(** [get] finds the slot of the datagram, or takes a free one. *)
Lemma get_holds pieces s e :
  set_holds pieces s -> (deadline <= e)%Z ->
  exists s' i f, PacketAssemblerSet.get k e s = (s', Ok i) /\ s' !! i = Some f /\ slot_holds pieces f /\
    Forall slot_wf s' /\ (forall j f', s' !! j = Some f' -> key f' = Some k -> j = i) /\
    forall j, j <> i -> s' !! j = s !! j.
Proof.
  intros [Hs [(-> & Hno & f0 & Hf0 & Hfree)|(i & f & Hi & Hf & Huniq)]] He; unfold PacketAssemblerSet.get.
  - destruct (get_loop_none 0 s None Hno) as (e' & -> & [[_ Hnone]|(j & f & -> & Hj & Hk)]).
    { by specialize (Hnone _ Hf0). }
    rewrite Nat.add_0_l. set (g := fun slot : PacketAssembler.t Ipv4Key.t => _).
    pose proof (proj1 (Forall_lookup _ _) Hs j f Hj) as Hwf.
    destruct (collecting_nil f Hwf Hk) as [[] Hsz]. exists (alter g j s), j, (g f).
    split_and!; [done|by rewrite list_lookup_alter_eq, Hj| | | |by intros; rewrite list_lookup_alter_ne].
    + split_and!; [done|by constructor|apply Hwf|done|done].
    + apply Forall_alter; [done|]. intros x Hx _. assert (x = f) as -> by congruence.
      destruct Hwf as (? & ? & ?). by split_and!.
    + intros j' f' Hj' Hk'. destruct (decide (j' = j)) as [|Hne]; [done|].
      rewrite list_lookup_alter_ne in Hj' by done. apply list_elem_of_lookup_2 in Hj'. by apply Hno in Hj'.
  - rewrite (get_loop_found 0 s None i f) by (done || apply Hf). rewrite Nat.add_0_l.
    by exists s, i, f.
Qed.
Lemma slot_holds_size pieces f :
  slot_holds pieces f -> complete d pieces -> pieces ⊆ cuts -> 0 < length d -> total_size f = Some (length d).
Proof.
  intros (_ & _ & _ & Hsz & _) Hcov Hsub Hd. apply Hsz. specialize (Hcov (length d - 1) ltac:(lia)).
  apply existsb_exists in Hcov as ([o l] & Hin & Hr%in_range_spec). apply list_elem_of_In in Hin.
  exists o, l. split; [done|]. pose proof (proj1 (Forall_forall _ _) (cuts_inside _ _ Hcuts) _ (Hsub _ Hin)) as H.
  cbn in H. lia.
Qed.

(** A fragment for the slot of its datagram. *)
Lemma add_fragment_ok pieces o l f packet :
  slot_holds pieces f -> pieces ⊆ cuts -> (o, l) ∈ cuts -> is_fragment o l packet ->
  exists f', slot_holds ((o, l) :: pieces) f' /\
    (complete d ((o, l) :: pieces) -> add_fragment packet f = Ret (reset f', Some d)) /\
    (~ complete d ((o, l) :: pieces) -> add_fragment packet f = Ret (f', None)).
Proof.
  intros (Hk & Hc & Hlen & Hsz & Hx) Hsub Hin [Hm Ho _ Hp (hl & tl & Hhl & Htl & Hle & Hl) _].
  assert (exists f1, (match negb (o + l =? length d) with
    | true => Ret (f, Ok ())
    | false => total_len ← Ipv4Packet.total_len packet; header_len ← Ipv4Packet.header_len packet;
        frag_offset ← Ipv4Packet.frag_offset packet; len ← nsub (Z.to_nat total_len) (Z.to_nat header_len);
        Ret (set_total_size (len + Z.to_nat frag_offset) f) end) = Ret (f1, Ok ()) /\
    collecting d pieces f1 /\ key f1 = key f /\ assembler f1 = assembler f /\ expires_at f1 = expires_at f /\
    total_size f1 = if o + l =? length d then Some (length d) else total_size f) as (f1 & H1 & Hc1 & Hk1 & Ha1 & Hx1 & Ht1).
  { destruct (Nat.eqb_spec (o + l) (length d)) as [Heq|]; cbn [negb]; [|by exists f].
    rewrite Htl, Hhl, Ho. cbn [mbind outcome_bind]. unfold nsub. rewrite !Nat2Z.id.
    rewrite (proj2 (Nat.ltb_ge _ _)) by done. cbn [mbind outcome_bind].
    destruct (collecting_total_size d cuts Hcuts pieces f Hc Hsub) as (f1 & Hf1 & ? & ? & ? & ? & ?).
    exists f1. rewrite <-Hf1. split_and!; try done. do 2 f_equal. lia. }
  destruct (collecting_add d cuts Hcuts pieces o l f1 Hc1 Hsub Hin) as (f2 & H2 & Hc2 & Hk2 & Ht2 & Hx2 & Hl2);
    [rewrite Ha1; lia|].
  assert (slot_holds ((o, l) :: pieces) f2) as Hf2.
  { split_and!; [congruence|done|congruence| |by rewrite Hx2, Hx1]. unfold sized. rewrite Ht2, Ht1.
    destruct (Nat.eqb_spec (o + l) (length d)) as [Heq|Hne].
    - split; [intros _; exists o, l; by split; [left|]|done].
    - unfold sized in Hsz. rewrite Hsz. split; intros (o' & l' & Hin' & Hd'); exists o', l'; (split; [|done]); [by right|].
      by apply elem_of_cons in Hin' as [[= -> ->]|]. }
  exists f2. split; [done|]. unfold add_fragment. rewrite Hm. cbn [mbind outcome_bind].
  rewrite H1. cbn [mbind outcome_bind]. rewrite Hp, Ho. cbn [mbind outcome_bind].
  rewrite Nat2Z.id, H2. cbn [mbind outcome_bind].
  assert ((o, l) :: pieces ⊆ cuts) as Hsub' by (intros x [->|?]%elem_of_cons; [done|by apply Hsub]).
  destruct (collecting_assemble d cuts Hcuts _ f2 Hc2 Hsub') as [Hyes Hno]. split.
  - intros Hcov. apply Hyes; [done|]. apply (slot_holds_size ((o, l) :: pieces)); try done.
    pose proof (proj1 (Forall_forall _ _) (cuts_inside _ _ Hcuts) _ Hin) as Hin0. cbn in Hin0. lia.
  - intros Hn. apply Hno. tauto.
Qed.

Lemma reset_slot_wf pieces f : slot_holds pieces f -> slot_wf (reset f).
Proof.
  intros (_ & Hc & Hlen & _). split_and!; cbn.
  - apply asm_new_wf. destruct (col_wf _ _ _ Hc) as (? & ? & _ & _ & ?). done.
  - by rewrite length_replicate.
  - intros _. split; [done|]. apply present_new.
Qed.

Lemma holds_slot_wf pieces f : slot_holds pieces f -> slot_wf f.
Proof. intros (Hk & Hc & Hlen & _). split_and!; [apply Hc|done|congruence]. Qed.

(** Dropping what has expired by then drops nothing of the datagram. *)
Lemma remove_expired_holds pieces s now :
  set_holds pieces s -> (now <= deadline)%Z -> set_holds pieces (PacketAssemblerSet.remove_expired now s).
Proof.
  intros [Hs Hor] Hnow. unfold PacketAssemblerSet.remove_expired.
  set (g := fun frag : PacketAssembler.t Ipv4Key.t => _).
  assert (forall f, key (g f) = key f \/ key (g f) = None) as Hg by (intros f; unfold g; case_match; [by right|by left]).
  split; [|destruct Hor as [(-> & Hno & f & Hf & Hfree)|(i & f & Hi & Hf & Huniq)]].
  - apply Forall_fmap. eapply Forall_impl; [exact Hs|]. intros f (Hwf & Hlen & Hk). cbn. unfold g.
    case_match; [|done]. split_and!; cbn; [|by rewrite length_replicate|intros _; split; [done|apply present_new]].
    apply asm_new_wf. destruct Hwf as (? & ? & _ & _ & ?). done.
  - left. split_and!; [done| |].
    + intros f' (f0 & -> & Hf0)%list_elem_of_fmap. specialize (Hno f0 Hf0). destruct (Hg f0) as [-> | ->]; done.
    + exists (g f). split; [apply list_elem_of_fmap; by exists f|]. unfold g, is_free. by rewrite Hfree.
  - right. exists i, f. split_and!; [|done|].
    + rewrite list_lookup_fmap, Hi. cbn. unfold g. destruct Hf as (_ & _ & _ & _ & Hx).
      rewrite (proj2 (Z.ltb_ge _ _)) by lia. by rewrite andb_false_r.
    + intros j f' Hj Hk'. rewrite list_lookup_fmap in Hj. destruct (s !! j) as [f0|] eqn:H0; [|done].
      injection Hj as <-. destruct (Hg f0) as [H|H]; rewrite H in Hk'; [by apply (Huniq j f0)|done].
Qed.

(** The slots after the datagram has been handed out. *)
Definition set_free s : Prop := Forall slot_wf s /\ forall f, f ∈ s -> key f <> Some k.

Lemma process_fragment_ok pieces o l packet now e frags :
  set_holds pieces (fb_assembler frags) -> pieces ⊆ cuts -> (o, l) ∈ cuts -> is_fragment o l packet ->
  Instant.add now (reassembly_timeout frags) = Ret e -> (deadline <= e)%Z ->
  exists s i, (forall j, j <> i -> s !! j = fb_assembler frags !! j) /\
    (complete d ((o, l) :: pieces) ->
       process_fragment now packet frags = Ret (frags <| fb_assembler := s |>, Some d) /\ set_free s) /\
    (~ complete d ((o, l) :: pieces) ->
       process_fragment now packet frags = Ret (frags <| fb_assembler := s |>, None) /\
       set_holds ((o, l) :: pieces) s).
Proof.
  intros Hs Hsub Hin Hfrag He Hde. destruct (get_holds pieces _ e Hs Hde) as (s & i & f & Hget & Hi & Hf & Hwf & Huniq & Hoth).
  destruct (add_fragment_ok pieces o l f packet Hf Hsub Hin Hfrag) as (f' & Hf' & Hyes & Hno).
  unfold process_fragment. rewrite (frag_more _ _ _ Hfrag), (frag_off _ _ _ Hfrag). cbn [mbind outcome_bind].
  assert (negb (o + l =? length d) || negb (Z.of_nat o =? 0)%Z = true) as ->.
  { pose proof (frag_part _ _ _ Hfrag) as Hx. destruct (o + l =? length d); [|done]. cbn in Hx |- *.
    destruct (Nat.eqb_spec o 0); [done|]. by rewrite (proj2 (Z.eqb_neq _ _)) by lia. }
  rewrite (frag_key _ _ _ Hfrag), He. cbn [mbind outcome_bind]. rewrite Hget, Hi. cbn [unwrap mbind outcome_bind].
  assert (forall g, Forall slot_wf (<[i:=g]> s) <-> slot_wf g) as Hwf'.
  { intros g. split; intros Hg; [|by apply Forall_insert].
    eapply (proj1 (Forall_lookup _ _) Hg i). apply list_lookup_insert_eq. by apply lookup_lt_Some in Hi. }
  assert (forall g, (forall j, j <> i -> <[i:=g]> s !! j = fb_assembler frags !! j)) as Hoth'.
  { intros g j Hj. rewrite list_lookup_insert_ne by done. by apply Hoth. }
  destruct (decide (Forall (fun n => covered ((o, l) :: pieces) n = true) (seq 0 (length d)))) as [Hcov|Hcov].
  - exists (<[i := reset f']> s), i. split; [by apply Hoth'|].
    assert (complete d ((o, l) :: pieces)) as Hcm.
    { intros n Hn. apply (proj1 (Forall_seq _ _ _) Hcov). lia. }
    split; [intros _|done]. rewrite Hyes by done. split; [done|]. split; [by apply Hwf', (reset_slot_wf _ _ Hf')|].
    intros g [j Hj]%list_elem_of_lookup Hk. destruct (decide (j = i)) as [->|Hne].
    + rewrite list_lookup_insert_eq in Hj by (by apply lookup_lt_Some in Hi). injection Hj as <-. done.
    + rewrite list_lookup_insert_ne in Hj by done. by apply Hne, (Huniq j g).
  - exists (<[i := f']> s), i. split; [by apply Hoth'|].
    assert (~ complete d ((o, l) :: pieces)) as Hcm.
    { intros Hc. apply Hcov, Forall_seq. intros n Hn. apply Hc. lia. }
    split; [done|]. intros _. rewrite Hno by done. split; [done|].
    split; [by apply Hwf', (holds_slot_wf _ _ Hf')|]. right. exists i, f'.
    split_and!; [by apply list_lookup_insert_eq; apply lookup_lt_Some in Hi|done|].
    intros j g Hj Hk. destruct (decide (j = i)) as [|Hne]; [done|].
    rewrite list_lookup_insert_ne in Hj by done. by apply (Huniq j g).
Qed.

(** A run of the receiver on frames, each with the time at which the interface is
    polled and finds it; the payloads handed out, in order. *)
Section Arrivals.
Variables (medium : Medium) (timeout : Duration).

Fixpoint receive (arrivals : list (Instant * list Z)) (frags : FragmentsBuffer) :
    outcome (FragmentsBuffer * list (list Z)) :=
  match arrivals with
  | [] => Ret (frags, [])
  | (now, frame) :: arrivals =>
      let frags := frags <| fb_assembler ::= PacketAssemblerSet.remove_expired now |> in
      packet ← packet_of medium frame;
      '(frags, out) ← process_fragment now packet frags;
      '(frags, outs) ← receive arrivals frags;
      Ret (frags, option_list out ++ outs)
  end.

Definition arrives (piece : nat * nat) (arrival : Instant * list Z) : Prop :=
  exists packet, packet_of medium arrival.2 = Ret packet /\ is_fragment piece.1 piece.2 packet /\
    (arrival.1 <= deadline)%Z /\ exists e, Instant.add arrival.1 timeout = Ret e /\ (deadline <= e)%Z.

Lemma complete_mono ps qs : ps ⊆ qs -> complete d ps -> complete d qs.
Proof.
  intros Hsub Hc i Hi. specialize (Hc i Hi). apply existsb_exists in Hc as (x & Hx & Hr). apply existsb_exists.
  exists x. split; [|done]. by apply list_elem_of_In, Hsub, list_elem_of_In.
Qed.

Lemma receive_incomplete ps arrivals pieces frags :
  Forall2 arrives ps arrivals -> ps ⊆ cuts -> pieces ⊆ cuts -> ~ complete d (rev ps ++ pieces) ->
  reassembly_timeout frags = timeout -> set_holds pieces (fb_assembler frags) ->
  exists s, receive arrivals frags = Ret (frags <| fb_assembler := s |>, []) /\ set_holds (rev ps ++ pieces) s.
Proof.
  intros Hall. revert pieces frags. induction Hall as [|[o l] [t fr] ps arrivals Ha Hall IH];
    intros pieces frags Hps Hsub Hn Ht Hs; cbn [receive rev app].
  - exists (fb_assembler frags). by destruct frags.
  - destruct Ha as (packet & Hpk & Hfrag & Hd & e & He & Hde). cbn in Hpk, Hfrag, Hd, He. cbn [rev] in Hn.
    rewrite <-app_assoc in Hn. rewrite Hpk. cbn [mbind outcome_bind]. rewrite <-Ht in He.
    assert ((o, l) ∈ cuts) as Hin by (apply Hps; left).
    set (frags1 := frags <| fb_assembler ::= _ |>).
    destruct (process_fragment_ok pieces o l packet t e frags1) as (s & i & _ & _ & Hno); try done.
    { by apply remove_expired_holds. }
    destruct Hno as [-> Hs'].
    { intros Hc. apply Hn. eapply complete_mono, Hc. intros x Hx. apply elem_of_app. by right. }
    cbn [mbind outcome_bind].
    destruct (IH ((o, l) :: pieces) (frags1 <| fb_assembler := s |>)) as (s' & -> & Hs''); try done.
    { intros x Hx. apply Hps. by right. }
    { intros x [->|Hx]%elem_of_cons; [done|by apply Hsub]. }
    exists s'. rewrite <-app_assoc. by split.
Qed.

(** The datagram is handed out when its last missing fragment arrives. *)
Lemma receive_complete ps arrivals z last frags :
  Forall2 arrives ps arrivals -> arrives z last -> z :: ps ⊆ cuts ->
  ~ complete d (rev ps) -> complete d (z :: rev ps) ->
  reassembly_timeout frags = timeout -> set_holds [] (fb_assembler frags) ->
  exists frags1 s, receive arrivals frags = Ret (frags1, []) /\
    receive [last] frags1 = Ret (frags <| fb_assembler := s |>, [d]) /\ set_free s.
Proof.
  intros Hall (packet & Hpk & Hfrag & Hd & e & He & Hde) Hps Hn Hc Ht Hs.
  destruct (receive_incomplete ps arrivals [] frags) as (s & Hrun & Hs'); try done.
  { intros x Hx. apply Hps. by right. }
  { by intros x ?%elem_of_nil. }
  { by rewrite app_nil_r. }
  rewrite app_nil_r in Hs'. assert (rev ps ⊆ cuts) as Hrev.
  { intros x Hx. apply Hps. right. by apply list_elem_of_In, in_rev, list_elem_of_In. }
  destruct z as [o l]. cbn in Hfrag.
  destruct (process_fragment_ok (rev ps) o l packet last.1 e
    (frags <| fb_assembler := PacketAssemblerSet.remove_expired last.1 s |>)) as (s' & i & _ & Hyes & _);
    try done. { by apply remove_expired_holds. } { apply Hps. left. } { cbn. by rewrite Ht. }
  destruct Hyes as [Hproc Hfree]; [done|]. eexists _, s'. split; [exact Hrun|]. split; [|done].
  cbn [receive]. destruct last as [t fr]. cbn in Hpk, Hproc |- *. rewrite Hpk.
  cbn [mbind outcome_bind]. match goal with |- context [process_fragment t packet ?x] =>
    change x with (frags <| fb_assembler := PacketAssemblerSet.remove_expired t s |>) end. by rewrite Hproc.
Qed.
End Arrivals.
End Receiving.

(** ** The packet of a fragment *)

Section FragmentHeader.
Context {BO : ByteOrder} {NE : NetworkEndian BO}.
Local Open Scope Z_scope.

Definition frag_flags (more_frags : bool) (off : Z) : Z := Z.lor (if more_frags then 0x2000 else 0) (Z.shiftr off 3).

Lemma frag_flags_word more off : word off -> word (frag_flags more off).
Proof.
  intros Ho. apply lor_word; [destruct more; unfold word; lia|].
  rewrite Z.shiftr_div_pow2 by lia. unfold word in *. div_lia.
Qed.

Lemma frag_flags_more more off : word off -> negb (Z.land (frag_flags more off) 0x2000 =? 0) = more.
Proof.
  intros Ho. assert (Z.land (frag_flags more off) 0x2000 = if more then 0x2000 else 0) as ->; [|by destruct more].
  unfold word in Ho. destruct more; unfold frag_flags; by_words off.
Qed.

Lemma frag_flags_offset more off :
  word off -> off mod 8 = 0 -> wrap_u 16 (Z.shiftl (frag_flags more off) 3) = off.
Proof.
  intros Ho Hm. assert (wrap_u 16 (Z.shiftl (frag_flags more off) 3) = off - off mod 8) as ->; [|lia].
  unfold word in Ho. destruct more; unfold frag_flags; by_words off.
Qed.

(** With a checksum, or without. *)
Definition finish (caps : ChecksumCapabilities) (h : header) : header :=
  if Checksum.tx (caps_ipv4 caps) then checked h else h.

Lemma finish_wf caps h : header_wf h -> header_wf (finish caps h).
Proof. intros. unfold finish. destruct (Checksum.tx _); [by apply checked_wf|done]. Qed.

Lemma finish_fields caps h :
  h_total_len (finish caps h) = h_total_len h /\ h_ident (finish caps h) = h_ident h /\
  h_flags (finish caps h) = h_flags h /\ h_src (finish caps h) = h_src h /\ h_dst (finish caps h) = h_dst h /\
  h_proto (finish caps h) = h_proto h.
Proof. unfold finish. by destruct (Checksum.tx _). Qed.

Definition frag_header (r : IpHeader) (id : Z) (more_frags : bool) (off : Z) : header :=
  (header_of r) <| h_ident := id |> <| h_flags := frag_flags more_frags off |>.

Lemma frag_header_wf r id more off :
  ipv4_repr_wf r -> word id -> word off -> header_wf (frag_header r id more off).
Proof.
  intros Hr%header_of_wf Hi Ho. pose proof (frag_flags_word more off Ho). unfold header_wf, frag_header in *.
  cbn in *. tauto.
Qed.

Lemma wf_ident h id : header_wf h -> word id -> header_wf (h <| h_ident := id |>).
Proof. unfold header_wf. cbn. tauto. Qed.

(** [set_fragment] over the header written by [emit]. *)
Lemma set_fragment_octets r id more off caps rest :
  ipv4_repr_wf r -> word id -> word off ->
  set_fragment id more off caps (header_octets (finish caps (header_of r)) ++ rest) =
    Ret (header_octets (finish caps (frag_header r id more off)) ++ rest).
Proof.
  intros Hr Hi Ho. set (h := finish caps (header_of r)).
  assert (header_wf h) as Hwf by (by apply finish_wf, header_of_wf).
  assert (h_flags h = 0x4000) as Hf by apply (finish_fields caps (header_of r)).
  unfold set_fragment. rewrite h_set_ident by done. cbn [mbind outcome_bind].
  assert (header_wf (h <| h_ident := id |>)) as Hwf1 by by apply wf_ident.
  unfold Ipv4Packet.set_more_frags, Ipv4Packet.set_dont_frag, Ipv4Packet.set_frag_offset.
  rewrite h_update_flags by (done || cbn; rewrite Hf; destruct more; done). cbn [mbind outcome_bind].
  match goal with |- context [header_octets ?x ++ rest] => set (h2 := x) end.
  assert (header_wf h2) as Hwf2 by (apply wf_flags; [done|]; cbn; rewrite Hf; by destruct more).
  assert (h_flags h2 = if more then 0x6000 else 0x4000) as Hf2 by (cbn; rewrite Hf; by destruct more).
  rewrite h_update_flags by (done || rewrite Hf2; destruct more; done). cbn [mbind outcome_bind].
  match goal with |- context [header_octets ?x ++ rest] => set (h3 := x) end.
  assert (header_wf h3) as Hwf3 by (apply wf_flags; [done|]; rewrite Hf2; by destruct more).
  assert (h_flags h3 = if more then 0x2000 else 0) as Hf3 by (cbn -[h2]; rewrite Hf2; by destruct more).
  assert (Z.lor (Z.land (h_flags h3) 0xe000) (Z.shiftr off 3) = frag_flags more off) as Hff
    by (rewrite Hf3; by destruct more).
  rewrite h_update_flags by (done || rewrite Hff; by apply frag_flags_word). cbn [mbind outcome_bind].
  match goal with |- context [header_octets ?x ++ rest] => set (h4 := x) end.
  assert (h4 = h <| h_ident := id |> <| h_flags := frag_flags more off |>) as ->.
  { unfold h4. cbn -[h2 h3 frag_flags] in *. rewrite <-Hff. done. }
  unfold finish in *. destruct (Checksum.tx _); [|done].
  assert (header_wf (h <| h_ident := id |> <| h_flags := frag_flags more off |>)) as Hwf4.
  { apply (wf_flags _ (fun _ => _)); [done|]. by apply frag_flags_word. }
  by rewrite h_fill_checksum.
Qed.
End FragmentHeader.

(** ** Frames *)

Section Frames.
Context {BO : ByteOrder} {NE : NetworkEndian BO}.

Lemma on_tail_ok n f head tail tail' :
  length head = n -> f tail = Ret tail' -> length tail' = length tail ->
  on_tail n f (head ++ tail) = Ret (head ++ tail').
Proof.
  intros Hn Hf Hl. unfold on_tail. rewrite range_Ret by (rewrite length_app; lia). cbn [mbind outcome_bind].
  rewrite length_app. unfold slice. rewrite drop_app_length' by done.
  rewrite take_ge by lia. rewrite Hf. cbn [mbind outcome_bind]. unfold splice.
  rewrite take_app_length' by done. rewrite drop_ge, app_nil_r by (rewrite length_app; lia). done.
Qed.

(** The frame of an IPv4 packet on the medium. *)
Definition frame_of (medium : Medium) (src dst packet : list Z) : list Z :=
  match medium with MediumEthernet => (dst ++ src ++ [8; 0]%Z) ++ packet | _ => packet end.

Lemma packet_of_frame medium src dst packet :
  EthernetAddress.wf src -> EthernetAddress.wf dst ->
  packet_of medium (frame_of medium src dst packet) = Ret packet.
Proof.
  intros [Hs _] [Hd _]. destruct medium; try done. cbn [packet_of frame_of]. unfold Frame.payload.
  assert (length (dst ++ src ++ [8; 0]%Z) = 14) as Hl by (rewrite !length_app; cbn; lia).
  rewrite range_Ret by (rewrite length_app, Hl; lia). f_equal. unfold slice.
  rewrite length_app, Hl, drop_app_length' by done. apply take_ge. lia.
Qed.

(** The type field of a frame. *)
Definition ethertype_octets (version : Version) : list Z := match version with V4 => [8; 0]%Z | V6 => [0x86; 0xdd]%Z end.

Lemma emit_ethernet_octets version src dst buf :
  EthernetAddress.wf src -> EthernetAddress.wf dst -> 14 <= length buf ->
  emit_ethernet (HwEthernet src) dst version buf = Ret ((dst ++ src ++ ethertype_octets version) ++ drop 14 buf).
Proof.
  intros [Hs _] [Hd _] Hl. unfold emit_ethernet. cbn [HardwareAddress.ethernet_or_panic mbind outcome_bind].
  unfold Frame.set_src_addr, Frame.set_dst_addr, Frame.set_ethertype.
  rewrite put_slice_ok by lia. cbn [mbind outcome_bind].
  rewrite put_slice_ok by (rewrite ?length_app, ?length_take, ?length_drop; lia). cbn [mbind outcome_bind].
  octets_of buf. octets_of src. cbn in Hs.
  do 6 (destruct src as [|? src]; [done|]). destruct src; [|done].
  do 6 (destruct dst as [|? dst]; [done|]). destruct dst; [|done]. cbn [take drop app].
  destruct version; rewrite put_u16_octets by (done || cbn; lia); done.
Qed.

Lemma emit_frame_ok medium src dst f buf packet :
  EthernetAddress.wf src -> EthernetAddress.wf dst ->
  length buf = length (frame_of medium src dst packet) ->
  (forall tail, length tail = length packet -> (exists n, tail = drop n buf) -> f tail = Ret packet) ->
  emit_frame (HwEthernet src) medium dst V4 f buf = Ret (frame_of medium src dst packet).
Proof.
  intros Hs Hd Hl Hf. destruct medium; cbn [emit_frame frame_of] in *;
    [|apply Hf; [done|by exists 0]..].
  assert (length (dst ++ src ++ [8; 0]%Z) = 14) as H14.
  { destruct Hs as [Hs _], Hd as [Hd _]. rewrite !length_app. cbn. lia. }
  rewrite length_app, H14 in Hl. rewrite emit_ethernet_octets by (done || lia). cbn [mbind outcome_bind ethertype_octets].
  assert (length (drop 14 buf) = length packet) as Hlen by (rewrite length_drop; lia).
  by apply on_tail_ok; [done|apply Hf; [|exists 14]|].
Qed.
End Frames.

(** ** Cutting a datagram *)

Section Chunks.
Variables (d : list Z) (m : nat).
Hypothesis Hpos : 0 < m.

(** The fragments of the octets from [o] on. *)
Fixpoint chunks (fuel o : nat) : list (nat * nat) :=
  match fuel with
  | O => []
  | S fuel =>
      if length d <=? o then [] else
      let l := m `min` (length d - o) in
      (o, l) :: chunks fuel (o + l)
  end.

Lemma chunks_done fuel o : length d <= o -> chunks fuel o = [].
Proof. intros. destruct fuel; [done|]. cbn [chunks]. by rewrite (proj2 (Nat.leb_le _ _)). Qed.

(** They are disjoint, lie between [o] and the end and cover what is there. *)
Lemma chunks_spec fuel o :
  length d - o <= fuel ->
  (forall o' l', (o', l') ∈ chunks fuel o -> o <= o' /\ 0 < l' <= m /\ o' + l' <= length d /\
     (m mod 8 = 0 -> o mod 8 = 0 -> o' mod 8 = 0)) /\
  NoDup (chunks fuel o).*1 /\ (forall i, o <= i < length d -> covered (chunks fuel o) i = true) /\
  (forall x y i, x ∈ chunks fuel o -> y ∈ chunks fuel o -> in_range x.1 x.2 i = true ->
     in_range y.1 y.2 i = true -> x = y).
Proof.
  revert o. induction fuel as [|fuel IH]; intros o Hf; cbn [chunks].
  - split_and!; [by intros ? ? ?%elem_of_nil|constructor|lia|by intros ? ? ? ?%elem_of_nil].
  - destruct (Nat.leb_spec (length d) o).
    { split_and!; [by intros ? ? ?%elem_of_nil|constructor|lia|by intros ? ? ? ?%elem_of_nil]. }
    set (l := m `min` (length d - o)). destruct (IH (o + l) ltac:(lia)) as (H1 & H2 & H3 & H4). split_and!.
    + intros o' l' [[= -> ->]|Hin]%elem_of_cons; [split_and!; done || lia|].
      pose proof (H1 _ _ Hin) as (? & ? & ? & H8). split_and!; try lia. intros Hm8 Ho8.
      destruct (decide (m <= length d - o)) as [Hle|Hgt].
      * apply H8; [done|]. replace l with m by lia. rewrite Nat.Div0.add_mod, Hm8, Ho8. done.
      * assert (length d <= o + l) by lia. rewrite chunks_done in Hin by done. by apply elem_of_nil in Hin.
    + cbn. constructor; [|done]. intros ([o' l'] & -> & Hin)%list_elem_of_fmap. apply H1 in Hin. cbn in Hin. lia.
    + intros i Hi. cbn. apply orb_true_iff. destruct (decide (i < o + l)); [left; apply in_range_spec; lia|].
      right. apply H3. lia.
    + intros [xo xl] [yo yl] i [[= -> ->]|Hx]%elem_of_cons [[= -> ->]|Hy]%elem_of_cons Hix Hiy; [done| | |by eapply H4];
        apply in_range_spec in Hix, Hiy; cbn in *; [apply H1 in Hy|apply H1 in Hx]; lia.
Qed.
End Chunks.

(** ** Sending a datagram in fragments *)

Section Sending.
Context {BO : ByteOrder} {NE : NetworkEndian BO}.

(** The datagram [d] of the representation [r], cut into pieces of [m] octets. *)
Variables (caps : DeviceCapabilities) (src dst : list Z) (r : IpHeader) (d : list Z) (id : Z) (m : nat).
Hypothesis Hsrc : EthernetAddress.wf src.
Hypothesis Hdst : EthernetAddress.wf dst.
Hypothesis Hr : ipv4_repr_wf r.
Hypothesis Hd : length d = ih_payload_len r.
Hypothesis Hid : word id.
Hypothesis Hm : DeviceCapabilities.ip_mtu caps = Ret (20 + m).
Hypothesis Hpos : 0 < m.

(** The packet that carries the octets [o .. o + l]. *)
Definition fragment_packet (o l : nat) : list Z :=
  header_octets (finish (caps_checksum caps)
    (frag_header (r <| ih_payload_len := l |>) id (negb (o + l =? length d)) (Z.of_nat o))) ++ slice d o l.

Definition fragment_frame (o l : nat) : list Z := frame_of (caps_medium caps) src dst (fragment_packet o l).

Lemma sub_repr_wf l : l <= length d -> ipv4_repr_wf (r <| ih_payload_len := l |>).
Proof.
  intros Hl. destruct Hr as (? & ? & ? & ? & ? & ?). unfold ipv4_repr_wf. split_and!; try done.
  change (Z.of_nat (20 + l) <= U16_MAX)%Z. lia.
Qed.

Lemma offset_word o : o <= length d -> word (Z.of_nat o).
Proof. intros Ho. destruct Hr as (_&_&_&_&Hx&_). unfold word. lia. Qed.

Lemma fragment_header_wf o l :
  o + l <= length d -> header_wf (finish (caps_checksum caps)
    (frag_header (r <| ih_payload_len := l |>) id (negb (o + l =? length d)) (Z.of_nat o))).
Proof. intros Hl. apply finish_wf, frag_header_wf; [apply sub_repr_wf; lia|done|apply offset_word; lia]. Qed.

Lemma fragment_packet_length o l : o + l <= length d -> length (fragment_packet o l) = 20 + l.
Proof.
  intros Hl. unfold fragment_packet. rewrite length_app, header_octets_length by by apply fragment_header_wf.
  rewrite length_slice. lia.
Qed.

(** The receiver's view of a fragment at an offset that is a multiple of 8. *)
Lemma fragment_is_fragment o l :
  0 < l -> o + l <= length d -> o mod 8 = 0 -> l < length d ->
  is_fragment (Ipv4Key.mk id (ih_src_addr r) (ih_dst_addr r) (ih_next_header r)) d o l (fragment_packet o l).
Proof.
  intros Hl Hol Ho Hpart. pose proof (fragment_header_wf o l Hol) as Hwf.
  pose proof (finish_fields (caps_checksum caps) (frag_header (r <| ih_payload_len := l |>) id
    (negb (o + l =? length d)) (Z.of_nat o))) as (Ft & Fi & Ff & Fs & Fd & Fp).
  pose proof (offset_word o ltac:(lia)) as Hw.
  pose proof (fragment_packet_length o l Hol) as Hlen. unfold fragment_packet in *.
  set (h := finish _ _) in *. constructor.
  - unfold Ipv4Packet.more_frags. rewrite h_get_flags by done. cbn [mbind outcome_bind]. rewrite Ff.
    cbn [frag_header h_flags set_field]. by rewrite frag_flags_more.
  - unfold Ipv4Packet.frag_offset. rewrite h_get_flags by done. cbn [mbind outcome_bind]. rewrite Ff.
    cbn [frag_header h_flags set_field]. rewrite frag_flags_offset; [done..|].
    change 8%Z with (Z.of_nat 8). rewrite <-Nat2Z.inj_mod, Ho. done.
  - unfold Ipv4Packet.get_key. rewrite h_get_ident, h_get_src, h_get_dst, h_get_next by done.
    cbn [mbind outcome_bind]. rewrite Fi, Fs, Fd, Fp. cbn.
    destruct Hr as (_ & _ & _ & -> & _). done.
  - rewrite (ipv4_payload_ok _ 20 (20 + l)).
    + unfold slice at 1. rewrite drop_app_length' by (by rewrite header_octets_length).
      rewrite take_ge by (rewrite length_slice; lia). done.
    + by rewrite h_get_header_len.
    + rewrite h_get_total, Ft by done. cbn. f_equal. lia.
    + rewrite Hlen. lia.
  - exists 20, (20 + l). split_and!; [by rewrite h_get_header_len| |lia..].
    rewrite h_get_total, Ft by done. cbn. f_equal. lia.
  - destruct (Nat.eqb_spec (o + l) (length d)); [|done]. cbn. apply Nat.eqb_neq. lia.
Qed.
(** The fragmenter when the octets before [o] have been sent. *)
Record sending (o : nat) (frag : Fragmenter.t) : Prop := {
  snd_len : Fragmenter.packet_len frag = 20 + length d;
  snd_sent : Fragmenter.sent_bytes frag = 20 + o;
  snd_repr : exists l, Ipv4Fragmenter.repr (Fragmenter.ipv4 frag) = r <| ih_payload_len := l |>;
  snd_dst : Ipv4Fragmenter.dst_hardware_addr (Fragmenter.ipv4 frag) = dst;
  snd_offset : Ipv4Fragmenter.frag_offset (Fragmenter.ipv4 frag) = Z.of_nat o;
  snd_ident : Ipv4Fragmenter.ident (Fragmenter.ipv4 frag) = id;
  snd_buffer : slice (Fragmenter.buffer frag) 20 (length d) = d
}.

Lemma slice_slice (b : list Z) o l :
  slice b 20 (length d) = d -> 0 < l -> o + l <= length d -> range b (o + 20) (o + 20 + l) = Ret (slice d o l).
Proof.
  intros Hb Hpl Hol. assert (20 + length d <= length b) as Hlen.
  { apply (f_equal length) in Hb. rewrite length_slice in Hb. lia. }
  rewrite range_Ret by lia. f_equal. apply list_eq. intros i.
  destruct (decide (i < l)) as [Hi|Hi]; [|rewrite !lookup_slice_ge by lia; done].
  rewrite !lookup_slice by lia. rewrite <-Hb, lookup_slice by lia. f_equal. lia.
Qed.

(** The closure of [dispatch_ipv4_frag]. *)
Lemma fragment_body o l buf tail :
  slice buf 20 (length d) = d -> 0 < l -> o + l <= length d -> bytes tail -> length tail = 20 + l ->
  (packet ← range tail 0 20;
   packet ← Ipv4Repr.emit (r <| ih_payload_len := l |>) (caps_checksum caps) packet;
   packet ← set_fragment id (negb (o + l =? length d)) (Z.of_nat o) (caps_checksum caps) packet;
   data ← range buf (Z.to_nat (Z.of_nat o) + 20) (Z.to_nat (Z.of_nat o) + 20 + l);
   put_slice 20 (20 + l) data (splice tail 0 packet)) = Ret (fragment_packet o l).
Proof.
  intros Hb Hpl Hol Ht Hl. rewrite (range_Ret tail) by lia. cbn [mbind outcome_bind].
  pose proof (sub_repr_wf l ltac:(lia)) as Hr'.
  rewrite ipv4_emit_octets by (done || (by apply bytes_slice) || (rewrite length_slice; lia)).
  cbn [mbind outcome_bind]. fold (finish (caps_checksum caps) (header_of (r <| ih_payload_len := l |>))).
  rewrite set_fragment_octets by (done || (apply offset_word; lia)). cbn [mbind outcome_bind].
  rewrite drop_ge, app_nil_r by (rewrite length_slice; lia).
  rewrite Nat2Z.id, slice_slice by done. cbn [mbind outcome_bind].
  pose proof (header_octets_length _ (fragment_header_wf o l Hol)) as Hh. unfold fragment_packet.
  set (hd := header_octets _) in *. unfold splice. rewrite take_0, Hh, Nat.add_0_l. cbn [app].
  rewrite put_slice_ok by (rewrite ?length_app, ?length_drop, ?length_slice, ?Hh; lia).
  rewrite take_app_length' by lia. rewrite (drop_ge _ (20 + l)) by (rewrite length_app, length_drop; lia).
  by rewrite app_nil_r.
Qed.

Lemma dispatch_frag_ok o frag tok :
  sending o frag -> o < length d -> tx_token_wf tok ->
  exists frag', dispatch_ipv4_frag (HwEthernet src) caps tok frag =
      Ret (frag', fragment_frame o (m `min` (length d - o))) /\
    sending (o + m `min` (length d - o)) frag'.
Proof.
  intros [Hlen Hsent [l0 Hrepr] Hdst' Hoff Hident Hbuf] Ho Htok. set (l := m `min` (length d - o)).
  unfold dispatch_ipv4_frag. rewrite Hm. cbn [mbind outcome_bind]. rewrite Hlen, Hsent. unfold nsub.
  rewrite (proj2 (Nat.ltb_ge _ _)) by lia. cbn [mbind outcome_bind]. unfold Ipv4Repr.buffer_len, IPV4_HEADER_LEN.
  replace (20 + length d - (20 + o) + 20) with (20 + (length d - o)) by lia.
  replace ((20 + (length d - o)) `min` (20 + m)) with (20 + l) by lia.
  rewrite (proj2 (Nat.ltb_ge _ _)) by lia. cbn [mbind outcome_bind].
  replace (20 + l - 20) with l by lia.
  replace (20 + length d - (20 + o) =? l) with (o + l =? length d) by (decide_tests; done || lia).
  set (repr := (Ipv4Fragmenter.repr _) <| ih_payload_len := l |>).
  assert (repr = r <| ih_payload_len := l |>) as Hrepr' by (unfold repr; by rewrite Hrepr). clearbody repr. subst repr.
  cbn [set_field Fragmenter.ipv4 Ipv4Fragmenter.frag_offset Ipv4Fragmenter.ident Fragmenter.buffer
    Ipv4Fragmenter.dst_hardware_addr]. rewrite Hoff, Hident, Hdst'.
  assert (o + l <= length d) as Hol by lia.
  unfold consume. rewrite (emit_frame_ok _ src dst _ _ (fragment_packet o l)); [|done|done| |].
  - cbn [mbind outcome_bind]. pose proof (offset_word (o + l) Hol) as Hw. unfold word in Hw.
    unfold wrap_u. rewrite Z.mod_small by lia. rewrite uadd_Ret by lia. cbn [mbind outcome_bind].
    eexists. split; [done|]. constructor; cbn; try done; [lia|by exists l|lia].
  - rewrite (proj1 (Htok _)). unfold frame_of.
    destruct (caps_medium caps); rewrite ?length_app, ?fragment_packet_length by done; [|done..].
    destruct Hsrc as [Hs _], Hdst as [Hdl _]. unfold Frame.header_len, ETHERNET_HEADER_LEN. cbn. lia.
  - intros tail Htl [n ->]. rewrite fragment_packet_length in Htl by done.
    apply fragment_body; [done|lia|done|by apply Forall_drop, Htok|done].
Qed.

(** The closure [emit_ip] writes the payload [d] into the buffer. *)
Definition emits (emit_ip : IpRepr -> list Z -> outcome (list Z)) (buf : list Z) : Prop :=
  emit_ip (ReprIpv4 (r <| ih_payload_len := m |>)) buf =
    (buf ← Ipv4Repr.emit (r <| ih_payload_len := m |>) (caps_checksum caps) buf; Ret (splice buf 20 d)).

Lemma mtu_frame packet : length packet = 20 + m ->
  length (frame_of (caps_medium caps) src dst packet) = max_transmission_unit caps.
Proof.
  intros Hl. pose proof Hm as Hm'. unfold DeviceCapabilities.ip_mtu, Frame.header_len, ETHERNET_HEADER_LEN in Hm'.
  destruct Hsrc as [Hs _], Hdst as [Hdl _]. unfold frame_of.
  destruct (caps_medium caps); [destruct (Nat.ltb_spec (max_transmission_unit caps) 14)| |]; inv_outcome; [|lia..].
  rewrite !length_app. cbn [length]. lia.
Qed.

Lemma first_fragment_ok emit_ip tok frag :
  emits emit_ip (Fragmenter.buffer frag) -> m < length d -> bytes (Fragmenter.buffer frag) ->
  20 + length d <= length (Fragmenter.buffer frag) -> tx_token_wf tok ->
  exists frag', first_fragment (HwEthernet src) caps emit_ip r dst id tok frag =
      Ret (frag', Some (fragment_frame 0 m)) /\ sending m frag'.
Proof.
  intros Hemit Hmd Hb Hlen Htok. unfold first_fragment. rewrite Hm. cbn [mbind outcome_bind].
  unfold IpRepr.buffer_len, IpRepr.header_len, IpRepr.payload_len. rewrite <-Hd.
  rewrite (proj2 (Nat.ltb_ge _ _)) by lia. unfold Ipv4Repr.buffer_len, IPV4_HEADER_LEN, nsub.
  rewrite (proj2 (Nat.ltb_ge _ _)) by lia. cbn [mbind outcome_bind].
  replace (20 + m - 20) with m by lia.
  cbn [Fragmenter.buffer set_field]. rewrite Hemit.
  rewrite ipv4_emit_octets by (done || lia || apply sub_repr_wf; lia). cbn [mbind outcome_bind].
  fold (finish (caps_checksum caps) (header_of (r <| ih_payload_len := m |>))).
  pose proof (sub_repr_wf m ltac:(lia)) as Hrm.
  pose proof (header_octets_length _ (finish_wf (caps_checksum caps) _ (header_of_wf _ Hrm))) as Hh.
  unfold splice. rewrite take_app_length' by lia. rewrite set_fragment_octets by (done || unfold word; lia).
  cbn [mbind outcome_bind]. cbn [Fragmenter.buffer set_field].
  pose proof (fragment_header_wf 0 m ltac:(lia)) as Hwf. pose proof (fragment_packet_length 0 m ltac:(lia)) as Hpl.
  pose proof (header_octets_length _ Hwf) as Hfl. unfold fragment_packet in Hpl.
  assert (negb (0 + m =? length d) = true) as Hmore by (rewrite (proj2 (Nat.eqb_neq _ _)) by lia; done).
  unfold fragment_frame, fragment_packet. rewrite Hmore in *. change (Z.of_nat 0) with 0%Z in *.
  set (hd := header_octets (finish _ (frag_header _ _ _ _))) in *. set (rest := drop (20 + length d) _).
  clearbody hd. unfold consume. rewrite (emit_frame_ok _ src dst _ _ (hd ++ slice d 0 m)); [|done|done| |].
  - cbn [mbind outcome_bind]. eexists. split; [done|]. pose proof (offset_word m ltac:(lia)) as Hw.
    unfold word in Hw. constructor; cbn; try done; [by exists (length d); destruct r; cbn in *; subst| |].
    + unfold wrap_u. by rewrite Z.mod_small by lia.
    + by apply slice_mid.
  - rewrite (proj1 (Htok _)). symmetry. by apply mtu_frame.
  - intros tail Htl _. rewrite range_Ret by (rewrite ?length_app; lia). cbn [mbind outcome_bind].
    unfold slice at 1. rewrite drop_0, Nat.sub_0_r, take_app_ge by lia.
    replace (20 + m - length hd) with m by lia. rewrite take_app_le by lia.
    rewrite put_slice_ok by (rewrite ?length_app, ?length_take; lia). cbn [take app].
    rewrite drop_ge, app_nil_r by lia. unfold slice. by rewrite drop_0.
Qed.
(** [ipv4_egress] with one token after another. *)
Fixpoint egress (hardware_addr : HardwareAddress) (tokens : list TxToken) (frag : Fragmenter.t) :
    outcome (Fragmenter.t * list (list Z)) :=
  match tokens with
  | [] => Ret (frag, [])
  | t :: tokens =>
      '(frag, _, out) ← ipv4_egress hardware_addr caps [Some t] frag;
      '(frag, outs) ← egress hardware_addr tokens frag;
      Ret (frag, option_list out ++ outs)
  end.

Lemma egress_drained hw tokens frag :
  Fragmenter.finished frag = true -> exists frag', egress hw tokens frag = Ret (frag', []) /\
    Fragmenter.finished frag' = true.
Proof.
  revert frag. induction tokens as [|t tokens IH]; intros frag Hf; cbn [egress]; [by exists frag|].
  unfold ipv4_egress. rewrite Hf. change (Fragmenter.is_empty (Fragmenter.reset frag)) with true.
  cbn [mbind outcome_bind]. destruct (IH (Fragmenter.reset frag) eq_refl) as (frag' & -> & ?). by exists frag'.
Qed.

Lemma egress_ok fuel o tokens frag :
  sending o frag -> o <= length d -> length d - o <= fuel -> Forall tx_token_wf tokens ->
  length (chunks d m fuel o) <= length tokens ->
  exists frag', egress (HwEthernet src) tokens frag =
      Ret (frag', (fun '(o', l) => fragment_frame o' l) <$> chunks d m fuel o) /\
    Fragmenter.finished frag' = true.
Proof.
  intros Hs Ho Hf Ht. revert o fuel frag Hs Ho Hf. induction Ht as [|t tokens Ht Hts IH];
    intros o fuel frag Hs Ho Hf Hc.
  - cbn in Hc. destruct (decide (o = length d)) as [->|Hne].
    + exists frag. rewrite (chunks_done d m) by lia. cbn [egress fmap list_fmap]. split; [done|].
      unfold Fragmenter.finished. rewrite (snd_len _ _ Hs), (snd_sent _ _ Hs). apply Nat.eqb_refl.
    + exfalso. destruct fuel as [|fuel]; [lia|]. cbn [chunks] in Hc.
      rewrite (proj2 (Nat.leb_gt _ _)) in Hc by lia. cbn in Hc. lia.
  - destruct (decide (o = length d)) as [->|Hne].
    + rewrite (chunks_done d m) by lia. apply egress_drained. unfold Fragmenter.finished.
      rewrite (snd_len _ _ Hs), (snd_sent _ _ Hs). apply Nat.eqb_refl.
    + destruct fuel as [|fuel]; [lia|]. cbn [chunks] in *. rewrite (proj2 (Nat.leb_gt _ _)) in * by lia.
      set (l := m `min` (length d - o)) in *. cbn [egress]. unfold ipv4_egress, Fragmenter.finished.
      rewrite (snd_len _ _ Hs), (snd_sent _ _ Hs). rewrite (proj2 (Nat.eqb_neq _ _)) by lia.
      unfold Fragmenter.is_empty. rewrite (snd_len _ _ Hs), (snd_sent _ _ Hs).
      rewrite (proj2 (Nat.eqb_neq _ _)), (proj2 (Nat.ltb_lt _ _)) by lia. cbn [transmit].
      destruct (dispatch_frag_ok o frag t Hs ltac:(lia) Ht) as (frag1 & -> & Hs1). cbn [mbind outcome_bind].
      destruct (IH (o + l) fuel frag1 Hs1 ltac:(lia) ltac:(lia)) as (frag2 & -> & ?); [cbn in Hc; lia|].
      by exists frag2.
Qed.

Lemma fragment_frame_length o l :
  o + l <= length d -> l <= m -> length (fragment_frame o l) <= max_transmission_unit caps.
Proof.
  intros Hol Hlm. rewrite <-(mtu_frame (replicate (20 + m) 0%Z)) by apply length_replicate.
  unfold fragment_frame, frame_of. destruct (caps_medium caps);
    rewrite ?length_app, ?fragment_packet_length, ?length_replicate by done; lia.
Qed.
End Sending.

(** ** End to end *)

(** A receiver that can take the datagram: its slots are well-formed, it has no
    fragment of that datagram and a slot is free. *)
Definition receiver_ready (segments : nat) (key : Ipv4Key.t) (frags : FragmentsBuffer) : Prop :=
  Forall (slot_wf segments) (fb_assembler frags) /\
  (forall f, f ∈ fb_assembler frags -> PacketAssembler.key f <> Some key) /\
  exists f, f ∈ fb_assembler frags /\ PacketAssembler.key f = None.

Lemma chunks_first d m : 0 < m < length d -> chunks d m (length d) 0 = (0, m) :: chunks d m (length d - 1) m.
Proof.
  intros Hm. destruct (length d) as [|n] eqn:Hn; [lia|]. cbn [chunks]. rewrite Hn.
  rewrite (proj2 (Nat.leb_gt _ _)) by lia. rewrite Nat.min_l, Nat.sub_succ, Nat.sub_0_r by lia. done.
Qed.

Lemma pieces_of {A B : Type} (R : A -> B -> Prop) (cuts : list A) (l : list B) :
  (forall b, b ∈ l -> exists a, a ∈ cuts /\ R a b) -> exists ps, Forall2 R ps l /\ ps ⊆ cuts.
Proof.
  induction l as [|b l IH]; intros H.
  - exists []. split; [constructor|]. by intros x ?%elem_of_nil.
  - destruct (H b ltac:(left)) as (a & Ha & Hab). destruct IH as (ps & Hps & Hsub); [intros; apply H; by right|].
    exists (a :: ps). split; [by constructor|]. intros x [->|Hx]%elem_of_cons; [done|by apply Hsub].
Qed.

Section Reassemble.
Context {BO : ByteOrder} {NE : NetworkEndian BO}.
Variables (caps : DeviceCapabilities) (src dst : list Z) (r : IpHeader) (d : list Z) (id : Z) (m segments : nat) (deadline : Instant).
Hypothesis Hsrc : EthernetAddress.wf src.
Hypothesis Hdst : EthernetAddress.wf dst.
Hypothesis Hr : ipv4_repr_wf r.
Hypothesis Hd : length d = ih_payload_len r.
Hypothesis Hid : word id.
Hypothesis Hm8 : m mod 8 = 0.
Hypothesis Hm0 : 0 < m < length d.

Abbreviation cuts := (chunks d m (length d) 0).
Abbreviation frame := (fun '(o, l) => fragment_frame caps src dst r d id o l).
Abbreviation key := (Ipv4Key.mk id (ih_src_addr r) (ih_dst_addr r) (ih_next_header r)).

Lemma cut_spec o l : (o, l) ∈ cuts -> 0 < l <= m /\ o + l <= length d /\ o mod 8 = 0.
Proof.
  intros Hin. destruct (proj1 (chunks_spec d m ltac:(lia) (length d) 0 ltac:(lia)) o l Hin) as (_ & ? & ? & H).
  split_and!; try lia. by apply H.
Qed.

Lemma cuts_ok : cuts_wf d cuts.
Proof.
  constructor; [apply (chunks_spec d m); lia|]. apply Forall_forall. intros [o l] Hin%cut_spec. lia.
Qed.

Lemma cut_fragment o l : (o, l) ∈ cuts -> exists packet,
  packet_of (caps_medium caps) (fragment_frame caps src dst r d id o l) = Ret packet /\ is_fragment key d o l packet.
Proof.
  intros Hin%cut_spec. eexists. split; [by apply packet_of_frame|]. by apply (fragment_is_fragment caps r d id m); try lia.
Qed.

Lemma frame_inj x y : x ∈ cuts -> y ∈ cuts -> frame x = frame y -> x = y.
Proof.
  destruct x as [o l], y as [o' l']. intros Hx Hy Heq.
  destruct (cut_fragment o l Hx) as (p & Hp & Hf), (cut_fragment o' l' Hy) as (p' & Hp' & Hf').
  rewrite Heq, Hp' in Hp. injection Hp as ->. pose proof (frag_off _ _ _ _ _ Hf) as H1.
  rewrite (frag_off _ _ _ _ _ Hf') in H1. injection H1 as H1%Nat2Z.inj. subst o'.
  apply list_elem_of_lookup in Hx as [i Hi], Hy as [j Hj].
  assert (i = j) as ->; [|congruence].
  eapply (NoDup_lookup cuts.*1); [apply cuts_ok| |]; rewrite list_lookup_fmap; [by rewrite Hi|by rewrite Hj].
Qed.

Lemma arrivals_reassemble arrivals last frags :
  length cuts <= segments -> receiver_ready segments key frags ->
  (forall f, f ∈ (arrivals ++ [last]).*2 <-> f ∈ frame <$> cuts) -> last.2 ∉ arrivals.*2 ->
  (forall a, a ∈ arrivals ++ [last] -> (a.1 <= deadline)%Z /\
     exists e, Instant.add a.1 (reassembly_timeout frags) = Ret e /\ (deadline <= e)%Z) ->
  exists frags1 frags', receive (caps_medium caps) arrivals frags = Ret (frags1, []) /\
    receive (caps_medium caps) [last] frags1 = Ret (frags', [d]) /\
    forall f, f ∈ fb_assembler frags' -> PacketAssembler.key f <> Some key.
Proof.
  intros Hcount (Hwf & Hno & Hfree) Hall Hlast Htimes.
  set (R := fun c (a : Instant * list Z) => a.2 = frame c /\ arrives key d deadline (caps_medium caps) (reassembly_timeout frags) c a).
  assert (forall a, a ∈ arrivals ++ [last] -> exists c, c ∈ cuts /\ R c a) as Hpieces.
  { intros a Ha. assert (a.2 ∈ (arrivals ++ [last]).*2) as Hin by (apply list_elem_of_fmap; by exists a).
    apply Hall, list_elem_of_fmap in Hin as ([o l] & Heq & Hc).
    exists (o, l). split; [done|]. split; [done|]. destruct (cut_fragment o l Hc) as (p & Hp & Hf).
    exists p. rewrite Heq. split_and!; [done|done|by apply Htimes..]. }
  destruct (pieces_of R cuts arrivals) as (ps & Hps & Hsub).
  { intros a Ha. apply Hpieces, elem_of_app. by left. }
  destruct (Hpieces last) as (z & Hz & Hzf & Hza); [apply elem_of_app; right; by left|].
  assert (z ∉ ps) as Hzps.
  { intros Hin. apply Hlast. apply list_elem_of_lookup in Hin as [i Hi].
    destruct (Forall2_lookup_l _ _ _ _ _ Hps Hi) as (a & Ha & Heq & _). rewrite Hzf, <-Heq.
    apply list_elem_of_fmap. exists a. split; [done|]. by eapply list_elem_of_lookup_2. }
  destruct (receive_complete key d cuts segments deadline cuts_ok Hcount (caps_medium caps) (reassembly_timeout frags)
    ps arrivals z last frags) as (frags1 & s & Hrun & Hlst & _ & Hs); try done.
  - eapply Forall2_impl; [exact Hps|]. by intros ? ? [_ ?].
  - intros x [->|Hx]%elem_of_cons; [done|by apply Hsub].
  - intros Hc. destruct z as [o l]. pose proof (cut_spec o l Hz) as (? & ? & _). specialize (Hc o ltac:(lia)).
    apply existsb_exists in Hc as ([o' l'] & Hin & Hio). apply in_rev, list_elem_of_In in Hin.
    apply Hzps. destruct (chunks_spec d m ltac:(lia) (length d) 0 ltac:(lia)) as (_ & _ & _ & Hdis).
    rewrite (Hdis (o, l) (o', l') o); try done; [by apply Hsub|]. cbn. apply in_range_spec. lia.
  - destruct (chunks_spec d m ltac:(lia) (length d) 0 ltac:(lia)) as (_ & _ & Hcov & _).
    eapply (complete_mono d cuts); [|intros i Hi; apply Hcov; lia]. intros c Hc.
    assert (frame c ∈ (arrivals ++ [last]).*2) as Hin by (apply Hall, list_elem_of_fmap; by exists c).
    apply list_elem_of_fmap in Hin as (a & Heq & [Ha|Ha]%elem_of_app).
    + right. apply list_elem_of_In, (proj1 (in_rev _ _)), list_elem_of_In. apply list_elem_of_lookup in Ha as [i Hi].
      destruct (Forall2_lookup_r _ _ _ _ _ Hps Hi) as (c' & Hc' & Heq' & _). apply list_elem_of_lookup_2 in Hc'.
      rewrite (frame_inj c c'); [done|done|by apply Hsub|congruence].
    + apply list_elem_of_singleton in Ha as ->. assert (c = z) as -> by (apply frame_inj; [done..|congruence]). left.
  - split; [done|]. by left.
  - eexists frags1, _. split; [exact Hrun|]. split; [exact Hlst|]. exact Hs.
Qed.
End Reassemble.

(** What the sender hands to the device: the first fragment and, as it is polled, the
    others, none of them longer than the device allows. *)
Lemma fragments_sent {BO : ByteOrder} {NE : NetworkEndian BO} caps src dst r d id m emit_ip tok tokens frag :
  EthernetAddress.wf src -> EthernetAddress.wf dst -> ipv4_repr_wf r -> length d = ih_payload_len r -> word id ->
  DeviceCapabilities.ip_mtu caps = Ret (20 + m) -> 0 < m < length d -> emits caps r d m emit_ip (Fragmenter.buffer frag) ->
  bytes (Fragmenter.buffer frag) -> 20 + length d <= length (Fragmenter.buffer frag) ->
  tx_token_wf tok -> Forall tx_token_wf tokens -> length (chunks d m (length d) 0) <= S (length tokens) ->
  exists frag1 frame1 frag2 frames,
    first_fragment (HwEthernet src) caps emit_ip r dst id tok frag = Ret (frag1, Some frame1) /\
    egress caps (HwEthernet src) tokens frag1 = Ret (frag2, frames) /\ Fragmenter.finished frag2 = true /\
    frame1 :: frames = (fun '(o, l) => fragment_frame caps src dst r d id o l) <$> chunks d m (length d) 0 /\
    Forall (fun f => length f <= max_transmission_unit caps) (frame1 :: frames).
Proof.
  intros Hsrc Hdst Hr Hd Hid Hm Hm0 Hemit Hb Hbl Htok Htoks Hcount.
  destruct (first_fragment_ok caps src dst r d id m Hsrc Hdst Hr Hd Hid Hm ltac:(lia) emit_ip tok frag)
    as (frag1 & Hfirst & Hsend); try (done || lia).
  pose proof (chunks_first d m ltac:(lia)) as Hch. rewrite Hch in Hcount. cbn [length] in Hcount.
  destruct (egress_ok caps src dst r d id m Hsrc Hdst Hr Hd Hid Hm ltac:(lia) (length d - 1) m tokens frag1)
    as (frag2 & Heg & Hfin); try (done || lia).
  eexists frag1, _, frag2, _. split; [exact Hfirst|]. split; [exact Heg|]. split; [done|].
  change (fragment_frame caps src dst r d id 0 m :: _) with
    ((fun '(o, l) => fragment_frame caps src dst r d id o l) <$> (0, m) :: chunks d m (length d - 1) m).
  rewrite <-Hch. split; [done|].
  apply Forall_fmap, Forall_forall. intros [o l] Hin. cbn.
  pose proof (proj1 (chunks_spec d m ltac:(lia) (length d) 0 ltac:(lia)) o l Hin) as (_ & ? & ? & _).
  apply (fragment_frame_length caps src dst r d id m); try (done || lia).
Qed.

(** ** Concrete runs *)

Section Runs.
#[local] Existing Instance network_endian.
Local Open Scope Z_scope.

(** Octets that count up from 0. *)
Definition counting (n : nat) : list Z := (fun i => Z.of_nat i mod 256) <$> seq 0 n.

(** A closure [emit_ip] that copies the payload. *)
Definition emit_counting (d : list Z) (ip_repr : IpRepr) (buf : list Z) : outcome (list Z) :=
  match ip_repr with
  | ReprIpv4 repr => buf ← Ipv4Repr.emit repr all_checksums buf; Ret (splice buf 20 d)
  | ReprIpv6 _ => Panic
  end.

Definition counting_repr (n : nat) : IpHeader := mkIpHeader [192; 168; 1; 1] [192; 168; 1; 2] Protocol.Udp n 64.
Definition device_mac : list Z := [2; 0; 0; 0; 0; 1].
Definition peer_mac : list Z := [2; 0; 0; 0; 0; 2].
Definition blank_token : TxToken := mkTxToken (fun n => replicate n 0).
Definition empty_fragments : FragmentsBuffer := mkFragments (PacketAssemblerSet.new 1 4) 60000000.

Lemma counting_bytes n : bytes (counting n).
Proof. apply Forall_fmap, Forall_forall. intros i _. apply byte_mod. Defined.

Lemma blank_token_wf : tx_token_wf blank_token.
Proof. intros n. split; [apply length_replicate|]. apply Forall_replicate. unfold byte. lia. Qed.

Lemma empty_fragments_ready key : receiver_ready 4 key empty_fragments.
Proof.
  split_and!.
  - apply Forall_singleton. split_and!; [by apply asm_new_wf; lia|done|]. intros _. split; [done|apply present_new].
  - by intros f ->%list_elem_of_singleton.
  - exists (PacketAssembler.new 4). split; [by left|done].
Qed.

(** 2000 octets over an Ethernet device that sends 1466 octets of IP payload per
    frame, which is not a multiple of 8. *)
Definition ethernet_1500 : DeviceCapabilities := mkDeviceCapabilities MediumEthernet 1500 None all_checksums.

Definition run_1500 : outcome (list (list Z)) :=
  '(frag, frame1) ← first_fragment (HwEthernet device_mac) ethernet_1500 (emit_counting (counting 2000))
     (counting_repr 2000) peer_mac 7 blank_token (Fragmenter.new 4096);
  '(_, frames) ← egress ethernet_1500 (HwEthernet device_mac) [blank_token; blank_token] frag;
  '(_, out) ← receive MediumEthernet ((fun f => (0, f)) <$> option_list frame1 ++ frames) empty_fragments;
  Ret out.

(** The fragments of a datagram are not aligned: on an Ethernet device with a
    maximum transmission unit of 1500 the second fragment is sent with the offset
    1464 instead of 1466, and a receiver that gets both fragments in order hands out
    a datagram with two octets missing. *)
Theorem unaligned_fragments_corrupt :
  run_1500 = Ret [take 1464 (counting 2000) ++ drop 1466 (counting 2000)] /\
  take 1464 (counting 2000) ++ drop 1466 (counting 2000) <> counting 2000.
Proof.
  split; [by vm_compute|]. intros H%(f_equal length). rewrite length_app, length_take, length_drop in H.
  unfold counting in H. rewrite length_fmap, length_seq in H. lia.
Qed.
End Runs.
