(* ===== verification/TcpWireProps.v ===== *)
(** * Properties of the TCP wire format

    Parsing is total on arbitrary input, [check_len] protects the accessors, and
    the parser is a left inverse of the emitter. *)

From S2P Require Import Prelude Bytes SeqNumber Ip Phy TcpWire.
Open Scope Z_scope.

Section Total.
Context {BO : ByteOrder} {NE : NetworkEndian BO}.
Implicit Types (data buffer options : list Z).

Lemma get_i32_ok a b data :
  bytes data -> (b <= length data)%nat -> b = (a + 4)%nat ->
  exists n, (d ← range data a b; read_i32 d) = Ret n /\ - 2147483648 <= n <= I32_MAX.
Proof.
  intros Hb Hl ->. rewrite range_Ret by lia. cbn [mbind outcome_bind].
  apply read_i32_bytes; [by apply bytes_slice|]. rewrite length_slice. lia.
Qed.

Lemma flag_ok mask data :
  bytes data -> (14 <= length data)%nat -> exists b, Packet.flag mask data = Ret b.
Proof.
  intros Hb Hl. unfold Packet.flag, Packet.flags.
  destruct (get_u16_ok 12 14 data Hb Hl eq_refl) as (raw & -> & _). by eexists.
Qed.

(** The header length is a multiple of 4 up to 60. *)
Lemma tcp_header_len_ok data :
  bytes data -> (14 <= length data)%nat ->
  exists h, Packet.header_len data = Ret h /\ 0 <= h <= 60 /\ h mod 4 = 0.
Proof.
  intros Hb Hl. unfold Packet.header_len, Packet.flags.
  destruct (get_u16_ok 12 14 data Hb Hl eq_refl) as (raw & -> & Hr). cbn [mbind outcome_bind].
  eexists. split; [done|]. rewrite Z.shiftr_div_pow2 by lia. change (2 ^ 12) with 4096.
  assert (0 <= raw / 4096 <= 15).
  { split; [apply Z.div_pos; lia|]. apply Z.lt_succ_r, Z.div_lt_upper_bound; lia. }
  unfold wrap_u. rewrite Z.mod_small by lia. split; [lia|]. apply Z.mod_mul. lia.
Qed.

Lemma check_len_ok data :
  bytes data ->
  exists res, Packet.check_len data = Ret res /\
    (res = Ok () -> (20 <= length data)%nat /\ exists h, Packet.header_len data = Ret h /\
       20 <= h <= 60 /\ h mod 4 = 0 /\ h <= Z.of_nat (length data)).
Proof.
  intros Hb. unfold Packet.check_len, URGENT_end.
  destruct (Nat.ltb_spec (length data) 20) as [Hl|Hl]; [by eexists|].
  destruct (tcp_header_len_ok data Hb ltac:(lia)) as (h & -> & Hr & Hm). cbn [mbind outcome_bind].
  destruct (_ || _) eqn:Ht; eexists; (split; [done|]); [done|]. intros _.
  apply orb_false_iff in Ht as [H1%Nat.ltb_ge H2%Nat.ltb_ge].
  split; [lia|]. exists h. split_and!; done || lia.
Qed.

Lemma options_ok data h :
  bytes data -> Packet.header_len data = Ret h -> 20 <= h -> h <= Z.of_nat (length data) ->
  exists options, Packet.options data = Ret options /\ bytes options /\
    Z.of_nat (length options) = h - 20.
Proof.
  intros Hb Hh H20 Hl. unfold Packet.options, URGENT_end. rewrite Hh. cbn [mbind outcome_bind].
  rewrite range_Ret by lia. eexists. split; [done|]. split; [by apply bytes_slice|].
  rewrite length_slice. lia.
Qed.

Lemma payload_ok data h :
  bytes data -> Packet.header_len data = Ret h -> 0 <= h -> h <= Z.of_nat (length data) ->
  exists payload, Packet.payload data = Ret payload /\ bytes payload /\
    Z.of_nat (length payload) = Z.of_nat (length data) - h.
Proof.
  intros Hb Hh H0 Hl. unfold Packet.payload. rewrite Hh. cbn [mbind outcome_bind].
  rewrite range_Ret by lia. eexists. split; [done|]. split; [by apply bytes_slice|].
  rewrite length_slice. lia.
Qed.

(** *** Options *)

Definition range_wf (o : option (Z * Z)) : Prop :=
  match o with Some (l, r) => 0 <= l <= U32_MAX /\ 0 <= r <= U32_MAX | None => True end.

Definition option_wf (o : TcpOption) : Prop :=
  match o with
  | MaxSegmentSize v => 0 <= v <= U16_MAX
  | WindowScale v => byte v
  | SackRange rs => length rs = 3%nat /\ Forall range_wf rs
  | UnknownOption k d => byte k /\ bytes d
  | _ => True
  end.

Lemma sack_range_at_ok data i :
  bytes data -> (length data mod 8 = 0)%nat ->
  exists o, TcpOption.sack_range_at data i = Ret o /\ range_wf o.
Proof.
  intros Hb Hm. unfold TcpOption.sack_range_at.
  destruct (Nat.ltb_spec (i * 8) (length data)) as [Hi|Hi]; [|by eexists].
  assert (i * 8 + 8 <= length data)%nat as H8.
  { pose proof (Nat.div_mod_eq (length data) 8). lia. }
  rewrite (range_Ret data (i * 8)) by lia. cbn [mbind outcome_bind].
  destruct (read_u32_bytes (slice data (i * 8) (i * 8 + 4 - i * 8))) as (l & -> & ?);
    [by apply bytes_slice|rewrite length_slice; lia|]. cbn [mbind outcome_bind].
  rewrite range_Ret by lia. cbn [mbind outcome_bind].
  destruct (read_u32_bytes (slice data (i * 8 + 4) (i * 8 + 4 + 4 - (i * 8 + 4)))) as (r & -> & ?);
    [by apply bytes_slice|rewrite length_slice; lia|]. by eexists.
Qed.

Lemma parse_data_ok kind len data :
  byte kind -> bytes data -> length data = (len - 2)%nat ->
  exists res, TcpOption.parse_data kind len data = Ret res /\
    forall o, res = Ok o -> option_wf o.
Proof.
  intros Hk Hb Hl. unfold TcpOption.parse_data.
  destruct (kind =? OPT_MSS).
  { destruct (Nat.eqb_spec len 4); [|by eexists]. subst.
    destruct (read_u16_bytes data Hb ltac:(lia)) as (v & -> & ?). eexists. split; [done|].
    by intros o [= <-]. }
  destruct (kind =? OPT_WS).
  { destruct (Nat.eqb_spec len 3); [|by eexists]. subst.
    destruct data as [|v data]; [cbn in Hl; lia|]. cbn. eexists. split; [done|].
    intros o [= <-]. by apply Forall_cons_1 in Hb as [? _]. }
  destruct (kind =? OPT_SACKPERM).
  { destruct (len =? 2)%nat; eexists; (split; [done|]); [by intros o [= <-]|done]. }
  destruct (kind =? OPT_SACKRNG).
  { destruct (_ || _) eqn:Ht; [by eexists|].
    apply orb_false_iff in Ht as [_ Ht%negb_false_iff%Nat.eqb_eq]. rewrite <-Hl in Ht.
    destruct (sack_range_at_ok data 0 Hb Ht) as (r0 & -> & ?).
    destruct (sack_range_at_ok data 1 Hb Ht) as (r1 & -> & ?).
    destruct (sack_range_at_ok data 2 Hb Ht) as (r2 & -> & ?).
    eexists. split; [done|]. intros o [= <-]. split; [done|]. by repeat constructor. }
  eexists. split; [done|]. by intros o [= <-].
Qed.

Lemma option_parse_ok buffer :
  bytes buffer ->
  exists res, TcpOption.parse buffer = Ret res /\
    forall rest o, res = Ok (rest, o) ->
      option_wf o /\ bytes rest /\ (length rest < length buffer)%nat.
Proof.
  intros Hb. unfold TcpOption.parse. destruct buffer as [|kind buf]; [by eexists|].
  pose proof Hb as [Hk Hbuf]%Forall_cons_1.
  assert (forall len o, (1 <= len <= length (kind :: buf))%nat -> option_wf o ->
    exists res, (rest ← range (kind :: buf) len (length (kind :: buf));
                 Ret (Ok (E := WireError) (rest, o))) = Ret res /\
      forall rest o, res = Ok (rest, o) ->
        option_wf o /\ bytes rest /\ (length rest < length (kind :: buf))%nat) as Hrest.
  { intros len o Hlen Ho. rewrite range_Ret by lia. eexists. split; [done|].
    intros rest o' [= <- <-]. split_and!; [done|by apply bytes_slice|].
    rewrite length_slice. lia. }
  destruct (kind =? OPT_END); [apply Hrest; cbn; done || lia|].
  destruct (kind =? OPT_NOP); [apply Hrest; cbn; done || lia|].
  destruct ((kind :: buf) !! 1%nat) as [len|] eqn:Hlen; [|by eexists].
  pose proof (bytes_lookup _ _ _ Hb Hlen) as Hlb. unfold get_range, range.
  destruct (_ && _) eqn:Ht; [|by eexists].
  apply andb_true_iff in Ht as [H1%Nat.leb_le H2%Nat.leb_le].
  destruct (parse_data_ok kind (Z.to_nat len) (slice (kind :: buf) 2 (Z.to_nat len - 2)))
    as ([o|e] & -> & Ho); [done|by apply bytes_slice|rewrite length_slice; lia| |by eexists].
  cbn [try_bind]. fold (range (kind :: buf) (Z.to_nat len) (length (kind :: buf))).
  apply Hrest; [lia|by apply Ho].
Qed.

Definition collected_wf (c : Repr.collected) : Prop :=
  match Repr.c_max_seg_size c with Some v => 0 <= v <= U16_MAX | None => True end /\
  match Repr.c_window_scale c with Some v => 0 <= v <= 14 | None => True end /\
  length (Repr.c_sack_ranges c) = 3%nat /\ Forall range_wf (Repr.c_sack_ranges c).

Lemma collect_wf o c : option_wf o -> collected_wf c -> collected_wf (Repr.collect o c).
Proof.
  unfold collected_wf. intros Ho (H1 & H2 & H3 & H4).
  destruct o; cbn in *; split_and!; try done; try tauto.
  all: unfold byte in Ho; decide_tests; lia.
Qed.

(** The loop over the options ends before the fuel does. *)
Lemma parse_options_ok fuel options c :
  (length options <= fuel)%nat -> bytes options -> collected_wf c ->
  exists res, Repr.parse_options fuel options c = Ret res /\
    forall c', res = Ok c' -> collected_wf c'.
Proof.
  revert options c. induction fuel as [|fuel IH]; intros options c Hf Hb Hc.
  { destruct options; [|cbn in Hf; lia]. eexists. split; [done|]. by intros c' [= <-]. }
  destruct options as [|b options]; [eexists; (split; [done|]); by intros c' [= <-]|].
  cbn [Repr.parse_options].
  destruct (option_parse_ok (b :: options) Hb) as ([[rest o]|e] & -> & Ho); [|by eexists].
  cbn [try_bind]. destruct (Ho rest o eq_refl) as (How & Hbr & Hlr).
  destruct (decide (o = EndOfList)); [eexists; (split; [done|]); by intros c' [= <-]|].
  apply IH; [lia|done|by apply collect_wf].
Qed.

Lemma packet_checksum_ok data a b :
  bytes data -> Z.of_nat (length data) <= 131073 ->
  address_wf a -> address_wf b -> same_family a b ->
  exists c, Packet.packet_checksum data a b = Ret c.
Proof.
  intros Hb Hl Ha Hb' Hf. unfold Packet.packet_checksum.
  destruct (pseudo_header_total a b Protocol.Tcp (wrap_u 32 (Z.of_nat (length data))) Ha Hb' Hf)
    as (p & -> & Hp); [unfold byte; cbn; lia|]. cbn [mbind outcome_bind].
  pose proof (word_sum_bound data Hb). pose proof (word_sum_pos data Hb).
  rewrite checksum_data_spec by (done || lia). cbn [mbind outcome_bind].
  rewrite combine_spec2 by (done || by apply fold16_range). by eexists.
Qed.

Lemma find_sack_permitted_ok fuel options :
  bytes options -> exists res, Packet.find_sack_permitted fuel options = Ret res.
Proof.
  revert options. induction fuel as [|fuel IH]; intros [|b options] Hb; try by eexists.
  cbn [Packet.find_sack_permitted].
  destruct (option_parse_ok (b :: options) Hb) as ([[rest o]|e] & -> & Ho); [|by eexists].
  cbn [try_bind]. destruct (Ho rest o eq_refl) as (_ & Hbr & _).
  case_decide; [by eexists|]. by apply IH.
Qed.

Lemma find_sack_ranges_ok fuel options :
  bytes options -> exists res, Packet.find_sack_ranges fuel options = Ret res.
Proof.
  revert options. induction fuel as [|fuel IH]; intros [|b options] Hb; try by eexists.
  cbn [Packet.find_sack_ranges].
  destruct (option_parse_ok (b :: options) Hb) as ([[rest o]|e] & -> & Ho); [|by eexists].
  cbn [try_bind]. destruct (Ho rest o eq_refl) as (_ & Hbr & _).
  destruct o; try (by apply IH). by eexists.
Qed.

(** The value ranges of the fields of a representation. *)
Record repr_wf (r : TcpRepr) : Prop := {
  wf_src_port : 0 <= src_port r <= U16_MAX;
  wf_dst_port : 0 <= dst_port r <= U16_MAX;
  wf_seq : seq_range (seq_number r);
  wf_ack : forall n, ack_number r = Some n -> seq_range n;
  wf_window : 0 <= window_len r <= U16_MAX;
  wf_scale : forall n, window_scale r = Some n -> 0 <= n <= 14;
  wf_mss : forall n, max_seg_size r = Some n -> 0 <= n <= U16_MAX;
  wf_sack_len : length (sack_ranges r) = 3%nat;
  wf_sack : Forall range_wf (sack_ranges r);
  wf_payload : bytes (payload r)
}.

(** Parsing arbitrary octets. *)
Lemma tcp_parse_ok packet a b caps :
  bytes packet -> Z.of_nat (length packet) <= 131073 ->
  address_wf a -> address_wf b -> same_family a b ->
  exists res, Repr.parse packet a b caps = Ret res /\
    forall r, res = Ok r -> repr_wf r /\ src_port r <> 0 /\ dst_port r <> 0 /\
      (length (payload r) <= length packet)%nat.
Proof.
  intros Hb Hl Ha Hb' Hf. unfold Repr.parse.
  destruct (check_len_ok packet Hb) as ([[]|e] & -> & Hc); [|by eexists].
  destruct (Hc eq_refl) as (H20 & h & Hh & Hhr & _ & Hhl). cbn [try_bind].
  destruct (get_u16_ok 0 2 packet Hb ltac:(lia) eq_refl) as (sp & Hsp & Hspr).
  destruct (get_u16_ok 2 4 packet Hb ltac:(lia) eq_refl) as (dp & Hdp & Hdpr).
  unfold Packet.src_port, Packet.dst_port. rewrite Hsp, Hdp. cbn [mbind outcome_bind].
  destruct (Z.eqb_spec sp 0) as [?|Hsp0]; [by eexists|].
  destruct (Z.eqb_spec dp 0) as [?|Hdp0]; [by eexists|].
  assert (exists v, (if Checksum.rx (caps_tcp caps) then Packet.verify_checksum packet a b
                     else Ret true) = Ret v) as [v ->].
  { destruct (Checksum.rx _); [|by eexists]. unfold Packet.verify_checksum.
    destruct (packet_checksum_ok packet a b) as [c ->]; try done. by eexists. }
  cbn [mbind outcome_bind]. destruct (negb v); [by eexists|].
  unfold Packet.syn, Packet.fin, Packet.rst, Packet.psh, Packet.ack.
  destruct (flag_ok FLG_SYN packet Hb ltac:(lia)) as [syn ->].
  destruct (flag_ok FLG_FIN packet Hb ltac:(lia)) as [fin ->].
  destruct (flag_ok FLG_RST packet Hb ltac:(lia)) as [rst ->].
  destruct (flag_ok FLG_PSH packet Hb ltac:(lia)) as [psh ->]. cbn [mbind outcome_bind].
  destruct (Repr.parse_control syn fin rst psh) as [control|e]; [|by eexists]. cbn [try_bind].
  destruct (flag_ok FLG_ACK packet Hb ltac:(lia)) as [ack ->].
  destruct (get_i32_ok 8 12 packet Hb ltac:(lia) eq_refl) as (an & Han & Hanr).
  destruct (get_i32_ok 4 8 packet Hb ltac:(lia) eq_refl) as (sn & Hsn & Hsnr).
  fold (Packet.ack_number packet) in Han. fold (Packet.seq_number packet) in Hsn.
  destruct (options_ok packet h Hb Hh ltac:(lia) Hhl) as (opts & Hopts & Hob & _).
  destruct (payload_ok packet h Hb Hh ltac:(lia) Hhl) as (pl & Hpl & Hpb & Hpll).
  destruct (get_u16_ok 14 16 packet Hb ltac:(lia) eq_refl) as (w & Hw & Hwr).
  destruct (parse_options_ok (length opts) opts
    (Repr.mkCollected None None false [None; None; None])) as (res & Hr & Hcw); [lia|done| |].
  { split_and!; try done. by repeat constructor. }
  unfold Packet.window_len. rewrite Han, Hsn, Hopts, Hpl, Hw.
  destruct ack; cbn [mbind outcome_bind]; rewrite Hr;
    (destruct res as [c|e]; [|by eexists]); cbn [try_bind mbind outcome_bind];
    destruct (Hcw c eq_refl) as (Hc1 & Hc2 & Hc3 & Hc4);
    (eexists; split; [done|]); intros r [= <-]; (split; [|cbn; split_and!; [done|done|lia]]); split; cbn; try done.
  all: try by intros n [= <-].
  all: intros n Hn; by rewrite Hn in *.
Qed.

(** [new_checked] checks what [parse] checks again. *)
Lemma tcp_checked_parse data a b caps :
  (packet ←? Packet.new_checked data; Repr.parse packet a b caps) = Repr.parse data a b caps.
Proof.
  unfold Packet.new_checked. destruct (Packet.check_len data) as [[[]|e]|] eqn:Hc; cbn [try_bind]; [done| |];
    unfold Repr.parse; by rewrite Hc.
Qed.

(** Parsing a segment is total and safe on arbitrary bytes: for any buffer up
    to 131073 bytes and addresses of one family the parser returns (it does not
    panic and the loop over the options ends), and a segment it accepts has
    non-zero ports, a window scale of at most 14 and every field in range. *)
Theorem tcp_parse_total packet a b caps :
  bytes packet -> Z.of_nat (length packet) <= 131073 ->
  address_wf a -> address_wf b -> same_family a b ->
  exists res, Repr.parse packet a b caps = Ret res /\
    forall r, res = Ok r -> repr_wf r /\ src_port r <> 0 /\ dst_port r <> 0.
Proof.
  intros. destruct (tcp_parse_ok packet a b caps) as (res & Hres & Hok); try done.
  exists res. split; [done|]. intros r Hr. by destruct (Hok r Hr) as (? & ? & ? & _).
Qed.

(** [check_len] keeps its promise: when it accepts a buffer, no accessor of
    the packet panics. *)
Theorem check_len_protects_accessors data :
  bytes data -> Packet.check_len data = Ret (Ok ()) ->
  (exists n, Packet.src_port data = Ret n) /\ (exists n, Packet.dst_port data = Ret n) /\
  (exists n, Packet.seq_number data = Ret n) /\ (exists n, Packet.ack_number data = Ret n) /\
  (forall mask, exists b, Packet.flag mask data = Ret b) /\
  (exists n, Packet.window_len data = Ret n) /\ (exists n, Packet.checksum data = Ret n) /\
  (exists n, Packet.urgent_at data = Ret n) /\ (exists n, Packet.segment_len data = Ret n) /\
  (exists l, Packet.options data = Ret l) /\ (exists l, Packet.payload data = Ret l) /\
  (exists res, Packet.selective_ack_permitted data = Ret res) /\
  (exists res, Packet.selective_ack_ranges data = Ret res).
Proof.
  intros Hb Hcl. destruct (check_len_ok data Hb) as (res & Hres & Hc).
  rewrite Hcl in Hres. injection Hres as <-.
  destruct (Hc eq_refl) as (H20 & h & Hh & Hhr & _ & Hhl).
  assert (forall a, (a + 2 <= 20)%nat -> exists n, get_u16 a (a + 2) data = Ret n) as Hu16.
  { intros a Ha. destruct (get_u16_ok a (a + 2) data Hb ltac:(lia) eq_refl) as (n & -> & _).
    by eexists. }
  destruct (options_ok data h Hb Hh ltac:(lia) Hhl) as (opts & Hopts & Hob & _).
  destruct (payload_ok data h Hb Hh ltac:(lia) Hhl) as (pl & Hpl & _).
  split_and!; [apply (Hu16 0%nat); lia|apply (Hu16 2%nat); lia| | | |apply (Hu16 14%nat); lia
    |apply (Hu16 16%nat); lia|apply (Hu16 18%nat); lia| |by eexists|by eexists| |].
  - destruct (get_i32_ok 4 8 data Hb ltac:(lia) eq_refl) as (n & Hn & _). by exists n.
  - destruct (get_i32_ok 8 12 data Hb ltac:(lia) eq_refl) as (n & Hn & _). by exists n.
  - intros mask. apply flag_ok; [done|lia].
  - unfold Packet.segment_len. rewrite Hh. cbn [mbind outcome_bind]. unfold usub.
    rewrite (proj2 (Z.ltb_ge _ _)) by lia. cbn [mbind outcome_bind].
    unfold Packet.syn, Packet.fin.
    destruct (flag_ok FLG_SYN data Hb ltac:(lia)) as [? ->].
    destruct (flag_ok FLG_FIN data Hb ltac:(lia)) as [? ->]. by eexists.
  - unfold Packet.selective_ack_permitted. rewrite Hopts. cbn [mbind outcome_bind].
    by apply find_sack_permitted_ok.
  - unfold Packet.selective_ack_ranges. rewrite Hopts. cbn [mbind outcome_bind].
    by apply find_sack_ranges_ok.
Qed.
End Total.

(** ** Round trip of the options *)

Section OptionRoundtrip.
Context {BO : ByteOrder} {NE : NetworkEndian BO}.

(** The encoding of the options a segment is emitted with. *)
Definition range_bytes (p : Z * Z) : list Z := be32 p.1 ++ be32 p.2.

Definition option_bytes (o : TcpOption) : list Z :=
  match o with
  | EndOfList => [OPT_END]
  | NoOperation => [OPT_NOP]
  | MaxSegmentSize v => [OPT_MSS; 4] ++ be16 v
  | WindowScale v => [OPT_WS; 3; v]
  | SackPermitted => [OPT_SACKPERM; 2]
  | SackRange rs =>
      let l := TcpOption.present_ranges rs in
      [OPT_SACKRNG; Z.of_nat (length l * 8 + 2)] ++ concat (range_bytes <$> l)
  | UnknownOption k d => [k; Z.of_nat (2 + length d)] ++ d
  end.

(** The SACK ranges that are present come first. *)
Definition compact (rs : list (option (Z * Z))) : Prop :=
  exists l, rs = (Some <$> l) ++ replicate (3 - length l) None /\ (length l <= 3)%nat.

Lemma length_range_bytes l : length (concat (range_bytes <$> l)) = (length l * 8)%nat.
Proof. induction l as [|p l IH]; cbn; [done|]. rewrite IH. lia. Qed.

Lemma length_option_bytes o : length (option_bytes o) = TcpOption.buffer_len o.
Proof. destruct o; cbn; rewrite ?length_range_bytes; lia. Qed.

Lemma write_u16_at_ok pre x post v :
  0 <= v <= U16_MAX -> length x = 2%nat ->
  TcpOption.write_u16_at (length pre) v (pre ++ x ++ post) = Ret (pre ++ be16 v ++ post).
Proof.
  intros Hv Hx. unfold TcpOption.write_u16_at. rewrite range_Ret by (rewrite !length_app; lia).
  cbn [mbind outcome_bind]. unfold slice.
  rewrite drop_app_length, take_ge by (rewrite !length_app; lia).
  rewrite write_u16_be by (rewrite ?length_app; lia).
  rewrite drop_app_length' by done. cbn [mbind outcome_bind]. unfold splice.
  rewrite take_app_length. rewrite drop_ge; [by rewrite app_nil_r|].
  rewrite !length_app. cbn. lia.
Qed.

Lemma write_u32_at_ok pre x post v :
  0 <= v <= U32_MAX -> length x = 4%nat ->
  TcpOption.write_u32_at (length pre) v (pre ++ x ++ post) = Ret (pre ++ be32 v ++ post).
Proof.
  intros Hv Hx. unfold TcpOption.write_u32_at. rewrite range_Ret by (rewrite !length_app; lia).
  cbn [mbind outcome_bind]. unfold slice.
  rewrite drop_app_length, take_ge by (rewrite !length_app; lia).
  rewrite write_u32_be by (rewrite ?length_app; lia).
  rewrite drop_app_length' by done. cbn [mbind outcome_bind]. unfold splice.
  rewrite take_app_length. rewrite drop_ge; [by rewrite app_nil_r|].
  rewrite !length_app. cbn. lia.
Qed.

(** Split off the first bytes of a buffer. *)
Lemma split_buffer (n : nat) (l : list Z) :
  (n <= length l)%nat -> exists x post, l = x ++ post /\ length x = n.
Proof.
  intros. exists (take n l), (drop n l). rewrite take_drop, length_take. split; [done|lia].
Qed.

Lemma emit_ranges_ok i ranges pre post :
  Forall (fun p => range_wf (Some p)) ranges -> length pre = (i * 8 + 2)%nat ->
  (length ranges * 8 <= length post)%nat ->
  TcpOption.emit_ranges i ranges (pre ++ post) =
    Ret (pre ++ concat (range_bytes <$> ranges) ++ drop (length ranges * 8) post).
Proof.
  intros Hr. revert i pre post. induction Hr as [|[l r] ranges [Hl Hr] _ IH]; intros i pre post Hp Hlen.
  - done.
  - cbn [TcpOption.emit_ranges length] in *.
    destruct (split_buffer 4 post) as (x1 & post1 & -> & Hx1); [lia|].
    rewrite length_app in Hlen. destruct (split_buffer 4 post1) as (x2 & post2 & -> & Hx2); [lia|].
    rewrite length_app in Hlen.
    rewrite <-Hp, write_u32_at_ok by done. cbn [mbind outcome_bind].
    rewrite (app_assoc pre). replace (length pre + 4)%nat with (length (pre ++ be32 l))
      by (rewrite length_app; cbn; lia).
    rewrite write_u32_at_ok by done. cbn [mbind outcome_bind].
    rewrite (app_assoc (pre ++ be32 l)), IH; [|rewrite !length_app; cbn; lia|lia].
    cbn [fmap list_fmap concat]. unfold range_bytes at 2. cbn [fst snd].
    rewrite <-!app_assoc. do 4 f_equal.
    rewrite app_assoc, drop_app_ge by (rewrite length_app; lia).
    rewrite length_app. do 2 f_equal. lia.
Qed.

Lemma present_ranges_wf rs :
  Forall range_wf rs -> Forall (fun p => range_wf (Some p)) (TcpOption.present_ranges rs).
Proof.
  unfold TcpOption.present_ranges. induction 1 as [|[p|] rs Hp _ IH]; [constructor| |done].
  by constructor.
Qed.

Lemma length_present_ranges rs : (length (TcpOption.present_ranges rs) <= length rs)%nat.
Proof. unfold TcpOption.present_ranges. induction rs as [|[p|] rs IH]; cbn in *; lia. Qed.

(** Options that can be emitted into a longer buffer. *)
Definition emittable (o : TcpOption) : Prop :=
  match o with EndOfList | UnknownOption _ _ => False | _ => True end.

Lemma option_emit_ok o buffer :
  emittable o -> option_wf o -> (TcpOption.buffer_len o <= length buffer)%nat ->
  TcpOption.emit o buffer = Ret (option_bytes o, drop (TcpOption.buffer_len o) buffer).
Proof.
  intros He Ho Hl. destruct (split_buffer _ _ Hl) as (x & post & -> & Hx).
  assert (forall l (y : list Z), length y = TcpOption.buffer_len o -> l = TcpOption.buffer_len o ->
    (rest ← range (y ++ post) l (length (y ++ post)); Ret (take l (y ++ post), rest)) =
    Ret (y, drop (TcpOption.buffer_len o) (x ++ post))) as Hend.
  { intros l y Hy ->. rewrite range_Ret by (rewrite length_app; lia). cbn [mbind outcome_bind].
    unfold slice. rewrite take_app_length' by done. rewrite !drop_app_length' by done.
    rewrite take_ge; [done|]. rewrite length_app. lia. }
  destruct o as [| |v|v| |rs|k d]; try done; unfold TcpOption.emit; cbn [TcpOption.buffer_len] in *.
  - destruct x as [|b [|c x]]; try done. cbn [app].
    rewrite set_byte_ok by (cbn; lia). cbn [mbind outcome_bind]. apply (Hend 1%nat [OPT_NOP]); done.
  - destruct x as [|b0 [|b1 [|b2 [|b3 [|? x]]]]]; try done. cbn [app].
    rewrite !set_byte_ok by (cbn; lia). cbn [mbind outcome_bind].
    rewrite set_byte_ok by (cbn; lia). cbn [mbind outcome_bind insert list_insert].
    pose proof (write_u16_at_ok [OPT_MSS; 4] [b2; b3] post v Ho eq_refl) as Hw.
    cbn [app length] in Hw. change (wrap_u 8 (Z.of_nat 4)) with 4. rewrite Hw.
    cbn [mbind outcome_bind]. by apply (Hend 4%nat ([OPT_MSS; 4] ++ be16 v)).
  - destruct x as [|b0 [|b1 [|b2 [|? x]]]]; try done. cbn [app].
    rewrite set_byte_ok by (cbn; lia). cbn [mbind outcome_bind].
    rewrite set_byte_ok by (cbn; lia). cbn [mbind outcome_bind].
    rewrite set_byte_ok by (cbn; lia). cbn [mbind outcome_bind].
    by apply (Hend 3%nat [OPT_WS; 3; v]).
  - destruct x as [|b0 [|b1 [|? x]]]; try done. cbn [app].
    rewrite set_byte_ok by (cbn; lia). cbn [mbind outcome_bind].
    rewrite set_byte_ok by (cbn; lia). cbn [mbind outcome_bind].
    by apply (Hend 2%nat [OPT_SACKPERM; 2]).
  - destruct Ho as [Hlen Hr]. pose proof (length_present_ranges rs) as Hpl. rewrite Hlen in Hpl.
    destruct x as [|b0 [|b1 x]]; [cbn in Hx; lia..|]. cbn [app].
    rewrite set_byte_ok by (cbn; lia). cbn [mbind outcome_bind].
    rewrite set_byte_ok by (cbn; lia). cbn [mbind outcome_bind insert list_insert].
    set (n := length (TcpOption.present_ranges rs)) in *.
    unfold wrap_u. rewrite (Z.mod_small (Z.of_nat (n * 8 + 2))) by lia.
    pose proof (emit_ranges_ok 0 (TcpOption.present_ranges rs)
      [OPT_SACKRNG; Z.of_nat (n * 8 + 2)] (x ++ post)) as Her. cbn [app] in Her. cbn in Hx.
    cbn. rewrite Her; [|by apply present_ranges_wf|done|rewrite length_app; unfold n in *; lia].
    cbn [mbind outcome_bind]. rewrite drop_app_length' by (unfold n in *; lia).
    apply (Hend (n * 8 + 2)%nat ([OPT_SACKRNG; Z.of_nat (n * 8 + 2)] ++
      concat (range_bytes <$> TcpOption.present_ranges rs))); [|done].
    rewrite length_app, length_range_bytes. cbn. lia.
Qed.

Lemma sack_range_at_some i pre l r post :
  0 <= l <= U32_MAX -> 0 <= r <= U32_MAX -> length pre = (i * 8)%nat ->
  TcpOption.sack_range_at (pre ++ range_bytes (l, r) ++ post) i = Ret (Some (l, r)).
Proof.
  intros Hl Hr Hp. unfold TcpOption.sack_range_at, range_bytes. cbn [fst snd].
  rewrite (proj2 (Nat.ltb_lt _ _)) by (rewrite !length_app; cbn; lia).
  rewrite (range_Ret _ (i * 8)) by (rewrite ?length_app; cbn; lia). cbn [mbind outcome_bind].
  rewrite <-!app_assoc, slice_mid by (cbn; lia).
  rewrite <-(app_nil_r (be32 l)) at 1. rewrite read_be32 by done. cbn [mbind outcome_bind].
  rewrite range_Ret by (rewrite ?length_app; cbn; lia). cbn [mbind outcome_bind].
  rewrite (app_assoc pre), slice_mid by (rewrite ?length_app; cbn; lia).
  rewrite <-(app_nil_r (be32 r)) at 1. by rewrite read_be32.
Qed.

Lemma sack_range_at_none i data :
  (length data <= i * 8)%nat -> TcpOption.sack_range_at data i = Ret None.
Proof. intros. unfold TcpOption.sack_range_at. by rewrite (proj2 (Nat.ltb_ge _ _)). Qed.

(** Reading back the three ranges. *)
Lemma sack_ranges_decode l :
  (length l <= 3)%nat -> Forall (fun p => range_wf (Some p)) l ->
  forall i, (i < 3)%nat ->
  TcpOption.sack_range_at (concat (range_bytes <$> l)) i = Ret (l !! i).
Proof.
  intros Hl Hw i Hi. destruct (l !! i) as [[a b]|] eqn:Hli.
  - rewrite <-(take_drop_middle l i (a, b) Hli) at 1. rewrite fmap_app, concat_app.
    cbn [fmap list_fmap concat].
    pose proof (Forall_lookup_1 _ _ _ _ Hw Hli) as [??].
    apply sack_range_at_some; try done. rewrite length_range_bytes, length_take.
    apply lookup_lt_Some in Hli. lia.
  - apply sack_range_at_none. rewrite length_range_bytes. apply lookup_ge_None in Hli. lia.
Qed.

Lemma present_compact l k : TcpOption.present_ranges ((Some <$> l) ++ replicate k None) = l.
Proof.
  unfold TcpOption.present_ranges. rewrite omap_app.
  assert (omap id (replicate k (@None (Z * Z))) = []) as -> by (by induction k).
  rewrite app_nil_r. induction l; cbn; congruence.
Qed.

Lemma compact_list l :
  (length l <= 3)%nat ->
  (Some <$> l) ++ replicate (3 - length l) None = [l !! 0%nat; l !! 1%nat; l !! 2%nat]
    :> list (option (Z * Z)).
Proof. intros. destruct l as [|a [|b [|c [|d l]]]]; cbn in *; done || lia. Qed.

(** An option is parsed back from its encoding. *)
Definition parseable (o : TcpOption) : Prop :=
  match o with
  | MaxSegmentSize _ | WindowScale _ | SackPermitted => True
  | SackRange rs => compact rs /\ TcpOption.present_ranges rs <> []
  | _ => False
  end.

Lemma get_range_ok l start stop :
  (start <= stop)%nat -> (stop <= length l)%nat ->
  get_range l start stop = Some (slice l start (stop - start)).
Proof. intros. unfold get_range. by rewrite range_Ret. Qed.

(** Parsing an option of kind [k] and length [n], reduced to its data. *)
Lemma option_parse_frame k d rest o :
  byte k -> k <> OPT_END -> k <> OPT_NOP -> (length d <= 253)%nat ->
  TcpOption.parse_data k (2 + length d) d = Ret (Ok o) ->
  TcpOption.parse (k :: Z.of_nat (2 + length d) :: d ++ rest) = Ret (Ok (rest, o)).
Proof.
  intros Hk H0 H1 Hd Hp. unfold TcpOption.parse.
  rewrite (proj2 (Z.eqb_neq k OPT_END)), (proj2 (Z.eqb_neq k OPT_NOP)) by done.
  cbn [lookup list_lookup]. rewrite Nat2Z.id.
  rewrite get_range_ok by (cbn; rewrite ?length_app; lia).
  assert (slice (k :: Z.of_nat (2 + length d) :: d ++ rest) 2 (2 + length d - 2) = d) as ->.
  { change (k :: Z.of_nat (2 + length d) :: d ++ rest)
      with ([k; Z.of_nat (2 + length d)] ++ d ++ rest). apply slice_mid; [done|lia]. }
  rewrite Hp. cbn [try_bind]. rewrite range_Ret by (cbn; rewrite ?length_app; lia).
  cbn [mbind outcome_bind]. do 3 f_equal. unfold slice. cbn [Nat.add drop].
  rewrite drop_app_length, take_ge; [done|]. cbn. rewrite length_app. lia.
Qed.

Lemma option_parse_bytes o rest :
  parseable o -> option_wf o ->
  TcpOption.parse (option_bytes o ++ rest) = Ret (Ok (rest, o)).
Proof.
  intros Hp Ho. destruct o as [| |v|v| |rs|]; try done; cbn [option_bytes].
  - apply (option_parse_frame OPT_MSS (be16 v) rest); try done; [cbn; lia|].
    unfold TcpOption.parse_data. cbn -[read_u16 be16 OPT_MSS].
    pose proof (read_be16 v [] Ho) as Hr. rewrite app_nil_r in Hr.
    change (OPT_MSS =? OPT_MSS) with true. change (4 =? 4)%nat with true. cbn iota.
    by rewrite Hr.
  - by apply (option_parse_frame OPT_WS [v] rest); try done; cbn; lia.
  - by apply (option_parse_frame OPT_SACKPERM [] rest); try done; cbn; lia.
  - destruct Hp as [(l & -> & Hl) Hne]. rewrite present_compact in *. destruct Ho as [_ Hr].
    assert (Forall (fun p => range_wf (Some p)) l) as Hw.
    { apply Forall_app in Hr as [Hr _]. exact (proj1 (Forall_fmap _ _ _) Hr). }
    assert (0 < length l)%nat as Hpos by (destruct l; [done|cbn; lia]).
    assert (length l * 8 + 2 = 2 + length (concat (range_bytes <$> l)))%nat as ->
      by (rewrite length_range_bytes; lia).
    rewrite <-app_assoc. cbn [app]. rewrite compact_list by done.
    apply option_parse_frame; try done; [rewrite length_range_bytes; lia|].
    unfold TcpOption.parse_data. rewrite length_range_bytes.
    change (OPT_SACKRNG =? OPT_MSS) with false. change (OPT_SACKRNG =? OPT_WS) with false.
    change (OPT_SACKRNG =? OPT_SACKPERM) with false.
    change (OPT_SACKRNG =? OPT_SACKRNG) with true. cbn iota.
    replace (2 + length l * 8 - 2)%nat with (length l * 8)%nat by lia.
    rewrite Nat.Div0.mod_mul. rewrite (proj2 (Nat.ltb_ge _ _)) by lia. rewrite Nat.eqb_refl. cbn [orb negb].
    rewrite !sack_ranges_decode by (done || lia). done.
Qed.
End OptionRoundtrip.

(** ** The fixed header as a record of its fields *)

Record Hdr := mkHdr {
  h_src : list Z; h_dst : list Z; h_seq : list Z; h_ack : list Z;
  h_flags : list Z; h_window : list Z; h_checksum : list Z; h_urgent : list Z;
  h_rest : list Z
}.

#[export] Instance eta_Hdr : Settable Hdr := fun h =>
  mkHdr (h_src h) (h_dst h) (h_seq h) (h_ack h) (h_flags h) (h_window h) (h_checksum h)
    (h_urgent h) (h_rest h).

Definition assemble (h : Hdr) : list Z :=
  h_src h ++ h_dst h ++ h_seq h ++ h_ack h ++ h_flags h ++ h_window h ++ h_checksum h ++
  h_urgent h ++ h_rest h.

Record hdr_wf (h : Hdr) : Prop := {
  len_src : length (h_src h) = 2%nat; len_dst : length (h_dst h) = 2%nat;
  len_seq : length (h_seq h) = 4%nat; len_ack : length (h_ack h) = 4%nat;
  len_flags : length (h_flags h) = 2%nat; len_window : length (h_window h) = 2%nat;
  len_checksum : length (h_checksum h) = 2%nat; len_urgent : length (h_urgent h) = 2%nat;
  hdr_bytes : bytes (assemble h)
}.

(** Every field of the header is bytes. *)
Ltac hdr_fields H :=
  let Hb := fresh "Hb" in
  pose proof (hdr_bytes _ H) as Hb; unfold assemble, bytes in Hb;
  rewrite !Forall_app in Hb; destruct Hb as (? & ? & ? & ? & ? & ? & ? & ? & ?).

(** Group the fields before and after the one at an offset. *)
Ltac regroup := unfold assemble; rewrite ?app_assoc; rewrite <-?app_assoc.

Section Header.
Context {BO : ByteOrder} {NE : NetworkEndian BO}.
Implicit Types (h : Hdr).

Lemma put_i32_mid pre x post a b v :
  a = length pre -> length x = 4%nat -> b = (a + 4)%nat -> - 2147483648 <= v <= I32_MAX ->
  Packet.put_i32 a b v (pre ++ x ++ post) = Ret (pre ++ be32 (v mod 2 ^ 32) ++ post).
Proof.
  intros -> Hx -> Hv. unfold Packet.put_i32. rewrite range_Ret by (rewrite ?length_app; lia).
  cbn [mbind outcome_bind]. rewrite slice_mid by lia. rewrite write_i32_be by (done || lia).
  cbn [mbind outcome_bind]. rewrite drop_ge, app_nil_r by lia. unfold splice.
  rewrite take_app_length. do 3 f_equal. rewrite drop_app_ge by (cbn; lia).
  rewrite drop_app_length' by (cbn; lia). done.
Qed.

Lemma get_i32_mid pre x post a b :
  a = length pre -> length x = 4%nat -> b = (a + 4)%nat ->
  (d ← range (pre ++ x ++ post) a b; read_i32 d) = read_i32 x.
Proof.
  intros -> Hx ->. rewrite range_Ret by (rewrite ?length_app; lia).
  cbn [mbind outcome_bind]. by rewrite slice_mid by lia.
Qed.

(** The header as a prefix, a field and the rest. *)
Lemma at_src h : assemble h = [] ++ h_src h ++ (h_dst h ++ h_seq h ++ h_ack h ++ h_flags h ++
  h_window h ++ h_checksum h ++ h_urgent h ++ h_rest h).
Proof. done. Qed.
Lemma at_dst h : assemble h = h_src h ++ h_dst h ++ (h_seq h ++ h_ack h ++ h_flags h ++
  h_window h ++ h_checksum h ++ h_urgent h ++ h_rest h).
Proof. done. Qed.
Lemma at_seq h : assemble h = (h_src h ++ h_dst h) ++ h_seq h ++ (h_ack h ++ h_flags h ++
  h_window h ++ h_checksum h ++ h_urgent h ++ h_rest h).
Proof. unfold assemble. by rewrite <-!app_assoc. Qed.
Lemma at_ack h : assemble h = (h_src h ++ h_dst h ++ h_seq h) ++ h_ack h ++ (h_flags h ++
  h_window h ++ h_checksum h ++ h_urgent h ++ h_rest h).
Proof. unfold assemble. by rewrite <-!app_assoc. Qed.
Lemma at_flags h : assemble h = (h_src h ++ h_dst h ++ h_seq h ++ h_ack h) ++ h_flags h ++
  (h_window h ++ h_checksum h ++ h_urgent h ++ h_rest h).
Proof. unfold assemble. by rewrite <-!app_assoc. Qed.
Lemma at_window h : assemble h = (h_src h ++ h_dst h ++ h_seq h ++ h_ack h ++ h_flags h) ++
  h_window h ++ (h_checksum h ++ h_urgent h ++ h_rest h).
Proof. unfold assemble. by rewrite <-!app_assoc. Qed.
Lemma at_checksum h : assemble h = (h_src h ++ h_dst h ++ h_seq h ++ h_ack h ++ h_flags h ++
  h_window h) ++ h_checksum h ++ (h_urgent h ++ h_rest h).
Proof. unfold assemble. by rewrite <-!app_assoc. Qed.
Lemma at_urgent h : assemble h = (h_src h ++ h_dst h ++ h_seq h ++ h_ack h ++ h_flags h ++
  h_window h ++ h_checksum h) ++ h_urgent h ++ h_rest h.
Proof. unfold assemble. by rewrite <-!app_assoc. Qed.
Lemma at_rest h : assemble h = (h_src h ++ h_dst h ++ h_seq h ++ h_ack h ++ h_flags h ++
  h_window h ++ h_checksum h ++ h_urgent h) ++ h_rest h.
Proof. unfold assemble. by rewrite <-!app_assoc. Qed.

(** Lengths of the prefixes. *)
Ltac hdr_len H := destruct H as [? ? ? ? ? ? ? ? _]; rewrite ?length_app; cbn; lia.

Section Setters.
Context (h : Hdr) (Hh : hdr_wf h).

Lemma set_src v : 0 <= v <= U16_MAX ->
  Packet.set_src_port v (assemble h) = Ret (assemble (h <| h_src := be16 v |>)).
Proof. intros. rewrite at_src. apply put_u16_mid; try done. by destruct Hh. Qed.
Lemma set_dst v : 0 <= v <= U16_MAX ->
  Packet.set_dst_port v (assemble h) = Ret (assemble (h <| h_dst := be16 v |>)).
Proof.
  intros. rewrite !at_dst. apply put_u16_mid; try done; by destruct Hh.
Qed.
Lemma set_seq v : seq_range v ->
  Packet.set_seq_number v (assemble h) = Ret (assemble (h <| h_seq := be32 (v mod 2 ^ 32) |>)).
Proof. intros. rewrite !at_seq. apply put_i32_mid; try done; hdr_len Hh. Qed.
Lemma set_ack_num v : seq_range v ->
  Packet.set_ack_number v (assemble h) = Ret (assemble (h <| h_ack := be32 (v mod 2 ^ 32) |>)).
Proof. intros. rewrite !at_ack. apply put_i32_mid; try done; hdr_len Hh. Qed.
Lemma set_window v : 0 <= v <= U16_MAX ->
  Packet.set_window_len v (assemble h) = Ret (assemble (h <| h_window := be16 v |>)).
Proof. intros. rewrite !at_window. apply put_u16_mid; try done; hdr_len Hh. Qed.
Lemma set_check v : 0 <= v <= U16_MAX ->
  Packet.set_checksum v (assemble h) = Ret (assemble (h <| h_checksum := be16 v |>)).
Proof. intros. rewrite !at_checksum. apply put_u16_mid; try done; hdr_len Hh. Qed.
Lemma set_urgent v : 0 <= v <= U16_MAX ->
  Packet.set_urgent_at v (assemble h) = Ret (assemble (h <| h_urgent := be16 v |>)).
Proof. intros. rewrite !at_urgent. apply put_u16_mid; try done; hdr_len Hh. Qed.

Lemma get_flags : Packet.flags (assemble h) = read_u16 (h_flags h).
Proof. unfold Packet.flags. rewrite at_flags. apply get_u16_mid; hdr_len Hh. Qed.

Lemma update_flags_ok f raw : read_u16 (h_flags h) = Ret raw -> 0 <= f raw <= U16_MAX ->
  Packet.update_flags f (assemble h) = Ret (assemble (h <| h_flags := be16 (f raw) |>)).
Proof.
  intros Hr Hf. unfold Packet.update_flags. rewrite get_flags, Hr. cbn [mbind outcome_bind].
  rewrite !at_flags. apply put_u16_mid; try done; hdr_len Hh.
Qed.
End Setters.

(** Replacing fields by fields of the same length keeps the header well-formed. *)
Lemma hdr_wf_intro src dst seq ack flags window check urgent rest :
  bytes src -> bytes dst -> bytes seq -> bytes ack -> bytes flags -> bytes window ->
  bytes check -> bytes urgent -> bytes rest ->
  length src = 2%nat -> length dst = 2%nat -> length seq = 4%nat -> length ack = 4%nat ->
  length flags = 2%nat -> length window = 2%nat -> length check = 2%nat ->
  length urgent = 2%nat ->
  hdr_wf (mkHdr src dst seq ack flags window check urgent rest).
Proof.
  intros. split; try done. unfold assemble, bytes. rewrite !Forall_app. cbn. by split_and!.
Qed.

Definition control_bits (c : Control) : Z :=
  match c with
  | ControlNone => 0 | Psh => FLG_PSH | Syn => FLG_SYN | Fin => FLG_FIN | Rst => FLG_RST
  end.

(** The flags field of an emitted segment with a header of [4 * q] bytes. *)
Definition flags_word (q : Z) (c : Control) (ack : bool) : Z :=
  q * 4096 + control_bits c + (if ack then FLG_ACK else 0).

(** Case analysis on the header length, then computation. *)
Ltac each_length q :=
  let H := fresh in
  assert (q = 5 \/ q = 6 \/ q = 7 \/ q = 8 \/ q = 9 \/ q = 10 \/ q = 11 \/ q = 12 \/ q = 13 \/
          q = 14 \/ q = 15) as H by lia;
  destruct H as [->|[->|[->|[->|[->|[->|[->|[->|[->|[->| ->]]]]]]]]]].

Lemma flags_set_header_len raw q :
  0 <= raw <= U16_MAX -> 5 <= q <= 15 ->
  let f := Z.lor (Z.land raw (not16 0xf000)) (wrap_u 16 (Z.shiftl (wrap_u 8 (4 * q) / 4) 12)) in
  0 <= f <= U16_MAX /\ Z.land f (not16 0x0fff) = q * 4096.
Proof.
  intros Hr Hq f. split.
  - split; [apply Z.lor_nonneg; split; [apply Z.land_nonneg; lia|each_length q; done]|].
    apply Z.lt_succ_r. change (Z.succ U16_MAX) with (2 ^ 16).
    destruct (Z.eq_dec f 0) as [->|Hf]; [lia|].
    assert (0 < f).
    { assert (0 <= f); [|lia]. apply Z.lor_nonneg; split; [apply Z.land_nonneg; lia|].
      each_length q; done. }
    apply Z.log2_lt_pow2; [done|]. unfold f. rewrite Z.log2_lor.
    + apply Z.max_lub_lt; [|each_length q; done].
      apply Z.le_lt_trans with (Z.log2 (not16 0xf000)); [|done].
      etrans; [apply Z.log2_land; lia || done|]. lia.
    + apply Z.land_nonneg. lia.
    + each_length q; done.
  - unfold f. rewrite Z.land_lor_distr_l, <-Z.land_assoc.
    change (Z.land (not16 0xf000) (not16 0x0fff)) with 0. rewrite Z.land_0_r, Z.lor_0_l.
    each_length q; done.
Qed.

Lemma flags_word_facts q c (ack : bool) :
  5 <= q <= 15 ->
  let f := flags_word q c ack in
  0 <= f <= U16_MAX /\ wrap_u 8 (Z.shiftr f 12 * 4) = 4 * q /\
  negb (Z.land f FLG_SYN =? 0) = bool_decide (c = Syn) /\
  negb (Z.land f FLG_FIN =? 0) = bool_decide (c = Fin) /\
  negb (Z.land f FLG_RST =? 0) = bool_decide (c = Rst) /\
  negb (Z.land f FLG_PSH =? 0) = bool_decide (c = Psh) /\
  negb (Z.land f FLG_ACK =? 0) = ack.
Proof.
  intros Hq f. subst f. each_length q; destruct c, ack; vm_compute; split_and!; done.
Qed.

(** The last two steps of the flags: the control flag and ACK. *)
Lemma flags_control_ack q c (ack : bool) :
  5 <= q <= 15 ->
  let f1 := match c with ControlNone => q * 4096 | _ => Z.lor (q * 4096) (control_bits c) end in
  0 <= f1 <= U16_MAX /\
  (if ack then Z.lor f1 FLG_ACK else Z.land f1 (not16 FLG_ACK)) = flags_word q c ack.
Proof.
  intros Hq f1. subst f1. each_length q; destruct c, ack; vm_compute; split_and!; done.
Qed.

Definition header_of (r : TcpRepr) (q : Z) (check urgent rest : list Z) : Hdr :=
  mkHdr (be16 (src_port r)) (be16 (dst_port r)) (be32 (seq_number r mod 2 ^ 32))
    (be32 (default 0 (ack_number r) mod 2 ^ 32))
    (be16 (flags_word q (control r) (bool_decide (is_Some (ack_number r)))))
    (be16 (window_len r)) check urgent rest.

Lemma ack_default_range r : repr_wf r -> seq_range (default 0 (ack_number r)).
Proof.
  intros Hr. destruct (ack_number r) as [n|] eqn:Hn; cbn; [by apply (wf_ack r)|].
  unfold seq_range. lia.
Qed.

Lemma be32_mod_bytes n : bytes (be32 (n mod 2 ^ 32)).
Proof. apply be32_bytes. pose proof (Z.mod_pos_bound n (2 ^ 32)). lia. Qed.

Lemma tcp_header_of_wf r q check urgent rest :
  repr_wf r -> 5 <= q <= 15 -> length check = 2%nat -> length urgent = 2%nat ->
  bytes check -> bytes urgent -> bytes rest -> hdr_wf (header_of r q check urgent rest).
Proof.
  intros [? ? ? ? ? ? ? ? ? ?] Hq ? ? ? ? ?. apply hdr_wf_intro; try done;
    try (by apply be16_bytes); try apply be32_mod_bytes.
  apply be16_bytes. by apply flags_word_facts.
Qed.

Lemma read_be16_field v : 0 <= v <= U16_MAX -> read_u16 (be16 v) = Ret v.
Proof. intros. rewrite <-(app_nil_r (be16 v)). by apply read_be16. Qed.

(** Solve the well-formedness of a header with some fields replaced. *)
Ltac hdr_solve :=
  apply hdr_wf_intro; cbn; try done; first [by apply be16_bytes | apply be32_mod_bytes].

(** The fields before the flags. *)
Definition with_fields (r : TcpRepr) (h : Hdr) : Hdr :=
  mkHdr (be16 (src_port r)) (be16 (dst_port r)) (be32 (seq_number r mod 2 ^ 32))
    (be32 (default 0 (ack_number r) mod 2 ^ 32)) (h_flags h) (be16 (window_len r))
    (h_checksum h) (h_urgent h) (h_rest h).

Lemma with_fields_wf r h : repr_wf r -> hdr_wf h -> hdr_wf (with_fields r h).
Proof.
  intros Hr Hh. pose proof Hh as [? ? ? ? ? ? ? ? _]. hdr_fields Hh. destruct Hr.
  destruct h. cbn in *. hdr_solve.
Qed.

Lemma emit_fields_ok r h (k : list Z -> outcome (list Z)) :
  repr_wf r -> hdr_wf h ->
  (packet ← Packet.set_src_port (src_port r) (assemble h);
   packet ← Packet.set_dst_port (dst_port r) packet;
   packet ← Packet.set_seq_number (seq_number r) packet;
   packet ← Packet.set_ack_number (default 0 (ack_number r)) packet;
   packet ← Packet.set_window_len (window_len r) packet;
   k packet) = k (assemble (with_fields r h)).
Proof.
  intros Hr Hh. pose proof (ack_default_range r Hr) as Hack.
  pose proof Hh as [? ? ? ? ? ? ? ? _]. hdr_fields Hh. destruct Hr as [Hsp Hdp Hsn _ Hwin _ _ _ _ _].
  destruct h as [src dst seq ack flags window check urgent rest].
  cbn [h_src h_dst h_seq h_ack h_flags h_window h_checksum h_urgent h_rest] in *.
  rewrite set_src by done. cbn [mbind outcome_bind].
  rewrite set_dst by (done || hdr_solve). cbn [mbind outcome_bind].
  rewrite set_seq by (done || hdr_solve). cbn [mbind outcome_bind].
  rewrite set_ack_num by (done || hdr_solve). cbn [mbind outcome_bind].
  rewrite set_window by (done || hdr_solve). done.
Qed.

Lemma set_flags_wf h fl :
  hdr_wf h -> 0 <= fl <= U16_MAX -> hdr_wf (h <| h_flags := be16 fl |>).
Proof.
  intros Hh Hf. pose proof Hh as [? ? ? ? ? ? ? ? _]. hdr_fields Hh. destruct h. cbn in *. hdr_solve.
Qed.

(** One more step on a flags field that is known. *)
Lemma update_flags_known h fl f :
  hdr_wf h -> 0 <= fl <= U16_MAX -> 0 <= f fl <= U16_MAX ->
  Packet.update_flags f (assemble (h <| h_flags := be16 fl |>)) =
    Ret (assemble (h <| h_flags := be16 (f fl) |>)).
Proof.
  intros Hh Hfl Hf. by rewrite (update_flags_ok _ (set_flags_wf h fl Hh Hfl) f fl (read_be16_field fl Hfl) Hf).
Qed.

Lemma emit_control_ok h q c :
  hdr_wf h -> 5 <= q <= 15 ->
  Repr.emit_control c (assemble (h <| h_flags := be16 (q * 4096) |>)) =
    Ret (assemble (h <| h_flags := be16 (match c with ControlNone => q * 4096
                                         | _ => Z.lor (q * 4096) (control_bits c) end) |>)).
Proof.
  intros Hh Hq. destruct (flags_control_ack q c true Hq) as [Hf _].
  unfold Repr.emit_control, Packet.set_psh, Packet.set_syn, Packet.set_fin, Packet.set_rst,
    Packet.set_flag.
  destruct c; [done|..]; (rewrite update_flags_known; [done|done|lia|exact Hf]).
Qed.

Lemma emit_header_ok r h q :
  repr_wf r -> hdr_wf h -> 5 <= q <= 15 -> Z.of_nat (Repr.header_len r) = 4 * q ->
  Repr.emit_header r (assemble h) =
    Ret (assemble (header_of r q (h_checksum h) (h_urgent h) (h_rest h))).
Proof.
  intros Hr Hh Hq Hlen. unfold Repr.emit_header. rewrite emit_fields_ok by done.
  pose proof (with_fields_wf r h Hr Hh) as Hw. pose proof (len_flags _ Hw) as Hlf.
  assert (bytes (h_flags (with_fields r h))) as Hfb by (hdr_fields Hw; done).
  destruct (read_u16_bytes _ Hfb ltac:(lia)) as (raw & Hraw & Hrr).
  destruct (flags_set_header_len raw q Hrr Hq) as [Hf1 Hf2].
  destruct (flags_control_ack q (control r) (bool_decide (is_Some (ack_number r))) Hq) as [Hf3 Hf4].
  destruct (flags_word_facts q (control r) (bool_decide (is_Some (ack_number r))) Hq) as [Hf5 _].
  unfold Packet.set_header_len, Packet.clear_flags, Packet.set_ack, Packet.set_flag. rewrite Hlen.
  rewrite (update_flags_ok _ Hw _ raw) by done. cbn [mbind outcome_bind].
  rewrite update_flags_known by (done || rewrite Hf2; lia). cbn [mbind outcome_bind]. rewrite Hf2.
  rewrite emit_control_ok by done. cbn [mbind outcome_bind].
  rewrite update_flags_known; [|done|done|cbn beta; rewrite Hf4; done].
  cbn beta. rewrite Hf4. done.
Qed.
Lemma set_checksum_wf h v :
  hdr_wf h -> 0 <= v <= U16_MAX -> hdr_wf (h <| h_checksum := be16 v |>).
Proof.
  intros Hh Hv. pose proof Hh as [? ? ? ? ? ? ? ? _]. hdr_fields Hh. destruct h. cbn in *. hdr_solve.
Qed.

Lemma set_urgent_wf h v :
  hdr_wf h -> 0 <= v <= U16_MAX -> hdr_wf (h <| h_urgent := be16 v |>).
Proof.
  intros Hh Hv. pose proof Hh as [? ? ? ? ? ? ? ? _]. hdr_fields Hh. destruct h. cbn in *. hdr_solve.
Qed.

Lemma set_rest_wf h l : hdr_wf h -> bytes l -> hdr_wf (h <| h_rest := l |>).
Proof.
  intros Hh Hl. pose proof Hh as [? ? ? ? ? ? ? ? _]. hdr_fields Hh. destruct h. cbn in *.
  by apply hdr_wf_intro.
Qed.
End Header.

(** ** Round trip of a segment *)

Section SegmentRoundtrip.
Context {BO : ByteOrder} {NE : NetworkEndian BO}.
Implicit Types (r : TcpRepr).

(** The representations the emitter does not lose information about: SACK
    ranges are only sent with an acknowledgement and without "SACK permitted",
    the present ones first. *)
Record roundtrip_ok r : Prop := {
  rt_wf : repr_wf r;
  rt_src : src_port r <> 0;
  rt_dst : dst_port r <> 0;
  rt_compact : compact (sack_ranges r);
  rt_sack : sack_permitted r = true \/ ack_number r = None ->
    sack_ranges r = [None; None; None]
}.

Definition sack_option r : list TcpOption :=
  if sack_permitted r then [SackPermitted]
  else match TcpOption.present_ranges (sack_ranges r) with
       | [] => []
       | _ => [SackRange (sack_ranges r)]
       end.

Definition repr_options r : list TcpOption :=
  match max_seg_size r with Some v => [MaxSegmentSize v] | None => [] end ++
  match window_scale r with Some v => [WindowScale v] | None => [] end ++ sack_option r.

Definition options_len (os : list TcpOption) : nat := sum_list (TcpOption.buffer_len <$> os).

(** The header length is the length of the options, rounded up. *)
Lemma header_len_options r :
  roundtrip_ok r -> exists q, 5 <= q <= 15 /\ Z.of_nat (Repr.header_len r) = 4 * q /\
    (20 + options_len (repr_options r) <= Repr.header_len r)%nat.
Proof.
  intros Hr. destruct (rt_compact r Hr) as (l & Hl & Hlen). pose proof (rt_sack r Hr) as Hs.
  unfold Repr.header_len, Repr.sack_range_len, options_len, repr_options, sack_option.
  rewrite Hl in *. rewrite present_compact. clear Hr.
  destruct l as [|a [|b [|c [|d l]]]]; [| | | |cbn in Hlen; lia];
    destruct (max_seg_size r), (window_scale r), (sack_permitted r);
    cbn in Hs; try (by specialize (Hs (or_introl eq_refl)));
    match goal with |- exists q, _ /\ Z.of_nat ?h = _ /\ _ =>
      let n := eval vm_compute in h in let m := eval vm_compute in (Z.of_nat h / 4) in
      exists m; change h with n end; cbn; lia.
Qed.

Lemma repr_options_ok r :
  roundtrip_ok r -> Forall (fun o => parseable o /\ option_wf o /\ emittable o) (repr_options r).
Proof.
  intros [[? ? ? ? ? Hws Hmss Hsl Hs ?] _ _ Hc Hp]. unfold repr_options, sack_option.
  rewrite !Forall_app. split_and!.
  - destruct (max_seg_size r) as [v|]; [|done]. specialize (Hmss v eq_refl). by apply Forall_singleton.
  - destruct (window_scale r) as [v|]; [|done]. specialize (Hws v eq_refl).
    constructor; [|done]. split_and!; try done. unfold option_wf, byte. lia.
  - destruct (sack_permitted r); [by apply Forall_singleton|].
    destruct (TcpOption.present_ranges (sack_ranges r)) eqn:He; [done|].
    apply Forall_singleton. split_and!; [|done|done]. split; [done|]. by rewrite He.
Qed.

Lemma length_options_bytes os :
  length (concat (option_bytes <$> os)) = options_len os.
Proof.
  unfold options_len. induction os as [|o os IH]; cbn; [done|].
  by rewrite length_app, length_option_bytes, IH.
Qed.

Lemma emit_step_ok o written rest :
  emittable o -> option_wf o -> (TcpOption.buffer_len o <= length rest)%nat ->
  Repr.emit_step o (written, rest) =
    Ret (written ++ option_bytes o, drop (TcpOption.buffer_len o) rest).
Proof. intros. unfold Repr.emit_step. cbn [fst snd]. by rewrite option_emit_ok. Qed.

(** Emitting a list of options one after the other. *)
Fixpoint emit_steps (os : list TcpOption) (area : list Z * list Z) : outcome (list Z * list Z) :=
  match os with
  | [] => Ret area
  | o :: os => area ← Repr.emit_step o area; emit_steps os area
  end.

Lemma emit_steps_ok os written rest :
  Forall (fun o => parseable o /\ option_wf o /\ emittable o) os ->
  (options_len os <= length rest)%nat ->
  emit_steps os (written, rest) =
    Ret (written ++ concat (option_bytes <$> os), drop (options_len os) rest).
Proof.
  intros Hos. revert written rest. induction Hos as [|o os (_ & Hw & He) _ IH]; intros written rest Hl.
  - cbn. by rewrite app_nil_r.
  - unfold options_len in *. cbn in Hl |- *. rewrite emit_step_ok by (done || lia).
    cbn [mbind outcome_bind]. rewrite IH by (rewrite length_drop; lia).
    by rewrite <-app_assoc, drop_drop.
Qed.

Lemma emit_steps_app os1 os2 area :
  emit_steps (os1 ++ os2) area = (area ← emit_steps os1 area; emit_steps os2 area).
Proof.
  revert area. induction os1 as [|o os1 IH]; intros area; [done|]. cbn.
  destruct (Repr.emit_step o area); [|done]. cbn. apply IH.
Qed.

Lemma emit_steps_one o area : emit_steps [o] area = Repr.emit_step o area.
Proof. cbn [emit_steps]. by destruct (Repr.emit_step o area). Qed.

Lemma emit_steps_opt (o : option Z) (f : Z -> TcpOption) area :
  match o with Some v => Repr.emit_step (f v) area | None => Ret area end =
  emit_steps (match o with Some v => [f v] | None => [] end) area.
Proof. destruct o; [by rewrite emit_steps_one|done]. Qed.

Lemma any_range r :
  existsb (fun s => bool_decide (is_Some s)) (sack_ranges r) =
    match TcpOption.present_ranges (sack_ranges r) with [] => false | _ => true end.
Proof.
  unfold TcpOption.present_ranges. induction (sack_ranges r) as [|[p|] l IH]; cbn; done.
Qed.

Lemma emit_options_steps r options :
  roundtrip_ok r ->
  Repr.emit_options r options =
    (area ← emit_steps (repr_options r) ([], options);
     area ← match area.2 with [] => Ret area | _ => Repr.emit_step EndOfList area end;
     Ret (area.1 ++ area.2)).
Proof.
  intros Hr. unfold Repr.emit_options, repr_options. rewrite !emit_steps_app.
  assert (forall area, (if sack_permitted r then Repr.emit_step SackPermitted area
    else if bool_decide (is_Some (ack_number r)) &&
            existsb (fun s => bool_decide (is_Some s)) (sack_ranges r)
         then Repr.emit_step (SackRange (sack_ranges r)) area else Ret area)
    = emit_steps (sack_option r) area) as Hsack.
  { intros area. rewrite any_range. unfold sack_option. pose proof (rt_sack r Hr) as Hs.
    destruct (sack_permitted r); [by rewrite emit_steps_one|].
    destruct (TcpOption.present_ranges (sack_ranges r)) eqn:He; [by rewrite andb_false_r|].
    destruct (ack_number r) as [n|]; [by rewrite emit_steps_one|].
    rewrite Hs in He by (by right). done. }
  rewrite emit_steps_opt. destruct (emit_steps _ _) as [area|]; [|done]. cbn [mbind outcome_bind].
  rewrite emit_steps_opt, emit_steps_app. destruct (emit_steps _ area) as [area'|]; [|done].
  cbn [mbind outcome_bind]. by rewrite Hsack.
Qed.

Lemma emit_options_ok r options :
  roundtrip_ok r -> length options = (Repr.header_len r - 20)%nat ->
  Repr.emit_options r options =
    Ret (concat (option_bytes <$> repr_options r) ++
         replicate (length options - options_len (repr_options r)) OPT_END).
Proof.
  intros Hr Hl. destruct (header_len_options r Hr) as (q & Hq & Hhl & Hle).
  rewrite emit_options_steps, emit_steps_ok by (done || lia || by apply repr_options_ok).
  cbn [mbind outcome_bind fst snd app].
  remember (drop (options_len (repr_options r)) options) as rest eqn:Hrest.
  assert (length rest = (length options - options_len (repr_options r))%nat) as Hlr
    by (rewrite Hrest, length_drop; lia).
  rewrite <-Hlr. destruct rest as [|b rest]; [done|].
  unfold Repr.emit_step, TcpOption.emit. cbn [fst snd mbind outcome_bind].
  rewrite range_Ret by (rewrite ?length_replicate; cbn; lia). cbn [mbind outcome_bind].
  cbn [fst snd]. rewrite <-app_assoc. do 2 f_equal. unfold slice. rewrite length_replicate.
  rewrite (take_ge (drop _ _)) by (rewrite length_drop, length_replicate; lia).
  apply take_drop.
Qed.

(** Parsing them back. *)
Lemma parse_options_bytes os k fuel c :
  Forall (fun o => parseable o /\ option_wf o /\ emittable o) os ->
  (length (concat (option_bytes <$> os) ++ replicate k OPT_END) <= fuel)%nat ->
  Repr.parse_options fuel (concat (option_bytes <$> os) ++ replicate k OPT_END) c =
    Ret (Ok (foldl (fun c o => Repr.collect o c) c os)).
Proof.
  intros Hos. revert fuel c. induction Hos as [|o os (Hp & Hw & He) _ IH]; intros fuel c Hf.
  - cbn in *. rewrite length_replicate in Hf. destruct fuel as [|fuel], k as [|k]; try done; try lia.
    cbn [replicate Repr.parse_options]. unfold TcpOption.parse.
    rewrite Z.eqb_refl. cbn [try_bind]. rewrite range_Ret by (cbn; lia). cbn. done.
  - cbn [fmap list_fmap concat foldl]. cbn [fmap list_fmap concat] in Hf.
    rewrite <-app_assoc in *. rewrite length_app, length_option_bytes in Hf.
    assert (0 < TcpOption.buffer_len o)%nat by (destruct o; cbn; lia).
    destruct fuel as [|fuel]; [lia|].
    assert (option_bytes o <> []) as Hne by (destruct o; done).
    destruct (option_bytes o ++ _) as [|b l] eqn:Hl; [by apply app_nil in Hl as [??]|].
    cbn [Repr.parse_options]. rewrite <-Hl, option_parse_bytes by done. cbn [try_bind].
    rewrite decide_False by (by intros ->). apply IH. lia.
Qed.

Lemma collect_repr r :
  roundtrip_ok r ->
  foldl (fun c o => Repr.collect o c) (Repr.mkCollected None None false [None; None; None])
    (repr_options r) =
  Repr.mkCollected (max_seg_size r) (window_scale r) (sack_permitted r) (sack_ranges r).
Proof.
  intros [[? ? ? ? ? Hws Hmss Hsl Hs ?] _ _ (l & Hl & Hlen) Hp].
  assert (forall v, window_scale r = Some v -> (if 14 <? v then 14 else v) = v) as H14.
  { intros v Hv. specialize (Hws v Hv). decide_tests; lia. }
  unfold repr_options, sack_option. rewrite Hl in *. rewrite present_compact.
  destruct (sack_permitted r) eqn:Hsp.
  - rewrite Hp by (by left).
    destruct (max_seg_size r), (window_scale r) as [w|]; cbn; rewrite ?(H14 w eq_refl); done.
  - destruct l as [|p l]; cbn [app];
    destruct (max_seg_size r), (window_scale r) as [w|]; cbn; rewrite ?(H14 w eq_refl); done.
Qed.

(** *** The checksum of an emitted segment *)

Lemma word_sum_checksum h v :
  hdr_wf h -> 0 <= v <= U16_MAX ->
  word_sum (assemble (h <| h_checksum := be16 v |>)) =
    word_sum (assemble (h <| h_checksum := be16 0 |>)) + v.
Proof.
  intros [? ? ? ? ? ? ? ? _] Hv. rewrite !at_checksum. cbn [set_field h_src h_dst h_seq h_ack
    h_flags h_window h_checksum h_urgent h_rest].
  set (pre := h_src h ++ _). set (post := h_urgent h ++ _).
  assert (Nat.Even (length pre)) as He
    by (exists 8%nat; unfold pre; rewrite !length_app; lia).
  rewrite !(word_sum_app pre) by done.
  rewrite !(word_sum_app (be16 _) post) by (by exists 1%nat).
  assert (word_sum (be16 v) = v) as ->.
  { unfold be16. cbn. pose proof (Z.div_mod v 256). lia. }
  change (word_sum (be16 0)) with 0. lia.
Qed.

Lemma length_set_checksum h v :
  hdr_wf h -> length (assemble (h <| h_checksum := be16 v |>)) = length (assemble h).
Proof.
  intros [? ? ? ? ? ? ? ? _]. unfold assemble. cbn [set_field h_src h_dst h_seq h_ack h_flags
    h_window h_checksum h_urgent h_rest]. rewrite !length_app. cbn. lia.
Qed.

(** The checksum that [fill_checksum] writes is one that [verify_checksum]
    accepts. *)
Lemma fill_checksum_ok h a b :
  hdr_wf h -> Z.of_nat (length (assemble h)) <= 131073 ->
  address_wf a -> address_wf b -> same_family a b ->
  exists v, 0 <= v <= U16_MAX /\
    Packet.fill_checksum a b (assemble h) = Ret (assemble (h <| h_checksum := be16 v |>)) /\
    Packet.verify_checksum (assemble (h <| h_checksum := be16 v |>)) a b = Ret true.
Proof.
  intros Hh Hl Ha Hb Hf. unfold Packet.fill_checksum. rewrite set_check by (done || lia).
  cbn [mbind outcome_bind]. pose proof (set_checksum_wf h 0 Hh ltac:(lia)) as Hh0.
  destruct (pseudo_header_total a b Protocol.Tcp (wrap_u 32 (Z.of_nat (length (assemble h)))) Ha Hb Hf)
    as (p & Hp & Hpr); [unfold byte; cbn; lia|].
  assert (forall v, 0 <= v <= U16_MAX ->
    Packet.packet_checksum (assemble (h <| h_checksum := be16 v |>)) a b =
      Ret (fold16 (p + (word_sum (assemble (h <| h_checksum := be16 0 |>)) + v)))) as Hc.
  { intros v Hv. unfold Packet.packet_checksum. rewrite length_set_checksum, Hp by done.
    cbn [mbind outcome_bind]. pose proof (hdr_bytes _ (set_checksum_wf h v Hh Hv)) as Hbv.
    pose proof (word_sum_bound _ Hbv) as Hwb. pose proof (word_sum_pos _ Hbv) as Hwp.
    rewrite length_set_checksum in Hwb by done.
    rewrite checksum_data_spec by (done || lia). cbn [mbind outcome_bind].
    rewrite combine_spec2 by (done || by apply fold16_range).
    rewrite fold16_add by lia. by rewrite word_sum_checksum. }
  pose proof (word_sum_pos _ (hdr_bytes _ Hh0)) as Hw0.
  rewrite (Hc 0) by lia. cbn [mbind outcome_bind]. rewrite Z.add_0_r.
  set (x := p + word_sum (assemble (h <| h_checksum := be16 0 |>))) in *.
  pose proof (fold16_range x ltac:(lia)) as Hx.
  exists (not16 (fold16 x)). unfold not16. split; [lia|]. split.
  - rewrite (set_check _ Hh0) by lia. done.
  - unfold Packet.verify_checksum. rewrite Hc by lia. cbn [mbind outcome_bind].
    replace (p + (_ + _)) with (x + (65535 - fold16 x)) by (unfold x; lia).
    by rewrite fold16_complement by lia.
Qed.

(** *** The accessors on an assembled header *)

Section Getters.
Context (h : Hdr) (Hh : hdr_wf h).

Ltac hdr_len' := destruct Hh as [? ? ? ? ? ? ? ? _]; rewrite ?length_app; cbn; lia.

Lemma get_src : Packet.src_port (assemble h) = read_u16 (h_src h).
Proof. rewrite at_src. apply get_u16_mid; by destruct Hh. Qed.
Lemma get_dst : Packet.dst_port (assemble h) = read_u16 (h_dst h).
Proof. rewrite at_dst. apply get_u16_mid; by destruct Hh. Qed.
Lemma get_seq : Packet.seq_number (assemble h) = read_i32 (h_seq h).
Proof. rewrite at_seq. apply get_i32_mid; hdr_len'. Qed.
Lemma get_ack : Packet.ack_number (assemble h) = read_i32 (h_ack h).
Proof. rewrite at_ack. apply get_i32_mid; hdr_len'. Qed.
Lemma get_window : Packet.window_len (assemble h) = read_u16 (h_window h).
Proof. rewrite at_window. apply get_u16_mid; hdr_len'. Qed.

Lemma length_assemble : length (assemble h) = (20 + length (h_rest h))%nat.
Proof. rewrite at_rest. hdr_len'. Qed.

Lemma slice_rest start n :
  (20 <= start)%nat -> slice (assemble h) start n = slice (h_rest h) (start - 20) n.
Proof.
  intros Hs. rewrite at_rest. unfold slice.
  assert (forall l : list Z, length l = 20%nat -> drop start (l ++ h_rest h) = drop (start - 20) (h_rest h))
    as Hd by (intros l Hl; rewrite drop_app_ge, Hl by lia; done).
  rewrite Hd; [done|]. hdr_len'.
Qed.
End Getters.

(** *** Emitting *)

Lemma disassemble packet :
  bytes packet -> (20 <= length packet)%nat ->
  exists h, packet = assemble h /\ hdr_wf h /\ length (h_rest h) = (length packet - 20)%nat.
Proof.
  intros Hb Hl.
  destruct (split_buffer 2 packet) as (src & p1 & -> & ?); [lia|]. rewrite length_app in Hl.
  destruct (split_buffer 2 p1) as (dst & p2 & -> & ?); [lia|]. rewrite length_app in Hl.
  destruct (split_buffer 4 p2) as (seq & p3 & -> & ?); [lia|]. rewrite length_app in Hl.
  destruct (split_buffer 4 p3) as (ack & p4 & -> & ?); [lia|]. rewrite length_app in Hl.
  destruct (split_buffer 2 p4) as (flags & p5 & -> & ?); [lia|]. rewrite length_app in Hl.
  destruct (split_buffer 2 p5) as (win & p6 & -> & ?); [lia|]. rewrite length_app in Hl.
  destruct (split_buffer 2 p6) as (check & p7 & -> & ?); [lia|]. rewrite length_app in Hl.
  destruct (split_buffer 2 p7) as (urgent & rest & -> & ?); [lia|].
  exists (mkHdr src dst seq ack flags win check urgent rest). split; [done|]. split; [by split|].
  cbn. rewrite !length_app. lia.
Qed.

Definition option_area r : list Z :=
  concat (option_bytes <$> repr_options r) ++
  replicate (Repr.header_len r - 20 - options_len (repr_options r)) OPT_END.

Definition emitted r (q v : Z) : Hdr :=
  header_of r q (be16 v) (be16 0) (option_area r ++ payload r).

Lemma length_option_area r :
  roundtrip_ok r -> length (option_area r) = (Repr.header_len r - 20)%nat.
Proof.
  intros Hr. destruct (header_len_options r Hr) as (q & _ & _ & Hle). unfold option_area.
  rewrite length_app, length_options_bytes, length_replicate. lia.
Qed.

Ltac byte_const := solve [split; vm_compute; discriminate].

Lemma option_area_bytes r : roundtrip_ok r -> bytes (option_area r).
Proof.
  intros Hr. unfold option_area, bytes. apply Forall_app. split; [|by apply Forall_replicate].
  pose proof (repr_options_ok r Hr) as Hos.
  induction Hos as [|o os (Hp & Hw & _) _ IH]; [constructor|]. cbn. apply Forall_app. split; [|done].
  destruct o as [| |v|v| |rs|]; try done; cbn -[be16].
  - do 2 (constructor; [byte_const|]). by apply be16_bytes.
  - do 2 (constructor; [byte_const|]). by apply Forall_singleton.
  - by do 2 (constructor; [byte_const|]).
  - destruct Hw as [Hl Hr']. pose proof (length_present_ranges rs) as Hpl. rewrite Hl in Hpl.
    constructor; [byte_const|]. constructor; [unfold byte; lia|].
    pose proof (present_ranges_wf rs Hr') as Hpw.
    induction Hpw as [|[x y] l [Hx Hy] _ IHl]; [constructor|]. cbn [fmap list_fmap concat].
    apply Forall_app; split; [apply Forall_app; split; by apply be32_bytes|].
    apply IHl. cbn in Hpl. lia.
Qed.

Lemma header_len_assemble h f :
  hdr_wf h -> 0 <= f <= U16_MAX -> h_flags h = be16 f ->
  Packet.header_len (assemble h) = Ret (wrap_u 8 (Z.shiftr f 12 * 4)).
Proof.
  intros Hh Hf He. unfold Packet.header_len. rewrite get_flags, He, read_be16_field by done. done.
Qed.

(** Writing the options. *)
Lemma emit_area_ok r h q :
  roundtrip_ok r -> hdr_wf h -> 5 <= q <= 15 -> Z.of_nat (Repr.header_len r) = 4 * q ->
  h_flags h = be16 (flags_word q (control r) (bool_decide (is_Some (ack_number r)))) ->
  (Repr.header_len r - 20 <= length (h_rest h))%nat ->
  exists options, Packet.options (assemble h) = Ret options /\
    Repr.emit_options r options = Ret (option_area r) /\
    splice (assemble h) URGENT_end (option_area r) =
      assemble (h <| h_rest := option_area r ++ drop (Repr.header_len r - 20) (h_rest h) |>).
Proof.
  intros Hr Hh Hq Hhl Hfl Hle.
  destruct (flags_word_facts q (control r) (bool_decide (is_Some (ack_number r))) Hq)
    as (Hfr & Hfh & _).
  pose proof (length_assemble h Hh) as Hl. pose proof (length_option_area r Hr) as Hal.
  unfold Packet.options, URGENT_end. rewrite (header_len_assemble h _ Hh Hfr Hfl), Hfh.
  cbn [mbind outcome_bind]. rewrite range_Ret by lia.
  rewrite (slice_rest h Hh) by lia. eexists. split; [done|].
  assert (length (slice (h_rest h) (20 - 20) (Z.to_nat (4 * q) - 20)) = (Repr.header_len r - 20)%nat)
    as Hsl by (rewrite length_slice; lia).
  rewrite emit_options_ok, Hsl by done. fold (option_area r). split; [done|].
  rewrite !at_rest. cbn [set_field h_src h_dst h_seq h_ack h_flags h_window h_checksum h_urgent h_rest].
  destruct Hh as [? ? ? ? ? ? ? ? _]. unfold splice.
  rewrite take_app_length' by (rewrite !length_app; lia). do 2 f_equal.
  rewrite drop_app_ge by (rewrite !length_app; lia). rewrite !length_app. f_equal. lia.
Qed.

(** Writing the payload. *)
Lemma emit_payload_ok r h q area :
  hdr_wf h -> 5 <= q <= 15 ->
  h_flags h = be16 (flags_word q (control r) (bool_decide (is_Some (ack_number r)))) ->
  Z.of_nat (length area) = 4 * q - 20 ->
  h_rest h = area ++ drop (length area) (h_rest h) ->
  length (h_rest h) = (length area + length (payload r))%nat ->
  Packet.header_len (assemble h) = Ret (4 * q) /\
  (exists payload_mut l, Packet.payload (assemble h) = Ret payload_mut /\
     range payload_mut 0 (length (payload r)) = Ret l) /\
  splice (assemble h) (Z.to_nat (4 * q)) (payload r) =
    assemble (h <| h_rest := area ++ payload r |>).
Proof.
  intros Hh Hq Hfl Hal Hrest Hlen.
  destruct (flags_word_facts q (control r) (bool_decide (is_Some (ack_number r))) Hq)
    as (Hfr & Hfh & _).
  pose proof (length_assemble h Hh) as Hl.
  unfold Packet.payload. rewrite (header_len_assemble h _ Hh Hfr Hfl), Hfh.
  split; [done|]. split.
  { cbn [mbind outcome_bind]. rewrite range_Ret by lia. do 2 eexists. split; [done|].
    rewrite range_Ret by (rewrite ?length_slice; lia). done. }
  rewrite !at_rest. cbn [set_field h_src h_dst h_seq h_ack h_flags h_window h_checksum h_urgent h_rest].
  destruct Hh as [? ? ? ? ? ? ? ? _]. unfold splice.
  rewrite take_app_ge by (rewrite !length_app; lia). rewrite <-app_assoc. f_equal.
  rewrite (drop_ge _ (Z.to_nat (4 * q) + length (payload r))) by (rewrite !length_app; lia).
  rewrite app_nil_r. f_equal. rewrite Hrest, !length_app. apply take_app_length'. lia.
Qed.

Lemma emit_ok r packet a b caps :
  roundtrip_ok r -> bytes packet -> length packet = Repr.buffer_len r ->
  Z.of_nat (length packet) <= 131073 -> address_wf a -> address_wf b -> same_family a b ->
  exists q v, 5 <= q <= 15 /\ Z.of_nat (Repr.header_len r) = 4 * q /\ 0 <= v <= U16_MAX /\
    Repr.emit r packet a b caps = Ret (assemble (emitted r q v)) /\
    (Checksum.tx (caps_tcp caps) = true ->
     Packet.verify_checksum (assemble (emitted r q v)) a b = Ret true).
Proof.
  intros Hr Hpb Hpl Hmax Ha Hb Hf. pose proof (rt_wf r Hr) as Hwf.
  destruct (header_len_options r Hr) as (q & Hq & Hhl & Hle). unfold Repr.buffer_len in Hpl.
  destruct (disassemble packet Hpb ltac:(lia)) as (h & -> & Hh & Hrest). exists q.
  pose proof Hh as [_ _ _ _ _ _ Hck Hur _].
  assert (bytes (h_checksum h) /\ bytes (h_urgent h) /\ bytes (h_rest h)) as (? & ? & ?)
    by (hdr_fields Hh; done).
  assert (bytes (be16 0)) by (by apply be16_bytes).
  pose proof (length_option_area r Hr) as Hal. pose proof (option_area_bytes r Hr) as Hab.
  set (rest2 := option_area r ++ drop (Repr.header_len r - 20) (h_rest h)).
  assert (bytes rest2) as Hb2 by (apply Forall_app; split; [done|by apply bytes_drop]).
  unfold Repr.emit. rewrite (emit_header_ok r h q) by done. cbn [mbind outcome_bind].
  destruct (emit_area_ok r (header_of r q (h_checksum h) (h_urgent h) (h_rest h)) q)
    as (opts & -> & Hopts & Hsp);
    try (done || (by apply tcp_header_of_wf) || (cbn [header_of h_rest]; lia)).
  cbn [mbind outcome_bind]. rewrite Hopts. cbn [mbind outcome_bind]. rewrite Hsp.
  change (_ <| h_rest := _ |>) with (header_of r q (h_checksum h) (h_urgent h) rest2).
  rewrite set_urgent by (lia || by apply tcp_header_of_wf). cbn [mbind outcome_bind].
  change (_ <| h_urgent := _ |>) with (header_of r q (h_checksum h) (be16 0) rest2).
  destruct (emit_payload_ok r (header_of r q (h_checksum h) (be16 0) rest2) q (option_area r))
    as (-> & (pm & l & -> & Hrange) & Hsp2); try done.
  { by apply tcp_header_of_wf. }
  { lia. }
  { cbn [header_of h_rest]. unfold rest2. by rewrite drop_app_length. }
  { cbn [header_of h_rest]. unfold rest2. rewrite length_app, length_drop. lia. }
  cbn [mbind outcome_bind]. rewrite Hrange. cbn [mbind outcome_bind]. rewrite Hsp2.
  change (_ <| h_rest := _ |>)
    with (header_of r q (h_checksum h) (be16 0) (option_area r ++ payload r)).
  assert (hdr_wf (header_of r q (h_checksum h) (be16 0) (option_area r ++ payload r))) as Hh2.
  { apply tcp_header_of_wf; try done. apply Forall_app. split; [done|]. apply Hwf. }
  destruct (Checksum.tx (caps_tcp caps)).
  - destruct (fill_checksum_ok _ a b Hh2) as (v & Hv & -> & Hver); try done.
    { rewrite length_assemble by done. cbn [header_of h_rest]. rewrite length_app. lia. }
    by exists v.
  - rewrite set_check by (done || lia). by exists 0.
Qed.

(** *** Parsing what was emitted *)

Lemma emitted_wf r q v :
  roundtrip_ok r -> 5 <= q <= 15 -> 0 <= v <= U16_MAX -> hdr_wf (emitted r q v).
Proof.
  intros Hr Hq Hv. pose proof (rt_wf r Hr) as Hwf.
  apply tcp_header_of_wf; try done; try (by apply be16_bytes).
  apply Forall_app. split; [by apply option_area_bytes|apply Hwf].
Qed.

Section Emitted.
Context (r : TcpRepr) (q v : Z) (Hr : roundtrip_ok r) (Hq : 5 <= q <= 15)
  (Hhl : Z.of_nat (Repr.header_len r) = 4 * q) (Hv : 0 <= v <= U16_MAX).

Let h := emitted r q v.
Let Hh : hdr_wf h := emitted_wf r q v Hr Hq Hv.

Lemma emitted_rest : length (h_rest h) = (Repr.header_len r - 20 + length (payload r))%nat.
Proof.
  unfold h, emitted, header_of, h_rest. rewrite length_app, length_option_area by done. done.
Qed.

Lemma emitted_flag mask :
  Packet.flag mask (assemble h) = Ret (negb (Z.land (flags_word q (control r)
    (bool_decide (is_Some (ack_number r)))) mask =? 0)).
Proof.
  unfold Packet.flag. rewrite get_flags by done. unfold h, emitted, header_of, h_flags.
  rewrite read_be16_field by (by apply flags_word_facts). done.
Qed.

Lemma emitted_header_len : Packet.header_len (assemble h) = Ret (4 * q).
Proof.
  destruct (flags_word_facts q (control r) (bool_decide (is_Some (ack_number r))) Hq)
    as (Hfr & Hfh & _).
  by rewrite (header_len_assemble h _ Hh Hfr eq_refl), Hfh.
Qed.

Lemma emitted_check_len : Packet.check_len (assemble h) = Ret (Ok ()).
Proof.
  pose proof (length_assemble h Hh) as Hl. pose proof emitted_rest as Hlr.
  unfold Packet.check_len, URGENT_end. rewrite (proj2 (Nat.ltb_ge _ _)) by lia.
  rewrite emitted_header_len. cbn [mbind outcome_bind].
  by rewrite !(proj2 (Nat.ltb_ge _ _)) by lia.
Qed.

Lemma emitted_options : Packet.options (assemble h) = Ret (option_area r).
Proof.
  pose proof (length_assemble h Hh) as Hl. pose proof emitted_rest as Hlr.
  pose proof (length_option_area r Hr) as Hal.
  unfold Packet.options, URGENT_end. rewrite emitted_header_len. cbn [mbind outcome_bind].
  rewrite range_Ret, (slice_rest h Hh) by lia. f_equal.
  unfold h, emitted, header_of, h_rest, slice. cbn [Nat.sub]. rewrite drop_0.
  apply take_app_length'. lia.
Qed.

Lemma emitted_payload : Packet.payload (assemble h) = Ret (payload r).
Proof.
  pose proof (length_assemble h Hh) as Hl. pose proof emitted_rest as Hlr.
  pose proof (length_option_area r Hr) as Hal.
  unfold Packet.payload. rewrite emitted_header_len. cbn [mbind outcome_bind].
  rewrite range_Ret, (slice_rest h Hh) by lia. f_equal.
  assert (length (payload r) <= length (assemble h) - Z.to_nat (4 * q))%nat as Hle by lia.
  unfold slice. change (h_rest h) with (option_area r ++ payload r).
  rewrite drop_app_length' by lia. by apply take_ge.
Qed.

Lemma emitted_numbers :
  Packet.src_port (assemble h) = Ret (src_port r) /\
  Packet.dst_port (assemble h) = Ret (dst_port r) /\
  Packet.seq_number (assemble h) = Ret (seq_number r) /\
  Packet.ack_number (assemble h) = Ret (default 0 (ack_number r)) /\
  Packet.window_len (assemble h) = Ret (window_len r).
Proof.
  destruct (rt_wf r Hr). pose proof (ack_default_range r (rt_wf r Hr)) as Ha.
  rewrite get_src, get_dst, get_seq, get_ack, get_window by done.
  unfold h, emitted, header_of, h_src, h_dst, h_seq, h_ack, h_window.
  rewrite !read_be16_field by done.
  pose proof (read_be32_signed (seq_number r) []) as H1.
  pose proof (read_be32_signed (default 0 (ack_number r)) []) as H2. rewrite app_nil_r in *.
  by rewrite H1, H2.
Qed.

Lemma parse_emitted a b caps :
  (Checksum.rx (caps_tcp caps) = true -> Packet.verify_checksum (assemble h) a b = Ret true) ->
  Repr.parse (assemble h) a b caps = Ret (Ok r).
Proof.
  intros Hver. destruct emitted_numbers as (Hsp & Hdp & Hsn & Han & Hwin).
  destruct (flags_word_facts q (control r) (bool_decide (is_Some (ack_number r))) Hq)
    as (_ & _ & Hsyn & Hfin & Hrst & Hpsh & Hack).
  pose proof (rt_src r Hr). pose proof (rt_dst r Hr).
  unfold Repr.parse. rewrite emitted_check_len. cbn [try_bind]. rewrite Hsp, Hdp.
  cbn [mbind outcome_bind]. rewrite !(proj2 (Z.eqb_neq _ _)) by done.
  assert ((if Checksum.rx (caps_tcp caps) then Packet.verify_checksum (assemble h) a b else Ret true)
          = Ret true) as -> by (destruct (Checksum.rx _); auto).
  cbn [mbind outcome_bind negb]. unfold Packet.syn, Packet.fin, Packet.rst, Packet.psh, Packet.ack.
  rewrite !emitted_flag, Hsyn, Hfin, Hrst, Hpsh, Hack. cbn [mbind outcome_bind].
  assert (Repr.parse_control (bool_decide (control r = Syn)) (bool_decide (control r = Fin))
    (bool_decide (control r = Rst)) (bool_decide (control r = Psh)) = Ok (control r)) as ->
    by (by destruct (control r)).
  cbn [try_bind]. rewrite Han, Hsn, Hwin, emitted_options, emitted_payload.
  assert ((if bool_decide (is_Some (ack_number r)) then n ← (Ret (default 0 (ack_number r)) : outcome SeqNumber); Ret (Some n)
           else Ret None) = Ret (ack_number r)) as -> by (by destruct (ack_number r)).
  cbn [mbind outcome_bind]. unfold option_area at 2.
  rewrite parse_options_bytes by (done || by apply repr_options_ok).
  cbn [try_bind mbind outcome_bind]. rewrite collect_repr by done. by destruct r.
Qed.
End Emitted.
End SegmentRoundtrip.

Lemma tcp_emit_parse_ok {BO : ByteOrder} {NE : NetworkEndian BO} r packet a b tx_caps rx_caps :
  roundtrip_ok r -> bytes packet -> length packet = Repr.buffer_len r ->
  Z.of_nat (length packet) <= 131073 -> address_wf a -> address_wf b -> same_family a b ->
  (Checksum.rx (caps_tcp rx_caps) = true -> Checksum.tx (caps_tcp tx_caps) = true) ->
  exists packet', Repr.emit r packet a b tx_caps = Ret packet' /\
    length packet' = length packet /\ Repr.parse packet' a b rx_caps = Ret (Ok r).
Proof.
  intros Hr Hpb Hpl Hmax Ha Hb Hf Hcaps.
  destruct (emit_ok r packet a b tx_caps) as (q & v & Hq & Hhl & Hv & He & Hver); try done.
  exists (assemble (emitted r q v)). split; [done|]. split.
  - pose proof (emitted_rest r q v Hr) as Hlr. unfold Repr.buffer_len in Hpl.
    rewrite length_assemble by (by apply emitted_wf). lia.
  - apply parse_emitted; auto.
Qed.

(** C36: Emitting a segment into a buffer of its length and parsing the result
    gives the segment back, with the checksum the emitter filled in accepted by
    the parser (unless transmit checksums are off and receive checksums are on):
    ports, sequence and acknowledgement numbers, control flags, window, options
    and payload all survive. *)
Theorem tcp_emit_parse_roundtrip {BO : ByteOrder} {NE : NetworkEndian BO} r packet a b caps :
  roundtrip_ok r -> bytes packet -> length packet = Repr.buffer_len r ->
  Z.of_nat (length packet) <= 131073 -> address_wf a -> address_wf b -> same_family a b ->
  (Checksum.rx (caps_tcp caps) = true -> Checksum.tx (caps_tcp caps) = true) ->
  exists packet', Repr.emit r packet a b caps = Ret packet' /\
    length packet' = length packet /\ Repr.parse packet' a b caps = Ret (Ok r).
Proof. intros. by apply tcp_emit_parse_ok. Qed.

(** [TcpOption::Unknown] can only be emitted into a buffer of exactly its
    length: where every other option leaves the rest of a longer buffer to the
    next one, [copy_from_slice] panics. *)
Theorem unknown_option_emit_needs_exact_buffer {BO : ByteOrder} kind data buffer :
  (2 <= length buffer)%nat -> length buffer <> TcpOption.buffer_len (UnknownOption kind data) ->
  TcpOption.emit (UnknownOption kind data) buffer = Panic.
Proof.
  intros H2 Hne. unfold TcpOption.emit. rewrite set_byte_ok by lia. cbn [mbind outcome_bind].
  rewrite set_byte_ok by (rewrite length_insert; lia). cbn [mbind outcome_bind].
  rewrite range_Ret by (rewrite !length_insert; lia). cbn [mbind outcome_bind].
  cbn [TcpOption.buffer_len] in Hne.
  rewrite (proj2 (Nat.eqb_neq _ _)); [done|].
  rewrite length_slice, !length_insert. lia.
Qed.

(** *** Witnesses *)

Definition localhost : Address := Ipv4 [127; 0; 0; 1].

Lemma localhost_wf : address_wf localhost.
Proof. split; [done|]. repeat (constructor; [split; vm_compute; discriminate|]). constructor. Defined.

Definition both_caps : ChecksumCapabilities := mkCaps Both Both Both Both Both.

(** An acknowledgement with two SACK ranges, and a SYN with all options. *)
Definition sample_ack : TcpRepr :=
  mkTcpRepr 49500 80 Psh (-1) (Some 2147483647) 1024 None None false
    [Some (10, 20); Some (4294967295, 7); None] [1; 2; 3].

Lemma sample_ack_ok : roundtrip_ok sample_ack.
Proof.
  split.
  - split; cbn; try lia; try done.
    + intros n [= <-]. unfold seq_range. lia.
    + repeat (constructor; [cbn; lia || done|]). constructor.
    + repeat (constructor; [split; vm_compute; discriminate|]). constructor.
  - done.
  - done.
  - exists [(10, 20); (4294967295, 7)]. split; [done|cbn; lia].
  - cbn. intros [?|?]; done.
Defined.

Lemma bytes_zeros n : bytes (replicate n 0).
Proof. apply Forall_replicate. split; lia. Qed.

Lemma tcp_emit_parse_roundtrip_witness :
  exists packet', Repr.emit (BO := network_endian) sample_ack (replicate 43 0) localhost localhost both_caps
                    = Ret packet' /\
    length packet' = 43%nat /\
    Repr.parse (BO := network_endian) packet' localhost localhost both_caps = Ret (Ok sample_ack).
Proof.
  apply (tcp_emit_parse_roundtrip (BO := network_endian) (NE := network_endian_laws)
    sample_ack (replicate 43 0) localhost localhost both_caps);
    [exact sample_ack_ok|apply bytes_zeros|reflexivity|cbn; lia|exact localhost_wf|
     exact localhost_wf|reflexivity|reflexivity].
Defined.

Lemma tcp_parse_total_witness :
  exists res, Repr.parse (BO := network_endian) (replicate 30 85) localhost localhost both_caps = Ret res.
Proof.
  destruct (tcp_parse_total (BO := network_endian) (NE := network_endian_laws)
    (replicate 30 85) localhost localhost both_caps) as (res & H & _);
    [apply Forall_replicate; split; lia|cbn; lia|exact localhost_wf|exact localhost_wf|
     reflexivity|].
  exists res. exact H.
Defined.

Lemma check_len_protects_accessors_witness :
  Packet.check_len (BO := network_endian) (replicate 30 85) = Ret (Ok ()) /\
  exists l, Packet.options (BO := network_endian) (replicate 30 85) = Ret l.
Proof.
  assert (Packet.check_len (BO := network_endian) (replicate 30 85) = Ret (Ok ())) as Hc
    by reflexivity.
  split; [exact Hc|].
  pose proof (check_len_protects_accessors (BO := network_endian) (NE := network_endian_laws)
    (replicate 30 85) ltac:(apply Forall_replicate; split; lia) Hc) as H. tauto.
Defined.

Lemma unknown_option_emit_needs_exact_buffer_witness :
  TcpOption.emit (BO := network_endian) (UnknownOption 12 [1; 2]) (replicate 6 0) = Panic.
Proof. apply (unknown_option_emit_needs_exact_buffer (BO := network_endian)); cbn; lia. Defined.
