(* ===== verification/TcpTimers.v ===== *)
(** * The timers of the TCP socket (src/socket/tcp.rs)

    The round-trip estimator, the retransmission timer and the delayed-ACK timer.
    The estimator computes in [u32] with overflow checks. *)

From S2P Require Import Prelude Time SeqNumber.
Open Scope Z_scope.

(** src/socket/mod.rs *)
Inductive PollAt := PollNow | PollTime (at_ : Instant) | PollIngress.

(** The derived order of [PollAt]. *)
Definition poll_at_le (p q : PollAt) : bool :=
  match p, q with
  | PollNow, _ => true
  | PollTime _, PollNow => false
  | PollTime t, PollTime u => t <=? u
  | PollTime _, PollIngress => true
  | PollIngress, PollIngress => true
  | PollIngress, _ => false
  end.

(** ** Round-trip time estimation *)

Definition RTTE_INITIAL_RTT : Z := 300.
Definition RTTE_INITIAL_DEV : Z := 100.
Definition RTTE_MIN_MARGIN : Z := 5.
Definition RTTE_MIN_RTO : Z := 10.
Definition RTTE_MAX_RTO : Z := 10000.

Record RttEstimator := mkRtte {
  rtt : Z;
  deviation : Z;
  timestamp : option (Instant * SeqNumber);
  max_seq_sent : option SeqNumber;
  rto_count : Z
}.

#[export] Instance eta_RttEstimator : Settable RttEstimator := fun r =>
  mkRtte (rtt r) (deviation r) (timestamp r) (max_seq_sent r) (rto_count r).

Module RttEstimator.
Implicit Types (r : RttEstimator).

Definition default : RttEstimator := mkRtte RTTE_INITIAL_RTT RTTE_INITIAL_DEV None None 0.

Definition clamp (lo hi z : Z) : Z := if z <? lo then lo else if hi <? z then hi else z.

Definition retransmission_timeout r : outcome Duration :=
  d ← umul U32_MAX (deviation r) 4;
  let margin := Z.max RTTE_MIN_MARGIN d in
  s ← uadd U32_MAX (rtt r) margin;
  Duration.from_millis (clamp RTTE_MIN_RTO RTTE_MAX_RTO s).

(** [self.rtt as i32 - new_rtt as i32] with an overflow check. *)
Definition sub_i32 (a b : Z) : outcome Z :=
  let d := wrap_i 32 a - wrap_i 32 b in
  if (d <? - 2147483648) || (I32_MAX <? d) then Panic else Ret d.

Definition sample (new_rtt : Z) r : outcome RttEstimator :=
  a ← umul U32_MAX (rtt r) 7;
  a ← uadd U32_MAX a new_rtt;
  a ← uadd U32_MAX a 7;
  let r := r <| rtt := a / 8 |> in
  diff ← sub_i32 (rtt r) new_rtt;
  let diff := Z.abs diff in
  a ← umul U32_MAX (deviation r) 3;
  a ← uadd U32_MAX a diff;
  a ← uadd U32_MAX a 3;
  let r := r <| deviation := a / 4 |> in
  let r := r <| rto_count := 0 |> in
  _ ← retransmission_timeout r;
  Ret r.

Definition on_send (now : Instant) (seq : SeqNumber) r : RttEstimator :=
  if match max_seq_sent r with Some max_seq_sent => seq_gt seq max_seq_sent | None => true end then
    let r := r <| max_seq_sent := Some seq |> in
    match timestamp r with
    | None => r <| timestamp := Some (now, seq) |>
    | Some _ => r
    end
  else r.

Definition on_ack (now : Instant) (seq : SeqNumber) r : outcome RttEstimator :=
  match timestamp r with
  | Some (sent_timestamp, sent_seq) =>
      if seq_ge seq sent_seq then
        d ← Instant.diff now sent_timestamp;
        r ← sample (wrap_u 32 (Duration.total_millis d)) r;
        Ret (r <| timestamp := None |>)
      else Ret r
  | None => Ret r
  end.

(** [saturating_add] on [u8] *)
Definition sat_add_u8 (a b : Z) : Z := Z.min U8_MAX (a + b).

Definition on_retransmit r : outcome RttEstimator :=
  let r := r <| timestamp := None |> in
  let r := r <| rto_count := sat_add_u8 (rto_count r) 1 |> in
  if 3 <=? rto_count r then
    let r := r <| rto_count := 0 |> in
    a ← umul U32_MAX (rtt r) 2;
    let r := r <| rtt := Z.min RTTE_MAX_RTO a |> in
    _ ← retransmission_timeout r;
    Ret r
  else Ret r.
End RttEstimator.

(** ** The retransmission timer *)

Inductive Timer :=
| TimerIdle (keep_alive_at : option Instant)
| TimerRetransmit (expires_at : Instant) (delay : Duration)
| TimerFastRetransmit
| TimerClose (expires_at : Instant).

(** In microseconds: [Duration::from_millis(10)] and [Duration::from_millis(10_000)]. *)
Definition ACK_DELAY_DEFAULT : Duration := 10 * 1000.
Definition CLOSE_DELAY : Duration := 10000 * 1000.

(** [interval.map(|interval| timestamp + interval)] *)
Definition map_add (now : Instant) (interval : option Duration) : outcome (option Instant) :=
  match interval with
  | Some interval => t ← Instant.add now interval; Ret (Some t)
  | None => Ret None
  end.

Module Timer.
Implicit Types (t : Timer) (now : Instant).

Definition new : Timer := TimerIdle None.

Definition should_keep_alive now t : bool :=
  match t with
  | TimerIdle (Some keep_alive_at) => keep_alive_at <=? now
  | _ => false
  end.

Definition should_retransmit now t : outcome (option Duration) :=
  match t with
  | TimerRetransmit expires_at delay =>
      if expires_at <=? now then
        d ← Instant.diff now expires_at;
        d ← Duration.add d delay;
        Ret (Some d)
      else Ret None
  | TimerFastRetransmit => d ← Duration.from_millis 0; Ret (Some d)
  | _ => Ret None
  end.

Definition should_close now t : bool :=
  match t with TimerClose expires_at => expires_at <=? now | _ => false end.

Definition poll_at t : PollAt :=
  match t with
  | TimerIdle (Some keep_alive_at) => PollTime keep_alive_at
  | TimerIdle None => PollIngress
  | TimerRetransmit expires_at _ => PollTime expires_at
  | TimerFastRetransmit => PollNow
  | TimerClose expires_at => PollTime expires_at
  end.

Definition set_for_idle now (interval : option Duration) : outcome Timer :=
  k ← map_add now interval;
  Ret (TimerIdle k).

Definition set_keep_alive t : Timer :=
  match t with
  | TimerIdle None => TimerIdle (Some 0)
  | _ => t
  end.

Definition rewind_keep_alive now (interval : option Duration) t : outcome Timer :=
  match t with
  | TimerIdle _ => k ← map_add now interval; Ret (TimerIdle k)
  | _ => Ret t
  end.

(** In the third case [delay] is the delay of the timer, not the argument. *)
Definition set_for_retransmit now (delay : Duration) t : outcome Timer :=
  match t with
  | TimerIdle _ | TimerFastRetransmit =>
      e ← Instant.add now delay;
      Ret (TimerRetransmit e delay)
  | TimerRetransmit expires_at delay =>
      if expires_at <=? now then
        e ← Instant.add now delay;
        d ← Duration.mul delay 2;
        Ret (TimerRetransmit e d)
      else Ret t
  | TimerClose _ => Ret t
  end.

Definition set_for_fast_retransmit : Timer := TimerFastRetransmit.

Definition set_for_close now : outcome Timer :=
  e ← Instant.add now CLOSE_DELAY;
  Ret (TimerClose e).

Definition is_retransmit t : bool :=
  match t with TimerRetransmit _ _ | TimerFastRetransmit => true | _ => false end.
End Timer.

Inductive AckDelayTimer := AckIdle | AckWaiting (t : Instant) | AckImmediate.

#[export] Instance AckDelayTimer_eq_dec : EqDecision AckDelayTimer.
Proof. solve_decision. Defined.

(** ** The estimator stays in range *)

(** With this bound on the samples (2^29 - 1, about 6.2 days in milliseconds) no
    intermediate result of the estimator exceeds [u32]. *)
Definition MAX_SAMPLE : Z := 536870911.

Definition rtte_wf (r : RttEstimator) : Prop :=
  0 <= rtt r <= MAX_SAMPLE /\ 0 <= deviation r <= MAX_SAMPLE /\ 0 <= rto_count r <= 2.

Lemma rtte_default_wf : rtte_wf RttEstimator.default.
Proof. unfold rtte_wf, MAX_SAMPLE. cbn. unfold RTTE_INITIAL_RTT, RTTE_INITIAL_DEV. lia. Qed.

Lemma clamp_range lo hi z : lo <= hi -> lo <= RttEstimator.clamp lo hi z <= hi.
Proof. unfold RttEstimator.clamp. intros. decide_tests; lia. Qed.

Lemma retransmission_timeout_Ret r :
  rtte_wf r ->
  RttEstimator.retransmission_timeout r =
    Ret (RttEstimator.clamp RTTE_MIN_RTO RTTE_MAX_RTO
           (rtt r + Z.max RTTE_MIN_MARGIN (deviation r * 4)) * 1000).
Proof.
  unfold rtte_wf, MAX_SAMPLE, RttEstimator.retransmission_timeout. intros (?&?&?).
  rewrite umul_Ret by lia. cbn [mbind outcome_bind].
  rewrite uadd_Ret by (unfold RTTE_MIN_MARGIN; lia). cbn [mbind outcome_bind].
  unfold Duration.from_millis. rewrite umul_Ret; [done|].
  pose proof (clamp_range RTTE_MIN_RTO RTTE_MAX_RTO
    (rtt r + Z.max RTTE_MIN_MARGIN (deviation r * 4)) ltac:(done)).
  unfold RTTE_MIN_RTO, RTTE_MAX_RTO in *. lia.
Qed.

Lemma retransmission_timeout_range r :
  rtte_wf r -> returns (RttEstimator.retransmission_timeout r)
                 (fun d => RTTE_MIN_RTO * 1000 <= d <= RTTE_MAX_RTO * 1000).
Proof.
  intros. rewrite retransmission_timeout_Ret by done. cbn -[Z.mul].
  pose proof (clamp_range RTTE_MIN_RTO RTTE_MAX_RTO
    (rtt r + Z.max RTTE_MIN_MARGIN (deviation r * 4)) ltac:(done)). lia.
Qed.

(** The estimator is a moving average: it stays between its bounds. *)
Lemma rtt_sample_wf n r :
  rtte_wf r -> 0 <= n <= MAX_SAMPLE ->
  returns (RttEstimator.sample n r) (fun r' => rtte_wf r' /\ timestamp r' = timestamp r /\
    rtt r' = (7 * rtt r + n + 7) / 8).
Proof.
  intros Hwf Hn. destruct (Hwf) as (?&?&?). unfold RttEstimator.sample, MAX_SAMPLE in *.
  rewrite umul_Ret by lia. cbn [mbind outcome_bind].
  rewrite uadd_Ret by lia. cbn [mbind outcome_bind].
  rewrite uadd_Ret by lia. cbn [mbind outcome_bind]. cbn zeta.
  set (a := (rtt r * 7 + n + 7) / 8). assert (0 <= a <= 536870911) by (subst a; div_lia).
  assert (RttEstimator.sub_i32 a n = Ret (a - n)) as Hs.
  { unfold RttEstimator.sub_i32. rewrite !wrap_i_small by lia. cbn zeta. decide_tests; done || lia. }
  cbn -[Z.mul Z.div umul uadd]. rewrite Hs. cbn [mbind outcome_bind].
  rewrite umul_Ret by lia. cbn [mbind outcome_bind].
  rewrite uadd_Ret by lia. cbn [mbind outcome_bind].
  rewrite uadd_Ret by lia. cbn [mbind outcome_bind].
  rewrite retransmission_timeout_Ret; cbn -[Z.mul Z.div].
  - unfold rtte_wf, MAX_SAMPLE. cbn -[Z.mul Z.div]. split_and!; try div_lia; [done|]. subst a. f_equal. lia.
  - unfold rtte_wf, MAX_SAMPLE. cbn -[Z.mul Z.div]. div_lia.
Qed.

Lemma rtte_on_send_wf now seq r : rtte_wf r -> rtte_wf (RttEstimator.on_send now seq r).
Proof. unfold rtte_wf, RttEstimator.on_send. repeat case_match; done. Qed.

Lemma rtte_on_retransmit_wf r :
  rtte_wf r -> returns (RttEstimator.on_retransmit r) (fun r' => rtte_wf r' /\ timestamp r' = None).
Proof.
  intros (?&?&?). unfold RttEstimator.on_retransmit, RttEstimator.sat_add_u8, MAX_SAMPLE in *.
  cbn -[umul Z.mul]. decide_tests.
  - rewrite umul_Ret by lia. cbn -[Z.mul]. rewrite retransmission_timeout_Ret; cbn -[Z.mul];
      unfold rtte_wf, MAX_SAMPLE, RTTE_MAX_RTO; cbn -[Z.mul]; split_and!; lia || done.
  - cbn. unfold rtte_wf, MAX_SAMPLE. cbn. split_and!; lia || done.
Qed.

(** The clock readings lie in an interval shorter than 2^29 milliseconds. *)
Definition in_epoch (t0 t : Instant) : Prop :=
  t0 <= t <= t0 + MAX_SAMPLE * 1000 + 999 /\ instant_range t.

Definition rtte_sampling_since (t0 : Instant) (r : RttEstimator) : Prop :=
  match timestamp r with Some (t, _) => in_epoch t0 t | None => True end.

Lemma rtte_on_ack_wf t0 now seq r :
  rtte_wf r -> in_epoch t0 now -> rtte_sampling_since t0 r ->
  returns (RttEstimator.on_ack now seq r) (fun r' => rtte_wf r' /\ rtte_sampling_since t0 r').
Proof.
  unfold RttEstimator.on_ack, rtte_sampling_since, in_epoch, instant_range, MAX_SAMPLE.
  intros Hwf Hnow Hts. destruct (timestamp r) as [[t s]|] eqn:E; [|by cbn; rewrite E].
  case_match; [|by cbn; rewrite E].
  rewrite instant_diff_ok by lia. cbn [mbind outcome_bind].
  unfold Duration.total_millis, wrap_u. rewrite Z.mod_small by div_lia.
  apply returns_bind. eapply returns_mono; [|apply rtt_sample_wf; [done|unfold MAX_SAMPLE; div_lia]].
  intros r' (?&?&?). cbn. split; [|done].
  destruct H0 as (?&?&?). unfold rtte_wf. cbn. auto.
Qed.

(** *** Histories of the estimator *)

Inductive RtteEvent := RtteSend (now : Instant) (seq : SeqNumber)
                     | RtteAck (now : Instant) (seq : SeqNumber) | RtteRetransmit.

Definition rtte_step (e : RtteEvent) (r : RttEstimator) : outcome RttEstimator :=
  match e with
  | RtteSend now seq => Ret (RttEstimator.on_send now seq r)
  | RtteAck now seq => RttEstimator.on_ack now seq r
  | RtteRetransmit => RttEstimator.on_retransmit r
  end.

Fixpoint rtte_run (es : list RtteEvent) (r : RttEstimator) : outcome RttEstimator :=
  match es with
  | [] => Ret r
  | e :: es => r ← rtte_step e r; rtte_run es r
  end.

Definition event_in_epoch (t0 : Instant) (e : RtteEvent) : Prop :=
  match e with RtteSend t _ | RtteAck t _ => in_epoch t0 t | RtteRetransmit => True end.

Lemma rtte_step_wf t0 e r :
  rtte_wf r -> rtte_sampling_since t0 r -> event_in_epoch t0 e ->
  returns (rtte_step e r) (fun r' => rtte_wf r' /\ rtte_sampling_since t0 r').
Proof.
  intros Hwf Hs He. destruct e as [t s|t s|]; cbn.
  - split; [by apply rtte_on_send_wf|]. unfold RttEstimator.on_send, rtte_sampling_since in *.
    repeat case_match; cbn in *; simplify_eq; done.
  - by apply rtte_on_ack_wf.
  - eapply returns_mono; [|by apply rtte_on_retransmit_wf].
    intros r' [? Hn]. unfold rtte_sampling_since. by rewrite Hn.
Qed.

Lemma rtte_run_wf t0 es r :
  rtte_wf r -> rtte_sampling_since t0 r -> Forall (event_in_epoch t0) es ->
  returns (rtte_run es r) rtte_wf.
Proof.
  intros Hwf Hs Hes. revert r Hwf Hs. induction Hes as [|e es He _ IH]; intros r ??; [done|].
  cbn [rtte_run]. apply returns_bind. eapply returns_mono; [|by apply (rtte_step_wf t0)].
  intros r' []. eauto.
Qed.

(** Whatever segments are sent, acknowledged and retransmitted, the
    round-trip estimator of a connection never overflows its 32-bit arithmetic
    and its retransmission timeout lies between [RTTE_MIN_RTO] and
    [RTTE_MAX_RTO] milliseconds (10 ms and 10 s), as long as the clock readings
    of the history lie within 2^29 ms of each other. *)
Theorem rto_bounded (t0 : Instant) (es : list RtteEvent) :
  Forall (event_in_epoch t0) es ->
  returns (rtte_run es RttEstimator.default) (fun r =>
    returns (RttEstimator.retransmission_timeout r) (fun d =>
      RTTE_MIN_RTO * 1000 <= d <= RTTE_MAX_RTO * 1000)).
Proof.
  intros. eapply returns_mono; [|apply (rtte_run_wf t0); [apply rtte_default_wf|done|done]].
  intros r Hr. by apply retransmission_timeout_range.
Qed.

Lemma rto_bounded_witness :
  returns (rtte_run [RtteSend 1000 5; RtteAck 61000 5; RtteRetransmit; RtteRetransmit;
                     RtteRetransmit] RttEstimator.default) (fun r =>
    returns (RttEstimator.retransmission_timeout r) (fun d => 10000 <= d <= 10000000)).
Proof.
  apply (rto_bounded 0). repeat apply Forall_cons_2; try apply Forall_nil_2; try exact I;
    unfold event_in_epoch, in_epoch, instant_range, MAX_SAMPLE; lia.
Defined.

(** ** The timer fires when it says *)

Definition poll_due (now : Instant) (p : PollAt) : bool :=
  match p with PollNow => true | PollTime t => t <=? now | PollIngress => false end.

Definition timer_fires (now : Instant) (t : Timer) : outcome bool :=
  d ← Timer.should_retransmit now t;
  Ret (Timer.should_keep_alive now t || bool_decide (is_Some d) || Timer.should_close now t).

Definition timer_wf (t : Timer) : Prop :=
  match t with
  | TimerIdle (Some e) | TimerClose e => instant_range e
  | TimerRetransmit e delay => 0 <= e <= I64_MAX /\ 0 <= delay <= I64_MAX
  | _ => True
  end.

(** [poll_at] of the timer is exact: at any moment one of the timer's
    conditions (keep-alive, retransmit, close) holds if and only if the moment
    [poll_at] announces has come, so a caller that waits until then neither
    sleeps through an expiry nor polls without effect; and evaluating the
    conditions does not overflow. *)
Theorem timer_fires_when_due (now : Instant) (t : Timer) :
  timer_wf t -> 0 <= now <= I64_MAX ->
  timer_fires now t = Ret (poll_due now (Timer.poll_at t)).
Proof.
  intros Hwf Hnow. unfold timer_fires.
  destruct t as [[e|]|e d| |e]; cbn -[Z.leb] in *; try done.
  - by rewrite !orb_false_r.
  - decide_tests; [|done]. rewrite instant_diff_ok by lia. cbn [mbind outcome_bind].
    unfold Duration.add. rewrite uadd_Ret by lia. cbn. done.
Qed.

Lemma timer_fires_when_due_witness :
  timer_fires 20 (TimerRetransmit 10 5) = Ret (poll_due 20 (PollTime 10)).
Proof. apply (timer_fires_when_due 20 (TimerRetransmit 10 5)); cbn; lia. Defined.
