(* ===== verification/Congestion.v ===== *)
(** * Congestion control (src/socket/tcp/congestion.rs and congestion/)

    The trait [Controller] is a class; its default methods do nothing.
    [AnyController] has the controllers of a build with the [socket-tcp-reno]
    feature.  The counters are [usize], held in [N]. *)

From S2P Require Import Prelude Time TcpTimers.
Open Scope N_scope.

Definition usize_max : N := Z.to_N USIZE_MAX.

Class Controller (C : Type) := {
  window : C -> N;
  set_remote_window : N -> C -> C;
  on_ack : Instant -> N -> RttEstimator -> C -> C;
  on_retransmit : Instant -> C -> C;
  on_duplicate_ack : Instant -> C -> C;
  pre_transmit : Instant -> C -> C;
  post_transmit : Instant -> N -> C -> C;
  set_mss : N -> C -> C
}.

Inductive NoControl := mkNoControl.

#[export] Instance NoControl_Controller : Controller NoControl := {|
  window _ := usize_max;
  set_remote_window _ c := c;
  on_ack _ _ _ c := c;
  on_retransmit _ c := c;
  on_duplicate_ack _ c := c;
  pre_transmit _ c := c;
  post_transmit _ _ c := c;
  set_mss _ c := c
|}.

Record Reno := mkReno {
  cwnd : N;
  min_cwnd : N;
  ssthresh : N;
  rwnd : N
}.

#[export] Instance eta_Reno : Settable Reno := fun r =>
  mkReno (cwnd r) (min_cwnd r) (ssthresh r) (rwnd r).

Definition sat_add (a b : N) : N := N.min usize_max (a + b).

Module Reno.
Definition new : Reno := mkReno (1024 * 2) (1024 * 2) usize_max (64 * 1024).

Definition on_ack (len : N) (r : Reno) : Reno :=
  let '(len, r) := if cwnd r <? ssthresh r then (len, r)
                   else (min_cwnd r, r <| ssthresh := cwnd r |>) in
  r <| cwnd := N.max (N.min (sat_add (cwnd r) len) (rwnd r)) (min_cwnd r) |>.

Definition on_duplicate_ack (r : Reno) : Reno :=
  r <| ssthresh := N.max (N.shiftr (cwnd r) 1) (min_cwnd r) |>.

Definition on_retransmit (r : Reno) : Reno :=
  r <| cwnd := N.max (N.shiftr (cwnd r) 1) (min_cwnd r) |>.

Definition set_mss (mss : N) (r : Reno) : Reno := r <| min_cwnd := mss |>.

Definition set_remote_window (remote_window : N) (r : Reno) : Reno :=
  if rwnd r <? remote_window then r <| rwnd := remote_window |> else r.
End Reno.

#[export] Instance Reno_Controller : Controller Reno := {|
  window r := cwnd r;
  set_remote_window := Reno.set_remote_window;
  on_ack _ len _ := Reno.on_ack len;
  on_retransmit _ := Reno.on_retransmit;
  on_duplicate_ack _ := Reno.on_duplicate_ack;
  pre_transmit _ c := c;
  post_transmit _ _ c := c;
  set_mss := Reno.set_mss
|}.

Inductive AnyController :=
| ControllerNone (c : NoControl)
| ControllerReno (c : Reno).

(** [AnyController::new] of that build; [inner] and [inner_mut] dispatch. *)
Definition any_new : AnyController := ControllerReno Reno.new.

#[export] Instance AnyController_Controller : Controller AnyController := {|
  window a := match a with ControllerNone c => window c | ControllerReno c => window c end;
  set_remote_window n a := match a with
    | ControllerNone c => ControllerNone (set_remote_window n c)
    | ControllerReno c => ControllerReno (set_remote_window n c) end;
  on_ack t n r a := match a with
    | ControllerNone c => ControllerNone (on_ack t n r c)
    | ControllerReno c => ControllerReno (on_ack t n r c) end;
  on_retransmit t a := match a with
    | ControllerNone c => ControllerNone (on_retransmit t c)
    | ControllerReno c => ControllerReno (on_retransmit t c) end;
  on_duplicate_ack t a := match a with
    | ControllerNone c => ControllerNone (on_duplicate_ack t c)
    | ControllerReno c => ControllerReno (on_duplicate_ack t c) end;
  pre_transmit t a := match a with
    | ControllerNone c => ControllerNone (pre_transmit t c)
    | ControllerReno c => ControllerReno (pre_transmit t c) end;
  post_transmit t n a := match a with
    | ControllerNone c => ControllerNone (post_transmit t n c)
    | ControllerReno c => ControllerReno (post_transmit t n c) end;
  set_mss n a := match a with
    | ControllerNone c => ControllerNone (set_mss n c)
    | ControllerReno c => ControllerReno (set_mss n c) end
|}.

(** ** The window of Reno *)

Section RenoWindow.
Implicit Types (r : Reno).

Inductive reno_event :=
| RenoAck (len : N)
| RenoDuplicateAck
| RenoRetransmit
| RenoSetMss (mss : N)
| RenoSetRemoteWindow (remote_window : N).

Definition reno_step (e : reno_event) r : Reno :=
  match e with
  | RenoAck len => Reno.on_ack len r
  | RenoDuplicateAck => Reno.on_duplicate_ack r
  | RenoRetransmit => Reno.on_retransmit r
  | RenoSetMss mss => Reno.set_mss mss r
  | RenoSetRemoteWindow w => Reno.set_remote_window w r
  end.

Definition reno_run (es : list reno_event) r : Reno := foldl (fun r e => reno_step e r) r es.

(** The segment sizes are between 1 and [mss], the remote windows at most [win]. *)
Definition reno_event_ok (mss win : N) (e : reno_event) : Prop :=
  match e with
  | RenoSetMss m => 1 <= m <= mss
  | RenoSetRemoteWindow w => w <= win
  | _ => True
  end.

Record reno_wf (mss win : N) r : Prop := {
  rw_cwnd : 1 <= cwnd r <= N.max mss win;
  rw_min : 1 <= min_cwnd r <= mss;
  rw_rwnd : rwnd r <= win;
  rw_ssthresh : 1 <= ssthresh r
}.

Lemma half_le n : N.shiftr n 1 <= n.
Proof. rewrite N.shiftr_div_pow2. apply N.Div0.div_le_upper_bound. lia. Qed.

Lemma reno_step_wf mss win e r :
  reno_event_ok mss win e -> reno_wf mss win r -> reno_wf mss win (reno_step e r).
Proof.
  intros He []. pose proof (half_le (cwnd r)). destruct e; cbn [reno_step reno_event_ok] in *.
  - unfold Reno.on_ack. destruct (cwnd r <? ssthresh r); constructor; cbn; lia.
  - constructor; cbn; lia.
  - constructor; cbn -[N.shiftr]; lia.
  - constructor; cbn; lia.
  - unfold Reno.set_remote_window. destruct (rwnd r <? remote_window); constructor; cbn; lia.
Qed.

(** The congestion window of Reno never falls to zero, so a connection can
    always send, and never exceeds the larger of the segment size and the largest
    window the peer advertised (the initial values included); losses and
    acknowledgements in any order, with any lengths. *)
Theorem reno_window_bounded (mss win : N) (es : list reno_event) :
  2048 <= mss -> 65536 <= win -> Forall (reno_event_ok mss win) es ->
  1 <= window (reno_run es Reno.new) <= N.max mss win.
Proof.
  intros Hm Hw Hes. cbn [window Reno_Controller].
  assert (reno_wf mss win Reno.new) as Hr.
  { constructor; cbn; [lia..|]. unfold usize_max. lia. }
  revert Hr. generalize Reno.new. induction Hes as [|e es He Hes IH]; intros r Hr; [apply Hr|].
  cbn. apply IH. by apply reno_step_wf.
Qed.

Lemma reno_window_bounded_witness :
  1 <= window (reno_run [RenoSetMss 1460; RenoRetransmit; RenoAck 100; RenoSetRemoteWindow 100000;
                         RenoDuplicateAck; RenoAck 70000] Reno.new) <= N.max 2048 100000.
Proof.
  apply reno_window_bounded; [lia|lia|]. repeat constructor; cbn; lia.
Defined.
End RenoWindow.
