(* ===== verification/Context.v ===== *)
(** * What the sockets use of their surroundings

    The random number generator (src/rand.rs), the waker registration
    (src/socket/waker.rs) and the part of the interface a socket sees, the
    [Context] of src/iface/interface/mod.rs. *)

From S2P Require Import Prelude Time Phy Ip LinkLayer Cidr.
Open Scope Z_scope.

(** ** The random number generator: sPCG32 *)

Module Rand.
Record t := mk { state : Z }.

Definition new (seed : Z) : t := mk seed.

Definition M : Z := 0xbb2efcec3c39611d.
Definition A : Z := 0x7590ef39.

Definition rand_u32 (r : t) : outcome (t * Z) :=
  let s := wrap_u 64 (wrap_u 64 (state r * M) + A) in
  shift ← usub 29 (Z.shiftr s 61);
  Ret (mk s, wrap_u 32 (Z.shiftr s shift)).

Definition rand_u16 (r : t) : outcome (t * Z) :=
  '(r, n) ← rand_u32 r;
  Ret (r, wrap_u 16 (Z.lxor n (Z.shiftr n 16))).

(** The rejection loop, with a bound on its rounds. *)
Fixpoint rand_source_port (fuel : nat) (r : t) : outcome (t * option Z) :=
  match fuel with
  | O => Ret (r, None)
  | S fuel =>
      '(r, res) ← rand_u16 r;
      if 1024 <? res then Ret (r, Some res) else rand_source_port fuel r
  end.

Lemma rand_u32_ok r : exists r' n, rand_u32 r = Ret (r', n) /\ 0 <= n < 2 ^ 32.
Proof.
  unfold rand_u32. cbn zeta.
  set (s := wrap_u 64 (wrap_u 64 (state r * M) + A)).
  assert (0 <= s < 2 ^ 64) by (apply Z.mod_pos_bound; lia).
  assert (Z.shiftr s 61 <= 29).
  { rewrite Z.shiftr_div_pow2 by lia. change (2 ^ 61) with 2305843009213693952 in *.
    change (2 ^ 64) with 18446744073709551616 in *. div_lia. }
  rewrite usub_Ret by done. cbn. do 2 eexists. split; [done|]. apply Z.mod_pos_bound. lia.
Qed.
End Rand.

(** ** Wakers

    A waker is the task it wakes; [woken] records the calls of [Waker::wake]. *)

Definition Waker := nat.

Definition will_wake (w1 w2 : Waker) : bool := Nat.eqb w1 w2.

Record WakerRegistration := mkWakerRegistration {
  waker : option Waker;
  woken : list Waker
}.

Module WakerRegistration.
Definition new : WakerRegistration := mkWakerRegistration None [].

Definition register (w : Waker) (r : WakerRegistration) : WakerRegistration :=
  match waker r with
  | Some w2 => if will_wake w2 w then r else mkWakerRegistration (Some w) (woken r)
  | None => mkWakerRegistration (Some w) (woken r)
  end.

Definition wake (r : WakerRegistration) : WakerRegistration :=
  match waker r with
  | Some w => mkWakerRegistration None (woken r ++ [w])
  | None => r
  end.
End WakerRegistration.

(** ** The context *)

(** The loop of [get_source_address_ipv4]. *)
Fixpoint first_ipv4 (cidrs : list IpCidr) : option (list Z) :=
  match cidrs with
  | [] => None
  | CidrIpv4 cidr :: _ => Some (Ipv4Cidr.address cidr)
  | CidrIpv6 _ :: cidrs => first_ipv4 cidrs
  end.

Record Context := mkContext {
  now : Instant;
  ip_mtu : Z;
  rand : Rand.t;
  get_source_address : Address -> option Address;
  is_broadcast : Address -> bool;
  cx_hardware_addr : HardwareAddress;
  cx_checksum_caps : ChecksumCapabilities;
  cx_ip_addrs : list IpCidr
}.

#[export] Instance eta_Context : Settable Context := fun c =>
  mkContext (now c) (ip_mtu c) (rand c) (get_source_address c) (is_broadcast c) (cx_hardware_addr c)
    (cx_checksum_caps c) (cx_ip_addrs c).
