(* ===== verification/Iface.v ===== *)
(** * The interface: addresses, routing and sending (src/iface/interface)

    [InterfaceInner] is the state of an interface.  This file has what does not
    depend on sockets: which addresses are its own, which hop a packet takes, how
    the hardware address of the hop is found, and how a packet is put on the wire.
    The build is one with IPv4, IPv4 fragmentation and the Ethernet and IP media. *)

From S2P Require Import Prelude Time Bytes Octets Phy Ip LinkLayer Arp Ipv4Wire Icmpv4Wire UdpWire TcpWire.
From S2P Require Import Cidr Route Neighbor Fragmentation Packet Ipv4Fragments Context Collections.
Open Scope nat_scope.

Inductive DispatchError := NoRoute | NeighborPending.

Record InterfaceInner {AV : Vec IpCidr} {RV : Vec Route} {LM : LinearMap Address Neighbor} := mkInner {
  caps : DeviceCapabilities;
  if_now : Instant;
  if_rand : Rand.t;
  neighbor_cache : Cache.t;
  hardware_addr : HardwareAddress;
  ipv4_id : Z;
  ip_addrs : vec IpCidr;
  any_ip : bool;
  routes : Routes.t
}.
Arguments InterfaceInner {AV RV LM}.

#[export] Instance eta_InterfaceInner {AV : Vec IpCidr} {RV : Vec Route} {LM : LinearMap Address Neighbor} :
    Settable InterfaceInner := fun i =>
  mkInner AV RV LM (caps i) (if_now i) (if_rand i) (neighbor_cache i) (hardware_addr i) (ipv4_id i)
    (ip_addrs i) (any_ip i) (routes i).

Section Interface.
Context {BO : ByteOrder} {AV : Vec IpCidr} {RV : Vec Route} {LM : LinearMap Address Neighbor}.
Implicit Types (inner : InterfaceInner).

(** ** Addresses *)

(** The assertions on the configuration. *)
Definition check_hardware_addr (addr : HardwareAddress) : outcome unit :=
  unicast ← HardwareAddress.is_unicast addr;
  rust_assert unicast.

Definition check_ip_addrs (addrs : list IpCidr) : outcome unit :=
  rust_assert (forallb (fun cidr =>
    Address.is_unicast (IpCidr.address cidr) || Address.is_unspecified (IpCidr.address cidr)) addrs).

Definition has_ip_addr inner (addr : Address) : bool :=
  existsb (fun probe => bool_decide (IpCidr.address probe = addr)) (as_slice (ip_addrs inner)).

(** Without [proto-igmp] an IPv4 interface listens to no group. *)
Definition has_multicast_group inner (addr : Address) : bool := false.

(** [find_map] *)
Definition ipv4_addr inner : option (list Z) :=
  head (omap (fun addr => match addr with CidrIpv4 cidr => Some (Ipv4Cidr.address cidr) | CidrIpv6 _ => None end)
    (as_slice (ip_addrs inner))).

Definition get_source_address_ipv4 inner (_ : list Z) : option (list Z) := first_ipv4 (as_slice (ip_addrs inner)).

Definition is_broadcast_v4 inner (address : list Z) : outcome bool :=
  if Ipv4Address.is_broadcast address then Ret true else
  iter_any (fun own_cidr => match own_cidr with
    | CidrIpv4 own_ip => b ← Ipv4Cidr.broadcast own_ip; Ret (bool_decide (b = Some address))
    | CidrIpv6 _ => Ret false
    end) (as_slice (ip_addrs inner)).

Definition is_unicast_v4 inner (address : list Z) : outcome bool :=
  if Ipv4Address.is_unicast address then b ← is_broadcast_v4 inner address; Ret (negb b) else Ret false.

Definition is_broadcast inner (address : Address) : outcome bool :=
  match address with Ipv4 address => is_broadcast_v4 inner address | Ipv6 _ => Ret false end.

Definition in_same_network inner (addr : Address) : outcome bool :=
  iter_any (fun cidr => IpCidr.contains_addr cidr addr) (as_slice (ip_addrs inner)).

Definition route inner (addr : Address) (timestamp : Instant) : outcome (option Address) :=
  same ← in_same_network inner addr;
  if same || Address.is_broadcast addr then Ret (Some addr) else
  Routes.lookup addr timestamp (routes inner).

Definition has_neighbor inner (addr : Address) : outcome bool :=
  r ← route inner addr (if_now inner);
  match r with
  | Some routed_addr =>
      match caps_medium (caps inner) with
      | MediumEthernet | MediumIeee802154 =>
          a ← Cache.lookup routed_addr (if_now inner) (neighbor_cache inner); Ret (found a)
      | MediumIp => Ret true
      end
  | None => Ret false
  end.

Definition next_ipv4_frag_ident inner : InterfaceInner * Z :=
  (inner <| ipv4_id ::= fun id => wrap_u 16 (id + 1) |>, ipv4_id inner).

(** ** Sending *)

Definition dispatch_ethernet inner (tx_token : TxToken) (buffer_len : nat) (f : list Z -> outcome (list Z)) :
    outcome (list Z) :=
  let tx_len := Frame.buffer_len buffer_len in
  consume tx_token tx_len (fun tx_buffer =>
    _ ← rust_assert (length tx_buffer =? tx_len);
    src_addr ← HardwareAddress.ethernet_or_panic (hardware_addr inner);
    frame ← Frame.set_src_addr src_addr tx_buffer;
    f frame).

(** The frame of an ARP packet. *)
Definition dispatch_arp inner (tx_token : TxToken) (dst_addr : list Z) (arp_repr : ArpRepr) : outcome (list Z) :=
  dispatch_ethernet inner tx_token (ArpRepr.buffer_len arp_repr) (fun frame =>
    frame ← Frame.set_dst_addr dst_addr frame;
    frame ← Frame.set_ethertype EtherType.Arp frame;
    Frame.with_payload_mut (ArpRepr.emit arp_repr) frame).

(** The hardware address of a multicast group. *)
Definition multicast_hardware_addr (medium : Medium) (dst_addr : Address) : outcome HardwareAddress :=
  match dst_addr, medium with
  | Ipv4 b, MediumEthernet =>
      a ← EthernetAddress.from_bytes
            [0x01; 0x00; 0x5e; Z.land (b !!! 1%nat) 0x7f; b !!! 2%nat; b !!! 3%nat]%Z;
      Ret (HwEthernet a)
  | Ipv6 b, MediumEthernet =>
      a ← EthernetAddress.from_bytes [0x33; 0x33; b !!! 12%nat; b !!! 13%nat; b !!! 14%nat; b !!! 15%nat]%Z;
      Ret (HwEthernet a)
  | Ipv6 _, MediumIeee802154 => Ret (HwIeee802154 Ieee802154Address.BROADCAST)
  | _, _ => Panic
  end.

(** Where to send a packet: the hardware address, or an error; the frame is an ARP
    request sent to find it. *)
Definition lookup_hardware_addr inner (tx_token : TxToken) (src_addr dst_addr : Address) :
    outcome (InterfaceInner * option (list Z) * result HardwareAddress DispatchError) :=
  broadcast ← is_broadcast inner dst_addr;
  if broadcast : bool then
    match caps_medium (caps inner) with
    | MediumEthernet => Ret (inner, None, Ok (HwEthernet EthernetAddress.BROADCAST))
    | MediumIeee802154 => Ret (inner, None, Ok (HwIeee802154 Ieee802154Address.BROADCAST))
    | MediumIp => Panic
    end
  else if Address.is_multicast dst_addr then
    hardware_addr ← multicast_hardware_addr (caps_medium (caps inner)) dst_addr;
    Ret (inner, None, Ok hardware_addr)
  else
    hop ← route inner dst_addr (if_now inner);
    match hop with
    | None => Ret (inner, None, Err NoRoute)
    | Some dst_addr =>
        answer ← Cache.lookup dst_addr (if_now inner) (neighbor_cache inner);
        match answer with
        | Found hardware_addr => Ret (inner, None, Ok hardware_addr)
        | RateLimited => Ret (inner, None, Err NeighborPending)
        | NotFound =>
            frame ← match src_addr, dst_addr, caps_medium (caps inner) with
              | Ipv4 src_addr, Ipv4 dst_addr, MediumEthernet =>
                  src_hardware_addr ← HardwareAddress.ethernet_or_panic (hardware_addr inner);
                  frame ← dispatch_arp inner tx_token EthernetAddress.BROADCAST
                    (EthernetIpv4 ArpOperation.Request src_hardware_addr src_addr EthernetAddress.BROADCAST dst_addr);
                  Ret (Some frame)
              | _, _, _ => Ret None
              end;
            cache ← Cache.limit_rate (if_now inner) (neighbor_cache inner);
            Ret (inner <| neighbor_cache := cache |>, frame, Err NeighborPending)
        end
    end.

(** The closure [emit_ip]: the header and the payload of the packet. *)
Definition emit_ip inner (packet : Packet) (ip_repr : IpRepr) (tx_buffer : list Z) : outcome (list Z) :=
  match ip_repr with
  | ReprIpv4 repr =>
      tx_buffer ← Ipv4Repr.emit repr (caps_checksum (caps inner)) tx_buffer;
      on_tail (IpRepr.header_len ip_repr) (Packet.emit_payload packet ip_repr (caps inner)) tx_buffer
  | ReprIpv6 _ => Panic
  end.

(** Put a packet on the wire; the frames are those handed to the device. *)
Definition dispatch_ip inner (tx_token : TxToken) (packet : Packet) (frag : Fragmenter.t) :
    outcome (InterfaceInner * Fragmenter.t * list (list Z) * result unit DispatchError) :=
  let ip_repr := Packet.ip_repr packet in
  _ ← rust_assert (negb (Address.is_unspecified (IpRepr.dst_addr ip_repr)));
  let '(inner, ipv4_id) := next_ipv4_frag_ident inner in
  let total_len := IpRepr.buffer_len ip_repr in
  let total_len := match caps_medium (caps inner) with
                   | MediumEthernet => Frame.buffer_len total_len
                   | _ => total_len
                   end in
  '(inner, sent, res) ← match caps_medium (caps inner) with
    | MediumEthernet =>
        '(inner, sent, res) ← lookup_hardware_addr inner tx_token (IpRepr.src_addr ip_repr) (IpRepr.dst_addr ip_repr);
        match res with
        | Ok (HwEthernet addr) => Ret (inner, sent, Ok addr)
        | Ok _ => Panic
        | Err e => Ret (inner, sent, Err e)
        end
    | _ => Ret (inner, None, Ok (replicate 6 0%Z))
    end;
  match res with
  | Err e => Ret (inner, frag, option_list sent, Err e)
  | Ok dst_hardware_addr =>
      match ip_repr with
      | ReprIpv4 repr =>
          if max_transmission_unit (caps inner) <? IpRepr.buffer_len ip_repr then
            '(frag, frame) ← first_fragment (hardware_addr inner) (caps inner) (emit_ip inner packet) repr
              dst_hardware_addr ipv4_id tx_token frag;
            Ret (inner, frag, option_list sent ++ option_list frame, Ok ())
          else
            frame ← consume tx_token total_len
              (emit_frame (hardware_addr inner) (caps_medium (caps inner)) dst_hardware_addr V4
                 (emit_ip inner packet ip_repr));
            Ret (inner, frag, option_list sent ++ [frame], Ok ())
      | ReprIpv6 _ => Panic
      end
  end.

(** A packet in reply to a frame. *)
Definition dispatch inner (tx_token : TxToken) (packet : EthernetPacket) (frag : Fragmenter.t) :
    outcome (InterfaceInner * Fragmenter.t * list (list Z) * result unit DispatchError) :=
  match packet with
  | EthernetArp arp_repr =>
      let '(EthernetIpv4 _ _ _ target_hardware_addr _) := arp_repr in
      frame ← dispatch_arp inner tx_token target_hardware_addr arp_repr;
      Ret (inner, frag, [frame], Ok ())
  | EthernetIp packet => dispatch_ip inner tx_token packet frag
  end.
End Interface.
