(* ===== verification/Dhcpv4Wire.v ===== *)
(** * The DHCP wire format (src/wire/dhcpv4.rs)

    [Module DhcpPacket] is the accessors and setters of the fixed header and the
    iterator over the options, [Module DhcpOptionWriter] the writer of options,
    [Module DhcpRepr] the parser and the emitter.  The theorems: parsing never
    panics, and parsing an emitted message gives it back.

    The name servers are a [heapless::Vec] of capacity [MAX_DNS_SERVER_COUNT]; two
    such vectors are compared by their elements. *)

From S2P Require Import Prelude Collections Bytes Octets Flags Ip LinkLayer Arp.
Open Scope Z_scope.

Definition DHCP_SERVER_PORT : Z := 67.
Definition DHCP_CLIENT_PORT : Z := 68.
Definition MAX_DNS_SERVER_COUNT : nat := 3.
Definition DHCP_MAGIC_NUMBER : Z := 0x63825363.

Module DhcpOpCode.
Inductive t := Request | Reply | Unknown (id : Z).

#[global] Instance eq_dec : EqDecision t.
Proof. solve_decision. Defined.

Definition from (value : Z) : t :=
  if value =? 1 then Request else if value =? 2 then Reply else Unknown value.
Definition into (o : t) : Z := match o with Request => 1 | Reply => 2 | Unknown other => other end.
End DhcpOpCode.

Module DhcpMessageType.
Inductive t :=
| Discover | Offer | Request | Decline | Ack | Nak | Release | Inform
| Unknown (id : Z).

Definition from (value : Z) : t :=
  if value =? 1 then Discover
  else if value =? 2 then Offer
  else if value =? 3 then Request
  else if value =? 4 then Decline
  else if value =? 5 then Ack
  else if value =? 6 then Nak
  else if value =? 7 then Release
  else if value =? 8 then Inform
  else Unknown value.

Definition into (m : t) : Z :=
  match m with
  | Discover => 1 | Offer => 2 | Request => 3 | Decline => 4 | Ack => 5 | Nak => 6
  | Release => 7 | Inform => 8 | Unknown other => other
  end.

Definition opcode (m : t) : DhcpOpCode.t :=
  match m with
  | Discover | Inform | Request | Decline | Release => DhcpOpCode.Request
  | Offer | Ack | Nak => DhcpOpCode.Reply
  | Unknown _ => DhcpOpCode.Unknown 0
  end.
End DhcpMessageType.

Definition DHCP_BROADCAST : Z := 0x8000.

(** Kinds of options. *)
Definition OPT_END : Z := 255.
Definition OPT_PAD : Z := 0.
Definition OPT_SUBNET_MASK : Z := 1.
Definition OPT_ROUTER : Z := 3.
Definition OPT_DOMAIN_NAME_SERVER : Z := 6.
Definition OPT_REQUESTED_IP : Z := 50.
Definition OPT_IP_LEASE_TIME : Z := 51.
Definition OPT_DHCP_MESSAGE_TYPE : Z := 53.
Definition OPT_SERVER_IDENTIFIER : Z := 54.
Definition OPT_PARAMETER_REQUEST_LIST : Z := 55.
Definition OPT_MAX_DHCP_MESSAGE_SIZE : Z := 57.
Definition OPT_RENEWAL_TIME_VALUE : Z := 58.
Definition OPT_REBINDING_TIME_VALUE : Z := 59.
Definition OPT_CLIENT_ID : Z := 61.

Record DhcpOption := mkDhcpOption { opt_kind : Z; opt_data : list Z }.

#[export] Instance DhcpOption_eq_dec : EqDecision DhcpOption.
Proof. solve_decision. Defined.

(** [buffer] is the part of [w_data] from [w_start] on. *)
Module DhcpOptionWriter.
Record t := mk { w_data : list Z; w_start : nat }.

Definition emit (option : DhcpOption) (w : t) : outcome (result t WireError) :=
  if (255 <? length (opt_data option))%nat then Ret (Err Error) else
  let total_len := (2 + length (opt_data option))%nat in
  if (length (w_data w) - w_start w <? total_len)%nat then Ret (Err Error) else
  let at_ := w_start w in
  data ← set_byte at_ (opt_kind option) (w_data w);
  data ← set_byte (at_ + 1) (Z.of_nat (length (opt_data option))) data;
  data ← put_slice (at_ + 2) (at_ + total_len) (opt_data option) data;
  Ret (Ok (mk data (at_ + total_len))).

Definition end_ (w : t) : outcome (result t WireError) :=
  if (length (w_data w) - w_start w =? 0)%nat then Ret (Err Error) else
  data ← set_byte (w_start w) OPT_END (w_data w);
  Ret (Ok (mk data (length data))).
End DhcpOptionWriter.

Module DhcpPacket.
Section Accessors.
Context {BO : ByteOrder} {DF : Bitflags DHCP_BROADCAST}.
Implicit Types (data : list Z).

Definition check_len data : result unit WireError :=
  if (length data <? 240)%nat then Err Error else Ok ().

Definition new_checked data : result (list Z) WireError :=
  match check_len data with Ok _ => Ok data | Err e => Err e end.

Definition opcode data : outcome DhcpOpCode.t := b ← get_byte 0 data; Ret (DhcpOpCode.from b).
Definition hardware_type data : outcome ArpHardware.t := b ← get_byte 1 data; Ret (ArpHardware.from b).
Definition hardware_len data : outcome Z := get_byte 2 data.
Definition hops data : outcome Z := get_byte 3 data.
Definition transaction_id data : outcome Z := get_u32 4 8 data.
Definition secs data : outcome Z := get_u16 8 10 data.
Definition flags data : outcome (flags DHCP_BROADCAST) :=
  f ← get_u16 10 12 data; Ret (from_bits_truncate f).
Definition client_ip data : outcome (list Z) := d ← range data 12 16; Ipv4Address.from_bytes d.
Definition your_ip data : outcome (list Z) := d ← range data 16 20; Ipv4Address.from_bytes d.
Definition server_ip data : outcome (list Z) := d ← range data 20 24; Ipv4Address.from_bytes d.
Definition relay_agent_ip data : outcome (list Z) := d ← range data 24 28; Ipv4Address.from_bytes d.
Definition client_hardware_address data : outcome (list Z) :=
  d ← range data 28 34; EthernetAddress.from_bytes d.
Definition magic_number data : outcome Z := get_u32 236 240 data.

(** One round of the iterator [options]: the next option and the octets after it. *)
Fixpoint next_option (buf : list Z) : option (DhcpOption * list Z) :=
  match buf with
  | [] => None
  | kind :: rest =>
      if kind =? OPT_END then None
      else if kind =? OPT_PAD then next_option rest
      else
        match rest with
        | [] => None
        | len :: rest =>
            let len := Z.to_nat len in
            if (length rest <? len)%nat then None
            else Some (mkDhcpOption kind (take len rest), drop len rest)
        end
  end.

(** All the options; every round consumes an octet. *)
Fixpoint options_from (fuel : nat) (buf : list Z) : list DhcpOption :=
  match fuel with
  | O => []
  | S fuel =>
      match next_option buf with
      | None => []
      | Some (o, buf) => o :: options_from fuel buf
      end
  end.

Definition options data : outcome (list DhcpOption) :=
  buf ← range data 240 (length data);
  Ret (options_from (length buf) buf).

Definition set_sname_and_boot_file_to_zero data : outcome (list Z) :=
  data ← put_slice 34 108 (replicate 74 0) data;
  put_slice 108 236 (replicate 128 0) data.

Definition set_opcode (value : DhcpOpCode.t) data : outcome (list Z) :=
  set_byte 0 (DhcpOpCode.into value) data.
Definition set_hardware_type (value : ArpHardware.t) data : outcome (list Z) :=
  let number := ArpHardware.into value in
  _ ← rust_assert (number <=? U8_MAX);
  set_byte 1 number data.
Definition set_hardware_len (value : Z) data : outcome (list Z) := set_byte 2 value data.
Definition set_hops (value : Z) data : outcome (list Z) := set_byte 3 value data.
Definition set_transaction_id (value : Z) data : outcome (list Z) := put_u32 4 8 value data.
Definition set_secs (value : Z) data : outcome (list Z) := put_u16 8 10 value data.
Definition set_flags (val : Flags.flags DHCP_BROADCAST) data : outcome (list Z) :=
  put_u16 10 12 (flags_bits val) data.
Definition set_client_ip (value : list Z) data : outcome (list Z) := put_slice 12 16 value data.
Definition set_your_ip (value : list Z) data : outcome (list Z) := put_slice 16 20 value data.
Definition set_server_ip (value : list Z) data : outcome (list Z) := put_slice 20 24 value data.
Definition set_relay_agent_ip (value : list Z) data : outcome (list Z) := put_slice 24 28 value data.
Definition set_client_hardware_address (value : list Z) data : outcome (list Z) := put_slice 28 34 value data.
Definition set_magic_number (value : Z) data : outcome (list Z) := put_u32 236 240 value data.

Definition options_mut data : outcome DhcpOptionWriter.t :=
  _ ← range data 240 (length data);
  Ret (DhcpOptionWriter.mk data 240).
End Accessors.
End DhcpPacket.

Section DhcpRepr.
Context {DV : Vec (list Z)}.

Record DhcpRepr := mkDhcpRepr {
  message_type : DhcpMessageType.t;
  transaction_id : Z;
  secs : Z;
  client_hardware_address : list Z;
  client_ip : list Z;
  your_ip : list Z;
  server_ip : list Z;
  router : option (list Z);
  subnet_mask : option (list Z);
  relay_agent_ip : list Z;
  broadcast : bool;
  requested_ip : option (list Z);
  client_identifier : option (list Z);
  server_identifier : option (list Z);
  parameter_request_list : option (list Z);
  dns_servers : option (vec (list Z));
  max_size : option Z;
  lease_duration : option Z;
  renew_duration : option Z;
  rebind_duration : option Z;
  additional_options : list DhcpOption
}.

#[global] Instance eta_DhcpRepr : Settable DhcpRepr := fun r =>
  mkDhcpRepr (message_type r) (transaction_id r) (secs r) (client_hardware_address r) (client_ip r)
    (your_ip r) (server_ip r) (router r) (subnet_mask r) (relay_agent_ip r) (broadcast r) (requested_ip r)
    (client_identifier r) (server_identifier r) (parameter_request_list r) (dns_servers r) (max_size r)
    (lease_duration r) (renew_duration r) (rebind_duration r) (additional_options r).
End DhcpRepr.
Arguments DhcpRepr {DV}.

(** The local variables of [Repr::parse] that the options set; [po_message_type]
    is [None] for [Err(Error)]. *)
Section ParsedOptions.
Context {DV : Vec (list Z)}.

Record ParsedOptions := mkParsedOptions {
  po_message_type : option DhcpMessageType.t;
  po_requested_ip : option (list Z);
  po_client_identifier : option (list Z);
  po_server_identifier : option (list Z);
  po_router : option (list Z);
  po_subnet_mask : option (list Z);
  po_parameter_request_list : option (list Z);
  po_dns_servers : option (vec (list Z));
  po_max_size : option Z;
  po_lease_duration : option Z;
  po_renew_duration : option Z;
  po_rebind_duration : option Z
}.

#[global] Instance eta_ParsedOptions : Settable ParsedOptions := fun p =>
  mkParsedOptions (po_message_type p) (po_requested_ip p) (po_client_identifier p) (po_server_identifier p)
    (po_router p) (po_subnet_mask p) (po_parameter_request_list p) (po_dns_servers p) (po_max_size p)
    (po_lease_duration p) (po_renew_duration p) (po_rebind_duration p).

Definition no_options : ParsedOptions :=
  mkParsedOptions None None None None None None None None None None None None.
End ParsedOptions.
Arguments ParsedOptions {DV}.

Module DhcpRepr.
Section Repr.
Context {BO : ByteOrder} {DF : Bitflags DHCP_BROADCAST} {DV : Vec (list Z)}.

Definition buffer_len (r : DhcpRepr) : nat :=
  let opt {A} (o : option A) (n : nat) := match o with Some _ => n | None => 0%nat end in
  (240 + (3 + 1)
   + opt (requested_ip r) 6
   + opt (client_identifier r) 9
   + opt (server_identifier r) 6
   + opt (max_size r) 4
   + opt (router r) 6
   + opt (subnet_mask r) 6
   + opt (lease_duration r) 6
   + match dns_servers r with Some servers => 2 + length (as_slice servers) * 4 | None => 0 end
   + match parameter_request_list r with Some list => length list + 2 | None => 0 end
   + foldr (fun o n => 2 + length (opt_data o) + n) 0 (additional_options r))%nat.

(** [u16::from_be_bytes] and [u32::from_be_bytes] of the first octets. *)
Definition u16_from (data : list Z) : outcome Z :=
  a ← get_byte 0 data; b ← get_byte 1 data; Ret (256 * a + b).
Definition u32_from (data : list Z) : outcome Z :=
  a ← get_byte 0 data; b ← get_byte 1 data; c ← get_byte 2 data; d ← get_byte 3 data;
  Ret (16777216 * a + 65536 * b + 256 * c + d).

(** [data.chunks_exact(4)], pushed to a vector until it is full. *)
Fixpoint push_servers (fuel : nat) (data : list Z) (servers : vec (list Z)) : outcome (vec (list Z)) :=
  match fuel with
  | O => Ret servers
  | S fuel =>
      if (length data <? 4)%nat then Ret servers else
      addr ← Ipv4Address.from_bytes (take 4 data);
      push_servers fuel (drop 4 data) (vec_push addr servers).1
  end.

(** One round of the loop over the options. *)
Definition parse_option (packet_opcode : DhcpOpCode.t) (option : DhcpOption) (p : ParsedOptions) :
    outcome (result ParsedOptions WireError) :=
  let data := opt_data option in
  let kind := opt_kind option in
  let len := length data in
  if (kind =? OPT_DHCP_MESSAGE_TYPE) && (len =? 1)%nat then
    b ← get_byte 0 data;
    let value := DhcpMessageType.from b in
    Ret (Ok (if bool_decide (DhcpMessageType.opcode value = packet_opcode)
             then p <| po_message_type := Some value |> else p))
  else if (kind =? OPT_REQUESTED_IP) && (len =? 4)%nat then
    a ← Ipv4Address.from_bytes data; Ret (Ok (p <| po_requested_ip := Some a |>))
  else if (kind =? OPT_CLIENT_ID) && (len =? 7)%nat then
    b ← get_byte 0 data;
    match ArpHardware.from b with
    | ArpHardware.Ethernet =>
        d ← range data 1 len;
        a ← EthernetAddress.from_bytes d;
        Ret (Ok (p <| po_client_identifier := Some a |>))
    | _ => Ret (Err Error)
    end
  else if (kind =? OPT_SERVER_IDENTIFIER) && (len =? 4)%nat then
    a ← Ipv4Address.from_bytes data; Ret (Ok (p <| po_server_identifier := Some a |>))
  else if (kind =? OPT_ROUTER) && (len =? 4)%nat then
    a ← Ipv4Address.from_bytes data; Ret (Ok (p <| po_router := Some a |>))
  else if (kind =? OPT_SUBNET_MASK) && (len =? 4)%nat then
    a ← Ipv4Address.from_bytes data; Ret (Ok (p <| po_subnet_mask := Some a |>))
  else if (kind =? OPT_MAX_DHCP_MESSAGE_SIZE) && (len =? 2)%nat then
    n ← u16_from data; Ret (Ok (p <| po_max_size := Some n |>))
  else if (kind =? OPT_RENEWAL_TIME_VALUE) && (len =? 4)%nat then
    n ← u32_from data; Ret (Ok (p <| po_renew_duration := Some n |>))
  else if (kind =? OPT_REBINDING_TIME_VALUE) && (len =? 4)%nat then
    n ← u32_from data; Ret (Ok (p <| po_rebind_duration := Some n |>))
  else if (kind =? OPT_IP_LEASE_TIME) && (len =? 4)%nat then
    n ← u32_from data; Ret (Ok (p <| po_lease_duration := Some n |>))
  else if kind =? OPT_PARAMETER_REQUEST_LIST then
    Ret (Ok (p <| po_parameter_request_list := Some data |>))
  else if kind =? OPT_DOMAIN_NAME_SERVER then
    servers ← push_servers len data vec_new;
    Ret (Ok (p <| po_dns_servers := Some servers |>))
  else Ret (Ok p).

Fixpoint parse_options (packet_opcode : DhcpOpCode.t) (options : list DhcpOption) (p : ParsedOptions) :
    outcome (result ParsedOptions WireError) :=
  match options with
  | [] => Ret (Ok p)
  | option :: options =>
      p ←? parse_option packet_opcode option p;
      parse_options packet_opcode options p
  end.

Definition parse (packet : list Z) : outcome (result DhcpRepr WireError) :=
  match DhcpPacket.check_len packet with
  | Err e => Ret (Err e)
  | Ok _ =>
      transaction_id ← DhcpPacket.transaction_id packet;
      client_hardware_address ← DhcpPacket.client_hardware_address packet;
      client_ip ← DhcpPacket.client_ip packet;
      your_ip ← DhcpPacket.your_ip packet;
      server_ip ← DhcpPacket.server_ip packet;
      relay_agent_ip ← DhcpPacket.relay_agent_ip packet;
      secs ← DhcpPacket.secs packet;
      hardware_type ← DhcpPacket.hardware_type packet;
      hardware_len ← DhcpPacket.hardware_len packet;
      match hardware_type with
      | ArpHardware.Unknown _ => Ret (Err Error)
      | ArpHardware.Ethernet =>
          if negb (hardware_len =? 6) then Ret (Err Error) else
          magic_number ← DhcpPacket.magic_number packet;
          if negb (magic_number =? DHCP_MAGIC_NUMBER) then Ret (Err Error) else
          opcode ← DhcpPacket.opcode packet;
          options ← DhcpPacket.options packet;
          p ←? parse_options opcode options no_options;
          flags ← DhcpPacket.flags packet;
          let broadcast := flags_contains flags (from_bits_truncate DHCP_BROADCAST) in
          match po_message_type p with
          | None => Ret (Err Error)
          | Some message_type =>
              Ret (Ok (mkDhcpRepr message_type transaction_id secs client_hardware_address client_ip your_ip
                server_ip (po_router p) (po_subnet_mask p) relay_agent_ip broadcast (po_requested_ip p)
                (po_client_identifier p) (po_server_identifier p) (po_parameter_request_list p)
                (po_dns_servers p) (po_max_size p) (po_lease_duration p) (po_renew_duration p)
                (po_rebind_duration p) []))
          end
      end
  end.

(** [options.emit(...)] for an option that may be absent. *)
Definition emit_opt {A} (o : option A) (kind : Z) (data : A -> outcome (list Z)) (w : DhcpOptionWriter.t) :
    outcome (result DhcpOptionWriter.t WireError) :=
  match o with
  | None => Ret (Ok w)
  | Some val => d ← data val; DhcpOptionWriter.emit (mkDhcpOption kind d) w
  end.

(** The array [[Ethernet, a0, ..., a5]]. *)
Definition client_id_data (val : list Z) : outcome (list Z) :=
  data ← set_byte 0 (wrap_u 8 (ArpHardware.into ArpHardware.Ethernet)) (replicate 7 0);
  put_slice 1 7 val data.

(** The addresses are copied into an array for [MAX_DNS_SERVER_COUNT] of them. *)
Fixpoint copy_servers (i : nat) (l : list (list Z)) (servers : list Z) : outcome (list Z) :=
  match l with
  | [] => Ret servers
  | ip :: l =>
      servers ← put_slice (i * 4) ((i + 1) * 4) ip servers;
      copy_servers (S i) l servers
  end.

Definition dns_data (v : vec (list Z)) : outcome (list Z) :=
  servers ← copy_servers 0 (as_slice v) (replicate (MAX_DNS_SERVER_COUNT * 4) 0);
  range servers 0 (length (as_slice v) * 4).

Fixpoint emit_all (l : list DhcpOption) (w : DhcpOptionWriter.t) :
    outcome (result DhcpOptionWriter.t WireError) :=
  match l with
  | [] => Ret (Ok w)
  | option :: l => w ←? DhcpOptionWriter.emit option w; emit_all l w
  end.

(** The options of [emit], in the order of the source. *)
Definition emit_options (r : DhcpRepr) (w : DhcpOptionWriter.t) : outcome (result DhcpOptionWriter.t WireError) :=
  w ←? DhcpOptionWriter.emit (mkDhcpOption OPT_DHCP_MESSAGE_TYPE [DhcpMessageType.into (message_type r)]) w;
  w ←? emit_opt (client_identifier r) OPT_CLIENT_ID client_id_data w;
  w ←? emit_opt (server_identifier r) OPT_SERVER_IDENTIFIER Ret w;
  w ←? emit_opt (router r) OPT_ROUTER Ret w;
  w ←? emit_opt (subnet_mask r) OPT_SUBNET_MASK Ret w;
  w ←? emit_opt (requested_ip r) OPT_REQUESTED_IP Ret w;
  w ←? emit_opt (max_size r) OPT_MAX_DHCP_MESSAGE_SIZE (fun n => Ret (be16 n)) w;
  w ←? emit_opt (lease_duration r) OPT_IP_LEASE_TIME (fun n => Ret (be32 n)) w;
  w ←? emit_opt (parameter_request_list r) OPT_PARAMETER_REQUEST_LIST Ret w;
  w ←? emit_opt (dns_servers r) OPT_DOMAIN_NAME_SERVER dns_data w;
  w ←? emit_all (additional_options r) w;
  DhcpOptionWriter.end_ w.

Definition emit_header (r : DhcpRepr) (packet : list Z) : outcome (list Z) :=
  packet ← DhcpPacket.set_sname_and_boot_file_to_zero packet;
  packet ← DhcpPacket.set_opcode (DhcpMessageType.opcode (message_type r)) packet;
  packet ← DhcpPacket.set_hardware_type ArpHardware.Ethernet packet;
  packet ← DhcpPacket.set_hardware_len 6 packet;
  packet ← DhcpPacket.set_transaction_id (transaction_id r) packet;
  packet ← DhcpPacket.set_client_hardware_address (client_hardware_address r) packet;
  packet ← DhcpPacket.set_hops 0 packet;
  packet ← DhcpPacket.set_secs (secs r) packet;
  packet ← DhcpPacket.set_magic_number 0x63825363 packet;
  packet ← DhcpPacket.set_client_ip (client_ip r) packet;
  packet ← DhcpPacket.set_your_ip (your_ip r) packet;
  packet ← DhcpPacket.set_server_ip (server_ip r) packet;
  packet ← DhcpPacket.set_relay_agent_ip (relay_agent_ip r) packet;
  let flags := if broadcast r then flags_union flags_empty (from_bits_truncate DHCP_BROADCAST) else flags_empty in
  DhcpPacket.set_flags flags packet.

(** [emit] answers an error when the options do not fit, with the buffer written so
    far left behind; here the error alone. *)
Definition emit (r : DhcpRepr) (packet : list Z) : outcome (result (list Z) WireError) :=
  packet ← emit_header r packet;
  w ← DhcpPacket.options_mut packet;
  w ←? emit_options r w;
  Ret (Ok (DhcpOptionWriter.w_data w)).
End Repr.
End DhcpRepr.

(** ** Parsing is total *)

Definition opt_all {A} (P : A -> Prop) (o : option A) : Prop := match o with Some a => P a | None => True end.

Abbreviation ipv4_wf := (fun a => address_wf (Ipv4 a)).

Definition option_wf (o : DhcpOption) : Prop :=
  byte (opt_kind o) /\ bytes (opt_data o) /\ (length (opt_data o) <= 255)%nat.

Section Wf.
Context {DV : Vec (list Z)}.

(** Every field of the type the source declares. *)
Record dhcp_wf (r : DhcpRepr) : Prop := {
  wf_xid : u32_ok (transaction_id r);
  wf_secs : word (secs r);
  wf_chaddr : EthernetAddress.wf (client_hardware_address r);
  wf_ciaddr : ipv4_wf (client_ip r);
  wf_yiaddr : ipv4_wf (your_ip r);
  wf_siaddr : ipv4_wf (server_ip r);
  wf_giaddr : ipv4_wf (relay_agent_ip r);
  wf_router : opt_all ipv4_wf (router r);
  wf_subnet : opt_all ipv4_wf (subnet_mask r);
  wf_requested : opt_all ipv4_wf (requested_ip r);
  wf_client_id : opt_all EthernetAddress.wf (client_identifier r);
  wf_server_id : opt_all ipv4_wf (server_identifier r);
  wf_parameters : opt_all bytes (parameter_request_list r);
  wf_dns : opt_all (fun v => Forall ipv4_wf (as_slice v)) (dns_servers r);
  wf_max_size : opt_all word (max_size r);
  wf_lease : opt_all u32_ok (lease_duration r);
  wf_renew : opt_all u32_ok (renew_duration r);
  wf_rebind : opt_all u32_ok (rebind_duration r)
}.

Record parsed_wf (p : ParsedOptions) : Prop := {
  pw_router : opt_all ipv4_wf (po_router p);
  pw_subnet : opt_all ipv4_wf (po_subnet_mask p);
  pw_requested : opt_all ipv4_wf (po_requested_ip p);
  pw_client_id : opt_all EthernetAddress.wf (po_client_identifier p);
  pw_server_id : opt_all ipv4_wf (po_server_identifier p);
  pw_parameters : opt_all bytes (po_parameter_request_list p);
  pw_dns : opt_all (fun v => Forall ipv4_wf (as_slice v)) (po_dns_servers p);
  pw_max_size : opt_all word (po_max_size p);
  pw_lease : opt_all u32_ok (po_lease_duration p);
  pw_renew : opt_all u32_ok (po_renew_duration p);
  pw_rebind : opt_all u32_ok (po_rebind_duration p)
}.
End Wf.

Lemma next_option_wf buf o rest :
  bytes buf -> DhcpPacket.next_option buf = Some (o, rest) -> option_wf o /\ bytes rest.
Proof.
  induction buf as [|k buf IH]; intros Hb Hn; [done|]. apply Forall_cons_1 in Hb as [Hk Hb].
  cbn [DhcpPacket.next_option] in Hn. destruct (k =? OPT_END); [done|].
  destruct (k =? OPT_PAD); [by apply IH|]. destruct buf as [|n buf]; [done|].
  apply Forall_cons_1 in Hb as [Hn8 Hb]. cbn zeta in Hn.
  destruct (Nat.ltb_spec (length buf) (Z.to_nat n)) as [|Hl]; [done|]. injection Hn as <- <-.
  split; [|by apply Forall_drop]. split_and!; cbn; [done|by apply Forall_take|].
  rewrite length_take. unfold byte in Hn8. lia.
Qed.

Lemma options_from_wf fuel buf : bytes buf -> Forall option_wf (DhcpPacket.options_from fuel buf).
Proof.
  revert buf. induction fuel as [|fuel IH]; intros buf Hb; [constructor|]. cbn.
  destruct (DhcpPacket.next_option buf) as [[o rest]|] eqn:Hn; [|constructor].
  destruct (next_option_wf buf o rest Hb Hn) as [Ho Hr]. constructor; [done|]. by apply IH.
Qed.

Section Total.
Context {BO : ByteOrder} {NE : NetworkEndian BO} {DF : Bitflags DHCP_BROADCAST}.
Context {DV : Vec (list Z)} {N : nat} {DVL : VecLaws DV N}.

Lemma vec_push_elems (x : list Z) (v : vec (list Z)) :
  as_slice (vec_push x v).1 = if (length (as_slice v) <? N)%nat then as_slice v ++ [x] else as_slice v.
Proof.
  pose proof (as_slice_capacity v). destruct (Nat.ltb_spec (length (as_slice v)) N).
  - destruct (vec_push_room v x) as (v' & -> & Hv'); done.
  - rewrite vec_push_full by lia. done.
Qed.

Lemma ipv4_from_bytes data : length data = 4%nat -> bytes data ->
  Ipv4Address.from_bytes data = Ret data /\ ipv4_wf data.
Proof. intros Hl Hb. unfold Ipv4Address.from_bytes. by rewrite (proj2 (Nat.eqb_eq _ _)). Qed.

Lemma push_servers_ok fuel data servers :
  bytes data -> Forall ipv4_wf (as_slice servers) ->
  exists v, DhcpRepr.push_servers fuel data servers = Ret v /\ Forall ipv4_wf (as_slice v).
Proof.
  revert data servers. induction fuel as [|fuel IH]; intros data servers Hb Hs; cbn; [eauto|].
  destruct (Nat.ltb_spec (length data) 4) as [|Hl]; [eauto|].
  destruct (ipv4_from_bytes (take 4 data)) as [-> Hw]; [rewrite length_take; lia|by apply Forall_take|].
  cbn [mbind outcome_bind]. apply IH; [by apply Forall_drop|]. rewrite vec_push_elems.
  case_match; [|done]. apply Forall_app_2; [done|]. by apply Forall_singleton.
Qed.

Lemma u16_from_ok data : length data = 2%nat -> bytes data ->
  exists n, DhcpRepr.u16_from data = Ret n /\ word n.
Proof.
  intros Hl Hb. destruct data as [|a [|b [|]]]; try done. repeat (apply Forall_cons_1 in Hb as [? Hb]).
  eexists. split; [done|]. unfold word, byte in *. lia.
Qed.

Lemma u32_from_ok data : length data = 4%nat -> bytes data ->
  exists n, DhcpRepr.u32_from data = Ret n /\ u32_ok n.
Proof.
  intros Hl Hb. destruct data as [|a [|b [|c [|d [|]]]]]; try done. repeat (apply Forall_cons_1 in Hb as [? Hb]).
  eexists. split; [done|]. unfold u32_ok, byte in *. lia.
Qed.

Lemma parse_option_ok opcode o p :
  option_wf o -> parsed_wf p ->
  exists res, DhcpRepr.parse_option opcode o p = Ret res /\ forall p', res = Ok p' -> parsed_wf p'.
Proof.
  intros (Hk & Hb & _) Hp. unfold DhcpRepr.parse_option. cbn zeta.
  repeat match goal with
  | |- context [if (?k =? ?c) && (?l =? ?n)%nat then _ else _] =>
      destruct ((k =? c) && (l =? n)%nat) eqn:?;
      [match goal with H : _ && _ = true |- _ => apply andb_prop in H as [_ H%Nat.eqb_eq] end|]
  end.
  all: try match goal with
    | H : length _ = 4%nat |- context [Ipv4Address.from_bytes] =>
        destruct (ipv4_from_bytes _ H Hb) as [-> ?]; cbn [mbind outcome_bind]
    | H : length _ = 2%nat |- context [DhcpRepr.u16_from] =>
        destruct (u16_from_ok _ H Hb) as (? & -> & ?); cbn [mbind outcome_bind]
    | H : length _ = 4%nat |- context [DhcpRepr.u32_from] =>
        destruct (u32_from_ok _ H Hb) as (? & -> & ?); cbn [mbind outcome_bind]
    end.
  all: try (eexists; split; [done|]; intros ? [= <-]; destruct Hp; constructor; done).
  - rewrite get_byte_ok by lia. cbn [mbind outcome_bind]. eexists. split; [done|]. intros ? [= <-].
    case_match; [|done]. destruct Hp. by constructor.
  - rewrite get_byte_ok by lia. cbn [mbind outcome_bind]. destruct (ArpHardware.from _); [|by eexists].
    rewrite range_Ret by lia. cbn [mbind outcome_bind]. unfold EthernetAddress.from_bytes.
    rewrite length_slice, (proj2 (Nat.eqb_eq _ _)) by lia. cbn [mbind outcome_bind]. eexists. split; [done|].
    intros ? [= <-]. destruct Hp. constructor; try done. cbn. split; [rewrite length_slice; lia|by apply bytes_slice].
  - destruct (opt_kind o =? OPT_PARAMETER_REQUEST_LIST); [eexists; split; [done|]; intros ? [= <-]; destruct Hp; by constructor|].
    destruct (opt_kind o =? OPT_DOMAIN_NAME_SERVER); [|naive_solver].
    destruct (push_servers_ok (length (opt_data o)) (opt_data o) vec_new Hb) as (v & -> & Hv);
      [rewrite as_slice_new; constructor|].
    cbn [mbind outcome_bind]. eexists. split; [done|]. intros ? [= <-]. destruct Hp. by constructor.
Qed.

Lemma dhcp_parse_options_ok opcode l p :
  Forall option_wf l -> parsed_wf p ->
  exists res, DhcpRepr.parse_options opcode l p = Ret res /\ forall p', res = Ok p' -> parsed_wf p'.
Proof.
  revert p. induction l as [|o l IH]; intros p Hl Hp; cbn; [naive_solver|].
  apply Forall_cons_1 in Hl as [Ho Hl]. destruct (parse_option_ok opcode o p Ho Hp) as ([p1|e] & -> & Hp1);
    cbn [try_bind]; [by apply IH; auto|]. eexists. by split.
Qed.

Lemma no_options_wf : parsed_wf no_options.
Proof. by constructor. Qed.

Lemma addr_field_parse data a b : (b <= length data)%nat -> b = (a + 4)%nat -> bytes data ->
  exists x, (d ← range data a b; Ipv4Address.from_bytes d) = Ret x /\ ipv4_wf x.
Proof.
  intros Hl -> Hb. rewrite range_Ret by lia. cbn [mbind outcome_bind].
  destruct (ipv4_from_bytes (slice data a (a + 4 - a))) as [-> ?]; [rewrite length_slice; lia|by apply bytes_slice|].
  eauto.
Qed.

Lemma eth_field_parse data a b : (b <= length data)%nat -> b = (a + 6)%nat -> bytes data ->
  exists x, (d ← range data a b; EthernetAddress.from_bytes d) = Ret x /\ EthernetAddress.wf x.
Proof.
  intros Hl -> Hb. rewrite range_Ret by lia. cbn [mbind outcome_bind]. unfold EthernetAddress.from_bytes.
  rewrite length_slice, (proj2 (Nat.eqb_eq _ _)) by lia. eexists. split; [done|].
  split; [rewrite length_slice; lia|by apply bytes_slice].
Qed.

Lemma dhcp_parse_ok data :
  bytes data -> exists res, DhcpRepr.parse data = Ret res /\ forall r, res = Ok r -> dhcp_wf r.
Proof.
  intros Hb. unfold DhcpRepr.parse, DhcpPacket.check_len. destruct (Nat.ltb_spec (length data) 240) as [|Hl]; [by eexists|].
  unfold DhcpPacket.transaction_id, DhcpPacket.client_hardware_address, DhcpPacket.client_ip, DhcpPacket.your_ip,
    DhcpPacket.server_ip, DhcpPacket.relay_agent_ip, DhcpPacket.secs, DhcpPacket.magic_number.
  destruct (get_u32_ok 4 8 data Hb) as (xid & -> & Hxid); [lia..|]. cbn [mbind outcome_bind].
  destruct (eth_field_parse data 28 34) as (ch & -> & Hch); [lia|done..|]. cbn [mbind outcome_bind].
  destruct (addr_field_parse data 12 16) as (ci & -> & Hci); [lia|done..|]. cbn [mbind outcome_bind].
  destruct (addr_field_parse data 16 20) as (yi & -> & Hyi); [lia|done..|]. cbn [mbind outcome_bind].
  destruct (addr_field_parse data 20 24) as (si & -> & Hsi); [lia|done..|]. cbn [mbind outcome_bind].
  destruct (addr_field_parse data 24 28) as (gi & -> & Hgi); [lia|done..|]. cbn [mbind outcome_bind].
  destruct (get_u16_ok 8 10 data Hb) as (sc & -> & Hsc); [lia..|]. cbn [mbind outcome_bind].
  unfold DhcpPacket.hardware_type, DhcpPacket.hardware_len, DhcpPacket.opcode. rewrite !get_byte_ok by lia.
  cbn [mbind outcome_bind]. destruct (ArpHardware.from _); [|by eexists]. case_match; [by eexists|].
  destruct (get_u32_ok 236 240 data Hb) as (mg & -> & _); [lia..|]. cbn [mbind outcome_bind]. case_match; [by eexists|].
  unfold DhcpPacket.options. rewrite range_Ret by lia. cbn [mbind outcome_bind].
  edestruct dhcp_parse_options_ok as (res & -> & Hres); [|exact no_options_wf|].
  { apply options_from_wf, bytes_slice, Hb. }
  destruct res as [p|e]; cbn [try_bind]; [|by eexists]. unfold DhcpPacket.flags.
  destruct (get_u16_ok 10 12 data Hb) as (fl & -> & _); [lia..|]. cbn [mbind outcome_bind].
  destruct (po_message_type p) as [mt|]; [|by eexists]. eexists. split; [done|]. intros r [= <-].
  destruct (Hres p eq_refl). by constructor.
Qed.
End Total.

(** ** Round trip *)

Definition option_octets (o : DhcpOption) : list Z :=
  opt_kind o :: Z.of_nat (length (opt_data o)) :: opt_data o.

Definition options_octets (l : list DhcpOption) : list Z := concat (option_octets <$> l).

Definition opt_list {A} (o : option A) (f : A -> DhcpOption) : list DhcpOption :=
  match o with Some a => [f a] | None => [] end.

(** An option the parser looks at, of its own kind. *)
Definition written (o : DhcpOption) : Prop :=
  opt_kind o <> OPT_END /\ opt_kind o <> OPT_PAD /\ (length (opt_data o) <= 255)%nat.

Section Writer.
Implicit Types (o : DhcpOption) (pre rest : list Z).

Lemma option_octets_length o : length (option_octets o) = (2 + length (opt_data o))%nat.
Proof. done. Qed.

Lemma writer_emit_ok o pre rest :
  (length (opt_data o) <= 255)%nat -> (2 + length (opt_data o) <= length rest)%nat ->
  DhcpOptionWriter.emit o (DhcpOptionWriter.mk (pre ++ rest) (length pre)) =
    Ret (Ok (DhcpOptionWriter.mk ((pre ++ option_octets o) ++ drop (2 + length (opt_data o)) rest)
               (length (pre ++ option_octets o)))).
Proof.
  intros Ho Hr. unfold DhcpOptionWriter.emit. cbn [DhcpOptionWriter.w_data DhcpOptionWriter.w_start].
  rewrite (proj2 (Nat.ltb_ge _ _)) by lia. cbn zeta. rewrite length_app.
  rewrite (proj2 (Nat.ltb_ge _ _)) by lia. rewrite set_byte_ok by (rewrite length_app; lia). cbn [mbind outcome_bind].
  rewrite set_byte_ok by (rewrite length_insert, length_app; lia). cbn [mbind outcome_bind].
  destruct rest as [|x [|y rest]]; cbn [length] in Hr; try lia.
  rewrite insert_app_r_alt, Nat.sub_diag by lia. rewrite insert_app_r_alt by lia.
  replace (length pre + 1 - length pre)%nat with 1%nat by lia. cbn [insert list_insert].
  rewrite put_slice_ok; [|rewrite length_app; cbn [length]; lia|lia]. cbn [mbind outcome_bind].
  do 3 f_equal; [|rewrite length_app, option_octets_length; lia].
  rewrite take_app_ge by lia. replace (length pre + 2 - length pre)%nat with 2%nat by lia.
  rewrite drop_app_ge by lia. replace (length pre + (2 + length (opt_data o)) - length pre)%nat
    with (2 + length (opt_data o))%nat by lia.
  cbn [take drop Nat.add]. unfold option_octets. rewrite <-!app_assoc. done.
Qed.

Lemma emit_all_app l1 l2 w :
  DhcpRepr.emit_all (l1 ++ l2) w = (w ←? DhcpRepr.emit_all l1 w; DhcpRepr.emit_all l2 w).
Proof.
  revert w. induction l1 as [|o l1 IH]; intros w; [done|]. cbn.
  destruct (DhcpOptionWriter.emit o w) as [[w'|e]|]; cbn; [apply IH|done..].
Qed.

Lemma emit_all_ok l pre rest :
  Forall written l -> (length (options_octets l) <= length rest)%nat ->
  DhcpRepr.emit_all l (DhcpOptionWriter.mk (pre ++ rest) (length pre)) =
    Ret (Ok (DhcpOptionWriter.mk ((pre ++ options_octets l) ++ drop (length (options_octets l)) rest)
               (length (pre ++ options_octets l)))).
Proof.
  revert pre rest. induction l as [|o l IH]; intros pre rest Hl Hr.
  - cbn. by rewrite app_nil_r, drop_0.
  - apply Forall_cons_1 in Hl as [Ho Hl]. unfold options_octets in *. cbn [fmap list_fmap concat] in *.
    rewrite length_app, option_octets_length in Hr. cbn [DhcpRepr.emit_all].
    rewrite writer_emit_ok by (try apply Ho; lia). cbn [try_bind]. rewrite IH; [|done|rewrite length_drop; lia].
    rewrite drop_drop, <-!app_assoc. rewrite !length_app, option_octets_length. do 4 f_equal. 
Qed.

Lemma writer_end_ok pre x rest :
  DhcpOptionWriter.end_ (DhcpOptionWriter.mk (pre ++ x :: rest) (length pre)) =
    Ret (Ok (DhcpOptionWriter.mk (pre ++ OPT_END :: rest) (length (pre ++ x :: rest)))).
Proof.
  unfold DhcpOptionWriter.end_. cbn [DhcpOptionWriter.w_data DhcpOptionWriter.w_start].
  rewrite (proj2 (Nat.eqb_neq _ _)) by (rewrite length_app; cbn; lia).
  rewrite set_byte_ok by (rewrite length_app; cbn; lia). cbn [mbind outcome_bind].
  rewrite insert_app_r_alt, Nat.sub_diag by lia. cbn [insert list_insert].
  do 3 f_equal. rewrite !length_app. done.
Qed.

Lemma next_option_written o rest :
  written o -> DhcpPacket.next_option (option_octets o ++ rest) = Some (o, rest).
Proof.
  intros (He & Hp & Hl). cbn [app option_octets DhcpPacket.next_option].
  rewrite (proj2 (Z.eqb_neq _ _)) by done. rewrite (proj2 (Z.eqb_neq _ _)) by done. cbn zeta.
  rewrite Nat2Z.id, length_app, (proj2 (Nat.ltb_ge _ _)) by lia.
  rewrite take_app_length, drop_app_length. by destruct o.
Qed.

Lemma options_from_written fuel l rest :
  Forall written l -> (length l < fuel)%nat ->
  DhcpPacket.options_from fuel (options_octets l ++ OPT_END :: rest) = l.
Proof.
  revert fuel. induction l as [|o l IH]; intros [|fuel] Hl Hf; cbn [length] in Hf; try lia; [done|].
  apply Forall_cons_1 in Hl as [Ho Hl]. unfold options_octets. cbn [fmap list_fmap concat].
  rewrite <-app_assoc. cbn [DhcpPacket.options_from]. rewrite next_option_written by done.
  f_equal. apply IH; [done|lia].
Qed.

Lemma options_octets_app l1 l2 : options_octets (l1 ++ l2) = options_octets l1 ++ options_octets l2.
Proof. unfold options_octets. by rewrite fmap_app, concat_app. Qed.

Lemma length_options_octets l : (length l <= length (options_octets l))%nat.
Proof.
  induction l as [|o l IH]; [done|]. unfold options_octets in *. cbn [fmap list_fmap concat length].
  rewrite length_app, option_octets_length. lia.
Qed.
End Writer.

Section RoundTrip.
Context {BO : ByteOrder} {NE : NetworkEndian BO} {DF : Bitflags DHCP_BROADCAST} {DFL : BitflagsLaws DF}.
Context {DV : Vec (list Z)} {DVL : VecLaws DV MAX_DNS_SERVER_COUNT}.
Implicit Types (r : DhcpRepr).

(** The options [emit] writes. *)
Definition options_of r : list DhcpOption :=
  [mkDhcpOption OPT_DHCP_MESSAGE_TYPE [DhcpMessageType.into (message_type r)]]
  ++ opt_list (client_identifier r) (fun a => mkDhcpOption OPT_CLIENT_ID (1 :: a))
  ++ opt_list (server_identifier r) (mkDhcpOption OPT_SERVER_IDENTIFIER)
  ++ opt_list (router r) (mkDhcpOption OPT_ROUTER)
  ++ opt_list (subnet_mask r) (mkDhcpOption OPT_SUBNET_MASK)
  ++ opt_list (requested_ip r) (mkDhcpOption OPT_REQUESTED_IP)
  ++ opt_list (max_size r) (fun n => mkDhcpOption OPT_MAX_DHCP_MESSAGE_SIZE (be16 n))
  ++ opt_list (lease_duration r) (fun n => mkDhcpOption OPT_IP_LEASE_TIME (be32 n))
  ++ opt_list (parameter_request_list r) (mkDhcpOption OPT_PARAMETER_REQUEST_LIST)
  ++ opt_list (dns_servers r) (fun v => mkDhcpOption OPT_DOMAIN_NAME_SERVER (concat (as_slice v)))
  ++ additional_options r.

(** Kinds the parser gives a meaning to. *)
Definition known_kinds : list Z :=
  [OPT_DHCP_MESSAGE_TYPE; OPT_REQUESTED_IP; OPT_CLIENT_ID; OPT_SERVER_IDENTIFIER; OPT_ROUTER; OPT_SUBNET_MASK;
   OPT_MAX_DHCP_MESSAGE_SIZE; OPT_RENEWAL_TIME_VALUE; OPT_REBINDING_TIME_VALUE; OPT_IP_LEASE_TIME;
   OPT_PARAMETER_REQUEST_LIST; OPT_DOMAIN_NAME_SERVER].

(** What [emit] writes completely: a known message type, a parameter list that
    fits an option, no T1 and T2, and additional options of other kinds. *)
Record emittable r : Prop := {
  em_type : forall id, message_type r <> DhcpMessageType.Unknown id;
  em_parameters : opt_all (fun l => (length l <= 255)%nat) (parameter_request_list r);
  em_renew : renew_duration r = None;
  em_rebind : rebind_duration r = None;
  em_additional : Forall (fun o => written o /\ opt_kind o ∉ known_kinds) (additional_options r)
}.

Lemma emit_opt_all {A} (o : option A) kind f (g : A -> list Z) w :
  (forall a, o = Some a -> f a = Ret (g a)) ->
  DhcpRepr.emit_opt o kind f w = DhcpRepr.emit_all (opt_list o (fun a => mkDhcpOption kind (g a))) w.
Proof.
  intros H. destruct o as [a|]; cbn; [|done]. rewrite H by done. cbn [mbind outcome_bind].
  by destruct (DhcpOptionWriter.emit _ w) as [[]|].
Qed.

Lemma client_id_ok a : EthernetAddress.wf a -> DhcpRepr.client_id_data a = Ret (1 :: a).
Proof.
  intros [Hl _]. unfold DhcpRepr.client_id_data. cbn. destruct a as [|a0 [|a1 [|a2 [|a3 [|a4 [|a5 [|]]]]]]]; done.
Qed.

Lemma concat_length4 (l : list (list Z)) : Forall ipv4_wf l -> length (concat l) = (length l * 4)%nat.
Proof.
  induction l as [|a l IH]; intros Hl; [done|]. apply Forall_cons_1 in Hl as [Ha Hl]. cbn.
  rewrite length_app, IH by done. destruct Ha as [-> _]. lia.
Qed.

Lemma dns_data_ok v : Forall ipv4_wf (as_slice v) -> DhcpRepr.dns_data v = Ret (concat (as_slice v)).
Proof.
  intros Hv. pose proof (as_slice_capacity v) as Hc. unfold DhcpRepr.dns_data, MAX_DNS_SERVER_COUNT in *.
  destruct (as_slice v) as [|a [|b [|c [|]]]]; cbn [length] in Hc; try lia;
    repeat match goal with H : Forall _ (?x :: _) |- _ =>
      apply Forall_cons_1 in H as [[? _] ?]; destruct x as [|? [|? [|? [|? [|]]]]]; try done end;
    vm_compute; reflexivity.
Qed.

(** Sequences of [?]. *)
Lemma try_bind_assoc {A B C E} (c : outcome (result A E)) (f : A -> outcome (result B E)) (g : B -> outcome (result C E)) :
  try_bind (try_bind c f) g = try_bind c (fun a => try_bind (f a) g).
Proof. by destruct c as [[]|]. Qed.

Lemma try_bind_ext {A B E} (c : outcome (result A E)) (f g : A -> outcome (result B E)) :
  (forall a, f a = g a) -> try_bind c f = try_bind c g.
Proof. intros H. destruct c as [[]|]; cbn; [apply H|done..]. Qed.

(** One optional option. *)
Ltac next g :=
  rewrite emit_all_app, try_bind_assoc; rewrite (emit_opt_all _ _ _ g);
  [apply try_bind_ext; let w := fresh "w" in intros w|intros a Ha].

Lemma emit_options_all r w :
  dhcp_wf r -> DhcpRepr.emit_options r w =
    (w ←? DhcpRepr.emit_all (options_of r) w; DhcpOptionWriter.end_ w).
Proof.
  intros Hr. unfold DhcpRepr.emit_options, options_of. rewrite emit_all_app, try_bind_assoc. cbn [DhcpRepr.emit_all].
  rewrite try_bind_assoc. apply try_bind_ext. clear w. intros w. cbn [try_bind].
  next (fun a : list Z => 1 :: a); [|apply client_id_ok; pose proof (wf_client_id r Hr) as H; by rewrite Ha in H].
  do 4 (next (fun a : list Z => a); [|done]). next be16; [|done]. next be32; [|done].
  next (fun a : list Z => a); [|done].
  next (fun v => concat (as_slice v)); [done|]. apply dns_data_ok. pose proof (wf_dns r Hr) as H. by rewrite Ha in H.
Qed.

Lemma opt_list_written {A} (o : option A) f : (forall a, o = Some a -> written (f a)) -> Forall written (opt_list o f).
Proof. intros H. destruct o; cbn; [apply Forall_singleton; by apply H|constructor]. Qed.

Lemma options_of_written r : dhcp_wf r -> emittable r -> Forall written (options_of r).
Proof.
  intros Hr He. unfold options_of. repeat apply Forall_app_2; try (apply opt_list_written; intros a Ha).
  - apply Forall_singleton. split_and!; [done..|cbn; lia].
  - pose proof (wf_client_id r Hr) as H. rewrite Ha in H. destruct H as [H _]. split_and!; [done..|cbn; lia].
  - pose proof (wf_server_id r Hr) as H. rewrite Ha in H. destruct H as [H _]. split_and!; [done..|cbn; lia].
  - pose proof (wf_router r Hr) as H. rewrite Ha in H. destruct H as [H _]. split_and!; [done..|cbn; lia].
  - pose proof (wf_subnet r Hr) as H. rewrite Ha in H. destruct H as [H _]. split_and!; [done..|cbn; lia].
  - pose proof (wf_requested r Hr) as H. rewrite Ha in H. destruct H as [H _]. split_and!; [done..|cbn; lia].
  - split_and!; [done..|cbn; lia].
  - split_and!; [done..|cbn; lia].
  - pose proof (em_parameters r He) as H. rewrite Ha in H. by split_and!.
  - pose proof (wf_dns r Hr) as H. rewrite Ha in H. pose proof (as_slice_capacity a). unfold MAX_DNS_SERVER_COUNT in *.
    split_and!; [done..|]. cbn. rewrite concat_length4 by done. lia.
  - eapply Forall_impl; [apply (em_additional r He)|]. by intros o [? _].
Qed.

Lemma opt_list_length {A} (o : option A) f n :
  (forall a, o = Some a -> length (opt_data (f a)) = n) ->
  length (options_octets (opt_list o f)) = match o with Some _ => (2 + n)%nat | None => 0%nat end.
Proof. intros H. destruct o; cbn; [rewrite app_nil_r, H|]; done. Qed.

(** [buffer_len] is what [emit] needs. *)
Lemma buffer_len_options r :
  dhcp_wf r -> DhcpRepr.buffer_len r = (240 + length (options_octets (options_of r)) + 1)%nat.
Proof.
  intros Hr. unfold DhcpRepr.buffer_len, options_of. rewrite !options_octets_app, !length_app.
  rewrite (opt_list_length _ _ 7).
  2: { intros a Ha. pose proof (wf_client_id r Hr) as H. rewrite Ha in H. destruct H as [H _]. cbn. lia. }
  rewrite (opt_list_length (server_identifier r) _ 4).
  2: { intros a Ha. pose proof (wf_server_id r Hr) as H. rewrite Ha in H. by destruct H. }
  rewrite (opt_list_length (router r) _ 4).
  2: { intros a Ha. pose proof (wf_router r Hr) as H. rewrite Ha in H. by destruct H. }
  rewrite (opt_list_length (subnet_mask r) _ 4).
  2: { intros a Ha. pose proof (wf_subnet r Hr) as H. rewrite Ha in H. by destruct H. }
  rewrite (opt_list_length (requested_ip r) _ 4).
  2: { intros a Ha. pose proof (wf_requested r Hr) as H. rewrite Ha in H. by destruct H. }
  rewrite (opt_list_length (max_size r) _ 2) by done.
  rewrite (opt_list_length (lease_duration r) _ 4) by done.
  assert (length (options_octets (opt_list (parameter_request_list r) (mkDhcpOption OPT_PARAMETER_REQUEST_LIST))) =
    match parameter_request_list r with Some list => length list + 2 | None => 0 end)%nat as ->.
  { destruct (parameter_request_list r); cbn; [|done]. rewrite app_nil_r. lia. }
  assert (length (options_octets (opt_list (dns_servers r) (fun v => mkDhcpOption OPT_DOMAIN_NAME_SERVER (concat (as_slice v)))))
    = match dns_servers r with Some servers => 2 + length (as_slice servers) * 4 | None => 0 end)%nat as ->.
  { pose proof (wf_dns r Hr) as H. destruct (dns_servers r) as [v|]; cbn; [|done].
    rewrite app_nil_r. by rewrite concat_length4. }
  assert (length (options_octets (additional_options r)) =
    foldr (fun o n => 2 + length (opt_data o) + n) 0 (additional_options r))%nat as ->.
  { induction (additional_options r) as [|o l IH]; [done|]. unfold options_octets in *. cbn.
    rewrite length_app, IH. done. }
  change (2 + 4)%nat with 6%nat. change (2 + 7)%nat with 9%nat. change (2 + 2)%nat with 4%nat.
  cbn [options_octets fmap list_fmap concat option_octets opt_data length app]. lia.
Qed.

(** *** The header *)

Definition dhcp_flag_bits r : Z := if broadcast r then DHCP_BROADCAST else 0.

Definition head_octets r : list Z :=
  [DhcpOpCode.into (DhcpMessageType.opcode (message_type r)); 1; 6; 0] ++ be32 (transaction_id r) ++ be16 (secs r)
  ++ be16 (dhcp_flag_bits r) ++ client_ip r ++ your_ip r ++ server_ip r ++ relay_agent_ip r
  ++ client_hardware_address r.

Definition header_octets r : list Z := head_octets r ++ replicate 202 0 ++ be32 DHCP_MAGIC_NUMBER.

Lemma head_octets_length r : dhcp_wf r -> length (head_octets r) = 34%nat.
Proof.
  intros [_ _ [Hch _] [Hci _] [Hyi _] [Hsi _] [Hgi _] _ _ _ _ _ _ _ _ _ _ _]. unfold head_octets.
  rewrite !length_app. cbn [length be16 be32]. lia.
Qed.

Lemma put_u16_prefix h t a b v :
  b = (a + 2)%nat -> (b <= length h)%nat -> 0 <= v <= U16_MAX ->
  put_u16 a b v (h ++ t) = Ret ((take a h ++ v / 256 :: v mod 256 :: drop b h) ++ t).
Proof.
  intros Hb Hl Hv. rewrite put_u16_octets by (rewrite ?length_app; lia). rewrite take_app_le, drop_app_le by lia.
  by rewrite <-app_assoc.
Qed.

Lemma put_u32_prefix h t a b v :
  b = (a + 4)%nat -> (b <= length h)%nat -> 0 <= v <= U32_MAX ->
  put_u32 a b v (h ++ t) = Ret ((take a h ++ be32 v ++ drop b h) ++ t).
Proof.
  intros Hb Hl Hv. rewrite put_u32_octets by (rewrite ?length_app; lia). rewrite take_app_le, drop_app_le by lia.
  by rewrite <-!app_assoc.
Qed.

Lemma set_magic_ok h d v :
  length h = 34%nat -> (4 <= length d)%nat -> 0 <= v <= U32_MAX ->
  put_u32 236 240 v (h ++ replicate 202 0 ++ d) = Ret (h ++ replicate 202 0 ++ be32 v ++ drop 4 d).
Proof.
  intros Hh Hd Hv. rewrite put_u32_octets by (rewrite ?length_app, ?length_replicate; lia).
  rewrite take_app_ge, drop_app_ge by lia. rewrite Hh. rewrite take_app_ge, drop_app_ge by (rewrite length_replicate; lia).
  rewrite length_replicate. replace (236 - 34 - 202)%nat with 0%nat by lia. replace (240 - 34 - 202)%nat with 4%nat by lia.
  by rewrite take_0, app_nil_r, <-app_assoc.
Qed.

Lemma zero_names_ok packet :
  (240 <= length packet)%nat ->
  DhcpPacket.set_sname_and_boot_file_to_zero packet = Ret (take 34 packet ++ replicate 202 0 ++ drop 236 packet).
Proof.
  intros Hl. unfold DhcpPacket.set_sname_and_boot_file_to_zero.
  rewrite put_slice_ok; [|lia|by rewrite length_replicate]. cbn [mbind outcome_bind].
  assert (length (take 34 packet ++ replicate 74 0) = 108%nat) as H108
    by (rewrite length_app, length_take, length_replicate; lia).
  rewrite (app_assoc (take 34 packet)). rewrite put_slice_ok.
  - rewrite take_app_le, take_ge by lia. rewrite drop_app_ge by lia. rewrite H108, drop_drop.
    rewrite <-app_assoc, (app_assoc (replicate 74 0)), <-replicate_add. done.
  - rewrite length_app, length_drop. lia.
  - by rewrite length_replicate.
Qed.

(** The octets before the names, and the others. *)
Definition joined (h t : list Z) : list Z := h ++ t.

Lemma set_byte_joined h t i v h' : set_byte i v h = Ret h' -> set_byte i v (joined h t) = Ret (joined h' t).
Proof. apply set_byte_prefix. Qed.
Lemma put_slice_joined h t a b v h' :
  put_slice a b v h = Ret h' -> put_slice a b v (joined h t) = Ret (joined h' t).
Proof. apply put_slice_prefix. Qed.
Lemma put_u16_joined h t a b v h' :
  take a h ++ v / 256 :: v mod 256 :: drop b h = h' -> b = (a + 2)%nat -> (b <= length h)%nat -> 0 <= v <= U16_MAX ->
  put_u16 a b v (joined h t) = Ret (joined h' t).
Proof. intros <-. apply put_u16_prefix. Qed.
Lemma put_u32_joined h t a b v h' :
  take a h ++ be32 v ++ drop b h = h' -> b = (a + 4)%nat -> (b <= length h)%nat -> 0 <= v <= U32_MAX ->
  put_u32 a b v (joined h t) = Ret (joined h' t).
Proof. intros <-. apply put_u32_prefix. Qed.

(** A setter of the header. *)
Ltac set_header :=
  first
  [ erewrite set_byte_joined by reflexivity
  | erewrite put_slice_joined by reflexivity
  | erewrite put_u16_joined by (reflexivity || done || (cbn; lia))
  | erewrite put_u32_joined by (reflexivity || done || (cbn; lia)) ];
  cbn [mbind outcome_bind take drop app be32 insert list_insert splice Nat.add length].

Lemma flag_bits_ok r :
  flags_bits (if broadcast r then flags_union flags_empty (from_bits_truncate DHCP_BROADCAST) else flags_empty) =
    dhcp_flag_bits r.
Proof.
  unfold dhcp_flag_bits. destruct (broadcast r); [|by rewrite bits_empty].
  by rewrite bits_union, bits_empty, bits_truncate.
Qed.

Lemma dhcp_emit_header_ok r packet :
  dhcp_wf r -> (240 <= length packet)%nat ->
  DhcpRepr.emit_header r packet = Ret (header_octets r ++ drop 240 packet).
Proof.
  intros Hr Hl. unfold DhcpRepr.emit_header. rewrite zero_names_ok by done. cbn [mbind outcome_bind].
  fold (joined (take 34 packet) (replicate 202 0 ++ drop 236 packet)).
  assert (length (take 34 packet) = 34)%nat as H34 by (rewrite length_take; lia).
  assert (drop 240 packet = drop 4 (drop 236 packet)) as -> by (by rewrite drop_drop).
  assert (4 <= length (drop 236 packet))%nat as Hd by (rewrite length_drop; lia).
  revert H34 Hd. generalize (take 34 packet) (drop 236 packet). clear packet Hl. intros h d H34 Hd.
  destruct Hr as [Hxid Hsecs [Hch _] [Hci _] [Hyi _] [Hsi _] [Hgi _] _ _ _ _ _ _ _ _ _ _ _].
  do 34 (destruct h as [|? h]; [done|]). destruct h; [|done].
  unfold header_octets, head_octets. destruct r as [mt xid sc ch ci yi si ro sm gi bc rq cid sid prl dns ms ld rn rb ao].
  cbn [message_type transaction_id secs client_hardware_address client_ip your_ip server_ip relay_agent_ip] in *.
  destruct ci as [|? [|? [|? [|? [|]]]]]; try done. destruct yi as [|? [|? [|? [|? [|]]]]]; try done.
  destruct si as [|? [|? [|? [|? [|]]]]]; try done. destruct gi as [|? [|? [|? [|? [|]]]]]; try done.
  destruct ch as [|? [|? [|? [|? [|? [|? [|]]]]]]]; try done.
  unfold DhcpPacket.set_opcode at 1. set_header.
  unfold DhcpPacket.set_hardware_type at 1. change (rust_assert _) with (Ret ()). cbn [ArpHardware.into mbind outcome_bind].
  set_header. unfold DhcpPacket.set_hardware_len at 1. set_header.
  unfold DhcpPacket.set_transaction_id at 1. set_header.
  unfold DhcpPacket.set_client_hardware_address at 1. set_header.
  unfold DhcpPacket.set_hops at 1. set_header. unfold DhcpPacket.set_secs at 1. set_header.
  unfold DhcpPacket.set_magic_number at 1. unfold joined at 1.
  rewrite set_magic_ok by (done || lia). cbn [mbind outcome_bind].
  match goal with |- context [?h ++ replicate 202 0 ++ ?t] => change (h ++ replicate 202 0 ++ t) with (joined h (replicate 202 0 ++ t)) end.
  unfold DhcpPacket.set_client_ip at 1. set_header. unfold DhcpPacket.set_your_ip at 1. set_header.
  unfold DhcpPacket.set_server_ip at 1. set_header. unfold DhcpPacket.set_relay_agent_ip at 1. set_header.
  unfold DhcpPacket.set_flags. rewrite flag_bits_ok. destruct bc; cbn [broadcast]; set_header; done.
Qed.

(** The accessors on an emitted header. *)
Lemma header_fields r rest (packet := header_octets r ++ rest) :
  dhcp_wf r ->
  DhcpPacket.check_len packet = Ok () /\
  DhcpPacket.opcode packet = Ret (DhcpOpCode.from (DhcpOpCode.into (DhcpMessageType.opcode (message_type r)))) /\
  DhcpPacket.hardware_type packet = Ret ArpHardware.Ethernet /\
  DhcpPacket.hardware_len packet = Ret 6 /\
  DhcpPacket.transaction_id packet = Ret (transaction_id r) /\
  DhcpPacket.secs packet = Ret (secs r) /\
  get_u16 10 12 packet = Ret (dhcp_flag_bits r) /\
  DhcpPacket.client_ip packet = Ret (client_ip r) /\
  DhcpPacket.your_ip packet = Ret (your_ip r) /\
  DhcpPacket.server_ip packet = Ret (server_ip r) /\
  DhcpPacket.relay_agent_ip packet = Ret (relay_agent_ip r) /\
  DhcpPacket.client_hardware_address packet = Ret (client_hardware_address r) /\
  DhcpPacket.magic_number packet = Ret DHCP_MAGIC_NUMBER /\
  range packet 240 (length packet) = Ret rest.
Proof.
  intros Hr. subst packet.
  pose proof (head_octets_length r Hr) as H34.
  assert (length (header_octets r) = 240%nat) as H240.
  { unfold header_octets. rewrite !length_app, length_replicate. cbn [length be32]. lia. }
  assert (DhcpPacket.check_len (header_octets r ++ rest) = Ok ()) as Hc.
  { unfold DhcpPacket.check_len. rewrite (proj2 (Nat.ltb_ge _ _)) by (rewrite length_app; lia). done. }
  assert (range (header_octets r ++ rest) 240 (length (header_octets r ++ rest)) = Ret rest) as Ho.
  { rewrite range_Ret by (rewrite ?length_app; lia). unfold slice. rewrite <-H240, drop_app_length, length_app.
    f_equal. apply take_ge. lia. }
  assert (DhcpPacket.magic_number (header_octets r ++ rest) = Ret DHCP_MAGIC_NUMBER) as Hm.
  { unfold DhcpPacket.magic_number, header_octets, get_u32. rewrite <-app_assoc, <-(app_assoc (replicate _ _)).
    rewrite range_Ret by (rewrite ?length_app, ?length_replicate; cbn [length be32]; lia). cbn [mbind outcome_bind].
    rewrite (app_assoc _ (replicate _ _)), slice_mid by (rewrite ?length_app, ?length_replicate; cbn [length be32]; lia).
    rewrite <-(app_nil_r (be32 _)). by apply read_be32. }
  split; [done|]. destruct Hr as [Hxid Hsecs [Hch _] [Hci _] [Hyi _] [Hsi _] [Hgi _] _ _ _ _ _ _ _ _ _ _ _].
  assert (word (dhcp_flag_bits r)) as Hfl by (unfold dhcp_flag_bits, word, DHCP_BROADCAST; case_match; lia).
  revert Hm Ho. unfold header_octets. rewrite <-(app_assoc _ (replicate 202 0 ++ _)).
  generalize ((replicate 202 0 ++ be32 DHCP_MAGIC_NUMBER) ++ rest). intros t Hm Ho.
  unfold DhcpPacket.opcode, DhcpPacket.hardware_type, DhcpPacket.hardware_len, DhcpPacket.transaction_id,
    DhcpPacket.secs, DhcpPacket.client_ip, DhcpPacket.your_ip, DhcpPacket.server_ip, DhcpPacket.relay_agent_ip,
    DhcpPacket.client_hardware_address, get_u32, get_u16.
  revert Hm Ho. clear H240 Hc H34. unfold head_octets.
  destruct r as [mt xid sc ch ci yi si ro sm gi bc rq cid sid prl dns ms ld rn rb ao].
  cbn [message_type transaction_id secs client_hardware_address client_ip your_ip server_ip relay_agent_ip] in *.
  destruct ci as [|? [|? [|? [|? [|]]]]]; try done. destruct yi as [|? [|? [|? [|? [|]]]]]; try done.
  destruct si as [|? [|? [|? [|? [|]]]]]; try done. destruct gi as [|? [|? [|? [|? [|]]]]]; try done.
  destruct ch as [|? [|? [|? [|? [|? [|? [|]]]]]]]; try done.
  intros Hm Ho. rewrite !range_prefix by (cbn; lia). rewrite !get_byte_prefix by (cbn; lia).
  split_and!; try done.
  - apply (read_be32 xid []), Hxid.
  - apply (read_be16 sc []), Hsecs.
  - apply (read_be16 (dhcp_flag_bits _) []), Hfl.
Qed.

(** *** The options *)

Lemma parse_options_app op l1 l2 p :
  DhcpRepr.parse_options op (l1 ++ l2) p =
    (p ←? DhcpRepr.parse_options op l1 p; DhcpRepr.parse_options op l2 p).
Proof.
  revert p. induction l1 as [|o l1 IH]; intros p; [done|]. cbn.
  destruct (DhcpRepr.parse_option op o p) as [[p'|e]|]; cbn; [apply IH|done..].
Qed.

Lemma parse_opt_step {A} op (o : option A) f l p p' :
  match o with Some a => DhcpRepr.parse_option op (f a) p = Ret (Ok p') | None => p = p' end ->
  DhcpRepr.parse_options op (opt_list o f ++ l) p = DhcpRepr.parse_options op l p'.
Proof. destruct o; cbn; [by intros ->|by intros ->]. Qed.

Lemma parse_additional op l p :
  Forall (fun o => written o /\ opt_kind o ∉ known_kinds) l -> DhcpRepr.parse_options op l p = Ret (Ok p).
Proof.
  induction l as [|o l IH]; intros Hl; [done|]. apply Forall_cons_1 in Hl as [[_ Ho] Hl]. cbn [DhcpRepr.parse_options].
  assert (DhcpRepr.parse_option op o p = Ret (Ok p)) as ->; [|cbn; by apply IH].
  unfold known_kinds in Ho. rewrite !not_elem_of_cons in Ho. destruct_and!. unfold DhcpRepr.parse_option. cbn zeta.
  by rewrite !(proj2 (Z.eqb_neq _ _)) by done.
Qed.

Lemma push_servers_concat fuel l s :
  Forall ipv4_wf l -> (length l <= fuel)%nat -> (length (as_slice s) + length l <= MAX_DNS_SERVER_COUNT)%nat ->
  exists v, DhcpRepr.push_servers fuel (concat l) s = Ret v /\ as_slice v = as_slice s ++ l.
Proof.
  revert fuel s. induction l as [|a l IH]; intros fuel s Hl Hf Hs.
  - exists s. rewrite app_nil_r. by destruct fuel.
  - apply Forall_cons_1 in Hl as [Ha Hl]. destruct fuel as [|fuel]; cbn [length] in *; [lia|]. cbn [DhcpRepr.push_servers concat].
    destruct Ha as [Ha4 Hab]. rewrite (proj2 (Nat.ltb_ge _ _)) by (rewrite length_app; lia).
    rewrite take_app_length', drop_app_length' by done. destruct (ipv4_from_bytes a Ha4 Hab) as [-> _].
    cbn [mbind outcome_bind]. pose proof (vec_push_elems a s) as Hp. rewrite (proj2 (Nat.ltb_lt _ _)) in Hp by lia.
    destruct (IH fuel (vec_push a s).1) as (v & Hv & Hsv); [done|lia|rewrite Hp, length_app; cbn; lia|].
    exists v. split; [done|]. by rewrite Hsv, Hp, <-app_assoc.
Qed.

Lemma message_type_from m : (forall id, m <> DhcpMessageType.Unknown id) -> DhcpMessageType.from (DhcpMessageType.into m) = m.
Proof. intros H. destruct m; done || by destruct (H id). Qed.

Lemma opcode_from m :
  DhcpOpCode.from (DhcpOpCode.into (DhcpMessageType.opcode m)) = DhcpMessageType.opcode m.
Proof. by destruct m. Qed.

Lemma parse_u16_option n : word n -> DhcpRepr.u16_from (be16 n) = Ret n.
Proof. intros Hn. unfold DhcpRepr.u16_from. cbn. f_equal. unfold word in Hn. symmetry. apply Z.div_mod. lia. Qed.

Lemma parse_u32_option n : u32_ok n -> DhcpRepr.u32_from (be32 n) = Ret n.
Proof. intros Hn. unfold DhcpRepr.u32_from. cbn. f_equal. unfold u32_ok in Hn. apply be32_decode. lia. Qed.

Lemma parse_options_of r :
  dhcp_wf r -> emittable r ->
  exists v, as_slice <$> v = as_slice <$> dns_servers r /\
    DhcpRepr.parse_options (DhcpMessageType.opcode (message_type r)) (options_of r) no_options =
      Ret (Ok (mkParsedOptions (Some (message_type r)) (requested_ip r) (client_identifier r) (server_identifier r)
        (router r) (subnet_mask r) (parameter_request_list r) v (max_size r) (lease_duration r) None None)).
Proof.
  intros Hr He. destruct r as [mt xid sc ch ci yi si ro sm gi bc rq cid sid prl dns ms ld rn rb ao].
  destruct Hr as [_ _ _ _ _ _ _ Hro Hsm Hrq Hcid Hsid Hprl Hdns Hms Hld _ _].
  destruct He as [Hmt _ _ _ Hao]. unfold options_of, no_options.
  cbn [message_type requested_ip client_identifier server_identifier router subnet_mask parameter_request_list dns_servers
       max_size lease_duration additional_options] in *.
  assert (exists v, as_slice <$> v = as_slice <$> dns /\ forall op p,
    match dns with
    | Some d => DhcpRepr.parse_option op (mkDhcpOption OPT_DOMAIN_NAME_SERVER (concat (as_slice d))) p =
                  Ret (Ok (p <| po_dns_servers := v |>))
    | None => v = None
    end) as (v & Hv & Hparse).
  { destruct dns as [d|]; [|by exists None]. cbn in Hdns. pose proof (as_slice_capacity d).
    destruct (push_servers_concat (length (concat (as_slice d))) (as_slice d) vec_new) as (v & Hp & Hs);
      [done|rewrite concat_length4 by done; lia|rewrite as_slice_new; done|].
    exists (Some v). split; [cbn; by rewrite Hs, as_slice_new|]. intros op p. unfold DhcpRepr.parse_option.
    cbn [opt_data opt_kind]. by rewrite Hp. }
  exists v. split; [done|]. cbn [app DhcpRepr.parse_options]. unfold DhcpRepr.parse_option at 1.
  cbn [opt_data opt_kind length]. cbn [get_byte unwrap lookup list_lookup mbind outcome_bind andb].
  change ((OPT_DHCP_MESSAGE_TYPE =? OPT_DHCP_MESSAGE_TYPE) && (1 =? 1)%nat) with true. cbn iota.
  rewrite message_type_from, bool_decide_eq_true_2 by done. cbn [try_bind].
  rewrite (parse_opt_step _ cid _ _ _ (mkParsedOptions (Some mt) None cid None None None None None None None None None)).
  2: { destruct cid as [a|]; [|done]. destruct Hcid as [H _]. destruct a as [|? [|? [|? [|? [|? [|? [|]]]]]]]; done. }
  rewrite (parse_opt_step _ sid _ _ _ (mkParsedOptions (Some mt) None cid sid None None None None None None None None)).
  2: { destruct sid as [a|]; [|done]. destruct Hsid as [H _]. destruct a as [|? [|? [|? [|? [|]]]]]; done. }
  rewrite (parse_opt_step _ ro _ _ _ (mkParsedOptions (Some mt) None cid sid ro None None None None None None None)).
  2: { destruct ro as [a|]; [|done]. destruct Hro as [H _]. destruct a as [|? [|? [|? [|? [|]]]]]; done. }
  rewrite (parse_opt_step _ sm _ _ _ (mkParsedOptions (Some mt) None cid sid ro sm None None None None None None)).
  2: { destruct sm as [a|]; [|done]. destruct Hsm as [H _]. destruct a as [|? [|? [|? [|? [|]]]]]; done. }
  rewrite (parse_opt_step _ rq _ _ _ (mkParsedOptions (Some mt) rq cid sid ro sm None None None None None None)).
  2: { destruct rq as [a|]; [|done]. destruct Hrq as [H _]. destruct a as [|? [|? [|? [|? [|]]]]]; done. }
  rewrite (parse_opt_step _ ms _ _ _ (mkParsedOptions (Some mt) rq cid sid ro sm None None ms None None None)).
  2: { destruct ms as [a|]; [|done]. unfold DhcpRepr.parse_option. cbn [opt_data opt_kind]. by rewrite parse_u16_option. }
  rewrite (parse_opt_step _ ld _ _ _ (mkParsedOptions (Some mt) rq cid sid ro sm None None ms ld None None)).
  2: { destruct ld as [a|]; [|done]. unfold DhcpRepr.parse_option. cbn [opt_data opt_kind]. by rewrite parse_u32_option. }
  rewrite (parse_opt_step _ prl _ _ _ (mkParsedOptions (Some mt) rq cid sid ro sm prl None ms ld None None)) by (by destruct prl).
  rewrite (parse_opt_step _ dns _ _ _ (mkParsedOptions (Some mt) rq cid sid ro sm prl v ms ld None None)).
  2: { specialize (Hparse (DhcpMessageType.opcode mt) (mkParsedOptions (Some mt) rq cid sid ro sm prl None ms ld None None)).
       destruct dns; [done|by rewrite Hparse]. }
  by apply parse_additional.
Qed.

(** Up to the representation of the list of name servers. *)
Definition same_message r1 r2 : Prop :=
  r1 <| dns_servers := None |> = r2 <| dns_servers := None |> /\ as_slice <$> dns_servers r1 = as_slice <$> dns_servers r2.

Lemma dhcp_emit_octets r packet :
  dhcp_wf r -> emittable r -> (DhcpRepr.buffer_len r <= length packet)%nat ->
  exists rest, DhcpRepr.emit r packet = Ret (Ok (header_octets r ++ options_octets (options_of r) ++ OPT_END :: rest)).
Proof.
  intros Hr He Hl. rewrite buffer_len_options in Hl by done. unfold DhcpRepr.emit.
  rewrite dhcp_emit_header_ok by (done || lia). cbn [mbind outcome_bind]. unfold DhcpPacket.options_mut.
  destruct (header_fields r (drop 240 packet) Hr) as (_ & _ & _ & _ & _ & _ & _ & _ & _ & _ & _ & _ & _ & ->).
  cbn [mbind outcome_bind]. rewrite emit_options_all by done.
  assert (length (header_octets r) = 240%nat) as H240.
  { unfold header_octets. rewrite !length_app, head_octets_length, length_replicate by done. done. }
  pose proof (emit_all_ok (options_of r) (header_octets r) (drop 240 packet) (options_of_written r Hr He)
    ltac:(rewrite length_drop; lia)) as Hall.
  rewrite H240 in Hall. rewrite Hall. cbn [try_bind].
  destruct (drop (length (options_octets (options_of r))) (drop 240 packet)) as [|x rest] eqn:Hd.
  { apply (f_equal length) in Hd. rewrite !length_drop in Hd. cbn [length] in Hd. lia. }
  rewrite writer_end_ok. cbn [try_bind DhcpOptionWriter.w_data]. exists rest. by rewrite <-app_assoc.
Qed.
End RoundTrip.

(** A DHCP message survives the wire: emitting it into a buffer of [buffer_len]
    octets or more succeeds, and parsing the result gives the message back, name
    servers included; additional options, which the parser does not know, are
    skipped.  T1 and T2 are not written by [emit], so the message has none. *)
Theorem dhcp_emit_parse_roundtrip {BO : ByteOrder} (NE : NetworkEndian BO) {DF : Bitflags DHCP_BROADCAST}
    (DFL : BitflagsLaws DF) {DV : Vec (list Z)} (DVL : VecLaws DV MAX_DNS_SERVER_COUNT) r packet
    (Hr : dhcp_wf r) (He : emittable r) (Hl : (DhcpRepr.buffer_len r <= length packet)%nat) :
  exists octets r', DhcpRepr.emit r packet = Ret (Ok octets) /\ DhcpRepr.parse octets = Ret (Ok r') /\
    same_message r' (r <| additional_options := [] |>).
Proof.
  destruct (dhcp_emit_octets r packet Hr He Hl) as [rest Hemit]. rewrite Hemit.
  destruct (header_fields r (options_octets (options_of r) ++ OPT_END :: rest) Hr)
    as (Hc & Hop & Hht & Hhl & Hx & Hs & Hf & Hci & Hyi & Hsi & Hgi & Hch & Hm & Ho).
  destruct (parse_options_of r Hr He) as (v & Hv & Hp). eexists _, _. split; [done|].
  unfold DhcpRepr.parse, DhcpPacket.options, DhcpPacket.flags.
  rewrite Hc, Hop, Hht, Hhl, Hx, Hs, Hf, Hci, Hyi, Hsi, Hgi, Hch, Hm, Ho. cbn [mbind outcome_bind].
  change (negb (6 =? 6)) with false. rewrite Z.eqb_refl. cbn iota. cbn [negb].
  rewrite options_from_written by
    (by apply options_of_written || (rewrite length_app; pose proof (length_options_octets (options_of r)); cbn [length]; lia)).
  rewrite opcode_from, Hp. cbn [try_bind po_message_type]. split; [done|].
  assert (flags_contains (from_bits_truncate (dhcp_flag_bits r)) (from_bits_truncate DHCP_BROADCAST) = broadcast r) as Hb.
  { rewrite contains_bits, !bits_truncate. unfold dhcp_flag_bits. by destruct (broadcast r). }
  split; [|done]. destruct r, He as [_ _ Hrn Hrb _]. cbn in *. by rewrite Hb, Hrn, Hrb.
Qed.
