(* ===== verification/Dhcpv4Socket.v ===== *)
(** * The DHCP client (src/socket/dhcpv4.rs)

    [Socket] has the fields of the source; [process], [parse_ack], [dispatch],
    [poll_at], [reset] and [poll] are its operations, with the settings of the
    application.  A DHCP packet that is handed to the application is its octets. *)

From S2P Require Import Prelude Collections Time Phy Bytes Octets Flags Ip LinkLayer Cidr UdpWire.
From S2P Require Import TcpTimers Context Dhcpv4Wire.
Open Scope Z_scope.

(** [Duration::from_secs(120)] *)
Definition DEFAULT_LEASE_DURATION : Duration := 120 * 1000000.

Definition DEFAULT_PARAMETER_REQUEST_LIST : list Z :=
  [OPT_SUBNET_MASK; OPT_ROUTER; OPT_DOMAIN_NAME_SERVER].

Record ServerInfo := mkServerInfo { si_address : list Z; si_identifier : list Z }.

#[export] Instance ServerInfo_eq_dec : EqDecision ServerInfo.
Proof. solve_decision. Defined.

Record RetryConfig := mkRetryConfig {
  discover_timeout : Duration;
  initial_request_timeout : Duration;
  request_retries : Z;
  min_renew_timeout : Duration;
  max_renew_timeout : Duration
}.

(** [RetryConfig::default()] *)
Definition default_retry_config : RetryConfig :=
  mkRetryConfig (10 * 1000000) (5 * 1000000) 5 (60 * 1000000) Duration.MAX.

Section Types.
Context {DV : Vec (list Z)}.

Record Config := mkConfig {
  cfg_server : ServerInfo;
  cfg_address : Ipv4Cidr.t;
  cfg_router : option (list Z);
  cfg_dns_servers : vec (list Z);
  cfg_packet : option (list Z)
}.

(** [config == other]; vectors are compared by their elements. *)
Definition config_eqb (c d : Config) : bool :=
  bool_decide (cfg_server c = cfg_server d) && bool_decide (cfg_address c = cfg_address d)
  && bool_decide (cfg_router c = cfg_router d)
  && bool_decide (as_slice (cfg_dns_servers c) = as_slice (cfg_dns_servers d))
  && bool_decide (cfg_packet c = cfg_packet d).

Record DiscoverState := mkDiscoverState { ds_retry_at : Instant }.

Record RequestState := mkRequestState {
  rs_retry_at : Instant;
  rs_retry : Z;
  rs_server : ServerInfo;
  rs_requested_ip : list Z
}.

Record RenewState := mkRenewState {
  rn_config : Config;
  rn_renew_at : Instant;
  rn_rebind_at : Instant;
  rn_rebinding : bool;
  rn_expires_at : Instant
}.

#[global] Instance eta_RenewState : Settable RenewState := fun s =>
  mkRenewState (rn_config s) (rn_renew_at s) (rn_rebind_at s) (rn_rebinding s) (rn_expires_at s).

Inductive ClientState :=
| Discovering (s : DiscoverState)
| Requesting (s : RequestState)
| Renewing (s : RenewState).

Inductive Event :=
| Deconfigured
| Configured (c : Config).
End Types.
Arguments Config {DV}.
Arguments RenewState {DV}.
Arguments ClientState {DV}.
Arguments Event {DV}.

Module DhcpSocket.
Section Socket.
Context {BO : ByteOrder} {DF : Bitflags DHCP_BROADCAST} {DV : Vec (list Z)}.

Record Socket := mkSocket {
  state : ClientState;
  config_changed_flag : bool;
  transaction_id : Z;
  max_lease_duration : option Duration;
  retry_config : RetryConfig;
  ignore_naks : bool;
  server_port : Z;
  client_port : Z;
  outgoing_options : list DhcpOption;
  parameter_request_list : option (list Z);
  receive_packet_buffer : option (list Z);
  waker : WakerRegistration
}.

#[global] Instance eta_Socket : Settable Socket := fun s =>
  mkSocket (state s) (config_changed_flag s) (transaction_id s) (max_lease_duration s) (retry_config s)
    (ignore_naks s) (server_port s) (client_port s) (outgoing_options s) (parameter_request_list s)
    (receive_packet_buffer s) (waker s).

Implicit Types (s : Socket) (cx : Context).

Definition new : Socket :=
  mkSocket (Discovering (mkDiscoverState 0)) true 1 None default_retry_config false DHCP_SERVER_PORT DHCP_CLIENT_PORT
    [] None None WakerRegistration.new.

Definition set_retry_config (config : RetryConfig) s : Socket := s <| retry_config := config |>.
Definition set_outgoing_options (options : list DhcpOption) s : Socket := s <| outgoing_options := options |>.
Definition set_receive_packet_buffer (buffer : list Z) s : Socket := s <| receive_packet_buffer := Some buffer |>.
Definition set_parameter_request_list (l : list Z) s : Socket := s <| parameter_request_list := Some l |>.
Definition set_max_lease_duration (d : option Duration) s : Socket := s <| max_lease_duration := d |>.
Definition set_ignore_naks (b : bool) s : Socket := s <| ignore_naks := b |>.
Definition set_ports (server client : Z) s : Socket := s <| server_port := server |> <| client_port := client |>.
Definition register_waker (w : Waker) s : Socket := s <| waker ::= WakerRegistration.register w |>.

Definition poll_at s : PollAt :=
  PollTime match state s with
  | Discovering st => ds_retry_at st
  | Requesting st => rs_retry_at st
  | Renewing st =>
      Z.min (if rn_rebinding st then rn_rebind_at st else Z.min (rn_renew_at st) (rn_rebind_at st))
        (rn_expires_at st)
  end.

Definition config_changed s : Socket :=
  s <| config_changed_flag := true |> <| waker ::= WakerRegistration.wake |>.

Definition reset s : Socket :=
  let s := match state s with Renewing _ => config_changed s | _ => s end in
  s <| state := Discovering (mkDiscoverState 0) |>.

(** T1 and T2. *)
Definition renew_rebind (renew rebind : option Duration) (lease_duration : Duration) :
    outcome (Duration * Duration) :=
  match renew, rebind with
  | Some renew_duration, Some rebind_duration => Ret (renew_duration, rebind_duration)
  | None, None =>
      half ← Duration.div lease_duration 2;
      seven ← Duration.mul lease_duration 7;
      eighths ← Duration.div seven 8;
      Ret (half, eighths)
  | Some renew_duration, None =>
      gap ← Duration.sub lease_duration renew_duration;
      three ← Duration.mul gap 3;
      quarters ← Duration.div three 4;
      rebind ← Duration.add renew_duration quarters;
      Ret (renew_duration, rebind)
  | None, Some rebind_duration =>
      half ← Duration.div lease_duration 2;
      Ret (Z.min half rebind_duration, rebind_duration)
  end.

(** [option.map(|d| Duration::from_secs(d))] *)
Definition map_secs (o : option Z) : outcome (option Duration) :=
  match o with Some n => d ← Duration.from_secs n; Ret (Some d) | None => Ret None end.

(** The unicast addresses, pushed until the vector is full. *)
Fixpoint push_unicast (l : list (list Z)) (servers : vec (list Z)) : vec (list Z) :=
  match l with
  | [] => servers
  | a :: l => push_unicast l (if Ipv4Address.is_unicast a then (vec_push a servers).1 else servers)
  end.

Definition parse_ack (now : Instant) (r : DhcpRepr) (max_lease_duration : option Duration) (server : ServerInfo) :
    outcome (option (Config * Instant * Instant * Instant)) :=
  match subnet_mask r with
  | None => Ret None
  | Some subnet_mask =>
      match address_prefix_len (Ipv4 subnet_mask) with
      | None => Ret None
      | Some prefix_len =>
          if negb (Ipv4Address.is_unicast (your_ip r)) then Ret None else
          lease ← map_secs (lease_duration r);
          let lease_duration := default DEFAULT_LEASE_DURATION lease in
          let lease_duration :=
            match max_lease_duration with Some max => Z.min lease_duration max | None => lease_duration end in
          let dns_servers :=
            push_unicast (match dns_servers r with Some v => as_slice v | None => [] end) vec_new in
          address ← Ipv4Cidr.new (your_ip r) prefix_len;
          let config := mkConfig server address (router r) dns_servers None in
          renew ← map_secs (renew_duration r);
          rebind ← map_secs (rebind_duration r);
          '(renew_duration, rebind_duration) ← renew_rebind renew rebind lease_duration;
          renew_at ← Instant.add now renew_duration;
          rebind_at ← Instant.add now rebind_duration;
          expires_at ← Instant.add now lease_duration;
          Ret (Some (config, renew_at, rebind_at, expires_at))
      end
  end.

(** [buffer.get_mut(..payload.len())], filled from the payload. *)
Definition keep_packet (payload : list Z) s : Socket :=
  match receive_packet_buffer s with
  | Some buffer =>
      if (length payload <=? length buffer)%nat
      then s <| receive_packet_buffer := Some (splice buffer 0 payload) |> else s
  | None => s
  end.

(** The transition for a message that is meant for this client. *)
Definition process_message cx (src_ip server_identifier : list Z) (r : DhcpRepr) s : outcome Socket :=
  match state s, message_type r with
  | Discovering _, DhcpMessageType.Offer =>
      if negb (Ipv4Address.is_unicast (your_ip r)) then Ret s else
      Ret (s <| state := Requesting (mkRequestState (now cx) 0 (mkServerInfo src_ip server_identifier) (your_ip r)) |>)
  | Requesting st, DhcpMessageType.Ack =>
      ack ← parse_ack (now cx) r (max_lease_duration s) (rs_server st);
      match ack with
      | Some (config, renew_at, rebind_at, expires_at) =>
          Ret (config_changed (s <| state := Renewing (mkRenewState config renew_at rebind_at false expires_at) |>))
      | None => Ret s
      end
  | Requesting _, DhcpMessageType.Nak => Ret (if ignore_naks s then s else reset s)
  | Renewing st, DhcpMessageType.Ack =>
      ack ← parse_ack (now cx) r (max_lease_duration s) (cfg_server (rn_config st));
      match ack with
      | Some (config, renew_at, rebind_at, expires_at) =>
          let changed := negb (config_eqb (rn_config st) config) in
          let st := mkRenewState (if changed then config else rn_config st) renew_at rebind_at false expires_at in
          let s := s <| state := Renewing st |> in
          Ret (if changed || bool_decide (is_Some (receive_packet_buffer s)) then config_changed s else s)
      | None => Ret s
      end
  | Renewing _, DhcpMessageType.Nak => Ret (if ignore_naks s then s else reset s)
  | _, _ => Ret s
  end.

Definition process cx (ip_repr : IpHeader) (repr : UdpRepr) (payload : list Z) s : outcome Socket :=
  let src_ip := ih_src_addr ip_repr in
  _ ← rust_assert ((udp_src_port repr =? server_port s) && (udp_dst_port repr =? client_port s));
  match DhcpPacket.new_checked payload with
  | Err _ => Ret s
  | Ok dhcp_packet =>
      res ← DhcpRepr.parse dhcp_packet;
      match res with
      | Err _ => Ret s
      | Ok dhcp_repr =>
          match cx_hardware_addr cx with
          | HwEthernet ethernet_addr =>
              if negb (bool_decide (client_hardware_address dhcp_repr = ethernet_addr)) then Ret s else
              if negb (Dhcpv4Wire.transaction_id dhcp_repr =? transaction_id s) then Ret s else
              match server_identifier dhcp_repr with
              | None => Ret s
              | Some server_identifier =>
                  process_message cx src_ip server_identifier dhcp_repr (keep_packet payload s)
              end
          | _ => Panic
          end
      end
  end.

Definition MAX_IPV4_HEADER_LEN : Z := 60.

(** The message of [dispatch] before it is adapted to the state. *)
Definition base_message cx (ethernet_addr : list Z) (xid : Z) s : outcome DhcpRepr :=
  left ← usub (ip_mtu cx) MAX_IPV4_HEADER_LEN;
  left ← usub left (Z.of_nat UDP_HEADER_LEN);
  Ret (mkDhcpRepr DhcpMessageType.Discover xid 0 ethernet_addr Ipv4Address.UNSPECIFIED Ipv4Address.UNSPECIFIED
    Ipv4Address.UNSPECIFIED None None Ipv4Address.UNSPECIFIED false None (Some ethernet_addr) None
    (Some (default DEFAULT_PARAMETER_REQUEST_LIST (parameter_request_list s))) None (Some (wrap_u 16 left))
    None None None (outgoing_options s)).

Section Dispatch.
Context {E : Type}.
Variable emit : Context -> IpHeader * UdpRepr * DhcpRepr -> outcome (Context * result unit E).

(** Fill in the length and hand the packet over. *)
Definition send cx (src dst : list Z) (udp_repr : UdpRepr) (r : DhcpRepr) : outcome (Context * result unit E) :=
  let payload_len := (UdpRepr.header_len udp_repr + DhcpRepr.buffer_len r)%nat in
  emit cx (mkIpHeader src dst Protocol.Udp payload_len 64, udp_repr, r).

Definition dispatch_discovering cx (st : DiscoverState) (xid : Z) (udp_repr : UdpRepr) (r : DhcpRepr) s :
    outcome (Socket * Context * result unit E) :=
  if now cx <? ds_retry_at st then Ret (s, cx, Ok ()) else
  '(cx, res) ← send cx Ipv4Address.UNSPECIFIED Ipv4Address.BROADCAST udp_repr r;
  match res with
  | Err e => Ret (s, cx, Err e)
  | Ok _ =>
      retry_at ← Instant.add (now cx) (discover_timeout (retry_config s));
      Ret (s <| state := Discovering (mkDiscoverState retry_at) |> <| transaction_id := xid |>, cx, Ok ())
  end.

Definition dispatch_requesting cx (st : RequestState) (xid : Z) (udp_repr : UdpRepr) (r : DhcpRepr) s :
    outcome (Socket * Context * result unit E) :=
  if now cx <? rs_retry_at st then Ret (s, cx, Ok ()) else
  if request_retries (retry_config s) <=? rs_retry st then Ret (reset s, cx, Ok ()) else
  let r := r <| message_type := DhcpMessageType.Request |>
             <| requested_ip := Some (rs_requested_ip st) |>
             <| server_identifier := Some (si_identifier (rs_server st)) |> in
  '(cx, res) ← send cx Ipv4Address.UNSPECIFIED Ipv4Address.BROADCAST udp_repr r;
  match res with
  | Err e => Ret (s, cx, Err e)
  | Ok _ =>
      delay ← Duration.shl (initial_request_timeout (retry_config s)) (rs_retry st / 2);
      retry_at ← Instant.add (now cx) delay;
      retry ← uadd U16_MAX (rs_retry st) 1;
      Ret (s <| state := Requesting (mkRequestState retry_at retry (rs_server st) (rs_requested_ip st)) |>
             <| transaction_id := xid |>, cx, Ok ())
  end.

(** The next attempt to renew or to rebind. *)
Definition next_renewal (now : Instant) (config : RetryConfig) (st : RenewState) : outcome RenewState :=
  if rn_rebinding st then
    left ← Instant.diff (rn_expires_at st) now;
    half ← Duration.div left 2;
    rebind_at ← Instant.add now (Z.min (Z.max (min_renew_timeout config) half) (max_renew_timeout config));
    Ret (st <| rn_rebind_at := rebind_at |>)
  else
    left ← Instant.diff (rn_rebind_at st) now;
    half ← Duration.div left 2;
    renew_at ← Instant.add now
      (Z.min (Z.min (Z.max (min_renew_timeout config) half) left) (max_renew_timeout config));
    Ret (st <| rn_renew_at := renew_at |>).

Definition dispatch_renewing cx (st : RenewState) (xid : Z) (udp_repr : UdpRepr) (r : DhcpRepr) s :
    outcome (Socket * Context * result unit E) :=
  let now := now cx in
  if rn_expires_at st <=? now then Ret (reset s, cx, Ok ()) else
  if (now <? rn_renew_at st) || (rn_rebinding st && (now <? rn_rebind_at st)) then Ret (s, cx, Ok ()) else
  let st := st <| rn_rebinding ::= fun b => b || (rn_rebind_at st <=? now) |> in
  let s := s <| state := Renewing st |> in
  let address := Ipv4Cidr.address (cfg_address (rn_config st)) in
  let dst := if rn_rebinding st then Ipv4Address.BROADCAST else si_address (cfg_server (rn_config st)) in
  let r := r <| message_type := DhcpMessageType.Request |> <| client_ip := address |> in
  '(cx, res) ← send cx address dst udp_repr r;
  match res with
  | Err e => Ret (s, cx, Err e)
  | Ok _ =>
      st ← next_renewal now (retry_config s) st;
      Ret (s <| state := Renewing st |> <| transaction_id := xid |>, cx, Ok ())
  end.

Definition dispatch s cx : outcome (Socket * Context * result unit E) :=
  match cx_hardware_addr cx with
  | HwEthernet ethernet_addr =>
      '(rng, xid) ← Rand.rand_u32 (rand cx);
      let cx := cx <| rand := rng |> in
      dhcp_repr ← base_message cx ethernet_addr xid s;
      let udp_repr := mkUdpRepr (client_port s) (server_port s) in
      match state s with
      | Discovering st => dispatch_discovering cx st xid udp_repr dhcp_repr s
      | Requesting st => dispatch_requesting cx st xid udp_repr dhcp_repr s
      | Renewing st => dispatch_renewing cx st xid udp_repr dhcp_repr s
      end
  | _ => Panic
  end.
End Dispatch.

Definition poll s : Socket * option Event :=
  if negb (config_changed_flag s) then (s, None)
  else
    let s' := s <| config_changed_flag := false |> in
    match state s with
    | Renewing st =>
        let c := rn_config st in
        (s', Some (Configured (mkConfig (cfg_server c) (cfg_address c) (cfg_router c) (cfg_dns_servers c)
                                 (receive_packet_buffer s))))
    | _ => (s', Some Deconfigured)
    end.
End Socket.
End DhcpSocket.
