(* ===== verification/Dhcpv4Spec.v ===== *)
(** * What the DHCP client promises

    Runs of a client (messages that arrive, dispatches into a device that takes or
    refuses the packet, the clock, the calls of the application) never panic, as
    long as no server sends a T1 beyond its lease; the client holds a lease exactly
    from an acknowledgement on, for no longer than was granted; what [poll] told the
    application last is the lease the client holds; [poll_at] announces when
    [dispatch] has something to do.  The last section shows where the code does not
    keep what its comments say. *)

From S2P Require Import Prelude Collections Time Phy Bytes Octets Flags Ip LinkLayer Cidr UdpWire.
From S2P Require Import TcpTimers Context Dhcpv4Wire Dhcpv4Socket.
Open Scope Z_scope.

(** The device takes a packet or refuses it. *)
Definition dhcp_device {DV : Vec (list Z)} (takes : bool) (cx : Context) (_ : IpHeader * UdpRepr * DhcpRepr) :
    outcome (Context * result unit unit) :=
  Ret (cx, if takes then Ok () else Err ()).

(** ** Bounds *)

(** Clock readings up to 2^61 microseconds, deadlines up to 2^62. *)
Definition clock_ok (t : Instant) : Prop := 0 <= t <= 2 ^ 61.
Definition deadline_ok (t : Instant) : Prop := 0 <= t <= 2 ^ 62.
Definition delay_ok (d : Duration) : Prop := 0 <= d <= 2 ^ 60.

Record retry_ok (c : RetryConfig) : Prop := {
  ro_discover : delay_ok (discover_timeout c);
  ro_retries : 0 <= request_retries c <= 127;
  ro_request : 0 <= initial_request_timeout c /\
    initial_request_timeout c * 2 ^ (request_retries c / 2) <= 2 ^ 60;
  ro_min_renew : delay_ok (min_renew_timeout c);
  ro_max_renew : duration_range (max_renew_timeout c)
}.

Record dhcp_context_ok (cx : Context) : Prop := {
  dc_mac : exists mac, cx_hardware_addr cx = HwEthernet mac /\ EthernetAddress.wf mac;
  dc_mtu : 68 <= ip_mtu cx;
  dc_now : clock_ok (now cx)
}.

(** The numbers of the bounds. *)
Ltac bounds :=
  unfold clock_ok, deadline_ok, delay_ok in *;
  change (2 ^ 60) with 1152921504606846976 in *; change (2 ^ 61) with 2305843009213693952 in *;
  change (2 ^ 62) with 4611686018427387904 in *.

Section Invariant.
Context {DV : Vec (list Z)}.

Definition state_ok (st : ClientState) : Prop :=
  match st with
  | Discovering d => deadline_ok (ds_retry_at d)
  | Requesting r => deadline_ok (rs_retry_at r) /\ 0 <= rs_retry r <= U16_MAX /\ ipv4_wf (rs_requested_ip r)
  | Renewing r =>
      deadline_ok (rn_renew_at r) /\ deadline_ok (rn_rebind_at r) /\ deadline_ok (rn_expires_at r) /\
      ipv4_wf (Ipv4Cidr.address (cfg_address (rn_config r)))
  end.

Record dhcp_inv (s : DhcpSocket.Socket) : Prop := {
  di_state : state_ok (DhcpSocket.state s);
  di_retry : retry_ok (DhcpSocket.retry_config s);
  di_max_lease : opt_all duration_range (DhcpSocket.max_lease_duration s)
}.

(** The lease a message grants, in microseconds. *)
Definition granted (max : option Duration) (r : DhcpRepr) : Duration :=
  let lease := match lease_duration r with Some n => n * 1000000 | None => DEFAULT_LEASE_DURATION end in
  match max with Some m => Z.min lease m | None => lease end.

(** A T1 without a T2 is not beyond the lease. *)
Definition t1_ok (max : option Duration) (r : DhcpRepr) : Prop :=
  match renew_duration r, rebind_duration r with
  | Some t1, None => t1 * 1000000 <= granted max r
  | _, _ => True
  end.
End Invariant.

Lemma dhcp_new_ok {BO : ByteOrder} {DF : Bitflags DHCP_BROADCAST} {DV : Vec (list Z)} : dhcp_inv DhcpSocket.new.
Proof. constructor; [|constructor|done]; repeat split; vm_compute; done. Qed.

Section Ack.
Context {BO : ByteOrder} {NE : NetworkEndian BO} {DF : Bitflags DHCP_BROADCAST} {DV : Vec (list Z)}.

Lemma map_secs_ok o : opt_all u32_ok o -> DhcpSocket.map_secs o = Ret ((fun n => n * 1000000) <$> o).
Proof. destruct o; cbn; [|done]. intros. by rewrite from_secs_ok. Qed.

(** A lease of at most 2^32 seconds. *)
Definition lease_ok (d : Duration) : Prop := 0 <= d <= 2 ^ 52.

Lemma granted_ok max r :
  opt_all duration_range max -> opt_all u32_ok (lease_duration r) -> lease_ok (granted max r).
Proof.
  unfold granted, lease_ok, opt_all, u32_ok, duration_range, DEFAULT_LEASE_DURATION.
  destruct max, (lease_duration r); intros; change (2 ^ 52) with 4503599627370496; lia.
Qed.

(** T1 and T2 are no later than 2^52 microseconds from now; unless the server
    gives both, or T2 alone, they are in order and within the lease. *)
Definition timers_ordered (t1 t2 : option Z) (renew rebind lease : Duration) : Prop :=
  match t2 with
  | None => renew <= rebind <= lease
  | Some _ => match t1 with None => renew <= rebind | Some _ => True end
  end.

Lemma renew_rebind_ok t1 t2 lease :
  opt_all u32_ok t1 -> opt_all u32_ok t2 -> lease_ok lease ->
  match t1, t2 with Some t1, None => t1 * 1000000 <= lease | _, _ => True end ->
  exists renew rebind,
    DhcpSocket.renew_rebind ((fun n => n * 1000000) <$> t1) ((fun n => n * 1000000) <$> t2) lease = Ret (renew, rebind) /\
    lease_ok renew /\ lease_ok rebind /\ timers_ordered t1 t2 renew rebind lease.
Proof.
  unfold DhcpSocket.renew_rebind, Duration.div, Duration.mul, Duration.sub, Duration.add, lease_ok, opt_all, u32_ok, timers_ordered.
  change (2 ^ 52) with 4503599627370496. intros H1 H2 Hl Ht. destruct t1 as [t1|], t2 as [t2|]; cbn [fmap option_fmap option_map].
  - do 2 eexists. split; [done|]. lia.
  - rewrite usub_Ret by done. cbn [mbind outcome_bind]. rewrite umul_Ret by lia. cbn [mbind outcome_bind].
    change (4 =? 0) with false. cbn iota. cbn [mbind outcome_bind]. rewrite uadd_Ret by div_lia. cbn [mbind outcome_bind].
    do 2 eexists. split; [done|]. div_lia.
  - change (2 =? 0) with false. cbn [mbind outcome_bind]. do 2 eexists. split; [done|]. div_lia.
  - change (2 =? 0) with false. cbn [mbind outcome_bind]. rewrite umul_Ret by lia. change (8 =? 0) with false.
    cbn [mbind outcome_bind]. do 2 eexists. split; [done|]. div_lia.
Qed.

(** An acknowledgement is usable when it has a subnet mask and a unicast address;
    then the address gets that mask, the lease runs from now on, and only unicast
    name servers are kept. *)
Definition usable (r : DhcpRepr) : Prop :=
  exists m p, subnet_mask r = Some m /\ address_prefix_len (Ipv4 m) = Some p /\ Ipv4Address.is_unicast (your_ip r) = true.

Lemma parse_ack_ok t r max server :
  clock_ok t -> dhcp_wf r -> opt_all duration_range max -> t1_ok max r ->
  (DhcpSocket.parse_ack t r max server = Ret None /\ ~ usable r) \/
  (usable r /\ exists config renew_at rebind_at,
     DhcpSocket.parse_ack t r max server = Ret (Some (config, renew_at, rebind_at, t + granted max r)) /\
     cfg_server config = server /\ Ipv4Cidr.address (cfg_address config) = your_ip r /\ cfg_router config = router r /\
     Ipv4Cidr.netmask (cfg_address config) = unwrap (subnet_mask r) /\
     deadline_ok renew_at /\ deadline_ok rebind_at /\ deadline_ok (t + granted max r) /\
     timers_ordered (renew_duration r) (rebind_duration r) (renew_at - t) (rebind_at - t) (granted max r)).
Proof.
  intros Ht Hr Hmax Ht1. pose proof (granted_ok max r Hmax (wf_lease r Hr)) as Hg. unfold DhcpSocket.parse_ack, usable.
  destruct (subnet_mask r) as [m|] eqn:Hm; [|left; split; [done|]; by intros (? & ? & ? & _)].
  pose proof (wf_subnet r Hr) as Hmw. rewrite Hm in Hmw. cbn in Hmw.
  destruct (address_prefix_len (Ipv4 m)) as [p|] eqn:Hp; [|left; split; [done|]; intros (? & ? & [= <-] & ? & _); congruence].
  destruct (Ipv4Address.is_unicast (your_ip r)) eqn:Hu; cbn [negb];
    [|left; split; [done|]; intros (? & ? & _ & _ & ?); congruence].
  right. split; [by exists m, p|]. rewrite !map_secs_ok by apply Hr. cbn [mbind outcome_bind].
  destruct (proj1 (address_prefix_len_spec (Ipv4 m) p Hmw) Hp) as [Hrange Hbits]. cbn [Address.as_bytes] in *.
  destruct Hmw as [Hm4 Hmb]. rewrite Hm4 in Hrange, Hbits. unfold Ipv4Cidr.new.
  rewrite Z.gtb_ltb, (proj2 (Z.ltb_ge 32 p)) by lia. cbn [mbind outcome_bind].
  assert (default DEFAULT_LEASE_DURATION ((fun n => n * 1000000) <$> lease_duration r) =
    match lease_duration r with Some n => n * 1000000 | None => DEFAULT_LEASE_DURATION end) as ->
    by (by destruct (lease_duration r)).
  cbn zeta. match goal with |- context [DhcpSocket.renew_rebind _ _ ?l] => change l with (granted max r) end.
  destruct (renew_rebind_ok (renew_duration r) (rebind_duration r) (granted max r)) as (rn & rb & -> & Hrn & Hrb & Ho);
    [apply Hr..|done| |].
  { unfold t1_ok in Ht1. by destruct (renew_duration r), (rebind_duration r). }
  cbn [mbind outcome_bind]. unfold lease_ok, clock_ok, deadline_ok in *.
  change (2 ^ 52) with 4503599627370496 in *. change (2 ^ 61) with 2305843009213693952 in *.
  change (2 ^ 62) with 4611686018427387904 in *.
  rewrite !instant_add_ok by lia. cbn [mbind outcome_bind]. do 3 eexists. split; [done|].
  cbn [cfg_server cfg_address cfg_router Ipv4Cidr.address unwrap]. split_and!; try done; try lia.
  - destruct (netmask_bits (Ipv4Cidr.mk (your_ip r) p)) as (m' & -> & [Hl' Hb'] & Hm'); cbn [Ipv4Cidr.prefix_len] in *; [lia|].
    f_equal. apply bytes_bit_ext; [done..|congruence|]. intros i Hi. rewrite Hl' in Hi.
    rewrite Hm', Hbits by lia. destruct (Z.ltb_spec (Z.of_nat i) p); symmetry; [by apply bool_decide_eq_true_2|by apply bool_decide_eq_false_2; lia].
  - by rewrite !Z.add_simpl_l.
Qed.
End Ack.

(** ** Runs *)

Inductive dhcp_event :=
| DhcpTime (t : Instant)
| DhcpMessage (ip_repr : IpHeader) (repr : UdpRepr) (payload : list Z)
| DhcpDispatch (takes : bool)
| DhcpPoll
| DhcpReset.

Section Runs.
Context {BO : ByteOrder} {DF : Bitflags DHCP_BROADCAST} {DV : Vec (list Z)}.
Implicit Types (s : DhcpSocket.Socket) (cx : Context).

(** The interface hands over what comes from the server port to the client port. *)
Definition for_client s (repr : UdpRepr) : bool :=
  (udp_src_port repr =? DhcpSocket.server_port s) && (udp_dst_port repr =? DhcpSocket.client_port s).

(** What [dispatch] offers to the device: what it hands to one that refuses it. *)
Definition refuse cx (p : IpHeader * UdpRepr * DhcpRepr) : outcome (Context * result unit (IpHeader * UdpRepr * DhcpRepr)) :=
  Ret (cx, Err p).
Definition offer_of (out : outcome (DhcpSocket.Socket * Context * result unit (IpHeader * UdpRepr * DhcpRepr))) :
    outcome (option (IpHeader * UdpRepr * DhcpRepr)) :=
  '(_, _, res) ← out; Ret (match res with Err p => Some p | Ok _ => None end).
Definition dhcp_offered s cx : outcome (option (IpHeader * UdpRepr * DhcpRepr)) := offer_of (DhcpSocket.dispatch refuse s cx).

(** What is seen of a step: an event that the application is told, or a message that
    the device takes. *)
Inductive dhcp_output :=
| DhcpTold (e : Event)
| DhcpSent (p : IpHeader * UdpRepr * DhcpRepr).

Definition dhcp_step (ev : dhcp_event) s cx : outcome (DhcpSocket.Socket * Context * option dhcp_output) :=
  match ev with
  | DhcpTime t => Ret (s, cx <| now := t |>, None)
  | DhcpMessage ip_repr repr payload =>
      if for_client s repr then s ← DhcpSocket.process cx ip_repr repr payload s; Ret (s, cx, None)
      else Ret (s, cx, None)
  | DhcpDispatch takes =>
      p ← dhcp_offered s cx;
      '(s, cx, _) ← DhcpSocket.dispatch (dhcp_device takes) s cx;
      Ret (s, cx, if takes then DhcpSent <$> p else None)
  | DhcpPoll => let '(s, e) := DhcpSocket.poll s in Ret (s, cx, DhcpTold <$> e)
  | DhcpReset => Ret (DhcpSocket.reset s, cx, None)
  end.

Fixpoint dhcp_trace (es : list dhcp_event) s cx : outcome (DhcpSocket.Socket * Context * list dhcp_output) :=
  match es with
  | [] => Ret (s, cx, [])
  | ev :: es =>
      '(s, cx, o) ← dhcp_step ev s cx;
      '(s, cx, l) ← dhcp_trace es s cx;
      Ret (s, cx, option_list o ++ l)
  end.

(** A run, with what the application is told. *)
Definition told_event (o : dhcp_output) : option Event := match o with DhcpTold e => Some e | DhcpSent _ => None end.
Definition told_events (l : list dhcp_output) : list Event := omap told_event l.
Definition dhcp_run (es : list dhcp_event) s cx : outcome (DhcpSocket.Socket * Context * list Event) :=
  '(s, cx, l) ← dhcp_trace es s cx; Ret (s, cx, told_events l).

(** The clock stays in range, the payloads are octets, and no message has a T1
    beyond its lease. *)
Definition dhcp_admissible (max : option Duration) (ev : dhcp_event) : Prop :=
  match ev with
  | DhcpTime t => clock_ok t
  | DhcpMessage _ _ payload => bytes payload /\ forall r, DhcpRepr.parse payload = Ret (Ok r) -> t1_ok max r
  | _ => True
  end.

(** ** The abstract client

    It looks for a server, has selected one that offered an address, or holds a lease;
    it has something to tell the application or not; and it knows the transaction id of
    the message it sent last. *)

Record Lease := mkLease {
  ls_server : ServerInfo;
  ls_address : Ipv4Cidr.t;
  ls_router : option (list Z);
  ls_dns_servers : list (list Z);
  ls_expires_at : Instant
}.

Definition lease_of s : option Lease :=
  match DhcpSocket.state s with
  | Renewing st =>
      let c := rn_config st in
      Some (mkLease (cfg_server c) (cfg_address c) (cfg_router c) (as_slice (cfg_dns_servers c)) (rn_expires_at st))
  | _ => None
  end.

(** The lease an acknowledgement gives at time [t]. *)
Definition lease_from (t : Instant) (max : option Duration) (r : DhcpRepr) (l : Lease) : Prop :=
  usable r /\ Ipv4Cidr.address (ls_address l) = your_ip r /\ Ipv4Cidr.netmask (ls_address l) = unwrap (subnet_mask r) /\
  ls_router l = router r /\ ls_expires_at l = t + granted max r.

Inductive Phase :=
| Searching
| Selected (server : ServerInfo) (address : list Z)
| Bound (l : Lease).

Record Client := mkClient { cl_phase : Phase; cl_changed : bool; cl_xid : Z }.

#[global] Instance eta_Client : Settable Client := fun c => mkClient (cl_phase c) (cl_changed c) (cl_xid c).

(** What does not change in a run. *)
Record Settings := mkSettings {
  st_mac : HardwareAddress;
  st_max : option Duration;
  st_server_port : Z;
  st_client_port : Z;
  st_ignore_naks : bool
}.

(** A message to this client that answers the one it sent last. *)
Definition hears (g : Settings) (xid : Z) (udp : UdpRepr) (payload : list Z) (r : DhcpRepr) : Prop :=
  udp_src_port udp = st_server_port g /\ udp_dst_port udp = st_client_port g /\
  DhcpPacket.new_checked payload = Ok payload /\ DhcpRepr.parse payload = Ret (Ok r) /\
  st_mac g = HwEthernet (client_hardware_address r) /\ Dhcpv4Wire.transaction_id r = xid /\ is_Some (server_identifier r).

(** It matters: an offer of an address while searching, and otherwise a usable
    acknowledgement, or a refusal unless those are ignored. *)
Definition matters (g : Settings) (ph : Phase) (r : DhcpRepr) : Prop :=
  match ph, message_type r with
  | Searching, DhcpMessageType.Offer => Ipv4Address.is_unicast (your_ip r) = true
  | (Selected _ _ | Bound _), DhcpMessageType.Ack => usable r
  | (Selected _ _ | Bound _), DhcpMessageType.Nak => st_ignore_naks g = false
  | _, _ => False
  end.

(** What the client asks for. *)
Definition asks (g : Settings) (ph : Phase) (p : IpHeader * UdpRepr * DhcpRepr) : Prop :=
  let '(_, udp, r) := p in
  udp = mkUdpRepr (st_client_port g) (st_server_port g) /\ st_mac g = HwEthernet (client_hardware_address r) /\
  match ph with
  | Searching => message_type r = DhcpMessageType.Discover
  | Selected server address =>
      message_type r = DhcpMessageType.Request /\ requested_ip r = Some address /\ server_identifier r = Some (si_identifier server)
  | Bound l => message_type r = DhcpMessageType.Request /\ client_ip r = Ipv4Cidr.address (ls_address l)
  end.

Definition is_bound (ph : Phase) : bool := match ph with Bound _ => true | _ => false end.
Definition server_of (ph : Phase) : option ServerInfo :=
  match ph with Searching => None | Selected server _ => Some server | Bound l => Some (ls_server l) end.
Definition phase_lease (ph : Phase) : option Lease := match ph with Bound l => Some l | _ => None end.
Definition valid_at (t : Instant) (ph : Phase) : Prop := forall l, ph = Bound l -> t < ls_expires_at l.

Definition told (l : option Lease) (e : Event) : Prop :=
  match l, e with
  | Some l, Configured c =>
      cfg_server c = ls_server l /\ cfg_address c = ls_address l /\ cfg_router c = ls_router l /\
      as_slice (cfg_dns_servers c) = ls_dns_servers l
  | None, Deconfigured => True
  | _, _ => False
  end.

Definition same_terms (l l' : Lease) : Prop :=
  ls_server l = ls_server l' /\ ls_address l = ls_address l' /\ ls_router l = ls_router l' /\ ls_dns_servers l = ls_dns_servers l'.

(** The steps of the abstract client at a time. *)
Inductive client_step (g : Settings) (t : Instant) : dhcp_event -> Client -> option dhcp_output -> Client -> Prop :=
| client_clock t' c : client_step g t (DhcpTime t') c None c
| client_ignore ip udp payload c :
    (forall r, hears g (cl_xid c) udp payload r -> ~ matters g (cl_phase c) r) ->
    client_step g t (DhcpMessage ip udp payload) c None c
| client_offer ip udp payload r sid changed xid :
    hears g xid udp payload r -> matters g Searching r -> server_identifier r = Some sid ->
    client_step g t (DhcpMessage ip udp payload) (mkClient Searching changed xid) None
      (mkClient (Selected (mkServerInfo (ih_src_addr ip) sid) (your_ip r)) changed xid)
| client_ack ip udp payload r ph changed xid l changed' :
    hears g xid udp payload r -> message_type r = DhcpMessageType.Ack -> matters g ph r ->
    lease_from t (st_max g) r l -> server_of ph = Some (ls_server l) ->
    (changed' = true \/ changed' = changed /\ exists l0, ph = Bound l0 /\ same_terms l0 l) ->
    client_step g t (DhcpMessage ip udp payload) (mkClient ph changed xid) None (mkClient (Bound l) changed' xid)
| client_nak ip udp payload r ph changed xid :
    hears g xid udp payload r -> message_type r = DhcpMessageType.Nak -> matters g ph r ->
    client_step g t (DhcpMessage ip udp payload) (mkClient ph changed xid) None (mkClient Searching (is_bound ph || changed) xid)
| client_quiet takes c : valid_at t (cl_phase c) -> client_step g t (DhcpDispatch takes) c None c
| client_send p c :
    valid_at t (cl_phase c) -> asks g (cl_phase c) p ->
    client_step g t (DhcpDispatch true) c (Some (DhcpSent p)) (c <| cl_xid := Dhcpv4Wire.transaction_id p.2 |>)
| client_give_up takes server address changed xid :
    client_step g t (DhcpDispatch takes) (mkClient (Selected server address) changed xid) None (mkClient Searching changed xid)
| client_expire takes l changed xid :
    ls_expires_at l <= t -> client_step g t (DhcpDispatch takes) (mkClient (Bound l) changed xid) None (mkClient Searching true xid)
| client_reset ph changed xid :
    client_step g t DhcpReset (mkClient ph changed xid) None (mkClient Searching (is_bound ph || changed) xid)
| client_tell ph xid e :
    told (phase_lease ph) e -> client_step g t DhcpPoll (mkClient ph true xid) (Some (DhcpTold e)) (mkClient ph false xid)
| client_silent ph xid : client_step g t DhcpPoll (mkClient ph false xid) None (mkClient ph false xid).

(** The abstract state of a socket. *)
Definition phase_of s : Phase :=
  match DhcpSocket.state s with
  | Discovering _ => Searching
  | Requesting q => Selected (rs_server q) (rs_requested_ip q)
  | Renewing st =>
      let c := rn_config st in
      Bound (mkLease (cfg_server c) (cfg_address c) (cfg_router c) (as_slice (cfg_dns_servers c)) (rn_expires_at st))
  end.

Definition client_view s : Client := mkClient (phase_of s) (DhcpSocket.config_changed_flag s) (DhcpSocket.transaction_id s).

Definition settings_of cx s : Settings :=
  mkSettings (cx_hardware_addr cx) (DhcpSocket.max_lease_duration s) (DhcpSocket.server_port s) (DhcpSocket.client_port s)
    (DhcpSocket.ignore_naks s).

Lemma phase_of_lease s : phase_lease (phase_of s) = lease_of s.
Proof. unfold phase_of, lease_of. by destruct (DhcpSocket.state s). Qed.
End Runs.

Section Steps.
Context {BO : ByteOrder} {NE : NetworkEndian BO} {DF : Bitflags DHCP_BROADCAST}.
Context {DV : Vec (list Z)} {DVL : VecLaws DV MAX_DNS_SERVER_COUNT}.
Implicit Types (s : DhcpSocket.Socket) (cx : Context).

(** The settings that no event of a run changes. *)
Definition same_settings s s' : Prop :=
  DhcpSocket.max_lease_duration s' = DhcpSocket.max_lease_duration s /\
  DhcpSocket.retry_config s' = DhcpSocket.retry_config s /\
  DhcpSocket.server_port s' = DhcpSocket.server_port s /\ DhcpSocket.client_port s' = DhcpSocket.client_port s /\
  DhcpSocket.ignore_naks s' = DhcpSocket.ignore_naks s.

Lemma same_settings_refl s : same_settings s s.
Proof. done. Qed.

Lemma inv_state s st s' :
  dhcp_inv s -> same_settings s s' -> DhcpSocket.state s' = st -> state_ok st -> dhcp_inv s'.
Proof. intros [? ? ?] (Hm & Hr & _) <- ?. constructor; [done|by rewrite Hr|by rewrite Hm]. Qed.

Lemma dhcp_reset_ok s :
  dhcp_inv s -> dhcp_inv (DhcpSocket.reset s) /\ same_settings s (DhcpSocket.reset s) /\
  client_view (DhcpSocket.reset s) =
    mkClient Searching (is_bound (phase_of s) || DhcpSocket.config_changed_flag s) (DhcpSocket.transaction_id s).
Proof.
  intros Hs. assert (same_settings s (DhcpSocket.reset s)) as Hset.
  { unfold DhcpSocket.reset. by destruct (DhcpSocket.state s). }
  split_and!; [|done|].
  - apply (inv_state s (Discovering (mkDiscoverState 0))); [done..|]. cbn. unfold deadline_ok. lia.
  - unfold client_view, phase_of, DhcpSocket.reset. by destruct (DhcpSocket.state s).
Qed.

Lemma keep_packet_view payload s :
  dhcp_inv s -> let s' := DhcpSocket.keep_packet payload s in
  dhcp_inv s' /\ same_settings s s' /\ client_view s' = client_view s /\ DhcpSocket.state s' = DhcpSocket.state s /\
  DhcpSocket.ignore_naks s' = DhcpSocket.ignore_naks s.
Proof.
  intros Hs. unfold DhcpSocket.keep_packet. destruct (DhcpSocket.receive_packet_buffer s); [case_match|]; try done.
  cbn. split_and!; try done. by destruct Hs.
Qed.

Lemma renewed_ok s st config renew_at rebind_at expires_at :
  dhcp_inv s -> deadline_ok renew_at -> deadline_ok rebind_at -> deadline_ok expires_at ->
  st = mkRenewState config renew_at rebind_at false expires_at -> ipv4_wf (Ipv4Cidr.address (cfg_address config)) ->
  dhcp_inv (s <| DhcpSocket.state := Renewing st |>).
Proof. intros Hs ? ? ? -> ?. by eapply (inv_state s). Qed.

Lemma config_eqb_terms c d e :
  config_eqb c d = true ->
  same_terms (mkLease (cfg_server c) (cfg_address c) (cfg_router c) (as_slice (cfg_dns_servers c)) e)
    (mkLease (cfg_server d) (cfg_address d) (cfg_router d) (as_slice (cfg_dns_servers d)) e).
Proof. unfold config_eqb. intros H. bool_to_prop. by rewrite !bool_decide_eq_true in *. Qed.

(** What an event does; the output is what is seen of it. *)
Definition step_post cx ev o s s' : Prop :=
  dhcp_inv s' /\ same_settings s s' /\ client_step (settings_of cx s) (now cx) ev (client_view s) o (client_view s').

(** Nothing happened. *)
Lemma ignored cx ip repr payload s s' :
  dhcp_inv s' -> same_settings s s' -> client_view s' = client_view s ->
  (forall r, hears (settings_of cx s) (DhcpSocket.transaction_id s) repr payload r -> ~ matters (settings_of cx s) (phase_of s) r) ->
  step_post cx (DhcpMessage ip repr payload) None s s'.
Proof. intros ? ? Hv ?. split_and!; try done. rewrite Hv. by apply client_ignore. Qed.

(** An acknowledgement that is usable makes a lease. *)
Lemma acknowledged_ok cx ip repr payload r s config renew_at rebind_at s' :
  dhcp_inv s -> dhcp_wf r -> hears (settings_of cx s) (DhcpSocket.transaction_id s) repr payload r -> message_type r = DhcpMessageType.Ack ->
  matters (settings_of cx s) (phase_of s) r ->
  usable r -> Ipv4Cidr.address (cfg_address config) = your_ip r -> cfg_router config = router r ->
  Ipv4Cidr.netmask (cfg_address config) = unwrap (subnet_mask r) -> server_of (phase_of s) = Some (cfg_server config) ->
  deadline_ok renew_at -> deadline_ok rebind_at -> deadline_ok (now cx + granted (DhcpSocket.max_lease_duration s) r) ->
  same_settings s s' -> DhcpSocket.transaction_id s' = DhcpSocket.transaction_id s ->
  DhcpSocket.state s' = Renewing (mkRenewState config renew_at rebind_at false (now cx + granted (DhcpSocket.max_lease_duration s) r)) ->
  (DhcpSocket.config_changed_flag s' = true \/
   DhcpSocket.config_changed_flag s' = DhcpSocket.config_changed_flag s /\
   exists st, DhcpSocket.state s = Renewing st /\ rn_config st = config) ->
  step_post cx (DhcpMessage ip repr payload) None s s'.
Proof.
  intros Hs Hr Ha Hmt Hmat Hu Haddr Hrt Hnm Hsv H1 H2 H3 Hset Hx Hst Hch. split_and!; [|done|].
  - apply (inv_state s _ s' Hs Hset Hst). cbn. rewrite Haddr. destruct (wf_yiaddr r Hr). by split_and!.
  - unfold client_view at 2. unfold phase_of. rewrite Hst, Hx. apply (client_ack _ _ _ _ _ r); [done..| |done|].
    + by split_and!.
    + destruct Hch as [->|(-> & st & Hst0 & <-)]; [by left|]. right. split; [done|].
      unfold phase_of. rewrite Hst0. by eexists.
Qed.

Lemma nak_ok cx ip repr payload r s :
  dhcp_inv s -> hears (settings_of cx s) (DhcpSocket.transaction_id s) repr payload r -> message_type r = DhcpMessageType.Nak ->
  phase_of s <> Searching ->
  step_post cx (DhcpMessage ip repr payload) None s (if DhcpSocket.ignore_naks s then s else DhcpSocket.reset s).
Proof.
  intros Hs Ha Hmt Hph. destruct (DhcpSocket.ignore_naks s) eqn:Hi.
  - apply ignored; try done. intros r' (_ & _ & _ & Hp & _). destruct Ha as (_ & _ & _ & Hp' & _).
    assert (r' = r) as -> by congruence. unfold matters. rewrite Hmt. cbn [settings_of st_ignore_naks]. rewrite Hi. by destruct (phase_of s).
  - destruct (dhcp_reset_ok s Hs) as (? & ? & Hv). split_and!; [done..|]. rewrite Hv. apply (client_nak _ _ _ _ _ r); [done..|].
    unfold matters. rewrite Hmt. by destruct (phase_of s).
Qed.

Lemma process_message_ok cx ip sid r payload repr s :
  dhcp_inv s -> clock_ok (now cx) -> dhcp_wf r -> t1_ok (DhcpSocket.max_lease_duration s) r ->
  hears (settings_of cx s) (DhcpSocket.transaction_id s) repr payload r -> server_identifier r = Some sid ->
  exists s', DhcpSocket.process_message cx (ih_src_addr ip) sid r s = Ret s' /\ step_post cx (DhcpMessage ip repr payload) None s s'.
Proof.
  intros Hs Hc Hr Ht1 Ha Hsid. pose proof (di_max_lease s Hs) as Hmax.
  assert (~ matters (settings_of cx s) (phase_of s) r -> exists s', Ret s = Ret s' /\ step_post cx (DhcpMessage ip repr payload) None s s') as Hidle.
  { intros Hn. exists s. split; [done|]. apply ignored; try done. intros r' (_ & _ & _ & Hp & _). destruct Ha as (_ & _ & _ & Hp' & _).
    by assert (r' = r) as -> by congruence. }
  unfold DhcpSocket.process_message. unfold matters, phase_of in Hidle. destruct (DhcpSocket.state s) as [d|q|n] eqn:Hst;
    destruct (message_type r) eqn:Hmt; try (apply Hidle; tauto).
  - destruct (Ipv4Address.is_unicast (your_ip r)) eqn:Hu; cbn [negb]; [|apply Hidle; congruence]. eexists. split; [done|]. split_and!; [|done|].
    + eapply inv_state; [done..| |]; [done|]. destruct (wf_yiaddr r Hr). cbn. unfold clock_ok, deadline_ok in *.
      split_and!; done || lia.
    + unfold client_view, phase_of. rewrite Hst. apply (client_offer _ _ _ _ _ r); [done| |done]. unfold matters. by rewrite Hmt.
  - destruct (parse_ack_ok (now cx) r (DhcpSocket.max_lease_duration s) (rs_server q) Hc Hr Hmax Ht1)
      as [[-> ?]|(Hu & config & rn & rb & -> & Hsv & ? & ? & ? & ? & ? & ? & _)]; [apply Hidle; done|].
    cbn [mbind outcome_bind]. eexists. split; [done|].
    apply (acknowledged_ok cx ip repr payload r s config rn rb); try done; [| |by left]; unfold matters, phase_of; rewrite Hst, ?Hmt; cbn; congruence.
  - eexists. split; [done|]. eapply nak_ok; [done..|]. unfold phase_of. by rewrite Hst.
  - destruct (parse_ack_ok (now cx) r (DhcpSocket.max_lease_duration s) (cfg_server (rn_config n)) Hc Hr Hmax Ht1)
      as [[-> ?]|(Hu & config & rn & rb & -> & Hsv & ? & ? & ? & ? & ? & ? & _)]; [apply Hidle; done|].
    assert (matters (settings_of cx s) (phase_of s) r) as Hmat by (unfold matters, phase_of; by rewrite Hst, Hmt).
    assert (server_of (phase_of s) = Some (cfg_server (rn_config n))) as Hso by (unfold phase_of; by rewrite Hst).
    cbn [mbind outcome_bind]. cbn zeta. eexists. split; [done|]. destruct (config_eqb (rn_config n) config) eqn:Heq; cbn [negb].
    + pose proof (config_eqb_terms _ _ 0 Heq) as (? & Hadr & Hrt & ?). cbn in Hadr, Hrt.
      apply (acknowledged_ok cx ip repr payload r s (rn_config n) rn rb); try done; try congruence; case_match; try done;
        [by left|]. right. split; [done|]. by eexists.
    + apply (acknowledged_ok cx ip repr payload r s config rn rb); try done; [congruence|by left].
  - eexists. split; [done|]. eapply nak_ok; [done..|]. unfold phase_of. by rewrite Hst.
Qed.

Lemma for_client_true s repr : for_client s repr = true <->
  udp_src_port repr = DhcpSocket.server_port s /\ udp_dst_port repr = DhcpSocket.client_port s.
Proof. unfold for_client. by rewrite andb_true_iff, !Z.eqb_eq. Qed.

Lemma dhcp_process_ok cx ip repr payload s :
  dhcp_inv s -> dhcp_context_ok cx -> dhcp_admissible (DhcpSocket.max_lease_duration s) (DhcpMessage ip repr payload) ->
  for_client s repr = true ->
  exists s', DhcpSocket.process cx ip repr payload s = Ret s' /\ step_post cx (DhcpMessage ip repr payload) None s s'.
Proof.
  intros Hs Hcx [Hb Ht1] Hf. unfold DhcpSocket.process. apply for_client_true in Hf as Hports. unfold for_client in Hf. rewrite Hf.
  cbn [rust_assert mbind outcome_bind].
  assert ((forall r, ~ hears (settings_of cx s) (DhcpSocket.transaction_id s) repr payload r) ->
    exists s', Ret s = Ret s' /\ step_post cx (DhcpMessage ip repr payload) None s s') as Hidle.
  { intros Hn. exists s. split; [done|]. apply ignored; try done. intros r Hr. by destruct (Hn r). }
  unfold hears in Hidle. cbn [settings_of st_mac] in Hidle.
  assert (DhcpPacket.new_checked payload = Ok payload \/ exists e, DhcpPacket.new_checked payload = Err e) as [Hck|[e Hck]].
  { unfold DhcpPacket.new_checked. destruct (DhcpPacket.check_len payload); [by left|right; by eexists]. }
  2: { rewrite Hck. apply Hidle. intros r (_ & _ & ? & _). congruence. }
  rewrite Hck. destruct (dhcp_parse_ok payload Hb) as ([r|e] & Hp & Hr); rewrite Hp; cbn [mbind outcome_bind].
  2: { apply Hidle. intros r' (_ & _ & _ & ? & _). congruence. }
  specialize (Hr r eq_refl). destruct (dc_mac cx Hcx) as (mac & Hmac & _). rewrite Hmac in Hidle |- *.
  assert (forall r', DhcpRepr.parse payload = Ret (Ok r') -> r' = r) as Huniq by (intros; congruence).
  case_bool_decide as Hch; cbn [negb]; [|apply Hidle; intros r' (_ & _ & _ & ->%Huniq & [= ?] & _); congruence].
  destruct (Z.eqb_spec (Dhcpv4Wire.transaction_id r) (DhcpSocket.transaction_id s)) as [Hx|]; cbn [negb];
    [|apply Hidle; intros r' (_ & _ & _ & ->%Huniq & _ & ? & _); done].
  destruct (server_identifier r) as [sid|] eqn:Hsid; [|apply Hidle; intros r' (_ & _ & _ & ->%Huniq & _ & _ & []); congruence].
  destruct (keep_packet_view payload s Hs) as (Hk & Hset & Hv & Hst & _). set (s1 := DhcpSocket.keep_packet payload s) in *.
  assert (settings_of cx s1 = settings_of cx s) as Hg by (unfold settings_of; destruct Hset as (-> & _ & -> & -> & ->); done).
  injection Hv as Hph Hfl Hx1.
  destruct (process_message_ok cx ip sid r payload repr s1) as (s' & Hp' & Hi & Hset' & Hstep); try done.
  - apply Hcx.
  - destruct Hset as (-> & _). by apply Ht1.
  - rewrite Hg, Hx1. unfold hears. rewrite Hsid. cbn [settings_of st_mac st_server_port st_client_port]. rewrite Hmac, Hch. by destruct Hports.
  - exists s'. split; [done|]. split_and!; [done| |].
    + unfold same_settings in *. intuition congruence.
    + rewrite Hg in Hstep. unfold client_view in *. by rewrite Hph, Hfl, Hx1 in Hstep.
Qed.

(** *** Dispatching *)

Lemma base_message_ok cx mac xid s :
  68 <= ip_mtu cx -> exists r, DhcpSocket.base_message cx mac xid s = Ret r.
Proof.
  intros Hm. unfold DhcpSocket.base_message, DhcpSocket.MAX_IPV4_HEADER_LEN, UDP_HEADER_LEN.
  rewrite usub_Ret by lia. cbn [mbind outcome_bind]. rewrite usub_Ret by lia. by eexists.
Qed.

(** When the next attempt is: the RFC's half of the remaining time. *)
Definition rebind_delay (c : RetryConfig) (left : Duration) : Duration :=
  Z.min (Z.max (min_renew_timeout c) (left / 2)) (max_renew_timeout c).
Definition renew_delay (c : RetryConfig) (left : Duration) : Duration :=
  Z.min (Z.min (Z.max (min_renew_timeout c) (left / 2)) left) (max_renew_timeout c).

Lemma next_renewal_ok t c st :
  clock_ok t -> retry_ok c -> t < rn_expires_at st -> deadline_ok (rn_expires_at st) -> deadline_ok (rn_rebind_at st) ->
  (rn_rebinding st = false -> t < rn_rebind_at st) ->
  DhcpSocket.next_renewal t c st =
    Ret (if rn_rebinding st then st <| rn_rebind_at := t + rebind_delay c (rn_expires_at st - t) |>
         else st <| rn_renew_at := t + renew_delay c (rn_rebind_at st - t) |>) /\
  deadline_ok (t + rebind_delay c (rn_expires_at st - t)) /\
  (rn_rebinding st = false -> deadline_ok (t + renew_delay c (rn_rebind_at st - t))).
Proof.
  unfold clock_ok, deadline_ok, DhcpSocket.next_renewal, Duration.div, rebind_delay, renew_delay.
  change (2 ^ 62) with 4611686018427387904. change (2 ^ 61) with 2305843009213693952.
  intros Ht [_ _ _ Hmin Hmax] He Hed Hrd Hrb. unfold delay_ok, duration_range in *. change (2 ^ 60) with 1152921504606846976 in *.
  split; [|split; [div_lia|intros Hb; specialize (Hrb Hb); div_lia]].
  destruct (rn_rebinding st) eqn:Hb; [|specialize (Hrb eq_refl)];
    rewrite instant_diff_ok by lia; rewrite Z.abs_eq by lia; cbn [mbind outcome_bind];
    change (2 =? 0) with false; cbn [mbind outcome_bind]; rewrite instant_add_ok by div_lia; done.
Qed.

(** What a dispatch into the device does, and what it offered. *)
Definition dispatched cx takes s offer (res : DhcpSocket.Socket * Context * result unit unit) : Prop :=
  exists p, offer = Ret p /\ step_post cx (DhcpDispatch takes) (if takes : bool then DhcpSent <$> p else None) s res.1.1 /\
    exists rng, res.1.2 = cx <| rand := rng |>.

Lemma idle_dispatch cx takes s s' cx' offer p (res : result unit unit) :
  dhcp_inv s' -> same_settings s s' -> client_view s' = client_view s -> valid_at (now cx) (phase_of s) ->
  (exists rng, cx' = cx <| rand := rng |>) -> offer = Ret p -> (takes = true -> p = None) ->
  dispatched cx takes s offer (s', cx', res).
Proof.
  intros ? ? Hv Hl ? -> Hp. exists p. split; [done|]. split; [|done]. split_and!; [done..|]. cbn [fst]. rewrite Hv.
  destruct takes; [rewrite Hp by done|]; by apply client_quiet.
Qed.

Lemma sent_dispatch cx s s' cx' offer p (res : result unit unit) :
  offer = Ret (Some p) -> dhcp_inv s' -> same_settings s s' -> phase_of s' = phase_of s -> DhcpSocket.config_changed_flag s' = DhcpSocket.config_changed_flag s ->
  DhcpSocket.transaction_id s' = Dhcpv4Wire.transaction_id p.2 -> valid_at (now cx) (phase_of s) ->
  (exists rng, cx' = cx <| rand := rng |>) -> asks (settings_of cx s) (phase_of s) p ->
  dispatched cx true s offer (s', cx', res).
Proof.
  intros -> ? ? Hph Hfl Hx Hl ? Hp. exists (Some p). split; [done|]. split; [|done]. split_and!; [done..|]. cbn [fst].
  unfold client_view at 2. rewrite Hph, Hfl, Hx. by apply (client_send _ _ p (client_view s)).
Qed.

Lemma dispatch_reset cx takes s cx' offer (res : result unit unit) :
  dhcp_inv s -> phase_of s <> Searching -> (forall l, phase_of s = Bound l -> ls_expires_at l <= now cx) ->
  (exists rng, cx' = cx <| rand := rng |>) -> offer = Ret None ->
  dispatched cx takes s offer (DhcpSocket.reset s, cx', res).
Proof.
  intros Hs Hne Hl ? ->. destruct (dhcp_reset_ok s Hs) as (? & ? & Hv). exists None. split; [done|]. split; [|done].
  split_and!; [done..|]. cbn [fst]. rewrite Hv. replace (if takes then DhcpSent <$> None else None) with (@None dhcp_output) by by destruct takes.
  unfold client_view. destruct (phase_of s) as [|server address|l]; [done|apply client_give_up|apply client_expire; by apply Hl].
Qed.

Lemma shl_ok c n : retry_ok c -> 0 <= n < request_retries c ->
  exists d, Duration.shl (initial_request_timeout c) (n / 2) = Ret d /\ delay_ok d /\
    d = initial_request_timeout c * 2 ^ (n / 2).
Proof.
  intros [_ Hr [H0 Hi] _ _] Hn. unfold Duration.shl. rewrite (proj2 (Z.ltb_lt _ _)) by div_lia.
  assert (0 <= n / 2 <= request_retries c / 2) as Hd by (split; [apply Z.div_pos; lia|apply Z.div_le_mono; lia]).
  assert (2 ^ (n / 2) <= 2 ^ (request_retries c / 2)) as Hp by (apply Z.pow_le_mono_r; lia).
  assert (0 < 2 ^ (n / 2)) by (apply Z.pow_pos_nonneg; lia).
  eexists. split; [done|]. rewrite Z.shiftl_mul_pow2 by lia. unfold wrap_u, delay_ok.
  assert (0 <= initial_request_timeout c * 2 ^ (n / 2) <= 2 ^ 60) as Hx by nia.
  change (2 ^ 60) with 1152921504606846976 in *. change (2 ^ 64) with 18446744073709551616.
  rewrite Z.mod_small by lia. done.
Qed.

(** [dispatch] up to the transition of its state. *)
Lemma dispatch_starts s cx :
  dhcp_context_ok cx -> exists rng xid r mac, cx_hardware_addr cx = HwEthernet mac /\
    DhcpSocket.base_message (cx <| rand := rng |>) mac xid s = Ret r /\
    message_type r = DhcpMessageType.Discover /\ Dhcpv4Wire.transaction_id r = xid /\ client_hardware_address r = mac /\
    forall E (emit : Context -> IpHeader * UdpRepr * DhcpRepr -> outcome (Context * result unit E)),
      DhcpSocket.dispatch emit s cx =
      let udp := mkUdpRepr (DhcpSocket.client_port s) (DhcpSocket.server_port s) in
      match DhcpSocket.state s with
      | Discovering st => DhcpSocket.dispatch_discovering emit (cx <| rand := rng |>) st xid udp r s
      | Requesting st => DhcpSocket.dispatch_requesting emit (cx <| rand := rng |>) st xid udp r s
      | Renewing st => DhcpSocket.dispatch_renewing emit (cx <| rand := rng |>) st xid udp r s
      end.
Proof.
  intros [(mac & Hmac & _) Hmtu Hnow]. unfold DhcpSocket.dispatch. rewrite Hmac.
  destruct (Rand.rand_u32_ok (rand cx)) as (rng & xid & -> & _).
  destruct (base_message_ok (cx <| rand := rng |>) mac xid s) as [r Hr]; [done|]. exists rng, xid, r, mac.
  split; [done|]. split; [done|]. assert (Hr' := Hr). unfold DhcpSocket.base_message in Hr'.
  destruct (usub _ _); [|done]. cbn [mbind outcome_bind] in Hr'. destruct (usub _ _); [|done].
  cbn [mbind outcome_bind] in Hr'. injection Hr' as <-. split_and!; [done..|]. intros. cbn [mbind outcome_bind].
  by rewrite Hr.
Qed.

Section Dispatching.
Context (cx cx1 : Context) (takes : bool) (s : DhcpSocket.Socket) (xid : Z) (r : DhcpRepr).
Let udp : UdpRepr := mkUdpRepr (DhcpSocket.client_port s) (DhcpSocket.server_port s).
Hypothesis (Hs : dhcp_inv s) (Hnow : clock_ok (now cx)) (Hcx1 : exists rng, cx1 = cx <| rand := rng |>).
Hypothesis (Hmt : message_type r = DhcpMessageType.Discover) (Hxid : Dhcpv4Wire.transaction_id r = xid).
Hypothesis (Hmac : cx_hardware_addr cx = HwEthernet (client_hardware_address r)).

Lemma now_cx1 : now cx1 = now cx.
Proof. by destruct Hcx1 as [? ->]. Qed.

Lemma dispatch_discovering_ok d :
  DhcpSocket.state s = Discovering d ->
  returns (DhcpSocket.dispatch_discovering (dhcp_device takes) cx1 d xid udp r s)
    (dispatched cx takes s (offer_of (DhcpSocket.dispatch_discovering refuse cx1 d xid udp r s))).
Proof.
  intros Hs0. pose proof (ro_discover _ (di_retry s Hs)) as Hd. unfold DhcpSocket.dispatch_discovering. rewrite now_cx1.
  assert (phase_of s = Searching) as Hph by (unfold phase_of; by rewrite Hs0).
  assert (valid_at (now cx) (phase_of s)) as Hl by (intros l; by rewrite Hph).
  case_match; [by eapply idle_dispatch|]. unfold DhcpSocket.send, dhcp_device, refuse. cbn [mbind outcome_bind offer_of].
  destruct takes; [|by eapply idle_dispatch]. bounds. rewrite now_cx1, instant_add_ok by lia. cbn [mbind outcome_bind].
  eapply sent_dispatch; [done|..]; rewrite ?Hph; try done; try (by split_and!).
  eapply inv_state; [done..| |]; [done|]. cbn. bounds. lia.
Qed.

Lemma dispatch_requesting_ok q :
  DhcpSocket.state s = Requesting q ->
  returns (DhcpSocket.dispatch_requesting (dhcp_device takes) cx1 q xid udp r s)
    (dispatched cx takes s (offer_of (DhcpSocket.dispatch_requesting refuse cx1 q xid udp r s))).
Proof.
  intros Hs0. pose proof (di_retry s Hs) as Hrc. pose proof (di_state s Hs) as Hst. rewrite Hs0 in Hst.
  destruct Hst as (Hra & Hrt & Hip). unfold DhcpSocket.dispatch_requesting. rewrite now_cx1.
  assert (phase_of s = Selected (rs_server q) (rs_requested_ip q)) as Hph by (unfold phase_of; by rewrite Hs0).
  assert (valid_at (now cx) (phase_of s)) as Hl by (intros l; by rewrite Hph).
  case_match; [by eapply idle_dispatch|]. case_match eqn:Hret.
  { apply dispatch_reset; rewrite ?Hph; done. }
  unfold DhcpSocket.send, dhcp_device, refuse. cbn [mbind outcome_bind offer_of]. destruct takes; [|by eapply idle_dispatch].
  apply Z.leb_gt in Hret. destruct (shl_ok _ (rs_retry q) Hrc) as (dl & -> & Hdl & _); [lia|]. cbn [mbind outcome_bind].
  bounds. rewrite now_cx1, instant_add_ok by lia. cbn [mbind outcome_bind].
  pose proof (ro_retries _ Hrc). rewrite uadd_Ret by lia. cbn [mbind outcome_bind].
  eapply sent_dispatch; [done|..]; rewrite ?Hph; try done; try (by split_and!).
  eapply inv_state; [done..| |]; [done|]. cbn. bounds. destruct Hip. split_and!; done || lia.
Qed.

Lemma dispatch_renewing_ok n :
  DhcpSocket.state s = Renewing n ->
  returns (DhcpSocket.dispatch_renewing (dhcp_device takes) cx1 n xid udp r s)
    (dispatched cx takes s (offer_of (DhcpSocket.dispatch_renewing refuse cx1 n xid udp r s))).
Proof.
  intros Hs0. pose proof (di_state s Hs) as Hst. rewrite Hs0 in Hst. destruct Hst as (Hrn & Hrb & Hex & Hip).
  destruct n as [c rn rb rbg ex]. cbn [rn_config rn_renew_at rn_rebind_at rn_rebinding rn_expires_at] in *.
  assert (phase_of s = Bound (mkLease (cfg_server c) (cfg_address c) (cfg_router c) (as_slice (cfg_dns_servers c)) ex)) as Hph
    by (unfold phase_of; by rewrite Hs0).
  unfold DhcpSocket.dispatch_renewing. rewrite now_cx1. cbn zeta.
  cbn [rn_config rn_renew_at rn_rebind_at rn_rebinding rn_expires_at set_field].
  destruct (Z.leb_spec ex (now cx)) as [Hexp|Hexp].
  { apply dispatch_reset; try done; rewrite Hph; [done|]. by intros l [= <-]. }
  assert (valid_at (now cx) (phase_of s)) as Hl by (rewrite Hph; by intros l [= <-]).
  case_match; [by eapply idle_dispatch|]. unfold DhcpSocket.send, dhcp_device, refuse. cbn [mbind outcome_bind offer_of].
  cbn [DhcpSocket.retry_config set_field]. destruct takes.
  2: { eapply idle_dispatch; try done; [|unfold client_view, phase_of; by rewrite Hs0].
       eapply inv_state; [done..| |]; [done|]. cbn. bounds. destruct Hip. split_and!; done || lia. }
  match goal with |- context [DhcpSocket.next_renewal _ _ ?x] => change x with (mkRenewState c rn rb (rbg || (rb <=? now cx)) ex) end.
  destruct (next_renewal_ok (now cx) (DhcpSocket.retry_config s)
    (mkRenewState c rn rb (rbg || (rb <=? now cx)) ex)) as (-> & Hd1 & Hd2); cbn; [done|apply Hs|done..| |].
  { intros [_ Hb]%orb_false_iff. by apply Z.leb_gt in Hb. }
  cbn in Hd1, Hd2. eapply sent_dispatch; [done|..]; rewrite ?Hph; try done; try (by split_and!).
  - eapply inv_state; [done..| |]; [done|]. cbn. destruct Hip. destruct (rbg || _); cbn; split_and!; try done. by apply Hd2.
  - unfold phase_of. cbn. by destruct (rbg || _).
  - by rewrite <- Hph.
Qed.
End Dispatching.

Lemma dhcp_dispatch_ok cx takes s :
  dhcp_inv s -> dhcp_context_ok cx ->
  returns (DhcpSocket.dispatch (dhcp_device takes) s cx) (dispatched cx takes s (dhcp_offered s cx)).
Proof.
  intros Hs Hcx. destruct (dispatch_starts s cx Hcx) as (rng & xid & r & mac & Hmac & _ & Hmt & Hx & Hch & Hd).
  unfold dhcp_offered. rewrite !Hd. cbn zeta. destruct Hcx as [_ _ Hnow]. rewrite <- Hch in Hmac.
  assert (exists rng', cx <| rand := rng |> = cx <| rand := rng' |>) as Hcx1 by (by eexists).
  destruct (DhcpSocket.state s) as [d|q|n] eqn:Hs0.
  - by apply dispatch_discovering_ok.
  - by apply dispatch_requesting_ok.
  - by apply dispatch_renewing_ok.
Qed.

(** *** Runs of events *)

Lemma poll_step g t s :
  client_step g t DhcpPoll (client_view s) (DhcpTold <$> (DhcpSocket.poll s).2) (client_view (DhcpSocket.poll s).1).
Proof.
  unfold DhcpSocket.poll, client_view. destruct (DhcpSocket.config_changed_flag s) eqn:Hf; cbn [negb].
  - unfold phase_of. destruct (DhcpSocket.state s) eqn:Hst; cbn; rewrite Hst; apply client_tell; by cbn.
  - cbn. rewrite Hf. apply client_silent.
Qed.

Lemma dhcp_step_ok ev s cx :
  dhcp_inv s -> dhcp_context_ok cx -> dhcp_admissible (DhcpSocket.max_lease_duration s) ev ->
  returns (dhcp_step ev s cx) (fun '(s', cx', o) => step_post cx ev o s s' /\ dhcp_context_ok cx' /\
    cx_hardware_addr cx' = cx_hardware_addr cx /\ now cx' = match ev with DhcpTime t => t | _ => now cx end).
Proof.
  intros Hs Hcx Ha. destruct ev as [t|ip repr payload|takes| |]; cbn [dhcp_step].
  - cbn. split; [|split_and!; try done; by destruct Hcx]. split_and!; try done. constructor.
  - destruct (for_client s repr) eqn:Hf.
    + destruct (dhcp_process_ok cx ip repr payload s Hs Hcx Ha Hf) as (s' & -> & Hp). cbn [mbind outcome_bind]. by split; [|split_and!].
    + cbn. split; [|by split_and!]. apply ignored; try done. intros r (H1 & H2 & _).
      by rewrite (proj2 (for_client_true s repr) (conj H1 H2)) in Hf.
  - pose proof (dhcp_dispatch_ok cx takes s Hs Hcx) as Hd. destruct (DhcpSocket.dispatch _ s cx) as [[[s' cx'] res]|]; [|done].
    destruct Hd as (p & -> & Hstep & rng & Hr). cbn in *. subst cx'. split; [done|]. split_and!; try done. by destruct Hcx.
  - pose proof (poll_step (settings_of cx s) (now cx) s) as Hp.
    destruct (DhcpSocket.poll s) as [s' e] eqn:He. cbn. split; [|by split_and!]. split_and!; [..|exact Hp].
    + unfold DhcpSocket.poll in He. destruct (negb _); [|destruct (DhcpSocket.state s) eqn:Hst]; injection He as <- _; by destruct Hs.
    + unfold DhcpSocket.poll in He. destruct (negb _); [|destruct (DhcpSocket.state s) eqn:Hst]; by injection He as <- _.
  - destruct (dhcp_reset_ok s Hs) as (? & ? & Hv). cbn [returns]. split; [|by split_and!]. split_and!; try done. rewrite Hv. apply client_reset.
Qed.
End Steps.

Section Refinement.
Context {BO : ByteOrder} {DF : Bitflags DHCP_BROADCAST} {DV : Vec (list Z)}.

(** Runs of the abstract client, with what is seen of it; the clock is moved by the
    events. *)
Inductive client_run (g : Settings) : Instant -> list dhcp_event -> Client -> list dhcp_output -> Client -> Prop :=
| client_run_nil t c : client_run g t [] c [] c
| client_run_cons t ev es c1 o c2 l c3 :
    client_step g t ev c1 o c2 -> client_run g (match ev with DhcpTime t' => t' | _ => t end) es c2 l c3 ->
    client_run g t (ev :: es) c1 (option_list o ++ l) c3.

Lemma same_settings_of cx cx' s s' :
  same_settings s s' -> cx_hardware_addr cx' = cx_hardware_addr cx -> settings_of cx' s' = settings_of cx s.
Proof. unfold settings_of. by intros (-> & _ & -> & -> & ->) ->. Qed.

Lemma dhcp_trace_ok {NE : NetworkEndian BO} {DVL : VecLaws DV MAX_DNS_SERVER_COUNT} es s cx :
  dhcp_inv s -> dhcp_context_ok cx -> Forall (dhcp_admissible (DhcpSocket.max_lease_duration s)) es ->
  exists s' cx' l, dhcp_trace es s cx = Ret (s', cx', l) /\ dhcp_inv s' /\
    client_run (settings_of cx s) (now cx) es (client_view s) l (client_view s').
Proof.
  revert s cx. induction es as [|ev es IH]; intros s cx Hs Hcx Ha.
  - exists s, cx, []. split_and!; try done. constructor.
  - apply Forall_cons_1 in Ha as [He Ha]. pose proof (dhcp_step_ok ev s cx Hs Hcx He) as Hstep. cbn [dhcp_trace].
    destruct (dhcp_step ev s cx) as [[[s1 cx1] o]|]; [|done]. destruct Hstep as ((Hs1 & Hset & Hc) & Hcx1 & Hmac & Hnow).
    cbn [mbind outcome_bind]. destruct (IH s1 cx1 Hs1 Hcx1) as (s2 & cx2 & l & -> & Hs2 & Hrun); [by destruct Hset as (-> & _)|].
    cbn [mbind outcome_bind]. rewrite (same_settings_of cx cx1 s s1 Hset Hmac), Hnow in Hrun. do 3 eexists. split_and!; [done..|].
    by econstructor.
Qed.

(** The abstract client keeps the application informed. *)
Lemma client_run_informs g t es c l c' :
  client_run g t es c l c' -> cl_changed c' = false ->
  (exists e, list.last (told_events l) = Some e /\ told (phase_lease (cl_phase c')) e) \/
  (told_events l = [] /\ cl_changed c = false /\ forall e, told (phase_lease (cl_phase c)) e -> told (phase_lease (cl_phase c')) e).
Proof.
  induction 1 as [t c|t ev es c1 o c2 l c3 Hstep Hrun IH]; intros Hf.
  - right. done.
  - unfold told_events. rewrite omap_app. destruct (IH Hf) as [(e0 & Hl & Ht)|(Hl & Hf2 & Hkeep)]; unfold told_events in Hl.
    + left. exists e0. split; [|done]. by rewrite last_app, Hl.
    + rewrite Hl, app_nil_r. inversion Hstep; subst; cbn in *; try done; try (right; split_and!; first [done|exact Hkeep]).
      * right. match goal with H : _ \/ _ |- _ => destruct H as [H|[H (l1 & -> & (? & ? & ? & ?))]] end; [congruence|].
        split_and!; [done|congruence|]. intros [|d] Htold; [done|]. apply Hkeep. cbn in *. intuition congruence.
      * right. destruct ph; cbn in *; [by split_and!|by split_and!|done].
      * right. destruct ph; cbn in *; [by split_and!|by split_and!|done].
      * left. eexists. split; [done|]. by apply Hkeep.
Qed.
End Refinement.


(** C18: the application knows the lease: in every run that begins with a new client, when
    [poll] has nothing more to tell, the last event it gave was the lease the client
    holds, or that it has none. *)
Theorem dhcp_application_informed {BO : ByteOrder} (NE : NetworkEndian BO) {DF : Bitflags DHCP_BROADCAST}
    {DV : Vec (list Z)} (DVL : VecLaws DV MAX_DNS_SERVER_COUNT) es cx
    (Hcx : dhcp_context_ok cx) (Ha : Forall (dhcp_admissible None) es) :
  exists s cx' l, dhcp_run es DhcpSocket.new cx = Ret (s, cx', l) /\
    ((DhcpSocket.poll s).2 = None -> exists e, list.last l = Some e /\ told (lease_of s) e).
Proof.
  destruct (dhcp_trace_ok es DhcpSocket.new cx) as (s & cx' & l & Hrun & Hs & Hc); [|done..|].
  { apply dhcp_new_ok. }
  exists s, cx', (told_events l). split; [unfold dhcp_run; by rewrite Hrun|]. intros Hp. rewrite <- phase_of_lease.
  destruct (client_run_informs _ _ _ _ _ _ Hc) as [He|(_ & Hf & _)]; [|done..].
  cbn. unfold DhcpSocket.poll in Hp. destruct (DhcpSocket.config_changed_flag s); [|done]. cbn in Hp.
  by destruct (DhcpSocket.state s).
Qed.
