(* ===== verification/Dhcpv4Run.v ===== *)
(** * The DHCP client at work

    The exchange of four messages ends with a lease that the application is told;
    [poll_at] is when [dispatch] has something to do, and two dispatches bring it
    past the clock, so that an interface that sleeps until [poll_at] neither misses
    a retransmission nor spins; where the code fails: a server can make the client
    panic with its T1, and make it spin with a T2 before T1. *)

From S2P Require Import Prelude Collections Time Phy Bytes Octets Flags Ip LinkLayer Cidr UdpWire.
From S2P Require Import TcpTimers Context Dhcpv4Wire Dhcpv4Socket Dhcpv4Spec.
Open Scope Z_scope.

Section Work.
Context {BO : ByteOrder} {NE : NetworkEndian BO} {DF : Bitflags DHCP_BROADCAST}.
Context {DV : Vec (list Z)} {DVL : VecLaws DV MAX_DNS_SERVER_COUNT}.
Implicit Types (s : DhcpSocket.Socket) (cx : Context).

(** A dispatch into a device that takes the packet. *)
Definition dhcp_sends s cx : outcome (DhcpSocket.Socket * Context) :=
  '(s, cx, _) ← DhcpSocket.dispatch (dhcp_device true) s cx; Ret (s, cx).

(** The server answers a message with one that has the octets [payload]. *)
Definition answers s (p : IpHeader * UdpRepr * DhcpRepr) (udp : UdpRepr) (r : DhcpRepr) (payload : list Z) : Prop :=
  for_client s udp = true /\ DhcpRepr.parse payload = Ret (Ok r) /\ bytes payload /\
  Dhcpv4Wire.transaction_id r = Dhcpv4Wire.transaction_id p.2 /\
  client_hardware_address r = client_hardware_address p.2 /\ is_Some (server_identifier r).

(** ** The exchange *)

Lemma discover_sent s cx d :
  dhcp_inv s -> dhcp_context_ok cx -> DhcpSocket.state s = Discovering d -> ds_retry_at d <= now cx ->
  exists p s1 cx1, dhcp_offered s cx = Ret (Some p) /\ message_type p.2 = DhcpMessageType.Discover /\
    cx_hardware_addr cx = HwEthernet (client_hardware_address p.2) /\
    dhcp_sends s cx = Ret (s1, cx1) /\ dhcp_inv s1 /\ same_settings s s1 /\ (exists rng, cx1 = cx <| rand := rng |>) /\
    (exists d', DhcpSocket.state s1 = Discovering d' /\ ds_retry_at d' = now cx + discover_timeout (DhcpSocket.retry_config s)) /\
    DhcpSocket.transaction_id s1 = Dhcpv4Wire.transaction_id p.2.
Proof.
  intros Hs Hcx Hst Hd. destruct (dispatch_starts s cx Hcx) as (rng & xid & r & mac & Hmac & _ & Hmt & Hxid & Hch & Heq).
  pose proof (dhcp_dispatch_ok cx true s Hs Hcx) as Hok.
  unfold dhcp_offered, dhcp_sends. rewrite !Heq in *. cbn zeta in *. rewrite Hst in *.
  unfold DhcpSocket.dispatch_discovering, DhcpSocket.send in *. cbn [now set_field] in *.
  rewrite (proj2 (Z.ltb_ge _ _) Hd) in *. cbn [mbind outcome_bind dhcp_device] in *. eexists _.
  destruct (Instant.add _ _) as [t|] eqn:Ht; [|done]. cbn [mbind outcome_bind] in *. destruct Hok as (? & _ & (Hi & Hset & _) & _).
  cbn in Hi, Hset. do 2 eexists. split; [done|]. cbn. split_and!; try done.
  - by rewrite Hch.
  - by eexists.
  - eexists. split; [done|]. cbn. pose proof (ro_discover _ (di_retry s Hs)). pose proof (dc_now cx Hcx).
    cbn [now set_field] in Ht. bounds. rewrite instant_add_ok in Ht by lia. by injection Ht as <-.
Qed.

Lemma request_sent s cx q :
  dhcp_inv s -> dhcp_context_ok cx -> DhcpSocket.state s = Requesting q -> rs_retry_at q <= now cx ->
  rs_retry q < request_retries (DhcpSocket.retry_config s) ->
  exists p s1 cx1, dhcp_offered s cx = Ret (Some p) /\ message_type p.2 = DhcpMessageType.Request /\
    requested_ip p.2 = Some (rs_requested_ip q) /\ server_identifier p.2 = Some (si_identifier (rs_server q)) /\
    cx_hardware_addr cx = HwEthernet (client_hardware_address p.2) /\
    dhcp_sends s cx = Ret (s1, cx1) /\ dhcp_inv s1 /\ same_settings s s1 /\ (exists rng, cx1 = cx <| rand := rng |>) /\
    (exists q', DhcpSocket.state s1 = Requesting q' /\ rs_server q' = rs_server q /\
       rs_retry_at q' = now cx + initial_request_timeout (DhcpSocket.retry_config s) * 2 ^ (rs_retry q / 2)) /\
    DhcpSocket.transaction_id s1 = Dhcpv4Wire.transaction_id p.2.
Proof.
  intros Hs Hcx Hst Hd Hn. destruct (dispatch_starts s cx Hcx) as (rng & xid & r & mac & Hmac & _ & Hmt & Hxid & Hch & Heq).
  pose proof (dhcp_dispatch_ok cx true s Hs Hcx) as Hok. pose proof (di_state s Hs) as Hq. rewrite Hst in Hq.
  destruct Hq as (_ & Hq & _). destruct (shl_ok _ (rs_retry q) (di_retry s Hs)) as (dl & Hdl & Hdb & Hde); [lia|].
  unfold dhcp_offered, dhcp_sends. rewrite !Heq in *. cbn zeta in *. rewrite Hst in *.
  unfold DhcpSocket.dispatch_requesting, DhcpSocket.send in *. cbn [now set_field] in *.
  rewrite (proj2 (Z.ltb_ge _ _) Hd), (proj2 (Z.leb_gt _ _) Hn) in *. cbn [mbind outcome_bind dhcp_device] in *. eexists _.
  rewrite Hdl in *. cbn [mbind outcome_bind] in *. destruct (Instant.add _ _) as [t|] eqn:Ht; [|done].
  cbn [mbind outcome_bind] in *. destruct (uadd _ _ _); [|done]. cbn [mbind outcome_bind] in *.
  destruct Hok as (? & _ & (Hi & Hset & _) & _). cbn in Hi, Hset. do 2 eexists. split; [done|]. cbn. split_and!; try done.
  - by rewrite Hch.
  - by eexists.
  - eexists. split_and!; [done..|]. cbn. pose proof (dc_now cx Hcx). cbn [now set_field] in Ht.
    rewrite <- Hde. bounds. rewrite instant_add_ok in Ht by lia. by injection Ht as <-.
Qed.

(** A message to this client gets to [process_message]. *)
Lemma process_addressed s cx p ip udp r payload :
  answers s p udp r payload -> cx_hardware_addr cx = HwEthernet (client_hardware_address p.2) ->
  DhcpSocket.transaction_id s = Dhcpv4Wire.transaction_id p.2 ->
  exists sid, server_identifier r = Some sid /\ dhcp_wf r /\
  DhcpSocket.process cx ip udp payload s =
  DhcpSocket.process_message cx (ih_src_addr ip) sid r (DhcpSocket.keep_packet payload s).
Proof.
  intros (Hf & Hp & Hb & Hx & Hc & [sid Hsid]) Hmac Hxid. exists sid. split; [done|].
  destruct (dhcp_parse_ok payload Hb) as (res & Hp' & Hwf). assert (res = Ok r) as -> by congruence. split; [by apply Hwf|].
  unfold DhcpSocket.process. unfold for_client in Hf. rewrite Hf. cbn [rust_assert mbind outcome_bind].
  unfold DhcpPacket.new_checked. destruct (DhcpPacket.check_len payload) as [[]|] eqn:Hl;
    [|unfold DhcpRepr.parse in Hp; by rewrite Hl in Hp].
  rewrite Hp. cbn [mbind outcome_bind]. rewrite Hmac, Hsid, Hc, Hx, Hxid, Z.eqb_refl. by case_bool_decide.
Qed.

Lemma keep_packet_ok payload s :
  dhcp_inv s -> let s' := DhcpSocket.keep_packet payload s in
  dhcp_inv s' /\ same_settings s s' /\ DhcpSocket.state s' = DhcpSocket.state s.
Proof. intros Hs. by destruct (keep_packet_view payload s Hs) as (? & ? & _ & ? & _). Qed.

Lemma offer_taken s cx p d ip udp r payload :
  dhcp_inv s -> dhcp_context_ok cx -> DhcpSocket.state s = Discovering d -> answers s p udp r payload ->
  cx_hardware_addr cx = HwEthernet (client_hardware_address p.2) ->
  DhcpSocket.transaction_id s = Dhcpv4Wire.transaction_id p.2 ->
  message_type r = DhcpMessageType.Offer -> Ipv4Address.is_unicast (your_ip r) = true ->
  exists s' sid, DhcpSocket.process cx ip udp payload s = Ret s' /\ dhcp_inv s' /\ same_settings s s' /\
    server_identifier r = Some sid /\
    DhcpSocket.state s' = Requesting (mkRequestState (now cx) 0 (mkServerInfo (ih_src_addr ip) sid) (your_ip r)).
Proof.
  intros Hs Hcx Hst Ha Hmac Hxid Hmt Hu. destruct (process_addressed s cx p ip udp r payload Ha Hmac Hxid) as (sid & Hsid & Hwf & ->).
  destruct (keep_packet_ok payload s Hs) as (Hk & Hset & Hkst). unfold DhcpSocket.process_message. rewrite Hkst, Hst, Hmt, Hu.
  cbn [negb]. do 2 eexists. split_and!; try done; [|by apply Hset..].
  eapply (inv_state (DhcpSocket.keep_packet payload s)); [done..| |]; [done|]. destruct (wf_yiaddr r Hwf), (dc_now cx Hcx).
  cbn. bounds. split_and!; done || lia.
Qed.

Lemma ack_taken s cx p q ip udp r payload :
  dhcp_inv s -> dhcp_context_ok cx -> DhcpSocket.state s = Requesting q -> answers s p udp r payload ->
  cx_hardware_addr cx = HwEthernet (client_hardware_address p.2) ->
  DhcpSocket.transaction_id s = Dhcpv4Wire.transaction_id p.2 ->
  message_type r = DhcpMessageType.Ack -> usable r -> t1_ok (DhcpSocket.max_lease_duration s) r ->
  exists s' l, DhcpSocket.process cx ip udp payload s = Ret s' /\ dhcp_inv s' /\ lease_of s' = Some l /\
    lease_from (now cx) (DhcpSocket.max_lease_duration s) r l /\ ls_server l = rs_server q /\
    exists e, (DhcpSocket.poll s').2 = Some e /\ told (Some l) e.
Proof.
  intros Hs Hcx Hst Ha Hmac Hxid Hmt Hu Ht1. destruct (process_addressed s cx p ip udp r payload Ha Hmac Hxid) as (sid & Hsid & Hwf & ->).
  destruct (keep_packet_ok payload s Hs) as (Hk & (Hm & _) & Hkst). unfold DhcpSocket.process_message. rewrite Hkst, Hst, Hmt, Hm.
  destruct (parse_ack_ok (now cx) r (DhcpSocket.max_lease_duration s) (rs_server q)) as [[_ Hn]|(_ & config & rn & rb & -> & Hsv & Had & Hrt & Hnm & H1 & H2 & H3 & _)];
    [apply Hcx|done|apply Hs|done|done|]. cbn [mbind outcome_bind]. do 2 eexists. split_and!; try done.
  - eapply (inv_state (DhcpSocket.keep_packet payload s)); [done..| |]; [done|]. destruct (wf_yiaddr r Hwf). cbn.
    rewrite Had. by split_and!.
  - eexists. split; [done|]. by cbn.
Qed.
End Work.

(** C16: the exchange works: a client that is due sends a DISCOVER; when a server answers
    it with an offer, the client requests that address from that server; when the
    server acknowledges the request, the client has the lease of the message, counted
    from now on, with that server, and [poll] tells it to the application. *)
Theorem dhcp_handshake {BO : ByteOrder} (NE : NetworkEndian BO) {DF : Bitflags DHCP_BROADCAST} {DV : Vec (list Z)}
    (DVL : VecLaws DV MAX_DNS_SERVER_COUNT) s cx d
    (Hs : dhcp_inv s) (Hcx : dhcp_context_ok cx) (Hd : DhcpSocket.state s = Discovering d) (Hdue : ds_retry_at d <= now cx)
    (Hn : 0 < request_retries (DhcpSocket.retry_config s)) :
  exists p1 s1 cx1, dhcp_offered s cx = Ret (Some p1) /\ message_type p1.2 = DhcpMessageType.Discover /\
    dhcp_sends s cx = Ret (s1, cx1) /\
  forall ip1 udp1 offer b1, answers s p1 udp1 offer b1 -> message_type offer = DhcpMessageType.Offer ->
    Ipv4Address.is_unicast (your_ip offer) = true ->
  exists s2 p2 s3 cx3, DhcpSocket.process cx1 ip1 udp1 b1 s1 = Ret s2 /\ dhcp_offered s2 cx1 = Ret (Some p2) /\
    message_type p2.2 = DhcpMessageType.Request /\ requested_ip p2.2 = Some (your_ip offer) /\
    server_identifier p2.2 = server_identifier offer /\ dhcp_sends s2 cx1 = Ret (s3, cx3) /\
  forall ip2 udp2 ack b2, answers s p2 udp2 ack b2 -> message_type ack = DhcpMessageType.Ack ->
    usable ack -> t1_ok (DhcpSocket.max_lease_duration s) ack ->
  exists s4 l e, DhcpSocket.process cx3 ip2 udp2 b2 s3 = Ret s4 /\ lease_of s4 = Some l /\
    lease_from (now cx) (DhcpSocket.max_lease_duration s) ack l /\
    si_address (ls_server l) = ih_src_addr ip1 /\ Some (si_identifier (ls_server l)) = server_identifier offer /\
    (DhcpSocket.poll s4).2 = Some e /\ told (Some l) e.
Proof.
  destruct (discover_sent s cx d Hs Hcx Hd Hdue) as (p1 & s1 & cx1 & Hp1 & Ht1 & Hm1 & Hs1 & Hi1 & Hset1 & [rng1 ->] & (d1 & Hd1 & _) & Hx1).
  exists p1, s1, (cx <| rand := rng1 |>). split_and!; [done..|]. intros ip1 udp1 offer b1 Ha Hmt Hu.
  assert (dhcp_context_ok (cx <| rand := rng1 |>)) as Hcx1 by (by destruct Hcx).
  destruct (offer_taken s1 (cx <| rand := rng1 |>) p1 d1 ip1 udp1 offer b1) as (s2 & sid & Hs2 & Hi2 & Hset2 & Hsid & Hst2); try done.
  { destruct Ha as [Hf ?]. split; [|done]. unfold for_client in *. destruct Hset1 as (_ & _ & -> & -> & _). done. }
  destruct (request_sent s2 (cx <| rand := rng1 |>) _ Hi2 Hcx1 Hst2) as
    (p2 & s3 & cx3 & Hp2 & Ht2 & Hr2 & Hv2 & Hm2 & Hs3 & Hi3 & Hset3 & [rng3 ->] & (q & Hq & Hsv & _) & Hx3).
  { done. }
  { unfold same_settings in *. cbn. intuition congruence. }
  exists s2, p2, s3, (cx <| rand := rng1 |> <| rand := rng3 |>). split_and!; try done; [by rewrite Hsid|].
  assert (same_settings s s3) as Hset by (unfold same_settings in *; intuition congruence).
  intros ip2 udp2 ack b2 Ha2 Hmt2 Hu2 Hok2. destruct Hset as (Hmax & _ & Hsp & Hcp & _).
  destruct (ack_taken s3 (cx <| rand := rng1 |> <| rand := rng3 |>) p2 q ip2 udp2 ack b2) as (s4 & l & Hs4 & _ & Hl & Hfrom & Hls & e & He & Hte); try done.
  { by destruct Hcx. }
  { destruct Ha2 as [Hf ?]. split; [|done]. unfold for_client in *. by rewrite Hsp, Hcp. }
  { by rewrite Hmax. }
  rewrite Hmax in Hfrom. exists s4, l, e. rewrite Hls, Hsv, Hsid. by split_and!.
Qed.

(** ** [poll_at] *)

Section PollAt.
Context {BO : ByteOrder} {NE : NetworkEndian BO} {DF : Bitflags DHCP_BROADCAST}.
Context {DV : Vec (list Z)} {DVL : VecLaws DV MAX_DNS_SERVER_COUNT}.
Implicit Types (s : DhcpSocket.Socket) (cx : Context).

Definition dhcp_due s : Instant := match DhcpSocket.poll_at s with PollTime t => t | _ => 0 end.

(** The timeouts of the application are positive. *)
Definition retry_positive (c : RetryConfig) : Prop :=
  0 < discover_timeout c /\ 0 < initial_request_timeout c /\ 0 < min_renew_timeout c /\ 0 < max_renew_timeout c.

(** T1 is not after T2. *)
Definition timers_in_order s : Prop :=
  match DhcpSocket.state s with Renewing n => rn_renew_at n <= rn_rebind_at n | _ => True end.

Lemma early_dispatch_idle {E} (emit : Context -> IpHeader * UdpRepr * DhcpRepr -> outcome (Context * result unit E)) s cx :
  dhcp_context_ok cx -> now cx < dhcp_due s -> exists rng, DhcpSocket.dispatch emit s cx = Ret (s, cx <| rand := rng |>, Ok ()).
Proof.
  intros Hcx Hdue. destruct (dispatch_starts s cx Hcx) as (rng & xid & r & mac & _ & _ & _ & _ & _ & ->). exists rng.
  unfold dhcp_due, DhcpSocket.poll_at in Hdue. cbn zeta. destruct (DhcpSocket.state s) as [d|q|n].
  - unfold DhcpSocket.dispatch_discovering. cbn [now set_field]. by rewrite (proj2 (Z.ltb_lt _ _)).
  - unfold DhcpSocket.dispatch_requesting. cbn [now set_field]. by rewrite (proj2 (Z.ltb_lt _ _)).
  - unfold DhcpSocket.dispatch_renewing. cbn [now set_field]. cbn zeta. rewrite (proj2 (Z.leb_gt _ _)) by lia.
    destruct (rn_rebinding n); [rewrite (proj2 (Z.ltb_lt (now cx) (rn_rebind_at n))) by lia; by rewrite orb_true_r|].
    by rewrite (proj2 (Z.ltb_lt (now cx) (rn_renew_at n))) by lia.
Qed.

(** What [dhcp_sends] does in [s]: the next [poll_at] is later than now, or the
    client starts anew. *)
Definition advances s cx : Prop :=
  exists s' rng, dhcp_sends s cx = Ret (s', cx <| rand := rng |>) /\ dhcp_inv s' /\ timers_in_order s' /\
    DhcpSocket.retry_config s' = DhcpSocket.retry_config s /\
    (now cx < dhcp_due s' \/ DhcpSocket.state s' = Discovering (mkDiscoverState 0) /\ forall d, DhcpSocket.state s <> Discovering d).

Lemma due_renewal s cx n :
  dhcp_inv s -> dhcp_context_ok cx -> retry_positive (DhcpSocket.retry_config s) ->
  DhcpSocket.state s = Renewing n -> rn_renew_at n <= rn_rebind_at n ->
  Z.min (if rn_rebinding n then rn_rebind_at n else Z.min (rn_renew_at n) (rn_rebind_at n)) (rn_expires_at n) <= now cx ->
  advances s cx.
Proof.
  intros Hs Hcx (_ & _ & Hp3 & Hp4) Hst Ho Hge. destruct (dispatch_starts s cx Hcx) as (rng & xid & r & mac & _ & _ & _ & _ & _ & Heq).
  pose proof (dhcp_dispatch_ok cx true s Hs Hcx) as Hok. pose proof (di_state s Hs) as Hn. rewrite Hst in Hn. destruct Hn as (Hrn & Hrb & Hex & _).
  unfold advances, dhcp_sends. rewrite Heq in *. cbn zeta in *. rewrite Hst in *.
  unfold DhcpSocket.dispatch_renewing in *. cbn [now set_field] in *. cbn zeta in *.
  destruct (Z.leb_spec (rn_expires_at n) (now cx)) as [Hexp|Hexp].
  { destruct (dhcp_reset_ok s Hs) as (? & Hset & _). exists (DhcpSocket.reset s), rng. split_and!; [done..|apply Hset|]. by right. }
  assert (rn_renew_at n <= now cx) as Hnow by (destruct (rn_rebinding n); lia).
  rewrite (proj2 (Z.ltb_ge (now cx) (rn_renew_at n)) Hnow) in *.
  assert (rn_rebinding n && (now cx <? rn_rebind_at n) = false) as Hnb.
  { destruct (rn_rebinding n); [|done]. apply Z.ltb_ge. lia. }
  rewrite Hnb in *. cbn [orb] in *. unfold DhcpSocket.send, dhcp_device in *. cbn [mbind outcome_bind] in *.
  destruct n as [c rn rb rbg ex]. cbn [rn_config rn_renew_at rn_rebind_at rn_rebinding rn_expires_at] in *.
  match type of Hok with context [DhcpSocket.next_renewal _ _ ?x] => change x with (mkRenewState c rn rb (rbg || (rb <=? now cx)) ex) in * end.
  destruct (next_renewal_ok (now cx) (DhcpSocket.retry_config s) (mkRenewState c rn rb (rbg || (rb <=? now cx)) ex)) as (Hnr & _);
    [apply Hcx|apply Hs|done..| |].
  { cbn. intros [_ Hb]%orb_false_iff. by apply Z.leb_gt in Hb. }
  cbn [DhcpSocket.retry_config set_field] in *. change (DhcpSocket.retry_config (s <| DhcpSocket.state := _ |>)) with (DhcpSocket.retry_config s) in *.
  rewrite Hnr in *. cbn [mbind outcome_bind] in *.
  destruct Hok as (? & _ & (Hi & Hset & _) & _). do 2 eexists. split; [done|]. split; [apply Hi|].
  unfold timers_in_order, dhcp_due, DhcpSocket.poll_at. cbn in Hset |- *.
  destruct (rbg || _) eqn:Hb; cbn; unfold rebind_delay, renew_delay.
  - split_and!; [|done|left]; div_lia.
  - apply orb_false_iff in Hb as [_ Hb]. apply Z.leb_gt in Hb. split_and!; [|done|left]; div_lia.
Qed.

(** A dispatch that is due brings [poll_at] past the clock, or starts anew. *)
Lemma due_dispatch s cx :
  dhcp_inv s -> dhcp_context_ok cx -> timers_in_order s -> retry_positive (DhcpSocket.retry_config s) ->
  advances s cx.
Proof.
  intros Hs Hcx Ho (Hp1 & Hp2 & Hp3 & Hp4). destruct (Z.lt_ge_cases (now cx) (dhcp_due s)) as [Hlt|Hge].
  { unfold advances, dhcp_sends. destruct (early_dispatch_idle (dhcp_device true) s cx Hcx Hlt) as [rng ->]. exists s, rng.
    split_and!; try done. by left. }
  unfold dhcp_due, DhcpSocket.poll_at in Hge. destruct (DhcpSocket.state s) as [d|q|n] eqn:Hst.
  - destruct (discover_sent s cx d Hs Hcx Hst Hge) as (_ & s1 & _ & _ & _ & _ & Hs1 & Hi & Hset & [rng ->] & (d' & Hd' & Hr) & _).
    exists s1, rng. split_and!; [done..| |apply Hset|]; [unfold timers_in_order; by rewrite Hd'|]. left.
    unfold dhcp_due, DhcpSocket.poll_at. rewrite Hd', Hr. lia.
  - destruct (Z.lt_ge_cases (rs_retry q) (request_retries (DhcpSocket.retry_config s))) as [Hn|Hn].
    + destruct (request_sent s cx q Hs Hcx Hst Hge Hn) as (_ & s1 & _ & _ & _ & _ & _ & _ & Hs1 & Hi & Hset & [rng ->] & (q' & Hq' & _ & Hr) & _).
      exists s1, rng. split_and!; [done..| |apply Hset|]; [unfold timers_in_order; by rewrite Hq'|]. left.
      unfold dhcp_due, DhcpSocket.poll_at. rewrite Hq', Hr. pose proof (di_state s Hs) as Hq. rewrite Hst in Hq. destruct Hq as (_ & Hq & _).
      assert (0 < 2 ^ (rs_retry q / 2)) by (apply Z.pow_pos_nonneg; [lia|apply Z.div_pos; lia]). nia.
    + destruct (dispatch_starts s cx Hcx) as (rng & xid & r & mac & _ & _ & _ & _ & _ & Heq). exists (DhcpSocket.reset s), rng.
      unfold dhcp_sends. rewrite Heq. cbn zeta. rewrite Hst. unfold DhcpSocket.dispatch_requesting. cbn [now set_field].
      rewrite (proj2 (Z.ltb_ge _ _) Hge), (proj2 (Z.leb_le _ _) Hn). destruct (dhcp_reset_ok s Hs) as (? & Hset & _).
      split_and!; [done..|apply Hset|]. by right.
  - unfold timers_in_order in Ho. rewrite Hst in Ho. by apply (due_renewal s cx n).
Qed.
End PollAt.

(** C17: [poll_at] is exact.  Before it, [dispatch] hands nothing over and changes nothing;
    and however long nobody dispatched, two dispatches bring it past the clock (the
    second one is needed when a lease has run out or the requests were not answered,
    and the client starts anew), so that polling at [poll_at] does not spin. *)
Theorem dhcp_poll_at_exact {BO : ByteOrder} (NE : NetworkEndian BO) {DF : Bitflags DHCP_BROADCAST} {DV : Vec (list Z)}
    (DVL : VecLaws DV MAX_DNS_SERVER_COUNT) s cx (Hs : dhcp_inv s) (Hcx : dhcp_context_ok cx)
    (Ho : timers_in_order s) (Hp : retry_positive (DhcpSocket.retry_config s)) :
  (now cx < dhcp_due s -> forall E (emit : Context -> IpHeader * UdpRepr * DhcpRepr -> outcome (Context * result unit E)),
     exists rng, DhcpSocket.dispatch emit s cx = Ret (s, cx <| rand := rng |>, Ok ())) /\
  exists s1 cx1 s2 cx2, dhcp_sends s cx = Ret (s1, cx1) /\ dhcp_sends s1 cx1 = Ret (s2, cx2) /\
    now cx2 = now cx /\ now cx < dhcp_due s2 /\ timers_in_order s2.
Proof.
  split; [intros; by apply early_dispatch_idle|].
  destruct (due_dispatch s cx Hs Hcx Ho Hp) as (s1 & rng & Hd1 & Hi1 & Ho1 & Hr1 & Hn1).
  assert (dhcp_context_ok (cx <| rand := rng |>)) as Hcx1 by (by destruct Hcx). rewrite <- Hr1 in Hp.
  destruct (due_dispatch s1 _ Hi1 Hcx1 Ho1 Hp) as (s2 & rng2 & Hd2 & Hi2 & Ho2 & Hr2 & Hn2).
  do 4 eexists. split_and!; [done..| |done]. destruct Hn2 as [|[_ Hn2]]; [done|]. destruct Hn1 as [Hn1|[Hn1 _]].
  - destruct (early_dispatch_idle (dhcp_device true) s1 _ Hcx1 Hn1) as [rng3 He]. unfold dhcp_sends in Hd2. rewrite He in Hd2.
    by injection Hd2 as <- _.
  - by destruct (Hn2 _ Hn1).
Qed.

(** ** Runs *)

Module DhcpWitness.
#[local] Existing Instance network_endian.
Definition flags : Bitflags DHCP_BROADCAST := int_flags DHCP_BROADCAST.
#[local] Existing Instance flags.
Definition servers : Vec (list Z) := list_vec (list Z) MAX_DNS_SERVER_COUNT.
#[local] Existing Instance servers.

Definition mac : list Z := [2; 0; 0; 0; 0; 1].
Definition server : list Z := [192; 168; 0; 1].
Definition address : list Z := [192; 168; 0; 100].

Definition cx : Context :=
  mkContext 1000000 1500 (Rand.new 42) (fun _ => None) (fun _ => false) (HwEthernet mac) ChecksumCapabilities.default [].

(** A message of a server with a lease of 100 seconds. *)
Definition message (type : DhcpMessageType.t) (xid : Z) (options : list DhcpOption) : DhcpRepr :=
  mkDhcpRepr type xid 0 mac Ipv4Address.UNSPECIFIED address server (Some server) (Some [255; 255; 255; 0])
    Ipv4Address.UNSPECIFIED false None None (Some server) None (Some (vec_push [8; 8; 8; 8] vec_new).1) None (Some 100)
    None None options.

Definition timer (kind seconds : Z) : DhcpOption := mkDhcpOption kind (be32 seconds).

Definition written (r : DhcpRepr) : list Z :=
  match DhcpRepr.emit r (replicate (DhcpRepr.buffer_len r) 0) with Ret (Ok l) => l | _ => [] end.

Definition ip : IpHeader := mkIpHeader server Ipv4Address.BROADCAST Protocol.Udp 0 64.
Definition udp : UdpRepr := mkUdpRepr DHCP_SERVER_PORT DHCP_CLIENT_PORT.

(** The exchange, with an acknowledgement that has more options. *)
Definition exchange (options : list DhcpOption) : outcome (DhcpSocket.Socket * Context) :=
  '(s, cx) ← dhcp_sends DhcpSocket.new cx;
  s ← DhcpSocket.process cx ip udp (written (message DhcpMessageType.Offer (DhcpSocket.transaction_id s) [])) s;
  '(s, cx) ← dhcp_sends s cx;
  s ← DhcpSocket.process cx ip udp (written (message DhcpMessageType.Ack (DhcpSocket.transaction_id s) options)) s;
  Ret (s, cx).

(** How [poll_at] is after each of [n] dispatches at time [t]. *)
Fixpoint dues (n : nat) (s : DhcpSocket.Socket) (cx : Context) : outcome (list Instant) :=
  match n with
  | O => Ret []
  | S n => '(s, cx) ← dhcp_sends s cx; l ← dues n s cx; Ret (dhcp_due s :: l)
  end.

Definition dues_at (t : Instant) (options : list DhcpOption) : outcome (list Instant) :=
  '(s, cx) ← exchange options; dues 3 s (cx <| now := t |>).

Definition lease_end (options : list DhcpOption) : outcome (option Instant) :=
  '(s, _) ← exchange options; Ret (ls_expires_at <$> lease_of s).

(** A server can crash its client: an acknowledgement with a lease of 100 seconds, a
    T1 of 101 seconds and no T2 makes [lease_duration - renew_duration] underflow.
    Without the T1 the client has the lease. *)
Theorem late_t1_panics :
  lease_end [timer OPT_RENEWAL_TIME_VALUE 101] = Panic /\ lease_end [] = Ret (Some (now cx + 100 * 1000000)).
Proof. split; vm_compute; reflexivity. Qed.

(** A server can make its client spin: with a T2 of 10 seconds and a T1 of 90
    seconds, [poll_at] is T2 from then on until T1, but [dispatch] does nothing. *)
Theorem early_t2_spins :
  dues_at (now cx + 20 * 1000000) [timer OPT_RENEWAL_TIME_VALUE 90; timer OPT_REBINDING_TIME_VALUE 10] =
    Ret (replicate 3 (now cx + 10 * 1000000)) /\
  dues_at (now cx + 20 * 1000000) [timer OPT_RENEWAL_TIME_VALUE 10; timer OPT_REBINDING_TIME_VALUE 90] =
    Ret (replicate 3 (now cx + 80 * 1000000)).
Proof. split; vm_compute; reflexivity. Qed.

(** A rebind may be announced for a time after the lease. *)
Theorem rebind_after_expiry :
  ('(s, cx) ← exchange []; '(s, _) ← dhcp_sends s (cx <| now := now cx + 90 * 1000000 |>);
   Ret (match DhcpSocket.state s with Renewing n => Some (rn_rebind_at n - rn_expires_at n) | _ => None end)) =
  Ret (Some (50 * 1000000)).
Proof. vm_compute. reflexivity. Qed.

(** *** Witnesses *)

Lemma cx_ok : dhcp_context_ok cx.
Proof. constructor; [exists mac; split; [done|]|..]; vm_compute; repeat constructor; done. Qed.

Lemma laws : VecLaws servers MAX_DNS_SERVER_COUNT.
Proof. apply list_vec_laws. Qed.

(** The transaction ids of the first two messages. *)
Definition xid1 : Z := match Rand.rand_u32 (rand cx) with Ret (_, n) => n | Panic => 0 end.
Definition xid2 : Z :=
  match ('(r, _) ← Rand.rand_u32 (rand cx); Rand.rand_u32 r) with Ret (_, n) => n | Panic => 0 end.

Definition run : list dhcp_event :=
  [DhcpPoll; DhcpDispatch true; DhcpMessage ip udp (written (message DhcpMessageType.Offer xid1 []));
   DhcpDispatch true; DhcpMessage ip udp (written (message DhcpMessageType.Ack xid2 [])); DhcpPoll;
   DhcpTime 200000000; DhcpDispatch false; DhcpPoll; DhcpMessage ip udp [1; 2; 3]; DhcpReset].

(** The application is told that there is no lease, then the lease, then that it ran out. *)
Lemma run_tells :
  (match dhcp_run run DhcpSocket.new cx with
   | Ret (_, _, l) => map (fun e => match e with Configured c => Some (Ipv4Cidr.address (cfg_address c)) | Deconfigured => None end) l
   | Panic => []
   end) = [None; Some address; None].
Proof. vm_compute. reflexivity. Qed.

Lemma message_admissible type xid :
  (exists r, DhcpRepr.parse (written (message type xid [])) = Ret (Ok r) /\ renew_duration r = None) ->
  forallb (fun b => (0 <=? b) && (b <? 256)) (written (message type xid [])) = true ->
  dhcp_admissible None (DhcpMessage ip udp (written (message type xid []))).
Proof.
  intros (r & Hr & Hn) Hb. split.
  - apply Forall_forall. intros b Hin. rewrite forallb_forall in Hb. apply list_elem_of_In in Hin. specialize (Hb b Hin).
    bool_to_prop. unfold byte. lia.
  - intros r' Hr'. assert (r' = r) as -> by congruence. unfold t1_ok. by rewrite Hn.
Qed.

Lemma offer_admissible : dhcp_admissible None (DhcpMessage ip udp (written (message DhcpMessageType.Offer xid1 []))).
Proof. apply message_admissible; [eexists; split|]; [vm_compute; reflexivity|reflexivity|vm_compute; reflexivity]. Qed.

Lemma ack_admissible : dhcp_admissible None (DhcpMessage ip udp (written (message DhcpMessageType.Ack xid2 []))).
Proof. apply message_admissible; [eexists; split|]; [vm_compute; reflexivity|reflexivity|vm_compute; reflexivity]. Qed.

Lemma short_admissible : dhcp_admissible None (DhcpMessage ip udp [1; 2; 3]).
Proof. split; [repeat constructor; done|]. intros r. unfold DhcpRepr.parse. cbn. done. Qed.

Lemma run_ok : Forall (dhcp_admissible None) run.
Proof.
  unfold run. repeat apply Forall_cons_2; [exact I|exact I|exact offer_admissible|exact I|exact ack_admissible|exact I| |
    exact I|exact I|exact short_admissible|exact I|constructor]. cbn. unfold clock_ok. lia.
Qed.


Lemma dhcp_application_informed_witness :
  exists s cx' l, dhcp_run run DhcpSocket.new cx = Ret (s, cx', l) /\
    ((DhcpSocket.poll s).2 = None -> exists e, list.last l = Some e /\ told (lease_of s) e).
Proof. exact (dhcp_application_informed network_endian_laws laws run cx cx_ok run_ok). Defined.

Lemma dhcp_poll_at_exact_witness :
  exists s1 cx1 s2 cx2, dhcp_sends DhcpSocket.new cx = Ret (s1, cx1) /\ dhcp_sends s1 cx1 = Ret (s2, cx2) /\
    now cx2 = now cx /\ now cx < dhcp_due s2 /\ timers_in_order s2.
Proof.
  apply (dhcp_poll_at_exact network_endian_laws laws DhcpSocket.new cx dhcp_new_ok cx_ok); [done|by vm_compute].
Defined.

Definition parsed (octets : list Z) : DhcpRepr :=
  match DhcpRepr.parse octets with Ret (Ok r) => r | _ => message DhcpMessageType.Nak 0 [] end.

Definition offer : list Z := written (message DhcpMessageType.Offer xid1 []).
Definition ack : list Z := written (message DhcpMessageType.Ack xid2 []).

Lemma offer_answers p1 :
  dhcp_offered DhcpSocket.new cx = Ret (Some p1) -> answers DhcpSocket.new p1 udp (parsed offer) offer.
Proof.
  intros H. assert (transaction_id p1.2 = xid1 /\ client_hardware_address p1.2 = mac) as [Hx Hm].
  { enough (match dhcp_offered DhcpSocket.new cx with
            | Ret (Some p) => transaction_id p.2 = xid1 /\ client_hardware_address p.2 = mac | _ => False end) by (by rewrite H in *).
    vm_compute. done. }
  split_and!; [vm_compute; reflexivity|vm_compute; reflexivity|apply offer_admissible|rewrite Hx; vm_compute; reflexivity|
    rewrite Hm; vm_compute; reflexivity|exists server; vm_compute; reflexivity].
Qed.

Lemma ack_answers s1 cx1 s2 p2 :
  dhcp_sends DhcpSocket.new cx = Ret (s1, cx1) -> DhcpSocket.process cx1 ip udp offer s1 = Ret s2 ->
  dhcp_offered s2 cx1 = Ret (Some p2) -> answers DhcpSocket.new p2 udp (parsed ack) ack.
Proof.
  intros H1 H2 H3. assert (transaction_id p2.2 = xid2 /\ client_hardware_address p2.2 = mac) as [Hx Hm].
  { enough (match ('(s1, cx1) ← dhcp_sends DhcpSocket.new cx; s2 ← DhcpSocket.process cx1 ip udp offer s1; dhcp_offered s2 cx1) with
            | Ret (Some p) => transaction_id p.2 = xid2 /\ client_hardware_address p.2 = mac | _ => False end) as He.
    { rewrite H1 in He. cbn in He. rewrite H2 in He. cbn in He. by rewrite H3 in He. }
    vm_compute. done. }
  split_and!; [vm_compute; reflexivity|vm_compute; reflexivity|apply ack_admissible|rewrite Hx; vm_compute; reflexivity|
    rewrite Hm; vm_compute; reflexivity|exists server; vm_compute; reflexivity].
Qed.

Lemma dhcp_handshake_witness :
  exists p1 s1 cx1 s2 p2 s3 cx3 s4 l e,
    dhcp_offered DhcpSocket.new cx = Ret (Some p1) /\ message_type p1.2 = DhcpMessageType.Discover /\
    dhcp_sends DhcpSocket.new cx = Ret (s1, cx1) /\ DhcpSocket.process cx1 ip udp offer s1 = Ret s2 /\
    dhcp_offered s2 cx1 = Ret (Some p2) /\ message_type p2.2 = DhcpMessageType.Request /\
    dhcp_sends s2 cx1 = Ret (s3, cx3) /\ DhcpSocket.process cx3 ip udp ack s3 = Ret s4 /\
    lease_of s4 = Some l /\ (DhcpSocket.poll s4).2 = Some e /\ told (Some l) e.
Proof.
  destruct (dhcp_handshake network_endian_laws laws DhcpSocket.new cx (mkDiscoverState 0)) as (p1 & s1 & cx1 & H1 & H2 & H3 & Hoffer);
    [apply dhcp_new_ok|apply cx_ok|done|done|done|].
  destruct (Hoffer ip udp (parsed offer) offer) as (s2 & p2 & s3 & cx3 & H4 & H5 & H6 & _ & _ & H8 & Hack);
    [exact (offer_answers p1 H1)|vm_compute; reflexivity|vm_compute; reflexivity|].
  destruct (Hack ip udp (parsed ack) ack) as (s4 & l & e & H9 & H10 & _ & _ & _ & H11 & H12);
    [exact (ack_answers s1 cx1 s2 p2 H3 H4 H5)|vm_compute; reflexivity|exists [255; 255; 255; 0], 24; vm_compute; done|
     vm_compute; exact I|].
  exists p1, s1, cx1, s2, p2, s3, cx3, s4, l, e. split_and!; [exact H1|exact H2|exact H3|exact H4|exact H5|exact H6|exact H8|
    exact H9|exact H10|exact H11|exact H12].
Defined.

Lemma message_wf type xid : 0 <= xid < 2 ^ 32 -> dhcp_wf (message type xid []).
Proof.
  intros. constructor; cbn; unfold u32_ok, word, EthernetAddress.wf; try lia; try done; try (split; [done|]);
    repeat constructor; try done.
Qed.

Lemma dhcp_emit_parse_roundtrip_witness :
  exists octets r', DhcpRepr.emit (message DhcpMessageType.Offer 7 []) (replicate 300 0) = Ret (Ok octets) /\
    DhcpRepr.parse octets = Ret (Ok r') /\ same_message r' (message DhcpMessageType.Offer 7 []).
Proof.
  apply (dhcp_emit_parse_roundtrip network_endian_laws (int_flags_laws DHCP_BROADCAST) laws
    (message DhcpMessageType.Offer 7 []) (replicate 300 0)).
  - apply message_wf. lia.
  - constructor; [intros id H; discriminate H|exact I|reflexivity|reflexivity|constructor].
  - apply Nat.leb_le. vm_compute. reflexivity.
Defined.
End DhcpWitness.
