(* ===== verification/DnsSocket.v ===== *)
(** * The DNS resolver (src/socket/dns.rs)

    [Socket] has a list of servers and slots for queries; [start_query],
    [get_query_result] and [cancel_query] are the calls of the application,
    [process], [dispatch] and [poll_at] those of the interface.  The features for
    multicast DNS, wakers, IPv4 and IPv6 are on. *)

From S2P Require Import Prelude Collections Time Bytes Octets Flags Ip LinkLayer UdpWire DnsWire TcpTimers Context.
Open Scope Z_scope.

Definition DNS_PORT : Z := 53.
Definition MDNS_DNS_PORT : Z := 5353.
Definition RETRANSMIT_DELAY : Duration := 1000 * 1000.
Definition MAX_RETRANSMIT_DELAY : Duration := 10000 * 1000.
Definition RETRANSMIT_TIMEOUT : Duration := 10000 * 1000.

Definition MDNS_IPV6_ADDR : Address := Ipv6 [0xff; 0x02; 0; 0; 0; 0; 0; 0; 0; 0; 0; 0; 0; 0; 0; 0xfb].
Definition MDNS_IPV4_ADDR : Address := Ipv4 [224; 0; 0; 251].

Inductive StartQueryError := NoFreeSlot | InvalidName | NameTooLong.

Inductive GetQueryResultError := QueryPending | QueryFailed.

Inductive MulticastDns := MdnsDisabled | MdnsEnabled.

(** [name.split(|&c| c == b'.')] *)
Fixpoint split_dots (name : list Z) : list (list Z) :=
  match name with
  | [] => [[]]
  | c :: name =>
      if c =? 46 then [] :: split_dots name
      else match split_dots name with l :: ls => (c :: l) :: ls | [] => [[c]] end
  end.

(** [b"local"] *)
Definition LOCAL : list Z := [108; 111; 99; 97; 108].

Section Names.
Context {NV : Vec Z} {NS : VecSlices NV}.

(** [fuel] bounds the labels of both names. *)
Fixpoint eq_loop (fuel : nat) (a b : name_iter) : outcome (result bool WireError) :=
  match fuel with
  | O => Panic
  | S fuel =>
      '(x, a) ← DnsPacket.next a;
      '(y, b) ← DnsPacket.next b;
      match x, y with
      | Some (Err e), _ => Ret (Err e)
      | _, Some (Err e) => Ret (Err e)
      | None, None => Ret (Ok true)
      | None, _ => Ret (Ok false)
      | _, None => Ret (Ok false)
      | Some (Ok la), Some (Ok lb) => if negb (bool_decide (la = lb)) then Ret (Ok false) else eq_loop fuel a b
      end
  end.

Definition eq_names (a b : name_iter) : outcome (result bool WireError) := eq_loop (S (iter_size a)) a b.

(** Append a label with its length. *)
Definition push_label (l : label) (dest : vec Z) : vec Z * result unit WireError :=
  match vec_push (wrap_u 8 (Z.of_nat (length l))) dest with
  | (dest, Err _) => (dest, Err Error)
  | (dest, Ok _) =>
      match vec_extend_from_slice l dest with
      | (dest, Err _) => (dest, Err Error)
      | (dest, Ok _) => (dest, Ok ())
      end
  end.

Fixpoint copy_loop (fuel : nat) (dest : vec Z) (name : name_iter) : outcome (vec Z * result unit WireError) :=
  match fuel with
  | O => Panic
  | S fuel =>
      '(item, name) ← DnsPacket.next name;
      match item with
      | None => Ret (match vec_push 0 dest with (dest, Ok _) => (dest, Ok ()) | (dest, Err _) => (dest, Err Error) end)
      | Some (Err e) => Ret (dest, Err e)
      | Some (Ok label) =>
          match push_label label dest with
          | (dest, Err e) => Ret (dest, Err e)
          | (dest, Ok _) => copy_loop fuel dest name
          end
      end
  end.

Definition copy_name (dest : vec Z) (name : name_iter) : outcome (vec Z * result unit WireError) :=
  copy_loop (S (iter_size name)) (vec_truncate 0 dest) name.
End Names.

Section Types.
Context {NV : Vec Z} {RV : Vec Address}.

Record PendingQuery := mkPendingQuery {
  pq_name : vec Z;
  pq_type : DnsType.t;
  pq_port : Z;
  pq_txid : Z;
  pq_timeout_at : option Instant;
  pq_retransmit_at : Instant;
  pq_delay : Duration;
  pq_server_idx : nat;
  pq_mdns : MulticastDns
}.

#[global] Instance eta_PendingQuery : Settable PendingQuery := fun q =>
  mkPendingQuery (pq_name q) (pq_type q) (pq_port q) (pq_txid q) (pq_timeout_at q) (pq_retransmit_at q)
    (pq_delay q) (pq_server_idx q) (pq_mdns q).

Inductive DnsState :=
| Pending (pq : PendingQuery)
| Completed (addresses : vec Address)
| Failure.

Record DnsQuery := mkDnsQuery { q_state : DnsState; q_waker : WakerRegistration }.

Definition set_state (st : DnsState) (q : DnsQuery) : DnsQuery :=
  mkDnsQuery st (WakerRegistration.wake (q_waker q)).
End Types.
Arguments PendingQuery {NV}.
Arguments DnsState {NV RV}.
Arguments DnsQuery {NV RV}.

Module DnsSocket.
Section Socket.
Context {BO : ByteOrder} {DF : Bitflags DNS_FLAGS}.
Context {SV : Vec Address} {SS : VecSlices SV} {NV : Vec Z} {NS : VecSlices NV} {RV : Vec Address}.

(** [queries] is the slice; [growable] is [ManagedSlice::Owned]. *)
Record Socket := mkSocket {
  servers : @vec Address SV;
  queries : list (option DnsQuery);
  growable : bool;
  hop_limit : option Z
}.

#[global] Instance eta_Socket : Settable Socket := fun s =>
  mkSocket (servers s) (queries s) (growable s) (hop_limit s).

Implicit Types (s : Socket) (cx : Context).

Definition new (l : list Address) (queries : list (option DnsQuery)) (growable : bool) : outcome Socket :=
  match vec_from_slice (V := SV) l with Ok v => Ret (mkSocket v queries growable None) | Err _ => Panic end.

Definition update_servers (l : list Address) s : outcome Socket :=
  match vec_from_slice (V := SV) l with Ok v => Ret (s <| servers := v |>) | Err _ => Panic end.

Definition set_hop_limit (h : option Z) s : outcome Socket :=
  match h with Some 0 => Panic | _ => Ret (s <| hop_limit := h |>) end.

(** The index of the first free slot, or of a new one. *)
Fixpoint first_free (qs : list (option DnsQuery)) (i : nat) : option nat :=
  match qs with
  | [] => None
  | None :: _ => Some i
  | Some _ :: qs => first_free qs (S i)
  end.

Definition find_free_query s : Socket * option nat :=
  match first_free (queries s) 0 with
  | Some i => (s, Some i)
  | None =>
      if growable s then
        let s := s <| queries ::= fun qs => qs ++ [None] |> in
        (s, Some (length (queries s) - 1)%nat)
      else (s, None)
  end.

(** [fuel] bounds the rejections of [rand_source_port]. *)
Definition start_query_raw (fuel : nat) (raw_name : list Z) (query_type : DnsType.t) (mdns : MulticastDns) s cx :
    outcome (Socket * Context * result nat StartQueryError) :=
  let '(s, handle) := find_free_query s in
  match handle with
  | None => Ret (s, cx, Err NoFreeSlot)
  | Some handle =>
      match vec_from_slice raw_name with
      | Err _ => Ret (s, cx, Err NameTooLong)
      | Ok name =>
          '(rng, txid) ← Rand.rand_u16 (rand cx);
          '(rng, port) ← Rand.rand_source_port fuel rng;
          port ← unwrap port;
          let q : DnsQuery := mkDnsQuery (Pending (mkPendingQuery name query_type port txid None 0 RETRANSMIT_DELAY 0 mdns))
                     WakerRegistration.new in
          if (handle <? length (queries s))%nat then
            Ret (s <| queries ::= <[handle := Some q]> |>, cx <| rand := rng |>, Ok handle)
          else Panic
      end
  end.

(** The wire format of a name. *)
Fixpoint push_labels (ls : list (list Z)) (raw_name : vec Z) : result (vec Z) StartQueryError :=
  match ls with
  | [] => Ok raw_name
  | l :: ls =>
      if (63 <? length l)%nat then Err InvalidName
      else if (length l =? 0)%nat then Err InvalidName
      else match push_label l raw_name with
           | (raw_name, Ok _) => push_labels ls raw_name
           | (_, Err _) => Err NameTooLong
           end
  end.

Definition start_query (fuel : nat) (name : list Z) (query_type : DnsType.t) s cx :
    outcome (Socket * Context * result nat StartQueryError) :=
  if (length name =? 0)%nat then Ret (s, cx, Err InvalidName) else
  last ← unwrap (name !! (length name - 1)%nat);
  name ← (if last =? 46 then range name 0 (length name - 1) else Ret name);
  l ← unwrap (list.last (split_dots name));
  let mdns := if bool_decide (l = LOCAL) then MdnsEnabled else MdnsDisabled in
  match push_labels (split_dots name) vec_new with
  | Err e => Ret (s, cx, Err e)
  | Ok raw_name =>
      match vec_push 0 raw_name with
      | (_, Err _) => Ret (s, cx, Err NameTooLong)
      | (raw_name, Ok _) => start_query_raw fuel (as_slice raw_name) query_type mdns s cx
      end
  end.

(** [slot.as_mut().unwrap()] of [self.queries[handle.0]] *)
Definition slot (handle : nat) s : outcome DnsQuery := o ← unwrap (queries s !! handle); unwrap o.

Definition get_query_result (handle : nat) s : outcome (Socket * result (vec Address) GetQueryResultError) :=
  q ← slot handle s;
  match q_state q with
  | Pending _ => Ret (s, Err QueryPending)
  | Completed addresses => Ret (s <| queries ::= <[handle := None]> |>, Ok addresses)
  | Failure => Ret (s <| queries ::= <[handle := None]> |>, Err QueryFailed)
  end.

Definition cancel_query (handle : nat) s : outcome Socket :=
  _ ← slot handle s;
  Ret (s <| queries ::= <[handle := None]> |>).

Definition register_query_waker (handle : nat) (w : Waker) s : outcome Socket :=
  q ← slot handle s;
  Ret (s <| queries ::= <[handle := Some (mkDnsQuery (q_state q) (WakerRegistration.register w (q_waker q)))]> |>).

Definition accepts (ip_repr : IpRepr) (udp_repr : UdpRepr) s : bool :=
  ((udp_src_port udp_repr =? DNS_PORT) &&
   existsb (fun server => bool_decide (server = IpRepr.src_addr ip_repr)) (as_slice (Vec := SV) (servers s)))
  || (udp_src_port udp_repr =? MDNS_DNS_PORT).

(** The answer records; the name is that of the query, which a CNAME changes. *)
Fixpoint answers (n : nat) (p payload : list Z) (name : vec Z) (addresses : vec Address) :
    outcome (vec Z * option (vec Address)) :=
  match n with
  | O => Ret (name, Some addresses)
  | S n =>
      res ← DnsRecord.parse payload;
      match res with
      | Err _ => Ret (name, None)
      | Ok (payload, r) =>
          same ← eq_names (DnsPacket.parse_name p (r_name r)) (DnsPacket.parse_name p (as_slice name));
          match same with
          | Err _ => Ret (name, None)
          | Ok false => answers n p payload name addresses
          | Ok true =>
              match r_data r with
              | RdA addr => answers n p payload name (vec_push (Ipv4 addr) addresses).1
              | RdAaaa addr => answers n p payload name (vec_push (Ipv6 addr) addresses).1
              | RdCname cname =>
                  '(name, res) ← copy_name name (DnsPacket.parse_name p cname);
                  match res with Err _ => Ret (name, None) | Ok _ => answers n p payload name addresses end
              | RdOther _ _ => answers n p payload name addresses
              end
          end
      end
  end.

(** The body of the loop for one query; the flag says whether the loop ends. *)
Definition process_query (dst_port : Z) (p : list Z) (q : DnsQuery) : outcome (DnsQuery * bool) :=
  match q_state q with
  | Pending pq =>
      if negb (dst_port =? pq_port pq) then Ret (q, false) else
      txid ← DnsPacket.transaction_id p;
      if negb (txid =? pq_txid pq) then Ret (q, false) else
      rcode ← DnsPacket.rcode p;
      if bool_decide (rcode = Rcode.NXDomain) then Ret (set_state Failure q, false) else
      payload ← DnsPacket.payload p;
      res ← Question.parse payload;
      match res with
      | Err _ => Ret (q, true)
      | Ok (payload, question) =>
          if negb (bool_decide (q_type question = pq_type pq)) then Ret (q, true) else
          same ← eq_names (DnsPacket.parse_name p (q_name question)) (DnsPacket.parse_name p (as_slice (pq_name pq)));
          match same with
          | Ok true =>
              count ← DnsPacket.answer_record_count p;
              '(name, res) ← answers (Z.to_nat count) p payload (pq_name pq) (vec_new (Vec := RV));
              let q : DnsQuery := mkDnsQuery (Pending (pq <| pq_name := name |>)) (q_waker q) in
              Ret (match res with
                   | None => q
                   | Some addresses =>
                       set_state (if (length (as_slice addresses) =? 0)%nat then Failure else Completed addresses) q
                   end, true)
          | _ => Ret (q, true)
          end
      end
  | _ => Ret (q, false)
  end.

Fixpoint process_loop (dst_port : Z) (p : list Z) (qs : list (option DnsQuery)) : outcome (list (option DnsQuery)) :=
  match qs with
  | [] => Ret []
  | None :: qs => qs ← process_loop dst_port p qs; Ret (None :: qs)
  | Some q :: qs =>
      '(q, stop) ← process_query dst_port p q;
      if stop : bool then Ret (Some q :: qs)
      else qs ← process_loop dst_port p qs; Ret (Some q :: qs)
  end.

Definition process (ip_repr : IpRepr) (udp_repr : UdpRepr) (payload : list Z) s : outcome Socket :=
  _ ← rust_assert (accepts ip_repr udp_repr s);
  match DnsPacket.new_checked payload with
  | Err _ => Ret s
  | Ok p =>
      opcode ← DnsPacket.opcode p;
      if negb (bool_decide (opcode = DnsOpcode.Query)) then Ret s else
      flags ← DnsPacket.flags p;
      if negb (flags_contains flags (from_bits_truncate DNS_RESPONSE)) then Ret s else
      count ← DnsPacket.question_count p;
      if negb (count =? 1) then Ret s else
      qs ← process_loop (udp_dst_port udp_repr) p (queries s);
      Ret (s <| queries := qs |>)
  end.

Section Dispatch.
Context {E : Type}.
Variable emit : Context -> IpRepr * UdpRepr * list Z -> outcome (Context * result unit E).

Definition query_servers (own : list Address) (pq : PendingQuery) : list Address :=
  match pq_mdns pq with MdnsEnabled => [MDNS_IPV6_ADDR; MDNS_IPV4_ADDR] | MdnsDisabled => own end.

(** The datagram of a query to a server. *)
Definition query_packet (hop_limit : Z) (dst_addr : Address) (pq : PendingQuery) cx : outcome (IpRepr * UdpRepr * list Z) :=
  let repr := mkDnsRepr _ (pq_txid pq) DnsOpcode.Query (from_bits_truncate DNS_RECURSION_DESIRED)
                (mkQuestion (as_slice (pq_name pq)) (pq_type pq)) in
  payload ← range (replicate 512 0) 0 (DnsRepr.buffer_len repr);
  payload ← DnsRepr.emit repr payload;
  let dst_port := match pq_mdns pq with MdnsEnabled => MDNS_DNS_PORT | MdnsDisabled => DNS_PORT end in
  let udp_repr := mkUdpRepr (pq_port pq) dst_port in
  src_addr ← unwrap (get_source_address cx dst_addr);
  ip_repr ← IpRepr.new src_addr dst_addr Protocol.Udp (UdpRepr.header_len udp_repr + length payload)%nat hop_limit;
  Ret (ip_repr, udp_repr, payload).

(** The timeout of a query: the next server's turn. *)
Definition check_timeout (now : Instant) (pq : PendingQuery) : outcome PendingQuery :=
  pq ← match pq_timeout_at pq with
       | Some _ => Ret pq
       | None => v ← Instant.add now RETRANSMIT_TIMEOUT; Ret (pq <| pq_timeout_at := Some v |>)
       end;
  timeout ← unwrap (pq_timeout_at pq);
  if timeout <? now then
    v ← Instant.add now RETRANSMIT_TIMEOUT;
    Ret (pq <| pq_timeout_at := Some v |> <| pq_retransmit_at := 0 |> <| pq_delay := RETRANSMIT_DELAY |>
            <| pq_server_idx ::= S |>)
  else Ret pq.

(** The body of the loop for one query, with the result when the loop ends. *)
Definition dispatch_query (own : list Address) (hop_limit : Z) cx (q : DnsQuery) :
    outcome (DnsQuery * Context * option (result unit E)) :=
  match q_state q with
  | Pending pq =>
      let servers := query_servers own pq in
      pq ← check_timeout (now cx) pq;
      let q : DnsQuery := mkDnsQuery (Pending pq) (q_waker q) in
      if (length servers <=? pq_server_idx pq)%nat then Ret (set_state Failure q, cx, None) else
      dst_addr ← unwrap (servers !! pq_server_idx pq);
      if Address.is_unspecified dst_addr then Ret (set_state Failure q, cx, None) else
      if now cx <? pq_retransmit_at pq then Ret (q, cx, None) else
      packet ← query_packet hop_limit dst_addr pq cx;
      '(cx, res) ← emit cx packet;
      match res with
      | Err e => Ret (q, cx, Some (Err e))
      | Ok _ =>
          retransmit_at ← Instant.add (now cx) (pq_delay pq);
          double ← Duration.mul (pq_delay pq) 2;
          let pq := pq <| pq_retransmit_at := retransmit_at |> <| pq_delay := Z.min MAX_RETRANSMIT_DELAY double |> in
          Ret (mkDnsQuery (Pending pq) (q_waker q), cx, Some (Ok ()))
      end
  | _ => Ret (q, cx, None)
  end.

Fixpoint dispatch_loop (own : list Address) (hop_limit : Z) cx (qs : list (option DnsQuery)) :
    outcome (list (option DnsQuery) * Context * result unit E) :=
  match qs with
  | [] => Ret ([], cx, Ok ())
  | None :: qs => '(qs, cx, res) ← dispatch_loop own hop_limit cx qs; Ret (None :: qs, cx, res)
  | Some q :: qs =>
      '(q, cx, stop) ← dispatch_query own hop_limit cx q;
      match stop with
      | Some res => Ret (Some q :: qs, cx, res)
      | None => '(qs, cx, res) ← dispatch_loop own hop_limit cx qs; Ret (Some q :: qs, cx, res)
      end
  end.

Definition dispatch s cx : outcome (Socket * Context * result unit E) :=
  let limit := default 64 (hop_limit s) in
  '(qs, cx, res) ← dispatch_loop (as_slice (Vec := SV) (servers s)) limit cx (queries s);
  Ret (s <| queries := qs |>, cx, res).
End Dispatch.

(** When a query is to be sent. *)
Definition retransmit_time (o : option DnsQuery) : option Instant :=
  match o with Some q => match q_state q with Pending pq => Some (pq_retransmit_at pq) | _ => None end | None => None end.

Definition poll_at s : PollAt :=
  match omap retransmit_time (queries s) with
  | [] => PollIngress
  | t :: ts => PollTime (foldl Z.min t ts)
  end.
End Socket.
End DnsSocket.
