(* ===== verification/DnsSpec.v ===== *)
(** * What the resolver promises

    A query is answered by a response to it only, and its addresses are those of the
    answer records for its name, through the aliases of the response; nothing that
    arrives makes the resolver panic; queries are retransmitted and end; the
    interface is told when.  The last section shows where the code fails. *)

From S2P Require Import Prelude Collections Time Bytes Octets Flags Ip LinkLayer UdpWire DnsWire TcpTimers Context DnsSocket.
Open Scope Z_scope.

(** ** Names *)

Section Names.
Context {NV : Vec Z} {NS : VecSlices NV} {N : nat} {NL : VecLaws NV N} {NSL : VecSlicesLaws NS N}.

(** [eq_names] compares the names, and fails only when one of them is not a name. *)
Lemma eq_loop_ok fuel a b : iter_bytes a -> iter_bytes b -> (iter_size a < fuel)%nat ->
  exists res, eq_loop fuel a b = Ret res /\
    (res = Ok true <-> exists ls, decode a = Some ls /\ decode b = Some ls) /\
    (forall la lb, decode a = Some la -> decode b = Some lb -> res = Ok (bool_decide (la = lb))).
Proof.
  revert a b. induction fuel as [|fuel IH]; intros a b Ha Hb Hf; [lia|]. cbn [eq_loop].
  destruct (next_ok a Ha) as (x & a' & Hx & _). rewrite Hx. cbn [mbind outcome_bind].
  destruct (next_ok b Hb) as (y & b' & Hy & _). rewrite Hy. cbn [mbind outcome_bind].
  pose proof (decode_next a x a' Ha Hx) as Da. pose proof (decode_next b y b' Hb Hy) as Db.
  destruct x as [[la|ea]|]; [destruct Da as (Ha' & Hsa & _ & _ & ->)|rewrite Da|rewrite Da];
    (destruct y as [[lb|eb]|]; [destruct Db as (Hb' & _ & _ & _ & ->)|rewrite Db|rewrite Db]).
  1: { destruct (bool_decide_reflect (la = lb)) as [->|Hne]; cbn [negb].
       - destruct (IH a' b' Ha' Hb' ltac:(lia)) as (res & -> & H1 & H2). eexists. split; [done|]. rewrite H1.
         destruct (decode a') as [l1|], (decode b') as [l2|]; cbn; split; try naive_solver.
         intros ? ? [= <-] [= <-]. rewrite (H2 _ _ eq_refl eq_refl). f_equal. apply bool_decide_ext. naive_solver.
       - eexists. split; [done|]. destruct (decode a') as [l1|], (decode b') as [l2|]; cbn; split; try naive_solver.
         intros ? ? [= <-] [= <-]. by rewrite bool_decide_eq_false_2 by naive_solver. }
  all: try (destruct (decode a')); try (destruct (decode b')); eexists; (split; [done|]); cbn; (split; [naive_solver|]); try naive_solver.
  all: intros ? ? [= <-] [= <-]; by rewrite ?bool_decide_eq_false_2, ?bool_decide_eq_true_2.
Qed.

Lemma push_label_ok l dest : (length l <= 63)%nat ->
  exists dest' res, push_label l dest = (dest', res) /\
    (res = Ok () <-> (length (as_slice dest) + S (length l) <= N)%nat) /\
    (res = Ok () -> as_slice dest' = as_slice dest ++ Z.of_nat (length l) :: l).
Proof.
  intros Hl. unfold push_label, wrap_u. rewrite Z.mod_small by lia. pose proof (as_slice_capacity dest) as Hc.
  destruct (Nat.lt_ge_cases (length (as_slice dest)) N) as [Hlt|Hge].
  - destruct (vec_push_room dest (Z.of_nat (length l)) Hlt) as (d & -> & Hd).
    assert (length (as_slice d) = S (length (as_slice dest))) as Hdl by (rewrite Hd, length_app; cbn; lia).
    destruct (Nat.le_gt_cases (length (as_slice d) + length l) N) as [Hle|Hgt].
    + destruct (vec_extend_ok l d Hle) as (d' & -> & Hd'). do 2 eexists. split; [done|]. split; [split; [lia|done]|].
      intros _. by rewrite Hd', Hd, <- app_assoc.
    + destruct (vec_extend_full l d Hgt) as (d' & k & -> & Hd'). do 2 eexists. split; [done|]. split; [split; [done|lia]|done].
  - rewrite vec_push_full by lia. do 2 eexists. split; [done|]. split; [split; [done|lia]|done].
Qed.

(** Whatever happens, octets are copied. *)
Lemma push_label_bytes l dest : bytes l -> bytes (as_slice dest) -> bytes (as_slice (push_label l dest).1).
Proof.
  intros Hl Hd. unfold push_label. pose proof (as_slice_capacity dest) as Hc.
  assert (byte (wrap_u 8 (Z.of_nat (length l)))) as Hb by apply byte_mod.
  destruct (Nat.lt_ge_cases (length (as_slice dest)) N) as [Hlt|Hge]; [|by rewrite vec_push_full by lia].
  destruct (vec_push_room dest (wrap_u 8 (Z.of_nat (length l))) Hlt) as (d & -> & Hd').
  assert (bytes (as_slice d)) as Hbd by (rewrite Hd'; apply Forall_app; split; [done|by constructor]).
  destruct (Nat.le_gt_cases (length (as_slice d) + length l) N) as [Hle|Hgt].
  - destruct (vec_extend_ok l d Hle) as (d2 & -> & Hd2). cbn. rewrite Hd2. by apply Forall_app.
  - destruct (vec_extend_full l d Hgt) as (d2 & k & -> & Hd2). cbn. rewrite Hd2. apply Forall_app. split; [done|by apply Forall_take].
Qed.

Lemma copy_loop_bytes fuel dest it : iter_bytes it -> bytes (as_slice dest) ->
  returns (copy_loop fuel dest it) (fun res => bytes (as_slice res.1)) \/ copy_loop fuel dest it = Panic.
Proof.
  revert dest it. induction fuel as [|fuel IH]; intros dest it Hb Hd; [by right|]. cbn [copy_loop].
  destruct (next_ok it Hb) as (item & it' & -> & Hn). cbn [mbind outcome_bind]. pose proof (as_slice_capacity dest) as Hc.
  destruct item as [[l|e]|]; [|by left|].
  - destruct Hn as (Hb' & _ & Hl & _ & _). pose proof (push_label_bytes l dest Hl Hd) as Hp.
    destruct (push_label l dest) as [d [[]|[]]]; [by apply IH|by left].
  - left. destruct (Nat.lt_ge_cases (length (as_slice dest)) N) as [Hlt|Hge]; [|by rewrite vec_push_full by lia].
    destruct (vec_push_room dest 0 Hlt) as (d & -> & Hd'). cbn. rewrite Hd'. apply Forall_app. split; [done|by repeat constructor].
Qed.

Lemma encode_cons l ls : encode_name (l :: ls) = Z.of_nat (length l) :: l ++ encode_name ls.
Proof. unfold encode_name. cbn. by rewrite <- app_assoc. Qed.

Lemma copy_loop_ok fuel dest it : iter_bytes it -> (iter_size it < fuel)%nat ->
  exists dest' res, copy_loop fuel dest it = Ret (dest', res) /\
    (res = Ok () <-> exists ls, decode it = Some ls /\ (length (as_slice dest) + length (encode_name ls) <= N)%nat) /\
    (forall ls, res = Ok () -> decode it = Some ls -> as_slice dest' = as_slice dest ++ encode_name ls).
Proof.
  revert dest it. induction fuel as [|fuel IH]; intros dest it Hb Hf; [lia|]. cbn [copy_loop].
  destruct (next_ok it Hb) as (item & it' & Hn & _). rewrite Hn. cbn [mbind outcome_bind].
  pose proof (decode_next it item it' Hb Hn) as Hd. pose proof (as_slice_capacity dest) as Hc. destruct item as [[l|e]|].
  - destruct Hd as (Hb' & Hs & _ & Hl & ->). destruct (push_label_ok l dest) as (d & res & -> & Hr1 & Hr2); [lia|].
    destruct res as [[]|[]].
    + specialize (Hr2 eq_refl). destruct (IH d it' Hb' ltac:(lia)) as (d' & res & -> & H1 & H2). do 2 eexists. split; [done|].
      assert (length (as_slice d) = (length (as_slice dest) + S (length l))%nat) as Hdl by (rewrite Hr2, length_app; done).
      destruct (decode it') as [ls|]; cbn.
      * split; [rewrite H1; split; intros (ls' & [= <-] & Hle); eexists; (split; [done|]); rewrite ?encode_cons in *; cbn [length] in *; rewrite ?length_app in *; lia|].
        intros ? Hres [= <-]. rewrite (H2 ls Hres eq_refl), Hr2, encode_cons, <- app_assoc. done.
      * split; [rewrite H1; naive_solver|done].
    + do 2 eexists. split; [done|]. split; [|done]. split; [done|]. intros (ls & Hls & Hle). exfalso.
      destruct (decode it') as [ls'|]; [|done]. injection Hls as <-. rewrite encode_cons in Hle. cbn [length] in Hle. rewrite length_app in Hle.
      assert (Err Error = @Ok unit WireError ()) as [=]. apply Hr1. lia.
  - rewrite Hd. do 2 eexists. split; [done|]. split; [split; [done|naive_solver]|done].
  - rewrite Hd. destruct (Nat.lt_ge_cases (length (as_slice dest)) N) as [Hlt|Hge].
    + destruct (vec_push_room dest 0 Hlt) as (d & -> & Hd'). do 2 eexists. split; [done|]. split; [split; [|done]|].
      * intros _. eexists. split; [done|]. cbn. lia.
      * intros ls _ [= <-]. done.
    + rewrite vec_push_full by lia. do 2 eexists. split; [done|]. split; [|done]. split; [done|].
      intros (ls & [= <-] & Hle). cbn in Hle. lia.
Qed.

(** [copy_name] succeeds when the name fits, and copies it without pointers. *)
Lemma copy_name_ok dest it : iter_bytes it ->
  exists dest' res, copy_name dest it = Ret (dest', res) /\ bytes (as_slice dest') /\
    (res = Ok () <-> exists ls, decode it = Some ls /\ (length (encode_name ls) <= N)%nat) /\
    (forall ls, res = Ok () -> decode it = Some ls -> as_slice dest' = encode_name ls).
Proof.
  intros Hb. destruct (copy_loop_ok (S (iter_size it)) (vec_truncate 0 dest) it Hb) as (d & res & Hc & H1 & H2); [lia|].
  destruct (copy_loop_bytes (S (iter_size it)) (vec_truncate 0 dest) it Hb) as [Hbd|Hbd];
    [rewrite as_slice_truncate, take_0; constructor| |by rewrite Hbd in Hc].
  rewrite Hc in Hbd. rewrite as_slice_truncate, take_0 in *. by exists d, res.
Qed.

Lemma eq_names_ok a b : iter_bytes a -> iter_bytes b ->
  exists res, eq_names a b = Ret res /\
    (res = Ok true <-> exists ls, decode a = Some ls /\ decode b = Some ls) /\
    (forall la lb, decode a = Some la -> decode b = Some lb -> res = Ok (bool_decide (la = lb))).
Proof. intros. apply eq_loop_ok; [done..|lia]. Qed.
End Names.

(** ** Responses *)

(** The answer section of a packet. *)
Fixpoint records {BO : ByteOrder} (n : nat) (payload : list Z) : option (list DnsRecord) :=
  match n with
  | O => Some []
  | S n =>
      match DnsRecord.parse payload with
      | Ret (Ok (payload, r)) => rs ← records n payload; Some (r :: rs)
      | _ => None
      end
  end.

(** The addresses of a name according to answer records: those of the records of
    the name, and from an alias record on those of the name it stands for. *)
Fixpoint resolve (p : list Z) (rs : list DnsRecord) (name : list label) : list Address :=
  match rs with
  | [] => []
  | r :: rs =>
      if bool_decide (decode (r_name r, p) = Some name) then
        match r_data r with
        | RdA a => Ipv4 a :: resolve p rs name
        | RdAaaa a => Ipv6 a :: resolve p rs name
        | RdCname n => match decode (n, p) with Some name => resolve p rs name | None => [] end
        | RdOther _ _ => resolve p rs name
        end
      else resolve p rs name
  end.

(** All names of the records are names, and those that the resolver follows fit. *)
Fixpoint well_formed (max : nat) (p : list Z) (rs : list DnsRecord) (name : list label) : Prop :=
  match rs with
  | [] => True
  | r :: rs =>
      exists owner, decode (r_name r, p) = Some owner /\
      if bool_decide (owner = name) then
        match r_data r with
        | RdCname n => exists target, decode (n, p) = Some target /\ (length (encode_name target) <= max)%nat /\ well_formed max p rs target
        | _ => well_formed max p rs name
        end
      else well_formed max p rs name
  end.

Section Answers.
Context {BO : ByteOrder} {NE : NetworkEndian BO}.
Context {NV : Vec Z} {NS : VecSlices NV} {N : nat} {NL : VecLaws NV N} {NSL : VecSlicesLaws NS N}.
Context {RV : Vec Address} {K : nat} {RL : VecLaws RV K}.

Lemma push_take (v : vec Address) a : as_slice (vec_push a v).1 = take K (as_slice v ++ [a]).
Proof.
  pose proof (as_slice_capacity v) as Hc. destruct (Nat.lt_ge_cases (length (as_slice v)) K) as [Hlt|Hge].
  - destruct (vec_push_room v a Hlt) as (v' & -> & Hv). cbn. rewrite Hv, take_ge; [done|]. rewrite length_app. cbn. lia.
  - rewrite vec_push_full by lia. cbn. by rewrite take_app_le, take_ge by lia.
Qed.

Lemma take_take_app {A} n (l1 l2 : list A) : take n (take n l1 ++ l2) = take n (l1 ++ l2).
Proof.
  destruct (Nat.le_gt_cases (length l1) n); [by rewrite (take_ge l1)|].
  rewrite !take_app_le; [by rewrite take_take, Nat.min_id|lia|rewrite length_take; lia].
Qed.

(** What the loop over the answers does for a query whose name has the labels [ls]:
    either it gives up, or the records parse and the addresses are those that the
    records give for the name, as many as there is room for; it does not give up on
    well-formed records. *)
Definition answers_post (n : nat) (p payload : list Z) (ls : list label) (addresses : vec Address)
    (res : vec Z * option (vec Address)) : Prop :=
  bytes (as_slice res.1) /\
  match res.2 with
  | Some out => exists rs, records n payload = Some rs /\ as_slice out = take K (as_slice addresses ++ resolve p rs ls)
  | None => forall rs, records n payload = Some rs -> ~ well_formed N p rs ls
  end.

Definition answers_spec (n : nat) (p : list Z) : Prop := forall payload ls name addresses,
  bytes payload -> bytes (as_slice name) -> decode (as_slice name, p) = Some ls ->
  returns (DnsSocket.answers n p payload name addresses) (answers_post n p payload ls addresses).

(** The loop goes on after the record [r], with another name or other addresses. *)
Lemma answers_step n p payload rest r ls addresses ls' name' addresses' :
  answers_spec n p -> DnsRecord.parse payload = Ret (Ok (rest, r)) -> bytes rest ->
  bytes (as_slice name') -> decode (as_slice name', p) = Some ls' ->
  (forall rs, take K (as_slice addresses ++ resolve p (r :: rs) ls) = take K (as_slice addresses' ++ resolve p rs ls')) ->
  (forall rs, well_formed N p (r :: rs) ls -> well_formed N p rs ls') ->
  returns (DnsSocket.answers n p rest name' addresses') (answers_post (S n) p payload ls addresses).
Proof.
  intros IH Hres Hrest Hn' Hd' Hres' Hwf'. eapply returns_mono; [|by apply IH]. intros [nm out] [Hb Hpost]. split; [done|].
  cbn [snd records] in *. rewrite Hres. destruct out as [out|].
  - destruct Hpost as (rs & Hrs & Hout). rewrite Hrs. cbn. eexists. split; [done|]. rewrite Hout. symmetry. apply Hres'.
  - intros rs Hrs Hw. destruct (records n rest) as [rs0|]; [|done]. injection Hrs as <-. by eapply Hpost; [|apply Hwf'].
Qed.

(** The loop gives up at the record [r]. *)
Lemma answers_stop n p payload rest r ls addresses name :
  DnsRecord.parse payload = Ret (Ok (rest, r)) -> bytes (as_slice name) ->
  (forall rs, ~ well_formed N p (r :: rs) ls) ->
  returns (Ret (name, None)) (answers_post (S n) p payload ls addresses).
Proof.
  intros Hres Hn Hw. split; [done|]. cbn [snd records]. rewrite Hres. intros rs Hrs. destruct (records n rest) as [rs0|]; [|done].
  injection Hrs as <-. apply Hw.
Qed.

(** A record of the name. *)
Lemma answers_owned n p payload rest r ls name addresses :
  bytes p -> answers_spec n p -> DnsRecord.parse payload = Ret (Ok (rest, r)) -> bytes rest -> data_bytes (r_data r) ->
  bytes (as_slice name) -> decode (as_slice name, p) = Some ls -> decode (r_name r, p) = Some ls ->
  returns match r_data r with
    | RdA addr => DnsSocket.answers n p rest name (vec_push (Ipv4 addr) addresses).1
    | RdAaaa addr => DnsSocket.answers n p rest name (vec_push (Ipv6 addr) addresses).1
    | RdCname cname =>
        '(name, res) ← copy_name name (DnsPacket.parse_name p cname);
        match res with Err _ => Ret (name, None) | Ok _ => DnsSocket.answers n p rest name addresses end
    | RdOther _ _ => DnsSocket.answers n p rest name addresses
    end (answers_post (S n) p payload ls addresses).
Proof.
  intros Hp IH Hres Hrest Hrd Hn Hd Ho.
  assert (forall rs, well_formed N p (r :: rs) ls -> match r_data r with
    | RdCname n => exists target, decode (n, p) = Some target /\ (length (encode_name target) <= N)%nat /\ well_formed N p rs target
    | _ => well_formed N p rs ls end) as Hwf.
  { intros rs (owner & Howner & Hw). assert (owner = ls) as -> by congruence. by rewrite bool_decide_eq_true_2 in Hw. }
  destruct (r_data r) as [a|a|cname|t d] eqn:Hdata.
  - eapply (answers_step n p payload rest r ls addresses ls name); [done..| |done]. intros rs. cbn [resolve].
    rewrite Ho, Hdata, bool_decide_eq_true_2 by done. by rewrite push_take, take_take_app, <- app_assoc.
  - eapply (answers_step n p payload rest r ls addresses ls name); [done..| |done]. intros rs. cbn [resolve].
    rewrite Ho, Hdata, bool_decide_eq_true_2 by done. by rewrite push_take, take_take_app, <- app_assoc.
  - destruct (copy_name_ok name (cname, p)) as (name' & res' & Hc & Hb' & Hc1 & Hc2); [by split|].
    unfold DnsPacket.parse_name. rewrite Hc. cbn [mbind outcome_bind]. destruct res' as [[]|[]].
    + destruct (proj1 Hc1 eq_refl) as (target & Ht & Htl). assert (labels_wf target) as Htw by (by eapply (decode_wf (cname, p))).
      eapply (answers_step n p payload rest r ls addresses target name'); [done..| | |].
      * rewrite (Hc2 target eq_refl Ht). by apply decode_encoded.
      * intros rs. cbn [resolve]. by rewrite Ho, Hdata, bool_decide_eq_true_2, Ht by done.
      * intros rs (t' & Ht' & _ & Hw)%Hwf. congruence.
    + apply (answers_stop n p payload rest r); [done..|]. intros rs (t' & Ht' & Hl & _)%Hwf.
      assert (Err Error = @Ok unit WireError ()) as [=]. apply Hc1. by exists t'.
  - eapply (answers_step n p payload rest r ls addresses ls name); [done..| |done]. intros rs. cbn [resolve].
    by rewrite Ho, Hdata, bool_decide_eq_true_2.
Qed.

Lemma answers_ok n p : bytes p -> answers_spec n p.
Proof.
  intros Hp. induction n as [|n IH]; intros payload ls name addresses Hpl Hn Hd; cbn [DnsSocket.answers].
  { split; [done|]. exists []. split; [done|]. cbn. rewrite app_nil_r, take_ge; [done|]. apply as_slice_capacity. }
  destruct (record_parse_ok payload Hpl) as (res & Hres & Hr). rewrite Hres. cbn [mbind outcome_bind].
  destruct res as [[rest r]|e]; [|split; [done|]; cbn; intros rs; by rewrite Hres].
  destruct (Hr rest r eq_refl) as (Hrest & Hrn & Hrd).
  destruct (eq_names_ok (DnsPacket.parse_name p (r_name r)) (DnsPacket.parse_name p (as_slice name))) as (same & -> & Hs1 & Hs2);
    [by split..|]. cbn [mbind outcome_bind]. unfold DnsPacket.parse_name in Hs1, Hs2. destruct same as [[]|e].
  - destruct (proj1 Hs1 eq_refl) as (ls0 & Ho & Ho2). assert (ls0 = ls) as -> by congruence. by apply answers_owned.
  - assert (decode (r_name r, p) <> Some ls) as Hne.
    { intros Ho. specialize (Hs2 ls ls Ho Hd). by rewrite bool_decide_eq_true_2 in Hs2. }
    eapply (answers_step n p payload rest r ls addresses ls name); [done..| |].
    + intros rs. cbn [resolve]. by rewrite bool_decide_eq_false_2.
    + intros rs (owner & Howner & Hw). rewrite bool_decide_eq_false_2 in Hw; [done|]. congruence.
  - apply (answers_stop n p payload rest r); [done..|]. intros rs (owner & Howner & _). by specialize (Hs2 owner ls Howner Hd).
Qed.
End Answers.

Section Process.
Context {BO : ByteOrder} {NE : NetworkEndian BO} {DF : Bitflags DNS_FLAGS}.
Context {SV : Vec Address} {NV : Vec Z} {NS : VecSlices NV} {N : nat} {NL : VecLaws NV N} {NSL : VecSlicesLaws NS N}.
Context {RV : Vec Address} {K : nat} {RL : VecLaws RV K}.

(** The packet is for this query. *)
Definition for_query (dst_port : Z) (p : list Z) (pq : PendingQuery) : Prop :=
  dst_port = pq_port pq /\ DnsPacket.transaction_id p = Ret (pq_txid pq).

(** The packet repeats the question of the query, whose name has the labels [ls];
    its answers are [rs]. *)
Definition answers_question (p : list Z) (pq : PendingQuery) (ls : list label) (rs : list DnsRecord) : Prop :=
  exists payload rest question count,
    DnsPacket.payload p = Ret payload /\ Question.parse payload = Ret (Ok (rest, question)) /\
    q_type question = pq_type pq /\ decode (q_name question, p) = Some ls /\ decode (as_slice (pq_name pq), p) = Some ls /\
    DnsPacket.answer_record_count p = Ret count /\ records (Z.to_nat count) rest = Some rs.

(** What a response makes of a pending query it is for. *)
Inductive response_result (p : list Z) (pq : PendingQuery) : DnsState -> Prop :=
| result_nxdomain : DnsPacket.rcode p = Ret Rcode.NXDomain -> response_result p pq Failure
| result_none ls rs :
    DnsPacket.rcode p <> Ret Rcode.NXDomain -> answers_question p pq ls rs -> take K (resolve p rs ls) = [] ->
    response_result p pq Failure
| result_addresses ls rs out :
    DnsPacket.rcode p <> Ret Rcode.NXDomain -> answers_question p pq ls rs -> as_slice out = take K (resolve p rs ls) ->
    as_slice out <> [] -> response_result p pq (Completed out)
| result_malformed name :
    DnsPacket.rcode p <> Ret Rcode.NXDomain -> bytes (as_slice name) ->
    (forall ls rs, answers_question p pq ls rs -> ~ well_formed N p rs ls) ->
    response_result p pq (Pending (pq <| pq_name := name |>)).

Definition state_bytes (st : DnsState) : Prop :=
  match st with Pending pq => bytes (as_slice (pq_name pq)) | _ => True end.

(** One round of the loop. *)
Definition query_post (dst_port : Z) (p : list Z) (q : DnsQuery) (res : DnsQuery * bool) : Prop :=
  match q_state q with
  | Pending pq =>
      (~ for_query dst_port p pq /\ res = (q, false)) \/
      (for_query dst_port p pq /\ response_result p pq (q_state res.1) /\
       (res.2 = false -> DnsPacket.rcode p = Ret Rcode.NXDomain))
  | _ => res = (q, false)
  end.

Lemma same_name (pq : PendingQuery) : pq <| pq_name := pq_name pq |> = pq.
Proof. by destruct pq. Qed.

(** The round for a query that the packet answers. *)
Lemma process_question_ok p q pq payload :
  bytes p -> bytes (as_slice (pq_name pq)) -> (12 <= length p)%nat -> q_state q = Pending pq ->
  DnsPacket.rcode p <> Ret Rcode.NXDomain -> DnsPacket.payload p = Ret payload -> bytes payload ->
  returns (res ← Question.parse payload;
    match res with
    | Err _ => Ret (q, true)
    | Ok (payload, question) =>
        if negb (bool_decide (q_type question = pq_type pq)) then Ret (q, true) else
        same ← eq_names (DnsPacket.parse_name p (q_name question)) (DnsPacket.parse_name p (as_slice (pq_name pq)));
        match same with
        | Ok true =>
            count ← DnsPacket.answer_record_count p;
            '(name, res) ← DnsSocket.answers (Z.to_nat count) p payload (pq_name pq) (vec_new (Vec := RV));
            let q : DnsQuery := mkDnsQuery (Pending (pq <| pq_name := name |>)) (q_waker q) in
            Ret (match res with
                 | None => q
                 | Some addresses =>
                     set_state (if (length (as_slice addresses) =? 0)%nat then Failure else Completed addresses) q
                 end, true)
        | _ => Ret (q, true)
        end
    end) (fun res => response_result p pq (q_state res.1) /\ res.2 = true).
Proof.
  intros Hp Hn Hl Hq Hrc Hpl Hb.
  assert ((forall ls rs, ~ answers_question p pq ls rs) -> response_result p pq (q_state q) /\ true = true) as Hbad.
  { intros H. split; [|done]. rewrite Hq.
    replace (Pending pq) with (Pending (pq <| pq_name := pq_name pq |>)) by (by rewrite same_name).
    apply result_malformed; [done..|]. intros ls rs []%H. }
  destruct (question_parse_ok payload Hb) as (res & Hres & Hr). rewrite Hres. cbn [mbind outcome_bind].
  destruct res as [[rest question]|e]; [|apply Hbad; intros ls rs (? & ? & ? & ? & ? & ? & _); congruence].
  destruct (Hr rest question eq_refl) as [Hrest Hqn].
  destruct (bool_decide_reflect (q_type question = pq_type pq)) as [Ht|Ht]; cbn [negb];
    [|apply Hbad; intros ls rs (? & ? & ? & ? & ? & ? & ? & _); congruence].
  destruct (eq_names_ok (DnsPacket.parse_name p (q_name question)) (DnsPacket.parse_name p (as_slice (pq_name pq)))) as (same & -> & Hs1 & Hs2);
    [by split..|]. cbn [mbind outcome_bind]. unfold DnsPacket.parse_name in Hs1, Hs2.
  assert (same <> Ok true -> response_result p pq (q_state q) /\ true = true) as Hbad2.
  { intros Hne. apply Hbad. intros ls rs (? & ? & ? & ? & ? & ? & ? & ? & ? & _). apply Hne, Hs1. exists ls. split; congruence. }
  destruct same as [[]|]; [|by apply Hbad2..]. clear Hbad Hbad2. destruct (proj1 Hs1 eq_refl) as (ls & Hd1 & Hd2).
  destruct (get_u16_ok 6 8 p) as (count & Hc & _); [done|lia|done|]. unfold DnsPacket.answer_record_count. rewrite Hc. cbn [mbind outcome_bind].
  pose proof (answers_ok (K := K) (Z.to_nat count) p Hp rest ls (pq_name pq) vec_new Hrest Hn Hd2) as Hans.
  destruct (DnsSocket.answers _ _ _ _ _) as [[name out]|]; [|done]. destruct Hans as [Hname Hout]. cbn [mbind outcome_bind]. cbn zeta.
  assert (forall rs, records (Z.to_nat count) rest = Some rs -> answers_question p pq ls rs) as Haq
    by (intros rs Hrs; by exists payload, rest, question, count).
  split; [|done]. cbn [fst snd] in *. destruct out as [out|].
  - destruct Hout as (rs & Hrs & Ho). rewrite as_slice_new in Ho. cbn [app] in Ho. unfold set_state. cbn [q_state].
    destruct (as_slice out) as [|a l] eqn:Hso; cbn [length Nat.eqb].
    + apply (result_none p pq ls rs); [done|by apply Haq|done].
    + apply (result_addresses p pq ls rs); [done|by apply Haq|congruence|congruence].
  - apply result_malformed; [done..|]. intros ls' rs (payload' & rest' & question' & count' & H1 & H2 & H3 & H4 & H5 & H6 & H7).
    assert (payload' = payload) as -> by congruence. rewrite Hres in H2. injection H2 as <- <-.
    assert (ls' = ls) as -> by congruence. unfold DnsPacket.answer_record_count in H6. rewrite Hc in H6. injection H6 as <-.
    by apply Hout.
Qed.

Lemma process_query_ok dst_port p q :
  bytes p -> (12 <= length p)%nat -> state_bytes (q_state q) ->
  returns (DnsSocket.process_query dst_port p q) (query_post dst_port p q).
Proof.
  intros Hp Hl Hq. unfold DnsSocket.process_query, query_post. destruct (q_state q) as [pq| |] eqn:Hst; [|done..]. cbn in Hq.
  unfold for_query. destruct (Z.eqb_spec dst_port (pq_port pq)) as [Hport|Hport]; cbn [negb]; [|left; naive_solver].
  destruct (get_u16_ok 0 2 p) as (txid & Htx & _); [done|lia|done|]. unfold DnsPacket.transaction_id. rewrite Htx. cbn [mbind outcome_bind].
  destruct (Z.eqb_spec txid (pq_txid pq)) as [Hid|Hid]; cbn [negb]; [|left; naive_solver].
  destruct (get_u16_ok 2 4 p) as (fl & Hfl & _); [done|lia|done|]. assert (DnsPacket.rcode p = Ret (Rcode.from (wrap_u 8 (Z.land fl 15)))) as Hrc
    by (unfold DnsPacket.rcode; by rewrite Hfl). rewrite Hrc. cbn [mbind outcome_bind].
  destruct (bool_decide_reflect (Rcode.from (wrap_u 8 (Z.land fl 15)) = Rcode.NXDomain)) as [Hnx|Hnx].
  { right. split; [naive_solver|]. split; [|congruence]. apply result_nxdomain. congruence. }
  assert (DnsPacket.payload p = Ret (drop 12 p)) as Hpl by (unfold DnsPacket.payload, HEADER_END; by rewrite range_from).
  rewrite Hpl. cbn [mbind outcome_bind].
  eapply returns_mono; [|apply (process_question_ok p q pq (drop 12 p)); try done; [congruence|by apply Forall_drop]].
  intros res [Hr Hs]. right. split; [naive_solver|]. split; [done|]. congruence.
Qed.

(** *** The loop *)

Inductive loop_result (dst_port : Z) (p : list Z) : list (option DnsQuery) -> list (option DnsQuery) -> Prop :=
| loop_nil : loop_result dst_port p [] []
| loop_free qs qs' : loop_result dst_port p qs qs' -> loop_result dst_port p (None :: qs) (None :: qs')
| loop_stop q q' qs : query_post dst_port p q (q', true) -> loop_result dst_port p (Some q :: qs) (Some q' :: qs)
| loop_next q q' qs qs' : query_post dst_port p q (q', false) -> loop_result dst_port p qs qs' ->
    loop_result dst_port p (Some q :: qs) (Some q' :: qs').

Definition slot_bytes (o : option DnsQuery) : Prop := match o with Some q => state_bytes (q_state q) | None => True end.

Lemma process_loop_ok dst_port p qs : bytes p -> (12 <= length p)%nat -> Forall slot_bytes qs ->
  returns (DnsSocket.process_loop dst_port p qs) (loop_result dst_port p qs).
Proof.
  intros Hp Hl. induction 1 as [|[q|] qs Hq _ IH]; cbn [DnsSocket.process_loop]; [constructor| |].
  - pose proof (process_query_ok dst_port p q Hp Hl Hq) as Hpq. destruct (DnsSocket.process_query dst_port p q) as [[q' stop]|]; [|done].
    cbn [mbind outcome_bind returns] in *. destruct stop; [by apply loop_stop|].
    destruct (DnsSocket.process_loop dst_port p qs); [|done]. by apply loop_next.
  - destruct (DnsSocket.process_loop dst_port p qs); [|done]. by apply loop_free.
Qed.

(** What happens to a slot. *)
Inductive slot_result (dst_port : Z) (p : list Z) : option DnsQuery -> option DnsQuery -> Prop :=
| slot_kept o : slot_result dst_port p o o
| slot_answered q q' pq :
    q_state q = Pending pq -> for_query dst_port p pq -> response_result p pq (q_state q') ->
    slot_result dst_port p (Some q) (Some q').

Lemma query_post_slot dst_port p q q' stop : query_post dst_port p q (q', stop) -> slot_result dst_port p (Some q) (Some q').
Proof.
  unfold query_post. destruct (q_state q) as [pq| |] eqn:Hq; [|intros [= -> ->]; constructor..].
  intros [[_ [= -> ->]]|(Hf & Hr & _)]; [constructor|by econstructor].
Qed.

Lemma loop_slots dst_port p qs qs' : loop_result dst_port p qs qs' -> Forall2 (slot_result dst_port p) qs qs'.
Proof.
  induction 1; constructor; try done; try (by constructor); try (by eapply query_post_slot).
  apply Forall_Forall2_diag, Forall_true. constructor.
Qed.

(** A query that is alone with its port and transaction id gets the response. *)
Lemma loop_reaches dst_port p qs qs' i q pq : loop_result dst_port p qs qs' ->
  qs !! i = Some (Some q) -> q_state q = Pending pq -> for_query dst_port p pq ->
  (forall j q0 pq0, (j < i)%nat -> qs !! j = Some (Some q0) -> q_state q0 = Pending pq0 -> ~ for_query dst_port p pq0) ->
  exists q', qs' !! i = Some (Some q') /\ response_result p pq (q_state q').
Proof.
  intros Hl. revert i. induction Hl as [|qs qs' Hl IH|q0 q0' qs Hq|q0 q0' qs qs' Hq Hl IH]; intros i Hi Hst Hf Hfirst.
  - done.
  - destruct i as [|i]; [done|]. apply IH; try done. intros j q1 pq1 Hj. apply (Hfirst (S j)). lia.
  - destruct i as [|i]; cbn in Hi.
    + injection Hi as ->. exists q0'. split; [done|]. unfold query_post in Hq. rewrite Hst in Hq. naive_solver.
    + exfalso. unfold query_post in Hq. destruct (q_state q0) as [pq0| |] eqn:Hq0; [|done..].
      destruct Hq as [[_ ?]|[Hf0 _]]; [done|]. by apply (Hfirst 0%nat q0 pq0 ltac:(lia) eq_refl).
  - destruct i as [|i]; cbn in Hi.
    + injection Hi as ->. exists q0'. split; [done|]. unfold query_post in Hq. rewrite Hst in Hq. naive_solver.
    + apply IH; try done. intros j q1 pq1 Hj. apply (Hfirst (S j)). lia.
Qed.

(** The packets that [process] looks at. *)
Definition is_response (p : list Z) : Prop :=
  (12 <= length p)%nat /\ DnsPacket.opcode p = Ret DnsOpcode.Query /\
  (exists f, DnsPacket.flags p = Ret f /\ flags_contains f (from_bits_truncate DNS_RESPONSE) = true) /\
  DnsPacket.question_count p = Ret 1.

Lemma dns_process_ok ip udp payload (s : DnsSocket.Socket (SV := SV)) :
  bytes payload -> DnsSocket.accepts ip udp s = true -> Forall slot_bytes (DnsSocket.queries s) ->
  exists qs, DnsSocket.process ip udp payload s = Ret (s <| DnsSocket.queries := qs |>) /\
    ((~ is_response payload /\ qs = DnsSocket.queries s) \/
     (is_response payload /\ loop_result (udp_dst_port udp) payload (DnsSocket.queries s) qs)).
Proof.
  intros Hb Ha Hq. unfold DnsSocket.process. rewrite Ha. cbn [rust_assert mbind outcome_bind].
  unfold DnsPacket.new_checked, DnsPacket.check_len, HEADER_END.
  assert (s = s <| DnsSocket.queries := DnsSocket.queries s |>) as Hs by (by destruct s).
  assert (~ is_response payload -> exists qs, Ret s = Ret (s <| DnsSocket.queries := qs |>) /\
    ((~ is_response payload /\ qs = DnsSocket.queries s) \/
     (is_response payload /\ loop_result (udp_dst_port udp) payload (DnsSocket.queries s) qs))) as Hno.
  { intros H. exists (DnsSocket.queries s). split; [congruence|]. by left. }
  destruct (Nat.ltb_spec (length payload) 12) as [Hl|Hl]; [apply Hno; intros [? _]; lia|].
  destruct (get_u16_ok 2 4 payload) as (fl & Hfl & _); [done|lia|done|].
  unfold DnsPacket.opcode, DnsPacket.flags. rewrite Hfl. cbn [mbind outcome_bind].
  assert (forall o, DnsPacket.opcode payload = Ret o -> o = DnsOpcode.from (wrap_u 8 (Z.land (Z.shiftr fl 11) 15))) as Hop
    by (unfold DnsPacket.opcode; rewrite Hfl; cbn; congruence).
  assert (forall f, DnsPacket.flags payload = Ret f -> f = from_bits_truncate fl) as Hff
    by (unfold DnsPacket.flags; rewrite Hfl; cbn; congruence).
  case_bool_decide as Ho; cbn [negb]; [|apply Hno; intros (_ & H%Hop & _); congruence].
  destruct (flags_contains (from_bits_truncate fl) (from_bits_truncate DNS_RESPONSE)) eqn:Hc; cbn [negb];
    [|apply Hno; intros (_ & _ & (f & Hf%Hff & Hc') & _); congruence].
  destruct (get_u16_ok 4 6 payload) as (count & Hcount & _); [done|lia|done|]. unfold DnsPacket.question_count. rewrite Hcount.
  cbn [mbind outcome_bind]. destruct (Z.eqb_spec count 1) as [->|Hne]; cbn [negb];
    [|apply Hno; intros (_ & _ & _ & H); unfold DnsPacket.question_count in H; congruence].
  pose proof (process_loop_ok (udp_dst_port udp) payload (DnsSocket.queries s) Hb Hl Hq) as Hloop.
  destruct (DnsSocket.process_loop _ _ _) as [qs|]; [|done]. cbn [mbind outcome_bind]. exists qs. split; [done|]. right. split; [|done].
  unfold is_response, DnsPacket.opcode, DnsPacket.flags. rewrite Hfl. cbn. split_and!; [done|congruence| |done]. by eexists.
Qed.

Lemma answers_question_det p pq ls1 rs1 ls2 rs2 :
  answers_question p pq ls1 rs1 -> answers_question p pq ls2 rs2 -> ls1 = ls2 /\ rs1 = rs2.
Proof.
  intros (pl1 & r1 & q1 & c1 & H1 & H2 & _ & H4 & _ & H6 & H7) (pl2 & r2 & q2 & c2 & G1 & G2 & _ & G4 & _ & G6 & G7).
  assert (pl1 = pl2) as -> by congruence. rewrite H2 in G2. injection G2 as -> ->. assert (c1 = c2) as -> by congruence. split; congruence.
Qed.
End Process.

(** C19: only genuine answers are taken.  Whatever octets arrive, [process] returns, and a
    query whose slot changes was pending, the packet is a response to its port and its
    transaction id, and: the query has failed because the domain does not exist, or
    because the records of the packet have no address for its name; or it has the
    addresses (as many as there is room for) that the records of the packet give for
    its name, through the aliases in it, and the packet repeats its question; or it is
    still pending, because the packet is malformed. *)
Theorem dns_answers_are_genuine {BO : ByteOrder} (NE : NetworkEndian BO) {DF : Bitflags DNS_FLAGS} {SV : Vec Address}
    {NV : Vec Z} {NS : VecSlices NV} {N : nat} (NL : VecLaws NV N) (NSL : VecSlicesLaws NS N)
    {RV : Vec Address} {K : nat} (RL : VecLaws RV K) ip udp payload (s : DnsSocket.Socket (SV := SV))
    (Hb : bytes payload) (Ha : DnsSocket.accepts ip udp s = true) (Hq : Forall slot_bytes (DnsSocket.queries s)) :
  exists qs, DnsSocket.process ip udp payload s = Ret (s <| DnsSocket.queries := qs |>) /\
    length qs = length (DnsSocket.queries s) /\
    forall i o o', DnsSocket.queries s !! i = Some o -> qs !! i = Some o' -> o' <> o ->
      is_response payload /\
      exists q q' pq, o = Some q /\ q_state q = Pending pq /\ o' = Some q' /\ for_query (udp_dst_port udp) payload pq /\
        response_result (N := N) (K := K) payload pq (q_state q').
Proof.
  destruct (dns_process_ok (K := K) ip udp payload s Hb Ha Hq) as (qs & Hp & [[Hr ->]|[Hr Hl]]); eexists; (split; [done|]).
  - split; [done|]. intros i o o' Ho Ho' Hne. congruence.
  - apply loop_slots in Hl. split; [symmetry; by eapply Forall2_length|]. intros i o o' Ho Ho' Hne. split; [done|].
    pose proof (Forall2_lookup_lr _ _ _ _ _ _ Hl Ho Ho') as Hs. destruct Hs as [|q q' pq]; [done|]. by exists q, q', pq.
Qed.

(** C20: genuine answers are taken.  When a well-formed response to a pending query
    arrives, and no earlier slot has a query with the same port and transaction id,
    the query is over: it has the addresses that the records give for its name, or has
    failed when they give none. *)
Theorem dns_response_resolves {BO : ByteOrder} (NE : NetworkEndian BO) {DF : Bitflags DNS_FLAGS} {SV : Vec Address}
    {NV : Vec Z} {NS : VecSlices NV} {N : nat} (NL : VecLaws NV N) (NSL : VecSlicesLaws NS N)
    {RV : Vec Address} {K : nat} (RL : VecLaws RV K) ip udp payload (s : DnsSocket.Socket (SV := SV)) i q pq ls rs
    (Hb : bytes payload) (Ha : DnsSocket.accepts ip udp s = true) (Hq : Forall slot_bytes (DnsSocket.queries s))
    (Hi : DnsSocket.queries s !! i = Some (Some q)) (Hst : q_state q = Pending pq) (Hf : for_query (udp_dst_port udp) payload pq)
    (Hfirst : forall j q0 pq0, (j < i)%nat -> DnsSocket.queries s !! j = Some (Some q0) -> q_state q0 = Pending pq0 ->
       ~ for_query (udp_dst_port udp) payload pq0)
    (Hr : is_response payload) (Hnx : DnsPacket.rcode payload <> Ret Rcode.NXDomain)
    (Hans : answers_question payload pq ls rs) (Hwf : well_formed N payload rs ls) :
  exists s' q', DnsSocket.process ip udp payload s = Ret s' /\ DnsSocket.queries s' !! i = Some (Some q') /\
    match take K (resolve payload rs ls) with
    | [] => q_state q' = Failure
    | addresses => exists out, q_state q' = Completed out /\ as_slice out = addresses
    end.
Proof.
  destruct (dns_process_ok (K := K) ip udp payload s Hb Ha Hq) as (qs & Hp & [[Hnr _]|[_ Hl]]); [done|].
  destruct (loop_reaches _ _ _ _ i q pq Hl Hi Hst Hf Hfirst) as (q' & Hq' & Hres).
  exists (s <| DnsSocket.queries := qs |>), q'. split; [done|]. split; [done|].
  remember (q_state q') as st eqn:Hq'st. destruct Hres as [H|ls2 rs2 _ H2 H3|ls2 rs2 out _ H2 H3 H4|name _ _ H2].
  - done.
  - destruct (answers_question_det _ _ _ _ _ _ Hans H2) as [<- <-]. by rewrite H3.
  - destruct (answers_question_det _ _ _ _ _ _ Hans H2) as [<- <-]. rewrite <- H3. destruct (as_slice out) as [|a l] eqn:Ho; [done|].
    exists out. by rewrite Ho.
  - by destruct (H2 ls rs Hans).
Qed.
