(* ===== verification/DnsRun.v ===== *)
(** * Queries from start to end

    [start_query] stores the wire format of a name; [dispatch] sends a query that
    reads back as the question; polling settles every query, retransmits it, goes on
    to the next server, and ends it; what a malformed answer does to a query. *)

From S2P Require Import Prelude Collections Time Phy Bytes Octets Flags Ip LinkLayer UdpWire DnsWire TcpTimers Context DnsSocket DnsSpec.
Open Scope Z_scope.

(** ** Names *)

Fixpoint join_dots (ls : list label) : list Z :=
  match ls with
  | [] => []
  | [l] => l
  | l :: ls => l ++ 46 :: join_dots ls
  end.

(** A label of a domain name. *)
Definition plain (l : label) : Prop := (1 <= length l <= 63)%nat /\ bytes l /\ 46 ∉ l.

Lemma split_dots_plain l : 46 ∉ l -> split_dots l = [l].
Proof.
  induction l as [|c l IH]; cbn; [done|]. intros [Hc Hd]%not_elem_of_cons.
  rewrite (proj2 (Z.eqb_neq _ _)) by congruence. by rewrite IH.
Qed.

Lemma split_dots_app l rest : 46 ∉ l -> split_dots (l ++ 46 :: rest) = l :: split_dots rest.
Proof.
  induction l as [|c l IH]; cbn; [done|]. intros [Hc Hd]%not_elem_of_cons.
  rewrite (proj2 (Z.eqb_neq _ _)) by congruence. by rewrite IH.
Qed.

Lemma split_join ls : ls <> [] -> Forall plain ls -> split_dots (join_dots ls) = ls.
Proof.
  intros Hne. induction 1 as [|l ls (_ & _ & Hl) Hls IH]; [done|]. destruct ls as [|l2 ls]; [by apply split_dots_plain|].
  change (join_dots (l :: l2 :: ls)) with (l ++ 46 :: join_dots (l2 :: ls)). rewrite split_dots_app by done. by rewrite IH.
Qed.

Lemma join_last ls : ls <> [] -> Forall plain ls -> exists c, join_dots ls !! (length (join_dots ls) - 1)%nat = Some c /\ c <> 46.
Proof.
  intros Hne. induction 1 as [|l ls (Hl & _ & Hd) Hls IH]; [done|]. destruct ls as [|l2 ls].
  - cbn [join_dots]. destruct (lookup_lt_is_Some_2 l (length l - 1)) as [c Hc]; [lia|]. exists c. split; [done|]. intros ->. apply Hd. by eapply list_elem_of_lookup_2.
  - destruct IH as (c & Hc & Hn); [done|]. exists c. split; [|done]. apply lookup_lt_Some in Hc as Hlt.
    change (join_dots (l :: l2 :: ls)) with (l ++ 46 :: join_dots (l2 :: ls)). rewrite length_app. cbn [length]. rewrite lookup_app_r by lia.
    replace (length l + S (length (join_dots (l2 :: ls))) - 1 - length l)%nat with (S (length (join_dots (l2 :: ls)) - 1)) by lia. done.
Qed.

Section Start.
Context {NV : Vec Z} {NS : VecSlices NV} {N : nat} {NL : VecLaws NV N} {NSL : VecSlicesLaws NS N}.

Lemma push_labels_ok ls raw : Forall plain ls -> (length (as_slice raw) + length (encode_name ls) <= S N)%nat ->
  exists raw', DnsSocket.push_labels ls raw = Ok raw' /\ as_slice raw' ++ [0] = as_slice raw ++ encode_name ls.
Proof.
  intros Hls. revert raw. induction Hls as [|l ls (Hl & Hb & _) _ IH]; intros raw Hlen; cbn [DnsSocket.push_labels]; [by exists raw|].
  rewrite encode_cons in Hlen. cbn [length] in Hlen. rewrite length_app in Hlen.
  assert (1 <= length (encode_name ls))%nat by (unfold encode_name; rewrite length_app; cbn; lia).
  rewrite (proj2 (Nat.ltb_ge _ _)), (proj2 (Nat.eqb_neq _ _)) by lia.
  destruct (push_label_ok l raw) as (raw1 & res & -> & Hr1 & Hr2); [lia|].
  assert (res = Ok ()) as -> by (apply Hr1; lia). specialize (Hr2 eq_refl).
  destruct (IH raw1) as (raw2 & -> & Hr); [rewrite Hr2, length_app; cbn [length]; lia|].
  eexists. split; [done|]. by rewrite Hr, Hr2, encode_cons, <- app_assoc.
Qed.

Lemma push_labels_long ls raw : Forall plain ls -> (S N < length (as_slice raw) + length (encode_name ls))%nat ->
  DnsSocket.push_labels ls raw = Err NameTooLong.
Proof.
  intros Hls. revert raw. induction Hls as [|l ls (Hl & Hb & _) _ IH]; intros raw Hlen; cbn [DnsSocket.push_labels].
  { cbn in Hlen. pose proof (as_slice_capacity raw). lia. }
  rewrite encode_cons in Hlen. cbn [length] in Hlen. rewrite length_app in Hlen.
  rewrite (proj2 (Nat.ltb_ge _ _)), (proj2 (Nat.eqb_neq _ _)) by lia.
  destruct (push_label_ok l raw) as (raw1 & res & -> & Hr1 & Hr2); [lia|]. destruct res as [[]|]; [|done].
  specialize (Hr2 eq_refl). apply IH. rewrite Hr2, length_app. cbn [length]. lia.
Qed.
End Start.

(** The name as the application writes it, with or without a dot at its end. *)
Definition written_name (dot : bool) (ls : list label) : list Z := join_dots ls ++ (if dot then [46] else []).

Lemma dot_removed dot ls : ls <> [] -> Forall plain ls ->
  (length (written_name dot ls) =? 0)%nat = false /\
  exists c, unwrap (written_name dot ls !! (length (written_name dot ls) - 1)%nat) = Ret c /\
    (if c =? 46 then range (written_name dot ls) 0 (length (written_name dot ls) - 1) else Ret (written_name dot ls)) = Ret (join_dots ls).
Proof.
  intros Hne Hls. destruct (join_last ls Hne Hls) as (c & Hc & Hcn). apply lookup_lt_Some in Hc as Hl. unfold written_name.
  destruct dot; rewrite ?app_nil_r.
  - rewrite length_app. cbn [length]. split; [apply Nat.eqb_neq; lia|]. exists 46.
    replace (length (join_dots ls) + 1 - 1)%nat with (length (join_dots ls)) by lia. rewrite list_lookup_middle by done. split; [done|].
    cbn [Z.eqb Pos.eqb]. rewrite range_to by (rewrite length_app; lia). by rewrite take_app_length.
  - split; [apply Nat.eqb_neq; lia|]. exists c. rewrite Hc. split; [done|]. by rewrite (proj2 (Z.eqb_neq _ _)).
Qed.

Section StartQuery.
Context {SV : Vec Address} {NV : Vec Z} {NS : VecSlices NV} {N : nat} {NL : VecLaws NV N} {NSL : VecSlicesLaws NS N} {RV : Vec Address}.
Implicit Type s : DnsSocket.Socket (SV := SV).

Lemma first_free_spec qs k i : DnsSocket.first_free qs k = Some i ->
  exists j, i = (k + j)%nat /\ qs !! j = Some None.
Proof.
  revert k. induction qs as [|[q|] qs IH]; intros k H; cbn in H; [done| |].
  - destruct (IH _ H) as (j & -> & Hj). exists (S j). split; [lia|done].
  - injection H as <-. exists 0%nat. split; [lia|done].
Qed.

Lemma start_name ls : (length (encode_name ls) <= N)%nat -> Forall plain ls ->
  exists raw raw', DnsSocket.push_labels ls vec_new = Ok raw /\ vec_push 0 raw = (raw', Ok ()) /\ as_slice raw' = encode_name ls.
Proof.
  intros Hl Hp. destruct (push_labels_ok ls vec_new Hp) as (raw & Hr & Hs); [rewrite as_slice_new; cbn; lia|].
  rewrite as_slice_new in Hs. cbn [app] in Hs. exists raw. destruct (vec_push_room raw 0) as (raw' & Hv & Hv').
  - assert (length (as_slice raw ++ [0]) = length (encode_name ls)) as H by (by rewrite Hs). rewrite length_app in H. cbn in H. lia.
  - exists raw'. by rewrite Hv', Hs.
Qed.

Lemma start_too_long ls : (N < length (encode_name ls))%nat -> Forall plain ls ->
  DnsSocket.push_labels ls vec_new = Err NameTooLong \/
  exists raw, DnsSocket.push_labels ls vec_new = Ok raw /\ exists raw' e, vec_push 0 raw = (raw', Err e).
Proof.
  intros Hl Hp. destruct (Nat.le_gt_cases (length (encode_name ls)) (S N)) as [Hle|Hgt].
  - right. destruct (push_labels_ok ls vec_new Hp) as (raw & Hr & Hs); [rewrite as_slice_new; cbn; lia|].
    rewrite as_slice_new in Hs. cbn [app] in Hs. exists raw. split; [done|]. exists raw, 0. apply vec_push_full.
    assert (length (as_slice raw ++ [0]) = length (encode_name ls)) as H by (by rewrite Hs). rewrite length_app in H. cbn in H. lia.
  - left. apply push_labels_long; [done|]. rewrite as_slice_new. cbn. lia.
Qed.
End StartQuery.

(** [start_query] takes a name with or without a dot at its end, and stores a query
    for its wire format in a free slot, with a random transaction id and port, to be
    sent at once; a name that does not fit is refused, and nothing changes. *)
Theorem dns_start_query {SV : Vec Address} {NV : Vec Z} {NS : VecSlices NV} {N : nat} (NL : VecLaws NV N)
    (NSL : VecSlicesLaws NS N) {RV : Vec Address} fuel dot ls type (s : DnsSocket.Socket (SV := SV)) cx i rng txid rng' port
    (Hne : ls <> []) (Hls : Forall plain ls) (Hi : DnsSocket.first_free (DnsSocket.queries s) 0 = Some i)
    (Hid : Rand.rand_u16 (rand cx) = Ret (rng, txid)) (Hport : Rand.rand_source_port fuel rng = Ret (rng', Some port)) :
  if (length (encode_name ls) <=? N)%nat then
    exists q pq, DnsSocket.start_query fuel (written_name dot ls) type s cx =
        Ret (s <| DnsSocket.queries ::= <[i := Some q]> |>, cx <| rand := rng' |>, Ok i) /\
      DnsSocket.queries s !! i = Some None /\ q_state q = Pending pq /\ as_slice (pq_name pq) = encode_name ls /\
      pq_type pq = type /\ pq_txid pq = txid /\ pq_port pq = port /\ pq_retransmit_at pq = 0 /\ pq_server_idx pq = 0%nat /\
      pq_mdns pq = (if bool_decide (list.last ls = Some LOCAL) then MdnsEnabled else MdnsDisabled)
  else DnsSocket.start_query fuel (written_name dot ls) type s cx = Ret (s, cx, Err NameTooLong).
Proof.
  unfold label, DnsSocket.start_query in *. destruct (dot_removed dot ls Hne Hls) as (-> & c & -> & Hname). cbn [mbind outcome_bind]. rewrite Hname.
  cbn [mbind outcome_bind]. rewrite split_join by done. destruct (list.last ls) as [l|] eqn:Hlast; [|by apply last_None in Hlast].
  cbn [unwrap mbind outcome_bind]. cbn zeta. destruct (Nat.leb_spec (length (encode_name ls)) N) as [Hle|Hgt].
  - destruct (start_name ls Hle Hls) as (raw & raw' & -> & -> & Hraw). unfold DnsSocket.start_query_raw, DnsSocket.find_free_query. rewrite Hi.
    destruct (vec_from_slice_ok (as_slice raw')) as (v & -> & Hv); [by rewrite Hraw|]. rewrite Hid. cbn [mbind outcome_bind]. rewrite Hport.
    cbn [mbind outcome_bind unwrap]. destruct (first_free_spec _ _ _ Hi) as (j & -> & Hj). apply lookup_lt_Some in Hj as Hlt.
    cbn [Nat.add] in *. rewrite (proj2 (Nat.ltb_lt _ _)) by done. do 2 eexists. split; [done|]. split; [done|]. split; [done|]. cbn.
    split_and!; try done; [congruence|]. do 2 case_bool_decide; congruence.
  - destruct (start_too_long ls Hgt Hls) as [->|(raw & -> & raw' & e & ->)]; done.
Qed.

(** ** Dispatching *)

(** Clock readings up to 2^61 microseconds, deadlines up to 2^62. *)
Definition dns_clock_ok (t : Instant) : Prop := 0 <= t <= 2 ^ 61.
Definition dns_deadline_ok (t : Instant) : Prop := 0 <= t <= 2 ^ 62.

Ltac dns_bounds :=
  unfold dns_clock_ok, dns_deadline_ok, RETRANSMIT_TIMEOUT, RETRANSMIT_DELAY, MAX_RETRANSMIT_DELAY in *;
  change (2 ^ 61) with 2305843009213693952 in *; change (2 ^ 62) with 4611686018427387904 in *.

(** What a device does with a packet. *)
Definition dns_device (takes : bool) (cx : Context) (_ : IpRepr * UdpRepr * list Z) : outcome (Context * result unit unit) :=
  Ret (cx, if takes then Ok () else Err ()).

Section Dispatch.
Context {BO : ByteOrder} {NE : NetworkEndian BO} {DF : Bitflags DNS_FLAGS} {DFL : BitflagsLaws DF}.
Context {SV : Vec Address} {NV : Vec Z} {NS : VecSlices NV} {N : nat} {NL : VecLaws NV N} {NSL : VecSlicesLaws NS N} {RV : Vec Address}.
Implicit Types (s : DnsSocket.Socket (SV := SV)) (cx : Context) (q : DnsQuery) (pq : PendingQuery) (own : list Address).

(** The name fits the packet that [dispatch] has on its stack. *)
Record pending_ok pq : Prop := {
  po_name : bytes (as_slice (pq_name pq));
  po_fits : (length (as_slice (pq_name pq)) <= 496)%nat;
  po_type : type_wf (pq_type pq);
  po_txid : word (pq_txid pq);
  po_delay : 0 < pq_delay pq <= MAX_RETRANSMIT_DELAY;
  po_retransmit : dns_deadline_ok (pq_retransmit_at pq);
  po_timeout : match pq_timeout_at pq with Some t => dns_deadline_ok t | None => True end
}.

Definition query_ok (o : option DnsQuery) : Prop :=
  match o with Some q => match q_state q with Pending pq => pending_ok pq | _ => True end | None => True end.

(** There is a source address of the family of each server. *)
Definition sources_ok cx own : Prop := forall a, a ∈ MDNS_IPV6_ADDR :: MDNS_IPV4_ADDR :: own -> Address.is_unspecified a = false ->
  exists src, get_source_address cx a = Some src /\ Address.version src = Address.version a.

(** The timeout at time [t]. *)
Definition timeout_step (t : Instant) pq : PendingQuery :=
  let v := default (t + RETRANSMIT_TIMEOUT) (pq_timeout_at pq) in
  let pq := pq <| pq_timeout_at := Some v |> in
  if v <? t then
    pq <| pq_timeout_at := Some (t + RETRANSMIT_TIMEOUT) |> <| pq_retransmit_at := 0 |> <| pq_delay := RETRANSMIT_DELAY |>
       <| pq_server_idx ::= S |>
  else pq.

Lemma check_timeout_ok t pq : dns_clock_ok t -> pending_ok pq -> DnsSocket.check_timeout t pq = Ret (timeout_step t pq).
Proof.
  intros Ht Hp. unfold DnsSocket.check_timeout, timeout_step. assert (Instant.add t RETRANSMIT_TIMEOUT = Ret (t + RETRANSMIT_TIMEOUT)) as Hadd
    by (dns_bounds; apply instant_add_ok; lia).
  destruct pq as [nm ty po tx [v|] re de ix md]; cbn [pq_timeout_at mbind outcome_bind unwrap default set_field].
  - cbn. destruct (v <? t); [|done]. by rewrite Hadd.
  - rewrite Hadd. cbn. rewrite (proj2 (Z.ltb_ge _ _)) by (dns_bounds; lia). done.
Qed.

Lemma timeout_step_ok t pq : dns_clock_ok t -> pending_ok pq -> pending_ok (timeout_step t pq).
Proof.
  intros Ht [H1 H2 H3 H4 H5 H6 H7]. unfold timeout_step. destruct pq as [nm ty po tx tm re de ix md]. cbn in *.
  destruct tm as [v|]; cbn in *; case_match; constructor; cbn; try done; dns_bounds; lia.
Qed.

(** After a transmission. *)
Definition sent_at (t : Instant) pq : PendingQuery :=
  pq <| pq_retransmit_at := t + pq_delay pq |> <| pq_delay := Z.min MAX_RETRANSMIT_DELAY (pq_delay pq * 2) |>.

Lemma sent_at_ok t pq : dns_clock_ok t -> pending_ok pq -> pending_ok (sent_at t pq).
Proof.
  intros Ht [H1 H2 H3 H4 H5 H6 H7]. destruct pq as [nm ty po tx tm re de ix md]. cbn in *. constructor; cbn; try done; dns_bounds; lia.
Qed.

(** What a dispatch makes of a query it looks at, and whether it sends it. *)
Definition settle own (t : Instant) q : DnsQuery * bool :=
  match q_state q with
  | Pending pq =>
      let servers := DnsSocket.query_servers own pq in
      let pq := timeout_step t pq in
      match servers !! pq_server_idx pq with
      | None => (set_state Failure q, false)
      | Some a =>
          if Address.is_unspecified a then (set_state Failure q, false)
          else if t <? pq_retransmit_at pq then (mkDnsQuery (Pending pq) (q_waker q), false)
          else (mkDnsQuery (Pending (sent_at t pq)) (q_waker q), true)
      end
  | _ => (q, false)
  end.

(** The query as it is asked. *)
Definition query_repr pq : DnsRepr :=
  mkDnsRepr _ (pq_txid pq) DnsOpcode.Query (from_bits_truncate DNS_RECURSION_DESIRED)
    (mkQuestion (as_slice (pq_name pq)) (pq_type pq)).

Lemma query_repr_wf pq : pending_ok pq -> query_wf (query_repr pq).
Proof.
  intros Hp. constructor; cbn; [apply Hp|lia| |apply Hp]. exists DNS_RECURSION_DESIRED. apply bits_truncate.
Qed.

Lemma query_packet_ok limit a pq cx src :
  pending_ok pq -> get_source_address cx a = Some src -> Address.version src = Address.version a ->
  exists ip udp payload, DnsSocket.query_packet limit a pq cx = Ret (ip, udp, payload) /\
    IpRepr.dst_addr ip = a /\ IpRepr.src_addr ip = src /\ IpRepr.next_header ip = Protocol.Udp /\
    udp_src_port udp = pq_port pq /\ udp_dst_port udp = (match pq_mdns pq with MdnsEnabled => 5353 | MdnsDisabled => 53 end) /\
    payload = query_octets (query_repr pq) ++ question_octets (dr_question (query_repr pq)).
Proof.
  intros Hp Hsrc Hv. unfold DnsSocket.query_packet. fold (query_repr pq).
  assert (DnsRepr.buffer_len (query_repr pq) <= 512)%nat as Hl.
  { unfold DnsRepr.buffer_len, Question.buffer_len, HEADER_END. cbn [query_repr dr_question q_name]. pose proof (po_fits pq Hp). lia. }
  rewrite range_to by (rewrite length_replicate; lia). cbn [mbind outcome_bind]. rewrite take_replicate, Nat.min_l by lia.
  rewrite query_emit_ok by (by apply query_repr_wf). cbn [mbind outcome_bind]. cbn zeta. rewrite Hsrc. cbn [unwrap mbind outcome_bind].
  unfold IpRepr.new. destruct src, a; try done; cbn [mbind outcome_bind]; do 3 eexists; split; try done;
    by destruct (pq_mdns pq).
Qed.

(** A query that is sent, and the packet. *)
Definition query_sent own (limit : Z) (t : Instant) cx q (packet : IpRepr * UdpRepr * list Z) : Prop :=
  exists pq a, q_state q = Pending pq /\ (settle own t q).2 = true /\
    DnsSocket.query_servers own pq !! pq_server_idx (timeout_step t pq) = Some a /\
    DnsSocket.query_packet limit a (timeout_step t pq) cx = Ret packet.

Lemma servers_in own pq a i : DnsSocket.query_servers own pq !! i = Some a -> a ∈ MDNS_IPV6_ADDR :: MDNS_IPV4_ADDR :: own.
Proof.
  intros H%list_elem_of_lookup_2. unfold DnsSocket.query_servers in H. rewrite !elem_of_cons. destruct (pq_mdns pq); [by right; right|].
  rewrite !elem_of_cons in H. destruct H as [|[|[]%elem_of_nil]]; auto.
Qed.

Lemma dispatch_query_ok {E} (emit : Context -> IpRepr * UdpRepr * list Z -> outcome (Context * result unit E)) own limit cx q :
  (forall cx p cx' r, emit cx p = Ret (cx', r) -> now cx' = now cx) ->
  dns_clock_ok (now cx) -> sources_ok cx own -> query_ok (Some q) ->
  if (settle own (now cx) q).2 then
    exists packet, query_sent own limit (now cx) cx q packet /\
      DnsSocket.dispatch_query emit own limit cx q =
      '(cx', res) ← emit cx packet;
      Ret match res with
          | Ok _ => ((settle own (now cx) q).1, cx', Some (Ok ()))
          | Err e => (match q_state q with
                      | Pending pq => mkDnsQuery (Pending (timeout_step (now cx) pq)) (q_waker q)
                      | _ => q
                      end, cx', Some (Err e))
          end
  else DnsSocket.dispatch_query emit own limit cx q = Ret ((settle own (now cx) q).1, cx, None).
Proof.
  intros Hemit Ht Hs Hq. unfold settle, query_sent, DnsSocket.dispatch_query, settle. cbn in Hq. destruct (q_state q) as [pq| |] eqn:Hst; [|done..].
  pose proof (timeout_step_ok (now cx) pq Ht Hq) as Hp. rewrite check_timeout_ok by done. cbn [mbind outcome_bind]. cbn zeta.
  destruct (DnsSocket.query_servers own pq !! pq_server_idx (timeout_step (now cx) pq)) as [a|] eqn:Ha.
  - apply lookup_lt_Some in Ha as Hl. rewrite (proj2 (Nat.leb_gt _ _)) by done. cbn [unwrap mbind outcome_bind].
    destruct (Address.is_unspecified a) eqn:Hu; [done|]. destruct (now cx <? _) eqn:Hr; [done|]. cbn [snd fst].
    destruct (Hs a) as (src & Hsrc & Hv); [by eapply servers_in|done|].
    destruct (query_packet_ok limit a (timeout_step (now cx) pq) cx src Hp Hsrc Hv) as (ip & udp & payload & Hpk & _).
    exists (ip, udp, payload). split; [exists pq, a; by split_and!|]. rewrite Hpk. cbn [mbind outcome_bind].
    destruct (emit cx (ip, udp, payload)) as [[cx' [[]|e]]|] eqn:He; [|done..]. cbn [mbind outcome_bind].
    rewrite (Hemit _ _ _ _ He). pose proof (po_delay _ Hp) as Hd. unfold sent_at.
    rewrite instant_add_ok by (dns_bounds; lia). cbn [mbind outcome_bind]. unfold Duration.mul. rewrite umul_Ret by (dns_bounds; lia). done.
  - apply lookup_ge_None in Ha. by rewrite (proj2 (Nat.leb_le _ _)) by done.
Qed.

(** *** The loop, with a device that takes packets *)

Definition settle_slot own (t : Instant) (o : option DnsQuery) : option DnsQuery :=
  match o with Some q => Some (settle own t q).1 | None => None end.

Fixpoint settle_first own (t : Instant) (qs : list (option DnsQuery)) : list (option DnsQuery) :=
  match qs with
  | [] => []
  | None :: qs => None :: settle_first own t qs
  | Some q :: qs => Some (settle own t q).1 :: (if (settle own t q).2 then qs else settle_first own t qs)
  end.

Lemma dispatch_loop_ok own limit cx qs :
  dns_clock_ok (now cx) -> sources_ok cx own -> Forall query_ok qs ->
  DnsSocket.dispatch_loop (dns_device true) own limit cx qs = Ret (settle_first own (now cx) qs, cx, Ok ()).
Proof.
  intros Ht Hs. induction 1 as [|[q|] qs Hq _ IH]; cbn [DnsSocket.dispatch_loop settle_first]; [done| |by rewrite IH].
  pose proof (dispatch_query_ok (dns_device true) own limit cx q) as Hd.
  destruct (settle own (now cx) q) as [q' []]; cbn [fst snd] in *.
  - destruct Hd as (packet & _ & ->); [unfold dns_device; naive_solver|done..].
  - rewrite Hd by (done || unfold dns_device; naive_solver). cbn [mbind outcome_bind]. by rewrite IH.
Qed.

(** Nothing is offered when all queries are settled. *)
Lemma dispatch_loop_silent {E} (emit : Context -> IpRepr * UdpRepr * list Z -> outcome (Context * result unit E)) own limit cx qs :
  dns_clock_ok (now cx) -> sources_ok cx own -> Forall query_ok qs ->
  Forall (fun o => match o with Some q => settle own (now cx) q = (q, false) | None => True end) qs ->
  DnsSocket.dispatch_loop emit own limit cx qs = Ret (qs, cx, Ok ()).
Proof.
  intros Ht Hs Hq Hset. induction qs as [|[q|] qs IH]; cbn [DnsSocket.dispatch_loop]; [done| |].
  - apply Forall_cons_1 in Hq as [Hq Hqs], Hset as [Hset Hsets].
    assert (DnsSocket.dispatch_query emit own limit cx q = Ret (q, cx, None)) as ->.
    { unfold DnsSocket.dispatch_query. unfold settle in Hset. cbn in Hq. destruct (q_state q) as [pq| |] eqn:Hst; [|done..].
      rewrite check_timeout_ok by done. cbn [mbind outcome_bind]. cbn zeta in *.
      destruct (DnsSocket.query_servers own pq !! pq_server_idx (timeout_step (now cx) pq)) as [a|] eqn:Ha.
      - apply lookup_lt_Some in Ha as Hl. rewrite (proj2 (Nat.leb_gt _ _)) by done. cbn [unwrap mbind outcome_bind].
        destruct (Address.is_unspecified a); [exfalso; injection Hset as Hset; by rewrite <- Hset in Hst|].
        destruct (now cx <? _); [|done]. injection Hset as Hset. by rewrite Hset.
      - exfalso. injection Hset as Hset. by rewrite <- Hset in Hst. }
    cbn [mbind outcome_bind]. by rewrite IH.
  - apply Forall_cons_1 in Hq as [Hq Hqs], Hset as [Hset Hsets]. by rewrite IH.
Qed.

Lemma timeout_step_id t pq v : pq_timeout_at pq = Some v -> t <= v -> timeout_step t pq = pq.
Proof. intros Hv Hle. unfold timeout_step. rewrite Hv. cbn. rewrite (proj2 (Z.ltb_ge _ _)) by done. destruct pq. cbn in *. by subst. Qed.

Lemma timeout_step_waits t pq : dns_clock_ok t -> exists v, pq_timeout_at (timeout_step t pq) = Some v /\ t <= v /\
  (v <= t + RETRANSMIT_TIMEOUT \/ pq_timeout_at pq = Some v).
Proof.
  intros Ht. unfold timeout_step. destruct (Z.ltb_spec (default (t + RETRANSMIT_TIMEOUT) (pq_timeout_at pq)) t); cbn; eexists;
    (split; [done|]); dns_bounds; [lia|]. destruct (pq_timeout_at pq); cbn in *; [|lia]. split; [done|by right].
Qed.

(** A settled query is settled, and waits for later. *)
Lemma settle_again own t q : dns_clock_ok t -> query_ok (Some q) ->
  settle own t (settle own t q).1 = ((settle own t q).1, false) /\ query_ok (Some (settle own t q).1) /\
  match q_state (settle own t q).1 with Pending pq => t < pq_retransmit_at pq | _ => True end.
Proof.
  intros Ht Hq. cbn in Hq. destruct (q_state q) as [pq| |] eqn:Hst.
  2,3: (assert (settle own t q = (q, false)) as Hs by (unfold settle; by rewrite Hst); rewrite Hs; cbn [fst]; rewrite Hst;
    split; [done|]; split; [cbn; by rewrite Hst|done]).
  pose proof (timeout_step_ok t pq Ht Hq) as Hp. pose proof (po_delay _ Hp) as Hdel. unfold settle at 2 3 4 5. rewrite Hst. cbn zeta.
  destruct (timeout_step_waits t pq Ht) as (v & Hv & Hle & _).
  assert (forall pq', pq_mdns (timeout_step t pq') = pq_mdns pq') as Hmd by (intros; unfold timeout_step; cbn; by case_match).
  destruct (DnsSocket.query_servers own pq !! pq_server_idx (timeout_step t pq)) as [a|] eqn:Ha; [|done].
  destruct (Address.is_unspecified a) eqn:Hu; [done|]. destruct (Z.ltb_spec t (pq_retransmit_at (timeout_step t pq))) as [Hlt|Hge].
  - cbn [fst q_state]. split; [|by split]. unfold settle. cbn [q_state]. unfold DnsSocket.query_servers in *. rewrite (timeout_step_id t _ v), Hmd by done.
    cbn zeta. rewrite Ha, Hu, (proj2 (Z.ltb_lt _ _)) by done. done.
  - cbn [fst q_state]. split; [|split; [by apply sent_at_ok|unfold sent_at; cbn; lia]].
    assert (timeout_step t (sent_at t (timeout_step t pq)) = sent_at t (timeout_step t pq)) as Hagain.
    { by apply (timeout_step_id t _ v). }
    unfold settle. cbn [q_state]. rewrite Hagain. unfold DnsSocket.query_servers in *. cbn zeta.
    change (pq_mdns (sent_at t (timeout_step t pq))) with (pq_mdns (timeout_step t pq)). rewrite Hmd.
    change (pq_server_idx (sent_at t (timeout_step t pq))) with (pq_server_idx (timeout_step t pq)). rewrite Ha, Hu.
    rewrite (proj2 (Z.ltb_lt _ _)) by (unfold sent_at; cbn; lia). done.
Qed.

(** *** Polling

    The interface dispatches until nothing is sent. *)
Fixpoint dns_polls (n : nat) s cx : outcome (DnsSocket.Socket (SV := SV) * Context) :=
  match n with
  | O => Ret (s, cx)
  | S n => '(s, cx, _) ← DnsSocket.dispatch (dns_device true) s cx; dns_polls n s cx
  end.

Fixpoint settle_times (n : nat) own (t : Instant) (qs : list (option DnsQuery)) : list (option DnsQuery) :=
  match n with O => qs | S n => settle_times n own t (settle_first own t qs) end.

Lemma settle_first_ok own t qs : dns_clock_ok t -> Forall query_ok qs -> Forall query_ok (settle_first own t qs).
Proof.
  intros Ht. induction 1 as [|[q|] qs Hq Hqs IH]; cbn; [done| |by constructor].
  destruct (settle_again own t q Ht Hq) as (_ & Hq' & _). constructor; [done|]. by destruct (settle own t q).2.
Qed.

(** Settled queries at the head do not matter. *)
Lemma settle_times_cons n own t o qs :
  match o with Some q => settle own t q = (q, false) | None => True end ->
  settle_times n own t (o :: qs) = o :: settle_times n own t qs.
Proof.
  intros Ho. revert qs. induction n as [|n IH]; intros qs; [done|]. cbn [settle_times settle_first].
  destruct o as [q|]; [rewrite Ho; cbn|]; apply IH.
Qed.

Lemma settle_times_all n own t qs : dns_clock_ok t -> Forall query_ok qs -> (length qs <= n)%nat ->
  settle_times n own t qs = map (settle_slot own t) qs.
Proof.
  intros Ht Hqs. revert n. induction Hqs as [|o qs Hq Hqs IH]; intros n Hn.
  { cbn. induction n as [|n IHn]; [done|]. apply IHn. cbn. lia. }
  destruct n as [|n]; [cbn in Hn; lia|]. cbn [length] in Hn. destruct o as [q|].
  - destruct (settle_again own t q Ht Hq) as (Hs & _ & _). cbn [settle_times settle_first map settle_slot].
    rewrite settle_times_cons by done. f_equal. destruct (settle own t q).2; [apply IH; lia|].
    change (settle_times n own t (settle_first own t qs)) with (settle_times (S n) own t qs). apply IH. lia.
  - rewrite settle_times_cons by done. cbn [map settle_slot]. f_equal. apply IH. lia.
Qed.

Lemma dns_polls_ok n s cx : let own := as_slice (Vec := SV) (DnsSocket.servers s) in
  dns_clock_ok (now cx) -> sources_ok cx own -> Forall query_ok (DnsSocket.queries s) ->
  dns_polls n s cx = Ret (s <| DnsSocket.queries := settle_times n own (now cx) (DnsSocket.queries s) |>, cx).
Proof.
  cbn zeta. intros Ht. revert s. induction n as [|n IH]; intros s Hs Hq; cbn [dns_polls].
  - do 2 f_equal. by destruct s.
  - unfold DnsSocket.dispatch at 1. rewrite dispatch_loop_ok by done. cbn [mbind outcome_bind]. rewrite IH; [done..|].
    by apply settle_first_ok.
Qed.
End Dispatch.

Section Ends.
Context {BO : ByteOrder} {NE : NetworkEndian BO} {DF : Bitflags DNS_FLAGS} {DFL : BitflagsLaws DF}.
Context {SV : Vec Address} {NV : Vec Z} {NS : VecSlices NV} {N : nat} {NL : VecLaws NV N} {NSL : VecSlicesLaws NS N} {RV : Vec Address}.
Implicit Types (s : DnsSocket.Socket (SV := SV)) (cx : Context) (q : DnsQuery) (pq : PendingQuery) (own : list Address).

Lemma settled_slots own t qs : dns_clock_ok t -> Forall query_ok qs ->
  Forall (fun o => match o with Some q => settle own t q = (q, false) | None => True end) (map (settle_slot own t) qs) /\
  Forall query_ok (map (settle_slot own t) qs) /\ Forall (fun u => t < u) (omap DnsSocket.retransmit_time (map (settle_slot own t) qs)).
Proof.
  intros Ht. induction 1 as [|[q|] qs Hq _ (IH1 & IH2 & IH3)]; cbn [map settle_slot omap list_omap].
  - split_and!; constructor.
  - destruct (settle_again own t q Ht Hq) as (Hs & Hok & Hlt). split_and!; [by constructor..|]. cbn [DnsSocket.retransmit_time].
    destruct (q_state (settle own t q).1); [by constructor|done..].
  - split_and!; [by constructor..|done].
Qed.

Lemma foldl_min_lt t u us : t < u -> Forall (fun u => t < u) us -> t < foldl Z.min u us.
Proof. intros Hu Hus. revert u Hu. induction Hus as [|v us Hv _ IH]; intros u Hu; cbn; [done|]. apply IH. lia. Qed.

(** The interface polls at each of the times until nothing is sent. *)
Fixpoint dns_poll_times (ts : list Instant) s cx : outcome (DnsSocket.Socket (SV := SV)) :=
  match ts with
  | [] => Ret s
  | t :: ts => '(s, cx) ← dns_polls (length (DnsSocket.queries s)) s (cx <| now := t |>); dns_poll_times ts s cx
  end.

(** The times are more than the timeout apart. *)
Fixpoint spaced (t : Instant) (ts : list Instant) : Prop :=
  match ts with [] => True | u :: us => t + RETRANSMIT_TIMEOUT < u /\ dns_clock_ok u /\ spaced u us end.

(** A query that is pending has tried [k] servers, and waits no longer than the
    timeout from [t] on. *)
Definition tried (k : nat) (t : Instant) own (o : option DnsQuery) : Prop :=
  match o with
  | Some q => match q_state q with
      | Pending pq => (k <= pq_server_idx pq)%nat /\ (pq_server_idx pq < length (DnsSocket.query_servers own pq))%nat /\
          match pq_timeout_at pq with Some v => v <= t + RETRANSMIT_TIMEOUT | None => False end
      | _ => True
      end
  | None => True
  end.

Lemma settle_tried own t o : dns_clock_ok t -> query_ok o ->
  (forall q pq v, o = Some q -> q_state q = Pending pq -> pq_timeout_at pq = Some v -> v <= t + RETRANSMIT_TIMEOUT) ->
  tried 0 t own (settle_slot own t o).
Proof.
  intros Ht Hq Hv. destruct o as [q|]; [|done]. cbn. unfold settle. cbn in Hq. destruct (q_state q) as [pq| |] eqn:Hst; cbn [fst]; [|by rewrite Hst..].
  cbn zeta. destruct (DnsSocket.query_servers own pq !! pq_server_idx (timeout_step t pq)) as [a|] eqn:Ha; [|done].
  apply lookup_lt_Some in Ha. destruct (timeout_step_waits t pq Ht) as (v & Hv' & _ & Hle).
  assert (v <= t + RETRANSMIT_TIMEOUT) as Hvle by (destruct Hle as [|Hp]; [done|by apply (Hv q pq)]).
  assert (forall pq', pq_mdns (timeout_step t pq') = pq_mdns pq') as Hmd by (intros; unfold timeout_step; cbn; by case_match).
  unfold DnsSocket.query_servers in *. destruct (Address.is_unspecified a); [done|].
  destruct (t <? _); cbn [fst q_state]; rewrite ?Hmd; (split; [lia|]).
  - by rewrite Hv'.
  - change (pq_mdns (sent_at t (timeout_step t pq))) with (pq_mdns (timeout_step t pq)). rewrite Hmd. unfold sent_at. cbn. by rewrite Hv'.
Qed.

Lemma settle_next own k t u o : dns_clock_ok u -> t + RETRANSMIT_TIMEOUT < u -> tried k t own o -> tried (S k) u own (settle_slot own u o).
Proof.
  intros Hu Hgap Ho. destruct o as [q|]; [|done]. cbn in *. unfold settle. destruct (q_state q) as [pq| |] eqn:Hst; cbn [fst]; [|by rewrite Hst..].
  destruct Ho as (Hk & _ & Hv). destruct (pq_timeout_at pq) as [v|] eqn:Hto; [|done]. cbn zeta.
  assert (timeout_step u pq = pq <| pq_timeout_at := Some (u + RETRANSMIT_TIMEOUT) |> <| pq_retransmit_at := 0 |>
    <| pq_delay := RETRANSMIT_DELAY |> <| pq_server_idx := S (pq_server_idx pq) |>) as ->.
  { unfold timeout_step. rewrite Hto. cbn. by rewrite (proj2 (Z.ltb_lt _ _)) by lia. }
  destruct (DnsSocket.query_servers own pq !! _) as [a|] eqn:Ha; [|done]. apply lookup_lt_Some in Ha.
  destruct (Address.is_unspecified a); [done|]. unfold DnsSocket.query_servers in *. cbn in Ha |- *.
  destruct (u <? 0); cbn; (split; [lia|]); split; done || lia.
Qed.

Lemma poll_once s cx t : let own := as_slice (Vec := SV) (DnsSocket.servers s) in
  dns_clock_ok t -> sources_ok cx own -> Forall query_ok (DnsSocket.queries s) ->
  dns_polls (length (DnsSocket.queries s)) s (cx <| now := t |>) =
    Ret (s <| DnsSocket.queries := map (settle_slot own t) (DnsSocket.queries s) |>, cx <| now := t |>).
Proof. cbn zeta. intros. rewrite dns_polls_ok by done. cbn [now set_field]. by rewrite settle_times_all by done. Qed.

Lemma poll_times_tried ts k t s cx : let own := as_slice (Vec := SV) (DnsSocket.servers s) in
  sources_ok cx own -> Forall query_ok (DnsSocket.queries s) -> Forall (tried k t own) (DnsSocket.queries s) -> spaced t ts ->
  exists s' t', dns_poll_times ts s cx = Ret s' /\ DnsSocket.servers s' = DnsSocket.servers s /\
    length (DnsSocket.queries s') = length (DnsSocket.queries s) /\ Forall (tried (k + length ts) t' own) (DnsSocket.queries s').
Proof.
  cbn zeta. revert k t s cx. induction ts as [|u us IH]; intros k t s cx Hs Hq Htr Hsp.
  { exists s, t. by rewrite Nat.add_0_r. }
  destruct Hsp as (Hgap & Hu & Hsp). cbn [dns_poll_times]. rewrite poll_once by done. cbn [mbind outcome_bind].
  destruct (IH (S k) u (s <| DnsSocket.queries := map (settle_slot (as_slice (Vec := SV) (DnsSocket.servers s)) u) (DnsSocket.queries s) |>)
    (cx <| now := u |>)) as (s' & t' & Hr & Hsv & Hlen & Hk); try done.
  - cbn. by apply settled_slots.
  - cbn. apply Forall_map. apply (Forall_impl _ _ _ Htr). intros o Ho. by eapply settle_next.
  - exists s', t'. cbn in Hlen. rewrite length_map in Hlen. cbn [length]. rewrite <- plus_n_Sm. done.
Qed.
End Ends.

(** Polling settles.  At any time, as many dispatches as there are slots leave
    nothing to do: the next one offers nothing to any device and changes nothing, and
    [poll_at] is later than now. *)
Theorem dns_poll_settles {BO : ByteOrder} (NE : NetworkEndian BO) {DF : Bitflags DNS_FLAGS} (DFL : BitflagsLaws DF) {SV : Vec Address}
    {NV : Vec Z} {RV : Vec Address} (s : DnsSocket.Socket (SV := SV)) cx
    (Hq : Forall query_ok (DnsSocket.queries s)) (Ht : dns_clock_ok (now cx))
    (Hs : sources_ok cx (as_slice (Vec := SV) (DnsSocket.servers s))) :
  exists s', dns_polls (length (DnsSocket.queries s)) s cx = Ret (s', cx) /\
    (forall E (emit : Context -> IpRepr * UdpRepr * list Z -> outcome (Context * result unit E)),
       DnsSocket.dispatch emit s' cx = Ret (s', cx, Ok ())) /\
    match DnsSocket.poll_at s' with PollTime t => now cx < t | PollIngress => True | PollNow => False end.
Proof.
  rewrite dns_polls_ok, settle_times_all by done. set (own := as_slice (DnsSocket.servers s)) in *.
  destruct (settled_slots own (now cx) (DnsSocket.queries s) Ht Hq) as (H1 & H2 & H3). eexists. split; [done|]. split.
  - intros E emit. unfold DnsSocket.dispatch. cbn [DnsSocket.queries DnsSocket.servers DnsSocket.hop_limit set_field].
    rewrite dispatch_loop_silent by done. done.
  - unfold DnsSocket.poll_at. cbn [DnsSocket.queries set_field]. destruct (omap _ _) as [|u us]; [done|].
    apply Forall_cons_1 in H3 as [Hu Hus]. by apply foldl_min_lt.
Qed.

(** C21: every query ends.  When no answers come, a query waits at most ten seconds for
    each server: after polls more than ten seconds apart, one more than there are
    servers and at least three (multicast DNS has two addresses to ask), no query is
    pending, and none of the polls panics.  The interface has source addresses for
    all the servers and for both multicast DNS groups ([sources_ok]): [dispatch]
    unwraps them. *)
Theorem dns_queries_end {BO : ByteOrder} (NE : NetworkEndian BO) {DF : Bitflags DNS_FLAGS} (DFL : BitflagsLaws DF) {SV : Vec Address}
    {NV : Vec Z} {RV : Vec Address} (s : DnsSocket.Socket (SV := SV)) cx t ts
    (Hq : Forall query_ok (DnsSocket.queries s)) (Ht : dns_clock_ok t) (Hsp : spaced t ts)
    (Hs : sources_ok cx (as_slice (Vec := SV) (DnsSocket.servers s)))
    (Hto : forall q pq v, Some q ∈ DnsSocket.queries s -> q_state q = Pending pq -> pq_timeout_at pq = Some v ->
       v <= t + RETRANSMIT_TIMEOUT)
    (Hn : (length (as_slice (Vec := SV) (DnsSocket.servers s)) `max` 2 <= length ts)%nat) :
  exists s', dns_poll_times (t :: ts) s cx = Ret s' /\ length (DnsSocket.queries s') = length (DnsSocket.queries s) /\
    forall q, Some q ∈ DnsSocket.queries s' -> forall pq, q_state q <> Pending pq.
Proof.
  cbn [dns_poll_times]. rewrite poll_once by done. cbn [mbind outcome_bind]. set (own := as_slice (DnsSocket.servers s)) in *.
  destruct (poll_times_tried ts 0 t (s <| DnsSocket.queries := map (settle_slot own t) (DnsSocket.queries s) |>) (cx <| now := t |>))
    as (s' & t' & Hr & _ & Hlen & Htr); [done| | |done|].
  - cbn. by apply settled_slots.
  - cbn. apply Forall_map, Forall_forall. intros o Ho. apply settle_tried; [done|by eapply Forall_forall in Hq|].
    intros q pq v ->. by apply Hto.
  - exists s'. cbn in Hlen. rewrite length_map in Hlen. split_and!; [done..|]. intros q Hin pq Hpq.
    rewrite Forall_forall in Htr. specialize (Htr _ Hin). cbn in Htr. rewrite Hpq in Htr. destruct Htr as (H1 & H2 & _).
    change (as_slice (DnsSocket.servers _)) with own in H2. unfold DnsSocket.query_servers in H2. destruct (pq_mdns pq); cbn in H2; lia.
Qed.

(** ** What is asked *)

Section Asks.
Context {BO : ByteOrder} {NE : NetworkEndian BO} {DF : Bitflags DNS_FLAGS} {DFL : BitflagsLaws DF}.
Context {SV : Vec Address} {NV : Vec Z} {RV : Vec Address}.
Implicit Types (s : DnsSocket.Socket (SV := SV)) (cx : Context).

(** What [dispatch] offers to the device. *)
Definition dns_offered s cx : outcome (option (IpRepr * UdpRepr * list Z)) :=
  '(_, _, res) ← DnsSocket.dispatch (fun cx p => Ret (cx, Err p)) s cx;
  Ret (match res with Err p => Some p | Ok _ => None end).

Lemma dispatch_loop_offers own limit cx qs :
  dns_clock_ok (now cx) -> sources_ok cx own -> Forall query_ok qs ->
  exists qs' res, DnsSocket.dispatch_loop (fun cx p => Ret (cx, Err p)) own limit cx qs = Ret (qs', cx, res) /\
    match res with
    | Err packet => exists i q, qs !! i = Some (Some q) /\ query_sent own limit (now cx) cx q packet
    | Ok _ => forall q, Some q ∈ qs -> (settle own (now cx) q).2 = false
    end.
Proof.
  intros Ht Hs. induction 1 as [|[q|] qs Hq _ IH]; cbn [DnsSocket.dispatch_loop].
  - do 2 eexists. split; [done|]. by intros q []%elem_of_nil.
  - pose proof (dispatch_query_ok (fun cx p => Ret (cx, Err p)) own limit cx q ltac:(naive_solver) Ht Hs Hq) as Hd.
    destruct (settle own (now cx) q) as [q' sent] eqn:Hset. cbn [fst snd] in Hd. destruct sent.
    + destruct Hd as (packet & Hsent & ->). do 2 eexists. split; [done|]. cbn. by exists 0%nat, q.
    + rewrite Hd. cbn [mbind outcome_bind]. destruct IH as (qs' & res & -> & Hres). do 2 eexists. split; [done|].
      destruct res as [[]|packet].
      * intros q0 [[= <-]|Hin]%elem_of_cons; [by rewrite Hset|by apply Hres].
      * destruct Hres as (i & q0 & Hi & Hs0). by exists (S i), q0.
  - destruct IH as (qs' & res & -> & Hres). do 2 eexists. split; [done|]. destruct res as [[]|packet].
    + intros q0 [?|Hin]%elem_of_cons; [done|by apply Hres].
    + destruct Hres as (i & q0 & Hi & Hs0). by exists (S i), q0.
Qed.
End Asks.

(** What goes out is the question.  When a dispatch offers a packet, it is for a
    pending query that is due, goes from its port to the server whose turn it is, and
    reads back as a query with its transaction id, recursion desired, and one question
    for its name and type. *)
Theorem dns_query_asks {BO : ByteOrder} (NE : NetworkEndian BO) {DF : Bitflags DNS_FLAGS} (DFL : BitflagsLaws DF) {SV : Vec Address}
    {NV : Vec Z} {RV : Vec Address} (s : DnsSocket.Socket (SV := SV)) cx
    (Hq : Forall query_ok (DnsSocket.queries s)) (Ht : dns_clock_ok (now cx))
    (Hs : sources_ok cx (as_slice (Vec := SV) (DnsSocket.servers s)))
    (Hnames : forall q pq, Some q ∈ DnsSocket.queries s -> q_state q = Pending pq ->
       exists ls, labels_wf ls /\ as_slice (pq_name pq) = encode_name ls) :
  exists offered, dns_offered s cx = Ret offered /\
    match offered with
    | None => forall q pq, Some q ∈ DnsSocket.queries s -> q_state q = Pending pq ->
        (settle (as_slice (Vec := SV) (DnsSocket.servers s)) (now cx) q).2 = false
    | Some (ip, udp, payload) =>
        exists i q pq ls, DnsSocket.queries s !! i = Some (Some q) /\ q_state q = Pending pq /\ as_slice (pq_name pq) = encode_name ls /\
          DnsSocket.query_servers (as_slice (Vec := SV) (DnsSocket.servers s)) pq !! pq_server_idx (timeout_step (now cx) pq) = Some (IpRepr.dst_addr ip) /\
          udp_src_port udp = pq_port pq /\
          udp_dst_port udp = (match pq_mdns pq with MdnsEnabled => 5353 | MdnsDisabled => 53 end) /\
          DnsPacket.transaction_id payload = Ret (pq_txid pq) /\
          (f ← DnsPacket.flags payload; Ret (flags_bits f)) = Ret DNS_RECURSION_DESIRED /\
          (o ← DnsPacket.opcode payload; Ret (DnsOpcode.into o)) = Ret 0 /\
          DnsPacket.question_count payload = Ret 1 /\ DnsPacket.answer_record_count payload = Ret 0 /\
          (p ← DnsPacket.payload payload; Question.parse p) =
            Ret (Ok ([], mkQuestion (encode_name ls) (DnsType.from (DnsType.into (pq_type pq))))) /\
          decode (DnsPacket.parse_name payload (encode_name ls)) = Some ls
    end.
Proof.
  unfold dns_offered, DnsSocket.dispatch. set (own := as_slice (DnsSocket.servers s)) in *.
  destruct (dispatch_loop_offers own (default 64 (DnsSocket.hop_limit s)) cx (DnsSocket.queries s) Ht Hs Hq) as (qs' & res & -> & Hres).
  cbn [mbind outcome_bind]. eexists. split; [done|]. destruct res as [[]|[[ip udp] payload]]; [intros q pq Hin _; by apply Hres|].
  destruct Hres as (i & q & Hi & (pq & a & Hpq & Hset & Ha & Hpk)). apply list_elem_of_lookup_2 in Hi as Hin.
  assert (pending_ok pq) as Hok by (rewrite Forall_forall in Hq; specialize (Hq _ Hin); cbn in Hq; by rewrite Hpq in Hq).
  destruct (Hnames q pq Hin Hpq) as (ls & Hls & Hname). set (pq' := timeout_step (now cx) pq) in *.
  assert (pq_name pq' = pq_name pq /\ pq_type pq' = pq_type pq /\ pq_txid pq' = pq_txid pq /\ pq_port pq' = pq_port pq /\ pq_mdns pq' = pq_mdns pq)
    as (Hn' & Ht' & Hx' & Hp' & Hm') by (unfold pq', timeout_step; cbn; by case_match).
  assert (Address.is_unspecified a = false) as Hu.
  { revert Hset. unfold settle. rewrite Hpq. cbn zeta. fold pq'. rewrite Ha. by destruct (Address.is_unspecified a). }
  destruct (Hs a) as (src & Hsrc & Hv); [by eapply servers_in|done|]. assert (pending_ok pq') as Hok' by (by apply timeout_step_ok).
  destruct (query_packet_ok (default 64 (DnsSocket.hop_limit s)) a pq' cx src Hok' Hsrc Hv) as
    (ip' & udp' & payload' & Hpk' & Hdst & _ & _ & Hsp & Hdp & Hpl). rewrite Hpk in Hpk'. injection Hpk' as <- <- <-.
  exists i, q, pq, ls. rewrite Hdst, Hsp, Hdp, Hp', Hm'. do 6 (split; [done|]).
  destruct (dns_query_emitted (query_repr pq') ls) as (octets & Hoct & Hread); [by apply query_repr_wf|cbn; congruence|done|].
  rewrite query_emit_ok in Hoct by (by apply query_repr_wf). 
  assert (octets = payload) as -> by congruence. clear Hoct.
  cbn [query_repr dr_transaction_id dr_opcode dr_flags dr_question q_name q_type DnsOpcode.into] in Hread. rewrite bits_truncate, Hx', Ht', Hn', Hname in Hread.
  exact Hread.
Qed.

(** ** Runs *)

Module DnsWitness.
#[local] Existing Instance network_endian.
Definition dns_flags : Bitflags DNS_FLAGS := int_flags DNS_FLAGS.
#[local] Existing Instance dns_flags.
Definition server_vec : Vec Address := list_vec Address 1.
Definition server_slices : VecSlices server_vec := list_vec_slices Address 1.
Definition name_vec : Vec Z := list_vec Z 255.
#[local] Existing Instance name_vec.
Definition name_slices : VecSlices name_vec := list_vec_slices Z 255.
#[local] Existing Instance name_slices.
Definition result_vec : Vec Address := list_vec Address 1.
#[local] Existing Instance result_vec.

Abbreviation DnsSocketT := (DnsSocket.Socket (SV := server_vec)).

Definition server : Address := Ipv4 [192; 168; 0; 1].
Definition stranger : Address := Ipv4 [6; 6; 6; 6].

Definition cx : Context :=
  mkContext 1000000 1500 (Rand.new 42)
    (fun d => match d with Ipv4 _ => Some (Ipv4 [192; 168; 0; 2]) | Ipv6 _ => Some (Ipv6 (replicate 16 1)) end)
    (fun _ => false) HwIp ChecksumCapabilities.default [].

(** [www.smol.org] *)
Definition labels : list label := [[119; 119; 119]; [115; 109; 111; 108]; [111; 114; 103]].
Definition alias : list label := [[99; 100; 110]; [111; 114; 103]].

(** A socket with one slot and a query in it, after its first transmission. *)
Definition asked : outcome DnsSocketT :=
  s ← DnsSocket.new (SS := server_slices) [server] [None] false;
  '(s, cx, _) ← DnsSocket.start_query 100 (written_name false labels) DnsType.A s cx;
  '(s, _, _) ← DnsSocket.dispatch (dns_device true) s cx;
  Ret s.

(** A response to a query: the question, and records. *)
Definition header (txid count : Z) : list Z := be16 txid ++ [0x81; 0x80] ++ be16 1 ++ be16 count ++ [0; 0; 0; 0].
Definition record (owner : list Z) (type : Z) (data : list Z) : list Z :=
  owner ++ be16 type ++ be16 1 ++ be32 60 ++ be16 (Z.of_nat (length data)) ++ data.
Definition response (txid : Z) (rs : list (list Z)) : list Z :=
  header txid (Z.of_nat (length rs)) ++ encode_name labels ++ be16 1 ++ be16 1 ++ concat rs.

(** The name of the question, by a pointer. *)
Definition the_name : list Z := [0xC0; 12].

Definition good : list (list Z) := [record the_name 5 (encode_name alias); record (encode_name alias) 1 [10; 0; 0; 7]].

(** An alias whose name has a pointer past the packet. *)
Definition bad : list (list Z) := [record the_name 5 ([3; 99; 100; 110] ++ [0xFF; 0xFF])].

(** The responses arrive at the port of the query from an address and a port. *)
Definition answer (from : Address) (port : Z) (s : DnsSocketT) (rs : list (list Z)) : outcome DnsSocketT :=
  match DnsSocket.queries s with
  | [Some q] =>
      match q_state q with
      | Pending pq =>
          ip ← IpRepr.new from (Ipv4 [192; 168; 0; 2]) Protocol.Udp 0 64;
          DnsSocket.process ip (mkUdpRepr port (pq_port pq)) (response (pq_txid pq) rs) s
      | _ => Ret s
      end
  | _ => Ret s
  end.

Fixpoint answer_all (from : Address) (port : Z) (l : list (list (list Z))) (s : DnsSocketT) : outcome DnsSocketT :=
  match l with [] => Ret s | rs :: l => s ← answer from port s rs; answer_all from port l s end.

(** The query in the slot: its name while it is pending, or its addresses. *)
Definition status (s : DnsSocketT) : option (list Z + list Address) :=
  match DnsSocket.queries s with
  | [Some q] =>
      match q_state q with
      | Pending pq => Some (inl (as_slice (pq_name pq)))
      | Completed out => Some (inr (as_slice out))
      | Failure => Some (inr [])
      end
  | _ => None
  end.

Definition after (from : Address) (port : Z) (l : list (list (list Z))) : outcome (option (list Z + list Address)) :=
  s ← asked; s ← answer_all from port l s; Ret (status s).

(** One malformed answer spoils a query: [copy_name] empties the name of the query
    before it knows whether the alias is a name, and what it copied stays.  The query
    is pending with a name that is none; a correct response, which answers the query
    otherwise, does not match it any more. *)
Theorem malformed_alias_spoils_query :
  after server 53 [good] = Ret (Some (inr [Ipv4 [10; 0; 0; 7]])) /\
  after server 53 [bad] = Ret (Some (inl [3; 99; 100; 110])) /\
  after server 53 [bad; good] = Ret (Some (inl [3; 99; 100; 110])).
Proof. split_and!; vm_compute; reflexivity. Qed.

(** Anybody can answer from the port of multicast DNS: the address is not looked at,
    though the query was sent to a server. *)
Theorem answers_from_strangers :
  (s ← asked; ip ← IpRepr.new stranger (Ipv4 [192; 168; 0; 2]) Protocol.Udp 0 64;
   Ret (DnsSocket.accepts ip (mkUdpRepr 53 1024) s)) = Ret false /\
  after stranger 5353 [good] = Ret (Some (inr [Ipv4 [10; 0; 0; 7]])).
Proof. split; vm_compute; reflexivity. Qed.

(** A query to a server of a family of which the interface has no address panics. *)
Theorem no_source_address_panics :
  (s ← DnsSocket.new (SS := server_slices) [server] [None] false;
   '(s, cx, _) ← DnsSocket.start_query 100 (written_name false labels) DnsType.A s cx;
   '(s, _, _) ← DnsSocket.dispatch (dns_device true) s (cx <| get_source_address := fun _ => None |>);
   Ret (length (DnsSocket.queries s))) = Panic.
Proof. vm_compute. reflexivity. Qed.

(** [poll_at] does not know of the timeout: after four transmissions it is 15 seconds
    after the first, and a dispatch after 11 seconds has something to do. *)
Fixpoint poll_each (ts : list Instant) (s : DnsSocketT) : outcome DnsSocketT :=
  match ts with
  | [] => Ret s
  | t :: ts => '(s, _, _) ← DnsSocket.dispatch (dns_device true) s (cx <| now := t |>); poll_each ts s
  end.

Theorem poll_at_ignores_timeout :
  (s ← asked; s ← poll_each [2000000; 4000000; 8000000] s; Ret (DnsSocket.poll_at s)) = Ret (PollTime 16000000) /\
  (s ← asked; s ← poll_each [2000000; 4000000; 8000000; 12000000] s; Ret (status s)) = Ret (Some (inr [])).
Proof. split; vm_compute; reflexivity. Qed.

(** *** Witnesses *)

Definition pack_name (l : list Z) : vec Z := match vec_from_slice l with Ok v => v | Err _ => vec_new end.

Definition pending : PendingQuery :=
  mkPendingQuery (pack_name (encode_name labels)) DnsType.A 40000 7 None 0 RETRANSMIT_DELAY 0 MdnsDisabled.

Definition query : DnsQuery := mkDnsQuery (Pending pending) WakerRegistration.new.

Definition servers : @vec Address server_vec :=
  match vec_from_slice (VecSlices := server_slices) [server] with Ok v => v | Err _ => @vec_new Address server_vec end.

Definition socket : DnsSocketT := DnsSocket.mkSocket servers [None; Some query] false None.

Definition from_server : IpRepr := ReprIpv4 (mkIpHeader [192; 168; 0; 1] [192; 168; 0; 2] Protocol.Udp 0 64).
Definition to_query : UdpRepr := mkUdpRepr 53 40000.

Lemma name_laws : VecLaws name_vec 255.
Proof. apply list_vec_laws. Qed.
Lemma name_slice_laws : VecSlicesLaws name_slices 255.
Proof. apply list_vec_slices_laws. Qed.
Lemma result_laws : VecLaws result_vec 1.
Proof. apply list_vec_laws. Qed.

Definition all_bytes_b (l : list Z) : bool := forallb (fun b => (0 <=? b) && (b <=? 255)) l.

Lemma bytes_b l : all_bytes_b l = true -> bytes l.
Proof.
  unfold all_bytes_b. rewrite forallb_forall. intros H. apply Forall_forall. intros b Hb%list_elem_of_In. specialize (H b Hb).
  apply andb_true_iff in H as [H1%Z.leb_le H2%Z.leb_le]. done.
Qed.

Lemma socket_bytes : Forall slot_bytes (DnsSocket.queries socket).
Proof. constructor; [exact I|]. constructor; [|constructor]. apply bytes_b. vm_compute. reflexivity. Qed.

Lemma pending_is_ok : pending_ok pending.
Proof.
  constructor; cbn [pending pq_name pq_type pq_txid pq_delay pq_retransmit_at pq_timeout_at].
  - apply bytes_b. vm_compute. reflexivity.
  - apply Nat.leb_le. vm_compute. reflexivity.
  - vm_compute. intuition discriminate.
  - vm_compute. intuition discriminate.
  - vm_compute. intuition discriminate.
  - vm_compute. intuition discriminate.
  - exact I.
Qed.

Lemma socket_ok : Forall query_ok (DnsSocket.queries socket).
Proof. constructor; [exact I|]. constructor; [exact pending_is_ok|constructor]. Qed.

Lemma cx_sources : sources_ok cx (as_slice (Vec := server_vec) (DnsSocket.servers socket)).
Proof. intros a _ _. destruct a; cbn; by eexists. Qed.

Lemma cx_clock : dns_clock_ok (now cx).
Proof. vm_compute. intuition discriminate. Qed.

Lemma labels_ok : labels_wf labels.
Proof. repeat (apply Forall_cons_2; [split; [cbn; lia|apply bytes_b; reflexivity]|]). constructor. Qed.

Lemma dns_answers_are_genuine_witness :
  exists qs, DnsSocket.process from_server to_query (response 7 good) socket = Ret (socket <| DnsSocket.queries := qs |>) /\
    length qs = 2%nat.
Proof.
  destruct (dns_answers_are_genuine network_endian_laws name_laws name_slice_laws result_laws from_server to_query (response 7 good) socket)
    as (qs & Hp & Hl & _); [apply bytes_b; vm_compute; reflexivity|vm_compute; reflexivity|apply socket_bytes|].
  exists qs. split; [exact Hp|exact Hl].
Defined.

Lemma dns_query_asks_witness :
  exists offered, dns_offered socket cx = Ret offered.
Proof.
  destruct (dns_query_asks network_endian_laws (int_flags_laws DNS_FLAGS) socket cx socket_ok cx_clock cx_sources) as (o & Ho & _).
  - intros q pq Hin Hpq. exists labels. split; [apply labels_ok|].
    apply elem_of_cons in Hin as [Hin|Hin]; [discriminate Hin|]. apply list_elem_of_singleton in Hin. injection Hin as ->.
    injection Hpq as <-. vm_compute. reflexivity.
  - exists o. exact Ho.
Defined.

Lemma dns_queries_end_witness :
  exists s', dns_poll_times [1000000; 20000000; 40000000] socket cx = Ret s' /\
    forall q, Some q ∈ DnsSocket.queries s' -> forall pq, q_state q <> Pending pq.
Proof.
  destruct (dns_queries_end network_endian_laws (int_flags_laws DNS_FLAGS) socket cx 1000000 [20000000; 40000000]) as (s' & Hs & _ & Hq).
  - apply socket_ok.
  - apply cx_clock.
  - repeat split; vm_compute; intuition discriminate.
  - apply cx_sources.
  - intros q pq v Hin Hpq Hv. apply elem_of_cons in Hin as [Hin|Hin]; [discriminate Hin|].
    apply list_elem_of_singleton in Hin. injection Hin as ->. injection Hpq as <-. discriminate Hv.
  - apply Nat.leb_le. vm_compute. reflexivity.
  - exists s'. split; [exact Hs|exact Hq].
Defined.

Lemma dns_poll_settles_witness :
  exists s', dns_polls 2 socket cx = Ret (s', cx) /\
    match DnsSocket.poll_at s' with PollTime t => now cx < t | PollIngress => True | PollNow => False end.
Proof.
  destruct (dns_poll_settles network_endian_laws (int_flags_laws DNS_FLAGS) socket cx socket_ok cx_clock cx_sources) as (s' & Hs & _ & Hp).
  exists s'. split; [exact Hs|exact Hp].
Defined.

(** The answers of the good response. *)
Definition good_records : list DnsRecord :=
  [mkDnsRecord the_name 60 (RdCname (encode_name alias)); mkDnsRecord (encode_name alias) 60 (RdA [10; 0; 0; 7])].

Lemma good_answers : answers_question (response 7 good) pending labels good_records.
Proof. unfold answers_question. do 4 eexists. repeat (split; [vm_compute; reflexivity|]). vm_compute. reflexivity. Qed.

Lemma good_well_formed : well_formed 255 (response 7 good) good_records labels.
Proof.
  cbn [well_formed good_records]. exists labels. split; [vm_compute; reflexivity|]. cbn [r_data]. rewrite bool_decide_eq_true_2 by done.
  exists alias. split; [vm_compute; reflexivity|]. split; [apply Nat.leb_le; vm_compute; reflexivity|].
  exists alias. split; [vm_compute; reflexivity|]. by rewrite bool_decide_eq_true_2.
Qed.

Lemma good_response : is_response (response 7 good).
Proof. split; [apply Nat.leb_le; vm_compute; reflexivity|]. split; [vm_compute; reflexivity|]. split; [eexists; split|]; vm_compute; reflexivity. Qed.

Lemma dns_response_resolves_witness :
  exists s' q' out, DnsSocket.process from_server to_query (response 7 good) socket = Ret s' /\
    DnsSocket.queries s' !! 1%nat = Some (Some q') /\ q_state q' = Completed out /\ as_slice out = [Ipv4 [10; 0; 0; 7]].
Proof.
  destruct (dns_response_resolves network_endian_laws name_laws name_slice_laws result_laws from_server to_query (response 7 good) socket
    1 query pending labels good_records) as (s' & q' & Hp & Hq & Hres).
  - apply bytes_b. vm_compute. reflexivity.
  - vm_compute. reflexivity.
  - apply socket_bytes.
  - reflexivity.
  - reflexivity.
  - split; vm_compute; reflexivity.
  - intros j q0 pq0 Hj H0. destruct j; [discriminate H0|lia].
  - apply good_response.
  - vm_compute. discriminate.
  - apply good_answers.
  - apply good_well_formed.
  - change (take 1 (resolve (response 7 good) good_records labels)) with [Ipv4 [10; 0; 0; 7]] in Hres.
    destruct Hres as (out & Ho & Hs). exists s', q', out. split; [exact Hp|split; [exact Hq|split; [exact Ho|exact Hs]]].
Defined.

Lemma dns_names_decode_witness :
  exists res, collect (S (length the_name + length (response 7 good))) (DnsPacket.parse_name (response 7 good) the_name) = Ret res /\
    match res with
    | Ok ls => name_at (response 7 good) (the_name ++ []) ls /\ labels_wf ls
    | Err _ => forall ls, ~ name_in (response 7 good) the_name ls
    end.
Proof. apply (dns_names_decode (response 7 good) the_name []); apply bytes_b; vm_compute; reflexivity. Defined.
End DnsWitness.
