(* ===== verification/IcmpSocket.v ===== *)
(** * The ICMP socket (src/socket/icmp.rs)

    An ICMP socket is bound to an echo identifier or to the errors about a UDP port.
    Both its buffers hold whole messages, with the address of the peer: [process_v4]
    and [process_v6] write an accepted message out again, [dispatch] parses the
    message of the application and finds the source address.  [IcmpRepr] is that of
    src/wire/icmp.rs. *)

From S2P Require Import Prelude RingBuffer PacketBuffer Time Bytes Octets Phy Ip Ipv4Wire Ipv6Wire Icmpv4Wire Flags Icmpv6Wire NdiscWire MldWire Icmpv6Messages.
From S2P Require Import Cidr Ipv6Source UdpWire TcpTimers Context.
Open Scope Z_scope.

Inductive IcmpBindError := IcmpInvalidState | IcmpBindUnaddressable.
Inductive IcmpSendError := IcmpUnaddressable | IcmpBufferFull.
Inductive IcmpRecvError := IcmpExhausted | IcmpTruncated.

Inductive IcmpEndpoint :=
| EndpointUnspecified
| EndpointIdent (ident : Z)
| EndpointUdp (endpoint : ListenEndpoint).

#[export] Instance IcmpEndpoint_eq_dec : EqDecision IcmpEndpoint.
Proof. solve_decision. Defined.

Definition icmp_is_specified (e : IcmpEndpoint) : bool :=
  match e with
  | EndpointIdent _ => true
  | EndpointUdp endpoint => negb (le_port endpoint =? 0)
  | EndpointUnspecified => false
  end.

Inductive IcmpRepr `{RF : Bitflags ROUTER_FLAGS_ALL, NF : Bitflags NEIGHBOR_FLAGS_ALL} :=
| IcmpIpv4 (r : Icmpv4Repr)
| IcmpIpv6 (r : Icmpv6Repr).

Module IcmpSocket.
Section Socket.
Context {BO : ByteOrder} {BO24 : ByteOrder24} {RF : Bitflags ROUTER_FLAGS_ALL} {NF : Bitflags NEIGHBOR_FLAGS_ALL}.

Record Socket := mkSocket {
  rx_buffer : PacketBuffer Address;
  tx_buffer : PacketBuffer Address;
  endpoint : IcmpEndpoint;
  hop_limit : option Z;
  rx_waker : WakerRegistration;
  tx_waker : WakerRegistration
}.

#[global] Instance eta_Socket : Settable Socket := fun s =>
  mkSocket (rx_buffer s) (tx_buffer s) (endpoint s) (hop_limit s) (rx_waker s) (tx_waker s).

Implicit Types (s : Socket) (cx : Context).

Definition new (rx tx : PacketBuffer Address) : Socket :=
  mkSocket rx tx EndpointUnspecified None WakerRegistration.new WakerRegistration.new.

Definition register_recv_waker (w : Waker) s : Socket := s <| rx_waker ::= WakerRegistration.register w |>.
Definition register_send_waker (w : Waker) s : Socket := s <| tx_waker ::= WakerRegistration.register w |>.

Definition set_hop_limit (limit : option Z) s : outcome Socket :=
  if bool_decide (limit = Some 0) then Panic else Ret (s <| hop_limit := limit |>).

Definition is_open s : bool := bool_decide (endpoint s <> EndpointUnspecified).

Definition bind (e : IcmpEndpoint) s : Socket * result unit IcmpBindError :=
  if negb (icmp_is_specified e) then (s, Err IcmpBindUnaddressable)
  else if is_open s then (s, Err IcmpInvalidState)
  else (s <| endpoint := e |> <| rx_waker ::= WakerRegistration.wake |> <| tx_waker ::= WakerRegistration.wake |>, Ok ()).

Definition can_send s : bool := negb (is_full (tx_buffer s)).
Definition can_recv s : bool := negb (is_empty (rx_buffer s)).
Definition packet_recv_capacity s : nat := packet_capacity (rx_buffer s).
Definition packet_send_capacity s : nat := packet_capacity (tx_buffer s).
Definition payload_recv_capacity s : nat := payload_capacity (rx_buffer s).
Definition payload_send_capacity s : nat := payload_capacity (tx_buffer s).

(** The returned slice is its start and its length in the payload storage. *)
Definition send (size : nat) (e : Address) s : outcome (Socket * result (nat * nat) IcmpSendError) :=
  if Address.is_unspecified e then Ret (s, Err IcmpUnaddressable) else
  '(tx, res) ← enqueue size e (tx_buffer s);
  Ret (s <| tx_buffer := tx |>, match res with Ok buf => Ok buf | Err _ => Err IcmpBufferFull end).

Definition send_with (max_size : nat) (e : Address) (f : list Z -> list Z * nat) s :
    outcome (Socket * result nat IcmpSendError) :=
  if Address.is_unspecified e then Ret (s, Err IcmpUnaddressable) else
  '(tx, res) ← enqueue_with_infallible max_size e f (tx_buffer s);
  Ret (s <| tx_buffer := tx |>, match res with Ok size => Ok size | Err _ => Err IcmpBufferFull end).

Definition send_slice (data : list Z) (e : Address) s : outcome (Socket * result unit IcmpSendError) :=
  '(s, res) ← send (length data) e s;
  match res with
  | Ok buf => tx ← copy_from_slice buf data (tx_buffer s); Ret (s <| tx_buffer := tx |>, Ok ())
  | Err e => Ret (s, Err e)
  end.

(** The message is read through the returned slice. *)
Definition recv s : outcome (Socket * result (list Z * Address) IcmpRecvError) :=
  '(rx, res) ← dequeue (rx_buffer s);
  Ret (s <| rx_buffer := rx |>,
       match res with
       | Ok (e, (start, n)) => Ok (slice (storage (payload_ring rx)) start n, e)
       | Err _ => Err IcmpExhausted
       end).

Definition recv_slice (data : list Z) s : outcome (Socket * result (list Z * nat * Address) IcmpRecvError) :=
  '(s, res) ← recv s;
  match res with
  | Ok (buffer, e) =>
      r ← fill_slice IcmpTruncated data buffer;
      Ret (s, match r with Ok (data, n) => Ok (data, n, e) | Err x => Err x end)
  | Err e => Ret (s, Err e)
  end.

(** The errors about datagrams of a port: [header] and [data] are what the message
    quotes. *)
Definition quotes_port cx (port : Z) (src dst : Address) (data : list Z) : outcome bool :=
  r ← UdpRepr.parse data src dst (cx_checksum_caps cx);
  Ret match r with Ok repr => port =? udp_src_port repr | Err _ => false end.

Definition listens_at (e : ListenEndpoint) (addr : Address) : bool :=
  bool_decide (le_addr e = None) || bool_decide (le_addr e = Some addr).

Definition accepts_v4 cx (ip_repr : IpHeader) (icmp_repr : Icmpv4Repr) s : outcome bool :=
  match endpoint s, icmp_repr with
  | EndpointUdp e, Icmpv4DstUnreachable _ header data | EndpointUdp e, Icmpv4TimeExceeded _ header data =>
      if listens_at e (Ipv4 (ih_dst_addr ip_repr))
      then quotes_port cx (le_port e) (Ipv4 (ih_src_addr header)) (Ipv4 (ih_dst_addr header)) data else Ret false
  | EndpointIdent bound_ident, Icmpv4EchoRequest ident _ _ | EndpointIdent bound_ident, Icmpv4EchoReply ident _ _ =>
      Ret (ident =? bound_ident)
  | _, _ => Ret false
  end.

Definition accepts_v6 cx (ip_repr : IpHeader) (icmp_repr : Icmpv6Repr) s : outcome bool :=
  match endpoint s, icmp_repr with
  | EndpointUdp e, Icmpv6DstUnreachable _ header data | EndpointUdp e, Icmpv6TimeExceeded _ header data =>
      if listens_at e (Ipv6 (ih_dst_addr ip_repr))
      then quotes_port cx (le_port e) (Ipv6 (ih_src_addr header)) (Ipv6 (ih_dst_addr header)) data else Ret false
  | EndpointIdent bound_ident, Icmpv6EchoRequest ident _ _ | EndpointIdent bound_ident, Icmpv6EchoReply ident _ _ =>
      Ret (ident =? bound_ident)
  | _, _ => Ret false
  end.

(** The message is emitted into the slice of the receive buffer. *)
Definition receive (len : nat) (src : Address) (emit : list Z -> outcome (list Z)) s : outcome Socket :=
  '(rx, res) ← enqueue len src (rx_buffer s);
  rx ← match res with
       | Ok (start, n) =>
           buf ← emit (slice (storage (payload_ring rx)) start n);
           Ret (write_payload start buf rx)
       | Err _ => Ret rx
       end;
  Ret (s <| rx_buffer := rx |> <| rx_waker ::= WakerRegistration.wake |>).

Definition process_v4 (ip_repr : IpHeader) (icmp_repr : Icmpv4Repr) s : outcome Socket :=
  receive (Icmpv4Repr.buffer_len icmp_repr) (Ipv4 (ih_src_addr ip_repr))
    (Icmpv4Repr.emit icmp_repr ChecksumCapabilities.default) s.

Definition process_v6 (ip_repr : IpHeader) (icmp_repr : Icmpv6Repr) s : outcome Socket :=
  receive (Icmpv6Repr.buffer_len icmp_repr) (Ipv6 (ih_src_addr ip_repr))
    (fun buf => Icmpv6Repr.emit icmp_repr (ih_src_addr ip_repr) (ih_dst_addr ip_repr) buf ChecksumCapabilities.default) s.

Section Dispatch.
Context {E : Type}.
Variable emit : Context -> IpRepr * IcmpRepr -> outcome (Context * result unit E).

(** The closure given to [dequeue_with]: the message, which it leaves alone, and the
    result of [emit] when it is called. *)
Definition send_message cx (limit : Z) (remote_endpoint : Address) (packet_buf : list Z) :
    outcome (Address * list Z * result Context (Context * E)) :=
  let send (ip : IpRepr) (icmp : IcmpRepr) :=
    '(cx, res) ← emit cx (ip, icmp);
    Ret (remote_endpoint, packet_buf, match res with Ok _ => Ok cx | Err e => Err (cx, e) end) in
  match remote_endpoint with
  | Ipv4 dst_addr =>
      match first_ipv4 (cx_ip_addrs cx) with
      | None => Ret (remote_endpoint, packet_buf, Ok cx)
      | Some src_addr =>
          parsed ← Icmpv4Repr.parse packet_buf ChecksumCapabilities.ignored;
          match parsed with
          | Err _ => Ret (remote_endpoint, packet_buf, Ok cx)
          | Ok repr =>
              send (ReprIpv4 (mkIpHeader src_addr dst_addr Protocol.Icmp (Icmpv4Repr.buffer_len repr) limit)) (IcmpIpv4 repr)
          end
      end
  | Ipv6 dst_addr =>
      src_addr ← get_source_address_ipv6 (cx_ip_addrs cx) dst_addr;
      parsed ← Icmpv6Repr.parse src_addr dst_addr packet_buf ChecksumCapabilities.ignored;
      match parsed with
      | Err _ => Ret (remote_endpoint, packet_buf, Ok cx)
      | Ok repr =>
          send (ReprIpv6 (mkIpHeader src_addr dst_addr Protocol.Icmpv6 (Icmpv6Repr.buffer_len repr) limit)) (IcmpIpv6 repr)
      end
  end.

Definition dispatch s cx : outcome (Socket * Context * result unit E) :=
  let limit := default 64 (hop_limit s) in
  '(tx, res) ← dequeue_with (fun e buffer => send_message cx limit e buffer) (tx_buffer s);
  let s := s <| tx_buffer := tx |> in
  Ret match res with
      | Err _ => (s, cx, Ok ())
      | Ok (Err (cx, e)) => (s, cx, Err e)
      | Ok (Ok cx) => (s <| tx_waker ::= WakerRegistration.wake |>, cx, Ok ())
      end.
End Dispatch.

Definition poll_at (_ : Context) s : PollAt := if is_empty (tx_buffer s) then PollIngress else PollNow.
End Socket.
End IcmpSocket.
