(* ===== verification/IcmpSpec.v ===== *)
(** * The ICMP socket refines two queues of messages

    The application reads the messages the socket is bound to, in the order they
    arrived, each as octets that parse to the message; the device is offered the
    messages of the application in the order they were sent, with the source address
    the interface has for their destination. *)

From S2P Require Import Prelude RingBuffer PacketBuffer Time Bytes Octets Phy Ip LinkLayer Ipv4Wire Ipv6Wire Icmpv4Wire Flags Icmpv6Wire NdiscWire MldWire.
From S2P Require Import Icmpv6Messages NdiscProps Icmpv6Props Cidr Ipv6Source UdpWire TcpTimers Context IcmpSocket.
Import IcmpSocket.
Open Scope Z_scope.

Implicit Types (cx : Context) (p data : list Z) (ip : IpHeader) (a : Address).

Section Spec.
Context {BO : ByteOrder} {BO24 : ByteOrder24} {RF : Bitflags ROUTER_FLAGS_ALL} {NF : Bitflags NEIGHBOR_FLAGS_ALL}.

(** ** Messages *)

(** The source and the destination of a message that arrives. *)
Definition from_of ip (r : IcmpRepr) : Address :=
  match r with IcmpIpv4 _ => Ipv4 (ih_src_addr ip) | IcmpIpv6 _ => Ipv6 (ih_src_addr ip) end.

Definition to_of ip (r : IcmpRepr) : Address :=
  match r with IcmpIpv4 _ => Ipv4 (ih_dst_addr ip) | IcmpIpv6 _ => Ipv6 (ih_dst_addr ip) end.

(** The identifier of an echo message. *)
Definition ident_of (r : IcmpRepr) : option Z :=
  match r with
  | IcmpIpv4 (Icmpv4EchoRequest ident _ _) | IcmpIpv4 (Icmpv4EchoReply ident _ _)
  | IcmpIpv6 (Icmpv6EchoRequest ident _ _) | IcmpIpv6 (Icmpv6EchoReply ident _ _) => Some ident
  | _ => None
  end.

(** What an error that may be about a datagram quotes: its addresses and its octets. *)
Definition quoted_of (r : IcmpRepr) : option (Address * Address * list Z) :=
  match r with
  | IcmpIpv4 (Icmpv4DstUnreachable _ h data) | IcmpIpv4 (Icmpv4TimeExceeded _ h data) =>
      Some (Ipv4 (ih_src_addr h), Ipv4 (ih_dst_addr h), data)
  | IcmpIpv6 (Icmpv6DstUnreachable _ h data) | IcmpIpv6 (Icmpv6TimeExceeded _ h data) =>
      Some (Ipv6 (ih_src_addr h), Ipv6 (ih_dst_addr h), data)
  | _ => None
  end.

(** The messages an endpoint is for. *)
Definition wanted cx (e : IcmpEndpoint) ip (r : IcmpRepr) : Prop :=
  match e with
  | EndpointUnspecified => False
  | EndpointIdent ident => ident_of r = Some ident
  | EndpointUdp e => exists src dst data udp, quoted_of r = Some (src, dst, data) /\
      (le_addr e = None \/ le_addr e = Some (to_of ip r)) /\
      UdpRepr.parse data src dst (cx_checksum_caps cx) = Ret (Ok udp) /\ udp_src_port udp = le_port e
  end.

(** The octets of a message that came from [src] and went to [dst], checksum included. *)
Definition octets_of_message ip (r : IcmpRepr) p : Prop :=
  match r with
  | IcmpIpv4 r => Icmpv4Repr.parse p ChecksumCapabilities.default = Ret (Ok r)
  | IcmpIpv6 r => Icmpv6Repr.parse (ih_src_addr ip) (ih_dst_addr ip) p ChecksumCapabilities.default = Ret (Ok r)
  end.

(** The packet that carries the octets [p] to [a]. *)
Inductive carries cx (limit : Z) : Address -> list Z -> IpRepr * IcmpRepr -> Prop :=
| carries4 src dst p r : first_ipv4 (cx_ip_addrs cx) = Some src -> Icmpv4Repr.parse p ChecksumCapabilities.ignored = Ret (Ok r) ->
    carries cx limit (Ipv4 dst) p (ReprIpv4 (mkIpHeader src dst Protocol.Icmp (Icmpv4Repr.buffer_len r) limit), IcmpIpv4 r)
| carries6 src dst p r : get_source_address_ipv6 (cx_ip_addrs cx) dst = Ret src ->
    Icmpv6Repr.parse src dst p ChecksumCapabilities.ignored = Ret (Ok r) ->
    carries cx limit (Ipv6 dst) p (ReprIpv6 (mkIpHeader src dst Protocol.Icmpv6 (Icmpv6Repr.buffer_len r) limit), IcmpIpv6 r).

(** ** Operations *)

Inductive icmp_op :=
| IcmpHopLimit (limit : option Z)
| IcmpBind (e : IcmpEndpoint)
| IcmpSend (data : list Z) (to : Address)
| IcmpRecv (data : list Z)
| IcmpArrive (ip : IpHeader) (r : IcmpRepr)
| IcmpDispatch (takes : bool).

Inductive icmp_answer :=
| IcmpDone
| IcmpNotBound (e : IcmpBindError)
| IcmpNotSent (e : IcmpSendError)
| IcmpData (data : list Z) (n : nat) (from : Address)
| IcmpNoData (e : IcmpRecvError)
| IcmpOffered (d : IpRepr * IcmpRepr)
| IcmpIdle.

(** A device that takes the packet or refuses it, reporting it as its error. *)
Definition icmp_device (takes : bool) cx (d : IpRepr * IcmpRepr) : outcome (Context * result unit (IpRepr * IcmpRepr)) :=
  Ret (cx, if takes then Ok () else Err d).

Definition icmp_offered (s : Socket) cx : icmp_answer :=
  match dispatch (icmp_device false) s cx with Ret (_, _, Err d) => IcmpOffered d | _ => IcmpIdle end.

(** The message is offered to the socket, and processed when it accepts it. *)
Definition icmp_arrive cx ip (r : IcmpRepr) (s : Socket) : outcome Socket :=
  match r with
  | IcmpIpv4 r => ok ← accepts_v4 cx ip r s; if ok : bool then process_v4 ip r s else Ret s
  | IcmpIpv6 r => ok ← accepts_v6 cx ip r s; if ok : bool then process_v6 ip r s else Ret s
  end.

Definition icmp_exec cx (op : icmp_op) (s : Socket) : outcome (Socket * icmp_answer) :=
  match op with
  | IcmpHopLimit limit => s ← set_hop_limit limit s; Ret (s, IcmpDone)
  | IcmpBind e => let '(s, r) := bind e s in Ret (s, match r with Ok _ => IcmpDone | Err e => IcmpNotBound e end)
  | IcmpSend data to => '(s, r) ← send_slice data to s; Ret (s, match r with Ok _ => IcmpDone | Err e => IcmpNotSent e end)
  | IcmpRecv data =>
      '(s, r) ← recv_slice data s; Ret (s, match r with Ok (data, n, a) => IcmpData data n a | Err e => IcmpNoData e end)
  | IcmpArrive ip r => s ← icmp_arrive cx ip r s; Ret (s, IcmpDone)
  | IcmpDispatch takes => '(s', _, _) ← dispatch (icmp_device takes) s cx; Ret (s', icmp_offered s cx)
  end.

Fixpoint icmp_run cx (ops : list icmp_op) (s : Socket) : outcome (Socket * list icmp_answer) :=
  match ops with
  | [] => Ret (s, [])
  | op :: ops => '(s, a) ← icmp_exec cx op s; '(s, l) ← icmp_run cx ops s; Ret (s, a :: l)
  end.

(** ** The abstract socket *)

Record icmp_state := mkIcmp {
  i_endpoint : IcmpEndpoint;
  i_limit : Z;
  i_rx : list (Address * list Z);
  i_tx : list (Address * list Z)
}.

Definition icmp_abs (s : Socket) : icmp_state :=
  mkIcmp (endpoint s) (default 64 (hop_limit s)) (packets (rx_buffer s)) (packets (tx_buffer s)).

Definition icmp_filled data p a : icmp_answer :=
  if (length data <? length p)%nat then IcmpNoData IcmpTruncated else IcmpData (p ++ drop (length p) data) (length p) a.

Inductive icmp_step cx : icmp_state -> icmp_op -> icmp_answer -> icmp_state -> Prop :=
| is_limit e n rx tx limit : icmp_step cx (mkIcmp e n rx tx) (IcmpHopLimit limit) IcmpDone (mkIcmp e (default 64 limit) rx tx)
| is_bind n rx tx e : icmp_is_specified e = true ->
    icmp_step cx (mkIcmp EndpointUnspecified n rx tx) (IcmpBind e) IcmpDone (mkIcmp e n rx tx)
| is_bind_nothing u e : icmp_is_specified e = false -> icmp_step cx u (IcmpBind e) (IcmpNotBound IcmpBindUnaddressable) u
| is_bind_again u e : icmp_is_specified e = true -> i_endpoint u <> EndpointUnspecified ->
    icmp_step cx u (IcmpBind e) (IcmpNotBound IcmpInvalidState) u
| is_send e n rx tx data a : Address.is_unspecified a = false ->
    icmp_step cx (mkIcmp e n rx tx) (IcmpSend data a) IcmpDone (mkIcmp e n rx (tx ++ [(a, data)]))
| is_send_nowhere u data a : Address.is_unspecified a = true -> icmp_step cx u (IcmpSend data a) (IcmpNotSent IcmpUnaddressable) u
| is_send_full u data a : Address.is_unspecified a = false -> icmp_step cx u (IcmpSend data a) (IcmpNotSent IcmpBufferFull) u
| is_recv e n rx tx data a p :
    icmp_step cx (mkIcmp e n ((a, p) :: rx) tx) (IcmpRecv data) (icmp_filled data p a) (mkIcmp e n rx tx)
| is_recv_empty e n tx data : icmp_step cx (mkIcmp e n [] tx) (IcmpRecv data) (IcmpNoData IcmpExhausted) (mkIcmp e n [] tx)
| is_arrive e n rx tx ip r p : wanted cx e ip r -> octets_of_message ip r p ->
    icmp_step cx (mkIcmp e n rx tx) (IcmpArrive ip r) IcmpDone (mkIcmp e n (rx ++ [(from_of ip r, p)]) tx)
| is_arrive_full u ip r : wanted cx (i_endpoint u) ip r -> icmp_step cx u (IcmpArrive ip r) IcmpDone u
| is_arrive_other u ip r : ~ wanted cx (i_endpoint u) ip r -> icmp_step cx u (IcmpArrive ip r) IcmpDone u
| is_offer e n rx tx a p d takes : carries cx n a p d ->
    icmp_step cx (mkIcmp e n rx ((a, p) :: tx)) (IcmpDispatch takes) (IcmpOffered d) (mkIcmp e n rx (if takes then tx else (a, p) :: tx))
| is_drop e n rx tx a p takes : (forall d, ~ carries cx n a p d) ->
    icmp_step cx (mkIcmp e n rx ((a, p) :: tx)) (IcmpDispatch takes) IcmpIdle (mkIcmp e n rx tx)
| is_idle e n rx takes : icmp_step cx (mkIcmp e n rx []) (IcmpDispatch takes) IcmpIdle (mkIcmp e n rx []).

Inductive icmp_steps cx : icmp_state -> list icmp_op -> list icmp_answer -> icmp_state -> Prop :=
| icmp_steps_nil u : icmp_steps cx u [] [] u
| icmp_steps_cons u op x u1 ops l u2 :
    icmp_step cx u op x u1 -> icmp_steps cx u1 ops l u2 -> icmp_steps cx u (op :: ops) (x :: l) u2.

(** ** The invariant *)

(** What the application sends: octets to an address of its family. *)
Definition icmp_sent (m : Address * list Z) : Prop :=
  address_wf m.1 /\ Address.is_unspecified m.1 = false /\ bytes m.2 /\ Z.of_nat (length m.2) <= 131000.

Record icmp_inv (s : Socket) : Prop := {
  ii_rx : pb_wf (rx_buffer s);
  ii_tx : pb_wf (tx_buffer s);
  ii_storage : bytes (storage (payload_ring (rx_buffer s)));
  ii_sent : Forall icmp_sent (packets (tx_buffer s))
}.
End Spec.

Section Refinement.
Context {BO : ByteOrder} {NE : NetworkEndian BO} {BO24 : ByteOrder24} {NE24 : NetworkEndian24 BO24}.
Context {RF : Bitflags ROUTER_FLAGS_ALL} {NF : Bitflags NEIGHBOR_FLAGS_ALL} {RFL : BitflagsLaws RF} {NFL : BitflagsLaws NF}.
Implicit Types (s : Socket) (r : IcmpRepr).

(** A message as the interface parsed it, with addresses of its version. *)
Definition message_wf ip r : Prop :=
  address_wf (from_of ip r) /\ address_wf (to_of ip r) /\
  match r with
  | IcmpIpv4 r => icmpv4_repr_wf r /\ icmpv4_canonical r
  | IcmpIpv6 r => icmpv6_wf r /\ Z.of_nat (Icmpv6Repr.buffer_len r) <= 131000
  end.

Definition icmp_admissible (op : icmp_op) : Prop :=
  match op with
  | IcmpHopLimit limit => limit <> Some 0
  | IcmpSend data a => address_wf a /\ bytes data /\ Z.of_nat (length data) <= 131000
  | IcmpArrive ip r => message_wf ip r
  | _ => True
  end.

(** ** Acceptance *)

Lemma udp_repr_parse_total data src dst caps : bytes data -> address_wf src -> address_wf dst -> same_family src dst ->
  exists res, UdpRepr.parse data src dst caps = Ret res.
Proof.
  intros Hb Hs Hd Hf. destruct (udp_parse_ok data src dst caps Hb Hs Hd Hf) as (res & Hr & _).
  unfold UdpPacket.new_checked in Hr. exists res. rewrite <- Hr.
  destruct (UdpPacket.check_len data) as [[[]|e]|] eqn:Hc; cbn [try_bind]; [done|by unfold UdpRepr.parse; rewrite Hc..].
Qed.

(** What a well-formed message quotes. *)
Lemma quoted_wf ip r src dst data : message_wf ip r -> quoted_of r = Some (src, dst, data) ->
  bytes data /\ address_wf src /\ address_wf dst /\ same_family src dst.
Proof.
  intros (_ & _ & Hr). destruct r as [[]|[]]; cbn in *; try done; intros [= <- <- <-].
  1-2: destruct Hr as [(_ & (Hs & Hd & _) & Hb & _) _]; done.
  1-2: destruct Hr as [(_ & _ & Hh & Hb & _) _]; split_and!; try done; apply Hh.
Qed.

Definition icmp_accepts cx ip r s : outcome bool :=
  match r with IcmpIpv4 r => accepts_v4 cx ip r s | IcmpIpv6 r => accepts_v6 cx ip r s end.

Lemma accepts_quoted cx ip r s e : endpoint s = EndpointUdp e ->
  icmp_accepts cx ip r s =
    match quoted_of r with
    | Some (src, dst, data) => if listens_at e (to_of ip r) then quotes_port cx (le_port e) src dst data else Ret false
    | None => Ret false
    end.
Proof. intros He. destruct r as [[]|[]]; cbn [icmp_accepts]; unfold accepts_v4, accepts_v6; by rewrite He. Qed.

Lemma accepts_ident cx ip r s i : endpoint s = EndpointIdent i ->
  icmp_accepts cx ip r s = Ret match ident_of r with Some ident => ident =? i | None => false end.
Proof. intros He. destruct r as [[]|[]]; cbn [icmp_accepts]; unfold accepts_v4, accepts_v6; by rewrite He. Qed.

(** The socket accepts the messages it is bound to. *)
Lemma icmp_accepts_ok cx ip r s : message_wf ip r ->
  exists ok, icmp_accepts cx ip r s = Ret ok /\ (ok = true <-> wanted cx (endpoint s) ip r).
Proof.
  intros Hwf. destruct (endpoint s) as [|i|e] eqn:He; cbn [wanted].
  - exists false. split; [|done]. destruct r as [[]|[]]; cbn [icmp_accepts]; unfold accepts_v4, accepts_v6; by rewrite He.
  - rewrite (accepts_ident _ _ _ _ _ He). eexists. split; [done|]. destruct (ident_of r) as [ident|]; [|by split].
    rewrite Z.eqb_eq. split; congruence.
  - rewrite (accepts_quoted _ _ _ _ _ He). destruct (quoted_of r) as [[[src dst] data]|] eqn:Hq.
    2: { exists false. split; [done|]. split; [done|]. intros (? & ? & ? & ? & [=] & _). }
    destruct (quoted_wf _ _ _ _ _ Hwf Hq) as (Hb & Hs & Hd & Hf).
    destruct (udp_repr_parse_total data src dst (cx_checksum_caps cx) Hb Hs Hd Hf) as [res Hres].
    assert (listens_at e (to_of ip r) = true <-> le_addr e = None \/ le_addr e = Some (to_of ip r)) as Hla
      by (unfold listens_at; by rewrite orb_true_iff, !bool_decide_eq_true).
    unfold quotes_port. rewrite Hres. cbn [mbind outcome_bind]. destruct (listens_at e (to_of ip r)).
    + eexists. split; [done|]. destruct res as [u|]; [rewrite Z.eqb_eq; split|split; [done|]].
      * intros ->. exists src, dst, data, u. split_and!; [done|by apply Hla|done..].
      * intros (? & ? & ? & ? & [= <- <- <-] & _ & Hp & ?). rewrite Hres in Hp. by injection Hp as <-.
      * intros (? & ? & ? & ? & [= <- <- <-] & _ & Hp & ?). rewrite Hres in Hp. done.
    + exists false. split; [done|]. split; [done|]. intros (? & ? & ? & ? & _ & Hl & _). by apply Hla in Hl.
Qed.

(** ** Arrival *)

(** The octets of an ICMPv4 message. *)
Lemma icmpv4_emitted_bytes (r : Icmpv4Repr) caps packet packet' : icmpv4_repr_wf r -> bytes packet -> length packet = Icmpv4Repr.buffer_len r ->
  Icmpv4Repr.emit r caps packet = Ret packet' -> bytes packet'.
Proof.
  intros Hr Hb Hl. destruct (icmpv4_emit_octets r caps packet Hr Hb Hl) as (old & Ho & Hob & ->). intros [= <-].
  destruct (icmp_parts_wf r caps old Hr Ho Hob) as (Hrl & _ & Hsum).
  assert (byte (icmp_type r)) as Ht by (destruct r; unfold byte; cbn; lia). pose proof (proj1 Hr) as Hcode.
  assert (word (if Checksum.tx (caps_icmpv4 caps) then icmp_checksum (icmp_type r) (icmp_code r) (icmp_rest r old) (icmp_body r caps) else 0)) as Hc
    by (destruct (Checksum.tx _); [by apply icmp_checksum_word|unfold word; lia]).
  by apply summable_check.
Qed.

Definition icmp_len r : nat :=
  match r with IcmpIpv4 r => Icmpv4Repr.buffer_len r | IcmpIpv6 r => Icmpv6Repr.buffer_len r end.

Definition icmp_emit ip r (buf : list Z) : outcome (list Z) :=
  match r with
  | IcmpIpv4 r => Icmpv4Repr.emit r ChecksumCapabilities.default buf
  | IcmpIpv6 r => Icmpv6Repr.emit r (ih_src_addr ip) (ih_dst_addr ip) buf ChecksumCapabilities.default
  end.

Lemma icmp_emit_ok ip r buf : message_wf ip r -> bytes buf -> length buf = icmp_len r ->
  exists p, icmp_emit ip r buf = Ret p /\ length p = length buf /\ bytes p /\ octets_of_message ip r p.
Proof.
  intros (Hs & Hd & Hr) Hb Hl. destruct r as [r|r]; cbn [icmp_emit icmp_len octets_of_message from_of to_of] in *.
  - destruct Hr as [Hr Hc]. destruct (icmpv4_emit_parse_ok NE r ChecksumCapabilities.default ChecksumCapabilities.default buf Hr Hc Hb Hl)
      as (p & He & Hlp & Hp); [done|]. exists p. split_and!; try done. by eapply icmpv4_emitted_bytes.
  - destruct Hr as [Hr Hn]. destruct (icmpv6_emit_parse_ok r (ih_src_addr ip) (ih_dst_addr ip) buf ChecksumCapabilities.default Hr)
      as (p & He & Hlp & Hbp & Hp); try done; [lia|]. by exists p.
Qed.

Lemma icmp_receive_ok ip r s : icmp_inv s -> message_wf ip r ->
  exists s' rx res, enqueue (icmp_len r) (from_of ip r) (rx_buffer s) = Ret (rx, res) /\
    receive (icmp_len r) (from_of ip r) (icmp_emit ip r) s = Ret s' /\ icmp_inv s' /\
    exists p, octets_of_message ip r p /\ length p = icmp_len r /\
      icmp_abs s' = mkIcmp (endpoint s) (default 64 (hop_limit s))
        (packets (rx_buffer s) ++ if is_ok res then [(from_of ip r, p)] else []) (packets (tx_buffer s)).
Proof.
  intros [Hrx Htx Hst Hpk] Hwf. unfold receive.
  destruct (enqueue_ok (icmp_len r) (from_of ip r) _ Hrx) as ([rx [[start n]|e]] & He & Hpost); rewrite He;
    cbn [mbind outcome_bind enqueue_post] in *.
  - destruct (enqueue_bounds _ _ _ _ _ _ He) as [-> Hbd]. destruct Hpost as [_ Hw]. apply enqueue_storage in He.
    destruct (icmp_emit_ok ip r (slice (storage (payload_ring rx)) start (icmp_len r)) Hwf) as (p & Hep & Hlp & Hbp & Hp);
      [rewrite He; by apply bytes_slice|rewrite length_slice; lia|].
    rewrite Hep. cbn [mbind outcome_bind]. rewrite length_slice in Hlp. destruct (Hw p) as [Hwfp Hq]; [lia|].
    do 3 eexists. split; [done|]. split; [done|]. split.
    + constructor; cbn; try done. rewrite He. by apply bytes_splice.
    + exists p. split; [done|]. split; [lia|]. unfold icmp_abs. cbn [set_field rx_buffer tx_buffer endpoint hop_limit]. by rewrite Hq.
  - destruct Hpost as [Hwfp Hq]. apply enqueue_storage in He. do 3 eexists. split; [done|]. split; [done|]. split.
    + constructor; cbn; try done. by rewrite He.
    + destruct (icmp_emit_ok ip r (replicate (icmp_len r) 0) Hwf) as (p & _ & Hlp & _ & Hp);
        [apply Forall_replicate; unfold byte; lia|apply length_replicate|].
      exists p. split; [done|]. split; [by rewrite Hlp, length_replicate|]. unfold icmp_abs. cbn. by rewrite Hq, app_nil_r.
Qed.

Lemma icmp_arrive_is cx ip r s :
  icmp_arrive cx ip r s =
    (ok ← icmp_accepts cx ip r s; if ok : bool then receive (icmp_len r) (from_of ip r) (icmp_emit ip r) s else Ret s).
Proof. by destruct r. Qed.

Lemma icmp_arrive_ok cx ip r s : icmp_inv s -> message_wf ip r ->
  exists s' x, icmp_exec cx (IcmpArrive ip r) s = Ret (s', x) /\ icmp_inv s' /\
    icmp_step cx (icmp_abs s) (IcmpArrive ip r) x (icmp_abs s').
Proof.
  intros Hinv Hwf. cbn [icmp_exec]. rewrite icmp_arrive_is. destruct (icmp_accepts_ok cx ip r s Hwf) as (ok & -> & Hok).
  cbn [mbind outcome_bind]. destruct ok.
  - destruct (icmp_receive_ok ip r s Hinv Hwf) as (s' & rx & res & _ & -> & Hinv' & p & Hp & _ & Habs). cbn [mbind outcome_bind].
    do 2 eexists. split; [done|]. split; [done|]. rewrite Habs. assert (wanted cx (endpoint s) ip r) as Hwant by by apply Hok.
    destruct (is_ok res); [by apply is_arrive|]. rewrite app_nil_r. by apply is_arrive_full.
  - cbn [mbind outcome_bind]. do 2 eexists. split; [done|]. split; [done|]. apply is_arrive_other. intros H. by apply Hok in H.
Qed.

(** ** Dispatch *)

Section Dispatch.
Variable cx : Context.
Hypothesis Haddrs : Forall cidr_wf (cx_ip_addrs cx).

(** The packet that carries a message is determined by it. *)
Lemma carries_det limit a p d d' : carries cx limit a p d -> carries cx limit a p d' -> d = d'.
Proof. intros H H'. destruct H; inversion H'; subst; congruence. Qed.

(** The closure of [dispatch] hands the packet over, or drops what is no message or
    has no source address. *)
Lemma send_message_ok limit a p : icmp_sent (a, p) ->
  (exists d, carries cx limit a p d /\ forall E (emit : Context -> IpRepr * IcmpRepr -> outcome (Context * result unit E)),
     send_message emit cx limit a p = ('(cx, res) ← emit cx d; Ret (a, p, match res with Ok _ => Ok cx | Err e => Err (cx, e) end))) \/
  ((forall d, ~ carries cx limit a p d) /\ forall E (emit : Context -> IpRepr * IcmpRepr -> outcome (Context * result unit E)),
     send_message emit cx limit a p = Ret (a, p, Ok cx)).
Proof.
  intros (Ha & Hu & Hb & Hl). cbn in Ha, Hu, Hb, Hl. unfold send_message. destruct a as [dst|dst].
  - destruct (first_ipv4 (cx_ip_addrs cx)) as [src|] eqn:Hsrc; [|right; split; [|done]; intros d Hd; inversion Hd; congruence].
    destruct (icmpv4_parse_ok NE p ChecksumCapabilities.ignored) as (res & Hp & _); [split; [done|lia]|].
    rewrite Hp. cbn [mbind outcome_bind]. destruct res as [r|]; [left|right; split; [|done]; intros d Hd; inversion Hd; congruence].
    eexists. split; [by apply carries4|done].
  - destruct (source_address_total (cx_ip_addrs cx) dst Haddrs Hu) as (src & Hsrc & Hws). rewrite Hsrc. cbn [mbind outcome_bind].
    pose proof (icmpv6_parse_ok src dst p ChecksumCapabilities.ignored Hws Ha Hb Hl) as Hp.
    destruct (Icmpv6Repr.parse src dst p ChecksumCapabilities.ignored) as [[r|]|] eqn:Hpr; [left|right|done].
    + eexists. split; [by apply carries6|done].
    + split; [|done]. intros d Hd. inversion Hd. congruence.
Qed.

(** What [dispatch] does with the message at the front, whatever the device. *)
Lemma icmp_dispatch_ok s : icmp_inv s ->
  match packets (tx_buffer s) with
  | [] => forall E (emit : Context -> IpRepr * IcmpRepr -> outcome (Context * result unit E)),
      exists s', dispatch emit s cx = Ret (s', cx, Ok ()) /\ icmp_inv s' /\ icmp_abs s' = icmp_abs s
  | (a, p) :: l =>
      (exists d, carries cx (default 64 (hop_limit s)) a p d /\
         forall E (emit : Context -> IpRepr * IcmpRepr -> outcome (Context * result unit E)) cx' res, emit cx d = Ret (cx', res) ->
         exists s', dispatch emit s cx = Ret (s', cx', res) /\ icmp_inv s' /\
           icmp_abs s' = mkIcmp (endpoint s) (default 64 (hop_limit s)) (packets (rx_buffer s)) (if is_ok res then l else (a, p) :: l)) \/
      ((forall d, ~ carries cx (default 64 (hop_limit s)) a p d) /\
         forall E (emit : Context -> IpRepr * IcmpRepr -> outcome (Context * result unit E)),
         exists s', dispatch emit s cx = Ret (s', cx, Ok ()) /\ icmp_inv s' /\
           icmp_abs s' = mkIcmp (endpoint s) (default 64 (hop_limit s)) (packets (rx_buffer s)) l)
  end.
Proof.
  intros [Hrx Htx Hst Hpk]. unfold dispatch. set (limit := default 64 (hop_limit s)).
  assert (forall (E : Type) (emit : Context -> IpRepr * IcmpRepr -> outcome (Context * result unit E)), _)
    as Hd by exact (fun E emit => dequeue_with_ok (fun e buffer => send_message emit cx limit e buffer) _ Htx).
  destruct (packets (tx_buffer s)) as [|[a p] l] eqn:Hl.
  { intros E emit. destruct (Hd E emit) as (tx & -> & Hwf & Hq). eexists. split; [done|]. split; [constructor; cbn; try done; by rewrite Hq|].
    unfold icmp_abs. cbn. by rewrite Hq, Hl. }
  apply Forall_cons_1 in Hpk as [Hp Hpk]. destruct (send_message_ok limit a p Hp) as [(d & Hc & Hcl)|[Hn Hcl]]; [left; exists d|right]; (split; [done|]); intros E emit.
  - intros cx' res Hem. specialize (Hcl E emit). rewrite Hem in Hcl. cbn [mbind outcome_bind] in Hcl.
    destruct (Hd E emit a p _ Hcl eq_refl) as (tx & -> & Hwf & Hq). cbn [mbind outcome_bind].
    destruct res as [[]|e]; cbn [is_ok] in *; eexists; (split; [done|]); unfold icmp_abs; cbn [set_field rx_buffer tx_buffer endpoint hop_limit]; rewrite Hq;
      (split; [|done]); constructor; cbn; try done; rewrite Hq; [done|by apply Forall_cons_2].
  - destruct (Hd E emit a p _ (Hcl E emit) eq_refl) as (tx & -> & Hwf & Hq). cbn [mbind outcome_bind is_ok] in *.
    eexists. split; [done|]. unfold icmp_abs. cbn [set_field rx_buffer tx_buffer endpoint hop_limit]. rewrite Hq. split; [|done].
    constructor; cbn; try done. by rewrite Hq.
Qed.

Lemma icmp_dispatch_step takes s : icmp_inv s ->
  exists s' x, icmp_exec cx (IcmpDispatch takes) s = Ret (s', x) /\ icmp_inv s' /\
    icmp_step cx (icmp_abs s) (IcmpDispatch takes) x (icmp_abs s').
Proof.
  intros Hinv. cbn [icmp_exec]. unfold icmp_offered. pose proof (icmp_dispatch_ok s Hinv) as Hd. unfold icmp_abs at 1.
  destruct (packets (tx_buffer s)) as [|[a p] l] eqn:Hl.
  - destruct (Hd _ (icmp_device takes)) as (s' & -> & Hinv' & Habs), (Hd _ (icmp_device false)) as (s2 & -> & _). cbn [mbind outcome_bind].
    do 2 eexists. split; [done|]. split; [done|]. rewrite Habs. unfold icmp_abs. rewrite Hl. apply is_idle.
  - destruct Hd as [(d & Hc & Hd)|[Hn Hd]].
    + destruct (Hd _ (icmp_device takes) cx _ eq_refl) as (s' & -> & Hinv' & Habs), (Hd _ (icmp_device false) cx _ eq_refl) as (s2 & -> & _).
      cbn [mbind outcome_bind]. do 2 eexists. split; [done|]. split; [done|]. rewrite Habs.
      replace (if is_ok _ then l else _) with (if takes then l else (a, p) :: l) by by destruct takes. by apply is_offer.
    + destruct (Hd _ (icmp_device takes)) as (s' & -> & Hinv' & Habs), (Hd _ (icmp_device false)) as (s2 & -> & _). cbn [mbind outcome_bind].
      do 2 eexists. split; [done|]. split; [done|]. rewrite Habs. by apply is_drop.
Qed.
End Dispatch.

(** ** The calls of the application *)

Lemma icmp_send_ok cx data a s : icmp_inv s -> icmp_admissible (IcmpSend data a) ->
  exists s' x, icmp_exec cx (IcmpSend data a) s = Ret (s', x) /\ icmp_inv s' /\ icmp_step cx (icmp_abs s) (IcmpSend data a) x (icmp_abs s').
Proof.
  intros [Hrx Htx Hst Hpk] (Ha & Hb & Hl). cbn [icmp_exec]. unfold send_slice, send.
  destruct (Address.is_unspecified a) eqn:Hu; [do 2 eexists; split; [done|]; split; [done|]; by apply is_send_nowhere|].
  destruct (enqueue_copy_ok data a _ Htx) as (tx & res & -> & Hpost). cbn [mbind outcome_bind]. destruct res as [buf|e].
  - destruct Hpost as (tx' & Hcp & Hwf & Hpk'). cbn. rewrite Hcp. cbn [mbind outcome_bind].
    do 2 eexists. split; [done|]. split.
    + constructor; cbn; try done. rewrite Hpk'. apply Forall_app_2; [done|]. by apply Forall_singleton.
    + unfold icmp_abs. cbn. rewrite Hpk'. by apply is_send.
  - destruct Hpost as [Hwf Hpk']. cbn. do 2 eexists. split; [done|]. split.
    + constructor; cbn; try done. by rewrite Hpk'.
    + unfold icmp_abs. cbn. rewrite Hpk'. by apply is_send_full.
Qed.

Lemma icmp_recv_ok cx data s : icmp_inv s ->
  exists s' x, icmp_exec cx (IcmpRecv data) s = Ret (s', x) /\ icmp_inv s' /\ icmp_step cx (icmp_abs s) (IcmpRecv data) x (icmp_abs s').
Proof.
  intros [Hrx Htx Hst Hpk]. cbn [icmp_exec]. unfold recv_slice, recv.
  destruct (dequeue_ok _ Hrx) as ([rx [[a [start n]]|e]] & Hd & Hpost); rewrite Hd; apply dequeue_storage in Hd;
    cbn [mbind outcome_bind dequeue_post] in *.
  - destruct Hpost as [Hwf Hq]. rewrite fill_slice_ok. cbn [mbind outcome_bind]. set (p := slice _ start n) in *.
    do 2 eexists. split; [done|]. split; [constructor; cbn; try done; by rewrite Hd|]. unfold icmp_abs at 1. rewrite Hq.
    match goal with |- icmp_step _ _ _ ?x _ => assert (x = icmp_filled data p a) as -> by (unfold icmp_filled; by destruct (_ <? _)%nat) end.
    apply is_recv.
  - destruct Hpost as (Hwf & Hq & Hq'). do 2 eexists. split; [done|]. split; [constructor; cbn; try done; by rewrite Hd|].
    unfold icmp_abs. cbn. rewrite Hq, Hq'. apply is_recv_empty.
Qed.

Lemma icmp_config_ok cx op s : icmp_inv s -> icmp_admissible op ->
  match op with IcmpHopLimit _ | IcmpBind _ => True | _ => False end ->
  exists s' x, icmp_exec cx op s = Ret (s', x) /\ icmp_inv s' /\ icmp_step cx (icmp_abs s) op x (icmp_abs s').
Proof.
  intros [Hrx Htx Hst Hpk] Ha Hop. destruct op as [limit|e| | | |]; try done; cbn [icmp_exec icmp_admissible] in *.
  - unfold set_hop_limit. rewrite bool_decide_false by done. do 2 eexists. split; [done|]. split; [by constructor|apply is_limit].
  - unfold bind. destruct (icmp_is_specified e) eqn:He; cbn [negb].
    2: { do 2 eexists. split; [done|]. split; [done|]. by apply is_bind_nothing. }
    unfold is_open. case_bool_decide as Ho.
    + do 2 eexists. split; [done|]. split; [done|]. by apply is_bind_again.
    + do 2 eexists. split; [done|]. split; [by constructor|]. unfold icmp_abs. cbn. rewrite Ho. by apply is_bind.
Qed.

Lemma icmp_run_ok cx ops s : Forall cidr_wf (cx_ip_addrs cx) -> icmp_inv s -> Forall icmp_admissible ops ->
  exists s' l, icmp_run cx ops s = Ret (s', l) /\ icmp_inv s' /\ icmp_steps cx (icmp_abs s) ops l (icmp_abs s').
Proof.
  intros Hcx. revert s. induction ops as [|op ops IH]; intros s Hinv Ha; [exists s, []; split_and!; [done..|constructor]|].
  apply Forall_cons_1 in Ha as [Ha Has].
  assert (exists s1 x, icmp_exec cx op s = Ret (s1, x) /\ icmp_inv s1 /\ icmp_step cx (icmp_abs s) op x (icmp_abs s1)) as (s1 & x & He & Hinv1 & Hst).
  { destruct op; [by apply icmp_config_ok|by apply icmp_config_ok|by apply icmp_send_ok|by apply icmp_recv_ok|by apply icmp_arrive_ok|
      by apply icmp_dispatch_step]. }
  destruct (IH s1 Hinv1 Has) as (s2 & l & Hl & Hinv2 & Hsts). exists s2, (x :: l). cbn [icmp_run]. rewrite He. cbn [mbind outcome_bind].
  rewrite Hl. split; [done|]. split; [done|]. by econstructor.
Qed.

Lemma icmp_new_inv rx_meta rx_payload tx_meta tx_payload : bytes rx_payload ->
  icmp_inv (new (PacketBuffer.new rx_meta rx_payload) (PacketBuffer.new tx_meta tx_payload)).
Proof. intros Hb. destruct (new_pb_wf (H := Address) rx_meta rx_payload), (new_pb_wf (H := Address) tx_meta tx_payload). by constructor. Qed.

(** Empty buffers take what fits. *)
Lemma icmp_send_accepted a p s : icmp_inv s -> icmp_sent (a, p) -> packets (tx_buffer s) = [] -> is_empty (tx_buffer s) = true ->
  (0 < packet_send_capacity s)%nat -> (length p <= payload_send_capacity s)%nat ->
  exists s', send_slice p a s = Ret (s', Ok ()) /\ icmp_inv s' /\ packets (tx_buffer s') = [(a, p)] /\ hop_limit s' = hop_limit s.
Proof.
  intros [Hrx Htx Hst Hpk] Hs Hnil He Hm Hl. destruct Hs as (Ha & Hu & Hb & Hn). cbn [fst snd] in *. unfold send_slice, send. rewrite Hu.
  destruct (enqueue_accepts_when_empty (length p) a (tx_buffer s)) as (tx & start & Hen); [done..|].
  destruct (enqueue_copy_ok p a _ Htx) as (tx1 & res & Hen' & Hpost). rewrite Hen in Hen'. injection Hen' as <- <-.
  destruct Hpost as (tx' & Hcp & Hwf & Hpk'). rewrite Hen. cbn. rewrite Hcp. cbn [mbind outcome_bind]. eexists. split; [done|].
  rewrite Hnil in Hpk'. split; [|done]. constructor; cbn; try done. rewrite Hpk'. by apply Forall_singleton.
Qed.

Lemma icmp_arrive_accepted cx ip r s : icmp_inv s -> message_wf ip r -> wanted cx (endpoint s) ip r ->
  packets (rx_buffer s) = [] -> is_empty (rx_buffer s) = true -> (0 < packet_recv_capacity s)%nat -> (icmp_len r <= payload_recv_capacity s)%nat ->
  exists s' p, icmp_arrive cx ip r s = Ret s' /\ icmp_inv s' /\ octets_of_message ip r p /\ length p = icmp_len r /\
    packets (rx_buffer s') = [(from_of ip r, p)].
Proof.
  intros Hinv Hwf Hw Hnil He Hm Hl. rewrite icmp_arrive_is. destruct (icmp_accepts_ok cx ip r s Hwf) as (ok & -> & Hok).
  rewrite (proj2 Hok) by done. cbn [mbind outcome_bind].
  destruct (icmp_receive_ok ip r s Hinv Hwf) as (s' & rx & res & Hen & Hr & Hinv' & p & Hp & Hlp & Habs).
  destruct (enqueue_accepts_when_empty (icmp_len r) (from_of ip r) (rx_buffer s)) as (rx' & start & Hen'); [apply Hinv|done..|].
  rewrite Hen in Hen'. injection Hen' as -> ->. exists s', p. split_and!; try done. apply (f_equal i_rx) in Habs. cbn in Habs. by rewrite Habs, Hnil.
Qed.

(** The next message is read whole into a slice of its length. *)
Lemma icmp_recv_whole a p l data s : icmp_inv s -> packets (rx_buffer s) = (a, p) :: l -> length data = length p ->
  exists s', recv_slice data s = Ret (s', Ok (p, length p, a)).
Proof.
  intros Hinv Hp Hl. unfold recv_slice, recv. destruct (dequeue_ok _ (ii_rx s Hinv)) as ([rx [[a' [start n]]|e]] & -> & Hpost);
    cbn [mbind outcome_bind dequeue_post] in *; [|destruct Hpost as (_ & Hn & _); congruence].
  destruct Hpost as [_ Hq]. rewrite Hp in Hq. injection Hq as -> Hq _. rewrite <- Hq, fill_slice_ok, Hl, Nat.ltb_irrefl. cbn [mbind outcome_bind].
  rewrite drop_ge, app_nil_r by lia. by eexists.
Qed.
End Refinement.


(** The header of a packet. *)
Definition header_of_repr (ip : IpRepr) : IpHeader := match ip with ReprIpv4 h | ReprIpv6 h => h end.

(** A message crosses from one socket to another: what the application of one sends
    is offered to the device with the header [ip], and when the message arrives with
    it at a socket that is bound to it, its application reads octets that parse to
    the same message, and the address of the sender. *)
Theorem icmp_message_crosses {BO : ByteOrder} (NE : NetworkEndian BO) {BO24 : ByteOrder24} (NE24 : NetworkEndian24 BO24)
    {RF : Bitflags ROUTER_FLAGS_ALL} {NF : Bitflags NEIGHBOR_FLAGS_ALL} (RFL : BitflagsLaws RF) (NFL : BitflagsLaws NF)
    cx cx' e a p (ip : IpRepr) (r : IcmpRepr) meta storage data :
  Forall cidr_wf (cx_ip_addrs cx) -> bytes storage -> (0 < length meta)%nat ->
  icmp_sent (a, p) -> carries cx 64 a p (ip, r) -> (length p <= length storage)%nat ->
  icmp_is_specified e = true -> message_wf (header_of_repr ip) r -> wanted cx' e (header_of_repr ip) r ->
  (icmp_len r <= length storage)%nat -> length data = icmp_len r ->
  let buffer := PacketBuffer.new meta storage in
  exists s1 s2 r0 r1 r2 p',
    send_slice p a (new buffer buffer) = Ret (s1, Ok ()) /\
    dispatch (icmp_device false) s1 cx = Ret (s2, cx, Err (ip, r)) /\
    bind e (new buffer buffer) = (r0, Ok ()) /\ icmp_arrive cx' (header_of_repr ip) r r0 = Ret r1 /\
    recv_slice data r1 = Ret (r2, Ok (p', length p', from_of (header_of_repr ip) r)) /\
    octets_of_message (header_of_repr ip) r p'.
Proof.
  intros Hcx Hst Hm Hs Hc Hlp He Hwf Hw Hlr Hd buffer. pose proof (icmp_new_inv meta storage meta storage Hst) as Hinv. fold buffer in Hinv.
  destruct (new_pb_wf (H := Address) meta storage) as [Hpb Hpk]. fold buffer in Hpb, Hpk.
  destruct (icmp_send_accepted a p (new buffer buffer) Hinv Hs) as (s1 & Hs1 & Hi1 & Hp1 & Hh1); [done..|].
  pose proof (icmp_dispatch_ok cx Hcx s1 Hi1) as Hdis. rewrite Hp1, Hh1 in Hdis. cbn [default hop_limit new] in Hdis.
  destruct Hdis as [(d & Hc' & Hdis)|[Hn _]]; [|by destruct (Hn _ Hc)]. rewrite (carries_det cx 64 a p _ _ Hc' Hc) in Hdis.
  destruct (Hdis _ (icmp_device false) cx _ eq_refl) as (s2 & Hs2 & _).
  set (r0 := (new buffer buffer) <| endpoint := e |> <| rx_waker ::= WakerRegistration.wake |> <| tx_waker ::= WakerRegistration.wake |>).
  assert (icmp_inv r0) as Hi0 by (destruct Hinv; by constructor).
  destruct (icmp_arrive_accepted cx' (header_of_repr ip) r r0 Hi0 Hwf Hw) as (r1 & p' & Hr1 & Hir1 & Hp' & Hlp' & Hpk1); [done..|].
  destruct (icmp_recv_whole _ p' [] data r1 Hir1 Hpk1) as [r2 Hr2]; [congruence|]. exists s1, s2, r0, r1, r2, p'. split_and!; try done.
  unfold bind. by rewrite He.
Qed.

(** ** Scenarios *)

Module IcmpWitness.
#[local] Existing Instance network_endian.
#[local] Existing Instance network_endian_laws.
#[local] Existing Instance network_endian24.
#[local] Existing Instance network_endian24_laws.
#[local] Instance router_flags : Bitflags ROUTER_FLAGS_ALL := int_flags ROUTER_FLAGS_ALL.
#[local] Instance router_laws : BitflagsLaws router_flags := int_flags_laws ROUTER_FLAGS_ALL.
#[local] Instance neighbor_flags : Bitflags NEIGHBOR_FLAGS_ALL := int_flags NEIGHBOR_FLAGS_ALL.
#[local] Instance neighbor_laws : BitflagsLaws neighbor_flags := int_flags_laws NEIGHBOR_FLAGS_ALL.

Definition host : list Z := [10; 0; 0; 1].
Definition peer : list Z := [10; 0; 0; 2].
Definition host6 : list Z := [0xfe; 0x80] ++ replicate 13 0 ++ [1].
Definition cx : Context :=
  mkContext 1000000 1500 (Rand.new 42) (fun _ => None) (fun _ => false) HwIp ChecksumCapabilities.default
    [CidrIpv4 (Ipv4Cidr.mk host 24); CidrIpv6 (Ipv6Cidr.mk host6 64)].

Definition meta : list (PacketMetadata Address) := repeat EMPTY 4.
Definition storage : list Z := repeat 0 200.
Definition socket : Socket := new (PacketBuffer.new meta storage) (PacketBuffer.new meta storage).

(** A ping with identifier 7, and its octets. *)
Definition ping : list Z := [8; 0; 0; 0; 0; 7; 0; 1; 1; 2; 3].
Definition request : IcmpRepr := IcmpIpv4 (Icmpv4EchoRequest 7 1 [1; 2; 3]).
Definition out : IpHeader := mkIpHeader host peer Protocol.Icmp 11 64.
Definition back : IpHeader := mkIpHeader peer host Protocol.Icmp 11 64.
Definition reply (ident : Z) : IcmpRepr := IcmpIpv4 (Icmpv4EchoReply ident 1 [1; 2; 3]).

Definition pinging : list icmp_op :=
  [IcmpHopLimit None; IcmpBind (EndpointIdent 7); IcmpBind (EndpointIdent 8); IcmpSend ping (Ipv4 peer); IcmpSend ping (Ipv4 [0; 0; 0; 0]);
   IcmpDispatch false; IcmpDispatch true; IcmpDispatch true; IcmpArrive back (reply 8); IcmpArrive back (reply 7);
   IcmpRecv (replicate 20 0); IcmpRecv []].

Lemma addrs_wf : Forall cidr_wf (cx_ip_addrs cx).
Proof. repeat apply Forall_cons_2; try apply Forall_nil_2; (split; [split; by_decide|cbn; lia]). Qed.

Lemma message_is_wf ip r : ip = out /\ r = request \/ ip = back /\ (r = reply 7 \/ r = reply 8) -> message_wf ip r.
Proof. intros [[-> ->]|[-> [-> | ->]]]; repeat split; by_decide. Qed.


(** The ping crosses to a socket bound to its identifier. *)
Definition buffer : PacketBuffer Address := PacketBuffer.new meta storage.

Lemma icmp_message_crosses_witness :
  exists s1 s2 r0 r1 r2 p',
    send_slice ping (Ipv4 peer) (new buffer buffer) = Ret (s1, Ok ()) /\
    dispatch (icmp_device false) s1 cx = Ret (s2, cx, Err (ReprIpv4 out, request)) /\
    bind (EndpointIdent 7) (new buffer buffer) = (r0, Ok ()) /\ icmp_arrive cx out request r0 = Ret r1 /\
    recv_slice (replicate 11 0) r1 = Ret (r2, Ok (p', length p', Ipv4 host)) /\ octets_of_message out request p'.
Proof.
  apply (icmp_message_crosses network_endian_laws network_endian24_laws router_laws neighbor_laws cx cx (EndpointIdent 7) (Ipv4 peer) ping
    (ReprIpv4 out) request meta storage (replicate 11 0)).
  - exact addrs_wf.
  - by_decide.
  - cbn. lia.
  - repeat split; by_decide.
  - apply (carries4 cx 64 host peer ping (Icmpv4EchoRequest 7 1 [1; 2; 3])); vm_compute; reflexivity.
  - cbn. lia.
  - done.
  - apply message_is_wf. tauto.
  - done.
  - cbn. lia.
  - done.
Defined.

(** An error that quotes the beginning of a datagram is not accepted: [UdpRepr::parse]
    compares the length of the datagram with what is there.  The datagram has port 53
    and 4 octets of data. *)
Definition datagram : list Z := [0; 53; 1; 0; 0; 12; 0; 0; 9; 9; 9; 9].
Definition unreachable (data : list Z) : Icmpv4Repr :=
  Icmpv4DstUnreachable Icmpv4DstUnreachable.PortUnreachable (mkIpHeader host peer Protocol.Udp 12 64) data.
Definition bound : Socket := (bind (EndpointUdp (mkListen None 53)) socket).1.

Theorem partial_quote_not_accepted :
  accepts_v4 cx back (unreachable datagram) bound = Ret true /\ accepts_v4 cx back (unreachable (take 8 datagram)) bound = Ret false.
Proof. split; vm_compute; reflexivity. Qed.
End IcmpWitness.
