(* ===== verification/RawSocket.v ===== *)
(** * The raw socket (src/socket/raw.rs)

    A raw socket is two buffers of whole IP packets, for one IP version and protocol.
    [process] writes the header of an arriving packet back in front of its payload;
    [dispatch] parses the packet of the application, and drops it when it is none. *)

From S2P Require Import Prelude RingBuffer PacketBuffer Time Bytes Octets Phy Ip Ipv4Wire Ipv6Wire TcpTimers Context.
Open Scope Z_scope.

Inductive RawSendError := RawBufferFull.
Inductive RawRecvError := RawExhausted | RawTruncated.

(** [IpRepr::emit] of src/wire/ip.rs. *)
Definition ip_emit {BO : ByteOrder} {BO24 : ByteOrder24} (r : IpRepr) (caps : ChecksumCapabilities) (buffer : list Z) :
    outcome (list Z) :=
  match r with
  | ReprIpv4 h => Ipv4Repr.emit h caps buffer
  | ReprIpv6 h => Ipv6Repr.emit h buffer
  end.

Module RawSocket.
Section Socket.
Context {BO : ByteOrder} {BO24 : ByteOrder24}.

Record Socket := mkSocket {
  ip_version : Version;
  ip_protocol : Protocol.t;
  rx_buffer : PacketBuffer unit;
  tx_buffer : PacketBuffer unit;
  rx_waker : WakerRegistration;
  tx_waker : WakerRegistration
}.

#[global] Instance eta_Socket : Settable Socket := fun s =>
  mkSocket (ip_version s) (ip_protocol s) (rx_buffer s) (tx_buffer s) (rx_waker s) (tx_waker s).

Implicit Types (s : Socket) (cx : Context).

Definition new (version : Version) (protocol : Protocol.t) (rx tx : PacketBuffer unit) : Socket :=
  mkSocket version protocol rx tx WakerRegistration.new WakerRegistration.new.

Definition register_recv_waker (w : Waker) s : Socket := s <| rx_waker ::= WakerRegistration.register w |>.
Definition register_send_waker (w : Waker) s : Socket := s <| tx_waker ::= WakerRegistration.register w |>.

Definition can_send s : bool := negb (is_full (tx_buffer s)).
Definition can_recv s : bool := negb (is_empty (rx_buffer s)).
Definition packet_recv_capacity s : nat := packet_capacity (rx_buffer s).
Definition packet_send_capacity s : nat := packet_capacity (tx_buffer s).
Definition payload_recv_capacity s : nat := payload_capacity (rx_buffer s).
Definition payload_send_capacity s : nat := payload_capacity (tx_buffer s).

(** The returned slice is its start and its length in the payload storage. *)
Definition send (size : nat) s : outcome (Socket * result (nat * nat) RawSendError) :=
  '(tx, res) ← enqueue size () (tx_buffer s);
  Ret (s <| tx_buffer := tx |>, match res with Ok buf => Ok buf | Err _ => Err RawBufferFull end).

Definition send_with (max_size : nat) (f : list Z -> list Z * nat) s : outcome (Socket * result nat RawSendError) :=
  '(tx, res) ← enqueue_with_infallible max_size () f (tx_buffer s);
  Ret (s <| tx_buffer := tx |>, match res with Ok size => Ok size | Err _ => Err RawBufferFull end).

Definition send_slice (data : list Z) s : outcome (Socket * result unit RawSendError) :=
  '(s, res) ← send (length data) s;
  match res with
  | Ok buf => tx ← copy_from_slice buf data (tx_buffer s); Ret (s <| tx_buffer := tx |>, Ok ())
  | Err e => Ret (s, Err e)
  end.

(** The packet is read through the returned slice. *)
Definition recv s : outcome (Socket * result (list Z) RawRecvError) :=
  '(rx, res) ← dequeue (rx_buffer s);
  Ret (s <| rx_buffer := rx |>,
       match res with
       | Ok (_, (start, n)) => Ok (slice (storage (payload_ring rx)) start n)
       | Err _ => Err RawExhausted
       end).

Definition recv_slice (data : list Z) s : outcome (Socket * result (list Z * nat) RawRecvError) :=
  '(s, res) ← recv s;
  match res with
  | Ok buffer => r ← fill_slice RawTruncated data buffer; Ret (s, r)
  | Err e => Ret (s, Err e)
  end.

Definition peek s : outcome (Socket * result (list Z) RawRecvError) :=
  '(rx, res) ← PacketBuffer.peek (rx_buffer s);
  Ret (s <| rx_buffer := rx |>, match res with Ok (_, payload) => Ok payload | Err _ => Err RawExhausted end).

Definition peek_slice (data : list Z) s : outcome (Socket * result (list Z * nat) RawRecvError) :=
  '(s, res) ← peek s;
  match res with
  | Ok buffer => r ← fill_slice RawTruncated data buffer; Ret (s, r)
  | Err e => Ret (s, Err e)
  end.

Definition accepts (ip_repr : IpRepr) s : bool :=
  if negb (bool_decide (IpRepr.version ip_repr = ip_version s)) then false
  else if negb (bool_decide (IpRepr.next_header ip_repr = ip_protocol s)) then false
  else true.

Definition process cx (ip_repr : IpRepr) (payload : list Z) s : outcome Socket :=
  _ ← rust_assert (accepts ip_repr s);
  let header_len := IpRepr.header_len ip_repr in
  let total_len := (header_len + length payload)%nat in
  '(rx, res) ← enqueue total_len () (rx_buffer s);
  rx ← match res with
       | Ok (start, n) =>
           let buf := slice (storage (payload_ring rx)) start n in
           header ← range buf 0 header_len;
           header ← ip_emit ip_repr (cx_checksum_caps cx) header;
           let buf := splice buf 0 header in
           buf ← put_slice header_len (length buf) payload buf;
           Ret (write_payload start buf rx)
       | Err _ => Ret rx
       end;
  Ret (s <| rx_buffer := rx |> <| rx_waker ::= WakerRegistration.wake |>).

Section Dispatch.
Context {E : Type}.
Variable emit : Context -> IpRepr * list Z -> outcome (Context * result unit E).

(** The closure given to [dequeue_with]: the packet, as it is left in the queue, and
    the result of [emit] when it is called. *)
Definition send_packet cx (protocol : Protocol.t) (buffer : list Z) :
    outcome (unit * list Z * result Context (Context * E)) :=
  let caps := cx_checksum_caps cx in
  let send (packet : list Z) (ip : IpRepr) (payload : list Z) :=
    '(cx, res) ← emit cx (ip, payload);
    Ret ((), packet, match res with Ok _ => Ok cx | Err e => Err (cx, e) end) in
  version ← version_of_packet buffer;
  match version with
  | Ok V4 =>
      checked ← Ipv4Packet.new_checked buffer;
      match checked with
      | Err _ => Ret ((), buffer, Ok cx)
      | Ok packet =>
          next_header ← Ipv4Packet.next_header packet;
          if negb (bool_decide (next_header = protocol)) then Ret ((), packet, Ok cx) else
          packet ← (if Checksum.tx (caps_ipv4 caps) then Ipv4Packet.fill_checksum packet
                    else Ipv4Packet.set_checksum 0 packet);
          parsed ← Ipv4Repr.parse packet caps;
          match parsed with
          | Err _ => Ret ((), packet, Ok cx)
          | Ok repr => payload ← Ipv4Packet.payload packet; send packet (ReprIpv4 repr) payload
          end
      end
  | Ok V6 =>
      checked ← Ipv6Packet.new_checked buffer;
      match checked with
      | Err _ => Ret ((), buffer, Ok cx)
      | Ok packet =>
          next_header ← Ipv6Packet.next_header packet;
          if negb (bool_decide (next_header = protocol)) then Ret ((), packet, Ok cx) else
          parsed ← Ipv6Repr.parse packet;
          match parsed with
          | Err _ => Ret ((), packet, Ok cx)
          | Ok repr => payload ← Ipv6Packet.payload packet; send packet (ReprIpv6 repr) payload
          end
      end
  | Err _ => Ret ((), buffer, Ok cx)
  end.

Definition dispatch s cx : outcome (Socket * Context * result unit E) :=
  '(tx, res) ← dequeue_with (fun _ buffer => send_packet cx (ip_protocol s) buffer) (tx_buffer s);
  let s := s <| tx_buffer := tx |> in
  Ret match res with
      | Err _ => (s, cx, Ok ())
      | Ok (Err (cx, e)) => (s, cx, Err e)
      | Ok (Ok cx) => (s <| tx_waker ::= WakerRegistration.wake |>, cx, Ok ())
      end.
End Dispatch.

Definition poll_at (_ : Context) s : PollAt := if is_empty (tx_buffer s) then PollIngress else PollNow.
End Socket.
End RawSocket.
