(* ===== verification/RawSpec.v ===== *)
(** * The raw socket refines two queues of IP packets

    The application sees the packets in the order they arrived, with the header
    written out again; the device is offered the packets of the application in the
    order they were sent, when they are packets of the socket's protocol. *)

From S2P Require Import Prelude RingBuffer PacketBuffer Time Bytes Octets Phy Ip Ipv4Wire Ipv6Wire LinkLayer TcpTimers Context RawSocket.
Import RawSocket.
Open Scope Z_scope.

Implicit Types (cx : Context) (p q data payload : list Z).

(** ** Packets

    What a string of octets means as an IP packet, by the positions of RFC 791 and
    RFC 8200. *)

Definition u16_at p (i : nat) : nat := Z.to_nat (256 * p !!! i + p !!! S i).

(** The length of the IPv4 header, in octets. *)
Definition ihl p : nat := Z.to_nat (4 * (p !!! 0%nat mod 16)).

Definition ipv6_fields_of p : IpHeader :=
  mkIpHeader (slice p 8 16) (slice p 24 16) (Protocol.from (p !!! 6%nat)) (u16_at p 4) (p !!! 7%nat).

Definition datagram_of p : option (IpRepr * list Z) :=
  if p !!! 0%nat / 16 =? 4 then
    if ((20 <=? length p) && (ihl p <=? u16_at p 2) && (u16_at p 2 <=? length p))%nat
    then Some (ReprIpv4 (ipv4_fields p (u16_at p 2 - ihl p)), slice p (ihl p) (u16_at p 2 - ihl p))
    else None
  else if p !!! 0%nat / 16 =? 6 then
    if ((40 <=? length p) && (40 + u16_at p 4 <=? length p))%nat
    then Some (ReprIpv6 (ipv6_fields_of p), slice p 40 (u16_at p 4)) else None
  else None.

(** An IPv4 header has at least five words. *)
Definition proper p : Prop := p !!! 0%nat / 16 = 4 -> (20 <= ihl p)%nat.

(** [p] is a packet the socket sends. *)
Definition sendable (protocol : Protocol.t) p : Prop :=
  proper p /\ exists d, datagram_of p = Some d /\ IpRepr.next_header d.1 = protocol.

(** The packet with another checksum. *)
Definition with_check (c : Z) p : list Z := splice p 10 (be16 c).

Definition rechecked p q : Prop := p = q \/ p !!! 0%nat / 16 = 4 /\ exists c, word c /\ q = with_check c p.

(** What the application may send: octets, at least one. *)
Definition raw_packet p : Prop := bytes p /\ p <> [].

(** The interface checks no IPv4 checksums it does not fill in. *)
Definition raw_caps_ok cx : Prop :=
  Checksum.rx (caps_ipv4 (cx_checksum_caps cx)) = true -> Checksum.tx (caps_ipv4 (cx_checksum_caps cx)) = true.

(** The octets of a header. *)
Definition ip_octets (caps : ChecksumCapabilities) (ip : IpRepr) : list Z :=
  match ip with
  | ReprIpv4 h => header_octets (emitted_header caps h)
  | ReprIpv6 h => ipv6_octets h
  end.

Definition ip_wf (ip : IpRepr) : Prop :=
  match ip with ReprIpv4 h => ipv4_repr_wf h | ReprIpv6 h => ipv6_repr_wf h end.

(** ** The IPv4 checksum of any packet *)

Section Checksums.
Context {BO : ByteOrder} {NE : NetworkEndian BO}.

Lemma length_with_check c p : (20 <= length p)%nat -> length (with_check c p) = length p.
Proof. intros H. unfold with_check. rewrite length_splice; [done|cbn; lia]. Qed.

Lemma lookup_with_check c p i : (20 <= length p)%nat -> (i < 10 \/ 12 <= i)%nat -> with_check c p !! i = p !! i.
Proof. intros H Hi. unfold with_check. apply lookup_splice_out; cbn; lia. Qed.

Lemma total_with_check c p i : (20 <= length p)%nat -> (i < 10 \/ 12 <= i)%nat -> with_check c p !!! i = p !!! i.
Proof. intros H Hi. by rewrite !list_lookup_total_alt, lookup_with_check. Qed.

Lemma bytes_with_check c p : (20 <= length p)%nat -> word c -> bytes p -> bytes (with_check c p).
Proof.
  intros H Hc Hp. destruct (word_octets c Hc). unfold with_check, splice. apply Forall_app_2; [by apply bytes_take|].
  apply Forall_app_2; [|by apply bytes_drop]. by repeat apply Forall_cons_2.
Qed.

Lemma set_checksum_with c p : (20 <= length p)%nat -> word c -> Ipv4Packet.set_checksum c p = Ret (with_check c p).
Proof. intros H Hc. unfold Ipv4Packet.set_checksum. by rewrite put_u16_octets by (done || lia). Qed.

Lemma header_len_with c p : (20 <= length p)%nat -> Ipv4Packet.header_len (with_check c p) = Ipv4Packet.header_len p.
Proof. intros H. unfold Ipv4Packet.header_len, get_byte. by rewrite lookup_with_check by lia. Qed.

(** The checksum is one of the words that are added. *)
Lemma word_sum_with_check c p n : (12 <= n)%nat -> (n <= length p)%nat ->
  word_sum (slice (with_check c p) 0 n) = word_sum (slice (with_check 0 p) 0 n) + c.
Proof.
  intros H12 Hn. unfold slice, with_check, splice. rewrite !drop_0, !(take_app_ge (take 10 p)) by (rewrite length_take; lia).
  rewrite !length_take, Nat.min_l by lia. rewrite !(take_app_ge (be16 _)) by (cbn; lia).
  assert (forall x l, word_sum (take 10 p ++ be16 x ++ l) = word_sum (take 10 p) + x + word_sum l) as Hs.
  { intros x l. rewrite word_sum_app by (exists 5%nat; rewrite length_take; lia).
    rewrite word_sum_app by (by exists 1%nat). unfold be16. cbn [word_sum].
    pose proof (Z.div_mod x 256 ltac:(lia)). lia. }
  rewrite !Hs. change (length (be16 c)) with (length (be16 0)). lia.
Qed.

Lemma fill_checksum_any p hl :
  bytes p -> Ipv4Packet.header_len p = Ret (Z.of_nat hl) -> (hl <= 60)%nat -> (hl <= length p)%nat -> (20 <= length p)%nat ->
  exists c, word c /\ Ipv4Packet.fill_checksum p = Ret (with_check c p) /\
    ((12 <= hl)%nat -> Ipv4Packet.verify_checksum (with_check c p) = Ret true).
Proof.
  intros Hb Hhl Hmax Hl H20. assert (word 0) as H0 by (unfold word; lia).
  pose proof (bytes_with_check 0 p H20 H0 Hb) as Hb0. pose proof (bytes_slice _ 0 hl Hb0) as Hs0.
  pose proof (word_sum_bound _ Hs0) as Hw. rewrite length_slice in Hw. pose proof (word_sum_pos _ Hs0) as Hpos.
  set (w := word_sum (slice (with_check 0 p) 0 hl)) in *. pose proof (fold16_range w Hpos) as Hf.
  assert (word (not16 (fold16 w))) as Hc by (unfold word, not16; lia).
  exists (not16 (fold16 w)). split; [done|]. split.
  - unfold Ipv4Packet.fill_checksum. rewrite set_checksum_with by done. cbn [mbind outcome_bind].
    rewrite header_len_with, Hhl by done. cbn [mbind outcome_bind]. rewrite Nat2Z.id, range_Ret by (rewrite ?length_with_check; lia).
    cbn [mbind outcome_bind]. rewrite Nat.sub_0_r, checksum_data_spec by (done || fold w; lia). cbn [mbind outcome_bind]. fold w.
    rewrite set_checksum_with by (done || by rewrite length_with_check). f_equal. unfold with_check, splice.
    rewrite take_app_length', drop_app_ge by (cbn; rewrite ?length_take; lia). rewrite length_take, Nat.min_l by lia.
    by rewrite drop_app_length' by done.
  - intros H12. unfold Ipv4Packet.verify_checksum. rewrite header_len_with, Hhl by done. cbn [mbind outcome_bind].
    rewrite Nat2Z.id, range_Ret by (rewrite ?length_with_check; lia). cbn [mbind outcome_bind]. rewrite Nat.sub_0_r.
    pose proof (bytes_slice _ 0 hl (bytes_with_check _ p H20 Hc Hb)) as Hs. pose proof (word_sum_bound _ Hs) as Hw'. rewrite length_slice in Hw'.
    rewrite checksum_data_spec by (done || lia). cbn [mbind outcome_bind]. rewrite word_sum_with_check by lia. fold w.
    unfold not16. change U16_MAX with 65535 in *. rewrite fold16_complement by lia. done.
Qed.
End Checksums.

(** ** The closure of [dispatch] *)

Section Closure.
Context {BO : ByteOrder} {NE : NetworkEndian BO} {BO24 : ByteOrder24} {NE24 : NetworkEndian24 BO24}.

Lemma version_ok p : p <> [] -> version_of_packet p =
  Ret (if p !!! 0%nat / 16 =? 4 then Ok V4 else if p !!! 0%nat / 16 =? 6 then Ok V6 else Err Error).
Proof.
  intros Hp. unfold version_of_packet. rewrite get_byte_ok by (destruct p; cbn; [done|lia]). cbn [mbind outcome_bind].
  by rewrite Z.shiftr_div_pow2 by lia.
Qed.

Lemma ihl_ok p : bytes p -> (1 <= length p)%nat -> Ipv4Packet.header_len p = Ret (Z.of_nat (ihl p)) /\ (ihl p <= 60)%nat.
Proof.
  intros Hb Hl. unfold Ipv4Packet.header_len, ihl. rewrite get_byte_ok by lia. cbn [mbind outcome_bind].
  pose proof (Z.land_ones (p !!! 0%nat) 4 ltac:(lia)) as Ho. change (Z.ones 4) with 0x0f in Ho. rewrite Ho.
  change (2 ^ 4) with 16. pose proof (Z.mod_pos_bound (p !!! 0%nat) 16 ltac:(lia)). rewrite umul_Ret by lia.
  split; [f_equal|]; lia.
Qed.

Lemma u16_at_ok p i j : j = (i + 2)%nat -> bytes p -> (j <= length p)%nat -> get_u16 i j p = Ret (Z.of_nat (u16_at p i)).
Proof.
  intros -> Hb Hl. destruct (lookup_lt_is_Some_2 p i) as [a Ha]; [lia|]. destruct (lookup_lt_is_Some_2 p (S i)) as [b Hb']; [lia|].
  unfold u16_at. rewrite (list_lookup_total_correct p i a), (list_lookup_total_correct p (S i) b) by done.
  pose proof (bytes_lookup _ _ _ Hb Ha) as Hab. pose proof (bytes_lookup _ _ _ Hb Hb') as Hbb.
  rewrite (get_u16_octets i _ p a b) by done. unfold byte in *. f_equal. lia.
Qed.

(** The length tests of the IPv4 packet. *)
Definition v4_lengths p : bool := ((20 <=? length p) && (ihl p <=? u16_at p 2) && (u16_at p 2 <=? length p))%nat.

Lemma v4_lengths_spec p : v4_lengths p = true <-> (20 <= length p /\ ihl p <= u16_at p 2 <= length p)%nat.
Proof. unfold v4_lengths. rewrite !andb_true_iff, !Nat.leb_le. tauto. Qed.

Lemma v4_checked p : bytes p -> p <> [] ->
  Ipv4Packet.check_len p = Ret (if v4_lengths p then Ok () else Err Error) /\
  Ipv4Packet.new_checked p = Ret (if v4_lengths p then Ok p else Err Error).
Proof.
  intros Hb Hp. unfold Ipv4Packet.new_checked.
  assert (Ipv4Packet.check_len p = Ret (if v4_lengths p then Ok () else Err Error)) as ->; [|by destruct (v4_lengths p)].
  unfold Ipv4Packet.check_len, IPV4_HEADER_LEN, v4_lengths. destruct (Nat.ltb_spec (length p) 20) as [|H20].
  { by rewrite (proj2 (Nat.leb_gt _ _)) by lia. }
  rewrite (proj2 (Nat.leb_le 20 _)) by lia. cbn [andb]. destruct (ihl_ok p Hb) as [-> _]; [lia|]. cbn [mbind outcome_bind].
  rewrite Nat2Z.id. destruct (Nat.ltb_spec (length p) (ihl p)) as [Hh|Hh].
  { destruct (Nat.leb_spec (ihl p) (u16_at p 2)), (Nat.leb_spec (u16_at p 2) (length p)); cbn; done || lia. }
  unfold Ipv4Packet.total_len. rewrite u16_at_ok by (done || lia). cbn [mbind outcome_bind].
  rewrite Z.gtb_ltb, Nat2Z.id. destruct (Z.ltb_spec (Z.of_nat (u16_at p 2)) (Z.of_nat (ihl p))).
  { by rewrite (proj2 (Nat.leb_gt _ _)) by lia. }
  rewrite (proj2 (Nat.leb_le (ihl p) _)) by lia. cbn [andb].
  destruct (Nat.ltb_spec (length p) (u16_at p 2)), (Nat.leb_spec (u16_at p 2) (length p)); done || lia.
Qed.

Lemma lengths_with_check c p : (20 <= length p)%nat ->
  ihl (with_check c p) = ihl p /\ u16_at (with_check c p) 2 = u16_at p 2 /\ v4_lengths (with_check c p) = v4_lengths p.
Proof.
  intros H. assert (ihl (with_check c p) = ihl p) as E1 by (unfold ihl; by rewrite total_with_check by lia).
  assert (u16_at (with_check c p) 2 = u16_at p 2) as E2 by (unfold u16_at; by rewrite !total_with_check by lia).
  split_and!; [done..|]. unfold v4_lengths. by rewrite E1, E2, length_with_check.
Qed.

Lemma slice_with_check c p i n : (20 <= length p)%nat -> (12 <= i)%nat -> slice (with_check c p) i n = slice p i n.
Proof.
  intros H Hi. unfold slice, with_check, splice. f_equal. rewrite drop_app_ge by (rewrite length_take; lia).
  rewrite length_take, Nat.min_l, drop_app_ge by (cbn; lia). rewrite drop_drop. f_equal. cbn [be16 length]. lia.
Qed.

(** A proper packet reads the same with any checksum. *)
Lemma datagram_with_check c p : (20 <= length p)%nat -> p !!! 0%nat / 16 = 4 -> (20 <= ihl p)%nat ->
  datagram_of (with_check c p) = datagram_of p.
Proof.
  intros H H4 Hp. destruct (lengths_with_check c p H) as (E1 & E2 & E3). unfold datagram_of. fold (v4_lengths (with_check c p)) (v4_lengths p).
  rewrite E1, E2, E3, total_with_check, H4 by lia. cbn [Z.eqb Pos.eqb]. destruct (v4_lengths p); [|done].
  unfold ipv4_fields. by rewrite !slice_with_check, !total_with_check by lia.
Qed.

Definition v6_lengths p : bool := ((40 <=? length p) && (40 + u16_at p 4 <=? length p))%nat.

Lemma v6_lengths_spec p : v6_lengths p = true <-> (40 <= length p /\ 40 + u16_at p 4 <= length p)%nat.
Proof. unfold v6_lengths. rewrite !andb_true_iff, !Nat.leb_le. tauto. Qed.

Lemma v6_checked p : bytes p ->
  Ipv6Packet.check_len p = Ret (if v6_lengths p then Ok () else Err Error) /\
  Ipv6Packet.new_checked p = Ret (if v6_lengths p then Ok p else Err Error).
Proof.
  intros Hb. unfold Ipv6Packet.new_checked.
  assert (Ipv6Packet.check_len p = Ret (if v6_lengths p then Ok () else Err Error)) as ->; [|by destruct (v6_lengths p)].
  unfold Ipv6Packet.check_len, v6_lengths. destruct (Nat.ltb_spec (length p) 40); [by rewrite (proj2 (Nat.leb_gt _ _)) by lia|].
  rewrite (proj2 (Nat.leb_le 40 _)) by lia. unfold Ipv6Packet.total_len, Ipv6Packet.payload_len, Ipv6Packet.header_len, IPV6_HEADER_LEN.
  rewrite u16_at_ok by (done || lia). cbn [mbind outcome_bind andb]. rewrite Nat2Z.id.
  destruct (Nat.ltb_spec (length p) (40 + u16_at p 4)), (Nat.leb_spec (40 + u16_at p 4) (length p)); done || lia.
Qed.

Lemma v6_read p : bytes p -> v6_lengths p = true -> p !!! 0%nat / 16 = 6 ->
  Ipv6Packet.next_header p = Ret (ih_next_header (ipv6_fields_of p)) /\
  Ipv6Repr.parse p = Ret (Ok (ipv6_fields_of p)) /\ Ipv6Packet.payload p = Ret (slice p 40 (u16_at p 4)).
Proof.
  intros Hb Hv H6. destruct (v6_checked p Hb) as [Hc _]. rewrite Hv in Hc. apply v6_lengths_spec in Hv as [H40 Hl].
  assert (Ipv6Packet.payload_len p = Ret (Z.of_nat (u16_at p 4))) as Hpl by (unfold Ipv6Packet.payload_len; by rewrite u16_at_ok by (done || lia)).
  assert (Ipv6Packet.next_header p = Ret (ih_next_header (ipv6_fields_of p))) as Hn
    by (unfold Ipv6Packet.next_header; by rewrite get_byte_ok by lia).
  split; [done|]. split.
  - unfold Ipv6Repr.parse. rewrite Hc. cbn [try_bind]. unfold Ipv6Packet.version. rewrite get_byte_ok by lia. cbn [mbind outcome_bind].
    rewrite Z.shiftr_div_pow2 by lia. change (2 ^ 4) with 16. rewrite H6. cbn [Z.eqb Pos.eqb negb].
    unfold Ipv6Packet.src_addr, Ipv6Packet.dst_addr, Ipv6Address.from_bytes. rewrite !range_Ret by lia. cbn [mbind outcome_bind].
    rewrite !length_slice, !Nat.min_l by lia. cbn [Nat.sub Nat.eqb mbind outcome_bind]. rewrite Hn, Hpl. cbn [mbind outcome_bind].
    unfold Ipv6Packet.hop_limit. rewrite get_byte_ok by lia. cbn [mbind outcome_bind]. by rewrite Nat2Z.id.
  - unfold Ipv6Packet.payload, Ipv6Packet.total_len. rewrite Hpl. cbn [mbind outcome_bind].
    unfold Ipv6Packet.header_len, IPV6_HEADER_LEN. rewrite range_Ret by lia. do 2 f_equal. lia.
Qed.

Lemma v4_read p caps : bytes p -> v4_lengths p = true -> p !!! 0%nat / 16 = 4 ->
  let h := ipv4_fields p (u16_at p 2 - ihl p) in
  Ipv4Packet.next_header p = Ret (ih_next_header h) /\ Ipv4Packet.payload p = Ret (slice p (ihl p) (u16_at p 2 - ihl p)) /\
  exists ok, Ipv4Packet.verify_checksum p = Ret ok /\
    Ipv4Repr.parse p caps = Ret (if Checksum.rx (caps_ipv4 caps) && negb ok then Err Error else Ok h).
Proof.
  intros Hb Hv H4 h. assert (p <> []) as Hne by (intros ->; done). destruct (v4_checked p Hb Hne) as [Hc _]. rewrite Hv in Hc.
  apply v4_lengths_spec in Hv as [H20 Hl]. destruct (ihl_ok p Hb) as [Hhl Hmax]; [lia|].
  assert (Ipv4Packet.total_len p = Ret (Z.of_nat (u16_at p 2))) as Htl by (unfold Ipv4Packet.total_len; by rewrite u16_at_ok by (done || lia)).
  split; [unfold Ipv4Packet.next_header; by rewrite get_byte_ok by lia|].
  split; [by rewrite (ipv4_payload_ok p (ihl p) (u16_at p 2))|].
  destruct (ipv4_parse_exact p caps (ihl p) (u16_at p 2)) as (ok & Hok & Hpa); [done..|]. exists ok. split; [done|].
  rewrite Hpa, Z.shiftr_div_pow2 by lia. change (2 ^ 4) with 16. by rewrite H4.
Qed.

(** The packet is handed to the device and left as [q] in the queue, or dropped. *)
Inductive verdict :=
| HandOver (q : list Z) (d : IpRepr * list Z)
| Discard (q : list Z).

Definition carry_out {E} (emit : Context -> IpRepr * list Z -> outcome (Context * result unit E)) cx (v : verdict) :
    outcome (unit * list Z * result Context (Context * E)) :=
  match v with
  | HandOver q d => '(cx, res) ← emit cx d; Ret ((), q, match res with Ok _ => Ok cx | Err e => Err (cx, e) end)
  | Discard q => Ret ((), q, Ok cx)
  end.

(** Either the packet is offered with its own fields, or it is dropped, and then it
    is not one the socket should send. *)
Definition verdict_ok (protocol : Protocol.t) p (v : verdict) : Prop :=
  match v with
  | HandOver q d => rechecked p q /\ raw_packet q /\ length q = length p /\ datagram_of q = Some d /\
      (proper p -> datagram_of p = Some d) /\ IpRepr.next_header d.1 = protocol
  | Discard q => length q = length p /\ ~ sendable protocol p
  end.

Definition closure_is cx protocol p : Prop :=
  exists v, verdict_ok protocol p v /\
    forall E (emit : Context -> IpRepr * list Z -> outcome (Context * result unit E)),
      send_packet emit cx protocol p = carry_out emit cx v.

(** What is not sendable, by cases. *)
Lemma unsendable protocol p d : datagram_of p = Some d -> IpRepr.next_header d.1 <> protocol -> ~ sendable protocol p.
Proof. intros Hd Hn (_ & d' & Hd' & Hp). congruence. Qed.

Lemma unreadable protocol p : datagram_of p = None -> ~ sendable protocol p.
Proof. intros Hd (_ & d' & Hd' & Hp). congruence. Qed.

(** The checksum [dispatch] writes, and that [parse] then accepts it. *)
Lemma dispatched_checksum cx p (caps := caps_ipv4 (cx_checksum_caps cx)) : raw_caps_ok cx -> bytes p -> v4_lengths p = true ->
  exists c, word c /\
    (if Checksum.tx caps then Ipv4Packet.fill_checksum p else Ipv4Packet.set_checksum 0 p) = Ret (with_check c p) /\
    (Checksum.rx caps = true -> (12 <= ihl p)%nat -> Ipv4Packet.verify_checksum (with_check c p) = Ret true).
Proof.
  intros Hcaps Hb [H20 Hl]%v4_lengths_spec. destruct (ihl_ok p Hb) as [Hhl Hmax]; [lia|]. subst caps. destruct (Checksum.tx _) eqn:Htx.
  - destruct (fill_checksum_any p (ihl p)) as (c & Hc & Hf & Hver); [done|done|lia..|]. by exists c.
  - exists 0. assert (word 0) by (unfold word; lia). split; [done|]. split; [by apply set_checksum_with|].
    intros Hrx. apply Hcaps in Hrx. congruence.
Qed.

Lemma ipv6_closure cx protocol p : bytes p -> p <> [] -> p !!! 0%nat / 16 = 6 -> closure_is cx protocol p.
Proof.
  intros Hb Hp H6. unfold closure_is, send_packet. rewrite version_ok, H6 by done. cbn [Z.eqb Pos.eqb mbind outcome_bind].
  destruct (v6_checked p Hb) as [_ ->]. cbn [mbind outcome_bind].
  assert (datagram_of p = if v6_lengths p then Some (ReprIpv6 (ipv6_fields_of p), slice p 40 (u16_at p 4)) else None) as Hd
    by (unfold datagram_of; by rewrite H6).
  destruct (v6_lengths p) eqn:Hv; [|exists (Discard p); split; [by split; [|apply unreadable]|done]].
  destruct (v6_read p Hb Hv H6) as (-> & -> & ->). cbn [mbind outcome_bind]. case_bool_decide as Hpr; cbn [negb].
  - exists (HandOver p (ReprIpv6 (ipv6_fields_of p), slice p 40 (u16_at p 4))). split; [|done]. split_and!; try done. by left.
  - exists (Discard p). split; [by split; [|apply (unsendable _ _ _ Hd)]|done].
Qed.

Lemma ipv4_closure cx protocol p :
  raw_caps_ok cx -> bytes p -> p <> [] -> p !!! 0%nat / 16 = 4 -> closure_is cx protocol p.
Proof.
  intros Hcaps Hb Hp H4. unfold closure_is, send_packet. rewrite version_ok, H4 by done. cbn [Z.eqb Pos.eqb mbind outcome_bind].
  destruct (v4_checked p Hb Hp) as [_ ->]. cbn [mbind outcome_bind].
  assert (forall q, datagram_of q = if q !!! 0%nat / 16 =? 4 then if v4_lengths q then
      Some (ReprIpv4 (ipv4_fields q (u16_at q 2 - ihl q)), slice q (ihl q) (u16_at q 2 - ihl q)) else None else datagram_of q) as Hdg
    by (intros q; unfold datagram_of; fold (v4_lengths q); by destruct (_ =? 4)).
  pose proof (Hdg p) as Hd. rewrite H4, Z.eqb_refl in Hd.
  destruct (v4_lengths p) eqn:Hv; [|exists (Discard p); split; [by split; [|apply unreadable]|done]].
  destruct (v4_read p (cx_checksum_caps cx) Hb Hv H4) as (-> & _ & _). cbn [mbind outcome_bind].
  case_bool_decide as Hpr; cbn [negb]; [|exists (Discard p); split; [by split; [|apply (unsendable _ _ _ Hd)]|done]].
  pose proof (proj1 (v4_lengths_spec p) Hv) as [H20 Hl].
  destruct (dispatched_checksum cx p Hcaps Hb Hv) as (c & Hc & -> & Hver).
  cbn [mbind outcome_bind]. destruct (lengths_with_check c p H20) as (E1 & E2 & E3).
  assert (bytes (with_check c p)) as Hbq by by apply bytes_with_check.
  assert (with_check c p !!! 0%nat / 16 = 4) as H4q by by rewrite total_with_check by lia.
  specialize (Hdg (with_check c p)). rewrite H4q, Z.eqb_refl, E3, Hv in Hdg.
  destruct (v4_read (with_check c p) (cx_checksum_caps cx) Hbq ltac:(by rewrite E3) H4q) as (_ & -> & ok & Hok & ->). cbn [mbind outcome_bind].
  destruct (Checksum.rx _ && negb ok) eqn:Hbad.
  - exists (Discard (with_check c p)). split; [|done]. split; [by apply length_with_check|]. intros [Hprop _].
    apply andb_true_iff in Hbad as [Hrx Hn]. rewrite Hver in Hok by (done || specialize (Hprop H4); lia). by injection Hok as <-.
  - eexists (HandOver (with_check c p) (_, _)). split; [|done]. split_and!.
    + right. split; [done|]. by exists c.
    + split; [done|]. intros Hnil. apply (f_equal length) in Hnil. rewrite length_with_check in Hnil by done. cbn in Hnil. lia.
    + by apply length_with_check.
    + exact Hdg.
    + intros Hprop. rewrite <- Hdg. symmetry. apply datagram_with_check; auto.
    + cbn [fst IpRepr.next_header]. rewrite <- Hpr. unfold ipv4_fields. cbn [ih_next_header]. by rewrite total_with_check by lia.
Qed.

Lemma closure_ok cx protocol p : raw_caps_ok cx -> raw_packet p -> closure_is cx protocol p.
Proof.
  intros Hcaps [Hb Hp]. destruct (decide (p !!! 0%nat / 16 = 4)) as [H4|H4]; [by apply ipv4_closure|].
  destruct (decide (p !!! 0%nat / 16 = 6)) as [H6|H6]; [by apply ipv6_closure|].
  unfold closure_is, send_packet. rewrite version_ok by done.
  rewrite (proj2 (Z.eqb_neq _ _) H4), (proj2 (Z.eqb_neq _ _) H6). cbn [mbind outcome_bind].
  exists (Discard p). split; [|done]. split; [done|]. apply unreadable. unfold datagram_of.
  by rewrite (proj2 (Z.eqb_neq _ _) H4), (proj2 (Z.eqb_neq _ _) H6).
Qed.
End Closure.

(** ** Operations *)

Inductive raw_op :=
| RawSend (data : list Z)
| RawRecv (data : list Z)
| RawPeek (data : list Z)
| RawArrive (ip : IpRepr) (payload : list Z)
| RawDispatch (takes : bool).

Inductive raw_answer :=
| RawDone
| RawNotSent (e : RawSendError)
| RawData (data : list Z) (n : nat)
| RawNoData (e : RawRecvError)
| RawOffered (d : IpRepr * list Z)
| RawIdle.

(** A device that takes the packet or refuses it, reporting it as its error. *)
Definition raw_device (takes : bool) cx (d : IpRepr * list Z) : outcome (Context * result unit (IpRepr * list Z)) :=
  Ret (cx, if takes then Ok () else Err d).

Definition raw_received (r : result (list Z * nat) RawRecvError) : raw_answer :=
  match r with Ok (data, n) => RawData data n | Err e => RawNoData e end.

Section Exec.
Context {BO : ByteOrder} {BO24 : ByteOrder24}.

Definition raw_offered (s : Socket) cx : raw_answer :=
  match dispatch (raw_device false) s cx with Ret (_, _, Err d) => RawOffered d | _ => RawIdle end.

Definition raw_exec cx (op : raw_op) (s : Socket) : outcome (Socket * raw_answer) :=
  match op with
  | RawSend data => '(s, r) ← send_slice data s; Ret (s, match r with Ok _ => RawDone | Err e => RawNotSent e end)
  | RawRecv data => '(s, r) ← recv_slice data s; Ret (s, raw_received r)
  | RawPeek data => '(s, r) ← peek_slice data s; Ret (s, raw_received r)
  | RawArrive ip payload =>
      if accepts ip s then s ← process cx ip payload s; Ret (s, RawDone) else Ret (s, RawDone)
  | RawDispatch takes => '(s', _, _) ← dispatch (raw_device takes) s cx; Ret (s', raw_offered s cx)
  end.

Fixpoint raw_run cx (ops : list raw_op) (s : Socket) : outcome (Socket * list raw_answer) :=
  match ops with
  | [] => Ret (s, [])
  | op :: ops => '(s, a) ← raw_exec cx op s; '(s, l) ← raw_run cx ops s; Ret (s, a :: l)
  end.
End Exec.

(** ** The abstract socket *)

Record raw_state := mkRaw { r_rx : list (list Z); r_tx : list (list Z) }.

Definition raw_abs (s : Socket) : raw_state := mkRaw (packets (rx_buffer s)).*2 (packets (tx_buffer s)).*2.

Definition raw_filled data p : raw_answer :=
  if (length data <? length p)%nat then RawNoData RawTruncated else RawData (p ++ drop (length p) data) (length p).

Section Spec.
Variables (cx : Context) (version : Version) (protocol : Protocol.t).

Inductive raw_step : raw_state -> raw_op -> raw_answer -> raw_state -> Prop :=
| rs_send rx tx data : raw_step (mkRaw rx tx) (RawSend data) RawDone (mkRaw rx (tx ++ [data]))
| rs_send_full u data : raw_step u (RawSend data) (RawNotSent RawBufferFull) u
| rs_recv rx tx data p : raw_step (mkRaw (p :: rx) tx) (RawRecv data) (raw_filled data p) (mkRaw rx tx)
| rs_recv_empty tx data : raw_step (mkRaw [] tx) (RawRecv data) (RawNoData RawExhausted) (mkRaw [] tx)
| rs_peek rx tx data p : raw_step (mkRaw (p :: rx) tx) (RawPeek data) (raw_filled data p) (mkRaw (p :: rx) tx)
| rs_peek_empty tx data : raw_step (mkRaw [] tx) (RawPeek data) (RawNoData RawExhausted) (mkRaw [] tx)
| rs_arrive rx tx ip payload :
    IpRepr.version ip = version -> IpRepr.next_header ip = protocol ->
    raw_step (mkRaw rx tx) (RawArrive ip payload) RawDone
      (mkRaw (rx ++ [ip_octets (cx_checksum_caps cx) ip ++ payload]) tx)
| rs_arrive_full u ip payload : raw_step u (RawArrive ip payload) RawDone u
| rs_offer rx tx p q d takes :
    (proper p -> datagram_of p = Some d) -> rechecked p q -> datagram_of q = Some d -> IpRepr.next_header d.1 = protocol ->
    raw_step (mkRaw rx (p :: tx)) (RawDispatch takes) (RawOffered d) (mkRaw rx (if takes then tx else q :: tx))
| rs_drop rx tx p takes :
    ~ sendable protocol p -> raw_step (mkRaw rx (p :: tx)) (RawDispatch takes) RawIdle (mkRaw rx tx)
| rs_idle rx takes : raw_step (mkRaw rx []) (RawDispatch takes) RawIdle (mkRaw rx []).

Inductive raw_steps : raw_state -> list raw_op -> list raw_answer -> raw_state -> Prop :=
| raw_steps_nil u : raw_steps u [] [] u
| raw_steps_cons u op a u1 ops l u2 :
    raw_step u op a u1 -> raw_steps u1 ops l u2 -> raw_steps u (op :: ops) (a :: l) u2.
End Spec.

(** ** The invariant *)

Record raw_inv (version : Version) (protocol : Protocol.t) (s : Socket) : Prop := {
  ri_version : ip_version s = version;
  ri_protocol : ip_protocol s = protocol;
  ri_rx : pb_wf (rx_buffer s);
  ri_tx : pb_wf (tx_buffer s);
  ri_storage : bytes (storage (payload_ring (rx_buffer s)));
  ri_packets : Forall raw_packet (packets (tx_buffer s)).*2
}.

(** The application sends octets, at least one; what arrives has a header. *)
Definition raw_admissible (op : raw_op) : Prop :=
  match op with
  | RawSend data => raw_packet data
  | RawArrive ip payload => ip_wf ip /\ bytes payload
  | _ => True
  end.

Section Refinement.
Context {BO : ByteOrder} {NE : NetworkEndian BO} {BO24 : ByteOrder24} {NE24 : NetworkEndian24 BO24}.
Variables (cx : Context) (version : Version) (protocol : Protocol.t).
Hypothesis Hcaps : raw_caps_ok cx.
Abbreviation inv := (raw_inv version protocol).
Abbreviation step := (raw_step cx version protocol).
Implicit Types (s : Socket).

Lemma ip_octets_ok caps ip : ip_wf ip -> length (ip_octets caps ip) = IpRepr.header_len ip /\ bytes (ip_octets caps ip).
Proof.
  destruct ip as [h|h]; cbn; intros Hwf.
  - destruct (emitted_header_fields h caps Hwf) as [Hh _]. split; [by apply header_octets_length|by apply header_octets_bytes].
  - split; [by apply length_ipv6_octets|]. destruct Hwf as [[_ Hs] [_ Hd] [Hn _] Hl Hh]. destruct (word_octets _ Hl).
    unfold ipv6_octets, be16. repeat first [apply Forall_app_2 | apply Forall_cons_2 | apply Forall_nil_2]; first [done | unfold byte; lia].
Qed.

Lemma ip_emit_ok caps ip header : ip_wf ip -> bytes header -> length header = IpRepr.header_len ip ->
  ip_emit ip caps header = Ret (ip_octets caps ip).
Proof.
  destruct ip as [h|h]; cbn [ip_wf ip_emit ip_octets IpRepr.header_len]; intros Hwf Hb Hl.
  - rewrite ipv4_emit_octets by (done || lia). by rewrite drop_ge, app_nil_r by lia.
  - rewrite ipv6_emit_octets by (done || lia). by rewrite drop_ge, app_nil_r by lia.
Qed.

(** The packet [process] writes through the slice of the receive buffer. *)
Lemma written_packet caps ip payload buf : ip_wf ip -> bytes buf -> length buf = (IpRepr.header_len ip + length payload)%nat ->
  (header ← range buf 0 (IpRepr.header_len ip); header ← ip_emit ip caps header;
   put_slice (IpRepr.header_len ip) (length (splice buf 0 header)) payload (splice buf 0 header)) =
    Ret (ip_octets caps ip ++ payload).
Proof.
  intros Hwf Hb Hl. destruct (ip_octets_ok caps ip Hwf) as [Ho _]. rewrite range_Ret by lia. cbn [mbind outcome_bind].
  rewrite ip_emit_ok by (done || (rewrite length_slice; lia) || by apply bytes_slice). cbn [mbind outcome_bind].
  assert (length (splice buf 0 (ip_octets caps ip)) = length buf) as Hs by (apply length_splice; lia).
  rewrite put_slice_ok by (rewrite ?Hs; lia). unfold splice in *. rewrite take_0, app_nil_l in *. rewrite take_app_length' by lia.
  by rewrite (drop_ge (_ ++ _)), app_nil_r by lia.
Qed.

Lemma accepts_ok ip s : inv s -> accepts ip s = true <-> IpRepr.version ip = version /\ IpRepr.next_header ip = protocol.
Proof. intros [Hv Hp _ _ _ _]. unfold accepts. rewrite Hv, Hp. repeat case_bool_decide; naive_solver. Qed.

(** [process] appends the packet when the buffer has room. *)
Lemma raw_process_ok ip payload s : inv s -> ip_wf ip -> bytes payload -> accepts ip s = true ->
  exists s' rx res, enqueue (IpRepr.header_len ip + length payload) () (rx_buffer s) = Ret (rx, res) /\
    process cx ip payload s = Ret s' /\ inv s' /\
    raw_abs s' = mkRaw ((packets (rx_buffer s)).*2 ++ if is_ok res then [ip_octets (cx_checksum_caps cx) ip ++ payload] else [])
                   (packets (tx_buffer s)).*2.
Proof.
  intros [Hv Hp Hrx Htx Hst Hpk] Hip Hb Ha. unfold process. rewrite Ha. cbn [rust_assert mbind outcome_bind].
  destruct (enqueue_ok (IpRepr.header_len ip + length payload) () _ Hrx) as ([rx [[start n]|e]] & He & Hpost); rewrite He;
    cbn [mbind outcome_bind enqueue_post] in *.
  - destruct (enqueue_bounds _ _ _ _ _ _ He) as [-> Hbd]. destruct Hpost as [_ Hw]. apply enqueue_storage in He.
    destruct (ip_octets_ok (cx_checksum_caps cx) ip Hip) as [Ho Hob].
    pose proof (written_packet (cx_checksum_caps cx) ip payload (slice (storage (payload_ring rx)) start (IpRepr.header_len ip + length payload)) Hip) as Hwr.
    rewrite length_slice in Hwr. rewrite He in Hwr. specialize (Hwr (bytes_slice _ _ _ Hst)). rewrite He in Hbd. specialize (Hwr ltac:(lia)).
    rewrite He. destruct (range _ 0 (IpRepr.header_len ip)) as [hd|]; [|done]. cbn [mbind outcome_bind] in *.
    destruct (ip_emit ip _ hd) as [hd'|]; [|done]. cbn [mbind outcome_bind] in *. rewrite Hwr. cbn [mbind outcome_bind].
    destruct (Hw (ip_octets (cx_checksum_caps cx) ip ++ payload)) as [Hwf Hq]; [rewrite length_app; lia|].
    do 3 eexists. split; [done|]. split; [done|]. split.
    + constructor; cbn; try done. rewrite He. apply bytes_splice; [done|by apply Forall_app_2].
    + unfold raw_abs. cbn [set_field rx_buffer tx_buffer]. by rewrite Hq, fmap_app.
  - destruct Hpost as [Hwf Hq]. apply enqueue_storage in He. do 3 eexists. split; [done|]. split; [done|]. split.
    + constructor; cbn; try done. by rewrite He.
    + unfold raw_abs. cbn. by rewrite Hq, app_nil_r.
Qed.

Lemma raw_arrive_ok ip payload s : inv s -> ip_wf ip -> bytes payload ->
  exists s' a, raw_exec cx (RawArrive ip payload) s = Ret (s', a) /\ inv s' /\
    step (raw_abs s) (RawArrive ip payload) a (raw_abs s').
Proof.
  intros Hinv Hip Hb. cbn [raw_exec]. destruct (accepts ip s) eqn:Ha.
  2: { do 2 eexists. split; [done|]. split; [done|]. apply rs_arrive_full. }
  destruct (raw_process_ok ip payload s Hinv Hip Hb Ha) as (s' & rx & res & _ & -> & Hinv' & Habs). cbn [mbind outcome_bind].
  do 2 eexists. split; [done|]. split; [done|]. rewrite Habs. apply accepts_ok in Ha as [??]; [|done]. destruct (is_ok res).
  - by apply rs_arrive.
  - rewrite app_nil_r. apply (rs_arrive_full cx version protocol (raw_abs s)).
Qed.

(** What [dispatch] does with the packet at the front, whatever the device. *)
Lemma raw_dispatch_ok s : inv s ->
  match (packets (tx_buffer s)).*2 with
  | [] => forall E (emit : Context -> IpRepr * list Z -> outcome (Context * result unit E)),
      exists s', dispatch emit s cx = Ret (s', cx, Ok ()) /\ inv s' /\ raw_abs s' = raw_abs s
  | p :: l => exists v, verdict_ok protocol p v /\
      forall E (emit : Context -> IpRepr * list Z -> outcome (Context * result unit E)),
      match v with
      | HandOver q d => forall cx' res, emit cx d = Ret (cx', res) ->
          exists s', dispatch emit s cx = Ret (s', cx', res) /\ inv s' /\
            raw_abs s' = mkRaw (packets (rx_buffer s)).*2 (if is_ok res then l else q :: l)
      | Discard _ => exists s', dispatch emit s cx = Ret (s', cx, Ok ()) /\ inv s' /\
            raw_abs s' = mkRaw (packets (rx_buffer s)).*2 l
      end
  end.
Proof.
  intros [Hv Hp Hrx Htx Hst Hpk]. unfold dispatch. rewrite Hp.
  assert (forall (E : Type) (emit : Context -> IpRepr * list Z -> outcome (Context * result unit E)), _)
    as Hd by exact (fun E emit => dequeue_with_ok (fun _ buffer => send_packet emit cx protocol buffer) _ Htx).
  destruct (packets (tx_buffer s)) as [|[[] p] l] eqn:Hl; cbn [fmap list_fmap snd] in *.
  { intros E emit. destruct (Hd E emit) as (tx & -> & Hwf & Hq). eexists. split; [done|]. split; [constructor; cbn; try done; by rewrite Hq|].
    unfold raw_abs. cbn. by rewrite Hq, Hl. }
  apply Forall_cons_1 in Hpk as [Hpp Hpk]. destruct (closure_ok cx protocol p Hcaps Hpp) as (v & Hvok & Hcl).
  exists v. split; [done|]. intros E emit. specialize (Hcl E emit). specialize (Hd E emit). destruct v as [q d|q]; cbn [carry_out] in Hcl.
  - destruct Hvok as (Hr & Hqp & Hql & _). intros cx' res Hem. rewrite Hem in Hcl. cbn [mbind outcome_bind] in Hcl.
    destruct (Hd () q _ Hcl Hql) as (tx & -> & Hwf & Hq). cbn [mbind outcome_bind].
    destruct res as [[]|e]; cbn [is_ok] in *; eexists; (split; [done|]); unfold raw_abs; cbn [set_field rx_buffer tx_buffer]; rewrite Hq;
      (split; [|done]); constructor; cbn; try done; rewrite Hq; [done|by apply Forall_cons_2].
  - destruct Hvok as [Hql Hns]. destruct (Hd () q _ Hcl Hql) as (tx & -> & Hwf & Hq). cbn [mbind outcome_bind is_ok] in *.
    eexists. split; [done|]. unfold raw_abs. cbn [set_field rx_buffer tx_buffer]. rewrite Hq. split; [|done].
    constructor; cbn; try done. by rewrite Hq.
Qed.

Lemma raw_dispatch_step takes s : inv s ->
  exists s' a, raw_exec cx (RawDispatch takes) s = Ret (s', a) /\ inv s' /\ step (raw_abs s) (RawDispatch takes) a (raw_abs s').
Proof.
  intros Hinv. cbn [raw_exec]. unfold raw_offered. pose proof (raw_dispatch_ok s Hinv) as Hd. unfold raw_abs at 1.
  destruct (packets (tx_buffer s)).*2 as [|p l] eqn:Hl.
  - destruct (Hd _ (raw_device takes)) as (s' & -> & Hinv' & Habs), (Hd _ (raw_device false)) as (s2 & -> & _). cbn [mbind outcome_bind].
    do 2 eexists. split; [done|]. split; [done|]. rewrite Habs. unfold raw_abs. rewrite Hl. apply rs_idle.
  - destruct Hd as (v & Hv & Hd). pose proof (Hd _ (raw_device takes)) as Ht. pose proof (Hd _ (raw_device false)) as Hf. destruct v as [q d|q].
    + destruct (Ht cx _ eq_refl) as (s' & -> & Hinv' & Habs), (Hf cx _ eq_refl) as (s2 & -> & _). cbn [mbind outcome_bind].
      do 2 eexists. split; [done|]. split; [done|]. rewrite Habs. destruct Hv as (Hr & _ & _ & Hq & Hprop & Hn).
      replace (if is_ok _ then l else _) with (if takes then l else q :: l) by by destruct takes. by eapply rs_offer.
    + destruct Ht as (s' & -> & Hinv' & Habs), Hf as (s2 & -> & _). cbn [mbind outcome_bind].
      do 2 eexists. split; [done|]. split; [done|]. rewrite Habs. apply rs_drop. apply Hv.
Qed.

Lemma raw_send_ok data s : inv s -> raw_packet data ->
  exists s' a, raw_exec cx (RawSend data) s = Ret (s', a) /\ inv s' /\ step (raw_abs s) (RawSend data) a (raw_abs s').
Proof.
  intros [Hv Hp Hrx Htx Hst Hpk] Hd. cbn [raw_exec]. unfold send_slice, send.
  destruct (enqueue_copy_ok data () _ Htx) as (tx & res & -> & Hpost). cbn [mbind outcome_bind]. destruct res as [buf|e].
  - destruct Hpost as (tx' & Hcp & Hwf & Hpk'). cbn. rewrite Hcp. cbn [mbind outcome_bind].
    do 2 eexists. split; [done|]. split.
    + constructor; cbn; try done. rewrite Hpk', fmap_app. apply Forall_app_2; [done|]. by apply Forall_singleton.
    + unfold raw_abs. cbn. rewrite Hpk', fmap_app. apply rs_send.
  - destruct Hpost as [Hwf Hpk']. cbn. do 2 eexists. split; [done|]. split.
    + constructor; cbn; try done. by rewrite Hpk'.
    + unfold raw_abs. cbn. rewrite Hpk'. apply rs_send_full.
Qed.

Lemma raw_filled_ok data p :
  raw_received (if (length data <? length p)%nat then Err RawTruncated else Ok (p ++ drop (length p) data, length p)) = raw_filled data p.
Proof. unfold raw_filled. by destruct (_ <? _)%nat. Qed.

Lemma raw_recv_ok data s : inv s ->
  exists s' a, raw_exec cx (RawRecv data) s = Ret (s', a) /\ inv s' /\ step (raw_abs s) (RawRecv data) a (raw_abs s').
Proof.
  intros [Hv Hp Hrx Htx Hst Hpk]. cbn [raw_exec]. unfold recv_slice, recv.
  destruct (dequeue_ok _ Hrx) as ([rx [[m [start n]]|e]] & Hd & Hpost); rewrite Hd; apply dequeue_storage in Hd;
    cbn [mbind outcome_bind dequeue_post] in *.
  - destruct Hpost as [Hwf Hq]. rewrite fill_slice_ok. cbn [mbind outcome_bind]. do 2 eexists. split; [done|].
    split; [constructor; cbn; try done; by rewrite Hd|]. rewrite raw_filled_ok. unfold raw_abs at 1. rewrite Hq. apply rs_recv.
  - destruct Hpost as (Hwf & Hq & Hq'). do 2 eexists. split; [done|]. split; [constructor; cbn; try done; by rewrite Hd|].
    unfold raw_abs. cbn. rewrite Hq, Hq'. apply rs_recv_empty.
Qed.

Lemma raw_peek_ok data s : inv s ->
  exists s' a, raw_exec cx (RawPeek data) s = Ret (s', a) /\ inv s' /\ step (raw_abs s) (RawPeek data) a (raw_abs s').
Proof.
  intros [Hv Hp Hrx Htx Hst Hpk]. cbn [raw_exec]. unfold peek_slice, peek.
  destruct (peek_ok _ Hrx) as (rx & res & Hd & Hwf & Hq & Hres). rewrite Hd. apply peek_storage in Hd. cbn [mbind outcome_bind].
  assert (raw_abs (s <| rx_buffer := rx |>) = raw_abs s) as Habs by (unfold raw_abs; cbn; by rewrite Hq).
  assert (inv (s <| rx_buffer := rx |>)) as Hinv by (constructor; cbn; try done; by rewrite Hd).
  destruct (packets (rx_buffer s)) as [|[m p] l] eqn:Hl; subst res; cbn [mbind outcome_bind].
  - do 2 eexists. split; [done|]. split; [done|]. rewrite Habs. unfold raw_abs. rewrite Hl. apply rs_peek_empty.
  - rewrite fill_slice_ok. cbn [mbind outcome_bind]. do 2 eexists. split; [done|]. split; [done|].
    rewrite raw_filled_ok, Habs. unfold raw_abs. rewrite Hl. apply rs_peek.
Qed.

Lemma raw_run_ok ops s : inv s -> Forall raw_admissible ops ->
  exists s' l, raw_run cx ops s = Ret (s', l) /\ inv s' /\ raw_steps cx version protocol (raw_abs s) ops l (raw_abs s').
Proof.
  revert s. induction ops as [|op ops IH]; intros s Hinv Ha; [exists s, []; split_and!; [done..|constructor]|].
  apply Forall_cons_1 in Ha as [Ha Has].
  assert (exists s1 a, raw_exec cx op s = Ret (s1, a) /\ inv s1 /\ step (raw_abs s) op a (raw_abs s1)) as (s1 & a & He & Hinv1 & Hst).
  { destruct op; [by apply raw_send_ok|by apply raw_recv_ok|by apply raw_peek_ok|by destruct Ha; apply raw_arrive_ok|by apply raw_dispatch_step]. }
  destruct (IH s1 Hinv1 Has) as (s2 & l & Hl & Hinv2 & Hsts). exists s2, (a :: l). cbn [raw_run]. rewrite He. cbn [mbind outcome_bind].
  rewrite Hl. split; [done|]. split; [done|]. by econstructor.
Qed.

Lemma raw_new_inv rx_meta rx_payload tx_meta tx_payload : bytes rx_payload ->
  inv (new version protocol (PacketBuffer.new rx_meta rx_payload) (PacketBuffer.new tx_meta tx_payload)).
Proof.
  intros Hb. destruct (new_pb_wf rx_meta rx_payload), (new_pb_wf tx_meta tx_payload).
  by constructor.
Qed.

(** An empty buffer takes what fits. *)
Lemma raw_send_accepted data s : inv s -> raw_packet data -> is_empty (tx_buffer s) = true ->
  (0 < packet_send_capacity s)%nat -> (length data <= payload_send_capacity s)%nat ->
  exists s', send_slice data s = Ret (s', Ok ()) /\ inv s' /\
    raw_abs s' = mkRaw (packets (rx_buffer s)).*2 ((packets (tx_buffer s)).*2 ++ [data]).
Proof.
  intros Hinv Hd He Hm Hc. destruct (raw_send_ok data s Hinv Hd) as (s' & a & Hx & Hinv' & Hst). cbn [raw_exec] in Hx.
  assert (exists s1, send_slice data s = Ret (s1, Ok ())) as [s1 Hs1].
  { unfold send_slice, send. destruct (enqueue_accepts_when_empty (length data) () (tx_buffer s)) as (tx & start & Hen); [apply Hinv|done..|].
    rewrite Hen. cbn. unfold copy_from_slice. cbn [snd]. rewrite Nat.eqb_refl. by eexists. }
  rewrite Hs1 in Hx. cbn [mbind outcome_bind] in Hx. injection Hx as <- <-. exists s1. split; [done|]. split; [done|].
  set (u := raw_abs s1) in *. clearbody u. unfold raw_abs in Hst. by inversion Hst.
Qed.

Lemma raw_arrive_accepted ip payload s : inv s -> ip_wf ip -> bytes payload -> IpRepr.version ip = version -> IpRepr.next_header ip = protocol ->
  is_empty (rx_buffer s) = true -> (0 < packet_recv_capacity s)%nat -> (IpRepr.header_len ip + length payload <= payload_recv_capacity s)%nat ->
  exists s', process cx ip payload s = Ret s' /\ inv s' /\
    raw_abs s' = mkRaw ((packets (rx_buffer s)).*2 ++ [ip_octets (cx_checksum_caps cx) ip ++ payload]) (packets (tx_buffer s)).*2.
Proof.
  intros Hinv Hip Hb Hv Hn He Hm Hc. destruct (raw_process_ok ip payload s Hinv Hip Hb) as (s' & rx & res & Hen & Hpr & Hinv' & Habs);
    [by apply accepts_ok|].
  destruct (enqueue_accepts_when_empty (IpRepr.header_len ip + length payload) () (rx_buffer s)) as (rx' & start & Hen'); [apply Hinv|done..|].
  rewrite Hen in Hen'. injection Hen' as -> ->. exists s'. by rewrite Hpr.
Qed.
End Refinement.

(** A packet built from a header and its payload reads as these. *)
Lemma datagram_of_octets {BO : ByteOrder} {NE : NetworkEndian BO} caps ip payload :
  ip_wf ip -> IpRepr.payload_len ip = length payload ->
  datagram_of (ip_octets caps ip ++ payload) = Some (ip, payload) /\ proper (ip_octets caps ip ++ payload).
Proof.
  destruct ip as [h|h]; cbn [ip_wf ip_octets IpRepr.payload_len]; intros Hwf Hl.
  - destruct (emitted_header_fields h caps Hwf) as (Hh & Ht & Hs & Hd & Hho & Hn & _). set (e := emitted_header caps h) in *.
    pose proof (header_octets_length e Hh) as H20. destruct Hwf as (_ & _ & _ & Hpn & Hlen & _).
    assert (u16_at (header_octets e ++ payload) 2 = (20 + ih_payload_len h)%nat) as Htl.
    { change (Z.to_nat (256 * (h_total_len e / 256) + h_total_len e mod 256) = (20 + ih_payload_len h)%nat).
      rewrite <- Z.div_mod by lia. lia. }
    assert (slice (header_octets e ++ payload) 12 4 = ih_src_addr h /\ slice (header_octets e ++ payload) 16 4 = ih_dst_addr h) as [Hsl Hdl].
    { destruct (header_cons e Hh) as (s0 & s1 & s2 & s3 & d0 & d1 & d2 & d3 & Es & Ed). rewrite <- Hs, <- Hd. unfold header_octets.
      rewrite Es, Ed. done. }
    split; [|intros _; change (20 <= 20)%nat; lia]. unfold datagram_of. change ((header_octets e ++ payload) !!! 0%nat / 16) with 4.
    change (ihl (header_octets e ++ payload)) with 20%nat. rewrite Htl, length_app, H20, Z.eqb_refl.
    rewrite !(proj2 (Nat.leb_le _ _)) by lia. cbn [andb]. unfold ipv4_fields. rewrite Hsl, Hdl.
    change ((header_octets e ++ payload) !!! 9%nat) with (h_proto e). change ((header_octets e ++ payload) !!! 8%nat) with (h_hop e).
    rewrite Hho, Hn, Hpn. replace (20 + ih_payload_len h - 20)%nat with (ih_payload_len h) by lia. unfold slice.
    rewrite drop_app_length', take_ge by (done || lia). by destruct h.
  - pose proof (length_ipv6_octets h Hwf) as H40. destruct Hwf as [[Hs _] [Hd _] [_ Hpn] Hlen _].
    assert (u16_at (ipv6_octets h ++ payload) 4 = ih_payload_len h) as Htl.
    { change (Z.to_nat (256 * (Z.of_nat (ih_payload_len h) / 256) + Z.of_nat (ih_payload_len h) mod 256) = ih_payload_len h).
      rewrite <- Z.div_mod by lia. lia. }
    split; [|by intros Hv]. unfold datagram_of. change ((ipv6_octets h ++ payload) !!! 0%nat / 16) with 6.
    rewrite Htl, length_app, H40. change (6 =? 4) with false. rewrite Z.eqb_refl. cbn iota. rewrite !(proj2 (Nat.leb_le _ _)) by lia. cbn [andb]. unfold ipv6_fields_of.
    rewrite Htl. change ((ipv6_octets h ++ payload) !!! 6%nat) with (Protocol.into (ih_next_header h)).
    change ((ipv6_octets h ++ payload) !!! 7%nat) with (ih_hop_limit h). rewrite Hpn.
    assert (slice (ipv6_octets h ++ payload) 8 16 = ih_src_addr h) as ->.
    { unfold slice. change (drop 8 (ipv6_octets h ++ payload)) with ((ih_src_addr h ++ ih_dst_addr h) ++ payload).
      by rewrite <- app_assoc, take_app_length'. }
    assert (slice (ipv6_octets h ++ payload) 24 16 = ih_dst_addr h) as ->.
    { unfold slice. rewrite <- (drop_drop _ 16 8). change (drop 8 (ipv6_octets h ++ payload)) with ((ih_src_addr h ++ ih_dst_addr h) ++ payload).
      by rewrite <- app_assoc, drop_app_length', take_app_length'. }
    unfold slice. rewrite drop_app_length', take_ge by (done || lia). by destruct h.
Qed.


(** A packet crosses from one raw socket to another: what the application of one
    sends is offered to the device as its header and payload, and these, when they
    arrive at a socket of the same version and protocol, are read there as the same
    header and payload. *)
Theorem raw_packet_crosses {BO : ByteOrder} (NE : NetworkEndian BO) {BO24 : ByteOrder24} (NE24 : NetworkEndian24 BO24)
    cx cx' ip payload meta storage data :
  raw_caps_ok cx -> ip_wf ip -> IpRepr.payload_len ip = length payload -> bytes payload -> bytes storage ->
  (0 < length meta)%nat -> (IpRepr.header_len ip + length payload <= length storage)%nat ->
  length data = (IpRepr.header_len ip + length payload)%nat ->
  let buffer := PacketBuffer.new meta storage in
  let socket := new (IpRepr.version ip) (IpRepr.next_header ip) buffer buffer in
  exists s1 s2 r1 r2,
    send_slice (ip_octets (cx_checksum_caps cx) ip ++ payload) socket = Ret (s1, Ok ()) /\
    dispatch (raw_device false) s1 cx = Ret (s2, cx, Err (ip, payload)) /\
    process cx' ip payload socket = Ret r1 /\
    recv_slice data r1 = Ret (r2, Ok (ip_octets (cx_checksum_caps cx') ip ++ payload, length data)).
Proof.
  intros Hcaps Hip Hpl Hb Hst Hm Hc Hdl buffer socket.
  destruct (datagram_of_octets (cx_checksum_caps cx) ip payload Hip Hpl) as [Hdg Hprop].
  destruct (ip_octets_ok (cx_checksum_caps cx) ip Hip) as [Hol Hob].
  pose proof (raw_new_inv (IpRepr.version ip) (IpRepr.next_header ip) meta storage meta storage Hst) as Hinv. fold buffer socket in Hinv.
  set (p := ip_octets (cx_checksum_caps cx) ip ++ payload) in *.
  assert (raw_packet p) as Hp.
  { split; [by apply Forall_app_2|]. intros Hnil. apply (f_equal length) in Hnil. unfold p in Hnil. rewrite length_app, Hol in Hnil.
    destruct ip; cbn in Hnil; lia. }
  destruct (raw_send_accepted cx _ _ p socket Hinv Hp) as (s1 & Hs1 & Hi1 & Ha1); [done|done|unfold p; rewrite length_app, Hol; done|].
  pose proof (raw_dispatch_ok cx _ _ Hcaps s1 Hi1) as Hd. assert ((packets (tx_buffer s1)).*2 = [p]) as Htx by (by injection Ha1).
  rewrite Htx in Hd. destruct Hd as ([q d|q] & Hv & Hd).
  2: { exfalso. destruct Hv as [_ Hns]. apply Hns. split; [done|]. by eexists. }
  destruct Hv as (_ & _ & _ & _ & Hdp & _). rewrite Hdg in Hdp. specialize (Hdp Hprop). injection Hdp as <-.
  destruct (Hd _ (raw_device false) cx _ eq_refl) as (s2 & Hs2 & _).
  destruct (raw_arrive_accepted cx' _ _ ip payload socket Hinv Hip Hb eq_refl eq_refl) as (r1 & Hr1 & Hri & Hra); [done..|].
  destruct (raw_recv_ok cx' _ _ data r1 Hri) as (r2 & a & Hx & _ & Hst2). exists s1, s2, r1. cbn [raw_exec] in Hx.
  destruct (recv_slice data r1) as [[r2' res]|] eqn:Hrs; [|done]. exists r2'. split_and!; try done.
  cbn [mbind outcome_bind] in Hx. injection Hx as <- <-. rewrite Hra in Hst2.
  set (o := ip_octets (cx_checksum_caps cx') ip ++ payload) in *.
  assert (length o = length data) as Hlo by (unfold o; rewrite length_app; destruct (ip_octets_ok (cx_checksum_caps cx') ip Hip); lia).
  assert (raw_received res = raw_filled data o) as Hres by by inversion Hst2.
  unfold raw_filled in Hres. rewrite (proj2 (Nat.ltb_ge _ _)), drop_ge, app_nil_r, Hlo in Hres by lia.
  destruct res as [[dd n]|e]; cbn in Hres; [|done]. by injection Hres as -> ->.
Qed.

(** ** Scenarios *)

Module RawWitness.
#[local] Existing Instance network_endian.
#[local] Existing Instance network_endian24.
#[local] Existing Instance network_endian_laws.
#[local] Existing Instance network_endian24_laws.

Definition cx_with (caps : ChecksumCapabilities) : Context :=
  mkContext 1000000 1500 (Rand.new 42) (fun _ => None) (fun _ => false) HwIp caps [].
Definition cx : Context := cx_with ChecksumCapabilities.default.

Definition ip : IpRepr := ReprIpv4 (mkIpHeader [10; 0; 0; 1] [10; 0; 0; 2] Protocol.IpSecEsp 3 64).
Definition ip6 : IpRepr := ReprIpv6 (mkIpHeader (replicate 16 1) (replicate 16 2) Protocol.IpSecEsp 2 64).
Definition packet : list Z := ip_octets ChecksumCapabilities.default ip ++ [1; 2; 3].

Definition meta : list (PacketMetadata unit) := repeat EMPTY 4.
Definition storage : list Z := repeat 0 200.
Definition socket (version : Version) : Socket :=
  new version Protocol.IpSecEsp (PacketBuffer.new meta storage) (PacketBuffer.new meta storage).

Definition exchange : list raw_op :=
  [RawSend packet; RawSend [7; 7]; RawDispatch false; RawDispatch true; RawDispatch true; RawDispatch true;
   RawArrive ip [4; 5; 6]; RawArrive ip6 [8; 9]; RawPeek [0]; RawRecv (replicate 30 0); RawRecv [0]].

Lemma ip_is_wf : ip_wf ip.
Proof. repeat split; first [by_decide | cbn; lia]. Qed.

Lemma ip6_is_wf : ip_wf ip6.
Proof. constructor; repeat split; first [by_decide | cbn; lia]. Qed.


(** Both IP versions cross from socket to socket. *)
Lemma raw_packet_crosses_witness :
  exists s1 s2 r1 r2,
    send_slice packet (socket V4) = Ret (s1, Ok ()) /\
    dispatch (raw_device false) s1 cx = Ret (s2, cx, Err (ip, [1; 2; 3])) /\
    process cx ip [1; 2; 3] (socket V4) = Ret r1 /\
    recv_slice (replicate 23 0) r1 = Ret (r2, Ok (packet, 23%nat)).
Proof.
  apply (raw_packet_crosses network_endian_laws network_endian24_laws cx cx ip [1; 2; 3] meta storage (replicate 23 0)).
  - done.
  - exact ip_is_wf.
  - done.
  - by_decide.
  - by_decide.
  - cbn. lia.
  - cbn. lia.
  - done.
Defined.

(** An empty packet is accepted for sending, and [dispatch] then panics:
    [IpVersion::of_packet] indexes the first octet. *)
Theorem raw_empty_packet_panics :
  exists s, send_slice [] (socket V4) = Ret (s, Ok ()) /\ dispatch (raw_device true) s cx = Panic.
Proof. eexists. split; [vm_compute; reflexivity|]. vm_compute. reflexivity. Qed.

(** When the device fills in the IPv4 checksums and the interface only verifies them
    ([Checksum::Rx]), [dispatch] clears the checksum of a packet and then
    drops the packet because its checksum is wrong. *)
Theorem raw_rx_checksum_drops_packets :
  let cx := cx_with (mkCaps Rx Both Both Both Both) in
  sendable Protocol.IpSecEsp packet /\
  exists s s', send_slice packet (socket V4) = Ret (s, Ok ()) /\
    dispatch (raw_device false) s cx = Ret (s', cx, Ok ()) /\ packets (tx_buffer s') = [].
Proof.
  split.
  - destruct (datagram_of_octets (NE := network_endian_laws) ChecksumCapabilities.default ip [1; 2; 3] ip_is_wf eq_refl) as [Hd Hp].
    split; [exact Hp|]. by eexists.
  - do 2 eexists. split; [vm_compute; reflexivity|]. split; [vm_compute; reflexivity|]. vm_compute. reflexivity.
Qed.

(** A socket for IPv6 sends an IPv4 packet of its protocol: the version is not compared. *)
Theorem raw_other_version_sent :
  exists s s', send_slice packet (socket V6) = Ret (s, Ok ()) /\
    dispatch (raw_device false) s cx = Ret (s', cx, Err (ip, [1; 2; 3])).
Proof. do 2 eexists. split; [vm_compute; reflexivity|]. vm_compute. reflexivity. Qed.
End RawWitness.
