(* ===== verification/UdpSocket.v ===== *)
(** * The UDP socket (src/socket/udp.rs)

    A socket is two packet buffers and the endpoint it is bound to.  It refines
    two queues of datagrams: [send] and [process] append to them, [dispatch] and
    [recv] take from them.  A returned [&mut [u8]] is the start and the length of
    the slice in the payload storage, as in PacketBuffer.v; [send_slice] and
    [process] write through it. *)

From S2P Require Import Prelude RingBuffer PacketBuffer Time Phy Ip UdpWire TcpTimers.
From S2P Require Import Context.

(** [PacketMeta] of src/phy/mod.rs, with the packet id. *)
Record PacketMeta := mkPacketMeta { meta_id : Z }.

Record UdpMetadata := mkUdpMetadata {
  um_endpoint : Endpoint;
  um_local_address : option Address;
  um_meta : PacketMeta
}.

Inductive BindError := BindInvalidState | BindUnaddressable.
Inductive SendError := SendUnaddressable | SendBufferFull.
Inductive RecvError := Exhausted | Truncated.

(** What a UDP socket hands to the device. *)
Definition datagram : Type := IpRepr * UdpRepr * list Z.

Module UdpSocket.
Record Socket := mkSocket {
  endpoint : ListenEndpoint;
  rx_buffer : PacketBuffer UdpMetadata;
  tx_buffer : PacketBuffer UdpMetadata;
  hop_limit : option Z;
  rx_waker : WakerRegistration;
  tx_waker : WakerRegistration
}.

#[export] Instance eta_Socket : Settable Socket := fun s =>
  mkSocket (endpoint s) (rx_buffer s) (tx_buffer s) (hop_limit s) (rx_waker s) (tx_waker s).

Implicit Types (s : Socket) (cx : Context) (meta : UdpMetadata).

(** [IpListenEndpoint::default()] *)
Definition unbound : ListenEndpoint := mkListen None 0.

Definition new (rx tx : PacketBuffer UdpMetadata) : Socket :=
  mkSocket unbound rx tx None WakerRegistration.new WakerRegistration.new.

Definition register_recv_waker (w : Waker) s : Socket := s <| rx_waker ::= WakerRegistration.register w |>.
Definition register_send_waker (w : Waker) s : Socket := s <| tx_waker ::= WakerRegistration.register w |>.

Definition set_hop_limit (limit : option Z) s : outcome Socket :=
  match limit with
  | Some 0%Z => Panic
  | _ => Ret (s <| hop_limit := limit |>)
  end.

Definition is_open s : bool := negb (le_port (endpoint s) =? 0)%Z.

Definition wake_both s : Socket :=
  s <| rx_waker ::= WakerRegistration.wake |> <| tx_waker ::= WakerRegistration.wake |>.

Definition bind (e : ListenEndpoint) s : Socket * result unit BindError :=
  if (le_port e =? 0)%Z then (s, Err BindUnaddressable)
  else if is_open s then (s, Err BindInvalidState)
  else (wake_both (s <| endpoint := e |>), Ok ()).

Definition close s : Socket :=
  wake_both (s <| endpoint := unbound |> <| tx_buffer ::= reset |> <| rx_buffer ::= reset |>).

Definition can_send s : bool := negb (is_full (tx_buffer s)).
Definition can_recv s : bool := negb (is_empty (rx_buffer s)).
Definition packet_recv_capacity s : nat := packet_capacity (rx_buffer s).
Definition packet_send_capacity s : nat := packet_capacity (tx_buffer s).
Definition payload_recv_capacity s : nat := payload_capacity (rx_buffer s).
Definition payload_send_capacity s : nat := payload_capacity (tx_buffer s).

(** The three guards of [send] and [send_with]. *)
Definition addressable meta s : bool :=
  negb (le_port (endpoint s) =? 0)%Z && negb (Address.is_unspecified (ep_addr (um_endpoint meta)))
  && negb (ep_port (um_endpoint meta) =? 0)%Z.

Definition send (size : nat) meta s : outcome (Socket * result (nat * nat) SendError) :=
  if negb (addressable meta s) then Ret (s, Err SendUnaddressable) else
  '(tx, res) ← enqueue size meta (tx_buffer s);
  let s := s <| tx_buffer := tx |> in
  Ret (s, match res with Ok buf => Ok buf | Err _ => Err SendBufferFull end).

Definition send_with (max_size : nat) meta (f : list Z -> list Z * nat) s :
    outcome (Socket * result nat SendError) :=
  if negb (addressable meta s) then Ret (s, Err SendUnaddressable) else
  '(tx, res) ← enqueue_with_infallible max_size meta f (tx_buffer s);
  let s := s <| tx_buffer := tx |> in
  Ret (s, match res with Ok size => Ok size | Err _ => Err SendBufferFull end).

Definition send_slice (data : list Z) meta s : outcome (Socket * result unit SendError) :=
  '(s, res) ← send (length data) meta s;
  match res with
  | Ok buf => tx ← copy_from_slice buf data (tx_buffer s); Ret (s <| tx_buffer := tx |>, Ok ())
  | Err e => Ret (s, Err e)
  end.

(** The payload is read through the returned slice. *)
Definition recv s : outcome (Socket * result (list Z * UdpMetadata) RecvError) :=
  '(rx, res) ← dequeue (rx_buffer s);
  let s := s <| rx_buffer := rx |> in
  Ret (s, match res with
          | Ok (meta, (start, n)) => Ok (slice (storage (payload_ring rx)) start n, meta)
          | Err _ => Err Exhausted
          end).

(** The caller's slice, as it is left, with the metadata. *)
Definition with_meta meta (r : result (list Z * nat) RecvError) : result (list Z * nat * UdpMetadata) RecvError :=
  match r with Ok (data, n) => Ok (data, n, meta) | Err e => Err e end.

Definition recv_slice (data : list Z) s : outcome (Socket * result (list Z * nat * UdpMetadata) RecvError) :=
  '(s, res) ← recv s;
  match res with
  | Ok (buffer, meta) => r ← fill_slice Truncated data buffer; Ret (s, with_meta meta r)
  | Err _ => Ret (s, Err Exhausted)
  end.

Definition peek s : outcome (Socket * result (list Z * UdpMetadata) RecvError) :=
  '(rx, res) ← PacketBuffer.peek (rx_buffer s);
  let s := s <| rx_buffer := rx |> in
  Ret (s, match res with Ok (meta, payload) => Ok (payload, meta) | Err _ => Err Exhausted end).

Definition peek_slice (data : list Z) s : outcome (Socket * result (list Z * nat * UdpMetadata) RecvError) :=
  '(s, res) ← peek s;
  match res with
  | Ok (buffer, meta) => r ← fill_slice Truncated data buffer; Ret (s, with_meta meta r)
  | Err e => Ret (s, Err e)
  end.

Definition accepts cx (ip_repr : IpRepr) (repr : UdpRepr) s : bool :=
  if negb (le_port (endpoint s) =? udp_dst_port repr)%Z then false
  else if bool_decide (is_Some (le_addr (endpoint s)))
          && negb (bool_decide (le_addr (endpoint s) = Some (IpRepr.dst_addr ip_repr)))
          && negb (is_broadcast cx (IpRepr.dst_addr ip_repr))
          && negb (Address.is_multicast (IpRepr.dst_addr ip_repr)) then false
  else true.

Definition process cx (meta : PacketMeta) (ip_repr : IpRepr) (repr : UdpRepr) (payload : list Z) s :
    outcome Socket :=
  _ ← rust_assert (accepts cx ip_repr repr s);
  let remote_endpoint := mkEndpoint (IpRepr.src_addr ip_repr) (udp_src_port repr) in
  let metadata := mkUdpMetadata remote_endpoint (Some (IpRepr.dst_addr ip_repr)) meta in
  '(rx, res) ← enqueue (length payload) metadata (rx_buffer s);
  rx ← match res with Ok buf => copy_from_slice buf payload rx | Err _ => Ret rx end;
  Ret (s <| rx_buffer := rx |> <| rx_waker ::= WakerRegistration.wake |>).

Section Dispatch.
Context {E : Type}.
(** [emit] hands the datagram to the device. *)
Variable emit : Context -> PacketMeta -> datagram -> outcome (Context * result unit E).

(** The source address of a datagram; [None] when there is no suitable one. *)
Definition source_address cx (endpoint : ListenEndpoint) meta : option Address :=
  match um_local_address meta with
  | Some a => Some a
  | None =>
      match le_addr endpoint with
      | Some a => Some a
      | None => get_source_address cx (ep_addr (um_endpoint meta))
      end
  end.

(** The closure given to [dequeue_with]; the context is part of its result. *)
Definition send_packet cx (endpoint : ListenEndpoint) (limit : Z) meta (payload_buf : list Z) :
    outcome (UdpMetadata * list Z * result Context (Context * E)) :=
  match source_address cx endpoint meta with
  | None => Ret (meta, payload_buf, Ok cx)
  | Some src_addr =>
      let repr := mkUdpRepr (le_port endpoint) (ep_port (um_endpoint meta)) in
      ip_repr ← IpRepr.new src_addr (ep_addr (um_endpoint meta)) Protocol.Udp
                  (UdpRepr.header_len repr + length payload_buf)%nat limit;
      '(cx, res) ← emit cx (um_meta meta) (ip_repr, repr, payload_buf);
      Ret (meta, payload_buf, match res with Ok _ => Ok cx | Err e => Err (cx, e) end)
  end.

Definition dispatch s cx : outcome (Socket * Context * result unit E) :=
  let limit := default 64%Z (hop_limit s) in
  '(tx, res) ← dequeue_with (send_packet cx (endpoint s) limit) (tx_buffer s);
  let s := s <| tx_buffer := tx |> in
  Ret match res with
      | Err _ => (s, cx, Ok ())
      | Ok (Err (cx, e)) => (s, cx, Err e)
      | Ok (Ok cx) => (s <| tx_waker ::= WakerRegistration.wake |>, cx, Ok ())
      end.
End Dispatch.

Definition poll_at (_ : Context) s : PollAt := if is_empty (tx_buffer s) then PollIngress else PollNow.
End UdpSocket.
