(* ===== verification/UdpSpec.v ===== *)
(** * The UDP socket refines two queues of datagrams

    For any sequence of calls of the application, packets of the interface and
    dispatches, a socket behaves like a pair of queues: datagrams leave in the
    order they were sent and are read in the order they were received, with
    payload, addresses and ports intact, none twice. *)

From S2P Require Import Prelude RingBuffer PacketBuffer Time Phy Ip LinkLayer UdpWire TcpTimers.
From S2P Require Import Context UdpSocket.
Import UdpSocket.

Implicit Types (s : Socket) (cx : Context) (meta : UdpMetadata).

(** ** Operations *)

Inductive udp_op :=
| Bind (e : ListenEndpoint)
| Close
| SendSlice (data : list Z) (meta : UdpMetadata)
| RecvSlice (data : list Z)
| PeekSlice (data : list Z)
| Process (meta : PacketMeta) (ip_repr : IpRepr) (repr : UdpRepr) (payload : list Z)
| Dispatch (takes : bool).

Inductive udp_answer :=
| Done
| BindRefused
| NotSent (e : SendError)
| Data (data : list Z) (n : nat) (meta : UdpMetadata)
| NoData (e : RecvError)
| Offered (d : datagram)
| Idle.

(** A device that takes the datagram or refuses it, reporting it as its error. *)
Definition device (takes : bool) cx (_ : PacketMeta) (d : datagram) :
    outcome (Context * result unit datagram) :=
  Ret (cx, if takes then Ok () else Err d).

(** The datagram a device is offered. *)
Definition offered s cx : udp_answer :=
  match dispatch (device false) s cx with Ret (_, _, Err d) => Offered d | _ => Idle end.

Definition received (r : result (list Z * nat * UdpMetadata) RecvError) : udp_answer :=
  match r with Ok (data, n, meta) => Data data n meta | Err e => NoData e end.

Definition udp_exec cx (op : udp_op) s : outcome (Socket * udp_answer) :=
  match op with
  | Bind e => let '(s, r) := bind e s in Ret (s, match r with Ok _ => Done | Err _ => BindRefused end)
  | Close => Ret (close s, Done)
  | SendSlice data meta =>
      '(s, r) ← send_slice data meta s;
      Ret (s, match r with Ok _ => Done | Err e => NotSent e end)
  | RecvSlice data => '(s, r) ← recv_slice data s; Ret (s, received r)
  | PeekSlice data => '(s, r) ← peek_slice data s; Ret (s, received r)
  | Process meta ip_repr repr payload =>
      if accepts cx ip_repr repr s then s ← process cx meta ip_repr repr payload s; Ret (s, Done)
      else Ret (s, Done)
  | Dispatch takes =>
      '(s', _, _) ← dispatch (device takes) s cx;
      Ret (s', offered s cx)
  end.

(** ** The abstract socket *)

Record udp_state := mkState {
  u_endpoint : ListenEndpoint;
  u_hop_limit : option Z;
  u_rx : list (UdpMetadata * list Z);
  u_tx : list (UdpMetadata * list Z)
}.

Definition abs s : udp_state :=
  mkState (endpoint s) (hop_limit s) (packets (rx_buffer s)) (packets (tx_buffer s)).

(** [data] filled from [p]. *)
Definition filled (data p : list Z) (meta : UdpMetadata) : udp_answer :=
  if (length data <? length p)%nat then NoData Truncated
  else Data (p ++ drop (length p) data) (length p) meta.

(** The datagram sent from [src] for the packet [p]. *)
Definition datagram_from (src : Address) (e : ListenEndpoint) (limit : option Z) meta (p : list Z) :
    outcome datagram :=
  ip ← IpRepr.new src (ep_addr (um_endpoint meta)) Protocol.Udp (8 + length p)%nat (default 64%Z limit);
  Ret (ip, mkUdpRepr (le_port e) (ep_port (um_endpoint meta)), p).

Definition can_address (e : ListenEndpoint) meta : Prop :=
  le_port e <> 0%Z /\ Address.is_unspecified (ep_addr (um_endpoint meta)) = false /\
  ep_port (um_endpoint meta) <> 0%Z.

(** The packet is for the socket: the port is its own, and so is the address
    unless it is unbound, a broadcast or a multicast address. *)
Definition for_us cx (e : ListenEndpoint) (ip_repr : IpRepr) (repr : UdpRepr) : Prop :=
  le_port e = udp_dst_port repr /\
  (le_addr e = None \/ le_addr e = Some (IpRepr.dst_addr ip_repr) \/
   is_broadcast cx (IpRepr.dst_addr ip_repr) = true \/
   Address.is_multicast (IpRepr.dst_addr ip_repr) = true).

Definition arrived (meta : PacketMeta) (ip_repr : IpRepr) (repr : UdpRepr) : UdpMetadata :=
  mkUdpMetadata (mkEndpoint (IpRepr.src_addr ip_repr) (udp_src_port repr))
    (Some (IpRepr.dst_addr ip_repr)) meta.

Inductive udp_step cx : udp_state -> udp_op -> udp_answer -> udp_state -> Prop :=
| us_bind e e' h rx tx :
    le_port e = 0%Z -> le_port e' <> 0%Z ->
    udp_step cx (mkState e h rx tx) (Bind e') Done (mkState e' h rx tx)
| us_bind_refused e u :
    le_port e = 0%Z \/ le_port (u_endpoint u) <> 0%Z -> udp_step cx u (Bind e) BindRefused u
| us_close u : udp_step cx u Close Done (mkState unbound (u_hop_limit u) [] [])
| us_send e h rx tx data meta :
    can_address e meta ->
    udp_step cx (mkState e h rx tx) (SendSlice data meta) Done (mkState e h rx (tx ++ [(meta, data)]))
| us_send_full u data meta :
    can_address (u_endpoint u) meta -> udp_step cx u (SendSlice data meta) (NotSent SendBufferFull) u
| us_send_unaddressable u data meta :
    ~ can_address (u_endpoint u) meta ->
    udp_step cx u (SendSlice data meta) (NotSent SendUnaddressable) u
| us_recv e h rx tx data meta p :
    udp_step cx (mkState e h ((meta, p) :: rx) tx) (RecvSlice data) (filled data p meta) (mkState e h rx tx)
| us_recv_empty e h tx data :
    udp_step cx (mkState e h [] tx) (RecvSlice data) (NoData Exhausted) (mkState e h [] tx)
| us_peek e h rx tx data meta p :
    let u := mkState e h ((meta, p) :: rx) tx in udp_step cx u (PeekSlice data) (filled data p meta) u
| us_peek_empty e h tx data :
    let u := mkState e h [] tx in udp_step cx u (PeekSlice data) (NoData Exhausted) u
| us_process e h rx tx (m : PacketMeta) ip_repr repr payload :
    for_us cx e ip_repr repr ->
    udp_step cx (mkState e h rx tx) (Process m ip_repr repr payload) Done
      (mkState e h (rx ++ [(arrived m ip_repr repr, payload)]) tx)
| us_process_dropped u (m : PacketMeta) ip_repr repr payload :
    udp_step cx u (Process m ip_repr repr payload) Done u
| us_dispatch e h rx tx meta p takes src d :
    source_address cx e meta = Some src -> datagram_from src e h meta p = Ret d ->
    udp_step cx (mkState e h rx ((meta, p) :: tx)) (Dispatch takes) (Offered d)
      (mkState e h rx (if takes then tx else (meta, p) :: tx))
| us_dispatch_no_source e h rx tx meta p takes :
    source_address cx e meta = None ->
    udp_step cx (mkState e h rx ((meta, p) :: tx)) (Dispatch takes) Idle (mkState e h rx tx)
| us_dispatch_empty e h rx takes :
    let u := mkState e h rx [] in udp_step cx u (Dispatch takes) Idle u.

(** ** The invariant *)

(** The addresses of a datagram to be sent are of one family. *)
Definition family_ok (e : ListenEndpoint) meta : Prop :=
  match um_local_address meta, le_addr e with
  | Some a, _ | None, Some a => same_family a (ep_addr (um_endpoint meta))
  | None, None => True
  end.

Record udp_inv s : Prop := {
  ui_rx : pb_wf (rx_buffer s);
  ui_tx : pb_wf (tx_buffer s);
  ui_family : Forall (fun x => family_ok (endpoint s) x.1) (packets (tx_buffer s));
  ui_unbound : le_port (endpoint s) = 0%Z -> packets (tx_buffer s) = []
}.

(** The interface finds source addresses of the right family. *)
Definition sources_ok cx : Prop :=
  forall d a, get_source_address cx d = Some a -> same_family a d.

Definition udp_admissible (op : udp_op) s : Prop :=
  match op with SendSlice _ meta => family_ok (endpoint s) meta | _ => True end.

(** ** The operations *)

Lemma addressable_spec meta s : addressable meta s = true <-> can_address (endpoint s) meta.
Proof.
  unfold addressable, can_address. rewrite !andb_true_iff, !negb_true_iff, !Z.eqb_neq. tauto.
Qed.

Lemma accepts_spec cx ip_repr repr s :
  accepts cx ip_repr repr s = true -> for_us cx (endpoint s) ip_repr repr.
Proof.
  unfold accepts, for_us. destruct (Z.eqb_spec (le_port (endpoint s)) (udp_dst_port repr)); [|done].
  cbn [negb]. intros H. split; [done|]. destruct (le_addr (endpoint s)) as [a|]; [right|by left].
  rewrite bool_decide_true in H by done. case_bool_decide; [by left|right].
  destruct (is_broadcast cx _); [by left|right]. by destruct (Address.is_multicast _).
Qed.

Lemma filled_ok data p meta :
  received (with_meta meta (if (length data <? length p)%nat then Err Truncated
                            else Ok (p ++ drop (length p) data, length p))) = filled data p meta.
Proof. unfold filled. by destruct (_ <? _)%nat. Qed.

Lemma family_source cx e meta src :
  sources_ok cx -> family_ok e meta -> source_address cx e meta = Some src ->
  same_family src (ep_addr (um_endpoint meta)).
Proof.
  intros Hcx. unfold family_ok, source_address.
  destruct (um_local_address meta), (le_addr e); try (intros ? [= <-]; done). intros _. apply Hcx.
Qed.

Lemma datagram_ok src e limit meta p :
  same_family src (ep_addr (um_endpoint meta)) -> exists ip,
  IpRepr.new src (ep_addr (um_endpoint meta)) Protocol.Udp (8 + length p)%nat (default 64%Z limit) = Ret ip /\
  datagram_from src e limit meta p =
    Ret (ip, mkUdpRepr (le_port e) (ep_port (um_endpoint meta)), p).
Proof.
  unfold same_family, datagram_from. destruct src, (ep_addr (um_endpoint meta)); cbn; intros; try done.
  all: by eexists.
Qed.

(** What [dispatch] does, whatever the device. *)
Lemma udp_dispatch_ok {E} (emit : Context -> PacketMeta -> datagram -> outcome (Context * result unit E)) s cx :
  udp_inv s -> sources_ok cx ->
  match packets (tx_buffer s) with
  | [] => exists s', dispatch emit s cx = Ret (s', cx, Ok ()) /\ udp_inv s' /\ abs s' = abs s
  | (meta, p) :: q =>
      match source_address cx (endpoint s) meta with
      | None => exists s', dispatch emit s cx = Ret (s', cx, Ok ()) /\ udp_inv s' /\
          abs s' = mkState (endpoint s) (hop_limit s) (packets (rx_buffer s)) q
      | Some src => exists d, datagram_from src (endpoint s) (hop_limit s) meta p = Ret d /\
          forall cx' res, emit cx (um_meta meta) d = Ret (cx', res) ->
          exists s', dispatch emit s cx = Ret (s', cx', res) /\ udp_inv s' /\
            abs s' = mkState (endpoint s) (hop_limit s) (packets (rx_buffer s))
                       (if is_ok res then q else (meta, p) :: q)
      end
  end.
Proof.
  intros [Hrx Htx Hf Hu] Hcx. unfold dispatch.
  pose proof (dequeue_with_ok (send_packet emit cx (endpoint s) (default 64%Z (hop_limit s))) _ Htx) as Hd.
  destruct (packets (tx_buffer s)) as [|[meta p] q] eqn:Hp.
  { destruct Hd as (tx & -> & Hwf & Hpk). eexists. split; [done|]. split.
    - constructor; cbn; try done; by rewrite Hpk.
    - unfold abs. cbn. by rewrite Hpk, Hp. }
  assert (forall tx q' w, pb_wf tx -> packets tx = q' -> q' = q \/ q' = (meta, p) :: q ->
    udp_inv (s <| tx_buffer := tx |> <| tx_waker := w |>)) as Hinv.
  { intros tx q' w Hwf Hpk Hq. constructor; cbn; try done; rewrite Hpk.
    - apply Forall_cons_1 in Hf as [??]. destruct Hq as [-> | ->]; [done|by apply Forall_cons_2].
    - intros H0. specialize (Hu H0). done. }
  destruct (source_address cx (endpoint s) meta) as [src|] eqn:Hs.
  - apply Forall_cons_1 in Hf as [Hf _].
    destruct (datagram_ok src (endpoint s) (hop_limit s) meta p) as (ip & Hip & Hdg);
      [by apply (family_source cx (endpoint s))|].
    eexists. split; [exact Hdg|]. intros cx' res Hem.
    destruct (Hd meta p (match res with Ok _ => Ok cx' | Err e => Err (cx', e) end)) as (tx & -> & Hwf & Hpk); [|done|].
    { unfold send_packet. rewrite Hs. unfold UdpRepr.header_len, UDP_HEADER_LEN.
      rewrite Hip. cbn [mbind outcome_bind]. by rewrite Hem. }
    cbn [mbind outcome_bind]. destruct res as [[]|e]; cbn [is_ok] in *; eexists; (split; [done|]).
    + split; [by apply (Hinv tx q); auto|]. unfold abs. cbn. by rewrite Hpk.
    + split; [|unfold abs; cbn; by rewrite Hpk].
      replace (s <| tx_buffer := tx |>) with (s <| tx_buffer := tx |> <| tx_waker := tx_waker s |>)
        by by destruct s.
      apply (Hinv tx ((meta, p) :: q)); auto.
  - destruct (Hd meta p (Ok cx)) as (tx & -> & Hwf & Hpk); [by unfold send_packet; rewrite Hs|done|].
    cbn [mbind outcome_bind is_ok] in *. eexists. split; [done|].
    split; [by apply (Hinv tx q); auto|]. unfold abs. cbn. by rewrite Hpk.
Qed.

Lemma udp_send_ok cx data meta s :
  udp_inv s -> family_ok (endpoint s) meta ->
  exists s' a, udp_exec cx (SendSlice data meta) s = Ret (s', a) /\ udp_inv s' /\
    udp_step cx (abs s) (SendSlice data meta) a (abs s').
Proof.
  intros [Hrx Htx Hf Hu] Hfam. cbn [udp_exec]. unfold send_slice, send.
  destruct (addressable meta s) eqn:Ha; cbn [negb mbind outcome_bind].
  2: { do 2 eexists. split; [done|]. split; [done|]. apply us_send_unaddressable. cbn.
       rewrite <-addressable_spec. congruence. }
  apply addressable_spec in Ha.
  destruct (enqueue_copy_ok data meta _ Htx) as (tx & res & -> & Hpost). cbn [mbind outcome_bind].
  destruct res as [buf|e].
  - destruct Hpost as (tx' & Hcp & Hwf & Hpk). cbn. rewrite Hcp. cbn [mbind outcome_bind].
    do 2 eexists. split; [done|]. split.
    + constructor; cbn; try done; rewrite Hpk.
      * apply Forall_app_2; [done|]. by apply Forall_singleton.
      * intros H0. by destruct Ha.
    + unfold abs. cbn. rewrite Hpk. by apply us_send.
  - destruct Hpost as [Hwf Hpk]. cbn. do 2 eexists. split; [done|]. split.
    + constructor; cbn; try done; by rewrite Hpk.
    + unfold abs. cbn. rewrite Hpk. by apply us_send_full.
Qed.

Lemma udp_recv_ok cx data s :
  udp_inv s -> exists s' a, udp_exec cx (RecvSlice data) s = Ret (s', a) /\ udp_inv s' /\
    udp_step cx (abs s) (RecvSlice data) a (abs s').
Proof.
  intros [Hrx Htx Hf Hu]. cbn [udp_exec]. unfold recv_slice, recv.
  destruct (dequeue_ok _ Hrx) as ([rx [[meta [start n]]|e]] & -> & Hpost); cbn [mbind outcome_bind dequeue_post] in *.
  - destruct Hpost as [Hwf Hpk]. rewrite fill_slice_ok. cbn [mbind outcome_bind]. do 2 eexists. split; [done|]. split; [by constructor|].
    unfold abs. cbn [rx_buffer set_field]. rewrite filled_ok, Hpk. apply us_recv.
  - destruct Hpost as (Hwf & Hpk & Hpk'). do 2 eexists. split; [done|]. split; [by constructor|].
    unfold abs. cbn. rewrite Hpk, Hpk'. apply us_recv_empty.
Qed.

Lemma udp_peek_ok cx data s :
  udp_inv s -> exists s' a, udp_exec cx (PeekSlice data) s = Ret (s', a) /\ udp_inv s' /\
    udp_step cx (abs s) (PeekSlice data) a (abs s').
Proof.
  intros [Hrx Htx Hf Hu]. cbn [udp_exec]. unfold peek_slice, peek.
  destruct (peek_ok _ Hrx) as (rx & res & -> & Hwf & Hpk & Hres). cbn [mbind outcome_bind].
  assert (abs (s <| rx_buffer := rx |>) = abs s) as Habs by (unfold abs; cbn; by rewrite Hpk).
  assert (udp_inv (s <| rx_buffer := rx |>)) as Hinv by by constructor.
  destruct (packets (rx_buffer s)) as [|[meta p] q] eqn:Hp; subst res; cbn [mbind outcome_bind].
  - do 2 eexists. split; [done|]. split; [done|]. rewrite Habs. unfold abs. rewrite Hp. apply us_peek_empty.
  - rewrite fill_slice_ok. cbn [mbind outcome_bind].
    do 2 eexists. split; [done|]. split; [done|]. rewrite filled_ok, Habs. unfold abs. rewrite Hp. apply us_peek.
Qed.

Lemma udp_process_ok cx m ip_repr repr payload s :
  udp_inv s -> exists s' a, udp_exec cx (Process m ip_repr repr payload) s = Ret (s', a) /\ udp_inv s' /\
    udp_step cx (abs s) (Process m ip_repr repr payload) a (abs s').
Proof.
  intros [Hrx Htx Hf Hu]. cbn [udp_exec]. destruct (accepts cx ip_repr repr s) eqn:Ha.
  2: { do 2 eexists. split; [done|]. split; [done|]. apply us_process_dropped. }
  unfold process. rewrite Ha. cbn [rust_assert mbind outcome_bind].
  destruct (enqueue_copy_ok payload (arrived m ip_repr repr) _ Hrx) as (rx & res & He & Hpost).
  unfold arrived in He. rewrite He. cbn [mbind outcome_bind]. destruct res as [buf|e].
  - destruct Hpost as (rx' & -> & Hwf & Hpk). cbn [mbind outcome_bind]. do 2 eexists. split; [done|].
    split; [by constructor|]. unfold abs. cbn. rewrite Hpk. apply us_process. by apply accepts_spec.
  - destruct Hpost as [Hwf Hpk]. cbn [mbind outcome_bind]. do 2 eexists. split; [done|].
    split; [by constructor|]. unfold abs. cbn. rewrite Hpk. apply us_process_dropped.
Qed.

Lemma udp_dispatch_step cx takes s :
  udp_inv s -> sources_ok cx ->
  exists s' a, udp_exec cx (Dispatch takes) s = Ret (s', a) /\ udp_inv s' /\
    udp_step cx (abs s) (Dispatch takes) a (abs s').
Proof.
  intros Hinv Hcx. cbn [udp_exec]. unfold offered.
  pose proof (udp_dispatch_ok (device takes) s cx Hinv Hcx) as Ht.
  pose proof (udp_dispatch_ok (device false) s cx Hinv Hcx) as Hp. unfold abs at 1.
  destruct (packets (tx_buffer s)) as [|[meta p] q] eqn:Hq.
  - destruct Ht as (s' & -> & Hinv' & Habs), Hp as (s2 & -> & _). cbn [mbind outcome_bind].
    do 2 eexists. split; [done|]. split; [done|]. rewrite Habs. unfold abs. rewrite Hq. apply us_dispatch_empty.
  - destruct (source_address cx (endpoint s) meta) as [src|] eqn:Hs.
    + destruct Ht as (d & Hd & Ht), Hp as (d' & Hd' & Hp). rewrite Hd in Hd'. injection Hd' as <-.
      destruct (Ht cx _ eq_refl) as (s' & -> & Hinv' & Habs), (Hp cx _ eq_refl) as (s2 & -> & _).
      cbn [mbind outcome_bind]. do 2 eexists. split; [done|]. split; [done|]. rewrite Habs.
      replace (if is_ok _ then q else _) with (if takes then q else (meta, p) :: q) by by destruct takes.
      by apply (us_dispatch cx _ _ _ _ _ _ _ src).
    + destruct Ht as (s' & -> & Hinv' & Habs), Hp as (s2 & -> & _). cbn [mbind outcome_bind].
      do 2 eexists. split; [done|]. split; [done|]. rewrite Habs. by apply us_dispatch_no_source.
Qed.

Lemma udp_exec_ok cx op s :
  udp_inv s -> sources_ok cx -> udp_admissible op s ->
  exists s' a, udp_exec cx op s = Ret (s', a) /\ udp_inv s' /\ udp_step cx (abs s) op a (abs s').
Proof.
  intros Hinv Hcx Ha. destruct op; cbn [udp_admissible] in Ha.
  - cbn [udp_exec]. unfold bind. destruct (Z.eqb_spec (le_port e) 0); cbn [mbind outcome_bind].
    { do 2 eexists. split; [done|]. split; [done|]. apply us_bind_refused. by left. }
    unfold is_open. destruct (Z.eqb_spec (le_port (endpoint s)) 0) as [H0|H0]; cbn [negb].
    2: { do 2 eexists. split; [done|]. split; [done|]. apply us_bind_refused. by right. }
    do 2 eexists. split; [done|]. split; [|by apply us_bind].
    destruct Hinv. constructor; cbn; try done. by rewrite ui_unbound0.
  - do 2 eexists. split; [done|]. destruct (reset_ok (rx_buffer s)), (reset_ok (tx_buffer s)) as [? Ht].
    split; [constructor; cbn; try done; by rewrite Ht|].
    apply (us_close cx (abs s)).
  - by apply udp_send_ok.
  - by apply udp_recv_ok.
  - by apply udp_peek_ok.
  - by apply udp_process_ok.
  - by apply udp_dispatch_step.
Qed.

(** ** Runs *)

Fixpoint udp_run cx (ops : list udp_op) s : outcome (Socket * list udp_answer) :=
  match ops with
  | [] => Ret (s, [])
  | op :: ops =>
      '(s, a) ← udp_exec cx op s;
      '(s, l) ← udp_run cx ops s;
      Ret (s, a :: l)
  end.

Fixpoint udp_run_admissible cx (ops : list udp_op) s : Prop :=
  match ops with
  | [] => True
  | op :: ops => udp_admissible op s /\
      match udp_exec cx op s with Ret (s, _) => udp_run_admissible cx ops s | Panic => True end
  end.

Inductive udp_steps cx : udp_state -> list udp_op -> list udp_answer -> udp_state -> Prop :=
| udp_steps_nil u : udp_steps cx u [] [] u
| udp_steps_cons u op a u1 ops l u2 :
    udp_step cx u op a u1 -> udp_steps cx u1 ops l u2 -> udp_steps cx u (op :: ops) (a :: l) u2.

Lemma udp_run_ok cx ops s :
  udp_inv s -> sources_ok cx -> udp_run_admissible cx ops s ->
  exists s' l, udp_run cx ops s = Ret (s', l) /\ udp_inv s' /\ udp_steps cx (abs s) ops l (abs s').
Proof.
  intros Hinv Hcx. revert s Hinv. induction ops as [|op ops IH]; intros s Hinv Ha.
  - exists s, []. split; [done|]. split; [done|constructor].
  - destruct Ha as [Ha Has]. destruct (udp_exec_ok cx op s Hinv Hcx Ha) as (s1 & a & He & Hinv1 & Hst).
    rewrite He in Has. destruct (IH s1 Hinv1 Has) as (s2 & l & Hl & Hinv2 & Hsts).
    exists s2, (a :: l). cbn [udp_run]. rewrite He. cbn [mbind outcome_bind]. rewrite Hl.
    split; [done|]. split; [done|]. by econstructor.
Qed.

(** C26: a UDP socket refines a pair of datagram queues.  From fresh buffers of any
    size, and for any sequence of binds, closes, sends, receives, peeks, arriving
    packets and dispatches to a device that takes or refuses the datagram, no call
    panics and every answer is one of the abstract socket: datagrams are offered
    to the device in the order they were sent and read in the order they arrived,
    with the right addresses, ports and payload; a refused datagram stays at the
    front; what is not addressed to the socket is ignored.  (The application does
    not mix IPv4 and IPv6 addresses in one datagram.) *)
Theorem udp_socket_refines_queues cx rx_meta rx_payload tx_meta tx_payload ops :
  sources_ok cx ->
  udp_run_admissible cx ops (new (PacketBuffer.new rx_meta rx_payload) (PacketBuffer.new tx_meta tx_payload)) ->
  exists s answers,
    udp_run cx ops (new (PacketBuffer.new rx_meta rx_payload) (PacketBuffer.new tx_meta tx_payload))
      = Ret (s, answers) /\
    udp_steps cx (mkState unbound None [] []) ops answers (abs s).
Proof.
  intros Hcx Ha.
  assert (udp_inv (new (PacketBuffer.new rx_meta rx_payload) (PacketBuffer.new tx_meta tx_payload))) as Hinv.
  { destruct (new_pb_wf rx_meta rx_payload), (new_pb_wf tx_meta tx_payload) as [? Ht].
    by constructor; cbn; rewrite ?Ht. }
  destruct (udp_run_ok cx ops _ Hinv Hcx Ha) as (s & l & Hr & _ & Hs). eauto.
Qed.

(** ** Scenarios *)

Module Datagrams.
Definition cx : Context :=
  mkContext 1000000 1500 (Rand.new 42) (fun d => match d with Ipv4 _ => Some (Ipv4 [10; 0; 0; 1]%Z) | Ipv6 _ => None end)
    (fun _ => false) HwIp ChecksumCapabilities.default [].

Definition meta : PacketMeta := mkPacketMeta 0.
Definition peer : Endpoint := mkEndpoint (Ipv4 [10; 0; 0; 2]%Z) 53.
Definition peer6 : Endpoint := mkEndpoint (Ipv6 (replicate 16 1%Z)) 53.
Definition to_peer : UdpMetadata := mkUdpMetadata peer None meta.
Definition from_peer : IpRepr := ReprIpv4 (mkIpHeader [10; 0; 0; 2]%Z [10; 0; 0; 1]%Z Protocol.Udp 10 64).

Definition metadata : list (PacketMetadata UdpMetadata) := repeat EMPTY 4.
Definition socket : Socket := new (PacketBuffer.new metadata (repeat 0%Z 8)) (PacketBuffer.new metadata (repeat 0%Z 8)).

Definition exchange : list udp_op :=
  [Bind (mkListen None 68); SendSlice [1; 2; 3]%Z to_peer; SendSlice [4; 5]%Z to_peer; Dispatch false;
   Dispatch true; Process meta from_peer (mkUdpRepr 53 68) [9; 8]%Z; PeekSlice [0]%Z;
   RecvSlice (repeat 0%Z 4); Dispatch true; Dispatch true; Close].
End Datagrams.

Lemma udp_socket_refines_queues_witness :
  exists s answers,
    udp_run Datagrams.cx Datagrams.exchange Datagrams.socket = Ret (s, answers) /\
    udp_steps Datagrams.cx (mkState unbound None [] []) Datagrams.exchange answers (abs s).
Proof.
  apply (udp_socket_refines_queues Datagrams.cx Datagrams.metadata (repeat 0%Z 8) Datagrams.metadata
    (repeat 0%Z 8) Datagrams.exchange).
  - by intros [] a; cbn; [intros [= <-]|].
  - vm_compute. repeat split.
Defined.

(** A socket bound to an IPv4 address accepts a datagram for an IPv6 endpoint
    and then panics when it is polled: [send] does not compare the families of
    the addresses, and [IpRepr::new] panics on a mixture. *)
Theorem udp_mixed_families_panic :
  let '(bound, _) := bind (mkListen (Some (Ipv4 [10; 0; 0; 1]%Z)) 68) Datagrams.socket in
  exists s, send_slice [1]%Z (mkUdpMetadata Datagrams.peer6 None Datagrams.meta) bound = Ret (s, Ok ()) /\
    dispatch (device true) s Datagrams.cx = Panic.
Proof. eexists. split; vm_compute; reflexivity. Qed.
