(* ===== verification/TcpSocket.v ===== *)
(** * The TCP socket (src/socket/tcp.rs)

    The record [Socket] has the fields of the source in its order.  The two
    handlers, [process] for a segment received and [dispatch] for a segment to
    send, run in a small monad [M] over the socket and the interface context
    that has Rust's panics and early returns; their phases are the definitions
    [check_ack], [trim_segment], ... in the order of the source.  Wakers are part
    of the state (the [async] feature), logging is not modelled.

    Sequence numbers, lengths and times are in [Z]; buffer offsets are converted
    to [nat] at the calls of the ring buffer and of the assembler. *)

From S2P Require Import Prelude RingBuffer Assembler Time SeqNumber Bytes Ip TcpWire.
From S2P Require Import TcpTimers Congestion Context.
Open Scope Z_scope.

Inductive ListenError := ListenInvalidState | ListenUnaddressable.
Inductive ConnectError := ConnectInvalidState | ConnectUnaddressable.
Inductive SendError := SendInvalidState.
Inductive RecvError := RecvInvalidState | Finished.

Abbreviation SocketBuffer := (RingBuffer Z).

Inductive State :=
| Closed | Listen | SynSent | SynReceived | Established | FinWait1 | FinWait2 | CloseWait
| Closing | LastAck | TimeWait.

#[export] Instance State_eq_dec : EqDecision State.
Proof. solve_decision. Defined.

Record Tuple := mkTuple { local : Endpoint; remote : Endpoint }.

Inductive CongestionControl := CongestionNone | CongestionReno.

Record Socket := mkSocket {
  state : State;
  timer : Timer;
  rtte : RttEstimator;
  assembler : Assembler;
  rx_buffer : SocketBuffer;
  rx_fin_received : bool;
  tx_buffer : SocketBuffer;
  timeout : option Duration;
  keep_alive : option Duration;
  hop_limit : option Z;
  listen_endpoint : ListenEndpoint;
  bound_endpoint : ListenEndpoint;
  tuple : option Tuple;
  local_seq_no : SeqNumber;
  remote_seq_no : SeqNumber;
  remote_last_seq : SeqNumber;
  remote_last_ack : option SeqNumber;
  remote_last_win : Z;
  remote_win_shift : Z;
  remote_win_len : Z;
  remote_win_scale : option Z;
  remote_has_sack : bool;
  remote_mss : Z;
  remote_last_ts : option Instant;
  local_rx_last_seq : option SeqNumber;
  local_rx_last_ack : option SeqNumber;
  local_rx_dup_acks : Z;
  ack_delay : option Duration;
  ack_delay_timer : AckDelayTimer;
  challenge_ack_timer : Instant;
  nagle : bool;
  congestion_controller : AnyController;
  rx_waker : WakerRegistration;
  tx_waker : WakerRegistration
}.

#[export] Instance eta_Socket : Settable Socket := fun s =>
  mkSocket (state s) (timer s) (rtte s) (assembler s) (rx_buffer s) (rx_fin_received s)
    (tx_buffer s) (timeout s) (keep_alive s) (hop_limit s) (listen_endpoint s)
    (bound_endpoint s) (tuple s) (local_seq_no s) (remote_seq_no s) (remote_last_seq s)
    (remote_last_ack s) (remote_last_win s) (remote_win_shift s) (remote_win_len s)
    (remote_win_scale s) (remote_has_sack s) (remote_mss s) (remote_last_ts s)
    (local_rx_last_seq s) (local_rx_last_ack s) (local_rx_dup_acks s) (ack_delay s)
    (ack_delay_timer s) (challenge_ack_timer s) (nagle s) (congestion_controller s)
    (rx_waker s) (tx_waker s).

Definition DEFAULT_MSS : Z := 536.

Definition zlen (b : SocketBuffer) : Z := Z.of_nat (RingBuffer.len b).
Definition zcapacity (b : SocketBuffer) : Z := Z.of_nat (RingBuffer.capacity b).
Definition zwindow (b : SocketBuffer) : Z := Z.of_nat (RingBuffer.window b).

(** [mem::size_of::<usize>() * 8 - capacity.leading_zeros()] *)
Definition bit_length (n : Z) : Z := if n =? 0 then 0 else Z.log2 n + 1.

Definition default_listen : ListenEndpoint := mkListen None 0.

(** ** Construction, configuration and life cycle *)

(** [rx_cap_log2.saturating_sub(16) as u8] *)
Definition win_shift_of (rx : SocketBuffer) : Z := Z.max 0 (bit_length (zcapacity rx) - 16).

(** [max_segment_count] is the build-time [ASSEMBLER_MAX_SEGMENT_COUNT], [cc] the
    controller [AnyController::new] selects for the build's features. *)
Definition new (max_segment_count : nat) (cc : AnyController) (rx_buffer tx_buffer : SocketBuffer) :
    outcome Socket :=
  if 2 ^ 30 <? zcapacity rx_buffer then Panic else
  challenge_ack_timer ← Instant.from_secs 0;
  Ret {|
    state := Closed;
    timer := Timer.new;
    rtte := RttEstimator.default;
    assembler := Assembler.new max_segment_count;
    tx_buffer := tx_buffer;
    rx_buffer := rx_buffer;
    rx_fin_received := false;
    timeout := None;
    keep_alive := None;
    hop_limit := None;
    listen_endpoint := default_listen;
    bound_endpoint := default_listen;
    tuple := None;
    local_seq_no := 0;
    remote_seq_no := 0;
    remote_last_seq := 0;
    remote_last_ack := None;
    remote_last_win := 0;
    remote_win_len := 0;
    remote_win_shift := win_shift_of rx_buffer;
    remote_win_scale := None;
    remote_has_sack := false;
    remote_mss := DEFAULT_MSS;
    remote_last_ts := None;
    local_rx_last_ack := None;
    local_rx_last_seq := None;
    local_rx_dup_acks := 0;
    ack_delay := Some ACK_DELAY_DEFAULT;
    ack_delay_timer := AckIdle;
    challenge_ack_timer := challenge_ack_timer;
    nagle := true;
    congestion_controller := cc;
    rx_waker := WakerRegistration.new;
    tx_waker := WakerRegistration.new
  |}.

Section Configuration.
Implicit Types (s : Socket).

Definition set_congestion_control (c : CongestionControl) s : Socket :=
  s <| congestion_controller := match c with
         | CongestionNone => ControllerNone mkNoControl
         | CongestionReno => ControllerReno Reno.new
         end |>.

Definition congestion_control s : CongestionControl :=
  match congestion_controller s with
  | ControllerNone _ => CongestionNone
  | ControllerReno _ => CongestionReno
  end.

Definition register_recv_waker (w : Waker) s : Socket :=
  s <| rx_waker ::= WakerRegistration.register w |>.

Definition register_send_waker (w : Waker) s : Socket :=
  s <| tx_waker ::= WakerRegistration.register w |>.

Definition scaled_window s : Z :=
  Z.min (Z.shiftr (zwindow (rx_buffer s)) (remote_win_shift s)) (2 ^ 16 - 1).

Definition set_timeout (duration : option Duration) s : Socket := s <| timeout := duration |>.

Definition set_ack_delay (duration : option Duration) s : Socket := s <| ack_delay := duration |>.

Definition set_nagle_enabled (enabled : bool) s : Socket := s <| nagle := enabled |>.

Definition set_keep_alive (interval : option Duration) s : Socket :=
  let s := s <| keep_alive := interval |> in
  match keep_alive s with
  | Some _ => s <| timer ::= Timer.set_keep_alive |>
  | None => s
  end.

Definition set_hop_limit (hl : option Z) s : outcome Socket :=
  match hl with
  | Some 0 => Panic
  | _ => Ret (s <| hop_limit := hl |>)
  end.

Definition local_endpoint s : option Endpoint := local <$> tuple s.
Definition remote_endpoint s : option Endpoint := remote <$> tuple s.

Definition set_bound_endpoint (e : ListenEndpoint) s : Socket := s <| bound_endpoint := e |>.

Definition wake_rx s : Socket := s <| rx_waker ::= WakerRegistration.wake |>.
Definition wake_tx s : Socket := s <| tx_waker ::= WakerRegistration.wake |>.

Definition reset s : outcome Socket :=
  let rx_cap_shift := win_shift_of (rx_buffer s) in
  let s := s <| state := Closed |> in
  let s := s <| timer := Timer.new |> in
  let s := s <| rtte := RttEstimator.default |> in
  let s := s <| assembler := Assembler.new (length (assembler s)) |> in
  let s := s <| tx_buffer ::= RingBuffer.clear |> in
  let s := s <| rx_buffer ::= RingBuffer.clear |> in
  let s := s <| rx_fin_received := false |> in
  let s := s <| listen_endpoint := default_listen |> in
  let s := s <| tuple := None |> in
  let s := s <| local_seq_no := 0 |> in
  let s := s <| remote_seq_no := 0 |> in
  let s := s <| remote_last_seq := 0 |> in
  let s := s <| remote_last_ack := None |> in
  let s := s <| remote_last_win := 0 |> in
  let s := s <| remote_win_len := 0 |> in
  let s := s <| remote_win_scale := None |> in
  let s := s <| remote_win_shift := rx_cap_shift |> in
  let s := s <| remote_mss := DEFAULT_MSS |> in
  let s := s <| remote_last_ts := None |> in
  let s := s <| ack_delay_timer := AckIdle |> in
  t ← Instant.from_secs 0;
  let s := s <| challenge_ack_timer := t |> in
  Ret (wake_tx (wake_rx s)).

Definition set_state (st : State) s : Socket := wake_tx (wake_rx (s <| state := st |>)).

Definition is_listening s : bool := match state s with Listen => true | _ => false end.

Definition is_open s : bool :=
  match state s with Closed => false | TimeWait => false | _ => true end.

Definition is_active s : bool :=
  match state s with Closed => false | TimeWait => false | Listen => false | _ => true end.

Definition may_send s : bool :=
  match state s with Established => true | CloseWait => true | _ => false end.

Definition may_recv s : bool :=
  match state s with
  | Established => true
  | FinWait1 | FinWait2 => true
  | _ => negb (RingBuffer.is_empty (rx_buffer s))
  end.

Definition can_send s : bool :=
  if negb (may_send s) then false else negb (RingBuffer.is_full (tx_buffer s)).

Definition recv_capacity s : nat := RingBuffer.capacity (rx_buffer s).
Definition send_capacity s : nat := RingBuffer.capacity (tx_buffer s).

Definition can_recv s : bool :=
  if negb (may_recv s) then false else negb (RingBuffer.is_empty (rx_buffer s)).

Definition listen (local_endpoint : ListenEndpoint) s : outcome (Socket * result unit ListenError) :=
  if le_port local_endpoint =? 0 then Ret (s, Err ListenUnaddressable) else
  if is_open s then
    if is_listening s && bool_decide (listen_endpoint s = local_endpoint)
    then Ret (s, Ok ())
    else Ret (s, Err ListenInvalidState)
  else
    s ← reset s;
    let s := s <| listen_endpoint := local_endpoint |> in
    let s := s <| tuple := None |> in
    Ret (set_state Listen s, Ok ()).

(** [TcpSeqNumber(cx.rand().rand_u32() as i32)] *)
Definition random_seq_no (cx : Context) : outcome (Context * SeqNumber) :=
  '(r, n) ← Rand.rand_u32 (rand cx);
  Ret (cx <| rand := r |>, wrap_i 32 n).

(** The local address of [connect]: the one given, or chosen for the remote. *)
Definition connect_local_addr (cx : Context) (remote : Endpoint) (local : ListenEndpoint) :
    result Address ConnectError :=
  match le_addr local with
  | Some addr => if Address.is_unspecified addr then Err ConnectUnaddressable else Ok addr
  | None => match get_source_address cx (ep_addr remote) with
            | Some addr => Ok addr
            | None => Err ConnectUnaddressable
            end
  end.

Definition connect (remote_endpoint : Endpoint) (local_endpoint : ListenEndpoint) s (cx : Context) :
    outcome (Socket * Context * result unit ConnectError) :=
  if is_open s then Ret (s, cx, Err ConnectInvalidState) else
  if (ep_port remote_endpoint =? 0) || Address.is_unspecified (ep_addr remote_endpoint)
  then Ret (s, cx, Err ConnectUnaddressable) else
  if le_port local_endpoint =? 0 then Ret (s, cx, Err ConnectUnaddressable) else
  match connect_local_addr cx remote_endpoint local_endpoint with
  | Err e => Ret (s, cx, Err e)
  | Ok addr =>
      let local_endpoint := mkEndpoint addr (le_port local_endpoint) in
      if bool_decide (Address.version (ep_addr local_endpoint)
                      <> Address.version (ep_addr remote_endpoint))
      then Ret (s, cx, Err ConnectUnaddressable)
      else
        s ← reset s;
        let s := s <| tuple := Some (mkTuple local_endpoint remote_endpoint) |> in
        let s := set_state SynSent s in
        '(cx, seq) ← random_seq_no cx;
        let s := s <| local_seq_no := seq |> in
        let s := s <| remote_last_seq := seq |> in
        Ret (s, cx, Ok ())
  end.

Definition close s : Socket :=
  match state s with
  | Listen => set_state Closed s
  | SynSent => set_state Closed s
  | SynReceived | Established => set_state FinWait1 s
  | CloseWait => set_state LastAck s
  | FinWait1 | FinWait2 | Closing | TimeWait | LastAck | Closed => s
  end.

Definition abort s : Socket := set_state Closed s.
End Configuration.

(** ** Sending and receiving data

    The closures of [send_impl] and [recv_impl] take the buffer and return it
    with the number of octets and their result. *)

Section Data.
Context {R : Type}.
Implicit Types (s : Socket).

Definition send_impl (f : SocketBuffer -> outcome (SocketBuffer * (nat * R))) s :
    outcome (Socket * result R SendError) :=
  if negb (may_send s) then Ret (s, Err SendInvalidState) else
  let old_length := RingBuffer.len (tx_buffer s) in
  '(tx, (size, result)) ← f (tx_buffer s);
  let s := s <| tx_buffer := tx |> in
  let s := if (0 <? size)%nat then
             if (old_length =? 0)%nat then s <| remote_last_ts := None |> else s
           else s in
  Ret (s, Ok result).

Definition send (f : list Z -> outcome (list Z * (nat * R))) s :
    outcome (Socket * result R SendError) :=
  send_impl (RingBuffer.enqueue_many_with f) s.

Definition recv_error_check s : result unit RecvError :=
  if negb (may_recv s) then
    if rx_fin_received s then Err Finished else Err RecvInvalidState
  else Ok ().

Definition recv_impl (f : SocketBuffer -> outcome (SocketBuffer * (nat * R))) s :
    outcome (Socket * result R RecvError) :=
  match recv_error_check s with
  | Err e => Ret (s, Err e)
  | Ok _ =>
      '(rx, (size, result)) ← f (rx_buffer s);
      let s := s <| rx_buffer := rx |> in
      seq ← seq_add (remote_seq_no s) (Z.of_nat size);
      Ret (s <| remote_seq_no := seq |>, Ok result)
  end.

Definition recv (f : list Z -> outcome (list Z * (nat * R))) s :
    outcome (Socket * result R RecvError) :=
  recv_impl (RingBuffer.dequeue_many_with f) s.
End Data.

Section Slices.
Implicit Types (s : Socket).

Definition send_slice (data : list Z) s : outcome (Socket * result nat SendError) :=
  send_impl (fun tx => '(tx, size) ← RingBuffer.enqueue_slice data tx; Ret (tx, (size, size))) s.

(** The slice [data] of the caller is returned with what was copied into it. *)
Definition recv_slice (data : list Z) s : outcome (Socket * result (list Z * nat) RecvError) :=
  recv_impl (fun rx => '(rx, (out, size)) ← RingBuffer.dequeue_slice data rx;
                       Ret (rx, (size, (out, size)))) s.

Definition peek (size : nat) s : outcome (result (list Z) RecvError) :=
  match recv_error_check s with
  | Err e => Ret (Err e)
  | Ok _ => buffer ← RingBuffer.get_allocated 0 size (rx_buffer s); Ret (Ok buffer)
  end.

Definition peek_slice (data : list Z) s : outcome (result (list Z * nat) RecvError) :=
  r ← RingBuffer.read_allocated 0 data (rx_buffer s);
  Ret (Ok r).

Definition send_queue s : nat := RingBuffer.len (tx_buffer s).
Definition recv_queue s : nat := RingBuffer.len (rx_buffer s).
End Slices.

(** ** Replies and matching *)

Definition packet : Type := IpRepr * TcpRepr.

Definition reply (ip_repr : IpRepr) (repr : TcpRepr) : outcome packet :=
  let reply_repr := {|
    src_port := dst_port repr;
    dst_port := src_port repr;
    control := ControlNone;
    seq_number := 0;
    ack_number := None;
    window_len := 0;
    window_scale := None;
    max_seg_size := None;
    sack_permitted := false;
    sack_ranges := [None; None; None];
    payload := []
  |} in
  ip_reply_repr ← IpRepr.new (IpRepr.dst_addr ip_repr) (IpRepr.src_addr ip_repr) Protocol.Tcp
                    (Repr.buffer_len reply_repr) 64;
  Ret (ip_reply_repr, reply_repr).

Definition rst_reply (ip_repr : IpRepr) (repr : TcpRepr) : outcome packet :=
  _ ← rust_assert (negb (bool_decide (control repr = Rst)));
  '(ip_reply_repr, reply_repr) ← reply ip_repr repr;
  let reply_repr := reply_repr <| control := Rst |> in
  let reply_repr := reply_repr <| seq_number := default 0 (ack_number repr) |> in
  if bool_decide (control repr = Syn) && bool_decide (ack_number repr = None) then
    ack ← seq_add (seq_number repr) (Z.of_nat (Repr.segment_len repr));
    Ret (ip_reply_repr, reply_repr <| ack_number := Some ack |>)
  else Ret (ip_reply_repr, reply_repr).

(** [(left as u32, right as u32)] *)
Definition as_u32_range (r : Z * Z) : Z * Z := (wrap_u 32 r.1, wrap_u 32 r.2).

(** [s.0 as usize] sign-extends. *)
Definition seq_as_usize (a : SeqNumber) : Z := wrap_u 64 a.

(** The first block of the SACK option: the range of the last segment, else
    the lowest one. *)
Definition sack_block (asm : Assembler) (ack : SeqNumber) (last_seq : option SeqNumber) :
    outcome (option (Z * Z)) :=
  let it := Assembler.iter_data (seq_as_usize ack) asm in
  let containing : outcome (option (Z * Z)) :=
    match last_seq with
    | Some last_seq =>
        let last_seg_seq := wrap_u 32 last_seq in
        Assembler.find (fun r => let '(l, r) := as_u32_range r in
                                 (l <=? last_seg_seq) && (last_seg_seq <=? r)) it
    | None => Ret None
    end in
  block ← containing;
  match block with
  | Some r => Ret (Some (as_u32_range r))
  | None => '(_, r) ← Assembler.next it; Ret (option_map as_u32_range r)
  end.

Definition ack_reply (ip_repr : IpRepr) (repr : TcpRepr) (s : Socket) : outcome (Socket * packet) :=
  '(ip_reply_repr, reply_repr) ← reply ip_repr repr;
  let reply_repr := reply_repr <| seq_number := remote_last_seq s |> in
  ack ← seq_add (remote_seq_no s) (zlen (rx_buffer s));
  let reply_repr := reply_repr <| ack_number := Some ack |> in
  let s := s <| remote_last_ack := ack_number reply_repr |> in
  let reply_repr := reply_repr <| window_len := scaled_window s |> in
  let s := s <| remote_last_win := window_len reply_repr |> in
  reply_repr ← (if remote_has_sack s then
                  block ← sack_block (assembler s) ack (local_rx_last_seq s);
                  Ret (reply_repr <| sack_ranges ::= <[0%nat := block]> |>)
                else Ret reply_repr);
  let ip_reply_repr := IpRepr.set_payload_len (Repr.buffer_len reply_repr) ip_reply_repr in
  Ret (s, (ip_reply_repr, reply_repr)).

Definition challenge_ack_reply (cx : Context) (ip_repr : IpRepr) (repr : TcpRepr) (s : Socket) :
    outcome (Socket * option packet) :=
  if now cx <? challenge_ack_timer s then Ret (s, None) else
  d ← Duration.from_secs 1;
  t ← Instant.add (now cx) d;
  let s := s <| challenge_ack_timer := t |> in
  '(s, p) ← ack_reply ip_repr repr s;
  Ret (s, Some p).

Definition accepts (ip_repr : IpRepr) (repr : TcpRepr) (s : Socket) : bool :=
  if bool_decide (state s = Closed) then false else
  if bool_decide (state s = Listen) && bool_decide (is_Some (ack_number repr)) then false else
  match tuple s with
  | Some t =>
      bool_decide (IpRepr.dst_addr ip_repr = ep_addr (local t))
      && (dst_port repr =? ep_port (local t))
      && bool_decide (IpRepr.src_addr ip_repr = ep_addr (remote t))
      && (src_port repr =? ep_port (remote t))
  | None =>
      let addr_ok := match le_addr (listen_endpoint s) with
                     | Some addr => bool_decide (IpRepr.dst_addr ip_repr = addr)
                     | None => true
                     end in
      addr_ok && negb (dst_port repr =? 0) && (dst_port repr =? le_port (listen_endpoint s))
  end.

(** ** Effects of the handlers

    [M R A]: a computation on the socket and the context that panics, returns
    from the handler with an [R], or goes on with an [A]. *)

Definition M (R A : Type) : Type := Socket -> Context -> outcome (Socket * Context * (R + A)).

#[export] Instance M_ret R : MRet (M R) := fun A a s cx => Ret (s, cx, inr a).

#[export] Instance M_bind R : MBind (M R) := fun A B f m s cx =>
  '(s, cx, r) ← m s cx;
  match r with
  | inl r => Ret (s, cx, inl r)
  | inr a => f a s cx
  end.

Section Effects.
Context {R : Type}.

Definition early {A} (r : R) : M R A := fun s cx => Ret (s, cx, inl r).
Definition get : M R Socket := fun s cx => Ret (s, cx, inr s).
Definition get_cx : M R Context := fun s cx => Ret (s, cx, inr cx).
Definition modify (f : Socket -> Socket) : M R unit := fun s cx => Ret (f s, cx, inr ()).
Definition set_cx (cx' : Context) : M R unit := fun s _ => Ret (s, cx', inr ()).
Definition lift {A} (c : outcome A) : M R A := fun s cx => a ← c; Ret (s, cx, inr a).
(** An operation of the socket that returns a value. *)
Definition call {A} (f : Socket -> outcome (Socket * A)) : M R A := fun s cx =>
  '(s, a) ← f s; Ret (s, cx, inr a).
(** A handler returns what its body returns or what it returned early. *)
Definition run (m : M R R) (s : Socket) (cx : Context) : outcome (Socket * Context * R) :=
  '(s, cx, r) ← m s cx;
  Ret (s, cx, match r with inl r => r | inr r => r end).
End Effects.

(** ** Processing a segment *)

Section Process.
Abbreviation P := (M (option packet)).
Implicit Types (ip_repr : IpRepr) (repr : TcpRepr).

(** Whether a SYN or a FIN of ours is still part of the sequence space. *)
Definition sent_flags (st : State) : bool * bool :=
  match st with
  | SynSent | SynReceived => (true, false)
  | FinWait1 | LastAck | Closing => (false, true)
  | _ => (false, false)
  end.

Definition control_len (st : State) : Z :=
  let '(sent_syn, sent_fin) := sent_flags st in Z.b2z sent_syn + Z.b2z sent_fin.

(** Every acknowledgement must lie between [ack_min] and [ack_max]. *)
Definition check_ack_range ip_repr repr (ack : SeqNumber) : P unit :=
  s ← get;
  cx ← get_cx;
  let unacknowledged := zlen (tx_buffer s) + control_len (state s) in
  ack_max ← lift (seq_add (local_seq_no s) unacknowledged);
  ack_min ← (if (sent_flags (state s)).1 then lift (seq_add (local_seq_no s) 1)
             else mret (local_seq_no s));
  if seq_lt ack ack_min then early None else
  if seq_gt ack ack_max then
    r ← call (challenge_ack_reply cx ip_repr repr);
    early r
  else mret ().

(** Reject unacceptable acknowledgements. *)
Definition check_ack ip_repr repr : P unit :=
  s ← get;
  match state s, control repr, ack_number repr with
  | SynSent, Rst, None => early None
  | SynSent, Rst, Some ack =>
      expected ← lift (seq_add (local_seq_no s) 1);
      if negb (ack =? expected) then early None else mret ()
  | _, Rst, _ => mret ()
  | Listen, _, None => mret ()
  | Listen, _, Some _ => lift Panic
  | _, _, None => early None
  | SynSent, Syn, Some ack =>
      expected ← lift (seq_add (local_seq_no s) 1);
      if negb (ack =? expected) then
        r ← lift (rst_reply ip_repr repr);
        early (Some r)
      else mret ()
  | SynSent, ControlNone, Some ack =>
      expected ← lift (seq_add (local_seq_no s) 1);
      if ack =? expected then early None else
      r ← lift (rst_reply ip_repr repr);
      early (Some r)
  | SynSent, _, _ => early None
  | SynReceived, _, Some ack =>
      expected ← lift (seq_add (local_seq_no s) 1);
      if negb (ack =? expected) then
        r ← lift (rst_reply ip_repr repr);
        early (Some r)
      else mret ()
  | _, _, Some ack => check_ack_range ip_repr repr ack
  end.

(** The segment acceptability test of RFC 9293. *)
Definition segment_in_window (window_start window_end segment_start segment_end : SeqNumber) :
    outcome bool :=
  before ← seq_sub window_start 1;
  Ret match segment_start =? segment_end, window_start =? window_end with
      | true, zero_window =>
          if segment_end =? before then false
          else if zero_window then window_start =? segment_start
          else seq_le window_start segment_start && seq_lt segment_start window_end
      | false, true => false
      | false, false =>
          (seq_le window_start segment_start && seq_lt segment_start window_end)
          || (seq_lt window_start segment_end && seq_le segment_end window_end)
      end.

(** The part of the payload inside the window and its offset there. *)
Definition overlap (window_start window_end segment_start segment_end : SeqNumber)
    (data : list Z) : outcome (list Z * nat) :=
  let overlap_start := seq_max window_start segment_start in
  let overlap_end := seq_min window_end segment_end in
  _ ← rust_assert (seq_le overlap_start overlap_end);
  a ← seq_diff overlap_start segment_start;
  b ← seq_diff overlap_end segment_start;
  part ← range data (Z.to_nat a) (Z.to_nat b);
  offset ← seq_diff overlap_start window_start;
  Ret (part, Z.to_nat offset).

(** The receive window and the segment: its acceptable payload, the offset of
    that in the window, and the start of the window. *)
Definition trim_segment ip_repr repr : P (list Z * nat * SeqNumber) :=
  s ← get;
  cx ← get_cx;
  window_start ← lift (seq_add (remote_seq_no s) (zlen (rx_buffer s)));
  window_end ← lift (seq_add (remote_seq_no s) (zcapacity (rx_buffer s)));
  let segment_start := seq_number repr in
  segment_end ← lift (seq_add (seq_number repr) (Z.of_nat (length (payload repr))));
  match state s with
  | Listen | SynSent => mret ([], 0%nat, window_start)
  | _ =>
      inside ← lift (segment_in_window window_start window_end segment_start segment_end);
      if inside : bool then
        (* [local_rx_last_seq] is set between the assertion and the slicing *)
        _ ← modify (fun s => s <| local_rx_last_seq := Some (seq_number repr) |>);
        '(part, offset) ← lift (overlap window_start window_end segment_start segment_end
                                  (payload repr));
        mret (part, offset, window_start)
      else
        _ ← (if bool_decide (state s = TimeWait) then
               t ← lift (Timer.set_for_close (now cx));
               modify (fun s => s <| timer := t |>)
             else mret ());
        r ← call (challenge_ack_reply cx ip_repr repr);
        early r
  end.

(** The number of acknowledged octets without the SYN and the FIN, whether our
    FIN is acknowledged, and whether everything sent is. *)
Definition count_acked (ack : SeqNumber) (s : Socket) : outcome (Z * bool * bool) :=
  let '(sent_syn, sent_fin) := sent_flags (state s) in
  tx_buffer_start_seq ← seq_add (local_seq_no s) (Z.b2z sent_syn);
  if seq_ge ack tx_buffer_start_seq then
    ack_len ← seq_diff ack tx_buffer_start_seq;
    let ack_of_fin := sent_fin && (zlen (tx_buffer s) + 1 =? ack_len) in
    Ret (if ack_of_fin then ack_len - 1 else ack_len, ack_of_fin, remote_last_seq s =? ack)
  else Ret (0, false, false).

Definition note_ack repr : P (Z * bool * bool) :=
  s ← get;
  cx ← get_cx;
  if bool_decide (control repr = Rst) then mret (0, false, false) else
  match ack_number repr with
  | None => mret (0, false, false)
  | Some ack =>
      '(ack_len, ack_of_fin, ack_all) ← lift (count_acked ack s);
      r ← lift (RttEstimator.on_ack (now cx) ack (rtte s));
      _ ← modify (fun s => s <| rtte := r |>);
      _ ← modify (fun s => s <| congestion_controller ::= Congestion.on_ack (now cx) (Z.to_N ack_len) r |>);
      mret (ack_len, ack_of_fin, ack_all)
  end.

(** The control flag to act on: PSH is ignored, and so is a FIN that does not
    start at the window. *)
Definition effective_control repr (window_start : SeqNumber) : Control :=
  let control := Control.quash_psh (control repr) in
  if bool_decide (control = Fin) && negb (window_start =? seq_number repr) then ControlNone
  else control.

Definition set_for_idle : P unit :=
  s ← get;
  cx ← get_cx;
  t ← lift (Timer.set_for_idle (now cx) (keep_alive s));
  modify (fun s => s <| timer := t |>).

Definition set_for_close : P unit :=
  cx ← get_cx;
  t ← lift (Timer.set_for_close (now cx));
  modify (fun s => s <| timer := t |>).

(** [self.remote_seq_no += 1; self.rx_fin_received = true] *)
Definition accept_fin : P unit :=
  s ← get;
  seq ← lift (seq_add (remote_seq_no s) 1);
  modify (fun s => s <| remote_seq_no := seq |> <| rx_fin_received := true |>).

(** A SYN in the LISTEN state. *)
Definition accept_syn ip_repr repr : P unit :=
  _ ← match max_seg_size repr with
      | Some mss =>
          if mss =? 0 then early None else
          modify (fun s => s <| congestion_controller ::= Congestion.set_mss (Z.to_N mss) |>
                             <| remote_mss := mss |>)
      | None => mret ()
      end;
  _ ← modify (fun s => s <| tuple := Some (mkTuple
         (mkEndpoint (IpRepr.dst_addr ip_repr) (dst_port repr))
         (mkEndpoint (IpRepr.src_addr ip_repr) (src_port repr))) |>);
  cx ← get_cx;
  '(cx, seq) ← lift (random_seq_no cx);
  _ ← set_cx cx;
  _ ← modify (fun s => s <| local_seq_no := seq |>);
  next ← lift (seq_add (seq_number repr) 1);
  _ ← modify (fun s => s <| remote_seq_no := next |>
                         <| remote_last_seq := local_seq_no s |>
                         <| remote_has_sack := sack_permitted repr |>
                         <| remote_win_scale := window_scale repr |>);
  _ ← modify (fun s => match remote_win_scale s with
                       | None => s <| remote_win_shift := 0 |>
                       | Some _ => s
                       end);
  _ ← modify (set_state SynReceived);
  set_for_idle.

(** A SYN|ACK in the SYN-SENT state. *)
Definition accept_syn_ack repr : P unit :=
  _ ← match max_seg_size repr with
      | Some mss =>
          if mss =? 0 then early None else
          modify (fun s => s <| remote_mss := mss |>
                             <| congestion_controller ::= Congestion.set_mss (Z.to_N mss) |>)
      | None => mret ()
      end;
  s ← get;
  next ← lift (seq_add (seq_number repr) 1);
  last ← lift (seq_add (local_seq_no s) 1);
  _ ← modify (fun s => s <| remote_seq_no := next |>
                         <| remote_last_seq := last |>
                         <| remote_last_ack := Some (seq_number repr) |>
                         <| remote_win_scale := window_scale repr |>);
  _ ← modify (fun s => match remote_win_scale s with
                       | None => s <| remote_win_shift := 0 |>
                       | Some _ => s
                       end);
  _ ← modify (set_state Established);
  set_for_idle.

(** Validate and update the state. *)
Definition update_state ip_repr repr (control : Control) (ack_of_fin ack_all : bool) : P unit :=
  s ← get;
  match state s, control with
  | Listen, Rst => early None
  | SynReceived, Rst =>
      _ ← modify (fun s => s <| tuple := None |>);
      _ ← modify (set_state Listen);
      early None
  | _, Rst =>
      _ ← modify (set_state Closed);
      _ ← modify (fun s => s <| tuple := None |>);
      early None
  | Listen, Syn => accept_syn ip_repr repr
  | SynReceived, ControlNone =>
      _ ← modify (set_state Established);
      set_for_idle
  | SynReceived, Fin =>
      _ ← accept_fin;
      _ ← modify (set_state CloseWait);
      set_for_idle
  | SynSent, Syn => accept_syn_ack repr
  | Established, ControlNone =>
      if negb (Timer.is_retransmit (timer s)) || ack_all then set_for_idle else mret ()
  | Established, Fin =>
      _ ← accept_fin;
      _ ← modify (set_state CloseWait);
      set_for_idle
  | FinWait1, ControlNone =>
      _ ← (if ack_of_fin then modify (set_state FinWait2) else mret ());
      if ack_all then set_for_idle else mret ()
  | FinWait1, Fin =>
      _ ← accept_fin;
      if ack_of_fin then
        _ ← modify (set_state TimeWait);
        set_for_close
      else
        _ ← modify (set_state Closing);
        set_for_idle
  | FinWait2, ControlNone => set_for_idle
  | FinWait2, Fin =>
      _ ← accept_fin;
      _ ← modify (set_state TimeWait);
      set_for_close
  | Closing, ControlNone =>
      if ack_of_fin then
        _ ← modify (set_state TimeWait);
        set_for_close
      else set_for_idle
  | CloseWait, ControlNone => set_for_idle
  | LastAck, ControlNone =>
      if ack_of_fin then
        _ ← modify (set_state Closed);
        modify (fun s => s <| tuple := None |>)
      else set_for_idle
  | _, _ => early None
  end.

(** Update remote state; returns whether the window changed. *)
Definition update_remote repr : P bool :=
  cx ← get_cx;
  _ ← modify (fun s => s <| remote_last_ts := Some (now cx) |>);
  s ← get;
  let scale := match TcpWire.control repr with
               | Syn => 0
               | _ => default 0 (remote_win_scale s)
               end in
  new_remote_win_len ← lift (if scale <? 64 then Ret (wrap_u 64 (Z.shiftl (window_len repr) scale))
                             else Panic);
  let is_window_update := negb (new_remote_win_len =? remote_win_len s) in
  _ ← modify (fun s => s <| remote_win_len := new_remote_win_len |>
                         <| congestion_controller ::=
                              Congestion.set_remote_window (Z.to_N new_remote_win_len) |>);
  mret is_window_update.

(** Dequeue acknowledged octets. *)
Definition dequeue_acked (ack_len : Z) : P unit :=
  s ← get;
  if 0 <? ack_len then
    _ ← lift (rust_assert (ack_len <=? zlen (tx_buffer s)));
    tx ← lift (RingBuffer.dequeue_allocated (Z.to_nat ack_len) (tx_buffer s));
    _ ← modify (fun s => s <| tx_buffer := tx |>);
    modify wake_tx
  else mret ().

(** Detect duplicate acknowledgements. *)
Definition count_dup_acks (cx : Context) repr (ack : SeqNumber) (is_window_update : bool)
    (s : Socket) : Socket :=
  if match local_rx_last_ack s with
     | Some last_rx_ack =>
         bool_decide (payload repr = []) && (last_rx_ack =? ack)
         && seq_lt ack (remote_last_seq s) && negb is_window_update
     | None => false
     end
  then
    let s := s <| local_rx_dup_acks := Z.min U8_MAX (local_rx_dup_acks s + 1) |> in
    let s := s <| congestion_controller ::= Congestion.on_duplicate_ack (now cx) |> in
    if local_rx_dup_acks s =? 3 then s <| timer := Timer.set_for_fast_retransmit |> else s
  else
    let s := if 0 <? local_rx_dup_acks s then s <| local_rx_dup_acks := 0 |> else s in
    s <| local_rx_last_ack := Some ack |>.

(** Duplicate acknowledgements and the advance of the local sequence number. *)
Definition advance_local repr (is_window_update : bool) : P unit :=
  cx ← get_cx;
  match ack_number repr with
  | None => mret ()
  | Some ack =>
      _ ← modify (count_dup_acks cx repr ack is_window_update);
      _ ← modify (fun s => s <| local_seq_no := ack |>);
      modify (fun s => if seq_lt (remote_last_seq s) (local_seq_no s)
                       then s <| remote_last_seq := local_seq_no s |> else s)
  end.

Definition delayed_ack_expired (at_ : Instant) (s : Socket) : bool :=
  match ack_delay_timer s with
  | AckIdle => true
  | AckWaiting t => t <=? at_
  | AckImmediate => true
  end.

Definition ack_to_transmit (s : Socket) : outcome bool :=
  match remote_last_ack s with
  | Some last =>
      next ← seq_add (remote_seq_no s) (zlen (rx_buffer s));
      Ret (seq_lt last next)
  | None => Ret false
  end.

Definition window_to_update (s : Socket) : bool :=
  match state s with
  | SynSent | SynReceived | Established | FinWait1 | FinWait2 =>
      remote_last_win s <? scaled_window s
  | _ => false
  end.

(** Record the payload in the assembler, write it to the buffer and enqueue
    what is contiguous. *)
Definition place_payload (data : list Z) (offset : nat) : P unit :=
  s ← get;
  '(asm, res) ← lift (Assembler.add_then_remove_front offset (length data) (assembler s));
  _ ← modify (fun s => s <| assembler := asm |>);
  match res with
  | Err _ => early None
  | Ok contig_len =>
      '(rx, len_written) ← lift (RingBuffer.write_unallocated offset data (rx_buffer s));
      _ ← modify (fun s => s <| rx_buffer := rx |>);
      _ ← lift (rust_assert (len_written =? length data)%nat);
      if negb (contig_len =? 0)%nat then
        rx ← lift (RingBuffer.enqueue_unallocated contig_len rx);
        _ ← modify (fun s => s <| rx_buffer := rx |>);
        modify wake_rx
      else mret ()
  end.

(** Handle delayed acks. *)
Definition delay_ack : P unit :=
  s ← get;
  cx ← get_cx;
  match ack_delay s with
  | None => mret ()
  | Some delay =>
      want ← lift (ack_to_transmit s);
      if want || window_to_update s then
        match ack_delay_timer s with
        | AckIdle =>
            t ← lift (Instant.add (now cx) delay);
            modify (fun s => s <| ack_delay_timer := AckWaiting t |>)
        | AckWaiting _ => modify (fun s => s <| ack_delay_timer := AckImmediate |>)
        | AckImmediate => modify (fun s => s <| ack_delay_timer := AckImmediate |>)
        end
      else mret ()
  end.

(** Place the payload and answer at once when it is, or was, out of order. *)
Definition receive_payload ip_repr repr (data : list Z) (offset : nat) : P (option packet) :=
  if (length data =? 0)%nat then mret None else
  s ← get;
  let assembler_was_empty := Assembler.is_empty (assembler s) in
  _ ← place_payload data offset;
  _ ← delay_ack;
  s ← get;
  if negb (Assembler.is_empty (assembler s)) || negb assembler_was_empty then
    r ← call (ack_reply ip_repr repr);
    mret (Some r)
  else mret None.

Definition process_body ip_repr repr : P (option packet) :=
  s ← get;
  _ ← lift (rust_assert (accepts ip_repr repr s));
  _ ← check_ack ip_repr repr;
  '(data, offset, window_start) ← trim_segment ip_repr repr;
  '(ack_len, ack_of_fin, ack_all) ← note_ack repr;
  let control := effective_control repr window_start in
  _ ← update_state ip_repr repr control ack_of_fin ack_all;
  is_window_update ← update_remote repr;
  _ ← dequeue_acked ack_len;
  _ ← advance_local repr is_window_update;
  receive_payload ip_repr repr data offset.

Definition process ip_repr repr : Socket -> Context -> outcome (Socket * Context * option packet) :=
  run (process_body ip_repr repr).
End Process.

(** ** Dispatching a segment *)

Definition timed_out (at_ : Instant) (s : Socket) : outcome bool :=
  match remote_last_ts s, timeout s with
  | Some ts, Some timeout => t ← Instant.add ts timeout; Ret (t <=? at_)
  | _, _ => Ret false
  end.

Definition ip_header_len (a : Address) : Z := match a with Ipv4 _ => 20 | Ipv6 _ => 40 end.

Definition TCP_HEADER_LEN : Z := Z.of_nat HEADER_LEN.

Definition wants_fin (st : State) : bool :=
  match st with FinWait1 => true | Closing => true | LastAck => true | _ => false end.

Definition seq_to_transmit (cx : Context) (s : Socket) : outcome bool :=
  t ← unwrap (tuple s);
  a ← usub (ip_mtu cx) (ip_header_len (ep_addr (local t)));
  local_mss ← usub a TCP_HEADER_LEN;
  let effective_mss := Z.min local_mss (remote_mss s) in
  let data_in_flight := negb (remote_last_seq s =? local_seq_no s) in
  if bool_decide (state s = SynSent \/ state s = SynReceived) && negb data_in_flight then Ret true
  else
    max_send_seq ← seq_add (local_seq_no s) (Z.min (remote_win_len s) (zlen (tx_buffer s)));
    max_send ← (if seq_ge max_send_seq (remote_last_seq s)
                then seq_diff max_send_seq (remote_last_seq s) else Ret 0);
    let max_send := Z.min max_send (Z.of_N (Congestion.window (congestion_controller s))) in
    let can_send := negb (max_send =? 0) in
    let can_send_full := effective_mss <=? max_send in
    let want_fin := wants_fin (state s) in
    let can_send := if nagle s && data_in_flight && negb can_send_full && negb want_fin
                    then false else can_send in
    (* [&&] evaluates its right side only when [want_fin] holds *)
    can_fin ← (if want_fin
               then end_seq ← seq_add (local_seq_no s) (zlen (tx_buffer s));
                    Ret (remote_last_seq s =? end_seq)
               else Ret false);
    Ret (can_send || can_fin).

Section Dispatch.
Context {E : Type}.
Abbreviation D := (M (result unit E)).
(** [emit] hands the packet to the device. *)
Variable emit : Context -> packet -> outcome (Context * result unit E).

(** Check if any state needs to be changed because of a timer. *)
Definition check_timers : D unit :=
  cx ← get_cx;
  s ← get;
  expired ← lift (timed_out (now cx) s);
  if expired : bool then modify (set_state Closed)
  else
    ready ← lift (seq_to_transmit cx s);
    if ready : bool then mret () else
    delta ← lift (Timer.should_retransmit (now cx) (timer s));
    match delta with
    | None => mret ()
    | Some _ =>
        _ ← modify (fun s => s <| remote_last_seq := local_seq_no s |>);
        t ← lift (Timer.set_for_idle (now cx) (keep_alive s));
        _ ← modify (fun s => s <| timer := t |>);
        r ← lift (RttEstimator.on_retransmit (rtte s));
        _ ← modify (fun s => s <| rtte := r |>);
        modify (fun s => s <| congestion_controller ::= Congestion.on_retransmit (now cx) |>)
    end.

(** Decide whether we're sending a packet. *)
Definition decide_to_send : D unit :=
  cx ← get_cx;
  s ← get;
  ready ← lift (seq_to_transmit cx s);
  if ready : bool then mret () else
  ack ← lift (ack_to_transmit s);
  if ack && delayed_ack_expired (now cx) s then mret () else
  if window_to_update s && delayed_ack_expired (now cx) s then mret () else
  if bool_decide (state s = Closed) then mret () else
  if Timer.should_keep_alive (now cx) (timer s) then mret () else
  if Timer.should_close (now cx) (timer s) then
    s' ← lift (reset s);
    _ ← modify (fun _ => s');
    early (Ok ())
  else early (Ok ()).

(** [cx.ip_mtu() - ip_repr.header_len() - TCP_HEADER_LEN] *)
Definition mtu_payload (cx : Context) (ip_repr : IpRepr) : outcome Z :=
  a ← usub (ip_mtu cx) (Z.of_nat (IpRepr.header_len ip_repr));
  usub a TCP_HEADER_LEN.

(** The basic representation, an empty ACK. *)
Definition ack_repr (t : Tuple) (s : Socket) : outcome TcpRepr :=
  ack ← seq_add (remote_seq_no s) (zlen (rx_buffer s));
  Ret {|
    src_port := ep_port (local t);
    dst_port := ep_port (remote t);
    control := ControlNone;
    seq_number := remote_last_seq s;
    ack_number := Some ack;
    window_len := scaled_window s;
    window_scale := None;
    max_seg_size := None;
    sack_permitted := false;
    sack_ranges := [None; None; None];
    payload := []
  |}.

(** A SYN or SYN|ACK. *)
Definition syn_repr (s : Socket) (repr : TcpRepr) : TcpRepr :=
  let repr := repr <| control := Syn |> in
  let repr := repr <| window_len := Z.min (zwindow (rx_buffer s)) (2 ^ 16 - 1) |> in
  if bool_decide (state s = SynSent) then
    repr <| ack_number := None |> <| window_scale := Some (remote_win_shift s) |>
         <| sack_permitted := true |>
  else
    repr <| sack_permitted := remote_has_sack s |>
         <| window_scale := (fun _ => remote_win_shift s) <$> remote_win_scale s |>.

(** A segment with data: as much as the remote window, the MSS and the MTU
    allow, followed by PSH or FIN when it ends the buffer. *)
Definition data_repr (cx : Context) (ip_repr : IpRepr) (s : Socket) (repr : TcpRepr) :
    outcome TcpRepr :=
  win_right_edge ← seq_add (local_seq_no s) (remote_win_len s);
  win_limit ← (if seq_ge win_right_edge (remote_last_seq s)
               then seq_diff win_right_edge (remote_last_seq s) else Ret 0);
  mtu ← mtu_payload cx ip_repr;
  let size := Z.min (Z.min win_limit (remote_mss s)) mtu in
  offset ← seq_diff (remote_last_seq s) (local_seq_no s);
  data ← RingBuffer.get_allocated (Z.to_nat offset) (Z.to_nat size) (tx_buffer s);
  let repr := repr <| payload := data |> in
  Ret (if offset + Z.of_nat (length (payload repr)) =? zlen (tx_buffer s) then
         match state s with
         | FinWait1 | LastAck | Closing => repr <| control := Fin |>
         | Established | CloseWait =>
             if negb (bool_decide (payload repr = [])) then repr <| control := Psh |> else repr
         | _ => repr
         end
       else repr).

(** The segment for the state; [None] is the early return. *)
Definition segment_repr (cx : Context) (ip_repr : IpRepr) (s : Socket) (repr : TcpRepr) :
    outcome (option TcpRepr) :=
  match state s with
  | Closed => Ret (Some (repr <| control := Rst |>))
  | Listen => Ret None
  | SynSent | SynReceived => Ret (Some (syn_repr s repr))
  | Established | FinWait1 | Closing | CloseWait | LastAck =>
      repr ← data_repr cx ip_repr s repr;
      Ret (Some repr)
  | FinWait2 | TimeWait => Ret (Some repr)
  end.

(** Turn an empty segment into a keep-alive when that is due. *)
Definition keep_alive_repr (cx : Context) (s : Socket) (repr : TcpRepr) : outcome (TcpRepr * bool) :=
  if Timer.should_keep_alive (now cx) (timer s) && Repr.is_empty repr then
    seq ← seq_sub (seq_number repr) 1;
    Ret (repr <| seq_number := seq |> <| payload := [0] |>, true)
  else Ret (repr, false).

(** Fill the MSS option of a SYN. *)
Definition mss_repr (cx : Context) (ip_repr : IpRepr) (repr : TcpRepr) : outcome TcpRepr :=
  if bool_decide (control repr = Syn) then
    max_segment_size ← mtu_payload cx ip_repr;
    Ret (repr <| max_seg_size := Some (wrap_u 16 max_segment_size) |>)
  else Ret repr.

(** Build the packet; the flag tells whether it is a keep-alive. *)
Definition build_packet : D (IpRepr * TcpRepr * bool) :=
  cx ← get_cx;
  s ← get;
  t ← lift (unwrap (tuple s));
  ip_repr ← lift (IpRepr.new (ep_addr (local t)) (ep_addr (remote t)) Protocol.Tcp 0
                    (default 64 (hop_limit s)));
  repr ← lift (ack_repr t s);
  segment ← lift (segment_repr cx ip_repr s repr);
  match segment with
  | None => early (Ok ())
  | Some repr =>
      '(repr, is_keep_alive) ← lift (keep_alive_repr cx s repr);
      repr ← lift (mss_repr cx ip_repr repr);
      let ip_repr := IpRepr.set_payload_len (Repr.buffer_len repr) ip_repr in
      mret (ip_repr, repr, is_keep_alive)
  end.

(** We've sent a packet successfully: update the internal state. *)
Definition note_sent (repr : TcpRepr) : D unit :=
  cx ← get_cx;
  let segment_len := Z.of_nat (Repr.segment_len repr) in
  last ← lift (seq_add (seq_number repr) segment_len);
  _ ← modify (fun s => s <| remote_last_seq := last |>
                         <| remote_last_ack := ack_number repr |>
                         <| remote_last_win := window_len repr |>);
  _ ← (if 0 <? segment_len then
         _ ← modify (fun s => s <| rtte ::= RttEstimator.on_send (now cx) last |>);
         modify (fun s => s <| congestion_controller ::=
                                 Congestion.post_transmit (now cx) (Z.to_N segment_len) |>)
       else mret ());
  s ← get;
  ready ← lift (seq_to_transmit cx s);
  _ ← (if negb ready && (0 <? segment_len) then
         delay ← lift (RttEstimator.retransmission_timeout (rtte s));
         t ← lift (Timer.set_for_retransmit (now cx) delay (timer s));
         modify (fun s => s <| timer := t |>)
       else mret ());
  s ← get;
  if bool_decide (state s = Closed) then
    _ ← modify (fun s => s <| tuple := None |>);
    modify wake_tx
  else mret ().

Definition dispatch_body : D (result unit E) :=
  s ← get;
  cx ← get_cx;
  if bool_decide (tuple s = None) then early (Ok ()) else
  _ ← (if bool_decide (remote_last_ts s = None)
       then modify (fun s => s <| remote_last_ts := Some (now cx) |>) else mret ());
  _ ← modify (fun s => s <| congestion_controller ::= Congestion.pre_transmit (now cx) |>);
  _ ← check_timers;
  _ ← decide_to_send;
  '(ip_repr, repr, is_keep_alive) ← build_packet;
  cx ← get_cx;
  '(cx, sent) ← lift (emit cx (ip_repr, repr));
  _ ← set_cx cx;
  match sent with
  | Err e => early (Err e)
  | Ok _ =>
      s ← get;
      t ← lift (Timer.rewind_keep_alive (now cx) (keep_alive s) (timer s));
      _ ← modify (fun s => s <| timer := t |>);
      _ ← modify (fun s => s <| ack_delay_timer := AckIdle |>);
      if is_keep_alive : bool then early (Ok ()) else
      _ ← note_sent repr;
      mret (Ok ())
  end.

Definition dispatch : Socket -> Context -> outcome (Socket * Context * result unit E) :=
  run dispatch_body.
End Dispatch.

Definition poll_at_min (p q : PollAt) : PollAt := if poll_at_le p q then p else q.

Definition poll_at (cx : Context) (s : Socket) : outcome PollAt :=
  if bool_decide (tuple s = None) then Ret PollIngress
  else if bool_decide (remote_last_ts s = None) then Ret PollNow
  else if bool_decide (state s = Closed) then Ret PollNow
  else
    ready ← seq_to_transmit cx s;
    if ready : bool then Ret PollNow else
    ack ← ack_to_transmit s;
    let want_ack := ack || window_to_update s in
    let delayed_ack_poll_at :=
      match want_ack, ack_delay_timer s with
      | false, _ => PollIngress
      | true, AckIdle => PollNow
      | true, AckWaiting t => PollTime t
      | true, AckImmediate => PollNow
      end in
    timeout_poll_at ← match remote_last_ts s, timeout s with
                      | Some ts, Some timeout => t ← Instant.add ts timeout; Ret (PollTime t)
                      | _, _ => Ret PollIngress
                      end;
    Ret (poll_at_min (poll_at_min (Timer.poll_at (timer s)) timeout_poll_at) delayed_ack_poll_at).
