(* ===== verification/IfaceProcess.v ===== *)
(** * The interface: receiving and polling (src/iface/interface)

    The handlers of incoming frames, from the Ethernet header to the sockets, the
    set of sockets with its metadata (src/iface/socket_set.rs, socket_meta.rs), and
    [poll].  The build has UDP and TCP sockets. *)

From S2P Require Import Prelude Time Bytes Octets Phy Ip LinkLayer Arp Ipv4Wire Ipv6Wire Icmpv4Wire UdpWire TcpWire.
From S2P Require Import Cidr Route Neighbor Fragmentation Packet Ipv4Fragments TcpTimers Context.
From S2P Require Import TcpSocket UdpSocket Iface Collections.
Open Scope nat_scope.

(** ** Sockets and their metadata *)

Inductive AnySocket :=
| SocketUdp (s : UdpSocket.Socket)
| SocketTcp (s : TcpSocket.Socket).

Module Meta.
Inductive NeighborState :=
| Active
| Waiting (neighbor : Address) (silent_until : Instant).

Record t := mk { handle : nat; neighbor_state : NeighborState }.

Definition DISCOVERY_SILENT_TIME : Duration := (1000 * 1000)%Z.

Definition poll_at (socket_poll_at : PollAt) (has_neighbor : Address -> outcome bool) (m : t) : outcome PollAt :=
  match neighbor_state m with
  | Active => Ret socket_poll_at
  | Waiting neighbor silent_until =>
      b ← has_neighbor neighbor;
      Ret (if b : bool then socket_poll_at else PollTime silent_until)
  end.

Definition egress_permitted (timestamp : Instant) (has_neighbor : Address -> outcome bool) (m : t) :
    outcome (t * bool) :=
  match neighbor_state m with
  | Active => Ret (m, true)
  | Waiting neighbor silent_until =>
      b ← has_neighbor neighbor;
      if b : bool then Ret (mk (handle m) Active, true)
      else if (silent_until <=? timestamp)%Z then Ret (m, true)
      else Ret (m, false)
  end.

Definition neighbor_missing (timestamp : Instant) (neighbor : Address) (m : t) : outcome t :=
  silent_until ← Instant.add timestamp DISCOVERY_SILENT_TIME;
  Ret (mk (handle m) (Waiting neighbor silent_until)).
End Meta.

Record Item := mkItem { item_meta : Meta.t; item_socket : AnySocket }.

Module SocketSet.
(** The storage of a set, a slot per socket; [growable] is [ManagedSlice::Owned]. *)
Record t := mk { sockets : list (option Item); growable : bool }.

Definition put (index : nat) (socket : AnySocket) (s : t) : t * nat :=
  (mk (<[index := Some (mkItem (Meta.mk index Meta.Active) socket)]> (sockets s)) (growable s), index).

Definition add (socket : AnySocket) (s : t) : outcome (t * nat) :=
  match list_find (fun slot => slot = None) (sockets s) with
  | Some (index, _) => Ret (put index socket s)
  | None =>
      if growable s then
        let s := mk (sockets s ++ [None]) (growable s) in
        Ret (put (length (sockets s) - 1) socket s)
      else Panic
  end.

(** [get] and [get_mut] before the downcast. *)
Definition get (handle : nat) (s : t) : outcome Item :=
  slot ← unwrap (sockets s !! handle);
  unwrap slot.

Definition remove (handle : nat) (s : t) : outcome (t * AnySocket) :=
  slot ← unwrap (sockets s !! handle);
  item ← unwrap slot;
  Ret (mk (<[handle := None]> (sockets s)) (growable s), item_socket item).

Definition items (s : t) : list Item := omap id (sockets s).
End SocketSet.

Section Interface.
Context {BO : ByteOrder} {AV : Vec IpCidr} {RV : Vec Route} {LM : LinearMap Address Neighbor}.
Implicit Types (inner : InterfaceInner) (slots : list (option Item)).

(** What the sockets see of the interface. *)
Definition get_source_address inner (dst_addr : Address) : option Address :=
  match dst_addr with Ipv4 addr => Ipv4 <$> get_source_address_ipv4 inner addr | Ipv6 _ => None end.

(** [is_broadcast] panics only for a prefix longer than the address, which
    [Ipv4Cidr::new] refuses. *)
Definition context inner : outcome Context :=
  mtu ← DeviceCapabilities.ip_mtu (caps inner);
  Ret (mkContext (if_now inner) (Z.of_nat mtu) (if_rand inner) (get_source_address inner)
         (fun a => match is_broadcast inner a with Ret b => b | Panic => false end)
         (hardware_addr inner) (caps_checksum (caps inner)) (as_slice (ip_addrs inner))).

(** ** Incoming packets *)

Definition process_arp inner (timestamp : Instant) (eth_payload : list Z) :
    outcome (InterfaceInner * option EthernetPacket) :=
  res ← (arp_packet ←? ArpPacket.new_checked eth_payload; ArpRepr.parse arp_packet);
  match res with
  | Err _ => Ret (inner, None)
  | Ok (EthernetIpv4 operation source_hardware_addr source_protocol_addr _ target_protocol_addr) =>
      if negb (has_ip_addr inner (Ipv4 target_protocol_addr)) && negb (any_ip inner) then Ret (inner, None) else
      match operation with
      | ArpOperation.Unknown _ => Ret (inner, None)
      | _ =>
          if negb (Ipv4Address.is_unicast source_protocol_addr) || negb (EthernetAddress.is_unicast source_hardware_addr)
          then Ret (inner, None) else
          same ← in_same_network inner (Ipv4 source_protocol_addr);
          if negb same then Ret (inner, None) else
          cache ← Cache.fill (Ipv4 source_protocol_addr) (HwEthernet source_hardware_addr) timestamp (neighbor_cache inner);
          let inner := inner <| neighbor_cache := cache |> in
          if bool_decide (operation = ArpOperation.Request) then
            src_hardware_addr ← HardwareAddress.ethernet_or_panic (hardware_addr inner);
            Ret (inner, Some (EthernetArp (EthernetIpv4 ArpOperation.Reply src_hardware_addr target_protocol_addr
                                             source_hardware_addr source_protocol_addr)))
          else Ret (inner, None)
      end
  end.

Definition icmpv4_reply inner (ipv4_repr : IpHeader) (icmp_repr : Icmpv4Repr) : outcome (option Packet) :=
  let reply src_addr :=
    Some (PacketIpv4 (mkIpHeader src_addr (ih_src_addr ipv4_repr) Protocol.Icmp (Icmpv4Repr.buffer_len icmp_repr) 64)
            (PayloadIcmpv4 icmp_repr)) in
  src_unicast ← is_unicast_v4 inner (ih_src_addr ipv4_repr);
  if negb src_unicast then Ret None else
  dst_unicast ← is_unicast_v4 inner (ih_dst_addr ipv4_repr);
  if dst_unicast : bool then Ret (reply (ih_dst_addr ipv4_repr)) else
  dst_broadcast ← is_broadcast_v4 inner (ih_dst_addr ipv4_repr);
  if dst_broadcast : bool then
    Ret match icmp_repr with
        | Icmpv4EchoReply _ _ _ =>
            match ipv4_addr inner with Some src_addr => reply src_addr | None => None end
        | _ => None
        end
  else Ret None.

Definition process_icmpv4 inner (ip_repr : IpHeader) (ip_payload : list Z) : outcome (option Packet) :=
  match Icmpv4Packet.new_checked ip_payload with
  | Err _ => Ret None
  | Ok icmp_packet =>
      res ← Icmpv4Repr.parse icmp_packet (caps_checksum (caps inner));
      match res with
      | Err _ => Ret None
      | Ok (Icmpv4EchoRequest ident seq_no data) => icmpv4_reply inner ip_repr (Icmpv4EchoReply ident seq_no data)
      | Ok (Icmpv4EchoReply _ _ _) => Ret None
      | Ok _ => Ret None
      end
  end.

Definition IPV4_MIN_MTU : nat := 576.

(** An error message that quotes the packet. *)
Definition unreachable_reply inner (reason : Icmpv4DstUnreachable.t) (ipv4_repr : IpHeader) (ip_payload : list Z) :
    outcome (option Packet) :=
  payload_len ← icmp_reply_payload_len (length ip_payload) IPV4_MIN_MTU (Ipv4Repr.buffer_len ipv4_repr);
  data ← range ip_payload 0 payload_len;
  icmpv4_reply inner ipv4_repr (Icmpv4DstUnreachable reason ipv4_repr data).

(** The loop over the UDP sockets: every one that accepts the datagram gets it. *)
Fixpoint udp_deliver (cx : Context) (meta : PacketMeta) (ip_repr : IpRepr) (udp_repr : UdpRepr)
    (udp_packet : list Z) slots (is_received : bool) : outcome (list (option Item) * bool) :=
  match slots with
  | [] => Ret ([], is_received)
  | Some (mkItem m (SocketUdp s)) :: slots =>
      if UdpSocket.accepts cx ip_repr udp_repr s then
        payload ← UdpPacket.payload udp_packet;
        s ← UdpSocket.process cx meta ip_repr udp_repr payload s;
        '(slots, is_received) ← udp_deliver cx meta ip_repr udp_repr udp_packet slots true;
        Ret (Some (mkItem m (SocketUdp s)) :: slots, is_received)
      else
        '(slots, is_received) ← udp_deliver cx meta ip_repr udp_repr udp_packet slots is_received;
        Ret (Some (mkItem m (SocketUdp s)) :: slots, is_received)
  | slot :: slots =>
      '(slots, is_received) ← udp_deliver cx meta ip_repr udp_repr udp_packet slots is_received;
      Ret (slot :: slots, is_received)
  end.

Definition process_udp inner slots (meta : PacketMeta) (handled_by_raw_socket : bool) (ip_repr : IpRepr)
    (ip_payload : list Z) : outcome (list (option Item) * option Packet) :=
  res ← (udp_packet ←? UdpPacket.new_checked ip_payload;
         udp_repr ←? UdpRepr.parse udp_packet (IpRepr.src_addr ip_repr) (IpRepr.dst_addr ip_repr)
                       (caps_checksum (caps inner));
         Ret (Ok (udp_packet, udp_repr)));
  match res with
  | Err _ => Ret (slots, None)
  | Ok (udp_packet, udp_repr) =>
      cx ← context inner;
      '(slots, is_received) ← udp_deliver cx meta ip_repr udp_repr udp_packet slots false;
      if is_received : bool then Ret (slots, None) else
      match ip_repr with
      | ReprIpv4 ipv4_repr =>
          if handled_by_raw_socket then Ret (slots, None) else
          reply ← unreachable_reply inner Icmpv4DstUnreachable.PortUnreachable ipv4_repr ip_payload;
          Ret (slots, reply)
      | ReprIpv6 _ => Panic
      end
  end.

(** The loop over the TCP sockets: the first one that accepts the segment. *)
Fixpoint tcp_deliver (cx : Context) (ip_repr : IpRepr) (tcp_repr : TcpRepr) slots :
    outcome (list (option Item) * option (Context * option packet)) :=
  match slots with
  | [] => Ret ([], None)
  | Some (mkItem m (SocketTcp s)) :: slots =>
      if TcpSocket.accepts ip_repr tcp_repr s then
        '(s, cx, reply) ← TcpSocket.process ip_repr tcp_repr s cx;
        Ret (Some (mkItem m (SocketTcp s)) :: slots, Some (cx, reply))
      else
        '(slots, r) ← tcp_deliver cx ip_repr tcp_repr slots;
        Ret (Some (mkItem m (SocketTcp s)) :: slots, r)
  | slot :: slots =>
      '(slots, r) ← tcp_deliver cx ip_repr tcp_repr slots;
      Ret (slot :: slots, r)
  end.

Definition tcp_packet (p : packet) : Packet := Packet.new p.1 (PayloadTcp p.2).

Definition process_tcp inner slots (ip_repr : IpRepr) (ip_payload : list Z) :
    outcome (InterfaceInner * list (option Item) * option Packet) :=
  res ← (tcp_packet ←? TcpWire.Packet.new_checked ip_payload;
         Repr.parse tcp_packet (IpRepr.src_addr ip_repr) (IpRepr.dst_addr ip_repr) (caps_checksum (caps inner)));
  match res with
  | Err _ => Ret (inner, slots, None)
  | Ok tcp_repr =>
      cx ← context inner;
      '(slots, r) ← tcp_deliver cx ip_repr tcp_repr slots;
      match r with
      | Some (cx, reply) => Ret (inner <| if_rand := rand cx |>, slots, option_map tcp_packet reply)
      | None =>
          if bool_decide (control tcp_repr = Rst)
             || Address.is_unspecified (IpRepr.dst_addr ip_repr)
             || Address.is_unspecified (IpRepr.src_addr ip_repr)
          then Ret (inner, slots, None)
          else p ← rst_reply ip_repr tcp_repr; Ret (inner, slots, Some (tcp_packet p))
      end
  end.

(** Packets for us: our addresses, broadcasts, our groups; with [any_ip], also
    those that are routed to us. *)
Definition not_for_us inner (dst_addr : list Z) : outcome bool :=
  if has_ip_addr inner (Ipv4 dst_addr) || has_multicast_group inner (Ipv4 dst_addr) then Ret false else
  broadcast ← is_broadcast_v4 inner dst_addr;
  if broadcast : bool then Ret false else
  if negb (any_ip inner) || negb (Ipv4Address.is_unicast dst_addr) then Ret true else
  hop ← Routes.lookup (Ipv4 dst_addr) (if_now inner) (routes inner);
  Ret match hop with Some router_addr => negb (has_ip_addr inner router_addr) | None => true end.

(** The end of [process_ipv4]: the payload goes to the handler of its protocol. *)
Definition process_ipv4_payload inner slots (meta : PacketMeta) (ipv4_repr : IpHeader) (ip_payload : list Z) :
    outcome (InterfaceInner * list (option Item) * option Packet) :=
  let ip_repr := ReprIpv4 ipv4_repr in
  match ih_next_header ipv4_repr with
  | Protocol.Icmp =>
      reply ← process_icmpv4 inner ipv4_repr ip_payload;
      Ret (inner, slots, reply)
  | Protocol.Udp =>
      '(slots, reply) ← process_udp inner slots meta false ip_repr ip_payload;
      Ret (inner, slots, reply)
  | Protocol.Tcp => process_tcp inner slots ip_repr ip_payload
  | _ =>
      reply ← unreachable_reply inner Icmpv4DstUnreachable.ProtoUnreachable ipv4_repr ip_payload;
      Ret (inner, slots, reply)
  end.

Definition process_ipv4 inner slots (meta : PacketMeta) (ipv4_packet : list Z) (frag : FragmentsBuffer) :
    outcome (InterfaceInner * FragmentsBuffer * list (option Item) * option Packet) :=
  res ← Ipv4Repr.parse ipv4_packet (caps_checksum (caps inner));
  match res with
  | Err _ => Ret (inner, frag, slots, None)
  | Ok ipv4_repr =>
      src_unicast ← is_unicast_v4 inner (ih_src_addr ipv4_repr);
      if negb src_unicast && negb (Ipv4Address.is_unspecified (ih_src_addr ipv4_repr))
      then Ret (inner, frag, slots, None) else
      '(frag, payload) ← process_fragment (if_now inner) ipv4_packet frag;
      match payload with
      | None => Ret (inner, frag, slots, None)
      | Some ip_payload =>
          foreign ← not_for_us inner (ih_dst_addr ipv4_repr);
          if foreign : bool then Ret (inner, frag, slots, None) else
          '(inner, slots, reply) ← process_ipv4_payload inner slots meta ipv4_repr ip_payload;
          Ret (inner, frag, slots, reply)
      end
  end.

Definition process_ethernet inner slots (meta : PacketMeta) (frame : list Z) (frag : FragmentsBuffer) :
    outcome (InterfaceInner * FragmentsBuffer * list (option Item) * option EthernetPacket) :=
  match Frame.new_checked frame with
  | Err _ => Ret (inner, frag, slots, None)
  | Ok eth_frame =>
      dst_addr ← Frame.dst_addr eth_frame;
      if negb (EthernetAddress.is_broadcast dst_addr) && negb (EthernetAddress.is_multicast dst_addr)
         && negb (bool_decide (HwEthernet dst_addr = hardware_addr inner))
      then Ret (inner, frag, slots, None) else
      ethertype ← Frame.ethertype eth_frame;
      eth_payload ← Frame.payload eth_frame;
      match ethertype with
      | EtherType.Arp =>
          '(inner, reply) ← process_arp inner (if_now inner) eth_payload;
          Ret (inner, frag, slots, reply)
      | EtherType.Ipv4 =>
          res ← Ipv4Packet.new_checked eth_payload;
          match res with
          | Err _ => Ret (inner, frag, slots, None)
          | Ok ipv4_packet =>
              '(inner, frag, slots, reply) ← process_ipv4 inner slots meta ipv4_packet frag;
              Ret (inner, frag, slots, option_map EthernetIp reply)
          end
      | _ => Ret (inner, frag, slots, None)
      end
  end.

Definition process_ip inner slots (meta : PacketMeta) (ip_payload : list Z) (frag : FragmentsBuffer) :
    outcome (InterfaceInner * FragmentsBuffer * list (option Item) * option Packet) :=
  version ← version_of_packet ip_payload;
  match version with
  | Ok V4 =>
      res ← Ipv4Packet.new_checked ip_payload;
      match res with
      | Err _ => Ret (inner, frag, slots, None)
      | Ok ipv4_packet => process_ipv4 inner slots meta ipv4_packet frag
      end
  | _ => Ret (inner, frag, slots, None)
  end.
End Interface.

(** ** Polling *)

Section Poll.
Context {BO : ByteOrder} {AV : Vec IpCidr} {RV : Vec Route} {LM : LinearMap Address Neighbor}.

Record Interface := mkInterface {
  inner : InterfaceInner;
  fragments : FragmentsBuffer;
  fragmenter : Fragmenter.t
}.
#[export] Instance eta_Interface : Settable Interface := fun i => mkInterface (inner i) (fragments i) (fragmenter i).

(** A receive token: the frame that [consume] hands to the closure, [meta], and what
    [preprocess] does to the sockets. *)
Record RxToken := mkRxToken {
  rx_frame : list Z;
  rx_meta : PacketMeta;
  rx_preprocess : list (option Item) -> outcome (list (option Item))
}.

(** A device: what it answers when it is asked for a frame ([receive]) and when it is
    asked for a transmit token ([transmit]), one answer after the other, and the frames
    it was given to send.  When there are no more answers it has nothing.  A frame
    may follow after the device had none: it arrives later in the same [poll]. *)
Record Device := mkDevice {
  dev_rx : list (option (RxToken * TxToken));
  dev_tx : list (option TxToken);
  dev_sent : list (list Z)
}.
#[export] Instance eta_Device : Settable Device := fun d => mkDevice (dev_rx d) (dev_tx d) (dev_sent d).

(** The defaults of the trait. *)
Definition default_meta : PacketMeta := mkPacketMeta 0.
Definition plain_rx (frame : list Z) : RxToken := mkRxToken frame default_meta Ret.

(** The closure of [socket_ingress]: a received frame and the reply to it. *)
Definition ingress_frame (meta : PacketMeta) (frame : list Z) (tx_token : TxToken) (slots : list (option Item))
    (i : Interface) : outcome (Interface * list (option Item) * list (list Z)) :=
  match caps_medium (caps (inner i)) with
  | MediumEthernet =>
      '(inn, frag, slots, reply) ← process_ethernet (inner i) slots meta frame (fragments i);
      let i := i <| inner := inn |> <| fragments := frag |> in
      match reply with
      | Some packet =>
          '(inn, fragm, sent, _) ← dispatch (inner i) tx_token packet (fragmenter i);
          Ret (i <| inner := inn |> <| fragmenter := fragm |>, slots, sent)
      | None => Ret (i, slots, [])
      end
  | MediumIp =>
      '(inn, frag, slots, reply) ← process_ip (inner i) slots meta frame (fragments i);
      let i := i <| inner := inn |> <| fragments := frag |> in
      match reply with
      | Some packet =>
          '(inn, fragm, sent, _) ← dispatch_ip (inner i) tx_token packet (fragmenter i);
          Ret (i <| inner := inn |> <| fragmenter := fragm |>, slots, sent)
      | None => Ret (i, slots, [])
      end
  | MediumIeee802154 => Panic
  end.

(** The loop of [socket_ingress]: until the device has no frame. *)
Fixpoint ingress_loop (rx : list (option (RxToken * TxToken))) (slots : list (option Item)) (processed_any : bool)
    (i : Interface) : outcome (Interface * list (option (RxToken * TxToken)) * list (option Item) * list (list Z) * bool) :=
  match rx with
  | [] => Ret (i, [], slots, [], processed_any)
  | None :: rx => Ret (i, rx, slots, [], processed_any)
  | Some (rx_token, tx_token) :: rx =>
      slots ← rx_preprocess rx_token slots;
      match rx_frame rx_token with
      | [] => ingress_loop rx slots processed_any i
      | frame =>
          '(i, slots, sent) ← ingress_frame (rx_meta rx_token) frame tx_token slots i;
          '(i, rx, slots, sent', processed_any) ← ingress_loop rx slots true i;
          Ret (i, rx, slots, sent ++ sent', processed_any)
      end
  end.

Definition socket_ingress (d : Device) (slots : list (option Item)) (i : Interface) :
    outcome (Interface * Device * list (option Item) * bool) :=
  '(i, rx, slots, sent, processed_any) ← ingress_loop (dev_rx d) slots false i;
  Ret (i, d <| dev_rx := rx |> <| dev_sent ::= fun l => l ++ sent |>, slots, processed_any).

Inductive EgressError := Exhausted | Dispatch (e : DispatchError).

(** The closure [respond] of [socket_egress]. *)
Definition respond (packet : Packet) (d : Device) (i : Interface) :
    outcome (Interface * Device * result unit EgressError) :=
  let '(tx, token) := transmit (dev_tx d) in
  let d := d <| dev_tx := tx |> in
  match token with
  | None => Ret (i, d, Err Exhausted)
  | Some t =>
      '(inn, fragm, sent, res) ← dispatch_ip (inner i) t packet (fragmenter i);
      let i := i <| inner := inn |> <| fragmenter := fragm |> in
      let d := d <| dev_sent ::= fun l => l ++ sent |> in
      Ret (i, d, match res with Ok _ => Ok () | Err e => Err (Dispatch e) end)
  end.

(** A socket calls the closure it is given at most once, in [dispatch]; the packet
    is the one with which it calls a closure that fails. *)
Definition tcp_wants (s : TcpSocket.Socket) (cx : Context) : outcome (option packet) :=
  '(_, _, r) ← TcpSocket.dispatch (fun cx p => Ret (cx, Err p)) s cx;
  Ret match r with Err p => Some p | Ok _ => None end.

Definition udp_wants (s : UdpSocket.Socket) (cx : Context) : outcome (option datagram) :=
  '(_, _, r) ← UdpSocket.dispatch (fun cx _ p => Ret (cx, Err p)) s cx;
  Ret match r with Err p => Some p | Ok _ => None end.

(** [dispatch] of a socket with [respond]: the neighbor address is that of the
    packet, if there is one. *)
Definition dispatch_socket (s : AnySocket) (d : Device) (i : Interface) :
    outcome (Interface * Device * AnySocket * option Address * result unit EgressError) :=
  cx ← context (inner i);
  match s with
  | SocketUdp s =>
      p ← udp_wants s cx;
      '(i, d, sent) ← match p with
        | Some (ip, udp, payload) => respond (Packet.new ip (PayloadUdp udp payload)) d i
        | None => Ret (i, d, Ok ())
        end;
      '(s, _, res) ← UdpSocket.dispatch (fun cx _ _ => Ret (cx, sent)) s cx;
      Ret (i, d, SocketUdp s, (fun p => IpRepr.dst_addr p.1.1) <$> p, res)
  | SocketTcp s =>
      p ← tcp_wants s cx;
      '(i, d, sent) ← match p with
        | Some (ip, tcp) => respond (Packet.new ip (PayloadTcp tcp)) d i
        | None => Ret (i, d, Ok ())
        end;
      '(s, cx, res) ← TcpSocket.dispatch (fun cx _ => Ret (cx, sent)) s cx;
      Ret (i <| inner ::= fun inn => inn <| if_rand := rand cx |> |>, d, SocketTcp s,
           (fun p => IpRepr.dst_addr p.1) <$> p, res)
  end.

(** The loop of [socket_egress] over the sockets. *)
Fixpoint egress_loop (slots : list (option Item)) (emitted_any : bool) (d : Device) (i : Interface) :
    outcome (Interface * Device * list (option Item) * bool) :=
  match slots with
  | [] => Ret (i, d, [], emitted_any)
  | None :: slots =>
      '(i, d, slots, emitted_any) ← egress_loop slots emitted_any d i;
      Ret (i, d, None :: slots, emitted_any)
  | Some (mkItem m s) :: rest =>
      '(m, permitted) ← Meta.egress_permitted (if_now (inner i)) (has_neighbor (inner i)) m;
      if permitted : bool then
        '(i, d, s, neighbor_addr, res) ← dispatch_socket s d i;
        match res with
        | Err Exhausted => Ret (i, d, Some (mkItem m s) :: rest, emitted_any)
        | Err (Dispatch _) =>
            neighbor ← unwrap neighbor_addr;
            m ← Meta.neighbor_missing (if_now (inner i)) neighbor m;
            '(i, d, rest, emitted_any) ← egress_loop rest emitted_any d i;
            Ret (i, d, Some (mkItem m s) :: rest, emitted_any)
        | Ok _ =>
            '(i, d, rest, emitted_any) ← egress_loop rest (emitted_any || bool_decide (is_Some neighbor_addr)) d i;
            Ret (i, d, Some (mkItem m s) :: rest, emitted_any)
        end
      else
        '(i, d, rest, emitted_any) ← egress_loop rest emitted_any d i;
        Ret (i, d, Some (mkItem m s) :: rest, emitted_any)
  end.

Definition socket_egress (d : Device) (slots : list (option Item)) (i : Interface) :
    outcome (Interface * Device * list (option Item) * bool) := egress_loop slots false d i.

(** The loop of [poll]; [None] when the rounds allowed are used up. *)
Fixpoint poll_loop (rounds : nat) (d : Device) (slots : list (option Item)) (changed : bool) (i : Interface) :
    outcome (option (Interface * Device * list (option Item) * bool)) :=
  match rounds with
  | O => Ret None
  | S rounds =>
      '(i, d, slots, ingress) ← socket_ingress d slots i;
      '(i, d, slots, egress) ← socket_egress d slots i;
      if ingress || egress then poll_loop rounds d slots true i
      else Ret (Some (i, d, slots, changed))
  end.

Definition poll (rounds : nat) (timestamp : Instant) (d : Device) (slots : list (option Item)) (i : Interface) :
    outcome (option (Interface * Device * list (option Item) * bool)) :=
  let i := i <| inner ::= fun inn => inn <| if_now := timestamp |> |>
             <| fragments ::= fun f => f <| fb_assembler ::= PacketAssemblerSet.remove_expired timestamp |> |> in
  '(fragm, tx, frame) ← ipv4_egress (hardware_addr (inner i)) (caps (inner i)) (dev_tx d) (fragmenter i);
  let i := i <| fragmenter := fragm |> in
  let d := d <| dev_tx := tx |> in
  match frame with
  | Some frame => Ret (Some (i, d <| dev_sent ::= fun l => l ++ [frame] |>, slots, true))
  | None => poll_loop rounds d slots false i
  end.

(** The deadline of the sockets: [None] when all of them wait for a packet. *)
Definition socket_poll_at (cx : Context) (s : AnySocket) : outcome PollAt :=
  match s with
  | SocketUdp s => Ret (UdpSocket.poll_at cx s)
  | SocketTcp s => TcpSocket.poll_at cx s
  end.

Fixpoint poll_times (cx : Context) (inn : InterfaceInner) (items : list Item) : outcome (list Instant) :=
  match items with
  | [] => Ret []
  | mkItem m s :: items =>
      socket_poll_at ← socket_poll_at cx s;
      p ← Meta.poll_at socket_poll_at (has_neighbor inn) m;
      times ← poll_times cx inn items;
      Ret match p with
          | PollIngress => times
          | PollTime instant => instant :: times
          | PollNow => 0%Z :: times
          end
  end.

(** [Iterator::min] *)
Fixpoint iter_min (l : list Z) : option Z :=
  match l with
  | [] => None
  | x :: l => Some match iter_min l with Some y => Z.min x y | None => x end
  end.

Definition poll_at (timestamp : Instant) (slots : list (option Item)) (i : Interface) :
    outcome (Interface * option Instant) :=
  let i := i <| inner ::= fun inn => inn <| if_now := timestamp |> |> in
  if negb (Fragmenter.is_empty (fragmenter i)) then Ret (i, Some 0%Z) else
  cx ← context (inner i);
  times ← poll_times cx (inner i) (omap id slots);
  Ret (i, iter_min times).

Definition poll_delay (timestamp : Instant) (slots : list (option Item)) (i : Interface) :
    outcome (Interface * option Duration) :=
  '(i, at_) ← poll_at timestamp slots i;
  match at_ with
  | Some at_ =>
      if (timestamp <? at_)%Z then d ← Instant.diff at_ timestamp; Ret (i, Some d) else Ret (i, Some 0%Z)
  | None => Ret (i, None)
  end.

(** ** Configuration *)

Record Config := mkConfig { random_seed : Z; config_hardware_addr : HardwareAddress }.

(** The loop that draws an identifier other than 0; [None] when the rounds allowed
    are used up. *)
Fixpoint draw_ipv4_id (rounds : nat) (r : Rand.t) : outcome (option (Rand.t * Z)) :=
  match rounds with
  | O => Ret None
  | S rounds =>
      '(r, ipv4_id) ← Rand.rand_u16 r;
      if (ipv4_id =? 0)%Z then draw_ipv4_id rounds r else Ret (Some (r, ipv4_id))
  end.

(** The capacities of the buffers are those of the build. *)
Definition new (rounds reassembly_buffer_count assembler_max_segment_count fragmentation_buffer_size : nat)
    (config : Config) (caps : DeviceCapabilities) (now : Instant) : outcome (option Interface) :=
  _ ← rust_assert (bool_decide (HardwareAddress.medium (config_hardware_addr config) = caps_medium caps));
  id ← draw_ipv4_id rounds (Rand.new (random_seed config));
  Ret match id with
      | None => None
      | Some (r, ipv4_id) =>
          Some (mkInterface
            (mkInner _ _ _ caps now r Cache.new (config_hardware_addr config) ipv4_id vec_new false Routes.new)
            (mkFragments (PacketAssemblerSet.new reassembly_buffer_count assembler_max_segment_count) 60000000%Z)
            (Fragmenter.new fragmentation_buffer_size))
      end.

Definition set_hardware_addr (addr : HardwareAddress) (i : Interface) : outcome Interface :=
  _ ← rust_assert (bool_decide (caps_medium (caps (inner i)) = MediumEthernet));
  _ ← check_hardware_addr addr;
  Ret (i <| inner ::= fun inn => inn <| hardware_addr := addr |> |>).

Definition update_ip_addrs (f : vec IpCidr -> vec IpCidr) (i : Interface) : outcome Interface :=
  let i := i <| inner ::= fun inn => inn <| ip_addrs ::= f |> <| neighbor_cache ::= Cache.flush |> |> in
  _ ← check_ip_addrs (as_slice (ip_addrs (inner i)));
  Ret i.

Definition set_any_ip (b : bool) (i : Interface) : Interface :=
  i <| inner ::= fun inn => inn <| any_ip := b |> |>.

Definition set_reassembly_timeout (timeout : Duration) (i : Interface) : Interface :=
  i <| fragments ::= fun f => f <| reassembly_timeout := timeout |> |>.
End Poll.
