(* ===== verification/Ipv6Iface.v ===== *)
(** * The interface for IPv6 (src/iface/interface)

    The handlers of src/iface/interface/ipv6.rs, the IPv6 parts of [process_ethernet],
    [process_udp], [process_tcp] and [has_multicast_group], and how a packet over IPv6
    is put on the wire: [lookup_hardware_addr] with its neighbor solicitation and
    [dispatch_ip].  The build is one with IPv6 and without IPv4, with TCP and UDP
    sockets; hardware addresses have room for those of IEEE 802.15.4, but the interface
    is on an Ethernet or IP medium.  [InterfaceInner] is that of Iface.v. *)

From S2P Require Import Prelude Time Bytes Octets Phy Ip LinkLayer Arp Ipv4Wire Ipv6Wire Ipv6Ext Icmpv4Wire Flags Icmpv6Wire NdiscWire MldWire Icmpv6Messages.
From S2P Require Import UdpWire TcpWire Cidr Ipv6Source Route Neighbor Fragmentation Packet Ipv4Fragments TcpTimers Context.
From S2P Require Import TcpSocket UdpSocket Iface IfaceProcess Collections.
Open Scope nat_scope.

(** A packet of src/iface/packet.rs: one with an ICMPv6 message, or one of the packets
    of Packet.v. *)
Inductive Packet6 `{RF : Bitflags ROUTER_FLAGS_ALL, NF : Bitflags NEIGHBOR_FLAGS_ALL} :=
| PacketIcmpv6 (header : IpHeader) (icmpv6_repr : Icmpv6Repr)
| PacketOther (p : Packet).

Inductive HopByHopResponse `{RF : Bitflags ROUTER_FLAGS_ALL, NF : Bitflags NEIGHBOR_FLAGS_ALL} :=
| HopContinue (next_header : Protocol.t) (payload : list Z)
| HopDiscard (reply : option Packet6).

Module Packet6.
Section Packet.
Context {BO : ByteOrder} {BO24 : ByteOrder24} {RF : Bitflags ROUTER_FLAGS_ALL} {NF : Bitflags NEIGHBOR_FLAGS_ALL}.

Definition ip_repr (p : Packet6) : IpRepr :=
  match p with PacketIcmpv6 header _ => ReprIpv6 header | PacketOther p => Packet.ip_repr p end.

Definition emit_payload (p : Packet6) (ip_repr : IpRepr) (caps : DeviceCapabilities) (buf : list Z) : outcome (list Z) :=
  match p with
  | PacketIcmpv6 _ icmpv6_repr =>
      match ip_repr with
      | ReprIpv4 _ => Panic
      | ReprIpv6 repr => Icmpv6Repr.emit icmpv6_repr (ih_src_addr repr) (ih_dst_addr repr) buf (caps_checksum caps)
      end
  | PacketOther p => Packet.emit_payload p ip_repr caps buf
  end.
End Packet.
End Packet6.

Section Interface.
Context {BO : ByteOrder} {BO24 : ByteOrder24} {RF : Bitflags ROUTER_FLAGS_ALL} {NF : Bitflags NEIGHBOR_FLAGS_ALL}.
Context {AV : Vec IpCidr} {RV : Vec Route} {LM : LinearMap Address Neighbor} {OV : Vec Ipv6OptionRepr}.
Implicit Types (inner : InterfaceInner) (slots : list (option Item)).

Definition has_multicast_group_v6 inner (addr : list Z) : bool :=
  if bool_decide (addr = Ipv6Address.LINK_LOCAL_ALL_NODES) then true
  else has_solicited_node (as_slice (ip_addrs inner)) addr.

(** What the sockets see of the interface; in the handlers below no socket asks for
    a source address, so that the assertion of [get_source_address_ipv6] does not matter. *)
Definition get_source_address_v6 inner (dst_addr : Address) : option Address :=
  match dst_addr with
  | Ipv6 addr => match get_source_address_ipv6 (as_slice (ip_addrs inner)) addr with Ret a => Some (Ipv6 a) | Panic => None end
  | Ipv4 _ => None
  end.

Definition context6 inner : outcome Context :=
  mtu ← DeviceCapabilities.ip_mtu (caps inner);
  Ret (mkContext (if_now inner) (Z.of_nat mtu) (if_rand inner) (get_source_address_v6 inner) (fun _ => false)
         (hardware_addr inner) (caps_checksum (caps inner)) (as_slice (ip_addrs inner))).

(** ** Replies *)

Definition icmpv6_reply inner (ipv6_repr : IpHeader) (icmp_repr : Icmpv6Repr) : outcome (option Packet6) :=
  let dst_addr := ih_src_addr ipv6_repr in
  src_addr ← (if Ipv6Address.is_unicast (ih_dst_addr ipv6_repr) then Ret (ih_dst_addr ipv6_repr)
              else get_source_address_ipv6 (as_slice (ip_addrs inner)) dst_addr);
  Ret (Some (PacketIcmpv6 (mkIpHeader src_addr dst_addr Protocol.Icmpv6 (Icmpv6Repr.buffer_len icmp_repr) 64) icmp_repr)).

(** The part of the payload that an error quotes. *)
Definition quoted_payload (ipv6_repr : IpHeader) (ip_payload : list Z) : outcome (list Z) :=
  payload_len ← icmp_reply_payload_len (length ip_payload) IPV6_MIN_MTU (Ipv6Repr.buffer_len ipv6_repr);
  range ip_payload 0 payload_len.

Definition param_problem inner (reason : Icmpv6ParamProblem.t) (ipv6_repr : IpHeader) (ip_payload : list Z) :
    outcome (option Packet6) :=
  data ← quoted_payload ipv6_repr ip_payload;
  icmpv6_reply inner ipv6_repr
    (Icmpv6ParamProblem reason (wrap_u 32 (Z.of_nat (Ipv6Repr.buffer_len ipv6_repr))) ipv6_repr data).

(** ** Neighbor discovery *)

(** [self.hardware_addr.into()] *)
Definition raw_hardware_addr inner : outcome RawHardwareAddress.t :=
  b ← HardwareAddress.as_bytes (hardware_addr inner); RawHardwareAddress.from_bytes b.

(** The link-layer address of a message, when it and the target are unicast; [None]
    where the handler returns. *)
Definition usable_lladdr inner (lladdr : RawHardwareAddress.t) (target_addr : list Z) : outcome (option HardwareAddress) :=
  parsed ← RawHardwareAddress.parse (caps_medium (caps inner)) lladdr;
  match parsed with
  | Err _ => Ret None
  | Ok lladdr =>
      unicast ← HardwareAddress.is_unicast lladdr;
      if negb unicast || negb (Ipv6Address.is_unicast target_addr) then Ret None else Ret (Some lladdr)
  end.

(** The answer to a solicitation. *)
Definition neighbor_advert inner (ip_repr : IpHeader) (target_addr : list Z) : outcome (option Packet6) :=
  if has_solicited_node (as_slice (ip_addrs inner)) (ih_dst_addr ip_repr) && has_ip_addr inner (Ipv6 target_addr) then
    lladdr ← raw_hardware_addr inner;
    let advert := Icmpv6Ndisc (NeighborAdvert (from_bits_truncate NEIGHBOR_SOLICITED) target_addr (Some lladdr)) in
    Ret (Some (PacketIcmpv6
      (mkIpHeader target_addr (ih_src_addr ip_repr) Protocol.Icmpv6 (Icmpv6Repr.buffer_len advert) 0xff) advert))
  else Ret None.

Definition process_ndisc inner (ip_repr : IpHeader) (repr : NdiscRepr) : outcome (InterfaceInner * option Packet6) :=
  match repr with
  | NeighborAdvert flags target_addr lladdr =>
      let ip_addr := Ipv6 (ih_src_addr ip_repr) in
      match lladdr with
      | None => Ret (inner, None)
      | Some lladdr =>
          usable ← usable_lladdr inner lladdr target_addr;
          match usable with
          | None => Ret (inner, None)
          | Some lladdr =>
              fill ← (if flags_contains flags (from_bits_truncate NEIGHBOR_OVERRIDE) then Ret true
                      else a ← Cache.lookup ip_addr (if_now inner) (neighbor_cache inner); Ret (negb (found a)));
              if fill : bool then
                cache ← Cache.fill ip_addr lladdr (if_now inner) (neighbor_cache inner);
                Ret (inner <| neighbor_cache := cache |>, None)
              else Ret (inner, None)
          end
      end
  | NeighborSolicit target_addr lladdr =>
      match lladdr with
      | None => reply ← neighbor_advert inner ip_repr target_addr; Ret (inner, reply)
      | Some lladdr =>
          usable ← usable_lladdr inner lladdr target_addr;
          match usable with
          | None => Ret (inner, None)
          | Some lladdr =>
              cache ← Cache.fill (Ipv6 (ih_src_addr ip_repr)) lladdr (if_now inner) (neighbor_cache inner);
              let inner := inner <| neighbor_cache := cache |> in
              reply ← neighbor_advert inner ip_repr target_addr;
              Ret (inner, reply)
          end
      end
  | _ => Ret (inner, None)
  end.

(** ** Incoming packets *)

Definition process_icmpv6 inner (ip_repr : IpHeader) (ip_payload : list Z) : outcome (InterfaceInner * option Packet6) :=
  res ← (icmp_packet ←? Icmpv6Packet.new_checked ip_payload;
         Icmpv6Repr.parse (ih_src_addr ip_repr) (ih_dst_addr ip_repr) icmp_packet (caps_checksum (caps inner)));
  match res with
  | Err _ => Ret (inner, None)
  | Ok (Icmpv6EchoRequest ident seq_no data) =>
      reply ← icmpv6_reply inner ip_repr (Icmpv6EchoReply ident seq_no data); Ret (inner, reply)
  | Ok (Icmpv6EchoReply _ _ _) => Ret (inner, None)
  | Ok (Icmpv6Ndisc repr) =>
      if (ih_hop_limit ip_repr =? 0xff)%Z then
        match caps_medium (caps inner) with
        | MediumEthernet | MediumIeee802154 => process_ndisc inner ip_repr repr
        | MediumIp => Ret (inner, None)
        end
      else Ret (inner, None)
  | Ok _ => Ret (inner, None)
  end.

Definition process_udp_v6 inner slots (meta : PacketMeta) (ipv6_repr : IpHeader) (ip_payload : list Z) :
    outcome (list (option Item) * option Packet6) :=
  res ← (udp_packet ←? UdpPacket.new_checked ip_payload;
         udp_repr ←? UdpRepr.parse udp_packet (Ipv6 (ih_src_addr ipv6_repr)) (Ipv6 (ih_dst_addr ipv6_repr))
                       (caps_checksum (caps inner));
         Ret (Ok (udp_packet, udp_repr)));
  match res with
  | Err _ => Ret (slots, None)
  | Ok (udp_packet, udp_repr) =>
      cx ← context6 inner;
      '(slots, is_received) ← udp_deliver cx meta (ReprIpv6 ipv6_repr) udp_repr udp_packet slots false;
      if is_received : bool then Ret (slots, None) else
      data ← quoted_payload ipv6_repr ip_payload;
      reply ← icmpv6_reply inner ipv6_repr (Icmpv6DstUnreachable Icmpv6DstUnreachable.PortUnreachable ipv6_repr data);
      Ret (slots, reply)
  end.

Definition process_tcp_v6 inner slots (ipv6_repr : IpHeader) (ip_payload : list Z) :
    outcome (InterfaceInner * list (option Item) * option Packet6) :=
  let ip_repr := ReprIpv6 ipv6_repr in
  res ← (tcp_packet ←? TcpWire.Packet.new_checked ip_payload;
         Repr.parse tcp_packet (IpRepr.src_addr ip_repr) (IpRepr.dst_addr ip_repr) (caps_checksum (caps inner)));
  match res with
  | Err _ => Ret (inner, slots, None)
  | Ok tcp_repr =>
      cx ← context6 inner;
      '(slots, r) ← tcp_deliver cx ip_repr tcp_repr slots;
      match r with
      | Some (cx, reply) =>
          Ret (inner <| if_rand := rand cx |>, slots, option_map (fun p => PacketOther (tcp_packet p)) reply)
      | None =>
          if bool_decide (control tcp_repr = Rst)
             || Address.is_unspecified (IpRepr.dst_addr ip_repr)
             || Address.is_unspecified (IpRepr.src_addr ip_repr)
          then Ret (inner, slots, None)
          else p ← rst_reply ip_repr tcp_repr; Ret (inner, slots, Some (PacketOther (tcp_packet p)))
      end
  end.

Definition process_nxt_hdr inner slots (meta : PacketMeta) (ipv6_repr : IpHeader) (nxt_hdr : Protocol.t) (ip_payload : list Z) :
    outcome (InterfaceInner * list (option Item) * option Packet6) :=
  match nxt_hdr with
  | Protocol.Icmpv6 => '(inner, reply) ← process_icmpv6 inner ipv6_repr ip_payload; Ret (inner, slots, reply)
  | Protocol.Udp => '(slots, reply) ← process_udp_v6 inner slots meta ipv6_repr ip_payload; Ret (inner, slots, reply)
  | Protocol.Tcp => process_tcp_v6 inner slots ipv6_repr ip_payload
  | _ =>
      reply ← param_problem inner Icmpv6ParamProblem.UnrecognizedNxtHdr ipv6_repr ip_payload;
      Ret (inner, slots, reply)
  end.

(** The loop over the options: [None] when processing goes on, otherwise the answer of
    [HopByHopResponse::Discard]. *)
Fixpoint hop_options inner (ipv6_repr : IpHeader) (ip_payload : list Z) (options : list Ipv6OptionRepr) :
    outcome (option (option Packet6)) :=
  match options with
  | [] => Ret None
  | Ipv6Pad1 :: options | Ipv6PadN _ :: options => hop_options inner ipv6_repr ip_payload options
  | Ipv6Unknown type_ _ _ :: options =>
      let problem :=
        reply ← param_problem inner Icmpv6ParamProblem.UnrecognizedOption ipv6_repr ip_payload; Ret (Some reply) in
      match Ipv6OptionFailureType.from_type type_ with
      | Ipv6OptionFailureType.Skip => hop_options inner ipv6_repr ip_payload options
      | Ipv6OptionFailureType.Discard => Ret (Some None)
      | Ipv6OptionFailureType.DiscardSendAll => problem
      | Ipv6OptionFailureType.DiscardSendUnicast =>
          if negb (Ipv6Address.is_multicast (ih_dst_addr ipv6_repr)) then problem else Panic
      | Ipv6OptionFailureType.Unknown _ => Panic
      end
  end.

Definition process_hopbyhop inner (ipv6_repr : IpHeader) (ip_payload : list Z) : outcome HopByHopResponse :=
  res ← (ext_hdr ←? Ipv6ExtHeader.new_checked ip_payload;
         ext_repr ←? Ipv6ExtRepr.parse ext_hdr;
         hbh_hdr ←? Ret (Ipv6HopByHopHeader.new_checked (ext_data ext_repr));
         hbh_repr ←? Ipv6HopByHopRepr.parse hbh_hdr;
         Ret (Ok (ext_repr, hbh_repr)));
  match res with
  | Err _ => Ret (HopDiscard None)
  | Ok (ext_repr, hbh_repr) =>
      stop ← hop_options inner ipv6_repr ip_payload (as_slice hbh_repr);
      match stop with
      | Some reply => Ret (HopDiscard reply)
      | None =>
          rest ← range ip_payload (Ipv6ExtRepr.header_len ext_repr + length (ext_data ext_repr)) (length ip_payload);
          Ret (HopContinue (ext_next_header ext_repr) rest)
      end
  end.

Definition process_ipv6 inner slots (meta : PacketMeta) (ipv6_packet : list Z) :
    outcome (InterfaceInner * list (option Item) * option Packet6) :=
  parsed ← Ipv6Repr.parse ipv6_packet;
  match parsed with
  | Err _ => Ret (inner, slots, None)
  | Ok ipv6_repr =>
      if negb (Ipv6Address.is_unicast (ih_src_addr ipv6_repr)) then Ret (inner, slots, None) else
      payload ← Ipv6Packet.payload ipv6_packet;
      next ← (if bool_decide (ih_next_header ipv6_repr = Protocol.HopByHop) then process_hopbyhop inner ipv6_repr payload
              else Ret (HopContinue (ih_next_header ipv6_repr) payload));
      match next with
      | HopDiscard e => Ret (inner, slots, e)
      | HopContinue next_header ip_payload =>
          let dst_addr := ih_dst_addr ipv6_repr in
          if negb (has_ip_addr inner (Ipv6 dst_addr)) && negb (has_multicast_group_v6 inner dst_addr)
             && negb (Ipv6Address.is_loopback dst_addr)
          then Ret (inner, slots, None)
          else process_nxt_hdr inner slots meta ipv6_repr next_header ip_payload
      end
  end.

Definition process_ethernet_v6 inner slots (meta : PacketMeta) (frame : list Z) :
    outcome (InterfaceInner * list (option Item) * option Packet6) :=
  match Frame.new_checked frame with
  | Err _ => Ret (inner, slots, None)
  | Ok eth_frame =>
      dst_addr ← Frame.dst_addr eth_frame;
      if negb (EthernetAddress.is_broadcast dst_addr) && negb (EthernetAddress.is_multicast dst_addr)
         && negb (bool_decide (HwEthernet dst_addr = hardware_addr inner))
      then Ret (inner, slots, None) else
      ethertype ← Frame.ethertype eth_frame;
      match ethertype with
      | EtherType.Ipv6 =>
          eth_payload ← Frame.payload eth_frame;
          res ← Ipv6Packet.new_checked eth_payload;
          match res with
          | Err _ => Ret (inner, slots, None)
          | Ok ipv6_packet => process_ipv6 inner slots meta ipv6_packet
          end
      | _ => Ret (inner, slots, None)
      end
  end.

(** ** Sending *)

(** The closure [emit_ip]: the header and the payload of the packet. *)
Definition emit_ip_v6 inner (packet : Packet6) (header : IpHeader) (tx_buffer : list Z) : outcome (list Z) :=
  tx_buffer ← Ipv6Repr.emit header tx_buffer;
  on_tail (Ipv6Repr.buffer_len header) (Packet6.emit_payload packet (ReprIpv6 header) (caps inner)) tx_buffer.

(** The end of [dispatch_ip], once the hardware address is known. *)
Definition transmit_v6 inner (tx_token : TxToken) (packet : Packet6) (dst_hardware_addr : list Z) : outcome (list Z) :=
  match Packet6.ip_repr packet with
  | ReprIpv6 header =>
      let total_len := IpRepr.buffer_len (ReprIpv6 header) in
      let total_len := match caps_medium (caps inner) with MediumEthernet => Frame.buffer_len total_len | _ => total_len end in
      consume tx_token total_len
        (emit_frame (hardware_addr inner) (caps_medium (caps inner)) dst_hardware_addr V6 (emit_ip_v6 inner packet header))
  | ReprIpv4 _ => Panic
  end.

(** The neighbor solicitation of [lookup_hardware_addr]: a packet to a multicast
    address, for which [dispatch_ip] has the hardware address without a lookup. *)
Definition solicit_neighbor inner (tx_token : TxToken) (src_addr dst_addr : list Z) : outcome (list Z) :=
  lladdr ← raw_hardware_addr inner;
  let solicit := Icmpv6Ndisc (NeighborSolicit dst_addr (Some lladdr)) in
  group ← Ipv6Address.solicited_node dst_addr;
  _ ← rust_assert (negb (Ipv6Address.is_unspecified group));
  hardware_addr ← multicast_hardware_addr (caps_medium (caps inner)) (Ipv6 group);
  dst_hardware_addr ← HardwareAddress.ethernet_or_panic hardware_addr;
  transmit_v6 inner tx_token
    (PacketIcmpv6 (mkIpHeader src_addr group Protocol.Icmpv6 (Icmpv6Repr.buffer_len solicit) 0xff) solicit) dst_hardware_addr.

Definition lookup_hardware_addr_v6 inner (tx_token : TxToken) (src_addr dst_addr : list Z) :
    outcome (InterfaceInner * option (list Z) * result HardwareAddress DispatchError) :=
  if Ipv6Address.is_multicast dst_addr then
    hardware_addr ← multicast_hardware_addr (caps_medium (caps inner)) (Ipv6 dst_addr);
    Ret (inner, None, Ok hardware_addr)
  else
    hop ← route inner (Ipv6 dst_addr) (if_now inner);
    match hop with
    | None => Ret (inner, None, Err NoRoute)
    | Some dst_addr =>
        answer ← Cache.lookup dst_addr (if_now inner) (neighbor_cache inner);
        match answer with
        | Found hardware_addr => Ret (inner, None, Ok hardware_addr)
        | RateLimited => Ret (inner, None, Err NeighborPending)
        | NotFound =>
            frame ← match dst_addr with
              | Ipv6 dst_addr => frame ← solicit_neighbor inner tx_token src_addr dst_addr; Ret (Some frame)
              | Ipv4 _ => Ret None
              end;
            cache ← Cache.limit_rate (if_now inner) (neighbor_cache inner);
            Ret (inner <| neighbor_cache := cache |>, frame, Err NeighborPending)
        end
    end.

(** Put a packet on the wire; the frames are those handed to the device. *)
Definition dispatch_ip_v6 inner (tx_token : TxToken) (packet : Packet6) :
    outcome (InterfaceInner * list (list Z) * result unit DispatchError) :=
  match Packet6.ip_repr packet with
  | ReprIpv6 header =>
      _ ← rust_assert (negb (Ipv6Address.is_unspecified (ih_dst_addr header)));
      match caps_medium (caps inner) with
      | MediumEthernet =>
          '(inner, sent, res) ← lookup_hardware_addr_v6 inner tx_token (ih_src_addr header) (ih_dst_addr header);
          match res with
          | Ok (HwEthernet addr) => frame ← transmit_v6 inner tx_token packet addr; Ret (inner, option_list sent ++ [frame], Ok ())
          | Ok _ => Panic
          | Err e => Ret (inner, option_list sent, Err e)
          end
      | _ => frame ← transmit_v6 inner tx_token packet (replicate 6 0%Z); Ret (inner, [frame], Ok ())
      end
  | ReprIpv4 _ => Panic
  end.
End Interface.
