(* ===== verification/IfaceArp.v ===== *)
(** * Address resolution between two interfaces

    The address predicates of an interface are total on well-formed configurations;
    an ARP request that one interface sends is answered by the other, and both have
    learned each other's hardware address. *)

From S2P Require Import Prelude Time Bytes Octets Phy Ip LinkLayer Arp Ipv4Wire Icmpv4Wire UdpWire TcpWire.
From S2P Require Import Cidr Route Neighbor Fragmentation Packet Ipv4Fragments TcpTimers Context.
From S2P Require Import TcpSocket UdpSocket Iface IfaceProcess Collections.
Open Scope nat_scope.

Section Addresses.
Context {BO : ByteOrder} {NE : NetworkEndian BO}.
Context {AV : Vec IpCidr} {RV : Vec Route} {LM : LinearMap Address Neighbor}.
Implicit Types (inner : InterfaceInner).

Definition addrs_wf inner : Prop := Forall cidr_wf (as_slice (ip_addrs inner)).

(** The address is in the block of one of the interface's addresses. *)
Definition on_link inner (a : Address) : Prop := exists c, c ∈ as_slice (ip_addrs inner) /\ in_block c a.

(** The broadcast address of one of the interface's networks. *)
Definition subnet_broadcast inner (a : list Z) : Prop :=
  exists c, CidrIpv4 c ∈ as_slice (ip_addrs inner) /\ Ipv4Cidr.broadcast c = Ret (Some a).

(** A boolean of a predicate that may panic. *)
Definition unpanic (b : outcome bool) : bool := match b with Ret b => b | Panic => false end.

Lemma in_same_network_ok inner a :
  addrs_wf inner -> address_wf a ->
  exists b, in_same_network inner a = Ret b /\ (b = true <-> on_link inner a).
Proof.
  intros Hwf Ha. unfold in_same_network.
  assert (forall c, c ∈ as_slice (ip_addrs inner) -> IpCidr.contains_addr c a = Ret (unpanic (IpCidr.contains_addr c a)) /\
    (unpanic (IpCidr.contains_addr c a) = true <-> in_block c a)) as Hc.
  { intros c Hin. destruct (contains_addr_spec c a) as (r & -> & Hr); try done.
    by apply (proj1 (Forall_forall _ _) Hwf). }
  rewrite (iter_any_spec _ (fun c => unpanic (IpCidr.contains_addr c a))) by (intros c Hin; by apply Hc).
  eexists. split; [done|]. rewrite existsb_exists. split.
  - intros (c & Hin%list_elem_of_In & Ht). exists c. split; [done|]. by apply Hc.
  - intros (c & Hin & Hb). exists c. split; [by apply list_elem_of_In|]. by apply Hc.
Qed.

Lemma is_broadcast_v4_ok inner a :
  addrs_wf inner ->
  exists b, is_broadcast_v4 inner a = Ret b /\ (b = true <-> a = replicate 4 255%Z \/ subnet_broadcast inner a).
Proof.
  intros Hwf. unfold is_broadcast_v4, Ipv4Address.is_broadcast.
  destruct (bool_decide_reflect (a = replicate 4 255%Z)) as [Ha|Ha]; [exists true; split; [done|]; naive_solver|].
  match goal with |- context [iter_any ?t _] => set (test := t) end.
  assert (forall c, c ∈ as_slice (ip_addrs inner) -> test c = Ret (unpanic (test c))) as Hc.
  { intros [c|c] Hin; [|done]. unfold test.
    destruct (broadcast_spec c) as (r & -> & _); [by apply (proj1 (Forall_forall _ _) Hwf)|done]. }
  rewrite (iter_any_spec test (fun c => unpanic (test c))) by done. eexists. split; [done|].
  rewrite existsb_exists. split.
  - intros ([c|c] & Hin%list_elem_of_In & Ht); [|done]. right. exists c. split; [done|]. unfold test in Ht.
    destruct (Ipv4Cidr.broadcast c) as [r|]; [|done]. cbn in Ht. apply bool_decide_eq_true in Ht. by subst.
  - intros [?|(c & Hin & Hb)]; [done|]. exists (CidrIpv4 c). split; [by apply list_elem_of_In|].
    unfold test. rewrite Hb. cbn. by apply bool_decide_eq_true.
Qed.

Lemma is_unicast_v4_ok inner a :
  addrs_wf inner ->
  exists b, is_unicast_v4 inner a = Ret b /\
    (b = true <-> Ipv4Address.is_unicast a = true /\ ~ subnet_broadcast inner a).
Proof.
  intros Hwf. unfold is_unicast_v4. destruct (Ipv4Address.is_unicast a) eqn:Hu; [|exists false; naive_solver].
  destruct (is_broadcast_v4_ok inner a Hwf) as (b & -> & Hb). exists (negb b). split; [done|].
  assert (a <> replicate 4 255%Z) as Hne by (by intros ->). destruct b; cbn; naive_solver.
Qed.
End Addresses.

(** ** Frames *)

Section Frames.
Context {BO : ByteOrder} {NE : NetworkEndian BO}.

(** An Ethernet frame. *)
Definition eth_frame (dst src : list Z) (ty : EtherType.t) (body : list Z) : list Z :=
  (dst ++ src ++ [EtherType.into ty / 256; EtherType.into ty mod 256]%Z) ++ body.

Definition ethertype_ok (ty : EtherType.t) : Prop :=
  word (EtherType.into ty) /\ EtherType.from (EtherType.into ty) = ty.

Lemma eth_frame_fields dst src ty body :
  EthernetAddress.wf dst -> EthernetAddress.wf src -> ethertype_ok ty ->
  Frame.new_checked (eth_frame dst src ty body) = Ok (eth_frame dst src ty body) /\
  Frame.dst_addr (eth_frame dst src ty body) = Ret dst /\
  Frame.ethertype (eth_frame dst src ty body) = Ret ty /\
  Frame.payload (eth_frame dst src ty body) = Ret body.
Proof.
  intros [Hd _] [Hs _] [Hw Hty]. unfold eth_frame.
  do 6 (destruct dst as [|? dst]; [done|]). destruct dst; [|done].
  do 6 (destruct src as [|? src]; [done|]). destruct src; [|done]. cbn [app].
  unfold Frame.new_checked, Frame.check_len, ETHERNET_HEADER_LEN. cbn [length].
  rewrite (proj2 (Nat.ltb_ge _ _)) by lia. unfold Frame.dst_addr, Frame.ethertype, Frame.payload.
  destruct (word_octets _ Hw).
  rewrite (get_u16_octets 12 14 _ (EtherType.into ty / 256) (EtherType.into ty mod 256)) by done.
  rewrite !range_Ret by (cbn [length]; lia). cbn [mbind outcome_bind]. split_and!; try done.
  - rewrite <-Z.div_mod by lia. by rewrite Hty.
  - unfold slice. cbn [drop length]. rewrite drop_0, take_ge by lia. done.
Qed.
End Frames.

(** ** The exchange *)

Section Exchange.
Context {BO : ByteOrder} {NE : NetworkEndian BO}.
Context {AV : Vec IpCidr} {RV : Vec Route} {LM : LinearMap Address Neighbor}.
Implicit Types (inner : InterfaceInner).

Lemma dispatch_arp_octets inner tok src dst r :
  hardware_addr inner = HwEthernet src -> EthernetAddress.wf src -> EthernetAddress.wf dst -> arp_wf r ->
  tx_token_wf tok -> dispatch_arp inner tok dst r = Ret (eth_frame dst src EtherType.Arp (arp_octets r)).
Proof.
  intros Hhw [Hs _] [Hd _] Hr Htok. unfold dispatch_arp, dispatch_ethernet, consume.
  pose proof (proj1 (Htok (Frame.buffer_len (ArpRepr.buffer_len r)))) as Hl.
  rewrite (proj2 (Nat.eqb_eq _ _) Hl). cbn [rust_assert mbind outcome_bind]. rewrite Hhw.
  cbn [HardwareAddress.ethernet_or_panic mbind outcome_bind].
  set (buf := Ipv4Fragments.tx_buffer tok _) in *. change (Frame.buffer_len (ArpRepr.buffer_len r)) with 42 in Hl.
  unfold Frame.set_src_addr, Frame.set_dst_addr, Frame.set_ethertype.
  rewrite put_slice_ok by lia. cbn [mbind outcome_bind].
  rewrite put_slice_ok by (rewrite ?length_app, ?length_take, ?length_drop; lia). cbn [mbind outcome_bind].
  do 14 (destruct buf as [|? buf]; [done|]). cbn [length] in Hl.
  do 6 (destruct src as [|? src]; [done|]). destruct src; [|done].
  do 6 (destruct dst as [|? dst]; [done|]). destruct dst; [|done]. cbn [take drop app].
  rewrite put_u16_octets by (done || cbn; lia). cbn [mbind outcome_bind take drop app].
  unfold Frame.with_payload_mut, Frame.payload. rewrite range_Ret by (cbn [length]; lia). cbn [mbind outcome_bind].
  unfold slice. cbn [drop length]. rewrite !drop_0, take_ge by lia. rewrite arp_emit_octets by (done || lia).
  cbn [mbind outcome_bind]. rewrite (drop_ge buf) by lia. rewrite app_nil_r. unfold splice. cbn [take app].
  rewrite drop_ge, app_nil_r; [done|]. cbn [length]. destruct r as [op sha spa tha tpa].
  destruct Hr as (_ & [? _] & [? _] & [? _] & [? _]). unfold arp_octets, be16. rewrite !length_app. cbn [length]. lia.
Qed.

Context {N : nat} {LL : LinearMapLaws LM N}.
Hypothesis HN : 0 < N.

(** What an interface does with an ARP packet for one of its addresses. *)
Lemma process_arp_ok inner t op mac sha spa tha tpa :
  hardware_addr inner = HwEthernet mac -> addrs_wf inner -> arp_wf (EthernetIpv4 op sha spa tha tpa) ->
  op = ArpOperation.Request \/ op = ArpOperation.Reply -> has_ip_addr inner (Ipv4 tpa) = true ->
  Ipv4Address.is_unicast spa = true -> EthernetAddress.is_unicast sha = true -> on_link inner (Ipv4 spa) ->
  clock_ok t ->
  exists cache, process_arp inner t (arp_octets (EthernetIpv4 op sha spa tha tpa)) =
      Ret (inner <| neighbor_cache := cache |>,
           if bool_decide (op = ArpOperation.Request)
           then Some (EthernetArp (EthernetIpv4 ArpOperation.Reply mac tpa sha spa)) else None) /\
    lm_get (Ipv4 spa) (Cache.storage cache) = Some (mkNeighbor (HwEthernet sha) (t + Cache.ENTRY_LIFETIME)%Z) /\
    Cache.silent_until cache = Cache.silent_until (neighbor_cache inner).
Proof.
  intros Hhw Hwf Har Hop Hip Hspa Hsha Hlink Ht. unfold process_arp.
  pose proof (arp_parse_octets (EthernetIpv4 op sha spa tha tpa) [] Har) as Hp. rewrite app_nil_r in Hp.
  assert (ArpPacket.check_len (arp_octets (EthernetIpv4 op sha spa tha tpa)) = Ret (Ok ())) as Hck.
  { unfold ArpRepr.parse in Hp. destruct (ArpPacket.check_len _) as [[[]|e]|]; done. }
  unfold ArpPacket.new_checked. rewrite Hck. cbn [try_bind]. rewrite Hp. cbn [mbind outcome_bind].
  rewrite Hip. cbn [negb andb]. destruct Har as (_ & _ & Hspaw & _).
  destruct (in_same_network_ok inner (Ipv4 spa) Hwf Hspaw) as (b & Hsame & Hb). rewrite (proj2 Hb Hlink) in Hsame.
  destruct (fill_with_expiration_spec (Ipv4 spa) (HwEthernet sha) (t + Cache.ENTRY_LIFETIME)%Z (neighbor_cache inner))
    as (cache & Hfill & Hsil & Hnew & _); [done|done|by cbn; rewrite Hsha|].
  assert (Cache.fill (Ipv4 spa) (HwEthernet sha) t (neighbor_cache inner) = Ret cache) as Hfill'.
  { unfold Cache.fill. cbn [Address.is_unicast HardwareAddress.is_unicast mbind outcome_bind].
    rewrite Hspa, Hsha. cbn [rust_assert mbind outcome_bind].
    rewrite clock_add by (done || unfold Cache.ENTRY_LIFETIME; lia). done. }
  exists cache. split_and!; [|done|done].
  destruct Hop as [-> | ->]; rewrite Hspa, Hsha; cbn [negb orb]; rewrite Hsame; cbn [mbind outcome_bind negb];
    rewrite Hfill'; cbn [mbind outcome_bind].
  - rewrite !bool_decide_true by done. change (hardware_addr (inner <| neighbor_cache := cache |>)) with (hardware_addr inner).
    by rewrite Hhw.
  - by rewrite !bool_decide_false by done.
Qed.

(** A frame with an ARP packet for the interface. *)
Lemma process_arp_frame inner slots meta frags mac dst src r :
  hardware_addr inner = HwEthernet mac -> EthernetAddress.wf dst -> EthernetAddress.wf src -> 
  dst = mac \/ dst = EthernetAddress.BROADCAST ->
  process_ethernet inner slots meta (eth_frame dst src EtherType.Arp (arp_octets r)) frags =
    ('(inner, reply) ← process_arp inner (if_now inner) (arp_octets r); Ret (inner, frags, slots, reply)).
Proof.
  intros Hhw Hd Hs Hdst. unfold process_ethernet.
  destruct (eth_frame_fields dst src EtherType.Arp (arp_octets r)) as (-> & -> & -> & ->); try done.
  cbn [mbind outcome_bind].
  assert (negb (EthernetAddress.is_broadcast dst) && negb (EthernetAddress.is_multicast dst)
    && negb (bool_decide (HwEthernet dst = hardware_addr inner)) = false) as ->; [|done].
  destruct Hdst as [->| ->]; [|done]. rewrite Hhw, bool_decide_true by done. by rewrite !andb_false_r.
Qed.
End Exchange.

Section Resolution.
Context {BO : ByteOrder} {NE : NetworkEndian BO}.
Context {AV : Vec IpCidr} {RV : Vec Route} {LM : LinearMap Address Neighbor}.
Implicit Types (inner : InterfaceInner).

Lemma unicast_not_multicast a : Ipv4Address.is_unicast a = true -> Ipv4Address.is_multicast a = false.
Proof. unfold Ipv4Address.is_unicast. by destruct (Ipv4Address.is_broadcast a), (Ipv4Address.is_multicast a). Qed.

(** The next hop of a neighbor is the neighbor itself, and its address is looked
    up in the cache. *)
Lemma route_on_link inner a t :
  addrs_wf inner -> address_wf a -> on_link inner a -> route inner a t = Ret (Some a).
Proof.
  intros Hwf Ha Hl. unfold route. destruct (in_same_network_ok inner a Hwf Ha) as (b & -> & Hb).
  cbn [mbind outcome_bind]. by rewrite (proj2 Hb Hl).
Qed.

Lemma cache_lookup_found (c : Cache.t) a t n :
  Address.is_unicast a = true -> lm_get a (Cache.storage c) = Some n -> (t < nb_expires_at n)%Z ->
  Cache.lookup a t c = Ret (Found (nb_hardware_addr n)).
Proof.
  intros Hu Hg Ht. unfold Cache.lookup. rewrite Hu, Hg. cbn [rust_assert mbind outcome_bind].
  by rewrite (proj2 (Z.ltb_lt _ _)).
Qed.

Lemma broadcast_mac_wf : EthernetAddress.wf EthernetAddress.BROADCAST.
Proof. split; [done|]. repeat constructor; unfold byte; lia. Qed.
End Resolution.

(** Two interfaces on the same link: [inner] can take the address [peer] for a
    neighbor. *)
Record neighbors {BO : ByteOrder} {AV : Vec IpCidr} {RV : Vec Route} {LM : LinearMap Address Neighbor}
    (inner : InterfaceInner) (mac addr peer : list Z) : Prop := {
  nbr_medium : caps_medium (caps inner) = MediumEthernet;
  nbr_mac : hardware_addr inner = HwEthernet mac;
  nbr_mac_wf : EthernetAddress.wf mac /\ EthernetAddress.is_unicast mac = true;
  nbr_addrs : addrs_wf inner;
  nbr_own : has_ip_addr inner (Ipv4 addr) = true;
  nbr_addr_wf : address_wf (Ipv4 addr) /\ Ipv4Address.is_unicast addr = true;
  nbr_link : on_link inner (Ipv4 peer);
  nbr_clock : clock_ok (if_now inner)
}.

(** C13: address resolution works: an interface that has a packet for a neighbor it
    does not know sends an ARP request; the neighbor's interface answers it and has
    learned the sender's hardware address; and when the answer arrives, the next
    packet is sent to the neighbor's hardware address.  Neither the sockets nor the
    reassembly buffers are touched. *)
Theorem arp_resolution {BO : ByteOrder} (NE : NetworkEndian BO) {AV : Vec IpCidr} {RV : Vec Route}
    {LM : LinearMap Address Neighbor} {N : nat} (LL : LinearMapLaws LM N) (HN : 0 < N)
    (A B : InterfaceInner) mac_a mac_b a b tok_a tok_b tok slots_a slots_b frags_a frags_b fragmenter meta
    (HA : neighbors A mac_a a b) (HB : neighbors B mac_b b a)
    (Hbc : is_broadcast A (Ipv4 b) = Ret false)
    (Hunknown : Cache.lookup (Ipv4 b) (if_now A) (neighbor_cache A) = Ret NotFound)
    (Htok : tx_token_wf tok_a /\ tx_token_wf tok_b) :
  exists A1 request B1 reply_packet reply A2,
    lookup_hardware_addr A tok_a (Ipv4 a) (Ipv4 b) = Ret (A1, Some request, Err NeighborPending) /\
    process_ethernet B slots_b meta request frags_b = Ret (B1, frags_b, slots_b, Some reply_packet) /\
    Cache.lookup (Ipv4 a) (if_now B) (neighbor_cache B1) = Ret (Found (HwEthernet mac_a)) /\
    dispatch B1 tok_b reply_packet fragmenter = Ret (B1, fragmenter, [reply], Ok ()) /\
    process_ethernet A1 slots_a meta reply frags_a = Ret (A2, frags_a, slots_a, None) /\
    lookup_hardware_addr A2 tok (Ipv4 a) (Ipv4 b) = Ret (A2, None, Ok (HwEthernet mac_b)).
Proof.
  destruct HA as [Hma Hha [Hwa Hua] Hca Hoa [Hia Huia] Hla Hta], HB as [Hmb Hhb [Hwb Hub] Hcb Hob [Hib Huib] Hlb Htb].
  destruct Htok as [Hta' Htb']. pose proof broadcast_mac_wf as Hbw.
  set (req := EthernetIpv4 ArpOperation.Request mac_a a EthernetAddress.BROADCAST b).
  set (rep := EthernetIpv4 ArpOperation.Reply mac_b b mac_a a).
  set (A1 := A <| neighbor_cache := Cache.mk (Cache.storage (neighbor_cache A)) (if_now A + Cache.SILENT_TIME)%Z |>).
  destruct (process_arp_ok (N := N) HN B (if_now B) ArpOperation.Request mac_b mac_a a EthernetAddress.BROADCAST b)
    as (cb & HpB & HgB & _); try done; [by left|].
  destruct (process_arp_ok (N := N) HN A1 (if_now A) ArpOperation.Reply mac_a mac_b b mac_a a)
    as (ca & HpA & HgA & _); try done; [by right|].
  exists A1, (eth_frame EthernetAddress.BROADCAST mac_a EtherType.Arp (arp_octets req)), (B <| neighbor_cache := cb |>),
    (EthernetArp rep), (eth_frame mac_a mac_b EtherType.Arp (arp_octets rep)), (A1 <| neighbor_cache := ca |>).
  split_and!.
  - unfold lookup_hardware_addr. rewrite Hbc. cbn [mbind outcome_bind]. cbn [Address.is_multicast].
    rewrite (unicast_not_multicast b Huib), route_on_link by done. cbn [mbind outcome_bind]. rewrite Hunknown.
    cbn [mbind outcome_bind]. rewrite Hma, Hha. cbn [HardwareAddress.ethernet_or_panic mbind outcome_bind].
    rewrite (dispatch_arp_octets A tok_a mac_a) by done. cbn [mbind outcome_bind].
    unfold Cache.limit_rate. rewrite clock_add by (done || unfold Cache.SILENT_TIME, Cache.ENTRY_LIFETIME; lia). done.
  - rewrite (process_arp_frame B slots_b meta frags_b mac_b) by (done || by right). unfold req. by rewrite HpB.
  - apply (cache_lookup_found _ (Ipv4 a) _ _ Huia HgB). cbn. unfold Cache.ENTRY_LIFETIME. lia.
  - unfold dispatch, rep. rewrite (dispatch_arp_octets _ tok_b mac_b) by done. done.
  - rewrite (process_arp_frame A1 slots_a meta frags_a mac_a) by (done || by left).
    change (if_now A1) with (if_now A). unfold rep. by rewrite HpA.
  - unfold lookup_hardware_addr. change (is_broadcast (A1 <| neighbor_cache := ca |>) (Ipv4 b)) with (is_broadcast A (Ipv4 b)).
    rewrite Hbc. cbn [mbind outcome_bind Address.is_multicast]. rewrite (unicast_not_multicast b Huib).
    rewrite route_on_link by done. cbn [mbind outcome_bind].
    rewrite (cache_lookup_found ca (Ipv4 b) _ _ Huib HgA); [done|]. cbn. unfold Cache.ENTRY_LIFETIME. lia.
Qed.

(** ** Two hosts *)

Module Hosts.
#[global] Instance addr_vec : Vec IpCidr := list_vec IpCidr 2.
#[global] Instance route_vec : Vec Route := list_vec Route 2.
#[global] Instance neighbor_map : LinearMap Address Neighbor := list_map Address Neighbor 4.

Definition addr_a : list Z := [192; 168; 1; 1]%Z.
Definition addr_b : list Z := [192; 168; 1; 2]%Z.

(** An Ethernet host with a /24 address. *)
Definition host (mac addr : list Z) (mtu : nat) : InterfaceInner :=
  mkInner addr_vec route_vec neighbor_map (mkDeviceCapabilities MediumEthernet mtu None all_checksums) 0%Z
    (Rand.new 0) Cache.new (HwEthernet mac) 0 (vec_push (CidrIpv4 (Ipv4Cidr.mk addr 24)) vec_new).1 false Routes.new.

Definition host_a : InterfaceInner := host device_mac addr_a 1514.
Definition host_b : InterfaceInner := host peer_mac addr_b 1514.

Section Laws.
#[local] Existing Instance network_endian.

Lemma mac_wf x : (0 <= x <= 255)%Z -> EthernetAddress.wf [2; 0; 0; 0; 0; x]%Z.
Proof. intros. split; [done|]. repeat apply Forall_cons_2; try apply Forall_nil_2; unfold byte; lia. Defined.

Lemma addr_wf x : (0 <= x <= 255)%Z -> address_wf (Ipv4 [192; 168; 1; x]%Z).
Proof. intros. split; [done|]. repeat apply Forall_cons_2; try apply Forall_nil_2; unfold byte; lia. Defined.

Lemma host_neighbors x y :
  (1 <= x <= 2)%Z -> (1 <= y <= 2)%Z ->
  neighbors (host [2; 0; 0; 0; 0; x]%Z [192; 168; 1; x]%Z 1514) [2; 0; 0; 0; 0; x]%Z [192; 168; 1; x]%Z
    [192; 168; 1; y]%Z.
Proof.
  intros Hx Hy. constructor; try done.
  - split; [apply mac_wf; lia|]. assert (x = 1 \/ x = 2)%Z as [-> | ->] by lia; done.
  - apply Forall_singleton. split; [apply addr_wf; lia|]. cbn. lia.
  - unfold has_ip_addr. change (as_slice _) with [CidrIpv4 (Ipv4Cidr.mk [192; 168; 1; x]%Z 24)].
    cbn [existsb IpCidr.address Ipv4Cidr.address]. by rewrite bool_decide_true.
  - split; [apply addr_wf; lia|]. assert (x = 1 \/ x = 2)%Z as [-> | ->] by lia; done.
  - exists (CidrIpv4 (Ipv4Cidr.mk [192; 168; 1; x]%Z 24)). split; [by left|]. split; [done|].
    intros i Hi. assert (x = 1 \/ x = 2)%Z as [-> | ->] by lia; assert (y = 1 \/ y = 2)%Z as [-> | ->] by lia;
      do 24 (destruct i as [|i]; [done|]); cbn in Hi; lia.
Defined.
End Laws.
End Hosts.

Section Witness.
#[local] Existing Instance network_endian.
Import Hosts.

Lemma arp_resolution_witness :
  exists A1 request B1 reply_packet reply A2,
    lookup_hardware_addr host_a blank_token (Ipv4 addr_a) (Ipv4 addr_b) = Ret (A1, Some request, Err NeighborPending) /\
    process_ethernet host_b [] default_meta request empty_fragments = Ret (B1, empty_fragments, [], Some reply_packet) /\
    Cache.lookup (Ipv4 addr_a) 0%Z (neighbor_cache B1) = Ret (Found (HwEthernet device_mac)) /\
    dispatch B1 blank_token reply_packet (Fragmenter.new 0) = Ret (B1, Fragmenter.new 0, [reply], Ok ()) /\
    process_ethernet A1 [] default_meta reply empty_fragments = Ret (A2, empty_fragments, [], None) /\
    lookup_hardware_addr A2 blank_token (Ipv4 addr_a) (Ipv4 addr_b) = Ret (A2, None, Ok (HwEthernet peer_mac)).
Proof.
  apply (arp_resolution network_endian_laws (list_map_laws Address Neighbor 4) ltac:(lia) host_a host_b device_mac peer_mac);
    [apply (host_neighbors 1 2); lia|apply (host_neighbors 2 1); lia|by vm_compute|by vm_compute|].
  split; apply blank_token_wf.
Defined.
End Witness.
