(* ===== verification/TcpLogic.v ===== *)
(** * Reasoning about the handlers of the TCP socket

    A weakest precondition for the monad [M] of TcpSocket.v, one rule per
    effect, and the invariant of the socket. *)

From S2P Require Import Prelude RingBuffer Assembler Time SeqNumber Ip TcpWire TcpTimers.
From S2P Require Import Congestion Context TcpSocket.
Open Scope Z_scope.

(** ** Weakest preconditions

    [wp m Q Qr s cx]: run on [s] and [cx], [m] does not panic; it goes on with a
    value satisfying [Q] or returns early with one satisfying [Qr]. *)

Section WP.
Context {R : Type}.

Definition wp {A} (m : M R A) (Q : A -> Socket -> Context -> Prop)
    (Qr : R -> Socket -> Context -> Prop) (s : Socket) (cx : Context) : Prop :=
  returns (m s cx) (fun '(s, cx, r) =>
    match r with inl r => Qr r s cx | inr a => Q a s cx end).

Lemma wp_ret {A} (a : A) Q Qr s cx : Q a s cx -> wp (mret a) Q Qr s cx.
Proof. done. Qed.

Lemma wp_bind {A B} (m : M R A) (f : A -> M R B) Q Qr s cx :
  wp m (fun a => wp (f a) Q Qr) Qr s cx -> wp (m ≫= f) Q Qr s cx.
Proof.
  unfold wp, mbind, M_bind. intros H. destruct (m s cx) as [[[s' cx'] [r|a]]|]; cbn in *; done.
Qed.

Lemma wp_unbind {A B} (m : M R A) (f : A -> M R B) Q Qr s cx :
  wp (m ≫= f) Q Qr s cx -> wp m (fun a => wp (f a) Q Qr) Qr s cx.
Proof.
  unfold wp, mbind, M_bind. intros H. destruct (m s cx) as [[[s' cx'] [r|a]]|]; cbn in *; done.
Qed.

Lemma wp_mono {A} (m : M R A) (Q Q' : A -> Socket -> Context -> Prop)
    (Qr Qr' : R -> Socket -> Context -> Prop) s cx :
  wp m Q Qr s cx -> (forall a s cx, Q a s cx -> Q' a s cx) ->
  (forall r s cx, Qr r s cx -> Qr' r s cx) -> wp m Q' Qr' s cx.
Proof. unfold wp. destruct (m s cx) as [[[s' cx'] [r|a]]|]; cbn; eauto. Qed.

Lemma wp_and {A} (m : M R A) (Q1 Q2 : A -> Socket -> Context -> Prop)
    (Qr1 Qr2 : R -> Socket -> Context -> Prop) s cx :
  wp m Q1 Qr1 s cx -> wp m Q2 Qr2 s cx ->
  wp m (fun a s cx => Q1 a s cx /\ Q2 a s cx) (fun r s cx => Qr1 r s cx /\ Qr2 r s cx) s cx.
Proof. unfold wp. by destruct (m s cx) as [[[s' cx'] [r|a]]|]. Qed.

Lemma wp_if {A} (b : bool) (m1 m2 : M R A) Q Qr s cx :
  (b = true -> wp m1 Q Qr s cx) -> (b = false -> wp m2 Q Qr s cx) ->
  wp (if b then m1 else m2) Q Qr s cx.
Proof. destruct b; auto. Qed.

Lemma wp_early {A} r Q Qr s cx : Qr r s cx -> wp (early (A := A) r) Q Qr s cx.
Proof. done. Qed.

Lemma wp_get Q Qr s cx : Q s s cx -> wp get Q Qr s cx.
Proof. done. Qed.

Lemma wp_get_cx Q Qr s cx : Q cx s cx -> wp get_cx Q Qr s cx.
Proof. done. Qed.

Lemma wp_modify f Q Qr s cx : Q () (f s) cx -> wp (modify f) Q Qr s cx.
Proof. done. Qed.

Lemma wp_set_cx cx' Q Qr s cx : Q () s cx' -> wp (set_cx cx') Q Qr s cx.
Proof. done. Qed.

Lemma wp_lift {A} (c : outcome A) Q Qr s cx :
  returns c (fun a => Q a s cx) -> wp (lift c) Q Qr s cx.
Proof. unfold wp, lift. by destruct c. Qed.

Lemma wp_call {A} (f : Socket -> outcome (Socket * A)) Q Qr s cx :
  returns (f s) (fun '(s, a) => Q a s cx) -> wp (call f) Q Qr s cx.
Proof. unfold wp, call. by destruct (f s) as [[??]|]. Qed.

Lemma wp_run (m : M R R) (Q : R -> Socket -> Context -> Prop) s cx :
  wp m Q Q s cx -> returns (run m s cx) (fun '(s, cx, r) => Q r s cx).
Proof. unfold wp, run. destruct (m s cx) as [[[s' cx'] [r|a]]|]; cbn; done. Qed.
End WP.

(** Apply the rules up to the first branch or the first call of another
    function. *)
Ltac wp_step :=
  lazymatch goal with
  | |- wp (mbind _ _) _ _ _ _ => apply wp_bind
  | |- wp (mret _) _ _ _ _ => apply wp_ret
  | |- wp (early _) _ _ _ _ => apply wp_early
  | |- wp get _ _ _ _ => apply wp_get
  | |- wp get_cx _ _ _ _ => apply wp_get_cx
  | |- wp (modify _) _ _ _ _ => apply wp_modify
  | |- wp (set_cx _) _ _ _ _ => apply wp_set_cx
  | |- wp (lift _) _ _ _ _ => apply wp_lift
  | |- wp (call _) _ _ _ _ => apply wp_call
  end.
Ltac wp_steps := repeat (wp_step; cbv beta).

(** Compute the fields of an updated socket. *)
Ltac sock_simpl :=
  cbn [set_field state timer rtte assembler rx_buffer rx_fin_received tx_buffer timeout keep_alive
       hop_limit listen_endpoint bound_endpoint tuple local_seq_no remote_seq_no remote_last_seq
       remote_last_ack remote_last_win remote_win_shift remote_win_len remote_win_scale
       remote_has_sack remote_mss remote_last_ts local_rx_last_seq local_rx_last_ack
       local_rx_dup_acks ack_delay ack_delay_timer challenge_ack_timer nagle
       congestion_controller rx_waker tx_waker
       set_state wake_rx wake_tx now ip_mtu rand get_source_address is_broadcast
       src_port dst_port control seq_number ack_number window_len window_scale max_seg_size
       sack_permitted sack_ranges payload].

(** Compute a socket that is updated field after field, once its fields are
    variables; by value, so that each update is evaluated once. *)
Ltac sock_eval :=
  cbv beta iota zeta delta [set_field state timer rtte assembler rx_buffer rx_fin_received tx_buffer timeout keep_alive
       hop_limit listen_endpoint bound_endpoint tuple local_seq_no remote_seq_no remote_last_seq
       remote_last_ack remote_last_win remote_win_shift remote_win_len remote_win_scale
       remote_has_sack remote_mss remote_last_ts local_rx_last_seq local_rx_last_ack
       local_rx_dup_acks ack_delay ack_delay_timer challenge_ack_timer nagle
       congestion_controller rx_waker tx_waker
       set_state wake_rx wake_tx now ip_mtu rand get_source_address is_broadcast
       src_port dst_port control seq_number ack_number window_len window_scale max_seg_size
       sack_permitted sack_ranges payload].

(** ** The invariant *)

(** Instants and durations of a run: no sum of two of them overflows. *)
Definition TIME_MAX : Z := 2305843009213693952.

Definition clock (t0 : Instant) (cx : Context) : Prop :=
  in_epoch t0 (now cx) /\ 0 <= now cx <= TIME_MAX.

(** What a handler leaves of its context. *)
Definition same_clock (cx cx' : Context) : Prop := now cx' = now cx /\ ip_mtu cx' = ip_mtu cx.

Lemma same_clock_refl cx : same_clock cx cx.
Proof. by split. Qed.
#[export] Hint Resolve same_clock_refl : core.

Definition duration_ok (o : option Duration) : Prop :=
  match o with Some d => 0 <= d <= TIME_MAX | None => True end.

Definition instant_ok (o : option Instant) : Prop :=
  match o with Some t => 0 <= t <= TIME_MAX | None => True end.

Definition timer_ok (t : Timer) : Prop :=
  match t with
  | TimerIdle (Some e) | TimerClose e => 0 <= e <= 2 * TIME_MAX
  | TimerRetransmit e delay => 0 <= delay <= e /\ e <= 2 * TIME_MAX
  | _ => True
  end.

(** The receive buffer and the assembler: what is recorded fits the window. *)
Definition rx_ok (rx : SocketBuffer) (asm : Assembler) : Prop :=
  RingBuffer.wf rx /\ zcapacity rx <= 2 ^ 30 /\ Assembler.wf asm /\
  (Assembler.span asm <= RingBuffer.window rx)%nat.

Definition tx_ok (tx : SocketBuffer) : Prop :=
  RingBuffer.wf tx /\ zcapacity tx < I32_MAX.

(** The next octet to send is at most one control flag past the buffer. *)
Definition flight_ok (st : State) (l r : SeqNumber) (n : Z) : Prop :=
  st <> Closed -> st <> Listen -> 0 <= seq_dist l r <= n + control_len st.

Definition tuple_ok (st : State) (t : option Tuple) : Prop :=
  match t with
  | Some t => st <> Listen /\ same_family (ep_addr (local t)) (ep_addr (remote t))
  | None => st = Closed \/ st = Listen
  end.

Definition scale_ok (o : option Z) : Prop :=
  match o with Some sc => 0 <= sc <= 14 | None => True end.

(** What the socket knows of its peer. *)
Definition peer_ok (shift win mss : Z) (scale : option Z) : Prop :=
  0 <= shift <= 15 /\ 0 <= win <= 65535 * 2 ^ 14 /\ 1 <= mss <= 65535 /\ scale_ok scale.

(** Nothing was exchanged before the handshake ends; a SYN that was sent is
    protected by the retransmission timer. *)
Definition handshake (s : Socket) : Prop :=
  state s = Listen \/ state s = SynSent \/ state s = SynReceived ->
  zlen (rx_buffer s) = 0 /\ zlen (tx_buffer s) = 0 /\ Assembler.span (assembler s) = 0%nat /\
  rx_fin_received s = false /\
  (state s <> Listen ->
   match timer s with TimerIdle _ | TimerRetransmit _ _ => True | _ => False end /\
   (seq_dist (local_seq_no s) (remote_last_seq s) <> 0 ->
    Timer.is_retransmit (timer s) = true /\ scaled_window s <= remote_last_win s /\
    (remote_last_ack s = None \/ remote_last_ack s = Some (remote_seq_no s)))).

Record sock_inv (t0 : Instant) (s : Socket) : Prop := mkInv {
  si_rx : rx_ok (rx_buffer s) (assembler s);
  si_tx : tx_ok (tx_buffer s);
  si_seq : seq_range (local_seq_no s) /\ seq_range (remote_seq_no s) /\
           seq_range (remote_last_seq s);
  si_flight : flight_ok (state s) (local_seq_no s) (remote_last_seq s) (zlen (tx_buffer s));
  si_tuple : tuple_ok (state s) (tuple s);
  si_peer : peer_ok (remote_win_shift s) (remote_win_len s) (remote_mss s) (remote_win_scale s);
  si_timer : timer_ok (timer s);
  si_rtte : rtte_wf (rtte s) /\ rtte_sampling_since t0 (rtte s);
  si_durations : duration_ok (timeout s) /\ duration_ok (keep_alive s) /\ duration_ok (ack_delay s);
  si_ts : instant_ok (remote_last_ts s);
  si_handshake : handshake s
}.

(** ** Segments and the parameters of a step *)

(** The ranges of the fields of a segment that was parsed (the parser bounds the
    window scale). *)
Record seg_ok (repr : TcpRepr) : Prop := {
  so_seq : seq_range (seq_number repr);
  so_ack : match ack_number repr with Some a => seq_range a | None => True end;
  so_win : 0 <= window_len repr <= 65535;
  so_scale : scale_ok (window_scale repr);
  so_mss : match max_seg_size repr with Some m => 0 <= m <= 65535 | None => True end;
  so_payload : Z.of_nat (length (payload repr)) < 2 ^ 30
}.

(** The next octet expected from the peer. *)
Definition rcv_nxt (s : Socket) : SeqNumber := wrap_i 32 (remote_seq_no s + zlen (rx_buffer s)).

(** The ranges of a SACK option do not run over the sign change of the sequence
    numbers, where the code's [usize] sums overflow. *)
Definition sack_ok (s : Socket) : Prop :=
  remote_has_sack s = true ->
  0 <= rcv_nxt s \/ rcv_nxt s + zwindow (rx_buffer s) < -1.

Section BufferLengths.
Implicit Types (b : SocketBuffer).

Lemma zlen_bounds b : RingBuffer.wf b -> 0 <= zlen b <= zcapacity b.
Proof. intros [? _]. unfold zlen, zcapacity, RingBuffer.len. lia. Qed.

Lemma zwindow_eq b : RingBuffer.wf b -> zwindow b = zcapacity b - zlen b.
Proof. intros [? _]. unfold zlen, zcapacity, zwindow, RingBuffer.window, RingBuffer.len. lia. Qed.

Lemma zwindow_nonneg b : 0 <= zwindow b.
Proof. unfold zwindow. lia. Qed.
End BufferLengths.

Lemma control_len_range st : 0 <= control_len st <= 1.
Proof. destruct st; cbn; lia. Qed.

Lemma rcv_nxt_add t0 s :
  sock_inv t0 s -> seq_add (remote_seq_no s) (zlen (rx_buffer s)) = Ret (rcv_nxt s).
Proof.
  intros []. destruct si_rx0 as (Hwf & ? & _). pose proof (zlen_bounds _ Hwf).
  apply seq_add_Ret. lia.
Qed.
