(* ===== verification/TcpSegment.v ===== *)
(** * Segments against the windows of the socket

    What the acceptability test, the trimming to the receive window and the
    count of acknowledged octets compute, in terms of signed distances. *)

From S2P Require Import Prelude RingBuffer SeqNumber Ip TcpWire TcpTimers Context.
From S2P Require Import TcpSocket TcpLogic.
Open Scope Z_scope.

(** ** The receive window *)

Section Window.
Variables (ws seg : SeqNumber) (w n : Z).
Hypothesis Hws : seq_range ws.
Hypothesis Hseg : seq_range seg.
Hypothesis Hw : 0 <= w <= 2 ^ 30.
Hypothesis Hn : 0 <= n < 2 ^ 30.

Let D := seq_dist ws seg.
Let we := wrap_i 32 (ws + w).
Let se := wrap_i 32 (seg + n).

(** The segment overlaps the window, or is empty and inside. *)
Definition acceptable (D w n : Z) : bool :=
  if n =? 0 then (D =? 0) || ((0 <=? D) && (D <? w))
  else (negb (w =? 0)) && (((0 <=? D) && (D <? w)) || ((0 <? D + n) && (D + n <=? w))).

Lemma dist_bounds : - 2 ^ 31 <= D < 2 ^ 31.
Proof. apply seq_dist_range. Qed.

Lemma seg_eq_end : (seg =? se) = (n =? 0).
Proof.
  assert (seq_dist seg se = n) as Hd.
  { unfold se. rewrite seq_dist_add_r, seq_dist_self. apply wrap_small. lia. }
  pose proof (seq_dist_0 seg se Hseg (wrap_range _)). decide_tests; naive_solver lia.
Qed.

Lemma window_eq_end : (ws =? we) = (w =? 0).
Proof.
  assert (seq_dist ws we = w) as Hd.
  { unfold we. rewrite seq_dist_add_r, seq_dist_self. apply wrap_small. lia. }
  pose proof (seq_dist_0 ws we Hws (wrap_range _)). decide_tests; naive_solver lia.
Qed.

Lemma dist_seg_ws : seq_dist seg ws = if D =? - 2 ^ 31 then - 2 ^ 31 else - D.
Proof. apply seq_dist_opp. Qed.

Lemma dist_we_seg : seq_dist we seg = wrap_i 32 (D - w).
Proof. apply seq_dist_add_l. Qed.

Lemma dist_ws_se : seq_dist ws se = wrap_i 32 (D + n).
Proof. apply seq_dist_add_r. Qed.

Lemma dist_we_se : seq_dist we se = wrap_i 32 (D + n - w).
Proof.
  unfold we, se. rewrite seq_dist_add_r, seq_dist_add_l. rewrite wrap_i_add_l by lia.
  f_equal. lia.
Qed.

Lemma segment_in_window_spec : segment_in_window ws we seg se = Ret (acceptable D w n).
Proof.
  unfold segment_in_window, seq_sub. rewrite (proj2 (Z.ltb_ge _ _)) by lia. cbn [mbind outcome_bind].
  f_equal. rewrite seg_eq_end, window_eq_end. unfold acceptable.
  pose proof dist_bounds as HD.
  assert (D = 0 <-> ws = seg) as HD0 by (by apply seq_dist_0).
  destruct (Z.eqb_spec n 0) as [Hn0|Hn0].
  - assert (se = seg) as -> by (unfold se; rewrite Hn0, Z.add_0_r; by apply seq_at_id).
    assert (seq_dist ws (wrap_i 32 (ws - 1)) = -1) as Hb.
    { rewrite <-Z.add_opp_r, seq_dist_add_r, seq_dist_self. done. }
    destruct (Z.eqb_spec seg (wrap_i 32 (ws - 1))) as [->|Hne].
    { unfold D. rewrite Hb. done. }
    destruct (Z.eqb_spec w 0) as [->|Hw0].
    + decide_tests; naive_solver lia.
    + rewrite seq_le_dist, seq_lt_dist, dist_seg_ws, dist_we_seg.
      destruct (wrap_cases (D - w) ltac:(lia)) as [[? ->]|[[? ->]|[? ->]]];
        repeat case_test; lia.
  - destruct (Z.eqb_spec w 0) as [->|Hw0]; [done|]. cbn [negb andb].
    rewrite !seq_le_dist, !seq_lt_dist, dist_seg_ws, dist_we_seg, dist_we_se.
    rewrite (seq_dist_opp ws se), dist_ws_se.
    destruct (wrap_cases (D - w) ltac:(lia)) as [[? ->]|[[? ->]|[? ->]]];
    destruct (wrap_cases (D + n) ltac:(lia)) as [[? ->]|[[? ->]|[? ->]]];
    destruct (wrap_cases (D + n - w) ltac:(lia)) as [[? ->]|[[? ->]|[? ->]]];
    try lia; repeat case_test; lia.
Qed.

(** An acceptable segment is cut to the window: [skip] octets before it are
    dropped, the rest starts at [offset] and ends within the window. *)
Lemma overlap_spec (data : list Z) :
  acceptable D w n = true -> Z.of_nat (length data) = n ->
  let skip := Z.to_nat (Z.max 0 (- D)) in
  let len := Z.to_nat (Z.min w (D + n) - Z.max 0 D) in
  overlap ws we seg se data = Ret (slice data skip len, Z.to_nat (Z.max 0 D)) /\
  (skip + len <= length data)%nat /\ (Z.to_nat (Z.max 0 D) + len <= Z.to_nat w)%nat /\
  - D <= n /\ D <= w.
Proof.
  intros Hacc Hlen. pose proof dist_bounds as HD. unfold acceptable in Hacc.
  assert (0 <= Z.min w (D + n) - Z.max 0 D /\ - D <= n /\ D <= w) as (H0 & H1 & H2)
    by (decide_tests; lia).
  clear Hacc. cbn zeta. unfold overlap.
  assert (seq_max ws seg = wrap_i 32 (seg + Z.max 0 (- D))) as Hmax.
  { unfold seq_max. rewrite seq_gt_dist, dist_seg_ws.
    destruct (decide (D < 0)).
    - rewrite (proj2 (Z.eqb_neq _ _)), (proj2 (Z.ltb_lt _ _)) by lia.
      rewrite (seq_dist_spec seg ws Hws), dist_seg_ws, (proj2 (Z.eqb_neq _ _)) by lia.
      f_equal. lia.
    - rewrite (proj2 (Z.eqb_neq _ _)), (proj2 (Z.ltb_ge _ _)) by lia.
      replace (Z.max 0 (- D)) with 0 by lia. rewrite Z.add_0_r. symmetry. by apply seq_at_id. }
  assert (seq_min we se = wrap_i 32 (seg + (Z.min w (D + n) - D))) as Hmin.
  { unfold seq_min. rewrite seq_lt_dist, (seq_dist_opp we se), dist_we_se.
    assert (we = wrap_i 32 (seg + (w - D))) as Hwe.
    { rewrite (seq_dist_spec seg we (wrap_range _)). rewrite (seq_dist_opp we seg), dist_we_seg.
      f_equal. f_equal. rewrite wrap_small by lia. decide_tests; lia. }
    rewrite wrap_small by lia. rewrite (proj2 (Z.eqb_neq _ _)) by lia.
    case_test; [rewrite Hwe|unfold se]; f_equal; lia. }
  rewrite Hmax, Hmin.
  set (a := Z.max 0 (- D)). set (b := Z.min w (D + n) - D).
  assert (0 <= a <= b /\ b <= n) as [Ha Hb] by lia.
  assert (forall x, - 2 ^ 31 <= x < 2 ^ 31 -> seq_dist seg (wrap_i 32 (seg + x)) = x) as Hfrom.
  { intros x Hx. rewrite seq_dist_add_r, seq_dist_self. by apply wrap_small. }
  rewrite seq_le_dist.
  assert (seq_dist (wrap_i 32 (seg + b)) (wrap_i 32 (seg + a)) = a - b) as ->.
  { rewrite seq_dist_add_l, Hfrom by lia. apply wrap_small. lia. }
  rewrite (proj2 (Z.leb_le _ _)) by lia. cbn [rust_assert mbind outcome_bind].
  rewrite !seq_diff_dist; rewrite ?Hfrom by lia; try lia.
  2: { replace (seq_dist ws (wrap_i 32 (seg + a))) with (Z.max 0 D); [lia|].
       rewrite seq_dist_add_r. fold D. rewrite wrap_small; lia. }
  cbn [mbind outcome_bind]. rewrite range_Ret by lia. cbn [mbind outcome_bind].
  rewrite seq_dist_add_r. fold D. rewrite wrap_small by lia.
  split; [|lia]. f_equal. f_equal; [|f_equal; lia].
  f_equal. lia.
Qed.
End Window.
