(* ===== verification/TcpProcess.v ===== *)
(** * Processing a segment preserves the invariant

    The phases of [process] one by one, then the whole handler: it never
    panics, keeps the invariant, and changes the receive and the transmit side
    as [rx_step] and [tx_step] say. *)

From S2P Require Import Prelude RingBuffer Assembler Time SeqNumber Ip TcpWire TcpTimers.
From S2P Require Import Congestion Context TcpSocket TcpLogic TcpSegment.
Open Scope Z_scope.

(** ** Replies *)

Lemma reply_ok ip_repr repr : returns (reply ip_repr repr) (fun _ => True).
Proof. unfold reply. by destruct ip_repr. Qed.

Lemma rst_reply_ok ip_repr repr :
  control repr <> Rst -> Z.of_nat (length (payload repr)) < 2 ^ 30 ->
  returns (rst_reply ip_repr repr) (fun _ => True).
Proof.
  intros Hc Hl. unfold rst_reply. rewrite (bool_decide_eq_false_2 (control repr = Rst)) by done. cbn [negb rust_assert].
  apply returns_bind. cbn. apply returns_bind. eapply returns_mono; [|apply reply_ok].
  intros [ip r] _. case_match; [|done].
  rewrite seq_add_Ret; [done|]. unfold Repr.segment_len.
  destruct (control repr); cbn; lia.
Qed.

(** The ranges reported are sums of the next expected octet and offsets in the
    window. *)
Lemma sack_block_ok asm ack last :
  Assembler.wf asm -> seq_range ack ->
  0 <= ack \/ ack + Z.of_nat (Assembler.span asm) < 0 ->
  Z.of_nat (Assembler.span asm) <= 2 ^ 30 ->
  returns (sack_block asm ack last) (fun _ => True).
Proof.
  intros Hwf Hr Ha Hs. unfold sack_block, seq_as_usize, wrap_u, seq_range in *.
  assert (ack mod 2 ^ 64 + Z.of_nat (Assembler.span asm) <= USIZE_MAX) as Hmax.
  { change (2 ^ 64) with 18446744073709551616. destruct Ha; div_lia. }
  destruct (iter_data_ok _ asm Hwf Hmax) as (rs & Hf & _ & it & Hn). cbn zeta.
  apply returns_bind. destruct last as [last|]; [rewrite Hf|]; cbn [returns].
  - destruct (List.find _ _); [done|]. by rewrite Hn.
  - by rewrite Hn.
Qed.

(** [ack_reply] records what it advertised. *)
Definition acked_at (s : Socket) : Socket :=
  s <| remote_last_ack := Some (rcv_nxt s) |> <| remote_last_win := scaled_window s |>.

Lemma ack_reply_ok ip_repr repr s :
  rx_ok (rx_buffer s) (assembler s) ->
  (remote_has_sack s = true ->
   0 <= rcv_nxt s \/ rcv_nxt s + Z.of_nat (Assembler.span (assembler s)) < 0) ->
  returns (ack_reply ip_repr repr s) (fun '(s', _) => s' = acked_at s).
Proof.
  intros (Hwf & Hc & Ha & Hs) Hsack. pose proof (zlen_bounds _ Hwf).
  unfold ack_reply. apply returns_bind. eapply returns_mono; [|apply reply_ok].
  intros [ip r] _. rewrite seq_add_Ret by lia. cbn [mbind outcome_bind].
  fold (rcv_nxt s). cbn zeta. apply returns_bind. cbn [remote_has_sack set_field].
  destruct (remote_has_sack s) eqn:E; [|done].
  apply returns_bind. eapply returns_mono; [|apply sack_block_ok]; try done.
  - apply wrap_range.
  - by apply Hsack.
  - pose proof (zwindow_eq _ Hwf). unfold zwindow in *. sock_simpl. lia.
Qed.

(** ** What a segment may change *)

Definition rx_same (s s' : Socket) : Prop :=
  rx_buffer s' = rx_buffer s /\ assembler s' = assembler s /\
  remote_seq_no s' = remote_seq_no s /\ rx_fin_received s' = rx_fin_received s.

Definition tx_same (s s' : Socket) : Prop :=
  tx_buffer s' = tx_buffer s /\ local_seq_no s' = local_seq_no s /\
  remote_last_seq s' = remote_last_seq s.

(** The part of the payload inside the receive window and its offset there. *)
Definition seg_dist (s : Socket) (repr : TcpRepr) : Z := seq_dist (rcv_nxt s) (seq_number repr).

Definition seg_offset (s : Socket) (repr : TcpRepr) : nat := Z.to_nat (Z.max 0 (seg_dist s repr)).

Definition seg_data (s : Socket) (repr : TcpRepr) : list Z :=
  let D := seg_dist s repr in
  slice (payload repr) (Z.to_nat (Z.max 0 (- D)))
    (Z.to_nat (Z.min (zwindow (rx_buffer s)) (D + Z.of_nat (length (payload repr))) - Z.max 0 D)).

Definition in_window (s : Socket) (repr : TcpRepr) : Prop :=
  acceptable (seg_dist s repr) (zwindow (rx_buffer s)) (Z.of_nat (length (payload repr))) = true.

(** Data recorded in the assembler and written to the buffer, of which the
    contiguous front was enqueued; data that is not next in line may be dropped. *)
Definition placed (rx : SocketBuffer) (asm : Assembler) (data : list Z) (offset : nat)
    (rx' : SocketBuffer) (asm' : Assembler) : Prop :=
  (rx' = rx /\ asm' = asm /\ (data = [] \/ (0 < offset)%nat)) \/
  (offset + length data <= RingBuffer.window rx)%nat /\
  let U i := Assembler.present asm i || Assembler.in_range offset (length data) i in
  exists n, Assembler.front_run U n /\
    (forall i, Assembler.present asm' i = U (n + i)%nat) /\
    RingBuffer.view rx' = splice (RingBuffer.view rx) (RingBuffer.len rx + offset) data /\
    RingBuffer.len rx' = (RingBuffer.len rx + n)%nat.

Definition synchronized (st : State) : Prop :=
  st <> Closed /\ st <> Listen /\ st <> SynSent.

Inductive rx_step (s : Socket) (repr : TcpRepr) (s' : Socket) : Prop :=
| rx_keep : rx_same s s' -> state s' = state s \/ ~ synchronized (state s') -> rx_step s repr s'
| rx_syn :
    state s = Listen \/ state s = SynSent -> control repr = Syn ->
    remote_seq_no s' = wrap_i 32 (seq_number repr + 1) ->
    rx_buffer s' = rx_buffer s -> assembler s' = assembler s ->
    rx_fin_received s' = rx_fin_received s -> rx_step s repr s'
| rx_data (fin : bool) :
    synchronized (state s) -> control repr <> Syn -> in_window s repr ->
    placed (rx_buffer s) (assembler s) (seg_data s repr) (seg_offset s repr)
      (rx_buffer s') (assembler s') ->
    (fin = true -> control repr = Fin /\ seg_dist s repr = 0 /\
       (state s = SynReceived \/ state s = Established \/ state s = FinWait1 \/ state s = FinWait2)) ->
    remote_seq_no s' = wrap_i 32 (remote_seq_no s + Z.b2z fin) ->
    rx_fin_received s' = rx_fin_received s || fin -> rx_step s repr s'.

(** An acknowledgement of [n] octets of the buffer; [flags] is the number of
    control flags it acknowledges besides them. *)
Inductive tx_step (s : Socket) (repr : TcpRepr) (s' : Socket) : Prop :=
| tx_keep :
    tx_same s s' -> state s' = state s \/ state s' = Closed \/ state s' = Listen -> tx_step s repr s'
| tx_syn :
    state s = Listen -> control repr = Syn -> tx_buffer s' = tx_buffer s ->
    remote_last_seq s' = local_seq_no s' -> state s' = SynReceived -> tx_step s repr s'
| tx_ack (ack : SeqNumber) (n flags : Z) :
    ack_number repr = Some ack -> state s <> Listen ->
    ~ (state s' = Listen \/ state s' = SynSent \/ state s' = SynReceived) -> local_seq_no s' = ack ->
    ack = wrap_i 32 (local_seq_no s + n + flags) ->
    0 <= n <= zlen (tx_buffer s) -> 0 <= flags <= control_len (state s) ->
    ((sent_flags (state s)).1 = true -> flags = 1) ->
    (flags = 1 -> n = zlen (tx_buffer s)) ->
    state s' = Closed \/ control_len (state s) = flags + control_len (state s') ->
    RingBuffer.contents (tx_buffer s') = drop (Z.to_nat n) (RingBuffer.contents (tx_buffer s)) ->
    RingBuffer.capacity (tx_buffer s') = RingBuffer.capacity (tx_buffer s) ->
    tx_step s repr s'.

(** ** The state machine

    The transitions of RFC 793 a segment may cause, with what it must carry. *)

Definition fin_in_order (s : Socket) (repr : TcpRepr) : Prop :=
  control repr = Fin /\ seq_number repr = rcv_nxt s /\ in_window s repr.

Definition acks_fin (s : Socket) (repr : TcpRepr) : Prop :=
  exists ack, ack_number repr = Some ack /\
    seq_dist (local_seq_no s) ack = zlen (tx_buffer s) + 1.

Definition acks_syn (s : Socket) (repr : TcpRepr) : Prop :=
  ack_number repr = Some (wrap_i 32 (local_seq_no s + 1)).

Inductive transition (s : Socket) (repr : TcpRepr) : State -> Prop :=
| tr_stay : transition s repr (state s)
| tr_syn :
    state s = Listen -> control repr = Syn -> ack_number repr = None ->
    transition s repr SynReceived
| tr_syn_ack :
    state s = SynSent -> control repr = Syn -> acks_syn s repr -> transition s repr Established
| tr_syn_sent_rst :
    state s = SynSent -> control repr = Rst -> acks_syn s repr -> transition s repr Closed
| tr_syn_received_rst :
    state s = SynReceived -> control repr = Rst -> in_window s repr -> transition s repr Listen
| tr_rst :
    synchronized (state s) -> state s <> SynReceived -> control repr = Rst -> in_window s repr ->
    transition s repr Closed
| tr_established :
    state s = SynReceived -> acks_syn s repr -> control repr <> Syn -> control repr <> Rst ->
    in_window s repr -> transition s repr Established
| tr_close_wait :
    state s = SynReceived /\ acks_syn s repr \/ state s = Established ->
    fin_in_order s repr -> transition s repr CloseWait
| tr_closing : state s = FinWait1 -> fin_in_order s repr -> transition s repr Closing
| tr_fin_wait_2 : state s = FinWait1 -> acks_fin s repr -> transition s repr FinWait2
| tr_fin_wait_1_time_wait :
    state s = FinWait1 -> fin_in_order s repr -> acks_fin s repr -> transition s repr TimeWait
| tr_fin_wait_2_time_wait :
    state s = FinWait2 -> fin_in_order s repr -> transition s repr TimeWait
| tr_closing_time_wait : state s = Closing -> acks_fin s repr -> transition s repr TimeWait
| tr_last_ack : state s = LastAck -> acks_fin s repr -> transition s repr Closed.

(** ** The phases after the state update *)

(** What holds between the update of the state and the end: the acknowledged
    octets [n] are still in the buffer, the payload is not yet placed. *)
Record mid_inv (t0 : Instant) (s : Socket) (repr : TcpRepr) (n : Z) (data : list Z)
    (offset : nat) : Prop := mkMid {
  mi_rx : rx_ok (rx_buffer s) (assembler s);
  mi_fit : (offset + length data <= RingBuffer.window (rx_buffer s))%nat;
  mi_tx : tx_ok (tx_buffer s);
  mi_acked : 0 <= n <= zlen (tx_buffer s);
  mi_seq : seq_range (local_seq_no s) /\ seq_range (remote_seq_no s) /\
           seq_range (remote_last_seq s);
  mi_flight : state s <> Closed ->
    let k := seq_dist (local_seq_no s) (remote_last_seq s) in
    match ack_number repr with
    | Some ack =>
        let a := seq_dist (local_seq_no s) ack in
        0 <= k /\ 0 <= a /\ k - a <= zlen (tx_buffer s) - n + control_len (state s)
    | None => 0 <= k <= zlen (tx_buffer s) + control_len (state s)
    end;
  mi_noack : ack_number repr = None -> n = 0;
  mi_tuple : tuple_ok (state s) (tuple s);
  mi_peer : peer_ok (remote_win_shift s) (remote_win_len s) (remote_mss s) (remote_win_scale s);
  mi_timer : timer_ok (timer s);
  mi_rtte : rtte_wf (rtte s) /\ rtte_sampling_since t0 (rtte s);
  mi_durations : duration_ok (timeout s) /\ duration_ok (keep_alive s) /\ duration_ok (ack_delay s);
  mi_handshake :
    state s = Listen \/ state s = SynSent \/ state s = SynReceived ->
    handshake s /\ ack_number repr = None /\ data = []
}.

Section Finish.
Variable (t0 : Instant) (repr : TcpRepr) (cx : Context).
Hypothesis Hclock : clock t0 cx.
Hypothesis Hseg : seg_ok repr.
Implicit Types (s : Socket).

Lemma shl_window_range sc : 0 <= sc <= 14 ->
  0 <= wrap_u 64 (Z.shiftl (window_len repr) sc) <= 65535 * 2 ^ 14.
Proof.
  intros Hsc. destruct Hseg. rewrite Z.shiftl_mul_pow2 by lia.
  assert (0 < 2 ^ sc <= 2 ^ 14) by (split; [lia|apply Z.pow_le_mono_r; lia]).
  change (2 ^ 14) with 16384 in *. unfold wrap_u.
  rewrite Z.mod_small; [nia|]. change (2 ^ 64) with 18446744073709551616. nia.
Qed.

Lemma update_remote_ok s (Q : bool -> Socket -> Context -> Prop) Qr :
  scale_ok (remote_win_scale s) ->
  (forall b win cc, 0 <= win <= 65535 * 2 ^ 14 ->
     Q b (s <| remote_last_ts := Some (now cx) |> <| remote_win_len := win |>
            <| congestion_controller := cc |>) cx) ->
  wp (update_remote repr) Q Qr s cx.
Proof.
  intros Hsc HQ. unfold update_remote. wp_steps.
  set (sc := match control repr with Syn => 0 | _ => _ end).
  assert (0 <= sc <= 14) as Hsc'.
  { subst sc. sock_simpl. destruct (remote_win_scale s); cbn in *; destruct (control repr); cbn; lia. }
  rewrite (proj2 (Z.ltb_lt _ _)) by lia. cbn [returns]. wp_steps.
  apply HQ. by apply shl_window_range.
Qed.

Lemma dequeue_acked_ok s n (Q : unit -> Socket -> Context -> Prop) Qr :
  RingBuffer.wf (tx_buffer s) -> 0 <= n <= zlen (tx_buffer s) ->
  (forall tx w, RingBuffer.wf tx -> RingBuffer.capacity tx = RingBuffer.capacity (tx_buffer s) ->
     RingBuffer.contents tx = drop (Z.to_nat n) (RingBuffer.contents (tx_buffer s)) ->
     zlen tx = zlen (tx_buffer s) - n -> (n = 0 -> tx = tx_buffer s) ->
     Q () (s <| tx_buffer := tx |> <| tx_waker := w |>) cx) ->
  wp (dequeue_acked n) Q Qr s cx.
Proof.
  intros Hwf Hn HQ. unfold dequeue_acked. wp_steps. case_test.
  - wp_steps. rewrite (proj2 (Z.leb_le _ _)) by lia. cbn [rust_assert returns]. wp_steps.
    unfold zlen, RingBuffer.len in *.
    destruct (dequeue_allocated_ok (Z.to_nat n) (tx_buffer s) Hwf ltac:(lia))
      as (tx & -> & Hwf' & Hcap & Hcont & Hlen).
    cbn [returns]. wp_steps. apply (HQ tx); try done; lia.
  - wp_steps. assert (n = 0) as -> by lia.
    specialize (HQ (tx_buffer s) (tx_waker s) Hwf eq_refl).
    rewrite drop_0, Z.sub_0_r in HQ. destruct s. by apply HQ.
Qed.

Lemma advance_local_ok s b (Q : unit -> Socket -> Context -> Prop) Qr :
  match ack_number repr with
  | None => Q () s cx
  | Some ack =>
      forall d cc t la, t = timer s \/ t = TimerFastRetransmit ->
      Q () (s <| local_rx_dup_acks := d |> <| congestion_controller := cc |> <| timer := t |>
              <| local_rx_last_ack := la |> <| local_seq_no := ack |>
              <| remote_last_seq := if seq_lt (remote_last_seq s) ack then ack
                                    else remote_last_seq s |>) cx
  end ->
  wp (advance_local repr b) Q Qr s cx.
Proof.
  intros HQ. unfold advance_local. wp_steps. destruct (ack_number repr) as [ack|]; wp_steps; [|done].
  assert (exists d cc t la, (t = timer s \/ t = TimerFastRetransmit) /\
    count_dup_acks cx repr ack b s = s <| local_rx_dup_acks := d |>
      <| congestion_controller := cc |> <| timer := t |> <| local_rx_last_ack := la |>)
    as (d & cc & t & la & Ht & ->).
  { clear HQ. set (s' := count_dup_acks _ _ _ _ _).
    exists (local_rx_dup_acks s'), (congestion_controller s'), (timer s'), (local_rx_last_ack s').
    subst s'. unfold count_dup_acks. destruct s. sock_simpl. repeat case_match; auto. }
  sock_simpl. specialize (HQ d cc t la Ht). revert HQ. destruct s. sock_simpl.
  by destruct (seq_lt _ ack).
Qed.

Lemma place_payload_ok s data offset (Q : unit -> Socket -> Context -> Prop) Qr :
  rx_ok (rx_buffer s) (assembler s) ->
  (offset + length data <= RingBuffer.window (rx_buffer s))%nat ->
  ((0 < offset)%nat -> Qr None s cx) ->
  (forall rx asm w, rx_ok rx asm -> RingBuffer.capacity rx = RingBuffer.capacity (rx_buffer s) ->
     placed (rx_buffer s) (assembler s) data offset rx asm ->
     zwindow rx <= zwindow (rx_buffer s) ->
     Q () (s <| assembler := asm |> <| rx_buffer := rx |> <| rx_waker := w |>) cx) ->
  wp (place_payload data offset) Q Qr s cx.
Proof.
  intros (Hwf & Hc & Ha & Hs) Hfit HQr HQ. unfold place_payload. wp_steps.
  pose proof (add_then_remove_front_ok offset (length data) (assembler s) Ha) as Hadd.
  unfold add_front_post in Hadd.
  destruct (add_then_remove_front _ _ _) as [[asm [n|e]]|]; [|destruct Hadd as (-> & Hoff & _)|done].
  2: { cbn [returns]. wp_steps. specialize (HQr Hoff). by destruct s. }
  destruct Hadd as (Hwa & _ & Hrun & Hpres & Hspan). cbn [returns]. wp_steps.
  destruct (write_unallocated_ok offset data (rx_buffer s) Hwf ltac:(lia))
    as (rx & Hw & Hwf1 & Hcap1 & Hlen1 & Hra1 & Hv1). cbn zeta in *.
  assert (length data `min` (RingBuffer.window (rx_buffer s) - offset) = length data)%nat
    as Hm by lia. rewrite Hm in *. rewrite take_ge in Hv1 by lia.
  rewrite Hw. cbn [returns]. wp_steps. rewrite Nat.eqb_refl. cbn [rust_assert returns]. wp_steps.
  assert (RingBuffer.window rx = RingBuffer.window (rx_buffer s)) as Hwin
    by (unfold RingBuffer.window, RingBuffer.len; lia).
  assert (forall rx', RingBuffer.wf rx' -> RingBuffer.capacity rx' = RingBuffer.capacity rx ->
    RingBuffer.len rx' = (RingBuffer.len rx + n)%nat -> RingBuffer.view rx' = RingBuffer.view rx ->
    forall w, Q () (s <| assembler := asm |> <| rx_buffer := rx' |> <| rx_waker := w |>) cx) as Hend.
  { intros rx' Hwf' Hcap' Hlen' Hview' w.
    pose proof (RingBuffer.window_len _ Hwf') as H1. pose proof (RingBuffer.window_len _ Hwf1) as H2.
    unfold RingBuffer.len in *.
    apply HQ; [split_and!; try done; unfold zcapacity in *; lia|lia| |unfold zwindow; lia].
    right. split; [done|]. exists n. split_and!; try done; unfold RingBuffer.len; [congruence|lia]. }
  destruct (Nat.eqb_spec n 0) as [->|Hn0]; cbn [negb].
  2: { wp_steps. destruct (enqueue_unallocated_ok n rx Hwf1 ltac:(lia))
      as (rx' & -> & Hwf' & Hcap' & Hlen' & Hcont' & Hfree').
    cbn [returns]. wp_steps. apply (Hend rx' Hwf' Hcap' Hlen').
    rewrite <-!contents_free, Hcont', Hfree', <-app_assoc. by rewrite take_drop. }
  wp_steps. specialize (Hend rx Hwf1 eq_refl ltac:(lia) eq_refl).
  destruct s. by apply Hend.
Qed.
Lemma time_add_ok t d : 0 <= t <= TIME_MAX -> 0 <= d <= TIME_MAX -> Instant.add t d = Ret (t + d).
Proof. unfold TIME_MAX. intros. apply instant_add_ok; lia. Qed.

Lemma ack_to_transmit_ok s :
  rx_ok (rx_buffer s) (assembler s) ->
  ack_to_transmit s = Ret match remote_last_ack s with
                          | Some last => seq_lt last (rcv_nxt s)
                          | None => false
                          end.
Proof.
  intros (Hwf & ? & _). pose proof (zlen_bounds _ Hwf). unfold ack_to_transmit.
  destruct (remote_last_ack s); [|done]. by rewrite seq_add_Ret by lia.
Qed.

Lemma delay_ack_ok s (Q : unit -> Socket -> Context -> Prop) Qr :
  rx_ok (rx_buffer s) (assembler s) -> duration_ok (ack_delay s) ->
  (forall t, Q () (s <| ack_delay_timer := t |>) cx) ->
  wp delay_ack Q Qr s cx.
Proof.
  intros Hrx Hd HQ. unfold delay_ack. wp_steps. destruct Hclock as [_ Hnow].
  assert (Q () s cx) as HQ0.
  { specialize (HQ (ack_delay_timer s)). by destruct s. }
  destruct (ack_delay s) as [d|]; wp_steps; [|done].
  rewrite ack_to_transmit_ok by done. cbn [returns]. case_test; wp_steps; [|done].
  destruct (ack_delay_timer s); wp_steps; try apply HQ.
  rewrite time_add_ok by done. cbn [returns]. wp_steps. apply HQ.
Qed.

(** The ranges of a SACK option sent at the end of the step. *)
Definition sack_mid s : Prop :=
  remote_has_sack s = true ->
  0 <= rcv_nxt s \/ rcv_nxt s + zwindow (rx_buffer s) < 0.

Lemma sack_mid_advance s s' :
  rx_ok (rx_buffer s) (assembler s) -> rx_ok (rx_buffer s') (assembler s') ->
  RingBuffer.capacity (rx_buffer s') = RingBuffer.capacity (rx_buffer s) ->
  zwindow (rx_buffer s') <= zwindow (rx_buffer s) ->
  remote_seq_no s' = remote_seq_no s -> remote_has_sack s' = remote_has_sack s ->
  sack_mid s -> sack_mid s'.
Proof.
  unfold sack_mid. intros (Hwf & Hc & _ & _) (Hwf' & Hc' & _ & _) Hcap Hwin Hseq Hs Hmid H.
  rewrite Hs in H. specialize (Hmid H).
  pose proof (zwindow_eq _ Hwf). pose proof (zwindow_eq _ Hwf').
  pose proof (zlen_bounds _ Hwf). pose proof (zlen_bounds _ Hwf').
  assert (zcapacity (rx_buffer s') = zcapacity (rx_buffer s)) by (unfold zcapacity; lia).
  assert (rcv_nxt s' = wrap_i 32 (rcv_nxt s + (zlen (rx_buffer s') - zlen (rx_buffer s)))) as Hn.
  { unfold rcv_nxt. rewrite Hseq, wrap_i_add_l by lia. f_equal. lia. }
  pose proof (wrap_range (remote_seq_no s + zlen (rx_buffer s))) as Hr. fold (rcv_nxt s) in Hr.
  unfold seq_range in Hr. rewrite Hn.
  destruct (wrap_cases (rcv_nxt s + (zlen (rx_buffer s') - zlen (rx_buffer s))) ltac:(lia))
    as [[? ->]|[[? ->]|[? ->]]]; lia.
Qed.

Lemma receive_payload_ok ip_repr s data offset (Q : option packet -> Socket -> Context -> Prop) :
  rx_ok (rx_buffer s) (assembler s) -> duration_ok (ack_delay s) -> (data <> [] -> sack_mid s) ->
  (offset + length data <= RingBuffer.window (rx_buffer s))%nat ->
  (forall r, (data = [] \/ r = None) -> data = [] \/ (0 < offset)%nat -> Q r s cx) ->
  (forall r rx asm w t la lw, rx_ok rx asm -> data <> [] ->
     placed (rx_buffer s) (assembler s) data offset rx asm ->
     Q r (s <| assembler := asm |> <| rx_buffer := rx |> <| rx_waker := w |>
            <| ack_delay_timer := t |> <| remote_last_ack := la |> <| remote_last_win := lw |>) cx) ->
  wp (receive_payload ip_repr repr data offset) Q Q s cx.
Proof.
  intros Hrx Hd Hsack Hfit HQ0 HQ. unfold receive_payload.
  destruct (Nat.eqb_spec (length data) 0) as [Hl|Hl].
  { apply length_zero_iff_nil in Hl. wp_steps. apply HQ0; auto. }
  assert (data <> []) as Hne by (by intros ->).
  wp_steps. apply place_payload_ok; try done; [intros; apply HQ0; auto|].
  intros rx asm w Hrx' Hcap Hpl Hwin.
  wp_steps. apply delay_ack_ok; [done|done|]. intros t. wp_steps.
  set (s' := _ <| ack_delay_timer := t |>).
  case_test; wp_steps.
  - eapply returns_mono; [|apply ack_reply_ok; [done|]].
    + intros [s'' p] ->. wp_steps. unfold acked_at. apply HQ; done.
    + intros Hs. destruct Hrx' as (? & ? & ? & Hsp).
      pose proof (sack_mid_advance s s' Hrx ltac:(split_and!; done) Hcap Hwin eq_refl eq_refl
        (Hsack Hne) Hs)
        as [?|?]; [by left|right]. subst s'. unfold zwindow in *. sock_simpl.
      cbn [rx_buffer set_field] in *. lia.
  - specialize (HQ None rx asm w t (remote_last_ack s') (remote_last_win s') Hrx' Hne Hpl).
    subst s'. by destruct s.
Qed.
(** The effect of the phases after the state update. *)
Definition finished s (n : Z) (data : list Z) (offset : nat) (s' : Socket) : Prop :=
  sock_inv t0 s' /\ state s' = state s /\ remote_seq_no s' = remote_seq_no s /\
  rx_fin_received s' = rx_fin_received s /\
  (data = [] -> rx_buffer s' = rx_buffer s /\ assembler s' = assembler s) /\
  placed (rx_buffer s) (assembler s) data offset (rx_buffer s') (assembler s') /\
  match ack_number repr with
  | None => tx_same s s'
  | Some ack =>
      local_seq_no s' = ack /\
      RingBuffer.contents (tx_buffer s') = drop (Z.to_nat n) (RingBuffer.contents (tx_buffer s)) /\
      RingBuffer.capacity (tx_buffer s') = RingBuffer.capacity (tx_buffer s)
  end.

Lemma placed_keep rx asm data offset :
  data = [] \/ (0 < offset)%nat -> placed rx asm data offset rx asm.
Proof. intros. by left. Qed.

(** Placing data after the handshake keeps the invariant. *)
Lemma place_inv s rx asm w t la lw :
  sock_inv t0 s -> rx_ok rx asm ->
  ~ (state s = Listen \/ state s = SynSent \/ state s = SynReceived) ->
  sock_inv t0 (s <| assembler := asm |> <| rx_buffer := rx |> <| rx_waker := w |>
    <| ack_delay_timer := t |> <| remote_last_ack := la |> <| remote_last_win := lw |>).
Proof. intros [] Hrx Hst. by constructor. Qed.

(** After an acknowledgement the next octet to send is again within the
    buffer. *)
Lemma advance_flight ack l r len n cl :
  seq_range ack -> seq_range l -> seq_range r ->
  let k := seq_dist l r in let a := seq_dist l ack in
  0 <= k -> 0 <= a -> k - a <= len - n + cl -> n <= len -> 0 <= cl ->
  0 <= seq_dist ack (if seq_lt r ack then ack else r) <= len - n + cl.
Proof.
  intros Hack Hl Hr k a Hk Ha Hka Hn Hcl.
  pose proof (seq_dist_range l r). pose proof (seq_dist_range l ack).
  assert (seq_dist ack r = k - a) as Hd.
  { rewrite (seq_dist_spec l ack Hack), seq_dist_add_l. apply wrap_small.
    subst k a. lia. }
  rewrite seq_lt_dist, Hd. case_test; [rewrite seq_dist_self|rewrite Hd]; lia.
Qed.

Lemma finish_ok ip_repr s n data offset :
  mid_inv t0 s repr n data offset -> (data <> [] -> sack_mid s) ->
  let Q (_ : option packet) s' cx' := cx' = cx /\ finished s n data offset s' in
  wp (w ← update_remote repr; _ ← dequeue_acked n; _ ← advance_local repr w;
      receive_payload ip_repr repr data offset) Q Q s cx.
Proof.
  intros [] Hsack Q. destruct mi_seq0 as (Hl & Hr & Hls). destruct mi_tx0 as [Hwf Hcap].
  destruct mi_peer0 as (Hsh & Hwin & Hmss & Hsc). destruct Hclock as [He Hnow].
  apply wp_bind, update_remote_ok; [done|]. intros b win cc Hwin'.
  wp_step. apply dequeue_acked_ok; [done|done|]. sock_simpl. intros tx w Hwtx Hctx Hcont Hlen Htx0.
  wp_step. apply advance_local_ok.
  set (s1 := s <| remote_last_ts := _ |> <| remote_win_len := _ |> <| congestion_controller := _ |>
               <| tx_buffer := _ |> <| tx_waker := _ |>).
  assert (forall s2, sock_inv t0 s2 -> rx_buffer s2 = rx_buffer s -> assembler s2 = assembler s ->
    state s2 = state s -> remote_seq_no s2 = remote_seq_no s ->
    rx_fin_received s2 = rx_fin_received s -> remote_has_sack s2 = remote_has_sack s ->
    ack_delay s2 = ack_delay s ->
    match ack_number repr with
    | None => tx_same s s2
    | Some ack => local_seq_no s2 = ack /\
        RingBuffer.contents (tx_buffer s2) = drop (Z.to_nat n) (RingBuffer.contents (tx_buffer s)) /\
        RingBuffer.capacity (tx_buffer s2) = RingBuffer.capacity (tx_buffer s)
    end -> wp (receive_payload ip_repr repr data offset) Q Q s2 cx) as Hend.
  { intros s2 Hinv Hrx2 Has2 Hst2 Hrs2 Hf2 Hs2 Hd2 Htx2.
    apply receive_payload_ok; rewrite ?Hrx2, ?Has2, ?Hd2; try done; [by destruct mi_durations0 as (?&?&?)|..].
    - unfold sack_mid, rcv_nxt in *. by rewrite Hs2, Hrs2, Hrx2.
    - intros r Hr0 Hoff. split; [done|]. unfold finished. rewrite Hrx2, Has2.
      split_and!; try done. by apply placed_keep.
    - intros r rx asm w' t la lw Hrx' Hne Hpl. split; [done|].
      split; [apply place_inv; [done|done|]|split_and!; done].
      rewrite Hst2. intros Hst. by destruct (mi_handshake0 Hst) as (_ & _ & ?). }
  destruct (ack_number repr) as [ack|] eqn:Eack.
  - assert (seq_range ack) as Hackr by (destruct Hseg; by rewrite Eack in *).
    intros d cc' t la Ht. apply Hend; try done. constructor; try done.
    + split; [done|]. unfold zcapacity in *. subst s1. sock_simpl. by rewrite Hctx.
    + sock_simpl. split_and!; try done. by case_match.
    + intros Hst _. specialize (mi_flight0 Hst). cbn zeta in mi_flight0.
      destruct mi_flight0 as (? & ? & ?). subst s1. sock_simpl. rewrite Hlen.
      pose proof (control_len_range (state s)).
      apply advance_flight with (l := local_seq_no s); try done; lia.
    + sock_simpl. by destruct Ht as [->| ->].
    + intros Hst. by destruct (mi_handshake0 Hst) as (_ & ? & _).
  - specialize (Htx0 (mi_noack0 eq_refl)). subst tx.
    apply Hend; try done. constructor; try done.
    + intros Hst _. by apply mi_flight0.
    + intros Hst. destruct (mi_handshake0 Hst) as [H _]. by apply H.
Qed.
End Finish.

(** ** The phases before the state update *)

(** The acknowledgement of a segment that passed [check_ack]. *)
Inductive ack_ok (s : Socket) (repr : TcpRepr) : Prop :=
| ao_rst : control repr = Rst -> (state s = SynSent -> acks_syn s repr) -> ack_ok s repr
| ao_listen : control repr <> Rst -> state s = Listen -> ack_number repr = None -> ack_ok s repr
| ao_syn_sent : state s = SynSent -> control repr = Syn -> acks_syn s repr -> ack_ok s repr
| ao_syn_received :
    control repr <> Rst -> state s = SynReceived -> acks_syn s repr -> ack_ok s repr
| ao_range ack :
    control repr <> Rst -> synchronized (state s) -> state s <> SynReceived ->
    ack_number repr = Some ack ->
    0 <= seq_dist (local_seq_no s) ack <= zlen (tx_buffer s) + control_len (state s) ->
    ack_ok s repr.

Section Front.
Variable (t0 : Instant) (ip_repr : IpRepr) (repr : TcpRepr) (cx : Context).
Hypothesis Hclock : clock t0 cx.
Hypothesis Hseg : seg_ok repr.
Implicit Types (s : Socket).

(** A step that moves neither side of the connection. *)
Definition quiet s (s' : Socket) : Prop :=
  sock_inv t0 s' /\ state s' = state s /\ rx_same s s' /\ tx_same s s'.

Lemma quiet_refl s : sock_inv t0 s -> quiet s s.
Proof. done. Qed.

Lemma acked_at_inv s : sock_inv t0 s -> sock_inv t0 (acked_at s).
Proof.
  intros []. constructor; try done. intros Hst.
  destruct (si_handshake Hst) as (? & ? & ? & ? & Hx). split_and!; try done.
  intros Hl. destruct (Hx Hl) as [? Hy]. split; [done|]. intros Hk. destruct (Hy Hk) as (? & ? & _).
  split_and!; try done. right. unfold acked_at, rcv_nxt. sock_simpl.
  replace (zlen (rx_buffer s)) with 0 by done. rewrite Z.add_0_r. f_equal.
  apply seq_at_id. by destruct si_seq as (? & ? & ?).
Qed.

Lemma sack_ok_span s :
  rx_ok (rx_buffer s) (assembler s) -> sack_ok s -> remote_has_sack s = true ->
  0 <= rcv_nxt s \/ rcv_nxt s + Z.of_nat (Assembler.span (assembler s)) < 0.
Proof.
  intros (_ & _ & _ & Hs) Hk H. destruct (Hk H); [by left|right]. unfold zwindow in *. lia.
Qed.

Lemma challenge_ack_reply_ok s :
  sock_inv t0 s -> sack_ok s ->
  returns (challenge_ack_reply cx ip_repr repr s) (fun '(s', _) => quiet s s').
Proof.
  intros Hinv Hs. unfold challenge_ack_reply. case_test; [by apply quiet_refl|].
  destruct Hclock as [_ Hnow].
  change (Duration.from_secs 1) with (Ret 1000000). cbn [mbind outcome_bind].
  rewrite time_add_ok by (unfold TIME_MAX in *; lia). cbn [mbind outcome_bind].
  set (s1 := s <| challenge_ack_timer := _ |>).
  assert (sock_inv t0 s1) as Hinv1 by (by destruct Hinv; constructor).
  apply returns_bind. eapply returns_mono; [|apply (ack_reply_ok _ _ s1)].
  - intros [s' p] ->. cbn [returns]. split; [by apply acked_at_inv|done].
  - apply Hinv1.
  - by apply (sack_ok_span s1); [apply Hinv1|].
Qed.

Lemma check_ack_range_ok s ack (Q : unit -> Socket -> Context -> Prop)
    (Qr : option packet -> Socket -> Context -> Prop) :
  sock_inv t0 s -> sack_ok s -> seq_range ack -> (sent_flags (state s)).1 = false ->
  (0 <= seq_dist (local_seq_no s) ack <= zlen (tx_buffer s) + control_len (state s) -> Q () s cx) ->
  (forall r s', quiet s s' -> Qr r s' cx) ->
  wp (check_ack_range ip_repr repr ack) Q Qr s cx.
Proof.
  intros Hinv Hs Hack Hsyn HQ HQr. unfold check_ack_range.
  destruct (si_tx _ _ Hinv) as [Hwf Hcap]. pose proof (zlen_bounds _ Hwf).
  pose proof (control_len_range (state s)).
  wp_steps. rewrite seq_add_Ret by lia. cbn [returns]. wp_steps. rewrite Hsyn. wp_steps.
  rewrite seq_lt_dist, seq_gt_dist, seq_dist_add_l. pose proof (seq_dist_range (local_seq_no s) ack).
  case_test; wp_steps; [by apply HQr, quiet_refl|].
  rewrite wrap_small by lia. case_test; wp_steps.
  - eapply returns_mono; [|by apply challenge_ack_reply_ok]. intros [s' r] Hq. wp_steps. by apply HQr.
  - apply HQ. lia.
Qed.

Lemma check_ack_ok s (Q : unit -> Socket -> Context -> Prop)
    (Qr : option packet -> Socket -> Context -> Prop) :
  sock_inv t0 s -> sack_ok s -> accepts ip_repr repr s = true ->
  (ack_ok s repr -> Q () s cx) -> (forall r s', quiet s s' -> Qr r s' cx) ->
  wp (check_ack ip_repr repr) Q Qr s cx.
Proof.
  intros Hinv Hs Hacc HQ HQr. unfold check_ack. wp_steps.
  assert (forall r, Qr r s cx) as HQs by (intros; by apply HQr, quiet_refl).
  assert (state s <> Closed /\ (state s = Listen -> ack_number repr = None)) as [Hncl Hlis].
  { unfold accepts in Hacc. repeat case_bool_decide; cbn in Hacc; try done.
    split; [done|]. intros Hl. destruct (ack_number repr); [|done]. naive_solver. }
  pose proof (so_payload _ Hseg) as Hpl. pose proof (so_ack _ Hseg) as Hackr.
  assert (control repr <> Rst -> wp (r ← lift (rst_reply ip_repr repr); early (Some r)) Q Qr s cx)
    as Hrst.
  { intros Hc. wp_steps. eapply returns_mono; [|by apply rst_reply_ok]. intros r _. wp_steps. apply HQs. }
  assert (forall ack, ack_number repr = Some ack -> control repr <> Rst -> synchronized (state s) ->
    state s <> SynReceived -> (sent_flags (state s)).1 = false ->
    wp (check_ack_range ip_repr repr ack) Q Qr s cx) as Hrange.
  { intros ack Ha ? ? ? ?. rewrite Ha in Hackr. apply check_ack_range_ok; try done.
    intros. apply HQ. by apply (ao_range s repr ack). }
  unfold synchronized in Hrange.
  destruct (state s) eqn:Est; try done; destruct (control repr) eqn:Ec;
    destruct (ack_number repr) as [ack|] eqn:Ea; try (by specialize (Hlis eq_refl));
    try (by apply Hrange); wp_steps; try (by apply HQs);
    try (rewrite seq_add_Ret by lia; cbn [returns]; destruct (Z.eqb_spec ack (wrap_i 32 (local_seq_no s + 1)))
      as [->|]; cbn [negb]); try (by apply Hrst); wp_steps; try (by apply HQs); apply HQ;
    first [by apply ao_rst; rewrite ?Est | apply ao_listen; congruence | by apply ao_syn_sent
          | apply ao_syn_received; [congruence|done|exact Ea]].
Qed.
Lemma window_end_eq s :
  rx_ok (rx_buffer s) (assembler s) ->
  seq_add (remote_seq_no s) (zcapacity (rx_buffer s))
    = Ret (wrap_i 32 (rcv_nxt s + zwindow (rx_buffer s))).
Proof.
  intros (Hwf & Hc & _). rewrite seq_add_Ret by lia. f_equal. unfold rcv_nxt.
  rewrite wrap_i_add_l, zwindow_eq by (done || lia). f_equal. lia.
Qed.

Lemma seg_fits s :
  rx_ok (rx_buffer s) (assembler s) -> in_window s repr ->
  (seg_offset s repr + length (seg_data s repr) <= RingBuffer.window (rx_buffer s))%nat.
Proof.
  intros (Hwf & Hc & _) Hin. pose proof (so_payload _ Hseg). pose proof (zwindow_nonneg (rx_buffer s)).
  pose proof (zwindow_eq _ Hwf). pose proof (zlen_bounds _ Hwf).
  destruct (overlap_spec (rcv_nxt s) (seq_number repr) (zwindow (rx_buffer s))
    (Z.of_nat (length (payload repr))) (wrap_range _) (so_seq _ Hseg) ltac:(lia) ltac:(lia)
    (payload repr) Hin eq_refl) as (_ & _ & Hfit & _).
  unfold seg_offset, seg_data, seg_dist, zwindow in *. rewrite length_slice. lia.
Qed.

Lemma trim_segment_ok s (Q : list Z * nat * SeqNumber -> Socket -> Context -> Prop)
    (Qr : option packet -> Socket -> Context -> Prop) :
  sock_inv t0 s -> sack_ok s -> state s <> Closed ->
  (state s = Listen \/ state s = SynSent -> Q ([], 0%nat, rcv_nxt s) s cx) ->
  (synchronized (state s) -> in_window s repr ->
     Q (seg_data s repr, seg_offset s repr, rcv_nxt s)
       (s <| local_rx_last_seq := Some (seq_number repr) |>) cx) ->
  (forall r s', quiet s s' -> Qr r s' cx) ->
  wp (trim_segment ip_repr repr) Q Qr s cx.
Proof.
  intros Hinv Hs Hncl HQ1 HQ2 HQr. pose proof (si_rx _ _ Hinv) as Hrx.
  destruct (Hrx) as (Hwf & Hc & _). pose proof (zlen_bounds _ Hwf).
  pose proof (so_payload _ Hseg) as Hpl. pose proof (zwindow_nonneg (rx_buffer s)).
  pose proof (zwindow_eq _ Hwf).
  unfold trim_segment. wp_steps. rewrite seq_add_Ret by lia. fold (rcv_nxt s). cbn [returns].
  wp_steps. rewrite window_end_eq by done. cbn [returns]. wp_steps.
  rewrite seq_add_Ret by lia. cbn [returns].
  set (n := Z.of_nat (length (payload repr))) in *.
  set (w := zwindow (rx_buffer s)) in *.
  assert (synchronized (state s) -> wp (inside ← lift (segment_in_window (rcv_nxt s)
      (wrap_i 32 (rcv_nxt s + w)) (seq_number repr) (wrap_i 32 (seq_number repr + n)));
    if inside : bool then
      _ ← modify (fun s => s <| local_rx_last_seq := Some (seq_number repr) |>);
      '(part, offset) ← lift (overlap (rcv_nxt s) (wrap_i 32 (rcv_nxt s + w)) (seq_number repr)
         (wrap_i 32 (seq_number repr + n)) (payload repr));
      mret (part, offset, rcv_nxt s)
    else
      _ ← (if bool_decide (state s = TimeWait) then
             t ← lift (Timer.set_for_close (now cx));
             modify (fun s => s <| timer := t |>)
           else mret ());
      r ← call (challenge_ack_reply cx ip_repr repr);
      early r) Q Qr s cx) as Hmain.
  2: { unfold synchronized in Hmain. destruct (state s) eqn:Est; try done; try (by apply Hmain);
       wp_steps; apply HQ1; auto. }
  intros Hsync. wp_steps.
  rewrite segment_in_window_spec by (done || apply wrap_range || apply Hseg || lia). cbn [returns].
  destruct (acceptable _ w n) eqn:Hacc; wp_steps.
  - edestruct (overlap_spec (rcv_nxt s) (seq_number repr) w n (wrap_range _) (so_seq _ Hseg)
      ltac:(lia) ltac:(lia) (payload repr) Hacc eq_refl) as (Hov & _).
    cbn zeta in Hov. rewrite Hov. cbn [returns]. wp_steps. by apply HQ2.
  - assert (forall s1, sock_inv t0 s1 -> sack_ok s1 -> state s1 = state s -> rx_same s s1 ->
      tx_same s s1 -> wp (r ← call (challenge_ack_reply cx ip_repr repr); early r) Q Qr s1 cx) as Hend.
    { intros s1 Hi Hk Hst Hr Ht. wp_steps. eapply returns_mono; [|by apply challenge_ack_reply_ok].
      intros [s' r] (? & ? & (? & ? & ? & ?) & ? & ? & ?). wp_steps. apply HQr.
      destruct Hr as (? & ? & ? & ?), Ht as (? & ? & ?).
      split_and!; [done|congruence|split_and!; congruence|split_and!; congruence]. }
    case_bool_decide as Htw; [wp_steps|apply wp_ret; by apply Hend].
    destruct Hclock as [_ Hnow]. unfold Timer.set_for_close.
    rewrite time_add_ok by (done || (unfold CLOSE_DELAY, TIME_MAX in *; lia)).
    cbn [mbind outcome_bind returns]. apply wp_modify, Hend; try done.
    destruct Hinv. constructor; try done.
    + sock_simpl. unfold timer_ok, CLOSE_DELAY, TIME_MAX in *. lia.
    + intros [Hst|[Hst|Hst]]; cbn in Hst; congruence.
Qed.
End Front.
