(* ===== verification/TcpTransitions.v ===== *)
(** * The state update of [process] and the whole handler *)

From S2P Require Import Prelude RingBuffer Assembler Time SeqNumber Ip TcpWire TcpTimers.
From S2P Require Import Congestion Context TcpSocket TcpLogic TcpSegment TcpProcess.
Open Scope Z_scope.

(** What [note_ack] found: [n] octets of the buffer and possibly our FIN are
    acknowledged. *)
Definition acked (s : Socket) (repr : TcpRepr) (n : Z) (fin : bool) : Prop :=
  match ack_number repr with
  | None => n = 0 /\ fin = false
  | Some ack =>
      seq_dist (local_seq_no s) ack = n + Z.b2z (sent_flags (state s)).1 + Z.b2z fin /\
      0 <= n <= zlen (tx_buffer s) /\
      (fin = true -> (sent_flags (state s)).2 = true /\ n = zlen (tx_buffer s))
  end.

Section Transitions.
Variable (t0 : Instant) (ip_repr : IpRepr) (repr : TcpRepr) (cx : Context).
Hypothesis Hclock : clock t0 cx.
Hypothesis Hseg : seg_ok repr.
Implicit Types (s : Socket).

Lemma acks_syn_dist s ack :
  acks_syn s repr -> ack_number repr = Some ack -> seq_dist (local_seq_no s) ack = 1.
Proof.
  unfold acks_syn. intros -> [= <-]. rewrite seq_dist_add_r, seq_dist_self. apply wrap_small. lia.
Qed.

(** The distance of an acknowledgement that passed [check_ack]. *)
Lemma ack_ok_dist t s ack :
  sock_inv t s -> ack_ok s repr -> control repr <> Rst -> ack_number repr = Some ack ->
  Z.b2z (sent_flags (state s)).1 <= seq_dist (local_seq_no s) ack
    <= zlen (tx_buffer s) + control_len (state s).
Proof.
  intros Hinv Hok Hc Ha. destruct (si_tx _ _ Hinv) as [Hwf _]. pose proof (zlen_bounds _ Hwf).
  destruct Hok as [|? Hst Hn|Hst ? Hack|? Hst Hack|ack' ? Hst ? Ha' Hd]; try congruence.
  - rewrite (acks_syn_dist s ack Hack Ha), Hst. cbn. lia.
  - rewrite (acks_syn_dist s ack Hack Ha), Hst. cbn. lia.
  - rewrite Ha in Ha'. injection Ha' as <-. unfold synchronized in Hst.
    destruct (state s); cbn in *; lia || tauto.
Qed.

Lemma count_acked_ok s ack :
  sock_inv t0 s -> ack_ok s repr -> control repr <> Rst -> ack_number repr = Some ack ->
  returns (count_acked ack s) (fun '(n, fin, _) => acked s repr n fin).
Proof.
  intros Hinv Hok Hc Ha. pose proof (ack_ok_dist t0 s ack Hinv Hok Hc Ha) as Hd.
  destruct (si_tx _ _ Hinv) as [Hwf Hcap]. pose proof (zlen_bounds _ Hwf).
  unfold acked, count_acked, control_len in *. rewrite Ha.
  assert ((sent_flags (state s)).1 && (sent_flags (state s)).2 = false) as Hx
    by (by destruct (state s)).
  destruct (sent_flags (state s)) as [syn sf]. cbn [fst snd] in *.
  assert (0 <= Z.b2z syn <= 1 /\ 0 <= Z.b2z sf <= 1) by (destruct syn, sf; cbn; lia).
  rewrite seq_add_Ret by lia. cbn [mbind outcome_bind].
  rewrite seq_ge_dist, seq_dist_add_l. pose proof (seq_dist_range (local_seq_no s) ack).
  rewrite wrap_small by lia. rewrite (proj2 (Z.leb_le _ _)) by lia.
  rewrite seq_diff_dist; rewrite seq_dist_add_l, wrap_small by lia; [|lia].
  cbn [mbind outcome_bind returns].
  destruct syn, sf; cbn [Z.b2z andb] in *; try done; try case_test; cbn [Z.b2z]; split_and!; try lia; done.
Qed.

(** The socket after [note_ack]. *)
Definition noted s s' : Prop :=
  exists r cc, s' = s <| rtte := r |> <| congestion_controller := cc |> /\
    rtte_wf r /\ rtte_sampling_since t0 r.

Lemma note_ack_ok s (Q : Z * bool * bool -> Socket -> Context -> Prop) Qr :
  sock_inv t0 s -> ack_ok s repr ->
  (control repr = Rst -> Q (0, false, false) s cx) ->
  (forall n fin all s', control repr <> Rst -> acked s repr n fin -> noted s s' ->
     Q (n, fin, all) s' cx) ->
  wp (note_ack repr) Q Qr s cx.
Proof.
  intros Hinv Hok HQr HQ. unfold note_ack. wp_steps. case_bool_decide as Hrst; wp_steps; [by apply HQr|].
  destruct (ack_number repr) as [ack|] eqn:Ha; wp_steps.
  - eapply returns_mono; [|by apply count_acked_ok]. intros [[n fin] all] Hk.
    wp_steps. destruct (si_rtte _ _ Hinv) as [Hr1 Hr2]. destruct Hclock as [He _].
    eapply returns_mono; [|by apply (rtte_on_ack_wf t0)]. intros r [Hr1' Hr2']. wp_steps.
    apply HQ; [done|done|]. exists r, (Congestion.on_ack (now cx) (Z.to_N n) r (congestion_controller s)).
    split; [|done]. by destruct s.
  - apply HQ; [done|by unfold acked; rewrite Ha|].
    exists (rtte s), (congestion_controller s). split; [by destruct s|]. apply Hinv.
Qed.
(** ** The state update *)

Definition process_post s s' : Prop :=
  sock_inv t0 s' /\ transition s repr (state s') /\ rx_step s repr s' /\ tx_step s repr s'.

Lemma quiet_post s s' : quiet t0 s s' -> process_post s s'.
Proof.
  intros (? & Hst & ? & ?). split_and!; [done| |apply rx_keep; auto|apply tx_keep; auto].
  rewrite Hst. constructor.
Qed.

(** [s'] differs from [s] in the fields a state update without SYN writes. *)
Definition moved s s' : Prop :=
  s' = s <| state := state s' |> <| timer := timer s' |> <| tuple := tuple s' |>
         <| remote_seq_no := remote_seq_no s' |> <| rx_fin_received := rx_fin_received s' |>
         <| rx_waker := rx_waker s' |> <| tx_waker := tx_waker s' |>.

Definition finish (n : Z) (data : list Z) (offset : nat) : M (option packet) (option packet) :=
  w ← update_remote repr; _ ← dequeue_acked n; _ ← advance_local repr w;
  receive_payload ip_repr repr data offset.

Lemma sack_moved s s' (f : bool) :
  rx_ok (rx_buffer s) (assembler s) -> sack_ok s -> rx_buffer s' = rx_buffer s ->
  remote_has_sack s' = remote_has_sack s ->
  remote_seq_no s' = wrap_i 32 (remote_seq_no s + Z.b2z f) -> sack_mid s'.
Proof.
  intros (Hwf & Hc & _) Hs Hrx Hhs Hq H. rewrite Hhs in H. specialize (Hs H).
  assert (rcv_nxt s' = wrap_i 32 (rcv_nxt s + Z.b2z f)) as ->.
  { unfold rcv_nxt. rewrite Hq, Hrx, !wrap_i_add_l by lia. f_equal. lia. }
  pose proof (wrap_range (remote_seq_no s + zlen (rx_buffer s))) as Hr. fold (rcv_nxt s) in Hr.
  unfold seq_range in Hr. rewrite Hrx. pose proof (zwindow_eq _ Hwf). pose proof (zlen_bounds _ Hwf).
  assert (0 <= Z.b2z f <= 1) by (destruct f; cbn; lia).
  destruct (wrap_cases (rcv_nxt s + Z.b2z f) ltac:(lia)) as [[? ->]|[[? ->]|[? ->]]]; lia.
Qed.

(** The flags an acknowledgement covers besides octets of the buffer. *)
Definition acked_flags s (fin : bool) : Z := Z.b2z (sent_flags (state s)).1 + Z.b2z fin.

Lemma acked_flags_ok s ack n fin :
  sock_inv t0 s -> seq_range ack -> ack_number repr = Some ack -> acked s repr n fin ->
  let flags := acked_flags s fin in
  ack = wrap_i 32 (local_seq_no s + n + flags) /\ 0 <= flags <= control_len (state s) /\
  ((sent_flags (state s)).1 = true -> flags = 1) /\ (flags = 1 -> n = zlen (tx_buffer s)).
Proof.
  intros Hinv Hr Ha Hk. unfold acked in Hk. rewrite Ha in Hk. destruct Hk as (Hd & Hn & Hf).
  unfold acked_flags. split.
  { rewrite (seq_dist_spec (local_seq_no s) ack Hr), Hd. f_equal. lia. }
  pose proof (si_handshake _ _ Hinv) as Hhs. unfold handshake in Hhs. unfold control_len.
  destruct (state s), fin; cbn in *; split_and!; try lia; naive_solver lia.
Qed.

Lemma moved_ok s s2 n fin (f : bool) :
  sock_inv t0 s -> sack_ok s -> synchronized (state s) -> in_window s repr ->
  control repr <> Rst -> control repr <> Syn -> ack_ok s repr -> acked s repr n fin -> moved s s2 ->
  (f = true -> control repr = Fin /\ seg_dist s repr = 0 /\
     (state s = SynReceived \/ state s = Established \/ state s = FinWait1 \/ state s = FinWait2)) ->
  remote_seq_no s2 = wrap_i 32 (remote_seq_no s + Z.b2z f) ->
  rx_fin_received s2 = rx_fin_received s || f ->
  (state s2 = Closed \/ control_len (state s)
     = Z.b2z (sent_flags (state s)).1 + Z.b2z fin + control_len (state s2)) ->
  tuple_ok (state s2) (tuple s2) -> timer_ok (timer s2) ->
  ~ (state s2 = Listen \/ state s2 = SynSent \/ state s2 = SynReceived) ->
  transition s repr (state s2) ->
  let Q (_ : option packet) s' cx' := same_clock cx cx' /\ process_post s s' in
  wp (finish n (seg_data s repr) (seg_offset s repr)) Q Q s2 cx.
Proof.
  intros Hinv Hsack Hsync Hin Hc Hsyn Hack Hacked Hmv Hfin Hq Hfr Hcl Htp Ht Hhs Htr Q.
  assert (exists ack, ack_number repr = Some ack) as [ack Ha].
  { destruct Hsync as (? & ? & ?). destruct Hack as [| | |? ? Hx|]; try done; eauto. }
  pose proof (ack_ok_dist t0 s ack Hinv Hack Hc Ha) as Hd.
  unfold acked in Hacked. rewrite Ha in Hacked. destruct Hacked as (Hd' & Hn & Hfin').
  assert (mid_inv t0 s2 repr n (seg_data s repr) (seg_offset s repr)) as Hmid.
  { destruct Hinv. rewrite Hmv. constructor; sock_simpl; try done.
    - by apply seg_fits.
    - destruct si_seq as (? & ? & ?). split_and!; try done. rewrite Hq. apply wrap_range.
    - intros Hst. rewrite Ha. cbn zeta. destruct Hsync as (? & ? & ?).
      specialize (si_flight ltac:(done) ltac:(done)).
      destruct Hcl as [Hcl|Hcl]; [by rewrite Hcl in Hst|].
      assert (0 <= Z.b2z (sent_flags (state s)).1) by (by destruct (sent_flags (state s)).1). lia.
    - by rewrite Ha. }
  assert (forall (r : option packet) s' cx',
    cx' = cx /\ finished t0 repr s2 n (seg_data s repr) (seg_offset s repr) s' -> Q r s' cx') as HQ.
  { intros r s' cx' (-> & Hinv' & Hst' & Hq' & Hf' & _ & Hpl & Htx). split; [done|].
    rewrite Ha in Htx. destruct Htx as (Hl & Hcont & Hcap).
    assert (rx_buffer s2 = rx_buffer s /\ assembler s2 = assembler s /\ tx_buffer s2 = tx_buffer s)
      as (Hrx2 & Has2 & Htx2) by (by rewrite Hmv).
    rewrite Hrx2, Has2 in Hpl. rewrite Htx2 in Hcont, Hcap.
    split_and!; [done|by rewrite Hst'| |].
    - apply (rx_data s repr s' f); try done; congruence.
    - destruct (acked_flags_ok s ack n fin) as (? & ? & ? & ?); try done.
      { pose proof (so_ack _ Hseg) as Hx. by rewrite Ha in Hx. }
      { unfold acked. by rewrite Ha. }
      apply (tx_ack s repr s' ack n (acked_flags s fin)); try done.
      { by destruct Hsync as (? & ? & ?). }
      { by rewrite Hst'. }
      rewrite Hst'. unfold acked_flags. destruct Hcl; [by left|right; lia]. }
  eapply wp_mono; [apply (finish_ok t0 repr cx Hclock Hseg ip_repr s2 n _ _ Hmid)|exact HQ|exact HQ].
  intros _. apply (sack_moved s s2 f); try done; [apply Hinv|..]; by rewrite Hmv.
Qed.
Lemma set_for_idle_ok s c (Q : unit -> Socket -> Context -> Prop) Qr :
  0 <= now c <= TIME_MAX -> duration_ok (keep_alive s) ->
  (forall k, timer_ok (TimerIdle k) -> Q () (s <| timer := TimerIdle k |>) c) ->
  wp set_for_idle Q Qr s c.
Proof.
  intros Hnow Hk HQ. unfold set_for_idle, Timer.set_for_idle, map_add.
  wp_steps. destruct (keep_alive s) as [d|]; cbn [mbind outcome_bind].
  - rewrite time_add_ok by done. cbn [mbind outcome_bind returns]. wp_steps. apply HQ.
    cbn in *. unfold TIME_MAX in *. lia.
  - cbn [returns]. wp_steps. by apply HQ.
Qed.

Lemma set_for_close_ok s (Q : unit -> Socket -> Context -> Prop) Qr :
  (forall e, timer_ok (TimerClose e) -> Q () (s <| timer := TimerClose e |>) cx) ->
  wp set_for_close Q Qr s cx.
Proof.
  intros HQ. unfold set_for_close, Timer.set_for_close. destruct Hclock as [_ Hnow].
  wp_steps. rewrite time_add_ok by (unfold CLOSE_DELAY, TIME_MAX in *; lia).
  cbn [mbind outcome_bind returns]. wp_steps. apply HQ. unfold timer_ok, CLOSE_DELAY, TIME_MAX in *. lia.
Qed.

Lemma accept_fin_ok s (Q : unit -> Socket -> Context -> Prop) Qr :
  Q () (s <| remote_seq_no := wrap_i 32 (remote_seq_no s + 1) |> <| rx_fin_received := true |>) cx ->
  wp accept_fin Q Qr s cx.
Proof.
  intros HQ. unfold accept_fin. wp_steps. rewrite seq_add_Ret by lia. cbn [returns]. by wp_steps.
Qed.

Lemma same_family_ip : same_family (IpRepr.dst_addr ip_repr) (IpRepr.src_addr ip_repr).
Proof. by destruct ip_repr. Qed.

(** A SYN in the LISTEN state. *)
Lemma accept_syn_ok s (Q : option packet -> Socket -> Context -> Prop) :
  sock_inv t0 s -> state s = Listen -> control repr = Syn -> ack_number repr = None ->
  (forall r s' cx', same_clock cx cx' -> process_post s s' -> Q r s' cx') ->
  wp (_ ← accept_syn ip_repr repr; finish 0 [] 0) Q Q s cx.
Proof.
  intros Hinv Hst Hc Ha HQ. unfold accept_syn.
  assert (wp match max_seg_size repr with
    | Some mss => if mss =? 0 then early None else
        modify (fun s => s <| congestion_controller ::= Congestion.set_mss (Z.to_N mss) |> <| remote_mss := mss |>)
    | None => mret ()
    end (fun _ s1 cx1 => cx1 = cx /\ exists cc m, 1 <= m <= 65535 /\
           s1 = s <| congestion_controller := cc |> <| remote_mss := m |>) Q s cx) as Hmss.
  { pose proof (so_mss _ Hseg) as Hm. destruct (max_seg_size repr) as [m|].
    - case_test; wp_steps.
      + apply HQ; [done|]. apply quiet_post, quiet_refl. done.
      + split; [done|]. eexists _, m. split; [lia|]. by destruct s.
    - wp_steps. split; [done|]. exists (congestion_controller s), (remote_mss s).
      split; [|by destruct s]. by destruct (si_peer _ _ Hinv) as (? & ? & ? & ?). }
  do 2 wp_step. eapply wp_mono; [exact Hmss| |done]. clear Hmss.
  intros _ s1 cx1 (-> & cc & m & Hm & ->). wp_steps.
  unfold random_seq_no. destruct (Rand.rand_u32_ok (rand cx)) as (rnd & v & -> & _).
  cbn [mbind outcome_bind returns]. wp_steps. rewrite seq_add_Ret by lia. cbn [returns]. wp_steps.
  set (l := wrap_i 32 v). set (q := wrap_i 32 (seq_number repr + 1)).
  set (tp := mkTuple _ _). set (s2 := set_state SynReceived _).
  assert (exists shift, 0 <= shift <= 15 /\
    s2 = s <| state := SynReceived |> <| congestion_controller := cc |> <| remote_mss := m |>
           <| tuple := Some tp |> <| local_seq_no := l |> <| remote_seq_no := q |>
           <| remote_last_seq := l |> <| remote_has_sack := sack_permitted repr |>
           <| remote_win_scale := window_scale repr |> <| remote_win_shift := shift |>
           <| rx_waker := rx_waker s2 |> <| tx_waker := tx_waker s2 |>) as (shift & Hsh & Hs2).
  { exists (match window_scale repr with Some _ => remote_win_shift s | None => 0 end).
    split; [|subst s2; destruct s; by destruct (window_scale repr)].
    destruct (si_peer _ _ Hinv) as (? & _). case_match; lia. }
  clearbody s2. rewrite Hs2. clear Hs2.
  apply set_for_idle_ok; [apply Hclock|by destruct (si_durations _ _ Hinv) as (? & ? & ?)|]. intros k Hk.
  set (cx2 := cx <| rand := rnd |>).
  set (s3 := _ <| timer := TimerIdle k |>).
  assert (handshake s) as Hhs by apply Hinv.
  destruct (Hhs ltac:(auto)) as (Hh1 & Hh2 & Hh3 & Hh4 & _).
  assert (mid_inv t0 s3 repr 0 [] 0) as Hmid.
  { destruct Hinv. subst s3. constructor; sock_simpl; rewrite ?Ha; try done.
    - cbn. lia.
    - rewrite Hh2. lia.
    - split_and!; apply wrap_range.
    - cbn zeta. intros _. rewrite seq_dist_self, Hh2. cbn. lia.
    - split; [done|apply same_family_ip].
    - destruct si_peer as (? & ? & ? & ?). split_and!; try done; try lia. apply Hseg.
    - intros _. split_and!; try done. intros _. sock_simpl. split_and!; try done.
      intros _. split; [done|]. by rewrite seq_dist_self. }
  assert (forall (r : option packet) s' cx',
    cx' = cx2 /\ finished t0 repr s3 0 [] 0 s' -> Q r s' cx') as HQ'.
  { intros r s' cx' (-> & Hinv' & Hst' & Hq' & Hf' & Hrx & _ & Htx). apply HQ; [done|].
    rewrite Ha in Htx. destruct (Hrx eq_refl) as [Hrx1 Hrx2], Htx as (Htx1 & Htx2 & Htx3).
    split_and!; [done|rewrite Hst'; by apply tr_syn|apply rx_syn; auto|].
    apply tx_syn; try done. by rewrite Htx2, Htx3. }
  eapply wp_mono; [apply (finish_ok t0 repr cx2)|exact HQ'|exact HQ']; done.
Qed.
(** A SYN|ACK in the SYN-SENT state. *)
Lemma accept_syn_ack_ok s (Q : option packet -> Socket -> Context -> Prop) :
  sock_inv t0 s -> state s = SynSent -> control repr = Syn -> acks_syn s repr ->
  (forall r s', process_post s s' -> Q r s' cx) ->
  wp (_ ← accept_syn_ack repr; finish 0 [] 0) Q Q s cx.
Proof.
  intros Hinv Hst Hc Ha HQ. unfold accept_syn_ack.
  assert (wp match max_seg_size repr with
    | Some mss => if mss =? 0 then early None else
        modify (fun s => s <| remote_mss := mss |> <| congestion_controller ::= Congestion.set_mss (Z.to_N mss) |>)
    | None => mret ()
    end (fun _ s1 cx1 => cx1 = cx /\ exists cc m, 1 <= m <= 65535 /\
           s1 = s <| congestion_controller := cc |> <| remote_mss := m |>) Q s cx) as Hmss.
  { pose proof (so_mss _ Hseg) as Hm. destruct (max_seg_size repr) as [m|].
    - case_test; wp_steps.
      + apply HQ. apply quiet_post, quiet_refl. done.
      + split; [done|]. eexists _, m. split; [lia|]. by destruct s.
    - wp_steps. split; [done|]. exists (congestion_controller s), (remote_mss s).
      split; [|by destruct s]. by destruct (si_peer _ _ Hinv) as (? & ? & ? & ?). }
  do 2 wp_step. eapply wp_mono; [exact Hmss| |done]. clear Hmss.
  intros _ s1 cx1 (-> & cc & m & Hm & ->). wp_steps.
  rewrite seq_add_Ret by lia. cbn [returns]. wp_steps. rewrite seq_add_Ret by lia. cbn [returns]. wp_steps.
  set (q := wrap_i 32 (seq_number repr + 1)). set (s2 := set_state Established _).
  set (last := wrap_i 32 (local_seq_no s + 1)).
  assert (exists shift, 0 <= shift <= 15 /\
    s2 = s <| state := Established |> <| congestion_controller := cc |> <| remote_mss := m |>
           <| remote_seq_no := q |> <| remote_last_seq := last |>
           <| remote_last_ack := Some (seq_number repr) |>
           <| remote_win_scale := window_scale repr |> <| remote_win_shift := shift |>
           <| rx_waker := rx_waker s2 |> <| tx_waker := tx_waker s2 |>) as (shift & Hsh & Hs2).
  { exists (match window_scale repr with Some _ => remote_win_shift s | None => 0 end).
    split; [|subst s2; destruct s; by destruct (window_scale repr)].
    destruct (si_peer _ _ Hinv) as (? & _). case_match; lia. }
  clearbody s2. rewrite Hs2. clear Hs2.
  apply set_for_idle_ok; [apply Hclock|by destruct (si_durations _ _ Hinv) as (? & ? & ?)|]. intros k Hk.
  set (s3 := _ <| timer := TimerIdle k |>).
  destruct (si_handshake _ _ Hinv ltac:(auto)) as (Hh1 & Hh2 & Hh3 & Hh4 & _).
  assert (seq_dist (local_seq_no s) last = 1) as Hd by by apply acks_syn_dist.
  assert (mid_inv t0 s3 repr 0 [] 0) as Hmid.
  { destruct Hinv. subst s3. unfold acks_syn in Ha. constructor; sock_simpl; rewrite ?Ha; try done.
    - cbn. lia.
    - rewrite Hh2. lia.
    - destruct si_seq as (? & _). split_and!; [done|apply wrap_range..].
    - cbn zeta. intros _. fold last. rewrite Hd, Hh2. cbn. lia.
    - rewrite Hst in si_tuple. destruct (tuple s); [|by destruct si_tuple]. by destruct si_tuple.
    - destruct si_peer as (? & ? & ? & ?). split_and!; try done; try lia. apply Hseg.
    - by intros [|[|]]. }
  assert (forall (r : option packet) s' cx',
    cx' = cx /\ finished t0 repr s3 0 [] 0 s' -> Q r s' cx') as HQ'.
  { intros r s' cx' (-> & Hinv' & Hst' & Hq' & Hf' & Hrx & _ & Htx). apply HQ.
    rewrite Ha in Htx. destruct (Hrx eq_refl) as [Hrx1 Hrx2], Htx as (Htx1 & Htx2 & Htx3).
    split_and!; [done|rewrite Hst'; by apply tr_syn_ack|apply rx_syn; auto|].
    apply (tx_ack s repr s' last 0 1); rewrite ?Hst; try done; try lia.
    { rewrite Hst'. by intros [|[|]]. }
    all: try (rewrite Hst'; by right).
    all: rewrite ?Hh2; unfold last; try (f_equal; lia); cbn; lia. }
  eapply wp_mono; [apply (finish_ok t0 repr cx)|exact HQ'|exact HQ']; done.
Qed.
Lemma effective_rst ws : effective_control repr ws = Rst <-> control repr = Rst.
Proof.
  unfold effective_control. destruct (control repr); cbn; try done; by destruct (ws =? _).
Qed.

Lemma effective_fin ws :
  effective_control repr ws = Fin -> control repr = Fin /\ seq_number repr = ws.
Proof.
  unfold effective_control. destruct (control repr); cbn; try done.
  by destruct (Z.eqb_spec ws (seq_number repr)).
Qed.

Lemma effective_syn ws : effective_control repr ws = Syn <-> control repr = Syn.
Proof.
  unfold effective_control. destruct (control repr); cbn; try done; by destruct (ws =? _).
Qed.

Lemma effective_none ws : effective_control repr ws = ControlNone ->
  control repr <> Syn /\ control repr <> Rst.
Proof. unfold effective_control. by destruct (control repr). Qed.

(** RST segments. *)
Lemma update_rst_ok s n fin all data offset (Q : option packet -> Socket -> Context -> Prop) :
  sock_inv t0 s -> state s <> Closed -> ack_ok s repr -> control repr = Rst ->
  (synchronized (state s) -> in_window s repr) ->
  (forall r s', process_post s s' -> Q r s' cx) ->
  wp (_ ← update_state ip_repr repr (effective_control repr (rcv_nxt s)) fin all;
      finish n data offset) Q Q s cx.
Proof.
  intros Hinv Hncl Hack Hc Hwin HQ. rewrite (proj2 (effective_rst _) Hc).
  assert (state s <> Listen -> state s <> SynReceived -> process_post s (set_state Closed s <| tuple := None |>))
    as Hclose.
  { intros Hnl Hnsr. split_and!; [|sock_simpl|apply rx_keep; [done|right; by intros []]|apply tx_keep; auto; done].
    - destruct Hinv. constructor; try done; [by left|by intros [|[|]]].
    - destruct (decide (state s = SynSent)) as [Hss|Hss].
      + apply tr_syn_sent_rst; try done. destruct Hack; try done; auto.
      + by apply tr_rst; try apply Hwin. }
  unfold update_state. wp_steps. destruct (state s) eqn:Est; try done; wp_steps;
    try (apply HQ; by apply Hclose).
  - apply HQ, quiet_post. by apply quiet_refl.
  - apply HQ. split_and!;
      [| |apply rx_keep; [done|right; by intros (_ & [] & _)]|apply tx_keep; auto; done].
    + destruct Hinv. constructor; try done; [by right|]. intros _. sock_simpl.
      destruct (si_handshake ltac:(auto)) as (? & ? & ? & ? & _). by split_and!.
    + sock_simpl. apply tr_syn_received_rst; try done. by apply Hwin.
Qed.

(** LISTEN and SYN-SENT. *)
Lemma update_unsynchronized_ok s n fin all (Q : option packet -> Socket -> Context -> Prop) :
  sock_inv t0 s -> ack_ok s repr -> control repr <> Rst -> acked s repr n fin ->
  state s = Listen \/ state s = SynSent ->
  (forall r s' cx', same_clock cx cx' -> process_post s s' -> Q r s' cx') ->
  wp (_ ← update_state ip_repr repr (effective_control repr (rcv_nxt s)) fin all;
      finish n [] 0) Q Q s cx.
Proof.
  intros Hinv Hack Hc Hk Hst HQ.
  assert (process_post s s) as Hself by (by apply quiet_post, quiet_refl).
  pose proof (proj1 (effective_syn (rcv_nxt s))) as Hsyn.
  unfold acked in Hk. unfold update_state. apply wp_bind, wp_bind, wp_get.
  destruct Hst as [Hst|Hst]; rewrite Hst; destruct Hack as [|? ? Ha|? ? Ha|? ? Ha|? ? [? [? ?]]]; try congruence.
  - rewrite Ha in Hk. destruct Hk as [-> ->].
    destruct (effective_control repr (rcv_nxt s)); try (wp_steps; by apply HQ).
    apply wp_unbind, accept_syn_ok; auto.
  - unfold acks_syn in Ha. pose proof (acks_syn_dist s _ Ha Ha) as Hd. rewrite Ha, Hd, Hst in Hk.
    destruct Hk as (Hk & ? & Hf). destruct fin; [by destruct Hf|]. cbn in Hk. replace n with 0 by lia.
    rewrite (proj2 (effective_syn _)) by done. apply wp_unbind, accept_syn_ack_ok; auto.
Qed.
(** Run a branch of [update_state] up to the rest of the handler. *)
Ltac wp_branches :=
  repeat lazymatch goal with
  | |- wp set_for_idle _ _ _ _ => apply set_for_idle_ok; [done|done|intros ? ?]
  | |- wp set_for_close _ _ _ _ => apply set_for_close_ok; intros ? ?
  | |- wp accept_fin _ _ _ _ => apply accept_fin_ok
  | |- wp (if _ then _ else _) _ _ _ _ => apply wp_if; intros ?
  | |- _ => wp_step; cbv beta
  end.

(** The flags left to acknowledge in the new state. *)
Ltac flags_eq :=
  try right;
  match goal with
  | Est : state ?s = _, Hflag : ?fin = true -> (sent_flags (state ?s)).2 = true
      |- control_len _ = _ + Z.b2z ?fin + _ =>
      rewrite Est in *; destruct fin; cbn in *; first [lia | by specialize (Hflag eq_refl)]
  end.

(** The other states: what each branch has to show. *)
Section Synchronized.
Variables (s : Socket) (n : Z) (fin all : bool) (Q : option packet -> Socket -> Context -> Prop).
Hypothesis Hinv : sock_inv t0 s.
Hypothesis Hsack : sack_ok s.
Hypothesis Hack : ack_ok s repr.
Hypothesis Hc : control repr <> Rst.
Hypothesis Hk : acked s repr n fin.
Hypothesis Hsync : synchronized (state s).
Hypothesis Hin : in_window s repr.
Hypothesis HQ : forall r s' cx', same_clock cx cx' -> process_post s s' -> Q r s' cx'.

Abbreviation rest := (finish n (seg_data s repr) (seg_offset s repr)).

Lemma tuple_sync st : st <> Listen -> tuple_ok st (tuple s).
Proof.
  intros Hst. pose proof (si_tuple _ _ Hinv) as Ht. destruct Hsync as (? & ? & ?).
  destruct (tuple s); [by destruct Ht|]. by destruct Ht.
Qed.

Lemma keep_alive_sync : duration_ok (keep_alive s).
Proof. by destruct (si_durations _ _ Hinv) as (? & ? & ?). Qed.

Lemma fin_acked : fin = true -> acks_fin s repr.
Proof.
  intros Hf. unfold acked in Hk. rewrite Hf in Hk.
  destruct (ack_number repr) as [ack|] eqn:Ha; [|by destruct Hk].
  destruct Hk as (Hd & _ & Hf'). destruct (Hf' eq_refl) as [Hsf Hn].
  exists ack. split; [done|]. rewrite Hd, Hn. cbn. destruct (state s); cbn in *; done || lia.
Qed.

Lemma fin_flag : fin = true -> (sent_flags (state s)).2 = true.
Proof.
  intros Hf. unfold acked in Hk. rewrite Hf in Hk.
  destruct (ack_number repr); [|by destruct Hk]. destruct Hk as (_ & _ & Hx). by destruct (Hx eq_refl).
Qed.

Lemma syn_acked : state s = SynReceived -> acks_syn s repr.
Proof. intros Hst. destruct Hack as [| | | |? ? ? Hx]; congruence. Qed.

(** No FIN is taken. *)
Lemma stay_ok s2 :
  control repr <> Syn -> moved s s2 -> remote_seq_no s2 = remote_seq_no s -> rx_fin_received s2 = rx_fin_received s ->
  tuple s2 = tuple s \/ (tuple s2 = None /\ state s2 = Closed) ->
  (state s2 = Closed \/ control_len (state s)
     = Z.b2z (sent_flags (state s)).1 + Z.b2z fin + control_len (state s2)) ->
  timer_ok (timer s2) -> ~ (state s2 = Listen \/ state s2 = SynSent \/ state s2 = SynReceived) ->
  transition s repr (state s2) -> wp rest Q Q s2 cx.
Proof.
  intros Hns Hm Hr Hf Htp Hcl Ht Hh Htr.
  eapply wp_mono; [apply (moved_ok s s2 n fin false); try done|..];
    try (cbn beta; intros r s' cx' []; by apply HQ).
  - cbn. rewrite Hr, Z.add_0_r. symmetry. apply seq_at_id. by destruct (si_seq _ _ Hinv) as (? & ? & ?).
  - by rewrite Hf, orb_false_r.
  - destruct Htp as [->|[-> ->]]; [apply tuple_sync; tauto|by left].
Qed.

(** The FIN of the peer is taken. *)
Lemma take_fin_ok s2 :
  effective_control repr (rcv_nxt s) = Fin ->
  state s = SynReceived \/ state s = Established \/ state s = FinWait1 \/ state s = FinWait2 ->
  moved s s2 -> remote_seq_no s2 = wrap_i 32 (remote_seq_no s + 1) -> rx_fin_received s2 = true ->
  tuple s2 = tuple s ->
  control_len (state s) = Z.b2z (sent_flags (state s)).1 + Z.b2z fin + control_len (state s2) ->
  timer_ok (timer s2) -> ~ (state s2 = Listen \/ state s2 = SynSent \/ state s2 = SynReceived) ->
  (fin_in_order s repr -> transition s repr (state s2)) -> wp rest Q Q s2 cx.
Proof.
  intros [Hf Hs]%effective_fin Hst Hm Hr Hrf Htp Hcl Ht Hh Htr.
  eapply wp_mono; [apply (moved_ok s s2 n fin true); try done|..];
    try (cbn beta; intros r s' cx' []; by apply HQ).
  - by rewrite Hf.
  - intros _. split_and!; try done. unfold seg_dist. rewrite Hs. apply seq_dist_self.
  - by rewrite Hrf, orb_true_r.
  - by right.
  - rewrite Htp. apply tuple_sync. tauto.
  - by apply Htr.
Qed.

Lemma update_none_ok :
  effective_control repr (rcv_nxt s) = ControlNone ->
  wp (_ ← update_state ip_repr repr ControlNone fin all; rest) Q Q s cx.
Proof.
  intros Eff. destruct (effective_none _ Eff) as [Hnsyn Hnrst].
  assert (process_post s s) as Hself by (by apply quiet_post, quiet_refl).
  assert (timer_ok (timer s)) as Htimer by apply Hinv. pose proof keep_alive_sync.
  pose proof fin_acked as Hfin. pose proof fin_flag as Hflag. pose proof syn_acked as Hsyn.
  assert (0 <= now cx <= TIME_MAX) as Hnow by apply Hclock.
  unfold update_state. apply wp_bind, wp_bind, wp_get.
  pose proof Hsync as (? & ? & ?).
  assert (exists st, state s = st) as [st Est] by eauto. rewrite Est. destruct st; try done.
  all: wp_branches.
  all: try (by apply HQ).
  all: apply stay_ok; sock_simpl; try done; try (by destruct s); try (by intros [|[|]]);
    try (by left); try (by right); try (by flags_eq); try (by rewrite Est; intros [|[|]]).
  all: first [apply tr_stay | apply tr_established | apply tr_fin_wait_2
             | apply tr_closing_time_wait | apply tr_last_ack]; auto.
Qed.

Lemma update_fin_ok :
  effective_control repr (rcv_nxt s) = Fin ->
  wp (_ ← update_state ip_repr repr Fin fin all; rest) Q Q s cx.
Proof.
  intros Eff. assert (process_post s s) as Hself by (by apply quiet_post, quiet_refl).
  assert (timer_ok (timer s)) as Htimer by apply Hinv. pose proof keep_alive_sync.
  pose proof fin_acked as Hfin. pose proof fin_flag as Hflag. pose proof syn_acked as Hsyn.
  assert (0 <= now cx <= TIME_MAX) as Hnow by apply Hclock.
  unfold update_state. apply wp_bind, wp_bind, wp_get. pose proof Hsync as (? & ? & ?).
  assert (exists st, state s = st) as [st Est] by eauto. rewrite Est. destruct st; try done.
  all: wp_branches.
  all: try (by apply HQ).
  all: apply take_fin_ok; sock_simpl; try done; try (by destruct s); try (by intros [|[|]]); auto;
    try (by flags_eq).
  all: intros ?; first [by (apply tr_close_wait; auto) | by (apply tr_closing; auto)
    | by (apply tr_fin_wait_1_time_wait; auto) | by (apply tr_fin_wait_2_time_wait; auto)].
Qed.
End Synchronized.

(** ** The whole handler *)

Lemma update_state_ok s n fin all (Q : option packet -> Socket -> Context -> Prop) :
  sock_inv t0 s -> sack_ok s -> ack_ok s repr -> control repr <> Rst -> acked s repr n fin ->
  synchronized (state s) -> in_window s repr ->
  (forall r s' cx', same_clock cx cx' -> process_post s s' -> Q r s' cx') ->
  wp (_ ← update_state ip_repr repr (effective_control repr (rcv_nxt s)) fin all;
      finish n (seg_data s repr) (seg_offset s repr)) Q Q s cx.
Proof.
  intros Hinv Hsack Hack Hc Hk Hsync Hin HQ.
  destruct (effective_control repr (rcv_nxt s)) eqn:Eff.
  - by apply update_none_ok.
  - unfold effective_control in Eff. by destruct (control repr); cbn in Eff; try case_test.
  - unfold update_state. wp_steps. unfold synchronized in Hsync.
    assert (process_post s s) by (by apply quiet_post, quiet_refl).
    destruct (state s); try naive_solver; wp_steps; by apply HQ.
  - by apply update_fin_ok.
  - by apply effective_rst in Eff.
Qed.

(** The phases before the state update write only these fields. *)
Definition alike s s' : Prop :=
  exists x r cc, s' = s <| local_rx_last_seq := x |> <| rtte := r |> <| congestion_controller := cc |>.

Lemma alike_ack_ok s s' : alike s s' -> ack_ok s repr -> ack_ok s' repr.
Proof.
  intros (x & r & cc & ->) [].
  - by apply ao_rst.
  - by apply ao_listen.
  - by apply ao_syn_sent.
  - by apply ao_syn_received.
  - by eapply ao_range.
Qed.

Lemma alike_transition s s' st : alike s s' -> transition s' repr st -> transition s repr st.
Proof.
  intros (x & r & cc & ->) []; first
    [ sock_simpl; by apply tr_stay | by apply tr_syn | by apply tr_syn_ack | by apply tr_syn_sent_rst
    | by apply tr_syn_received_rst | by apply tr_rst | by apply tr_established
    | by apply tr_close_wait | by apply tr_closing | by apply tr_fin_wait_2
    | by apply tr_fin_wait_1_time_wait | by apply tr_fin_wait_2_time_wait
    | by apply tr_closing_time_wait | by apply tr_last_ack ].
Qed.

Lemma alike_post s s' s'' : alike s s' -> process_post s' s'' -> process_post s s''.
Proof.
  intros Ha (? & Ht & Hr & Hx). split_and!; [done|by eapply alike_transition|..];
    destruct Ha as (x & r & cc & ->).
  - destruct Hr; [by apply rx_keep|by apply rx_syn|by apply (rx_data s repr s'' fin)].
  - destruct Hx; [by apply tx_keep|by apply tx_syn|by apply (tx_ack s repr s'' ack n flags)].
Qed.

Lemma noted_ok s s' : noted s s' -> sock_inv t0 s -> sock_inv t0 s' /\ alike s s'.
Proof.
  intros (r & cc & -> & Hr1 & Hr2) []. split; [by constructor|].
  exists (local_rx_last_seq s), r, cc. by destruct s.
Qed.

(** Processing a segment the socket accepts never panics, and keeps the
    invariant. *)
Lemma process_ok s :
  sock_inv t0 s -> sack_ok s -> accepts ip_repr repr s = true ->
  returns (process ip_repr repr s cx) (fun '(s', cx', _) => same_clock cx cx' /\ process_post s s').
Proof.
  intros Hinv Hsack Hacc. unfold process.
  set (Q (_ : option packet) s' cx' := same_clock cx cx' /\ process_post s s').
  apply wp_run with (Q := Q). unfold process_body.
  apply wp_bind, wp_get, wp_bind, wp_lift. rewrite Hacc. cbn [rust_assert returns].
  assert (state s <> Closed) as Hncl.
  { intros Hst. unfold accepts in Hacc. rewrite bool_decide_eq_true_2 in Hacc by done. done. }
  assert (forall r s', quiet t0 s s' -> Q r s' cx) as Hquiet.
  { intros r s' Hq. split; [done|]. by apply quiet_post. }
  apply wp_bind, (check_ack_ok t0); try done.
  intros Hack. apply wp_bind, (trim_segment_ok t0); try done.
  - intros Hst. apply wp_bind, note_ack_ok; try done.
    + intros Hrst. apply update_rst_ok; try done. intros (? & ? & ?). by destruct Hst.
    + intros n fin all s' Hc Hk Hn. destruct (noted_ok _ _ Hn Hinv) as [Hinv' Hal].
      destruct (Hn) as (r & cc & -> & _). set (s1 := s <| rtte := r |> <| congestion_controller := cc |>).
      change (wp (_ ← update_state ip_repr repr (effective_control repr (rcv_nxt s1)) fin all;
                  finish n [] 0) Q Q s1 cx).
      apply update_unsynchronized_ok; try done; [by apply (alike_ack_ok s)|].
      intros r' s' cx' Hnow Hpost. split; [done|]. by apply (alike_post s _ s' Hal).
  - intros Hsync Hin. set (s1 := s <| local_rx_last_seq := _ |>).
    assert (sock_inv t0 s1) as Hinv1 by (by destruct Hinv; constructor).
    assert (alike s s1) as Hal1.
    { exists (local_rx_last_seq s1), (rtte s), (congestion_controller s). by destruct s. }
    assert (ack_ok s1 repr) as Hack1 by (by apply (alike_ack_ok s)).
    apply wp_bind, note_ack_ok; try done.
    + intros Hrst.
      change (wp (_ ← update_state ip_repr repr (effective_control repr (rcv_nxt s1)) false false;
                  finish 0 (seg_data s1 repr) (seg_offset s1 repr)) Q Q s1 cx).
      apply update_rst_ok; try done.
      intros r' s' Hpost. split; [done|]. by apply (alike_post s s1).
    + intros n fin all s' Hc Hk Hn. destruct (noted_ok _ _ Hn Hinv1) as [Hinv' Hal].
      destruct (Hn) as (r & cc & -> & _). set (s2 := s1 <| rtte := r |> <| congestion_controller := cc |>).
      change (wp (_ ← update_state ip_repr repr (effective_control repr (rcv_nxt s2)) fin all;
                  finish n (seg_data s2 repr) (seg_offset s2 repr)) Q Q s2 cx).
      apply update_state_ok; try done; [by apply (alike_ack_ok s1)|].
      intros r' s' cx' Hnow Hpost. split; [done|]. apply (alike_post s s1); [done|].
      by apply (alike_post s1 _ s' Hal).
Qed.
End Transitions.
