(* ===== verification/TcpDispatch.v ===== *)
(** * Dispatching a segment preserves the invariant

    [dispatch] never panics, keeps the invariant, and every packet it hands to
    the device carries what [sent_ok] says: a slice of the transmit buffer at its
    place in the sequence space, within the window and the segment size of the
    peer. *)

From S2P Require Import Prelude RingBuffer Assembler Time SeqNumber Ip TcpWire TcpTimers.
From S2P Require Import Congestion Context TcpSocket TcpLogic TcpSegment TcpProcess.
From S2P Require Import TcpTransitions.
Open Scope Z_scope.

(** ** Reset *)

Lemma bit_length_bound n : 0 <= n -> n < 2 ^ bit_length n.
Proof.
  intros Hn. unfold bit_length. destruct (Z.eqb_spec n 0) as [->|]; [done|].
  rewrite Z.add_1_r. apply Z.log2_spec. lia.
Qed.

Lemma win_shift_range rx : zcapacity rx <= 2 ^ 30 -> 0 <= win_shift_of rx <= 15.
Proof.
  intros Hc. unfold win_shift_of, bit_length. destruct (Z.eqb_spec (zcapacity rx) 0); [lia|].
  assert (Z.log2 (zcapacity rx) <= Z.log2 (2 ^ 30)) as Hl by by apply Z.log2_le_mono.
  rewrite Z.log2_pow2 in Hl by lia. lia.
Qed.

Lemma rx_ok_clear rx asm : rx_ok rx asm -> rx_ok (RingBuffer.clear rx) (Assembler.new (length asm)).
Proof.
  intros (Hwf & Hc & (used & k & -> & Hu & Hl) & _). split_and!.
  - apply clear_wf.
  - done.
  - by apply asm_new_wf.
  - unfold Assembler.new. rewrite span_empties. lia.
Qed.

Lemma zlen_clear b : zlen (RingBuffer.clear b) = 0.
Proof. done. Qed.

Lemma tx_ok_clear tx : tx_ok tx -> tx_ok (RingBuffer.clear tx).
Proof. intros [_ Hc]. split; [apply clear_wf|done]. Qed.

(** A socket fresh from [reset] in a state without a connection. *)
Lemma socket_reset_ok t0 s :
  sock_inv t0 s -> returns (reset s) (fun s' => sock_inv t0 s' /\ state s' = Closed /\
    tuple s' = None /\ zlen (rx_buffer s') = 0 /\ zlen (tx_buffer s') = 0 /\
    Assembler.span (assembler s') = 0%nat /\ rx_fin_received s' = false /\
    timer s' = TimerIdle None /\ remote_last_ack s' = None).
Proof.
  intros []. unfold reset. change (Instant.from_secs 0) with (Ret 0). cbn [mbind outcome_bind returns].
  destruct si_rx as (? & Hc & ? & ?).
  assert (Assembler.span (Assembler.new (length (assembler s))) = 0%nat) as Hspan
    by apply span_empties.
  split_and!; try done. constructor; try done; sock_simpl.
  - by apply rx_ok_clear.
  - by apply tx_ok_clear.
  - by left.
  - pose proof (win_shift_range _ Hc). destruct si_peer as (? & ? & ? & ?).
    unfold peer_ok, DEFAULT_MSS. split_and!; try done; lia.
Qed.

(** ** The decisions *)

(** [if a >= b { a - b } else { 0 }] *)
Definition guarded_diff (a b : SeqNumber) : outcome Z := if seq_ge a b then seq_diff a b else Ret 0.

Ltac fold_diff :=
  match goal with |- context [if seq_ge ?a ?b then _ else _] =>
    change (if seq_ge a b then seq_diff a b else Ret 0) with (guarded_diff a b) end.

Lemma guarded_diff_ok a b : guarded_diff a b = Ret (Z.max 0 (seq_dist b a)).
Proof.
  unfold guarded_diff. rewrite seq_ge_dist. case_test; [rewrite seq_diff_dist by lia|]; f_equal; lia.
Qed.

Ltac header_lia := change TCP_HEADER_LEN with 20 in *; unfold ip_header_len; case_match; lia.

Section Decisions.
Variable (t0 : Instant) (cx : Context).
Hypothesis Hclock : clock t0 cx.
Hypothesis Hmtu : 60 <= ip_mtu cx.
Implicit Types (s : Socket).

Lemma timed_out_ok s : sock_inv t0 s -> exists b, timed_out (now cx) s = Ret b.
Proof.
  intros []. unfold timed_out. destruct (remote_last_ts s), (timeout s); eauto.
  destruct si_durations as (? & _). rewrite time_add_ok by done. cbn. eauto.
Qed.

(** What [seq_to_transmit] computes. *)
Definition mss_of s (tp : Tuple) : Z :=
  Z.min (ip_mtu cx - ip_header_len (ep_addr (local tp)) - TCP_HEADER_LEN) (remote_mss s).

Definition sendable s : Z :=
  Z.min (Z.max 0 (seq_dist (remote_last_seq s)
    (wrap_i 32 (local_seq_no s + Z.min (remote_win_len s) (zlen (tx_buffer s))))))
    (Z.of_N (Congestion.window (congestion_controller s))).

Definition held_back s tp : bool :=
  nagle s && negb (remote_last_seq s =? local_seq_no s) && negb (mss_of s tp <=? sendable s)
  && negb (wants_fin (state s)).

Definition ready_to_send s tp : bool :=
  bool_decide (state s = SynSent \/ state s = SynReceived) && (remote_last_seq s =? local_seq_no s)
  || (if held_back s tp then false else negb (sendable s =? 0))
  || wants_fin (state s) && (remote_last_seq s =? wrap_i 32 (local_seq_no s + zlen (tx_buffer s))).

Lemma seq_to_transmit_ok s tp :
  tx_ok (tx_buffer s) -> tuple s = Some tp -> seq_to_transmit cx s = Ret (ready_to_send s tp).
Proof.
  intros [Hwf Hcap] Htp. pose proof (zlen_bounds _ Hwf).
  unfold seq_to_transmit. rewrite Htp. cbn [unwrap mbind outcome_bind].
  rewrite usub_Ret by header_lia. cbn [mbind outcome_bind].
  rewrite usub_Ret by header_lia. cbn [mbind outcome_bind].
  fold (mss_of s tp). rewrite negb_involutive. unfold ready_to_send.
  destruct (bool_decide _ && _); [done|]. cbn [orb].
  rewrite (seq_add_Ret _ (Z.min _ _)) by lia. cbn [mbind outcome_bind].
  fold_diff. rewrite guarded_diff_ok. cbn [mbind outcome_bind]. fold (sendable s).
  unfold held_back. destruct (wants_fin (state s)); cbn [mbind outcome_bind andb]; [|done].
  rewrite seq_add_Ret by lia. done.
Qed.

(** During the handshake only the SYN is to be sent, and only once. *)
Lemma ready_in_handshake s tp :
  state s = SynSent \/ state s = SynReceived -> zlen (tx_buffer s) = 0 -> 0 <= remote_win_len s ->
  0 <= seq_dist (local_seq_no s) (remote_last_seq s) -> ready_to_send s tp = true ->
  remote_last_seq s = local_seq_no s.
Proof.
  intros Hst Hz Hwin Hk. pose proof (seq_dist_range (local_seq_no s) (remote_last_seq s)).
  assert (sendable s <= 0) as Hs.
  { unfold sendable. rewrite Hz. replace (Z.min _ 0) with 0 by lia.
    rewrite seq_dist_add_r, Z.add_0_r, wrap_small by apply seq_dist_range.
    rewrite seq_dist_opp. case_test; lia. }
  unfold ready_to_send. intros Hb. destruct (Z.eqb_spec (remote_last_seq s) (local_seq_no s)); [done|].
  rewrite andb_false_r in Hb. cbn [orb] in Hb.
  replace (wants_fin (state s)) with false in Hb by (by destruct Hst as [-> | ->]).
  rewrite orb_false_r in Hb. assert (sendable s = 0) as Hs0 by (unfold sendable in *; lia).
  rewrite Hs0 in Hb. by destruct (held_back s tp).
Qed.
End Decisions.

(** ** The packets *)

(** A payload is a slice of the transmit buffer at [off], within the window of
    the peer, its segment size and the MTU. *)
Definition data_ok (cx : Context) (s : Socket) (tp : Tuple) (off : Z) (data : list Z) : Prop :=
  data = slice (RingBuffer.contents (tx_buffer s)) (Z.to_nat off) (length data) /\
  (data <> [] -> off + Z.of_nat (length data) <= Z.min (zlen (tx_buffer s)) (remote_win_len s)) /\
  Z.of_nat (length data) <= mss_of cx s tp.

(** The control flag of a segment for the state, whose payload is [data]. *)
Definition control_ok (s : Socket) (off : Z) (data : list Z) (c : Control) : Prop :=
  match c with
  | Syn => (state s = SynSent \/ state s = SynReceived) /\ data = []
  | Fin => wants_fin (state s) = true /\ off + Z.of_nat (length data) = zlen (tx_buffer s)
  | Rst => state s = Closed /\ data = []
  | Psh => (state s = Established \/ state s = CloseWait) /\ data <> [] /\
           off + Z.of_nat (length data) = zlen (tx_buffer s)
  | ControlNone => state s <> Closed /\ state s <> SynSent /\ state s <> SynReceived /\
      (state s = FinWait2 \/ state s = TimeWait -> data = []) /\
      (wants_fin (state s) = true -> off + Z.of_nat (length data) <> zlen (tx_buffer s))
  end.

Definition carries_ack (s : Socket) (repr : TcpRepr) : Prop :=
  ack_number repr = if decide (state s = SynSent) then None else Some (rcv_nxt s).

Definition carries_window (s : Socket) (repr : TcpRepr) : Prop :=
  window_len repr = if decide (state s = SynSent \/ state s = SynReceived)
                    then Z.min (zwindow (rx_buffer s)) (2 ^ 16 - 1) else scaled_window s.

Section Packets.
Variable (t0 : Instant) (cx : Context).
Hypothesis Hclock : clock t0 cx.
Hypothesis Hmtu : 60 <= ip_mtu cx.
Variables (s : Socket) (tp : Tuple).
Hypothesis Hinv : sock_inv t0 s.
Hypothesis Htp : tuple s = Some tp.

Let off := seq_dist (local_seq_no s) (remote_last_seq s).

Lemma data_ok_nil : 1 <= remote_mss s -> data_ok cx s tp off [].
Proof. intros. split_and!; [done|done|]. unfold mss_of. cbn. header_lia. Qed.

Lemma get_tx_ok size :
  state s <> Closed -> state s <> Listen -> 0 <= size ->
  returns (RingBuffer.get_allocated (Z.to_nat off) (Z.to_nat size) (tx_buffer s)) (fun data =>
    data = slice (RingBuffer.contents (tx_buffer s)) (Z.to_nat off) (length data) /\
    Z.of_nat (length data) <= size /\ (data <> [] -> off + Z.of_nat (length data) <= zlen (tx_buffer s))).
Proof.
  intros Hst1 Hst2 Hs. destruct (si_tx _ _ Hinv) as [Hwf _].
  pose proof (si_flight _ _ Hinv Hst1 Hst2) as Hk. fold off in Hk. unfold zlen, RingBuffer.len in *.
  destruct (decide (Z.to_nat off <= rb_length (tx_buffer s))%nat) as [Ho|Ho].
  - destruct (get_allocated_ok (Z.to_nat off) (Z.to_nat size) (tx_buffer s) Hwf Ho) as (n & -> & Hn).
    assert (length (slice (RingBuffer.contents (tx_buffer s)) (Z.to_nat off) n) = n) as Hl.
    { rewrite length_slice, length_contents by done. lia. }
    cbn [returns]. rewrite Hl. split_and!; [done|lia|lia].
  - rewrite get_allocated_past by lia. by split_and!.
Qed.
(** The IP representation of outgoing packets. *)
Lemma ip_repr_ok :
  returns (IpRepr.new (ep_addr (local tp)) (ep_addr (remote tp)) Protocol.Tcp 0
    (default 64 (hop_limit s))) (fun ip => IpRepr.src_addr ip = ep_addr (local tp) /\
      IpRepr.dst_addr ip = ep_addr (remote tp) /\
      mtu_payload cx ip = Ret (ip_mtu cx - ip_header_len (ep_addr (local tp)) - TCP_HEADER_LEN)).
Proof.
  pose proof (si_tuple _ _ Hinv) as Ht. rewrite Htp in Ht. destruct Ht as [_ Hf].
  unfold same_family in Hf. unfold mtu_payload.
  destruct (ep_addr (local tp)), (ep_addr (remote tp)); try done; cbn [IpRepr.new returns];
    (split_and!; [done|done|]); change (IpRepr.header_len _) with 20%nat ||
      change (IpRepr.header_len _) with 40%nat;
    rewrite usub_Ret by lia; cbn [mbind outcome_bind]; apply usub_Ret;
    change TCP_HEADER_LEN with 20; cbn; lia.
Qed.

Definition data_control (data : list Z) : Control :=
  if off + Z.of_nat (length data) =? zlen (tx_buffer s) then
    match state s with
    | FinWait1 | LastAck | Closing => Fin
    | Established | CloseWait => if bool_decide (data = []) then ControlNone else Psh
    | _ => ControlNone
    end
  else ControlNone.

Lemma data_repr_ok ip r0 :
  mtu_payload cx ip = Ret (ip_mtu cx - ip_header_len (ep_addr (local tp)) - TCP_HEADER_LEN) ->
  control r0 = ControlNone -> state s <> Closed -> state s <> Listen -> state s <> SynSent ->
  state s <> SynReceived -> ~ (state s = FinWait2 \/ state s = TimeWait) ->
  returns (data_repr cx ip s r0) (fun r => exists data c,
    r = r0 <| payload := data |> <| control := c |> /\ data_ok cx s tp off data /\
    control_ok s off data c).
Proof.
  intros Hm Hc Hs1 Hs2 Hs3 Hs4 Hs5. unfold data_repr.
  destruct (si_peer _ _ Hinv) as (_ & Hwin & Hmss & _).
  pose proof (si_flight _ _ Hinv Hs1 Hs2) as Hk. fold off in Hk.
  rewrite seq_add_Ret by lia. cbn [mbind outcome_bind].
  fold_diff. rewrite guarded_diff_ok. cbn [mbind outcome_bind]. rewrite Hm. cbn [mbind outcome_bind].
  rewrite seq_diff_dist by (fold off; lia). fold off. cbn [mbind outcome_bind].
  assert (seq_dist (remote_last_seq s) (wrap_i 32 (local_seq_no s + remote_win_len s))
    = remote_win_len s - off) as ->.
  { pose proof (seq_dist_range (local_seq_no s) (remote_last_seq s)) as Hr. fold off in Hr.
    rewrite seq_dist_add_r, seq_dist_opp. fold off.
    rewrite (proj2 (Z.eqb_neq _ _)) by lia. rewrite wrap_small; lia. }
  set (size := Z.min (Z.min _ _) _).
  assert (0 <= size) as Hsize by (subst size; header_lia).
  apply returns_bind. eapply returns_mono; [|by apply get_tx_ok]. intros data (Hd & Hl & Hfit).
  cbn [returns]. assert (data_ok cx s tp off data) as Hdata.
  { split_and!; [done| |unfold mss_of; lia]. intros Hne. specialize (Hfit Hne).
    destruct data; [done|]. cbn [length] in *. lia. }
  assert (r0 <| payload := data |> = r0 <| payload := data |> <| control := ControlNone |>) as Heta.
  { destruct r0. cbn in Hc. by subst. }
  exists data, (data_control data). split_and!; [|done|].
  - unfold data_control. sock_simpl. destruct (_ =? _); [|done].
    destruct (state s); try done; by case_bool_decide.
  - unfold data_control, control_ok. destruct (Z.eqb_spec (off + Z.of_nat (length data)) (zlen (tx_buffer s))).
    + destruct (state s); try done; case_bool_decide; split_and!; auto.
    + by split_and!.
Qed.
(** The packet [build_packet] builds; [ka] tells a keep-alive. *)
Definition built (ip : IpRepr) (r : TcpRepr) (ka : bool) : Prop :=
  IpRepr.src_addr ip = ep_addr (local tp) /\ IpRepr.dst_addr ip = ep_addr (remote tp) /\
  src_port r = ep_port (local tp) /\ dst_port r = ep_port (remote tp) /\
  carries_ack s r /\ carries_window s r /\
  if ka then seq_number r = wrap_i 32 (remote_last_seq s - 1) /\ payload r = [0] /\
             control r = ControlNone
  else seq_number r = remote_last_seq s /\ data_ok cx s tp off (payload r) /\
       control_ok s off (payload r) (control r).

Lemma segment_repr_ok ip r0 :
  mtu_payload cx ip = Ret (ip_mtu cx - ip_header_len (ep_addr (local tp)) - TCP_HEADER_LEN) ->
  ack_repr tp s = Ret r0 ->
  returns (segment_repr cx ip s r0) (fun o => exists r, o = Some r /\
    src_port r = ep_port (local tp) /\ dst_port r = ep_port (remote tp) /\
    carries_ack s r /\ carries_window s r /\ seq_number r = remote_last_seq s /\
    data_ok cx s tp off (payload r) /\ control_ok s off (payload r) (control r)).
Proof.
  intros Hm. unfold ack_repr. rewrite (rcv_nxt_add t0) by done. cbn [mbind outcome_bind].
  intros [= <-]. destruct (si_peer _ _ Hinv) as (_ & _ & Hmss & _).
  pose proof (data_ok_nil ltac:(lia)) as Hnil.
  pose proof (si_tuple _ _ Hinv) as Ht. rewrite Htp in Ht. destruct Ht as [Hnl _].
  match goal with |- returns (segment_repr _ _ _ ?r) _ => set (r0 := r) end.
  assert (forall r c data, r = r0 <| payload := data |> <| control := c |> -> state s <> SynSent ->
    state s <> SynReceived -> data_ok cx s tp off data -> control_ok s off data c ->
    exists r', Some r = Some r' /\
    src_port r' = ep_port (local tp) /\ dst_port r' = ep_port (remote tp) /\
    carries_ack s r' /\ carries_window s r' /\ seq_number r' = remote_last_seq s /\
    data_ok cx s tp off (payload r') /\ control_ok s off (payload r') (control r')) as Hplain.
  { intros r c data -> Hs1 Hs2 Hd Hc. eexists. split; [done|]. unfold carries_ack, carries_window.
    rewrite !decide_False by tauto. by split_and!. }
  assert (state s <> Closed -> state s <> SynSent -> state s <> SynReceived ->
    ~ (state s = FinWait2 \/ state s = TimeWait) -> returns (r ← data_repr cx ip s r0; Ret (Some r)) (fun o => exists r, o = Some r /\
      src_port r = ep_port (local tp) /\ dst_port r = ep_port (remote tp) /\
      carries_ack s r /\ carries_window s r /\ seq_number r = remote_last_seq s /\
      data_ok cx s tp off (payload r) /\ control_ok s off (payload r) (control r))) as Hdata.
  { intros. apply returns_bind. eapply returns_mono; [|by apply (data_repr_ok ip)].
    intros r (data & c & Hr & Hd & Hc). by apply (Hplain r c data). }
  unfold segment_repr. destruct (state s) eqn:Est; try done; try (by apply Hdata; try done; intros []).
  - by apply (Hplain _ Rst []).
  - cbn [returns]. eexists. split; [done|]. unfold syn_repr, carries_ack, carries_window.
    rewrite Est. split_and!; auto. split; auto.
  - cbn [returns]. eexists. split; [done|]. unfold syn_repr, carries_ack, carries_window.
    rewrite Est. split_and!; auto. split; auto.
  - apply (Hplain _ ControlNone []); try done. by unfold control_ok; rewrite Est.
  - apply (Hplain _ ControlNone []); try done. by unfold control_ok; rewrite Est.
Qed.

Lemma keep_alive_repr_ok ip r :
  built ip r false ->
  returns (keep_alive_repr cx s r) (fun '(r', ka) => built ip r' ka /\
    (ka = true -> Timer.should_keep_alive (now cx) (timer s) = true)).
Proof.
  intros Hb. unfold keep_alive_repr.
  destruct (Timer.should_keep_alive (now cx) (timer s) && Repr.is_empty r) eqn:Hka; [|done].
  destruct Hb as (H1 & H2 & H4 & H5 & H6 & H7 & H8 & H9 & H10).
  apply andb_true_iff in Hka as [Hka He]. unfold seq_sub. rewrite (proj2 (Z.ltb_ge _ _)) by lia.
  cbn [mbind outcome_bind returns]. split; [|done]. unfold built. rewrite H8. unfold Repr.is_empty in He.
  destruct (payload r) eqn:Ep; [|done]. split_and!; try done.
  sock_simpl. destruct (control r); try done. by destruct H10 as (_ & ? & _).
Qed.

Lemma mss_repr_ok ip r ka :
  mtu_payload cx ip = Ret (ip_mtu cx - ip_header_len (ep_addr (local tp)) - TCP_HEADER_LEN) ->
  built ip r ka -> returns (mss_repr cx ip r) (fun r' => built ip r' ka).
Proof.
  intros Hm Hb. unfold mss_repr. case_bool_decide; [|done]. rewrite Hm. by destruct ka.
Qed.

Lemma build_packet_ok {E} (Q : IpRepr * TcpRepr * bool -> Socket -> Context -> Prop)
    (Qr : result unit E -> Socket -> Context -> Prop) :
  (forall ip r ka, built ip r ka -> IpRepr.payload_len ip = Repr.buffer_len r ->
     (ka = true -> Timer.should_keep_alive (now cx) (timer s) = true) -> Q (ip, r, ka) s cx) ->
  wp build_packet Q Qr s cx.
Proof.
  intros HQ. unfold build_packet. wp_steps. rewrite Htp. cbn [unwrap returns]. wp_steps.
  eapply returns_mono; [|apply ip_repr_ok]. intros ip (Hsrc & Hdst & Hm). wp_steps.
  destruct (ack_repr tp s) as [r0|] eqn:Hr0.
  2: { unfold ack_repr in Hr0. by rewrite (rcv_nxt_add t0) in Hr0. }
  cbn [returns]. wp_steps. eapply returns_mono; [|by apply (segment_repr_ok ip r0)].
  intros o (r & -> & ? & ? & ? & ? & ? & ? & ?). wp_steps.
  eapply returns_mono; [|apply (keep_alive_repr_ok ip r); by split_and!].
  intros [r1 ka] [Hb1 Hka]. wp_steps. eapply returns_mono; [|by apply (mss_repr_ok ip r1 ka)].
  intros r2 Hb2. wp_steps. apply HQ; [|by destruct ip|done].
  unfold built in *. destruct ip; done.
Qed.
End Packets.

(** ** The whole handler *)

Section Dispatch.
Context {E : Type}.
Variable (t0 : Instant) (cx : Context).
Hypothesis Hclock : clock t0 cx.
Hypothesis Hmtu : 60 <= ip_mtu cx.
Implicit Types (s : Socket).

(** What [dispatch] leaves alone, short of a reset. *)
Definition kept s s' : Prop :=
  rx_same s s' /\ tx_buffer s' = tx_buffer s /\ local_seq_no s' = local_seq_no s /\
  remote_win_len s' = remote_win_len s /\ remote_mss s' = remote_mss s.

(** The timers may close the socket or rewind it to the first unacknowledged
    octet. *)
Definition timers_step s s' : Prop :=
  sock_inv t0 s' /\ kept s s' /\ tuple s' = tuple s /\
  (state s' = Closed \/ state s' = state s) /\
  (remote_last_seq s' = remote_last_seq s \/ remote_last_seq s' = local_seq_no s) /\
  (timer s' = timer s \/ exists k, map_add (now cx) (keep_alive s) = Ret k /\ timer s' = TimerIdle k).

Lemma closed_inv s : sock_inv t0 s -> sock_inv t0 (set_state Closed s).
Proof.
  intros []. constructor; try done.
  - sock_simpl. destruct (tuple s) as [t|]; [|by left]. by destruct si_tuple.
  - by intros [|[|]].
Qed.

Lemma map_add_ok o : duration_ok o -> exists k, map_add (now cx) o = Ret k /\ timer_ok (TimerIdle k).
Proof.
  intros Ho. destruct Hclock as [_ Hnow]. destruct o as [d|]; cbn in *.
  - rewrite time_add_ok by done. eexists. split; [done|]. cbn. unfold TIME_MAX in *. lia.
  - by exists None.
Qed.

Lemma should_retransmit_ok s :
  timer_ok (timer s) -> exists o, Timer.should_retransmit (now cx) (timer s) = Ret o /\
    (is_Some o -> Timer.is_retransmit (timer s) = true).
Proof.
  intros Ht. destruct Hclock as [_ Hnow]. unfold timer_ok, TIME_MAX in *.
  destruct (timer s) as [k|e d| |e]; cbn -[Z.leb] in *; eauto.
  - exists None. by split; [|intros []].
  - case_test; [|exists None; by split; [|intros []]]. rewrite instant_diff_ok by lia.
    cbn [mbind outcome_bind]. unfold Duration.add. rewrite uadd_Ret by lia. cbn. eauto.
  - exists None. by split; [|intros []].
Qed.

(** Rewinding to the first unacknowledged octet. *)
Lemma rewind_inv s k r cc :
  sock_inv t0 s -> timer_ok (TimerIdle k) -> rtte_wf r -> timestamp r = None ->
  sock_inv t0 (s <| remote_last_seq := local_seq_no s |> <| timer := TimerIdle k |> <| rtte := r |>
                 <| congestion_controller := cc |>).
Proof.
  intros [] Hk Hr Hts. constructor; try done.
  - by destruct si_seq as (? & ? & ?).
  - intros ? ?. sock_simpl. rewrite seq_dist_self. destruct si_tx as [Hwf _].
    pose proof (zlen_bounds _ Hwf). pose proof (control_len_range (state s)). lia.
  - split; [done|]. unfold rtte_sampling_since. sock_simpl. by rewrite Hts.
  - intros Hst. destruct (si_handshake Hst) as (? & ? & ? & ? & _). split_and!; try done.
    intros _. sock_simpl. rewrite seq_dist_self. by split.
Qed.

Lemma check_timers_ok s tp (Q : unit -> Socket -> Context -> Prop)
    (Qr : result unit E -> Socket -> Context -> Prop) :
  sock_inv t0 s -> tuple s = Some tp -> (forall s', timers_step s s' -> Q () s' cx) ->
  wp check_timers Q Qr s cx.
Proof.
  intros Hinv Htp HQ.
  assert (Q () s cx) as HQ0 by (apply HQ; split_and!; auto; done).
  unfold check_timers. wp_steps.
  destruct (timed_out_ok t0 cx s Hinv) as [b ->]. cbn [returns]. destruct b.
  { wp_steps. apply HQ. split_and!; auto; [by apply closed_inv|done]. }
  wp_steps. rewrite (seq_to_transmit_ok cx Hmtu s tp) by (done || apply Hinv). cbn [returns].
  destruct (ready_to_send cx s tp); [by wp_steps|]. wp_steps.
  destruct (should_retransmit_ok s (si_timer _ _ Hinv)) as (o & -> & Ho). cbn [returns].
  destruct o as [d|]; [|by wp_steps]. wp_steps. unfold Timer.set_for_idle.
  destruct (map_add_ok (keep_alive s)) as (k & Ek & Hk); [apply (si_durations _ _ Hinv)|].
  rewrite Ek. cbn [mbind outcome_bind returns]. wp_steps.
  destruct (si_rtte _ _ Hinv) as [Hr _].
  eapply returns_mono; [|by apply rtte_on_retransmit_wf]. intros r [Hr' Hts]. wp_steps.
  apply HQ. pose proof (rewind_inv s k r (Congestion.on_retransmit (now cx) (congestion_controller s))
    Hinv Hk Hr' Hts) as Hi.
  split_and!; auto; [done|]. right. by exists k.
Qed.

(** A SYN that was sent leaves nothing to send until its timer expires. *)
Lemma syn_sent_silent s :
  sock_inv t0 s -> state s = SynSent \/ state s = SynReceived ->
  remote_last_seq s <> local_seq_no s ->
  match remote_last_ack s with Some last => seq_lt last (rcv_nxt s) | None => false end = false /\
  window_to_update s = false /\ Timer.should_keep_alive (now cx) (timer s) = false.
Proof.
  intros [] Hst Hk. destruct si_seq as (Hl & Hq & Hr).
  assert (seq_dist (local_seq_no s) (remote_last_seq s) <> 0) as Hd
    by (rewrite seq_dist_0 by done; congruence).
  destruct (si_handshake ltac:(tauto)) as (Hz & _ & _ & _ & Hx).
  destruct (Hx ltac:(destruct Hst; congruence)) as [_ Hy]. destruct (Hy Hd) as (Ht & Hw & Ha).
  split_and!.
  - destruct Ha as [-> | ->]; [done|]. rewrite seq_lt_dist. unfold rcv_nxt. rewrite Hz, Z.add_0_r.
    rewrite (seq_at_id (remote_seq_no s) Hq : wrap_i 32 (remote_seq_no s) = _), seq_dist_self. done.
  - unfold window_to_update. destruct Hst as [-> | ->]; lia.
  - by destruct (timer s) as [[]| | |].
Qed.

(** When [decide_to_send] goes on, a SYN has not been sent yet. *)
Lemma decide_to_send_ok s tp (Q : unit -> Socket -> Context -> Prop)
    (Qr : result unit E -> Socket -> Context -> Prop) :
  sock_inv t0 s -> tuple s = Some tp ->
  ((state s = SynSent \/ state s = SynReceived -> remote_last_seq s = local_seq_no s) -> Q () s cx) ->
  (Qr (Ok ()) s cx) -> (forall s', reset s = Ret s' -> Qr (Ok ()) s' cx) ->
  wp decide_to_send Q Qr s cx.
Proof.
  intros Hinv Htp HQ HQr Hreset. unfold decide_to_send. wp_steps.
  rewrite (seq_to_transmit_ok cx Hmtu s tp) by (done || apply Hinv). cbn [returns].
  destruct (ready_to_send cx s tp) eqn:Hready.
  { wp_steps. apply HQ. intros Hst. destruct Hinv, si_peer as (_ & ? & _).
    apply (ready_in_handshake cx s tp); try done; [by apply si_handshake; tauto|lia|].
    apply si_flight; destruct Hst; congruence. }
  wp_steps. rewrite ack_to_transmit_ok by apply Hinv. cbn [returns].
  set (ack := match remote_last_ack s with Some _ => _ | None => _ end).
  assert ((state s = SynSent \/ state s = SynReceived) /\ remote_last_seq s <> local_seq_no s ->
    ack = false /\ window_to_update s = false /\
    Timer.should_keep_alive (now cx) (timer s) = false) as Hsil.
  { intros []. by apply syn_sent_silent. }
  assert (ack = true \/ window_to_update s = true \/ Timer.should_keep_alive (now cx) (timer s) = true \/
    state s = Closed -> Q () s cx) as Hgo.
  { intros Hr. apply HQ. intros Hst. destruct (Z.eq_dec (remote_last_seq s) (local_seq_no s)); [done|].
    destruct (Hsil ltac:(done)) as (? & ? & ?). destruct Hr as [|[|[|]]], Hst; congruence. }
  destruct ack; cbn [andb]; [apply wp_if; intros _; [wp_steps; auto|]|].
  all: apply wp_if; intros Hw; [wp_steps; apply andb_true_iff in Hw as [? _]; auto|].
  all: case_bool_decide; [wp_steps; auto|].
  all: apply wp_if; intros Hka; [wp_steps; auto|].
  all: apply wp_if; intros Hc; wp_steps; auto.
  all: destruct (reset s) as [s'|] eqn:Hrs; [cbn [returns]; wp_steps; auto|].
  all: pose proof (socket_reset_ok t0 s Hinv) as Hx; by rewrite Hrs in Hx.
Qed.

(** The position of the next octet after a packet. *)
Lemma sent_advance c s tp ip r :
  sock_inv t0 s -> state s <> Closed -> state s <> Listen -> built c s tp ip r false ->
  (state s = SynSent \/ state s = SynReceived -> remote_last_seq s = local_seq_no s) ->
  let k := seq_dist (local_seq_no s) (remote_last_seq s) + Z.of_nat (Repr.segment_len r) in
  0 <= k <= zlen (tx_buffer s) + control_len (state s) /\
  seq_dist (local_seq_no s) (wrap_i 32 (remote_last_seq s + Z.of_nat (Repr.segment_len r))) = k.
Proof.
  intros Hinv Hc Hl Hb Hsyn k. subst k. destruct Hb as (_ & _ & _ & _ & _ & _ & _ & (_ & Hfit & _) & Hctl).
  pose proof (si_flight _ _ Hinv Hc Hl) as Hk. set (off := seq_dist _ (remote_last_seq s)) in *.
  destruct (si_tx _ _ Hinv) as [Hwf Hcap]. pose proof (zlen_bounds _ Hwf).
  pose proof (control_len_range (state s)).
  assert (0 <= off + Z.of_nat (Repr.segment_len r) <= zlen (tx_buffer s) + control_len (state s)) as Hb.
  { unfold Repr.segment_len. destruct (payload r) as [|x xs] eqn:Ep; cbn [length] in *.
    - destruct (control r); cbn [Control.len] in *; try lia.
      + destruct Hctl as [Hst _]. subst off. rewrite Hsyn, seq_dist_self by done.
        destruct Hst as [-> | ->]; cbn; lia.
      + destruct Hctl as [Hw He]; cbn [length] in He. destruct (state s); try done; cbn; lia.
    - specialize (Hfit ltac:(done)). destruct (control r); cbn [Control.len] in *; try lia.
      + by destruct Hctl as [_ ?].
      + destruct Hctl as [Hw He]; cbn [length] in He. destruct (state s); try done; cbn; lia. }
  split; [done|]. rewrite seq_dist_add_r. fold off. apply wrap_small. lia.
Qed.

(** The timer after something was sent. *)
Lemma set_for_retransmit_ok t delay :
  timer_ok t -> 0 <= delay <= TIME_MAX ->
  returns (Timer.set_for_retransmit (now cx) delay t) (fun t' => timer_ok t' /\
    match t with
    | TimerIdle _ | TimerRetransmit _ _ => exists e d, t' = TimerRetransmit e d
    | _ => True
    end).
Proof.
  intros Ht Hd. destruct Hclock as [_ Hnow]. unfold TIME_MAX in *.
  destruct t as [k|e d| |e]; cbn -[Z.leb]; eauto.
  - rewrite time_add_ok by done. cbn. unfold TIME_MAX. split; [lia|eauto].
  - destruct Ht. case_test; [|cbn; eauto]. rewrite time_add_ok by (unfold TIME_MAX; lia).
    cbn [mbind outcome_bind]. unfold Duration.mul. rewrite umul_Ret by lia. cbn. unfold TIME_MAX. split; [lia|eauto].
  - rewrite time_add_ok by done. cbn. unfold TIME_MAX. split; [lia|eauto].
Qed.

(** The bookkeeping of [note_sent] before the timer is set. *)
Definition sent s (r : TcpRepr) rt cc : Socket :=
  s <| remote_last_seq := wrap_i 32 (seq_number r + Z.of_nat (Repr.segment_len r)) |>
    <| remote_last_ack := ack_number r |> <| remote_last_win := window_len r |>
    <| rtte := rt |> <| congestion_controller := cc |>.

Lemma sent_window s : 0 <= remote_win_shift s ->
  scaled_window s <= Z.min (zwindow (rx_buffer s)) (2 ^ 16 - 1).
Proof.
  intros Hs. unfold scaled_window. pose proof (zwindow_nonneg (rx_buffer s)) as Hw.
  assert (Z.shiftr (zwindow (rx_buffer s)) (remote_win_shift s) <= zwindow (rx_buffer s)); [|lia].
  rewrite Z.shiftr_div_pow2 by done. apply Z.div_le_upper_bound; nia.
Qed.

Lemma sent_inv c s tp ip r rt cc t :
  sock_inv t0 s -> tuple s = Some tp -> state s <> Closed -> built c s tp ip r false ->
  (state s = SynSent \/ state s = SynReceived -> remote_last_seq s = local_seq_no s) ->
  rtte_wf rt -> rtte_sampling_since t0 rt -> timer_ok t ->
  (state s = SynSent \/ state s = SynReceived -> exists e d, t = TimerRetransmit e d) ->
  sock_inv t0 ((sent s r rt cc) <| timer := t |>).
Proof.
  intros Hinv Htp Hc Hb Hsyn Hrt Hsince Ht Hretr. pose proof Hinv as [].
  rewrite Htp in si_tuple. destruct si_tuple as [Hl Hfam].
  destruct (sent_advance c s tp ip r Hinv Hc Hl Hb Hsyn) as [Hk Hd].
  destruct Hb as (_ & _ & _ & _ & Hack & Hwin & Hseq & _).
  constructor; try done; unfold sent; sock_simpl; rewrite ?Hseq.
  - destruct si_seq as (? & ? & ?). split_and!; try done. apply wrap_range.
  - intros _ _. by rewrite Hd.
  - by rewrite Htp.
  - intros Hst. destruct (si_handshake Hst) as (Hz & ? & ? & ? & _). split_and!; try done.
    intros _. assert (state s = SynSent \/ state s = SynReceived) as Hst' by tauto.
    destruct (Hretr Hst') as (e & d & Hed). sock_simpl. rewrite Hed. split; [done|]. intros _.
    split_and!; [done| |].
    + unfold carries_window in Hwin. rewrite Hwin, decide_True by done.
      apply (sent_window s). apply si_peer.
    + unfold carries_ack in Hack. rewrite Hack. case_decide; [by left|right].
      unfold rcv_nxt. rewrite Hz, Z.add_0_r. f_equal. apply (seq_at_id (remote_seq_no s)), si_seq.
Qed.

Lemma sent_closed_inv s r rt cc t :
  sock_inv t0 s -> state s = Closed -> rtte_wf rt -> rtte_sampling_since t0 rt -> timer_ok t ->
  sock_inv t0 (wake_tx ((sent s r rt cc) <| timer := t |> <| tuple := None |>)).
Proof.
  intros [] Hc Hrt Hsince Ht.
  constructor; try done; unfold sent; sock_simpl.
  - destruct si_seq as (? & ? & ?). split_and!; try done. apply wrap_range.
  - by left.
  - unfold handshake. sock_simpl. rewrite Hc. by intros [|[|]].
Qed.

Lemma rtte_on_send_since seq r :
  rtte_sampling_since t0 r -> rtte_sampling_since t0 (RttEstimator.on_send (now cx) seq r).
Proof.
  destruct Hclock as [Hepoch _]. unfold RttEstimator.on_send, rtte_sampling_since.
  intros. repeat case_match; cbn in *; simplify_eq; done.
Qed.

Lemma built_len c s tp ip r :
  sock_inv t0 s -> built c s tp ip r false -> Z.of_nat (Repr.segment_len r) <= 65536.
Proof.
  intros [] (_ & _ & _ & _ & _ & _ & _ & (_ & _ & Hm) & _). destruct si_peer as (_ & _ & ? & _).
  unfold mss_of in Hm. unfold Repr.segment_len. destruct (control r); cbn [Control.len]; lia.
Qed.

Lemma sent_is_syn c s tp ip r :
  built c s tp ip r false -> state s = SynSent \/ state s = SynReceived ->
  control r = Syn /\ payload r = [].
Proof.
  intros (_ & _ & _ & _ & _ & _ & _ & _ & Hctl) Hst.
  unfold control_ok in Hctl. destruct (control r); destruct Hst as [Hst|Hst]; rewrite Hst in Hctl; try tauto;
    destruct Hctl as [Hctl _]; try done; by destruct Hctl.
Qed.

(** The timer a packet with sequence space leaves. *)
Lemma note_timer_ok c s tp ip r rt cc (k : M (result unit E) unit) (Q : unit -> Socket -> Context -> Prop)
    (Qr : result unit E -> Socket -> Context -> Prop) :
  sock_inv t0 s -> tuple s = Some tp -> built c s tp ip r false ->
  (state s = SynSent \/ state s = SynReceived -> remote_last_seq s = local_seq_no s) ->
  rtte_wf rt ->
  (forall t, timer_ok t ->
    (state s = SynSent \/ state s = SynReceived -> exists e d, t = TimerRetransmit e d) ->
    wp k Q Qr ((sent s r rt cc) <| timer := t |>) cx) ->
  wp (s ← get;
      ready ← lift (seq_to_transmit cx s);
      _ ← (if negb ready && (0 <? Z.of_nat (Repr.segment_len r)) then
             delay ← lift (RttEstimator.retransmission_timeout (rtte s));
             t ← lift (Timer.set_for_retransmit (now cx) delay (timer s));
             modify (fun s => s <| timer := t |>)
           else mret ());
      k) Q Qr (sent s r rt cc) cx.
Proof.
  intros Hinv Htp Hb Hsyn Hrt HQ. wp_steps.
  rewrite (seq_to_transmit_ok cx Hmtu (sent s r rt cc) tp) by (done || apply Hinv). cbn [returns].
  assert (state s = SynSent \/ state s = SynReceived ->
    (0 <? Z.of_nat (Repr.segment_len r)) = true /\ ready_to_send cx (sent s r rt cc) tp = false) as Hhs.
  { intros Hst. destruct (sent_is_syn c s tp ip r Hb Hst) as [Hc Hp].
    assert (Repr.segment_len r = 1%nat) as Hlen by (unfold Repr.segment_len; by rewrite Hc, Hp).
    assert (state s <> Closed /\ state s <> Listen) as [] by (destruct Hst; split; congruence).
    destruct (sent_advance c s tp ip r) as [Hk Hd]; try done. rewrite Hlen in *.
    rewrite (Hsyn Hst), seq_dist_self in *.
    destruct Hb as (_ & _ & _ & _ & _ & _ & Hseq & _). destruct Hinv.
    split; [done|]. apply not_true_is_false. intros Hr.
    apply ready_in_handshake in Hr; [|done|by apply si_handshake; tauto|apply si_peer|].
    all: revert Hr || idtac; unfold sent; sock_simpl; rewrite Hlen, Hseq, (Hsyn Hst).
    - intros Hr. rewrite Hr, seq_dist_self in Hd. done.
    - lia. }
  destruct (negb _ && _) eqn:Hset; wp_steps.
  - eapply returns_mono; [|by apply retransmission_timeout_range].
    unfold RTTE_MIN_RTO, RTTE_MAX_RTO. intros delay Hdelay. wp_steps.
    eapply returns_mono; [|apply set_for_retransmit_ok; [apply Hinv|unfold TIME_MAX; lia]].
    intros t [Ht Hk]. wp_steps. apply HQ; [done|]. intros Hst.
    destruct (si_handshake _ _ Hinv ltac:(tauto)) as (_ & _ & _ & _ & Hx).
    destruct (Hx ltac:(destruct Hst; congruence)) as [Hi _]. cbn in Hk. by destruct (timer s).
  - assert (sent s r rt cc = (sent s r rt cc) <| timer := timer s |>) as -> by by destruct s.
    apply HQ; [apply Hinv|]. intros Hst. destruct (Hhs Hst) as [H1 H2]. by rewrite H1, H2 in Hset.
Qed.

Lemma note_sent_ok c s tp ip r (Q : unit -> Socket -> Context -> Prop)
    (Qr : result unit E -> Socket -> Context -> Prop) :
  sock_inv t0 s -> tuple s = Some tp -> built c s tp ip r false ->
  (state s = SynSent \/ state s = SynReceived -> remote_last_seq s = local_seq_no s) ->
  (forall s', sock_inv t0 s' -> kept s s' -> state s' = state s ->
     tuple s' = (if decide (state s = Closed) then None else Some tp) ->
     remote_last_seq s' = wrap_i 32 (seq_number r + Z.of_nat (Repr.segment_len r)) -> Q () s' cx) ->
  wp (note_sent r) Q Qr s cx.
Proof.
  intros Hinv Htp Hb Hsyn HQ. unfold note_sent. wp_steps.
  pose proof (built_len c s tp ip r Hinv Hb). rewrite seq_add_Ret by lia. cbn [returns]. wp_steps.
  match goal with |- wp _ (fun _ => ?T) _ _ _ => set (tail := T) end.
  assert (forall rt cc, rtte_wf rt -> rtte_sampling_since t0 rt -> tail (sent s r rt cc) cx) as Htail.
  { intros rt cc Hrt Hsince. subst tail. cbv beta. apply (note_timer_ok c s tp ip r rt cc); try done.
    intros t Ht Hretr. wp_steps. case_bool_decide as Hc; wp_steps; apply HQ;
      [|by split_and!|done| |done| |by split_and!|done| |done].
    - by apply sent_closed_inv.
    - by rewrite decide_True.
    - by apply (sent_inv c s tp ip r).
    - by rewrite decide_False. }
  destruct (si_rtte _ _ Hinv) as [Hrt Hsince]. apply wp_if; intros _; wp_steps.
  - set (rt := RttEstimator.on_send (now cx)
      (wrap_i 32 (seq_number r + Z.of_nat (Repr.segment_len r))) (rtte s)).
    set (cc := Congestion.post_transmit (now cx) (Z.to_N (Z.of_nat (Repr.segment_len r)))
      (congestion_controller s)).
    apply (eq_ind_r (fun s => tail s cx) (x := sent s r rt cc)).
    { by apply Htail; [apply rtte_on_send_wf|apply rtte_on_send_since]. }
    subst rt cc. unfold sent. clear. destruct s. sock_eval. reflexivity.
  - replace (_ <| remote_last_seq := _ |> <| remote_last_ack := _ |> <| remote_last_win := _ |>)
      with (sent s r (rtte s) (congestion_controller s)) by by destruct s.
    by apply Htail.
Qed.

(** A packet [dispatch] may hand to the device in the state [s]. *)
Definition emitted s (p : packet) : Prop :=
  exists s' tp ka, timers_step s s' /\ tuple s = Some tp /\ built cx s' tp p.1 p.2 ka /\
    (ka = true -> Timer.should_keep_alive (now cx) (timer s') = true) /\
    IpRepr.payload_len p.1 = Repr.buffer_len p.2 /\
    (state s' = SynSent \/ state s' = SynReceived -> remote_last_seq s' = local_seq_no s').

(** A socket without a connection and with empty buffers. *)
Definition fresh s : Prop :=
  state s = Closed /\ tuple s = None /\ zlen (rx_buffer s) = 0 /\ zlen (tx_buffer s) = 0 /\
  rx_fin_received s = false /\ Assembler.span (assembler s) = 0%nat.

Definition dispatch_post s s' : Prop :=
  sock_inv t0 s' /\ (kept s s' /\ (state s' = Closed \/ state s' = state s) \/ fresh s').

Lemma rewind_keep_alive_ok s :
  timer_ok (timer s) -> duration_ok (keep_alive s) ->
  returns (Timer.rewind_keep_alive (now cx) (keep_alive s) (timer s)) (fun t => timer_ok t /\
    match timer s with TimerIdle _ => exists k, t = TimerIdle k | _ => t = timer s end).
Proof.
  intros Ht Hd. destruct (timer s) as [k| | |]; try done.
  destruct (map_add_ok _ Hd) as (k' & Hk & ?). cbn. rewrite Hk. cbn. eauto.
Qed.

(** The keep-alive timer and the delayed ACK do not matter to the invariant. *)
Lemma rewound_inv s t a :
  sock_inv t0 s -> timer_ok t ->
  match timer s with TimerIdle _ => exists k, t = TimerIdle k | _ => t = timer s end ->
  sock_inv t0 (s <| timer := t |> <| ack_delay_timer := a |>).
Proof.
  intros [] Ht Hk. constructor; try done.
  unfold handshake. sock_simpl. intros Hst. destruct (si_handshake Hst) as (? & ? & ? & ? & Hx).
  split_and!; try done. intros Hl. destruct (Hx Hl) as [Hi Hy].
  destruct (timer s) as [k|e d| |e]; try done.
  - destruct Hk as [k' ->]. split; [done|]. intros Hd. by destruct (Hy Hd).
  - by subst t.
Qed.
End Dispatch.

Section Handler.
Context {E : Type}.
Variable (emit : Context -> packet -> outcome (Context * result unit E)).
(** What is known of an error the device reports. *)
Variable (refused : E -> Prop).
Variable (t0 : Instant) (cx : Context).
Hypothesis Hclock : clock t0 cx.
Hypothesis Hmtu : 60 <= ip_mtu cx.
Implicit Types (s : Socket).

Definition device_ok (res : result unit E) : Prop :=
  match res with Ok _ => True | Err e => refused e end.

Lemma kept_refl s : kept s s.
Proof. by split_and!. Qed.

Lemma kept_trans s1 s2 s3 : kept s1 s2 -> kept s2 s3 -> kept s1 s3.
Proof.
  intros ((?&?&?&?)&?&?&?&?) ((?&?&?&?)&?&?&?&?). split_and!; [split_and!| | | |]; etrans; eauto.
Qed.

(** Before the timers are checked. *)
Lemma start_inv s ts cc :
  sock_inv t0 s -> instant_ok ts ->
  sock_inv t0 (s <| remote_last_ts := ts |> <| congestion_controller := cc |>).
Proof. intros [] Hts. by constructor. Qed.

(** Once the packet is built. *)
Lemma emit_packet_ok s0 s tp ip r ka (Q : result unit E -> Socket -> Context -> Prop) :
  sock_inv t0 s -> tuple s = Some tp -> built cx s tp ip r ka ->
  (state s = SynSent \/ state s = SynReceived -> remote_last_seq s = local_seq_no s) ->
  kept s0 s -> (state s = Closed \/ state s = state s0) ->
  returns (emit cx (ip, r)) (fun '(cx', res) => same_clock cx cx' /\ device_ok res) ->
  (forall res s' cx', device_ok res -> dispatch_post t0 s0 s' -> same_clock cx cx' -> Q res s' cx') ->
  wp ('(cx, sent) ← lift (emit cx (ip, r));
      _ ← set_cx cx;
      match sent with
      | Err e => early (Err e)
      | Ok _ =>
          s ← get;
          t ← lift (Timer.rewind_keep_alive (now cx) (keep_alive s) (timer s));
          _ ← modify (fun s => s <| timer := t |>);
          _ ← modify (fun s => s <| ack_delay_timer := AckIdle |>);
          if ka : bool then early (Ok ()) else
          _ ← note_sent r;
          mret (Ok ())
      end) Q Q s cx.
Proof.
  intros Hinv Htp Hb Hsyn Hkept Hst Hemit HQ. wp_steps. eapply returns_mono; [|exact Hemit].
  intros [cx' res] [Hcx Hres]. wp_steps. destruct res as [|e].
  2: { wp_steps. apply HQ; [done| |done]. split; [done|]. by left. }
  wp_steps. destruct Hcx as [Hnow Hm].
  assert (clock t0 cx') as Hclock' by (unfold clock; by rewrite Hnow).
  assert (60 <= ip_mtu cx') as Hmtu' by (by rewrite Hm).
  destruct (si_durations _ _ Hinv) as (_ & Hka & _).
  eapply returns_mono; [|by apply (rewind_keep_alive_ok t0 cx'); [|apply Hinv|]].
  intros t [Ht Hk]. wp_steps. pose proof (rewound_inv t0 s t AckIdle Hinv Ht Hk) as Hinv'.
  destruct ka; wp_steps.
  { apply HQ; [done| |done]. split; [done|]. by left. }
  apply (note_sent_ok t0 cx' Hclock' Hmtu' cx _ tp ip r); try done.
  intros s' Hs' Hk' Est _ _. wp_steps. apply HQ; [done| |done]. split; [done|]. left. split.
  - eapply kept_trans; [exact Hkept|]. exact Hk'.
  - by rewrite Est.
Qed.

Lemma checked_ok s s1 tp (Q : result unit E -> Socket -> Context -> Prop) :
  sock_inv t0 s1 -> tuple s = Some tp -> (forall s', timers_step t0 cx s1 s' -> timers_step t0 cx s s') ->
  tuple s1 = Some tp ->
  (forall p, emitted t0 cx s p -> returns (emit cx p) (fun '(cx', res) => same_clock cx cx' /\ device_ok res)) ->
  (forall res s' cx', device_ok res -> dispatch_post t0 s s' -> same_clock cx cx' -> Q res s' cx') ->
  wp (_ ← check_timers;
      _ ← decide_to_send;
      '(ip_repr, repr, is_keep_alive) ← build_packet;
      cx ← get_cx;
      '(cx, sent) ← lift (emit cx (ip_repr, repr));
      _ ← set_cx cx;
      match sent with
      | Err e => early (Err e)
      | Ok _ =>
          s ← get;
          t ← lift (Timer.rewind_keep_alive (now cx) (keep_alive s) (timer s));
          _ ← modify (fun s => s <| timer := t |>);
          _ ← modify (fun s => s <| ack_delay_timer := AckIdle |>);
          if is_keep_alive : bool then early (Ok ()) else
          _ ← note_sent repr;
          mret (Ok ())
      end) Q Q s1 cx.
Proof.
  intros Hinv Htp Hstep Htp1 Hemit HQ. wp_steps. apply (check_timers_ok t0 cx Hclock Hmtu _ tp); try done.
  intros s2 H12. specialize (Hstep _ H12). pose proof Hstep as (Hinv2 & Hkept & Etp & Hst & _).
  rewrite Htp in Etp. assert (same_clock cx cx) as Hcx by done.
  wp_steps. apply (decide_to_send_ok t0 cx Hmtu _ tp); try done.
  - intros Hsyn. wp_steps. apply (build_packet_ok t0 cx Hmtu s2 tp); try done.
    intros ip r ka Hb Hlen Hka. wp_step. wp_step. cbv beta. apply (emit_packet_ok s s2 tp); try done.
    apply Hemit. by exists s2, tp, ka.
  - apply HQ; [done| |done]. split; [done|]. by left.
  - intros s' Hr. pose proof (socket_reset_ok t0 s2 Hinv2) as Hx. rewrite Hr in Hx.
    destruct Hx as (? & ? & ? & ? & ? & ? & ? & _). apply HQ; [done| |done]. split; [done|]. by right.
Qed.

Lemma dispatch_ok s :
  sock_inv t0 s ->
  (forall p, emitted t0 cx s p -> returns (emit cx p) (fun '(cx', res) => same_clock cx cx' /\ device_ok res)) ->
  returns (dispatch emit s cx) (fun '(s', cx', res) =>
    dispatch_post t0 s s' /\ same_clock cx cx' /\ device_ok res).
Proof.
  intros Hinv Hemit. unfold dispatch. apply wp_run. unfold dispatch_body. wp_steps.
  case_bool_decide as Htp; wp_steps.
  { split; [|by split]. split; [done|]. left. split; [apply kept_refl|by right]. }
  destruct (tuple s) as [tp|] eqn:Et; [|done].
  match goal with |- wp _ (fun _ => ?T) _ _ _ => set (tail := T) end.
  assert (forall ts, instant_ok ts -> tail (s <| remote_last_ts := ts |>) cx) as Htail.
  { intros ts Hts. subst tail. cbv beta. wp_step. wp_step. cbv beta.
    apply (checked_ok s _ tp); try done. by apply start_inv. }
  clearbody tail. case_bool_decide; wp_steps.
  - apply Htail. apply Hclock.
  - replace s with (s <| remote_last_ts := remote_last_ts s |>) by by destruct s.
    apply Htail, Hinv.
Qed.
End Handler.
