(* ===== verification/TcpRun.v ===== *)
(** * Runs of a TCP socket

    The calls of the application preserve the invariant of the socket; so do
    the segments that arrive and the dispatches of the interface. A run is a
    list of such events, in any order. *)

From S2P Require Import Prelude RingBuffer Assembler Time SeqNumber Phy Ip LinkLayer TcpWire TcpTimers.
From S2P Require Import Congestion Context TcpSocket TcpLogic TcpSegment TcpProcess.
From S2P Require Import TcpTransitions TcpDispatch.
Open Scope Z_scope.

(** ** The calls of the application *)

Section Calls.
Variable (t0 : Instant).
Implicit Types (s : Socket).

Lemma new_ok n cc rx tx :
  (0 < n)%nat -> RingBuffer.wf rx -> zlen rx = 0 -> zcapacity rx <= 2 ^ 30 -> tx_ok tx -> zlen tx = 0 ->
  returns (new n cc rx tx) (fun s => sock_inv t0 s /\ fresh s).
Proof.
  intros Hn Hrx Hrl Hc Htx Htl. unfold new. rewrite (proj2 (Z.ltb_ge _ _)) by done.
  change (Instant.from_secs 0) with (Ret 0). cbn [mbind outcome_bind returns].
  assert (Assembler.span (Assembler.new n) = 0%nat) as Hspan by apply span_empties.
  split; [|by split_and!]. constructor; try done; sock_simpl.
  - split_and!; try done; [by apply asm_new_wf|]. rewrite Hspan. lia.
  - by left.
  - pose proof (win_shift_range _ Hc). unfold peer_ok, DEFAULT_MSS. split_and!; try done; lia.
Qed.

Lemma set_state_closed_inv s : sock_inv t0 s -> sock_inv t0 (set_state Closed s).
Proof. apply closed_inv. Qed.

Lemma close_inv s : sock_inv t0 s -> sock_inv t0 (close s).
Proof.
  intros Hinv. unfold close.
  assert (forall st, state s <> Closed -> state s <> Listen ->
    control_len (state s) <= control_len st ->
    st = FinWait1 \/ st = LastAck -> sock_inv t0 (set_state st s)) as Hmove.
  { intros st H1 H2 Hc Hst. destruct Hinv. constructor; try done; sock_simpl.
    - intros _ _. specialize (si_flight H1 H2). lia.
    - destruct (tuple s) as [tp|]; [|by destruct si_tuple]. destruct si_tuple.
      split; [|done]. by destruct Hst as [-> | ->].
    - unfold handshake. sock_simpl. by destruct Hst as [-> | ->]; intros [|[|]]. }
  destruct (state s) eqn:Hst; try done; try by apply closed_inv.
  all: apply Hmove; auto; cbn; lia.
Qed.

Lemma abort_inv s : sock_inv t0 s -> sock_inv t0 (abort s).
Proof. apply closed_inv. Qed.

Lemma listen_ok e s :
  sock_inv t0 s -> returns (listen e s) (fun '(s', r) => sock_inv t0 s' /\
    match r with
    | Ok _ => s' = s \/ is_open s = false /\ state s' = Listen /\ zlen (rx_buffer s') = 0
    | Err _ => s' = s
    end).
Proof.
  intros Hinv. unfold listen. case_test; [done|].
  destruct (is_open s) eqn:Ho; [case_match; (split; [done|auto])|].
  apply returns_bind. eapply returns_mono; [|by apply socket_reset_ok].
  intros s' ([] & Hst & Htp & Hrx & Htx & Hspan & Hfin & Ht & Ha). cbn [returns]. split; [|by right].
  constructor; try done. by right.
Qed.

Lemma connect_ok r l s cx :
  sock_inv t0 s -> returns (connect r l s cx) (fun '(s', cx', res) => sock_inv t0 s' /\
    same_clock cx cx' /\
    match res with
    | Ok _ => is_open s = false /\ state s' = SynSent /\ zlen (rx_buffer s') = 0
    | Err _ => s' = s /\ cx' = cx
    end).
Proof.
  intros Hinv. unfold connect. destruct (is_open s) eqn:Ho; [done|].
  case_match; [done|]. case_test; [done|].
  destruct (connect_local_addr cx r l) as [a|e]; [|done]. cbn [ep_addr].
  case_bool_decide as Hv; [done|].
  apply returns_bind. eapply returns_mono; [|by apply socket_reset_ok].
  intros s' ([] & Hst & Htp & Hrx & Htx & Hspan & Hfin & Ht & Ha).
  unfold random_seq_no. destruct (Rand.rand_u32_ok (rand cx)) as (r' & n & -> & Hn).
  cbn [mbind outcome_bind returns]. split; [|by split_and!].
  constructor; try done; sock_simpl.
  - destruct si_seq as (_ & ? & _). split_and!; [apply wrap_range|done|apply wrap_range].
  - intros _ _. rewrite seq_dist_self, Htx. cbn. lia.
  - unfold handshake. sock_simpl. intros _. rewrite seq_dist_self, Ht. by split_and!.
Qed.

Lemma set_keep_alive_inv d s : duration_ok d -> sock_inv t0 s -> sock_inv t0 (set_keep_alive d s).
Proof.
  intros Hd []. unfold set_keep_alive. sock_simpl.
  assert (duration_ok (timeout s) /\ duration_ok d /\ duration_ok (ack_delay s)) as Hdur by tauto.
  destruct d as [d|]; [|by constructor]. constructor; try done; sock_simpl.
  - by destruct (timer s) as [[]| | |].
  - unfold handshake. sock_simpl. intros Hst. destruct (si_handshake Hst) as (? & ? & ? & ? & Hx).
    split_and!; try done. intros Hl. specialize (Hx Hl). by destruct (timer s) as [[]| | |].
Qed.

Lemma set_timeout_inv d s : duration_ok d -> sock_inv t0 s -> sock_inv t0 (set_timeout d s).
Proof. intros Hd []. constructor; try done. sock_simpl. tauto. Qed.

Lemma set_ack_delay_inv d s : duration_ok d -> sock_inv t0 s -> sock_inv t0 (set_ack_delay d s).
Proof. intros Hd []. constructor; try done. sock_simpl. tauto. Qed.

Lemma set_nagle_inv b s : sock_inv t0 s -> sock_inv t0 (set_nagle_enabled b s).
Proof. intros []. by constructor. Qed.

Lemma set_congestion_control_inv c s : sock_inv t0 s -> sock_inv t0 (set_congestion_control c s).
Proof. intros []. by constructor. Qed.

(** What a call leaves alone when it only adds octets to the transmit buffer. *)
Definition sent_only s s' : Prop :=
  rx_same s s' /\ state s' = state s /\ tuple s' = tuple s /\ local_seq_no s' = local_seq_no s /\
  remote_last_seq s' = remote_last_seq s.

Lemma may_send_open s :
  may_send s = true -> state s = Established \/ state s = CloseWait.
Proof. unfold may_send. by destruct (state s); auto. Qed.

Lemma send_slice_ok data s :
  sock_inv t0 s -> returns (send_slice data s) (fun '(s', r) => sock_inv t0 s' /\ sent_only s s' /\
    match r with
    | Ok n => may_send s = true /\ (n <= length data)%nat /\
        RingBuffer.contents (tx_buffer s') = RingBuffer.contents (tx_buffer s) ++ take n data
    | Err _ => may_send s = false /\ s' = s
    end).
Proof.
  intros Hinv. unfold send_slice, send_impl. destruct (may_send s) eqn:Hm; cbn [negb].
  2: { cbn [returns]. by split_and!. }
  pose proof (may_send_open s Hm) as Hst. destruct (si_tx _ _ Hinv) as [Hwf Hcap].
  destruct (enqueue_slice_ok data (tx_buffer s) Hwf) as (tx & -> & Hwf' & Hcap' & Hc & Hl).
  cbn [mbind outcome_bind]. set (n := (_ `min` length data)%nat) in *.
  assert (forall ts, instant_ok ts ->
    sock_inv t0 (s <| tx_buffer := tx |> <| remote_last_ts := ts |>)) as Hinv'.
  { intros ts Hts. destruct Hinv. constructor; try done; sock_simpl.
    - split; [done|]. unfold zcapacity in *. lia.
    - intros H1 H2. specialize (si_flight H1 H2). unfold zlen, RingBuffer.len in *. lia.
    - unfold handshake. sock_simpl. by destruct Hst as [-> | ->]; intros [|[|]]. }
  cbn [returns]. split_and!; [|by destruct (_ <? _)%nat; [destruct (_ =? _)%nat|]|done|lia|].
  - destruct (_ <? _)%nat; [destruct (_ =? _)%nat|]; [by apply Hinv'|..].
    all: specialize (Hinv' (remote_last_ts s) (si_ts _ _ Hinv)); by destruct s.
  - by destruct (_ <? _)%nat; [destruct (_ =? _)%nat|].
Qed.

Lemma recv_slice_ok data s :
  sock_inv t0 s -> returns (recv_slice data s) (fun '(s', r) => sock_inv t0 s' /\
    match r with
    | Ok (out, n) =>
        state s' = state s /\ tuple s' = tuple s /\ tx_same s s' /\ assembler s' = assembler s /\
        rx_fin_received s' = rx_fin_received s /\
        remote_seq_no s' = wrap_i 32 (remote_seq_no s + Z.of_nat n) /\
        (n <= RingBuffer.len (rx_buffer s))%nat /\ (n <= length data)%nat /\
        take n out = take n (RingBuffer.contents (rx_buffer s)) /\
        RingBuffer.contents (rx_buffer s') = drop n (RingBuffer.contents (rx_buffer s)) /\
        RingBuffer.free (rx_buffer s') =
          RingBuffer.free (rx_buffer s) ++ take n (RingBuffer.contents (rx_buffer s))
    | Err e => s' = s /\ RingBuffer.len (rx_buffer s) = 0%nat /\
        e = if rx_fin_received s then Finished else RecvInvalidState
    end).
Proof.
  intros Hinv. unfold recv_slice, recv_impl, recv_error_check.
  destruct (may_recv s) eqn:Hm; cbn [negb].
  2: { assert (RingBuffer.len (rx_buffer s) = 0%nat) as He.
       { unfold may_recv in Hm. destruct (state s); try done.
         all: apply negb_false_iff, ring_is_empty_spec in Hm; exact Hm. }
       destruct (rx_fin_received s); cbn [returns]; by split_and!. }
  destruct (si_rx _ _ Hinv) as (Hwf & Hcap & Hasm & Hspan).
  destruct (dequeue_slice_ok data (rx_buffer s) Hwf) as (rx & Hd & Hwf' & Hcap' & Hc & Hl).
  pose proof (dequeue_slice_free _ _ _ _ _ Hwf Hd) as Hfree. rewrite Hd. cbn [mbind outcome_bind].
  set (n := (_ `min` length data)%nat) in *. pose proof (zlen_bounds _ Hwf).
  unfold zlen, RingBuffer.len in *.
  rewrite seq_add_Ret by (sock_simpl; lia). cbn [mbind outcome_bind returns]. sock_simpl.
  split; [|split_and!; try done; try lia].
  2: { rewrite take_app_le, take_take, Nat.min_id; [done|].
       rewrite length_take, length_contents by done. lia. }
  destruct Hinv. constructor; try done; sock_simpl.
  - pose proof (RingBuffer.window_len _ Hwf). pose proof (RingBuffer.window_len _ Hwf').
    unfold RingBuffer.len in *. split_and!; try done; unfold zcapacity in *; lia.
  - destruct si_seq as (? & ? & ?). split_and!; try done. apply wrap_range.
  - unfold handshake. sock_simpl. intros Hst. exfalso. destruct (si_handshake Hst) as (Hz & _).
    unfold may_recv, zlen, RingBuffer.is_empty, RingBuffer.len in *.
    destruct (Nat.eqb_spec (rb_length (rx_buffer s)) 0); [|lia].
    by destruct Hst as [Hst|[Hst|Hst]]; rewrite Hst in Hm.
Qed.
End Calls.

(** ** Events *)

(** A call of the application, a segment the interface hands to the socket, a
    dispatch to a device that takes the packet or refuses it, or the passing of
    time. *)
Inductive event :=
| EvListen (e : ListenEndpoint)
| EvConnect (remote_endpoint : Endpoint) (local_endpoint : ListenEndpoint)
| EvClose
| EvAbort
| EvSend (data : list Z)
| EvRecv (data : list Z)
| EvSetTimeout (d : option Duration)
| EvSetKeepAlive (d : option Duration)
| EvSetAckDelay (d : option Duration)
| EvSetNagle (enabled : bool)
| EvSetCongestionControl (c : CongestionControl)
| EvSegment (ip_repr : IpRepr) (repr : TcpRepr)
| EvDispatch (takes : bool)
| EvTime (t : Instant).

(** What an event shows: the octets the socket took from the application, those
    it gave to it, whether it reported the end of the stream, and the packet for
    the device. *)
Record observation := mkObs {
  o_written : list Z;
  o_read : list Z;
  o_finished : bool;
  o_packet : option packet
}.

Definition silent : observation := mkObs [] [] false None.

(** The packet a device is offered; the device reports it as its error. *)
Definition probe (cx : Context) (p : packet) : outcome (Context * result unit packet) := Ret (cx, Err p).

Definition offered (s : Socket) (cx : Context) : option packet :=
  match dispatch probe s cx with Ret (_, _, Err p) => Some p | _ => None end.

Definition device (takes : bool) (cx : Context) (p : packet) : outcome (Context * result unit packet) :=
  Ret (cx, if takes then Ok () else Err p).

Definition exec (e : event) (s : Socket) (cx : Context) : outcome (Socket * Context * observation) :=
  match e with
  | EvListen e => '(s, _) ← listen e s; Ret (s, cx, silent)
  | EvConnect r l => '(s, cx, _) ← connect r l s cx; Ret (s, cx, silent)
  | EvClose => Ret (close s, cx, silent)
  | EvAbort => Ret (abort s, cx, silent)
  | EvSend data =>
      '(s, r) ← send_slice data s;
      Ret (s, cx, mkObs match r with Ok n => take n data | Err _ => [] end [] false None)
  | EvRecv data =>
      '(s, r) ← recv_slice data s;
      Ret (s, cx, match r with
                  | Ok (out, n) => mkObs [] (take n out) false None
                  | Err Finished => mkObs [] [] true None
                  | Err _ => silent
                  end)
  | EvSetTimeout d => Ret (set_timeout d s, cx, silent)
  | EvSetKeepAlive d => Ret (set_keep_alive d s, cx, silent)
  | EvSetAckDelay d => Ret (set_ack_delay d s, cx, silent)
  | EvSetNagle b => Ret (set_nagle_enabled b s, cx, silent)
  | EvSetCongestionControl c => Ret (set_congestion_control c s, cx, silent)
  | EvSegment ip_repr repr =>
      if accepts ip_repr repr s then
        '(s, cx, reply) ← process ip_repr repr s cx;
        Ret (s, cx, mkObs [] [] false reply)
      else Ret (s, cx, silent)
  | EvDispatch takes =>
      '(s', cx, _) ← dispatch (device takes) s cx;
      Ret (s', cx, mkObs [] [] false (if takes then offered s cx else None))
  | EvTime t => Ret (s, cx <| now := t |>, silent)
  end.

Fixpoint exec_run (es : list event) (s : Socket) (cx : Context) :
    outcome (Socket * Context * list observation) :=
  match es with
  | [] => Ret (s, cx, [])
  | e :: es =>
      '(s, cx, o) ← exec e s cx;
      '(s, cx, os) ← exec_run es s cx;
      Ret (s, cx, o :: os)
  end.

(** What is assumed of an event: durations that cannot overflow the clock,
    segments that come out of the parser, SACK ranges that do not run over the
    sign change of the sequence numbers, and a clock that stays in its epoch. *)
Definition admissible (t0 : Instant) (e : event) (s : Socket) : Prop :=
  match e with
  | EvSetTimeout d | EvSetKeepAlive d | EvSetAckDelay d => duration_ok d
  | EvSegment _ repr => seg_ok repr /\ sack_ok s
  | EvTime t => in_epoch t0 t /\ 0 <= t <= TIME_MAX
  | _ => True
  end.

Fixpoint admissible_run (t0 : Instant) (es : list event) (s : Socket) (cx : Context) : Prop :=
  match es with
  | [] => True
  | e :: es => admissible t0 e s /\
      match exec e s cx with
      | Ret (s, cx, _) => admissible_run t0 es s cx
      | Panic => True
      end
  end.

Definition world_ok (t0 : Instant) (s : Socket) (cx : Context) : Prop :=
  sock_inv t0 s /\ clock t0 cx /\ 60 <= ip_mtu cx.

Lemma dispatch_device_ok t0 takes s cx :
  world_ok t0 s cx ->
  returns (dispatch (device takes) s cx) (fun '(s', cx', _) => dispatch_post t0 s s' /\ same_clock cx cx').
Proof.
  intros (Hinv & Hclock & Hmtu).
  eapply returns_mono; [|apply (dispatch_ok (device takes) (fun _ => True) t0); try done].
  - by intros [[s' cx'] res] (? & ? & _).
  - intros p _. cbn. by destruct takes.
Qed.

(** A device is offered only packets [emitted] describes. *)
Lemma offered_ok t0 s cx p :
  world_ok t0 s cx -> offered s cx = Some p -> emitted t0 cx s p.
Proof.
  intros (Hinv & Hclock & Hmtu). unfold offered.
  assert (returns (dispatch probe s cx) (fun '(s', cx', res) =>
    dispatch_post t0 s s' /\ same_clock cx cx' /\ device_ok (emitted t0 cx s) res)) as Hd
    by (by apply dispatch_ok).
  destruct (dispatch probe s cx) as [[[s' cx'] [|q]]|]; try done.
  intros [= ->]. by destruct Hd as (_ & _ & ?).
Qed.

Lemma exec_ok t0 e s cx :
  world_ok t0 s cx -> admissible t0 e s ->
  returns (exec e s cx) (fun '(s', cx', _) => world_ok t0 s' cx').
Proof.
  intros Hw Ha. pose proof Hw as (Hinv & Hclock & Hmtu).
  assert (forall s' cx', sock_inv t0 s' -> same_clock cx cx' -> world_ok t0 s' cx') as Hgo.
  { intros s' cx' ? [H1 H2]. split_and!; [done|unfold clock; by rewrite H1|by rewrite H2]. }
  assert (same_clock cx cx) as Hcx by done.
  destruct e; cbn [exec admissible] in *; cbn [returns].
  - apply returns_bind. eapply returns_mono; [|by apply listen_ok]. intros [s' r] [? _]. by apply Hgo.
  - apply returns_bind. eapply returns_mono; [|by apply (connect_ok t0)].
    intros [[s' cx'] r] (? & ? & _). by apply Hgo.
  - apply Hgo; [by apply close_inv|done].
  - apply Hgo; [by apply abort_inv|done].
  - apply returns_bind. eapply returns_mono; [|by apply send_slice_ok]. intros [s' r] (? & _). by apply Hgo.
  - apply returns_bind. eapply returns_mono; [|by apply recv_slice_ok]. intros [s' r] (? & _).
    cbn [returns]. by apply Hgo.
  - apply Hgo; [by apply set_timeout_inv|done].
  - apply Hgo; [by apply set_keep_alive_inv|done].
  - apply Hgo; [by apply set_ack_delay_inv|done].
  - apply Hgo; [by apply set_nagle_inv|done].
  - apply Hgo; [by apply set_congestion_control_inv|done].
  - destruct Ha as [Hseg Hsack]. destruct (accepts ip_repr repr s) eqn:Hacc; [|done].
    apply returns_bind. eapply returns_mono; [|by apply (process_ok t0)].
    intros [[s' cx'] r] [Hnow (? & _)]. by apply Hgo.
  - apply returns_bind. eapply returns_mono; [|by apply (dispatch_device_ok t0)].
    intros [[s' cx'] r] [[? _] ?]. by apply Hgo.
  - by split_and!.
Qed.

Lemma exec_run_ok t0 es s cx :
  world_ok t0 s cx -> admissible_run t0 es s cx ->
  returns (exec_run es s cx) (fun '(s', cx', _) => world_ok t0 s' cx').
Proof.
  revert s cx. induction es as [|e es IH]; intros s cx Hw Ha; [done|]. cbn [exec_run].
  destruct Ha as [Ha Has]. pose proof (exec_ok t0 e s cx Hw Ha) as He.
  destruct (exec e s cx) as [[[s' cx'] o]|]; [|done]. cbn [mbind outcome_bind].
  apply returns_bind. eapply returns_mono; [|by apply IH]. by intros [[s'' cx''] os].
Qed.

(** A socket is created, then a run of events happens. *)
Definition socket_run (n : nat) (cc : AnyController) (rx tx : list Z) (es : list event) (cx : Context) :
    outcome (Socket * Context * list observation) :=
  s ← new n cc (RingBuffer.new rx) (RingBuffer.new tx);
  exec_run es s cx.

Definition socket_run_admissible (t0 : Instant) (n : nat) (cc : AnyController) (rx tx : list Z)
    (es : list event) (cx : Context) : Prop :=
  match new n cc (RingBuffer.new rx) (RingBuffer.new tx) with
  | Ret s => admissible_run t0 es s cx
  | Panic => False
  end.

(** ** A connection, step by step

    A peer connects to a listening socket, sends four octets out of order with
    its FIN, and reads three octets back. *)

Module Scenario.
Definition cx : Context := mkContext 1000000 1500 (Rand.new 42) (fun _ => None) (fun _ => false) HwIp
  ChecksumCapabilities.default [].

Definition cc : AnyController := ControllerNone mkNoControl.

Definition buffer : list Z := repeat 0 16.

Definition peer_ip : IpRepr := ReprIpv4 (mkIpHeader [10; 0; 0; 2] [10; 0; 0; 1] Protocol.Tcp 20 64).

Definition segment (c : Control) (seq : SeqNumber) (ack : option SeqNumber) (data : list Z) : TcpRepr := {|
  src_port := 5000; dst_port := 80; control := c; seq_number := seq; ack_number := ack;
  window_len := 1000; window_scale := None; max_seg_size := None; sack_permitted := false;
  sack_ranges := [None; None; None]; payload := data
|}.

(** The initial sequence number the generator draws. *)
Definition iss : SeqNumber := -1249983914.

Definition handshake : list event :=
  [EvListen (mkListen None 80); EvSegment peer_ip (segment Syn 99 None []); EvDispatch true].

Definition established : list event :=
  handshake ++ [EvSegment peer_ip (segment ControlNone 100 (Some (iss + 1)) [])].

Definition data : list event :=
  [EvSegment peer_ip (segment ControlNone 102 (Some (iss + 1)) [3; 4]);
   EvSegment peer_ip (segment Fin 100 (Some (iss + 1)) [1; 2; 3; 4]);
   EvRecv (repeat 0 6)].

Definition answer : list event := [EvSend [7; 8; 9]; EvClose; EvTime 1100000].

Definition whole : list event := handshake ++ data ++ answer ++ [EvDispatch true].
End Scenario.

Lemma admissible_step t0 e es s cx s' cx' o :
  admissible t0 e s -> exec e s cx = Ret (s', cx', o) -> admissible_run t0 es s' cx' ->
  admissible_run t0 (e :: es) s cx.
Proof. intros Ha He Hr. cbn. by rewrite He. Qed.

Lemma admissible_new t0 n cc rx tx es cx s :
  new n cc (RingBuffer.new rx) (RingBuffer.new tx) = Ret s -> admissible_run t0 es s cx ->
  socket_run_admissible t0 n cc rx tx es cx.
Proof. intros Hn Hr. unfold socket_run_admissible. by rewrite Hn. Qed.

(** Check a concrete run event by event. *)
Ltac solve_admissible :=
  lazymatch goal with
  | |- seg_ok _ /\ sack_ok _ =>
      split; [constructor; cbv -[Z.le Z.lt]; lia
             | first [intros Hsack; vm_compute in Hsack; discriminate Hsack
                     | intros _; right; vm_compute; reflexivity ]]
  | |- in_epoch _ _ /\ _ => unfold in_epoch, instant_range, MAX_SAMPLE, TIME_MAX; lia
  | |- True => exact I
  | |- duration_ok _ => unfold duration_ok, TIME_MAX; lia
  end.
Ltac solve_admissible_run :=
  repeat (lazymatch goal with |- admissible_run ?t ?es ?s ?cx =>
            let es' := eval hnf in es in change (admissible_run t es' s cx) end;
          eapply admissible_step; [cbn [admissible]; solve_admissible | vm_compute; reflexivity |]);
  exact I.

Lemma socket_run_world t0 n cc rx tx es cx :
  (0 < n)%nat -> Z.of_nat (length rx) <= 2 ^ 30 -> Z.of_nat (length tx) < I32_MAX ->
  clock t0 cx -> 60 <= ip_mtu cx -> socket_run_admissible t0 n cc rx tx es cx ->
  returns (socket_run n cc rx tx es cx) (fun '(s, cx', _) => world_ok t0 s cx').
Proof.
  intros Hn Hrx Htx Hc Hm Ha. unfold socket_run, socket_run_admissible in *.
  assert (returns (new n cc (RingBuffer.new rx) (RingBuffer.new tx))
    (fun s => sock_inv t0 s /\ fresh s)) as Hnew.
  { by apply new_ok; try done; try apply ring_new_wf; split; [apply ring_new_wf|]. }
  destruct (new _ _ _ _) as [s|]; [|done]. destruct Hnew as [Hinv _]. cbn [mbind outcome_bind].
  by apply exec_run_ok.
Qed.

(** The world after the handshake of the scenario. *)
Definition established_run : outcome (Socket * Context * list observation) :=
  socket_run 4 Scenario.cc Scenario.buffer Scenario.buffer Scenario.established Scenario.cx.

Definition outcome_get {A : Type} (c : outcome A) :
    match c return Type with Ret _ => A | Panic => unit end :=
  match c with Ret a => a | Panic => () end.

Definition established_world : Socket * Context * list observation :=
  Eval vm_compute in outcome_get established_run.

Definition established_socket : Socket := established_world.1.1.
Definition established_context : Context := established_world.1.2.

Lemma established_ok : world_ok 0 established_socket established_context.
Proof.
  assert (returns established_run (fun '(s, cx', _) => world_ok 0 s cx')) as H.
  { apply socket_run_world.
    - lia.
    - cbn. lia.
    - cbn. lia.
    - unfold clock, in_epoch, instant_range, MAX_SAMPLE, TIME_MAX, Scenario.cx. cbn [now]. lia.
    - cbn. lia.
    - eapply admissible_new; [vm_compute; reflexivity|]. solve_admissible_run. }
  assert (established_run = Ret established_world) as Hr by (vm_compute; reflexivity).
  by rewrite Hr in H.
Qed.

(** C1: whatever the application calls, whatever segments arrive (in any order,
    duplicated, from an arbitrary peer), however the device behaves and time
    passes, no operation of the socket panics: no arithmetic overflow, no
    out-of-range slice, no failed assertion; and the invariant holds in every
    state reached.  The run is admissible: segments are well-formed
    representations, the clock stays within six days, and with SACK in use the
    receive window does not cross the sign change of the sequence numbers (where
    the code does panic, TcpFindings.v). *)
Theorem tcp_runs_never_panic t0 n cc rx tx es cx :
  (0 < n)%nat -> Z.of_nat (length rx) <= 2 ^ 30 -> Z.of_nat (length tx) < I32_MAX ->
  clock t0 cx -> 60 <= ip_mtu cx -> socket_run_admissible t0 n cc rx tx es cx ->
  exists s cx' os, socket_run n cc rx tx es cx = Ret (s, cx', os) /\ sock_inv t0 s.
Proof.
  intros Hn Hrx Htx Hc Hm Ha. pose proof (socket_run_world t0 n cc rx tx es cx Hn Hrx Htx Hc Hm Ha) as Hw.
  destruct (socket_run n cc rx tx es cx) as [[[s cx'] os]|]; [|done]. destruct Hw. eauto 10.
Qed.

Lemma tcp_runs_never_panic_witness :
  exists s cx' os, socket_run 4 Scenario.cc Scenario.buffer Scenario.buffer Scenario.whole Scenario.cx
                   = Ret (s, cx', os) /\ sock_inv 0 s.
Proof.
  apply (tcp_runs_never_panic 0 4 Scenario.cc Scenario.buffer Scenario.buffer Scenario.whole Scenario.cx).
  - lia.
  - cbn. lia.
  - cbn. lia.
  - unfold clock, in_epoch, instant_range, MAX_SAMPLE, TIME_MAX, Scenario.cx. cbn [now]. lia.
  - cbn. lia.
  - eapply admissible_new; [vm_compute; reflexivity|]. solve_admissible_run.
Defined.
