(* ===== verification/IfaceSafety.v ===== *)
(** * Incoming frames never take the interface down

    Whatever octets arrive in a frame, [process_ethernet] returns: no accessor of a
    header is out of range, no reassembly buffer is overrun, no socket panics; and
    the sockets, the reassembly buffers and the interface keep their invariants. *)

From S2P Require Import Prelude Assembler Time SeqNumber Bytes Octets Phy Ip LinkLayer Arp Ipv4Wire Icmpv4Wire UdpWire.
From S2P Require Import TcpWire TcpWireProps Cidr Route Neighbor Fragmentation Packet Ipv4Fragments TcpTimers Congestion.
From S2P Require Import Context UdpSocket UdpSpec TcpSocket TcpLogic TcpProcess TcpTransitions TcpRun Iface IfaceProcess IfaceArp Collections.
Open Scope nat_scope.

(** ** Reassembly buffers *)

Definition MAX_FRAGMENT_END : nat := Z.to_nat 131070.

(** The buffer reaches as far as the total size; offsets are 13 bits of units of
    eight octets (which the code reads as 16 bits), fragments are at most 65535
    octets long. *)
Record slot_safe (f : PacketAssembler.t Ipv4Key.t) : Prop := {
  ss_assembler : Assembler.wf (PacketAssembler.assembler f);
  ss_bytes : bytes (PacketAssembler.buffer f);
  ss_total : forall size, PacketAssembler.total_size f = Some size ->
    size <= length (PacketAssembler.buffer f) /\ size <= MAX_FRAGMENT_END
}.

Definition frags_safe (frags : FragmentsBuffer) : Prop := Forall slot_safe (fb_assembler frags).

Lemma grow_bytes b n : bytes b -> bytes (grow b n).
Proof. intros Hb. apply Forall_app_2; [done|]. apply Forall_replicate. unfold byte. lia. Qed.

Lemma grow_length b n : length (grow b n) = length b `max` n.
Proof. unfold grow. rewrite length_app, length_replicate. lia. Qed.

Lemma set_total_size_safe size f :
  slot_safe f -> size <= MAX_FRAGMENT_END -> slot_safe (PacketAssembler.set_total_size size f).1.
Proof.
  intros Hf Hs. pose proof Hf as [Hw Hb Ht]. unfold PacketAssembler.set_total_size.
  assert (slot_safe (let p := if length (PacketAssembler.buffer f) <? size
    then f <| PacketAssembler.buffer ::= fun b => grow b size |> else f in
    (p <| PacketAssembler.total_size := Some size |>, @Ok unit AssemblerError ())).1) as Hset.
  { destruct (Nat.ltb_spec (length (PacketAssembler.buffer f)) size); constructor; cbn; try done.
    - by apply grow_bytes.
    - intros ? [= <-]. rewrite grow_length. lia.
    - intros ? [= <-]. lia. }
  destruct (PacketAssembler.total_size f); [|done]. by destruct (negb _).
Qed.

Lemma assembler_add_total offset size asm :
  Assembler.wf asm -> exists asm' res, Assembler.add offset size asm = Ret (asm', res) /\ Assembler.wf asm'.
Proof.
  intros Hw. destruct (Nat.eq_dec size 0) as [->|Hne].
  - unfold Assembler.add. cbn. by do 2 eexists.
  - pose proof (add_ok offset size asm Hw ltac:(lia)) as H. unfold add_post in H.
    destruct (Assembler.add offset size asm) as [[asm' res]|]; [|done]. exists asm', res.
    split; [done|]. destruct res; naive_solver.
Qed.

Lemma add_safe data offset f :
  slot_safe f -> bytes data -> exists f', PacketAssembler.add data offset f = Ret (f', Ok ()) /\ slot_safe f'.
Proof.
  intros [Hw Hb Ht] Hd. unfold PacketAssembler.add.
  set (p := if _ <? _ then _ else f).
  assert (PacketAssembler.assembler p = PacketAssembler.assembler f /\
    PacketAssembler.total_size p = PacketAssembler.total_size f /\ bytes (PacketAssembler.buffer p) /\
    length (PacketAssembler.buffer f) <= length (PacketAssembler.buffer p) /\
    offset + length data <= length (PacketAssembler.buffer p)) as (Ha & Hts & Hpb & Hpl & Hpo).
  { unfold p. destruct (Nat.ltb_spec (length (PacketAssembler.buffer f)) (offset + length data)); cbn; [|done].
    rewrite grow_length. split_and!; try done; [by apply grow_bytes|lia|lia]. }
  clearbody p. cbn [PacketAssembler.assembler set_field]. cbn. rewrite Ha.
  destruct (assembler_add_total offset (length data) _ Hw) as (asm' & res & -> & Hw').
  cbn [mbind outcome_bind]. eexists. split; [done|]. constructor; cbn; [done| |].
  - unfold splice. by repeat apply Forall_app_2; [apply bytes_take| |apply bytes_drop].
  - intros size Hs. rewrite Hts in Hs. destruct (Ht size Hs). rewrite length_splice by done. lia.
Qed.

Lemma assemble_safe f :
  slot_safe f -> exists f' res, PacketAssembler.assemble f = Ret (f', res) /\ slot_safe f' /\
    forall data, res = Some data -> bytes data /\ length data <= MAX_FRAGMENT_END.
Proof.
  intros [Hw Hb Ht]. unfold PacketAssembler.assemble. destruct (PacketAssembler.is_complete f) eqn:Hc; cbn [negb].
  2: { exists f, None. split; [done|]. by split; [constructor|]. }
  unfold PacketAssembler.is_complete in Hc. apply bool_decide_eq_true in Hc. rewrite Hc. cbn [unwrap mbind outcome_bind].
  destruct (Ht _ Hc) as [Hl Hm]. unfold PacketAssembler.reset. cbn. rewrite range_Ret by lia. cbn [mbind outcome_bind].
  do 2 eexists. split; [done|]. split.
  - constructor; cbn; [|done|done]. apply asm_new_wf. by destruct Hw as (? & ? & _ & _ & ?).
  - intros data [= <-]. split; [by apply bytes_slice|]. rewrite length_slice. lia.
Qed.

(** The slot that [get] answers exists. *)
Lemma get_loop_lt (k : Ipv4Key.t) i s e :
  (forall j, e = Some j -> j < i) ->
  match PacketAssemblerSet.get_loop k i s e with
  | inl j | inr (Some j) => j < i + length s
  | inr None => True
  end.
Proof.
  revert i e. induction s as [|f s IH]; intros i e He; cbn [PacketAssemblerSet.get_loop length].
  - destruct e as [j|]; [|done]. specialize (He j eq_refl). lia.
  - destruct (bool_decide _); [lia|]. set (e' := if PacketAssembler.is_free f then Some i else e).
    assert (forall j, e' = Some j -> j < S i) as He'.
    { unfold e'. intros j. destruct (PacketAssembler.is_free f); [intros [= <-]; lia|]. intros Hj%He. lia. }
    specialize (IH (S i) e' He'). destruct (PacketAssemblerSet.get_loop k (S i) s e') as [|[|]]; lia || done.
Qed.

Lemma get_safe k e s :
  Forall slot_safe s -> Forall slot_safe (PacketAssemblerSet.get k e s).1 /\
    forall i, (PacketAssemblerSet.get k e s).2 = Ok i -> i < length (PacketAssemblerSet.get k e s).1.
Proof.
  intros Hs. unfold PacketAssemblerSet.get. pose proof (get_loop_lt k 0 s None) as Hl.
  destruct (PacketAssemblerSet.get_loop k 0 s None) as [i|[i|]]; cbn; (split; [|]); try done.
  - intros j [= <-]. by apply Hl.
  - apply Forall_alter; [done|]. by intros f _ [].
  - intros j [= <-]. rewrite length_alter. by apply Hl.
Qed.

Section Processing.
Context {BO : ByteOrder} {NE : NetworkEndian BO}.

(** What [check_len] established of the packet. *)
Definition packet_checked (packet : list Z) : Prop := bytes packet /\ Ipv4Packet.check_len packet = Ret (Ok ()).

Lemma checked_payload packet :
  packet_checked packet -> exists payload, Ipv4Packet.payload packet = Ret payload /\ bytes payload /\
    (Z.of_nat (length payload) <= U16_MAX)%Z.
Proof.
  intros [Hb Hc]. pose proof (ipv4_check_len_ok packet Hb) as H. rewrite Hc in H.
  destruct H as (hl & tl & Hhl & Htl & _ & Hm & Hle & _).
  eexists. split; [by apply ipv4_payload_ok|]. split; [by apply bytes_slice|]. rewrite length_slice. lia.
Qed.

Lemma checked_fragment packet :
  packet_checked packet -> exists more off, Ipv4Packet.more_frags packet = Ret more /\
    Ipv4Packet.frag_offset packet = Ret off /\ (0 <= off <= U16_MAX)%Z.
Proof.
  intros [Hb Hc]. pose proof (ipv4_check_len_ok packet Hb) as H. rewrite Hc in H.
  destruct H as (_ & _ & _ & _ & _ & _ & _ & Hl).
  unfold Ipv4Packet.more_frags, Ipv4Packet.frag_offset.
  destruct (get_u16_ok 6 8 packet Hb ltac:(lia) eq_refl) as (raw & -> & Hr). cbn [mbind outcome_bind].
  do 2 eexists. do 2 (split; [done|]). unfold wrap_u. pose proof (Z.mod_pos_bound (Z.shiftl raw 3) (2 ^ 16) ltac:(lia)).
  lia.
Qed.

Lemma checked_key packet : packet_checked packet -> exists key, Ipv4Packet.get_key packet = Ret key.
Proof.
  intros [Hb Hc]. pose proof (ipv4_check_len_ok packet Hb) as H. rewrite Hc in H.
  destruct H as (_ & _ & _ & _ & _ & _ & _ & Hl).
  unfold Ipv4Packet.get_key, Ipv4Packet.ident, Ipv4Packet.src_addr, Ipv4Packet.dst_addr, Ipv4Packet.next_header.
  destruct (get_u16_ok 4 6 packet Hb ltac:(lia) eq_refl) as (id & -> & _).
  destruct (addr_slice_ok packet 12 Hb ltac:(lia)) as [Hs _]. change (12 + 4) with 16 in Hs. rewrite Hs.
  destruct (addr_slice_ok packet 16 Hb ltac:(lia)) as [Hd _]. change (16 + 4) with 20 in Hd. rewrite Hd.
  rewrite get_byte_ok by lia. by eexists.
Qed.

Lemma add_fragment_safe packet f :
  packet_checked packet -> slot_safe f ->
  exists f' res, add_fragment packet f = Ret (f', res) /\ slot_safe f' /\ forall p, res = Some p -> summable p.
Proof.
  intros Hck Hf. destruct (checked_fragment packet Hck) as (more & off & Hmore & Hoff & Hor).
  destruct (checked_payload packet Hck) as (pl & Hpl & Hpb & Hpm).
  destruct Hck as [Hb Hc]. pose proof (ipv4_check_len_ok packet Hb) as H. rewrite Hc in H.
  destruct H as (hl & tl & Hhl & Htl & _ & Hm & Hle & _).
  assert (forall f1, slot_safe f1 -> exists f' res,
    (payload ← Ipv4Packet.payload packet; frag_offset ← Ipv4Packet.frag_offset packet;
     '(f, r) ← PacketAssembler.add payload (Z.to_nat frag_offset) f1;
     match r with Ok _ => PacketAssembler.assemble f | Err _ => Ret (f, None) end) = Ret (f', res) /\
    slot_safe f' /\ forall p, res = Some p -> summable p) as Hrest.
  { intros f1 H1. rewrite Hpl, Hoff. cbn [mbind outcome_bind].
    destruct (add_safe pl (Z.to_nat off) f1 H1 Hpb) as (f2 & -> & H2). cbn [mbind outcome_bind].
    destruct (assemble_safe f2 H2) as (f3 & res & -> & H3 & Hres). exists f3, res. split_and!; try done.
    intros p Hp. destruct (Hres p Hp) as [Hpb' Hpl']. split; [done|]. unfold MAX_FRAGMENT_END in Hpl'. lia. }
  unfold add_fragment. rewrite Hmore. cbn [mbind outcome_bind]. destruct more; [by apply Hrest|].
  rewrite Hoff, Htl, Hhl in *. cbn [mbind outcome_bind] in *. rewrite !Nat2Z.id. unfold nsub.
  rewrite (proj2 (Nat.ltb_ge _ _)) by lia. cbn [mbind outcome_bind].
  pose proof (set_total_size_safe (tl - hl + Z.to_nat off) f Hf ltac:(unfold MAX_FRAGMENT_END; lia)) as Hset.
  destruct (PacketAssembler.set_total_size _ f) as [f1 [|]]; cbn [mbind outcome_bind fst] in *; [by apply Hrest|].
  by exists f1, None.
Qed.

(** Clock readings to which the reassembly timeout can be added. *)
Definition timeout_ok (now : Instant) (frags : FragmentsBuffer) : Prop :=
  (0 <= now)%Z /\ (0 <= reassembly_timeout frags)%Z /\ (now + reassembly_timeout frags <= I64_MAX)%Z.

Lemma process_fragment_safe now packet frags :
  packet_checked packet -> frags_safe frags -> timeout_ok now frags ->
  exists frags' res, process_fragment now packet frags = Ret (frags', res) /\ frags_safe frags' /\
    reassembly_timeout frags' = reassembly_timeout frags /\ forall p, res = Some p -> summable p.
Proof.
  intros Hck Hf (H0 & Ht & Hs). destruct (checked_fragment packet Hck) as (more & off & Hmore & Hoff & Hor).
  unfold process_fragment. rewrite Hmore, Hoff. cbn [mbind outcome_bind]. destruct (more || _).
  2: { destruct (checked_payload packet Hck) as (pl & -> & Hpb & Hpm). cbn [mbind outcome_bind].
       exists frags, (Some pl). split_and!; try done. intros p [= <-]. split; [done|]. lia. }
  destruct (checked_key packet Hck) as [key ->]. cbn [mbind outcome_bind].
  rewrite instant_add_ok by lia. cbn [mbind outcome_bind].
  destruct (get_safe key (now + reassembly_timeout frags)%Z (fb_assembler frags) Hf) as [Hg Hi].
  destruct (PacketAssemblerSet.get _ _ _) as [set [i|e]]; cbn [fst snd] in *.
  2: { eexists _, None. split; [done|]. by cbn. }
  destruct (lookup_lt_is_Some_2 set i (Hi i eq_refl)) as [f Hlk]. rewrite Hlk. cbn [unwrap mbind outcome_bind].
  destruct (add_fragment_safe packet f Hck) as (f' & res & -> & Hf' & Hres).
  { by eapply Forall_lookup_1 in Hg. }
  cbn [mbind outcome_bind]. eexists _, res. split; [done|]. cbn. split_and!; try done.
  by apply Forall_insert.
Qed.
End Processing.

(** ** The interface and its sockets *)

Section Interface.
Context {BO : ByteOrder} {NE : NetworkEndian BO}.
Context {AV : Vec IpCidr} {RV : Vec Route} {LM : LinearMap Address Neighbor} {N : nat} {LL : LinearMapLaws LM N}.
Variables (t0 : Instant) (HN : 0 < N).
Implicit Types (inner : InterfaceInner) (slots : list (option Item)).

(** An Ethernet interface as its constructor leaves it, with the clock in the range
    where timers do not overflow. *)
Record iface_ok inner : Prop := {
  io_mac : exists mac, hardware_addr inner = HwEthernet mac;
  io_addrs : addrs_wf inner;
  io_routes : routes_wf (as_slice (Routes.storage (routes inner)));
  io_clock : in_epoch t0 (if_now inner) /\ (0 <= if_now inner <= TIME_MAX)%Z;
  io_mtu : exists mtu, DeviceCapabilities.ip_mtu (caps inner) = Ret mtu
}.

(** Processing a frame changes the neighbor cache and draws random numbers. *)
Definition same_config inner inner' : Prop :=
  exists cache r, inner' = inner <| neighbor_cache := cache |> <| if_rand := r |>.

Lemma same_config_refl inner : same_config inner inner.
Proof. exists (neighbor_cache inner), (if_rand inner). by destruct inner. Qed.

Lemma same_config_ok inner inner' : same_config inner inner' -> iface_ok inner -> iface_ok inner'.
Proof. intros (cache & r & ->) []. by constructor. Qed.

(** The invariant of a socket of the set. *)
Definition slot_inv (slot : option Item) : Prop :=
  match slot with
  | Some (mkItem _ (SocketTcp s)) => sock_inv t0 s
  | Some (mkItem _ (SocketUdp s)) => udp_inv s
  | None => True
  end.

(** A TCP socket that can report the ranges it has received. *)
Definition slot_sack (slot : option Item) : Prop :=
  match slot with Some (mkItem _ (SocketTcp s)) => sack_ok s | _ => True end.

Definition sockets_ok slots : Prop := Forall (fun slot => slot_inv slot /\ slot_sack slot) slots.

Lemma sockets_ok_inv slots : sockets_ok slots -> Forall slot_inv slots.
Proof. intros H. eapply Forall_impl; [exact H|]. naive_solver. Qed.

(** *** ARP *)

Lemma arp_checked_parse data :
  (arp_packet ←? ArpPacket.new_checked data; ArpRepr.parse arp_packet) = ArpRepr.parse data.
Proof.
  unfold ArpPacket.new_checked. destruct (ArpPacket.check_len data) as [[[]|e]|] eqn:Hc; cbn [try_bind]; [done| |];
    unfold ArpRepr.parse; by rewrite Hc.
Qed.

Lemma process_arp_safe inner data :
  iface_ok inner -> bytes data ->
  exists inner' reply, process_arp inner (if_now inner) data = Ret (inner', reply) /\ same_config inner inner'.
Proof.
  intros [[mac Hmac] Ha _ [_ Hclk] _] Hb.
  assert (forall r : option EthernetPacket, exists inner' reply, Ret (inner, r) = Ret (inner', reply) /\ same_config inner inner') as Hdrop.
  { intros r. exists inner, r. split; [done|apply same_config_refl]. }
  unfold process_arp. rewrite arp_checked_parse. destruct (arp_parse_total data Hb) as (res & -> & Hp).
  cbn [mbind outcome_bind].
  destruct res as [[op sha spa tha tpa]|e]; [|apply Hdrop]. destruct Hp as (Hsha & Hspa & _).
  destruct (negb _ && negb _); [apply Hdrop|]. 
  assert (exists inner' reply,
    (if negb (Ipv4Address.is_unicast spa) || negb (EthernetAddress.is_unicast sha) then Ret (inner, None) else
     same ← in_same_network inner (Ipv4 spa);
     if negb same then Ret (inner, None) else
     cache ← Cache.fill (Ipv4 spa) (HwEthernet sha) (if_now inner) (neighbor_cache inner);
     let inner := inner <| neighbor_cache := cache |> in
     if bool_decide (op = ArpOperation.Request) then
       src_hardware_addr ← HardwareAddress.ethernet_or_panic (hardware_addr inner);
       Ret (inner, Some (EthernetArp (EthernetIpv4 ArpOperation.Reply src_hardware_addr tpa sha spa)))
     else Ret (inner, None)) = Ret (inner', reply) /\ same_config inner inner') as Hfill.
  { destruct (Ipv4Address.is_unicast spa) eqn:Hus, (EthernetAddress.is_unicast sha) eqn:Hue; try apply Hdrop.
    destruct (in_same_network_ok inner (Ipv4 spa) Ha Hspa) as (same & -> & _). cbn [orb negb mbind outcome_bind].
    destruct same; [|apply Hdrop]. cbn [negb].
    destruct (cache_step_fill (neighbor_cache inner) (FillAt (Ipv4 spa) (HwEthernet sha) (if_now inner)) (Ipv4 spa)
      (mkNeighbor (HwEthernet sha) (if_now inner + Cache.ENTRY_LIFETIME)%Z) HN) as (cache & Hcache & _); [|done|].
    { cbn. rewrite Hue. split_and!; try done. unfold clock_ok, Cache.ENTRY_LIFETIME, TIME_MAX in *. lia. }
    cbn [cache_step] in Hcache. rewrite Hcache. cbn [mbind outcome_bind].
    assert (same_config inner (inner <| neighbor_cache := cache |>)) by (exists cache, (if_rand inner); done).
    cbn. rewrite Hmac. destruct (bool_decide _); cbn [mbind outcome_bind HardwareAddress.ethernet_or_panic]; by do 2 eexists. }
  destruct op; [exact Hfill|exact Hfill|apply Hdrop].
Qed.

(** *** ICMP *)

Lemma icmpv4_reply_safe inner ipv4_repr icmp_repr :
  addrs_wf inner -> exists reply, icmpv4_reply inner ipv4_repr icmp_repr = Ret reply.
Proof.
  intros Ha. unfold icmpv4_reply.
  destruct (is_unicast_v4_ok inner (ih_src_addr ipv4_repr) Ha) as (b & -> & _). cbn [mbind outcome_bind].
  destruct b; [|by eexists]. cbn [negb].
  destruct (is_unicast_v4_ok inner (ih_dst_addr ipv4_repr) Ha) as (b & -> & _). cbn [mbind outcome_bind].
  destruct b; [by eexists|].
  destruct (is_broadcast_v4_ok inner (ih_dst_addr ipv4_repr) Ha) as (b & -> & _). cbn [mbind outcome_bind].
  destruct b; by eexists.
Qed.

Lemma process_icmpv4_safe inner ip_repr data :
  addrs_wf inner -> summable data -> exists reply, process_icmpv4 inner ip_repr data = Ret reply.
Proof.
  intros Ha Hs. unfold process_icmpv4. destruct (Icmpv4Packet.new_checked data) as [d|e] eqn:Hd; [|by eexists].
  assert (d = data) as ->. { unfold Icmpv4Packet.new_checked in Hd. case_match; naive_solver. }
  destruct (icmpv4_parse_ok _ data (caps_checksum (caps inner)) Hs) as (res & -> & _). cbn [mbind outcome_bind].
  destruct res as [[]|]; try by eexists. by apply icmpv4_reply_safe.
Qed.

Lemma unreachable_reply_safe inner reason ipv4_repr data :
  addrs_wf inner -> exists reply, unreachable_reply inner reason ipv4_repr data = Ret reply.
Proof.
  intros Ha. unfold unreachable_reply.
  assert (icmp_reply_payload_len (length data) IPV4_MIN_MTU (Ipv4Repr.buffer_len ipv4_repr) =
    Ret (length data `min` 528)) as -> by done.
  cbn [mbind outcome_bind]. rewrite range_Ret by lia. cbn [mbind outcome_bind]. by apply icmpv4_reply_safe.
Qed.

(** *** UDP *)

Lemma udp_deliver_safe cx meta ip_repr udp_repr packet payload slots b :
  UdpPacket.payload packet = Ret payload -> Forall slot_inv slots ->
  exists slots' b', udp_deliver cx meta ip_repr udp_repr packet slots b = Ret (slots', b') /\ Forall slot_inv slots'.
Proof.
  intros Hp Hs. revert b. induction Hs as [|[[m [s|s]]|] slots Hslot Hs IH]; intros b; cbn [udp_deliver].
  - by do 2 eexists.
  - destruct (UdpSocket.accepts cx ip_repr udp_repr s) eqn:Hacc.
    + rewrite Hp. cbn [mbind outcome_bind].
      destruct (udp_process_ok cx meta ip_repr udp_repr payload s Hslot) as (s' & a & He & Hinv & _).
      cbn [udp_exec] in He. rewrite Hacc in He.
      destruct (UdpSocket.process cx meta ip_repr udp_repr payload s) as [s1|]; [|done]. cbn [mbind outcome_bind] in *.
      injection He as <- _. destruct (IH true) as (slots' & b' & -> & Hs'). cbn [mbind outcome_bind].
      do 2 eexists. split; [done|]. by constructor.
    + destruct (IH b) as (slots' & b' & -> & Hs'). cbn [mbind outcome_bind]. do 2 eexists. split; [done|]. by constructor.
  - destruct (IH b) as (slots' & b' & -> & Hs'). cbn [mbind outcome_bind]. do 2 eexists. split; [done|]. by constructor.
  - destruct (IH b) as (slots' & b' & -> & Hs'). cbn [mbind outcome_bind]. do 2 eexists. split; [done|]. by constructor.
Qed.

Lemma context_ok inner :
  iface_ok inner -> exists cx, context inner = Ret cx /\ clock t0 cx.
Proof.
  intros [_ _ _ Hc [mtu Hm]]. unfold context. rewrite Hm. cbn [mbind outcome_bind]. by eexists.
Qed.

Lemma process_udp_safe inner slots meta ipv4_repr data :
  iface_ok inner -> Forall slot_inv slots -> bytes data ->
  address_wf (Ipv4 (ih_src_addr ipv4_repr)) -> address_wf (Ipv4 (ih_dst_addr ipv4_repr)) ->
  exists slots' reply, process_udp inner slots meta false (ReprIpv4 ipv4_repr) data = Ret (slots', reply) /\
    Forall slot_inv slots'.
Proof.
  intros Hi Hs Hb Hsrc Hdst. unfold process_udp. cbn [IpRepr.src_addr IpRepr.dst_addr].
  destruct (udp_parse_ok data _ _ (caps_checksum (caps inner)) Hb Hsrc Hdst eq_refl) as (res & Hres & Hp).
  unfold UdpPacket.new_checked in *.
  destruct (UdpPacket.check_len data) as [[[]|e]|]; cbn [try_bind] in *; [| |done].
  2: { cbn [mbind outcome_bind]. by do 2 eexists. }
  rewrite Hres. destruct res as [udp_repr|e]; cbn [try_bind mbind outcome_bind]; [|by do 2 eexists].
  destruct (context_ok inner Hi) as (cx & -> & _). cbn [mbind outcome_bind].
  destruct Hp as (_ & _ & n & _ & _ & Hpay).
  destruct (udp_deliver_safe cx meta (ReprIpv4 ipv4_repr) udp_repr data _ slots false Hpay Hs) as (slots' & b & -> & Hs').
  cbn [mbind outcome_bind]. destruct b; [by do 2 eexists|].
  destruct (unreachable_reply_safe inner Icmpv4DstUnreachable.PortUnreachable ipv4_repr data (io_addrs _ Hi)) as [reply ->].
  by do 2 eexists.
Qed.

(** *** TCP *)

Lemma parsed_seg_ok data r :
  repr_wf r -> summable data -> (length (payload r) <= length data) -> seg_ok r.
Proof.
  intros Hr [_ Hs] Hl. constructor.
  - apply (wf_seq r Hr).
  - destruct (ack_number r) as [n|] eqn:Hn; [by apply (wf_ack r Hr)|done].
  - apply (wf_window r Hr).
  - unfold scale_ok. destruct (window_scale r) as [n|] eqn:Hn; [by apply (wf_scale r Hr)|done].
  - destruct (max_seg_size r) as [n|] eqn:Hn; [by apply (wf_mss r Hr)|done].
  - lia.
Qed.

Lemma tcp_deliver_safe cx ip_repr r slots :
  clock t0 cx -> seg_ok r -> sockets_ok slots ->
  exists slots' res, tcp_deliver cx ip_repr r slots = Ret (slots', res) /\ Forall slot_inv slots'.
Proof.
  intros Hc Hr Hs. induction Hs as [|[[m [s|s]]|] slots [Hslot Hsack] Hs IH]; cbn [tcp_deliver].
  - by do 2 eexists.
  - destruct IH as (slots' & res & -> & Hs'). cbn [mbind outcome_bind]. do 2 eexists. split; [done|]. by constructor.
  - destruct (TcpSocket.accepts ip_repr r s) eqn:Hacc.
    + pose proof (process_ok t0 ip_repr r cx Hc Hr s Hslot Hsack Hacc) as H. apply returns_exists in H as ([[s' cx'] p] & -> & _ & Hp & _).
      cbn [mbind outcome_bind]. do 2 eexists. split; [done|]. constructor; [done|by apply sockets_ok_inv].
    + destruct IH as (slots' & res & -> & Hs'). cbn [mbind outcome_bind]. do 2 eexists. split; [done|]. by constructor.
  - destruct IH as (slots' & res & -> & Hs'). cbn [mbind outcome_bind]. do 2 eexists. split; [done|]. by constructor.
Qed.

Lemma process_tcp_safe inner slots ipv4_repr data :
  iface_ok inner -> sockets_ok slots -> summable data ->
  address_wf (Ipv4 (ih_src_addr ipv4_repr)) -> address_wf (Ipv4 (ih_dst_addr ipv4_repr)) ->
  exists inner' slots' reply, process_tcp inner slots (ReprIpv4 ipv4_repr) data = Ret (inner', slots', reply) /\
    same_config inner inner' /\ Forall slot_inv slots'.
Proof.
  intros Hi Hs [Hb Hl] Hsrc Hdst. unfold process_tcp. cbn [IpRepr.src_addr IpRepr.dst_addr]. rewrite tcp_checked_parse.
  pose proof (sockets_ok_inv _ Hs) as Hsi. pose proof (same_config_refl inner).
  destruct (tcp_parse_ok data _ _ (caps_checksum (caps inner)) Hb ltac:(lia) Hsrc Hdst eq_refl) as (res & -> & Hp).
  cbn [mbind outcome_bind]. destruct res as [r|e]; [|by do 3 eexists]. destruct (Hp r eq_refl) as (Hr & _ & _ & Hpl).
  assert (seg_ok r) as Hseg by (by eapply parsed_seg_ok).
  destruct (context_ok inner Hi) as (cx & -> & Hc). cbn [mbind outcome_bind].
  destruct (tcp_deliver_safe cx (ReprIpv4 ipv4_repr) r slots Hc Hseg Hs) as (slots' & res & -> & Hs').
  cbn [mbind outcome_bind]. destruct res as [[cx' reply]|].
  - do 3 eexists. split; [done|]. split; [|done]. by exists (neighbor_cache inner), (rand cx').
  - destruct (bool_decide_reflect (control r = Rst)) as [|Hrst]; [by do 3 eexists|]. cbn [orb].
    destruct (_ || _); [by do 3 eexists|].
    pose proof (rst_reply_ok (ReprIpv4 ipv4_repr) r Hrst (so_payload _ Hseg)) as Hrep.
    apply returns_exists in Hrep as (p & -> & _). cbn [mbind outcome_bind]. by do 3 eexists.
Qed.

(** *** IPv4 and Ethernet *)

Lemma not_for_us_safe inner dst_addr :
  iface_ok inner -> address_wf (Ipv4 dst_addr) -> exists b, not_for_us inner dst_addr = Ret b.
Proof.
  intros Hi Hd. unfold not_for_us. destruct (_ || _); [by eexists|].
  destruct (is_broadcast_v4_ok inner dst_addr (io_addrs _ Hi)) as (b & -> & _). cbn [mbind outcome_bind].
  destruct b; [by eexists|]. destruct (Ipv4Address.is_unicast dst_addr) eqn:Hu, (any_ip inner); try by eexists.
  cbn [negb orb]. destruct (lookup_spec (Ipv4 dst_addr) (if_now inner) (routes inner) (io_routes _ Hi) Hd) as (res & -> & _).
  { cbn. by rewrite Hu. }
  by eexists.
Qed.

Lemma process_ipv4_payload_safe inner slots meta r data :
  iface_ok inner -> sockets_ok slots -> summable data ->
  address_wf (Ipv4 (ih_src_addr r)) -> address_wf (Ipv4 (ih_dst_addr r)) ->
  exists inner' slots' reply, process_ipv4_payload inner slots meta r data = Ret (inner', slots', reply) /\
    same_config inner inner' /\ Forall slot_inv slots'.
Proof.
  intros Hi Hs Hsum Hsrc Hdst. pose proof (sockets_ok_inv _ Hs) as Hsi. pose proof (same_config_refl inner).
  destruct (unreachable_reply_safe inner Icmpv4DstUnreachable.ProtoUnreachable r data (io_addrs _ Hi)) as [unreach Hun].
  unfold process_ipv4_payload. destruct (ih_next_header r); rewrite ?Hun; cbn [mbind outcome_bind]; try by do 3 eexists.
  - destruct (process_icmpv4_safe inner r data (io_addrs _ Hi) Hsum) as [reply ->]. by do 3 eexists.
  - by apply process_tcp_safe.
  - destruct (process_udp_safe inner slots meta r data Hi Hsi (proj1 Hsum) Hsrc Hdst) as (slots' & reply & -> & Hs').
    by do 3 eexists.
Qed.

(** The outcome of processing a packet or a frame. *)
Definition processed {R : Type} inner (frags : FragmentsBuffer)
    (out : outcome (InterfaceInner * FragmentsBuffer * list (option Item) * R)) : Prop :=
  exists inner' frags' slots' reply, out = Ret (inner', frags', slots', reply) /\
    same_config inner inner' /\ frags_safe frags' /\ reassembly_timeout frags' = reassembly_timeout frags /\
    Forall slot_inv slots'.

Lemma process_ipv4_safe inner slots meta packet frags :
  iface_ok inner -> sockets_ok slots -> packet_checked packet -> frags_safe frags -> timeout_ok (if_now inner) frags ->
  processed inner frags (process_ipv4 inner slots meta packet frags).
Proof.
  intros Hi Hs Hck Hf Ht. pose proof (sockets_ok_inv _ Hs) as Hsi. pose proof (same_config_refl inner).
  assert (processed inner frags (Ret (inner, frags, slots, @None Packet))) as Hdrop by (do 4 eexists; done).
  unfold process_ipv4. destruct (ipv4_parse_ok packet (caps_checksum (caps inner)) (proj1 Hck)) as (res & -> & Hp & _).
  cbn [mbind outcome_bind]. destruct res as [r|e]; [|done]. destruct Hp as (Hsrc & Hdst & _).
  destruct (is_unicast_v4_ok inner (ih_src_addr r) (io_addrs _ Hi)) as (b & -> & _). cbn [mbind outcome_bind].
  destruct (negb b && _); [done|].
  destruct (process_fragment_safe (if_now inner) packet frags Hck Hf Ht) as (frags' & res & -> & Hf' & Ht' & Hres).
  cbn [mbind outcome_bind]. assert (forall reply : option Packet, processed inner frags (Ret (inner, frags', slots, reply)))
    as Hdone by (intros; do 4 eexists; done).
  destruct res as [data|]; [|done]. pose proof (Hres data eq_refl) as Hsum.
  destruct (not_for_us_safe inner (ih_dst_addr r) Hi Hdst) as (b' & ->). cbn [mbind outcome_bind].
  destruct b'; [done|].
  destruct (process_ipv4_payload_safe inner slots meta r data Hi Hs Hsum Hsrc Hdst)
    as (inner' & slots' & reply & -> & Hsame & Hs'). cbn [mbind outcome_bind]. by do 4 eexists.
Qed.

Lemma process_ethernet_safe inner slots meta frame frags :
  iface_ok inner -> sockets_ok slots -> bytes frame -> frags_safe frags -> timeout_ok (if_now inner) frags ->
  processed inner frags (process_ethernet inner slots meta frame frags).
Proof.
  intros Hi Hs Hb Hf Ht. pose proof (sockets_ok_inv _ Hs) as Hsi. pose proof (same_config_refl inner).
  assert (processed inner frags (Ret (inner, frags, slots, @None EthernetPacket))) as Hdrop by (do 4 eexists; done).
  unfold process_ethernet, Frame.new_checked, Frame.check_len, ETHERNET_HEADER_LEN.
  destruct (Nat.ltb_spec (length frame) 14) as [|Hl]; [done|].
  destruct (frame_fields_ok frame Hb Hl) as (ty & -> & _ & -> & ->). cbn [mbind outcome_bind].
  destruct (_ && _); [done|]. assert (bytes (drop 14 frame)) as Hb' by (by apply bytes_drop). destruct ty; try done.
  - unfold Ipv4Packet.new_checked. pose proof (ipv4_check_len_ok (drop 14 frame) Hb') as Hck.
    destruct (Ipv4Packet.check_len (drop 14 frame)) as [[[]|e]|] eqn:Hc; cbn [try_bind mbind outcome_bind]; [|done|done].
    destruct (process_ipv4_safe inner slots meta (drop 14 frame) frags Hi Hs (conj Hb' Hc) Hf Ht)
      as (inner' & frags' & slots' & reply & -> & ?). cbn [mbind outcome_bind]. by do 4 eexists.
  - destruct (process_arp_safe inner (drop 14 frame) Hi Hb') as (inner' & reply & -> & ?). cbn [mbind outcome_bind].
    by do 4 eexists.
Qed.
End Interface.

(** C5: no frame takes the interface down: whatever octets arrive, and whatever
    fragments, neighbors and connections there are already, [process_ethernet]
    returns; of the interface only the neighbor cache and the random state change,
    every reassembly buffer still covers the datagram it announces, and every socket
    satisfies its invariant again.  The sockets are such that a SACK option can be
    computed ([sack_ok]; TcpFindings.v shows the panic otherwise), and the clock is
    within range.  The theorem is about receiving: sending what the sockets and the
    handlers then offer can panic (IfaceFindings.v). *)
Theorem frames_never_panic {BO : ByteOrder} (NE : NetworkEndian BO) {AV : Vec IpCidr} {RV : Vec Route}
    {LM : LinearMap Address Neighbor} {N : nat} (LL : LinearMapLaws LM N) (HN : 0 < N)
    t0 inner slots meta frame frags
    (Hi : iface_ok t0 inner) (Hs : sockets_ok t0 slots) (Hb : bytes frame) (Hf : frags_safe frags)
    (Ht : timeout_ok (if_now inner) frags) :
  exists inner' frags' slots' reply,
    process_ethernet inner slots meta frame frags = Ret (inner', frags', slots', reply) /\
    same_config inner inner' /\ iface_ok t0 inner' /\ frags_safe frags' /\ Forall (slot_inv t0) slots'.
Proof.
  destruct (process_ethernet_safe t0 HN inner slots meta frame frags Hi Hs Hb Hf Ht)
    as (inner' & frags' & slots' & reply & Hp & Hsame & Hf' & _ & Hs').
  exists inner', frags', slots', reply. split_and!; try done. by apply (same_config_ok t0 inner).
Qed.

(** ** ICMP messages the interface sends *)

Section Conduct.
Context {BO : ByteOrder} {AV : Vec IpCidr} {RV : Vec Route} {LM : LinearMap Address Neighbor}.
Implicit Types (inner : InterfaceInner).

(** A message goes to a unicast source; to a packet that was not unicast itself only
    an echo reply. *)
Lemma icmpv4_reply_spec inner r m p :
  icmpv4_reply inner r m = Ret (Some p) ->
  is_unicast_v4 inner (ih_src_addr r) = Ret true /\ IpRepr.dst_addr (Packet.ip_repr p) = Ipv4 (ih_src_addr r) /\
  Packet.payload p = PayloadIcmpv4 m /\
  (is_unicast_v4 inner (ih_dst_addr r) = Ret true \/ exists ident seq_no data, m = Icmpv4EchoReply ident seq_no data).
Proof.
  unfold icmpv4_reply. intros H. destruct (is_unicast_v4 inner (ih_src_addr r)) as [[]|]; cbn [mbind outcome_bind negb] in H; try done.
  destruct (is_unicast_v4 inner (ih_dst_addr r)) as [[]|]; cbn [mbind outcome_bind] in H; try done.
  - injection H as <-. split_and!; try done. by left.
  - destruct (is_broadcast_v4 inner (ih_dst_addr r)) as [[]|]; cbn [mbind outcome_bind] in H; try done.
    destruct m; try done. destruct (ipv4_addr inner); [|done]. injection H as <-. split_and!; try done. right. eauto.
Qed.

Lemma process_tcp_reply inner slots ip data inner' slots' p :
  process_tcp inner slots ip data = Ret (inner', slots', Some p) -> exists r, Packet.payload p = PayloadTcp r.
Proof.
  unfold process_tcp. intros H.
  assert (forall q, exists r, Packet.payload (tcp_packet q) = PayloadTcp r) as Htcp.
  { intros [ip' r]. exists r. by destruct ip'. }
  match type of H with (?x ≫= _) = _ => destruct x as [[r|]|] end; cbn [mbind outcome_bind] in H; try done.
  destruct (context inner) as [cx|]; cbn [mbind outcome_bind] in H; [|done].
  destruct (tcp_deliver cx ip r slots) as [[s [[cx' reply]|]]|]; cbn [mbind outcome_bind] in H; [| |done].
  - destruct reply; [|done]. injection H as _ _ <-. apply Htcp.
  - destruct (_ || _ || _); [done|]. destruct (rst_reply ip r) as [q|]; cbn [mbind outcome_bind] in H; [|done].
    injection H as _ _ <-. apply Htcp.
Qed.

Lemma unreachable_reply_spec inner reason r data p :
  unreachable_reply inner reason r data = Ret (Some p) ->
  exists quoted, icmpv4_reply inner r (Icmpv4DstUnreachable reason r quoted) = Ret (Some p) /\ quoted `prefix_of` data.
Proof.
  unfold unreachable_reply. intros H. destruct (icmp_reply_payload_len _ _ _) as [n|]; cbn [mbind outcome_bind] in H; [|done].
  destruct (range data 0 n) as [q|] eqn:Hq; cbn [mbind outcome_bind] in H; [|done]. exists q. split; [done|].
  unfold range in Hq. case_match; [|done]. injection Hq as <-. unfold slice. rewrite drop_0. apply prefix_take.
Qed.
End Conduct.

(** C35: the interface sends ICMP messages only where RFC 1122 allows them: only to a
    unicast source, and only to the source of the packet it answers; an error message
    quotes the beginning of the packet it reports, and is never sent about an ICMP
    message or about a packet that was not addressed to a single host. *)
Theorem icmp_messages_sent {BO : ByteOrder} {AV : Vec IpCidr} {RV : Vec Route} {LM : LinearMap Address Neighbor}
    (inner inner' : InterfaceInner) slots slots' meta r data p m
    (Hp : process_ipv4_payload inner slots meta r data = Ret (inner', slots', Some p))
    (Hm : Packet.payload p = PayloadIcmpv4 m) :
  is_unicast_v4 inner (ih_src_addr r) = Ret true /\ IpRepr.dst_addr (Packet.ip_repr p) = Ipv4 (ih_src_addr r) /\
  ((exists ident seq_no echoed, m = Icmpv4EchoReply ident seq_no echoed) \/
   (exists reason quoted, m = Icmpv4DstUnreachable reason r quoted /\ quoted `prefix_of` data) /\
   ih_next_header r <> Protocol.Icmp /\ is_unicast_v4 inner (ih_dst_addr r) = Ret true).
Proof.
  assert (forall reason, ih_next_header r <> Protocol.Icmp -> unreachable_reply inner reason r data = Ret (Some p) ->
    is_unicast_v4 inner (ih_src_addr r) = Ret true /\ IpRepr.dst_addr (Packet.ip_repr p) = Ipv4 (ih_src_addr r) /\
    ((exists ident seq_no echoed, m = Icmpv4EchoReply ident seq_no echoed) \/
     (exists reason quoted, m = Icmpv4DstUnreachable reason r quoted /\ quoted `prefix_of` data) /\
     ih_next_header r <> Protocol.Icmp /\ is_unicast_v4 inner (ih_dst_addr r) = Ret true)) as Hun.
  { intros reason Hnh (quoted & Hq & Hpre)%unreachable_reply_spec.
    apply icmpv4_reply_spec in Hq as (Hsrc & Hdst & Hpl & Hu). rewrite Hm in Hpl. injection Hpl as ->.
    split_and!; try done. right. destruct Hu as [Hu|(? & ? & ? & ?)]; [|done]. split_and!; try done. by exists reason, quoted. }
  unfold process_ipv4_payload in Hp.
  destruct (ih_next_header r) eqn:Hnh;
    try (destruct (unreachable_reply _ _ _ _) as [[q|]|] eqn:Hq; cbn [mbind outcome_bind] in Hp; try done;
         injection Hp as _ _ ->; by apply (Hun Icmpv4DstUnreachable.ProtoUnreachable)).
  - destruct (process_icmpv4 inner r data) as [[q|]|] eqn:Hq; cbn [mbind outcome_bind] in Hp; try done.
    injection Hp as _ _ ->. unfold process_icmpv4 in Hq. case_match; [|done].
    destruct (Icmpv4Repr.parse _ _) as [[[| | |]|]|]; cbn [mbind outcome_bind] in Hq; try done.
    apply icmpv4_reply_spec in Hq as (Hsrc & Hdst & Hpl & _). rewrite Hm in Hpl. injection Hpl as ->.
    split_and!; try done. left. eauto.
  - apply process_tcp_reply in Hp as [t Ht]. by rewrite Ht in Hm.
  - destruct (process_udp _ _ _ _ _ _) as [[s q]|] eqn:Hq; cbn [mbind outcome_bind] in Hp; [|done].
    injection Hp as _ _ ->. unfold process_udp in Hq.
    match type of Hq with (?x ≫= _) = _ => destruct x as [[[u ur]|]|] end; cbn [mbind outcome_bind] in Hq; try done.
    destruct (context inner) as [cx|]; cbn [mbind outcome_bind] in Hq; [|done].
    destruct (udp_deliver _ _ _ _ _ _ _) as [[s' []]|]; cbn [mbind outcome_bind] in Hq; try done.
    destruct (unreachable_reply _ _ _ _) as [[q|]|] eqn:Hq'; cbn [mbind outcome_bind] in Hq; try done.
    injection Hq as _ ->. by apply (Hun Icmpv4DstUnreachable.PortUnreachable).
Qed.

Section Witness.
#[local] Existing Instance network_endian.
Import Hosts.

(** A host with an established connection. *)
Definition busy_slots : list (option Item) := [None; Some (mkItem (Meta.mk 1 Meta.Active) (SocketTcp established_socket))].

Lemma frames_never_panic_witness :
  exists inner' frags' slots' reply,
    process_ethernet host_a busy_slots default_meta (replicate 90 255%Z) empty_fragments =
      Ret (inner', frags', slots', reply) /\
    same_config host_a inner' /\ iface_ok 0%Z inner' /\ frags_safe frags' /\ Forall (slot_inv 0%Z) slots'.
Proof.
  apply (frames_never_panic network_endian_laws (list_map_laws Address Neighbor 4) ltac:(lia) 0%Z).
  - constructor; [by eexists|apply (host_neighbors 1 1); lia|constructor| |by eexists].
    by vm_compute.
  - apply Forall_cons_2; [done|]. apply Forall_singleton. split; [apply established_ok|]. vm_compute. by left.
  - apply Forall_replicate. unfold byte. lia.
  - apply Forall_singleton. constructor; [by apply asm_new_wf; lia|constructor|done].
  - by vm_compute.
Defined.

(** A datagram for a port that is not open. *)
Definition stray_header : IpHeader := mkIpHeader addr_b addr_a Protocol.Udp 11 64.
Definition stray_datagram : list Z := [0; 9; 0; 7; 0; 11; 0; 0; 1; 2; 3]%Z.
Definition stray_error : Icmpv4Repr := Icmpv4DstUnreachable Icmpv4DstUnreachable.PortUnreachable stray_header stray_datagram.

Lemma icmp_messages_sent_witness :
  is_unicast_v4 host_a addr_b = Ret true /\
  ((exists ident seq_no echoed, stray_error = Icmpv4EchoReply ident seq_no echoed) \/
   (exists reason quoted, stray_error = Icmpv4DstUnreachable reason stray_header quoted /\ quoted `prefix_of` stray_datagram) /\
   Protocol.Udp <> Protocol.Icmp /\ is_unicast_v4 host_a addr_a = Ret true).
Proof.
  destruct (icmp_messages_sent host_a host_a [] [] default_meta stray_header stray_datagram
    (PacketIpv4 (mkIpHeader addr_a addr_b Protocol.Icmp 39 64) (PayloadIcmpv4 stray_error)) stray_error) as (Hsrc & _ & Hm).
  - reflexivity.
  - reflexivity.
  - by split.
Defined.
End Witness.
