(* ===== verification/Ipv6Safety.v ===== *)
(** * IPv6 frames and the interface

    Whatever octets arrive in a frame, [process_ethernet_v6] returns and keeps the
    invariants of the interface and its sockets, except for two kinds of packets,
    each of which does take the interface down: a hop-by-hop option that asks for an
    error unless the destination is multicast, in a packet to a multicast destination,
    and a link-layer address option of the length of an IEEE 802.15.4 address, on an
    Ethernet interface. *)

From S2P Require Import Prelude Time Bytes Octets Phy Ip LinkLayer Arp Ipv4Wire Ipv6Wire Ipv6Ext Icmpv4Wire Flags Icmpv6Wire NdiscWire MldWire Icmpv6Messages NdiscProps Icmpv6Props.
From S2P Require Import UdpWire TcpWire TcpWireProps Cidr Ipv6Source Route Neighbor Fragmentation Packet Ipv4Fragments TcpTimers Context.
From S2P Require Import UdpSocket UdpSpec TcpSocket TcpLogic TcpProcess TcpTransitions TcpRun Iface IfaceProcess IfaceArp IfaceSafety Ipv6Iface Collections.
Open Scope nat_scope.

(** ** The options of the hop-by-hop header *)

Lemma hop_option_parse_ok opt : bytes opt ->
  returns (Ipv6OptionRepr.parse opt) (fun r => forall o, r = Ok o -> 1 <= Ipv6OptionRepr.buffer_len o <= length opt).
Proof.
  intros Hb. unfold Ipv6OptionRepr.parse, Ipv6Option.check_len. destruct (Nat.ltb_spec (length opt) 1) as [|H1]; [done|].
  unfold Ipv6Option.option_type. rewrite get_byte_ok by lia. cbn [mbind outcome_bind].
  set (ty := Ipv6OptionType.from _). case_bool_decide as Hty.
  { rewrite Hty. cbn. intros o [= <-]. cbn. lia. }
  destruct (Nat.eqb_spec (length opt) 1) as [|Hne]; [done|]. unfold Ipv6Option.data, Ipv6Option.data_len.
  rewrite get_byte_ok by lia. cbn [mbind outcome_bind]. set (n := opt !!! 1).
  destruct (Nat.ltb_spec (length opt) (Ipv6Option.data_end n)) as [|Hl]; [done|].
  unfold Ipv6Option.data_end in *. rewrite range_Ret by lia. cbn [try_bind mbind outcome_bind].
  destruct ty; try done; cbn; intros o [= <-]; cbn; unfold Ipv6Option.data_end; lia.
Qed.

Section HopByHop.
Context {OV : Vec Ipv6OptionRepr}.

Lemma hop_iterator_ok i : bytes (Ipv6OptionsIterator.data i) ->
  Ipv6OptionsIterator.length i = length (Ipv6OptionsIterator.data i) ->
  returns (Ipv6OptionsIterator.next i) (fun '(i', item) =>
    match item with
    | None => True
    | Some (Err _) => Ipv6OptionsIterator.pos i < Ipv6OptionsIterator.length i
    | Some (Ok _) => Ipv6OptionsIterator.pos i < Ipv6OptionsIterator.pos i' <= Ipv6OptionsIterator.length i /\
        Ipv6OptionsIterator.data i' = Ipv6OptionsIterator.data i /\ Ipv6OptionsIterator.length i' = Ipv6OptionsIterator.length i
    end).
Proof.
  intros Hb Hl. unfold Ipv6OptionsIterator.next.
  destruct (Nat.ltb_spec (Ipv6OptionsIterator.pos i) (Ipv6OptionsIterator.length i)) as [Hp|]; [|done].
  destruct (negb _); cbn [andb]; [|done]. rewrite range_from by lia. cbn [mbind outcome_bind].
  pose proof (hop_option_parse_ok (drop (Ipv6OptionsIterator.pos i) (Ipv6OptionsIterator.data i)) ltac:(by apply bytes_drop)) as Hparse.
  unfold Ipv6Option.new_checked. destruct (Ipv6Option.check_len _) as [[[]|e]|] eqn:Hc; cbn [try_bind mbind outcome_bind].
  - destruct (Ipv6OptionRepr.parse _) as [[o|e]|]; cbn [mbind outcome_bind returns] in *; [|done|done].
    specialize (Hparse o eq_refl). rewrite length_drop in Hparse. cbn. split; [lia|done].
  - done.
  - unfold Ipv6OptionRepr.parse in Hparse. by rewrite Hc in Hparse.
Qed.

Lemma hop_parse_loop_ok fuel i options : bytes (Ipv6OptionsIterator.data i) ->
  Ipv6OptionsIterator.length i = length (Ipv6OptionsIterator.data i) ->
  Ipv6OptionsIterator.length i - Ipv6OptionsIterator.pos i <= fuel ->
  returns (Ipv6HopByHopRepr.parse_loop fuel i options) (fun _ => True).
Proof.
  intros Hb. revert i Hb options. induction fuel as [|fuel IH]; intros i Hb options Hl Hf; cbn [Ipv6HopByHopRepr.parse_loop];
    pose proof (hop_iterator_ok i Hb Hl) as Hn; destruct (Ipv6OptionsIterator.next i) as [[i' [[o|e]|]]|]; cbn [returns mbind outcome_bind] in *;
    try done; [lia|lia|].
  destruct Hn as (Hp & Hd & Hl'). destruct (vec_push o options) as [options' [|]]; [|done].
  apply IH; rewrite ?Hd; lia || done.
Qed.

Lemma hop_parse_ok header : bytes header -> returns (Ipv6HopByHopRepr.parse header) (fun _ => True).
Proof.
  intros Hb. unfold Ipv6HopByHopRepr.parse. destruct (Ipv6HopByHopHeader.check_len header); [|done].
  apply hop_parse_loop_ok; cbn; lia || done.
Qed.
End HopByHop.

(** The extension header of any octets. *)
Lemma ext_checked_parse {B} data (k : Ipv6ExtRepr -> outcome (result B WireError)) :
  (ext_hdr ←? Ipv6ExtHeader.new_checked data; ext_repr ←? Ipv6ExtRepr.parse ext_hdr; k ext_repr) =
  (ext_repr ←? Ipv6ExtRepr.parse data; k ext_repr).
Proof.
  unfold Ipv6ExtHeader.new_checked. destruct (Ipv6ExtHeader.check_len data) as [[[]|e]|] eqn:Hc; cbn [try_bind]; [done| |];
    unfold Ipv6ExtRepr.parse; by rewrite Hc.
Qed.

Lemma ext_parse_ok header : bytes header ->
  returns (Ipv6ExtRepr.parse header) (fun r => forall e, r = Ok e ->
    bytes (ext_data e) /\ 2 + length (ext_data e) <= length header).
Proof.
  intros Hb. unfold Ipv6ExtRepr.parse, Ipv6ExtHeader.check_len.
  destruct (Nat.ltb_spec (length header) 8) as [|H8]; [done|]. rewrite get_byte_ok by lia. cbn [mbind outcome_bind].
  set (n := header !!! 1). destruct (Nat.ltb_spec (length header) (Ipv6ExtHeader.payload_end n)) as [|Hl]; [done|].
  cbn [try_bind]. unfold Ipv6ExtHeader.next_header, Ipv6ExtHeader.header_len, Ipv6ExtHeader.payload.
  rewrite !get_byte_ok by lia. cbn [mbind outcome_bind]. fold n. unfold Ipv6ExtHeader.payload_end in *. rewrite range_Ret by lia.
  cbn [mbind outcome_bind returns]. intros e [= <-]. cbn [ext_data]. split; [by apply bytes_slice|rewrite length_slice; lia].
Qed.

Lemma ipv6_payload_bytes {BO : ByteOrder} packet payload : bytes packet -> Ipv6Packet.payload packet = Ret payload -> bytes payload.
Proof.
  intros Hb. unfold Ipv6Packet.payload. destruct (Ipv6Packet.total_len packet) as [n|]; cbn [mbind outcome_bind]; [|done].
  intros [_ ->]%range_inv. by apply bytes_slice.
Qed.

(** ** The packets that take the interface down *)

(** An option that is to be reported unless the destination is multicast. *)
Definition reports_unicast (o : Ipv6OptionRepr) : bool :=
  match o with
  | Ipv6Unknown type_ _ _ => match Ipv6OptionFailureType.from_type type_ with Ipv6OptionFailureType.DiscardSendUnicast => true | _ => false end
  | _ => false
  end.

Lemma failure_type_known ty id : Ipv6OptionFailureType.from_type ty <> Ipv6OptionFailureType.Unknown id.
Proof.
  unfold Ipv6OptionFailureType.from_type. set (x := Ipv6OptionType.into ty).
  assert (Z.land x 0xc0 = Z.land (x mod 256) 0xc0) as ->.
  { change 0xc0%Z with (Z.land (Z.ones 8) 0xc0) at 1. by rewrite Z.land_assoc, Z.land_ones by lia. }
  intros E. assert (byte (x mod 256)) as Hx by (unfold byte; pose proof (Z.mod_pos_bound x 256); lia).
  apply (all_bytes (fun b => match Ipv6OptionFailureType.from (Z.land b 0xc0) with Ipv6OptionFailureType.Unknown _ => false | _ => true end)
    eq_refl) in Hx. by rewrite E in Hx.
Qed.

Section Interface.
Context {BO : ByteOrder} {NE : NetworkEndian BO} {BO24 : ByteOrder24} {NE24 : NetworkEndian24 BO24}.
Context {RF : Bitflags ROUTER_FLAGS_ALL} {NF : Bitflags NEIGHBOR_FLAGS_ALL}.
Context {AV : Vec IpCidr} {RV : Vec Route} {LM : LinearMap Address Neighbor} {OV : Vec Ipv6OptionRepr}.
Implicit Types (inner : InterfaceInner) (slots : list (option Item)).

(** The link-layer address of a neighbor discovery message. *)
Definition message_lladdr (m : NdiscRepr) : option RawHardwareAddress.t :=
  match m with NeighborSolicit _ lladdr | NeighborAdvert _ _ lladdr => lladdr | _ => None end.

Inductive hostile (caps : ChecksumCapabilities) (packet : list Z) : Prop :=
| hostile_option r payload e options :
    Ipv6Repr.parse packet = Ret (Ok r) -> Ipv6Packet.payload packet = Ret payload ->
    ih_next_header r = Protocol.HopByHop -> Ipv6Address.is_multicast (ih_dst_addr r) = true ->
    Ipv6ExtRepr.parse payload = Ret (Ok e) -> Ipv6HopByHopRepr.parse (ext_data e) = Ret (Ok options) ->
    existsb reports_unicast (as_slice options) = true -> hostile caps packet
| hostile_lladdr r payload rest m a :
    Ipv6Repr.parse packet = Ret (Ok r) -> Ipv6Packet.payload packet = Ret payload -> rest `suffix_of` payload ->
    ih_hop_limit r = 255%Z -> Icmpv6Repr.parse (ih_src_addr r) (ih_dst_addr r) rest caps = Ret (Ok (Icmpv6Ndisc m)) ->
    message_lladdr m = Some a -> RawHardwareAddress.len a = 8 -> hostile caps packet.

(** An interface on an Ethernet link. *)
Definition ethernet inner : Prop :=
  caps_medium (caps inner) = MediumEthernet /\ exists mac, hardware_addr inner = HwEthernet mac /\ EthernetAddress.wf mac.

(** ** Replies *)

Lemma icmpv6_reply_safe inner r m :
  addrs_wf inner -> Ipv6Address.is_unicast (ih_src_addr r) = true ->
  exists src, icmpv6_reply inner r m =
    Ret (Some (PacketIcmpv6 (mkIpHeader src (ih_src_addr r) Protocol.Icmpv6 (Icmpv6Repr.buffer_len m) 64) m)).
Proof.
  intros Ha Hu. unfold icmpv6_reply. destruct (Ipv6Address.is_unicast (ih_dst_addr r)); [by eexists|].
  destruct (source_address_total (as_slice (ip_addrs inner)) (ih_src_addr r) Ha) as (src & -> & _); [|by eexists].
  unfold Ipv6Address.is_unicast in Hu. by destruct (Ipv6Address.is_unspecified _), (Ipv6Address.is_multicast _).
Qed.

Lemma quoted_payload_ok r data : quoted_payload r data = Ret (take 1192 data).
Proof.
  unfold quoted_payload. assert (icmp_reply_payload_len (length data) IPV6_MIN_MTU (Ipv6Repr.buffer_len r) = Ret (length data `min` 1192)) as ->
    by reflexivity.
  cbn [mbind outcome_bind]. rewrite range_Ret by lia. unfold slice. rewrite drop_0, Nat.sub_0_r. f_equal.
  destruct (Nat.le_ge_cases (length data) 1192); [rewrite !take_ge by lia; done|by rewrite Nat.min_r by lia].
Qed.

Lemma param_problem_safe inner reason r data :
  addrs_wf inner -> Ipv6Address.is_unicast (ih_src_addr r) = true -> exists reply, param_problem inner reason r data = Ret reply.
Proof.
  intros Ha Hu. unfold param_problem. rewrite quoted_payload_ok. cbn [mbind outcome_bind].
  destruct (icmpv6_reply_safe inner r (Icmpv6ParamProblem reason (wrap_u 32 (Z.of_nat (Ipv6Repr.buffer_len r))) r (take 1192 data)) Ha Hu)
    as [src ->]. by eexists.
Qed.

Lemma hop_options_safe inner r data options :
  addrs_wf inner -> Ipv6Address.is_unicast (ih_src_addr r) = true ->
  Ipv6Address.is_multicast (ih_dst_addr r) = false \/ existsb reports_unicast options = false ->
  exists stop, hop_options inner r data options = Ret stop.
Proof.
  intros Ha Hu. induction options as [|o options IH]; intros Hm; cbn [hop_options]; [by eexists|].
  assert (Ipv6Address.is_multicast (ih_dst_addr r) = false \/ existsb reports_unicast options = false) as Hrest.
  { destruct Hm as [|H]; [by left|]. right. by apply orb_false_iff in H as [_ ?]. }
  specialize (IH Hrest). destruct o as [|n|ty n d]; [done|done|].
  destruct (param_problem_safe inner Icmpv6ParamProblem.UnrecognizedOption r data Ha Hu) as [reply ->]. cbn [mbind outcome_bind].
  pose proof (failure_type_known ty) as Hk. cbn [existsb reports_unicast] in Hm.
  destruct (Ipv6OptionFailureType.from_type ty) as [| | | |id]; try by eexists; try done.
  - done.
  - destruct Hm as [->|H]; [by eexists|done].
  - by destruct (Hk id).
Qed.

Lemma process_hopbyhop_safe inner r data :
  addrs_wf inner -> Ipv6Address.is_unicast (ih_src_addr r) = true -> bytes data ->
  (exists resp, process_hopbyhop inner r data = Ret resp /\
    forall next_header rest, resp = HopContinue next_header rest -> rest `suffix_of` data) \/
  (Ipv6Address.is_multicast (ih_dst_addr r) = true /\ exists e options, Ipv6ExtRepr.parse data = Ret (Ok e) /\
    Ipv6HopByHopRepr.parse (ext_data e) = Ret (Ok options) /\ existsb reports_unicast (as_slice options) = true).
Proof.
  intros Ha Hu Hb. unfold process_hopbyhop. rewrite ext_checked_parse. pose proof (ext_parse_ok data Hb) as He.
  destruct (Ipv6ExtRepr.parse data) as [[e|err]|]; cbn [try_bind returns] in *; [|by left; eexists|done].
  destruct (He e eq_refl) as [Hbd Hl]. unfold Ipv6HopByHopHeader.new_checked.
  pose proof (hop_parse_ok (ext_data e) Hbd) as Hp. destruct (Ipv6HopByHopHeader.check_len (ext_data e)); cbn [try_bind]; [|by left; eexists].
  destruct (Ipv6HopByHopRepr.parse (ext_data e)) as [[options|err]|] eqn:Ho; cbn [try_bind mbind outcome_bind returns] in *;
    [|by left; eexists|done].
  destruct (Ipv6Address.is_multicast (ih_dst_addr r)) eqn:Hm, (existsb reports_unicast (as_slice options)) eqn:Hr;
    try (by right; split; [|exists e, options]);
    left; (destruct (hop_options_safe inner r data (as_slice options) Ha Hu) as [stop ->]; [rewrite ?Hm, ?Hr; auto|]);
    (cbn [mbind outcome_bind]; destruct stop as [reply|]; [by eexists|]); unfold Ipv6ExtRepr.header_len;
    rewrite range_from by lia; eexists; (split; [done|]); intros ? rest [= _ <-]; apply suffix_drop.
Qed.

(** ** Neighbor discovery *)

Lemma usable_lladdr_safe inner a target :
  caps_medium (caps inner) = MediumEthernet -> lladdr_ok a -> RawHardwareAddress.len a <> 8 ->
  exists usable, usable_lladdr inner a target = Ret usable /\
    forall h, usable = Some h -> exists mac, h = HwEthernet mac /\ EthernetAddress.is_unicast mac = true.
Proof.
  intros Hm [Hl Hd _] H8. unfold usable_lladdr, RawHardwareAddress.parse. rewrite Hm. destruct Hl as [Hl|]; [|done]. rewrite Hl.
  change (6 <? 6) with false. cbn iota. unfold RawHardwareAddress.as_bytes. rewrite Hl, range_Ret by lia. cbn [mbind outcome_bind].
  unfold EthernetAddress.from_bytes. rewrite length_slice, Hd. change ((6 - 0) `min` (8 - 0) =? 6) with true.
  cbn [mbind outcome_bind HardwareAddress.is_unicast].
  destruct (EthernetAddress.is_unicast _) eqn:Hu; cbn [negb orb]; [|by eexists].
  destruct (negb _); [by eexists|]. eexists. split; [done|]. intros h [= <-]. by eexists.
Qed.

Lemma raw_hardware_addr_ok inner mac :
  hardware_addr inner = HwEthernet mac -> EthernetAddress.wf mac ->
  exists a, raw_hardware_addr inner = Ret a /\ RawHardwareAddress.from_bytes mac = Ret a.
Proof.
  intros Hm [Hl _]. unfold raw_hardware_addr. rewrite Hm. cbn [HardwareAddress.as_bytes mbind outcome_bind].
  unfold RawHardwareAddress.from_bytes. rewrite range_Ret by (cbn; lia). by eexists.
Qed.

Lemma neighbor_advert_safe inner r target : ethernet inner -> exists reply, neighbor_advert inner r target = Ret reply.
Proof.
  intros (_ & mac & Hm & Hw). unfold neighbor_advert. destruct (_ && _); [|by eexists].
  destruct (raw_hardware_addr_ok inner mac Hm Hw) as (a & -> & _). by eexists.
Qed.

Lemma icmpv6_checked_parse src dst data caps :
  (icmp_packet ←? Icmpv6Packet.new_checked data; Icmpv6Repr.parse src dst icmp_packet caps) = Icmpv6Repr.parse src dst data caps.
Proof.
  unfold Icmpv6Packet.new_checked. destruct (Icmpv6Packet.check_len data) as [[[]|e]|] eqn:Hc; cbn [try_bind]; [done| |];
    unfold Icmpv6Repr.parse; by rewrite Hc.
Qed.

Context {N : nat} {LL : LinearMapLaws LM N}.
Variables (t0 : Instant) (HN : 0 < N).

Lemma fill_safe inner a mac :
  iface_ok t0 inner -> Ipv6Address.is_unicast a = true -> EthernetAddress.is_unicast mac = true ->
  exists cache, Cache.fill (Ipv6 a) (HwEthernet mac) (if_now inner) (neighbor_cache inner) = Ret cache.
Proof.
  intros Hi Ha Hm. destruct (io_clock _ _ Hi) as [_ Hclk].
  destruct (cache_step_fill (neighbor_cache inner) (FillAt (Ipv6 a) (HwEthernet mac) (if_now inner)) (Ipv6 a)
    (mkNeighbor (HwEthernet mac) (if_now inner + Cache.ENTRY_LIFETIME)%Z) HN) as (cache & Hcache & _); [|done|by exists cache].
  cbn. rewrite Hm. split_and!; try done. unfold clock_ok, Cache.ENTRY_LIFETIME, TIME_MAX in *. lia.
Qed.

Lemma process_ndisc_safe inner r m :
  iface_ok t0 inner -> ethernet inner -> Ipv6Address.is_unicast (ih_src_addr r) = true -> ndisc_parsed m ->
  (exists inner' reply, process_ndisc inner r m = Ret (inner', reply) /\ same_config inner inner') \/
  (exists a, message_lladdr m = Some a /\ RawHardwareAddress.len a = 8).
Proof.
  intros Hi Heth Hu Hp. pose proof (proj1 Heth) as Hm. pose proof (same_config_refl inner) as Hrefl.
  destruct (message_lladdr m) as [a|] eqn:Ha.
  - destruct (decide (RawHardwareAddress.len a = 8)) as [|H8]; [right; by exists a|]. left.
    assert (forall target, exists usable, usable_lladdr inner a target = Ret usable /\
      forall h, usable = Some h -> exists cache, Cache.fill (Ipv6 (ih_src_addr r)) h (if_now inner) (neighbor_cache inner) = Ret cache) as Hus.
    { intros target. destruct (usable_lladdr_safe inner a target Hm) as (usable & -> & Hus); [|done|].
      - destruct m; cbn in Ha, Hp; simplify_eq; cbn in Hp; apply Hp.
      - eexists. split; [done|]. intros h Hh. destruct (Hus h Hh) as (mac & -> & Hmac). by apply fill_safe. }
    destruct m as [| |target lladdr|flags target lladdr|]; cbn in Ha; try done; subst lladdr; cbn [process_ndisc];
      destruct (Hus target) as (usable & -> & Hfill); cbn [mbind outcome_bind]; (destruct usable as [h|]; [|by do 2 eexists]);
      destruct (Hfill h eq_refl) as [cache Hc].
    + rewrite Hc. cbn [mbind outcome_bind].
      match goal with |- context [neighbor_advert ?i r target] => destruct (neighbor_advert_safe i r target Heth) as [reply ->] end.
      do 2 eexists. split; [done|]. by exists cache, (if_rand inner).
    + assert (exists b, (if flags_contains flags (from_bits_truncate NEIGHBOR_OVERRIDE) then Ret true
        else a ← Cache.lookup (Ipv6 (ih_src_addr r)) (if_now inner) (neighbor_cache inner); Ret (negb (found a))) = Ret b) as [b ->].
      { destruct (flags_contains _ _); [by eexists|]. unfold Cache.lookup. cbn [Address.is_unicast]. rewrite Hu.
        cbn [rust_assert mbind outcome_bind]. by repeat case_match; eexists. }
      cbn [mbind outcome_bind]. destruct b; [|by do 2 eexists]. rewrite Hc. do 2 eexists. split; [done|]. by exists cache, (if_rand inner).
  - left. destruct m as [| |target lladdr|flags target lladdr|]; cbn in Ha; subst; try by do 2 eexists.
    cbn [process_ndisc]. destruct (neighbor_advert_safe inner r target Heth) as [reply ->]. by do 2 eexists.
Qed.

(** ** The handlers *)

(** A reply, and what is left of the interface and its sockets. *)
Definition handled inner (out : outcome (InterfaceInner * list (option Item) * option Packet6)) : Prop :=
  exists inner' slots' reply, out = Ret (inner', slots', reply) /\ same_config inner inner' /\ Forall (slot_inv t0) slots'.

Lemma process_icmpv6_safe inner slots r data :
  iface_ok t0 inner -> ethernet inner -> Ipv6Address.is_unicast (ih_src_addr r) = true -> ipv6_repr_wf r ->
  bytes data -> (Z.of_nat (length data) <= U16_MAX)%Z -> Forall (slot_inv t0) slots ->
  handled inner ('(inner, reply) ← process_icmpv6 inner r data; Ret (inner, slots, reply)) \/
  (ih_hop_limit r = 255%Z /\ exists m a, Icmpv6Repr.parse (ih_src_addr r) (ih_dst_addr r) data (caps_checksum (caps inner)) =
    Ret (Ok (Icmpv6Ndisc m)) /\ message_lladdr m = Some a /\ RawHardwareAddress.len a = 8).
Proof.
  intros Hi Heth Hu [Hs Hd _ _ _] Hb Hl Hsl. pose proof (same_config_refl inner) as Hrefl.
  assert (forall reply, handled inner (Ret (inner, slots, reply))) as Hret by (intros; by do 3 eexists).
  unfold process_icmpv6. rewrite icmpv6_checked_parse.
  pose proof (icmpv6_parse_ok _ _ data (caps_checksum (caps inner)) Hs Hd Hb ltac:(lia)) as Hp.
  destruct (Icmpv6Repr.parse _ _ _ _) as [[m|e]|]; cbn [returns mbind outcome_bind] in *; [|by left|done].
  destruct m as [| | | |ident seq_no echo| |m|]; cbn [mbind outcome_bind]; try (by left).
  - left. destruct (icmpv6_reply_safe inner r (Icmpv6EchoReply ident seq_no echo) (io_addrs _ _ Hi) Hu) as [src ->]. apply Hret.
  - destruct (Z.eqb_spec (ih_hop_limit r) 0xff) as [Hh|]; [|left; apply Hret]. rewrite (proj1 Heth).
    destruct (process_ndisc_safe inner r m Hi Heth Hu (Hp _ eq_refl)) as [(inner' & reply & -> & Hsame)|(a & Ha & H8)].
    + left. by do 3 eexists.
    + right. split; [done|]. by exists m, a.
Qed.

Lemma context6_ok inner : iface_ok t0 inner -> exists cx, context6 inner = Ret cx /\ clock t0 cx.
Proof. intros [_ _ _ Hc [mtu Hm]]. unfold context6. rewrite Hm. cbn [mbind outcome_bind]. by eexists. Qed.

Lemma process_udp_v6_safe inner slots meta r data :
  iface_ok t0 inner -> Ipv6Address.is_unicast (ih_src_addr r) = true -> ipv6_repr_wf r -> bytes data -> Forall (slot_inv t0) slots ->
  handled inner ('(slots, reply) ← process_udp_v6 inner slots meta r data; Ret (inner, slots, reply)).
Proof.
  intros Hi Hu [Hsrc Hdst _ _ _] Hb Hs. pose proof (same_config_refl inner) as Hrefl. unfold process_udp_v6.
  destruct (udp_parse_ok data _ _ (caps_checksum (caps inner)) Hb Hsrc Hdst eq_refl) as (res & Hres & Hp).
  unfold UdpPacket.new_checked in *.
  destruct (UdpPacket.check_len data) as [[[]|e]|]; cbn [try_bind] in *; [|by do 3 eexists|done].
  rewrite Hres. destruct res as [udp_repr|e]; cbn [try_bind mbind outcome_bind]; [|by do 3 eexists].
  destruct (context6_ok inner Hi) as (cx & -> & _). cbn [mbind outcome_bind].
  destruct Hp as (_ & _ & n & _ & _ & Hpay).
  destruct (udp_deliver_safe t0 cx meta (ReprIpv6 r) udp_repr data _ slots false Hpay Hs) as (slots' & b & -> & Hs').
  cbn [mbind outcome_bind]. destruct b; [by do 3 eexists|]. rewrite quoted_payload_ok. cbn [mbind outcome_bind].
  destruct (icmpv6_reply_safe inner r (Icmpv6DstUnreachable Icmpv6DstUnreachable.PortUnreachable r (take 1192 data)) (io_addrs _ _ Hi) Hu)
    as [src ->]. by do 3 eexists.
Qed.

Lemma process_tcp_v6_safe inner slots r data :
  iface_ok t0 inner -> sockets_ok t0 slots -> ipv6_repr_wf r -> bytes data -> (Z.of_nat (length data) <= U16_MAX)%Z ->
  handled inner (process_tcp_v6 inner slots r data).
Proof.
  intros Hi Hs [Hsrc Hdst _ _ _] Hb Hl. unfold process_tcp_v6. cbn [IpRepr.src_addr IpRepr.dst_addr]. rewrite tcp_checked_parse.
  pose proof (sockets_ok_inv _ _ Hs) as Hsi. pose proof (same_config_refl inner).
  destruct (tcp_parse_ok data _ _ (caps_checksum (caps inner)) Hb ltac:(lia) Hsrc Hdst eq_refl) as (res & -> & Hp).
  cbn [mbind outcome_bind]. destruct res as [seg|e]; [|by do 3 eexists]. destruct (Hp seg eq_refl) as (Hr & _ & _ & Hpl).
  assert (summable data) as Hsum by (split; [done|lia]). assert (seg_ok seg) as Hseg by (by eapply (parsed_seg_ok HN data)).
  destruct (context6_ok inner Hi) as (cx & -> & Hc). cbn [mbind outcome_bind].
  destruct (tcp_deliver_safe t0 cx (ReprIpv6 r) seg slots Hc Hseg Hs) as (slots' & res & -> & Hs').
  cbn [mbind outcome_bind]. destruct res as [[cx' reply]|].
  - do 3 eexists. split; [done|]. split; [|done]. by exists (neighbor_cache inner), (rand cx').
  - destruct (bool_decide_reflect (control seg = Rst)) as [|Hrst]; [by do 3 eexists|]. cbn [orb].
    destruct (_ || _); [by do 3 eexists|].
    pose proof (rst_reply_ok (ReprIpv6 r) seg Hrst (so_payload _ Hseg)) as Hrep.
    apply returns_exists in Hrep as (p & -> & _). cbn [mbind outcome_bind]. by do 3 eexists.
Qed.

Lemma process_nxt_hdr_safe inner slots meta r next_header data :
  iface_ok t0 inner -> ethernet inner -> sockets_ok t0 slots -> Ipv6Address.is_unicast (ih_src_addr r) = true -> ipv6_repr_wf r ->
  bytes data -> (Z.of_nat (length data) <= U16_MAX)%Z ->
  handled inner (process_nxt_hdr inner slots meta r next_header data) \/
  (ih_hop_limit r = 255%Z /\ exists m a, Icmpv6Repr.parse (ih_src_addr r) (ih_dst_addr r) data (caps_checksum (caps inner)) =
    Ret (Ok (Icmpv6Ndisc m)) /\ message_lladdr m = Some a /\ RawHardwareAddress.len a = 8).
Proof.
  intros Hi Heth Hs Hu Hr Hb Hl. pose proof (sockets_ok_inv _ _ Hs) as Hsi. pose proof (same_config_refl inner) as Hrefl.
  destruct (param_problem_safe inner Icmpv6ParamProblem.UnrecognizedNxtHdr r data (io_addrs _ _ Hi) Hu) as [reply Hpp].
  unfold process_nxt_hdr. destruct next_header; rewrite ?Hpp; cbn [mbind outcome_bind]; try (left; by do 3 eexists).
  - left. by apply process_tcp_v6_safe.
  - left. by apply process_udp_v6_safe.
  - by apply process_icmpv6_safe.
Qed.

Lemma process_ipv6_safe inner slots meta packet :
  iface_ok t0 inner -> ethernet inner -> sockets_ok t0 slots -> bytes packet ->
  handled inner (process_ipv6 inner slots meta packet) \/ hostile (caps_checksum (caps inner)) packet.
Proof.
  intros Hi Heth Hs Hb. pose proof (sockets_ok_inv _ _ Hs) as Hsi. pose proof (same_config_refl inner) as Hrefl.
  assert (forall reply, handled inner (Ret (inner, slots, reply))) as Hret by (intros; by do 3 eexists).
  unfold process_ipv6. destruct (ipv6_parse_ok packet Hb) as (res & Hp & Hok). rewrite Hp. cbn [mbind outcome_bind].
  destruct res as [r|e]; [|by left]. destruct (Hok r eq_refl) as (Hr & _ & payload & Hpay & Hlen).
  destruct (Ipv6Address.is_unicast (ih_src_addr r)) eqn:Hu; cbn [negb]; [|by left]. rewrite Hpay. cbn [mbind outcome_bind].
  pose proof (ipv6_payload_bytes _ _ Hb Hpay) as Hbp. pose proof (v6_len _ Hr) as Hw. unfold word in Hw.
  assert (forall next_header rest, rest `suffix_of` payload ->
    handled inner (if negb (has_ip_addr inner (Ipv6 (ih_dst_addr r))) && negb (has_multicast_group_v6 inner (ih_dst_addr r))
         && negb (Ipv6Address.is_loopback (ih_dst_addr r)) then Ret (inner, slots, None)
      else process_nxt_hdr inner slots meta r next_header rest) \/ hostile (caps_checksum (caps inner)) packet) as Hnext.
  { intros nh rest Hsuf. destruct (_ && _); [by left|]. pose proof Hsuf as [pre ->].
    destruct (process_nxt_hdr_safe inner slots meta r nh rest Hi Heth Hs Hu Hr) as [|(Hh & m & a & Hm & Ha & H8)].
    - by apply Forall_app in Hbp as [_ ?].
    - rewrite length_app in Hlen. lia.
    - by left.
    - right. by eapply hostile_lladdr. }
  case_bool_decide as Hnh; [|cbn [mbind outcome_bind]; by apply Hnext].
  destruct (process_hopbyhop_safe inner r payload (io_addrs _ _ Hi) Hu Hbp) as [(resp & -> & Hsuf)|(Hm & e & options & He & Ho & Hx)].
  - cbn [mbind outcome_bind]. destruct resp as [nh rest|reply]; [|by left]. apply Hnext. by eapply Hsuf.
  - right. by eapply hostile_option.
Qed.

Lemma process_ethernet_v6_safe inner slots meta frame :
  iface_ok t0 inner -> ethernet inner -> sockets_ok t0 slots -> bytes frame ->
  handled inner (process_ethernet_v6 inner slots meta frame) \/ hostile (caps_checksum (caps inner)) (drop 14 frame).
Proof.
  intros Hi Heth Hs Hb. pose proof (sockets_ok_inv _ _ Hs) as Hsi. pose proof (same_config_refl inner) as Hrefl.
  assert (handled inner (Ret (inner, slots, None))) as Hdrop by (by do 3 eexists).
  unfold process_ethernet_v6, Frame.new_checked, Frame.check_len, ETHERNET_HEADER_LEN.
  destruct (Nat.ltb_spec (length frame) 14) as [|Hl]; [by left|].
  destruct (frame_fields_ok frame Hb Hl) as (ty & -> & _ & -> & ->). cbn [mbind outcome_bind].
  destruct (_ && _); [by left|]. assert (bytes (drop 14 frame)) as Hb' by (by apply bytes_drop). destruct ty; try by left.
  destruct (ipv6_parse_ok (drop 14 frame) Hb') as (res & Hp & _). unfold Ipv6Packet.new_checked.
  destruct (Ipv6Packet.check_len (drop 14 frame)) as [[[]|e]|] eqn:Hc; cbn [try_bind mbind outcome_bind]; [|by left|].
  - by apply process_ipv6_safe.
  - unfold Ipv6Repr.parse in Hp. by rewrite Hc in Hp.
Qed.
End Interface.

(** C6: no IPv6 frame takes the interface down except the two kinds of [hostile]:
    whatever octets arrive, [process_ethernet_v6] returns, of the interface only the
    neighbor cache and the random state change, and every socket satisfies its
    invariant again; or the frame carries a hop-by-hop option that asks for an error
    message and is sent to a multicast address, or a neighbor discovery message with a
    link-layer address of eight octets.  The interface is one on an Ethernet device,
    the sockets are such that a SACK option can be computed ([sack_ok]; TcpFindings.v
    shows the panic otherwise), and the clock is within range. *)
Theorem ipv6_frames_processed {BO : ByteOrder} (NE : NetworkEndian BO) {BO24 : ByteOrder24} (NE24 : NetworkEndian24 BO24)
    {RF : Bitflags ROUTER_FLAGS_ALL} {NF : Bitflags NEIGHBOR_FLAGS_ALL} {AV : Vec IpCidr} {RV : Vec Route}
    {LM : LinearMap Address Neighbor} {OV : Vec Ipv6OptionRepr} {N : nat} (LL : LinearMapLaws LM N) (HN : 0 < N)
    t0 inner slots meta frame
    (Hi : iface_ok t0 inner) (He : ethernet inner) (Hs : sockets_ok t0 slots) (Hb : bytes frame)
    (Hh : ~ hostile (caps_checksum (caps inner)) (drop 14 frame)) :
  exists inner' slots' reply, process_ethernet_v6 inner slots meta frame = Ret (inner', slots', reply) /\
    same_config inner inner' /\ iface_ok t0 inner' /\ Forall (slot_inv t0) slots'.
Proof.
  destruct (process_ethernet_v6_safe t0 HN inner slots meta frame Hi He Hs Hb) as [(inner' & slots' & reply & Hp & Hsame & Hs')|]; [|done].
  exists inner', slots', reply. split_and!; try done. by apply (same_config_ok t0 inner).
Qed.

(** ** Hosts *)

Module Hosts6.
#[global] Instance addr_vec : Vec IpCidr := list_vec IpCidr 2.
#[global] Instance route_vec : Vec Route := list_vec Route 2.
#[global] Instance neighbor_map : LinearMap Address Neighbor := list_map Address Neighbor 4.
#[global] Instance option_vec : Vec Ipv6OptionRepr := list_vec Ipv6OptionRepr 4.
#[global] Instance router_flags : Bitflags ROUTER_FLAGS_ALL := int_flags ROUTER_FLAGS_ALL.
#[global] Instance neighbor_flags : Bitflags NEIGHBOR_FLAGS_ALL := int_flags NEIGHBOR_FLAGS_ALL.

Definition link_local (x : Z) : list Z := [0xfe; 0x80; 0; 0; 0; 0; 0; 0; 0; 0; 0; 0; 0; 0; 0; x]%Z.
Definition mac (x : Z) : list Z := [2; 0; 0; 0; 0; x]%Z.

(** An Ethernet host with a link-local address. *)
Definition host6 (x : Z) : InterfaceInner :=
  mkInner addr_vec route_vec neighbor_map (mkDeviceCapabilities MediumEthernet 1514 None all_checksums) 0%Z
    (Rand.new 0) Cache.new (HwEthernet (mac x)) 0 (vec_push (CidrIpv6 (Ipv6Cidr.mk (link_local x) 64)) vec_new).1 false Routes.new.

Lemma host6_ok x : (1 <= x <= 255)%Z -> iface_ok 0%Z (host6 x) /\ ethernet (host6 x).
Proof.
  intros Hx. split; [constructor|split; [done|]].
  - by eexists.
  - apply Forall_singleton. split; [|cbn; lia]. split; [done|]. repeat apply Forall_cons_2; try apply Forall_nil_2; unfold byte; lia.
  - constructor.
  - by vm_compute.
  - by eexists.
  - exists (mac x). split; [done|]. apply Hosts.mac_wf. lia.
Defined.

(** The frame of a packet from host 2 to all nodes. *)
Definition to_all_nodes (next_header hop_limit : Z) (payload : list Z) : list Z :=
  [0x33; 0x33; 0; 0; 0; 1]%Z ++ mac 2 ++ [0x86; 0xdd]%Z ++ [0x60; 0; 0; 0; 0; Z.of_nat (length payload); next_header; hop_limit]%Z ++
  link_local 2 ++ Ipv6Address.LINK_LOCAL_ALL_NODES ++ payload.
End Hosts6.

(** ** Frames that take the interface down *)

Module Ipv6Findings.
#[local] Existing Instance network_endian.
#[local] Existing Instance network_endian24.
Import Hosts6.

(** A hop-by-hop header with an unknown option of type 0xc5, to all nodes. *)
Definition option_frame : list Z := to_all_nodes 0 64 [59; 0; 0xc5; 4; 0; 0; 0; 0]%Z.

(** An advertisement with a link-layer address option of two units, to all nodes. *)
Definition advert_frame : list Z :=
  to_all_nodes 58 255 ([136; 0; 87; 143; 32; 0; 0; 0]%Z ++ link_local 2 ++ [2; 2; 2; 0; 0; 0; 0; 2; 0; 0; 0; 0; 0; 0; 0; 0]%Z).

(** The header of both frames. *)
Definition header (next_header : Protocol.t) (len : nat) (hop_limit : Z) : IpHeader :=
  mkIpHeader (link_local 2) Ipv6Address.LINK_LOCAL_ALL_NODES next_header len hop_limit.

(** The frame is for every interface, and the packet is read before anything is
    compared with its configuration. *)
Lemma to_all_nodes_read inner slots meta frame packet r payload :
  Frame.new_checked frame = Ok frame -> Frame.dst_addr frame = Ret [0x33; 0x33; 0; 0; 0; 1]%Z -> Frame.ethertype frame = Ret EtherType.Ipv6 ->
  Frame.payload frame = Ret packet -> Ipv6Packet.new_checked packet = Ret (Ok packet) -> Ipv6Repr.parse packet = Ret (Ok r) ->
  Ipv6Address.is_unicast (ih_src_addr r) = true -> Ipv6Packet.payload packet = Ret payload ->
  process_ethernet_v6 inner slots meta frame =
    (next ← (if bool_decide (ih_next_header r = Protocol.HopByHop) then process_hopbyhop inner r payload
             else Ret (HopContinue (ih_next_header r) payload));
     match next with
     | HopDiscard e => Ret (inner, slots, e)
     | HopContinue next_header ip_payload =>
         if negb (has_ip_addr inner (Ipv6 (ih_dst_addr r))) && negb (has_multicast_group_v6 inner (ih_dst_addr r))
            && negb (Ipv6Address.is_loopback (ih_dst_addr r))
         then Ret (inner, slots, None)
         else process_nxt_hdr inner slots meta r next_header ip_payload
     end).
Proof.
  intros Hf Hd Ht Hp Hc Hr Hs Hpay. unfold process_ethernet_v6, process_ipv6. rewrite Hf, Hd. cbn [mbind outcome_bind].
  change (negb (EthernetAddress.is_multicast [0x33; 0x33; 0; 0; 0; 1]%Z)) with false. rewrite andb_false_r. cbn [andb].
  rewrite Ht, Hp. cbn [mbind outcome_bind]. rewrite Hc. cbn [mbind outcome_bind]. rewrite Hr. cbn [mbind outcome_bind]. rewrite Hs.
  cbn [negb]. by rewrite Hpay.
Qed.

(** C39: an option that is to be reported unless the packet went to a multicast address
    reaches [unreachable!()] when it did: one such frame takes down any interface,
    whatever its addresses and sockets. *)
Theorem multicast_option_panics inner slots meta : process_ethernet_v6 inner slots meta option_frame = Panic.
Proof.
  rewrite (to_all_nodes_read inner slots meta option_frame (drop 14 option_frame) (header Protocol.HopByHop 8 64)
    [59; 0; 0xc5; 4; 0; 0; 0; 0]%Z) by (by vm_compute).
  rewrite bool_decide_eq_true_2 by done. unfold process_hopbyhop. rewrite ext_checked_parse.
  replace (Ipv6ExtRepr.parse [59; 0; 0xc5; 4; 0; 0; 0; 0]%Z) with
    (Ret (Ok (mkExt (Protocol.from 59) 0 [0xc5; 4; 0; 0; 0; 0]%Z)) : outcome (result Ipv6ExtRepr WireError)) by (by vm_compute).
  cbn [try_bind ext_data]. replace (Ipv6HopByHopHeader.new_checked [0xc5; 4; 0; 0; 0; 0]%Z) with
    (Ok [0xc5; 4; 0; 0; 0; 0]%Z : result (list Z) WireError) by done. cbn [try_bind].
  replace (Ipv6HopByHopRepr.parse [0xc5; 4; 0; 0; 0; 0]%Z) with
    (Ret (Ok (vec_push (Ipv6Unknown (Ipv6OptionType.from 0xc5) 4 [0; 0; 0; 0]%Z) vec_new).1) : outcome (result (vec Ipv6OptionRepr) WireError)) by (by vm_compute).
  reflexivity.
Qed.

(** A link-layer address of eight octets does not fit an Ethernet address: one
    advertisement with a valid checksum takes down any Ethernet interface. *)
Theorem long_lladdr_panics inner slots meta :
  caps_medium (caps inner) = MediumEthernet -> process_ethernet_v6 inner slots meta advert_frame = Panic.
Proof.
  intros Hm. rewrite (to_all_nodes_read inner slots meta advert_frame (drop 14 advert_frame) (header Protocol.Icmpv6 40 255)
    (drop 54 advert_frame)) by (by vm_compute).
  rewrite bool_decide_eq_false_2 by done. cbn [mbind outcome_bind]. unfold has_multicast_group_v6.
  rewrite bool_decide_eq_true_2 by done. rewrite andb_false_r. cbn [andb header ih_next_header process_nxt_hdr].
  unfold process_icmpv6. rewrite icmpv6_checked_parse.
  replace (Icmpv6Repr.parse (ih_src_addr (header Protocol.Icmpv6 40 255)) (ih_dst_addr (header Protocol.Icmpv6 40 255))
    (drop 54 advert_frame) (caps_checksum (caps inner))) with
    (Ret (Ok (Icmpv6Ndisc (NeighborAdvert (from_bits_truncate NEIGHBOR_OVERRIDE) (link_local 2)
      (Some (RawHardwareAddress.mk 8 [2; 0; 0; 0; 0; 2; 0; 0]%Z))))) : outcome (result Icmpv6Repr WireError)).
  - cbn [mbind outcome_bind header ih_hop_limit]. rewrite Z.eqb_refl, Hm. cbn [process_ndisc]. unfold usable_lladdr. rewrite Hm. reflexivity.
  - destruct (caps_checksum (caps inner)) as [? ? ? ? []]; by vm_compute.
Qed.
End Ipv6Findings.

(** An echo request to all nodes. *)
Module Ipv6SafetyWitness.
#[local] Existing Instance network_endian.
#[local] Existing Instance network_endian24.
Import Hosts6 Ipv6Findings.

Definition echo_frame : list Z := to_all_nodes 58 64 [128; 0; 0x03; 0x78; 0; 1; 0; 2; 7; 7]%Z.

Lemma ipv6_frames_processed_witness :
  exists inner' slots' reply,
    process_ethernet_v6 (host6 1) busy_slots default_meta echo_frame = Ret (inner', slots', reply) /\
    same_config (host6 1) inner' /\ iface_ok 0%Z inner' /\ Forall (slot_inv 0%Z) slots'.
Proof.
  apply (ipv6_frames_processed network_endian_laws network_endian24_laws (list_map_laws Address Neighbor 4) ltac:(lia) 0%Z).
  - by apply host6_ok.
  - by apply host6_ok.
  - apply Forall_cons_2; [done|]. apply Forall_singleton. split; [apply established_ok|]. vm_compute. by left.
  - by_decide.
  - assert (Ipv6Repr.parse (drop 14 echo_frame) = Ret (Ok (header Protocol.Icmpv6 10 64))) as Hr by (by vm_compute).
    intros [r ? ? ? H _ Hn|r ? ? ? ? H _ _ Hh]; rewrite Hr in H; injection H as <-; [discriminate Hn|discriminate Hh].
Defined.
End Ipv6SafetyWitness.
