(* ===== verification/Ipv6Resolution.v ===== *)
(** * Neighbor discovery between two interfaces

    An ICMPv6 message that one interface transmits is the message the other one's
    handler sees; an interface that looks for the hardware address of a neighbor sends
    a neighbor solicitation, the neighbor answers it with an advertisement, and both
    have learned each other's hardware address. *)

From S2P Require Import Prelude Time Bytes Octets Phy Ip LinkLayer Arp Ipv4Wire Ipv6Wire Ipv6Ext Icmpv4Wire Flags Icmpv6Wire NdiscWire MldWire Icmpv6Messages NdiscProps Icmpv6Props.
From S2P Require Import UdpWire TcpWire TcpWireProps Cidr Ipv6Source Route Neighbor Fragmentation Packet Ipv4Fragments TcpTimers Context.
From S2P Require Import UdpSocket TcpSocket Iface IfaceProcess IfaceArp IfaceSafety Ipv6Iface Ipv6Safety Collections.
Open Scope nat_scope.

Section Link.
Context {BO : ByteOrder} {NE : NetworkEndian BO} {BO24 : ByteOrder24} {NE24 : NetworkEndian24 BO24}.
Context {RF : Bitflags ROUTER_FLAGS_ALL} {NF : Bitflags NEIGHBOR_FLAGS_ALL} {RFL : BitflagsLaws RF} {NFL : BitflagsLaws NF}.
Context {AV : Vec IpCidr} {RV : Vec Route} {LM : LinearMap Address Neighbor} {OV : Vec Ipv6OptionRepr}.
Implicit Types (inner : InterfaceInner) (slots : list (option Item)).

(** Checksums are filled in if they are checked. *)
Definition checksums_agree (caps : ChecksumCapabilities) : Prop :=
  Checksum.rx (caps_icmpv6 caps) = true -> Checksum.tx (caps_icmpv6 caps) = true.

(** A message of the interface and the header it is sent with. *)
Record message_ok (header : IpHeader) (m : Icmpv6Repr) : Prop := {
  mo_header : ipv6_repr_wf header;
  mo_next : ih_next_header header = Protocol.Icmpv6;
  mo_len : ih_payload_len header = Icmpv6Repr.buffer_len m;
  mo_message : icmpv6_wf m
}.

(** What is put on the wire. *)
Lemma transmit_message inner tok src dst header m :
  caps_medium (caps inner) = MediumEthernet -> hardware_addr inner = HwEthernet src -> EthernetAddress.wf src -> EthernetAddress.wf dst ->
  tx_token_wf tok -> checksums_agree (caps_checksum (caps inner)) -> message_ok header m ->
  exists o, transmit_v6 inner tok (PacketIcmpv6 header m) dst = Ret (eth_frame dst src EtherType.Ipv6 (ipv6_octets header ++ o)) /\
    length o = ih_payload_len header /\
    Icmpv6Repr.parse (ih_src_addr header) (ih_dst_addr header) o (caps_checksum (caps inner)) = Ret (Ok m).
Proof.
  intros Hmed Hhw Hs Hd Htok Hcaps [Hh _ Hl Hm]. unfold transmit_v6. cbn [Packet6.ip_repr IpRepr.buffer_len]. rewrite Hmed, Hhw.
  unfold consume, Frame.buffer_len, ETHERNET_HEADER_LEN.
  set (n := 14 + _). assert (n = 54 + ih_payload_len header) as Hn by reflexivity. destruct (Htok n) as [Hbl Hbb].
  set (buf := Ipv4Fragments.tx_buffer tok n) in *. pose proof (v6_len _ Hh) as Hw. unfold word in Hw.
  destruct (icmpv6_emit_parse_ok m (ih_src_addr header) (ih_dst_addr header) (drop 54 buf) (caps_checksum (caps inner)) Hm (v6_src _ Hh) (v6_dst _ Hh))
    as (o & He & Hlo & _ & Hp); try done; [by apply bytes_drop|rewrite length_drop; lia|rewrite length_drop; lia|].
  exists o. assert (length o = ih_payload_len header) as Hlo' by (rewrite Hlo, length_drop; lia). split_and!; [|done|done].
  cbn [emit_frame]. rewrite emit_ethernet_octets by (done || lia). cbn [mbind outcome_bind ethertype_octets].
  apply on_tail_ok.
  - destruct Hs as [Hs _], Hd as [Hd _]. rewrite !length_app. cbn. unfold Frame.header_len, ETHERNET_HEADER_LEN. lia.
  - unfold emit_ip_v6. rewrite ipv6_emit_octets by (done || by apply bytes_drop || (rewrite length_drop; lia)). cbn [mbind outcome_bind].
    rewrite drop_drop. apply on_tail_ok; [by rewrite length_ipv6_octets|done|]. rewrite Hlo. done.
  - rewrite length_app, length_ipv6_octets, length_drop by done. lia.
Qed.

(** The receiver hands the message to its handler. *)
Lemma receive_message inner slots meta dst src header o :
  EthernetAddress.wf dst -> EthernetAddress.wf src -> HwEthernet dst = hardware_addr inner \/ EthernetAddress.is_multicast dst = true ->
  ipv6_repr_wf header -> length o = ih_payload_len header -> ih_next_header header = Protocol.Icmpv6 ->
  Ipv6Address.is_unicast (ih_src_addr header) = true ->
  has_ip_addr inner (Ipv6 (ih_dst_addr header)) = true \/ has_multicast_group_v6 inner (ih_dst_addr header) = true ->
  process_ethernet_v6 inner slots meta (eth_frame dst src EtherType.Ipv6 (ipv6_octets header ++ o)) =
    ('(inner, reply) ← process_icmpv6 inner header o; Ret (inner, slots, reply)).
Proof.
  intros Hd Hs Hdst Hh Hl Hn Hu Hacc. unfold process_ethernet_v6.
  destruct (eth_frame_fields dst src EtherType.Ipv6 (ipv6_octets header ++ o)) as (-> & -> & -> & ->); try done. cbn [mbind outcome_bind].
  assert (negb (EthernetAddress.is_broadcast dst) && negb (EthernetAddress.is_multicast dst)
    && negb (bool_decide (HwEthernet dst = hardware_addr inner)) = false) as ->.
  { destruct Hdst as [->| ->]; [by rewrite bool_decide_eq_true_2, andb_false_r|by rewrite andb_false_r]. }
  rewrite ipv6_check_octets by (done || lia). cbn [mbind outcome_bind]. unfold process_ipv6.
  destruct (ipv6_parse_octets header o Hh) as [-> ->]; [lia|]. cbn [mbind outcome_bind]. rewrite Hu. cbn [negb mbind outcome_bind].
  rewrite Hn, bool_decide_eq_false_2 by done. cbn [mbind outcome_bind]. rewrite take_ge by lia.
  assert (negb (has_ip_addr inner (Ipv6 (ih_dst_addr header))) && negb (has_multicast_group_v6 inner (ih_dst_addr header))
    && negb (Ipv6Address.is_loopback (ih_dst_addr header)) = false) as ->; [|done].
  destruct Hacc as [->| ->]; [done|by rewrite andb_false_r].
Qed.

Lemma receive_ndisc inner header m o :
  caps_medium (caps inner) = MediumEthernet -> ih_hop_limit header = 255%Z ->
  Icmpv6Repr.parse (ih_src_addr header) (ih_dst_addr header) o (caps_checksum (caps inner)) = Ret (Ok (Icmpv6Ndisc m)) ->
  process_icmpv6 inner header o = process_ndisc inner header m.
Proof.
  intros Hm Hh Hp. unfold process_icmpv6. rewrite icmpv6_checked_parse, Hp. cbn [mbind outcome_bind]. by rewrite Hh, Hm.
Qed.
End Link.

(** ** The exchange *)

(** Two interfaces on the same link: [inner] can take the address [peer] for a
    neighbor. *)
Record neighbors6 {AV : Vec IpCidr} {RV : Vec Route} {LM : LinearMap Address Neighbor}
    (inner : InterfaceInner) (mac addr peer : list Z) : Prop := {
  nb6_medium : caps_medium (caps inner) = MediumEthernet;
  nb6_mac : hardware_addr inner = HwEthernet mac;
  nb6_mac_wf : EthernetAddress.wf mac /\ EthernetAddress.is_unicast mac = true;
  nb6_addrs : addrs_wf inner;
  nb6_own : has_ip_addr inner (Ipv6 addr) = true;
  nb6_addr_wf : address_wf (Ipv6 addr) /\ Ipv6Address.is_unicast addr = true /\ addr <> Ipv6Address.LOOPBACK;
  nb6_link : on_link inner (Ipv6 peer);
  nb6_clock : clock_ok (if_now inner);
  nb6_checksums : checksums_agree (caps_checksum (caps inner))
}.

Section Exchange.
Context {BO : ByteOrder} {NE : NetworkEndian BO} {BO24 : ByteOrder24} {NE24 : NetworkEndian24 BO24}.
Context {RF : Bitflags ROUTER_FLAGS_ALL} {NF : Bitflags NEIGHBOR_FLAGS_ALL} {RFL : BitflagsLaws RF} {NFL : BitflagsLaws NF}.
Context {AV : Vec IpCidr} {RV : Vec Route} {LM : LinearMap Address Neighbor} {OV : Vec Ipv6OptionRepr}.
Context {N : nat} {LL : LinearMapLaws LM N}.
Hypothesis HN : 0 < N.
Implicit Types (inner : InterfaceInner) (slots : list (option Item)).

Lemma unicast6 a : Ipv6Address.is_unicast a = true -> Ipv6Address.is_multicast a = false /\ Ipv6Address.is_unspecified a = false.
Proof. unfold Ipv6Address.is_unicast. by destruct (Ipv6Address.is_multicast a), (Ipv6Address.is_unspecified a). Qed.

(** The group of the solicitations for an address. *)
Definition group_of (a : list Z) : list Z :=
  [0xff; 0x02; 0; 0; 0; 0; 0; 0; 0; 0; 0; 0x01; 0xff]%Z ++ [a !!! 13; a !!! 14; a !!! 15].
Definition group_mac (a : list Z) : list Z := [0x33; 0x33; 0xff]%Z ++ [a !!! 13; a !!! 14; a !!! 15].

Lemma group_wf a : address_wf (Ipv6 a) -> address_wf (Ipv6 (group_of a)) /\ EthernetAddress.wf (group_mac a).
Proof.
  intros [Hl Hb]. assert (forall i, i < 16 -> byte (a !!! i)) as Hi.
  { intros i Hi. apply (bytes_lookup a i); [done|]. apply list_lookup_lookup_total_lt. cbn in Hl. lia. }
  pose proof (Hi 13 ltac:(lia)). pose proof (Hi 14 ltac:(lia)). pose proof (Hi 15 ltac:(lia)).
  split; (split; [done|]); unfold group_of, group_mac; cbn [app]; repeat apply Forall_cons_2; try apply Forall_nil_2; done || (unfold byte; lia).
Qed.

(** A node listens to the group of its address. *)
Lemma group_joined inner a :
  address_wf (Ipv6 a) -> a <> Ipv6Address.LOOPBACK -> has_ip_addr inner (Ipv6 a) = true ->
  has_solicited_node (as_slice (ip_addrs inner)) (group_of a) = true.
Proof.
  intros [Hl _] Hlo. unfold has_ip_addr, has_solicited_node. rewrite !existsb_exists. intros (c & Hc & Ha%bool_decide_eq_true).
  exists c. split; [done|]. destruct c as [c|c]; cbn [IpCidr.address] in Ha; [done|]. injection Ha as ->.
  rewrite bool_decide_eq_true_2 by done. apply bool_decide_eq_true. cbn in Hl.
  do 16 (destruct a as [|? a]; [done|]). by destruct a.
Qed.

(** What an interface learns from a message. *)
Lemma learn_lladdr inner mac a target peer lladdr :
  caps_medium (caps inner) = MediumEthernet -> EthernetAddress.wf mac -> EthernetAddress.is_unicast mac = true ->
  RawHardwareAddress.from_bytes mac = Ret lladdr -> Ipv6Address.is_unicast target = true -> Ipv6Address.is_unicast peer = true -> a = Ipv6 peer ->
  clock_ok (if_now inner) ->
  usable_lladdr inner lladdr target = Ret (Some (HwEthernet mac)) /\
  exists cache, Cache.fill a (HwEthernet mac) (if_now inner) (neighbor_cache inner) = Ret cache /\
    Cache.lookup a (if_now inner) cache = Ret (Found (HwEthernet mac)).
Proof.
  intros Hm [Hl Hb] Hu Hraw Ht Hp -> Hclk. split.
  - destruct (raw_octets mac lladdr (or_introl Hl) Hraw) as [Hlen Hoct]. unfold usable_lladdr, RawHardwareAddress.parse.
    rewrite Hm, Hlen, Hl. change (6 <? 6) with false. cbn iota. rewrite Hoct. cbn [mbind outcome_bind].
    unfold EthernetAddress.from_bytes. rewrite Hl. change (6 =? 6) with true. cbn [mbind outcome_bind HardwareAddress.is_unicast].
    by rewrite Hu, Ht.
  - destruct (fill_with_expiration_spec (Ipv6 peer) (HwEthernet mac) (if_now inner + Cache.ENTRY_LIFETIME)%Z (neighbor_cache inner))
      as (cache & Hfill & _ & Hnew & _); [done|done|by cbn; rewrite Hu|]. exists cache. split.
    + unfold Cache.fill. cbn [Address.is_unicast HardwareAddress.is_unicast mbind outcome_bind].
      rewrite Hp, Hu. cbn [rust_assert mbind outcome_bind]. by rewrite clock_add by (done || unfold Cache.ENTRY_LIFETIME; lia).
    + apply (cache_lookup_found cache (Ipv6 peer) _ _ Hp Hnew). cbn. unfold Cache.ENTRY_LIFETIME. lia.
Qed.

(** The solicitation for an address that is not known, and the interface after it. *)
Definition solicit_header (a b : list Z) : IpHeader := mkIpHeader a (group_of b) Protocol.Icmpv6 32 255.
Definition limited inner : InterfaceInner :=
  inner <| neighbor_cache := Cache.mk (Cache.storage (neighbor_cache inner)) (if_now inner + Cache.SILENT_TIME)%Z |>.

Lemma lladdr_of mac lladdr : EthernetAddress.wf mac -> RawHardwareAddress.from_bytes mac = Ret lladdr -> RawHardwareAddress.len lladdr = 6 /\ lladdr_wf lladdr.
Proof.
  intros [Hl Hb] Hraw. split; [by destruct (raw_octets mac lladdr (or_introl Hl) Hraw) as [-> _]|]. exists mac. split; [by left|done].
Qed.

Lemma solicit_sent inner tok mac a b :
  neighbors6 inner mac a b -> address_wf (Ipv6 b) -> Ipv6Address.is_unicast b = true -> tx_token_wf tok ->
  Cache.lookup (Ipv6 b) (if_now inner) (neighbor_cache inner) = Ret NotFound ->
  exists o lladdr, lookup_hardware_addr_v6 inner tok a b =
      Ret (limited inner, Some (eth_frame (group_mac b) mac EtherType.Ipv6 (ipv6_octets (solicit_header a b) ++ o)), Err NeighborPending) /\
    RawHardwareAddress.from_bytes mac = Ret lladdr /\ ipv6_repr_wf (solicit_header a b) /\ length o = 32 /\
    Icmpv6Repr.parse a (group_of b) o (caps_checksum (caps inner)) = Ret (Ok (Icmpv6Ndisc (NeighborSolicit b (Some lladdr)))).
Proof.
  intros [Hmed Hhw [Hw _] Haddrs _ (Ha & Hua & _) Hlink Hclk Hck] Hb Hub Htok Hnf.
  destruct (raw_hardware_addr_ok inner mac Hhw Hw) as (lladdr & Hraw & Hfrom). destruct (lladdr_of mac lladdr Hw Hfrom) as [Hl6 Hll].
  destruct (group_wf b Hb) as [Hg Hgm]. set (m := Icmpv6Ndisc (NeighborSolicit b (Some lladdr))).
  assert (Icmpv6Repr.buffer_len m = 32) as Hbl.
  { unfold m. cbn. by rewrite Hl6. }
  assert (ipv6_repr_wf (solicit_header a b)) as Hh by (constructor; cbn; done || (unfold word, byte; lia)).
  destruct (transmit_message inner tok mac (group_mac b) (solicit_header a b) m) as (o & Ho & Hlo & Hp); try done.
  exists o, lladdr. split_and!; try done. unfold lookup_hardware_addr_v6. destruct (unicast6 b Hub) as [-> _].
  rewrite route_on_link by done. cbn [mbind outcome_bind]. rewrite Hnf. cbn [mbind outcome_bind]. unfold solicit_neighbor. rewrite Hraw.
  cbn [mbind outcome_bind]. unfold Ipv6Address.solicited_node. rewrite Hub. cbn [rust_assert mbind outcome_bind].
  fold (group_of b). change (Ipv6Address.is_unspecified (group_of b)) with false. cbn [negb rust_assert mbind outcome_bind].
  rewrite Hmed. change (multicast_hardware_addr MediumEthernet (Ipv6 (group_of b))) with (Ret (HwEthernet (group_mac b))).
  cbn [mbind outcome_bind HardwareAddress.ethernet_or_panic]. fold m. rewrite Hbl. fold (solicit_header a b). rewrite Ho.
  cbn [mbind outcome_bind]. unfold Cache.limit_rate. by rewrite clock_add by (done || unfold Cache.SILENT_TIME, Cache.ENTRY_LIFETIME; lia).
Qed.

(** The answer of a node that is asked for its address. *)
Definition advert_header (a b : list Z) : IpHeader := mkIpHeader b a Protocol.Icmpv6 32 255.
Definition advert (b : list Z) (lladdr : RawHardwareAddress.t) : Icmpv6Repr :=
  Icmpv6Ndisc (NeighborAdvert (from_bits_truncate NEIGHBOR_SOLICITED) b (Some lladdr)).

Lemma solicit_answered inner slots meta mac a b mac_a lladdr_a o :
  neighbors6 inner mac b a -> EthernetAddress.wf mac_a -> EthernetAddress.is_unicast mac_a = true ->
  Ipv6Address.is_unicast a = true ->
  RawHardwareAddress.from_bytes mac_a = Ret lladdr_a -> ipv6_repr_wf (solicit_header a b) -> length o = 32 ->
  Icmpv6Repr.parse a (group_of b) o (caps_checksum (caps inner)) = Ret (Ok (Icmpv6Ndisc (NeighborSolicit b (Some lladdr_a)))) ->
  exists cache lladdr, RawHardwareAddress.from_bytes mac = Ret lladdr /\
    process_ethernet_v6 inner slots meta (eth_frame (group_mac b) mac_a EtherType.Ipv6 (ipv6_octets (solicit_header a b) ++ o)) =
      Ret (inner <| neighbor_cache := cache |>, slots, Some (PacketIcmpv6 (advert_header a b) (advert b lladdr))) /\
    Cache.lookup (Ipv6 a) (if_now inner) cache = Ret (Found (HwEthernet mac_a)).
Proof.
  intros [Hmed Hhw [Hw _] Haddrs Hown (Hb & Hub & Hlo) Hlink Hclk Hck] Hwa Huma Hua Hfrom Hh Hl Hp.
  destruct (raw_hardware_addr_ok inner mac Hhw Hw) as (lladdr & Hraw & Hfrom'). destruct (lladdr_of mac lladdr Hw Hfrom') as [Hl6 Hll].
  destruct (group_wf b Hb) as [Hg Hgm]. pose proof (group_joined inner b Hb Hlo Hown) as Hgj.
  destruct (learn_lladdr inner mac_a (Ipv6 a) b a lladdr_a) as (Hus & cache & Hfill & Hlook); try done.
  exists cache, lladdr. split_and!; try done. rewrite receive_message; try done; [|by right|].
  2: { right. unfold has_multicast_group_v6. by case_bool_decide. }
  rewrite (receive_ndisc inner _ (NeighborSolicit b (Some lladdr_a))) by done. cbn [process_ndisc]. rewrite Hus. cbn [mbind outcome_bind].
  cbn [solicit_header ih_src_addr]. rewrite Hfill. cbn [mbind outcome_bind].
  match goal with |- context [neighbor_advert ?i ?h b] => change (neighbor_advert i h b) with (neighbor_advert inner h b) end.
  unfold neighbor_advert. cbn [solicit_header ih_dst_addr ih_src_addr]. rewrite Hgj, Hown. cbn [andb]. rewrite Hraw. cbn [mbind outcome_bind].
  unfold advert_header, advert. cbn [Icmpv6Repr.buffer_len NdiscRepr.buffer_len]. do 5 f_equal. cbn. by rewrite Hl6.
Qed.

Lemma flags_solicited : flags_wf (from_bits_truncate NEIGHBOR_SOLICITED) /\
  flags_contains (from_bits_truncate NEIGHBOR_SOLICITED) (from_bits_truncate NEIGHBOR_OVERRIDE) = false.
Proof. unfold flags_wf. by rewrite contains_bits, !bits_truncate. Qed.

(** The answer goes to the address that was learned from the solicitation. *)
Lemma advert_sent inner tok mac a b mac_a lladdr :
  neighbors6 inner mac b a -> EthernetAddress.wf mac_a -> address_wf (Ipv6 a) -> Ipv6Address.is_unicast a = true ->
  RawHardwareAddress.from_bytes mac = Ret lladdr -> tx_token_wf tok ->
  Cache.lookup (Ipv6 a) (if_now inner) (neighbor_cache inner) = Ret (Found (HwEthernet mac_a)) ->
  exists o, dispatch_ip_v6 inner tok (PacketIcmpv6 (advert_header a b) (advert b lladdr)) =
      Ret (inner, [eth_frame mac_a mac EtherType.Ipv6 (ipv6_octets (advert_header a b) ++ o)], Ok ()) /\
    ipv6_repr_wf (advert_header a b) /\ length o = 32 /\
    Icmpv6Repr.parse b a o (caps_checksum (caps inner)) = Ret (Ok (advert b lladdr)).
Proof.
  intros [Hmed Hhw [Hw _] Haddrs _ (Hb & _ & _) Hlink _ Hck] Hwa Ha Hua Hfrom Htok Hfound.
  destruct (lladdr_of mac lladdr Hw Hfrom) as [Hl6 Hll].
  assert (ipv6_repr_wf (advert_header a b)) as Hh by (constructor; cbn; done || (unfold word, byte; lia)).
  destruct (transmit_message inner tok mac mac_a (advert_header a b) (advert b lladdr)) as (o & Ho & Hlo & Hp); try done.
  { constructor; [done|done|cbn; by rewrite Hl6|]. split_and!; [apply flags_solicited|exact Hb|exact Hll]. }
  exists o. split_and!; try done. unfold dispatch_ip_v6. cbn [Packet6.ip_repr]. destruct (unicast6 a Hua) as [Hm Hu].
  cbn [advert_header ih_dst_addr ih_src_addr]. rewrite Hu, Hmed. cbn [negb rust_assert mbind outcome_bind].
  unfold lookup_hardware_addr_v6. rewrite Hm, route_on_link by done. cbn [mbind outcome_bind]. rewrite Hfound. cbn [mbind outcome_bind].
  fold (advert_header a b). by rewrite Ho.
Qed.

(** The advertisement is taken over unless the address is known already. *)
Lemma advert_learned inner slots meta mac a b mac_b lladdr o :
  neighbors6 inner mac a b -> EthernetAddress.wf mac_b -> EthernetAddress.is_unicast mac_b = true -> Ipv6Address.is_unicast b = true ->
  RawHardwareAddress.from_bytes mac_b = Ret lladdr -> ipv6_repr_wf (advert_header a b) -> length o = 32 ->
  Icmpv6Repr.parse b a o (caps_checksum (caps inner)) = Ret (Ok (advert b lladdr)) ->
  (forall h, Cache.lookup (Ipv6 b) (if_now inner) (neighbor_cache inner) <> Ret (Found h)) ->
  exists cache, process_ethernet_v6 inner slots meta (eth_frame mac mac_b EtherType.Ipv6 (ipv6_octets (advert_header a b) ++ o)) =
      Ret (inner <| neighbor_cache := cache |>, slots, None) /\
    Cache.lookup (Ipv6 b) (if_now inner) cache = Ret (Found (HwEthernet mac_b)).
Proof.
  intros [Hmed Hhw [Hw _] Haddrs Hown (Ha & Hua & _) Hlink Hclk Hck] Hwb Humb Hub Hfrom Hh Hl Hp Hnf.
  destruct (learn_lladdr inner mac_b (Ipv6 b) b b lladdr) as (Hus & cache & Hfill & Hlook); try done.
  exists cache. split; [|done]. rewrite receive_message; try done; [|by left|by left].
  rewrite (receive_ndisc inner (advert_header a b) _ o Hmed eq_refl Hp). cbn [process_ndisc]. rewrite Hus. cbn [mbind outcome_bind].
  rewrite (proj2 flags_solicited). cbn [advert_header ih_src_addr].
  assert ((a ← Cache.lookup (Ipv6 b) (if_now inner) (neighbor_cache inner); Ret (negb (found a))) = Ret true) as ->.
  { destruct (Cache.lookup _ _ _) as [[h| |]|] eqn:E; [by destruct (Hnf h)|done|done|].
    unfold Cache.lookup in E. cbn [Address.is_unicast] in E. by rewrite Hub in E. }
  cbn [mbind outcome_bind]. by rewrite Hfill.
Qed.
End Exchange.

(** C14: address resolution over IPv6 works: an interface that has a packet for a neighbor it
    does not know sends a neighbor solicitation to the neighbor's group; the neighbor
    has learned the sender's hardware address and answers with an advertisement, which
    it can send at once; and when that arrives, the next packet goes to the neighbor's
    hardware address.  The sockets are not touched. *)
Theorem neighbor_resolution {BO : ByteOrder} (NE : NetworkEndian BO) {BO24 : ByteOrder24} (NE24 : NetworkEndian24 BO24)
    {RF : Bitflags ROUTER_FLAGS_ALL} {NF : Bitflags NEIGHBOR_FLAGS_ALL} (RFL : BitflagsLaws RF) (NFL : BitflagsLaws NF)
    {AV : Vec IpCidr} {RV : Vec Route} {LM : LinearMap Address Neighbor} {OV : Vec Ipv6OptionRepr} {N : nat}
    (LL : LinearMapLaws LM N) (HN : 0 < N) (A B : InterfaceInner) mac_a mac_b a b tok_a tok_b tok slots_a slots_b meta
    (HA : neighbors6 A mac_a a b) (HB : neighbors6 B mac_b b a)
    (Hck : caps_checksum (caps A) = caps_checksum (caps B))
    (Hunknown : Cache.lookup (Ipv6 b) (if_now A) (neighbor_cache A) = Ret NotFound)
    (Htok : tx_token_wf tok_a /\ tx_token_wf tok_b) :
  exists A1 solicitation B1 packet advertisement A2,
    lookup_hardware_addr_v6 A tok_a a b = Ret (A1, Some solicitation, Err NeighborPending) /\
    process_ethernet_v6 B slots_b meta solicitation = Ret (B1, slots_b, Some packet) /\
    Cache.lookup (Ipv6 a) (if_now B) (neighbor_cache B1) = Ret (Found (HwEthernet mac_a)) /\
    dispatch_ip_v6 B1 tok_b packet = Ret (B1, [advertisement], Ok ()) /\
    process_ethernet_v6 A1 slots_a meta advertisement = Ret (A2, slots_a, None) /\
    lookup_hardware_addr_v6 A2 tok a b = Ret (A2, None, Ok (HwEthernet mac_b)).
Proof.
  pose proof HA as [_ _ [Hwa Hma] _ _ (Ha & Hua & _) _ _ _]. pose proof HB as [_ _ [Hwb Hmb] _ _ (Hb & Hub & _) _ _ _].
  destruct (solicit_sent HN A tok_a mac_a a b HA Hb Hub (proj1 Htok) Hunknown) as (o & la & Hs & Hla & Hhs & Hlo & Hps).
  rewrite Hck in Hps. destruct (solicit_answered HN B slots_b meta mac_b a b mac_a la o HB) as (cb & lb & Hlb & Hans & Hcb); try done.
  assert (neighbors6 (B <| neighbor_cache := cb |>) mac_b b a) as HB1 by (by destruct HB; constructor).
  destruct (advert_sent (B <| neighbor_cache := cb |>) tok_b mac_b a b mac_a lb HB1) as (o' & Hd & Hha & Hlo' & Hpa); try done; [apply Htok|].
  assert (neighbors6 (limited A) mac_a a b) as HA1 by (by destruct HA; constructor).
  destruct (advert_learned HN (limited A) slots_a meta mac_a a b mac_b lb o' HA1) as (ca & Hadv & Hca); try done.
  { cbn. by rewrite Hck. }
  { intros h. change (if_now (limited A)) with (if_now A). unfold limited, Cache.lookup in *. cbn [Address.is_unicast] in *. rewrite Hub in *.
    cbn in *. repeat case_match; congruence. }
  do 6 eexists. split_and!; [exact Hs|exact Hans|exact Hcb|exact Hd|exact Hadv|].
  unfold lookup_hardware_addr_v6. destruct (unicast6 b Hub) as [-> _]. rewrite route_on_link by (apply HA || done).
  cbn [mbind outcome_bind]. cbn in Hca |- *. by rewrite Hca.
Qed.

(** An echo request is answered: what the interface sends to a neighbor it knows is
    answered by the neighbor with the same identifier, sequence number and data. *)
Theorem echo_request_answered {BO : ByteOrder} (NE : NetworkEndian BO) {BO24 : ByteOrder24} (NE24 : NetworkEndian24 BO24)
    {RF : Bitflags ROUTER_FLAGS_ALL} {NF : Bitflags NEIGHBOR_FLAGS_ALL} (RFL : BitflagsLaws RF) (NFL : BitflagsLaws NF)
    {AV : Vec IpCidr} {RV : Vec Route} {LM : LinearMap Address Neighbor} {OV : Vec Ipv6OptionRepr}
    (A B : InterfaceInner) mac_a mac_b a b tok slots meta ident seq_no data hop_limit
    (len := 8 + length data) (header := mkIpHeader a b Protocol.Icmpv6 len hop_limit)
    (HA : neighbors6 A mac_a a b) (HB : neighbors6 B mac_b b a)
    (Hck : caps_checksum (caps A) = caps_checksum (caps B))
    (Hknown : Cache.lookup (Ipv6 b) (if_now A) (neighbor_cache A) = Ret (Found (HwEthernet mac_b)))
    (Htok : tx_token_wf tok) (Hid : word ident /\ word seq_no /\ byte hop_limit)
    (Hdata : bytes data /\ (Z.of_nat len <= U16_MAX)%Z) :
  exists frame,
    dispatch_ip_v6 A tok (PacketIcmpv6 header (Icmpv6EchoRequest ident seq_no data)) = Ret (A, [frame], Ok ()) /\
    process_ethernet_v6 B slots meta frame =
      Ret (B, slots, Some (PacketIcmpv6 (mkIpHeader b a Protocol.Icmpv6 len 64) (Icmpv6EchoReply ident seq_no data))).
Proof.
  pose proof HA as [Hmed Hhw [Hwa _] Haddrs _ (Ha & Hua & _) Hlink _ Hcks]. pose proof HB as [_ Hhb [Hwb _] _ Hown (Hb & Hub & _) _ _ _].
  destruct Hdata as [Hbd Hl], Hid as (Hi & Hsq & Hh).
  assert (ipv6_repr_wf header) as Hhw' by (constructor; cbn; done || (unfold word, byte; lia)).
  destruct (transmit_message A tok mac_a mac_b header (Icmpv6EchoRequest ident seq_no data)) as (o & Ho & Hlo & Hp); try done.
  exists (eth_frame mac_b mac_a EtherType.Ipv6 (ipv6_octets header ++ o)). split.
  - unfold dispatch_ip_v6. cbn [Packet6.ip_repr]. destruct (unicast6 b Hub) as [Hm Hu]. cbn [header ih_dst_addr ih_src_addr].
    rewrite Hu, Hmed. cbn [negb rust_assert mbind outcome_bind]. unfold lookup_hardware_addr_v6. rewrite Hm, route_on_link by done.
    cbn [mbind outcome_bind]. rewrite Hknown. cbn [mbind outcome_bind]. by rewrite Ho.
  - rewrite receive_message; try done; [|by left|by left]. unfold process_icmpv6. rewrite <- Hck, icmpv6_checked_parse, Hp.
    cbn [mbind outcome_bind]. unfold icmpv6_reply. cbn [header ih_dst_addr ih_src_addr]. by rewrite Hub.
Qed.

Module ResolutionWitness.
#[local] Existing Instance network_endian.
#[local] Existing Instance network_endian24.
Import Hosts6.

Lemma host6_neighbors x y : (1 <= x <= 2)%Z -> (1 <= y <= 2)%Z -> neighbors6 (host6 x) (mac x) (link_local x) (link_local y).
Proof.
  intros Hx Hy. destruct (host6_ok x) as [[_ Ha _ _ _] _]; [lia|]. constructor; try done.
  - split; [apply Hosts.mac_wf; lia|]. assert (x = 1 \/ x = 2)%Z as [-> | ->] by lia; done.
  - unfold has_ip_addr. change (as_slice _) with [CidrIpv6 (Ipv6Cidr.mk (link_local x) 64)].
    cbn [existsb IpCidr.address Ipv6Cidr.address]. by rewrite bool_decide_true.
  - apply Forall_singleton in Ha as [Ha _]. split; [exact Ha|]. by assert (x = 1 \/ x = 2)%Z as [-> | ->] by lia.
  - exists (CidrIpv6 (Ipv6Cidr.mk (link_local x) 64)). split; [by left|]. split; [done|].
    intros i Hi. assert (x = 1 \/ x = 2)%Z as [-> | ->] by lia; assert (y = 1 \/ y = 2)%Z as [-> | ->] by lia;
      do 64 (destruct i as [|i]; [done|]); cbn in Hi; lia.
Defined.

Lemma neighbor_resolution_witness :
  exists A1 solicitation B1 packet advertisement A2,
    lookup_hardware_addr_v6 (host6 1) blank_token (link_local 1) (link_local 2) = Ret (A1, Some solicitation, Err NeighborPending) /\
    process_ethernet_v6 (host6 2) [] default_meta solicitation = Ret (B1, [], Some packet) /\
    Cache.lookup (Ipv6 (link_local 1)) 0%Z (neighbor_cache B1) = Ret (Found (HwEthernet (mac 1))) /\
    dispatch_ip_v6 B1 blank_token packet = Ret (B1, [advertisement], Ok ()) /\
    process_ethernet_v6 A1 [] default_meta advertisement = Ret (A2, [], None) /\
    lookup_hardware_addr_v6 A2 blank_token (link_local 1) (link_local 2) = Ret (A2, None, Ok (HwEthernet (mac 2))).
Proof.
  apply (neighbor_resolution network_endian_laws network_endian24_laws (int_flags_laws _) (int_flags_laws _)
    (list_map_laws Address Neighbor 4) ltac:(lia) (host6 1) (host6 2) (mac 1) (mac 2));
    [apply host6_neighbors; lia|apply host6_neighbors; lia|done|by vm_compute|].
  split; apply blank_token_wf.
Defined.
End ResolutionWitness.
