(* ===== verification/IfaceLink.v ===== *)
(** * Packets between two interfaces on a link

    What one interface sends in a frame is what the other delivers: the headers that
    [dispatch_ip] writes are those that [process_ethernet] reads.  The theorems
    compose the wire formats of Ethernet, IPv4, UDP, TCP and ICMP with the interface
    and the demultiplexing to the sockets. *)

From S2P Require Import Prelude PacketBuffer Time SeqNumber Bytes Octets Phy Ip LinkLayer Arp Ipv4Wire Icmpv4Wire UdpWire.
From S2P Require Import TcpWire TcpWireProps Cidr Route Neighbor Fragmentation Packet Ipv4Fragments TcpTimers Congestion.
From S2P Require Import Context UdpSocket UdpSpec TcpSocket TcpRun Iface IfaceProcess IfaceArp Collections.
Open Scope nat_scope.

(** The sender computes the checksums that the receiver verifies. *)
Definition checksums_agree (tx_caps rx_caps : ChecksumCapabilities) : Prop :=
  (Checksum.rx (caps_ipv4 rx_caps) = true -> Checksum.tx (caps_ipv4 tx_caps) = true) /\
  (Checksum.rx (caps_udp rx_caps) = true -> Checksum.tx (caps_udp tx_caps) = true) /\
  (Checksum.rx (caps_tcp rx_caps) = true -> Checksum.tx (caps_tcp tx_caps) = true) /\
  (Checksum.rx (caps_icmpv4 rx_caps) = true -> Checksum.tx (caps_icmpv4 tx_caps) = true).

Section Link.
Context {BO : ByteOrder} {NE : NetworkEndian BO}.
Context {AV : Vec IpCidr} {RV : Vec Route} {LM : LinearMap Address Neighbor}.
Variables (A B : InterfaceInner) (mac_a mac_b : list Z).

(** Interface A has an address on the link, and B has another. *)
Record linked : Prop := {
  lk_a : hardware_addr A = HwEthernet mac_a /\ EthernetAddress.wf mac_a;
  lk_b : hardware_addr B = HwEthernet mac_b /\ EthernetAddress.wf mac_b;
  lk_medium : caps_medium (caps A) = MediumEthernet;
  lk_caps : checksums_agree (caps_checksum (caps A)) (caps_checksum (caps B))
}.

(** A knows that B is the next hop to the destination. *)
Definition reaches (dst : list Z) : Prop :=
  Ipv4Address.is_unicast dst = true /\ is_broadcast A (Ipv4 dst) = Ret false /\
  exists hop, route A (Ipv4 dst) (if_now A) = Ret (Some hop) /\
    Cache.lookup hop (if_now A) (neighbor_cache A) = Ret (Found (HwEthernet mac_b)).

(** B takes packets from the source to the destination. *)
Definition takes (src dst : list Z) : Prop :=
  is_unicast_v4 B src = Ret true /\ not_for_us B dst = Ret false.

Hypothesis Hlink : linked.
Variables (r : IpHeader) (o : list Z).
Hypothesis Hr : ipv4_repr_wf r.
Hypothesis Ho : length o = ih_payload_len r.

Definition link_frame : list Z :=
  frame_of MediumEthernet mac_a mac_b (header_octets (emitted_header (caps_checksum (caps A)) r) ++ o).

(** A packet that fits into a frame is sent in one. *)
Lemma dispatch_link tok pl frag :
  reaches (ih_dst_addr r) -> tx_token_wf tok -> 20 + length o <= max_transmission_unit (caps A) ->
  Packet.emit_payload (PacketIpv4 r pl) (ReprIpv4 r) (caps A) (drop 34 (Ipv4Fragments.tx_buffer tok (34 + length o))) = Ret o ->
  dispatch_ip A tok (PacketIpv4 r pl) frag =
    Ret (A <| ipv4_id ::= fun id => wrap_u 16 (id + 1) |>, frag, [link_frame], Ok ()).
Proof.
  intros (Hu & Hbc & hop & Hroute & Hcache) Htok Hmtu Hemit. pose proof Hlink as [[Hma Hwa] [_ Hwb] Hmed _].
  unfold dispatch_ip. cbn [Packet.ip_repr IpRepr.dst_addr IpRepr.src_addr Address.is_unspecified].
  assert (Ipv4Address.is_unspecified (ih_dst_addr r) = false /\ Ipv4Address.is_multicast (ih_dst_addr r) = false) as [-> Hm].
  { unfold Ipv4Address.is_unicast in Hu. by destruct (Ipv4Address.is_broadcast _), (Ipv4Address.is_multicast _), (Ipv4Address.is_unspecified _). }
  cbn [negb rust_assert mbind outcome_bind next_ipv4_frag_ident].
  set (A1 := A <| ipv4_id ::= _ |>). change (caps A1) with (caps A). rewrite Hmed.
  unfold lookup_hardware_addr. change (is_broadcast A1 (Ipv4 (ih_dst_addr r))) with (is_broadcast A (Ipv4 (ih_dst_addr r))).
  rewrite Hbc. cbn [mbind outcome_bind Address.is_multicast]. rewrite Hm.
  change (route A1 (Ipv4 (ih_dst_addr r)) (if_now A1)) with (route A (Ipv4 (ih_dst_addr r)) (if_now A)).
  rewrite Hroute. cbn [mbind outcome_bind]. change (if_now A1) with (if_now A).
  change (neighbor_cache A1) with (neighbor_cache A). rewrite Hcache. cbn [mbind outcome_bind].
  assert (IpRepr.buffer_len (ReprIpv4 r) = 20 + length o) as Hbl by (cbn; lia). rewrite Hbl.
  change (caps A1) with (caps A). rewrite (proj2 (Nat.ltb_ge _ _)) by lia. change (hardware_addr A1) with (hardware_addr A).
  rewrite Hma, Hmed.
  unfold consume, Frame.buffer_len, ETHERNET_HEADER_LEN. change (14 + (20 + length o)) with (34 + length o).
  destruct (Htok (34 + length o)) as [Hl Hb]. destruct (emitted_header_fields r (caps_checksum (caps A)) Hr) as (Hh & _).
  rewrite (emit_frame_ok MediumEthernet mac_a mac_b _ _
    (header_octets (emitted_header (caps_checksum (caps A)) r) ++ o)); try done.
  - rewrite Hl. cbn [frame_of]. destruct Hwa as [H1 _], Hwb as [H2 _]. rewrite !length_app, header_octets_length by done. cbn. lia.
  - intros tail Ht [n ->]. rewrite length_app, header_octets_length in Ht by done.
    rewrite length_drop in Ht. assert (n = 14) as -> by lia.
    unfold emit_ip. cbn [Packet.emit_payload]. change (caps A1) with (caps A).
    rewrite ipv4_emit_octets by (done || by apply bytes_drop || (rewrite length_drop; lia)). cbn [mbind outcome_bind].
    apply on_tail_ok; [by rewrite header_octets_length| |].
    + by rewrite drop_drop.
    + rewrite !length_drop. lia.
Qed.

(** The receiver hands the payload to the handler of the protocol. *)
Lemma process_link slots meta frags :
  takes (ih_src_addr r) (ih_dst_addr r) ->
  process_ethernet B slots meta link_frame frags =
    ('(inner, slots, reply) ← process_ipv4_payload B slots meta r o;
     Ret (inner, frags, slots, option_map EthernetIp reply)).
Proof.
  intros [Hsrc Hdst]. pose proof Hlink as [[Hma Hwa] [Hmb Hwb] _ (Hcaps & _)].
  change link_frame with (eth_frame mac_b mac_a EtherType.Ipv4 (header_octets (emitted_header (caps_checksum (caps A)) r) ++ o)).
  destruct (eth_frame_fields mac_b mac_a EtherType.Ipv4 (header_octets (emitted_header (caps_checksum (caps A)) r) ++ o))
    as (Hck & Hd & Hty & Hpay); try done.
  unfold process_ethernet. rewrite Hck, Hd, Hty, Hpay. cbn [mbind outcome_bind].
  rewrite Hmb, (bool_decide_eq_true_2 (HwEthernet mac_b = HwEthernet mac_b)), !andb_false_r by done.
  unfold Ipv4Packet.new_checked. rewrite ipv4_check_len_octets by (done || lia). cbn [try_bind mbind outcome_bind].
  unfold process_ipv4. rewrite (ipv4_parse_octets r) by (done || lia). cbn [mbind outcome_bind]. rewrite Hsrc.
  cbn [mbind outcome_bind negb andb]. unfold process_fragment.
  destruct (ipv4_whole_octets r (caps_checksum (caps A)) o Hr) as [-> ->]. cbn [mbind outcome_bind orb negb].
  rewrite Z.eqb_refl. cbn [negb]. rewrite ipv4_payload_octets by (done || lia). cbn [mbind outcome_bind].
  rewrite take_ge by lia. rewrite Hdst. cbn [mbind outcome_bind].
  by destruct (process_ipv4_payload B slots meta r o) as [[[inner slots'] reply]|].
Qed.
End Link.

(** ** TCP *)

Section Sockets.
Context {BO : ByteOrder} {NE : NetworkEndian BO}.
Context {AV : Vec IpCidr} {RV : Vec Route} {LM : LinearMap Address Neighbor}.

(** A slot that does not take the segment. *)
Definition tcp_passes (ip : IpRepr) (r : TcpRepr) (slot : option Item) : Prop :=
  match slot with Some (mkItem _ (SocketTcp s)) => TcpSocket.accepts ip r s = false | _ => True end.

Definition udp_passes (cx : Context) (ip : IpRepr) (r : UdpRepr) (slot : option Item) : Prop :=
  match slot with Some (mkItem _ (SocketUdp s)) => UdpSocket.accepts cx ip r s = false | _ => True end.

(** The first socket that accepts a segment gets it. *)
Lemma tcp_deliver_first cx ip r pre m s post s' cx' reply :
  Forall (tcp_passes ip r) pre -> TcpSocket.accepts ip r s = true ->
  TcpSocket.process ip r s cx = Ret (s', cx', reply) ->
  tcp_deliver cx ip r (pre ++ Some (mkItem m (SocketTcp s)) :: post) =
    Ret (pre ++ Some (mkItem m (SocketTcp s')) :: post, Some (cx', reply)).
Proof.
  intros Hpre Hacc Hp. induction Hpre as [|[[m0 [u|t]]|] pre Hslot Hpre IH]; cbn [app tcp_deliver tcp_passes] in *.
  - by rewrite Hacc, Hp.
  - by rewrite IH.
  - by rewrite Hslot, IH.
  - by rewrite IH.
Qed.

Lemma udp_deliver_none cx meta ip r packet slots b :
  Forall (udp_passes cx ip r) slots -> udp_deliver cx meta ip r packet slots b = Ret (slots, b).
Proof.
  intros Hs. induction Hs as [|[[m0 [u|t]]|] slots Hslot Hs IH]; cbn [udp_deliver udp_passes] in *; [done|..];
    by rewrite ?Hslot, IH.
Qed.

Lemma udp_deliver_one cx meta ip r packet payload pre m s post s' b :
  Forall (udp_passes cx ip r) pre -> Forall (udp_passes cx ip r) post -> UdpSocket.accepts cx ip r s = true ->
  UdpPacket.payload packet = Ret payload -> UdpSocket.process cx meta ip r payload s = Ret s' ->
  udp_deliver cx meta ip r packet (pre ++ Some (mkItem m (SocketUdp s)) :: post) b =
    Ret (pre ++ Some (mkItem m (SocketUdp s')) :: post, true).
Proof.
  intros Hpre Hpost Hacc Hpay Hp. induction Hpre as [|[[m0 [u|t]]|] pre Hslot Hpre IH]; cbn [app udp_deliver udp_passes] in *.
  - rewrite Hacc, Hpay. cbn [mbind outcome_bind]. rewrite Hp. cbn [mbind outcome_bind]. by rewrite udp_deliver_none.
  - by rewrite Hslot, IH.
  - by rewrite IH.
  - by rewrite IH.
Qed.
End Sockets.

(** The segment as it is sent: the window is no larger than what the device can
    receive in a burst. *)
Definition burst_limited (caps : DeviceCapabilities) (r : TcpRepr) : TcpRepr :=
  match max_burst_size caps with
  | Some n => r <| window_len := Z.min (window_len r)
                                   (Z.of_nat (n * (max_transmission_unit caps - 20 - Repr.header_len r))) |>
  | None => r
  end.

Lemma limit_window_ok ip caps r :
  repr_wf r -> 20 + Repr.buffer_len r <= max_transmission_unit caps ->
  Packet.limit_window (ReprIpv4 ip) caps r = Ret (burst_limited caps r).
Proof.
  intros [] Hmtu. unfold Packet.limit_window, burst_limited. destruct (max_burst_size caps) as [n|]; [|done].
  change (IpRepr.header_len (ReprIpv4 ip)) with 20. unfold Repr.buffer_len in Hmtu. unfold nsub.
  rewrite (proj2 (Nat.ltb_ge _ _)) by lia. cbn [mbind outcome_bind].
  rewrite (proj2 (Nat.ltb_ge _ _)) by lia. cbn [mbind outcome_bind].
  set (w := Z.of_nat (n * _)). assert (0 <= w)%Z by apply Nat2Z.is_nonneg. clearbody w. destruct (Z.ltb_spec w (window_len r)).
  - unfold wrap_u. rewrite Z.mod_small by lia. by rewrite Z.min_r by lia.
  - rewrite Z.min_l by lia. by destruct r.
Qed.

Lemma burst_limited_ok caps r : roundtrip_ok r ->
  roundtrip_ok (burst_limited caps r) /\ Repr.buffer_len (burst_limited caps r) = Repr.buffer_len r.
Proof.
  intros [Hwf ? ? ? ?]. unfold burst_limited. destruct (max_burst_size caps); [|done]. split; [|done].
  constructor; try done. destruct Hwf as [? ? ? ? Hw]. constructor; try done. cbn [window_len set_field]. lia.
Qed.

(** C8: a TCP segment that one interface sends is the segment that the other
    processes: [dispatch_ip] puts it into one Ethernet frame, and when that frame
    arrives [process_ethernet] hands the same segment, with the same addresses, to
    the first socket that accepts it, leaves all the other sockets as they are and
    passes on the socket's reply.  (On a device with a limited burst size the window it
    announces is cut down to that; nothing else changes.) *)
Theorem tcp_segment_crosses_link {BO : ByteOrder} (NE : NetworkEndian BO) {AV : Vec IpCidr} {RV : Vec Route}
    {LM : LinearMap Address Neighbor} (A B : InterfaceInner) mac_a mac_b ip r tok frag frags meta pre m s post cx s' cx' reply
    (Hlink : linked A B mac_a mac_b) (Htok : tx_token_wf tok)
    (Hip : ipv4_repr_wf ip) (Hproto : ih_next_header ip = Protocol.Tcp) (Hlen : ih_payload_len ip = Repr.buffer_len r)
    (Hr : roundtrip_ok r) (Hmtu : 20 + Repr.buffer_len r <= max_transmission_unit (caps A))
    (Hreach : reaches A mac_b (ih_dst_addr ip)) (Htake : takes B (ih_src_addr ip) (ih_dst_addr ip))
    (Hcx : context B = Ret cx) (Hpre : Forall (tcp_passes (ReprIpv4 ip) (burst_limited (caps A) r)) pre)
    (Hacc : TcpSocket.accepts (ReprIpv4 ip) (burst_limited (caps A) r) s = true)
    (Hproc : TcpSocket.process (ReprIpv4 ip) (burst_limited (caps A) r) s cx = Ret (s', cx', reply)) :
  exists frame,
    dispatch_ip A tok (PacketIpv4 ip (PayloadTcp r)) frag =
      Ret (A <| ipv4_id ::= fun id => wrap_u 16 (id + 1) |>, frag, [frame], Ok ()) /\
    process_ethernet B (pre ++ Some (mkItem m (SocketTcp s)) :: post) meta frame frags =
      Ret (B <| if_rand := rand cx' |>, frags, pre ++ Some (mkItem m (SocketTcp s')) :: post,
           option_map (EthernetIp ∘ tcp_packet) reply).
Proof.
  pose proof Hlink as [_ _ _ (_ & _ & Hcaps & _)]. pose proof Hip as (Hsrc & Hdst & _ & _ & Hmax & _).
  destruct (Htok (34 + Repr.buffer_len r)) as [Hl Hb]. set (buf := drop 34 (Ipv4Fragments.tx_buffer tok (34 + Repr.buffer_len r))).
  assert (length buf = Repr.buffer_len r) as Hbl by (unfold buf; rewrite length_drop; lia).
  destruct (burst_limited_ok (caps A) r Hr) as [Hr' Hlen']. rewrite <-Hlen' in Hbl.
  destruct (tcp_emit_parse_ok (burst_limited (caps A) r) buf (Ipv4 (ih_src_addr ip)) (Ipv4 (ih_dst_addr ip)) (caps_checksum (caps A)) (caps_checksum (caps B)))
    as (o & Hemit & Ho & Hparse); try done; [by apply bytes_drop|lia|].
  assert (length o = ih_payload_len ip) as Hol by lia. assert (length o = Repr.buffer_len r) as Hor by lia.
  exists (link_frame A mac_a mac_b ip o). split.
  - apply (dispatch_link A B); try done; [lia|]. rewrite Hor. fold buf. unfold Packet.emit_payload.
    cbn [Packet.payload]. rewrite limit_window_ok by (done || by destruct Hr). done.
  - rewrite (process_link A B) by done. unfold process_ipv4_payload, process_tcp. rewrite Hproto.
    cbn [IpRepr.src_addr IpRepr.dst_addr]. rewrite tcp_checked_parse, Hparse, Hcx. cbn [mbind outcome_bind].
    rewrite (tcp_deliver_first cx _ (burst_limited (caps A) r) pre m s post s' cx' reply) by done. cbn [mbind outcome_bind].
    by destruct reply.
Qed.

(** C12: a UDP datagram that one interface sends arrives, with its payload, ports and
    addresses, at the socket of the other that accepts it, and at no other socket;
    nothing is sent in reply. *)
Theorem udp_datagram_crosses_link {BO : ByteOrder} (NE : NetworkEndian BO) {AV : Vec IpCidr} {RV : Vec Route}
    {LM : LinearMap Address Neighbor} (A B : InterfaceInner) mac_a mac_b ip r data tok frag frags meta pre m s post cx s'
    (Hlink : linked A B mac_a mac_b) (Htok : tx_token_wf tok)
    (Hip : ipv4_repr_wf ip) (Hproto : ih_next_header ip = Protocol.Udp) (Hlen : ih_payload_len ip = 8 + length data)
    (Hr : udp_repr_ok r) (Hdata : bytes data) (Hmtu : 28 + length data <= max_transmission_unit (caps A))
    (Hreach : reaches A mac_b (ih_dst_addr ip)) (Htake : takes B (ih_src_addr ip) (ih_dst_addr ip))
    (Hcx : context B = Ret cx) (Hpre : Forall (udp_passes cx (ReprIpv4 ip) r) pre)
    (Hpost : Forall (udp_passes cx (ReprIpv4 ip) r) post) (Hacc : UdpSocket.accepts cx (ReprIpv4 ip) r s = true)
    (Hproc : UdpSocket.process cx meta (ReprIpv4 ip) r data s = Ret s') :
  exists frame,
    dispatch_ip A tok (PacketIpv4 ip (PayloadUdp r data)) frag =
      Ret (A <| ipv4_id ::= fun id => wrap_u 16 (id + 1) |>, frag, [frame], Ok ()) /\
    process_ethernet B (pre ++ Some (mkItem m (SocketUdp s)) :: post) meta frame frags =
      Ret (B, frags, pre ++ Some (mkItem m (SocketUdp s')) :: post, None).
Proof.
  pose proof Hip as (Hsrc & Hdst & _ & _ & Hmax & _).
  destruct (Htok (34 + (8 + length data))) as [Hl Hb].
  set (buf := drop 34 (Ipv4Fragments.tx_buffer tok (34 + (8 + length data)))).
  assert (length buf = 8 + length data) as Hbl by (unfold buf; rewrite length_drop; lia).
  destruct (udp_emit_parse_ok r data (fun b => put_slice 0 (length b) data b) (Ipv4 (ih_src_addr ip)) (Ipv4 (ih_dst_addr ip))
    (caps_checksum (caps A)) (caps_checksum (caps B)) buf) as (o & Hemit & Ho & Hparse & Hpay & _); try done; [lia|lia| |].
  { rewrite put_slice_ok by (rewrite length_slice; lia). rewrite take_0, drop_ge by lia. by rewrite app_nil_r. }
  assert (length o = ih_payload_len ip) as Hol by lia. assert (length o = 8 + length data) as Hor by lia.
  exists (link_frame A mac_a mac_b ip o). split.
  - apply (dispatch_link A B); try done; [lia|]. rewrite Hor. by fold buf.
  - rewrite (process_link A B) by done. unfold process_ipv4_payload, process_udp. rewrite Hproto.
    cbn [IpRepr.src_addr IpRepr.dst_addr]. unfold UdpRepr.parse in Hparse. unfold UdpPacket.new_checked.
    destruct (UdpPacket.check_len o) as [[[]|e]|] eqn:Hck; cbn [try_bind] in *; [|done|done].
    unfold UdpRepr.parse. rewrite Hck. cbn [try_bind]. rewrite Hparse. cbn [try_bind mbind outcome_bind].
    rewrite Hcx. cbn [mbind outcome_bind].
    by rewrite (udp_deliver_one cx meta _ r o data pre m s post s' false).
Qed.

(** C38: a ping is answered: the echo request that one interface sends is answered by
    the other with an echo reply that has the same identifier, sequence number and
    data and goes back to where the request came from, and the octets of that reply
    arrive at the first interface. *)
Theorem ping_is_answered {BO : ByteOrder} (NE : NetworkEndian BO) {AV : Vec IpCidr} {RV : Vec Route}
    {LM : LinearMap Address Neighbor} (A B : InterfaceInner) mac_a mac_b src dst hop_limit ident seq_no data tok_a tok_b
    frag_a frag_b frags meta slots
    (Hlink : linked A B mac_a mac_b) (Hback : linked B A mac_b mac_a) (Htok : tx_token_wf tok_a /\ tx_token_wf tok_b)
    (Hecho : icmpv4_repr_wf (Icmpv4EchoRequest ident seq_no data))
    (Hip : ipv4_repr_wf (mkIpHeader src dst Protocol.Icmp (8 + length data) hop_limit))
    (Hmtu : 28 + length data <= max_transmission_unit (caps A) /\ 28 + length data <= max_transmission_unit (caps B))
    (Hreach : reaches A mac_b dst /\ reaches B mac_a src) (Htake : takes B src dst)
    (Huni : is_unicast_v4 B dst = Ret true) :
  exists request reply o,
    dispatch_ip A tok_a (PacketIpv4 (mkIpHeader src dst Protocol.Icmp (8 + length data) hop_limit)
      (PayloadIcmpv4 (Icmpv4EchoRequest ident seq_no data))) frag_a =
      Ret (A <| ipv4_id ::= fun id => wrap_u 16 (id + 1) |>, frag_a, [request], Ok ()) /\
    process_ethernet B slots meta request frags = Ret (B, frags, slots, Some (EthernetIp reply)) /\
    reply = PacketIpv4 (mkIpHeader dst src Protocol.Icmp (8 + length data) 64)
              (PayloadIcmpv4 (Icmpv4EchoReply ident seq_no data)) /\
    dispatch B tok_b (EthernetIp reply) frag_b =
      Ret (B <| ipv4_id ::= fun id => wrap_u 16 (id + 1) |>, frag_b,
           [link_frame B mac_b mac_a (mkIpHeader dst src Protocol.Icmp (8 + length data) 64) o], Ok ()) /\
    Icmpv4Repr.parse o (caps_checksum (caps A)) = Ret (Ok (Icmpv4EchoReply ident seq_no data)).
Proof.
  destruct Htok as [Hta Htb], Hmtu as [Hmtua Hmtub], Hreach as [Hra Hrb].
  pose proof Hlink as [_ _ _ (_ & _ & _ & Hcaps)]. pose proof Hback as [_ _ _ (_ & _ & _ & Hcaps')].
  pose proof Hip as (Hsrc & Hdst & _ & _ & Hmax & _). cbn [ih_src_addr ih_dst_addr ih_payload_len] in *.
  assert (icmpv4_repr_wf (Icmpv4EchoReply ident seq_no data)) as Hecho' by (destruct Hecho; split; [unfold byte; cbn; lia|done]).
  assert (forall tok, tx_token_wf tok -> bytes (drop 34 (Ipv4Fragments.tx_buffer tok (34 + (8 + length data)))) /\
    length (drop 34 (Ipv4Fragments.tx_buffer tok (34 + (8 + length data)))) = 8 + length data) as Hbuf.
  { intros tok Ht. destruct (Ht (34 + (8 + length data))) as [Hl Hb]. split; [by apply bytes_drop|rewrite length_drop; lia]. }
  destruct (Hbuf tok_a Hta) as [Hba Hla], (Hbuf tok_b Htb) as [Hbb Hlb].
  destruct (icmpv4_emit_parse_ok NE _ (caps_checksum (caps A)) (caps_checksum (caps B)) _ Hecho I Hba Hla Hcaps)
    as (oa & Hea & Hola & Hpa).
  destruct (icmpv4_emit_parse_ok NE _ (caps_checksum (caps B)) (caps_checksum (caps A)) _ Hecho' I Hbb Hlb Hcaps')
    as (ob & Heb & Holb & Hpb).
  set (ipa := mkIpHeader src dst Protocol.Icmp (8 + length data) hop_limit) in *.
  set (ipb := mkIpHeader dst src Protocol.Icmp (8 + length data) 64).
  assert (length oa = 8 + length data) as Hoa by lia. assert (length ob = 8 + length data) as Hob by lia.
  exists (link_frame A mac_a mac_b ipa oa), (PacketIpv4 ipb (PayloadIcmpv4 (Icmpv4EchoReply ident seq_no data))), ob.
  split_and!; [| |done| |done].
  - apply (dispatch_link A B); try done; [lia|]. by rewrite Hoa.
  - rewrite (process_link A B) by done. unfold process_ipv4_payload, process_icmpv4. cbn [ih_next_header ipa].
    assert (Icmpv4Packet.new_checked oa = Ok oa) as ->.
    { unfold Icmpv4Packet.new_checked, Icmpv4Packet.check_len, ICMPV4_HEADER_END.
      by rewrite (proj2 (Nat.ltb_ge _ _)) by lia. }
    rewrite Hpa. cbn [mbind outcome_bind]. unfold icmpv4_reply. destruct Htake as [Htake _].
    cbn [ih_src_addr ih_dst_addr ipa]. by rewrite Htake, Huni.
  - assert (ipv4_repr_wf ipb) as Hipb by (split_and!; try done; unfold byte; cbn; lia).
    apply (dispatch_link B A); try done; [lia|]. by rewrite Hob.
Qed.

(** ** Two hosts that know each other *)

Section Witness.
#[local] Existing Instance network_endian.
Import Hosts.

Definition acquainted (mac addr : list Z) (neighbor : Address) (neighbor_mac : list Z) : InterfaceInner :=
  let inner := host mac addr 1514 in
  match Cache.fill neighbor (HwEthernet neighbor_mac) 0%Z (neighbor_cache inner) with
  | Ret cache => inner <| neighbor_cache := cache |>
  | Panic => inner
  end.

Definition alice : InterfaceInner := acquainted device_mac addr_a (Ipv4 addr_b) peer_mac.
Definition bob : InterfaceInner := acquainted peer_mac addr_b (Ipv4 addr_a) device_mac.

Lemma alice_bob : linked alice bob device_mac peer_mac /\ linked bob alice peer_mac device_mac.
Proof.
  assert (EthernetAddress.wf device_mac /\ EthernetAddress.wf peer_mac) as [] by (split; apply mac_wf; lia).
  by split; constructor.
Defined.

Lemma alice_reaches : reaches alice peer_mac addr_b /\ reaches bob device_mac addr_a.
Proof.
  split; (split; [done|]); (split; [by vm_compute|]).
  - exists (Ipv4 addr_b). by split; vm_compute.
  - exists (Ipv4 addr_a). by split; vm_compute.
Defined.

Lemma bob_takes : takes bob addr_a addr_b.
Proof. by split; vm_compute. Defined.

Lemma header_ok proto len :
  byte (Protocol.into proto) -> Protocol.from (Protocol.into proto) = proto -> (Z.of_nat (20 + len) <= U16_MAX)%Z ->
  ipv4_repr_wf (mkIpHeader addr_a addr_b proto len 64).
Proof.
  intros Hb Hf Hl. split; [apply (addr_wf 1); lia|]. split; [apply (addr_wf 2); lia|]. split_and!; try done; unfold byte; cbn; lia.
Defined.

Lemma ping_is_answered_witness :
  exists request reply o,
    dispatch_ip alice blank_token (PacketIpv4 (mkIpHeader addr_a addr_b Protocol.Icmp 10 64)
      (PayloadIcmpv4 (Icmpv4EchoRequest 7 1 [104; 105]%Z))) (Fragmenter.new 0) =
      Ret (alice <| ipv4_id ::= fun id => wrap_u 16 (id + 1) |>, Fragmenter.new 0, [request], Ok ()) /\
    process_ethernet bob [] default_meta request empty_fragments = Ret (bob, empty_fragments, [], Some (EthernetIp reply)) /\
    reply = PacketIpv4 (mkIpHeader addr_b addr_a Protocol.Icmp 10 64) (PayloadIcmpv4 (Icmpv4EchoReply 7 1 [104; 105]%Z)) /\
    dispatch bob blank_token (EthernetIp reply) (Fragmenter.new 0) =
      Ret (bob <| ipv4_id ::= fun id => wrap_u 16 (id + 1) |>, Fragmenter.new 0,
           [link_frame bob peer_mac device_mac (mkIpHeader addr_b addr_a Protocol.Icmp 10 64) o], Ok ()) /\
    Icmpv4Repr.parse o all_checksums = Ret (Ok (Icmpv4EchoReply 7 1 [104; 105]%Z)).
Proof.
  apply (ping_is_answered network_endian_laws alice bob device_mac peer_mac addr_a addr_b 64 7 1 [104; 105]%Z).
  - apply alice_bob.
  - apply alice_bob.
  - split; apply blank_token_wf.
  - split; [unfold byte; cbn; lia|]. unfold word, bytes, byte. split_and!; try lia; [|cbn; lia]. by repeat constructor; lia.
  - apply header_ok; unfold byte; done || cbn; lia.
  - split; by apply Nat.leb_le.
  - apply alice_reaches.
  - apply bob_takes.
  - by vm_compute.
Defined.
Lemma syn_roundtrip : roundtrip_ok (Scenario.segment Syn 99%Z None []).
Proof.
  split; [split; cbn; unfold seq_range; try lia; try done; repeat constructor|done|done| |done].
  exists []. split; [done|cbn; lia].
Defined.

Definition returned {X : Type} (out : outcome X) : bool := match out with Ret _ => true | Panic => false end.

Lemma returned_Ret {X : Type} (out : outcome X) : returned out = true -> exists x, out = Ret x.
Proof. destruct out; [by eexists|done]. Defined.

(** A socket of Bob's that listens at port 80. *)
Definition bob_listening : TcpSocket.Socket :=
  match socket_run 4 Scenario.cc Scenario.buffer Scenario.buffer [EvListen (mkListen None 80)] Scenario.cx with
  | Ret (s, _, _) => s
  | Panic => established_socket
  end.

Lemma tcp_segment_crosses_link_witness :
  exists cx s' cx' reply frame, context bob = Ret cx /\
    TcpSocket.process (ReprIpv4 (mkIpHeader addr_a addr_b Protocol.Tcp 20 64)) (Scenario.segment Syn 99%Z None [])
      bob_listening cx = Ret (s', cx', reply) /\
    dispatch_ip alice blank_token (PacketIpv4 (mkIpHeader addr_a addr_b Protocol.Tcp 20 64)
      (PayloadTcp (Scenario.segment Syn 99%Z None []))) (Fragmenter.new 0) =
      Ret (alice <| ipv4_id ::= fun id => wrap_u 16 (id + 1) |>, Fragmenter.new 0, [frame], Ok ()) /\
    process_ethernet bob ([None] ++ [Some (mkItem (Meta.mk 1 Meta.Active) (SocketTcp bob_listening))]) default_meta
      frame empty_fragments =
      Ret (bob <| if_rand := rand cx' |>, empty_fragments,
           [None] ++ [Some (mkItem (Meta.mk 1 Meta.Active) (SocketTcp s'))], option_map (EthernetIp ∘ tcp_packet) reply).
Proof.
  destruct (returned_Ret (context bob)) as [cx Hcx]; [by vm_compute|].
  destruct (returned_Ret (cx ← context bob; TcpSocket.process (ReprIpv4 (mkIpHeader addr_a addr_b Protocol.Tcp 20 64))
    (Scenario.segment Syn 99%Z None []) bob_listening cx)) as [[[s' cx'] reply] Hp]; [by vm_compute|].
  rewrite Hcx in Hp. cbn [mbind outcome_bind] in Hp. exists cx, s', cx', reply.
  destruct (tcp_segment_crosses_link network_endian_laws alice bob device_mac peer_mac
    (mkIpHeader addr_a addr_b Protocol.Tcp 20 64) (Scenario.segment Syn 99%Z None []) blank_token (Fragmenter.new 0)
    empty_fragments default_meta [None] (Meta.mk 1 Meta.Active) bob_listening [] cx s' cx' reply) as (frame & Hd & Hr).
  - apply alice_bob.
  - apply blank_token_wf.
  - apply header_ok; unfold byte; done || cbn; lia.
  - reflexivity.
  - reflexivity.
  - apply syn_roundtrip.
  - by apply Nat.leb_le.
  - apply alice_reaches.
  - apply bob_takes.
  - exact Hcx.
  - by repeat constructor.
  - by vm_compute.
  - exact Hp.
  - exists frame. exact (conj Hcx (conj Hp (conj Hd Hr))).
Defined.

(** A socket of Bob's that is bound to port 7. *)
Definition bob_bound : UdpSocket.Socket :=
  (UdpSocket.bind (mkListen None 7)
    (UdpSocket.new (PacketBuffer.new (replicate 4 EMPTY) (replicate 64 0%Z))
       (PacketBuffer.new (replicate 4 EMPTY) (replicate 64 0%Z)))).1.

Lemma udp_datagram_crosses_link_witness :
  exists cx s' frame, context bob = Ret cx /\
    PacketBuffer.packets (UdpSocket.rx_buffer s') =
      [(mkUdpMetadata (mkEndpoint (Ipv4 addr_a) 9) (Some (Ipv4 addr_b)) default_meta, [1; 2; 3]%Z)] /\
    dispatch_ip alice blank_token (PacketIpv4 (mkIpHeader addr_a addr_b Protocol.Udp 11 64)
      (PayloadUdp (mkUdpRepr 9 7) [1; 2; 3]%Z)) (Fragmenter.new 0) =
      Ret (alice <| ipv4_id ::= fun id => wrap_u 16 (id + 1) |>, Fragmenter.new 0, [frame], Ok ()) /\
    process_ethernet bob ([] ++ Some (mkItem (Meta.mk 0 Meta.Active) (SocketUdp bob_bound)) :: [None]) default_meta
      frame empty_fragments =
      Ret (bob, empty_fragments, [] ++ Some (mkItem (Meta.mk 0 Meta.Active) (SocketUdp s')) :: [None], None).
Proof.
  destruct (returned_Ret (context bob)) as [cx Hcx]; [by vm_compute|].
  destruct (returned_Ret (cx ← context bob; UdpSocket.process cx default_meta
    (ReprIpv4 (mkIpHeader addr_a addr_b Protocol.Udp 11 64)) (mkUdpRepr 9 7) [1; 2; 3]%Z bob_bound)) as [s' Hp]; [by vm_compute|].
  exists cx, s'.
  destruct (udp_datagram_crosses_link network_endian_laws alice bob device_mac peer_mac
    (mkIpHeader addr_a addr_b Protocol.Udp 11 64) (mkUdpRepr 9 7) [1; 2; 3]%Z blank_token (Fragmenter.new 0)
    empty_fragments default_meta [] (Meta.mk 0 Meta.Active) bob_bound [None] cx s') as (frame & Hd & Hr).
  - apply alice_bob.
  - apply blank_token_wf.
  - apply header_ok; unfold byte; done || cbn; lia.
  - reflexivity.
  - reflexivity.
  - unfold udp_repr_ok. cbn. lia.
  - repeat constructor; unfold byte; lia.
  - by apply Nat.leb_le.
  - apply alice_reaches.
  - apply bob_takes.
  - exact Hcx.
  - constructor.
  - by repeat constructor.
  - reflexivity.
  - by rewrite Hcx in Hp.
  - exists frame. split; [exact Hcx|]. split; [|exact (conj Hd Hr)].
    enough ((s ← (cx ← context bob; UdpSocket.process cx default_meta
      (ReprIpv4 (mkIpHeader addr_a addr_b Protocol.Udp 11 64)) (mkUdpRepr 9 7) [1; 2; 3]%Z bob_bound);
      Ret (PacketBuffer.packets (UdpSocket.rx_buffer s))) = Ret [(mkUdpMetadata (mkEndpoint (Ipv4 addr_a) 9)
        (Some (Ipv4 addr_b)) default_meta, [1; 2; 3]%Z)]) as H by (rewrite Hp in H; by injection H).
    by vm_compute.
Defined.
End Witness.
