(* ===== verification/IfaceFragments.v ===== *)
(** * Datagrams in fragments between two interfaces on a link

    A UDP datagram too large for a frame: [dispatch_ip] sends the first fragment,
    [ipv4_egress] the others as the interface is polled, and [process_ethernet] of
    the receiver puts them together and hands the datagram to the socket.  The
    fragments themselves are the subject of Ipv4Fragments.v. *)

From S2P Require Import Prelude PacketBuffer Time Bytes Octets Phy Ip LinkLayer Ipv4Wire UdpWire Cidr Route Neighbor.
From S2P Require Import Fragmentation Packet Ipv4Fragments Context UdpSocket UdpSpec Iface IfaceProcess IfaceArp IfaceLink Collections.
Open Scope nat_scope.

(** ** A fragment arrives *)

Section Fragment.
Context {BO : ByteOrder} {NE : NetworkEndian BO}.
Variables (caps : DeviceCapabilities) (r : IpHeader) (d : list Z) (id : Z) (o l : nat).
Hypothesis Hr : ipv4_repr_wf r.
Hypothesis Hd : length d = ih_payload_len r.
Hypothesis Hid : word id.
Hypothesis Hol : o + l <= length d.

Abbreviation packet := (fragment_packet caps r d id o l).

Lemma fragment_fields :
  header_wf (finish (caps_checksum caps) (frag_header (r <| ih_payload_len := l |>) id (negb (o + l =? length d)) (Z.of_nat o))) /\
  length packet = 20 + l.
Proof.
  split; [by apply (fragment_header_wf caps r d id 1); [..|lia|]|].
  by apply (fragment_packet_length caps r d id 1); [..|lia|].
Qed.

Lemma fragment_check_len : Ipv4Packet.check_len packet = Ret (Ok ()).
Proof.
  destruct fragment_fields as [Hh Hlen]. pose proof Hr as (_ & _ & _ & _ & Hmax & _).
  unfold Ipv4Packet.check_len, IPV4_HEADER_LEN. rewrite Hlen, (proj2 (Nat.ltb_ge _ _)) by lia.
  unfold fragment_packet. rewrite h_get_header_len. cbn [mbind outcome_bind].
  rewrite (proj2 (Nat.ltb_ge _ _)) by lia. rewrite h_get_total by done. cbn [mbind outcome_bind].
  destruct (finish_fields (caps_checksum caps) (frag_header (r <| ih_payload_len := l |>) id
    (negb (o + l =? length d)) (Z.of_nat o))) as (-> & _).
  change (h_total_len _) with (20 + Z.of_nat l)%Z.
  by rewrite Z.gtb_ltb, (proj2 (Z.ltb_ge _ _)), (proj2 (Nat.ltb_ge _ _)) by lia.
Qed.

(** The header of a fragment is that of the datagram, but for the length. *)
Lemma fragment_parse rx_caps :
  (Checksum.rx (caps_ipv4 rx_caps) = true -> Checksum.tx (caps_ipv4 (caps_checksum caps)) = true) ->
  Ipv4Repr.parse packet rx_caps = Ret (Ok (r <| ih_payload_len := l |>)).
Proof.
  intros Hcaps. destruct fragment_fields as [Hh _]. pose proof Hr as (Hs & Hdst & Hp & Hpi & _ & _).
  unfold Ipv4Repr.parse. rewrite fragment_check_len. cbn [try_bind]. unfold fragment_packet.
  set (h0 := frag_header _ _ _ _) in *. set (h := finish _ h0) in *.
  rewrite h_get_version. cbn [mbind outcome_bind]. rewrite Z.eqb_refl. cbn [negb].
  assert (Checksum.rx (caps_ipv4 rx_caps) = true -> Ipv4Packet.verify_checksum (header_octets h ++ slice d o l) = Ret true) as Hver.
  { intros Hrx. unfold h, finish. rewrite Hcaps by done. apply checked_verifies.
    apply frag_header_wf; [apply (sub_repr_wf r d 1); [done..|lia|lia]|done|apply (offset_word r d 1); [done..|lia|lia]]. }
  destruct (finish_fields (caps_checksum caps) h0) as (Ht & _ & _ & Hfs & Hfd & Hfp). fold h in Ht, Hfs, Hfd, Hfp.
  assert (h_hop h = ih_hop_limit r) as Hhop by (unfold h, finish; by destruct (Checksum.tx _)).
  destruct (Checksum.rx _); [rewrite Hver by done|]; cbn [mbind outcome_bind negb];
    rewrite h_get_total, h_get_header_len, Ht by done; cbn [mbind outcome_bind];
    change (h_total_len h0) with (20 + Z.of_nat l)%Z; rewrite usub_Ret by lia; cbn [mbind outcome_bind];
    rewrite h_get_src, h_get_dst, h_get_next, h_get_hop by done; cbn [mbind outcome_bind];
    rewrite Hfs, Hfd, Hfp, Hhop; change (h_src h0) with (ih_src_addr r); change (h_dst h0) with (ih_dst_addr r);
    change (h_proto h0) with (Protocol.into (ih_next_header r)); rewrite Hpi;
    do 2 f_equal; destruct r; unfold set_field; cbn; f_equal; lia.
Qed.
End Fragment.

(** ** The two ends *)

Section Link.
Context {BO : ByteOrder} {NE : NetworkEndian BO}.
Context {AV : Vec IpCidr} {RV : Vec Route} {LM : LinearMap Address Neighbor}.
Variables (A B : InterfaceInner) (mac_a mac_b : list Z).
Hypothesis Hlink : linked A B mac_a mac_b.
Variables (r : IpHeader) (d : list Z) (id : Z).
Hypothesis Hr : ipv4_repr_wf r.
Hypothesis Hd : length d = ih_payload_len r.
Hypothesis Hid : word id.

(** The receiver puts the fragment to the others of its datagram, and hands the
    datagram to the handler of the protocol when it is complete. *)
Lemma process_fragment_frame o l t slots meta frags :
  o + l <= length d -> takes (B <| if_now := t |>) (ih_src_addr r) (ih_dst_addr r) ->
  process_ethernet (B <| if_now := t |>) slots meta (fragment_frame (caps A) mac_a mac_b r d id o l) frags =
    ('(frags, payload) ← process_fragment t (fragment_packet (caps A) r d id o l) frags;
     match payload with
     | None => Ret (B <| if_now := t |>, frags, slots, None)
     | Some p =>
         '(inner, slots, reply) ← process_ipv4_payload (B <| if_now := t |>) slots meta (r <| ih_payload_len := l |>) p;
         Ret (inner, frags, slots, option_map EthernetIp reply)
     end).
Proof.
  intros Hol [Hsrc Hdst]. pose proof Hlink as [[Hma Hwa] [Hmb Hwb] Hmed (Hcaps & _)].
  unfold fragment_frame. rewrite Hmed. set (packet := fragment_packet _ _ _ _ _ _).
  change (frame_of MediumEthernet mac_a mac_b packet) with (eth_frame mac_b mac_a EtherType.Ipv4 packet).
  destruct (eth_frame_fields mac_b mac_a EtherType.Ipv4 packet) as (Hck & Hdd & Hty & Hpay); try done.
  unfold process_ethernet. rewrite Hck, Hdd, Hty, Hpay. cbn [mbind outcome_bind].
  change (hardware_addr (B <| if_now := t |>)) with (hardware_addr B).
  rewrite Hmb, (bool_decide_eq_true_2 (HwEthernet mac_b = HwEthernet mac_b)), !andb_false_r by done.
  unfold Ipv4Packet.new_checked, packet. rewrite (fragment_check_len (caps A)) by done. cbn [try_bind mbind outcome_bind].
  unfold process_ipv4. rewrite (fragment_parse (caps A)) by done. cbn [mbind outcome_bind].
  change (ih_src_addr (r <| ih_payload_len := l |>)) with (ih_src_addr r). rewrite Hsrc.
  cbn [mbind outcome_bind negb andb]. change (if_now (B <| if_now := t |>)) with t.
  destruct (process_fragment _ _ _) as [[frags1 [p|]]|]; cbn [mbind outcome_bind]; [|done..].
  change (ih_dst_addr (r <| ih_payload_len := l |>)) with (ih_dst_addr r). rewrite Hdst. cbn [mbind outcome_bind].
  by destruct (process_ipv4_payload _ _ _ _ _) as [[[inner slots'] reply]|].
Qed.

(** The receiving interface, polled at each of these times to find one frame; what it
    replies. *)
Fixpoint arrive (meta : PacketMeta) (arrivals : list (Instant * list Z)) (inner : InterfaceInner) (slots : list (option Item))
    (frags : FragmentsBuffer) : outcome (InterfaceInner * FragmentsBuffer * list (option Item) * list EthernetPacket) :=
  match arrivals with
  | [] => Ret (inner, frags, slots, [])
  | (now, frame) :: arrivals =>
      let inner := inner <| if_now := now |> in
      let frags := frags <| fb_assembler ::= PacketAssemblerSet.remove_expired now |> in
      '(inner, frags, slots, reply) ← process_ethernet inner slots meta frame frags;
      '(inner, frags, slots, replies) ← arrive meta arrivals inner slots frags;
      Ret (inner, frags, slots, option_list reply ++ replies)
  end.

(** As long as no datagram is complete nothing else happens. *)
Lemma arrive_incomplete meta arrivals slots frags frags' t0 :
  EthernetAddress.wf mac_a -> EthernetAddress.wf mac_b ->
  (forall a, a ∈ arrivals -> takes (B <| if_now := a.1 |>) (ih_src_addr r) (ih_dst_addr r) /\
     exists o l, o + l <= length d /\ a.2 = fragment_frame (caps A) mac_a mac_b r d id o l) ->
  receive (caps_medium (caps A)) arrivals frags = Ret (frags', []) ->
  exists t, arrive meta arrivals (B <| if_now := t0 |>) slots frags = Ret (B <| if_now := t |>, frags', slots, []).
Proof.
  intros Hwa Hwb. revert frags t0. induction arrivals as [|[t fr] arrivals IH]; intros frags t0 Hall Hrun; cbn [receive arrive] in *.
  - injection Hrun as <-. by exists t0.
  - destruct (Hall (t, fr) ltac:(left)) as (Htake & o & l & Hol & Heq). cbn in Heq, Htake. subst fr.
    unfold fragment_frame in Hrun at 1. rewrite packet_of_frame in Hrun by done. cbn [mbind outcome_bind] in Hrun.
    change (B <| if_now := t0 |> <| if_now := t |>) with (B <| if_now := t |>).
    rewrite process_fragment_frame by done.
    destruct (process_fragment _ _ _) as [[frags1 out]|]; [|done]. cbn [mbind outcome_bind] in Hrun |- *.
    destruct (receive _ arrivals frags1) as [[frags2 outs]|] eqn:Hrest; [|done]. cbn [mbind outcome_bind] in Hrun.
    injection Hrun as -> Hnil. destruct out; [done|]. cbn in Hnil. subst outs. cbn [mbind outcome_bind].
    destruct (IH frags1 t) as [t' ->]; [|done|]; [intros; apply Hall; by right|]. cbn [mbind outcome_bind].
    by exists t'.
Qed.

(** When the last missing fragment arrives the datagram goes to its handler. *)
Lemma arrive_last meta last slots frags frags' t0 :
  EthernetAddress.wf mac_a -> EthernetAddress.wf mac_b -> takes (B <| if_now := last.1 |>) (ih_src_addr r) (ih_dst_addr r) ->
  (exists o l, o + l <= length d /\ last.2 = fragment_frame (caps A) mac_a mac_b r d id o l) ->
  receive (caps_medium (caps A)) [last] frags = Ret (frags', [d]) ->
  exists l, arrive meta [last] (B <| if_now := t0 |>) slots frags =
    ('(inner, slots, reply) ← process_ipv4_payload (B <| if_now := last.1 |>) slots meta (r <| ih_payload_len := l |>) d;
     Ret (inner, frags', slots, option_list (option_map EthernetIp reply))).
Proof.
  intros Hwa Hwb Htake (o & l & Hol & Heq) Hrun. destruct last as [t fr]. cbn in Htake, Heq. subst fr. exists l. cbn [receive arrive] in *.
  unfold fragment_frame in Hrun at 1. rewrite packet_of_frame in Hrun by done. cbn [mbind outcome_bind] in Hrun.
  change (B <| if_now := t0 |> <| if_now := t |>) with (B <| if_now := t |>). rewrite process_fragment_frame by done.
  destruct (process_fragment _ _ _) as [[frags1 [p|]]|]; cbn [mbind outcome_bind] in Hrun |- *; [|done|done].
  injection Hrun as -> ->.
  destruct (process_ipv4_payload _ _ _ _ _) as [[[inner slots'] reply]|]; cbn [mbind outcome_bind]; [|done]. by rewrite app_nil_r.
Qed.
End Link.

(** ** A UDP datagram *)

(** The number of pieces. *)
Lemma chunks_count d m fuel o k :
  length d <= o + m * k -> length (chunks d m fuel o) <= k.
Proof.
  revert o k. induction fuel as [|fuel IH]; intros o k Hk; cbn [chunks length]; [lia|].
  destruct (Nat.leb_spec (length d) o); [cbn; lia|]. destruct k as [|k]; [lia|]. cbn [length]. apply le_n_S, IH. lia.
Qed.

Section Datagram.
Context {BO : ByteOrder} {NE : NetworkEndian BO}.
Context {AV : Vec IpCidr} {RV : Vec Route} {LM : LinearMap Address Neighbor}.
Implicit Types (ip : IpHeader) (r : UdpRepr) (data : list Z).

(** The closure [emit_ip] writes the header of the first fragment and the whole
    datagram, with its checksum. *)
Lemma udp_emits (A : InterfaceInner) ip r data n buf rx_caps :
  ipv4_repr_wf ip -> ih_payload_len ip = 8 + length data -> udp_repr_ok r -> bytes data -> n <= 8 + length data ->
  bytes buf -> 28 + length data <= length buf ->
  exists d, emits (caps A) ip d n (emit_ip A (PacketIpv4 ip (PayloadUdp r data))) buf /\ length d = ih_payload_len ip /\
    UdpRepr.parse d (Ipv4 (ih_src_addr ip)) (Ipv4 (ih_dst_addr ip)) rx_caps = Ret (Ok r) /\ UdpPacket.payload d = Ret data.
Proof.
  intros Hip Hlen Hr Hdata Hn Hb Hl. pose proof Hip as (Hsrc & Hdst & _ & _ & Hmax & _).
  assert (ipv4_repr_wf (ip <| ih_payload_len := n |>)) as Hip'.
  { destruct Hip as (? & ? & ? & ? & ? & ?). split_and!; try done. cbn [ih_payload_len set_field]. lia. }
  set (rest := drop 20 buf). assert (length rest = length buf - 20) as Hrl by (unfold rest; rewrite length_drop; lia).
  destruct (udp_emit_ok r data (fun b => put_slice 0 (length b) data b) (Ipv4 (ih_src_addr ip)) (Ipv4 (ih_dst_addr ip))
    (caps_checksum (caps A)) rest) as (v & Hv & He & Hver); try done; [lia|lia| |].
  { rewrite put_slice_ok by (rewrite length_slice; lia). rewrite take_0, drop_ge by lia. by rewrite app_nil_r. }
  rewrite datagram_verify_tail in Hver by (done || lia).
  destruct (udp_datagram_parse r v data [] (Ipv4 (ih_src_addr ip)) (Ipv4 (ih_dst_addr ip)) rx_caps) as (Hparse & Hpay & Hdl);
    [done|lia|done|]. cbn [length] in Hdl. rewrite Nat.add_0_r in Hdl.
  exists (udp_datagram r v data []). split_and!; [|lia|done|done].
  unfold emits, emit_ip. rewrite ipv4_emit_octets by (done || lia). cbn [mbind outcome_bind]. fold rest.
  change (if Checksum.tx _ then _ else _) with (emitted_header (caps_checksum (caps A)) (ip <| ih_payload_len := n |>)).
  destruct (emitted_header_fields (ip <| ih_payload_len := n |>) (caps_checksum (caps A)) Hip') as (Hh & _).
  set (h := header_octets _). assert (length h = 20) as Hhl by (by apply header_octets_length).
  assert (udp_datagram r v data (drop (8 + length data) rest) = udp_datagram r v data [] ++ drop (8 + length data) rest) as Hsplit.
  { unfold udp_datagram, udp_packet. rewrite app_nil_r. by rewrite <-!app_assoc. }
  rewrite (on_tail_ok _ _ h rest (udp_datagram r v data (drop (8 + length data) rest))); [|done|exact He|].
  - f_equal. unfold splice. rewrite take_app_length', Hdl by done. rewrite Hsplit. do 2 f_equal.
    rewrite drop_app_ge by lia. f_equal. lia.
  - rewrite Hsplit, length_app, Hdl, length_drop. lia.
Qed.

(** A datagram larger than a frame is sent in fragments. *)
Lemma dispatch_fragments (A B : InterfaceInner) mac_a mac_b ip pl tok frag :
  linked A B mac_a mac_b -> reaches A mac_b (ih_dst_addr ip) ->
  max_transmission_unit (caps A) < 20 + ih_payload_len ip ->
  dispatch_ip A tok (PacketIpv4 ip pl) frag =
    (let A1 := A <| ipv4_id ::= fun id => wrap_u 16 (id + 1) |> in
     '(frag, frame) ← first_fragment (HwEthernet mac_a) (caps A) (emit_ip A1 (PacketIpv4 ip pl)) ip mac_b (ipv4_id A) tok frag;
     Ret (A1, frag, option_list frame, Ok ())).
Proof.
  intros [[Hma _] _ Hmed _] (Hu & Hbc & hop & Hroute & Hcache) Hbig.
  unfold dispatch_ip. cbn [Packet.ip_repr IpRepr.dst_addr IpRepr.src_addr Address.is_unspecified].
  assert (Ipv4Address.is_unspecified (ih_dst_addr ip) = false /\ Ipv4Address.is_multicast (ih_dst_addr ip) = false) as [-> Hm].
  { unfold Ipv4Address.is_unicast in Hu. by destruct (Ipv4Address.is_broadcast _), (Ipv4Address.is_multicast _), (Ipv4Address.is_unspecified _). }
  cbn [negb rust_assert mbind outcome_bind next_ipv4_frag_ident].
  set (A1 := A <| ipv4_id ::= _ |>). change (caps A1) with (caps A). rewrite Hmed.
  unfold lookup_hardware_addr. change (is_broadcast A1 (Ipv4 (ih_dst_addr ip))) with (is_broadcast A (Ipv4 (ih_dst_addr ip))).
  rewrite Hbc. cbn [mbind outcome_bind Address.is_multicast]. rewrite Hm.
  change (route A1 (Ipv4 (ih_dst_addr ip)) (if_now A1)) with (route A (Ipv4 (ih_dst_addr ip)) (if_now A)).
  rewrite Hroute. cbn [mbind outcome_bind]. change (if_now A1) with (if_now A).
  change (neighbor_cache A1) with (neighbor_cache A). rewrite Hcache. cbn [mbind outcome_bind].
  change (caps A1) with (caps A). change (IpRepr.buffer_len (ReprIpv4 ip)) with (20 + ih_payload_len ip).
  rewrite (proj2 (Nat.ltb_lt _ _)) by lia. change (hardware_addr A1) with (hardware_addr A). by rewrite Hma.
Qed.

(** The handler gives the datagram to the socket that accepts it. *)
Lemma deliver_datagram (B : InterfaceInner) ip r data d l meta pre m s post cx s' :
  ih_next_header ip = Protocol.Udp ->
  UdpRepr.parse d (Ipv4 (ih_src_addr ip)) (Ipv4 (ih_dst_addr ip)) (caps_checksum (caps B)) = Ret (Ok r) ->
  UdpPacket.payload d = Ret data -> context B = Ret cx -> Forall (udp_passes cx (ReprIpv4 ip) r) pre ->
  Forall (udp_passes cx (ReprIpv4 ip) r) post -> UdpSocket.accepts cx (ReprIpv4 ip) r s = true ->
  UdpSocket.process cx meta (ReprIpv4 ip) r data s = Ret s' ->
  process_ipv4_payload B (pre ++ Some (mkItem m (SocketUdp s)) :: post) meta (ip <| ih_payload_len := l |>) d =
    Ret (B, pre ++ Some (mkItem m (SocketUdp s')) :: post, None).
Proof.
  intros Hproto Hparse Hpay Hcx Hpre Hpost Hacc Hproc. unfold process_ipv4_payload, process_udp.
  change (ih_next_header (ip <| ih_payload_len := l |>)) with (ih_next_header ip). rewrite Hproto.
  change (IpRepr.src_addr (ReprIpv4 (ip <| ih_payload_len := l |>))) with (Ipv4 (ih_src_addr ip)).
  change (IpRepr.dst_addr (ReprIpv4 (ip <| ih_payload_len := l |>))) with (Ipv4 (ih_dst_addr ip)).
  unfold UdpRepr.parse in Hparse. unfold UdpPacket.new_checked.
  destruct (UdpPacket.check_len d) as [[[]|e]|] eqn:Hck; cbn [try_bind] in *; [|done|done].
  unfold UdpRepr.parse. rewrite Hck. cbn [try_bind]. rewrite Hparse. cbn [try_bind mbind outcome_bind].
  rewrite Hcx. cbn [mbind outcome_bind].
  by rewrite (udp_deliver_one cx meta _ r d data pre m s post s' false).
Qed.
End Datagram.

Lemma arrive_app {BO : ByteOrder} {AV : Vec IpCidr} {RV : Vec Route} {LM : LinearMap Address Neighbor}
    meta l1 l2 (inner inner' : InterfaceInner) slots slots' frags frags' :
  arrive meta l1 inner slots frags = Ret (inner', frags', slots', []) ->
  arrive meta (l1 ++ l2) inner slots frags = arrive meta l2 inner' slots' frags'.
Proof.
  revert inner slots frags. induction l1 as [|[t fr] l1 IH]; intros inner slots frags; cbn [arrive app]; [by intros [= -> -> ->]|].
  destruct (process_ethernet _ _ _ _ _) as [[[[i1 f1] s1] reply]|]; [|done]. cbn [mbind outcome_bind].
  destruct (arrive meta l1 i1 s1 f1) as [[[[i2 f2] s2] replies]|] eqn:Hl; [|done]. cbn [mbind outcome_bind].
  intros [= -> -> -> Hnil]. destruct reply; [done|]. cbn in Hnil. subst replies. rewrite (IH i1 s1 f1 Hl).
  by destruct (arrive meta l2 inner' slots' frags') as [[[[? ?] ?] ?]|].
Qed.

(** The key of the datagram's reassembly. *)
Definition datagram_key (id : Z) (ip : IpHeader) : Ipv4Key.t :=
  Ipv4Key.mk id (ih_src_addr ip) (ih_dst_addr ip) (ih_next_header ip).


(** ** Alice sends three fragments to Bob *)

Section Witness.
#[local] Existing Instance network_endian.
Import Hosts.

(** Eight octets of payload per frame. *)
Definition narrow : InterfaceInner := alice <| caps := mkDeviceCapabilities MediumEthernet 42 None all_checksums |>.
Definition ip_24 : IpHeader := mkIpHeader addr_a addr_b Protocol.Udp 24 64.
Definition ports : UdpRepr := mkUdpRepr 9 7.

Definition sent : list (list Z) :=
  match dispatch_ip narrow blank_token (PacketIpv4 ip_24 (PayloadUdp ports (counting 16))) (Fragmenter.new 64) with
  | Ret (_, frag, fs, _) =>
      match egress (caps narrow) (hardware_addr narrow) [blank_token; blank_token] frag with Ret (_, gs) => fs ++ gs | Panic => [] end
  | Panic => []
  end.

(** The last comes first, and twice. *)
Definition before : list (Instant * list Z) := [(0, sent !!! 2%nat); (0, sent !!! 0%nat); (5, sent !!! 2%nat)]%Z.
Definition final : Instant * list Z := (9%Z, sent !!! 1%nat).

Definition bob_slots (s : UdpSocket.Socket) : list (option Item) :=
  [] ++ Some (mkItem (Meta.mk 0 Meta.Active) (SocketUdp s)) :: [None].

Lemma sent_three : sent = [sent !!! 0%nat; sent !!! 1%nat; sent !!! 2%nat].
Proof. vm_compute. reflexivity. Qed.

Lemma all_arrive f : f ∈ (before ++ [final]).*2 <-> f ∈ sent.
Proof. rewrite sent_three. cbn [before final app fmap list_fmap snd]. rewrite !elem_of_cons. tauto. Qed.

Lemma final_missing : final.2 ∉ before.*2.
Proof. apply (bool_decide_eq_true_1 (final.2 ∉ before.*2)). vm_compute. reflexivity. Qed.

Lemma narrow_bob : linked narrow bob device_mac peer_mac.
Proof.
  assert (EthernetAddress.wf device_mac /\ EthernetAddress.wf peer_mac) as [] by (split; apply mac_wf; lia). by constructor.
Qed.

Lemma arrive_in_time :
  Forall (fun a : Instant * list Z => 0 <= a.1 <= 0 + reassembly_timeout empty_fragments)%Z (before ++ [final]).
Proof. repeat (apply Forall_cons; split; [cbn; lia|]). constructor. Qed.

Lemma header_24 : ipv4_repr_wf ip_24 /\ word (ipv4_id narrow).
Proof. split; [apply header_ok; unfold byte; done || cbn; lia|by vm_compute]. Qed.

Lemma clock_24 : (0 <= 0 /\ 0 <= reassembly_timeout empty_fragments /\ 0 + 2 * reassembly_timeout empty_fragments <= I64_MAX)%Z.
Proof. cbn. lia. Qed.

End Witness.
