(* ===== verification/IfaceFindings.v ===== *)
(** * Runs of the interface that end badly

    Each theorem is a run of two modelled hosts, evaluated, that shows a behaviour
    the code does not intend. *)

From S2P Require Import Prelude RingBuffer PacketBuffer Time SeqNumber Bytes Phy Ip LinkLayer Arp Ipv4Wire Icmpv4Wire UdpWire TcpWire.
From S2P Require Import Cidr Route Neighbor Fragmentation Packet Ipv4Fragments Congestion Context TcpSocket UdpSocket.
From S2P Require Import TcpRun Iface IfaceProcess IfaceArp Collections.
Import Scenario Hosts.
Open Scope Z_scope.

Section Runs.
#[local] Existing Instance network_endian.

(** The frame in which the peer sends a packet to host A. *)
Definition frame_from_peer (packet : Packet) : outcome (list Z) :=
  emit_frame (HwEthernet peer_mac) MediumEthernet device_mac V4 (emit_ip host_b packet (Packet.ip_repr packet))
    (replicate (14 + IpRepr.buffer_len (Packet.ip_repr packet)) 0).

Definition tcp_from (src : list Z) (r : TcpRepr) : Packet :=
  PacketIpv4 (mkIpHeader src addr_a Protocol.Tcp (Repr.buffer_len r) 64) (PayloadTcp r).

(** Host A, with a socket that listens at port 80. *)
Definition listening : outcome Socket :=
  '(s, _, _) ← socket_run 4 cc buffer buffer [EvListen (mkListen None 80)] cx;
  Ret s.

Definition interface_a : Interface := mkInterface host_a empty_fragments (Fragmenter.new 1500).

(** A device that gives these frames, and so many tokens. *)
Definition device (frames : list (list Z)) (tokens : nat) : Device :=
  mkDevice ((fun f => Some (plain_rx f, blank_token)) <$> frames) (replicate tokens (Some blank_token)) [].

Definition poll_with (sockets : list AnySocket) (frames : list (list Z)) :=
  poll 4 0 (device frames 4)
    (imap (fun i s => Some (mkItem (Meta.mk i Meta.Active) s)) sockets) interface_a.

Definition syn_poll (src : list Z) :=
  s ← listening;
  f ← frame_from_peer (tcp_from src (segment Syn 99 None []));
  poll_with [SocketTcp s] [f].

Definition panics {A : Type} (out : outcome A) : bool := match out with Panic => true | Ret _ => false end.

(** The frames a poll sends. *)
Definition frames_sent (out : outcome (option (Interface * Device * list (option Item) * bool))) :
    outcome (list (list Z)) :=
  out ← out;
  '(_, d, _, _) ← unwrap out;
  Ret (dev_sent d).

(** A single TCP segment makes [poll] panic. A SYN whose source address is
    0.0.0.0 is accepted by a listening socket (only the RST reply to a segment
    that no socket accepts looks at the address), and the SYN|ACK the socket then
    sends fails the assertion of [dispatch_ip] that the destination is specified.
    With a neighbor's address as its source the poll sends one frame, the ARP
    request for that neighbor. *)
Theorem unspecified_source_syn_panics :
  panics (syn_poll [0; 0; 0; 0]) = true /\
  (frames ← frames_sent (syn_poll addr_b); Ret (length frames)) = Ret 1%nat.
Proof. split; vm_compute; reflexivity. Qed.

(** ** Datagrams larger than a frame *)

(** A host that knows its neighbor. *)
Definition knows (neighbor : Address) (mac : list Z) (inn : InterfaceInner) : outcome InterfaceInner :=
  cache ← Cache.fill neighbor (HwEthernet mac) 0 (neighbor_cache inn);
  Ret (inn <| neighbor_cache := cache |>).

Definition udp_socket : UdpSocket.Socket :=
  UdpSocket.new (PacketBuffer.new (replicate 4 EMPTY) (replicate 3000 0))
    (PacketBuffer.new (replicate 4 EMPTY) (replicate 3000 0)).

(** Bound to port 7, with the datagrams queued for the same port of [to]. *)
Definition udp_sender (to : list Z) (datagrams : list (list Z)) : outcome UdpSocket.Socket :=
  let '(s, _) := UdpSocket.bind (mkListen None 7) udp_socket in
  foldl (fun s d => s ← s;
    '(s, _) ← UdpSocket.send_slice d (mkUdpMetadata (mkEndpoint (Ipv4 to) 7) None default_meta) s; Ret s)
    (Ret s) datagrams.

(** Poll [n] times, until the fragments are sent. *)
Fixpoint polls (n : nat) (slots : list (option Item)) (d : Device) (i : Interface) :
    outcome (list (option Item) * Device) :=
  match n with
  | O => Ret (slots, d)
  | S n =>
      out ← poll 8 0 d slots i;
      '(i, d, slots, _) ← unwrap out;
      polls n slots d i
  end.

Definition one_socket (s : AnySocket) : list (option Item) := [Some (mkItem (Meta.mk 0 Meta.Active) s)].

(** Host A sends the datagrams, as many frames as it takes. *)
Definition send_datagrams (mtu : nat) (datagrams : list (list Z)) : outcome (list (list Z)) :=
  inn ← knows (Ipv4 addr_b) peer_mac (host device_mac addr_a mtu);
  s ← udp_sender addr_b datagrams;
  '(_, d) ← polls 5 (one_socket (SocketUdp s)) (device [] 8)
    (mkInterface inn empty_fragments (Fragmenter.new 1500));
  Ret (dev_sent d).

(** Host B receives the frames; the lengths of the datagrams its socket gets. *)
Definition received_datagrams (frames : list (list Z)) : outcome (list nat) :=
  let '(s, _) := UdpSocket.bind (mkListen None 7) udp_socket in
  let frags := mkFragments (PacketAssemblerSet.new 4 4) 60000000 in
  '(slots, _) ← polls 1 (one_socket (SocketUdp s)) (device frames 0)
    (mkInterface host_b frags (Fragmenter.new 0));
  match slots with
  | [Some (mkItem _ (SocketUdp s))] => Ret (length ∘ snd <$> PacketBuffer.packets (UdpSocket.rx_buffer s))
  | _ => Panic
  end.

(** Of two large datagrams queued in a socket only the last arrives: one poll
    takes up both, and the second overwrites the buffer from which the fragments of
    the first have yet to be sent. On its own each of them arrives. *)
Theorem second_datagram_overwrites_fragments :
  (frames ← send_datagrams 610 [counting 1300]; received_datagrams frames) = Ret [1300%nat] /\
  (frames ← send_datagrams 610 [counting 1300; counting 1200]; received_datagrams frames) = Ret [1200%nat].
Proof. split; vm_compute; reflexivity. Qed.

(** The device is given a frame that is longer than it can send. [dispatch_ip]
    compares the length of the IP packet, without the Ethernet header, with the
    maximum length of a frame: at an MTU of 1514 a datagram of 1473 octets goes out
    in one frame of 1515 octets. *)
Theorem frame_exceeds_mtu :
  (frames ← send_datagrams 1514 [counting 1473]; Ret (map length frames)) = Ret [1515%nat].
Proof. vm_compute. reflexivity. Qed.

(** Host A answers pings with these data, one after the other, each answer sent to
    its last fragment before the next. *)
Fixpoint answer_pings (inn : InterfaceInner) (pings : list (list Z)) (frag : Fragmenter.t) :
    outcome (list (list (list Z))) :=
  match pings with
  | [] => Ret []
  | data :: pings =>
      let reply := Icmpv4EchoReply 1 1 data in
      '(inn, frag, first, _) ← dispatch_ip inn blank_token
        (PacketIpv4 (mkIpHeader addr_a addr_b Protocol.Icmp (Icmpv4Repr.buffer_len reply) 64) (PayloadIcmpv4 reply)) frag;
      '(frag, rest) ← egress (caps inn) (hardware_addr inn) (replicate 4 blank_token) frag;
      answers ← answer_pings inn pings frag;
      Ret ((first ++ rest) :: answers)
  end.

(** What host B makes of the frames of an answer. *)
Definition ping_answer (frames : list (list Z)) : outcome (list (result Icmpv4Repr WireError)) :=
  '(_, packets) ← receive MediumEthernet ((fun f => (0, f)) <$> frames) empty_fragments;
  foldr (fun p out => out ← out; r ← Icmpv4Repr.parse p all_checksums; Ret (r :: out)) (Ret []) packets.

Definition ping_answers (pings : list (list Z)) : outcome (list (list (result Icmpv4Repr WireError))) :=
  inn ← knows (Ipv4 addr_b) peer_mac (host device_mac addr_a 610);
  answers ← answer_pings inn pings (Fragmenter.new 1500);
  foldr (fun frames out => out ← out; r ← ping_answer frames; Ret (r :: out)) (Ret []) answers.

(** An ICMP message that has to be fragmented may go out with a wrong checksum.
    The message is emitted into the fragmentation buffer, and the checksum is
    computed over the whole of the buffer, with what an earlier, longer datagram
    left there. The second of two answers to pings is dropped by the receiver. *)
Theorem stale_octets_in_icmp_checksum :
  ping_answers [counting 700] = Ret [[Ok (Icmpv4EchoReply 1 1 (counting 700))]] /\
  ping_answers [counting 1300; counting 700] = Ret [[Ok (Icmpv4EchoReply 1 1 (counting 1300))]; [Err Error]].
Proof. split; vm_compute; reflexivity. Qed.
End Runs.
