(* ===== verification/TcpStream.v ===== *)
(** * The streams of a TCP connection

    Seen from outside, a socket is two streams of octets. What the application
    reads is a prefix of the stream the peer sends, in order and without gaps,
    however the network loses, duplicates, reorders and splits the segments; and
    every segment the socket sends carries octets the application wrote, at
    their place in the sequence space. *)

From S2P Require Import Prelude RingBuffer Assembler Time SeqNumber Ip TcpWire TcpTimers.
From S2P Require Import Congestion Context TcpSocket TcpLogic TcpSegment TcpProcess.
From S2P Require Import TcpTransitions TcpDispatch TcpRun.
Open Scope Z_scope.

Lemma lookup_prefix {A} (l k : list A) :
  (forall i x, l !! i = Some x -> k !! i = Some x) -> l `prefix_of` k.
Proof.
  revert k. induction l as [|a l IH]; intros k H; [apply prefix_nil|].
  destruct k as [|b k]; [by specialize (H 0%nat a eq_refl)|].
  specialize (H 0%nat a eq_refl) as H0. cbn in H0. injection H0 as ->.
  apply prefix_cons, IH. intros i x. by apply (H (S i)).
Qed.

(** ** The receive buffer holds a window of the stream *)

Section Window.
Implicit Types (stream : list Z) (rx : SocketBuffer) (asm : Assembler).

(** The octets enqueued and those the assembler records are the stream's, from
    [base] on. *)
Definition holds stream (base : nat) rx asm : Prop :=
  forall i, (i < RingBuffer.len rx)%nat \/
            (exists j, i = (RingBuffer.len rx + j)%nat /\ Assembler.present asm j = true) ->
  exists x, RingBuffer.view rx !! i = Some x /\ stream !! (base + i)%nat = Some x.

Lemma holds_nil stream base rx asm :
  RingBuffer.len rx = 0%nat -> Assembler.span asm = 0%nat -> holds stream base rx asm.
Proof.
  intros Hl Hs i [|(j & _ & Hj)]; [lia|]. rewrite present_past in Hj by lia. done.
Qed.

Lemma holds_contents stream base rx asm i x :
  RingBuffer.wf rx -> holds stream base rx asm -> RingBuffer.contents rx !! i = Some x ->
  stream !! (base + i)%nat = Some x.
Proof.
  intros Hwf Hh Hi. pose proof (lookup_lt_Some _ _ _ Hi) as Hlt.
  rewrite length_contents in Hlt by done. destruct (Hh i ltac:(by left)) as (y & Hy & Hs).
  rewrite <-contents_free, lookup_app_l in Hy by (by rewrite length_contents). congruence.
Qed.

Lemma holds_length stream base rx asm :
  holds stream base rx asm ->
  RingBuffer.len rx = 0%nat \/ (base + RingBuffer.len rx <= length stream)%nat.
Proof.
  intros Hh. destruct (decide (RingBuffer.len rx = 0)%nat) as [H0|H0]; [by left|right].
  destruct (Hh (RingBuffer.len rx - 1)%nat ltac:(left; lia)) as (x & _ & Hx).
  apply lookup_lt_Some in Hx. lia.
Qed.

Lemma placed_grows rx asm data offset rx' asm' :
  placed rx asm data offset rx' asm' -> (RingBuffer.len rx <= RingBuffer.len rx')%nat.
Proof. intros [(-> & _)|(_ & n & _ & _ & _ & ->)]; lia. Qed.

Lemma placed_holds stream base rx asm data offset rx' asm' :
  RingBuffer.wf rx -> holds stream base rx asm ->
  (forall k x, data !! k = Some x -> stream !! (base + RingBuffer.len rx + offset + k)%nat = Some x) ->
  placed rx asm data offset rx' asm' -> holds stream base rx' asm'.
Proof.
  intros Hwf Hh Hd [(-> & -> & _)|(Hfit & n & [Hrun _] & Hp & Hv & Hl)]; [done|].
  set (U := fun i => Assembler.present asm i || Assembler.in_range offset (length data) i) in *.
  pose proof (RingBuffer.window_len _ Hwf) as Hw. pose proof (length_view rx) as Hlv.
  set (len := RingBuffer.len rx) in *.
  assert (forall m, U m = true ->
    exists x, RingBuffer.view rx' !! (len + m)%nat = Some x /\ stream !! (base + (len + m))%nat = Some x) as HU.
  { intros m Hm. rewrite Hv. unfold U, Assembler.in_range in Hm.
    destruct (decide (offset <= m < offset + length data)%nat) as [Hin|Hout].
    - rewrite lookup_splice_in by lia. replace (len + m - (len + offset))%nat with (m - offset)%nat by lia.
      destruct (lookup_lt_is_Some_2 data (m - offset)%nat ltac:(lia)) as [x Hx]. exists x.
      split; [done|]. apply Hd in Hx. rewrite <-Hx. f_equal. lia.
    - rewrite lookup_splice_out by lia. apply Hh. right. exists m. split; [done|].
      apply orb_true_iff in Hm as [Hm|Hm]; [done|].
      apply andb_true_iff in Hm as [?%Nat.leb_le ?%Nat.ltb_lt]. lia. }
  intros i Hi. rewrite Hl in Hi. destruct (decide (i < len)%nat) as [Hlt|Hge].
  - rewrite Hv, lookup_splice_out by lia. apply Hh. by left.
  - replace i with (len + (i - len))%nat by lia. apply HU. destruct Hi as [Hi|(j & -> & Hj)].
    + apply Hrun. lia.
    + rewrite Hp in Hj. by replace (len + n + j - len)%nat with (n + j)%nat by lia.
Qed.

Lemma read_holds stream base n rx rx' asm :
  RingBuffer.wf rx -> RingBuffer.wf rx' -> (n <= RingBuffer.len rx)%nat ->
  RingBuffer.contents rx' = drop n (RingBuffer.contents rx) ->
  RingBuffer.free rx' = RingBuffer.free rx ++ take n (RingBuffer.contents rx) ->
  holds stream base rx asm -> holds stream (base + n) rx' asm.
Proof.
  intros Hwf Hwf' Hn Hc Hf Hh i Hi.
  assert (RingBuffer.len rx' = RingBuffer.len rx - n)%nat as Hl.
  { unfold RingBuffer.len in *. rewrite <-!length_contents, Hc, length_drop by done. done. }
  destruct (Hh (n + i)%nat) as (x & Hx & Hs).
  { destruct Hi as [Hi|(j & -> & Hj)]; [left; lia|right]. exists j. split; [lia|done]. }
  exists x. split; [|by rewrite <-Hs; f_equal; lia].
  rewrite <-contents_free, Hc, Hf, app_assoc. apply lookup_app_l_Some.
  rewrite <-(drop_app_le _ (RingBuffer.free rx)) by (rewrite length_contents; done).
  by rewrite contents_free, lookup_drop.
Qed.
End Window.

(** ** The stream of the peer *)

(** A connection starts. *)
Definition new_connection (s s' : Socket) : bool :=
  bool_decide (state s' = SynSent \/ state s' = SynReceived) && negb (bool_decide (state s' = state s)).

Definition after_event {A} (s s' : Socket) (l o : list A) : list A :=
  if new_connection s s' then [] else l ++ o.

Section Receive.
(** The initial sequence number of the peer and the octets it sends, up to its
    FIN. *)
Variable (irs : SeqNumber) (stream : list Z).
Implicit Types (R : list Z) (s : Socket).

(** The position of the next octet expected, the FIN counted as one octet. *)
Definition next_position R s : Z :=
  Z.of_nat (length R + RingBuffer.len (rx_buffer s)) + Z.b2z (rx_fin_received s).

(** A segment of the peer: a SYN carries the initial sequence number, any other
    segment starts at some position of the stream less than 2^31 octets away,
    and its octets from the next expected one on are the stream's (older ones,
    as those of keep-alives, do not matter). A FIN comes at the end of the stream
    and does not overrun the receive window. *)
Definition from_stream R s (repr : TcpRepr) : Prop :=
  match control repr with
  | Syn => seq_number repr = irs
  | c => exists p : Z,
      seq_number repr = wrap_i 32 (irs + 1 + p) /\
      - 2 ^ 31 <= p - next_position R s < 2 ^ 31 /\
      (forall i x, payload repr !! i = Some x -> next_position R s <= p + Z.of_nat i ->
         stream !! Z.to_nat (p + Z.of_nat i) = Some x) /\
      (c = Fin -> p + Z.of_nat (length (payload repr)) = Z.of_nat (length stream) /\
         p + Z.of_nat (length (payload repr)) <= next_position R s + zwindow (rx_buffer s))
  end.

(** What the application has read is [R]. *)
Record rx_aligned R s : Prop := {
  ra_read : forall i x, R !! i = Some x -> stream !! i = Some x;
  ra_holds : holds stream (length R) (rx_buffer s) (assembler s);
  ra_fin : rx_fin_received s = true ->
    (length R + RingBuffer.len (rx_buffer s))%nat = length stream;
  ra_seq : synchronized (state s) ->
    remote_seq_no s = wrap_i 32 (irs + 1 + Z.of_nat (length R) + Z.b2z (rx_fin_received s));
  ra_handshake : state s = SynSent \/ state s = SynReceived -> R = []
}.

(** The distance of a segment from the next octet expected. *)
Lemma seg_dist_position R s repr p :
  rx_aligned R s -> synchronized (state s) ->
  seq_number repr = wrap_i 32 (irs + 1 + p) ->
  - 2 ^ 31 <= p - next_position R s < 2 ^ 31 -> seg_dist s repr = p - next_position R s.
Proof.
  intros [] Hs Hq Hp. unfold seg_dist, rcv_nxt, seq_dist.
  rewrite Hq, (ra_seq0 Hs), wrap_i_add_l, wrap_i_sub by lia.
  rewrite <-(wrap_small (p - next_position R s)) by done. f_equal. unfold next_position, zlen. lia.
Qed.

(** The octets of a segment inside the window are the stream's. *)
Lemma seg_data_stream R s repr p k x :
  rx_aligned R s -> seg_dist s repr = p - next_position R s ->
  (forall i x, payload repr !! i = Some x -> next_position R s <= p + Z.of_nat i ->
     stream !! Z.to_nat (p + Z.of_nat i) = Some x) ->
  seg_data s repr !! k = Some x ->
  rx_fin_received s = false /\
  stream !! (length R + RingBuffer.len (rx_buffer s) + seg_offset s repr + k)%nat = Some x.
Proof.
  intros [] Hd Hs Hk. unfold seg_data, seg_offset in *. rewrite Hd in *.
  set (next := next_position R s) in *. set (skip := Z.to_nat (Z.max 0 (- (p - next)))) in *.
  assert (payload repr !! (skip + k)%nat = Some x) as Hx.
  { pose proof (lookup_lt_Some _ _ _ Hk) as Hlt. rewrite length_slice in Hlt.
    by rewrite lookup_slice in Hk by lia. }
  apply Hs in Hx; [|lia]. pose proof (lookup_lt_Some _ _ _ Hx) as Hlt.
  assert (p + Z.of_nat (skip + k) = next + Z.max 0 (p - next) + Z.of_nat k) as Hpos by lia.
  unfold next_position in next. destruct (rx_fin_received s); cbn [Z.b2z] in next.
  { specialize (ra_fin0 eq_refl). lia. }
  split; [done|]. rewrite <-Hx. f_equal. lia.
Qed.

Lemma seg_data_length s repr :
  seg_dist s repr = 0 ->
  length (seg_data s repr) = Z.to_nat (Z.min (zwindow (rx_buffer s)) (Z.of_nat (length (payload repr)))).
Proof.
  intros Hd. unfold seg_data. rewrite Hd, length_slice. pose proof (zwindow_nonneg (rx_buffer s)). lia.
Qed.

(** After a FIN in order the whole stream was received. *)
Lemma placed_fin rx asm data rx' asm' :
  placed rx asm data 0 rx' asm' -> (RingBuffer.len rx + length data <= RingBuffer.len rx')%nat.
Proof.
  intros [(-> & _ & [-> |])|(_ & n & [_ Hend] & _ & _ & ->)]; [cbn; lia|lia|].
  destruct (decide (length data <= n)%nat); [lia|]. exfalso.
  apply orb_false_iff in Hend as [_ Hend]. unfold Assembler.in_range in Hend.
  apply andb_false_iff in Hend as [?%Nat.leb_gt|?%Nat.ltb_ge]; lia.
Qed.

Lemma process_data_aligned t0 R s repr s' fin :
  sock_inv t0 s -> sock_inv t0 s' -> rx_aligned R s -> from_stream R s repr -> transition s repr (state s') ->
  synchronized (state s) -> control repr <> Syn ->
  placed (rx_buffer s) (assembler s) (seg_data s repr) (seg_offset s repr) (rx_buffer s') (assembler s') ->
  (fin = true -> control repr = Fin /\ seg_dist s repr = 0) ->
  remote_seq_no s' = wrap_i 32 (remote_seq_no s + Z.b2z fin) ->
  rx_fin_received s' = rx_fin_received s || fin -> rx_aligned R s'.
Proof.
  intros Hinv Hinv' Hra Hfrom Htr Hs Hns Hpl Hfin Hq Hf.
  assert (exists p : Z,
      seq_number repr = wrap_i 32 (irs + 1 + p) /\
      - 2 ^ 31 <= p - next_position R s < 2 ^ 31 /\
      (forall i x, payload repr !! i = Some x -> next_position R s <= p + Z.of_nat i ->
         stream !! Z.to_nat (p + Z.of_nat i) = Some x) /\
      (control repr = Fin -> p + Z.of_nat (length (payload repr)) = Z.of_nat (length stream) /\
         p + Z.of_nat (length (payload repr)) <= next_position R s + zwindow (rx_buffer s)))
    as (p & Hseq & Hp & Hdata & Hend).
  { unfold from_stream in Hfrom. by destruct (control repr). }
  pose proof (seg_dist_position R s repr p Hra Hs Hseq Hp) as Hd.
  assert (holds stream (length R) (rx_buffer s') (assembler s')) as Hholds.
  { apply (placed_holds _ _ (rx_buffer s) (assembler s) (seg_data s repr) (seg_offset s repr)).
    - apply Hinv.
    - apply Hra.
    - intros k x Hk. by apply (seg_data_stream R s repr p k x Hra Hd Hdata).
    - done. }
  pose proof (holds_length _ _ _ _ Hholds) as Hmax.
  assert (fin = true -> rx_fin_received s = false /\
    (length R + RingBuffer.len (rx_buffer s'))%nat = length stream) as Hall.
  { intros Hfi. destruct (Hfin Hfi) as [Hc Hd0]. destruct (Hend Hc) as [HL Hw].
    pose proof (seg_data_length s repr Hd0) as Hlen. pose proof (zwindow_nonneg (rx_buffer s)).
    assert (seg_offset s repr = 0%nat) as Ho by (unfold seg_offset; lia). rewrite Ho in Hpl.
    apply placed_fin in Hpl. unfold next_position in *.
    destruct (rx_fin_received s) eqn:Hold; cbn [Z.b2z] in *.
    { pose proof (ra_fin _ _ Hra Hold). lia. }
    split; [done|]. lia. }
  pose proof Hra as []. constructor; [done|done| | |].
  - rewrite Hf. intros [Hold|Hnew]%orb_true_iff; [|by apply Hall].
    specialize (ra_fin0 Hold). apply placed_grows in Hpl. lia.
  - intros _. rewrite Hq, (ra_seq0 Hs), wrap_i_add_l, Hf by lia. f_equal.
    destruct fin; [|rewrite orb_false_r; cbn; lia].
    destruct (Hall eq_refl) as [-> _]. cbn. lia.
  - intros Hst. apply ra_handshake0. right. destruct Hs as (? & ? & ?).
    destruct Htr; destruct Hst; congruence.
Qed.

(** A socket whose receive side did not change. *)
Lemma same_aligned R s s' :
  rx_aligned R s -> rx_same s s' -> (synchronized (state s') -> synchronized (state s)) ->
  (state s' = SynSent \/ state s' = SynReceived -> R = []) -> rx_aligned R s'.
Proof.
  intros [] (Hrx & Has & Hq & Hf) Hs Hhs. constructor; rewrite ?Hrx, ?Has, ?Hq, ?Hf; auto.
Qed.

(** A socket whose receive side is empty. *)
Lemma empty_aligned R s :
  (forall i x, R !! i = Some x -> stream !! i = Some x) ->
  RingBuffer.len (rx_buffer s) = 0%nat -> Assembler.span (assembler s) = 0%nat ->
  rx_fin_received s = false ->
  (synchronized (state s) -> remote_seq_no s = wrap_i 32 (irs + 1 + Z.of_nat (length R))) ->
  (state s = SynSent \/ state s = SynReceived -> R = []) -> rx_aligned R s.
Proof.
  intros HR Hl Ha Hf Hq Hhs. constructor; try done.
  - by apply holds_nil.
  - by rewrite Hf.
  - intros Hs. rewrite Hf, Z.add_0_r. auto.
Qed.

Lemma transition_keeps s repr s' :
  transition s repr (state s') -> new_connection s s' = true ->
  state s = Listen /\ state s' = SynReceived.
Proof.
  unfold new_connection. intros Htr [Hst%bool_decide_eq_true_1 Hne%negb_true_iff]%andb_true_iff.
  apply bool_decide_eq_false_1 in Hne. destruct Htr; try done; destruct Hst; try done; auto.
Qed.

Lemma transition_listen s repr st :
  state s = Listen -> transition s repr st -> st = Listen \/ st = SynReceived.
Proof.
  intros Hst []; auto; try congruence; unfold synchronized in *; intuition congruence.
Qed.

Lemma process_aligned t0 R s repr s' :
  sock_inv t0 s -> rx_aligned R s -> from_stream R s repr -> process_post t0 repr s s' ->
  rx_aligned (if new_connection s s' then [] else R) s'.
Proof.
  intros Hinv Hra Hfrom (Hinv' & Htr & Hrx & _).
  pose proof (transition_keeps s repr s' Htr) as Hnew.
  assert (state s' = SynSent -> state s = SynSent) as Hss by (intros; destruct Htr; congruence).
  assert (state s' = SynReceived -> state s = SynReceived \/ new_connection s s' = true) as Hsr.
  { intros Hst. destruct (decide (state s' = state s)) as [He|Hne]; [left; congruence|right].
    unfold new_connection. by rewrite bool_decide_true, bool_decide_false by auto. }
  destruct Hrx as [Hsame Hst|Hst Hc Hq Hb Ha Hf|fin Hs Hc _ Hpl Hfin Hq Hf].
  - assert (new_connection s s' = false) as Hnc.
    { apply not_true_is_false. intros Hn. destruct (Hnew Hn) as [H1 H2]. rewrite H1, H2 in Hst.
      destruct Hst as [|Hst]; [done|]. by apply Hst. }
    rewrite Hnc in *. apply (same_aligned R s); try done.
    + destruct Hst as [->|]; done.
    + intros [H|H]; apply (ra_handshake _ _ Hra); [auto|]. destruct (Hsr H); [auto|done].
  - destruct (si_handshake _ _ Hinv ltac:(tauto)) as (Hz & _ & Hspan & Hfin & _).
    unfold from_stream in Hfrom. rewrite Hc in Hfrom.
    assert (RingBuffer.len (rx_buffer s) = 0%nat) as Hl by (unfold zlen in Hz; lia).
    assert (forall R', (forall i x, R' !! i = Some x -> stream !! i = Some x) ->
      (synchronized (state s') -> R' = []) -> (state s' = SynSent -> R' = []) -> rx_aligned R' s') as Hgo.
    { intros R' HR Hs1 Hs2. apply empty_aligned; rewrite ?Hb, ?Ha, ?Hf; auto.
      - intros Hsy. rewrite Hq, Hfrom, (Hs1 Hsy). f_equal. cbn. lia.
      - intros [H|H]; [auto|]. apply Hs1. by rewrite H. }
    destruct (new_connection s s') eqn:Hnc; [by apply Hgo|].
    apply Hgo; [apply Hra| |intros H; apply (ra_handshake _ _ Hra); auto].
    intros Hsy. destruct Hst as [Hst|Hst]; [|apply (ra_handshake _ _ Hra); auto].
    exfalso. destruct Hsy as (H1 & H2 & H3).
    destruct (transition_listen s repr _ Hst Htr) as [H|H]; [done|].
    by destruct (Hsr H); [congruence|].
  - assert (new_connection s s' = false) as Hnc.
    { apply not_true_is_false. intros Hn. destruct (Hnew Hn) as [H1 _]. rewrite H1 in Hs.
      by destruct Hs as (_ & [] & _). }
    rewrite Hnc. apply (process_data_aligned t0 R s repr s' fin); try done.
    intros Hft. by destruct (Hfin Hft) as (? & ? & _).
Qed.

Lemma new_connection_same s s' : state s' = state s -> new_connection s s' = false.
Proof. intros H. unfold new_connection. by rewrite (bool_decide_true _ H), andb_false_r. Qed.

Lemma new_connection_other s s' :
  state s' <> SynSent -> state s' <> SynReceived -> new_connection s s' = false.
Proof. intros H1 H2. unfold new_connection. rewrite bool_decide_false; [done|]. by intros []. Qed.

(** The calls that move the state but not the receive side. *)
Lemma moved_aligned R s s' o :
  rx_aligned R s -> rx_same s s' -> o_read o = [] ->
  state s' = state s \/ (state s' <> SynSent /\ state s' <> SynReceived /\
    (synchronized (state s') -> synchronized (state s))) ->
  rx_aligned (after_event s s' R (o_read o)) s'.
Proof.
  intros Hra Hsame -> Hst. unfold after_event. rewrite app_nil_r.
  replace (new_connection s s') with false.
  2: { symmetry. destruct Hst as [|(? & ? & _)]; [by apply new_connection_same|by apply new_connection_other]. }
  apply (same_aligned R s); [done|done|destruct Hst as [->|(? & ? & ?)]; done|].
  intros Hhs. apply (ra_handshake _ _ Hra). destruct Hst as [<-|(? & ? & _)]; [done|]. by destruct Hhs.
Qed.

Lemma closing_aligned R s s' o :
  rx_aligned R s -> rx_same s s' -> o_read o = [] -> state s' = Closed \/ state s' = state s ->
  rx_aligned (after_event s s' R (o_read o)) s'.
Proof.
  intros ? ? ? [Hst|Hst]; apply moved_aligned; auto. right. rewrite Hst. split_and!; try done.
  by intros [].
Qed.

(** A reset socket, and one that starts to listen or to connect. *)
Lemma fresh_aligned t0 R s s' o :
  rx_aligned R s -> sock_inv t0 s' -> o_read o = [] -> is_open s = false ->
  state s' = Listen \/ state s' = SynSent -> rx_aligned (after_event s s' R (o_read o)) s'.
Proof.
  intros Hra Hinv' -> Ho Hst. unfold after_event. rewrite app_nil_r.
  destruct (si_handshake _ _ Hinv' ltac:(tauto)) as (Hz & _ & Hspan & Hf & _).
  assert (forall R', (forall i x, R' !! i = Some x -> stream !! i = Some x) ->
    (state s' = SynSent -> R' = []) -> rx_aligned R' s') as Hgo.
  { intros R' HR Hs. apply empty_aligned; auto.
    - unfold zlen in Hz. lia.
    - intros (? & ? & ?). by destruct Hst.
    - intros [H|H]; [auto|]. destruct Hst; congruence. }
  destruct (new_connection s s') eqn:Hn; [by apply Hgo|]. apply Hgo; [apply Hra|]. intros Hss.
  exfalso. unfold new_connection in Hn. rewrite bool_decide_true, bool_decide_false in Hn; auto; [done|].
  rewrite Hss. intros Hs. unfold is_open in Ho. by rewrite <-Hs in Ho.
Qed.

Lemma dispatch_aligned t0 R s s' o :
  rx_aligned R s -> dispatch_post t0 s s' -> o_read o = [] ->
  rx_aligned (after_event s s' R (o_read o)) s'.
Proof.
  intros Hra [_ [[[Hsame _] Hst]|(Hst & _ & Hz & _ & Hf & Hspan)]] Ho; [by apply closing_aligned|].
  unfold after_event. rewrite Ho, app_nil_r, new_connection_other by (by rewrite Hst).
  apply empty_aligned; try done; [apply Hra|unfold zlen in Hz; lia|..]; rewrite Hst; [by intros []|].
  by intros [].
Qed.

Lemma recv_aligned t0 R s s' o n out :
  sock_inv t0 s -> sock_inv t0 s' -> rx_aligned R s -> state s' = state s ->
  assembler s' = assembler s -> rx_fin_received s' = rx_fin_received s ->
  remote_seq_no s' = wrap_i 32 (remote_seq_no s + Z.of_nat n) ->
  (n <= RingBuffer.len (rx_buffer s))%nat ->
  take n out = take n (RingBuffer.contents (rx_buffer s)) ->
  RingBuffer.contents (rx_buffer s') = drop n (RingBuffer.contents (rx_buffer s)) ->
  RingBuffer.free (rx_buffer s') =
    RingBuffer.free (rx_buffer s) ++ take n (RingBuffer.contents (rx_buffer s)) ->
  o_read o = take n out -> rx_aligned (after_event s s' R (o_read o)) s'.
Proof.
  intros Hinv Hinv' Hra Hst Has Hf Hq Hn Hout Hc Hfr ->. unfold after_event.
  rewrite (new_connection_same _ _ Hst), Hout. pose proof Hra as [].
  assert (RingBuffer.wf (rx_buffer s)) as Hwf by apply Hinv.
  assert (RingBuffer.wf (rx_buffer s')) as Hwf' by apply Hinv'.
  assert (length (R ++ take n (RingBuffer.contents (rx_buffer s))) = length R + n)%nat as Hl.
  { rewrite length_app, length_take, length_contents by done. unfold RingBuffer.len in Hn. lia. }
  constructor; rewrite ?Hl, ?Hf, ?Has.
  - intros i x [Hi|[Hi1 Hi2]]%lookup_app_Some; [auto|]. apply lookup_take_Some in Hi2 as [Hi2 _].
    apply (holds_contents stream (length R) (rx_buffer s) (assembler s)) in Hi2; [|done|done].
    rewrite <-Hi2. f_equal. lia.
  - by apply (read_holds _ _ _ (rx_buffer s)).
  - intros Hfin. specialize (ra_fin0 Hfin). unfold RingBuffer.len in *.
    rewrite <-(length_contents (rx_buffer s')), Hc, length_drop, length_contents by done. lia.
  - rewrite Hst. intros Hs. rewrite Hq, (ra_seq0 Hs), wrap_i_add_l by lia. f_equal. lia.
  - rewrite Hst. intros Hhs. pose proof (ra_handshake0 Hhs) as ->.
    destruct (si_handshake _ _ Hinv ltac:(tauto)) as (Hz & _). unfold zlen in Hz.
    by replace n with 0%nat by lia.
Qed.

Lemma exec_aligned t0 R e s cx :
  world_ok t0 s cx -> admissible t0 e s -> rx_aligned R s ->
  match e with EvSegment _ repr => from_stream R s repr | _ => True end ->
  returns (exec e s cx) (fun '(s', _, o) => rx_aligned (after_event s s' R (o_read o)) s').
Proof.
  intros Hw Ha Hra Hfrom. pose proof Hw as (Hinv & Hclock & Hmtu).
  destruct e; cbn [exec admissible] in *; cbn [returns].
  - apply returns_bind. eapply returns_mono; [|by apply listen_ok]. intros [s' r] [Hinv' Hr].
    destruct r; [destruct Hr as [-> |(? & ? & _)]|subst s']; cbn [returns].
    2: { apply (fresh_aligned t0); auto. }
    all: apply closing_aligned; auto; done.
  - apply returns_bind. eapply returns_mono; [|by apply (connect_ok t0)].
    intros [[s' cx'] r] (Hinv' & _ & Hr). destruct r; cbn [returns].
    + destruct Hr as (? & ? & _). apply (fresh_aligned t0); auto.
    + destruct Hr as [-> _]. apply closing_aligned; auto; done.
  - apply moved_aligned; [done|by unfold close; destruct (state s)|done|].
    unfold close, synchronized. destruct (state s) eqn:Hst; sock_simpl; rewrite ?Hst; auto.
    all: right; split_and!; try done; intuition done.
  - apply closing_aligned; auto; done.
  - apply returns_bind. eapply returns_mono; [|by apply send_slice_ok].
    intros [s' r] (_ & (? & ? & _) & _). cbn [returns]. apply closing_aligned; auto.
  - apply returns_bind. eapply returns_mono; [|by apply recv_slice_ok].
    intros [s' r] (Hinv' & Hr). cbn [returns]. destruct r as [[out n]|err].
    + destruct Hr as (? & ? & ? & ? & ? & ? & ? & ? & ? & ? & ?).
      by apply (recv_aligned t0 R s s' _ n out).
    + destruct Hr as (-> & _). destruct err; apply closing_aligned; auto; done.
  - apply closing_aligned; auto; done.
  - apply closing_aligned; [done|by destruct d|done|right; by destruct d].
  - apply closing_aligned; auto; done.
  - apply closing_aligned; auto; done.
  - apply closing_aligned; auto; done.
  - destruct Ha as [Hseg Hsack]. destruct (accepts ip_repr repr s) eqn:Hacc.
    2: { cbn [returns]. apply closing_aligned; auto; done. }
    apply returns_bind. eapply returns_mono; [|by apply (process_ok t0)].
    intros [[s' cx'] r] [_ Hpost]. cbn [returns].
    pose proof (process_aligned t0 R s repr s' Hinv Hra Hfrom Hpost) as Hal.
    unfold after_event. cbn [o_read]. by rewrite app_nil_r.
  - apply returns_bind. eapply returns_mono; [|by apply (dispatch_device_ok t0)].
    intros [[s' cx'] r] [Hpost _]. cbn [returns]. by apply (dispatch_aligned t0).
  - apply closing_aligned; auto; done.
Qed.

(** A run with the octets read in the current connection. *)
Fixpoint receive_run (es : list event) s (cx : Context) R : outcome (Socket * Context * list Z) :=
  match es with
  | [] => Ret (s, cx, R)
  | e :: es =>
      '(s', cx', o) ← exec e s cx;
      receive_run es s' cx' (after_event s s' R (o_read o))
  end.

(** Every segment of the run is one of the peer's. *)
Fixpoint segments_from_stream (es : list event) s (cx : Context) R : Prop :=
  match es with
  | [] => True
  | e :: es =>
      match e with EvSegment _ repr => from_stream R s repr | _ => True end /\
      match exec e s cx with
      | Ret (s', cx', o) => segments_from_stream es s' cx' (after_event s s' R (o_read o))
      | Panic => True
      end
  end.

Lemma receive_run_aligned t0 es s cx R :
  world_ok t0 s cx -> admissible_run t0 es s cx -> segments_from_stream es s cx R -> rx_aligned R s ->
  returns (receive_run es s cx R) (fun '(s', cx', R') => world_ok t0 s' cx' /\ rx_aligned R' s').
Proof.
  revert s cx R. induction es as [|e es IH]; intros s cx R Hw Ha Hf Hra; [done|].
  destruct Ha as [Ha Has], Hf as [Hf Hfs]. cbn [receive_run].
  pose proof (exec_ok t0 e s cx Hw Ha) as He. pose proof (exec_aligned t0 R e s cx Hw Ha Hra Hf) as Hal.
  destruct (exec e s cx) as [[[s' cx'] o]|]; [|done]. cbn [mbind outcome_bind]. by apply IH.
Qed.

Lemma aligned_prefix t0 R s :
  sock_inv t0 s -> rx_aligned R s ->
  R `prefix_of` stream /\ (forall data s', recv_slice data s = Ret (s', Err Finished) -> R = stream).
Proof.
  intros Hinv []. split; [by apply lookup_prefix|]. intros data s' Hrecv.
  pose proof (recv_slice_ok t0 data s Hinv) as Hr. rewrite Hrecv in Hr. destruct Hr as (_ & _ & Hlen & He).
  destruct (rx_fin_received s) eqn:Hfr; [|done]. specialize (ra_fin0 eq_refl).
  apply prefix_length_eq; [by apply lookup_prefix|lia].
Qed.
End Receive.

(** ** The stream of the application *)

(** What the application has written is [W]; [iss] is the initial sequence
    number. Once nothing can be written any more only the octets still in the
    buffer matter. *)
Definition in_step (iss : SeqNumber) (W : list Z) (s : Socket) : Prop :=
  exists a, (a <= length W)%nat /\ RingBuffer.contents (tx_buffer s) = drop a W /\
    local_seq_no s = wrap_i 32 (iss + 1 + Z.of_nat a).

Definition tx_aligned (iss : SeqNumber) (W : list Z) (s : Socket) : Prop :=
  match state s with
  | Closed | Listen | FinWait2 | TimeWait => True
  | SynSent | SynReceived => W = [] /\ local_seq_no s = iss
  | Established | CloseWait => in_step iss W s
  | FinWait1 | Closing | LastAck => RingBuffer.contents (tx_buffer s) = [] \/ in_step iss W s
  end.

Definition iss_after (s s' : Socket) (iss : SeqNumber) : SeqNumber :=
  if new_connection s s' then local_seq_no s' else iss.

Section Send.
Implicit Types (iss : SeqNumber) (W : list Z) (s : Socket).

Definition tx_after s s' iss W (o : observation) : Prop :=
  tx_aligned (iss_after s s' iss) (after_event s s' W (o_written o)) s'.

Lemma contents_zlen (b : SocketBuffer) :
  RingBuffer.wf b -> zlen b = 0 -> RingBuffer.contents b = [].
Proof.
  intros Hwf Hz. apply nil_length_inv. rewrite length_contents by done.
  unfold zlen, RingBuffer.len in Hz. lia.
Qed.

(** A new connection. *)
Lemma started_aligned s s' iss W o :
  new_connection s s' = true -> o_written o = [] -> tx_after s s' iss W o.
Proof.
  intros Hn Ho. unfold tx_after, iss_after, after_event. rewrite Hn.
  apply andb_true_iff in Hn as [Hst%bool_decide_eq_true_1 _].
  unfold tx_aligned. destruct Hst as [-> | ->]; done.
Qed.

(** The transmit side did not change. *)
Lemma same_tx_aligned s s' iss W o :
  tx_aligned iss W s -> o_written o = [] -> tx_buffer s' = tx_buffer s ->
  local_seq_no s' = local_seq_no s -> state s' = state s \/ state s' = Closed \/ state s' = Listen ->
  tx_after s s' iss W o.
Proof.
  intros Ht Ho Hb Hl Hst. unfold tx_after, iss_after, after_event. rewrite Ho, app_nil_r.
  assert (new_connection s s' = false) as ->.
  { destruct Hst as [|[Hst|Hst]]; [by apply new_connection_same|..];
      apply new_connection_other; congruence. }
  unfold tx_aligned, in_step in *. rewrite Hb, Hl. by destruct Hst as [->|[-> | ->]].
Qed.

(** The states in which octets may be in flight after the handshake. *)
Lemma in_step_aligned iss W s : in_step iss W s -> ~ (state s = SynSent \/ state s = SynReceived) ->
  tx_aligned iss W s.
Proof. intros Hs Hst. unfold tx_aligned. destruct (state s); auto; by destruct Hst; auto. Qed.

Lemma transition_quiet s repr st :
  transition s repr st -> state s = Closed \/ state s = FinWait2 \/ state s = TimeWait ->
  st = Closed \/ st = FinWait2 \/ st = TimeWait.
Proof. intros [] Hs; auto; intuition congruence. Qed.

Lemma transition_fin s repr st :
  transition s repr st -> state s = FinWait1 \/ state s = Closing \/ state s = LastAck ->
  st = Closed \/ st = FinWait2 \/ st = TimeWait \/ st = FinWait1 \/ st = Closing \/ st = LastAck.
Proof. intros [] Hs; auto 7; intuition congruence. Qed.

Lemma acked_aligned t0 s repr s' iss W :
  sock_inv t0 s -> tx_aligned iss W s -> transition s repr (state s') ->
  (forall ack n flags,
    ack_number repr = Some ack -> state s <> Listen ->
    ~ (state s' = Listen \/ state s' = SynSent \/ state s' = SynReceived) -> local_seq_no s' = ack ->
    ack = wrap_i 32 (local_seq_no s + n + flags) ->
    0 <= n <= zlen (tx_buffer s) -> 0 <= flags <= control_len (state s) ->
    ((sent_flags (state s)).1 = true -> flags = 1) -> (flags = 1 -> n = zlen (tx_buffer s)) ->
    RingBuffer.contents (tx_buffer s') = drop (Z.to_nat n) (RingBuffer.contents (tx_buffer s)) ->
    tx_aligned iss W s').
Proof.
  intros Hinv Ht Htr ack n flags Ha Hnl Hst' Hl Hack Hn Hfl Hsyn Hfin Hc.
  destruct (si_tx _ _ Hinv) as [Hwf _].
  assert (length (RingBuffer.contents (tx_buffer s)) = Z.to_nat (zlen (tx_buffer s))) as Hlen.
  { rewrite length_contents by done. unfold zlen, RingBuffer.len. lia. }
  assert (flags = 0 -> in_step iss W s -> tx_aligned iss W s') as Hstep.
  { intros Hf0 (a & Haw & Hca & Hla). apply in_step_aligned; [|tauto].
    exists (a + Z.to_nat n)%nat. rewrite Hca, length_drop in Hlen. split_and!.
    - lia.
    - by rewrite Hc, Hca, drop_drop.
    - rewrite Hl, Hack, Hla, Hf0, Z.add_0_r, wrap_i_add_l by lia. f_equal. lia. }
  assert ((state s' = Closed \/ state s' = FinWait2 \/ state s' = TimeWait \/ state s' = FinWait1 \/
    state s' = Closing \/ state s' = LastAck) -> RingBuffer.contents (tx_buffer s) = [] \/ flags = 1 ->
    tx_aligned iss W s') as Hdone.
  { intros Hs Hempty. assert (RingBuffer.contents (tx_buffer s') = []) as He.
    { rewrite Hc. destruct Hempty as [-> |Hf1]; [apply drop_nil|]. apply drop_ge. rewrite (Hfin Hf1). lia. }
    unfold tx_aligned. destruct Hs as [->|[->|[->|[->|[-> | ->]]]]]; auto. }
  pose proof (transition_quiet s repr _ Htr) as Hq. unfold tx_aligned in Ht.
  destruct (state s) eqn:Hst; cbn [control_len sent_flags fst] in *; try done.
  all: try (destruct (Hq ltac:(tauto)) as [H|[H|H]]; unfold tx_aligned; by rewrite H).
  all: try (apply Hstep; [cbn in Hfl; lia|done]).
  1, 2: destruct Ht as [-> Hls], (si_handshake _ _ Hinv ltac:(tauto)) as (_ & Hz & _).
  1, 2: apply in_step_aligned; [|tauto]; exists 0%nat; rewrite Hc, (contents_zlen _ Hwf Hz), drop_nil.
  1, 2: split_and!; [done|done|]; rewrite Hl, Hack, Hls, (Hsyn eq_refl); f_equal; lia.
  all: assert (flags = 0 \/ flags = 1) as [Hf|Hf] by (cbn in Hfl; lia).
  all: try (apply Hdone; [|by right]; apply (transition_fin s repr _ Htr); tauto).
  all: destruct Ht as [Ht|Ht]; [|by apply Hstep].
  all: apply Hdone; [|by left]; apply (transition_fin s repr _ Htr); tauto.
Qed.

Lemma process_tx_aligned t0 s repr s' iss W o :
  sock_inv t0 s -> tx_aligned iss W s -> process_post t0 repr s s' -> o_written o = [] ->
  tx_after s s' iss W o.
Proof.
  intros Hinv Ht (Hinv' & Htr & _ & Htx) Ho.
  destruct Htx as [(Hb & Hl & _) Hst|Hst Hc Hb Hl Hst'|ack n flags Ha Hnl Hst' Hl].
  - by apply same_tx_aligned.
  - apply started_aligned; [|done]. unfold new_connection.
    by rewrite bool_decide_true, bool_decide_false by (rewrite ?Hst, ?Hst'; auto).
  - unfold tx_after, iss_after, after_event. rewrite Ho, app_nil_r.
    rewrite new_connection_other by tauto.
    by apply (acked_aligned t0 s repr s' iss W Hinv Ht Htr ack n flags).
Qed.

Lemma close_aligned t0 s iss W :
  sock_inv t0 s -> tx_aligned iss W s -> tx_after s (close s) iss W silent.
Proof.
  intros Hinv Ht. unfold tx_after, iss_after, after_event. cbn [o_written silent]. rewrite app_nil_r.
  assert (new_connection s (close s) = false) as ->.
  { unfold close, new_connection. by destruct (state s) eqn:Hst; rewrite ?Hst. }
  unfold close, tx_aligned in *. destruct (state s) eqn:Hst; sock_simpl; rewrite ?Hst; auto.
  left. destruct (si_handshake _ _ Hinv ltac:(tauto)) as (_ & Hz & _).
  apply contents_zlen; [apply Hinv|done].
Qed.

Lemma send_aligned s s' iss W o data n :
  tx_aligned iss W s -> sent_only s s' -> may_send s = true ->
  RingBuffer.contents (tx_buffer s') = RingBuffer.contents (tx_buffer s) ++ take n data ->
  o_written o = take n data -> tx_after s s' iss W o.
Proof.
  intros Ht (_ & Hst & _ & Hl & _) Hm Hc Ho. unfold tx_after, iss_after, after_event.
  rewrite (new_connection_same _ _ Hst), Ho. apply may_send_open in Hm.
  assert (in_step iss W s) as (a & Ha & Hca & Hla) by (unfold tx_aligned in Ht; by destruct Hm as [Hm|Hm]; rewrite Hm in Ht).
  apply in_step_aligned; [|rewrite Hst; by destruct Hm as [-> | ->]; intros []].
  exists a. rewrite length_app, Hc, Hca, drop_app_le by done. split_and!; [lia|done|congruence].
Qed.

Lemma exec_tx_aligned t0 iss W e s cx :
  world_ok t0 s cx -> admissible t0 e s -> tx_aligned iss W s ->
  returns (exec e s cx) (fun '(s', _, o) => tx_after s s' iss W o).
Proof.
  intros Hw Ha Ht. pose proof Hw as (Hinv & Hclock & Hmtu).
  assert (forall o, o_written o = [] -> tx_after s s iss W o) as Hself
    by (intros; apply same_tx_aligned; auto).
  destruct e; cbn [exec admissible] in *; cbn [returns]; try (by apply same_tx_aligned; auto).
  - apply returns_bind. eapply returns_mono; [|by apply listen_ok]. intros [s' r] [Hinv' Hr].
    destruct r; [destruct Hr as [-> |(_ & Hst & _)]|subst s']; cbn [returns]; auto.
    unfold tx_after, iss_after, after_event.
    rewrite new_connection_other by (by rewrite Hst). unfold tx_aligned. by rewrite Hst.
  - apply returns_bind. eapply returns_mono; [|by apply (connect_ok t0)].
    intros [[s' cx'] r] (Hinv' & _ & Hr). destruct r; cbn [returns]; [|by destruct Hr as [-> _]; auto].
    destruct Hr as (Ho & Hst & _). apply started_aligned; [|done]. unfold new_connection.
    rewrite bool_decide_true, bool_decide_false; auto. rewrite Hst. intros Hs.
    unfold is_open in Ho. by rewrite <-Hs in Ho.
  - by apply (close_aligned t0).
  - apply returns_bind. eapply returns_mono; [|by apply send_slice_ok].
    intros [s' r] (_ & Hso & Hr). cbn [returns]. destruct r as [n|err].
    + destruct Hr as (? & ? & ?). by apply (send_aligned s s' iss W _ data n).
    + by destruct Hr as [_ ->]; auto.
  - apply returns_bind. eapply returns_mono; [|by apply recv_slice_ok].
    intros [s' r] (Hinv' & Hr). cbn [returns]. destruct r as [[out n]|err].
    + destruct Hr as (? & ? & (? & ? & _) & _). apply same_tx_aligned; auto.
    + destruct Hr as (-> & _). destruct err; auto.
  - apply same_tx_aligned; unfold set_keep_alive; destruct d; auto.
  - destruct Ha as [Hseg Hsack]. destruct (accepts ip_repr repr s) eqn:Hacc; [|cbn [returns]; auto].
    apply returns_bind. eapply returns_mono; [|by apply (process_ok t0)].
    intros [[s' cx'] r] [_ Hpost]. cbn [returns]. by apply (process_tx_aligned t0 s repr).
  - apply returns_bind. eapply returns_mono; [|by apply (dispatch_device_ok t0)].
    intros [[s' cx'] r] [[_ [[(_ & ? & ? & _) Hst]|(Hst & _)]] _]; cbn [returns].
    + apply same_tx_aligned; auto. destruct Hst; auto.
    + unfold tx_after, tx_aligned. by rewrite Hst.
Qed.

(** The payload of a segment is a slice of the stream at its place. *)
Definition stream_segment iss W (r : TcpRepr) : Prop :=
  payload r = [] \/
  exists pos, (pos + length (payload r) <= length W)%nat /\
    seq_number r = wrap_i 32 (iss + 1 + Z.of_nat pos) /\
    payload r = slice W pos (length (payload r)).

(** A keep-alive carries one octet before the next one to send, or before the
    first unacknowledged one when the timers have just rewound the socket. *)
Definition keep_alive_segment s (r : TcpRepr) : Prop :=
  payload r = [0] /\ control r = ControlNone /\
  exists q, (q = remote_last_seq s \/ q = local_seq_no s) /\ seq_number r = wrap_i 32 (q - 1).

Lemma data_states s off data c :
  control_ok s off data c -> data <> [] -> state s <> Listen ->
  state s = Established \/ state s = CloseWait \/ state s = FinWait1 \/ state s = Closing \/
  state s = LastAck.
Proof.
  intros Hc Hd Hl. unfold control_ok in Hc. destruct (state s), c; auto 6; intuition done.
Qed.

Lemma built_stream t0 cx s s' tp p iss W :
  sock_inv t0 s -> tx_aligned iss W s -> timers_step t0 cx s s' -> tuple s = Some tp ->
  built cx s' tp p.1 p.2 false -> stream_segment iss W p.2.
Proof.
  intros Hinv Ht (Hinv' & (_ & Hb & Hl & _) & Htp' & Hst & Hr & _) Htp Hbuilt.
  destruct Hbuilt as (_ & _ & _ & _ & _ & _ & Hq & (Hsl & Hfit & _) & Hctl).
  destruct (decide (payload p.2 = [])) as [|Hne]; [by left|right].
  specialize (Hfit Hne). rewrite Hb, Hl in *.
  set (off := seq_dist (local_seq_no s) (remote_last_seq s')) in *.
  assert (state s' <> Listen) as Hnl.
  { pose proof (si_tuple _ _ Hinv') as Htu. rewrite Htp', Htp in Htu. by destruct Htu. }
  pose proof (data_states _ _ _ _ Hctl Hne Hnl) as Hds.
  assert (state s' <> Closed) as Hnc by (intros H; rewrite H in Hds; intuition done).
  pose proof (si_flight _ _ Hinv' Hnc Hnl) as Hfl. rewrite Hl in Hfl. fold off in Hfl.
  destruct Hst as [|Hst]; [done|].
  assert (zlen (tx_buffer s) <> 0) as Hz by (destruct (payload p.2); cbn [length] in *; [done|lia]).
  assert (in_step iss W s) as (a & Ha & Hca & Hla).
  { unfold tx_aligned in Ht. rewrite <-Hst in Ht.
    destruct Hds as [H|[H|[H|[H|H]]]]; rewrite H in Ht; try done; destruct Ht as [Ht|]; try done.
    all: apply (f_equal length) in Ht; rewrite length_contents in Ht by apply Hinv.
    all: cbn in Ht; unfold zlen, RingBuffer.len in Hz; lia. }
  exists (a + Z.to_nat off)%nat. split_and!.
  - apply (f_equal length) in Hca. rewrite length_drop, length_contents in Hca by apply Hinv.
    unfold zlen, RingBuffer.len in *. lia.
  - rewrite Hq, (seq_dist_spec (local_seq_no s) (remote_last_seq s')) by apply Hinv'.
    fold off. rewrite Hla, wrap_i_add_l by lia. f_equal. lia.
  - rewrite Hsl at 1. rewrite Hca. unfold slice. by rewrite drop_drop.
Qed.

Lemma emitted_stream t0 cx s p iss W :
  sock_inv t0 s -> tx_aligned iss W s -> emitted t0 cx s p ->
  stream_segment iss W p.2 \/ keep_alive_segment s p.2.
Proof.
  intros Hinv Ht (s' & tp & [] & Hstep & Htp & Hbuilt & _).
  2: { left. by apply (built_stream t0 cx s s' tp). }
  right. destruct Hstep as (_ & _ & _ & _ & Hr & _).
  destruct Hbuilt as (_ & _ & _ & _ & _ & _ & Hq & Hp & Hc).
  split_and!; try done. exists (remote_last_seq s'). split; [|done]. destruct Hr as [->| ->]; auto.
Qed.

(** A run with the octets written in the current connection and its initial
    sequence number. *)
Fixpoint send_run (es : list event) s (cx : Context) iss W :
    outcome (Socket * Context * SeqNumber * list Z) :=
  match es with
  | [] => Ret (s, cx, iss, W)
  | e :: es =>
      '(s', cx', o) ← exec e s cx;
      send_run es s' cx' (iss_after s s' iss) (after_event s s' W (o_written o))
  end.

Lemma send_run_aligned t0 es s cx iss W :
  world_ok t0 s cx -> admissible_run t0 es s cx -> tx_aligned iss W s ->
  returns (send_run es s cx iss W) (fun '(s', cx', iss', W') =>
    world_ok t0 s' cx' /\ tx_aligned iss' W' s').
Proof.
  revert s cx iss W. induction es as [|e es IH]; intros s cx iss W Hw Ha Ht; [done|].
  destruct Ha as [Ha Has]. cbn [send_run].
  pose proof (exec_ok t0 e s cx Hw Ha) as He. pose proof (exec_tx_aligned t0 iss W e s cx Hw Ha Ht) as Hal.
  destruct (exec e s cx) as [[[s' cx'] o]|]; [|done]. cbn [mbind outcome_bind]. by apply IH.
Qed.
End Send.

(** ** The theorems *)

Section Theorems.
Variables (t0 : Instant) (n : nat) (cc : AnyController) (rx tx : list Z) (cx : Context).
Hypothesis Hn : (0 < n)%nat.
Hypothesis Hrx : Z.of_nat (length rx) <= 2 ^ 30.
Hypothesis Htx : Z.of_nat (length tx) < I32_MAX.
Hypothesis Hclock : clock t0 cx.
Hypothesis Hmtu : 60 <= ip_mtu cx.

Definition created : outcome Socket := new n cc (RingBuffer.new rx) (RingBuffer.new tx).

Lemma created_ok : exists s, created = Ret s /\ world_ok t0 s cx /\ fresh s.
Proof.
  assert (returns created (fun s => sock_inv t0 s /\ fresh s)) as Hnew.
  { by apply new_ok; try done; try apply ring_new_wf; split; [apply ring_new_wf|]. }
  destruct created as [s|]; [|done]. destruct Hnew. exists s. by split_and!.
Qed.

(** C2: what the application reads in a connection is a prefix of the stream the
    peer sends, in order and without gaps, whatever segments the network loses,
    duplicates, reorders or splits; and when the socket reports the end of the
    stream ([Finished]), the application has read all of it.  The segments are
    those of a peer that sends one stream; its FIN does not overrun the receive
    window (TcpFindings.v shows what happens otherwise). *)
Theorem received_stream_is_prefix (irs : SeqNumber) (stream : list Z) (es : list event) :
  socket_run_admissible t0 n cc rx tx es cx ->
  match created with Ret s => segments_from_stream irs stream es s cx [] | Panic => True end ->
  exists s cx' R, (s ← created; receive_run es s cx []) = Ret (s, cx', R) /\
    R `prefix_of` stream /\
    (forall data s', recv_slice data s = Ret (s', Err Finished) -> R = stream).
Proof.
  intros Ha Hf. destruct created_ok as (s & Hs & Hw & Hst & _ & Hz & _ & Hfin & Hspan).
  unfold socket_run_admissible in Ha. fold created in Ha. rewrite Hs in *. cbn [mbind outcome_bind].
  assert (rx_aligned irs stream [] s) as Hra.
  { apply empty_aligned; try done; [unfold zlen in Hz; lia|rewrite Hst; by intros []]. }
  pose proof (receive_run_aligned irs stream t0 es s cx [] Hw Ha Hf Hra) as Hrun.
  destruct (receive_run es s cx []) as [[[s' cx'] R]|]; [|done]. destruct Hrun as [[Hinv _] Hal].
  exists s', cx', R. split; [done|]. by apply (aligned_prefix irs stream t0).
Qed.

(** C3: whatever the run, a packet the socket offers to the device carries
    octets the application wrote in this connection, at their place in the
    sequence space; the only exception is the octet of a keep-alive. *)
Theorem sent_segments_carry_stream (es : list event) :
  socket_run_admissible t0 n cc rx tx es cx ->
  exists s cx' iss W, (s ← created; send_run es s cx 0 []) = Ret (s, cx', iss, W) /\
    (forall p, offered s cx' = Some p -> stream_segment iss W p.2 \/ keep_alive_segment s p.2).
Proof.
  intros Ha. destruct created_ok as (s & Hs & Hw & Hst & _).
  unfold socket_run_admissible in Ha. fold created in Ha. rewrite Hs in *. cbn [mbind outcome_bind].
  assert (tx_aligned 0 [] s) as Ht by (unfold tx_aligned; by rewrite Hst).
  pose proof (send_run_aligned t0 es s cx 0 [] Hw Ha Ht) as Hrun.
  destruct (send_run es s cx 0 []) as [[[[s' cx'] iss] W]|]; [|done]. destruct Hrun as [Hw' Ht'].
  exists s', cx', iss, W. split; [done|]. intros p Hp. pose proof (offered_ok t0 s' cx' p Hw' Hp).
  apply (emitted_stream t0 cx'); [apply Hw'|done|done].
Qed.
End Theorems.

Lemma from_stream_step irs stream e es s cx R s' cx' o :
  match e with EvSegment _ repr => from_stream irs stream R s repr | _ => True end ->
  exec e s cx = Ret (s', cx', o) ->
  segments_from_stream irs stream es s' cx' (after_event s s' R (o_read o)) ->
  segments_from_stream irs stream (e :: es) s cx R.
Proof. intros Ha He Hr. cbn. by rewrite He. Qed.

(** Check the segments of a concrete run, short ones. *)
Ltac solve_segment :=
  lazymatch goal with
  | |- True => exact I
  | |- from_stream ?irs _ _ _ ?repr =>
      first [ reflexivity
            | exists (seq_number repr - irs - 1); split_and!;
              [ vm_compute; reflexivity
              | vm_compute; discriminate
              | vm_compute; reflexivity
              | let i := fresh "i" in let x := fresh "x" in let Hi := fresh "Hi" in
                intros i x Hi _; repeat (destruct i as [|i]; [injection Hi as <-; vm_compute; reflexivity|]);
                discriminate Hi
              | first [discriminate | intros _; split; vm_compute; [reflexivity | discriminate]] ] ]
  end.
Ltac solve_from_stream :=
  repeat (lazymatch goal with |- segments_from_stream ?irs ?st ?es ?s ?cx ?R =>
            let es' := eval hnf in es in let R' := eval vm_compute in R in
            change (segments_from_stream irs st es' s cx R') end;
          eapply from_stream_step; [cbv iota beta; solve_segment | vm_compute; reflexivity |]);
  exact I.

(** The peer of the scenario sends the octets 1 to 4. *)
Lemma received_stream_is_prefix_witness :
  exists s cx' R,
    (s ← created 4 Scenario.cc Scenario.buffer Scenario.buffer;
     receive_run (Scenario.handshake ++ Scenario.data) s Scenario.cx []) = Ret (s, cx', R) /\
    R `prefix_of` [1; 2; 3; 4] /\
    (forall data s', recv_slice data s = Ret (s', Err Finished) -> R = [1; 2; 3; 4]).
Proof.
  apply (received_stream_is_prefix 0 4 Scenario.cc Scenario.buffer Scenario.buffer Scenario.cx)
    with (irs := 99).
  - lia.
  - cbn. lia.
  - cbn. lia.
  - unfold clock, in_epoch, instant_range, MAX_SAMPLE, TIME_MAX, Scenario.cx. cbn [now]. lia.
  - cbn. lia.
  - eapply admissible_new; [vm_compute; reflexivity|]. solve_admissible_run.
  - match goal with |- match ?c with Ret _ => _ | Panic => _ end => let c' := eval vm_compute in c in
      change c with c' end.
    cbv beta iota. solve_from_stream.
Defined.

Lemma sent_segments_carry_stream_witness :
  exists s cx' iss W,
    (s ← created 4 Scenario.cc Scenario.buffer Scenario.buffer;
     send_run (Scenario.handshake ++ Scenario.data ++ Scenario.answer) s Scenario.cx 0 [])
      = Ret (s, cx', iss, W) /\
    (forall p, offered s cx' = Some p -> stream_segment iss W p.2 \/ keep_alive_segment s p.2).
Proof.
  apply (sent_segments_carry_stream 0 4 Scenario.cc Scenario.buffer Scenario.buffer Scenario.cx).
  - lia.
  - cbn. lia.
  - cbn. lia.
  - unfold clock, in_epoch, instant_range, MAX_SAMPLE, TIME_MAX, Scenario.cx. cbn [now]. lia.
  - cbn. lia.
  - eapply admissible_new; [vm_compute; reflexivity|]. solve_admissible_run.
Defined.
