(* ===== verification/TcpPoll.v ===== *)
(** * When to poll a TCP socket

    [poll_at] announces the moment at which [dispatch] has something to do. It
    is exact: before that moment [dispatch] leaves the socket and the device
    alone, and at that moment it sends a packet or leaves a socket with nothing
    left to do. *)

From S2P Require Import Prelude RingBuffer Assembler Time SeqNumber Ip TcpWire TcpTimers.
From S2P Require Import Congestion Context TcpSocket TcpLogic TcpSegment TcpProcess.
From S2P Require Import TcpTransitions TcpDispatch TcpRun.
Open Scope Z_scope.

Lemma pre_transmit_id t (c : AnyController) : pre_transmit t c = c.
Proof. by destruct c. Qed.

Lemma poll_due_min now p q : poll_due now (poll_at_min p q) = poll_due now p || poll_due now q.
Proof.
  unfold poll_at_min. destruct p, q; cbn; rewrite ?orb_false_r, ?orb_true_r; try done.
  case_test; cbn; lia.
Qed.

Section Poll.
Context {E : Type}.
Variable (emit : Context -> packet -> outcome (Context * result unit E)).
Implicit Types (s : Socket) (cx : Context).

(** What [poll_at] found when it did not answer at once. *)
Record waiting (cx : Context) s (tp : Tuple) (ts : Instant) (ack : bool) (timeout_at : PollAt) : Prop := {
  wt_tuple : tuple s = Some tp;
  wt_ts : remote_last_ts s = Some ts;
  wt_open : state s <> Closed;
  wt_ready : seq_to_transmit cx s = Ret false;
  wt_ack : ack_to_transmit s = Ret ack;
  wt_timeout : match timeout s with
               | Some d => exists t, Instant.add ts d = Ret t /\ timeout_at = PollTime t
               | None => timeout_at = PollIngress
               end
}.

Definition ack_poll_at s (ack : bool) : PollAt :=
  match ack || window_to_update s, ack_delay_timer s with
  | false, _ => PollIngress
  | true, AckWaiting t => PollTime t
  | true, _ => PollNow
  end.

Lemma ack_due cx s ack :
  poll_due (now cx) (ack_poll_at s ack) = (ack || window_to_update s) && delayed_ack_expired (now cx) s.
Proof.
  unfold ack_poll_at, delayed_ack_expired. by destruct (ack || _), (ack_delay_timer s).
Qed.

Inductive poll_case cx s : PollAt -> Prop :=
| pc_idle : tuple s = None -> poll_case cx s PollIngress
| pc_timestamp tp : tuple s = Some tp -> remote_last_ts s = None -> poll_case cx s PollNow
| pc_closed tp ts :
    tuple s = Some tp -> remote_last_ts s = Some ts -> state s = Closed -> poll_case cx s PollNow
| pc_ready tp ts :
    tuple s = Some tp -> remote_last_ts s = Some ts -> state s <> Closed ->
    seq_to_transmit cx s = Ret true -> poll_case cx s PollNow
| pc_wait tp ts ack timeout_at :
    waiting cx s tp ts ack timeout_at ->
    poll_case cx s (poll_at_min (poll_at_min (Timer.poll_at (timer s)) timeout_at) (ack_poll_at s ack)).

Lemma poll_at_cases cx s p : poll_at cx s = Ret p -> poll_case cx s p.
Proof.
  unfold poll_at. destruct (tuple s) as [tp|] eqn:Htp; [|intros [= <-]; by apply pc_idle].
  rewrite bool_decide_false by done.
  destruct (remote_last_ts s) as [ts|] eqn:Hts; [|intros [= <-]; by eapply pc_timestamp].
  rewrite (bool_decide_false (Some ts = None)) by done.
  case_bool_decide as Hc; [intros [= <-]; by eapply pc_closed|].
  destruct (seq_to_transmit cx s) as [[]|] eqn:Hr; cbn [mbind outcome_bind]; [|
    |done]; [intros [= <-]; by eapply pc_ready|].
  destruct (ack_to_transmit s) as [ack|] eqn:Ha; cbn [mbind outcome_bind]; [|done].
  destruct (match timeout s with Some _ => _ | None => _ end) as [tm|] eqn:Ht; [|done].
  cbn [mbind outcome_bind]. intros [= <-].
  replace (match ack || window_to_update s with true => _ | false => _ end) with (ack_poll_at s ack).
  2: { unfold ack_poll_at. by destruct (ack || _), (ack_delay_timer s). }
  apply (pc_wait cx s tp ts). constructor; try done.
  destruct (timeout s) as [d|]; [|by injection Ht].
  destruct (Instant.add ts d) as [t|]; [|done]. injection Ht as <-. eauto.
Qed.

Lemma should_retransmit_due now t :
  poll_due now (Timer.poll_at t) = false ->
  Timer.should_retransmit now t = Ret None /\ Timer.should_keep_alive now t = false /\
  Timer.should_close now t = false.
Proof. destruct t as [[]| | |]; cbn; intros H; rewrite ?H; done. Qed.

Lemma dispatch_idle s cx p :
  poll_at cx s = Ret p -> poll_due (now cx) p = false ->
  dispatch emit s cx = Ret (s, cx, Ok ()).
Proof.
  intros Hp Hd. apply poll_at_cases in Hp.
  assert (returns (dispatch emit s cx) (fun '(s', cx', r) => s' = s /\ cx' = cx /\ r = Ok ())) as H.
  2: { destruct (dispatch emit s cx) as [[[s' cx'] r]|]; [|done]. by destruct H as (-> & -> & ->). }
  unfold dispatch. apply wp_run. unfold dispatch_body. wp_steps.
  destruct Hp as [Htp| | | |tp ts ack tm []]; try done.
  { rewrite bool_decide_true by done. by wp_steps. }
  rewrite !poll_due_min, ack_due in Hd. apply orb_false_iff in Hd as [Hd Hack].
  apply orb_false_iff in Hd as [Ht Htm]. apply should_retransmit_due in Ht as (Hrt & Hka & Hcl).
  rewrite bool_decide_false by (by rewrite wt_tuple0). wp_steps.
  rewrite bool_decide_false by (by rewrite wt_ts0). wp_steps.
  replace (s <| congestion_controller ::= pre_transmit (now cx) |>) with s.
  2: { destruct s. unfold set_field. sock_simpl. by rewrite pre_transmit_id. }
  assert (timed_out (now cx) s = Ret false) as Hto.
  { unfold timed_out. rewrite wt_ts0. destruct (timeout s); [|done].
    destruct wt_timeout0 as (t & -> & ->). cbn in *. by rewrite Htm. }
  unfold check_timers. wp_steps. rewrite Hto. cbn [returns]. wp_steps.
  rewrite wt_ready0. cbn [returns]. wp_steps. rewrite Hrt. cbn [returns]. wp_steps.
  unfold decide_to_send. wp_steps. rewrite wt_ready0. cbn [returns]. wp_steps.
  rewrite wt_ack0. cbn [returns].
  assert (ack && delayed_ack_expired (now cx) s = false /\
    window_to_update s && delayed_ack_expired (now cx) s = false) as [H1 H2].
  { by destruct ack, (window_to_update s), (delayed_ack_expired (now cx) s). }
  rewrite H1, H2, bool_decide_false, Hka, Hcl by done. by wp_steps.
Qed.

(** C24: before the moment [poll_at] announces, dispatching is useless: the device
    is not called (whatever it would do) and the socket does not change. *)
Theorem dispatch_before_poll_at s cx p :
  poll_at cx s = Ret p -> poll_due (now cx) p = false ->
  dispatch emit s cx = Ret (s, cx, Ok ()).
Proof. apply dispatch_idle. Qed.
End Poll.

(** ** After a dispatch *)

Lemma timer_quiet now t :
  Timer.should_retransmit now t = Ret None -> Timer.should_keep_alive now t = false ->
  Timer.should_close now t = false -> poll_due now (Timer.poll_at t) = false.
Proof.
  destruct t as [[]|e d| |]; cbn; try done. destruct (e <=? now); [|done].
  destruct (Instant.diff now e) as [x|]; cbn; [|done]. by destruct (Duration.add x d).
Qed.

Section Silence.
Context {E : Type}.
Variable (t0 : Instant) (cx : Context).
Hypothesis Hclock : clock t0 cx.
Hypothesis Hmtu : 60 <= ip_mtu cx.
Implicit Types (s : Socket).

(** The timers have been looked at: an expired one has been acted upon. *)
Definition settled s : Prop :=
  state s = Closed \/
  timed_out (now cx) s = Ret false /\ remote_last_ts s <> None /\
  (seq_to_transmit cx s = Ret true \/ Timer.should_retransmit (now cx) (timer s) = Ret None).

Lemma check_timers_settled s tp (Qr : result unit E -> Socket -> Context -> Prop) :
  sock_inv t0 s -> tuple s = Some tp -> remote_last_ts s <> None ->
  wp check_timers (fun _ s' cx' => cx' = cx /\ settled s') Qr s cx.
Proof.
  intros Hinv Htp Hts. unfold check_timers. wp_steps.
  destruct (timed_out_ok t0 cx s Hinv) as [b Hb]. rewrite Hb. cbn [returns]. destruct b.
  { wp_steps. split; [done|]. by left. }
  wp_steps. destruct (seq_to_transmit cx s) as [ready|] eqn:Hr; cbn [returns].
  2: { by rewrite (seq_to_transmit_ok cx Hmtu s tp) in Hr by (done || apply Hinv). }
  destruct ready; wp_steps; [split; [done|]; right; auto|].
  destruct (should_retransmit_ok t0 cx Hclock s (si_timer _ _ Hinv)) as (o & Ho & _).
  rewrite Ho. cbn [returns]. destruct o as [d|]; wp_steps; [|split; [done|]; right; auto].
  unfold Timer.set_for_idle.
  destruct (map_add_ok t0 cx Hclock (keep_alive s)) as (k & -> & Hk); [apply (si_durations _ _ Hinv)|].
  cbn [mbind outcome_bind returns]. wp_steps.
  eapply returns_mono; [|apply rtte_on_retransmit_wf, (si_rtte _ _ Hinv)].
  intros r _. wp_steps. split; [done|]. right. split; [done|]. split; [done|]. by right.
Qed.

(** Nothing to send, and no timer due. *)
Lemma nothing_due s tp ack :
  sock_inv t0 s -> tuple s = Some tp -> state s <> Closed -> settled s ->
  seq_to_transmit cx s = Ret false -> ack_to_transmit s = Ret ack ->
  (ack || window_to_update s) && delayed_ack_expired (now cx) s = false ->
  Timer.should_keep_alive (now cx) (timer s) = false ->
  Timer.should_close (now cx) (timer s) = false ->
  exists p, poll_at cx s = Ret p /\ poll_due (now cx) p = false.
Proof.
  intros Hinv Htp Hst Hset Hready Hack Hdelay Hka Hclose.
  destruct Hset as [|(Hto & Hts & [|Hrt])]; [done|congruence|].
  destruct (remote_last_ts s) as [ts|] eqn:Ets; [|done].
  unfold poll_at. rewrite !bool_decide_false by congruence.
  rewrite Hready, Hack. cbn [mbind outcome_bind]. rewrite Ets. unfold timed_out in Hto. rewrite Ets in Hto.
  pose proof (timer_quiet _ _ Hrt Hka Hclose) as Ht. rewrite <-ack_due in Hdelay.
  replace (match ack || window_to_update s with true => _ | false => _ end) with (ack_poll_at s ack).
  2: { unfold ack_poll_at. by destruct (ack || _), (ack_delay_timer s). }
  destruct (timeout s) as [d|].
  - destruct (Instant.add ts d) as [t|]; [|done]. injection Hto as Hto. cbn [mbind outcome_bind].
    eexists. split; [done|]. rewrite !poll_due_min, Ht, Hdelay. cbn. by rewrite Hto.
  - eexists. split; [done|]. by rewrite !poll_due_min, Ht, Hdelay.
Qed.

Lemma decide_to_send_silent s tp (Q : unit -> Socket -> Context -> Prop)
    (Qr : result unit E -> Socket -> Context -> Prop) :
  sock_inv t0 s -> tuple s = Some tp -> settled s -> Q () s cx ->
  (forall s' p, poll_at cx s' = Ret p -> poll_due (now cx) p = false -> Qr (Ok ()) s' cx) ->
  wp decide_to_send Q Qr s cx.
Proof.
  intros Hinv Htp Hset HQ HQr. unfold decide_to_send. wp_steps.
  destruct (seq_to_transmit cx s) as [ready|] eqn:Hr; cbn [returns].
  2: { by rewrite (seq_to_transmit_ok cx Hmtu s tp) in Hr by (done || apply Hinv). }
  destruct ready; wp_steps; [done|].
  destruct (ack_to_transmit s) as [ack|] eqn:Ha; cbn [returns].
  2: { by rewrite ack_to_transmit_ok in Ha by apply Hinv. }
  apply wp_if; intros H1; [by wp_steps|]. apply wp_if; intros H2; [by wp_steps|].
  case_bool_decide; [by wp_steps|]. apply wp_if; intros Hka; [by wp_steps|].
  apply wp_if; intros Hcl; wp_steps.
  - eapply returns_mono; [|by apply (socket_reset_ok t0)].
    intros s' (? & Hs' & Htp' & _). wp_steps. apply (HQr s' PollIngress); [|done].
    unfold poll_at. by rewrite bool_decide_true.
  - destruct (nothing_due s tp ack) as (p & ? & ?); try done; [|by apply (HQr s p)].
    by destruct ack, (window_to_update s), (delayed_ack_expired (now cx) s).
Qed.
End Silence.


(** A dispatch that does not reach the device does not depend on it. *)
Definition agree {R} (good : R) (m1 m2 : M R R) : Prop :=
  forall s cx s' cx', run m1 s cx = Ret (s', cx', good) -> run m2 s cx = Ret (s', cx', good).

Lemma agree_bind {R A} good (m : M R A) (f g : A -> M R R) :
  (forall a, agree good (f a) (g a)) -> agree good (m ≫= f) (m ≫= g).
Proof.
  intros H s cx s' cx'. unfold agree, run, mbind, M_bind in *.
  destruct (m s cx) as [[[s1 cx1] [r|a]]|]; cbn in *; eauto.
Qed.

Lemma dispatch_unreached (emit : Context -> packet -> outcome (Context * result unit packet)) s cx s' cx' :
  dispatch probe s cx = Ret (s', cx', Ok ()) -> dispatch emit s cx = Ret (s', cx', Ok ()).
Proof.
  assert (agree (Ok ()) (dispatch_body probe) (dispatch_body emit)) as H; [|apply H].
  unfold dispatch_body. apply agree_bind. intros s0. apply agree_bind. intros cx0.
  destruct (bool_decide (tuple s0 = None)); [by intros ? ? ? ?|].
  do 4 (apply agree_bind; intros []). apply agree_bind. intros [[ip r] ka]. apply agree_bind. intros cx1.
  by intros s1 cx2 s2 cx3.
Qed.

Lemma probe_silent t0 s cx :
  world_ok t0 s cx ->
  returns (dispatch probe s cx) (fun '(s', cx', res) => res = Ok () ->
    cx' = cx /\ exists p, poll_at cx s' = Ret p /\ poll_due (now cx) p = false).
Proof.
  intros (Hinv & Hclock & Hmtu). unfold dispatch. apply wp_run. unfold dispatch_body. wp_steps.
  case_bool_decide as Htp; wp_steps.
  { intros _. split; [done|]. exists PollIngress. unfold poll_at. by rewrite bool_decide_true. }
  destruct (tuple s) as [tp|] eqn:Et; [|done].
  match goal with |- wp _ (fun _ => ?T) _ _ _ => set (tail := T) end.
  assert (forall ts, instant_ok ts -> ts <> None -> tail (s <| remote_last_ts := ts |>) cx) as Htail.
  { intros ts Hts Hne. subst tail. cbv beta. wp_step. wp_step. cbv beta.
    set (s1 := s <| remote_last_ts := ts |> <| congestion_controller ::= pre_transmit (now cx) |>).
    assert (sock_inv t0 s1) as Hinv1 by by apply start_inv.
    apply wp_bind. eapply wp_mono; [apply (wp_and _ (fun _ s2 _ => timers_step t0 cx s1 s2)
      (fun _ s2 cx2 => cx2 = cx /\ settled cx s2) (fun _ _ _ => False) (fun _ _ _ => False))
      | |by intros ? ? ? [[] _]].
    - apply (check_timers_ok t0 cx Hclock Hmtu s1 tp); [done..|]. intros s2 H2. exact H2.
    - by apply (check_timers_settled t0 cx Hclock Hmtu s1 tp).
    - intros [] s2 cx2 ((Hinv2 & _ & Htp2 & _) & -> & Hset).
      assert (tuple s2 = Some tp) as Htp2' by (by rewrite Htp2).
      apply wp_bind, (decide_to_send_silent t0 cx Hmtu s2 tp); try done; [|eauto].
      wp_steps. apply (build_packet_ok t0 cx Hmtu s2 tp); [done..|].
      intros ip r ka _ _ _. wp_steps. cbn [probe returns]. by wp_steps. }
  clearbody tail. case_bool_decide; wp_steps.
  - apply Htail; [apply Hclock|done].
  - replace s with (s <| remote_last_ts := remote_last_ts s |>) by by destruct s.
    apply Htail; [apply Hinv|done].
Qed.

(** C25: a dispatch that sends nothing leaves nothing to do: whatever the device,
    [poll_at] then announces a later moment, or none.  With the theorem above,
    polling a socket when [poll_at] says so never runs in a busy loop: each poll
    at the same instant hands a packet to the device, or is the last one. *)
Theorem silent_dispatch_is_last t0 s cx :
  world_ok t0 s cx -> offered s cx = None ->
  exists s' p, (forall takes, dispatch (device takes) s cx = Ret (s', cx, Ok ())) /\
    poll_at cx s' = Ret p /\ poll_due (now cx) p = false.
Proof.
  intros Hw Hoff. pose proof (probe_silent t0 s cx Hw) as Hp. unfold offered in Hoff.
  destruct (dispatch probe s cx) as [[[s' cx'] [[]|p]]|] eqn:Hd; [|done|done].
  destruct (Hp eq_refl) as (-> & p & ? & ?). exists s', p. split; [|done].
  intros takes. by apply dispatch_unreached.
Qed.

(** An established socket has nothing to do; even a device that panics is safe. *)
Lemma dispatch_before_poll_at_witness :
  dispatch (E := unit) (fun _ _ => Panic) established_socket established_context
    = Ret (established_socket, established_context, Ok ()).
Proof.
  apply (dispatch_before_poll_at _ _ _ PollIngress); vm_compute; reflexivity.
Defined.

(** The retransmission timer has expired, and there is nothing to resend. *)
Definition expired_socket : Socket := established_socket <| timer := TimerRetransmit 0 0 |>.

Lemma expired_ok : world_ok 0 expired_socket established_context.
Proof.
  destruct established_ok as ([] & ? & ?). split; [|done]. by constructor.
Qed.

Lemma silent_dispatch_is_last_witness :
  exists s' p,
    (forall takes, dispatch (device takes) expired_socket established_context
                   = Ret (s', established_context, Ok ())) /\
    poll_at established_context s' = Ret p /\ poll_due (now established_context) p = false.
Proof.
  apply (silent_dispatch_is_last 0).
  - exact expired_ok.
  - vm_compute. reflexivity.
Defined.
