(* ===== verification/IfacePoll.v ===== *)
(** * The deadline of an interface

    [poll_at] announces when there is something to do: before that moment a [poll]
    that finds no packet to receive sends nothing and leaves the sockets as they
    are.  The loop of [poll] ends when the device has no more frames and no more
    transmit tokens. *)

From S2P Require Import Prelude RingBuffer PacketBuffer Time Bytes Phy Ip LinkLayer Ipv4Wire Neighbor Cidr Route Fragmentation Packet.
From S2P Require Import Ipv4Fragments TcpTimers Context UdpSocket TcpSocket TcpRun TcpPoll Iface IfaceProcess IfaceArp Collections.
Open Scope nat_scope.

(** A UDP socket without a datagram to send. *)
Lemma udp_dispatch_idle {E : Type} (emit : Context -> PacketMeta -> datagram -> outcome (Context * result unit E)) s cx :
  UdpSocket.poll_at cx s = PollIngress -> UdpSocket.dispatch emit s cx = Ret (s, cx, Ok ()).
Proof.
  unfold UdpSocket.poll_at, PacketBuffer.is_empty. intros H.
  destruct (RingBuffer.is_empty (metadata_ring (UdpSocket.tx_buffer s))) eqn:He; [|done].
  unfold UdpSocket.dispatch, dequeue_with, dequeue_padding, dequeue_one_with. rewrite He. cbn. rewrite He. cbn.
  by destruct s as [? ? []].
Qed.

Section Poll.
Context {BO : ByteOrder} {AV : Vec IpCidr} {RV : Vec Route} {LM : LinearMap Address Neighbor}.
Implicit Types (i : Interface) (slots : list (option Item)).

(** A socket that has nothing to do at the time. *)
Lemma dispatch_socket_idle s d i cx p :
  context (inner i) = Ret cx -> socket_poll_at cx s = Ret p -> poll_due (if_now (inner i)) p = false ->
  dispatch_socket s d i = Ret (i, d, s, None, Ok ()).
Proof.
  intros Hcx Hp Hd. unfold dispatch_socket. rewrite Hcx. cbn [mbind outcome_bind].
  assert (now cx = if_now (inner i) /\ rand cx = if_rand (inner i)) as [Hnow Hrand].
  { unfold context in Hcx. destruct (DeviceCapabilities.ip_mtu _); [|done]. by injection Hcx as <-. }
  destruct s as [s|s]; cbn [socket_poll_at] in Hp.
  - injection Hp as <-. assert (UdpSocket.poll_at cx s = PollIngress) as Hi.
    { revert Hd. unfold UdpSocket.poll_at. by destruct (PacketBuffer.is_empty _). }
    unfold udp_wants. rewrite udp_dispatch_idle by done. cbn [mbind outcome_bind].
    by rewrite udp_dispatch_idle by done.
  - assert (forall E (emit : Context -> packet -> outcome (Context * result unit E)),
      TcpSocket.dispatch emit s cx = Ret (s, cx, Ok ())) as Hidle.
    { intros E emit. apply (dispatch_idle emit s cx p Hp). by rewrite Hnow. }
    unfold tcp_wants. rewrite Hidle. cbn [mbind outcome_bind]. rewrite Hidle. cbn [mbind outcome_bind]. rewrite Hrand.
    by destruct i as [[]].
Qed.

(** ** Time passes *)

(** None of the routes expires after [t0] and before [t]. *)
Definition no_route_expires (t0 t : Instant) (inn : InterfaceInner) : Prop :=
  Forall (fun route => match expires_at route with Some e => e < t0 \/ t <= e | None => True end)%Z
    (as_slice (Routes.storage (routes inn))).

Abbreviation at_time t inn := (inn <| if_now := t |>).

Lemma context_at t inn cx : context inn = Ret cx -> context (at_time t inn) = Ret (cx <| now := t |>).
Proof.
  unfold context. change (caps (at_time t inn)) with (caps inn). destruct (DeviceCapabilities.ip_mtu _); [|done].
  by intros [= <-].
Qed.

Lemma iter_filter_ext {A : Type} (f g : A -> outcome bool) l :
  Forall (fun x => f x = g x) l -> iter_filter f l = iter_filter g l.
Proof. induction 1 as [|x l Hx _ IH]; [done|]. cbn [iter_filter]. by rewrite Hx, IH. Qed.

Lemma lookup_later t0 t addr inn :
  (t0 <= t)%Z -> no_route_expires t0 t inn -> Routes.lookup addr t0 (routes inn) = Routes.lookup addr t (routes inn).
Proof.
  intros Ht Hr. unfold Routes.lookup. destruct (rust_assert _); [|done]. cbn [mbind outcome_bind].
  rewrite (iter_filter_ext _ (Routes.applies addr t)); [done|]. eapply Forall_impl; [exact Hr|].
  intros route He. cbn in He. unfold Routes.applies. destruct (expires_at route) as [e|]; [|done].
  rewrite !Z.gtb_ltb. by replace (e <? t0)%Z with (e <? t)%Z by (decide_tests; done || lia).
Qed.

(** A neighbor that is known later is known now. *)
Lemma has_neighbor_later t0 t addr inn :
  (t0 <= t)%Z -> no_route_expires t0 t inn ->
  match has_neighbor (at_time t0 inn) addr, has_neighbor (at_time t inn) addr with
  | Ret b0, Ret b => b = true -> b0 = true
  | Panic, Panic => True
  | _, _ => False
  end.
Proof.
  intros Ht Hr. unfold has_neighbor, route. change (in_same_network (at_time t0 inn) addr) with (in_same_network (at_time t inn) addr).
  destruct (in_same_network (at_time t inn) addr) as [same|]; cbn [mbind outcome_bind]; [|done].
  change (routes (at_time t0 inn)) with (routes inn). change (routes (at_time t inn)) with (routes inn).
  change (if_now (at_time t0 inn)) with t0. change (if_now (at_time t inn)) with t.
  rewrite (lookup_later t0 t) by done.
  destruct (if same || _ then _ else _) as [[hop|]|]; cbn [mbind outcome_bind]; [|done..].
  change (caps (at_time t0 inn)) with (caps (at_time t inn)). change (neighbor_cache (at_time t0 inn)) with (neighbor_cache (at_time t inn)).
  destruct (caps_medium _); [|done|]; (unfold Cache.lookup; destruct (rust_assert _); [|done]; cbn [mbind outcome_bind]).
  all: destruct (lm_get _ _) as [n|]; cbn; repeat case_match; bool_to_prop; try done; lia.
Qed.

(** A socket that may be polled has reached its own deadline if it has reached the
    one that takes the neighbor into account. *)
Lemma permitted_idle t has_neighbor0 has_neighbor m q p :
  (forall addr, match has_neighbor0 addr, has_neighbor addr with
                | Ret b0, Ret b => b = true -> b0 = true | Panic, Panic => True | _, _ => False end) ->
  Meta.poll_at q has_neighbor0 m = Ret p -> poll_due t p = false ->
  exists m' b, Meta.egress_permitted t has_neighbor m = Ret (m', b) /\ (b = true -> poll_due t q = false).
Proof.
  intros Hn. unfold Meta.poll_at, Meta.egress_permitted. destruct (Meta.neighbor_state m) as [|neighbor silent_until].
  - intros [= ->] Hd. by exists m, true.
  - specialize (Hn neighbor). destruct (has_neighbor0 neighbor) as [b0|], (has_neighbor neighbor) as [b|];
      cbn [mbind outcome_bind]; try done. intros [= <-] Hd. destruct b; [rewrite Hn in Hd by done; by do 2 eexists|].
    destruct b0; [destruct (silent_until <=? t)%Z; by do 2 eexists|]. cbn [poll_due] in Hd. rewrite Hd. by exists m, false.
Qed.

Definition same_socket (slot slot' : option Item) : Prop := (item_socket <$> slot) = (item_socket <$> slot').

Lemma same_socket_refl slots : Forall2 same_socket slots slots.
Proof. induction slots; by constructor. Qed.

(** A pass at the time [t] over sockets whose deadlines, announced at the time [t0],
    are all in the future. *)
Lemma egress_loop_idle t0 slots emitted_any d i cx times :
  (0 <= t0 <= if_now (inner i))%Z -> no_route_expires t0 (if_now (inner i)) (inner i) ->
  context (inner i) = Ret cx -> poll_times (cx <| now := t0 |>) (at_time t0 (inner i)) (omap id slots) = Ret times ->
  Forall (fun t => if_now (inner i) < t)%Z times ->
  exists slots', egress_loop slots emitted_any d i = Ret (i, d, slots', emitted_any) /\ Forall2 same_socket slots slots'.
Proof.
  intros H0 Hroutes Hcx. revert times. induction slots as [|[[m s]|] slots IH]; intros times Ht Hlate; cbn [egress_loop].
  - exists []. by split; [|constructor].
  - cbn [omap list_omap id poll_times] in Ht.
    change (socket_poll_at (cx <| now := t0 |>) s) with (socket_poll_at cx s) in Ht.
    destruct (socket_poll_at cx s) as [q|] eqn:Hq; cbn [mbind outcome_bind] in Ht; [|done].
    destruct (Meta.poll_at q (has_neighbor (at_time t0 (inner i))) m) as [p|] eqn:Hp; cbn [mbind outcome_bind] in Ht; [|done].
    destruct (poll_times _ _ (omap id slots)) as [rest|] eqn:Hr; cbn [mbind outcome_bind] in Ht; [|done].
    injection Ht as <-.
    assert (poll_due (if_now (inner i)) p = false /\ Forall (fun t => if_now (inner i) < t)%Z rest) as [Hdue Hrest].
    { destruct p as [|t|]; [apply Forall_cons in Hlate as [? ?]; lia| |done].
      apply Forall_cons in Hlate as [? ?]. split; [|done]. cbn. by apply Z.leb_gt. }
    destruct (IH rest eq_refl Hrest) as (slots' & IHs & Hsame).
    destruct (permitted_idle (if_now (inner i)) (has_neighbor (at_time t0 (inner i))) (has_neighbor (inner i)) m q p) as (m' & b & -> & Hb); [|done..|].
    { intros addr. pose proof (has_neighbor_later t0 (if_now (inner i)) addr (inner i) ltac:(lia) Hroutes) as H.
      by destruct i as [[]]. }
    cbn [mbind outcome_bind].
    assert (Forall2 same_socket (Some (mkItem m s) :: slots) (Some (mkItem m' s) :: slots')) as Hall by by constructor.
    destruct b; [rewrite (dispatch_socket_idle s d i cx q) by auto|]; cbn [mbind outcome_bind];
      rewrite ?(bool_decide_false (is_Some None)), ?orb_false_r by (by intros []); rewrite IHs; by eexists.
  - destruct (IH times Ht Hlate) as (slots' & -> & Hsame). cbn [mbind outcome_bind]. eexists. split; [done|]. by constructor.
Qed.

Lemma iter_min_spec l t : match iter_min l with Some m => (t < m)%Z | None => True end -> Forall (fun x => t < x)%Z l.
Proof.
  induction l as [|x l IH]; cbn [iter_min]; [done|]. destruct (iter_min l) as [m|]; intros H.
  - constructor; [lia|]. apply IH. lia.
  - constructor; [done|]. by apply IH.
Qed.

Lemma ipv4_egress_empty hw caps tx frag :
  Fragmenter.is_empty frag = true -> exists frag', ipv4_egress hw caps tx frag = Ret (frag', tx, None).
Proof.
  intros He. unfold ipv4_egress. exists (if Fragmenter.finished frag then Fragmenter.reset frag else frag).
  assert (Fragmenter.is_empty (if Fragmenter.finished frag then Fragmenter.reset frag else frag) = true) as ->; [|done].
  by destruct (Fragmenter.finished frag).
Qed.

(** The device has no frame when it is asked. *)
Definition no_frame (d : Device) : Prop := match dev_rx d with Some _ :: _ => False | _ => True end.

Lemma poll_loop_idle rounds d slots changed i slots' :
  no_frame d -> egress_loop slots false (d <| dev_rx ::= tail |>) i = Ret (i, d <| dev_rx ::= tail |>, slots', false) ->
  poll_loop (S rounds) d slots changed i = Ret (Some (i, d <| dev_rx ::= tail |>, slots', changed)).
Proof.
  intros Hrx He. cbn [poll_loop]. unfold socket_ingress.
  assert (ingress_loop (dev_rx d) slots false i = Ret (i, tail (dev_rx d), slots, [], false)) as ->.
  { unfold no_frame in Hrx. by destruct (dev_rx d) as [|[]]. }
  cbn [mbind outcome_bind]. unfold socket_egress.
  replace (d <| dev_rx := _ |> <| dev_sent ::= _ |>) with (d <| dev_rx ::= tail |>).
  - by rewrite He.
  - destruct d. unfold set_field. cbn. by rewrite app_nil_r.
Qed.
End Poll.

(** C11: [poll_at] can be relied on: from the moment it is asked until the one it
    announces, a [poll] that finds no frame to receive sends nothing and changes no
    socket, whatever sockets there are and whatever neighbors they wait for.  No
    route may expire in the meantime: a socket that waits for the hardware address of
    its gateway could then be routed to another one, whose address is known. *)
Theorem poll_before_deadline_is_idle {BO : ByteOrder} {AV : Vec IpCidr} {RV : Vec Route} {LM : LinearMap Address Neighbor}
    rounds t0 t d slots i i' deadline
    (Hrounds : 0 < rounds) (Htime : (0 <= t0 <= t)%Z) (Hrx : no_frame d)
    (Hat : poll_at t0 slots i = Ret (i', deadline))
    (Hlate : match deadline with Some at_ => (t < at_)%Z | None => True end)
    (Hroutes : no_route_expires t0 t (inner i)) :
  exists i'' slots', poll rounds t d slots i' = Ret (Some (i'', d <| dev_rx ::= tail |>, slots', false)) /\
    Forall2 same_socket slots slots'.
Proof.
  unfold poll_at in Hat. set (i1 := i <| inner ::= fun inn => inn <| if_now := t0 |> |>) in Hat.
  destruct (Fragmenter.is_empty (fragmenter i1)) eqn:He; cbn [negb] in Hat; [|injection Hat as <- <-; lia].
  destruct (context (inner i1)) as [cx|] eqn:Hcx; cbn [mbind outcome_bind] in Hat; [|done].
  destruct (poll_times cx (inner i1) (omap id slots)) as [times|] eqn:Ht; cbn [mbind outcome_bind] in Hat; [|done].
  injection Hat as <- <-. apply iter_min_spec in Hlate. unfold poll.
  set (i2 := i1 <| inner ::= _ |> <| fragments ::= _ |>).
  destruct (ipv4_egress_empty (hardware_addr (inner i2)) (caps (inner i2)) (dev_tx d) (fragmenter i2) He) as [frag ->].
  cbn [mbind outcome_bind]. destruct rounds as [|rounds]; [lia|].
  assert (now cx = t0) as Hnow.
  { unfold context in Hcx. destruct (DeviceCapabilities.ip_mtu _); [|done]. by injection Hcx as <-. }
  destruct (egress_loop_idle t0 slots false (d <| dev_rx ::= tail |>) (i2 <| fragmenter := frag |>) (cx <| now := t |>) times)
    as (slots' & Hloop & Hsame); try done.
  - by apply (context_at t (inner i1)).
  - by replace (cx <| now := t |> <| now := t0 |>) with cx by (destruct cx; cbn in *; by subst).
  - exists (i2 <| fragmenter := frag |>), slots'. split; [|done].
    replace (d <| dev_tx := dev_tx d |>) with d by (by destruct d). by apply poll_loop_idle.
Qed.

(** ** Every poll ends *)

(** The socket calls the device with what it calls any other device with: a device
    that refuses is reached whenever a device that refuses differently is. *)

Section Similar.
Context {E1 E2 : Type}.

(** The same computation, up to the errors of the device. *)
Definition similar {A1 A2 : Type} (related : A1 -> A2 -> Prop) (m1 : M (result unit E1) A1) (m2 : M (result unit E2) A2) :
    Prop := forall s cx,
  match m1 s cx, m2 s cx with
  | Ret (s1, cx1, inr a1), Ret (s2, cx2, inr a2) => s1 = s2 /\ cx1 = cx2 /\ related a1 a2
  | Ret (s1, cx1, inl (Ok _)), Ret (s2, cx2, inl (Ok _)) => s1 = s2 /\ cx1 = cx2
  | Ret (_, _, inl (Err _)), Ret (_, _, inl (Err _)) => True
  | Panic, Panic => True
  | _, _ => False
  end.

Lemma similar_bind {A B1 B2 : Type} (related : B1 -> B2 -> Prop) (m1 : M (result unit E1) A) (m2 : M (result unit E2) A)
    (f1 : A -> M (result unit E1) B1) (f2 : A -> M (result unit E2) B2) :
  similar eq m1 m2 -> (forall a, similar related (f1 a) (f2 a)) -> similar related (m1 ≫= f1) (m2 ≫= f2).
Proof.
  intros Hm Hf s cx. specialize (Hm s cx). unfold mbind, M_bind.
  destruct (m1 s cx) as [[[s1 cx1] [[[]|e1]|a1]]|], (m2 s cx) as [[[s2 cx2] [[[]|e2]|a2]]|]; cbn; try done.
  destruct Hm as (-> & -> & ->). apply Hf.
Qed.

Lemma similar_lift {A : Type} (c : outcome A) : similar eq (lift c) (lift c).
Proof. intros s cx. unfold lift. by destruct c. Qed.

Ltac similar := repeat first
  [ progress intros
  | apply similar_bind
  | apply similar_lift
  | by intros ? ?
  | match goal with |- similar _ (match ?x with _ => _ end) _ => destruct x end ].

Lemma check_timers_similar : similar eq check_timers check_timers.
Proof. unfold check_timers. similar. Qed.

Lemma decide_to_send_similar : similar eq decide_to_send decide_to_send.
Proof. unfold decide_to_send. similar. Qed.

Lemma build_packet_similar : similar eq build_packet build_packet.
Proof. unfold build_packet. similar. Qed.

Lemma dispatch_refused (e1 : packet -> E1) (e2 : packet -> E2) :
  similar (fun _ _ => False) (dispatch_body (fun cx p => Ret (cx, Err (e1 p)))) (dispatch_body (fun cx p => Ret (cx, Err (e2 p)))).
Proof.
  unfold dispatch_body. apply similar_bind; [by intros ? ?|intros s0]. apply similar_bind; [by intros ? ?|intros cx0].
  destruct (bool_decide (tuple s0 = None)); [by intros ? ?|].
  apply similar_bind; [by destruct (bool_decide _)|intros []]. apply similar_bind; [by intros ? ?|intros []].
  apply similar_bind; [apply check_timers_similar|intros []]. apply similar_bind; [apply decide_to_send_similar|intros []].
  apply similar_bind; [apply build_packet_similar|intros [[ip r] ka]]. apply similar_bind; [by intros ? ?|intros cx1].
  by intros s cx.
Qed.
End Similar.

(** What a TCP socket wants to send it does not lose when the device refuses it. *)
Lemma tcp_refused {E : Type} (e : E) s cx p s' cx' r :
  tcp_wants s cx = Ret (Some p) -> TcpSocket.dispatch (fun cx _ => Ret (cx, Err e)) s cx = Ret (s', cx', r) -> exists e', r = Err e'.
Proof.
  unfold tcp_wants, TcpSocket.dispatch, run. intros Hw Hd.
  pose proof (dispatch_refused (fun p : packet => p) (fun _ : packet => e) s cx) as H.
  destruct (dispatch_body (fun cx p => Ret (cx, Err p)) s cx) as [[[s1 cx1] [[[]|q]|[[]|q]]]|]; cbn [mbind outcome_bind] in Hw; try done;
    destruct (dispatch_body (fun cx _ => Ret (cx, Err e)) s cx) as [[[s2 cx2] [[[]|q']|[[]|q']]]|]; cbn [mbind outcome_bind] in Hd;
    try done; injection Hd as <- <- <-; try by eexists.
  by destruct H as (_ & _ & []).
Qed.

(** What a UDP socket wants to send it does not lose either. *)
Lemma udp_refused {E : Type} (e : E) s cx p s' cx' r :
  udp_wants s cx = Ret (Some p) -> UdpSocket.dispatch (fun cx _ _ => Ret (cx, Err e)) s cx = Ret (s', cx', r) -> exists e', r = Err e'.
Proof.
  unfold udp_wants, UdpSocket.dispatch, dequeue_with. intros Hw Hd.
  destruct (dequeue_padding _) as [pb|]; cbn [mbind outcome_bind] in *; [|done]. unfold dequeue_one_with in *.
  destruct (RingBuffer.is_empty _); [done|]. destruct (get_idx_unchecked _ _) as [next|]; cbn [mbind outcome_bind] in *; [|done].
  destruct (unwrap _) as [m|]; cbn [mbind outcome_bind] in *; [|done]. unfold dequeue_many_with in *.
  destruct (range _ _ _) as [buf|]; cbn [mbind outcome_bind] in *; [|done]. unfold with_payload in *.
  destruct (rust_assert (pm_size m <=? length buf)); cbn [mbind outcome_bind] in *; [|done].
  destruct (unwrap (PacketBuffer.header m)) as [h|]; cbn [mbind outcome_bind] in *; [|done].
  destruct (range buf 0 (pm_size m)) as [payload|]; cbn [mbind outcome_bind] in *; [|done].
  unfold UdpSocket.send_packet in *. destruct (UdpSocket.source_address _ _ _) as [src|].
  - destruct (IpRepr.new _ _ _ _ _) as [ip|]; cbn [mbind outcome_bind] in *; [|done].
    destruct (rust_assert (0 <=? _)); cbn [mbind outcome_bind] in *; [|done]. injection Hd as <- <- <-. by eexists.
  - cbn [mbind outcome_bind] in Hw. destruct (rust_assert (_ <=? _)); cbn [mbind outcome_bind] in Hw; done.
Qed.

Section Progress.
Context {BO : ByteOrder} {AV : Vec IpCidr} {RV : Vec Route} {LM : LinearMap Address Neighbor}.
Implicit Types (i : Interface) (slots : list (option Item)) (d : Device).

(** The transmit tokens the device gives, and how often a burst of frames arrives. *)
Definition tokens (tx : list (option TxToken)) : nat := length (omap id tx).

Fixpoint bursts (rx : list (option (RxToken * TxToken))) : nat :=
  match rx with
  | [] => 0
  | None :: rx => bursts rx
  | Some _ :: rx => match rx with Some _ :: _ => bursts rx | _ => S (bursts rx) end
  end.

(** [d'] is left of the device [d]: it has received nothing, and has as many
    transmit tokens or fewer. *)
Definition device_left d d' : Prop := dev_rx d' = dev_rx d /\ tokens (dev_tx d') <= tokens (dev_tx d).

(** Sending takes a transmit token. *)
Lemma respond_spends packet d i i' d' res :
  respond packet d i = Ret (i', d', res) ->
  device_left d d' /\ (tokens (dev_tx d') < tokens (dev_tx d) \/ res = Err Exhausted).
Proof.
  unfold respond, device_left. destruct (dev_tx d) as [|[t|] tx] eqn:Htx; cbn [transmit]; intros H.
  - injection H as <- <- <-. split; [done|by right].
  - destruct (dispatch_ip _ _ _ _) as [[[[inn frag] sent] r]|]; cbn [mbind outcome_bind] in H; [|done].
    injection H as <- <- <-. cbn. split; [split; [done|lia]|left; lia].
  - injection H as <- <- <-. split; [done|by right].
Qed.

Lemma dispatch_socket_spends s d i i' d' s' neighbor_addr res :
  dispatch_socket s d i = Ret (i', d', s', neighbor_addr, res) ->
  device_left d d' /\ (res = Ok () -> is_Some neighbor_addr -> tokens (dev_tx d') < tokens (dev_tx d)).
Proof.
  unfold dispatch_socket. intros H. destruct (context (inner i)) as [cx|]; cbn [mbind outcome_bind] in H; [|done].
  destruct s as [s|s].
  - destruct (udp_wants s cx) as [[[[ip udp] payload]|]|] eqn:Hw; cbn [mbind outcome_bind] in H; [| |done].
    + destruct (respond _ d i) as [[[i1 d1] sent]|] eqn:Hr; cbn [mbind outcome_bind] in H; [|done].
      apply respond_spends in Hr as [Hleft Hor].
      destruct (UdpSocket.dispatch _ s cx) as [[[s1 cx1] r]|] eqn:Hd; cbn [mbind outcome_bind] in H; [|done].
      injection H as <- <- <- <- <-. split; [done|]. intros -> _. destruct Hor as [Hor| ->]; [done|].
      by destruct (udp_refused Exhausted s cx _ _ _ _ Hw Hd).
    + destruct (UdpSocket.dispatch _ s cx) as [[[s1 cx1] r]|]; cbn [mbind outcome_bind] in H; [|done].
      injection H as <- <- <- <- <-. split; [done|]. by intros _ [].
  - destruct (tcp_wants s cx) as [[[ip tcp]|]|] eqn:Hw; cbn [mbind outcome_bind] in H; [| |done].
    + destruct (respond _ d i) as [[[i1 d1] sent]|] eqn:Hr; cbn [mbind outcome_bind] in H; [|done].
      apply respond_spends in Hr as [Hleft Hor].
      destruct (TcpSocket.dispatch _ s cx) as [[[s1 cx1] r]|] eqn:Hd; cbn [mbind outcome_bind] in H; [|done].
      injection H as <- <- <- <- <-. split; [done|]. intros -> _. destruct Hor as [Hor| ->]; [done|].
      by destruct (tcp_refused Exhausted s cx _ _ _ _ Hw Hd).
    + destruct (TcpSocket.dispatch _ s cx) as [[[s1 cx1] r]|]; cbn [mbind outcome_bind] in H; [|done].
      injection H as <- <- <- <- <-. split; [done|]. by intros _ [].
Qed.

(** A pass over the sockets that sent something has taken a token. *)
Lemma egress_loop_spends slots b d i i' d' slots' b' :
  egress_loop slots b d i = Ret (i', d', slots', b') ->
  device_left d d' /\ (b' = true -> b = true \/ tokens (dev_tx d') < tokens (dev_tx d)).
Proof.
  revert b d i slots' b'. induction slots as [|[[m s]|] slots IH]; intros b d i slots' b' H; cbn [egress_loop] in H.
  - injection H as <- <- <- <-. split; [done|by left].
  - destruct (Meta.egress_permitted _ _ _) as [[m1 []]|]; cbn [mbind outcome_bind] in H; [| |done].
    + destruct (dispatch_socket s d i) as [[[[[i1 d1] s1] na] res]|] eqn:Hd; cbn [mbind outcome_bind] in H; [|done].
      apply dispatch_socket_spends in Hd as [[Hrx Htx] Hspend]. destruct res as [[]|[|de]].
      * destruct (egress_loop slots _ d1 i1) as [[[[i2 d2] rest] b2]|] eqn:He; cbn [mbind outcome_bind] in H; [|done].
        injection H as <- <- <- <-. apply IH in He as [[Hrx2 Htx2] Hb2]. split; [split; [congruence|lia]|].
        intros ->. destruct (Hb2 eq_refl) as [[->|Hna%bool_decide_eq_true]%orb_true_iff|]; [by left| |right; lia].
        right. specialize (Hspend eq_refl Hna). lia.
      * injection H as <- <- <- <-. split; [done|by left].
      * destruct (unwrap na) as [n|]; cbn [mbind outcome_bind] in H; [|done].
        destruct (Meta.neighbor_missing _ _ _) as [m2|]; cbn [mbind outcome_bind] in H; [|done].
        destruct (egress_loop slots _ d1 i1) as [[[[i2 d2] rest] b2]|] eqn:He; cbn [mbind outcome_bind] in H; [|done].
        injection H as <- <- <- <-. apply IH in He as [[Hrx2 Htx2] Hb2]. split; [split; [congruence|lia]|].
        intros ->. destruct (Hb2 eq_refl) as [->|]; [by left|right; lia].
    + destruct (egress_loop slots _ d i) as [[[[i2 d2] rest] b2]|] eqn:He; cbn [mbind outcome_bind] in H; [|done].
      injection H as <- <- <- <-. by apply IH in He.
  - destruct (egress_loop slots _ d i) as [[[[i2 d2] rest] b2]|] eqn:He; cbn [mbind outcome_bind] in H; [|done].
    injection H as <- <- <- <-. by apply IH in He.
Qed.

(** A pass over the frames received ends a burst, if there is one. *)
Definition receiving (rx : list (option (RxToken * TxToken))) : Prop := match rx with Some _ :: _ => True | _ => False end.

Lemma ingress_loop_spends rx slots b i i' rx' slots' sent b' :
  ingress_loop rx slots b i = Ret (i', rx', slots', sent, b') ->
  bursts rx' <= bursts rx /\ (receiving rx -> bursts rx' < bursts rx) /\ (b' = true -> b = true \/ receiving rx).
Proof.
  revert slots b i i' slots' sent b'. induction rx as [|[[rt tt]|] rx IH]; intros slots b i i' slots' sent b' H; cbn [ingress_loop] in H.
  - injection H as <- <- <- <- <-. split_and!; [done|done|by left].
  - assert (exists slots b i i' slots' sent b', ingress_loop rx slots b i = Ret (i', rx', slots', sent, b')) as (? & ? & ? & ? & ? & ? & ? & Hr).
    { destruct (rx_preprocess rt slots) as [s1|]; cbn [mbind outcome_bind] in H; [|done].
      destruct (rx_frame rt); [by repeat eexists|].
      destruct (ingress_frame _ _ _ _ _) as [[[i1 s2] sent1]|]; cbn [mbind outcome_bind] in H; [|done].
      destruct (ingress_loop rx s2 true i1) as [[[[[i2 rx2] s3] sent2] b2]|] eqn:He; cbn [mbind outcome_bind] in H; [|done].
      injection H as <- <- <- <- <-. by repeat eexists. }
    apply IH in Hr as (Hle & Hlt & _). assert (bursts rx' < bursts (Some (rt, tt) :: rx)) as Hs.
    { cbn [bursts]. destruct rx as [|[y|] rx]; [lia|by apply Hlt|lia]. }
    split_and!; [lia|done|by right].
  - injection H as <- <- <- <- <-. split_and!; [done|done|by left].
Qed.

Lemma ipv4_egress_spends hw caps tx frag frag' tx' frame :
  ipv4_egress hw caps tx frag = Ret (frag', tx', frame) -> tokens tx' <= tokens tx.
Proof.
  unfold ipv4_egress. destruct (Fragmenter.is_empty _); [by intros [= <- <- <-]|].
  destruct (_ <? _); [|by intros [= <- <- <-]]. destruct tx as [|[t|] tx]; cbn [transmit].
  - by intros [= <- <- <-].
  - destruct (dispatch_ipv4_frag _ _ _ _) as [[f fr]|]; cbn [mbind outcome_bind]; [|done]. intros [= <- <- <-].
    unfold tokens. cbn. lia.
  - by intros [= <- <- <-].
Qed.

Lemma poll_loop_ends rounds d slots changed i :
  tokens (dev_tx d) + bursts (dev_rx d) < rounds -> poll_loop rounds d slots changed i <> Ret None.
Proof.
  revert d slots changed i. induction rounds as [|rounds IH]; intros d slots changed i Hw; [lia|]. cbn [poll_loop].
  unfold socket_ingress. destruct (ingress_loop (dev_rx d) slots false i) as [[[[[i1 rx1] s1] sent] ing]|] eqn:Hin;
    cbn [mbind outcome_bind]; [|done]. apply ingress_loop_spends in Hin as (Hle & Hlt & Hing).
  set (d1 := d <| dev_rx := rx1 |> <| dev_sent ::= _ |>). unfold socket_egress.
  destruct (egress_loop s1 false d1 i1) as [[[[i2 d2] s2] eg]|] eqn:He; cbn [mbind outcome_bind]; [|done].
  apply egress_loop_spends in He as [[Hrx Htx] Hspend]. change (dev_rx d1) with rx1 in Hrx.
  change (dev_tx d1) with (dev_tx d) in *. destruct (ing || eg) eqn:Hany; [|done]. apply IH. rewrite Hrx. destruct eg.
  - destruct (Hspend eq_refl) as [?|?]; [done|lia].
  - destruct ing; [|done]. destruct (Hing eq_refl) as [?|Hr]; [done|]. specialize (Hlt Hr). lia.
Qed.
End Progress.

(** C10: [poll] ends: the loop goes around at most once for each transmit token the
    device gives and once for each burst of frames that arrives while it runs, and
    once more, whatever the frames are, whatever the sockets want to send and whatever
    [preprocess] does to them.  A device that keeps on giving frames, such as the
    loopback, or tokens can keep it going.  (It may end in a panic, as IfaceFindings.v
    shows; what it does not do is go on.) *)
Theorem poll_terminates {BO : ByteOrder} {AV : Vec IpCidr} {RV : Vec Route} {LM : LinearMap Address Neighbor}
    rounds timestamp (d : Device) slots i
    (Hrounds : tokens (dev_tx d) + bursts (dev_rx d) < rounds) :
  poll rounds timestamp d slots i <> Ret None.
Proof.
  unfold poll. destruct (ipv4_egress _ _ _ _) as [[[frag tx] [frame|]]|] eqn:He; cbn [mbind outcome_bind]; [done| |done].
  apply ipv4_egress_spends in He. apply poll_loop_ends. change (tokens tx + bursts (dev_rx d) < rounds). lia.
Qed.

Section Witness.
#[local] Existing Instance network_endian.
Import Hosts.

(** A host with an established connection on which nothing happens. *)
Definition idle_slots : list (option Item) :=
  [None; Some (mkItem (Meta.mk 1 (Meta.Waiting (Ipv4 addr_b) 2000000%Z)) (SocketTcp established_socket))].
Definition idle_interface : Interface := mkInterface host_a empty_fragments (Fragmenter.new 0).
Definition idle_device : Device := mkDevice [None; Some (plain_rx [1; 2; 3]%Z, blank_token)] [Some blank_token] [].

(** The deadline is asked for at 1 s, and the poll is half a second later. *)
Lemma poll_before_deadline_is_idle_witness :
  exists i'' slots', poll 1 1500000%Z idle_device idle_slots (idle_interface <| inner ::= fun inn => inn <| if_now := 1000000%Z |> |>) =
      Ret (Some (i'', idle_device <| dev_rx ::= tail |>, slots', false)) /\ Forall2 same_socket idle_slots slots'.
Proof.
  apply (poll_before_deadline_is_idle 1 1000000%Z 1500000%Z idle_device idle_slots idle_interface
    (idle_interface <| inner ::= fun inn => inn <| if_now := 1000000%Z |> |>) (Some 2000000%Z)); [lia|lia|exact I| |lia|].
  - reflexivity.
  - constructor.
Defined.

(** A frame arrives after the device had none. *)
Lemma poll_terminates_witness : poll 3 1000000%Z idle_device idle_slots idle_interface <> Ret None.
Proof. apply (poll_terminates 3). cbn. lia. Defined.

(** [Interface::new] takes any hardware address: the documentation says that
    creating an interface panics if the address is not unicast, but only
    [set_hardware_addr] checks it. *)
Theorem new_accepts_multicast_address :
  (exists i, new 8 1 4 1500 (mkConfig 7 (HwEthernet EthernetAddress.BROADCAST)) (mkDeviceCapabilities MediumEthernet 1514 None all_checksums) 0%Z =
     Ret (Some i) /\ hardware_addr (inner i) = HwEthernet EthernetAddress.BROADCAST) /\
  set_hardware_addr (HwEthernet EthernetAddress.BROADCAST) idle_interface = Panic.
Proof. split; [|done]. eexists. split; [reflexivity|done]. Qed.
End Witness.
