(* ===== verification/TcpFindings.v ===== *)
(** * Runs of the TCP socket that end badly

    Each theorem is a run of the modelled socket, evaluated, that shows a
    behaviour the code does not intend: a connection that cannot close, a panic
    a peer can trigger, data that is lost. *)

From S2P Require Import Prelude RingBuffer Assembler Time SeqNumber Ip TcpWire TcpTimers.
From S2P Require Import Congestion Context TcpSocket TcpLogic TcpRun.
Import Scenario.
Open Scope Z_scope.

(** C40: the acknowledgement of a socket that uses SACK panics when the lowest range
    received out of order begins below sequence number 0 and reaches it: the ranges of
    the option are [usize] sums on sign-extended sequence numbers, which overflow
    there.  Whatever segment is acknowledged, and whatever else the socket holds. *)
Theorem sack_ranges_overflow ip_repr repr s c rest
    (Hsack : remote_has_sack s = true) (Hasm : assembler s = c :: rest) (Hdata : (0 < data_size c)%nat)
    (Hneg : rcv_nxt s < 0) (Hcross : 0 <= rcv_nxt s + Z.of_nat (Contig.total_size c)) :
  ack_reply ip_repr repr s = Panic.
Proof.
  assert (Assembler.next (Assembler.iter_data (seq_as_usize (rcv_nxt s)) (c :: rest)) = Panic) as Hnext.
  { pose proof (wrap_i_range 32 (remote_seq_no s + zlen (rx_buffer s)) ltac:(lia)) as Hr. fold (rcv_nxt s) in Hr.
    unfold Assembler.next, Assembler.iter_data, seq_as_usize.
    replace (wrap_u 64 (rcv_nxt s)) with (rcv_nxt s + 2 ^ 64).
    2: { unfold wrap_u. by rewrite <-(Z.mod_add _ 1), Z.mul_1_l, Z.mod_small by lia. }
    cbn [it_assembler it_index length Nat.sub Assembler.next_loop it_left it_offset].
    change ((c :: rest) !!! 0%nat) with c. rewrite (proj2 (Nat.ltb_lt _ _)) by lia.
    destruct (uadd USIZE_MAX (Z.of_nat (0 + hole_size c)) _); cbn [mbind outcome_bind]; [|done].
    unfold uadd, Contig.total_size in *. by rewrite (proj2 (Z.ltb_lt _ _)) by lia. }
  unfold ack_reply. destruct (reply ip_repr repr) as [[ip r]|]; cbn [mbind outcome_bind]; [|done].
  unfold seq_add. destruct (_ <? _); [done|]. cbn [mbind outcome_bind]. fold (rcv_nxt s). sock_simpl. rewrite Hsack.
  unfold sack_block. rewrite Hasm. destruct (local_rx_last_seq s) as [last|].
  - unfold Assembler.find. cbn [Assembler.find_loop]. by rewrite Hnext.
  - cbn [mbind outcome_bind]. by rewrite Hnext.
Qed.

Section Runs.

(** A run of a socket with receive storage [rx]. *)
Definition run_with (rx : list Z) (es : list event) : outcome (Socket * Context * list observation) :=
  socket_run 4 cc rx buffer es cx.

Definition ack (seq : SeqNumber) : event := EvSegment peer_ip (segment ControlNone seq (Some (iss + 1)) []).

Definition sends (P : TcpRepr -> Prop) (o : observation) : Prop :=
  match o_packet o with Some (_, r) => P r | None => False end.

Definition latest (os : list observation) : option observation := os !! Nat.pred (length os).

(** Closing a socket in SYN-RECEIVED loses the FIN. The ACK of the SYN is
    taken for the ACK of a FIN that was never sent: the socket reaches FIN-WAIT-2
    and the peer never learns that the stream ended. *)
Theorem close_in_syn_received_loses_fin :
  exists s cx' os, run_with buffer (handshake ++ [EvClose; ack 100; EvDispatch true]) = Ret (s, cx', os) /\
    state s = FinWait2 /\ ~ Exists (sends (fun r => control r = Fin)) os.
Proof.
  do 3 eexists. split; [vm_compute; reflexivity|]. split; [reflexivity|].
  intros H. repeat (apply Exists_cons in H as [H|H]; [by cbn in H|]). by apply Exists_nil in H.
Qed.

(** A peer that was granted SACK can make the socket panic: a segment out of order
    whose range crosses sequence number 0. *)
Definition sack_run : list event :=
  [EvListen (mkListen None 80);
   EvSegment peer_ip ((segment Syn (-6) None []) <| sack_permitted := true |>); EvDispatch true; ack (-5)].

Theorem sack_overflow_reached :
  run_with buffer (sack_run ++ [EvSegment peer_ip (segment ControlNone (-1) (Some (iss + 1)) [1; 2; 3; 4; 5])]) = Panic.
Proof. vm_compute. reflexivity. Qed.

(** The socket of that run when the segment has been recorded. *)
Definition overflowing : Socket :=
  match run_with buffer sack_run with
  | Ret (s, _, _) => s <| assembler := mkContig 4 5 :: tail (assembler s) |>
  | Panic => established_socket
  end.

Lemma sack_ranges_overflow_witness :
  ack_reply peer_ip (segment ControlNone (-1) (Some (iss + 1)) [1; 2; 3; 4; 5]) overflowing = Panic.
Proof.
  apply (sack_ranges_overflow _ _ overflowing (mkContig 4 5) (tail (assembler overflowing)));
    [vm_compute; reflexivity|vm_compute; reflexivity|cbn; lia|by vm_compute|by vm_compute].
Defined.

(** A FIN is taken although the end of its segment was cut off at the right
    edge of the receive window: of the six octets the peer sends only four arrive,
    and the application is told that the stream is finished. *)
Theorem truncated_fin_ends_stream :
  exists s cx' os,
    run_with (repeat 0 4) (handshake ++
      [EvSegment peer_ip (segment Fin 100 (Some (iss + 1)) [1; 2; 3; 4; 5; 6]); EvRecv (repeat 0 8);
       EvRecv (repeat 0 8)]) = Ret (s, cx', os) /\
    concat (map o_read os) = [1; 2; 3; 4] /\ o_finished <$> latest os = Some true.
Proof. do 3 eexists. split; [vm_compute; reflexivity|]. split; reflexivity. Qed.

(** The peer has closed its half; the application sends three octets, which are
    lost; a duplicate ACK arrives. *)
Definition close_wait_run : list event :=
  handshake ++ [EvSegment peer_ip (segment Fin 100 (Some (iss + 1)) []); EvDispatch true;
                EvSend [7; 8; 9]; EvDispatch true; ack 101].

(** In CLOSE-WAIT a duplicate ACK stops the retransmission timer: three octets
    are sent and not acknowledged, the socket has nothing to do and asks to be
    polled only when something arrives. The octets are never sent again. *)
Theorem close_wait_duplicate_ack_stops_retransmission :
  exists s cx' os, run_with buffer close_wait_run = Ret (s, cx', os) /\
    state s = CloseWait /\ RingBuffer.contents (tx_buffer s) = [7; 8; 9] /\
    seq_dist (local_seq_no s) (remote_last_seq s) = 3 /\
    poll_at (cx' <| now := 3600000000 |>) s = Ret PollIngress.
Proof. do 3 eexists. split; [vm_compute; reflexivity|]. by split_and!. Qed.

(** The garbage octet of a keep-alive can lie in sequence space that is sent
    and not acknowledged: the octet 0 goes out at the place of the 9 the
    application wrote there. *)
Theorem keep_alive_octet_in_flight :
  exists s cx' os,
    run_with buffer (EvSetKeepAlive (Some 1000000) :: close_wait_run ++ [EvTime 5000000; EvDispatch true])
      = Ret (s, cx', os) /\
    RingBuffer.contents (tx_buffer s) = [7; 8; 9] /\
    (exists o, latest os = Some o /\
       sends (fun r => payload r = [0] /\ seq_dist (local_seq_no s) (seq_number r) = 2) o).
Proof.
  do 3 eexists. split; [vm_compute; reflexivity|]. split; [reflexivity|].
  eexists. split; [reflexivity|]. by split.
Qed.
End Runs.
