(* ===== verification/TcpSpec.v ===== *)
(** * What a segment may do to a socket, and a socket to its peer

    The handlers refine the state machine of RFC 793; segments outside the
    receive window, or whose acknowledgement is not acceptable, change nothing;
    and what the socket sends fits the window and the segment size of its peer. *)

From S2P Require Import Prelude RingBuffer Assembler Time SeqNumber Ip TcpWire TcpTimers.
From S2P Require Import Congestion Context TcpSocket TcpLogic TcpSegment TcpProcess.
From S2P Require Import TcpTransitions TcpDispatch TcpRun.
Open Scope Z_scope.

Section Segments.
Variables (t0 : Instant) (ip_repr : IpRepr) (repr : TcpRepr) (s : Socket) (cx : Context).
Hypothesis Hworld : world_ok t0 s cx.
Hypothesis Hseg : seg_ok repr.
Hypothesis Hsack : sack_ok s.
Hypothesis Haccepts : accepts ip_repr repr s = true.

(** C7: processing a segment returns, keeps the invariant, and is a step of the
    abstract TCP machine: the state moves along a transition of RFC 793 whose
    conditions the segment meets ([transition]); the receive side is unchanged,
    synchronised by a SYN, or extended by exactly the octets of the payload that
    fall in the window ([rx_step]); the transmit side loses exactly the octets
    the segment acknowledges ([tx_step]). *)
Theorem process_refines_rfc793 :
  exists s' cx' reply, process ip_repr repr s cx = Ret (s', cx', reply) /\
    sock_inv t0 s' /\ transition s repr (state s') /\ rx_step s repr s' /\ tx_step s repr s'.
Proof.
  destruct Hworld as (Hinv & Hclock & _).
  pose proof (process_ok t0 ip_repr repr cx Hclock Hseg s Hinv Hsack Haccepts) as Hp.
  destruct (process ip_repr repr s cx) as [[[s' cx'] r]|]; [|done].
  destruct Hp as [_ (? & ? & ? & ?)]. eauto 10.
Qed.

(** C22: a segment that an attacker who cannot see the connection would forge is
    harmless: when its acknowledgement is not acceptable, or, in a synchronized
    state, when it does not overlap the receive window (a RST or SYN included),
    the state of the socket, its buffers and its sequence numbers stay the same. *)
Theorem unacceptable_segments_ignored :
  ~ ack_ok s repr \/ (synchronized (state s) /\ ~ in_window s repr) ->
  exists s' cx' reply, process ip_repr repr s cx = Ret (s', cx', reply) /\
    state s' = state s /\ rx_same s s' /\ tx_same s s'.
Proof.
  intros Hbad. destruct Hworld as (Hinv & Hclock & _).
  set (Q (_ : option packet) s' (cx' : Context) := quiet t0 s s').
  assert (returns (process ip_repr repr s cx) (fun '(s', cx', r) => Q r s' cx')) as Hp.
  { unfold process. apply wp_run. unfold process_body.
    apply wp_bind, wp_get, wp_bind, wp_lift. rewrite Haccepts. cbn [rust_assert returns].
    assert (state s <> Closed) as Hncl.
    { intros Hst. unfold accepts in Haccepts. by rewrite bool_decide_eq_true_2 in Haccepts. }
    apply wp_bind, (check_ack_ok t0); try done. intros Hack.
    destruct Hbad as [|[Hsync Hout]]; [done|].
    apply wp_bind, (trim_segment_ok t0); try done.
    destruct Hsync as (? & ? & ?). by intros [|]. }
  destruct (process ip_repr repr s cx) as [[[s' cx'] r]|]; [|done].
  destruct Hp as (_ & ? & ? & ?). eauto 10.
Qed.
End Segments.

(** ** What is sent *)

(** The packet goes to the peer, acknowledges what was received and fits. *)
Definition fits_peer (cx : Context) (s : Socket) (tp : Tuple) (p : packet) : Prop :=
  let '(ip, r) := p in
  IpRepr.src_addr ip = ep_addr (local tp) /\ IpRepr.dst_addr ip = ep_addr (remote tp) /\
  src_port r = ep_port (local tp) /\ dst_port r = ep_port (remote tp) /\
  IpRepr.payload_len ip = Repr.buffer_len r /\
  (ack_number r = Some (rcv_nxt s) \/ ack_number r = None /\ state s = SynSent) /\
  (payload r <> [] -> payload r <> [0] ->
    let off := seq_dist (local_seq_no s) (seq_number r) in
    let len := Z.of_nat (length (payload r)) in
    len <= Z.min (ip_mtu cx - ip_header_len (ep_addr (local tp)) - TCP_HEADER_LEN) (remote_mss s) /\
    0 <= off /\ off + len <= Z.min (zlen (tx_buffer s)) (remote_win_len s)).

Lemma emitted_fits t0 cx s p tp :
  sock_inv t0 s -> 60 <= ip_mtu cx -> tuple s = Some tp -> emitted t0 cx s p -> fits_peer cx s tp p.
Proof.
  intros Hinv Hmtu Htp (s' & tp' & ka & (Hinv' & (Hrx & Hb & Hl & Hw & Hm) & Htp' & Hst & Hr) & Htp2 & Hbuilt & _ & Hlen & _).
  assert (tp' = tp) as -> by congruence. destruct p as [ip r]. cbn [fst snd] in *.
  destruct Hbuilt as (? & ? & ? & ? & Hack & _ & Hbody).
  assert (rcv_nxt s' = rcv_nxt s) as Hn.
  { destruct Hrx as (Hrx & _ & Hq & _). unfold rcv_nxt. by rewrite Hrx, Hq. }
  unfold fits_peer. split_and!; try done.
  - unfold carries_ack in Hack. rewrite Hn in Hack. case_decide as Hss; [right|by left].
    split; [done|]. destruct Hst; congruence.
  - intros Hne Hne0. destruct ka; [by destruct Hbody as (_ & ? & _)|].
    destruct Hbody as (Hq & (_ & Hfit & Hle) & Hctl). specialize (Hfit Hne).
    rewrite Hb, Hl, Hw in Hfit. unfold mss_of in Hle. rewrite Hm in Hle.
    cbn zeta. rewrite Hq. split; [done|]. split; [|done].
    assert (state s' <> Closed /\ state s' <> Listen) as [Hc1 Hc2].
    { pose proof (si_tuple _ _ Hinv') as Ht. rewrite Htp', Htp in Ht. split; [|by destruct Ht].
      intros Hc. unfold control_ok in Hctl. rewrite Hc in Hctl. destruct (control r); intuition done. }
    pose proof (si_flight _ _ Hinv' Hc1 Hc2) as Hf. rewrite Hl in Hf. lia.
Qed.

(** C23: a packet offered to the device is addressed to the peer of the
    connection, acknowledges exactly the octets received in order, its payload
    (the octet of a keep-alive apart) is at most the segment size of the peer and
    what the MTU leaves, and lies inside the window the peer advertised, at
    the right of the first unacknowledged octet. *)
Theorem offered_packets_fit_peer t0 s cx p tp :
  world_ok t0 s cx -> tuple s = Some tp -> offered s cx = Some p -> fits_peer cx s tp p.
Proof.
  intros Hw Htp Hp. pose proof (offered_ok t0 s cx p Hw Hp) as He.
  destruct Hw as (Hinv & _ & Hmtu). by apply (emitted_fits t0).
Qed.

(** ** Witnesses *)

Lemma process_refines_rfc793_witness :
  let repr := Scenario.segment ControlNone 102 (Some (Scenario.iss + 1)) [3; 4] in
  exists s' cx' reply,
    process Scenario.peer_ip repr established_socket established_context = Ret (s', cx', reply) /\
    sock_inv 0 s' /\ transition established_socket repr (state s') /\
    rx_step established_socket repr s' /\ tx_step established_socket repr s'.
Proof.
  apply (process_refines_rfc793 0).
  - apply established_ok.
  - constructor; cbv -[Z.le Z.lt]; lia.
  - intros H. vm_compute in H. discriminate H.
  - vm_compute. reflexivity.
Defined.

(** A RST outside the window. *)
Lemma unacceptable_segments_ignored_witness :
  let repr := Scenario.segment Rst 5000 None [] in
  exists s' cx' reply,
    process Scenario.peer_ip repr established_socket established_context = Ret (s', cx', reply) /\
    state s' = Established /\ rx_same established_socket s' /\ tx_same established_socket s'.
Proof.
  apply (unacceptable_segments_ignored 0).
  - apply established_ok.
  - constructor; cbv -[Z.le Z.lt]; lia.
  - intros H. vm_compute in H. discriminate H.
  - vm_compute. reflexivity.
  - right. split; [by split_and!|]. intros H. vm_compute in H. discriminate H.
Defined.

(** The socket with three octets to send. *)
Definition sending_socket : Socket :=
  Eval vm_compute in
    match outcome_get (send_slice [7; 8; 9] established_socket) with (s, _) => s end.

Lemma sending_ok : world_ok 0 sending_socket established_context.
Proof.
  destruct established_ok as (Hinv & ? & ?).
  pose proof (send_slice_ok 0 [7; 8; 9] established_socket Hinv) as Hs.
  assert (send_slice [7; 8; 9] established_socket = Ret (sending_socket, Ok 3%nat)) as Hr
    by (vm_compute; reflexivity).
  rewrite Hr in Hs. by destruct Hs as (? & _).
Qed.

Lemma offered_packets_fit_peer_witness :
  exists p tp, offered sending_socket established_context = Some p /\
    fits_peer established_context sending_socket tp p.
Proof.
  eexists _, _. split; [vm_compute; reflexivity|].
  apply (offered_packets_fit_peer 0); [apply sending_ok|reflexivity|vm_compute; reflexivity].
Defined.
