(* ===== verification/TcpEndToEnd.v ===== *)
(** * From one application to another

    A socket connects and sends; another one receives.  The network between them
    may lose, duplicate, delay and reorder the segments, and add segments without
    data of its own.  What the second application reads is a prefix of what the
    first one wrote. *)

From S2P Require Import Prelude RingBuffer Assembler Time SeqNumber Ip TcpWire TcpTimers.
From S2P Require Import Congestion Context TcpSocket TcpLogic TcpSegment TcpProcess.
From S2P Require Import TcpTransitions TcpDispatch TcpRun TcpStream.
Open Scope Z_scope.

(** ** The sender *)

Section Sender.
Variable (iss : SeqNumber).
Implicit Types (W : list Z) (s : Socket).

(** The FIN of the application may have been sent. *)
Definition ending (st : State) : Prop :=
  match st with Established | CloseWait | SynSent => False | _ => True end.

(** A socket that was connected and has written [W] since. *)
Definition client W s : Prop :=
  match state s with
  | SynSent => W = [] /\ local_seq_no s = iss
  | Established | CloseWait | FinWait1 | Closing | LastAck => in_step iss W s
  | Closed | FinWait2 | TimeWait => True
  | Listen | SynReceived => False
  end.

Lemma client_aligned W s : client W s -> tx_aligned iss W s.
Proof. unfold client, tx_aligned. destruct (state s); auto; done. Qed.

(** A segment of the sender, at its place in the stream [W]. *)
Definition placed_at W (pos : nat) (r : TcpRepr) : Prop :=
  (pos + length (payload r) <= length W)%nat /\ seq_number r = wrap_i 32 (iss + 1 + Z.of_nat pos) /\
  payload r = slice W pos (length (payload r)).

Definition sent_by W (r : TcpRepr) : Prop :=
  match control r with
  | Syn => seq_number r = iss
  | Fin => exists pos, placed_at W pos r /\ (pos + length (payload r))%nat = length W
  | _ => payload r = [] \/ exists pos, placed_at W pos r
  end.

Lemma same_client W s s' :
  client W s -> tx_buffer s' = tx_buffer s -> local_seq_no s' = local_seq_no s ->
  state s' = state s \/ state s' = Closed -> client W s' /\ (ending (state s) -> ending (state s')).
Proof.
  intros Hc Hb Hl Hst. unfold client, in_step in *. rewrite Hb, Hl.
  by destruct Hst as [-> | ->].
Qed.

Lemma transition_client s repr st :
  transition s repr st -> state s <> Listen -> state s <> SynReceived ->
  st <> Listen /\ st <> SynReceived /\ (ending (state s) -> ending st) /\ (st = SynSent -> state s = SynSent).
Proof.
  intros [| | | | | | |[[]|H]| | | | | |] ? ?; split_and!; try done.
  all: repeat match goal with H : state _ = _ |- _ => rewrite H; clear H end; done.
Qed.

(** An acknowledgement of [n] octets and [flags] control flags. *)
Lemma acked_client t0 W s s' n flags :
  sock_inv t0 s -> client W s -> state s' <> SynSent -> state s' <> Listen -> state s' <> SynReceived ->
  (state s = Closed \/ state s = FinWait2 \/ state s = TimeWait ->
   state s' = Closed \/ state s' = FinWait2 \/ state s' = TimeWait) ->
  (ending (state s) -> ending (state s')) ->
  local_seq_no s' = wrap_i 32 (local_seq_no s + n + flags) -> 0 <= n <= zlen (tx_buffer s) ->
  0 <= flags <= control_len (state s) -> ((sent_flags (state s)).1 = true -> flags = 1) ->
  state s' = Closed \/ control_len (state s) = flags + control_len (state s') ->
  RingBuffer.contents (tx_buffer s') = drop (Z.to_nat n) (RingBuffer.contents (tx_buffer s)) ->
  client W s'.
Proof.
  intros Hinv Hc Hs1 Hs2 Hs3 Hq He Hl Hn Hfl Hsyn Hcl Hcont.
  destruct (decide (state s' = Closed \/ state s' = FinWait2 \/ state s' = TimeWait)) as [Hd|Hd].
  { unfold client. by destruct Hd as [->|[-> | ->]]. }
  assert (in_step iss W s' -> client W s') as Hgo by (unfold client; destruct (state s'); tauto).
  destruct Hcl as [|Hcl]; [tauto|]. apply Hgo. destruct (si_tx _ _ Hinv) as [Hwf _].
  assert (length (RingBuffer.contents (tx_buffer s)) = Z.to_nat (zlen (tx_buffer s))) as Hlen.
  { rewrite length_contents by done. unfold zlen, RingBuffer.len. lia. }
  assert (flags = 0 -> in_step iss W s -> in_step iss W s') as Hstep.
  { intros Hf0 (a & Haw & Hca & Hla). exists (a + Z.to_nat n)%nat. rewrite Hca, length_drop in Hlen.
    split_and!; [lia|by rewrite Hcont, Hca, drop_drop|].
    rewrite Hl, Hla, Hf0, Z.add_0_r, wrap_i_add_l by lia. f_equal. lia. }
  unfold client in Hc. destruct (state s) eqn:Hst; try done.
  all: try (apply Hstep; [|done]; destruct (state s'); cbn in *; try tauto; lia).
  all: try (destruct Hd; apply Hq; tauto).
  - destruct Hc as [-> Hls], (si_handshake _ _ Hinv ltac:(tauto)) as (_ & Hz & _).
    exists 0%nat. rewrite Hcont, (contents_zlen _ Hwf Hz), drop_nil. split_and!; [done|done|].
    rewrite Hl, Hls, (Hsyn eq_refl). f_equal. lia.
Qed.

Lemma process_client t0 W s repr s' :
  sock_inv t0 s -> client W s -> process_post t0 repr s s' ->
  client W s' /\ (ending (state s) -> ending (state s')).
Proof.
  intros Hinv Hc (Hinv' & Htr & _ & Htx).
  assert (state s <> Listen /\ state s <> SynReceived) as [Hn1 Hn2]
    by (split; intros H; unfold client in Hc; by rewrite H in Hc).
  destruct (transition_client s repr _ Htr Hn1 Hn2) as (Hm1 & Hm2 & He & Hss). split; [|done].
  destruct Htx as [(Hb & Hl & _) Hst| |ack n flags Ha Hnl Hst' Hl Hack Hn Hfl Hsyn Hfin Hcl Hcont]; [|done|].
  - apply (same_client W s s'); try done. by destruct Hst as [|[|]]; auto.
  - apply (acked_client t0 W s s' n flags); try done; [tauto| |congruence].
    by apply (transition_quiet s repr).
Qed.

(** A FIN is sent once, at the end of the stream. *)
Lemma fin_placed t0 W s s' r off :
  sock_inv t0 s -> sock_inv t0 s' -> client W s -> state s' = state s -> wants_fin (state s') = true ->
  tx_buffer s' = tx_buffer s -> local_seq_no s' = local_seq_no s ->
  off = seq_dist (local_seq_no s') (remote_last_seq s') -> seq_number r = remote_last_seq s' ->
  payload r = slice (RingBuffer.contents (tx_buffer s')) (Z.to_nat off) (length (payload r)) ->
  off + Z.of_nat (length (payload r)) = zlen (tx_buffer s') ->
  exists pos, placed_at W pos r /\ (pos + length (payload r))%nat = length W.
Proof.
  intros Hinv Hinv' Hc Hst Hw Hb Hl Hoff Hq Hsl He. rewrite Hb in *.
  assert (in_step iss W s) as (a & Ha & Hca & Hla).
  { unfold client in Hc. rewrite <-Hst in Hc. by destruct (state s'). }
  assert (state s' <> Closed /\ state s' <> Listen) as [Hn1 Hn2] by (by split; intros H; rewrite H in Hw).
  pose proof (si_flight _ _ Hinv' Hn1 Hn2) as Hfl. rewrite <-Hoff in Hfl.
  pose proof (f_equal length Hca) as Hlen. rewrite length_drop, length_contents in Hlen by apply Hinv.
  unfold zlen, RingBuffer.len in *.
  exists (a + Z.to_nat off)%nat. unfold placed_at. split_and!; try lia.
  - rewrite Hq, (seq_dist_spec (local_seq_no s') (remote_last_seq s')) by apply Hinv'.
    rewrite <-Hoff, Hl, Hla, wrap_i_add_l by lia. f_equal. lia.
  - rewrite Hsl at 1. rewrite Hca. unfold slice. by rewrite drop_drop.
Qed.

Definition no_keep_alive (cx : Context) s : Prop :=
  keep_alive s = None /\ Timer.should_keep_alive (now cx) (timer s) = false.

Lemma emitted_sent t0 cx W s p :
  sock_inv t0 s -> client W s -> no_keep_alive cx s -> emitted t0 cx s p ->
  sent_by W p.2 /\ (control p.2 = Fin -> ending (state s)).
Proof.
  intros Hinv Hc [Hka1 Hka2] (s' & tp & ka & Hstep & Htp & Hbuilt & Hka & _ & Hsyn).
  pose proof Hstep as (Hinv' & (_ & Hb & Hl & _) & _ & Hst & _ & Ht). destruct ka.
  { exfalso. specialize (Hka eq_refl). destruct Ht as [Ht|(k & Hk & Ht)]; rewrite Ht in Hka; [congruence|].
    rewrite Hka1 in Hk. by injection Hk as <-. }
  pose proof (built_stream t0 cx s s' tp p iss W Hinv (client_aligned W s Hc) Hstep Htp Hbuilt) as Hdata.
  destruct Hbuilt as (_ & _ & _ & _ & _ & _ & Hq & (Hsl & _) & Hctl).
  unfold sent_by, control_ok in *. destruct (control p.2); try done.
  - split; [|done]. destruct Hctl as [Hss _]. rewrite Hq, (Hsyn Hss), Hl.
    destruct Hst as [Hst|Hst]; [rewrite Hst in Hss; by destruct Hss|].
    unfold client in Hc. rewrite <-Hst in Hc. destruct Hss as [H|H]; rewrite H in Hc; [by destruct Hc|done].
  - destruct Hctl as [Hw He]. destruct Hst as [Hst|Hst]; [by rewrite Hst in Hw|].
    split; [by apply (fin_placed t0 W s s' p.2 (seq_dist (local_seq_no s') (remote_last_seq s')))|].
    intros _. rewrite <-Hst. by destruct (state s').
Qed.

(** ** Runs of the sender *)

(** Once connected, the application does not use the socket for another
    connection. *)
Definition client_event (e : event) : Prop :=
  match e with EvListen _ | EvConnect _ _ => False | _ => True end.

Definition client_step W s s' (written : list Z) : Prop :=
  client (W ++ written) s' /\ (ending (state s) -> ending (state s') /\ written = []).

Lemma quiet_client W s s' :
  client W s -> tx_buffer s' = tx_buffer s -> local_seq_no s' = local_seq_no s ->
  state s' = state s \/ state s' = Closed -> client_step W s s' [].
Proof.
  intros Hc Hb Hl Hst. unfold client_step. rewrite app_nil_r.
  destruct (same_client W s s' Hc Hb Hl Hst). tauto.
Qed.

Lemma close_client W s : client W s -> client_step W s (close s) [].
Proof.
  intros Hc. unfold client_step, client, close in *. rewrite app_nil_r.
  destruct (state s) eqn:Hst; try done; cbn; rewrite ?Hst; auto.
Qed.

Lemma send_client W s s' data n :
  client W s -> sent_only s s' -> may_send s = true ->
  RingBuffer.contents (tx_buffer s') = RingBuffer.contents (tx_buffer s) ++ take n data ->
  client_step W s s' (take n data).
Proof.
  intros Hc (_ & Hst & _ & Hl & _) Hm Hcont. apply may_send_open in Hm.
  unfold client_step, client in *. rewrite Hst.
  assert (in_step iss W s -> in_step iss (W ++ take n data) s') as Hstep.
  { intros (a & Ha & Hca & Hla). exists a. rewrite length_app, Hcont, Hca, drop_app_le by done.
    split_and!; [lia|done|congruence]. }
  destruct Hm as [H|H]; rewrite H in *; split; auto; done.
Qed.

Lemma exec_client t0 W e s cx :
  world_ok t0 s cx -> admissible t0 e s -> client_event e -> client W s ->
  returns (exec e s cx) (fun '(s', _, o) => client_step W s s' (o_written o)).
Proof.
  intros Hw Ha He Hc. pose proof Hw as (Hinv & Hclock & Hmtu).
  assert (client_step W s s []) as Hself by (apply quiet_client; auto).
  destruct e; cbn [exec admissible] in *; cbn [returns]; try done; try (by apply quiet_client; auto).
  - by apply close_client.
  - apply returns_bind. eapply returns_mono; [|by apply (send_slice_ok t0)].
    intros [s' r] (_ & Hso & Hr). cbn [returns]. destruct r as [n|err].
    + destruct Hr as (? & ? & ?). by apply send_client.
    + by destruct Hr as [_ ->].
  - apply returns_bind. eapply returns_mono; [|by apply (recv_slice_ok t0)].
    intros [s' r] (Hinv' & Hr). cbn [returns]. destruct r as [[out n]|err].
    + destruct Hr as (? & ? & (? & ? & _) & _). apply quiet_client; auto.
    + destruct Hr as (-> & _). by destruct err.
  - apply quiet_client; unfold set_keep_alive; destruct d; auto.
  - destruct Ha as [Hseg Hsack]. destruct (accepts ip_repr repr s) eqn:Hacc; [|done].
    apply returns_bind. eapply returns_mono; [|by apply (process_ok t0)].
    intros [[s' cx'] r] [_ Hpost]. cbn [returns o_written]. unfold client_step. rewrite app_nil_r.
    destruct (process_client t0 W s repr s' Hinv Hc Hpost). auto.
  - apply returns_bind. eapply returns_mono; [|by apply (dispatch_device_ok t0)].
    intros [[s' cx'] r] [[_ [[(_ & ? & ? & _) Hst]|(Hst & _)]] _]; cbn [returns o_written].
    + apply quiet_client; auto. destruct Hst; auto.
    + unfold client_step, client. by rewrite Hst.
Qed.

(** The segments a dispatch hands to a device that takes them. *)
Definition dispatched (e : event) (o : observation) : list TcpRepr :=
  match e, o_packet o with EvDispatch _, Some p => [p.2] | _, _ => [] end.

(** A run with the octets written and the segments sent. *)
Fixpoint client_run (es : list event) s (cx : Context) W (sent : list TcpRepr) :
    outcome (Socket * Context * list Z * list TcpRepr) :=
  match es with
  | [] => Ret (s, cx, W, sent)
  | e :: es =>
      '(s, cx, o) ← exec e s cx;
      client_run es s cx (W ++ o_written o) (sent ++ dispatched e o)
  end.

(** No other connection, and no keep-alive is due when the socket is polled. *)
Fixpoint client_admissible (t0 : Instant) (es : list event) s (cx : Context) : Prop :=
  match es with
  | [] => True
  | e :: es => admissible t0 e s /\ client_event e /\
      match e with EvDispatch _ => no_keep_alive cx s | _ => True end /\
      match exec e s cx with
      | Ret (s, cx, _) => client_admissible t0 es s cx
      | Panic => True
      end
  end.

Definition all_sent W (sent : list TcpRepr) s : Prop :=
  forall r, r ∈ sent -> sent_by W r /\ (control r = Fin -> ending (state s)).

Lemma sent_by_app W W' r : sent_by W r -> control r <> Fin -> sent_by (W ++ W') r.
Proof.
  unfold sent_by. intros Hs Hf.
  assert ((payload r = [] \/ exists pos, placed_at W pos r) ->
    payload r = [] \/ exists pos, placed_at (W ++ W') pos r) as Hgo.
  { intros [|(pos & Hp & ? & Hsl)]; [by left|right]. exists pos. split_and!; [rewrite length_app; lia|done|].
    rewrite Hsl at 1. unfold slice. rewrite drop_app_le, take_app_le by (rewrite ?length_drop; lia). done. }
  destruct (control r); auto; done.
Qed.

Lemma dispatched_sent t0 cx W e s s' cx' o :
  world_ok t0 s cx -> client W s -> match e with EvDispatch _ => no_keep_alive cx s | _ => True end ->
  exec e s cx = Ret (s', cx', o) -> forall r, r ∈ dispatched e o ->
  sent_by W r /\ (control r = Fin -> ending (state s)) /\ o_written o = [].
Proof.
  intros Hw Hc Hk He r Hr. destruct e; try (by apply not_elem_of_nil in Hr). cbn [exec] in He.
  pose proof (dispatch_device_ok t0 takes s cx Hw) as Hd.
  destruct (dispatch (device takes) s cx) as [[[s1 cx1] res]|]; [|done]. destruct Hd as [_ [Hn Hm]].
  injection He as <- <- <-. cbn in Hr. destruct takes; [|by apply not_elem_of_nil in Hr].
  destruct (offered s cx1) as [p|] eqn:Hp; [|by apply not_elem_of_nil in Hr].
  apply list_elem_of_singleton in Hr as ->.
  assert (world_ok t0 s cx1) as Hw1.
  { destruct Hw as (? & ? & ?). split_and!; [done|unfold clock; by rewrite Hn|by rewrite Hm]. }
  assert (no_keep_alive cx1 s) as Hk1 by (unfold no_keep_alive; by rewrite Hn).
  destruct (emitted_sent t0 cx1 W s p) as [? ?]; try done; [apply Hw|by apply (offered_ok t0)].
Qed.

Lemma client_run_ok t0 es s cx W sent :
  world_ok t0 s cx -> client_admissible t0 es s cx -> client W s -> all_sent W sent s ->
  returns (client_run es s cx W sent) (fun '(s', _, W', sent') => all_sent W' sent' s').
Proof.
  revert s cx W sent. induction es as [|e es IH]; intros s cx W sent Hw Ha Hc Hs; [done|].
  destruct Ha as (Ha & Hce & Hk & Has). cbn [client_run].
  pose proof (exec_ok t0 e s cx Hw Ha) as Ho. pose proof (exec_client t0 W e s cx Hw Ha Hce Hc) as Hx.
  destruct (exec e s cx) as [[[s' cx'] o]|] eqn:He; [|done]. cbn [mbind outcome_bind].
  destruct Hx as [Hc' Hend]. apply IH; try done. intros r [Hr|Hr]%elem_of_app.
  - destruct (Hs r Hr) as [Hb Hf]. destruct (decide (control r = Fin)) as [Hfin|Hfin].
    + destruct (Hend (Hf Hfin)) as [? ->]. by rewrite app_nil_r.
    + split; [by apply sent_by_app|done].
  - destruct (dispatched_sent t0 cx W e s s' cx' o Hw Hc Hk He r Hr) as (Hb & Hf & Hn).
    rewrite Hn, app_nil_r in *. split; [done|]. intros Hfin. by apply Hend, Hf.
Qed.
End Sender.

(** ** The receiver *)

Section Receiver.
Variable (iss : SeqNumber) (W : list Z) (sent : list TcpRepr).
Hypothesis Hsent : forall r, r ∈ sent -> sent_by iss W r.
(** The stream is shorter than half the sequence space: no segment, however old,
    is taken for a new one. *)
Hypothesis Hshort : Z.of_nat (length W) < 2 ^ 31 - 1.
Implicit Types (R : list Z) (s : Socket).

(** A segment the network delivers: one of the sender's, or one without data.
    The FIN does not overrun the receive window. *)
Definition delivered R s (repr : TcpRepr) : Prop :=
  (repr ∈ sent \/ payload repr = [] /\ control repr <> Syn /\ control repr <> Fin) /\
  (control repr = Fin -> Z.of_nat (length W) <= next_position R s + zwindow (rx_buffer s)).

Fixpoint delivered_run (es : list event) s (cx : Context) R : Prop :=
  match es with
  | [] => True
  | e :: es =>
      match e with EvSegment _ repr => delivered R s repr | _ => True end /\
      match exec e s cx with
      | Ret (s', cx', o) => delivered_run es s' cx' (after_event s s' R (o_read o))
      | Panic => True
      end
  end.

Lemma next_position_bounds R s :
  rx_aligned iss W R s -> 0 <= next_position R s <= Z.of_nat (length W) + 1.
Proof.
  intros []. unfold next_position. destruct (rx_fin_received s); cbn [Z.b2z].
  - specialize (ra_fin eq_refl). lia.
  - apply lookup_prefix, prefix_length in ra_read. apply holds_length in ra_holds. lia.
Qed.

(** A segment without data is at some place of the stream. *)
Lemma empty_from_stream R s repr :
  seq_range (seq_number repr) -> payload repr = [] -> control repr <> Syn -> control repr <> Fin ->
  from_stream iss W R s repr.
Proof.
  intros Hr Hp Hsyn Hfin. set (x := wrap_i 32 (iss + 1 + next_position R s)).
  assert (exists p, seq_number repr = wrap_i 32 (iss + 1 + p) /\
    - 2 ^ 31 <= p - next_position R s < 2 ^ 31) as (p & Hq & Hb).
  { exists (next_position R s + seq_dist x (seq_number repr)). split.
    - rewrite (seq_dist_spec x (seq_number repr) Hr) at 1. unfold x. rewrite wrap_i_add_l by lia. f_equal. lia.
    - pose proof (seq_dist_range x (seq_number repr)). lia. }
  unfold from_stream. rewrite Hp. destruct (control repr); try done; exists p.
  all: split_and!; [done|lia|lia|intros ? ? H; by rewrite lookup_nil in H|done].
Qed.

Lemma delivered_from_stream R s repr :
  rx_aligned iss W R s -> seg_ok repr -> delivered R s repr -> from_stream iss W R s repr.
Proof.
  intros Hra Hseg [[Hin|(Hp & Hsyn & Hfin)] Hf].
  2: { apply empty_from_stream; auto. apply Hseg. }
  pose proof (next_position_bounds R s Hra) as Hnext.
  assert (forall pos, placed_at iss W pos repr ->
    seq_number repr = wrap_i 32 (iss + 1 + Z.of_nat pos) /\
    - 2 ^ 31 <= Z.of_nat pos - next_position R s < 2 ^ 31 /\
    (forall i x, payload repr !! i = Some x -> next_position R s <= Z.of_nat pos + Z.of_nat i ->
       W !! Z.to_nat (Z.of_nat pos + Z.of_nat i) = Some x)) as Hpos.
  { intros pos (Hl & Hq & Hsl). split_and!; [done|lia|lia|].
    intros i x Hi _. rewrite Hsl in Hi. pose proof (lookup_lt_Some _ _ _ Hi) as Hlt.
    rewrite length_slice in Hlt by lia. rewrite lookup_slice in Hi by lia.
    rewrite <-Hi. f_equal. lia. }
  specialize (Hsent repr Hin). unfold sent_by, from_stream in *.
  destruct (control repr) eqn:Ec; try done.
  1, 2, 4: destruct Hsent as [He|(pos & Hp)]; [|destruct (Hpos pos Hp) as (? & ? & ?); by exists (Z.of_nat pos)].
  1, 2, 3: pose proof (empty_from_stream R s repr) as Hx; unfold from_stream in Hx; rewrite Ec in Hx;
    apply Hx; done || apply Hseg.
  destruct Hsent as (pos & Hp & Hend). destruct (Hpos pos Hp) as (? & ? & ?). exists (Z.of_nat pos).
  specialize (Hf eq_refl). split_and!; try done; try lia.
Qed.

Lemma delivered_segments t0 es s cx R :
  world_ok t0 s cx -> admissible_run t0 es s cx -> rx_aligned iss W R s -> delivered_run es s cx R ->
  segments_from_stream iss W es s cx R.
Proof.
  revert s cx R. induction es as [|e es IH]; intros s cx R Hw Ha Hra Hd; [done|].
  destruct Ha as [Ha Has], Hd as [Hd Hds].
  assert (match e with EvSegment _ repr => from_stream iss W R s repr | _ => True end) as Hf.
  { destruct e; try done. apply delivered_from_stream; [done|apply Ha|done]. }
  split; [done|]. pose proof (exec_ok t0 e s cx Hw Ha) as Ho.
  pose proof (exec_aligned iss W t0 R e s cx Hw Ha Hra Hf) as Hx.
  destruct (exec e s cx) as [[[s' cx'] o]|]; [|done]. by apply IH.
Qed.
End Receiver.

(** ** Both ends *)

Section EndToEnd.
Variables (t0 : Instant) (n : nat) (cc : AnyController) (rx tx : list Z).
Hypothesis Hn : (0 < n)%nat.
Hypothesis Hrx : Z.of_nat (length rx) <= 2 ^ 30.
Hypothesis Htx : Z.of_nat (length tx) < I32_MAX.

Lemma connected_client remote_endpoint local_endpoint a cx s cx' :
  world_ok t0 a cx -> connect remote_endpoint local_endpoint a cx = Ret (s, cx', Ok ()) ->
  world_ok t0 s cx' /\ client (local_seq_no s) [] s.
Proof.
  intros (Hinv & Hclock & Hmtu) Hc. pose proof (connect_ok t0 remote_endpoint local_endpoint a cx Hinv) as H.
  rewrite Hc in H. destruct H as (Hinv' & [H1 H2] & _ & Hst & _). split.
  - split_and!; [done|unfold clock; by rewrite H1|by rewrite H2].
  - unfold client. by rewrite Hst.
Qed.

(** C4: two sockets and any network.  One socket connects, then its application
    writes, closes and polls as it likes while arbitrary segments arrive; all
    that the other socket receives are segments the first one handed to its device (in any
    order, any number of times, or never) and segments without data from
    anywhere.  Then both runs return, and what the application of the second
    socket reads is a prefix of what that of the first one wrote; when it is told
    that the stream is finished, it has read all of it.  (No keep-alives are sent, the stream
    is shorter than half the sequence space, and the FIN does not overrun the receive window.) *)
Theorem end_to_end_prefix remote_endpoint local_endpoint (es_a es_b : list event) cxa cxb a cxa' :
  clock t0 cxa -> 60 <= ip_mtu cxa -> clock t0 cxb -> 60 <= ip_mtu cxb ->
  (s ← created n cc rx tx; connect remote_endpoint local_endpoint s cxa) = Ret (a, cxa', Ok ()) ->
  client_admissible t0 es_a a cxa' -> socket_run_admissible t0 n cc rx tx es_b cxb ->
  exists a' cxa'' W sent,
    client_run es_a a cxa' [] [] = Ret (a', cxa'', W, sent) /\
    (Z.of_nat (length W) < 2 ^ 31 - 1 ->
     match created n cc rx tx with Ret b => delivered_run W sent es_b b cxb [] | Panic => True end ->
     exists b cxb' R, (b ← created n cc rx tx; receive_run es_b b cxb []) = Ret (b, cxb', R) /\
       R `prefix_of` W /\
       (forall data b', recv_slice data b = Ret (b', Err Finished) -> R = W)).
Proof.
  intros Hca Hma Hcb Hmb Hcon Ha Hb.
  destruct (created_ok t0 n cc rx tx cxa Hn Hrx Htx Hca Hma) as (s & Hs & Hw & _).
  destruct (created_ok t0 n cc rx tx cxb Hn Hrx Htx Hcb Hmb) as (s2 & Hs2 & Hw2 & Hst & _ & Hz & _ & Hfin & Hspan).
  rewrite Hs in Hcon, Hs2. injection Hs2 as <-. cbn [mbind outcome_bind] in Hcon.
  destruct (connected_client _ _ _ _ _ _ Hw Hcon) as [Hwa Hcl].
  pose proof (client_run_ok (local_seq_no a) t0 es_a a cxa' [] [] Hwa Ha Hcl) as Hrun.
  destruct (client_run es_a a cxa' [] []) as [[[[a' cxa''] W] sent]|].
  2: { destruct Hrun. by intros r Hr%not_elem_of_nil. }
  exists a', cxa'', W, sent. split; [done|]. intros Hshort Hdel.
  unfold socket_run_admissible in Hb. fold (created n cc rx tx) in Hb. rewrite Hs in *.
  cbn [mbind outcome_bind].
  assert (rx_aligned (local_seq_no a) W [] s) as Hra.
  { apply empty_aligned; try done; [unfold zlen in Hz; lia|rewrite Hst; by intros []]. }
  assert (forall r, r ∈ sent -> sent_by (local_seq_no a) W r) as Hsent.
  { intros r Hr. apply (Hrun ltac:(by intros ? ?%not_elem_of_nil) r Hr). }
  pose proof (delivered_segments _ W sent Hsent Hshort t0 es_b s cxb [] Hw2 Hb Hra Hdel) as Hseg.
  pose proof (receive_run_aligned _ W t0 es_b s cxb [] Hw2 Hb Hseg Hra) as Hrec.
  destruct (receive_run es_b s cxb []) as [[[b cxb'] R]|]; [|done]. destruct Hrec as [[Hinv _] Hal].
  exists b, cxb', R. split; [done|]. by apply (aligned_prefix (local_seq_no a) W t0).
Qed.
End EndToEnd.

(** ** A transfer

    The socket of 10.0.0.2 connects to that of 10.0.0.1, sends three octets and
    closes; the FIN arrives first, the data twice. *)

Module Transfer.
Definition remote_endpoint : Endpoint := mkEndpoint (Ipv4 [10; 0; 0; 1]) 80.
Definition local_endpoint : ListenEndpoint := mkListen (Some (Ipv4 [10; 0; 0; 2])) 5000.
Definition from_b : IpRepr := ReprIpv4 (mkIpHeader [10; 0; 0; 1] [10; 0; 0; 2] Protocol.Tcp 20 64).

Definition connected : Socket * Context * result unit ConnectError :=
  Eval vm_compute in
    outcome_get (s ← created 4 Scenario.cc Scenario.buffer Scenario.buffer;
                 connect remote_endpoint local_endpoint s Scenario.cx).

Definition a : Socket := connected.1.1.
Definition cxa : Context := connected.1.2.

Definition syn_ack : TcpRepr := {|
  src_port := 80; dst_port := 5000; control := Syn; seq_number := Scenario.iss;
  ack_number := Some (local_seq_no a + 1); window_len := 16; window_scale := None;
  max_seg_size := None; sack_permitted := false; sack_ranges := [None; None; None]; payload := [] |}.

Definition sending : list event :=
  [EvDispatch true; EvSegment from_b syn_ack; EvSend [7; 8; 9]; EvDispatch true; EvClose; EvDispatch true].

Definition run : Socket * Context * list Z * list TcpRepr :=
  Eval vm_compute in outcome_get (client_run sending a cxa [] []).

Definition sent : list TcpRepr := run.2.

Definition receiving : list event :=
  let seg i := EvSegment Scenario.peer_ip (nth i sent syn_ack) in
  [EvListen (mkListen None 80); seg 0%nat; EvDispatch true; seg 2%nat; seg 1%nat; seg 1%nat; seg 2%nat;
   EvRecv (repeat 0 6)].
End Transfer.

Lemma client_admissible_step t0 e es s cx s' cx' o :
  admissible t0 e s -> client_event e ->
  match e with EvDispatch _ => no_keep_alive cx s | _ => True end ->
  exec e s cx = Ret (s', cx', o) -> client_admissible t0 es s' cx' ->
  client_admissible t0 (e :: es) s cx.
Proof. intros Ha Hc Hk He Hr. cbn [client_admissible]. by rewrite He. Qed.

Lemma delivered_step W sent e es s cx R s' cx' o :
  match e with EvSegment _ repr => delivered W sent R s repr | _ => True end ->
  exec e s cx = Ret (s', cx', o) -> delivered_run W sent es s' cx' (after_event s s' R (o_read o)) ->
  delivered_run W sent (e :: es) s cx R.
Proof. intros Hd He Hr. cbn [delivered_run]. by rewrite He. Qed.

Ltac solve_client_run :=
  repeat (lazymatch goal with |- client_admissible ?t ?es ?s ?cx =>
            let es' := eval hnf in es in change (client_admissible t es' s cx) end;
          eapply client_admissible_step;
            [cbn [admissible]; solve_admissible | exact I | first [exact I | split; vm_compute; reflexivity]
            | vm_compute; reflexivity |]);
  exact I.

Ltac solve_delivered :=
  repeat (lazymatch goal with |- delivered_run ?W ?sent ?es ?s ?cx ?R =>
            let es' := eval hnf in es in let R' := eval vm_compute in R in
            change (delivered_run W sent es' s cx R') end;
          eapply delivered_step;
            [ cbv iota beta; first [exact I
                | split; [left; apply list_elem_of_In; vm_compute; auto
                         | first [discriminate | intros _; vm_compute; discriminate]]]
            | vm_compute; reflexivity |]);
  exact I.

Lemma end_to_end_prefix_witness :
  exists b cx' R,
    (b ← created 4 Scenario.cc Scenario.buffer Scenario.buffer;
     receive_run Transfer.receiving b Scenario.cx []) = Ret (b, cx', R) /\
    R `prefix_of` [7; 8; 9] /\
    (forall data b', recv_slice data b = Ret (b', Err Finished) -> R = [7; 8; 9]).
Proof.
  assert (clock 0 Scenario.cx) as Hc
    by (unfold clock, in_epoch, instant_range, MAX_SAMPLE, TIME_MAX, Scenario.cx; cbn [now]; lia).
  destruct (end_to_end_prefix 0 4 Scenario.cc Scenario.buffer Scenario.buffer ltac:(lia)
    ltac:(cbn; lia) ltac:(cbn; lia) Transfer.remote_endpoint Transfer.local_endpoint Transfer.sending
    Transfer.receiving Scenario.cx Scenario.cx Transfer.a Transfer.cxa Hc ltac:(cbn; lia) Hc ltac:(cbn; lia))
    as (a' & cx' & W & sent & Hrun & H).
  - vm_compute. reflexivity.
  - solve_client_run.
  - eapply admissible_new; [vm_compute; reflexivity|]. solve_admissible_run.
  - assert (client_run Transfer.sending Transfer.a Transfer.cxa [] [] = Ret Transfer.run) as Hr
      by (vm_compute; reflexivity).
    rewrite Hr in Hrun. injection Hrun as _ _ <- <-.
    apply H; [cbn; lia|].
    match goal with |- match ?c with Ret _ => _ | Panic => _ end => let c' := eval vm_compute in c in
      change c with c' end.
    cbv beta iota. solve_delivered.
Defined.
